(* ===== verification/_CoqProject ===== *)
-Q . S2P
Prelude.v
Bytes.v
PageAlloc.v
Paging.v
X86Paging.v
Mapping.v
Cow.v
CowScratch.v
CowClone.v
CowTables.v
CowFork.v
CowSpace.v
CowFault.v
CowIsolation.v
CowTeardown.v
CowSample.v
Slab.v
SlabProof.v
SlabSample.v
Time.v
BootMem.v
Level4.v
Config.v
OpenFile.v
Process.v
Sched.v
UserMem.v
Syscall.v
Vfs.v
FileInfo.v
UserSpace.v
MemSpace.v
Exec.v
ExecLoad.v
ExecStack.v
ExecRun.v
ExecSample.v
ProcFs.v
Apic.v
BlockDev.v
AhciDevice.v
Pci.v
Ahci.v
AhciPort.v
AhciSample.v
Gpt.v
Fat.v
FatTable.v
FatFs.v
FatData.v
FatDir.v
Ext2.v
Ext2Fs.v
Ext2Blocks.v
Ext2Meta.v
Ext2Data.v
Ext2File.v
Ext2Sample.v
Disk.v
Tty.v
Console.v
