(* ===== verification/Prelude.v ===== *)
(** * Zenos: a verification development of the operating system's core

    Zenos is an x86_64 operating system in Rust: a UEFI bootloader (zenos-bootloader), a kernel
    (zenos-kernel) and user programs above its system calls.  The bootloader hands the kernel a
    map of the physical memory and a set of virtual addresses; the kernel builds a page allocator,
    page tables and a heap on them, sets up the interrupt controllers and the disk, mounts the
    file systems, and runs processes, which reach it through system calls, page faults and the
    timer.  This library models these parts and proves what they promise each other. Paths below
    are under src/.

    ** How the code is modelled

    A Rust function is a Rocq function with the branches, the order of effects and the early
    returns of the source.  Machine integers are [Z], with the width written out at each operation
    ([uadd], [usub], [umul], [wrap]); buffers are lists of bytes.  A call ends in [Ok], [Err] or
    [Panic] (type [outcome]); a panic is checked arithmetic that overflows, an index out of range,
    [unwrap] on [None] or an explicit one.  Code with effects is in the monad [st] on an explicit
    state, which keeps the state reached when a call fails.  Shared objects (open files, inodes,
    pages, processes) live in stores, and pointers are keys.  Operations that run under a lock are
    atomic.  Interleaving is explicit where the code depends on it: the keyboard's interrupts
    between the steps of a read (Console.v), the timer's ticks (Sched.v, Time.v).

    Crates and hardware are classes: one class for the operations that the code calls, one for the
    laws that their documentation states.  Theorems are proved from the laws; instances, some of
    them further parts of the kernel, show that the laws can be met.

    ** Files

    Foundations:
    - Prelude.v: outcomes, the state monad, machine integers, list lemmas, automation (the hint
      base [zenos]); Bytes.v: slices and little-endian integers.

    Memory:
    - BootMem.v: the bootloader's frame allocator and memory map
      (zenos-bootloader/common/src/legacy_memory_region.rs), joined to the kernel's allocator;
      Level4.v: free virtual addresses (level_4_entries.rs); Config.v: the byte format of the
      configuration that a kernel gives the bootloader (zenos-bootloader/api/src/config.rs).
    - PageAlloc.v: the bitmap page allocator (zenos-kernel/src/memory/mod.rs).
    - Paging.v, Mapping.v: mapping pages, the same file; the x86_64 crate's page tables are the
      class [Paging], which X86Paging.v implements on the processor's format.
    - Slab.v, SlabProof.v, SlabSample.v: the kernel heap (memory/alloc.rs).
    - Cow.v: address spaces (process/isolation.rs), with the proofs in CowScratch.v, CowClone.v,
      CowTables.v, CowFork.v, CowSpace.v, CowFault.v, CowIsolation.v, CowTeardown.v, and a machine
      of 64 pages in CowSample.v.

    Processes:
    - Process.v: the process table and the kernel state (process/mod.rs, percpu.rs); Sched.v: the
      scheduler (process/scheduler/mod.rs).
    - UserMem.v: checked copies from and to user memory; Syscall.v: the system calls and their
      dispatch (syscall/); FileInfo.v: [stat] and [access].
    - Exec.v: [execve] (process/mod.rs, syscall/exec.rs), with the proofs in ExecLoad.v,
      ExecStack.v and ExecRun.v against the interface UserSpace.v, which MemSpace.v implements on
      the kernel's page tables; ExecSample.v runs a program.

    Devices:
    - Time.v: the clock (time.rs); Apic.v: interrupt controllers (hardware/mod.rs).
    - Pci.v: the scan of the bus (pci/mod.rs); Ahci.v, AhciPort.v, AhciDevice.v: the AHCI driver
      from the registers to the block device (disk/block/ahci.rs); AhciSample.v: a machine.
    - Tty.v: the terminal (tty/mod.rs); Console.v: standard streams and the keyboard's buffer
      (process/file_handles.rs, hardware/keyboard/mod.rs).

    Files:
    - BlockDev.v, Gpt.v: block devices and partition tables (disk/block/mod.rs).
    - OpenFile.v, Vfs.v: open files, inodes, paths and mounts (disk/vfs.rs); Disk.v: mounting at
      boot (disk/mod.rs); ProcFs.v: /proc (disk/fs/proc/mod.rs).
    - Fat.v, FatTable.v, FatFs.v, FatData.v, FatDir.v: FAT (disk/fs/fat).
    - Ext2.v, Ext2Fs.v, Ext2Blocks.v, Ext2Meta.v, Ext2Data.v, Ext2File.v, Ext2Sample.v: ext2
      (disk/fs/ext2).

    ** What is proved

    Memory from power on.  The bootloader hands out each usable frame once, the map it leaves is
    exact, and the kernel's allocator starts with the usable pages that are left: those the
    bootloader used, rounded to whole pages, are withheld.  Driven by any sequence of requests for
    4 KiB pages the allocator is a run of an abstract set of free pages; with 2 MiB pages mixed in
    it still hands out no page twice, up to the first 2 MiB search or release that panics.  Free
    virtual ranges avoid what the configuration reserves.  Mapping and unmapping change one
    address.  The blocks of the heap are disjoint as long as no class needs a second slab; what
    happens beyond is shown by runs in SlabSample.v.

    Processes.  A fork gives two address spaces that do not see each other's writes, and the end
    of the child leaves the parent its writable pages; the read-only ones it frees, which is a
    defect.  The scheduler resumes the first runnable process of the best priority and keeps the
    table consistent; fork, exit and waitpid do what their callers rely on.  Copies from and to
    user memory stay on user pages; a store to a read-only page is a fault that the kernel does
    not survive ([UserMem.store] gives [None], and the copy panics).  A program that can run is
    run by [execve], its strings read from the caller's memory, with its image and the arguments
    laid out in a new address space.

    Devices.  Reads and writes of bytes through the AHCI driver are those of the disk, given a
    controller that carries out commands as the AHCI specification says.  The scan finds the first
    controller; interrupts are routed as the overrides say; the terminal processes all bytes
    without a panic, and draws outside the screen only where a wrap is pending; the clock counts
    days as the calendar does.

    File systems.  Both drivers keep the laws [InodeOpsLaws] and [DirOpsLaws] that the layers
    above use.  A write to a FAT or an ext2 file changes the bytes it should, and no other file's;
    allocation takes what is free and keeps the counts; ext2 volumes mount again after a
    synchronisation.  The ext2 theorems are about volumes with blocks above 1 KiB or with
    superblocks in group 0 only, because elsewhere the code misplaces the superblock's copies.
    Partition headers with a changed byte are rejected.  Paths are normalised to a canonical form,
    and descriptors from [open] are fresh and leave the open files as they were.

    Where the code does not do what it means to, a theorem or a run on a sample shows what it
    does.

    ** Bounds and fuel

    Loops over data recurse on it, or take as fuel a bound from it that the theorems prove to be
    enough: the length of the buffer plus one for the loops that read and write, the number of
    pages of a range for the loops over pages, sixteen for the alignment of a stack, the number of
    used slices for the split of a region.  The AHCI command waits for the source's TIMEOUT_MAX
    rounds.  Loops that wait for a device without a limit (the clock's update, the timer, the stop
    of a port) take any fuel; out of fuel they end in [Panic], which there stands for a wait that
    has not ended.  Three rounds are enough for a clock that stands still while it is read
    (Time.v); the stop of a port is run on a sample (AhciSample.v), and no theorem is about the
    wait of the timer's calibration.  The FAT loops along a chain take a number of clusters as
    fuel, because the source does not end on a cyclic chain; the theorems cover every chain that
    the fuel covers.

    ** What is not modelled

    Pixels and glyphs (framebuffer/: the embedded_graphics crate draws them), the serial port and
    logging, ACPI tables (the acpi crate parses them), descriptor tables and interrupt entry code,
    context switches in assembly, translation look-aside buffers, the UEFI application and the
    bootloader's own page tables, the tools that build disk images, the user programs and their C
    library.  One processor runs; others are not modelled. *)
From stdpp Require Export prelude gmap strings.

#[export] Set Default Proof Using "Type".
Open Scope Z_scope.

(** ** Outcomes

    A Rust call returns [Ok a], returns [Err e], or panics (checked arithmetic,
    an index out of range, [unwrap] on [None], [todo!]). *)
Inductive outcome (E A : Type) : Type :=
| Ok (a : A)
| Err (e : E)
| Panic.
Arguments Ok {E A} a.
Arguments Err {E A} e.
Arguments Panic {E A}.

#[export] Instance outcome_ret E : MRet (outcome E) := fun A a => Ok a.
#[export] Instance outcome_bind E : MBind (outcome E) := fun A B f m =>
  match m with Ok a => f a | Err e => Err e | Panic => Panic end.
#[export] Instance outcome_eq_dec E A `{EqDecision E, EqDecision A} :
  EqDecision (outcome E A).
Proof. solve_decision. Defined.

(** [map_err], [ok_or] and [unwrap] of the Rust core library. *)
Definition map_err {E F A} (f : E -> F) (m : outcome E A) : outcome F A :=
  match m with Ok a => Ok a | Err e => Err (f e) | Panic => Panic end.
Definition ok_or {E A} (e : E) (o : option A) : outcome E A :=
  match o with Some a => Ok a | None => Err e end.
Definition unwrap {E A} (o : option A) : outcome E A :=
  match o with Some a => Ok a | None => Panic end.

(** ** State and outcome

    Stateful code keeps the state it had reached when it returns an error. *)
Definition st (S E A : Type) : Type := S -> outcome E A * S.
#[export] Instance st_ret S E : MRet (st S E) := fun A a s => (Ok a, s).
#[export] Instance st_bind S E : MBind (st S E) := fun A B f m s =>
  match m s with
  | (Ok a, s') => f a s'
  | (Err e, s') => (Err e, s')
  | (Panic, s') => (Panic, s')
  end.
Definition st_lift {S E A} (m : outcome E A) : st S E A := fun s => (m, s).
Definition st_get {S E} : st S E S := fun s => (Ok s, s).
Definition st_put {S E} (s : S) : st S E unit := fun _ => (Ok tt, s).
Definition st_map_err {S E F A} (f : E -> F) (m : st S E A) : st S F A :=
  fun s => let '(r, s') := m s in (map_err f r, s').

Lemma outcome_bind_Ok {E A B} (m : outcome E A) (f : A -> outcome E B) b :
  m ≫= f = Ok b <-> exists a, m = Ok a /\ f a = Ok b.
Proof. destruct m; cbn; naive_solver. Qed.

Lemma st_bind_eq {S E A B} (m : st S E A) (f : A -> st S E B) s a s' :
  m s = (Ok a, s') -> (m ≫= f) s = f a s'.
Proof. intros Hm. unfold mbind, st_bind. by rewrite Hm. Qed.
Lemma st_lift_bind {S E A B} (m : outcome E A) (f : A -> st S E B) s a :
  m = Ok a -> (st_lift m ≫= f) s = f a s.
Proof. by intros ->. Qed.
Lemma st_bind_Panic {S E A B} (m : st S E A) (f : A -> st S E B) s s' : m s = (Panic, s') -> (m ≫= f) s = (Panic, s').
Proof. intros Hm. unfold mbind, st_bind. by rewrite Hm. Qed.
Lemma st_bind_Ok {S E A B} (m : st S E A) (f : A -> st S E B) s b s' :
  (m ≫= f) s = (Ok b, s') <-> exists a s1, m s = (Ok a, s1) /\ f a s1 = (Ok b, s').
Proof. unfold mbind, st_bind. destruct (m s) as [[] ?]; naive_solver. Qed.

(** Splits every hypothesis [m ≫= f = Ok _] into its successful steps. *)
Ltac inv_ok :=
  repeat match goal with
  | H : _ ≫= _ = Ok _ |- _ =>
      apply outcome_bind_Ok in H; destruct H as (? & ? & ?)
  | H : Ok _ = Ok _ |- _ => injection H as H
  | H : Err _ = Ok _ |- _ => discriminate H
  | H : Panic = Ok _ |- _ => discriminate H
  | H : mret _ = Ok _ |- _ => injection H as H
  end.

(** ** Machine integers

    A [w]-bit unsigned integer is a [Z] in [[0, 2^w)].  Arithmetic operators are
    those of the development profile, which checks for overflow and panics;
    [as] casts wrap. *)
Definition is_u (w x : Z) : Prop := 0 <= x < 2 ^ w.
Definition wrap (w x : Z) : Z := x mod 2 ^ w.
Definition umax (w : Z) : Z := 2 ^ w - 1.
Definition uadd {E} (w x y : Z) : outcome E Z :=
  if x + y <? 2 ^ w then Ok (x + y) else Panic.
Definition usub {E} (x y : Z) : outcome E Z :=
  if y <=? x then Ok (x - y) else Panic.
Definition umul {E} (w x y : Z) : outcome E Z :=
  if x * y <? 2 ^ w then Ok (x * y) else Panic.
Definition udiv {E} (x y : Z) : outcome E Z :=
  if y =? 0 then Panic else Ok (x / y).
Definition urem {E} (x y : Z) : outcome E Z :=
  if y =? 0 then Panic else Ok (x mod y).
(** [x << n] at width [w]: panics when the amount is not below the width. *)
Definition ushl {E} (w x n : Z) : outcome E Z :=
  if n <? w then Ok (wrap w (Z.shiftl x n)) else Panic.
(** [!x] at width [w]. *)
Definition unot (w x : Z) : Z := Z.lxor x (Z.ones w).
Definition saturating_sub (x y : Z) : Z := Z.max 0 (x - y).
Definition saturating_add (w x y : Z) : Z := Z.min (umax w) (x + y).
Definition saturating_mul (w x y : Z) : Z := Z.min (umax w) (x * y).
(** The two's complement reading of a [w]-bit word ([u64 as i64]). *)
Definition as_signed (w x : Z) : Z := if x <? 2 ^ (w - 1) then x else x - 2 ^ w.

#[global] Arguments uadd {E} w x y : simpl never.
#[global] Arguments usub {E} x y : simpl never.
#[global] Arguments umul {E} w x y : simpl never.
#[global] Arguments udiv {E} x y : simpl never.
#[global] Arguments urem {E} x y : simpl never.
#[global] Arguments ushl {E} w x n : simpl never.
#[global] Arguments wrap w x : simpl never.

Lemma uadd_Ok {E} w x y z : @uadd E w x y = Ok z <-> x + y < 2 ^ w /\ z = x + y.
Proof. unfold uadd. destruct (Z.ltb_spec (x + y) (2 ^ w)); naive_solver lia. Qed.
Lemma usub_Ok {E} x y z : @usub E x y = Ok z <-> y <= x /\ z = x - y.
Proof. unfold usub. destruct (Z.leb_spec y x); naive_solver lia. Qed.
Lemma umul_Ok {E} w x y z : @umul E w x y = Ok z <-> x * y < 2 ^ w /\ z = x * y.
Proof. unfold umul. destruct (Z.ltb_spec (x * y) (2 ^ w)); naive_solver lia. Qed.
Lemma udiv_Ok {E} x y z : @udiv E x y = Ok z <-> y <> 0 /\ z = x / y.
Proof. unfold udiv. destruct (Z.eqb_spec y 0); naive_solver. Qed.
Lemma urem_Ok {E} x y z : @urem E x y = Ok z <-> y <> 0 /\ z = x mod y.
Proof. unfold urem. destruct (Z.eqb_spec y 0); naive_solver. Qed.

Lemma uadd_eq {E} w x y : x + y < 2 ^ w -> @uadd E w x y = Ok (x + y).
Proof. intros. by apply uadd_Ok. Qed.
Lemma usub_eq {E} x y : y <= x -> @usub E x y = Ok (x - y).
Proof. intros. by apply usub_Ok. Qed.
Lemma umul_eq {E} w x y : x * y < 2 ^ w -> @umul E w x y = Ok (x * y).
Proof. intros. by apply umul_Ok. Qed.

(** Turns boolean comparisons in hypotheses and goal into propositions. *)
Ltac zbool :=
  repeat match goal with
  | H : (_ && _)%bool = true |- _ => apply andb_true_iff in H; destruct H
  | H : (_ || _)%bool = false |- _ => apply orb_false_iff in H; destruct H
  | H : (_ =? _) = true |- _ => apply Z.eqb_eq in H
  | H : (_ =? _) = false |- _ => apply Z.eqb_neq in H
  | H : (_ <? _) = true |- _ => apply Z.ltb_lt in H
  | H : (_ <? _) = false |- _ => apply Z.ltb_ge in H
  | H : (_ <=? _) = true |- _ => apply Z.leb_le in H
  | H : (_ <=? _) = false |- _ => apply Z.leb_gt in H
  | H : negb _ = true |- _ => apply negb_true_iff in H
  | H : negb _ = false |- _ => apply negb_false_iff in H
  end.

(** Exposes the side conditions of successful checked arithmetic. *)
Ltac arith_ok :=
  repeat match goal with
  | H : uadd _ _ _ = Ok _ |- _ => apply uadd_Ok in H; destruct H as [? ->]
  | H : usub _ _ = Ok _ |- _ => apply usub_Ok in H; destruct H as [? ->]
  | H : umul _ _ _ = Ok _ |- _ => apply umul_Ok in H; destruct H as [? ->]
  | H : udiv _ _ = Ok _ |- _ => apply udiv_Ok in H; destruct H as [? ->]
  | H : urem _ _ = Ok _ |- _ => apply urem_Ok in H; destruct H as [? ->]
  end.

(** ** Bits *)
Lemma is_u_testbit w x i : 0 <= w -> is_u w x -> w <= i -> Z.testbit x i = false.
Proof.
  intros Hw [H0 H1] Hi. destruct (decide (x = 0)) as [->|]; [apply Z.bits_0|].
  apply Z.bits_above_log2; [lia|]. apply Z.log2_lt_pow2 in H1; lia.
Qed.

Lemma is_u_of_bits w x :
  0 <= w -> 0 <= x -> (forall i, w <= i -> Z.testbit x i = false) -> is_u w x.
Proof. intros Hw Hx Hb. split; [done|]. apply Z.bounded_iff_bits_nonneg; auto. Qed.

Lemma unot_testbit w x i :
  0 <= w -> 0 <= i -> Z.testbit (unot w x) i = xorb (Z.testbit x i) (i <? w).
Proof. intros. unfold unot. rewrite Z.lxor_spec, Z.testbit_ones_nonneg; lia || done. Qed.

Lemma land_unot w x y : 0 <= w -> is_u w x -> Z.land x (unot w y) = Z.ldiff x y.
Proof.
  intros Hw Hx. apply Z.bits_inj'; intros i Hi.
  rewrite Z.land_spec, Z.ldiff_spec, unot_testbit by lia.
  destruct (Z.ltb_spec i w); [by destruct (Z.testbit y i)|].
  by rewrite (is_u_testbit w x) by (lia || done).
Qed.

Lemma one_bit_testbit n i : 0 <= n -> Z.testbit (Z.shiftl 1 n) i = bool_decide (i = n).
Proof.
  intros Hn. destruct (decide (0 <= i)) as [Hi|Hi].
  - rewrite Z.shiftl_spec by lia. destruct (decide (i = n)) as [->|].
    + rewrite Z.sub_diag, bool_decide_true by done. done.
    + rewrite bool_decide_false by done. destruct (decide (i < n)).
      * rewrite Z.testbit_neg_r by lia. done.
      * apply Z.bits_above_log2; cbn; lia.
  - rewrite Z.testbit_neg_r by lia. rewrite bool_decide_false by lia. done.
Qed.

Lemma wrap_one_bit w n : 0 <= n < w -> wrap w (Z.shiftl 1 n) = Z.shiftl 1 n.
Proof.
  intros. unfold wrap. apply Z.mod_small. rewrite Z.shiftl_1_l.
  split; [apply Z.pow_nonneg; lia|]. apply Z.pow_lt_mono_r; lia.
Qed.

Lemma land_one_bit_zero x n : 0 <= n -> (Z.land x (Z.shiftl 1 n) =? 0) = negb (Z.testbit x n).
Proof.
  intros Hn. destruct (Z.testbit x n) eqn:E; cbn.
  - apply Z.eqb_neq. intros H. apply (f_equal (fun z => Z.testbit z n)) in H.
    rewrite Z.land_spec, one_bit_testbit, bool_decide_true, E, Z.bits_0 in H; done.
  - apply Z.eqb_eq, Z.bits_inj'. intros i Hi.
    rewrite Z.land_spec, one_bit_testbit, Z.bits_0 by done.
    case_bool_decide; subst; [by rewrite E|apply andb_false_r].
Qed.

Lemma land_one_bit_eq x n :
  0 <= n -> (Z.land x (Z.shiftl 1 n) =? Z.shiftl 1 n) = Z.testbit x n.
Proof.
  intros Hn. destruct (Z.testbit x n) eqn:E.
  - apply Z.eqb_eq, Z.bits_inj'. intros i Hi.
    rewrite Z.land_spec, one_bit_testbit by done.
    case_bool_decide; subst; [by rewrite E|apply andb_false_r].
  - apply Z.eqb_neq. intros H. apply (f_equal (fun z => Z.testbit z n)) in H.
    rewrite Z.land_spec, one_bit_testbit, bool_decide_true, E in H; done.
Qed.

Lemma is_u_land w x y : 0 <= w -> is_u w x -> 0 <= y -> is_u w (Z.land x y).
Proof.
  intros Hw Hx Hy. apply is_u_of_bits; [done|apply Z.land_nonneg; left; apply Hx|].
  intros i Hi. by rewrite Z.land_spec, (is_u_testbit w x) by done.
Qed.

Lemma is_u_ldiff w x y : 0 <= w -> is_u w x -> is_u w (Z.ldiff x y).
Proof.
  intros Hw Hx. apply is_u_of_bits; [done|apply Z.ldiff_nonneg; left; apply Hx|].
  intros i Hi. by rewrite Z.ldiff_spec, (is_u_testbit w x) by done.
Qed.

Lemma is_u_lor w x y : 0 <= w -> is_u w x -> is_u w y -> is_u w (Z.lor x y).
Proof.
  intros Hw Hx Hy. apply is_u_of_bits; [done|apply Z.lor_nonneg; split; [apply Hx|apply Hy]|].
  intros i Hi. by rewrite Z.lor_spec, (is_u_testbit w x), (is_u_testbit w y) by done.
Qed.

Lemma is_u_wrap w x : 0 <= w -> is_u w (wrap w x).
Proof. intros. apply Z.mod_pos_bound. lia. Qed.

Lemma wrap_small w x : is_u w x -> wrap w x = x.
Proof. apply Z.mod_small. Qed.

Create HintDb zenos discriminated.
#[export] Hint Resolve is_u_wrap is_u_land is_u_ldiff is_u_lor : zenos.

(** ** Vectors *)

(** [iter().position(f)]. *)
Fixpoint position {A} (f : A -> bool) (l : list A) : option nat :=
  match l with
  | [] => None
  | x :: l => if f x then Some 0%nat else S <$> position f l
  end.

Lemma position_Some {A} (f : A -> bool) l i :
  position f l = Some i <->
  (exists x, l !! i = Some x /\ f x = true) /\
  (forall j x, (j < i)%nat -> l !! j = Some x -> f x = false).
Proof.
  revert i. induction l as [|y l IH]; intros i; cbn; [naive_solver|].
  destruct (f y) eqn:Hy.
  - split.
    + intros [= <-]. split; [by exists y|]. intros j x Hj. lia.
    + intros [(x & Hx & Hf) Hmin]. destruct i as [|i]; [done|].
      by rewrite (Hmin 0%nat y) in Hy by (lia || done).
  - rewrite fmap_Some. split.
    + intros (i' & Hi & ->). apply IH in Hi as [(x & Hx & Hf) Hmin]. split; [by exists x|].
      intros [|j] z Hj Hz; cbn in Hz; [congruence|]. eapply Hmin; [|done]. lia.
    + intros [(x & Hx & Hf) Hmin]. destruct i as [|i]; cbn in Hx; [congruence|].
      exists i. split; [|done]. apply IH. split; [by exists x|].
      intros j z Hj Hz. apply (Hmin (S j) z); [lia|done].
Qed.

Lemma position_None {A} (f : A -> bool) l :
  position f l = None <-> forall x, x ∈ l -> f x = false.
Proof.
  induction l as [|y l IH]; cbn; [set_solver|]. destruct (f y) eqn:Hy.
  - split; [done|]. intros H. rewrite (H y) in Hy by set_solver. done.
  - rewrite fmap_None, IH. set_solver.
Qed.

(** ** Vectors *)
(** [swap_remove]: the last element takes the place of the removed one. *)
Definition swap_remove {A} (i : nat) (l : list A) : list A :=
  match last l with
  | Some x => take (length l - 1) (<[i := x]> l)
  | None => l
  end.

Lemma swap_remove_perm {A} (l : list A) i p : l !! i = Some p -> p :: swap_remove i l ≡ₚ l.
Proof.
  intros Hi. unfold swap_remove. destruct l as [|x l' _] using rev_ind; [done|].
  rewrite last_snoc, length_app. cbn. rewrite Nat.add_sub.
  destruct (decide (i < length l')%nat) as [Hlt|Hge].
  - rewrite lookup_app_l in Hi by done. rewrite insert_app_l by done.
    rewrite take_app_length' by (by rewrite length_insert).
    rewrite <-(take_drop_middle l' i p Hi) at 2. rewrite insert_take_drop by done.
    solve_Permutation.
  - pose proof (lookup_lt_Some _ _ _ Hi) as Hlen. rewrite length_app in Hlen. cbn in Hlen.
    assert (i = length l') as -> by lia.
    rewrite list_lookup_middle in Hi by done. injection Hi as ->.
    rewrite insert_app_r_alt, Nat.sub_diag by lia. cbn. rewrite take_app_length. solve_Permutation.
Qed.
