(* ===== verification/Bytes.v ===== *)
(** * Bytes: slices and little-endian integers

    Buffers are lists of bytes, a byte is a [Z] in [[0, 256)].  [slice] is
    [buf[off..off + n]] (which panics out of range), [get_le] is
    [uN::from_le_bytes(buf[off..off + n])], [put_slice] writes into a buffer. *)
From stdpp Require Export list_numbers.
From S2P Require Import Prelude.
Open Scope Z_scope.

Definition is_byte (b : Z) : Prop := 0 <= b < 256.
Abbreviation bytes := (list Z).

Definition slice {E} (off n : nat) (buf : bytes) : outcome E bytes :=
  if Nat.leb (off + n) (length buf) then Ok (take n (drop off buf)) else Panic.
Definition from_le (bs : bytes) : Z := little_endian_to_Z 8 bs.
Definition to_le (n : nat) (x : Z) : bytes := Z_to_little_endian (Z.of_nat n) 8 x.
Definition get_le {E} (off n : nat) (buf : bytes) : outcome E Z := bs ← slice off n buf; Ok (from_le bs).
(** [buf[off..off + n].copy_from_slice(bs)]. *)
Definition put_slice {E} (off : nat) (bs buf : bytes) : outcome E bytes :=
  if Nat.leb (off + length bs) (length buf)
  then Ok (take off buf ++ bs ++ drop (off + length bs) buf) else Panic.

(** The bytes at a fixed offset of a fixed-size record. *)
Definition sub_bytes (off n : nat) (buf : bytes) : bytes := take n (drop off buf).

(** [buf.chunks(n)]. *)
Definition chunks (n : nat) (buf : bytes) : list bytes :=
  (fun i => sub_bytes (n * i) n buf) <$> seq 0 ((length buf + (n - 1)) / n).

(** The bytes of a string. *)
Fixpoint str_bytes (s : string) : list Z :=
  match s with
  | EmptyString => []
  | String a s => Z.of_nat (Ascii.nat_of_ascii a) :: str_bytes s
  end.
Fixpoint str_of_bytes (l : list Z) : string :=
  match l with
  | [] => EmptyString
  | c :: l => String (Ascii.ascii_of_nat (Z.to_nat c)) (str_of_bytes l)
  end.

Lemma slice_Ok {E} off n buf :
  (off + n <= length buf)%nat -> @slice E off n buf = Ok (sub_bytes off n buf).
Proof. intros Hl. unfold slice. by rewrite (proj2 (Nat.leb_le _ _)). Qed.

Lemma slice_length {E} off n buf bs : @slice E off n buf = Ok bs -> length bs = n.
Proof.
  unfold slice. destruct (Nat.leb_spec (off + n) (length buf)); [|done]. intros [= <-].
  rewrite length_take, length_drop. lia.
Qed.

Lemma get_le_Ok {E} off n buf :
  (off + n <= length buf)%nat -> @get_le E off n buf = Ok (from_le (sub_bytes off n buf)).
Proof. intros Hl. unfold get_le. by rewrite slice_Ok. Qed.

Lemma sub_bytes_length off n buf :
  (off + n <= length buf)%nat -> length (sub_bytes off n buf) = n.
Proof. intros. unfold sub_bytes. rewrite length_take, length_drop. lia. Qed.

Lemma sub_bytes_app_r off n a b :
  (length a <= off)%nat -> sub_bytes off n (a ++ b) = sub_bytes (off - length a) n b.
Proof. intros. unfold sub_bytes. by rewrite drop_app_ge. Qed.

Lemma sub_bytes_app_l off n a b :
  (off + n <= length a)%nat -> sub_bytes off n (a ++ b) = sub_bytes off n a.
Proof.
  intros. unfold sub_bytes. rewrite drop_app_le by lia. rewrite take_app_le; [done|].
  rewrite length_drop. lia.
Qed.

Lemma sub_bytes_all a b n : length a = n -> sub_bytes 0 n (a ++ b) = a.
Proof. intros <-. unfold sub_bytes. cbn. apply take_app_length. Qed.

Lemma to_le_length n x : length (to_le n x) = n.
Proof. apply Nat2Z.inj. unfold to_le. rewrite length_Z_to_little_endian; lia. Qed.

Lemma to_le_bytes n x : Forall is_byte (to_le n x).
Proof.
  eapply Forall_impl; [apply Z_to_little_endian_bound; lia|]. unfold is_byte. intros b Hb.
  change (2 ^ 8) with 256 in Hb. lia.
Qed.

Lemma from_to_le n x : is_u (8 * Z.of_nat n) x -> from_le (to_le n x) = x.
Proof.
  intros Hx. unfold from_le, to_le. rewrite little_endian_to_Z_to_little_endian by lia.
  rewrite Z.mul_comm. by apply Z.mod_small.
Qed.

Lemma to_from_le bs :
  Forall is_byte bs -> to_le (length bs) (from_le bs) = bs.
Proof.
  intros Hb. unfold from_le, to_le. apply Z_to_little_endian_to_Z; [lia|lia|].
  eapply Forall_impl; [exact Hb|]. unfold is_byte. intros b ?. change (2 ^ 8) with 256. lia.
Qed.

Lemma from_le_range bs : Forall is_byte bs -> is_u (8 * Z.of_nat (length bs)) (from_le bs).
Proof.
  intros Hb. unfold from_le. pose proof (little_endian_to_Z_bound 8 bs ltac:(lia)) as H.
  unfold is_u. rewrite Z.mul_comm. apply H. eapply Forall_impl; [exact Hb|]. unfold is_byte.
  intros b ?. change (2 ^ 8) with 256. lia.
Qed.

Lemma sub_bytes_split off n m buf :
  sub_bytes off n buf ++ sub_bytes (off + n) m buf = sub_bytes off (n + m) buf.
Proof. unfold sub_bytes. rewrite <-drop_drop. apply take_take_drop. Qed.

Lemma sub_bytes_insert off n i y buf :
  (i < length buf)%nat ->
  sub_bytes off n (<[i := y]> buf) =
    if decide (off <= i < off + n)%nat then <[(i - off)%nat := y]> (sub_bytes off n buf)
    else sub_bytes off n buf.
Proof.
  intros Hi. unfold sub_bytes. destruct (decide (off <= i)%nat) as [Hge|Hlt].
  - rewrite drop_insert_ge by done. destruct (decide (i < off + n)%nat).
    + rewrite decide_True by lia. apply take_insert_lt. lia.
    + rewrite decide_False by lia. apply take_insert_ge. lia.
  - rewrite drop_insert_lt by lia. by rewrite decide_False by lia.
Qed.

(** Reading the first field of a concatenation, and skipping it. *)
Lemma sub_bytes_here n a b : length a = n -> sub_bytes 0 n (a ++ b) = a.
Proof. apply sub_bytes_all. Qed.
Lemma sub_bytes_skip off n a b k :
  length a = k -> (k <= off)%nat -> sub_bytes off n (a ++ b) = sub_bytes (off - k) n b.
Proof. intros <- ?. by apply sub_bytes_app_r. Qed.

(** Locates a field of a record laid out as a concatenation of fields of known lengths. *)
Ltac field_at :=
  repeat first
    [ rewrite sub_bytes_here by (rewrite ?to_le_length; assumption || reflexivity)
    | erewrite sub_bytes_skip by (first [apply to_le_length | eassumption | reflexivity] || lia);
      cbn [Nat.sub] ].

Lemma get_le_at {E} b pre n x post off :
  b = pre ++ to_le n x ++ post -> length pre = off -> is_u (8 * Z.of_nat n) x -> @get_le E off n b = Ok x.
Proof.
  intros -> <- Hx. unfold get_le. rewrite slice_Ok by (rewrite !length_app, to_le_length; lia).
  unfold sub_bytes. rewrite drop_app_length, take_app_length' by (by rewrite to_le_length). cbn.
  by rewrite from_to_le.
Qed.
Lemma slice_at {E} b pre x post off n :
  b = pre ++ x ++ post -> length pre = off -> length x = n -> @slice E off n b = Ok x.
Proof.
  intros -> <- <-. rewrite slice_Ok by (rewrite !length_app; lia).
  unfold sub_bytes. by rewrite drop_app_length, take_app_length.
Qed.

(** Reads the next field of [b], the part before which is [pre]: the field joins [pre]. *)
Ltac next_field :=
  match goal with
  | Hb : ?b = ?pre ++ to_le ?n ?x ++ ?post, Hl : length ?pre = ?off |- context [get_le ?off ?n ?b] =>
      rewrite (get_le_at b pre n x post off Hb Hl) by assumption; cbn [mbind outcome_bind];
      rewrite app_assoc in Hb;
      let H := fresh in
      assert (length (pre ++ to_le n x) = off + n)%nat as H by (by rewrite length_app, to_le_length, Hl);
      clear Hl; cbn [Nat.add] in H; revert H Hb; generalize (pre ++ to_le n x); intros ? H Hb
  | Hb : ?b = ?pre ++ ?x ++ ?post, Hl : length ?pre = ?off |- context [slice ?off ?n ?b] =>
      rewrite (slice_at b pre x post off n Hb Hl) by assumption; cbn [mbind outcome_bind];
      rewrite app_assoc in Hb;
      let H := fresh in
      assert (length (pre ++ x) = off + n)%nat as H by (rewrite length_app, Hl; f_equal; assumption);
      clear Hl; cbn [Nat.add] in H; revert H Hb; generalize (pre ++ x); intros ? H Hb
  end.

(** ** Replacing bytes in place *)
Definition put (p : nat) (bs cs : bytes) : bytes := take p cs ++ bs ++ drop (p + length bs) cs.

Lemma put_slice_put {E} off bs buf :
  (off + length bs <= length buf)%nat -> @put_slice E off bs buf = Ok (put off bs buf).
Proof. intros. unfold put_slice. by rewrite (proj2 (Nat.leb_le _ _)). Qed.

Lemma length_put p bs cs : (p + length bs <= length cs)%nat -> length (put p bs cs) = length cs.
Proof. intros. unfold put. rewrite !length_app, length_take, length_drop. lia. Qed.

Lemma lookup_put p bs cs i :
  (p + length bs <= length cs)%nat ->
  put p bs cs !! i = if decide (p <= i < p + length bs)%nat then bs !! (i - p)%nat else cs !! i.
Proof.
  intros Hl. unfold put. destruct (decide (i < p)%nat) as [H1|H1].
  - rewrite decide_False by lia. rewrite lookup_app_l by (rewrite length_take; lia).
    by rewrite lookup_take_lt by lia.
  - rewrite lookup_app_r by (rewrite length_take; lia). rewrite length_take, Nat.min_l by lia.
    destruct (decide (i < p + length bs)%nat) as [H2|H2].
    + rewrite decide_True by lia. by rewrite lookup_app_l by lia.
    + rewrite decide_False by lia. rewrite lookup_app_r by lia. rewrite lookup_drop. f_equal. lia.
Qed.

Lemma lookup_sub_bytes off n cs i :
  sub_bytes off n cs !! i = if decide (i < n)%nat then cs !! (off + i)%nat else None.
Proof.
  unfold sub_bytes. case_decide.
  - by rewrite lookup_take_lt, lookup_drop by done.
  - by rewrite lookup_take_ge by lia.
Qed.

(** A slice that misses the replaced bytes, and one that holds them. *)
Lemma sub_bytes_put_away off n p bs cs :
  (p + length bs <= length cs)%nat -> (off + n <= p \/ p + length bs <= off)%nat ->
  sub_bytes off n (put p bs cs) = sub_bytes off n cs.
Proof.
  intros Hl Hd. apply list_eq. intros i. rewrite !lookup_sub_bytes. case_decide; [|done].
  rewrite lookup_put by done. by rewrite decide_False by lia.
Qed.

Lemma sub_bytes_put_in off n p bs cs :
  (off + n <= length cs)%nat -> (off <= p)%nat -> (p + length bs <= off + n)%nat ->
  sub_bytes off n (put p bs cs) = put (p - off) bs (sub_bytes off n cs).
Proof.
  intros Hl Hp Hn. apply list_eq. intros i.
  rewrite lookup_sub_bytes, (lookup_put (p - off)) by (rewrite sub_bytes_length; lia).
  rewrite lookup_sub_bytes. destruct (decide (i < n)%nat) as [Hi|Hi].
  - rewrite lookup_put by lia. repeat case_decide; try lia; f_equal; lia.
  - rewrite decide_False by lia. done.
Qed.

Lemma sub_bytes_put_same p bs cs : (p + length bs <= length cs)%nat -> sub_bytes p (length bs) (put p bs cs) = bs.
Proof.
  intros Hl. apply list_eq. intros i. rewrite lookup_sub_bytes. case_decide as Hi.
  - rewrite lookup_put, decide_True by lia. f_equal. lia.
  - symmetry. apply lookup_ge_None. lia.
Qed.

Lemma put_put_in off n p bs cs :
  (off + n <= length cs)%nat -> (p + length bs <= n)%nat ->
  put off (put p bs (sub_bytes off n cs)) cs = put (off + p) bs cs.
Proof.
  intros Hl Hp. assert (length (sub_bytes off n cs) = n) as Hs by (by apply sub_bytes_length).
  assert (length (put p bs (sub_bytes off n cs)) = n) as Hpn by (rewrite length_put; lia).
  apply list_eq. intros i. rewrite !lookup_put by lia. rewrite Hpn.
  destruct (decide (off <= i < off + n)%nat) as [Hi|Hi].
  - rewrite ?lookup_put by lia. rewrite lookup_sub_bytes.
    repeat case_decide; try lia; f_equal; lia.
  - by rewrite decide_False by lia.
Qed.

Lemma sub_bytes_sub_bytes o k p n cs :
  (o + k <= n)%nat -> sub_bytes o k (sub_bytes p n cs) = sub_bytes (p + o) k cs.
Proof.
  intros H. apply list_eq. intros i. rewrite !lookup_sub_bytes.
  repeat case_decide; try lia; try done. f_equal. lia.
Qed.

Lemma put_bytes p bs cs : Forall is_byte bs -> Forall is_byte cs -> Forall is_byte (put p bs cs).
Proof. intros. unfold put. rewrite !Forall_app. eauto using Forall_take, Forall_drop. Qed.

Lemma sub_bytes_bytes off n cs : Forall is_byte cs -> Forall is_byte (sub_bytes off n cs).
Proof. intros. unfold sub_bytes. eauto using Forall_take, Forall_drop. Qed.

Lemma to_le_1 x : to_le 1 x = [x mod 256].
Proof.
  unfold to_le. change (Z.of_nat 1) with (Z.succ 0). rewrite Z_to_little_endian_succ, Z_to_little_endian_0 by lia.
  f_equal. change (Z.ones 8) with 255. change 255 with (Z.ones 8). by rewrite Z.land_ones by lia.
Qed.

Lemma lor_shiftl_add b x n : 0 <= n -> 0 <= b < 2 ^ n -> Z.lor b (Z.shiftl x n) = b + x * 2 ^ n.
Proof.
  intros Hn Hb. rewrite <-Z.shiftl_mul_pow2 by lia.
  assert (Z.land b (Z.shiftl x n) = 0) as Hd.
  { apply Z.bits_inj'. intros i Hi. rewrite Z.land_spec, Z.bits_0. destruct (decide (i < n)).
    - by rewrite Z.shiftl_spec_low, andb_false_r by lia.
    - rewrite (is_u_testbit n b) by (done || lia). done. }
  rewrite Z.add_nocarry_lxor by done. symmetry. apply Z.lxor_lor. done.
Qed.

Lemma from_le_cons b bs : is_byte b -> from_le (b :: bs) = b + 256 * from_le bs.
Proof.
  intros Hb. unfold from_le. cbn [little_endian_to_Z]. unfold is_byte in Hb.
  rewrite lor_shiftl_add by (cbn; lia). change (2 ^ 8) with 256. lia.
Qed.

Lemma from_le_1 b : from_le [b] = b.
Proof. unfold from_le. cbn [little_endian_to_Z]. by rewrite Z.shiftl_0_l, Z.lor_0_r. Qed.
Lemma from_le_2 b0 b1 : is_byte b0 -> is_byte b1 -> from_le [b0; b1] = b0 + 256 * b1.
Proof. intros. by rewrite from_le_cons, from_le_1. Qed.

Lemma to_le_2 x : is_u 16 x -> to_le 2 x = [x mod 256; x / 256].
Proof.
  intros Hx. assert (is_byte (x mod 256)) as H0 by (apply Z.mod_pos_bound; lia).
  assert (is_byte (x / 256)) as H1.
  { unfold is_byte. split; [apply Z.div_pos|apply Z.div_lt_upper_bound]; unfold is_u in Hx; lia. }
  replace x with (from_le [x mod 256; x / 256]) at 1.
  - rewrite <-(to_from_le [x mod 256; x / 256]) at 2 by (do 2 (constructor; [done|]); constructor). done.
  - rewrite from_le_2 by done. pose proof (Z.div_mod x 256). lia.
Qed.

Lemma sub_bytes_1 p (fat : bytes) x : fat !! p = Some x -> sub_bytes p 1 fat = [x].
Proof.
  intros Hx. apply list_eq. intros i. rewrite lookup_sub_bytes. destruct i as [|i]; case_decide; try lia; [|done].
  by rewrite Nat.add_0_r.
Qed.

Lemma sub_bytes_2 p fat :
  (p + 2 <= length fat)%nat -> exists x y, fat !! p = Some x /\ fat !! (p + 1)%nat = Some y /\
    sub_bytes p 2 fat = [x; y].
Proof.
  intros Hp. destruct (lookup_lt_is_Some_2 fat p) as [x Hx]; [lia|].
  destruct (lookup_lt_is_Some_2 fat (p + 1)) as [y Hy]; [lia|]. exists x, y. split_and!; [done..|].
  apply list_eq. intros i. rewrite lookup_sub_bytes. case_decide as Hi.
  - destruct i as [|[|i]]; [by rewrite Nat.add_0_r|done|lia].
  - symmetry. apply lookup_ge_None. cbn. lia.
Qed.

Lemma sub_bytes_app o m a b :
  (o <= length a)%nat ->
  sub_bytes o m (a ++ b) = sub_bytes o (Nat.min m (length a - o)) a ++ sub_bytes 0 (m - (length a - o)) b.
Proof.
  intros Ho. unfold sub_bytes. rewrite drop_app_le, drop_0, take_app, length_drop by done. f_equal.
  destruct (decide (m <= length a - o)%nat); [by rewrite Nat.min_l|].
  rewrite Nat.min_r by lia. rewrite !take_ge by (rewrite length_drop; lia). done.
Qed.

Lemma sub_bytes_drop o m k a : sub_bytes o m (drop k a) = sub_bytes (k + o) m a.
Proof. unfold sub_bytes. by rewrite drop_drop. Qed.
Lemma sub_bytes_take o m k a : sub_bytes o m (take k a) = sub_bytes o (Nat.min m (k - o)) a.
Proof. unfold sub_bytes. by rewrite skipn_firstn_comm, take_take. Qed.

Lemma put_app p a b cs :
  (p + length a + length b <= length cs)%nat -> put (p + length a) b (put p a cs) = put p (a ++ b) cs.
Proof.
  intros Hl. apply list_eq. intros i. rewrite !lookup_put by (rewrite ?length_put, ?length_app; lia).
  rewrite length_app. destruct (decide (p <= i < p + length a)%nat).
  - rewrite decide_False, decide_True, lookup_app_l by lia. done.
  - destruct (decide (p + length a <= i < p + length a + length b)%nat).
    + rewrite !decide_True, lookup_app_r by lia. f_equal. lia.
    + rewrite !decide_False by lia. done.
Qed.

Lemma put_whole bs cs : length bs = length cs -> put 0 bs cs = bs.
Proof. intros Hl. unfold put. rewrite take_0, drop_ge by lia. apply app_nil_r. Qed.

Lemma put_app_l p bs a b : (p + length bs <= length a)%nat -> put p bs (a ++ b) = put p bs a ++ b.
Proof.
  intros Hl. unfold put. rewrite take_app_le, drop_app_le by lia. by rewrite !app_assoc.
Qed.
Lemma put_app_r p bs a b : put (length a + p) bs (a ++ b) = a ++ put p bs b.
Proof.
  unfold put. rewrite take_app_ge by lia. replace (length a + p - length a)%nat with p by lia.
  rewrite <-Nat.add_assoc, drop_app_ge by lia. rewrite <-app_assoc. do 4 f_equal. lia.
Qed.

Lemma sub_bytes_ext off n cs cs' :
  length cs' = length cs -> (forall i, (off <= i < off + n)%nat -> cs' !! i = cs !! i) ->
  sub_bytes off n cs' = sub_bytes off n cs.
Proof.
  intros Hl Hi. apply list_eq. intros i. rewrite !lookup_sub_bytes. case_decide; [apply Hi; lia|done].
Qed.

(** The first chunk of a buffer. *)
Lemma chunks_app n a b : (0 < n)%nat -> length a = n -> chunks n (a ++ b) = a :: chunks n b.
Proof.
  intros Hn Ha. unfold chunks. rewrite length_app, Ha.
  replace (n + length b + (n - 1))%nat with (length b + (n - 1) + 1 * n)%nat by lia.
  rewrite Nat.div_add by lia. rewrite Nat.add_1_r. cbn [seq fmap list_fmap]. rewrite Nat.mul_0_r. f_equal.
  - by apply sub_bytes_all.
  - rewrite <-seq_shift. change (List.map S) with (fmap (M := list) S). rewrite <-list_fmap_compose.
    apply list_fmap_ext. intros i x _. cbn. rewrite (sub_bytes_skip _ _ _ _ n) by lia. f_equal. lia.
Qed.
