(* ===== verification/PageAlloc.v ===== *)
(** * The physical page allocator (zenos-kernel/src/memory/mod.rs)

    The linked list of bitmap nodes is a list, head first.  A bit that is set is a
    free page.  Every operation runs under the allocator's lock, so the
    compare-and-exchange of the source succeeds at its first attempt. *)
From S2P Require Import Prelude.

(** ** Data *)
Definition HIGHER_HALF_BASE : Z := 0xFFFF800000000000.
Definition PAGE_4K : Z := 4096.
Definition PAGE_2M : Z := 2 * 1024 * 1024.
Definition U64_MAX : Z := 0xFFFFFFFFFFFFFFFF.

Inductive PageSize := Size4KiB | Size2MiB.
Inductive MapErr := OutOfMemory | NotMapped | Uninitialized | InvalidAlignment.
#[export] Instance MapErr_eq_dec : EqDecision MapErr.
Proof. solve_decision. Defined.

(** [bn_virt] is the address the node itself is written to; [next] is the tail of
    the list the node stands in. *)
Record BitmapNode := mkNode {
  bn_virt : Z;
  bn_map : list Z;
  bn_base_phys : Z;
  bn_region_size : Z;
}.
Abbreviation PageAllocator := (list BitmapNode).

(** [size_of::<BitmapNode>()]: an optional pointer, a slice pointer (two words), two words. *)
Definition size_of_BitmapNode : Z := 40.

Definition set_map (n : BitmapNode) (m : list Z) : BitmapNode :=
  mkNode (bn_virt n) m (bn_base_phys n) (bn_region_size n).

Definition step_of (size : PageSize) : Z :=
  match size with Size4KiB => 1 | Size2MiB => PAGE_2M / PAGE_4K end.

(** ** [PageAllocator::initialize] *)
Definition fresh_bitmap (pages_in_region : Z) : list Z :=
  let bitmap_words := (pages_in_region + 63) / 64 in
  let bitmap := replicate (Z.to_nat bitmap_words) U64_MAX in
  let last_word_bits := pages_in_region mod 64 in
  if last_word_bits =? 0 then bitmap
  else <[Z.to_nat (bitmap_words - 1) := Z.shiftl 1 last_word_bits - 1]> bitmap.

Definition init_region {E} (acc : PageAllocator * Z) (region : Z * Z) :
    outcome E (PageAllocator * Z) :=
  let '(head, storage_offset) := acc in
  let '(start_phys, size) := region in
  t ← uadd 64 start_phys PAGE_4K;
  t' ← usub t 1;
  let aligned_start := Z.land t' (unot 64 (PAGE_4K - 1)) in
  end_phys ← uadd 64 start_phys size;
  d ← usub end_phys aligned_start;
  let aligned_size := d / PAGE_4K * PAGE_4K in
  if aligned_size <? PAGE_4K then Ok acc
  else
    let pages_in_region := aligned_size / PAGE_4K in
    let bitmap_words := (pages_in_region + 63) / 64 in
    node_virt ← uadd 64 HIGHER_HALF_BASE storage_offset;
    storage_offset' ← uadd 64 storage_offset (size_of_BitmapNode + bitmap_words * 8);
    Ok (mkNode node_virt (fresh_bitmap pages_in_region) aligned_start aligned_size :: head,
        storage_offset').

Fixpoint init_regions {E} (acc : PageAllocator * Z) (regions : list (Z * Z)) :
    outcome E (PageAllocator * Z) :=
  match regions with
  | [] => Ok acc
  | r :: rs => acc' ← init_region acc r; init_regions acc' rs
  end.

Definition initialize {E} (memory_regions : list (Z * Z)) : outcome E PageAllocator :=
  '(head, _) ← init_regions ([], 0) memory_regions; Ok head.

(** ** [PageAllocator::alloc] *)
Definition in_node {E} (phys : Z) (node : BitmapNode) : outcome E bool :=
  if bn_base_phys node <=? phys
  then hi ← uadd 64 (bn_base_phys node) (bn_region_size node); Ok (phys <? hi)
  else Ok false.

(** A walk along the list that acts on the first node whose region holds [phys]. *)
Fixpoint at_node {E A} (phys : Z) (f : BitmapNode -> outcome E (A * BitmapNode))
    (none : A) (nodes : PageAllocator) : outcome E (A * PageAllocator) :=
  match nodes with
  | [] => Ok (none, [])
  | node :: rest =>
      here ← in_node phys node;
      if (here : bool) then '(a, node') ← f node; Ok (a, node' :: rest)
      else '(a, rest') ← at_node phys f none rest; Ok (a, node :: rest')
  end.

Definition claim_4k {E} (phys : Z) (node : BitmapNode) :
    outcome E (option Z * BitmapNode) :=
  offset ← usub phys (bn_base_phys node);
  let page_num := offset / PAGE_4K in
  let word_idx := Z.to_nat (page_num / 64) in
  let bit_pos := page_num mod 64 in
  match bn_map node !! word_idx with
  | None => Ok (None, node)
  | Some val =>
      mask ← ushl 64 1 bit_pos;
      if Z.land val mask =? 0 then Ok (None, node)
      else Ok (Some phys,
               set_map node (<[word_idx := Z.land val (unot 64 mask)]> (bn_map node)))
  end.

(** The words [word_idx, word_idx + words_needed) of the bitmap, when all free. *)
Definition all_free (ws : list Z) : bool := forallb (fun w => w =? U64_MAX) ws.

Definition claim_2m {E} (phys : Z) (node : BitmapNode) :
    outcome E (option Z * BitmapNode) :=
  let step := step_of Size2MiB in
  offset ← usub phys (bn_base_phys node);
  let page_num := offset / PAGE_4K in
  if negb (page_num mod step =? 0) then Ok (None, node)
  else
    let word_idx := Z.to_nat (page_num / 64) in
    let words_needed := Z.to_nat (step / 64) in
    let bitmap := bn_map node in
    if Nat.ltb (length bitmap) (word_idx + words_needed) then Ok (None, node)
    else if negb (all_free (take words_needed (drop word_idx bitmap))) then Ok (None, node)
    else Ok (Some phys,
             set_map node (take word_idx bitmap ++ replicate words_needed 0
                           ++ drop (word_idx + words_needed) bitmap)).

(** The search of one word; the result is the page number and the word with its
    bits cleared.  The loop runs while [bit_pos <= 64 - step], so 65 rounds cover it. *)
Fixpoint scan_word {E} (fuel : nat) (step pages word_idx val bit_pos : Z) :
    outcome E (option (Z * Z)) :=
  match fuel with
  | O => Panic
  | S fuel =>
      limit ← usub 64 step;
      if (bit_pos <=? limit) && (word_idx * 64 + bit_pos <? pages) then
        let global_bit := word_idx * 64 + bit_pos in
        let aligned_bit :=
          if step =? 1 then global_bit
          else Z.land (global_bit + step - 1) (unot 64 (step - 1)) in
        mask ← (if step =? 1 then m ← ushl 64 1 bit_pos; Ok (Some m)
                else if pages <=? aligned_bit then Ok None
                else if negb (aligned_bit / 64 =? word_idx)
                        || (64 <? aligned_bit mod 64 + step) then Ok None
                else s ← ushl 64 1 step; m ← ushl 64 (s - 1) (aligned_bit mod 64);
                     Ok (Some m));
        match mask with
        | None => Ok None
        | Some mask =>
            if Z.land val mask =? mask
            then Ok (Some (aligned_bit, Z.land val (unot 64 mask)))
            else scan_word fuel step pages word_idx val (bit_pos + step)
        end
      else Ok None
  end.

Fixpoint scan_words {E} (step pages word_idx : Z) (words : list Z) :
    outcome E (option Z * list Z) :=
  match words with
  | [] => Ok (None, [])
  | val :: rest =>
      hit ← (if val =? 0 then Ok None else scan_word 66 step pages word_idx val 0);
      match hit with
      | Some (page_num, val') => Ok (Some page_num, val' :: rest)
      | None =>
          '(r, rest') ← scan_words step pages (word_idx + 1) rest;
          Ok (r, val :: rest')
      end
  end.

Section Alloc.
(** [PhysAddr::new] of the x86_64 crate; [None] when it panics. *)
Context (PhysAddr_new : Z -> option Z).

Fixpoint scan_nodes {E} (step : Z) (nodes : PageAllocator) :
    outcome E (option Z * PageAllocator) :=
  match nodes with
  | [] => Ok (None, [])
  | node :: rest =>
      '(r, map') ← scan_words step (bn_region_size node / PAGE_4K) 0 (bn_map node);
      match r with
      | Some page_num =>
          phys_addr ← uadd 64 (bn_base_phys node) (page_num * PAGE_4K);
          addr ← unwrap (PhysAddr_new phys_addr);
          Ok (Some addr, set_map node map' :: rest)
      | None =>
          '(r', rest') ← scan_nodes step rest; Ok (r', node :: rest')
      end
  end.

Definition alloc {E} (self : PageAllocator) (size : PageSize) (specific_addr : option Z) :
    outcome E (option Z * PageAllocator) :=
  match specific_addr with
  | Some phys =>
      match size with
      | Size4KiB =>
          if negb (phys mod PAGE_4K =? 0) then Ok (None, self)
          else at_node phys (claim_4k phys) None self
      | Size2MiB =>
          if negb (phys mod PAGE_2M =? 0) then Ok (None, self)
          else at_node phys (claim_2m phys) None self
      end
  | None => scan_nodes (step_of size) self
  end.
End Alloc.

(** ** [PageAllocator::dealloc] *)
Definition release (phys : Z) (size : PageSize) (node : BitmapNode) :
    outcome MapErr (bool * BitmapNode) :=
  let step := step_of size in
  offset ← usub phys (bn_base_phys node);
  let page_num := offset / PAGE_4K in
  let aligned_page := Z.land page_num (unot 64 (step - 1)) in
  let word_idx := Z.to_nat (aligned_page / 64) in
  let bit_start := aligned_page mod 64 in
  match bn_map node !! word_idx with
  | None => Err NotMapped
  | Some val =>
      mask ← (if step =? 1 then ushl 64 1 bit_start
              else s ← ushl 64 1 step; ushl 64 (s - 1) bit_start);
      Ok (true, set_map node (<[word_idx := Z.lor val mask]> (bn_map node)))
  end.

Definition dealloc (self : PageAllocator) (phys : Z) (size : PageSize) :
    outcome MapErr PageAllocator :=
  '(found, self') ← at_node phys (release phys size) false self;
  if (found : bool) then Ok self' else Err NotMapped.

(** ** [get_stats] *)
Definition count_ones (x : Z) : Z :=
  Z.of_nat (length (filter (fun i => Z.testbit x i = true) (seqZ 0 64))).

Fixpoint stats_words {E} (pages_in_region len word_idx : Z) (words : list Z) (acc : Z * Z) :
    outcome E (Z * Z) :=
  match words with
  | [] => Ok acc
  | val :: rest =>
      let '(free_pages, total_pages) := acc in
      bits_in_this_word ←
        (if word_idx =? len - 1
         then remaining_pages ← usub pages_in_region (word_idx * 64);
              Ok (Z.min 64 remaining_pages)
         else Ok 64);
      top ← usub bits_in_this_word 1;
      s ← ushl 64 1 top;
      mask ← usub s 1;
      stats_words pages_in_region len (word_idx + 1) rest
        (free_pages + count_ones (Z.land val mask), total_pages + bits_in_this_word)
  end.

Fixpoint stats_nodes {E} (nodes : PageAllocator) (acc : Z * Z) : outcome E (Z * Z) :=
  match nodes with
  | [] => Ok acc
  | node :: rest =>
      acc' ← stats_words (bn_region_size node / PAGE_4K) (Z.of_nat (length (bn_map node))) 0
               (bn_map node) acc;
      stats_nodes rest acc'
  end.

(** [PageAllocator::dump] prints; it reads the first word of every bitmap. *)
Fixpoint dump {E} (nodes : PageAllocator) : outcome E unit :=
  match nodes with
  | [] => Ok tt
  | node :: rest => _ ← unwrap (bn_map node !! 0%nat); dump rest
  end.

Definition get_stats (self : option PageAllocator) : outcome MapErr (Z * Z) :=
  alloc ← ok_or Uninitialized self;
  stats ← stats_nodes alloc (0, 0);
  _ ← dump alloc;
  Ok stats.

(** ** [free_phys_page] *)
Definition free_phys_page (ALLOCATOR : option PageAllocator) (phys : Z) :
    outcome MapErr PageAllocator :=
  alloc ← ok_or Uninitialized ALLOCATOR; dealloc alloc phys Size4KiB.

(** ** Bitmaps as sets of bits *)
Definition bitmap_bit (ws : list Z) (k : Z) : bool :=
  match ws !! Z.to_nat (k / 64) with Some w => Z.testbit w (k mod 64) | None => false end.

Definition upd_bit (b : bool) (ws : list Z) (k : Z) : list Z :=
  match ws !! Z.to_nat (k / 64) with
  | Some w => <[Z.to_nat (k / 64) := (if b then Z.lor else Z.ldiff) w (Z.shiftl 1 (k mod 64))]> ws
  | None => ws
  end.

Lemma upd_bit_length b ws k : length (upd_bit b ws k) = length ws.
Proof. unfold upd_bit. destruct (ws !! _); [apply length_insert|done]. Qed.

Lemma upd_bit_is_u b ws k :
  Forall (is_u 64) ws -> Forall (is_u 64) (upd_bit b ws k).
Proof.
  intros Hws. unfold upd_bit. destruct (ws !! _) as [w|] eqn:Hw; [|done].
  pose proof (Forall_lookup_1 _ _ _ _ Hws Hw). apply Forall_insert; [done|].
  destruct b; [|auto using is_u_ldiff with lia].
  apply is_u_lor; [lia|done|]. rewrite <-(wrap_one_bit 64); [apply is_u_wrap; lia|].
  apply Z.mod_pos_bound; lia.
Qed.

Lemma divmod_inj j k n : 0 < n -> j / n = k / n -> j mod n = k mod n -> j = k.
Proof. intros. rewrite (Z.div_mod j n), (Z.div_mod k n) by lia. lia. Qed.

Lemma bitmap_bit_upd b ws k j :
  0 <= k -> 0 <= j -> k < 64 * Z.of_nat (length ws) ->
  bitmap_bit (upd_bit b ws k) j = if decide (j = k) then b else bitmap_bit ws j.
Proof.
  intros Hk Hj Hlen. unfold bitmap_bit, upd_bit.
  pose proof (Z.mod_pos_bound k 64 ltac:(lia)). pose proof (Z.mod_pos_bound j 64 ltac:(lia)).
  destruct (lookup_lt_is_Some_2 ws (Z.to_nat (k / 64))) as [w Hw].
  { apply Nat2Z.inj_lt. rewrite Z2Nat.id by (apply Z.div_pos; lia).
    apply Z.div_lt_upper_bound; lia. }
  rewrite Hw. destruct (decide (j / 64 = k / 64)) as [Hq|Hq].
  - rewrite Hq, list_lookup_insert_eq, Hw by (eapply lookup_lt_Some; eauto).
    destruct (decide (j = k)) as [->|Hne].
    + destruct b; [rewrite Z.lor_spec|rewrite Z.ldiff_spec];
        rewrite one_bit_testbit, bool_decide_true by lia;
        [apply orb_true_r|apply andb_false_r].
    + assert (j mod 64 <> k mod 64) by (intros ?; apply Hne, (divmod_inj j k 64); lia).
      destruct b; [rewrite Z.lor_spec|rewrite Z.ldiff_spec];
        rewrite one_bit_testbit, bool_decide_false by lia;
        [apply orb_false_r|apply andb_true_r].
  - rewrite decide_False by congruence.
    rewrite list_lookup_insert_ne; [done|].
    intros E. apply Hq, (Z2Nat.inj _ _); [apply Z.div_pos; lia..|done].
Qed.

Lemma word_index_sub k :
  64 <= k -> Z.to_nat (k / 64) = S (Z.to_nat ((k - 64) / 64)) /\ k mod 64 = (k - 64) mod 64.
Proof.
  intros Hk. pose proof (Z.div_pos (k - 64) 64 ltac:(lia) ltac:(lia)).
  assert (k / 64 = (k - 64) / 64 + 1) as ->
    by (rewrite <-Z.div_add by lia; f_equal; lia).
  split; [lia|]. rewrite <-(Z.mod_add (k - 64) 1 64) by lia. f_equal; lia.
Qed.

Lemma bitmap_bit_cons w ws k :
  0 <= k -> bitmap_bit (w :: ws) k = if k <? 64 then Z.testbit w k else bitmap_bit ws (k - 64).
Proof.
  intros Hk. unfold bitmap_bit. destruct (Z.ltb_spec k 64).
  - rewrite Z.div_small, Z.mod_small by lia. done.
  - destruct (word_index_sub k) as [-> ->]; done.
Qed.

Lemma upd_bit_cons b w ws k :
  0 <= k -> upd_bit b (w :: ws) k =
    if k <? 64 then (if b then Z.lor else Z.ldiff) w (Z.shiftl 1 k) :: ws
    else w :: upd_bit b ws (k - 64).
Proof.
  intros Hk. unfold upd_bit. destruct (Z.ltb_spec k 64).
  - rewrite Z.div_small, Z.mod_small by lia. done.
  - destruct (word_index_sub k) as [-> ->]; [done|]. cbn. by destruct (ws !! _).
Qed.

(** ** The search *)
Lemma scan_word_spec {E} fuel pages wi val bp :
  is_u 64 val -> 0 <= bp <= 64 -> 65 - bp <= Z.of_nat fuel ->
  (exists i, bp <= i < 64 /\ wi * 64 + i < pages /\ Z.testbit val i = true /\
     @scan_word E fuel 1 pages wi val bp = Ok (Some (wi * 64 + i, Z.ldiff val (Z.shiftl 1 i))))
  \/ ((forall i, bp <= i < 64 -> wi * 64 + i < pages -> Z.testbit val i = false) /\
     @scan_word E fuel 1 pages wi val bp = Ok None).
Proof.
  intros Hval. revert bp. induction fuel as [|fuel IH]; intros bp Hbp Hfuel; [lia|].
  cbn [scan_word]. rewrite usub_eq by lia. cbn.
  destruct (Z.leb_spec bp (64 - 1)), (Z.ltb_spec (wi * 64 + bp) pages); cbn;
    [|right; split; [intros; lia|done]..].
  unfold ushl. destruct (Z.ltb_spec bp 64); [|lia]. cbn.
  rewrite wrap_one_bit, land_one_bit_eq by lia.
  destruct (Z.testbit val bp) eqn:Hb.
  - left. exists bp. rewrite land_unot by (lia || done). auto with lia.
  - destruct (IH (bp + 1) ltac:(lia) ltac:(lia)) as [(i & ? & ? & ? & ->)|[Hno ->]].
    + left. exists i. auto with lia.
    + right. split; [|done]. intros i Hi Hp. destruct (decide (i = bp)) as [->|]; auto with lia.
Qed.

Lemma scan_words_spec {E} pages words wi :
  Forall (is_u 64) words -> 0 <= wi ->
  (exists k, 0 <= k < 64 * Z.of_nat (length words) /\ wi * 64 + k < pages /\
     bitmap_bit words k = true /\
     @scan_words E 1 pages wi words = Ok (Some (wi * 64 + k), upd_bit false words k))
  \/ ((forall k, 0 <= k -> wi * 64 + k < pages -> bitmap_bit words k = false) /\
     @scan_words E 1 pages wi words = Ok (None, words)).
Proof.
  intros Hws. revert wi. induction Hws as [|w ws Hw Hws IH]; intros wi Hwi.
  { right. split; [|done]. intros. unfold bitmap_bit. by rewrite lookup_nil. }
  cbn [scan_words].
  assert ((exists i, 0 <= i < 64 /\ wi * 64 + i < pages /\ Z.testbit w i = true /\
      (if w =? 0 then Ok None else @scan_word E 66 1 pages wi w 0) =
        Ok (Some (wi * 64 + i, Z.ldiff w (Z.shiftl 1 i)))) \/
      ((forall i, 0 <= i < 64 -> wi * 64 + i < pages -> Z.testbit w i = false) /\
      (if w =? 0 then Ok None else @scan_word E 66 1 pages wi w 0) = Ok None)) as Hword.
  { destruct (Z.eqb_spec w 0) as [->|]; [|apply scan_word_spec; (done || lia)].
    right. split; [|done]. intros. apply Z.bits_0. }
  destruct Hword as [(i & ? & ? & Hbit & ->)|[Hno ->]]; cbn.
  - left. exists i. rewrite bitmap_bit_cons, upd_bit_cons by lia.
    destruct (Z.ltb_spec i 64); [|lia]. auto with lia.
  - destruct (IH (wi + 1) ltac:(lia)) as [(k & ? & ? & Hbit & ->)|[Hno' ->]]; cbn.
    + left. exists (k + 64). rewrite bitmap_bit_cons, upd_bit_cons by lia.
      destruct (Z.ltb_spec (k + 64) 64); [lia|]. rewrite Z.add_simpl_r.
      replace (wi * 64 + (k + 64)) with ((wi + 1) * 64 + k) by lia. auto with lia.
    + right. split; [|done]. intros k Hk Hp. rewrite bitmap_bit_cons by lia.
      destruct (Z.ltb_spec k 64); [apply Hno|apply Hno']; lia.
Qed.

(** ** The invariant *)
Definition MAX_PHYS : Z := 2 ^ 52.

Record node_wf (n : BitmapNode) : Prop := {
  wf_base : 0 <= bn_base_phys n;
  wf_base_aligned : bn_base_phys n mod PAGE_4K = 0;
  wf_size : 0 < bn_region_size n;
  wf_size_aligned : bn_region_size n mod PAGE_4K = 0;
  wf_end : bn_base_phys n + bn_region_size n <= MAX_PHYS;
  wf_len : Z.of_nat (length (bn_map n)) = (bn_region_size n / PAGE_4K + 63) / 64;
  wf_words : Forall (is_u 64) (bn_map n);
  (** No bit beyond the last page of the region is ever set. *)
  wf_tail : forall k, bn_region_size n / PAGE_4K <= k -> bitmap_bit (bn_map n) k = false;
}.

Definition covers (n : BitmapNode) (p : Z) : bool :=
  (bn_base_phys n <=? p) && (p <? bn_base_phys n + bn_region_size n).
Definition regions_disjoint (n m : BitmapNode) : Prop :=
  bn_base_phys n + bn_region_size n <= bn_base_phys m \/
  bn_base_phys m + bn_region_size m <= bn_base_phys n.

Fixpoint alloc_wf (a : PageAllocator) : Prop :=
  match a with
  | [] => True
  | n :: rest => node_wf n /\ Forall (regions_disjoint n) rest /\ alloc_wf rest
  end.

(** The abstraction: the pages the allocator can hand out. *)
Definition node_free (n : BitmapNode) (p : Z) : bool :=
  covers n p && (p mod PAGE_4K =? 0)
  && bitmap_bit (bn_map n) ((p - bn_base_phys n) / PAGE_4K).
Definition is_free (a : PageAllocator) (p : Z) : bool := existsb (fun n => node_free n p) a.
Definition managed (a : PageAllocator) (p : Z) : bool := existsb (fun n => covers n p) a.

Lemma covers_spec n p :
  covers n p = true <-> bn_base_phys n <= p < bn_base_phys n + bn_region_size n.
Proof. unfold covers. rewrite andb_true_iff, Z.leb_le, Z.ltb_lt. done. Qed.

Lemma page_index_inj b p q :
  b mod PAGE_4K = 0 -> p mod PAGE_4K = 0 -> q mod PAGE_4K = 0 ->
  (p - b) / PAGE_4K = (q - b) / PAGE_4K -> p = q.
Proof.
  unfold PAGE_4K. intros Hb Hp Hq H. cut (p - b = q - b); [lia|].
  apply (divmod_inj _ _ 4096); [lia|done|]. rewrite (Zminus_mod p), (Zminus_mod q), Hb, Hp, Hq. done.
Qed.

Lemma page_index_of_nth b k :
  b mod PAGE_4K = 0 -> (b + k * PAGE_4K) mod PAGE_4K = 0 /\ (b + k * PAGE_4K - b) / PAGE_4K = k.
Proof.
  unfold PAGE_4K. intros Hb. rewrite Z.mod_add by lia. split; [done|].
  replace (b + k * 4096 - b) with (k * 4096) by lia. apply Z.div_mul; lia.
Qed.

Section Node.
Context (n : BitmapNode) (Hn : node_wf n).

Lemma page_index_bounds p :
  covers n p = true -> 0 <= (p - bn_base_phys n) / PAGE_4K < bn_region_size n / PAGE_4K.
Proof using Hn.
  rewrite covers_spec. intros Hp. pose proof (wf_size_aligned n Hn).
  unfold PAGE_4K in *. split; [apply Z.div_pos; lia|].
  apply Z.div_lt_upper_bound; [lia|]. rewrite <-Z_div_exact_full_2; lia.
Qed.

Lemma page_in_bitmap k : k < bn_region_size n / PAGE_4K -> k < 64 * Z.of_nat (length (bn_map n)).
Proof using Hn.
  rewrite (wf_len n Hn). intros.
  pose proof (Z.div_mod (bn_region_size n / PAGE_4K + 63) 64 ltac:(lia)).
  pose proof (Z.mod_pos_bound (bn_region_size n / PAGE_4K + 63) 64 ltac:(lia)). lia.
Qed.

Lemma nth_page_covered k :
  0 <= k < bn_region_size n / PAGE_4K -> covers n (bn_base_phys n + k * PAGE_4K) = true.
Proof using Hn.
  rewrite covers_spec. pose proof (wf_size_aligned n Hn). unfold PAGE_4K in *. intros.
  rewrite (Z_div_exact_full_2 (bn_region_size n) 4096) by lia. lia.
Qed.

(** Setting or clearing the bit of a page changes that page and nothing else. *)
Lemma upd_node_wf b k :
  0 <= k < bn_region_size n / PAGE_4K -> node_wf (set_map n (upd_bit b (bn_map n) k)).
Proof using Hn.
  intros Hk. pose proof (page_in_bitmap k (proj2 Hk)).
  destruct Hn as [? ? ? ? ? ? ? Htail]. constructor; cbn; try done.
  - by rewrite upd_bit_length.
  - by apply upd_bit_is_u.
  - intros j Hj. rewrite bitmap_bit_upd by lia.
    rewrite decide_False by lia. auto.
Qed.

Lemma upd_node_free b p q :
  covers n p = true -> p mod PAGE_4K = 0 ->
  node_free (set_map n (upd_bit b (bn_map n) ((p - bn_base_phys n) / PAGE_4K))) q =
  if decide (q = p) then b else node_free n q.
Proof using Hn.
  intros Hp Hal. pose proof (page_index_bounds p Hp). unfold node_free.
  change (covers (set_map _ _) q) with (covers n q). cbn.
  destruct (covers n q) eqn:Hq; cbn; [|by destruct (decide (q = p)); [congruence|]].
  pose proof (page_index_bounds q Hq).
  rewrite bitmap_bit_upd by (lia || apply page_in_bitmap; lia).
  destruct (Z.eqb_spec (q mod PAGE_4K) 0), (decide (q = p)) as [->|]; try done.
  - rewrite decide_True by done. done.
  - rewrite decide_False; [done|]. eauto using page_index_inj, wf_base_aligned.
Qed.
End Node.

Lemma covers_disjoint n m p :
  regions_disjoint n m -> covers n p = true -> covers m p = false.
Proof.
  unfold regions_disjoint. rewrite covers_spec, <-not_true_iff_false, covers_spec. lia.
Qed.

Lemma not_covered_tail n rest p :
  Forall (regions_disjoint n) rest -> covers n p = true -> managed rest p = false.
Proof.
  intros Hd Hp. unfold managed. induction Hd; cbn; [done|].
  by rewrite (covers_disjoint n x p), IHHd.
Qed.

Lemma free_managed a p : is_free a p = true -> managed a p = true.
Proof.
  unfold is_free, managed. rewrite !existsb_exists. intros (n & ? & Hf). exists n.
  unfold node_free in Hf. apply andb_true_iff in Hf as [[]%andb_true_iff _]. auto.
Qed.

Lemma unmanaged_not_free a p : managed a p = false -> is_free a p = false.
Proof. rewrite <-!not_true_iff_false. auto using free_managed. Qed.

Lemma is_free_cons n a p : is_free (n :: a) p = node_free n p || is_free a p.
Proof. done. Qed.

Lemma node_free_covers n p : covers n p = false -> node_free n p = false.
Proof. unfold node_free. by intros ->. Qed.

(** Two allocators over the same regions, in the same order. *)
Definition same_regions (a a' : PageAllocator) : Prop :=
  Forall2 (fun n n' => bn_base_phys n = bn_base_phys n' /\ bn_region_size n = bn_region_size n') a a'.

#[export] Instance same_regions_equiv : Equivalence same_regions.
Proof.
  split.
  - intros a. apply Forall_Forall2_diag, Forall_true. done.
  - intros a b H. apply Forall2_flip. eapply Forall2_impl; [exact H|]. naive_solver.
  - intros a b c H. revert c. induction H; intros c Hc; inversion_clear Hc; constructor;
      [intuition congruence|by apply IHForall2].
Qed.

Lemma same_regions_disjoint n n' a a' :
  bn_base_phys n = bn_base_phys n' -> bn_region_size n = bn_region_size n' ->
  same_regions a a' -> Forall (regions_disjoint n) a -> Forall (regions_disjoint n') a'.
Proof.
  intros Hb Hs Ha. induction Ha as [|m m' a a' [? ?] Ha IH]; [constructor|].
  rewrite !Forall_cons. unfold regions_disjoint in *. intros []. split; [lia|auto].
Qed.

(** ** One node of the list *)
Lemma alloc_wf_at a1 n a2 :
  alloc_wf (a1 ++ n :: a2) -> node_wf n /\ Forall (regions_disjoint n) (a1 ++ a2).
Proof.
  induction a1 as [|m a1 IH]; cbn; [naive_solver|].
  intros (_ & Hd & [? ?]%IH). split; [done|]. constructor; [|done].
  apply Forall_app in Hd as [_ [Hd _]%Forall_cons]. unfold regions_disjoint in *. lia.
Qed.

Lemma alloc_wf_replace a1 n n' a2 :
  alloc_wf (a1 ++ n :: a2) -> node_wf n' ->
  bn_base_phys n = bn_base_phys n' -> bn_region_size n = bn_region_size n' ->
  alloc_wf (a1 ++ n' :: a2).
Proof.
  intros Hwf Hn' Hb Hs. induction a1 as [|m a1 IH]; cbn in *.
  - destruct Hwf as (_ & ? & ?). split_and!; [done| |done].
    eapply same_regions_disjoint; eauto. reflexivity.
  - destruct Hwf as (? & Hd & ?). split_and!; [done| |auto].
    apply Forall_app in Hd as [? [Hd ?]%Forall_cons]. apply Forall_app. split; [done|].
    constructor; [unfold regions_disjoint in *; lia|done].
Qed.

Lemma is_free_at a1 n a2 q :
  alloc_wf (a1 ++ n :: a2) ->
  is_free (a1 ++ n :: a2) q = if covers n q then node_free n q else is_free (a1 ++ a2) q.
Proof.
  intros [_ Hd]%alloc_wf_at. unfold is_free. rewrite !existsb_app. cbn.
  destruct (covers n q) eqn:Hc.
  - pose proof (unmanaged_not_free _ _ (not_covered_tail _ _ _ Hd Hc)) as Hf.
    unfold is_free in Hf. rewrite existsb_app, orb_false_iff in Hf. destruct Hf as [-> ->].
    apply orb_false_r.
  - by rewrite node_free_covers.
Qed.

Lemma managed_replace a1 n m a2 q :
  managed (a1 ++ n :: a2) q = managed (a1 ++ set_map n m :: a2) q.
Proof. unfold managed. by rewrite !existsb_app. Qed.

Lemma managed_split a p :
  managed a p = true -> exists a1 n a2,
    a = a1 ++ n :: a2 /\ covers n p = true /\ managed a1 p = false.
Proof.
  induction a as [|n a IH]; cbn; [done|]. destruct (covers n p) eqn:Hc; cbn.
  - intros _. by exists [], n, a.
  - intros (a1 & m & a2 & -> & ? & Hm)%IH. exists (n :: a1), m, a2.
    split_and!; [done..|]. cbn. by rewrite Hc.
Qed.

Lemma in_node_eq {E} p n : node_wf n -> @in_node E p n = Ok (covers n p).
Proof.
  intros Hn. unfold in_node, covers. pose proof (wf_end n Hn). unfold MAX_PHYS in *.
  destruct (Z.leb_spec (bn_base_phys n) p); [|done]. rewrite uadd_eq by lia. done.
Qed.

Lemma at_node_unmanaged {E A} p f (none : A) a :
  alloc_wf a -> managed a p = false -> @at_node E A p f none a = Ok (none, a).
Proof.
  induction a as [|n a IH]; cbn; [done|]. intros (Hn & _ & Ha) [Hc Hm]%orb_false_iff.
  rewrite in_node_eq, Hc by done. cbn. by rewrite IH.
Qed.

Lemma at_node_managed {E A} p f (none : A) a1 n a2 r n' :
  alloc_wf (a1 ++ n :: a2) -> managed a1 p = false -> covers n p = true ->
  f n = Ok (r, n') ->
  @at_node E A p f none (a1 ++ n :: a2) = Ok (r, a1 ++ n' :: a2).
Proof.
  intros Hwf Hm Hc Hf. induction a1 as [|m a1 IH]; cbn in *.
  - rewrite in_node_eq, Hc by naive_solver. cbn. by rewrite Hf.
  - apply orb_false_iff in Hm as [Hcm ?]. rewrite in_node_eq, Hcm by naive_solver.
    cbn. rewrite IH by naive_solver. done.
Qed.

(** The effect of an operation that sets the bit of one page to [b]. *)
Lemma upd_page a1 n a2 b p :
  alloc_wf (a1 ++ n :: a2) -> covers n p = true -> p mod PAGE_4K = 0 ->
  let a' := a1 ++ set_map n (upd_bit b (bn_map n) ((p - bn_base_phys n) / PAGE_4K)) :: a2 in
  alloc_wf a' /\
  (forall q, is_free a' q = if decide (q = p) then b else is_free (a1 ++ n :: a2) q).
Proof.
  intros Hwf Hc Hp a'. destruct (alloc_wf_at _ _ _ Hwf) as [Hn _].
  assert (alloc_wf a').
  { eapply alloc_wf_replace; [done| |done..]. by apply upd_node_wf, page_index_bounds. }
  split; [done|]. intros q. unfold a'. rewrite !is_free_at by done.
  change (covers (set_map _ _) q) with (covers n q).
  rewrite upd_node_free by done. destruct (covers n q) eqn:Hq; [done|].
  destruct (decide (q = p)) as [->|]; [congruence|done].
Qed.

Lemma claim_4k_eq {E} p n :
  node_wf n -> covers n p = true -> p mod PAGE_4K = 0 ->
  @claim_4k E p n =
    Ok (if node_free n p
        then (Some p, set_map n (upd_bit false (bn_map n) ((p - bn_base_phys n) / PAGE_4K)))
        else (None, n)).
Proof.
  intros Hn Hc Hp. pose proof (proj1 (covers_spec n p) Hc).
  unfold claim_4k, node_free. rewrite usub_eq, Hc, Hp by lia. cbn.
  unfold bitmap_bit, upd_bit. set (k := (p - bn_base_phys n) / PAGE_4K).
  destruct (bn_map n !! Z.to_nat (k / 64)) as [w|] eqn:Hw; [|done].
  pose proof (Forall_lookup_1 _ _ _ _ (wf_words n Hn) Hw).
  pose proof (Z.mod_pos_bound k 64 ltac:(lia)).
  unfold ushl. destruct (Z.ltb_spec (k mod 64) 64); [|lia]. cbn.
  rewrite wrap_one_bit, land_one_bit_zero by lia.
  destruct (Z.testbit w (k mod 64)); cbn; [|done]. by rewrite land_unot.
Qed.

Lemma release_4k_eq p n :
  node_wf n -> covers n p = true ->
  release p Size4KiB n =
    Ok (true, set_map n (upd_bit true (bn_map n) ((p - bn_base_phys n) / PAGE_4K))).
Proof.
  intros Hn Hc. pose proof (proj1 (covers_spec n p) Hc).
  pose proof (page_index_bounds n Hn p Hc) as Hk.
  pose proof (page_in_bitmap n Hn _ (proj2 Hk)). revert Hk.
  unfold release. rewrite usub_eq by lia. cbn.
  set (k := (p - bn_base_phys n) / PAGE_4K) in *. intros Hk.
  assert (Z.land k (unot 64 (1 - 1)) = k) as ->.
  { pose proof (wf_end n Hn). pose proof (wf_base n Hn). unfold MAX_PHYS in *.
    rewrite land_unot; [apply Z.ldiff_0_r|lia|]. split; [lia|].
    pose proof (Z.div_le_upper_bound (bn_region_size n) PAGE_4K (2 ^ 52) ltac:(done)).
    unfold PAGE_4K in *. lia. }
  unfold upd_bit. destruct (lookup_lt_is_Some_2 (bn_map n) (Z.to_nat (k / 64))) as [w Hw].
  { apply Nat2Z.inj_lt. rewrite Z2Nat.id by (apply Z.div_pos; lia).
    apply Z.div_lt_upper_bound; lia. }
  rewrite Hw. pose proof (Z.mod_pos_bound k 64 ltac:(lia)).
  unfold ushl. destruct (Z.ltb_spec (k mod 64) 64); [|lia]. cbn.
  by rewrite wrap_one_bit.
Qed.

(** ** The contract

    The allocator promises to manage a set of free pages: an allocation takes a
    page out of the set or reports that there is none, a release puts it back. *)
Inductive op := AllocAny | AllocAt (p : Z) | Free (p : Z).
Inductive answer := Got (p : Z) | Nothing | Done | Failed.

(** The page an address lies in. *)
Definition page_of (p : Z) : Z := p - p mod PAGE_4K.

Lemma page_of_aligned p : page_of p mod PAGE_4K = 0.
Proof. unfold page_of, PAGE_4K. rewrite Zminus_mod_idemp_r, Z.sub_diag. done. Qed.

Definition spec_step (o : op) (r : answer) (dom free free' : Z -> bool) : Prop :=
  match o, r with
  | AllocAny, Got p =>
      free p = true /\ forall q, free' q = if decide (q = p) then false else free q
  | AllocAny, Nothing => (forall q, free q = false) /\ forall q, free' q = false
  | AllocAt p, Got p' =>
      p' = p /\ free p = true /\ forall q, free' q = if decide (q = p) then false else free q
  | AllocAt p, Nothing => free p = false /\ forall q, free' q = free q
  | Free p, Done =>
      dom p = true /\ forall q, free' q = if decide (q = page_of p) then true else free q
  | Free p, Failed => dom p = false /\ forall q, free' q = free q
  | _, _ => False
  end.

Inductive spec_run (dom : Z -> bool) :
    (Z -> bool) -> list (op * answer) -> (Z -> bool) -> Prop :=
| spec_nil free free' : (forall q, free' q = free q) -> spec_run dom free [] free'
| spec_cons o r free free1 tr free' :
    spec_step o r dom free free1 -> spec_run dom free1 tr free' ->
    spec_run dom free ((o, r) :: tr) free'.

Lemma spec_run_ext dom dom' free free0 tr free' :
  (forall q, dom' q = dom q) -> (forall q, free0 q = free q) ->
  spec_run dom' free0 tr free' -> spec_run dom free tr free'.
Proof.
  intros Hd Hf Hrun. revert free Hf.
  induction Hrun as [free0 free' Heq|o r free0 free1 tr free' Hstep Hrun IH]; intros free Hf.
  - constructor. intros q. by rewrite Heq.
  - econstructor; [|by apply IH].
    destruct o, r; cbn in *; destruct_and?; split_and?; try done; intros;
      rewrite <-?Hd, <-?Hf; done.
Qed.

Definition run_op (PhysAddr_new : Z -> option Z) (o : op) (a : PageAllocator) :
    outcome MapErr (answer * PageAllocator) :=
  match o with
  | AllocAny => '(r, a') ← alloc PhysAddr_new a Size4KiB None;
                Ok (match r with Some p => Got p | None => Nothing end, a')
  | AllocAt p => '(r, a') ← alloc PhysAddr_new a Size4KiB (Some p);
                 Ok (match r with Some p => Got p | None => Nothing end, a')
  | Free p => match dealloc a p Size4KiB with
              | Ok a' => Ok (Done, a')
              | Err _ => Ok (Failed, a)
              | Panic => Panic
              end
  end.

(** What [PhysAddr::new] documents: an address of at most 52 bits is accepted as it is. *)
Definition accepts_phys (PhysAddr_new : Z -> option Z) : Prop :=
  forall x, 0 <= x < MAX_PHYS -> PhysAddr_new x = Some x.

Section Contract.
Context (PhysAddr_new : Z -> option Z) (Hphys : accepts_phys PhysAddr_new).

Lemma scan_nodes_spec {E} a :
  alloc_wf a ->
  (exists a1 n a2 p, a = a1 ++ n :: a2 /\ covers n p = true /\ p mod PAGE_4K = 0 /\
     node_free n p = true /\
     @scan_nodes PhysAddr_new E 1 a =
       Ok (Some p, a1 ++ set_map n (upd_bit false (bn_map n) ((p - bn_base_phys n) / PAGE_4K)) :: a2))
  \/ ((forall q, is_free a q = false) /\ @scan_nodes PhysAddr_new E 1 a = Ok (None, a)).
Proof using Hphys.
  induction a as [|n a IH]; [right; done|]. intros (Hn & Hd & Ha). cbn [scan_nodes].
  destruct (@scan_words_spec E (bn_region_size n / PAGE_4K) (bn_map n) 0)
    as [(k & ? & ? & Hbit & ->)|[Hno ->]]; [apply Hn|lia| |].
  - left. cbn. destruct (page_index_of_nth (bn_base_phys n) k (wf_base_aligned n Hn)) as [? Hk].
    pose proof (nth_page_covered n Hn k ltac:(lia)) as Hc. pose proof (wf_end n Hn).
    pose proof (proj1 (covers_spec _ _) Hc). pose proof (wf_base n Hn).
    exists [], n, a, (bn_base_phys n + k * PAGE_4K). unfold node_free. rewrite Hc, H1, Hk.
    rewrite uadd_eq by (unfold MAX_PHYS in *; lia). cbn.
    rewrite Hphys by lia. done.
  - cbn. destruct (IH Ha) as [(a1 & m & a2 & p & -> & ? & ? & ? & ->)|[Hf ->]]; cbn.
    + left. by exists (n :: a1), m, a2, p.
    + right. split; [|done]. intros q. change (node_free n q || is_free a q = false).
      rewrite Hf, orb_false_r.
      unfold node_free. destruct (covers n q) eqn:Hc; [|done].
      pose proof (page_index_bounds n Hn q Hc). rewrite Hno by lia. apply andb_false_r.
Qed.

Lemma dealloc_4k_eq a1 n a2 p :
  alloc_wf (a1 ++ n :: a2) -> covers n p = true -> managed a1 p = false ->
  dealloc (a1 ++ n :: a2) p Size4KiB =
    Ok (a1 ++ set_map n (upd_bit true (bn_map n) ((page_of p - bn_base_phys n) / PAGE_4K)) :: a2)
  /\ covers n (page_of p) = true.
Proof.
  intros Hwf Hc Hm. destruct (alloc_wf_at _ _ _ Hwf) as [Hn _]. unfold dealloc.
  erewrite at_node_managed; [|done..|by apply release_4k_eq]. cbn.
  pose proof (wf_base_aligned n Hn). rewrite covers_spec in Hc.
  pose proof (Z.div_mod p 4096 ltac:(lia)). pose proof (Z.mod_pos_bound p 4096 ltac:(lia)).
  pose proof (Z.div_mod (bn_base_phys n) 4096 ltac:(lia)).
  unfold page_of, PAGE_4K in *. split; [|rewrite covers_spec; lia].
  set (b := bn_base_phys n) in *.
  rewrite <-(Z.div_unique (p - b) 4096 (p / 4096 - b / 4096) (p mod 4096)) by lia.
  by rewrite <-(Z.div_unique (p - p mod 4096 - b) 4096 (p / 4096 - b / 4096) 0) by lia.
Qed.

Lemma run_op_refines o a :
  alloc_wf a ->
  exists r a', run_op PhysAddr_new o a = Ok (r, a') /\ alloc_wf a' /\
    (forall q, managed a q = managed a' q) /\
    spec_step o r (managed a) (is_free a) (is_free a').
Proof using Hphys.
  intros Hwf. destruct o as [|p|p]; cbn [run_op alloc step_of].
  - destruct (@scan_nodes_spec MapErr a Hwf) as [(a1 & n & a2 & p & -> & Hc & Hp & Hf & ->)|[Hno ->]].
    + destruct (upd_page _ _ _ false p Hwf Hc Hp) as [? Hupd].
      exists (Got p). eexists. split_and!; [done..|by apply managed_replace|]. cbn. by rewrite is_free_at, Hc.
    + do 2 eexists. done.
  - destruct (Z.eqb_spec (p mod PAGE_4K) 0) as [Hp|Hp]; cbn.
    2:{ exists Nothing, a. split_and!; [done..| |done].
        apply not_true_iff_false. unfold is_free. rewrite existsb_exists.
        intros (n & _ & Hf). unfold node_free in Hf. zbool. done. }
    destruct (managed a p) eqn:Hm.
    2:{ rewrite at_node_unmanaged by done. exists Nothing, a.
        split_and!; [done..|by apply unmanaged_not_free|done]. }
    destruct (managed_split _ _ Hm) as (a1 & n & a2 & -> & Hc & Hm1).
    destruct (alloc_wf_at _ _ _ Hwf) as [Hn _].
    pose proof (@claim_4k_eq MapErr p n Hn Hc Hp) as Hclaim.
    pose proof (is_free_at a1 n a2 p Hwf) as Hfree. rewrite Hc in Hfree.
    destruct (upd_page _ _ _ false p Hwf Hc Hp) as [? Hupd].
    destruct (node_free n p); erewrite at_node_managed by done;
      do 2 eexists; split_and!; try done; by apply managed_replace.
  - destruct (managed a p) eqn:Hm.
    + destruct (managed_split _ _ Hm) as (a1 & n & a2 & -> & Hc & Hm1).
      destruct (dealloc_4k_eq a1 n a2 p) as [-> Hpg]; [done..|].
      destruct (upd_page _ _ _ true _ Hwf Hpg (page_of_aligned p)) as [? Hupd].
      exists Done. eexists. split; [done|]. split_and!; try done. by intros; apply managed_replace.
    + unfold dealloc. rewrite at_node_unmanaged by done. do 2 eexists. done.
Qed.

(** Sequences of operations, each paired with its answer. *)
Fixpoint run_ops (os : list op) (a : PageAllocator) :
    outcome MapErr (list (op * answer) * PageAllocator) :=
  match os with
  | [] => Ok ([], a)
  | o :: os =>
      '(r, a1) ← run_op PhysAddr_new o a;
      '(tr, a2) ← run_ops os a1;
      Ok ((o, r) :: tr, a2)
  end.

Lemma run_ops_refine os a :
  alloc_wf a ->
  exists tr a', run_ops os a = Ok (tr, a') /\ alloc_wf a' /\ tr.*1 = os /\
    spec_run (managed a) (is_free a) tr (is_free a').
Proof using Hphys.
  revert a. induction os as [|o os IH]; intros a Hwf; cbn.
  { do 2 eexists. split_and!; [done..|constructor]. done. }
  destruct (run_op_refines o a Hwf) as (r & a1 & -> & Hwf1 & Hdom & Hstep). cbn.
  destruct (IH a1 Hwf1) as (tr & a2 & -> & Hwf2 & <- & Hrun). cbn.
  do 2 eexists. split_and!; [done..|]. econstructor; [exact Hstep|].
  eapply spec_run_ext; [| |exact Hrun]; done.
Qed.
End Contract.

(** ** Boot: the allocator built from the memory map *)
Definition page_lo (r : Z * Z) : Z := (r.1 + (PAGE_4K - 1)) / PAGE_4K * PAGE_4K.
Definition page_hi (r : Z * Z) : Z := (r.1 + r.2) / PAGE_4K * PAGE_4K.
(** The addresses and the pages that lie in the whole pages of some region. *)
Definition boot_dom (regions : list (Z * Z)) (p : Z) : bool :=
  existsb (fun r => (page_lo r <=? p) && (p <? page_hi r)) regions.
Definition boot_free (regions : list (Z * Z)) (p : Z) : bool :=
  boot_dom regions p && (p mod PAGE_4K =? 0).

Definition region_ok (r : Z * Z) : Prop :=
  0 <= r.1 /\ 0 <= r.2 /\ r.1 + r.2 <= MAX_PHYS /\ page_lo r <= r.1 + r.2.
Fixpoint regions_ok (rs : list (Z * Z)) : Prop :=
  match rs with
  | [] => True
  | r :: rs => region_ok r /\ regions_ok rs /\
      Forall (fun r' => r.1 + r.2 <= r'.1 \/ r'.1 + r'.2 <= r.1) rs
  end.
Definition total_size (rs : list (Z * Z)) : Z := foldr (fun r t => r.2 + t) 0 rs.
(** The nodes are written to the higher half, below the top of the address space. *)
Definition STORAGE_LIMIT : Z := 2 ^ 47.

Lemma align_up_eq s :
  0 <= s -> s + 4095 < 2 ^ 64 ->
  Z.land (s + 4095) (unot 64 4095) = page_lo (s, 0).
Proof.
  intros. change 4095 with (Z.ones 12) at 2. rewrite land_unot by (unfold is_u; lia).
  rewrite Z.ldiff_ones_r, Z.shiftr_div_pow2, Z.shiftl_mul_pow2 by lia. done.
Qed.

Lemma U64_MAX_bit i : 0 <= i -> Z.testbit U64_MAX i = (i <? 64).
Proof. intros. change U64_MAX with (Z.ones 64). rewrite Z.testbit_ones_nonneg; lia || done. Qed.

Lemma fresh_bitmap_bit n k :
  0 < n -> 0 <= k -> bitmap_bit (fresh_bitmap n) k = (k <? n).
Proof.
  intros Hn Hk. unfold fresh_bitmap, bitmap_bit.
  pose proof (Z.div_mod n 64 ltac:(lia)). pose proof (Z.mod_pos_bound n 64 ltac:(lia)).
  pose proof (Z.div_mod k 64 ltac:(lia)). pose proof (Z.mod_pos_bound k 64 ltac:(lia)).
  pose proof (Z.div_pos k 64 Hk ltac:(lia)). pose proof (Z.div_pos n 64 ltac:(lia) ltac:(lia)).
  assert (forall W, match replicate (Z.to_nat W) U64_MAX !! Z.to_nat (k / 64) with
      Some w => Z.testbit w (k mod 64) | None => false end = (k / 64 <? W)) as Hrep.
  { intros W. destruct (Z.ltb_spec (k / 64) W).
    - rewrite lookup_replicate_2 by lia. rewrite U64_MAX_bit by lia. apply Z.ltb_lt. lia.
    - rewrite lookup_ge_None_2; [done|]. rewrite length_replicate. lia. }
  destruct (Z.eqb_spec (n mod 64) 0) as [Hr|Hr].
  - rewrite Hrep. rewrite <-(Z.div_unique (n + 63) 64 (n / 64) 63) by lia.
    apply eq_bool_prop_intro. rewrite !Is_true_true, !Z.ltb_lt. lia.
  - rewrite <-(Z.div_unique (n + 63) 64 (n / 64 + 1) (n mod 64 - 1)) by lia.
    rewrite Z.add_simpl_r. destruct (decide (k / 64 = n / 64)) as [E|E].
    + rewrite E, list_lookup_insert_eq by (rewrite length_replicate; lia).
      rewrite Z.shiftl_1_l. change (2 ^ (n mod 64) - 1) with (Z.pred (2 ^ (n mod 64))).
      rewrite <-Z.ones_equiv, Z.testbit_ones_nonneg by lia.
      apply eq_bool_prop_intro. rewrite !Is_true_true, !Z.ltb_lt. lia.
    + rewrite list_lookup_insert_ne, Hrep by lia.
      apply eq_bool_prop_intro. rewrite !Is_true_true, !Z.ltb_lt. lia.
Qed.

Definition region_node (virt : Z) (r : Z * Z) : BitmapNode :=
  mkNode virt (fresh_bitmap ((page_hi r - page_lo r) / PAGE_4K)) (page_lo r) (page_hi r - page_lo r).

Lemma page_bounds r :
  region_ok r ->
  r.1 <= page_lo r < r.1 + 4096 /\ r.1 + r.2 - 4096 < page_hi r <= r.1 + r.2 /\
  page_lo r <= page_hi r /\ page_lo r mod 4096 = 0 /\ page_hi r mod 4096 = 0.
Proof.
  unfold region_ok, page_lo, page_hi, PAGE_4K. intros (? & ? & ? & ?).
  pose proof (Z.div_mod (r.1 + (4096 - 1)) 4096 ltac:(lia)).
  pose proof (Z.mod_pos_bound (r.1 + (4096 - 1)) 4096 ltac:(lia)).
  pose proof (Z.div_mod (r.1 + r.2) 4096 ltac:(lia)).
  pose proof (Z.mod_pos_bound (r.1 + r.2) 4096 ltac:(lia)).
  split_and!; try lia; apply Z_mod_mult.
Qed.

Lemma fresh_words_bound n : 0 < n -> 64 * ((n + 63) / 64) <= n + 63.
Proof. intros. apply Z.mul_div_le. lia. Qed.

Lemma region_node_wf virt r :
  region_ok r -> PAGE_4K <= page_hi r - page_lo r -> node_wf (region_node virt r).
Proof.
  intros Hr Hsz. pose proof (page_bounds r Hr) as (? & ? & ? & ? & ?).
  destruct Hr as (? & ? & ? & ?). unfold PAGE_4K in *.
  assert (1 <= (page_hi r - page_lo r) / 4096) by (apply Z.div_le_lower_bound; lia).
  pose proof (Z.div_pos ((page_hi r - page_lo r) / 4096 + 63) 64 ltac:(lia) ltac:(lia)).
  constructor; cbn; unfold PAGE_4K; try lia.
  - rewrite Zminus_mod, H2, H3. done.
  - unfold fresh_bitmap. case_match; rewrite ?length_insert, length_replicate; lia.
  - unfold fresh_bitmap. case_match; [|apply Forall_insert];
      try (apply Forall_replicate; unfold is_u, U64_MAX; lia).
    set (b := ((page_hi r - page_lo r) / 4096) mod 64).
    pose proof (Z.mod_pos_bound ((page_hi r - page_lo r) / 4096) 64 ltac:(lia)) as Hb. fold b in Hb.
    rewrite Z.shiftl_1_l. pose proof (Z.pow_le_mono_r 2 b 64). unfold is_u.
    pose proof (Z.pow_pos_nonneg 2 b). lia.
  - intros k Hk. rewrite fresh_bitmap_bit by lia. apply Z.ltb_ge. lia.
Qed.

Lemma region_node_covers virt r p :
  covers (region_node virt r) p = (page_lo r <=? p) && (p <? page_hi r).
Proof.
  unfold covers. cbn. replace (page_lo r + (page_hi r - page_lo r)) with (page_hi r) by lia. done.
Qed.

Lemma region_node_free virt r p :
  region_ok r -> PAGE_4K <= page_hi r - page_lo r ->
  node_free (region_node virt r) p =
  (page_lo r <=? p) && (p <? page_hi r) && (p mod PAGE_4K =? 0).
Proof.
  intros Hr Hsz. unfold node_free. rewrite region_node_covers.
  destruct ((page_lo r <=? p) && (p <? page_hi r)) eqn:Hc; [|done].
  cbn. pose proof (region_node_wf virt r Hr Hsz) as Hwf.
  assert (0 < (page_hi r - page_lo r) / PAGE_4K) by (apply Z.div_str_pos; unfold PAGE_4K in *; lia).
  pose proof (page_index_bounds _ Hwf p ltac:(by rewrite region_node_covers)) as Hk. cbn in Hk.
  rewrite fresh_bitmap_bit by lia. rewrite (proj2 (Z.ltb_lt _ _)) by lia. apply andb_true_r.
Qed.

Lemma whole_pages_sub x b :
  b mod 4096 = 0 -> (x - b) / 4096 * 4096 = x / 4096 * 4096 - b.
Proof.
  intros Hb. apply Z_div_exact_full_2 in Hb; [|lia].
  replace (x - b) with (x + - (b / 4096) * 4096) by lia. rewrite Z.div_add by lia. lia.
Qed.

Lemma init_region_eq {E} head off r :
  region_ok r -> 0 <= off -> off + r.2 < STORAGE_LIMIT ->
  exists off', off <= off' <= off + r.2 /\
    @init_region E (head, off) r =
      Ok (if page_hi r - page_lo r <? PAGE_4K then head
          else region_node (HIGHER_HALF_BASE + off) r :: head, off').
Proof.
  intros Hr Hoff Hlim. pose proof (page_bounds r Hr) as (? & ? & ? & Hlo & Hhi).
  pose proof Hr as (? & ? & ? & ?). destruct r as [s z]. unfold MAX_PHYS, STORAGE_LIMIT in *.
  cbn [fst snd] in *. unfold init_region, PAGE_4K. rewrite (uadd_eq 64 s 4096) by lia. cbn.
  rewrite usub_eq by lia. cbn. rewrite (uadd_eq 64 s z) by lia. cbn.
  replace (s + 4096 - 1) with (s + 4095) by lia. change (4096 - 1) with 4095.
  rewrite align_up_eq by lia.
  change (page_lo (s, 0)) with (page_lo (s, z)). rewrite usub_eq by lia. cbn.
  assert ((s + z - page_lo (s, z)) / 4096 * 4096 = page_hi (s, z) - page_lo (s, z)) as Hd.
  { by rewrite whole_pages_sub. }
  rewrite Hd. destruct (Z.ltb_spec (page_hi (s, z) - page_lo (s, z)) 4096);
    [exists off; auto with lia|].
  set (pages := (page_hi (s, z) - page_lo (s, z)) / 4096).
  assert (1 <= pages) by (apply Z.div_le_lower_bound; lia).
  pose proof (Z.mul_div_le (page_hi (s, z) - page_lo (s, z)) 4096 ltac:(lia)) as Hp. fold pages in Hp.
  pose proof (fresh_words_bound pages). pose proof (Z.div_pos (pages + 63) 64).
  rewrite (uadd_eq 64 HIGHER_HALF_BASE) by (unfold HIGHER_HALF_BASE; lia). cbn.
  rewrite uadd_eq by (unfold size_of_BitmapNode; lia). cbn.
  eexists. split; [|done]. unfold size_of_BitmapNode. lia.
Qed.

(** A region that is still to come does not overlap the nodes already built. *)
Definition clear_of (r : Z * Z) (n : BitmapNode) : Prop :=
  r.1 + r.2 <= bn_base_phys n \/ bn_base_phys n + bn_region_size n <= r.1.

Lemma boot_dom_small r p :
  page_hi r - page_lo r < PAGE_4K -> region_ok r ->
  (page_lo r <=? p) && (p <? page_hi r) = false.
Proof.
  intros Hs Hr. pose proof (page_bounds r Hr) as (_ & _ & ? & Hlo & Hhi).
  apply Z_div_exact_full_2 in Hlo, Hhi; [|lia..]. unfold PAGE_4K in *.
  destruct (Z.leb_spec (page_lo r) p), (Z.ltb_spec p (page_hi r)); cbn; lia || done.
Qed.

Lemma init_regions_spec {E} rs head off :
  regions_ok rs -> alloc_wf head -> Forall (fun r => Forall (clear_of r) head) rs ->
  0 <= off -> off + total_size rs < STORAGE_LIMIT ->
  exists a off', @init_regions E (head, off) rs = Ok (a, off') /\ alloc_wf a /\
    (forall p, managed a p = managed head p || boot_dom rs p) /\
    (forall p, is_free a p = is_free head p || boot_free rs p).
Proof.
  revert head off. induction rs as [|r rs IH]; intros head off Hrs Hwf Hcl Hoff Hlim.
  { exists head, off. split_and!; [done..| |]; intros; cbn; by rewrite orb_false_r. }
  destruct Hrs as (Hr & Hrs & Hd). apply Forall_cons in Hcl as [Hclr Hcl].
  pose proof (page_bounds r Hr) as (? & ? & ? & _). pose proof Hr as (? & ? & _).
  assert (0 <= total_size rs).
  { clear -Hrs. induction rs as [|r rs IH]; cbn; [done|]. destruct Hrs as ((_ & ? & _) & ? & _).
    specialize (IH H0). unfold total_size in *. lia. }
  change (total_size (r :: rs)) with (r.2 + total_size rs) in Hlim. cbn [init_regions].
  destruct (@init_region_eq E head off r Hr Hoff) as (off1 & ? & ->);
    [lia|].
  cbn [mbind outcome_bind].
  destruct (Z.ltb_spec (page_hi r - page_lo r) PAGE_4K) as [Hs|Hs].
  - destruct (IH head off1) as (a & off' & -> & ? & Hm & Hf); [done..|lia|lia|].
    exists a, off'. split_and!; [done..| |]; intros p; [rewrite Hm|rewrite Hf];
      unfold boot_free; cbn; by rewrite boot_dom_small.
  - pose proof (region_node_wf (HIGHER_HALF_BASE + off) r Hr Hs) as Hn.
    destruct (IH (region_node (HIGHER_HALF_BASE + off) r :: head) off1)
      as (a & off' & -> & ? & Hm & Hf); [done| | |lia|lia|].
    { split_and!; [done| |done]. eapply Forall_impl; [exact Hclr|].
      unfold clear_of, regions_disjoint. cbn. lia. }
    { apply Forall_forall. intros r' Hr'. rewrite Forall_forall in Hd, Hcl. constructor; auto.
      specialize (Hd r' Hr'). unfold clear_of. cbn. lia. }
    exists a, off'. split_and!; [done..| |]; intros p; [rewrite Hm|rewrite Hf]; cbn.
    + rewrite region_node_covers, orb_assoc. f_equal. apply orb_comm.
    + rewrite region_node_free by done. unfold boot_free. cbn. rewrite andb_orb_distrib_l, orb_assoc.
      f_equal. apply orb_comm.
Qed.

Section Boot.
Context (PhysAddr_new : Z -> option Z) (Hphys : accepts_phys PhysAddr_new).

(** C1: the allocator booted from a memory map refines the set of the whole pages of
    that map.  [initialize] returns, and every sequence of 4 KiB operations that
    follows runs to its end (it neither panics nor loops) and is a run of the abstract
    set that starts as the whole pages of the regions: an allocation takes exactly one
    free page, and reports failure only when the page asked for (or every page) is
    taken; a release adds exactly the page of the address, and fails only outside the
    regions. *)
Theorem booted_allocator_refines_free_set regions os :
  regions_ok regions -> total_size regions < STORAGE_LIMIT ->
  exists a tr a', @initialize MapErr regions = Ok a /\ run_ops PhysAddr_new os a = Ok (tr, a') /\
    alloc_wf a' /\ tr.*1 = os /\
    spec_run (boot_dom regions) (boot_free regions) tr (is_free a').
Proof using Hphys.
  intros Hrs Hlim. destruct (@init_regions_spec MapErr regions [] 0) as (a & off & Hinit & Hwf & Hm & Hf);
    [done|done|by apply Forall_true|lia|lia|].
  destruct (run_ops_refine PhysAddr_new Hphys os a Hwf) as (tr & a' & Hrun & Hwf' & Htr & Hspec).
  exists a, tr, a'. unfold initialize. rewrite Hinit. split_and!; [done..|].
  eapply spec_run_ext; [| |exact Hspec]; intros p; [rewrite Hm|rewrite Hf]; done.
Qed.
End Boot.

(** A [PhysAddr::new] as the crate documents it. *)
Definition PhysAddr_52 (x : Z) : option Z := if x <? MAX_PHYS then Some x else None.
Lemma PhysAddr_52_accepts : accepts_phys PhysAddr_52.
Proof. intros x Hx. unfold PhysAddr_52. by rewrite (proj2 (Z.ltb_lt _ _)) by lia. Qed.

Definition sample_regions : list (Z * Z) := [(0x1800, 0x3000); (0x10000, 0x2800)].
Definition sample_ops : list op := [AllocAny; AllocAt 0x2000; Free 0x10123; AllocAny; Free 7].

Lemma booted_allocator_refines_free_set_witness :
  exists a tr a', @initialize MapErr sample_regions = Ok a /\
    run_ops PhysAddr_52 sample_ops a = Ok (tr, a') /\ alloc_wf a' /\ tr.*1 = sample_ops /\
    spec_run (boot_dom sample_regions) (boot_free sample_regions) tr (is_free a').
Proof.
  apply (booted_allocator_refines_free_set PhysAddr_52 PhysAddr_52_accepts sample_regions sample_ops).
  - repeat constructor; vm_compute; try congruence; try (left; congruence).
  - vm_compute. reflexivity.
Defined.

Definition sample_node : BitmapNode := region_node HIGHER_HALF_BASE (0x1800, 0x3000).

Lemma sample_node_wf : alloc_wf [sample_node].
Proof.
  split_and!; [|constructor|done].
  apply region_node_wf; [repeat split|]; vm_compute; congruence.
Qed.

(** ** 2 MiB pages at a given address *)
Section Words.
Context (ws : list Z) (wi c : nat) (Hlen : (wi + c <= length ws)%nat).
Let cleared := take wi ws ++ replicate c 0 ++ drop (wi + c) ws.

Lemma cleared_length : length cleared = length ws.
Proof using Hlen.
  unfold cleared. rewrite !length_app, length_take, length_replicate, length_drop. lia.
Qed.

Lemma cleared_lookup i :
  cleared !! i = if decide (wi <= i < wi + c)%nat then Some 0 else ws !! i.
Proof using Hlen.
  unfold cleared. destruct (decide (i < wi)%nat).
  - rewrite lookup_app_l by (rewrite length_take; lia). rewrite lookup_take_lt by lia.
    by rewrite decide_False by lia.
  - rewrite lookup_app_r by (rewrite length_take; lia). rewrite length_take, Nat.min_l by lia.
    destruct (decide (i < wi + c)%nat).
    + rewrite lookup_app_l by (rewrite length_replicate; lia).
      rewrite lookup_replicate_2, decide_True by lia. done.
    + rewrite lookup_app_r by (rewrite length_replicate; lia).
      rewrite length_replicate, lookup_drop, decide_False by lia. f_equal. lia.
Qed.

Lemma cleared_bit j :
  0 <= j -> bitmap_bit cleared j =
    if decide (64 * Z.of_nat wi <= j < 64 * Z.of_nat (wi + c)) then false else bitmap_bit ws j.
Proof using Hlen.
  intros Hj. unfold bitmap_bit. rewrite cleared_lookup.
  pose proof (Z.div_mod j 64 ltac:(lia)). pose proof (Z.mod_pos_bound j 64 ltac:(lia)).
  pose proof (Z.div_pos j 64 Hj ltac:(lia)).
  destruct (decide (64 * Z.of_nat wi <= j < _)).
  - rewrite decide_True by lia. apply Z.bits_0.
  - by rewrite decide_False by lia.
Qed.

Lemma all_free_spec :
  Forall (is_u 64) ws ->
  (all_free (take c (drop wi ws)) = true <->
   forall j, 64 * Z.of_nat wi <= j < 64 * Z.of_nat (wi + c) -> bitmap_bit ws j = true).
Proof using Hlen.
  intros Hu. unfold all_free. rewrite forallb_forall. split.
  - intros Hall j Hj. unfold bitmap_bit.
    pose proof (Z.div_mod j 64 ltac:(lia)). pose proof (Z.mod_pos_bound j 64 ltac:(lia)).
    destruct (lookup_lt_is_Some_2 ws (Z.to_nat (j / 64))) as [w Hw]; [lia|]. rewrite Hw.
    assert (w = U64_MAX) as ->; [|rewrite U64_MAX_bit; [apply Z.ltb_lt|]; lia].
    apply Z.eqb_eq, Hall, list_elem_of_In, list_elem_of_lookup. exists (Z.to_nat (j / 64) - wi)%nat.
    rewrite lookup_take_lt, lookup_drop by lia. rewrite <-Hw. f_equal. lia.
  - intros Hall w [i Hi]%list_elem_of_In%list_elem_of_lookup. apply Z.eqb_eq.
    apply lookup_take_Some in Hi as [Hi ?]. rewrite lookup_drop in Hi.
    pose proof (Forall_lookup_1 _ _ _ _ Hu Hi) as Hw. apply Z.bits_inj'. intros b Hb.
    rewrite U64_MAX_bit by done. destruct (Z.ltb_spec b 64); [|by apply (is_u_testbit 64)].
    specialize (Hall (64 * Z.of_nat (wi + i) + b) ltac:(lia)). unfold bitmap_bit in Hall.
    rewrite (Z.mul_comm 64), Z.div_add_l, Z.div_small, Z.add_0_r, Nat2Z.id, Hi in Hall by lia.
    by rewrite Z.add_comm, Z.mod_add, Z.mod_small in Hall by lia.
Qed.

Lemma all_free_false :
  Forall (is_u 64) ws -> all_free (take c (drop wi ws)) = false ->
  exists j, 64 * Z.of_nat wi <= j < 64 * Z.of_nat (wi + c) /\ bitmap_bit ws j = false.
Proof using Hlen.
  intros Hu Hf.
  destruct (decide (Forall (fun j => bitmap_bit ws j = true)
    (seqZ (64 * Z.of_nat wi) (64 * Z.of_nat c)))) as [Hall|Hno].
  - rewrite (proj2 (all_free_spec Hu)) in Hf; [done|]. intros j Hj.
    rewrite Forall_forall in Hall. apply Hall. rewrite elem_of_seqZ. lia.
  - apply not_Forall_Exists, Exists_exists in Hno as (j & Hj & Hb); [|apply _].
    rewrite elem_of_seqZ in Hj. exists j. split; [lia|]. by apply not_true_iff_false.
Qed.

Lemma cleared_is_u : Forall (is_u 64) ws -> Forall (is_u 64) cleared.
Proof.
  intros. apply Forall_app. split; [by apply Forall_take|]. apply Forall_app.
  split; [apply Forall_replicate; done|by apply Forall_drop].
Qed.
End Words.

(** The 512 pages of the 2 MiB page at [p]. *)
Definition in_2m (p q : Z) : bool := (p <=? q) && (q <? p + PAGE_2M).

Lemma page_num_of b p q :
  b mod 4096 = 0 -> p mod 4096 = 0 -> b <= p ->
  (p <= q < p + PAGE_2M) <-> (p - b) / 4096 <= (q - b) / 4096 < (p - b) / 4096 + 512.
Proof.
  unfold PAGE_2M. intros Hb Hp Hle. apply Z_div_exact_full_2 in Hb, Hp; [|lia..].
  replace (p - b) with ((p / 4096 - b / 4096) * 4096) by lia. rewrite Z.div_mul by lia.
  pose proof (Z.div_mod (q - b) 4096 ltac:(lia)).
  pose proof (Z.mod_pos_bound (q - b) 4096 ltac:(lia)). lia.
Qed.

Lemma page_of_in_2m p q :
  p mod PAGE_4K = 0 -> p <= q < p + PAGE_2M -> p <= page_of q < p + PAGE_2M.
Proof.
  unfold page_of, PAGE_4K. intros Hp Hq. apply Z_div_exact_full_2 in Hp; [|lia].
  pose proof (Z.div_mod q 4096 ltac:(lia)). pose proof (Z.mod_pos_bound q 4096 ltac:(lia)). lia.
Qed.

Lemma covers_page_of n q : node_wf n -> covers n (page_of q) = covers n q.
Proof.
  intros Hn. pose proof (wf_base_aligned n Hn) as Hb. pose proof (wf_size_aligned n Hn) as Hs.
  unfold page_of, PAGE_4K in *. apply Z_div_exact_full_2 in Hb, Hs; [|lia..].
  pose proof (Z.div_mod q 4096 ltac:(lia)). pose proof (Z.mod_pos_bound q 4096 ltac:(lia)).
  apply eq_bool_prop_intro. rewrite !Is_true_true, !covers_spec. lia.
Qed.

Section Claim2M.
Context (n : BitmapNode) (Hn : node_wf n) (p : Z).
Context (Hc : covers n p = true) (Hp : p mod PAGE_2M = 0).
Let k := (p - bn_base_phys n) / PAGE_4K.
Let wi := Z.to_nat (k / 64).
Context (Hk : k mod 512 = 0).

Lemma page_aligned_2m : p mod PAGE_4K = 0.
Proof using Hp.
  clear -Hp. unfold PAGE_2M, PAGE_4K in *. apply Z_div_exact_full_2 in Hp; [|lia].
  rewrite Hp, Z.mul_comm. replace (2 * 1024 * 1024) with (512 * 4096) by lia.
  rewrite Z.mul_assoc. apply Z_mod_mult.
Qed.

Lemma word_of_2m : k = 64 * Z.of_nat wi.
Proof using Hc Hk Hn.
  pose proof (page_index_bounds n Hn p Hc). fold k in H.
  pose proof (Z_div_exact_full_2 k 512 ltac:(lia) Hk).
  assert (k / 64 = 8 * (k / 512)) as E.
  { rewrite H0 at 1. replace (512 * (k / 512)) with (8 * (k / 512) * 64) by lia. apply Z.div_mul. lia. }
  unfold wi. rewrite E. lia.
Qed.

(** A clear bit among the 512 is a page of the 2 MiB page that is not free. *)
Lemma taken_page j :
  64 * Z.of_nat wi <= j < 64 * Z.of_nat (wi + 8) -> bitmap_bit (bn_map n) j = false ->
  exists q, p <= q < p + PAGE_2M /\ q mod PAGE_4K = 0 /\ node_free n q = false.
Proof using Hc Hk Hn Hp.
  intros Hj Hb. pose proof word_of_2m. pose proof (proj1 (covers_spec n p) Hc).
  destruct (page_index_of_nth (bn_base_phys n) j (wf_base_aligned n Hn)) as [Hq Hidx].
  exists (bn_base_phys n + j * PAGE_4K). split; [|split; [done|]].
  - rewrite (page_num_of (bn_base_phys n)); [|apply Hn|exact page_aligned_2m|lia].
    fold PAGE_4K. rewrite Hidx. fold k. lia.
  - unfold node_free. rewrite Hidx, Hb. apply andb_false_r.
Qed.

Let n' := set_map n (take wi (bn_map n) ++ replicate 8 0 ++ drop (wi + 8) (bn_map n)).
Context (Hlen : (wi + 8 <= length (bn_map n))%nat).

Lemma claimed_wf : node_wf n'.
Proof using Hc Hk Hlen Hn.
  pose proof (cleared_length _ _ _ Hlen) as Hl. pose proof word_of_2m.
  pose proof (page_index_bounds n Hn p Hc).
  destruct Hn as [? ? ? ? ? ? ? Htail]. constructor; unfold n';
    cbn [bn_map bn_base_phys bn_region_size set_map]; try done.
  - by rewrite Hl.
  - by apply cleared_is_u.
  - intros j Hj. rewrite cleared_bit by lia. rewrite Htail by done. by destruct (decide _).
Qed.

Lemma claimed_free q : node_free n' q = node_free n q && negb (in_2m p q).
Proof using Hc Hk Hlen Hn Hp.
  unfold node_free. change (covers n' q) with (covers n q).
  destruct (covers n q) eqn:Hq; [|done].
  cbn [andb]. unfold n'. cbn [bn_map bn_base_phys set_map].
  pose proof (page_index_bounds n Hn q Hq). pose proof (proj1 (covers_spec n p) Hc).
  rewrite cleared_bit by lia.
  pose proof (page_num_of (bn_base_phys n) p q (wf_base_aligned n Hn) page_aligned_2m ltac:(lia)) as Hin.
  fold PAGE_4K in Hin. fold k in Hin. pose proof word_of_2m.
  unfold in_2m. destruct (Z.eqb_spec (q mod PAGE_4K) 0); [|done]. cbn [andb].
  destruct (decide _).
  - destruct (Z.leb_spec p q), (Z.ltb_spec q (p + PAGE_2M)); [symmetry; apply andb_false_r|lia..].
  - destruct (Z.leb_spec p q), (Z.ltb_spec q (p + PAGE_2M)); [lia|symmetry; apply andb_true_r..].
Qed.

Lemma claimed_was_free q :
  all_free (take 8 (drop wi (bn_map n))) = true ->
  p <= q < p + PAGE_2M -> q mod PAGE_4K = 0 -> node_free n q = true.
Proof using Hc Hk Hlen Hn Hp.
  rewrite (all_free_spec _ _ _ Hlen (wf_words n Hn)). intros Hall Hq Hal.
  pose proof (proj1 (covers_spec n p) Hc). pose proof word_of_2m.
  rewrite (page_num_of (bn_base_phys n)) in Hq; [|apply Hn|exact page_aligned_2m|lia].
  fold PAGE_4K in Hq. fold k in Hq. pose proof (Hall ((q - bn_base_phys n) / PAGE_4K) ltac:(lia)) as Hb.
  unfold node_free. rewrite Hb, Hal, !andb_true_r. rewrite covers_spec.
  destruct (decide (bn_region_size n / PAGE_4K <= (q - bn_base_phys n) / PAGE_4K)) as [Ht|Ht];
    [by rewrite (wf_tail n Hn) in Hb|].
  pose proof (wf_size_aligned n Hn) as Hs. unfold PAGE_4K in *. apply Z_div_exact_full_2 in Hs; [|lia].
  pose proof (Z.div_mod (q - bn_base_phys n) 4096 ltac:(lia)).
  pose proof (Z.mod_pos_bound (q - bn_base_phys n) 4096 ltac:(lia)).
  pose proof (page_index_bounds n Hn p Hc) as Hb0. unfold PAGE_4K in Hb0. fold k in Hb0. lia.
Qed.
End Claim2M.

Lemma claim_2m_eq {E} p n :
  node_wf n -> covers n p = true -> p mod PAGE_2M = 0 ->
  (exists m, @claim_2m E p n = Ok (Some p, set_map n m) /\ node_wf (set_map n m) /\
     (forall q, p <= q < p + PAGE_2M -> q mod PAGE_4K = 0 -> node_free n q = true) /\
     (forall q, node_free (set_map n m) q = node_free n q && negb (in_2m p q)))
  \/ (@claim_2m E p n = Ok (None, n) /\
     (bn_base_phys n mod PAGE_2M = 0 ->
      exists q, p <= q < p + PAGE_2M /\ q mod PAGE_4K = 0 /\ node_free n q = false)).
Proof.
  intros Hn Hc Hp. pose proof (proj1 (covers_spec n p) Hc).
  unfold claim_2m. rewrite usub_eq by lia. cbn [mbind outcome_bind].
  change (step_of Size2MiB) with 512. change (Z.to_nat (512 / 64)) with 8%nat.
  destruct (Z.eqb_spec (((p - bn_base_phys n) / PAGE_4K) mod 512) 0) as [Hk|Hk]; cbn [negb].
  2:{ right. split; [done|]. intros Hb. destruct Hk. unfold PAGE_2M, PAGE_4K in *.
      apply Z_div_exact_full_2 in Hb, Hp; [|lia..]. rewrite Hb, Hp.
      rewrite <-Z.mul_sub_distr_l. change (2 * 1024 * 1024) with (512 * 4096).
      rewrite <-Z.mul_assoc, (Z.mul_comm 4096), Z.mul_assoc, Z.div_mul, Z.mul_comm by lia.
      apply Z_mod_mult. }
  case (Nat.ltb_spec (length (bn_map n)) (Z.to_nat ((p - bn_base_phys n) / PAGE_4K / 64) + 8)) as [Hlen|Hlen].
  { right. split; [done|]. intros _.
    eapply (taken_page n Hn p Hc Hp Hk (64 * Z.of_nat (Z.to_nat ((p - bn_base_phys n) / PAGE_4K / 64)) + 511));
      [lia|]. unfold bitmap_bit. rewrite lookup_ge_None_2; [done|].
    rewrite <-(Z.div_unique _ 64 (Z.of_nat (Z.to_nat ((p - bn_base_phys n) / PAGE_4K / 64)) + 7) 63); lia. }
  destruct (all_free _) eqn:Hall; cbn [negb].
  - left. eexists. split; [done|]. split_and!; [by apply (claimed_wf n Hn p)|..]; intros q.
    + by apply claimed_was_free.
    + by apply claimed_free.
  - right. split; [done|]. intros _.
    destruct (all_free_false _ _ _ Hlen (wf_words n Hn) Hall) as (j & Hj & Hb).
    eapply taken_page; eauto.
Qed.

(** A 2 MiB allocation at a given address returns.  When it succeeds, the address
    is 2 MiB aligned, its 512 pages were all free, and exactly these pages are taken;
    when it fails nothing changes, and an aligned page of a 2 MiB-aligned region had a
    page that was taken (or lies beyond the region). *)
Theorem alloc_2m_at_spec PhysAddr_new a p :
  alloc_wf a ->
  exists r a', @alloc PhysAddr_new MapErr a Size2MiB (Some p) = Ok (r, a') /\ alloc_wf a' /\
    match r with
    | Some p' =>
        p' = p /\ p mod PAGE_2M = 0 /\
        (forall q, p <= q < p + PAGE_2M -> q mod PAGE_4K = 0 -> is_free a q = true) /\
        (forall q, is_free a' q = is_free a q && negb (in_2m p q))
    | None =>
        a' = a /\
        (p mod PAGE_2M = 0 -> forall n, n ∈ a -> covers n p = true ->
         bn_base_phys n mod PAGE_2M = 0 ->
         exists q, p <= q < p + PAGE_2M /\ q mod PAGE_4K = 0 /\ node_free n q = false)
    end.
Proof.
  intros Hwf. unfold alloc. destruct (Z.eqb_spec (p mod PAGE_2M) 0) as [Hp|Hp]; cbn [negb];
    [|by exists None, a].
  destruct (managed a p) eqn:Hm.
  2:{ rewrite at_node_unmanaged by done. exists None, a. split_and!; [done..|].
      intros _ n Hn Hc. unfold managed in Hm. exfalso. apply not_true_iff_false in Hm.
      apply Hm, existsb_exists. exists n. by rewrite <-list_elem_of_In. }
  destruct (managed_split _ _ Hm) as (a1 & n & a2 & -> & Hc & Hm1).
  destruct (alloc_wf_at _ _ _ Hwf) as [Hn Hd].
  destruct (@claim_2m_eq MapErr p n Hn Hc Hp) as [(m & Hcl & Hwf' & Hfree & Hrem)|[Hcl Hno]];
    erewrite at_node_managed by done; do 2 eexists; (split; [done|]).
  - pose proof (alloc_wf_replace a1 n (set_map n m) a2 Hwf Hwf' eq_refl eq_refl) as Hwf2.
    split; [done|]. split; [done|]. split; [done|]. split; intros q.
    + intros Hq Hal. pose proof (Hfree q Hq Hal) as Hf. rewrite is_free_at by done.
      destruct (covers n q) eqn:Hcq; [done|]. by rewrite node_free_covers in Hf.
    + rewrite !is_free_at by done. change (covers (set_map n m) q) with (covers n q).
      destruct (covers n q) eqn:Hcq; [done|]. unfold in_2m.
      destruct (Z.leb_spec p q), (Z.ltb_spec q (p + PAGE_2M)); cbn; rewrite ?andb_true_r; try done.
      assert (node_free n (page_of q) = true) as Hf.
      { apply Hfree; [|apply page_of_aligned]. apply page_of_in_2m; [|lia]. by apply page_aligned_2m. }
      apply not_true_iff_false in Hcq. destruct Hcq. rewrite <-covers_page_of by done.
      destruct (covers n (page_of q)) eqn:E; [done|]. by rewrite node_free_covers in Hf.
  - split; [done|]. split; [done|]. intros _ n' Hn' Hc' Hb.
    assert (n' ∈ a1 ++ a2 \/ n' = n) as [Hin| ->] by set_solver; [|auto].
    rewrite Forall_forall in Hd. pose proof (covers_disjoint _ _ _ (Hd n' Hin) Hc). congruence.
Qed.

Definition big_node : BitmapNode :=
  mkNode HIGHER_HALF_BASE (replicate 16 U64_MAX) 0x200000 0x400000.

Lemma big_node_wf : alloc_wf [big_node].
Proof.
  split_and!; [|constructor|done].
  change big_node with (region_node HIGHER_HALF_BASE (0x200000, 0x400000)).
  apply region_node_wf; [repeat split|]; vm_compute; congruence.
Qed.

Lemma alloc_2m_at_spec_witness :
  alloc_wf [big_node] /\
  @alloc PhysAddr_52 MapErr [big_node] Size2MiB (Some 0x400000) =
    Ok (Some 0x400000, [set_map big_node (replicate 8 U64_MAX ++ replicate 8 0)]) /\
  exists r a', @alloc PhysAddr_52 MapErr [big_node] Size2MiB (Some 0x400000) = Ok (r, a') /\
    alloc_wf a'.
Proof.
  split; [apply big_node_wf|]. split; [vm_compute; reflexivity|].
  destruct (alloc_2m_at_spec PhysAddr_52 [big_node] 0x400000 big_node_wf) as (r & a' & H1 & H2 & _).
  exists r, a'. split; assumption.
Defined.

(** ** 2 MiB pages: search and release *)
Lemma scan_words_2m_panic {E} pages words wi :
  Exists (fun w => w <> 0) words ->
  @scan_words E 512 pages wi words = Panic.
Proof.
  intros Hex. revert wi. induction Hex as [w ws Hw|w ws _ IH]; intros wi; cbn [scan_words].
  - destruct (Z.eqb_spec w 0); done.
  - destruct (Z.eqb_spec w 0); [|done]. cbn. by rewrite IH.
Qed.

Lemma free_word_nonzero n p : node_free n p = true -> Exists (fun w => w <> 0) (bn_map n).
Proof.
  unfold node_free, bitmap_bit. intros [_ Hb]%andb_true_iff.
  destruct (bn_map n !! _) as [w|] eqn:Hw; [|done].
  apply Exists_exists. exists w. split; [by eapply list_elem_of_lookup_2|].
  intros ->. by rewrite Z.bits_0 in Hb.
Qed.

Lemma scan_words_2m_none {E} pages words wi :
  Forall (fun w => w = 0) words -> @scan_words E 512 pages wi words = Ok (None, words).
Proof.
  intros Hz. revert wi. induction Hz as [|w ws -> _ IH]; intros wi; cbn [scan_words]; [done|].
  change (0 =? 0) with true. cbn. by rewrite IH.
Qed.

Lemma at_node_panic {E A} p f (none : A) a1 n a2 :
  alloc_wf (a1 ++ n :: a2) -> managed a1 p = false -> covers n p = true -> f n = Panic ->
  @at_node E A p f none (a1 ++ n :: a2) = Panic.
Proof.
  intros Hwf Hm Hc Hf. induction a1 as [|m a1 IH]; cbn in *.
  - rewrite in_node_eq, Hc by naive_solver. cbn. by rewrite Hf.
  - apply orb_false_iff in Hm as [Hcm ?]. rewrite in_node_eq, Hcm by naive_solver.
    cbn. rewrite IH by naive_solver. done.
Qed.

Lemma release_2m_panic p n :
  node_wf n -> covers n p = true -> release p Size2MiB n = Panic.
Proof.
  intros Hn Hc. pose proof (proj1 (covers_spec n p) Hc).
  pose proof (page_index_bounds n Hn p Hc) as Hk.
  unfold release. rewrite usub_eq by lia. cbn [mbind outcome_bind].
  change (step_of Size2MiB) with 512. change (512 - 1) with (Z.ones 9).
  pose proof (page_in_bitmap n Hn _ (proj2 Hk)) as Hb.
  pose proof (wf_end n Hn). pose proof (wf_base n Hn). unfold MAX_PHYS in *.
  assert (bn_region_size n / PAGE_4K <= 2 ^ 52).
  { unfold PAGE_4K. apply Z.div_le_upper_bound; lia. }
  set (k := (p - bn_base_phys n) / PAGE_4K) in *.
  rewrite land_unot by (unfold is_u; lia). rewrite Z.ldiff_ones_r, Z.shiftr_div_pow2, Z.shiftl_mul_pow2 by lia.
  pose proof (Z.mul_div_le k (2 ^ 9) ltac:(lia)). pose proof (Z.div_pos k (2 ^ 9) ltac:(lia) ltac:(lia)).
  destruct (lookup_lt_is_Some_2 (bn_map n) (Z.to_nat (k / 2 ^ 9 * 2 ^ 9 / 64))) as [w ->]; [|done].
  apply Nat2Z.inj_lt. rewrite Z2Nat.id by (apply Z.div_pos; lia). apply Z.div_lt_upper_bound; lia.
Qed.

(** Outside the path that names an address, 2 MiB pages do not work in a build
    with overflow checks.  As soon as any page is free, a search for a 2 MiB page
    panics ([64 - step] with a step of 512), and releasing a 2 MiB page of a managed
    region always panics ([1u64 << 512]). *)
Theorem huge_search_and_release_panic PhysAddr_new a p :
  alloc_wf a ->
  (is_free a p = true -> @alloc PhysAddr_new MapErr a Size2MiB None = Panic) /\
  (managed a p = true -> dealloc a p Size2MiB = Panic).
Proof.
  intros Hwf. split.
  - cbn [alloc]. change (step_of Size2MiB) with 512.
    induction a as [|n a IH]; [done|]. destruct Hwf as (Hn & _ & Hwf). cbn [scan_nodes].
    destruct (decide (Forall (fun w => w = 0) (bn_map n))) as [Hz|Hz].
    + rewrite scan_words_2m_none by done. cbn [mbind outcome_bind].
      rewrite is_free_cons. intros [Hf|Hf]%orb_true_iff.
      * apply free_word_nonzero, Exists_exists in Hf as (w & Hw & ?).
        rewrite Forall_forall in Hz. by destruct (H (Hz w Hw)).
      * by rewrite IH.
    + intros _. apply not_Forall_Exists in Hz; [|apply _].
      by rewrite scan_words_2m_panic.
  - intros Hm. destruct (managed_split _ _ Hm) as (a1 & n & a2 & -> & Hc & Hm1).
    unfold dealloc. rewrite (at_node_panic p _ _ a1 n a2); [done..|].
    apply release_2m_panic; [by apply (alloc_wf_at a1 n a2)|done].
Qed.

Lemma huge_search_and_release_panic_witness :
  @alloc PhysAddr_52 MapErr [sample_node] Size2MiB None = Panic /\
  dealloc [sample_node] 0x2000 Size2MiB = Panic.
Proof.
  destruct (huge_search_and_release_panic PhysAddr_52 [sample_node] 0x2000 sample_node_wf)
    as [H1 H2].
  split; [apply H1|apply H2]; vm_compute; reflexivity.
Defined.

(** ** All six operations together

    Allocations and releases of both page sizes on one allocator.  A panic stops
    the kernel, so a run ends at the first operation that panics. *)
Inductive mem_op := Ask (size : PageSize) (specific_addr : option Z) | Give (size : PageSize) (p : Z).

Definition mem_step (PhysAddr_new : Z -> option Z) (o : mem_op) (a : PageAllocator) :
    outcome MapErr (answer * PageAllocator) :=
  match o with
  | Ask size at_addr => '(r, a') ← alloc PhysAddr_new a size at_addr;
                        Ok (match r with Some p => Got p | None => Nothing end, a')
  | Give size p => match dealloc a p size with
                   | Ok a' => Ok (Done, a')
                   | Err _ => Ok (Failed, a)
                   | Panic => Panic
                   end
  end.

Fixpoint mem_run (PhysAddr_new : Z -> option Z) (os : list mem_op) (a : PageAllocator) :
    list (mem_op * answer) * PageAllocator :=
  match os with
  | [] => ([], a)
  | o :: os =>
      match mem_step PhysAddr_new o a with
      | Ok (r, a1) => let '(tr, a2) := mem_run PhysAddr_new os a1 in ((o, r) :: tr, a2)
      | _ => ([], a)
      end
  end.

(** The 4 KiB pages a grant of the given size at [p] hands out. *)
Definition pages_of (size : PageSize) (p : Z) : list Z :=
  (fun k => p + k * PAGE_4K) <$> seqZ 0 (step_of size).

(** The 4 KiB pages handed out and not yet returned. *)
Fixpoint live (tr : list (mem_op * answer)) (pages : list Z) : list Z :=
  match tr with
  | [] => pages
  | (Ask size _, Got p) :: tr => live tr (pages_of size p ++ pages)
  | (Give Size4KiB p, Done) :: tr => live tr (filter (fun q => q <> page_of p) pages)
  | (Give Size2MiB p, Done) :: tr => live tr (filter (fun q => q ∉ pages_of Size2MiB p) pages)
  | _ :: tr => live tr pages
  end.

(** What one operation does to the free set. *)
Definition mem_effect (o : mem_op) (r : answer) (free free' : Z -> bool) : Prop :=
  match o, r with
  | Ask size _, Got p =>
      (forall q, q ∈ pages_of size p -> free q = true /\ free' q = false) /\
      (forall q, free q = false -> free' q = false)
  | Ask _ _, Nothing | Give _ _, Failed => forall q, free' q = free q
  | Give Size4KiB p, Done => forall q, q <> page_of p -> free' q = free q
  | _, _ => False
  end.

Lemma pages_of_4k p : pages_of Size4KiB p = [p].
Proof. unfold pages_of. change (seqZ 0 (step_of Size4KiB)) with [0]. cbn [fmap list_fmap]. by rewrite Z.mul_0_l, Z.add_0_r. Qed.

Lemma elem_of_pages_2m p q :
  p mod PAGE_4K = 0 -> q ∈ pages_of Size2MiB p -> p <= q < p + PAGE_2M /\ q mod PAGE_4K = 0.
Proof.
  intros Hp (k & -> & Hk)%list_elem_of_fmap. change (step_of Size2MiB) with 512 in Hk.
  apply elem_of_seqZ in Hk. unfold PAGE_4K, PAGE_2M in *. split; [lia|]. by rewrite Z_mod_plus_full.
Qed.

Lemma pages_of_NoDup size p : NoDup (pages_of size p).
Proof.
  apply NoDup_fmap_2; [|apply NoDup_seqZ]. intros j k. unfold PAGE_4K. lia.
Qed.

(** An unspecific 2 MiB request finds nothing or panics. *)
Lemma search_2m PhysAddr_new a :
  @alloc PhysAddr_new MapErr a Size2MiB None = Panic \/
  @alloc PhysAddr_new MapErr a Size2MiB None = Ok (None, a).
Proof.
  cbn [alloc]. change (step_of Size2MiB) with 512.
  induction a as [|n a IH]; [by right|]. cbn [scan_nodes].
  destruct (decide (Forall (fun w => w = 0) (bn_map n))) as [Hz|Hz].
  - rewrite scan_words_2m_none by done. cbn [mbind outcome_bind].
    by destruct IH as [->| ->]; [left|right].
  - left. apply not_Forall_Exists in Hz; [|apply _]. by rewrite scan_words_2m_panic.
Qed.

Lemma release_2m a p : alloc_wf a ->
  dealloc a p Size2MiB = Panic \/ dealloc a p Size2MiB = Err NotMapped.
Proof.
  intros Hwf. unfold dealloc. destruct (managed a p) eqn:Hm; [left|right; by rewrite at_node_unmanaged].
  destruct (managed_split _ _ Hm) as (a1 & n & a2 & -> & Hc & Hm1).
  rewrite (at_node_panic p _ _ a1 n a2); [done..|].
  apply release_2m_panic; [by apply (alloc_wf_at a1 n a2)|done].
Qed.

(** The operations that may panic. *)
Definition may_panic (o : mem_op) : Prop :=
  match o with Ask Size2MiB None | Give Size2MiB _ => True | _ => False end.

Lemma mem_effect_live o r free free' pages :
  mem_effect o r free free' -> NoDup pages -> (forall p, p ∈ pages -> free p = false) ->
  NoDup (live [(o, r)] pages) /\ forall p, p ∈ live [(o, r)] pages -> free' p = false.
Proof.
  intros He Hnd Hl. destruct o as [size at_addr|[] p], r; cbn in *; try done.
  - destruct He as [Hg Hk]. split; [|set_solver]. apply NoDup_app. split_and!; [apply pages_of_NoDup| |done].
    intros q [Hq _]%Hg Hq'%Hl. congruence.
  - split; [done|]. intros q Hq. by rewrite He, Hl.
  - split; [by apply NoDup_filter|]. intros q [Hne Hq]%list_elem_of_filter. by rewrite He, Hl.
  - split; [done|]. intros q Hq. by rewrite He, Hl.
  - split; [done|]. intros q Hq. by rewrite He, Hl.
Qed.

Lemma live_cons x tr pages : live (x :: tr) pages = live tr (live [x] pages).
Proof. by destruct x as [[[] ?|[] ?] []]. Qed.

Section Mixed.
Context (PhysAddr_new : Z -> option Z) (Hphys : accepts_phys PhysAddr_new).

(** The 4 KiB operations, through the contract of their own. *)
Lemma mem_step_4k o o' a :
  alloc_wf a ->
  match o with
  | Ask Size4KiB None => o' = AllocAny
  | Ask Size4KiB (Some p) => o' = AllocAt p
  | Give Size4KiB p => o' = Free p
  | _ => False
  end ->
  exists r a', mem_step PhysAddr_new o a = Ok (r, a') /\ alloc_wf a' /\
    mem_effect o r (is_free a) (is_free a').
Proof using Hphys.
  intros Hwf Ho.
  assert (mem_step PhysAddr_new o a = run_op PhysAddr_new o' a) as -> by
    (by destruct o as [[] []|[] ?]; subst).
  destruct (run_op_refines PhysAddr_new Hphys o' a Hwf) as (r & a' & -> & Hwf' & _ & Hs).
  exists r, a'. split; [done|]. split; [done|].
  destruct o as [[] []|[] ?]; try done; subst o'; destruct r; try done; cbn [spec_step mem_effect] in *;
    rewrite ?pages_of_4k; destruct_and?; subst; try done.
  all: try (intros q; match goal with H : forall q, _ |- _ => by rewrite H, ?decide_False end).
  all: try (split; intros q; [intros ->%list_elem_of_singleton; split; [done|]|intros Hq];
    match goal with H : forall q, ?f q = _ |- ?f _ = _ => rewrite H end; by case_decide).
  intros q Hq. match goal with H : forall q, _ |- _ => by rewrite H, decide_False end.
Qed.

Lemma mem_step_ok o a :
  alloc_wf a ->
  (may_panic o /\ mem_step PhysAddr_new o a = Panic) \/
  exists r a', mem_step PhysAddr_new o a = Ok (r, a') /\ alloc_wf a' /\
    mem_effect o r (is_free a) (is_free a').
Proof using Hphys.
  intros Hwf. destruct o as [[] [p|]|[] p].
  1: by right; apply (mem_step_4k _ (AllocAt p)).
  1: by right; apply (mem_step_4k _ AllocAny).
  3: by right; apply (mem_step_4k _ (Free p)).
  - right. unfold mem_step. destruct (alloc_2m_at_spec PhysAddr_new a p Hwf) as (r & a' & -> & Hwf' & Hr).
    cbn [mbind outcome_bind]. do 2 eexists. split; [done|]. split; [done|].
    destruct r as [p'|]; [|by destruct Hr as [-> _]]. destruct Hr as (-> & Hp & Hfree & Hrem).
    split; intros q; [|intros Hq; by rewrite Hrem, Hq].
    intros [Hq Hal]%elem_of_pages_2m; [|by apply page_aligned_2m]. split; [by apply Hfree|].
    rewrite Hrem, andb_false_iff. right. unfold in_2m. rewrite negb_false_iff, andb_true_iff. lia.
  - unfold mem_step. destruct (search_2m PhysAddr_new a) as [->| ->]; [by left|]. right. by exists Nothing, a.
  - unfold mem_step. destruct (release_2m a p Hwf) as [->| ->]; [by left|]. right. by exists Failed, a.
Qed.

Lemma mem_run_live os a pages :
  alloc_wf a -> NoDup pages -> (forall p, p ∈ pages -> is_free a p = false) ->
  let '(tr, a') := mem_run PhysAddr_new os a in
  alloc_wf a' /\ NoDup (live tr pages) /\ (forall p, p ∈ live tr pages -> is_free a' p = false) /\
  (tr.*1 = os \/ exists o rest, os = tr.*1 ++ o :: rest /\ may_panic o /\ mem_step PhysAddr_new o a' = Panic).
Proof using Hphys.
  revert a pages. induction os as [|o os IH]; intros a pages Hwf Hnd Hl; cbn [mem_run].
  { split_and!; [done..|by left]. }
  destruct (mem_step_ok o a Hwf) as [[Hm Hp]|(r & a1 & Hs & Hwf1 & He)].
  { rewrite Hp. split_and!; [done..|]. right. by exists o, os. }
  rewrite Hs. destruct (mem_effect_live _ _ _ _ pages He Hnd Hl) as [Hnd1 Hl1].
  specialize (IH a1 _ Hwf1 Hnd1 Hl1). destruct (mem_run PhysAddr_new os a1) as [tr a2].
  rewrite live_cons. destruct IH as (? & ? & ? & Hend). split_and!; [done..|]. cbn.
  destruct Hend as [->|(o1 & rest & -> & ? & ?)]; [by left|right]. by exists o1, rest.
Qed.

(** C6: no page is handed out twice without being freed in between.  Along every
    sequence of 4 KiB and 2 MiB allocations, at an address or not, and releases of either
    size, the list of the 4 KiB pages handed out and not returned (512 of them for a 2 MiB
    grant) has no duplicates, and none of them is in the allocator's free set at the end.
    The run covers the whole sequence, or ends where an unspecific 2 MiB request or a
    2 MiB release panics. *)
Theorem no_double_allocation os a :
  alloc_wf a ->
  let '(tr, a') := mem_run PhysAddr_new os a in
  NoDup (live tr []) /\ (forall p, p ∈ live tr [] -> is_free a' p = false) /\
  (tr.*1 = os \/ exists o rest, os = tr.*1 ++ o :: rest /\ may_panic o /\ mem_step PhysAddr_new o a' = Panic).
Proof using Hphys.
  intros Hwf. pose proof (mem_run_live os a [] Hwf) as H.
  destruct (mem_run PhysAddr_new os a) as [tr a']. apply H; [constructor|]. set_solver.
Qed.
End Mixed.

(** A 4 KiB page, the 2 MiB page at 4 MiB, a page inside it (refused), the first page
    returned and handed out again, and a 2 MiB release. *)
Definition mixed_ops : list mem_op :=
  [Ask Size4KiB None; Ask Size2MiB (Some 0x400000); Ask Size4KiB (Some 0x403000);
   Give Size4KiB 0x200fff; Ask Size4KiB None; Give Size2MiB 0x400000].

Lemma no_double_allocation_witness :
  let '(tr, a') := mem_run PhysAddr_52 mixed_ops [big_node] in
  tr.*2 = [Got 0x200000; Got 0x400000; Nothing; Done; Got 0x200000] /\ length (live tr []) = 513%nat /\
  NoDup (live tr []).
Proof.
  pose proof (no_double_allocation PhysAddr_52 PhysAddr_52_accepts mixed_ops [big_node] big_node_wf) as H.
  destruct (mem_run PhysAddr_52 mixed_ops [big_node]) as [tr a'] eqn:Hrun.
  vm_compute in Hrun. injection Hrun as <- <-.
  split; [reflexivity|]. split; [vm_compute; reflexivity|]. exact (proj1 H).
Defined.

(** [get_stats] leaves the last page of every word out of its count of free pages:
    right after boot, with all [n] pages of a region of up to 64 pages free, it
    reports [n - 1] of [n]. *)
Theorem get_stats_undercounts (n : Z) :
  1 <= n <= 64 ->
  (a ← initialize [(0, n * PAGE_4K)]; get_stats (Some a)) = Ok (n - 1, n).
Proof.
  intros Hn. cut (Forall (fun n => (a ← initialize [(0, n * PAGE_4K)]; get_stats (Some a))
                           = Ok (n - 1, n)) (seqZ 1 64)).
  { intros H. rewrite Forall_forall in H. apply H, elem_of_seqZ. lia. }
  apply (bool_decide_unpack _). vm_compute. exact I.
Qed.

Lemma get_stats_undercounts_witness :
  (a ← initialize [(0, 64 * PAGE_4K)]; get_stats (Some a)) = Ok (63, 64).
Proof. apply (get_stats_undercounts 64). lia. Defined.
