(* ===== verification/Paging.v ===== *)
(** * Virtual memory (zenos-kernel/src/memory/mod.rs)

    Mapping and unmapping pages: the physical memory with the page tables in it, the frames
    the page allocator hands out for them, and the entry points the rest of the kernel
    calls.  The mapper and the entry format are those of the x86_64 crate. *)
From S2P Require Import Prelude PageAlloc.

(** ** Data *)

(** Physical memory: the 512 words of each frame. *)
Abbreviation Ram := (gmap Z (list Z)).

Inductive PageType :=
| Mmio | Identity | Recursive | Huge | Arbitrary | ArbitraryPhys (phys : Z) | MmioRecursive.

Definition KERNEL_MAPPING_BASE : Z := 0xFFFFFF0000000000.
Definition KERNEL_BASE : Z := KERNEL_MAPPING_BASE.
Definition SLAB_BASE_ADDR : Z := KERNEL_MAPPING_BASE + 0x1000000000.
Definition LARGE_ALLOC_BASE_ADDR : Z := KERNEL_MAPPING_BASE + 0x4000000000.
Definition KERNEL_CR3_SCRATCH : Z := KERNEL_MAPPING_BASE + 0x7000000000.

(** ** The x86_64 crate *)

(** [PageTableFlags]: the bits of an entry, as the processor defines them. *)
Definition PRESENT : Z := 0x1.
Definition WRITABLE : Z := 0x2.
Definition USER_ACCESSIBLE : Z := 0x4.
Definition NO_CACHE : Z := 0x10.
Definition HUGE_PAGE : Z := 0x80.
Definition GLOBAL : Z := 0x100.
Definition BIT_9 : Z := 0x200.
Definition NO_EXECUTE : Z := 2 ^ 63.
Definition contains (flags f : Z) : bool := Z.land flags f =? f.

Inductive MapToError := FrameAllocationFailed | ParentEntryHugePage | PageAlreadyMapped (frame : Z).
Inductive UnmapError := UnmapParentEntryHugePage | PageNotMapped | InvalidFrameAddress (addr : Z).

(** Addresses, entries and the offset page table; [None] is a panic. *)
Class Paging := {
  VirtAddr_new : Z -> option Z;
  PhysAddr_new : Z -> option Z;
  table_index : nat -> Z -> nat;             (* [p1_index] up to [p4_index] *)
  page_containing : Z -> Z;                  (* [Page::<Size4KiB>::containing_address] *)
  frame_containing : Z -> Z;                 (* [PhysFrame::<Size4KiB>::containing_address] *)
  page_2m_containing : Z -> Z;
  frame_2m_containing : Z -> Z;
  pte_addr : Z -> Z;
  pte_flags : Z -> Z;
  pte_is_unused : Z -> bool;
  pte_make : Z -> Z -> option Z;             (* [set_addr] and [set_frame] *)
  pte_set_flags : Z -> Z -> Z;
  (** The frame allocator is an argument; the first [Z] is the level 4 table. *)
  translate_addr : Ram -> Z -> Z -> option Z;
  map_to_with_table_flags {A} (allocate : A -> outcome MapToError (option Z * A))
    (root page frame flags table_flags : Z) : st (Ram * A) MapToError unit;
  map_to_2m {A} (allocate : A -> outcome MapToError (option Z * A))
    (root page frame flags : Z) : st (Ram * A) MapToError unit;
  unmap (root page : Z) : st Ram UnmapError Z;
}.

(** ** State *)
Record Mem := mkMem {
  ALLOCATOR : option PageAllocator;
  ram : Ram;
  cr3_reg : Z;
  PAGE_REFCOUNTS : gmap Z Z;
  SCRATCH_COUNTER : Z;
  DMA_BASE : Z;
}.

Definition with_alloc (s : Mem) (a : option PageAllocator) : Mem :=
  mkMem a (ram s) (cr3_reg s) (PAGE_REFCOUNTS s) (SCRATCH_COUNTER s) (DMA_BASE s).
Definition with_ram (s : Mem) (m : Ram) : Mem :=
  mkMem (ALLOCATOR s) m (cr3_reg s) (PAGE_REFCOUNTS s) (SCRATCH_COUNTER s) (DMA_BASE s).
Definition with_refcounts (s : Mem) (c : gmap Z Z) : Mem :=
  mkMem (ALLOCATOR s) (ram s) (cr3_reg s) c (SCRATCH_COUNTER s) (DMA_BASE s).
Definition with_scratch (s : Mem) (n : Z) : Mem :=
  mkMem (ALLOCATOR s) (ram s) (cr3_reg s) (PAGE_REFCOUNTS s) n (DMA_BASE s).
Definition with_cr3 (s : Mem) (c : Z) : Mem :=
  mkMem (ALLOCATOR s) (ram s) c (PAGE_REFCOUNTS s) (SCRATCH_COUNTER s) (DMA_BASE s).
Definition with_dma (s : Mem) (n : Z) : Mem :=
  mkMem (ALLOCATOR s) (ram s) (cr3_reg s) (PAGE_REFCOUNTS s) (SCRATCH_COUNTER s) n.

(** A call whose result is inspected; a panic is not caught. *)
Definition attempt {S E F A} (m : st S E A) : st S F (E + A) := fun s =>
  match m s with
  | (Ok a, s) => (Ok (inr a), s)
  | (Err e, s) => (Ok (inl e), s)
  | (Panic, s) => (Panic, s)
  end.

Section Ops.
Context `{Paging}.

(** *** Access to page tables through the mapping of physical memory *)
Definition words_at {E} (phys : Z) : st Mem E (list Z) := fun s =>
  (virt ← uadd 64 HIGHER_HALF_BASE phys;
   _ ← unwrap (VirtAddr_new virt);
   unwrap (ram s !! phys), s).
Definition entry_at {E} (phys : Z) (i : nat) : st Mem E Z :=
  ws ← words_at phys; st_lift (unwrap (ws !! i)).
Definition put_entry {E} (phys : Z) (i : nat) (e : Z) : st Mem E unit :=
  ws ← words_at phys;
  _ ← st_lift (unwrap (ws !! i));
  s ← st_get;
  st_put (with_ram s (<[phys := <[i := e]> ws]> (ram s))).
Definition set_addr {E} (phys : Z) (i : nat) (addr flags : Z) : st Mem E unit :=
  e ← st_lift (unwrap (pte_make addr flags)); put_entry phys i e.

Definition active_level_4_table {E} : st Mem E Z := s ← st_get; mret (cr3_reg s).

(** *** Start *)
Definition memory_init {E} (memory_regions : list (Z * Z)) : st Mem E unit :=
  root ← active_level_4_table;
  _ ← set_addr root 511 root (Z.lor PRESENT WRITABLE);
  a ← st_lift (initialize memory_regions);
  s ← st_get;
  st_put (with_alloc s (Some a)).

Definition virt_to_phys {E} (virt : Z) : st Mem E (option Z) :=
  s ← st_get; mret (translate_addr (ram s) (cr3_reg s) virt).

(** *** Allocating and mapping *)
Definition initialized : st Mem MapErr PageAllocator :=
  s ← st_get; st_lift (ok_or Uninitialized (ALLOCATOR s)).

(** [alloc.alloc(size, specific_addr)]. *)
Definition take_page {E} (size : PageSize) (specific_addr : option Z) : st Mem E (option Z) :=
  s ← st_get;
  a ← st_lift (unwrap (ALLOCATOR s));
  '(r, a') ← st_lift (alloc PhysAddr_new a size specific_addr);
  _ ← st_put (with_alloc s (Some a'));
  mret r.

Definition allocate_frame (virtaddr : Z) (ptype : PageType) : st Mem MapErr (Z * PageSize) :=
  addr ← match ptype with
         | Huge => p ← st_lift (unwrap (PhysAddr_new virtaddr)); take_page Size2MiB (Some p)
         | Mmio => p ← st_lift (unwrap (PhysAddr_new virtaddr)); mret (Some p)
         | Identity => p ← st_lift (unwrap (PhysAddr_new virtaddr)); take_page Size4KiB (Some p)
         | Recursive => p ← st_lift (unwrap (PhysAddr_new (wrap 64 (virtaddr - HIGHER_HALF_BASE))));
                        take_page Size4KiB (Some p)
         | Arbitrary => take_page Size4KiB None
         | ArbitraryPhys phys => mret (Some phys)
         | MmioRecursive => p ← st_lift (unwrap (PhysAddr_new (wrap 64 (virtaddr - HIGHER_HALF_BASE))));
                            mret (Some p)
         end;
  let size := match ptype with Huge => Size2MiB | _ => Size4KiB end in
  a ← st_lift (ok_or OutOfMemory addr);
  mret (a, size).

(** [FrameAllocator<Size4KiB>::allocate_frame] of the page allocator. *)
Definition allocator_frame (a : PageAllocator) : outcome MapToError (option Z * PageAllocator) :=
  '(r, a') ← alloc (E := MapToError) PhysAddr_new a Size4KiB None; Ok (option_map frame_containing r, a').

Definition on_mapper {A} (m : Z -> st (Ram * PageAllocator) MapToError A) : st Mem MapToError A := fun s =>
  match ALLOCATOR s with
  | None => (Panic, s)
  | Some a => let '(r, (m', a')) := m (cr3_reg s) (ram s, a) in (r, with_alloc (with_ram s m') (Some a'))
  end.

Definition table_flags (flags : Z) : Z :=
  Z.lor (Z.lor PRESENT WRITABLE) (if contains flags USER_ACCESSIBLE then USER_ACCESSIBLE else 0).

Definition map_page (virtaddr : Z) (frame : Z * PageSize) (flags : Z) : st Mem MapErr unit :=
  match frame.2 with
  | Size2MiB =>
      st_map_err (fun _ => OutOfMemory) (on_mapper (fun root =>
        map_to_2m allocator_frame root (page_2m_containing virtaddr) (frame_2m_containing frame.1) flags))
  | Size4KiB =>
      r ← attempt (on_mapper (fun root =>
        map_to_with_table_flags allocator_frame root (page_containing virtaddr) (frame_containing frame.1)
          flags (table_flags flags)));
      match r with
      | inr _ | inl ParentEntryHugePage | inl (PageAlreadyMapped _) => mret tt
      | inl FrameAllocationFailed => st_lift (Err OutOfMemory)
      end
  end.

(** What the three entry points share. *)
Definition alloc_and_map (virtaddr : Z) (ptype : PageType) (flags : Z) : st Mem MapErr Z :=
  _ ← initialized;
  if (match ptype with Huge => true | _ => false end) && negb (virtaddr mod PAGE_2M =? 0)
  then st_lift (Err InvalidAlignment)
  else
    frame ← allocate_frame virtaddr ptype;
    _ ← map_page virtaddr frame flags;
    mret frame.1.

Definition kalloc_page (virtaddr : Z) (ptype : PageType) : st Mem MapErr Z :=
  alloc_and_map virtaddr ptype
    (Z.lor (Z.lor (Z.lor PRESENT WRITABLE) NO_EXECUTE)
       match ptype with Mmio | Recursive => NO_CACHE | Huge => HUGE_PAGE | _ => GLOBAL end).

Definition user_bits (ptype : PageType) : Z :=
  Z.lor (match ptype with Mmio => NO_CACHE | Huge => HUGE_PAGE | _ => 0 end) USER_ACCESSIBLE.
Definition ualloc_page (virtaddr : Z) (ptype : PageType) : st Mem MapErr Z :=
  alloc_and_map virtaddr ptype (Z.lor (Z.lor PRESENT WRITABLE) (user_bits ptype)).
Definition ualloc_page_flags (virtaddr : Z) (ptype : PageType) (flags : Z) : st Mem MapErr Z :=
  alloc_and_map virtaddr ptype (Z.lor (Z.lor flags PRESENT) (user_bits ptype)).

Definition change_flags (virt_addr flags : Z) : st Mem MapErr unit :=
  p4 ← active_level_4_table;
  p4e ← entry_at p4 (table_index 4 virt_addr);
  p3e ← entry_at (pte_addr p4e) (table_index 3 virt_addr);
  if pte_is_unused p3e then st_lift (Err NotMapped)
  else
    p2e ← entry_at (pte_addr p3e) (table_index 2 virt_addr);
    if pte_is_unused p2e then st_lift (Err NotMapped)
    else
      let p1 := pte_addr p2e in
      p1e ← entry_at p1 (table_index 1 virt_addr);
      if pte_is_unused p2e then st_lift (Err NotMapped)
      else put_entry p1 (table_index 1 virt_addr) (pte_set_flags p1e flags).

(** *** Unmapping *)
Definition unmap_page (virtaddr : Z) : st Mem UnmapError Z := fun s =>
  let '(r, m') := unmap (cr3_reg s) (page_containing virtaddr) (ram s) in (r, with_ram s m').
Definition unmap_outcome {A} (r : UnmapError + A) : outcome MapErr unit :=
  match r with
  | inr _ | inl UnmapParentEntryHugePage => Ok tt
  | inl _ => Err NotMapped
  end.
Definition dealloc_page (phys : Z) : st Mem MapErr unit := fun s =>
  match a ← ok_or Uninitialized (ALLOCATOR s); dealloc a phys Size4KiB with
  | Ok a' => (Ok tt, with_alloc s (Some a'))
  | Err e => (Err e, s)
  | Panic => (Panic, s)
  end.

(** Both sizes are unmapped and released as one 4 KiB page. *)
Definition kfree_page (virtaddr : Z) (ptype : PageType) : st Mem MapErr unit :=
  _ ← initialized;
  s ← st_get;
  phys ← st_lift (ok_or NotMapped (translate_addr (ram s) (cr3_reg s) virtaddr));
  err ← attempt (unmap_page virtaddr);
  _ ← dealloc_page phys;
  st_lift (unmap_outcome err).
Definition kleak_page (virtaddr : Z) (ptype : PageType) : st Mem MapErr unit :=
  _ ← initialized;
  err ← attempt (unmap_page virtaddr);
  st_lift (unmap_outcome err).

(** *** Buffers for devices *)
Fixpoint kalloc_each (pages : list Z) : st Mem MapErr unit :=
  match pages with
  | [] => mret tt
  | p :: pages =>
      v ← st_lift (unwrap (VirtAddr_new p));
      _ ← kalloc_page v Arbitrary;
      kalloc_each pages
  end.
(** Address and length of the buffer; the recursion has no bound of its own. *)
Fixpoint kalloc_dma_pages (fuel : nat) (len : Z) : st Mem MapErr (Z * Z) :=
  match fuel with
  | O => st_lift Panic
  | S fuel =>
      if len =? 0 then st_lift (Err NotMapped)
      else
        let num_pages := (len + PAGE_4K - 1) / PAGE_4K in
        alloc_size ← st_lift (umul 64 num_pages PAGE_4K);
        s ← st_get;
        let virt_base := DMA_BASE s in
        _ ← st_put (with_dma s (wrap 64 (virt_base + alloc_size)));
        v ← st_lift (unwrap (VirtAddr_new virt_base));
        res ← attempt (kalloc_page v Arbitrary);
        match res with
        | inl OutOfMemory => kalloc_dma_pages fuel len
        | inl err => st_lift (Err err)
        | inr _ =>
            _ ← kalloc_each ((fun i => virt_base + i * PAGE_4K) <$> seqZ 1 (num_pages - 1));
            mret (virt_base, len)
        end
  end.
Fixpoint kfree_each (pages : list Z) : st Mem MapErr unit :=
  match pages with
  | [] => mret tt
  | p :: pages =>
      v ← st_lift (unwrap (VirtAddr_new p));
      _ ← kfree_page v Arbitrary;
      kfree_each pages
  end.
Definition kfree_dma_pages (base_ptr len : Z) : st Mem MapErr unit :=
  if len =? 0 then st_lift (Err NotMapped)
  else kfree_each ((fun i => base_ptr + i * PAGE_4K) <$> seqZ 0 ((len + PAGE_4K - 1) / PAGE_4K)).
End Ops.

(** ** Page tables as trees *)
Section Walk.
Context `{Paging}.

Definition present (e : Z) : bool := contains (pte_flags e) PRESENT.
(** An entry that refers to a table. *)
Definition links (e : Z) : bool := present e && negb (contains (pte_flags e) HUGE_PAGE).
(** The indices that an address selects, from the level 4 table on. *)
Definition indices (virt : Z) : list nat := (fun l => table_index l virt) <$> [4%nat; 3%nat; 2%nat; 1%nat].
Definition entry_of (m : Ram) (t : Z) (i : nat) : option Z := m !! t ≫= (fun ws => ws !! i).

(** The table that a list of indices leads to. *)
Fixpoint reach (m : Ram) (t : Z) (path : list nat) : option Z :=
  match path with
  | [] => Some t
  | i :: path =>
      match entry_of m t i with
      | Some e => if links e then reach m (pte_addr e) path else None
      | None => None
      end
  end.
(** The entry that maps the page of the path, with the number of levels below it. *)
Fixpoint walk (m : Ram) (t : Z) (path : list nat) : option (nat * Z) :=
  match path with
  | [] => None
  | i :: path =>
      match entry_of m t i with
      | Some e => if negb (present e) then None
                  else match path with
                       | [] => Some (O, e)
                       | _ => if links e then walk m (pte_addr e) path else Some (length path, e)
                       end
      | None => None
      end
  end.
(** The tables on the way. *)
Fixpoint visited (m : Ram) (t : Z) (path : list nat) : list Z :=
  match path with
  | [] => []
  | i :: path =>
      t :: match path, entry_of m t i with
           | _ :: _, Some e => if links e then visited m (pte_addr e) path else []
           | _, _ => []
           end
  end.

Definition is_table_frame (m : Ram) (t : Z) : Prop := exists ws, m !! t = Some ws /\ length ws = 512%nat.
Definition clean (e : Z) : Prop := pte_is_unused e = true \/ present e = true.
(** The tables of the path are there, and its entries are empty or present. *)
Definition ready (m : Ram) (t : Z) (path : list nat) : Prop :=
  NoDup (visited m t path) /\ Forall (is_table_frame m) (visited m t path) /\ Forall (fun i => i < 512)%nat path /\
  forall k x i e, visited m t path !! k = Some x -> path !! k = Some i -> entry_of m x i = Some e -> clean e.
Lemma visited_link m t i path e :
  entry_of m t i = Some e -> links e = true -> path <> [] -> visited m t (i :: path) = t :: visited m (pte_addr e) path.
Proof. intros He Hl Hp. cbn [visited]. rewrite He, Hl. by destruct path. Qed.
Lemma visited_stop m t i path : (forall e, entry_of m t i = Some e -> links e = false) -> visited m t (i :: path) = [t].
Proof.
  intros He. cbn [visited]. destruct path; [done|]. destruct (entry_of m t i) as [e|]; [|done]. by rewrite (He e).
Qed.
Lemma walk_link m t i path e :
  entry_of m t i = Some e -> links e = true -> path <> [] -> walk m t (i :: path) = walk m (pte_addr e) path.
Proof.
  intros He Hl Hp. cbn [walk]. rewrite He, Hl. unfold links in Hl. apply andb_true_iff in Hl as [-> _]. by destruct path.
Qed.
Lemma walk_leaf m t i e : entry_of m t i = Some e -> present e = true -> walk m t [i] = Some (O, e).
Proof. intros He Hp. cbn. by rewrite He, Hp. Qed.
Lemma walk_huge m t i path e :
  entry_of m t i = Some e -> present e = true -> links e = false -> path <> [] -> walk m t (i :: path) = Some (length path, e).
Proof. intros He Hp Hl Hne. cbn [walk]. rewrite He, Hp, Hl. by destruct path. Qed.
Lemma walk_absent m t i path e : entry_of m t i = Some e -> present e = false -> walk m t (i :: path) = None.
Proof. intros He Hp. cbn [walk]. by rewrite He, Hp. Qed.

(** Writing one word. *)
Definition put_word (m : Ram) (t : Z) (i : nat) (e : Z) : Ram :=
  match m !! t with Some ws => <[t := <[i := e]> ws]> m | None => m end.
Lemma entry_put m t ws i e j : m !! t = Some ws -> (i < length ws)%nat ->
  entry_of (put_word m t i e) t j = if decide (j = i) then Some e else entry_of m t j.
Proof.
  intros Ht Hi. unfold entry_of, put_word. rewrite Ht, lookup_insert_eq. cbn. destruct (decide _) as [->|Hne].
  - by apply list_lookup_insert_eq.
  - by apply list_lookup_insert_ne.
Qed.
Lemma put_word_ne m t i e x : x <> t -> put_word m t i e !! x = m !! x.
Proof. intros. unfold put_word. destruct (m !! t); [by rewrite lookup_insert_ne|done]. Qed.
Lemma put_word_eq m t i e ws : m !! t = Some ws -> put_word m t i e !! t = Some (<[i := e]> ws).
Proof. intros Ht. unfold put_word. by rewrite Ht, lookup_insert_eq. Qed.

(** What lies outside the tables on the way does not matter. *)
Lemma visited_ext m m' t path :
  (forall x, x ∈ visited m t path -> m' !! x = m !! x) -> visited m' t path = visited m t path.
Proof.
  revert t. induction path as [|i path IH]; intros t Hx; [done|]. cbn [visited] in *. unfold entry_of in *.
  rewrite (Hx t) by left. f_equal. destruct path as [|j path]; [done|]. destruct (m !! t ≫= _) as [e|]; [|done].
  destruct (links e); [|done]. apply IH. intros x Hin. apply Hx. by right.
Qed.
Lemma walk_ext m m' t path :
  (forall x, x ∈ visited m t path -> m' !! x = m !! x) -> walk m' t path = walk m t path.
Proof.
  revert t. induction path as [|i path IH]; intros t Hx; [done|]. cbn [visited walk] in *. unfold entry_of in *.
  rewrite (Hx t) by left. destruct path as [|j path]; [done|]. destruct (m !! t ≫= _) as [e|]; [|done].
  destruct (links e); [|done]. rewrite IH; [done|]. intros x Hin. apply Hx. by right.
Qed.
(** A page that is mapped is mapped in a table of the last level. *)
Lemma walk_all_visited m t path e : walk m t path = Some (O, e) -> length (visited m t path) = length path.
Proof.
  revert t. induction path as [|j path IH]; intros t Hw; [done|].
  destruct (entry_of m t j) as [d|] eqn:Hd; [|by cbn [walk] in Hw; rewrite Hd in Hw].
  destruct (present d) eqn:Hp; [|by rewrite (walk_absent m t j path d) in Hw].
  destruct (decide (path = [])) as [->|Hne]; [done|]. destruct (links d) eqn:Hlk.
  - rewrite (walk_link m t j path d) in Hw by done. rewrite (visited_link m t j path d) by done. cbn. f_equal. by apply IH.
  - rewrite (walk_huge m t j path d) in Hw by done. by destruct path.
Qed.
End Walk.

Lemma contains_bit f k : 0 <= k -> contains f (2 ^ k) = Z.testbit f k.
Proof.
  intros Hk. unfold contains. rewrite <-Z.shiftl_1_l. destruct (Z.testbit f k) eqn:Hb.
  - apply Z.eqb_eq, Z.bits_inj'. intros n Hn. rewrite Z.land_spec, one_bit_testbit by lia.
    destruct (bool_decide_reflect (n = k)) as [->|]; [by rewrite Hb|apply andb_false_r].
  - apply Z.eqb_neq. intros Heq. apply (f_equal (fun x => Z.testbit x k)) in Heq.
    rewrite Z.land_spec, Hb, one_bit_testbit in Heq by lia. by rewrite bool_decide_eq_true_2 in Heq.
Qed.

(** ** What the x86_64 crate documents *)

(** The frames a frame allocator gives out in a row, up to the first failure. *)
Inductive takes {A} (allocate : A -> outcome MapToError (option Z * A)) : A -> list Z -> A -> Prop :=
| takes_nil a : takes allocate a [] a
| takes_none a a' : allocate a = Ok (None, a') -> takes allocate a [] a'
| takes_cons a f a1 fs a2 : allocate a = Ok (Some f, a1) -> takes allocate a1 fs a2 -> takes allocate a (f :: fs) a2.
(** A frame allocator that can be used for the tables of a path: it does not panic, and its
    frames are new and aligned. *)
Definition supplies {A} (allocate : A -> outcome MapToError (option Z * A)) (a : A) (m : Ram) (used : list Z) : Prop :=
  forall fs a', takes allocate a fs a' ->
    NoDup (used ++ fs) /\
    Forall (fun x => is_table_frame m x /\ x mod PAGE_4K = 0 /\ 0 <= x < MAX_PHYS) fs /\
    exists r a'', allocate a' = Ok (r, a'').

Definition is_flags (f : Z) : Prop := 0 <= f < 2 ^ 64 /\ Z.land f 0xFFFFFFFFFF000 = 0.

(** What mapping the page of [path] does: it takes frames for the missing tables, changes one
    entry in each table on the way, and nothing else. *)
Record map_effect `{Paging} (m : Ram) (t : Z) (path : list nat) (fs : list Z) (m' : Ram) : Prop := {
  me_frame x : x ∉ fs -> x ∉ visited m t path -> m' !! x = m !! x;
  me_old k x i : visited m t path !! k = Some x -> path !! k = Some i ->
    exists ws e, m !! x = Some ws /\ m' !! x = Some (<[i := e]> ws);
  me_new k x i : fs !! k = Some x -> path !! (length (visited m t path) + k)%nat = Some i ->
    exists e, m' !! x = Some (<[i := e]> (replicate 512 0));
  me_visited : visited m' t path = visited m t path ++ fs;
}.

(** Nothing changed. *)
Lemma map_effect_refl `{Paging} m t path : ready m t path -> map_effect m t path [] m.
Proof.
  intros (Hnd & Hts & Hlt & _). split; [done| |done|by rewrite app_nil_r].
  intros k x i Hk Hi. destruct (Forall_lookup_1 _ _ _ _ Hts Hk) as (ws & Hws & Hl).
  pose proof (Forall_lookup_1 _ _ _ _ Hlt Hi) as H512. cbn in H512. destruct (lookup_lt_is_Some_2 ws i ltac:(lia)) as [e He].
  exists ws, e. split; [done|]. by rewrite list_insert_id.
Qed.

Class PagingLaws `{Paging} : Prop := {
  VirtAddr_new_ok x : 0 <= x < 2 ^ 47 \/ 2 ^ 64 - 2 ^ 47 <= x < 2 ^ 64 -> VirtAddr_new x = Some x;
  PhysAddr_new_ok : accepts_phys PhysAddr_new;
  table_index_ok l x : (1 <= l <= 4)%nat -> 0 <= x < 2 ^ 64 ->
    table_index l x = Z.to_nat (x / 2 ^ (3 + 9 * Z.of_nat l) mod 512);
  page_containing_ok x : 0 <= x < 2 ^ 64 -> page_containing x = page_of x;
  frame_containing_ok x : 0 <= x < MAX_PHYS -> frame_containing x = page_of x;
  pte_addr_ok e : pte_addr e mod PAGE_4K = 0 /\ 0 <= pte_addr e < MAX_PHYS;
  pte_flags_ok e : is_flags (pte_flags e);
  pte_make_ok a f : a mod PAGE_4K = 0 -> 0 <= a < MAX_PHYS -> is_flags f ->
    exists e, pte_make a f = Some e /\ pte_addr e = a /\ pte_flags e = f;
  pte_set_flags_ok e f : is_flags f -> pte_addr (pte_set_flags e f) = pte_addr e /\ pte_flags (pte_set_flags e f) = f;
  pte_unused_ok e : pte_is_unused e = true <-> e = 0;
  pte_zero : pte_flags 0 = 0;
  translate_mapped m root x e : walk m root (indices x) = Some (O, e) ->
    translate_addr m root x = Some (pte_addr e + x mod PAGE_4K);
  translate_unmapped m root x : walk m root (indices x) = None -> translate_addr m root x = None;
  map_to_ok {A} (allocate : A -> outcome MapToError (option Z * A)) m a root page frame flags tflags :
    ready m root (indices page) -> supplies allocate a m (visited m root (indices page)) ->
    page mod PAGE_4K = 0 -> frame mod PAGE_4K = 0 -> 0 <= frame < MAX_PHYS ->
    is_flags flags -> contains flags PRESENT = true -> is_flags tflags -> 
    contains tflags PRESENT = true -> contains tflags HUGE_PAGE = false ->
    exists r fs m' a', map_to_with_table_flags allocate root page frame flags tflags (m, a) = (r, (m', a')) /\
      takes allocate a fs a' /\ map_effect m root (indices page) fs m' /\
      match r with
      | Ok _ => walk m root (indices page) = None /\ exists e, walk m' root (indices page) = Some (O, e) /\ pte_addr e = frame /\ pte_flags e = flags
      | Err FrameAllocationFailed => exists a0, takes allocate a fs a0 /\ allocate a0 = Ok (None, a')
      | Err ParentEntryHugePage => exists k e, walk m root (indices page) = Some (S k, e)
      | Err (PageAlreadyMapped _) => exists e, walk m root (indices page) = Some (O, e) /\ walk m' root (indices page) = Some (O, e)
      | Panic => False
      end;
  unmap_ok m root page e t ws :
    ready m root (indices page) -> page mod PAGE_4K = 0 ->
    walk m root (indices page) = Some (O, e) ->
    visited m root (indices page) !! 3%nat = Some t -> m !! t = Some ws ->
    unmap root page m = (Ok (pte_addr e), <[t := <[table_index 1 page := 0]> ws]> m);
}.
