(* ===== verification/X86Paging.v ===== *)
(** * The page tables of the processor

    An implementation of the interface that Paging.v takes from the x86_64 crate, on the entry
    format of the processor, and the proof that it has the properties Paging.v relies on. *)
From S2P Require Import Prelude PageAlloc Paging.

Definition ADDR_MASK : Z := 0xFFFFFFFFFF000.
Definition FLAG_MASK : Z := 0xFFF0000000000FFF.
Definition canonical_new (x : Z) : option Z :=
  if ((0 <=? x) && (x <? 2 ^ 47)) || ((2 ^ 64 - 2 ^ 47 <=? x) && (x <? 2 ^ 64)) then Some x else None.
Definition e_addr (e : Z) : Z := Z.land e ADDR_MASK.
Definition e_flags (e : Z) : Z := Z.land e FLAG_MASK.
Definition e_make (a f : Z) : option Z := if a mod PAGE_4K =? 0 then Some (Z.lor a f) else None.
Definition index_of (l : nat) (x : Z) : nat := Z.to_nat (x / 2 ^ (3 + 9 * Z.of_nat l) mod 512).
Definition path_of (x : Z) : list nat := [index_of 4 x; index_of 3 x; index_of 2 x; index_of 1 x].
Definition e_present (e : Z) : bool := contains (e_flags e) PRESENT.
Definition e_huge (e : Z) : bool := contains (e_flags e) HUGE_PAGE.
Definition e_links (e : Z) : bool := e_present e && negb (e_huge e).

(** The entry that maps the page of the path, with the number of levels below it. *)
Fixpoint mapping (m : Ram) (t : Z) (path : list nat) : option (nat * Z) :=
  match path with
  | [] => None
  | i :: path =>
      match m !! t ≫= (fun ws => ws !! i) with
      | Some e => if negb (e_present e) then None
                  else match path with
                       | [] => Some (O, e)
                       | _ => if e_links e then mapping m (e_addr e) path else Some (length path, e)
                       end
      | None => None
      end
  end.
Fixpoint map_path {A} (allocate : A -> outcome MapToError (option Z * A)) (frame flags tflags : Z)
    (path : list nat) (t : Z) (m : Ram) (a : A) : outcome MapToError unit * (Ram * A) :=
  match path with
  | [] => (Panic, (m, a))
  | i :: path =>
      match m !! t ≫= (fun ws => ws !! i) with
      | None => (Panic, (m, a))
      | Some e =>
          match path with
          | [] => if e =? 0 then (Ok tt, (put_word m t i (Z.lor frame flags), a))
                  else (Err (PageAlreadyMapped (e_addr e)), (m, a))
          | _ =>
              if e =? 0 then
                match allocate a with
                | Ok (Some f, a) => map_path allocate frame flags tflags path f
                    (<[f := replicate 512 0]> (put_word m t i (Z.lor f tflags))) a
                | Ok (None, a) => (Err FrameAllocationFailed, (m, a))
                | Err x => (Err x, (m, a))
                | Panic => (Panic, (m, a))
                end
              else if e_huge e then (Err ParentEntryHugePage, (m, a))
              else map_path allocate frame flags tflags path (e_addr e) (put_word m t i (Z.lor e tflags)) a
          end
      end
  end.

Fixpoint unmap_path (path : list nat) (t : Z) (m : Ram) : outcome UnmapError Z * Ram :=
  match path with
  | [] => (Panic, m)
  | i :: path =>
      match m !! t ≫= (fun ws => ws !! i) with
      | None => (Panic, m)
      | Some e =>
          if negb (e_present e) then (Err PageNotMapped, m)
          else match path with
               | [] => (Ok (e_addr e), put_word m t i 0)
               | _ => if e_huge e then (Err UnmapParentEntryHugePage, m) else unmap_path path (e_addr e) m
               end
      end
  end.

#[export] Instance x86_paging : Paging := {
  VirtAddr_new := canonical_new;
  PhysAddr_new := PhysAddr_52;
  table_index := index_of;
  page_containing := page_of;
  frame_containing := page_of;
  page_2m_containing x := x / PAGE_2M * PAGE_2M;
  frame_2m_containing x := x / PAGE_2M * PAGE_2M;
  pte_addr := e_addr;
  pte_flags := e_flags;
  pte_is_unused e := e =? 0;
  pte_make := e_make;
  pte_set_flags e f := Z.lor (e_addr e) f;
  translate_addr m root x :=
    match mapping m root (path_of x) with
    | Some (k, e) => Some (e_addr e + x mod 2 ^ (12 + 9 * Z.of_nat k))
    | None => None
    end;
  map_to_with_table_flags A allocate root page frame flags tflags '(m, a) :=
    map_path allocate frame flags tflags (path_of page) root m a;
  map_to_2m A allocate root page frame flags '(m, a) :=
    map_path allocate frame flags (Z.land flags 7) (take 3 (path_of page)) root m a;
  unmap root page m := unmap_path (path_of page) root m;
}.

(** ** Entries *)
Lemma masks_apart : Z.land ADDR_MASK FLAG_MASK = 0.
Proof. reflexivity. Qed.
Lemma masks_cover : Z.lor ADDR_MASK FLAG_MASK = Z.ones 64.
Proof. reflexivity. Qed.
Lemma addr_mask a : a mod PAGE_4K = 0 -> 0 <= a < MAX_PHYS -> Z.land a ADDR_MASK = a.
Proof.
  intros Ha Hr. change ADDR_MASK with (Z.ldiff (Z.ones 52) (Z.ones 12)). rewrite Z.ldiff_land, Z.land_assoc.
  rewrite Z.land_ones by lia. unfold MAX_PHYS, PAGE_4K in *. rewrite Z.mod_small by lia.
  rewrite <-Z.ldiff_land, Z.ldiff_ones_r by lia. rewrite Z.shiftr_div_pow2, Z.shiftl_mul_pow2 by lia.
  change (2 ^ 12) with 4096. rewrite (Z.div_mod a 4096) at 2 by lia. lia.
Qed.
Lemma addr_no_flags a : a mod PAGE_4K = 0 -> 0 <= a < MAX_PHYS -> Z.land a FLAG_MASK = 0.
Proof. intros Ha Hr. rewrite <-(addr_mask a Ha Hr), <-Z.land_assoc, masks_apart. apply Z.land_0_r. Qed.
Lemma flags_mask f : is_flags f -> Z.land f FLAG_MASK = f.
Proof.
  intros [Hr Hf]. assert (Z.land f (Z.ones 64) = f) as Hones by (rewrite Z.land_ones by lia; by apply Z.mod_small).
  rewrite <-masks_cover, Z.land_lor_distr_r in Hones. change ADDR_MASK with 0xFFFFFFFFFF000 in Hones. by rewrite Hf in Hones.
Qed.
Lemma e_make_fields a f :
  a mod PAGE_4K = 0 -> 0 <= a < MAX_PHYS -> is_flags f -> e_addr (Z.lor a f) = a /\ e_flags (Z.lor a f) = f.
Proof.
  intros Ha Hr Hf. unfold e_addr, e_flags. rewrite !Z.land_lor_distr_l, addr_mask, addr_no_flags, flags_mask by done.
  destruct Hf as [_ Hf]. change ADDR_MASK with 0xFFFFFFFFFF000. rewrite Hf. by rewrite Z.lor_0_r.
Qed.
Lemma land_bound e mask w : 0 <= w -> Z.land mask (Z.ones w) = mask -> 0 <= Z.land e mask < 2 ^ w.
Proof.
  intros Hw Hm. rewrite <-Hm, Z.land_assoc, Z.land_ones by done. apply Z.mod_pos_bound, Z.pow_pos_nonneg; lia.
Qed.
Lemma e_addr_ok e : e_addr e mod PAGE_4K = 0 /\ 0 <= e_addr e < MAX_PHYS.
Proof.
  unfold e_addr. split; [|by apply land_bound].
  change PAGE_4K with (2 ^ 12). rewrite <-Z.land_ones, <-Z.land_assoc by lia.
  change (Z.land ADDR_MASK (Z.ones 12)) with 0. apply Z.land_0_r.
Qed.
Lemma e_flags_ok e : is_flags (e_flags e).
Proof. split; [by apply land_bound|]. unfold e_flags. rewrite <-Z.land_assoc. apply Z.land_0_r. Qed.

(** ** Mapping *)
Lemma mapping_walk m t path : mapping m t path = walk m t path.
Proof.
  revert t. induction path as [|i path IH]; intros t; [done|]. cbn [mapping walk]. unfold entry_of.
  destruct (m !! t ≫= _) as [e|]; [|done]. change (present e) with (e_present e).
  destruct (negb (e_present e)); [done|]. destruct path; [done|]. change (links e) with (e_links e). destruct (e_links e); [apply IH|done].
Qed.
Lemma e_present_bit e : e_present e = Z.testbit e 0.
Proof. unfold e_present. change PRESENT with (2 ^ 0). rewrite contains_bit by done. unfold e_flags. rewrite Z.land_spec. apply andb_true_r. Qed.
Lemma e_huge_bit e : e_huge e = Z.testbit e 7.
Proof. unfold e_huge. change HUGE_PAGE with (2 ^ 7). rewrite contains_bit by done. unfold e_flags. rewrite Z.land_spec. apply andb_true_r. Qed.

Section MapPath.
Context {A : Type} (allocate : A -> outcome MapToError (option Z * A)) (frame flags tflags : Z).
Context (Hframe : frame mod PAGE_4K = 0 /\ 0 <= frame < MAX_PHYS) (Hflags : is_flags flags) (Hpres : contains flags PRESENT = true).
Context (Htflags : is_flags tflags) (Htpres : Z.testbit tflags 0 = true) (Hthuge : Z.testbit tflags 7 = false).

Lemma table_entry f : f mod PAGE_4K = 0 -> 0 <= f < MAX_PHYS -> links (Z.lor f tflags) = true /\ pte_addr (Z.lor f tflags) = f.
Proof using Htflags Htpres Hthuge.
  intros Hf Hr. destruct (e_make_fields f tflags Hf Hr Htflags) as [Ha Hfl]. split; [|exact Ha].
  change (e_links (Z.lor f tflags) = true). unfold e_links, e_present, e_huge. rewrite Hfl.
  change PRESENT with (2 ^ 0). change HUGE_PAGE with (2 ^ 7). rewrite !contains_bit by done. by rewrite Htpres, Hthuge.
Qed.
Lemma linked_entry e : e_links e = true -> links (Z.lor e tflags) = true /\ pte_addr (Z.lor e tflags) = e_addr e.
Proof using Htflags Htpres Hthuge.
  intros Hl. unfold e_links in Hl. rewrite e_present_bit, e_huge_bit in Hl. apply andb_true_iff in Hl as [Hp Hh%negb_true_iff].
  split.
  - change (e_links (Z.lor e tflags) = true). unfold e_links. rewrite e_present_bit, e_huge_bit, !Z.lor_spec. by rewrite Hp, Hh, Hthuge.
  - change (e_addr (Z.lor e tflags) = e_addr e). unfold e_addr. rewrite Z.land_lor_distr_l.
    destruct Htflags as [_ Ht]. change ADDR_MASK with 0xFFFFFFFFFF000. rewrite Ht. apply Z.lor_0_r.
Qed.
Lemma leaf_entry : present (Z.lor frame flags) = true /\ pte_addr (Z.lor frame flags) = frame /\ pte_flags (Z.lor frame flags) = flags.
Proof using Hframe Hflags Hpres.
  destruct Hframe as [Hm Hr]. destruct (e_make_fields frame flags Hm Hr Hflags) as [Ha Hf].
  split; [|done]. unfold present. change (pte_flags (Z.lor frame flags)) with (e_flags (Z.lor frame flags)). by rewrite Hf.
Qed.

(** One table that was there. *)
Lemma map_effect_step m t i path e e' ws fs m' :
  m !! t = Some ws -> (i < length ws)%nat -> entry_of m t i = Some e -> path <> [] ->
  links e = true -> links e' = true -> pte_addr e' = pte_addr e -> NoDup (t :: visited m (pte_addr e) path ++ fs) ->
  map_effect (put_word m t i e') (pte_addr e) path fs m' ->
  map_effect m t (i :: path) fs m' /\ entry_of m' t i = Some e'.
Proof using.
  intros Hws Hi He Hne Hl Hl' Ha [Hnot Hnd]%NoDup_cons Heff.
  assert (visited (put_word m t i e') (pte_addr e) path = visited m (pte_addr e) path) as Hvis.
  { apply visited_ext. intros x Hx. apply put_word_ne. intros ->. apply Hnot, elem_of_app. by left. }
  assert (visited m t (i :: path) = t :: visited m (pte_addr e) path) as Hv by (by apply visited_link).
  rewrite not_elem_of_app in Hnot. destruct Hnot as [Hn1 Hn2].
  assert (m' !! t = put_word m t i e' !! t) as Ht by (apply (me_frame _ _ _ _ _ Heff); [done|by rewrite Hvis]).
  assert (entry_of m' t i = Some e') as He'.
  { unfold entry_of. rewrite Ht. fold (entry_of (put_word m t i e') t i). rewrite (entry_put m t ws) by done. by rewrite decide_True. }
  split; [|done]. split.
  - intros x Hx Hxv. rewrite Hv in Hxv. apply not_elem_of_cons in Hxv as [Hxt Hxv].
    rewrite (me_frame _ _ _ _ _ Heff) by (done || by rewrite Hvis). by apply put_word_ne.
  - rewrite Hv. intros [|k] x j Hk Hj.
    + injection Hk as <-. injection Hj as <-. exists ws, e'. split; [done|]. rewrite Ht. by apply put_word_eq.
    + cbn in Hk, Hj. destruct (me_old _ _ _ _ _ Heff k x j) as (ws' & d & H1 & H2); [by rewrite Hvis|done|].
      exists ws', d. split; [|done]. rewrite put_word_ne in H1; [done|]. intros ->. apply Hn1. by eapply list_elem_of_lookup_2.
  - rewrite Hv. intros k x j Hk Hj. cbn in Hj. apply (me_new _ _ _ _ _ Heff k x j Hk). by rewrite Hvis.
  - rewrite (visited_link m' t i path e'), Ha, (me_visited _ _ _ _ _ Heff), Hvis, Hv by done. done.
Qed.
(** One table that was made. *)
Lemma map_effect_new m t i path f e' ws fs m' :
  m !! t = Some ws -> (i < length ws)%nat -> path <> [] -> visited m t (i :: path) = [t] ->
  links e' = true -> pte_addr e' = f -> NoDup (t :: f :: fs) ->
  visited (<[f := replicate 512 0]> (put_word m t i e')) f path = [f] ->
  map_effect (<[f := replicate 512 0]> (put_word m t i e')) f path fs m' ->
  map_effect m t (i :: path) (f :: fs) m' /\ entry_of m' t i = Some e'.
Proof using.
  intros Hws Hi Hne Hv Hl Ha [[Htf Hn2]%not_elem_of_cons [Hfn Hnd]%NoDup_cons]%NoDup_cons Hvis Heff.
  assert (m' !! t = Some (<[i := e']> ws)) as Ht.
  { rewrite (me_frame _ _ _ _ _ Heff) by (done || rewrite Hvis, list_elem_of_singleton; done).
    rewrite lookup_insert_ne by done. by apply put_word_eq. }
  assert (entry_of m' t i = Some e') as He' by (unfold entry_of; rewrite Ht; by apply list_lookup_insert_eq).
  split; [|done]. split.
  - intros x [Hxf Hx]%not_elem_of_cons Hxv. rewrite Hv in Hxv. apply not_elem_of_cons in Hxv as [Hxt _].
    rewrite (me_frame _ _ _ _ _ Heff) by (done || rewrite Hvis, list_elem_of_singleton; done).
    rewrite lookup_insert_ne by done. by apply put_word_ne.
  - rewrite Hv. intros [|k] x j Hk Hj; [|done]. injection Hk as <-. injection Hj as <-. eauto.
  - rewrite Hv. intros [|k] x j Hk Hj; cbn in Hj.
    + injection Hk as <-. destruct (me_old _ _ _ _ _ Heff 0 f j) as (ws' & d & H1 & H2); [by rewrite Hvis|done|].
      rewrite lookup_insert_eq in H1. injection H1 as <-. eauto.
    + apply (me_new _ _ _ _ _ Heff k x j Hk). rewrite Hvis. done.
  - rewrite (visited_link m' t i path e'), Ha, (me_visited _ _ _ _ _ Heff), Hvis, Hv by done. done.
Qed.

(** A table of zeros maps nothing. *)
Lemma zero_table m f path : m !! f = Some (replicate 512 0) -> Forall (fun i => i < 512)%nat path -> path <> [] ->
  visited m f path = [f] /\ walk m f path = None /\ ready m f path.
Proof using.
  intros Hf Hlt Hne. destruct path as [|i path]; [done|]. apply Forall_cons in Hlt as [Hi Hlt].
  assert (entry_of m f i = Some 0) as He by (unfold entry_of; rewrite Hf; by apply lookup_replicate_2).
  assert (visited m f (i :: path) = [f]) as Hv by (apply visited_stop; rewrite He; by intros ? [= <-]).
  split; [done|]. split; [by apply (walk_absent _ _ _ _ 0)|]. unfold ready. rewrite Hv. split_and!.
  - apply NoDup_singleton.
  - apply Forall_singleton. exists (replicate 512 0). by rewrite length_replicate.
  - by constructor.
  - intros [|k] x j e Hk Hj Hx; [|done]. injection Hk as <-. injection Hj as <-. rewrite He in Hx. injection Hx as <-. by left.
Qed.

Definition map_result (m : Ram) (a : A) (t : Z) (path : list nat) (fs : list Z) (r : outcome MapToError unit) (m' : Ram) (a' : A) : Prop :=
  match r with
  | Ok _ => walk m t path = None /\ exists e, walk m' t path = Some (O, e) /\ pte_addr e = frame /\ pte_flags e = flags
  | Err FrameAllocationFailed => exists a0, takes allocate a fs a0 /\ allocate a0 = Ok (None, a')
  | Err ParentEntryHugePage => exists k e, walk m t path = Some (S k, e)
  | Err (PageAlreadyMapped _) => exists e, walk m t path = Some (O, e) /\ walk m' t path = Some (O, e)
  | Panic => False
  end.

Lemma map_path_ok path m a t :
  path <> [] -> ready m t path -> supplies allocate a m (visited m t path) ->
  exists r fs m' a', map_path allocate frame flags tflags path t m a = (r, (m', a')) /\
    takes allocate a fs a' /\ map_effect m t path fs m' /\ map_result m a t path fs r m' a'.
Proof using Hframe Hflags Hpres Htflags Htpres Hthuge.
  revert m a t. induction path as [|i path IH]; intros m a t Hne Hready Hsup; [done|].
  pose proof Hready as (Hnd & Hts & [Hi Hlt]%Forall_cons & Hclean).
  assert (is_table_frame m t) as (ws & Hws & Hlen) by (by apply (Forall_lookup_1 _ _ 0%nat _ Hts)).
  destruct (lookup_lt_is_Some_2 ws i ltac:(lia)) as [e He].
  assert (entry_of m t i = Some e) as Hent by (unfold entry_of; by rewrite Hws).
  assert (clean e) as Hce by (by apply (Hclean 0%nat t i)). cbn [map_path].
  replace (m !! t ≫= _) with (Some e) by (symmetry; exact Hent).
  destruct path as [|j path].
  { destruct (Z.eqb_spec e 0) as [->|Hz].
    - exists (Ok tt), [], (put_word m t i (Z.lor frame flags)), a. split; [done|]. split; [constructor|].
      destruct leaf_entry as (Hp & Ha & Hf). split; [split|].
      + intros x _ Hx. apply put_word_ne. intros ->. apply Hx. left.
      + intros [|k] x j Hk Hj; [|done]. injection Hk as <-. injection Hj as <-. exists ws, (Z.lor frame flags). split; [done|by apply put_word_eq].
      + done.
      + done.
      + split; [by apply (walk_absent _ _ _ _ 0)|]. exists (Z.lor frame flags). split_and!; [|done..]. apply walk_leaf; [|done]. rewrite (entry_put m t ws) by (done || lia).
        by rewrite decide_True.
    - exists (Err (PageAlreadyMapped (e_addr e))), [], m, a. split; [done|]. split; [constructor|]. split; [by apply map_effect_refl|].
      exists e. assert (present e = true) as Hp by (destruct Hce as [Hu|]; [by apply Z.eqb_eq in Hu|done]). split; by apply walk_leaf. }
  destruct (Z.eqb_spec e 0) as [->|Hz].
  - assert (visited m t (i :: j :: path) = [t]) as Hv by (apply visited_stop; rewrite Hent; by intros ? [= <-]).
    rewrite Hv in Hsup. destruct (Hsup [] a ltac:(constructor)) as (_ & _ & r & a1 & Ha1). rewrite Ha1. destruct r as [f|].
    2:{ exists (Err FrameAllocationFailed), [], m, a1. split; [done|]. split; [by apply takes_none|]. split; [by apply map_effect_refl|].
        exists a. split; [constructor|done]. }
    set (m1 := <[f := replicate 512 0]> (put_word m t i (Z.lor f tflags))).
    destruct (Hsup [f] a1 ltac:(by repeat econstructor)) as (Hnd1 & (Hf & Hfm & Hfr)%Forall_singleton & _).
    destruct (zero_table m1 f (j :: path)) as (Hv1 & Hw1 & Hr1); [by apply lookup_insert_eq|done|done|].
    destruct (IH m1 a1 f) as (r & fs & m' & a' & Hrun & Htk & Heff & Hres); [done|done| |].
    { rewrite Hv1. intros fs a' Htk. destruct (Hsup (f :: fs) a' ltac:(by econstructor)) as (Hnd2 & [_ Hfs]%Forall_cons & Hnext).
      apply NoDup_cons in Hnd2 as [[Htf Htfs]%not_elem_of_cons Hnd2]. split; [done|]. split; [|done]. apply Forall_forall. intros x Hx.
      rewrite Forall_forall in Hfs. destruct (Hfs x Hx) as ((ws' & Hx1 & Hx2) & Hx3). split; [|done]. exists ws'. split; [|done].
      apply NoDup_cons in Hnd2 as [Hff _]. unfold m1. rewrite lookup_insert_ne, put_word_ne; congruence. }
    destruct (table_entry f Hfm Hfr) as [Hlk Hla].
    destruct (map_effect_new m t i (j :: path) f (Z.lor f tflags) ws fs m') as [Heff' Hent']; try done; [lia| |].
    { by destruct (Hsup (f :: fs) a' ltac:(by econstructor)) as (Hnd2 & _). }
    exists r, (f :: fs), m', a'. split; [exact Hrun|]. split; [by econstructor|]. split; [done|].
    destruct r as [[]|[| |fr]|]; cbv beta iota delta [map_result] in Hres |- *.
    + destruct Hres as (_ & e & Hw & He'). split; [by apply (walk_absent _ _ _ _ 0)|]. exists e. split; [|done].
      rewrite (walk_link m' t i (j :: path) (Z.lor f tflags)), Hla by done. done.
    + destruct Hres as (a0 & ? & ?). exists a0. split; [by econstructor|done].
    + destruct Hres as (k & e & Hk). by rewrite Hw1 in Hk.
    + destruct Hres as (e & Hk & _). by rewrite Hw1 in Hk.
    + done.
  - assert (present e = true) as Hp by (destruct Hce as [Hu|]; [by apply Z.eqb_eq in Hu|done]).
    destruct (e_huge e) eqn:Hh.
    { exists (Err ParentEntryHugePage), [], m, a. split; [done|]. split; [constructor|]. split; [by apply map_effect_refl|].
      exists (length path), e. apply walk_huge; try done. unfold links. change (pte_flags e) with (e_flags e). 
      change (contains (e_flags e) HUGE_PAGE) with (e_huge e). by rewrite Hh, andb_false_r. }
    assert (e_links e = true) as Hl by (unfold e_links; rewrite Hh; by rewrite andb_true_r).
    destruct (linked_entry e Hl) as [Hl' Ha'].
    assert (visited m t (i :: j :: path) = t :: visited m (pte_addr e) (j :: path)) as Hv by (by apply visited_link).
    rewrite Hv in Hnd, Hts, Hclean, Hsup. pose proof Hnd as [Hnot Hnd']%NoDup_cons. apply Forall_cons in Hts as [_ Hts].
    set (m1 := put_word m t i (Z.lor e tflags)).
    assert (forall x, x ∈ visited m (pte_addr e) (j :: path) -> m1 !! x = m !! x) as Hsame by (intros x Hx; apply put_word_ne; congruence).
    assert (visited m1 (pte_addr e) (j :: path) = visited m (pte_addr e) (j :: path)) as Hvis by (by apply visited_ext).
    assert (walk m1 (pte_addr e) (j :: path) = walk m (pte_addr e) (j :: path)) as Hwk by (by apply walk_ext).
    destruct (IH m1 a (e_addr e)) as (r & fs & m' & a' & Hrun & Htk & Heff & Hres); [done| | |].
    { unfold ready. change (e_addr e) with (pte_addr e). rewrite Hvis. split_and!; [done| |done|].
      - apply Forall_forall. intros x Hx. rewrite Forall_forall in Hts. destruct (Hts x Hx) as (w & ? & ?). exists w. by rewrite Hsame.
      - intros k x n d Hk Hn Hd. apply (Hclean (S k) x n); [done..|]. unfold entry_of in *. rewrite Hsame in Hd; [done|]. by eapply list_elem_of_lookup_2. }
    { change (e_addr e) with (pte_addr e). rewrite Hvis. intros fs a' Htk. destruct (Hsup fs a' Htk) as (Hnd2 & Hfs & Hnext).
      apply NoDup_cons in Hnd2 as [Hn2 Hnd2]. split; [done|]. split; [|done]. apply Forall_forall. intros x Hx.
      rewrite Forall_forall in Hfs. destruct (Hfs x Hx) as ((w & ? & ?) & ?). split; [|done]. exists w. split; [|done]. unfold m1.
      rewrite put_word_ne; [done|]. intros ->. apply Hn2, elem_of_app. by right. }
    destruct (map_effect_step m t i (j :: path) e (Z.lor e tflags) ws fs m') as [Heff' Hent']; try done; [lia| |].
    { by destruct (Hsup fs a' Htk) as (Hnd2 & _). }
    exists r, fs, m', a'. split; [exact Hrun|]. split; [done|]. split; [done|].
    assert (walk m t (i :: j :: path) = walk m (pte_addr e) (j :: path)) as Hw0 by (by apply walk_link).
    destruct r as [[]|[| |fr]|]; cbv beta iota delta [map_result] in Hres |- *; [|done| | |done].
    + destruct Hres as (Hn & d & Hw & He'). rewrite Hw0, <-Hwk. split; [done|]. exists d. split; [|done].
      rewrite (walk_link m' t i (j :: path) (Z.lor e tflags)), Ha' by done. done.
    + rewrite Hw0, <-Hwk. exact Hres.
    + destruct Hres as (d & Hw & Hd). exists d. rewrite Hw0, <-Hwk. split; [done|].
      rewrite (walk_link m' t i (j :: path) (Z.lor e tflags)), Ha' by done. done.
Qed.
End MapPath.

Lemma unmap_path_ok path m t e tl ws i :
  walk m t path = Some (O, e) -> last (visited m t path) = Some tl -> m !! tl = Some ws -> last path = Some i ->
  length (visited m t path) = length path ->
  unmap_path path t m = (Ok (pte_addr e), <[tl := <[i := 0]> ws]> m).
Proof.
  revert t. induction path as [|j path IH]; intros t Hw Hl Hm Hi Hlen; [done|]. cbn [unmap_path].
  destruct (entry_of m t j) as [d|] eqn:Hd; [|by cbn [walk] in Hw; rewrite Hd in Hw].
  replace (m !! t ≫= _) with (Some d) by (symmetry; exact Hd).
  change (e_present d) with (present d). destruct (present d) eqn:Hp; [|by rewrite (walk_absent m t j path d) in Hw].
  cbn [negb]. destruct path as [|k path].
  - rewrite (walk_leaf m t j d) in Hw by done. injection Hw as <-. injection Hl as <-. injection Hi as <-.
    unfold put_word. by rewrite Hm.
  - destruct (links d) eqn:Hlk.
    + rewrite (walk_link m t j (k :: path) d) in Hw by done. rewrite (visited_link m t j (k :: path) d) in Hl, Hlen by done.
      assert (e_huge d = false) as -> by (unfold links in Hlk; rewrite Hp in Hlk; by apply negb_true_iff in Hlk).
      apply (IH (e_addr d)); [done| |done|done|by cbn in Hlen |- *; lia].
      change (e_addr d) with (pte_addr d). by destruct (visited m (pte_addr d) (k :: path)) eqn:Hv.
    + by rewrite (walk_huge m t j (k :: path) d) in Hw.
Qed.
Lemma x86_indices x : indices x = path_of x.
Proof. reflexivity. Qed.
#[export] Instance x86_paging_laws : PagingLaws.
Proof.
  split.
  - intros x Hx. cbn. unfold canonical_new. destruct Hx as [[H1 H2]|[H1 H2]].
    + by rewrite (proj2 (Z.leb_le _ _) H1), (proj2 (Z.ltb_lt _ _) H2).
    + by rewrite (proj2 (Z.leb_le _ _) H1), (proj2 (Z.ltb_lt _ _) H2), orb_true_r.
  - intros x Hx. cbn. unfold PhysAddr_52. by rewrite (proj2 (Z.ltb_lt _ _) (proj2 Hx)).
  - done.
  - done.
  - done.
  - exact e_addr_ok.
  - exact e_flags_ok.
  - intros a f Ha Hr Hf. exists (Z.lor a f). split; [cbn; unfold e_make; by rewrite Ha|by apply e_make_fields].
  - intros e f Hf. destruct (e_addr_ok e). by apply e_make_fields.
  - intros e. apply Z.eqb_eq.
  - done.
  - intros m root x e Hw. cbn [translate_addr x86_paging]. rewrite mapping_walk. rewrite x86_indices in Hw. by rewrite Hw.
  - intros m root x Hw. cbn [translate_addr x86_paging]. rewrite mapping_walk. rewrite x86_indices in Hw. by rewrite Hw.
  - intros A allocate m a root page frame flags tflags Hready Hsup Hpg Hfr Hrange Hfl Hpres Htf Htp Hth.
    change PRESENT with (2 ^ 0) in Htp. change HUGE_PAGE with (2 ^ 7) in Hth. rewrite contains_bit in Htp, Hth by done.
    destruct (map_path_ok allocate frame flags tflags (conj Hfr Hrange) Hfl Hpres Htf Htp Hth (path_of page) m a root)
      as (r & fs & m' & a' & Hrun & Htk & Heff & Hres); [done..|]. exists r, fs, m', a'. done.
  - intros m root page e t ws Hready Hpg Hw Ht Hws. pose proof (walk_all_visited _ _ _ _ Hw) as Hlen. rewrite x86_indices in *.
    apply (unmap_path_ok (path_of page)); try done. rewrite last_lookup, Hlen. exact Ht.
Qed.
