(* ===== verification/Mapping.v ===== *)
(** * Mapping pages

    What allocating and releasing mapped pages does to the page tables and to the page
    allocator, for any implementation of the crate's interface (Paging.v) that behaves as
    documented. *)
From S2P Require Import Prelude PageAlloc Paging.

(** The frames the page allocator can hand out. *)
Definition free (s : Mem) (p : Z) : bool := match ALLOCATOR s with Some a => is_free a p | None => false end.
Definition manages (s : Mem) (p : Z) : bool := match ALLOCATOR s with Some a => managed a p | None => false end.
(** The allocator is in order, and its pages are there and can be reached. *)
Definition mem_ok (s : Mem) : Prop :=
  exists a, ALLOCATOR s = Some a /\ alloc_wf a /\
    forall p, is_free a p = true -> is_table_frame (ram s) p /\ p < 2 ^ 47.
(** Everything but the allocator and the memory. *)
Definition same_regs (s s' : Mem) : Prop :=
  cr3_reg s' = cr3_reg s /\ PAGE_REFCOUNTS s' = PAGE_REFCOUNTS s /\ SCRATCH_COUNTER s' = SCRATCH_COUNTER s /\ DMA_BASE s' = DMA_BASE s.

Section Alloc.
Context `{HP : Paging} {HL : PagingLaws}.

Lemma page_of_id p : p mod PAGE_4K = 0 -> page_of p = p.
Proof using. unfold page_of. lia. Qed.
Lemma node_free_range n p : node_wf n -> node_free n p = true -> 0 <= p < MAX_PHYS /\ p mod PAGE_4K = 0.
Proof using.
  intros Hn Hf. unfold node_free in Hf. zbool. destruct (proj1 (covers_spec n p)); [done|]. destruct Hn. split; [lia|done].
Qed.
Lemma is_free_range a p : alloc_wf a -> is_free a p = true -> 0 <= p < MAX_PHYS /\ p mod PAGE_4K = 0.
Proof using.
  induction a as [|n a IH]; [done|]. intros (Hn & _ & Ha) Hf. rewrite is_free_cons in Hf.
  apply orb_true_iff in Hf as [Hf|Hf]; [by eapply node_free_range|by apply IH].
Qed.

Lemma alloc_any {E} a :
  alloc_wf a ->
  (exists p a', alloc (E := E) PhysAddr_new a Size4KiB None = Ok (Some p, a') /\ alloc_wf a' /\ is_free a p = true /\
     (forall q, is_free a' q = if decide (q = p) then false else is_free a q) /\ forall q, managed a' q = managed a q) \/
  (alloc (E := E) PhysAddr_new a Size4KiB None = Ok (None, a) /\ forall q, is_free a q = false).
Proof using HL.
  intros Ha. unfold alloc. change (step_of Size4KiB) with 1.
  destruct (scan_nodes_spec PhysAddr_new PhysAddr_new_ok (E := E) a Ha) as [(a1 & n & a2 & p & -> & Hc & Hp & Hf & ->)|[Hno ->]]; [left|by right].
  destruct (upd_page a1 n a2 false p Ha Hc Hp) as [Hwf Hfree]. eexists p, _. split; [done|]. split; [done|]. split; [|split; [exact Hfree|intros q; symmetry; apply managed_replace]].
  unfold is_free. rewrite existsb_app. cbn. by rewrite Hf, orb_true_r.
Qed.

Lemma takes_frames a fs a' :
  alloc_wf a -> takes allocator_frame a fs a' ->
  alloc_wf a' /\ NoDup fs /\ Forall (fun x => is_free a x = true) fs /\
  (forall q, is_free a' q = is_free a q && negb (bool_decide (q ∈ fs))) /\ forall q, managed a' q = managed a q.
Proof using HL.
  intros Ha Ht. induction Ht as [a|a a1 Hal|a f a1 fs a2 Hal Ht IH].
  - split_and!; [done|constructor|done| |done]. intros q. by rewrite andb_true_r.
  - unfold allocator_frame in Hal. destruct (alloc_any (E := MapToError) a Ha) as [(p & a' & Hp & _)|[Hp Hno]]; rewrite Hp in Hal; [done|].
    injection Hal as <-. split_and!; [done|constructor|done| |done]. intros q. by rewrite andb_true_r.
  - unfold allocator_frame in Hal. destruct (alloc_any (E := MapToError) a Ha) as [(p & a' & Hp & Hwf & Hf & Hq & Hm1)|[Hp Hno]]; rewrite Hp in Hal; [|done].
    cbn in Hal. injection Hal as <- <-. destruct (is_free_range a p Ha Hf) as [Hr Hm].
    rewrite frame_containing_ok, page_of_id by done. destruct (IH Hwf) as (Hwf2 & Hnd & Hall & Hq2 & Hm2).
    assert (p ∉ fs) as Hnot.
    { intros Hin. rewrite Forall_forall in Hall. specialize (Hall p Hin). rewrite Hq, decide_True in Hall; done. }
    split_and!; [done|by constructor| | |intros q; by rewrite Hm2].
    + constructor; [done|]. apply Forall_forall. intros x Hx. rewrite Forall_forall in Hall. specialize (Hall x Hx).
      rewrite Hq in Hall. by destruct (decide (x = p)).
    + intros q. rewrite Hq2, Hq. destruct (decide (q = p)) as [->|Hne].
      * rewrite (bool_decide_eq_true_2 (p ∈ p :: fs)) by left. by rewrite andb_false_r.
      * do 2 f_equal. apply bool_decide_ext. rewrite elem_of_cons. naive_solver.
Qed.

(** The allocator can give the missing tables of a path that is in use. *)
Lemma allocator_supplies a m used :
  alloc_wf a -> NoDup used -> (forall p, is_free a p = true -> is_table_frame m p) ->
  (forall t, t ∈ used -> is_free a t = false) -> supplies allocator_frame a m used.
Proof using HL.
  intros Ha Hnd Hb Hu fs a' Ht. destruct (takes_frames a fs a' Ha Ht) as (Ha' & Hnd' & Hall & _). rewrite Forall_forall in Hall.
  split_and!.
  - apply NoDup_app. split_and!; [done| |done]. intros x Hx Hf. specialize (Hu x Hx). rewrite (Hall x Hf) in Hu. done.
  - apply Forall_forall. intros x Hx. destruct (is_free_range a x Ha (Hall x Hx)). split; [by apply Hb, Hall|done].
  - unfold allocator_frame. destruct (alloc_any (E := MapToError) a' Ha') as [(p & a1 & -> & _)|[-> _]]; cbn; eauto.
Qed.

(** At most four frames are left: one to map, and three tables. *)
Definition few (s : Mem) : Prop := exists l, (length l <= 4)%nat /\ forall q, free s q = true -> q ∈ l.
(** At most four frames have been taken. *)
Definition spent (s s' : Mem) : Prop :=
  exists l, (length l <= 4)%nat /\ forall q, free s' q = free s q && negb (bool_decide (q ∈ l)).
(** What [alloc_and_map] for an arbitrary frame returns and does. *)
Definition mapped_new (s : Mem) (path : list nat) (flags : Z) (r : outcome MapErr Z) (s' : Mem) : Prop :=
  match r with
  | Ok p => free s p = true /\ exists fs,
      NoDup (p :: fs) /\ Forall (fun x => free s x = true) fs /\
      (forall q, free s' q = free s q && negb (bool_decide (q ∈ p :: fs))) /\
      (forall q, manages s' q = manages s q) /\ map_effect (ram s) (cr3_reg s) path fs (ram s') /\
      exists e, walk (ram s') (cr3_reg s) path = Some (O, e) /\ pte_addr e = p /\ pte_flags e = flags
  | Err e => e = OutOfMemory /\ (forall q, free s' q = false) /\ few s /\
      exists fs, Forall (fun x => free s x = true) fs /\ map_effect (ram s) (cr3_reg s) path fs (ram s')
  | Panic => False
  end.

Lemma table_flags_ok flags : is_flags (table_flags flags) /\ contains (table_flags flags) PRESENT = true /\
  contains (table_flags flags) HUGE_PAGE = false.
Proof using. unfold table_flags. by destruct (contains flags USER_ACCESSIBLE). Qed.

Lemma map_effect_frames m t path fs m' x :
  map_effect m t path fs m' -> Forall (fun i => i < 512)%nat path -> (length (visited m t path) + length fs <= length path)%nat ->
  is_table_frame m x -> is_table_frame m' x.
Proof using.
  intros Heff Hp Hlen (ws & Hx & Hl). destruct (decide (x ∈ fs)) as [Hin|Hn1].
  - apply list_elem_of_lookup in Hin as [k Hk]. pose proof (lookup_lt_Some _ _ _ Hk).
    destruct (lookup_lt_is_Some_2 path (length (visited m t path) + k)) as [i Hi]; [lia|].
    destruct (me_new _ _ _ _ _ Heff k x i Hk Hi) as [e He]. eexists. split; [exact He|]. by rewrite length_insert, length_replicate.
  - destruct (decide (x ∈ visited m t path)) as [Hin|Hn2].
    + apply list_elem_of_lookup in Hin as [k Hk]. pose proof (lookup_lt_Some _ _ _ Hk).
      destruct (lookup_lt_is_Some_2 path k) as [i Hi]; [lia|]. destruct (me_old _ _ _ _ _ Heff k x i Hk Hi) as (w & e & H1 & H2).
      eexists. split; [exact H2|]. rewrite length_insert. congruence.
    + exists ws. by rewrite (me_frame _ _ _ _ _ Heff).
Qed.
Lemma visited_length m t path : (length (visited m t path) <= length path)%nat.
Proof using.
  revert t. induction path as [|i path IH]; intros t; [done|]. destruct (entry_of m t i) as [e|] eqn:He.
  - destruct (links e) eqn:Hl; [|rewrite visited_stop by (intros ? Hx; congruence); cbn; lia].
    destruct (decide (path = [])) as [->|Hne]; [done|]. rewrite (visited_link _ _ _ _ e) by done. cbn. specialize (IH (pte_addr e)). lia.
  - rewrite visited_stop by (intros ? Hx; congruence). cbn. lia.
Qed.
Lemma visited_some m t path : path <> [] -> (0 < length (visited m t path))%nat.
Proof using. destruct path as [|i path]; [done|]. intros _. cbn. lia. Qed.
Lemma map_effect_length m t path fs m' : map_effect m t path fs m' -> (length (visited m t path) + length fs <= length path)%nat.
Proof using. intros Heff. rewrite <-length_app, <-(me_visited _ _ _ _ _ Heff). apply visited_length. Qed.

Lemma allocate_frame_arbitrary s a virt r a' :
  ALLOCATOR s = Some a -> alloc (E := MapErr) PhysAddr_new a Size4KiB None = Ok (r, a') ->
  allocate_frame virt Arbitrary s =
    (match r with Some p => Ok (p, Size4KiB) | None => Err OutOfMemory end, with_alloc s (Some a')).
Proof using.
  intros Ha Hr. unfold allocate_frame, take_page, mbind, st_bind, st_get, st_lift, st_put, mret, st_ret. rewrite Ha. cbn [unwrap]. rewrite Hr. by destruct r.
Qed.
(** What [map_page] makes of the mapper's answer. *)
Lemma map_page_4k s a virt p flags r m' a' :
  ALLOCATOR s = Some a ->
  map_to_with_table_flags allocator_frame (cr3_reg s) (page_containing virt) (frame_containing p) flags (table_flags flags)
    (ram s, a) = (r, (m', a')) ->
  map_page virt (p, Size4KiB) flags s =
    (match r with
     | Ok _ | Err ParentEntryHugePage | Err (PageAlreadyMapped _) => Ok tt
     | Err FrameAllocationFailed => Err OutOfMemory
     | Panic => Panic
     end, with_alloc (with_ram s m') (Some a')).
Proof using.
  intros Ha Hr. unfold map_page, attempt, on_mapper, mbind, st_bind. cbn [fst snd]. rewrite Ha, Hr.
  destruct r as [[]|[| |]|]; done.
Qed.

(** The two ways through [alloc_and_map]: there is no frame, or the mapper has its say. *)
Lemma alloc_and_map_run s virt flags :
  mem_ok s -> 0 <= virt < 2 ^ 64 -> virt mod PAGE_4K = 0 -> is_flags flags -> contains flags PRESENT = true ->
  ready (ram s) (cr3_reg s) (indices virt) ->
  (forall t, t ∈ visited (ram s) (cr3_reg s) (indices virt) -> free s t = false) ->
  (exists s', alloc_and_map virt Arbitrary flags s = (Err OutOfMemory, s') /\ same_regs s s' /\ mem_ok s' /\ ram s' = ram s /\
     (forall q, free s' q = false) /\ forall q, free s q = false) \/
  exists p (r : outcome MapToError unit) fs s', alloc_and_map virt Arbitrary flags s =
      (match r with Ok _ | Err ParentEntryHugePage | Err (PageAlreadyMapped _) => Ok p | Err FrameAllocationFailed => Err OutOfMemory | Panic => Panic end, s') /\
    same_regs s s' /\ mem_ok s' /\ free s p = true /\ NoDup (p :: fs) /\ Forall (fun x => free s x = true) fs /\
    (forall q, free s' q = free s q && negb (bool_decide (q ∈ p :: fs))) /\ (forall q, manages s' q = manages s q) /\
    map_effect (ram s) (cr3_reg s) (indices virt) fs (ram s') /\
    match r with
    | Ok _ => walk (ram s) (cr3_reg s) (indices virt) = None /\
        exists e, walk (ram s') (cr3_reg s) (indices virt) = Some (O, e) /\ pte_addr e = p /\ pte_flags e = flags
    | Err FrameAllocationFailed => forall q, free s' q = false
    | Err ParentEntryHugePage => exists k e, walk (ram s) (cr3_reg s) (indices virt) = Some (S k, e)
    | Err (PageAlreadyMapped _) => exists e, walk (ram s) (cr3_reg s) (indices virt) = Some (O, e) /\ walk (ram s') (cr3_reg s) (indices virt) = Some (O, e)
    | Panic => False
    end.
Proof using HL.
  intros (a & Ha & Hwf & Hback) Hv Hal Hfl Hpr Hready Hvis. unfold free in Hvis. rewrite Ha in Hvis.
  unfold alloc_and_map. rewrite (st_bind_eq initialized _ s a s) by (unfold initialized, mbind, st_bind, st_get, st_lift; by rewrite Ha).
  cbn [andb]. destruct (alloc_any (E := MapErr) a Hwf) as [(p & a1 & Hp & Hwf1 & Hpf & Hq1 & Hm1)|[Hp Hno]].
  2:{ left. pose proof (allocate_frame_arbitrary s a virt _ _ Ha Hp) as Hfr. exists (with_alloc s (Some a)).
      split; [unfold mbind, st_bind; by rewrite Hfr|]. split_and!; [done..|by exists a|done|exact Hno|]. unfold free. by rewrite Ha. }
  right. pose proof (allocate_frame_arbitrary s a virt _ _ Ha Hp) as Hfr. cbn in Hfr.
  destruct (is_free_range a p Hwf Hpf) as [Hpr' Hpm].
  assert (forall q, is_free a1 q = true -> is_free a q = true /\ q <> p) as Hsub1 by (intros q Hq; rewrite Hq1 in Hq; by destruct (decide (q = p))).
  destruct (table_flags_ok flags) as (Ht1 & Ht2 & Ht3).
  destruct (map_to_ok allocator_frame (ram s) a1 (cr3_reg s) virt p flags (table_flags flags))
    as (r & fs & m' & a' & Hrun & Htk & Heff & Hres); try done.
  { apply allocator_supplies; [done|by destruct Hready| |].
    - intros q [Hq _]%Hsub1. by apply Hback.
    - intros t Ht. specialize (Hvis t Ht). destruct (is_free a1 t) eqn:Ht'; [|done]. apply Hsub1 in Ht' as [Ht' _]. by rewrite Ht' in Hvis. }
  destruct (takes_frames a1 fs a' Hwf1 Htk) as (Hwf' & Hnd & Hall & Hq2 & Hm2).
  rewrite (st_bind_eq _ _ _ _ _ Hfr).
  pose proof (map_page_4k (with_alloc s (Some a1)) a1 virt p flags r m' a' eq_refl) as Hmp. cbn [cr3_reg ram with_alloc] in Hmp.
  rewrite page_containing_ok, frame_containing_ok, !page_of_id in Hmp by done. specialize (Hmp Hrun).
  assert (Forall (fun x => is_free a x = true /\ x <> p) fs) as Hall'.
  { eapply Forall_impl; [exact Hall|]. intros x Hx. by apply Hsub1. }
  exists p, r, fs, (with_alloc (with_ram (with_alloc s (Some a1)) m') (Some a')). unfold free, manages. rewrite Ha. cbn [ALLOCATOR with_alloc with_ram ram cr3_reg]. split_and!.
  - unfold mbind, st_bind. rewrite Hmp. by destruct r as [[]|[| |fr]|].
  - done.
  - exists a'. split_and!; [done|done|]. intros q Hq. rewrite Hq2 in Hq. apply andb_true_iff in Hq as [[Hq _]%Hsub1 _].
    destruct (Hback q Hq) as [Hqt Hqr]. split; [|done]. cbn. eapply map_effect_frames; try done; [|by eapply map_effect_length].
    by destruct Hready as (_ & _ & ? & _).
  - done.
  - constructor; [|done]. intros Hin. rewrite Forall_forall in Hall'. by destruct (Hall' p Hin).
  - eapply Forall_impl; [exact Hall'|]. by intros x [? _].
  - intros q. rewrite Hq2, Hq1. destruct (decide (q = p)) as [->|Hne].
    + rewrite (bool_decide_eq_true_2 (p ∈ p :: fs)) by left. by rewrite andb_false_r.
    + do 2 f_equal. apply bool_decide_ext. rewrite elem_of_cons. naive_solver.
  - intros q. by rewrite Hm2.
  - exact Heff.
  - destruct r as [[]|[| |fr]|]; try done. destruct Hres as (a0 & Htk0 & Hnone).
    destruct (takes_frames a1 fs a0 Hwf1 Htk0) as (Hwf0 & _ & _ & Hq0 & _). unfold allocator_frame in Hnone.
    destruct (alloc_any (E := MapToError) a0 Hwf0) as [(p0 & a2 & Hp0 & _)|[Hp0 Hno]]; rewrite Hp0 in Hnone; [done|]. by injection Hnone as <-.
Qed.
Lemma few_taken s s' p fs m' : map_effect (ram s) (cr3_reg s) (indices p) fs m' -> forall x,
  (forall q, free s' q = free s q && negb (bool_decide (q ∈ x :: fs))) -> (forall q, free s' q = false) -> few s.
Proof using.
  intros Heff x Hq Hno. exists (x :: fs). pose proof (map_effect_length _ _ _ _ _ Heff) as Hlen. pose proof (visited_some (ram s) (cr3_reg s) (indices p)) as Hvs.
  change (length (indices p)) with 4%nat in Hlen. split; [specialize (Hvs ltac:(done)); cbn [length]; lia|]. intros q Hf.
  specialize (Hq q). rewrite Hno, Hf in Hq. by apply eq_sym, negb_false_iff, bool_decide_eq_true in Hq.
Qed.
Lemma spent_new s s' path flags p : mapped_new s path flags (Ok p) s' -> length path = 4%nat -> spent s s'.
Proof using.
  intros (_ & fs & _ & _ & Hq & _ & Heff & _) Hl. exists (p :: fs). split; [|done]. pose proof (map_effect_length _ _ _ _ _ Heff) as Hlen.
  pose proof (visited_some (ram s) (cr3_reg s) path ltac:(by intros ->)). cbn [length]. lia.
Qed.
Lemma few_none s : (forall q, free s q = false) -> few s.
Proof using. intros Hno. exists []. split; [cbn; lia|]. intros q Hq. by rewrite Hno in Hq. Qed.

Lemma alloc_and_map_ok s virt flags :
  mem_ok s -> 0 <= virt < 2 ^ 64 -> virt mod PAGE_4K = 0 -> is_flags flags -> contains flags PRESENT = true ->
  ready (ram s) (cr3_reg s) (indices virt) -> walk (ram s) (cr3_reg s) (indices virt) = None ->
  (forall t, t ∈ visited (ram s) (cr3_reg s) (indices virt) -> free s t = false) ->
  exists r s', alloc_and_map virt Arbitrary flags s = (r, s') /\ same_regs s s' /\ mem_ok s' /\
    mapped_new s (indices virt) flags r s'.
Proof using HL.
  intros Hm Hv Hal Hfl Hpr Hready Hwalk Hvis.
  destruct (alloc_and_map_run s virt flags) as [(s' & Hrun & Hregs & Hm' & Hram & Hno & Hno0)|(p & r & fs & s' & Hrun & Hregs & Hm' & Hpf & Hnd & Hfs & Hq & Hman & Heff & Hres)]; try done.
  - exists (Err OutOfMemory), s'. split_and!; [done..|]. split_and!; [done|done|by apply few_none|]. exists []. split; [done|]. rewrite Hram. by apply map_effect_refl.
  - eexists _, s'. split; [exact Hrun|]. split_and!; [done..|]. destruct r as [[]|[| |fr]|]; cbn.
    + destruct Hres as [_ Hres]. split; [done|]. exists fs. by split_and!.
    + split_and!; [done|done|by eapply few_taken|]. by exists fs.
    + destruct Hres as (k & e & He). by rewrite Hwalk in He.
    + destruct Hres as (e & He & _). by rewrite Hwalk in He.
    + done.
Qed.
(** A page that is mapped already: the frame is taken all the same, and the mapping stays. *)
Lemma alloc_and_map_again s virt flags e :
  mem_ok s -> 0 <= virt < 2 ^ 64 -> virt mod PAGE_4K = 0 -> is_flags flags -> contains flags PRESENT = true ->
  ready (ram s) (cr3_reg s) (indices virt) -> walk (ram s) (cr3_reg s) (indices virt) = Some (O, e) ->
  (forall t, t ∈ visited (ram s) (cr3_reg s) (indices virt) -> free s t = false) -> ~ few s ->
  exists p s', alloc_and_map virt Arbitrary flags s = (Ok p, s') /\ same_regs s s' /\ mem_ok s' /\ free s p = true /\
    (forall q, free s' q = free s q && negb (bool_decide (q ∈ [p]))) /\
    map_effect (ram s) (cr3_reg s) (indices virt) [] (ram s') /\
    walk (ram s') (cr3_reg s) (indices virt) = Some (O, e).
Proof using HL.
  intros Hm Hv Hal Hfl Hpr Hready Hwalk Hvis Hfew.
  destruct (alloc_and_map_run s virt flags) as [(s' & _ & _ & _ & _ & _ & Hno0)|(p & r & fs & s' & Hrun & Hregs & Hm' & Hpf & Hnd & Hfs & Hq & Hman & Heff & Hres)]; try done.
  { by destruct Hfew; apply few_none. }
  assert (fs = []) as ->.
  { pose proof (map_effect_length _ _ _ _ _ Heff) as Hlen. rewrite (walk_all_visited _ _ _ _ Hwalk) in Hlen. destruct fs; [done|cbn in Hlen; lia]. }
  exists p, s'. destruct r as [[]|[| |fr]|].
  - destruct Hres as [Hn _]. by rewrite Hwalk in Hn.
  - by destruct Hfew; eapply few_taken.
  - destruct Hres as (k & d & Hd). by rewrite Hwalk in Hd.
  - destruct Hres as (d & Hd & Hd'). rewrite Hwalk in Hd. injection Hd as <-. by split_and!.
  - done.
Qed.

Lemma table_frame_put m t ws i e x :
  m !! t = Some ws -> is_table_frame m x -> is_table_frame (<[t := <[i := e]> ws]> m) x.
Proof using.
  intros Ht (w & Hx & Hl). destruct (decide (x = t)) as [->|Hne].
  - eexists. rewrite lookup_insert_eq. split; [done|]. rewrite length_insert. congruence.
  - exists w. by rewrite lookup_insert_ne.
Qed.
Lemma mem_ok_put s t ws i e : ram s !! t = Some ws -> mem_ok s -> mem_ok (with_ram s (<[t := <[i := e]> ws]> (ram s))).
Proof using.
  intros Ht (a & Ha & Hwf & Hb). exists a. split_and!; [done|done|]. intros q Hq. destruct (Hb q Hq). split; [|done].
  by apply table_frame_put.
Qed.
Lemma mem_ok_back s x : mem_ok s -> free s x = true -> is_table_frame (ram s) x /\ x < 2 ^ 47.
Proof using. intros (a & Ha & _ & Hb). unfold free. rewrite Ha. apply Hb. Qed.

(** Writing the entry of the last table on the way. *)
Lemma put_last m t path tl ws i e :
  NoDup (visited m t path) -> length (visited m t path) = length path -> last (visited m t path) = Some tl ->
  last path = Some i -> m !! tl = Some ws -> (i < length ws)%nat ->
  let m' := <[tl := <[i := e]> ws]> m in
  visited m' t path = visited m t path /\ walk m' t path = if present e then Some (O, e) else None.
Proof using.
  intros Hnd Hlen Hlast Hi Hws Hil m'. revert t Hnd Hlen Hlast. induction path as [|j path IH]; intros t Hnd Hlen Hlast; [done|].
  destruct path as [|k path].
  - injection Hi as <-. injection Hlast as <-. assert (entry_of m' t j = Some e) as He.
    { unfold entry_of, m'. rewrite lookup_insert_eq. by apply list_lookup_insert_eq. }
    split; [done|]. destruct (present e) eqn:Hp; [by apply walk_leaf|by apply (walk_absent _ _ _ _ e)].
  - destruct (entry_of m t j) as [d|] eqn:Hd; [|rewrite visited_stop in Hlen by (intros ? Hx; congruence); done].
    destruct (links d) eqn:Hl; [|rewrite visited_stop in Hlen by (intros ? Hx; congruence); done].
    rewrite (visited_link _ _ _ _ d) in Hnd, Hlen, Hlast by done. apply NoDup_cons in Hnd as [Hnot Hnd].
    assert (last (visited m (pte_addr d) (k :: path)) = Some tl) as Hlast' by (by destruct (visited m (pte_addr d) (k :: path))).
    assert (tl <> t) as Hne.
    { intros ->. apply Hnot. rewrite last_lookup in Hlast'. by eapply list_elem_of_lookup_2. }
    assert (entry_of m' t j = Some d) as Hd' by (unfold entry_of, m'; by rewrite lookup_insert_ne).
    destruct (IH Hi (pte_addr d)) as [Hv Hw]; [done|cbn [length] in *; lia|done|].
    rewrite (visited_link m' t j (k :: path) d), (walk_link m' t j (k :: path) d), Hv, (visited_link m t j (k :: path) d) by done. done.
Qed.
(** Unmapping a page clears its entry and nothing else. *)
Lemma unmap_page_ok s virt e :
  0 <= virt < 2 ^ 64 -> virt mod PAGE_4K = 0 -> ready (ram s) (cr3_reg s) (indices virt) ->
  walk (ram s) (cr3_reg s) (indices virt) = Some (O, e) ->
  exists t ws, visited (ram s) (cr3_reg s) (indices virt) !! 3%nat = Some t /\ ram s !! t = Some ws /\
    let m' := <[t := <[table_index 1 virt := 0]> ws]> (ram s) in
    unmap_page virt s = (Ok (pte_addr e), with_ram s m') /\
    visited m' (cr3_reg s) (indices virt) = visited (ram s) (cr3_reg s) (indices virt) /\
    walk m' (cr3_reg s) (indices virt) = None.
Proof using HL.
  intros Hv Hal Hready Hw. pose proof Hready as (Hnd & Hts & Hlt & _). pose proof (walk_all_visited _ _ _ _ Hw) as Hlen.
  destruct (lookup_lt_is_Some_2 (visited (ram s) (cr3_reg s) (indices virt)) 3) as [t Ht]; [rewrite Hlen; cbn; lia|].
  destruct (Forall_lookup_1 _ _ _ _ Hts Ht) as (ws & Hws & Hl). exists t, ws. split_and!; [done..|]. intros m'.
  split; [unfold unmap_page; by rewrite page_containing_ok, page_of_id, (unmap_ok _ _ _ e t ws)|].
  destruct (put_last (ram s) (cr3_reg s) (indices virt) t ws (table_index 1 virt) 0) as [Hvis Hwk]; try done.
  - by rewrite last_lookup, Hlen.
  - rewrite Hl. by apply (Forall_lookup_1 _ _ 3%nat _ Hlt).
  - fold m' in Hvis, Hwk. split; [done|]. rewrite Hwk. unfold present. by rewrite pte_zero.
Qed.

(** The entries on the way to a mapped page are present. *)
Lemma walk_present m t path e k x i d :
  walk m t path = Some (O, e) -> visited m t path !! k = Some x -> path !! k = Some i -> entry_of m x i = Some d ->
  present d = true.
Proof using.
  revert t k. induction path as [|j path IH]; intros t k Hw Hk Hi Hd; [done|].
  destruct (entry_of m t j) as [d'|] eqn:Hd'; [|by cbn [walk] in Hw; rewrite Hd' in Hw].
  destruct (present d') eqn:Hp; [|by rewrite (walk_absent m t j path d') in Hw].
  destruct k as [|k]; [cbn in Hk, Hi; congruence|].
  destruct (decide (path = [])) as [->|Hne]; [done|]. destruct (links d') eqn:Hlk.
  - rewrite (walk_link m t j path d') in Hw by done. rewrite (visited_link m t j path d') in Hk by done. by apply (IH (pte_addr d') k).
  - rewrite (walk_huge m t j path d') in Hw by done. by destruct path.
Qed.
Lemma ready_mapped m t path fs m' e :
  ready m t path -> Forall (is_table_frame m) fs -> NoDup (visited m t path ++ fs) -> map_effect m t path fs m' ->
  walk m' t path = Some (O, e) -> ready m' t path.
Proof using.
  intros (Hnd & Hts & Hlt & _) Hfs Hnd' Heff Hw. split_and!; [by rewrite (me_visited _ _ _ _ _ Heff)| |done|].
  - rewrite (me_visited _ _ _ _ _ Heff). apply Forall_forall. intros x Hx. eapply map_effect_frames; [done|done|by eapply map_effect_length|].
    apply elem_of_app in Hx as [Hx|Hx]; [rewrite Forall_forall in Hts; by apply Hts|rewrite Forall_forall in Hfs; by apply Hfs].
  - intros k x i d Hk Hi Hd. right. by eapply walk_present.
Qed.

Lemma dealloc_page_ok s p :
  mem_ok s -> manages s p = true -> p mod PAGE_4K = 0 -> is_table_frame (ram s) p -> p < 2 ^ 47 ->
  exists s', dealloc_page p s = (Ok tt, s') /\ mem_ok s' /\ same_regs s s' /\ ram s' = ram s /\
    (forall q, free s' q = free s q || bool_decide (q = p)) /\ forall q, manages s' q = manages s q.
Proof using HL.
  intros (a & Ha & Hwf & Hback) Hm Hp Ht Hr. unfold manages in Hm. rewrite Ha in Hm.
  destruct (run_op_refines PhysAddr_new PhysAddr_new_ok (Free p) a Hwf) as (r & a' & Hrun & Hwf' & Hman & Hstep).
  unfold run_op in Hrun. unfold dealloc_page. rewrite Ha. cbn [ok_or mbind outcome_bind].
  destruct (dealloc a p Size4KiB) as [a1|e|]; [|injection Hrun as <- <-; cbn in Hstep; destruct Hstep as [Hd _]; by rewrite Hm in Hd|done].
  injection Hrun as <- <-. cbn in Hstep. destruct Hstep as [_ Hq]. rewrite page_of_id in Hq by done.
  assert (forall q, is_free a1 q = is_free a q || bool_decide (q = p)) as Hq'.
  { intros q. rewrite Hq. destruct (decide (q = p)) as [->|Hne]; [rewrite bool_decide_eq_true_2 by done; by rewrite orb_true_r|].
    rewrite bool_decide_eq_false_2 by done. by rewrite orb_false_r. }
  exists (with_alloc s (Some a1)). split; [done|]. split; [|split; [done|split; [done|split]]].
  - exists a1. split_and!; [done|done|]. intros q Hq1. rewrite Hq' in Hq1. apply orb_true_iff in Hq1 as [Hq1| ->%bool_decide_eq_true]; [by apply Hback|done].
  - intros q. unfold free. rewrite Ha. apply Hq'.
  - intros q. unfold manages. rewrite Ha. symmetry. apply Hman.
Qed.
Lemma free_manages s p : free s p = true -> manages s p = true.
Proof using. unfold free, manages. destruct (ALLOCATOR s); [apply free_managed|done]. Qed.

(** The flags [kalloc_page] gives an arbitrary page. *)
Definition KERNEL_PAGE : Z := Z.lor (Z.lor (Z.lor PRESENT WRITABLE) NO_EXECUTE) GLOBAL.

(** C10: [kalloc_page] with [PageType::Arbitrary], at a page-aligned address that is not mapped
    and whose tables are in use, returns; it fails only when the allocator has no page left.
    Otherwise the page was free and is no more, the address leads to it with the kernel's flags,
    and only the tables on the way and pages that were free changed. *)
Theorem kalloc_page_maps s virt :
  mem_ok s -> 0 <= virt < 2 ^ 64 -> virt mod PAGE_4K = 0 ->
  ready (ram s) (cr3_reg s) (indices virt) -> walk (ram s) (cr3_reg s) (indices virt) = None ->
  (forall t, t ∈ visited (ram s) (cr3_reg s) (indices virt) -> free s t = false) ->
  exists r s', kalloc_page virt Arbitrary s = (r, s') /\ same_regs s s' /\ mem_ok s' /\
    mapped_new s (indices virt) KERNEL_PAGE r s' /\
    forall p, r = Ok p -> virt_to_phys (E := MapErr) virt s' = (Ok (Some p), s').
Proof using HL.
  intros Hm Hv Hal Hr Hw Hu. destruct (alloc_and_map_ok s virt KERNEL_PAGE) as (r & s' & Hrun & Hregs & Hm' & Hnew); try done.
  exists r, s'. split_and!; try done. intros p ->. destruct Hnew as (_ & fs & _ & _ & _ & _ & _ & e & He & Hea & _).
  unfold virt_to_phys, mbind, st_bind, st_get, mret, st_ret. destruct Hregs as (-> & _).
  by rewrite (translate_mapped _ _ _ e He), Hea, Hal, Z.add_0_r.
Qed.

(** C11: [kfree_page] after [kalloc_page], both with [PageType::Arbitrary] and at a page-aligned
    address that was not mapped, returns, unmaps the address and gives the page back to the
    allocator; only the tables made for the mapping stay taken. *)
Theorem kalloc_kfree s virt p s1 :
  mem_ok s -> 0 <= virt < 2 ^ 64 -> virt mod PAGE_4K = 0 ->
  ready (ram s) (cr3_reg s) (indices virt) -> walk (ram s) (cr3_reg s) (indices virt) = None ->
  (forall t, t ∈ visited (ram s) (cr3_reg s) (indices virt) -> free s t = false) ->
  kalloc_page virt Arbitrary s = (Ok p, s1) ->
  exists s2, kfree_page virt Arbitrary s1 = (Ok tt, s2) /\ mem_ok s2 /\
    walk (ram s2) (cr3_reg s2) (indices virt) = None /\
    exists fs, visited (ram s2) (cr3_reg s2) (indices virt) = visited (ram s) (cr3_reg s) (indices virt) ++ fs /\
      forall q, free s2 q = free s q && negb (bool_decide (q ∈ fs)).
Proof using HL.
  intros Hm Hv Hal Hr Hw Hu Hk. destruct (alloc_and_map_ok s virt KERNEL_PAGE) as (r & s1' & Hrun & Hregs & Hm1 & Hnew); try done.
  change (kalloc_page virt Arbitrary s = (r, s1')) in Hrun. rewrite Hk in Hrun. injection Hrun as <- <-.
  destruct Hnew as (Hpf & fs & [Hpfs Hnd]%NoDup_cons & Hfs & Hq & Hman & Heff & e & He & Hea & _). destruct Hregs as (Hcr & _).
  pose proof (fun x => mem_ok_back s x Hm) as Hback.
  assert (NoDup (visited (ram s) (cr3_reg s) (indices virt) ++ fs)) as Hnd'.
  { apply NoDup_app. split_and!; [by destruct Hr| |done]. intros x Hx Hf. rewrite Forall_forall in Hfs. specialize (Hu x Hx).
    by rewrite (Hfs x Hf) in Hu. }
  assert (ready (ram s1) (cr3_reg s1) (indices virt)) as Hr1.
  { rewrite Hcr. apply (ready_mapped (ram s) _ _ fs _ e); try done. eapply Forall_impl; [exact Hfs|]. intros x Hx. by apply Hback. }
  destruct (unmap_page_ok s1 virt e) as (t & ws & Ht & Hws & Hun & Hvis & Hwalk); [done..|by rewrite Hcr|].
  set (m' := <[t := _]> (ram s1)) in *.
  assert (is_table_frame (ram s1) p) as Hpt.
  { eapply map_effect_frames; [exact Heff| |by eapply map_effect_length|by apply Hback]. by destruct Hr as (_ & _ & ? & _). }
  destruct (dealloc_page_ok (with_ram s1 m') p) as (s2 & Hde & Hm2 & (Hcr2 & _) & Hram2 & Hq2 & _).
  - by apply mem_ok_put.
  - change (manages s1 p = true). rewrite Hman. by apply free_manages.
  - rewrite <-Hea. apply pte_addr_ok.
  - by apply table_frame_put.
  - by apply Hback.
  - cbn in Hcr2, Hram2. exists s2. split_and!.
    + unfold kfree_page, initialized, attempt, unmap_outcome, mbind, st_bind, st_get, st_lift, mret, st_ret.
      pose proof Hm1 as (a & Ha & _). rewrite Ha. cbn [ok_or]. rewrite Hcr, (translate_mapped _ _ _ e He). cbn [ok_or].
      rewrite Hun, Hea, Hal, Z.add_0_r, Hde. done.
    + done.
    + by rewrite Hram2, Hcr2.
    + exists fs. rewrite Hram2, Hcr2, Hvis, Hcr. split; [by apply me_visited|]. intros q. rewrite Hq2. change (free (with_ram s1 m') q) with (free s1 q).
      rewrite Hq. destruct (decide (q = p)) as [->|Hne].
      * rewrite (bool_decide_eq_true_2 (p = p)), Hpf, (bool_decide_eq_false_2 (p ∈ fs)) by done. by rewrite orb_true_r.
      * rewrite (bool_decide_eq_false_2 (q = p)), orb_false_r by done. do 2 f_equal. apply bool_decide_ext. rewrite elem_of_cons. naive_solver.
Qed.

(** With no page left, allocating a buffer for a device never ends: every attempt fails and
    calls itself again. *)
Lemma kalloc_dma_exhausted fuel len s :
  mem_ok s -> (forall q, free s q = false) -> 0 < len -> (kalloc_dma_pages fuel len s).1 = Panic.
Proof using HL.
  revert s. induction fuel as [|fuel IH]; intros s Hm Hno Hlen; [done|]. cbn [kalloc_dma_pages].
  rewrite (proj2 (Z.eqb_neq len 0)) by lia. unfold mbind, st_bind at 1, st_lift at 1. destruct (umul _ _ _) as [n|e|] eqn:Hn; [|unfold umul in Hn; by destruct (_ <? _)|done].
  unfold st_bind at 1, st_get at 1, st_put at 1, st_bind at 1, st_bind at 1, st_lift at 1.
  destruct (VirtAddr_new (DMA_BASE s)) as [v|]; cbn [unwrap]; [|done]. unfold st_bind at 1, attempt.
  pose proof Hm as (a & Ha & Hwf & Hb). set (s1 := with_dma s _).
  assert (kalloc_page v Arbitrary s1 = (Err OutOfMemory, with_alloc s1 (Some a))) as ->.
  { unfold kalloc_page, alloc_and_map. rewrite (st_bind_eq initialized _ s1 a s1) by (unfold initialized, mbind, st_bind, st_get, st_lift; cbn; by rewrite Ha).
    cbn [andb]. destruct (alloc_any (E := MapErr) a Hwf) as [(p & a1 & Hp & _ & Hpf & _)|[Hp _]].
    - specialize (Hno p). unfold free in Hno. rewrite Ha, Hpf in Hno. done.
    - unfold mbind, st_bind. by rewrite (allocate_frame_arbitrary s1 a v _ _ Ha Hp). }
  apply IH; [by exists a| |done]. intros q. specialize (Hno q). unfold free in Hno. by rewrite Ha in Hno.
Qed.
End Alloc.
