(* ===== verification/Cow.v ===== *)
(** * Address spaces and copy-on-write (zenos-kernel/src/process/isolation.rs)

    Cloning the address space of a process, the pages the two then share, the copy a write
    makes, and the release of an address space. *)
From S2P Require Import Prelude PageAlloc Paging Mapping.

(** ** Operations *)
Definition COW_FLAG : Z := BIT_9.

(** *** Reference counts *)
Definition refcount_inc {E} (phys : Z) : st Mem E unit :=
  s ← st_get;
  st_put (with_refcounts s
    match PAGE_REFCOUNTS s !! phys with
    | Some count => <[phys := wrap 32 (count + 1)]> (PAGE_REFCOUNTS s)
    | None => <[phys := 2]> (PAGE_REFCOUNTS s)
    end).
Definition refcount_dec {E} (phys : Z) : st Mem E bool :=
  s ← st_get;
  match PAGE_REFCOUNTS s !! phys with
  | Some old =>
      if old =? 1 then _ ← st_put (with_refcounts s (delete phys (PAGE_REFCOUNTS s))); mret true
      else _ ← st_put (with_refcounts s (<[phys := wrap 32 (old - 1)]> (PAGE_REFCOUNTS s))); mret false
  | None => mret false
  end.
Definition refcount_get (s : Mem) (phys : Z) : Z := default 1 (PAGE_REFCOUNTS s !! phys).

Section Ops.
Context `{Paging}.

(** *** New tables and pages *)
Definition get_scratch_addr {E} : st Mem E Z :=
  s ← st_get;
  let offset := SCRATCH_COUNTER s mod 256 in
  _ ← st_put (with_scratch s (wrap 64 (SCRATCH_COUNTER s + 1)));
  o ← st_lift (umul 64 offset PAGE_4K);
  st_lift (uadd 64 (KERNEL_CR3_SCRATCH + 0x100000) o).

(** [kalloc_page] at a scratch address; an error becomes [None] and so does the caller. *)
Definition scratch_page : st Mem unit (Z * Z) :=
  scratch_addr ← get_scratch_addr;
  v ← st_lift (unwrap (VirtAddr_new scratch_addr));
  phys ← st_map_err (fun _ => tt) (kalloc_page v Arbitrary);
  mret (scratch_addr, phys).
Definition leave_scratch (scratch_addr : Z) : st Mem unit unit :=
  v ← st_lift (unwrap (VirtAddr_new scratch_addr));
  _ ← attempt (kleak_page v Arbitrary);
  mret tt.
Definition put_words {E} (phys : Z) (ws : list Z) : st Mem E unit :=
  _ ← words_at phys;
  s ← st_get;
  st_put (with_ram s (<[phys := ws]> (ram s))).

Definition alloc_page_table : st Mem unit Z :=
  '(scratch_addr, phys) ← scratch_page;
  _ ← put_words phys (replicate 512 0);
  _ ← leave_scratch scratch_addr;
  mret phys.
Definition alloc_and_copy_page (src_phys : Z) : st Mem unit Z :=
  '(scratch_addr, dst_phys) ← scratch_page;
  ws ← words_at src_phys;
  _ ← put_words dst_phys ws;
  _ ← leave_scratch scratch_addr;
  mret dst_phys.

(** *** Cloning *)
Definition cow_flags (flags : Z) : Z := Z.lor (Z.ldiff flags WRITABLE) COW_FLAG.

(** One entry of the table; [clone] clones the table below. *)
Definition cow_entry (clone : Z -> st Mem unit Z) (leaf : bool) (src new : Z) (i : nat) : st Mem unit unit :=
  entry ← entry_at src i;
  let flags := pte_flags entry in
  if negb (contains flags PRESENT) then mret tt
  else
    entry_phys ← st_lift (unwrap (PhysAddr_new (pte_addr entry)));
    if contains flags HUGE_PAGE then put_entry new i entry
    else if leaf then
      if contains flags WRITABLE then
        _ ← set_addr src i entry_phys (cow_flags flags);
        _ ← set_addr new i entry_phys (cow_flags flags);
        refcount_inc entry_phys
      else put_entry new i entry
    else
      cloned_table_phys ← clone entry_phys;
      set_addr new i cloned_table_phys flags.
Fixpoint for_each (idx : list nat) (f : nat -> st Mem unit unit) : st Mem unit unit :=
  match idx with
  | [] => mret tt
  | i :: idx => _ ← f i; for_each idx f
  end.
Fixpoint cow_clone_table (level : nat) (src_phys : Z) : st Mem unit Z :=
  new_table_phys ← alloc_page_table;
  _ ← for_each (seq 0 512) (cow_entry
        match level with O => fun _ => st_lift Panic | S level => cow_clone_table level end
        (Nat.eqb level 1) src_phys new_table_phys);
  mret new_table_phys.

Definition copy_kernel_entry (active_l4 new_l4 : Z) (i : nat) : st Mem unit unit :=
  e ← entry_at active_l4 i; put_entry new_l4 i e.
Definition clone_user_entry (active_l4 new_l4 : Z) (i : nat) : st Mem unit unit :=
  entry ← entry_at active_l4 i;
  let flags := pte_flags entry in
  if negb (contains flags PRESENT) then mret tt
  else
    entry_phys ← st_lift (unwrap (PhysAddr_new (pte_addr entry)));
    cloned_l3_phys ← cow_clone_table 3 entry_phys;
    set_addr new_l4 i cloned_l3_phys flags.
Definition clone_address_space : st Mem unit Z :=
  new_l4_phys ← alloc_page_table;
  active_l4 ← active_level_4_table;
  _ ← for_each (seq 256 256) (copy_kernel_entry active_l4 new_l4_phys);
  _ ← for_each (seq 0 256) (clone_user_entry active_l4 new_l4_phys);
  _ ← set_addr new_l4_phys 511 (frame_containing new_l4_phys) (Z.lor PRESENT WRITABLE);
  mret new_l4_phys.

Definition new_user_address_space : st Mem unit Z :=
  new_l4_phys ← alloc_page_table;
  active_l4 ← active_level_4_table;
  _ ← for_each (seq 256 256) (copy_kernel_entry active_l4 new_l4_phys);
  mret new_l4_phys.

(** *** Faults *)
Definition present_entry {E} (table : Z) (i : nat) : st Mem E (option Z) :=
  e ← entry_at table i;
  mret (if contains (pte_flags e) PRESENT then Some e else None).

Definition resolve_cow {E} (p1 : Z) (i : nat) (p1e : Z) : st Mem E bool :=
  let old_phys := pte_addr p1e in
  let new_flags := Z.lor (Z.ldiff (pte_flags p1e) COW_FLAG) WRITABLE in
  s ← st_get;
  if refcount_get s old_phys =? 1 then _ ← set_addr p1 i old_phys new_flags; mret true
  else
    r ← attempt (alloc_and_copy_page old_phys);
    match r with
    | inl _ => mret false
    | inr new_phys =>
        _ ← set_addr p1 i new_phys new_flags;
        _ ← refcount_dec old_phys;
        mret true
    end.
Definition handle_cow_fault {E} (fault_addr : Z) : st Mem E bool :=
  p4 ← active_level_4_table;
  p4e ← present_entry p4 (table_index 4 fault_addr);
  match p4e with None => mret false | Some p4e =>
  p3e ← present_entry (pte_addr p4e) (table_index 3 fault_addr);
  match p3e with None => mret false | Some p3e =>
  p2e ← present_entry (pte_addr p3e) (table_index 2 fault_addr);
  match p2e with None => mret false | Some p2e =>
  p1e ← present_entry (pte_addr p2e) (table_index 1 fault_addr);
  match p1e with None => mret false | Some p1e =>
  if contains (pte_flags p1e) COW_FLAG then resolve_cow (pte_addr p2e) (table_index 1 fault_addr) p1e
  else mret false
  end end end end.

(** *** Release *)
Definition free_phys {E} (phys : Z) : st Mem E unit :=
  _ ← attempt (dealloc_page phys); mret tt.
Definition free_entry {E} (below : Z -> st Mem E unit) (leaf : bool) (table : Z) (i : nat) : st Mem E unit :=
  entry ← entry_at table i;
  let flags := pte_flags entry in
  if negb (contains flags PRESENT) then mret tt
  else if contains flags HUGE_PAGE then mret tt
  else if leaf then
    if contains flags COW_FLAG then
      last ← refcount_dec (pte_addr entry);
      if (last : bool) then free_phys (pte_addr entry) else mret tt
    else free_phys (pte_addr entry)
  else below (pte_addr entry).
Fixpoint free_page_table_recursive (level : nat) (table_phys : Z) : st Mem unit unit :=
  _ ← for_each (seq 0 512) (free_entry
        match level with O => fun _ => st_lift Panic | S level => free_page_table_recursive level end
        (Nat.eqb level 1) table_phys);
  free_phys table_phys.
Definition free_user_entry (l4 : Z) (i : nat) : st Mem unit unit :=
  entry ← entry_at l4 i;
  if negb (contains (pte_flags entry) PRESENT) then mret tt
  else free_page_table_recursive 3 (pte_addr entry).
Definition teardown_address_space (cr3 : Z) : st Mem unit unit :=
  _ ← for_each (seq 0 256) (free_user_entry cr3);
  free_phys cr3.
End Ops.
