(* ===== verification/CowScratch.v ===== *)
(** * Fresh pages for address spaces

    The kernel's tables, the frames they use, and what taking a fresh page through a scratch
    address changes. *)
From S2P Require Import Prelude PageAlloc Paging Mapping Cow.

(** The path of scratch address [k]. *)
Definition scratch_path (k : nat) : list nat := [510; 448; 0; (256 + k)]%nat.
Definition scratch_addr (k : nat) : Z := KERNEL_CR3_SCRATCH + 0x100000 + Z.of_nat k * PAGE_4K.

Section Scratch.
Context `{HP : Paging} {HL : PagingLaws}.

(** The level 4 table has its entry for the kernel, [k3], the scratch addresses are not mapped,
    and the tables that lead to them are in [K]. *)
Record kernel_ok (k3 : Z) (s : Mem) (K : gset Z) : Prop := {
  ko_mem : mem_ok s;
  ko_root : is_table_frame (ram s) (cr3_reg s) /\ free s (cr3_reg s) = false /\ 0 <= cr3_reg s < 2 ^ 47;
  ko_link : exists e, entry_of (ram s) (cr3_reg s) 510 = Some e /\ links e = true /\ pte_addr e = k3;
  ko_ready k : (k < 256)%nat -> ready (ram s) (cr3_reg s) (scratch_path k);
  ko_empty k : (k < 256)%nat -> walk (ram s) (cr3_reg s) (scratch_path k) = None;
  ko_tables k x : x ∈ visited (ram s) (cr3_reg s) (scratch_path k) -> x = cr3_reg s \/ x ∈ K;
  ko_used x : x ∈ K -> free s x = false /\ x <> cr3_reg s;
}.

(** From [s] to [s'] fresh pages may have been taken and the kernel's tables may have grown. *)
Record quiet (k3 : Z) (s : Mem) (K : gset Z) (s' : Mem) (K' : gset Z) : Prop := {
  q_ok : kernel_ok k3 s' K';
  q_cr3 : cr3_reg s' = cr3_reg s;
  q_sub : K ⊆ K';
  q_new x : x ∈ K' -> x ∈ K \/ free s x = true;
  q_free x : free s' x = true -> free s x = true;
  q_man x : manages s' x = manages s x;
  q_frames x : is_table_frame (ram s) x -> is_table_frame (ram s') x;
  q_root j : j <> 510%nat -> entry_of (ram s') (cr3_reg s) j = entry_of (ram s) (cr3_reg s) j;
}.
Lemma quiet_refl k3 s K : kernel_ok k3 s K -> quiet k3 s K s K.
Proof using. intros Hk. split; try done. by left. Qed.
Lemma quiet_trans k3 s K s1 K1 s2 K2 : quiet k3 s K s1 K1 -> quiet k3 s1 K1 s2 K2 -> quiet k3 s K s2 K2.
Proof using.
  intros [H1 H2 H3 H4 H5 Hm H6 H7] [G1 G2 G3 G4 G5 Gm G6 G7]. split.
  - done.
  - congruence.
  - by etrans.
  - intros x [Hx|Hx]%G4; [by apply H4|right; by apply H5].
  - intros x Hx. by apply H5, G5.
  - intros x. by rewrite Gm.
  - intros x Hx. by apply G6, H6.
  - intros j Hj. rewrite H2 in G7. by rewrite G7, H7.
Qed.

(** Frames in use outside [K] that stay in use outside it. *)
Definition held (s : Mem) (K : gset Z) (x : Z) : Prop := free s x = false /\ x ∉ K /\ x <> cr3_reg s.
Lemma quiet_held k3 s K s' K' x : quiet k3 s K s' K' -> held s K x -> held s' K' x.
Proof using.
  intros Hq (Hf & Hk & Hr). split_and!.
  - destruct (free s' x) eqn:Hx; [|done]. by rewrite (q_free _ _ _ _ _ Hq x Hx) in Hf.
  - intros [?|Hx]%(q_new _ _ _ _ _ Hq); [done|]. by rewrite Hf in Hx.
  - by rewrite (q_cr3 _ _ _ _ _ Hq).
Qed.

Lemma fresh_held k3 s K s' K' x : kernel_ok k3 s K -> quiet k3 s K s' K' -> free s x = true -> free s' x = false -> x ∉ K' -> held s' K' x.
Proof using.
  intros Hk Hq Hf Hf' HK. split_and!; [done|done|]. intros ->. destruct (ko_root _ _ _ Hk) as (_ & Hroot & _).
  rewrite (q_cr3 _ _ _ _ _ Hq) in Hf. by rewrite Hroot in Hf.
Qed.

Lemma scratch_indices k : (k < 256)%nat -> indices (scratch_addr k) = scratch_path k.
Proof using HL.
  intros Hk. unfold indices, scratch_path, scratch_addr. cbn [fmap list_fmap].
  change (KERNEL_CR3_SCRATCH + 0x100000) with 0xFFFFFF7000100000. change PAGE_4K with 4096.
  rewrite !table_index_ok by lia. repeat f_equal; cbn; Z.to_euclidean_division_equations; lia.
Qed.
Lemma scratch_range k : (k < 256)%nat -> 0 <= scratch_addr k < 2 ^ 64 /\ scratch_addr k mod PAGE_4K = 0 /\
  VirtAddr_new (scratch_addr k) = Some (scratch_addr k).
Proof using HL.
  intros Hk. unfold scratch_addr. change (KERNEL_CR3_SCRATCH + 0x100000) with (0xFFFFFF7000100 * PAGE_4K).
  rewrite <-Z.mul_add_distr_r, Z.mod_mul by done. unfold PAGE_4K. split; [lia|]. split; [done|]. apply VirtAddr_new_ok. lia.
Qed.

(** Which tables lead to a scratch address does not depend on the address. *)
Lemma visited_scratch m t k k' : visited m t (scratch_path k) = visited m t (scratch_path k').
Proof using.
  unfold scratch_path. cbn [visited]. destruct (entry_of m t 510) as [e|]; [|done]. destruct (links e); [|done].
  destruct (entry_of m (pte_addr e) 448) as [e2|]; [|done]. destruct (links e2); [|done].
  destruct (entry_of m (pte_addr e2) 0) as [e3|]; [|done]. by destruct (links e3).
Qed.

(** The words of a table the kernel can reach. *)
Lemma words_at_ok {E} s x ws : ram s !! x = Some ws -> 0 <= x < 2 ^ 47 -> words_at (E := E) x s = (Ok ws, s).
Proof using HL.
  intros Hx Hr. unfold words_at. change HIGHER_HALF_BASE with (2 ^ 64 - 2 ^ 47). rewrite uadd_eq by lia. cbn [mbind outcome_bind].
  rewrite VirtAddr_new_ok by lia. cbn. by rewrite Hx.
Qed.

(** *** A scratch page *)
Lemma get_scratch_addr_ok {E} s :
  exists k, (k < 256)%nat /\ get_scratch_addr (E := E) s = (Ok (scratch_addr k), with_scratch s (wrap 64 (SCRATCH_COUNTER s + 1))).
Proof using.
  pose proof (Z.mod_pos_bound (SCRATCH_COUNTER s) 256 ltac:(lia)) as Hk. exists (Z.to_nat (SCRATCH_COUNTER s mod 256)). split; [lia|].
  unfold get_scratch_addr, mbind, st_bind, st_get, st_put, st_lift. rewrite umul_eq by (unfold PAGE_4K; lia).
  rewrite uadd_eq by (change (KERNEL_CR3_SCRATCH + 0x100000) with 0xFFFFFF7000100000; unfold PAGE_4K; lia).
  unfold scratch_addr. by rewrite Z2Nat.id by lia.
Qed.

Lemma scratch_page_ok k3 s K :
  kernel_ok k3 s K ->
  exists k r s', (k < 256)%nat /\ mem_ok s' /\ cr3_reg s' = cr3_reg s /\ PAGE_REFCOUNTS s' = PAGE_REFCOUNTS s /\
    mapped_new s (scratch_path k) KERNEL_PAGE r s' /\
    scratch_page s = (match r with Ok p => Ok (scratch_addr k, p) | Err _ => Err tt | Panic => Panic end, s').
Proof using HL.
  intros Hk. destruct (get_scratch_addr_ok (E := unit) s) as (k & Hk256 & Hget). set (s0 := with_scratch s _) in Hget.
  destruct (scratch_range k Hk256) as (Hr & Hal & Hva).
  destruct (alloc_and_map_ok s0 (scratch_addr k) KERNEL_PAGE) as (r & s' & Hrun & (Hcr & Hrc & _) & Hm & Hnew); try done.
  - apply (ko_mem _ _ _ Hk).
  - rewrite scratch_indices by done. by apply (ko_ready _ _ _ Hk).
  - rewrite scratch_indices by done. by apply (ko_empty _ _ _ Hk).
  - rewrite scratch_indices by done. intros t [->|Ht]%(ko_tables _ _ _ Hk); [apply (ko_root _ _ _ Hk)|by apply (ko_used _ _ _ Hk)].
  - rewrite scratch_indices in Hnew by done. exists k, r, s'. split_and!; try done.
    unfold scratch_page. rewrite (st_bind_eq _ _ _ _ _ Hget). rewrite (st_bind_eq _ _ s0 (scratch_addr k) s0) by (unfold st_lift; by rewrite Hva).
    change (kalloc_page (scratch_addr k) Arbitrary s0 = (r, s')) in Hrun. unfold mbind, st_bind, st_map_err. rewrite Hrun. by destruct r.
Qed.

(** *** Tables on the way *)
Lemma visited_next m t i path y : visited m t (i :: path) !! 1%nat = Some y ->
  exists e, entry_of m t i = Some e /\ links e = true /\ pte_addr e = y.
Proof using.
  intros Hv. cbn [visited] in Hv. destruct path as [|j path]; [done|]. destruct (entry_of m t i) as [e|]; [|done].
  destruct (links e) eqn:Hl; [|done]. injection Hv as <-. eauto.
Qed.
Lemma walk_last m t path tl i :
  length (visited m t path) = length path -> last (visited m t path) = Some tl -> last path = Some i ->
  walk m t path = match entry_of m tl i with Some e => if present e then Some (O, e) else None | None => None end.
Proof using.
  revert t. induction path as [|j path IH]; intros t Hlen Hl Hi; [done|]. destruct path as [|k path].
  - injection Hl as <-. injection Hi as <-. cbn. destruct (entry_of m t j) as [e|]; [|done]. by destruct (present e).
  - destruct (entry_of m t j) as [d|] eqn:Hd; [|rewrite visited_stop in Hlen by (intros ? Hx; congruence); done].
    destruct (links d) eqn:Hlk; [|rewrite visited_stop in Hlen by (intros ? Hx; congruence); done].
    rewrite (visited_link _ _ _ _ d) in Hlen, Hl by done. rewrite (walk_link _ _ _ _ d) by done. apply IH; [cbn [length] in *; lia| |done].
    by destruct (visited m (pte_addr d) (k :: path)).
Qed.
Lemma visited_linked m t path k x y i :
  visited m t path !! k = Some x -> visited m t path !! S k = Some y -> path !! k = Some i ->
  exists e, entry_of m x i = Some e /\ links e = true /\ pte_addr e = y.
Proof using.
  revert t k. induction path as [|j path IH]; intros t k Hx Hy Hi; [done|]. destruct k as [|k].
  - cbn in Hx, Hi. injection Hx as <-. injection Hi as <-. by apply visited_next in Hy.
  - destruct (decide (path = [])) as [->|Hne]; [done|].
    destruct (entry_of m t j) as [d|] eqn:Hd; [|rewrite visited_stop in Hx by (intros ? Hz; congruence); done].
    destruct (links d) eqn:Hlk; [|rewrite visited_stop in Hx by (intros ? Hz; congruence); done].
    rewrite (visited_link _ _ _ _ d) in Hx, Hy by done. by apply (IH (pte_addr d) k).
Qed.
Lemma ready_ext m m' t path :
  (forall x, x ∈ visited m t path -> m' !! x = m !! x) -> ready m t path -> ready m' t path.
Proof using.
  intros Hsame (Hnd & Hts & Hlt & Hcl). unfold ready. rewrite (visited_ext m m') by done. split_and!; [done| |done|].
  - apply Forall_forall. intros x Hx. rewrite Forall_forall in Hts. destruct (Hts x Hx) as (w & ? & ?). exists w. by rewrite Hsame.
  - intros k x i e Hk Hi He. apply (Hcl k x i e Hk Hi). unfold entry_of in *. rewrite Hsame in He; [done|]. by eapply list_elem_of_lookup_2.
Qed.
End Scratch.

(** *** Leaving the scratch address *)
Section Left.
Context `{HP : Paging} {HL : PagingLaws}.
Context (k3 : Z) (s : Mem) (K : gset Z) (Hk : kernel_ok k3 s K).
Context (k : nat) (Hk256 : (k < 256)%nat) (p : Z) (fs : list Z) (e : Z) (s1 : Mem) (ws : list Z) (Hws : length ws = 512%nat).
Context (Hm1 : mem_ok s1) (Hcr : cr3_reg s1 = cr3_reg s).
Context (Hpf : free s p = true) (Hnd : NoDup (p :: fs)) (Hfs : Forall (fun x => free s x = true) fs).
Context (Hq : forall q, free s1 q = free s q && negb (bool_decide (q ∈ p :: fs))).
Context (Hman : forall q, manages s1 q = manages s q).
Context (Heff : map_effect (ram s) (cr3_reg s) (scratch_path k) fs (ram s1)).
Context (He : walk (ram s1) (cr3_reg s) (scratch_path k) = Some (O, e)).

Let root := cr3_reg s.
Let V := visited (ram s) root (scratch_path k).
Let m2 := <[p := ws]> (ram s1).

Lemma left_used x : x ∈ V -> free s x = false.
Proof using All. intros [->|Hx]%(ko_tables _ _ _ Hk); [apply (ko_root _ _ _ Hk)|by apply (ko_used _ _ _ Hk)]. Qed.
Lemma left_nodup : NoDup (V ++ fs) /\ p ∉ V ++ fs.
Proof using All.
  pose proof Hnd as [Hp Hnd']%NoDup_cons. pose proof (proj1 (Forall_forall _ _) Hfs) as Hfs'. split.
  - apply NoDup_app. split_and!; [apply (ko_ready _ _ _ Hk k Hk256)| |done]. intros x Hx Hx'. specialize (Hfs' x Hx'). cbn in Hfs'. by rewrite left_used in Hfs'.
  - rewrite elem_of_app. intros [Hx|Hx]; [|done]. pose proof (left_used p Hx). congruence.
Qed.
Lemma left_visited : visited m2 root (scratch_path k) = V ++ fs /\ walk m2 root (scratch_path k) = Some (O, e) /\
  ready m2 root (scratch_path k) /\ length (V ++ fs) = 4%nat.
Proof using All.
  destruct left_nodup as [Hn Hp]. pose proof (me_visited _ _ _ _ _ Heff) as Hv. fold root V in Hv.
  assert (forall x, x ∈ visited (ram s1) root (scratch_path k) -> m2 !! x = ram s1 !! x) as Hsame.
  { intros x Hx. rewrite Hv in Hx. apply lookup_insert_ne. congruence. }
  split_and!.
  - by rewrite (visited_ext (ram s1)).
  - by rewrite (walk_ext (ram s1)).
  - apply (ready_ext (ram s1)); [done|]. apply (ready_mapped (ram s) _ _ fs _ e); try done; [by apply (ko_ready _ _ _ Hk)|].
    eapply Forall_impl; [exact Hfs|]. intros x Hx. by apply (mem_ok_back s x (ko_mem _ _ _ Hk)).
  - rewrite <-Hv. exact (walk_all_visited _ _ _ e He).
Qed.
(** The table that holds the scratch entries. *)
Lemma left_last : exists t wt, (V ++ fs) !! 3%nat = Some t /\ m2 !! t = Some wt /\ length wt = 512%nat /\ t <> p /\ t <> root.
Proof using All.
  destruct left_visited as (Hv & _ & (_ & Hts & _) & Hlen), left_nodup as [Hn Hp]. rewrite Hv in Hts.
  destruct (lookup_lt_is_Some_2 (V ++ fs) 3) as [t Ht]; [lia|]. destruct (Forall_lookup_1 _ _ _ _ Hts Ht) as (wt & Hwt & Hl).
  exists t, wt. split_and!; try done.
  - intros ->. apply Hp. by eapply list_elem_of_lookup_2.
  - intros ->. assert ((V ++ fs) !! 0%nat = Some root) as H0.
    { rewrite <-Hv. reflexivity. }
    by pose proof (NoDup_lookup _ _ _ _ Hn H0 Ht).
Qed.
(** The scratch entry of another address: it is empty. *)
Lemma left_entry t k' d : (k' < 256)%nat -> k' <> k -> (V ++ fs) !! 3%nat = Some t ->
  entry_of m2 t (256 + k') = Some d -> clean d /\ present d = false.
Proof using All.
  intros Hk' Hne Ht Hd. destruct left_nodup as [Hn Hp].
  assert (t <> p) as Htp by (intros ->; apply Hp; by eapply list_elem_of_lookup_2).
  unfold entry_of, m2 in Hd. rewrite lookup_insert_ne in Hd by done. fold (entry_of (ram s1) t (256 + k')) in Hd.
  apply lookup_app_Some in Ht as [Ht|[Hle Ht]].
  - assert (length V = 4%nat) as HV4.
    { apply lookup_lt_Some in Ht. pose proof (visited_length (ram s) root (scratch_path k)) as Hl. fold V in Hl.
      change (length (scratch_path k)) with 4%nat in Hl. lia. }
    destruct (me_old _ _ _ _ _ Heff 3 t (256 + k) Ht eq_refl) as (w & d' & Hw & Hw').
    unfold entry_of in Hd. rewrite Hw' in Hd. cbn [mbind option_bind] in Hd. rewrite list_lookup_insert_ne in Hd by lia.
    assert (entry_of (ram s) t (256 + k') = Some d) as Hd0 by (unfold entry_of; by rewrite Hw).
    pose proof (ko_ready _ _ _ Hk k' Hk') as (_ & _ & _ & Hcl). pose proof (ko_empty _ _ _ Hk k' Hk') as Hw0. fold root in Hcl, Hw0.
    rewrite (visited_scratch _ _ k' k) in Hcl. split; [by apply (Hcl 3%nat t (256 + k')%nat)|].
    destruct (present d) eqn:Hp'; [|done]. exfalso. rewrite (walk_last _ _ _ t (256 + k')) in Hw0; [|..|done].
    + by rewrite Hd0, Hp' in Hw0.
    + by rewrite (visited_scratch _ _ k' k).
    + rewrite (visited_scratch _ _ k' k), last_lookup. fold V. by rewrite HV4.
  - destruct (me_new _ _ _ _ _ Heff (3 - length V) t (256 + k)) as [d' Hw']; [done|by fold root V; replace (length V + _)%nat with 3%nat by lia|].
    unfold entry_of in Hd. rewrite Hw' in Hd. cbn [mbind option_bind] in Hd. rewrite list_lookup_insert_ne in Hd by lia.
    apply lookup_replicate in Hd as [-> _]. split; [left; by apply pte_unused_ok|]. unfold present. by rewrite pte_zero.
Qed.

Let K' := K ∪ list_to_set fs.
(** The memory once the scratch entry is cleared. *)
Let m3 t wt := <[t := <[(256 + k)%nat := 0]> wt]> m2.

Lemma left_m3 t wt : (V ++ fs) !! 3%nat = Some t -> m2 !! t = Some wt -> length wt = 512%nat ->
  visited (m3 t wt) root (scratch_path k) = V ++ fs /\
  forall k' d, (k' < 256)%nat -> entry_of (m3 t wt) t (256 + k') = Some d -> clean d /\ present d = false.
Proof using All.
  intros Ht Hwt Hl. destruct left_visited as (Hv & Hw & (Hnd2 & _) & Hlen). split.
  - rewrite <-Hv. apply (put_last m2 root (scratch_path k) t wt (256 + k) 0); try done.
    + by rewrite Hv.
    + by rewrite Hv, last_lookup, Hlen.
    + rewrite Hl. lia.
  - intros k' d Hk' Hd. destruct (decide (k' = k)) as [->|Hne].
    + unfold entry_of, m3 in Hd. rewrite lookup_insert_eq in Hd. cbn [mbind option_bind] in Hd.
      rewrite list_lookup_insert_eq in Hd by lia. injection Hd as <-. split; [left; by apply pte_unused_ok|]. unfold present. by rewrite pte_zero.
    + unfold entry_of, m3 in Hd. rewrite lookup_insert_eq in Hd. cbn [mbind option_bind] in Hd.
      rewrite list_lookup_insert_ne in Hd by lia. apply (left_entry t k'); try done. unfold entry_of. by rewrite Hwt.
Qed.
Lemma left_frames t wt x : m2 !! t = Some wt -> is_table_frame (ram s) x -> is_table_frame (m3 t wt) x.
Proof using All.
  intros Ht Hx. apply table_frame_put; [done|]. assert (is_table_frame (ram s1) x) as (w & Hw & Hl).
  { eapply map_effect_frames; [exact Heff| |by eapply map_effect_length|done]. by destruct (ko_ready _ _ _ Hk k Hk256) as (_ & _ & ? & _). }
  unfold m2. destruct (decide (x = p)) as [->|Hne]; [exists ws; by rewrite lookup_insert_eq|exists w; by rewrite lookup_insert_ne].
Qed.
Lemma left_free x : free s1 x = true -> free s x = true.
Proof using All. rewrite Hq. intros Hx. by apply andb_true_iff in Hx as [? _]. Qed.
Lemma left_used' x : x ∈ K' -> free s1 x = false /\ x <> root.
Proof using All.
  intros [Hx|Hx%elem_of_list_to_set]%elem_of_union.
  - destruct (ko_used _ _ _ Hk x Hx) as [Hf Hr]. split; [|done]. rewrite Hq. by rewrite Hf.
  - pose proof (proj1 (Forall_forall _ _) Hfs x Hx) as Hf. cbn in Hf. split.
    + rewrite Hq, (bool_decide_eq_true_2 (x ∈ p :: fs)) by (by right). apply andb_false_r.
    + intros ->. destruct (ko_root _ _ _ Hk) as (_ & Hr & _). unfold root in Hf. congruence.
Qed.
Lemma left_ok t wt s3 :
  (V ++ fs) !! 3%nat = Some t -> m2 !! t = Some wt -> length wt = 512%nat ->
  mem_ok s3 -> cr3_reg s3 = root -> ram s3 = m3 t wt -> (forall x, free s3 x = free s1 x) -> kernel_ok k3 s3 K'.
Proof using All.
  intros Ht Hwt Hl Hm3 Hcr3 Hram Hfree. destruct (left_m3 t wt Ht Hwt Hl) as [Hv Hent]. destruct left_nodup as [Hn _].
  destruct left_visited as (_ & _ & (_ & Hts & _) & Hlen).
  assert (forall k', visited (m3 t wt) root (scratch_path k') = V ++ fs) as Hv' by (intros k'; by rewrite (visited_scratch _ _ k' k)).
  assert (forall k', last (scratch_path k') = Some (256 + k')%nat) as Hlast by done.
  split.
  - done.
  - rewrite Hcr3, Hram, Hfree. destruct (ko_root _ _ _ Hk) as (H1 & H2 & H3). split_and!; [by apply left_frames| |apply H3..].
    destruct (free s1 root) eqn:Hx; [|done]. apply left_free in Hx. unfold root in Hx. congruence.
  - rewrite Hcr3, Hram. apply (visited_next _ _ _ [448; 0; 256 + k]%nat). change (510%nat :: _) with (scratch_path k). rewrite Hv.
    destruct (ko_link _ _ _ Hk) as (e0 & He0 & Hl0 & Ha0). fold root in He0. unfold V, scratch_path.
    rewrite (visited_link _ _ _ _ e0), Ha0 by done. done.
  - intros k' Hk'. rewrite Hcr3, Hram. unfold ready. rewrite Hv'. split_and!; [done| | |].
    + apply Forall_forall. intros x Hx. apply left_frames; [done|]. apply elem_of_app in Hx as [Hx|Hx].
      * pose proof (ko_ready _ _ _ Hk k Hk256) as (_ & Hts0 & _). by apply (proj1 (Forall_forall _ _) Hts0).
      * apply (mem_ok_back s x (ko_mem _ _ _ Hk)). by apply (proj1 (Forall_forall _ _) Hfs).
    + unfold scratch_path. rewrite !Forall_cons, Forall_nil. lia.
    + intros n x i d Hx Hi Hd. destruct (decide (n = 3%nat)) as [->|Hn3].
      * rewrite Ht in Hx. injection Hx as <-. injection Hi as <-. by apply (Hent k').
      * destruct (lookup_lt_is_Some_2 (V ++ fs) (S n)) as [y Hy].
        { apply lookup_lt_Some in Hx. lia. }
        destruct (visited_linked (m3 t wt) root (scratch_path k') n x y i) as (d' & Hd' & Hlk & _); [by rewrite Hv'..|done|].
        rewrite Hd in Hd'. injection Hd' as <-. right. unfold links in Hlk. by apply andb_true_iff in Hlk as [? _].
  - intros k' Hk'. rewrite Hcr3, Hram, (walk_last _ _ _ t (256 + k')); [|by rewrite Hv', Hlen|by rewrite Hv', last_lookup, Hlen|done].
    destruct (entry_of _ _ _) as [d|] eqn:Hd; [|done]. by rewrite (proj2 (Hent k' d Hk' Hd)).
  - intros k' x. rewrite Hcr3, Hram, Hv'. intros [Hx|Hx]%elem_of_app.
    + apply (ko_tables _ _ _ Hk) in Hx as [Hx|Hx]; [by left|right; by apply elem_of_union_l].
    + right. by apply elem_of_union_r, elem_of_list_to_set.
  - intros x Hx. rewrite Hfree, Hcr3. by apply left_used'.
Qed.

Lemma leave_scratch_ok :
  exists s3, leave_scratch (scratch_addr k) (with_ram s1 m2) = (Ok tt, s3) /\ quiet k3 s K s3 K' /\
    (forall x, free s3 x = free s1 x) /\ PAGE_REFCOUNTS s3 = PAGE_REFCOUNTS s1 /\ free s3 p = false /\ p ∉ K' /\ ram s3 !! p = Some ws /\
    forall x, held s K x -> ram s3 !! x = ram s !! x.
Proof using All.
  destruct left_last as (t & wt & Ht & Hwt & Hl & Htp & Htr). destruct left_visited as (Hv & Hw & Hr & _).
  destruct (scratch_range k Hk256) as (Hvr & Hal & Hva). pose proof (scratch_indices k Hk256) as Hidx.
  destruct (unmap_page_ok (with_ram s1 m2) (scratch_addr k) e) as (t' & wt' & Ht' & Hwt' & Hun & _); [done|done|by rewrite Hidx; cbn; rewrite Hcr..|].
  cbn [ram cr3_reg with_ram] in Ht', Hwt', Hun. rewrite Hidx, Hcr in Ht'. fold root in Ht'. rewrite Hv, Ht in Ht'. injection Ht' as <-.
  rewrite Hwt in Hwt'. injection Hwt' as <-. assert (table_index 1 (scratch_addr k) = (256 + k)%nat) as Hi by (by injection Hidx).
  rewrite Hi in Hun. set (s3 := with_ram (with_ram s1 m2) (m3 t wt)).
  assert (leave_scratch (scratch_addr k) (with_ram s1 m2) = (Ok tt, s3)) as Hrun.
  { unfold leave_scratch, kleak_page, initialized, attempt, mbind, st_bind, st_get, st_lift, mret, st_ret. rewrite Hva. cbn [unwrap].
    destruct Hm1 as (a & Ha & _). cbn [ALLOCATOR with_ram]. rewrite Ha. cbn [ok_or]. by rewrite Hun. }
  assert (mem_ok s3) as Hm3.
  { destruct Hm1 as (a & Ha & Hwf & Hb). exists a. split_and!; [done|done|]. intros x Hx. destruct (Hb x Hx) as [Hbx Hxr]. split; [|done]. cbn.
    apply table_frame_put; [done|]. destruct Hbx as (w & ? & ?). unfold m2.
    destruct (decide (x = p)) as [->|Hne]; [exists ws; by rewrite lookup_insert_eq|exists w; by rewrite lookup_insert_ne]. }
  assert (kernel_ok k3 s3 K') as Hk3 by (by apply (left_ok t wt)).
  assert (p ∉ K') as HpK.
  { intros [Hp|Hp%elem_of_list_to_set]%elem_of_union; [by destruct (ko_used _ _ _ Hk p Hp); congruence|].
    destruct left_nodup as [_ Hp']. apply Hp', elem_of_app. by right. }
  assert (forall x, x <> t -> x <> p -> ram s3 !! x = ram s1 !! x) as Hram by (intros x ??; cbn; unfold m3, m2; by rewrite !lookup_insert_ne).
  assert (p <> root) as Hpr by (intros ->; destruct (ko_root _ _ _ Hk) as (_ & ? & _); unfold root in *; congruence).
  assert (t ∈ V ++ fs) as Htin by (by eapply list_elem_of_lookup_2).
  exists s3. split_and!; try done.
  - split.
    + done.
    + exact Hcr.
    + apply union_subseteq_l.
    + intros x [Hx|Hx%elem_of_list_to_set]%elem_of_union; [by left|right]. by apply (proj1 (Forall_forall _ _) Hfs).
    + intros x Hx. by apply left_free.
    + intros x. apply Hman.
    + intros x Hx. by apply left_frames.
    + intros j Hj. unfold entry_of. rewrite Hram by done. destruct (me_old _ _ _ _ _ Heff 0 root 510) as (w & d & H1 & H2); [done|done|].
      fold root. rewrite H1, H2. cbn [mbind option_bind]. by rewrite list_lookup_insert_ne.
  - change (free s1 p = false). rewrite Hq, (bool_decide_eq_true_2 (p ∈ p :: fs)) by left. apply andb_false_r.
  - cbn. unfold m3, m2. rewrite lookup_insert_ne by done. by rewrite lookup_insert_eq.
  - intros x (Hxf & HxK & Hxr).
    assert (x ∉ V ++ fs) as Hxv.
    { intros [Hx|Hx]%elem_of_app; [by apply (ko_tables _ _ _ Hk) in Hx as [|]|]. pose proof (proj1 (Forall_forall _ _) Hfs x Hx). cbn in *. congruence. }
    rewrite Hram; [|congruence..]. rewrite not_elem_of_app in Hxv. destruct Hxv. by apply (me_frame _ _ _ _ _ Heff).
Qed.
End Left.

Section Fresh.
Context `{HP : Paging} {HL : PagingLaws}.

(** What taking a fresh page with the words [ws] returns and does. *)
Definition got_page (k3 : Z) (s : Mem) (K : gset Z) (ws : list Z) (r : outcome unit Z) (s' : Mem) : Prop :=
  match r with Ok _ => spent s s' | _ => few s end /\
  PAGE_REFCOUNTS s' = PAGE_REFCOUNTS s /\ (forall x, held s K x -> ram s' !! x = ram s !! x) /\
  match r with
  | Ok p => free s p = true /\ free s' p = false /\ 0 <= p < 2 ^ 47 /\ p mod PAGE_4K = 0 /\ ram s' !! p = Some ws /\
      exists K', quiet k3 s K s' K' /\ p ∉ K'
  | Err _ => cr3_reg s' = cr3_reg s /\ (forall q, free s' q = false) /\
      forall j, j <> 510%nat -> entry_of (ram s') (cr3_reg s) j = entry_of (ram s) (cr3_reg s) j
  | Panic => False
  end.

Lemma fresh_page_ok k3 s K (ws : list Z) (fill : Z -> st Mem unit unit) :
  kernel_ok k3 s K -> length ws = 512%nat ->
  (forall s1 p, (forall x, held s K x -> ram s1 !! x = ram s !! x) -> is_table_frame (ram s1) p -> 0 <= p < 2 ^ 47 ->
     fill p s1 = (Ok tt, with_ram s1 (<[p := ws]> (ram s1)))) ->
  exists r s', ('(a, p) ← scratch_page; _ ← fill p; _ ← leave_scratch a; mret p) s = (r, s') /\ got_page k3 s K ws r s'.
Proof using HL.
  intros Hk Hws Hfill. destruct (scratch_page_ok k3 s K Hk) as (k & r & s1 & Hk256 & Hm1 & Hcr & Hrc & Hnew & Hrun).
  assert (forall fs x, Forall (fun x => free s x = true) fs -> map_effect (ram s) (cr3_reg s) (scratch_path k) fs (ram s1) ->
    held s K x -> ram s1 !! x = ram s !! x) as Hkeep.
  { intros fs x Hfs Heff (Hxf & HxK & Hxr). apply (me_frame _ _ _ _ _ Heff).
    - intros Hx. pose proof (proj1 (Forall_forall _ _) Hfs x Hx). cbn in *. congruence.
    - by intros [|]%(ko_tables _ _ _ Hk). }
  destruct r as [p|e|]; [| |done].
  - pose proof (spent_new _ _ _ _ _ Hnew eq_refl) as Hspent. destruct Hnew as (Hpf & fs & Hnd & Hfs & Hq & Hman & Heff & e & He & Hea & _).
    destruct (mem_ok_back s p (ko_mem _ _ _ Hk) Hpf) as [Hpt Hpr].
    assert (0 <= p < 2 ^ 47 /\ p mod PAGE_4K = 0) as [Hp0 Hpm] by (rewrite <-Hea in *; pose proof (pte_addr_ok e); split; [lia|tauto]).
    assert (is_table_frame (ram s1) p) as Hpt1.
    { eapply map_effect_frames; [exact Heff| |by eapply map_effect_length|done]. by destruct (ko_ready _ _ _ Hk k Hk256) as (_ & _ & ? & _). }
    destruct (leave_scratch_ok k3 s K Hk k Hk256 p fs e s1 ws Hws Hm1 Hcr Hpf Hnd Hfs Hq Hman Heff He)
      as (s3 & Hl & Hqu & Hf3 & Hrc3 & Hpf3 & HpK & Hram & Hkeep3).
    exists (Ok p), s3. split.
    + rewrite (st_bind_eq _ _ _ _ _ Hrun). cbv beta iota. rewrite (st_bind_eq _ _ _ _ _ (Hfill s1 p (fun x => Hkeep fs x Hfs Heff) Hpt1 Hp0)).
      by rewrite (st_bind_eq _ _ _ _ _ Hl).
    + split; [destruct Hspent as (l & ? & Hq'); exists l; split; [done|]; intros q; by rewrite Hf3|]. split; [congruence|]. split; [done|].
      split_and!; try done; [lia..|]. eauto.
  - destruct Hnew as (-> & Hno & Hfew & fs & Hfs & Heff). exists (Err tt), s1. split.
    + unfold mbind, st_bind. by rewrite Hrun.
    + split; [done|]. split; [done|]. split; [intros x; by apply (Hkeep fs)|]. split_and!; [done..|]. intros j Hj.
      destruct (me_old _ _ _ _ _ Heff 0 (cr3_reg s) 510) as (w & d & H1 & H2); [done|done|].
      unfold entry_of. rewrite H1, H2. cbn [mbind option_bind]. by rewrite list_lookup_insert_ne.
Qed.

Lemma put_words_ok {E} s p ws : is_table_frame (ram s) p -> 0 <= p < 2 ^ 47 ->
  put_words (E := E) p ws s = (Ok tt, with_ram s (<[p := ws]> (ram s))).
Proof using HL. intros (w & Hw & _) Hp. unfold put_words. by rewrite (st_bind_eq _ _ _ _ _ (words_at_ok s p w Hw Hp)). Qed.

Lemma alloc_page_table_ok k3 s K :
  kernel_ok k3 s K -> exists r s', alloc_page_table s = (r, s') /\ got_page k3 s K (replicate 512 0) r s'.
Proof using HL.
  intros Hk. apply (fresh_page_ok k3 s K (replicate 512 0) (fun p => put_words p (replicate 512 0))); [done|done|].
  intros s1 p _ Hp Hr. by apply put_words_ok.
Qed.
Lemma alloc_and_copy_page_ok k3 s K src ws :
  kernel_ok k3 s K -> held s K src -> ram s !! src = Some ws -> length ws = 512%nat -> 0 <= src < 2 ^ 47 ->
  exists r s', alloc_and_copy_page src s = (r, s') /\ got_page k3 s K ws r s'.
Proof using HL.
  intros Hk Hh Hws Hl Hsrc.
  destruct (fresh_page_ok k3 s K ws (fun p => ws ← words_at src; put_words p ws)) as (r & s' & Hrun & Hgot); [done|done| |].
  - intros s1 p Hkeep Hp Hr. rewrite (st_bind_eq _ _ _ _ _ (words_at_ok s1 src ws (eq_trans (Hkeep src Hh) Hws) Hsrc)). by apply put_words_ok.
  - exists r, s'. split; [|done]. rewrite <-Hrun. unfold alloc_and_copy_page, mbind, st_bind.
    destruct (scratch_page s) as [[[a p]|e|] s1]; [|done..]. by destruct (words_at src s1) as [[w|e|] s2].
Qed.
End Fresh.
