(* ===== verification/CowClone.v ===== *)
(** * Cloning a tree of page tables

    After cloning, both trees have the shape of the source, the pages that were writable are
    read-only and marked in both, and nothing else in use has changed. *)
From S2P Require Import Prelude PageAlloc Paging Mapping Cow CowScratch.

Section Tree.
Context `{HP : Paging}.

(** The tables of the tree with [l] levels at [t]. *)
Definition owns (m : Ram) (l : nat) (t x : Z) : Prop := exists p, (length p < l)%nat /\ reach m t p = Some x.

Lemma reach_link m t i e p : entry_of m t i = Some e -> links e = true -> reach m t (i :: p) = reach m (pte_addr e) p.
Proof using. intros He Hl. cbn. by rewrite He, Hl. Qed.
Lemma reach_cons m t i p x : reach m t (i :: p) = Some x ->
  exists e, entry_of m t i = Some e /\ links e = true /\ reach m (pte_addr e) p = Some x.
Proof using. cbn. destruct (entry_of m t i) as [e|]; [|done]. destruct (links e) eqn:Hl; [|done]. eauto. Qed.
Lemma owns_root m l t : (0 < l)%nat -> owns m l t t.
Proof using. by exists []. Qed.
Lemma owns_child m l t i e x : entry_of m t i = Some e -> links e = true -> owns m l (pte_addr e) x -> owns m (S l) t x.
Proof using. intros He Hl (p & Hp & Hr). exists (i :: p). split; [cbn; lia|]. by rewrite (reach_link _ _ _ e). Qed.
Lemma owns_inv m l t x : owns m (S l) t x -> x = t \/ exists i e, entry_of m t i = Some e /\ links e = true /\ owns m l (pte_addr e) x.
Proof using.
  intros ([|i p] & Hp & Hr); [left; by injection Hr|right]. apply reach_cons in Hr as (e & He & Hl & Hr).
  exists i, e. split_and!; [done..|]. exists p. split; [cbn in Hp; lia|done].
Qed.

Lemma visited_owns m l t path x : (length path <= l)%nat -> x ∈ visited m t path -> owns m l t x.
Proof using.
  revert l t. induction path as [|i path IH]; intros l t Hl Hx; [by apply elem_of_nil in Hx|]. destruct l as [|l]; [cbn in Hl; lia|].
  destruct (decide (x = t)) as [->|Hne]; [apply owns_root; lia|].
  destruct (entry_of m t i) as [e|] eqn:He.
  - destruct (links e) eqn:Hlk; [|rewrite visited_stop in Hx by (intros ? Hz; congruence); by apply list_elem_of_singleton in Hx].
    destruct (decide (path = [])) as [->|Hnil]; [by apply list_elem_of_singleton in Hx|]. rewrite (visited_link _ _ _ _ e) in Hx by done.
    apply elem_of_cons in Hx as [?|Hx]; [done|]. eapply owns_child; [done|done|]. apply IH; [cbn in Hl; lia|done].
  - rewrite visited_stop in Hx by (intros ? Hz; congruence). by apply list_elem_of_singleton in Hx.
Qed.
Lemma reach_ext m m' l t p :
  (forall x, owns m l t x -> m' !! x = m !! x) -> (length p <= l)%nat -> reach m' t p = reach m t p.
Proof using.
  revert l t. induction p as [|i p IH]; intros l t Hx Hl; [done|]. destruct l as [|l]; [cbn in Hl; lia|].
  cbn [reach]. unfold entry_of at 1. rewrite (Hx t) by (apply owns_root; lia). fold (entry_of m t i).
  destruct (entry_of m t i) as [e|] eqn:He; [|done]. destruct (links e) eqn:Hlk; [|done]. apply (IH l); [|cbn in Hl; lia].
  intros x Ho. apply Hx. by eapply owns_child.
Qed.
Lemma owns_ext m m' l t x : (forall x, owns m l t x -> m' !! x = m !! x) -> owns m' l t x <-> owns m l t x.
Proof using. intros Hx. unfold owns. split; intros (p & Hp & Hr); exists p; (split; [done|]); [rewrite <-Hr; symmetry|rewrite <-Hr]; by apply (reach_ext _ _ l); [|lia]. Qed.
Lemma walk_ext_owns m m' l t path :
  (forall x, owns m l t x -> m' !! x = m !! x) -> (length path <= l)%nat -> walk m' t path = walk m t path.
Proof using. intros Hx Hl. apply walk_ext. intros x Hv. apply Hx. by eapply visited_owns. Qed.

(** A tree whose tables are in use, within reach, and no two of which are the same. *)
Record tree (s : Mem) (K : gset Z) (l : nat) (t : Z) : Prop := {
  tr_held x : owns (ram s) l t x -> held s K x /\ 0 <= x < 2 ^ 47 /\ is_table_frame (ram s) x;
  tr_inj p q x : (length p < l)%nat -> (length q < l)%nat ->
    reach (ram s) t p = Some x -> reach (ram s) t q = Some x -> p = q;
}.
Lemma tree_child s K l t i e : tree s K (S l) t -> entry_of (ram s) t i = Some e -> links e = true -> tree s K l (pte_addr e).
Proof using.
  intros [Hh Hi] He Hl. split.
  - intros x Hx. apply Hh. by eapply owns_child.
  - intros p q x Hp Hq Hrp Hrq. assert (i :: p = i :: q) as Heq; [|by injection Heq].
    apply (Hi _ _ x); [cbn; lia|cbn; lia|by rewrite (reach_link _ _ _ e)..].
Qed.
Lemma tree_sep s K l t i j e d x :
  tree s K (S l) t -> entry_of (ram s) t i = Some e -> links e = true -> entry_of (ram s) t j = Some d -> links d = true ->
  owns (ram s) l (pte_addr e) x -> owns (ram s) l (pte_addr d) x -> i = j.
Proof using.
  intros [_ Hi] He Hle Hd Hld (p & Hp & Hrp) (q & Hq & Hrq). assert (i :: p = j :: q) as Heq; [|by injection Heq].
  apply (Hi _ _ x); [cbn; lia|cbn; lia|by rewrite (reach_link _ _ _ e)|by rewrite (reach_link _ _ _ d)].
Qed.
Lemma tree_no_loop s K l t i e : tree s K (S l) t -> entry_of (ram s) t i = Some e -> links e = true -> ~ owns (ram s) l (pte_addr e) t.
Proof using.
  intros [_ Hi] He Hl (p & Hp & Hr). assert (i :: p = []) as Heq; [|done].
  apply (Hi _ _ t); [cbn; lia|cbn; lia|by rewrite (reach_link _ _ _ e)|done].
Qed.
Lemma tree_same_shape k3 s K s' K' l t :
  quiet k3 s K s' K' -> (forall p, (length p < l)%nat -> reach (ram s') t p = reach (ram s) t p) -> tree s K l t -> tree s' K' l t.
Proof using.
  intros Hq Hr [Hh Hi]. split.
  - intros x (p & Hp & Hx). rewrite Hr in Hx by done. destruct (Hh x) as (H1 & H2 & H3); [by exists p|].
    split_and!; [by eapply quiet_held|lia..|by apply (q_frames _ _ _ _ _ Hq)].
  - intros p q x Hp Hq'. rewrite !Hr by done. by apply Hi.
Qed.

(** ** Shared entries *)
(** The entries that cloning marks. *)
Definition shares (e : Z) : bool := contains (pte_flags e) WRITABLE && negb (contains (pte_flags e) HUGE_PAGE).
Definition cow_e (e : Z) : Z := if shares e then default e (pte_make (pte_addr e) (cow_flags (pte_flags e))) else e.
Definition cowed (w : nat * Z) : nat * Z := match w with (O, e) => (O, cow_e e) | _ => w end.
End Tree.

Section Entries.
Context `{HP : Paging} {HL : PagingLaws}.

Lemma is_flags_bits f : 0 <= f < 2 ^ 64 -> is_flags f <-> forall i, 12 <= i < 52 -> Z.testbit f i = false.
Proof using.
  intros Hf. unfold is_flags. change 0xFFFFFFFFFF000 with (Z.shiftl (Z.ones 40) 12). split.
  - intros [_ H0] i Hi. apply (f_equal (fun x => Z.testbit x i)) in H0. rewrite Z.land_spec, Z.bits_0, Z.shiftl_spec in H0 by lia. rewrite Z.ones_spec_low, andb_true_r in H0 by lia. done.
  - intros Hb. split; [done|]. apply Z.bits_inj'. intros i Hi. rewrite Z.land_spec, Z.bits_0, Z.shiftl_spec by lia.
    destruct (decide (12 <= i < 52)) as [Hin|Hout]; [by rewrite Hb|]. destruct (decide (i < 12)); [rewrite (Z.testbit_neg_r _ (i - 12)) by lia|rewrite Z.ones_spec_high by lia]; apply andb_false_r.
Qed.
Lemma flags_update f clear set : is_flags f -> 0 <= set < 4096 -> is_flags (Z.lor (Z.ldiff f clear) set).
Proof using.
  intros Hf Hset. pose proof (proj1 Hf) as Hr. apply is_flags_bits.
  - apply is_u_lor; [done|by apply is_u_ldiff|]. split; [lia|]. change (2 ^ 64) with 18446744073709551616. lia.
  - intros i Hi. rewrite Z.lor_spec, Z.ldiff_spec, (proj1 (is_flags_bits f Hr) Hf i Hi). cbn. apply Z.bits_above_log2; [lia|].
    destruct (decide (set = 0)) as [->|]; [cbn; lia|]. apply Z.log2_lt_pow2; [lia|].
    apply Z.lt_le_trans with (2 ^ 12); [change (2 ^ 12) with 4096; lia|]. apply Z.pow_le_mono_r; lia.
Qed.
Lemma flags_bit f c n i : 0 <= c -> 0 <= n ->
  Z.testbit (Z.lor (Z.ldiff f (2 ^ c)) (2 ^ n)) i = Z.testbit f i && negb (bool_decide (i = c)) || bool_decide (i = n).
Proof using. intros Hc Hn. by rewrite <-!Z.shiftl_1_l, Z.lor_spec, Z.ldiff_spec, !one_bit_testbit. Qed.
Lemma cow_flags_ok f : is_flags f -> is_flags (cow_flags f) /\ Z.testbit (cow_flags f) 1 = false /\ Z.testbit (cow_flags f) 9 = true /\
  forall i, i <> 1 -> i <> 9 -> Z.testbit (cow_flags f) i = Z.testbit f i.
Proof using.
  intros Hf. split; [by apply flags_update|]. unfold cow_flags. change WRITABLE with (2 ^ 1). change COW_FLAG with (2 ^ 9).
  rewrite !flags_bit by done. split; [change (Z.testbit f 1 && false || false = false); by rewrite andb_false_r|]. split; [apply orb_true_r|].
  intros i H1 H9. rewrite flags_bit, (bool_decide_eq_false_2 (i = 1)), (bool_decide_eq_false_2 (i = 9)) by done. by rewrite andb_true_r, orb_false_r.
Qed.

(** The entry that cloning leaves in both tables. *)
Lemma cow_e_ok e : present e = true -> shares e = true ->
  pte_make (pte_addr e) (cow_flags (pte_flags e)) = Some (cow_e e) /\ pte_addr (cow_e e) = pte_addr e /\
  pte_flags (cow_e e) = cow_flags (pte_flags e) /\ present (cow_e e) = true /\ shares (cow_e e) = false.
Proof using HL.
  intros Hp Hs. destruct (pte_addr_ok e) as [Ha Hr]. destruct (cow_flags_ok _ (pte_flags_ok e)) as (Hf & Hw & Hc & Hoth).
  destruct (pte_make_ok (pte_addr e) _ Ha Hr Hf) as (e' & Hm & He1 & He2). assert (cow_e e = e') as -> by (unfold cow_e; by rewrite Hs, Hm).
  split_and!; [done..| |].
  - unfold present in *. rewrite He2. change PRESENT with (2 ^ 0) in *. rewrite contains_bit in * by done. by rewrite Hoth.
  - unfold shares. rewrite He2. change WRITABLE with (2 ^ 1). rewrite contains_bit by done. by rewrite Hw.
Qed.
Lemma cow_e_other e : shares e = false -> cow_e e = e.
Proof using. intros Hs. unfold cow_e. by rewrite Hs. Qed.
Lemma cow_e_links e : present e = true -> links (cow_e e) = links e.
Proof using HL.
  intros Hp. destruct (shares e) eqn:Hs; [|by rewrite cow_e_other]. destruct (cow_e_ok e Hp Hs) as (_ & _ & Hf & Hp' & _).
  unfold links. rewrite Hp, Hp', Hf. destruct (cow_flags_ok _ (pte_flags_ok e)) as (_ & _ & _ & Hoth).
  change HUGE_PAGE with (2 ^ 7). rewrite !contains_bit by done. by rewrite Hoth.
Qed.
Lemma walk_entry_present m t path k e : walk m t path = Some (k, e) -> present e = true.
Proof using.
  revert t. induction path as [|i path IH]; intros t Hw; [done|]. cbn [walk] in Hw. destruct (entry_of m t i) as [d|]; [|done].
  destruct (present d) eqn:Hp; [|done]. cbn in Hw. destruct path as [|j path]; [by injection Hw as <- <-|].
  destruct (links d); [by eapply IH|by injection Hw as <- <-].
Qed.
Lemma cowed_twice m t path : cowed <$> (cowed <$> walk m t path) = cowed <$> walk m t path.
Proof using HL.
  destruct (walk m t path) as [[[|k] e]|] eqn:Hw; [|done..]. cbn. do 2 f_equal. pose proof (walk_entry_present _ _ _ _ _ Hw) as Hp.
  destruct (shares e) eqn:Hs; [|by rewrite !cow_e_other by (by rewrite ?cow_e_other)].
  apply cow_e_other. by apply cow_e_ok.
Qed.
End Entries.

(** ** Writing an entry of a table in use *)
Section Put.
Context `{HP : Paging} {HL : PagingLaws}.

Definition poke (s : Mem) (x : Z) (i : nat) (e : Z) : Mem := with_ram s (put_word (ram s) x i e).

Lemma entry_at_ok {E} s x i : is_table_frame (ram s) x -> 0 <= x < 2 ^ 47 -> (i < 512)%nat ->
  exists e, entry_of (ram s) x i = Some e /\ entry_at (E := E) x i s = (Ok e, s).
Proof using HL.
  intros (ws & Hws & Hl) Hx Hi. destruct (lookup_lt_is_Some_2 ws i ltac:(lia)) as [e He]. exists e.
  split; [unfold entry_of; by rewrite Hws|]. unfold entry_at. rewrite (st_bind_eq _ _ _ _ _ (words_at_ok s x ws Hws Hx)). unfold st_lift. by rewrite He.
Qed.
Lemma put_entry_ok {E} s x i e : is_table_frame (ram s) x -> 0 <= x < 2 ^ 47 -> (i < 512)%nat ->
  put_entry (E := E) x i e s = (Ok tt, poke s x i e).
Proof using HL.
  intros (ws & Hws & Hl) Hx Hi. destruct (lookup_lt_is_Some_2 ws i ltac:(lia)) as [d Hd].
  unfold put_entry. rewrite (st_bind_eq _ _ _ _ _ (words_at_ok s x ws Hws Hx)). rewrite (st_bind_eq _ _ s d s) by (unfold st_lift; by rewrite Hd).
  unfold mbind, st_bind, st_get, st_put, poke, put_word. by rewrite Hws.
Qed.
Lemma set_addr_ok {E} s x i a f e : is_table_frame (ram s) x -> 0 <= x < 2 ^ 47 -> (i < 512)%nat -> pte_make a f = Some e ->
  set_addr (E := E) x i a f s = (Ok tt, poke s x i e).
Proof using HL.
  intros Hx Hr Hi He. unfold set_addr. rewrite (st_bind_eq _ _ s e s) by (unfold st_lift; by rewrite He). by apply put_entry_ok.
Qed.

Lemma entry_poke s x i e j : is_table_frame (ram s) x -> (i < 512)%nat ->
  entry_of (ram (poke s x i e)) x j = if decide (j = i) then Some e else entry_of (ram s) x j.
Proof using. intros (ws & Hws & Hl) Hi. apply (entry_put _ _ ws); [done|lia]. Qed.
Lemma poke_frames s x i e y : is_table_frame (ram s) y -> is_table_frame (ram (poke s x i e)) y.
Proof using.
  intros Hy. cbn. unfold put_word. destruct (ram s !! x) as [ws|] eqn:Hws; [|done]. by apply table_frame_put.
Qed.

Lemma kernel_ok_ram k3 s K m :
  kernel_ok k3 s K -> (forall x, is_table_frame (ram s) x -> is_table_frame m x) ->
  (forall x, x = cr3_reg s \/ x ∈ K -> m !! x = ram s !! x) -> kernel_ok k3 (with_ram s m) K.
Proof using.
  intros [Hm Hr Hl Hrd He Ht Hu] Hf Hs. 
  assert (forall k x, x ∈ visited (ram s) (cr3_reg s) (scratch_path k) -> m !! x = ram s !! x) as Hv by (intros k x Hx; by apply Hs, (Ht k)).
  split; cbn [ram cr3_reg with_ram].
  - destruct Hm as (a & Ha & Hwf & Hb). exists a. split_and!; [done..|]. intros p Hp. destruct (Hb p Hp). split; [by apply Hf|done].
  - destruct Hr as (H1 & H2 & H3). split_and!; [by apply Hf|exact H2|lia..].
  - unfold entry_of in *. by rewrite (Hs (cr3_reg s)) by (by left).
  - intros k Hk. apply (ready_ext (ram s)); [apply Hv|by apply Hrd].
  - intros k Hk. rewrite (walk_ext (ram s)); [by apply He|apply Hv].
  - intros k x Hx. rewrite (visited_ext (ram s)) in Hx; [by apply (Ht k)|apply Hv].
  - exact Hu.
Qed.
Lemma quiet_poke k3 s K x i e : kernel_ok k3 s K -> held s K x -> quiet k3 s K (poke s x i e) K.
Proof using.
  intros Hk (Hf & HK & Hr). split; try done; [|by left|intros y; apply poke_frames|].
  - apply kernel_ok_ram; [done|intros y; apply poke_frames|]. intros y Hy. apply put_word_ne. intros ->. by destruct Hy.
  - intros j Hj. unfold entry_of. cbn. by rewrite put_word_ne.
Qed.
Lemma kernel_ok_refcounts k3 s K c : kernel_ok k3 s K -> kernel_ok k3 (with_refcounts s c) K.
Proof using. intros [Hm Hr Hl Hrd He Ht Hu]. by split. Qed.
Lemma quiet_refcounts k3 s K c : kernel_ok k3 s K -> quiet k3 s K (with_refcounts s c) K.
Proof using. intros Hk. split; try done; [by apply kernel_ok_refcounts|by left]. Qed.

(** A word of [x] changed: the trees that do not have [x] are as before, and of a tree at [x]
    so is what lies below the other entries. *)
Lemma poke_outside s x i e l t :
  ~ owns (ram s) l t x ->
  (forall p, (length p <= l)%nat -> reach (ram (poke s x i e)) t p = reach (ram s) t p) /\
  (forall p, (length p <= l)%nat -> walk (ram (poke s x i e)) t p = walk (ram s) t p).
Proof using.
  intros Hn. assert (forall y, owns (ram s) l t y -> ram (poke s x i e) !! y = ram s !! y) as Hsame.
  { intros y Hy. cbn. apply put_word_ne. by intros ->. }
  split; intros p Hp; [by eapply reach_ext|by eapply walk_ext_owns].
Qed.
Lemma poke_child s K l x i e j d :
  tree s K (S l) x -> is_table_frame (ram s) x -> entry_of (ram s) x j = Some d -> links d = true ->
  (forall p, (length p <= l)%nat -> reach (ram (poke s x i e)) (pte_addr d) p = reach (ram s) (pte_addr d) p) /\
  (forall p, (length p <= l)%nat -> walk (ram (poke s x i e)) (pte_addr d) p = walk (ram s) (pte_addr d) p).
Proof using. intros Ht Hx Hd Hl. apply poke_outside. by eapply tree_no_loop. Qed.
Lemma poke_other s K l x i e j :
  tree s K (S l) x -> is_table_frame (ram s) x -> (i < 512)%nat -> j <> i ->
  (forall p, (length p <= l)%nat -> reach (ram (poke s x i e)) x (j :: p) = reach (ram s) x (j :: p)) /\
  (forall p, (length p <= l)%nat -> walk (ram (poke s x i e)) x (j :: p) = walk (ram s) x (j :: p)).
Proof using.
  intros Ht Hx Hi Hne. assert (entry_of (ram (poke s x i e)) x j = entry_of (ram s) x j) as Hent by (by rewrite entry_poke, decide_False).
  split; intros p Hp; cbn [reach walk]; rewrite Hent; (destruct (entry_of (ram s) x j) as [d|] eqn:Hd; [|done]).
  - destruct (links d) eqn:Hlk; [|done]. by apply (poke_child s K l x i e j d).
  - destruct (present d); [|done]. destruct p as [|k p]; [done|]. destruct (links d) eqn:Hlk; [|done]. by apply (poke_child s K l x i e j d).
Qed.
End Put.

(** ** What cloning some entries of a table does *)
Section Clones.
Context `{HP : Paging} {HL : PagingLaws} (k3 : Z).

Definition bump (c : option Z) : Z := match c with Some n => wrap 32 (n + 1) | None => 2 end.

(** The entries [idx] of the table [t] have been cloned into the table [new]. *)
Record clones (l : nat) (t new : Z) (idx : list nat) (s : Mem) (K : gset Z) (s' : Mem) (K' : gset Z) : Prop := {
  cl_quiet : quiet k3 s K s' K';
  cl_keep x : held s K x -> x <> new -> ~ owns (ram s) l t x -> ram s' !! x = ram s !! x;
  cl_src p : (length p < l)%nat -> reach (ram s') t p = reach (ram s) t p;
  cl_src_walk i r : length (i :: r) = l ->
    walk (ram s') t (i :: r) = if decide (i ∈ idx) then cowed <$> walk (ram s) t (i :: r) else walk (ram s) t (i :: r);
  cl_new_walk i r : length (i :: r) = l ->
    walk (ram s') new (i :: r) = if decide (i ∈ idx) then cowed <$> walk (ram s) t (i :: r) else walk (ram s) new (i :: r);
  cl_new_fresh i p x : i ∈ idx -> (length (i :: p) < l)%nat -> reach (ram s') new (i :: p) = Some x -> free s x = true;
  cl_new_other i p : i ∉ idx -> (length (i :: p) < l)%nat -> reach (ram s') new (i :: p) = reach (ram s) new (i :: p);
  cl_new_tree : tree s' K' l new;
  cl_count i r e : i ∈ idx -> length (i :: r) = l -> walk (ram s) t (i :: r) = Some (O, e) -> shares e = true ->
    PAGE_REFCOUNTS s' !! pte_addr e = Some (bump (PAGE_REFCOUNTS s !! pte_addr e));
  cl_count_other p :
    (forall i r e, i ∈ idx -> length (i :: r) = l -> walk (ram s) t (i :: r) = Some (O, e) -> shares e = true -> pte_addr e <> p) ->
    PAGE_REFCOUNTS s' !! p = PAGE_REFCOUNTS s !! p;
}.

(** The two trees are in order and have no table in common; no page is mapped writable twice. *)
Record ready_to_clone (l : nat) (t new : Z) (s : Mem) (K : gset Z) : Prop := {
  rc_src : tree s K l t;
  rc_new : tree s K l new;
  rc_apart x : owns (ram s) l t x -> owns (ram s) l new x -> False;
  rc_once p q e d : length p = l -> length q = l -> walk (ram s) t p = Some (O, e) -> walk (ram s) t q = Some (O, d) ->
    shares e = true -> shares d = true -> pte_addr e = pte_addr d -> p = q;
}.

Lemma cowed_Some w e : cowed <$> w = Some (O, e) -> exists e0, w = Some (O, e0) /\ e = cow_e e0.
Proof using. destruct w as [[[|k] d]|]; cbn; intros Hw; [|done|done]. injection Hw as <-. eauto. Qed.
Lemma cow_not_shared m t p e0 : walk m t p = Some (O, e0) -> shares (cow_e e0) = false.
Proof using HL.
  intros Hw. pose proof (walk_entry_present _ _ _ _ _ Hw) as Hp. destruct (shares e0) eqn:Hs; [by apply cow_e_ok|by rewrite cow_e_other].
Qed.
Lemma clones_ready l t new idx s K s' K' :
  (0 < l)%nat -> ready_to_clone l t new s K -> clones l t new idx s K s' K' -> ready_to_clone l t new s' K'.
Proof using HL.
  intros Hl [Ht Hn Ha Ho] Hc. split.
  - apply (tree_same_shape k3 s K); [apply Hc|apply Hc|done].
  - apply Hc.
  - intros x (p & Hp & Hx) (q & Hq & Hx'). rewrite (cl_src _ _ _ _ _ _ _ _ Hc) in Hx by done.
    destruct (tr_held _ _ _ _ Ht x) as ((Hf & _) & _); [by exists p|]. destruct q as [|i q].
    + injection Hx' as ->. apply (Ha x); [by exists p|by apply owns_root].
    + destruct (decide (i ∈ idx)) as [Hi|Hi].
      * rewrite (cl_new_fresh _ _ _ _ _ _ _ _ Hc i q x) in Hf; done.
      * rewrite (cl_new_other _ _ _ _ _ _ _ _ Hc) in Hx' by done. apply (Ha x); [by exists p|by exists (i :: q)].
  - assert (forall p e, length p = l -> walk (ram s') t p = Some (O, e) -> shares e = true -> walk (ram s) t p = Some (O, e)) as Hback.
    { intros [|i p] e Hlen Hw Hs; [done|]. rewrite (cl_src_walk _ _ _ _ _ _ _ _ Hc) in Hw by done. destruct (decide (i ∈ idx)); [|done].
      apply cowed_Some in Hw as (d & Hw & ->). by rewrite (cow_not_shared _ _ _ _ Hw) in Hs. }
    intros p q e d Hp Hq Hwp Hwq Hse Hsd. apply (Ho p q e d); try done; by apply Hback.
Qed.

Lemma clones_app l t new idx1 idx2 s K s1 K1 s2 K2 :
  (0 < l)%nat -> (forall i, i ∈ idx1 -> i ∉ idx2) -> ready_to_clone l t new s K ->
  clones l t new idx1 s K s1 K1 -> clones l t new idx2 s1 K1 s2 K2 -> clones l t new (idx1 ++ idx2) s K s2 K2.
Proof using HL.
  intros Hl Hdis Hready C1 C2. pose proof (cl_quiet _ _ _ _ _ _ _ _ C1) as Q1. pose proof (cl_quiet _ _ _ _ _ _ _ _ C2) as Q2.
  assert (forall x, owns (ram s1) l t x <-> owns (ram s) l t x) as Hown.
  { intros x. unfold owns. split; intros (p & Hp & Hx); exists p; (split; [done|]); [rewrite (cl_src _ _ _ _ _ _ _ _ C1) in Hx|rewrite (cl_src _ _ _ _ _ _ _ _ C1)]; done. }
  assert (forall i r, i ∉ idx1 -> length (i :: r) = l -> walk (ram s1) t (i :: r) = walk (ram s) t (i :: r)) as Hw1.
  { intros i r Hi Hr. rewrite (cl_src_walk _ _ _ _ _ _ _ _ C1) by done. by rewrite decide_False. }
  split.
  - by eapply quiet_trans.
  - intros x Hh Hn Ho. rewrite (cl_keep _ _ _ _ _ _ _ _ C2 x); [by apply (cl_keep _ _ _ _ _ _ _ _ C1)|by eapply quiet_held|done|by rewrite Hown].
  - intros p Hp. rewrite (cl_src _ _ _ _ _ _ _ _ C2), (cl_src _ _ _ _ _ _ _ _ C1); done.
  - intros i r Hr. rewrite (cl_src_walk _ _ _ _ _ _ _ _ C2), (cl_src_walk _ _ _ _ _ _ _ _ C1) by done.
    destruct (decide (i ∈ idx1)) as [H1|H1], (decide (i ∈ idx2)) as [H2|H2]; [by destruct (Hdis i H1)|..]; [rewrite decide_True|rewrite decide_True|rewrite decide_False]; rewrite ?elem_of_app; tauto.
  - intros i r Hr. rewrite (cl_new_walk _ _ _ _ _ _ _ _ C2), (cl_new_walk _ _ _ _ _ _ _ _ C1) by done.
    destruct (decide (i ∈ idx1)) as [H1|H1], (decide (i ∈ idx2)) as [H2|H2]; [by destruct (Hdis i H1)|..]; [rewrite decide_True|rewrite decide_True|rewrite decide_False]; rewrite ?elem_of_app, ?Hw1; tauto.
  - intros i p x [Hi|Hi]%elem_of_app Hp Hx.
    + rewrite (cl_new_other _ _ _ _ _ _ _ _ C2) in Hx by auto. by eapply (cl_new_fresh _ _ _ _ _ _ _ _ C1).
    + apply (q_free _ _ _ _ _ Q1). by eapply (cl_new_fresh _ _ _ _ _ _ _ _ C2).
  - intros i p [H1 H2]%not_elem_of_app Hp. rewrite (cl_new_other _ _ _ _ _ _ _ _ C2), (cl_new_other _ _ _ _ _ _ _ _ C1); done.
  - apply C2.
  - intros i r e [Hi|Hi]%elem_of_app Hr Hw Hs.
    + rewrite (cl_count_other _ _ _ _ _ _ _ _ C2); [by apply (cl_count _ _ _ _ _ _ _ _ C1 i r)|].
      intros j q d Hj Hq Hd Hsd Heq. assert (j ∉ idx1) as Hj1 by (intros Hj1; by apply (Hdis j)). rewrite Hw1 in Hd by done.
      assert (j :: q = i :: r) as [= -> ->] by (by apply (rc_once _ _ _ _ _ Hready _ _ d e)). by apply (Hdis i).
    + assert (i ∉ idx1) as Hi1 by (intros Hi1; by apply (Hdis i)).
      rewrite (cl_count _ _ _ _ _ _ _ _ C2 i r e) by (done || by rewrite Hw1). do 2 f_equal. apply (cl_count_other _ _ _ _ _ _ _ _ C1).
      intros j q d Hj Hq Hd Hsd Heq. assert (j :: q = i :: r) as [= -> ->] by (by apply (rc_once _ _ _ _ _ Hready _ _ d e)). done.
  - intros p Hp. rewrite (cl_count_other _ _ _ _ _ _ _ _ C2), (cl_count_other _ _ _ _ _ _ _ _ C1); [done|..].
    + intros i r e Hi Hr Hw. apply (Hp i r e); [apply elem_of_app; by left|done|done].
    + intros i r e Hi Hr Hw. apply (Hp i r e); [apply elem_of_app; by right|done|]. rewrite <-Hw1; [done| |done]. intros Hi1. by apply (Hdis i).
Qed.

(** *** One entry *)
Lemma walk_dead m t i r e l :
  entry_of m t i = Some e -> present e = true -> l = 0%nat \/ links e = false -> length r = l -> walk m t (i :: r) = Some (length r, e).
Proof using.
  intros He Hp Hd Hr. destruct r as [|j r]; [by apply walk_leaf|]. destruct Hd as [->|Hl]; [done|]. by apply walk_huge.
Qed.
Lemma in_singleton (i j : nat) : i ∈ [j] <-> i = j.
Proof using. apply list_elem_of_singleton. Qed.

(** Nothing lies below entry [i] of the tree at [new]. *)
Definition vacant (l : nat) (new : Z) (i : nat) (s : Mem) : Prop :=
  (forall r, length (i :: r) = l -> walk (ram s) new (i :: r) = None) /\
  (forall p, (length (i :: p) < l)%nat -> reach (ram s) new (i :: p) = None).
Lemma vacant_zero l new i s : entry_of (ram s) new i = Some 0 -> vacant l new i s.
Proof using HL.
  intros H0. assert (present 0 = false) as Hz by (unfold present; by rewrite pte_zero). split; intros p _.
  - by apply (walk_absent _ _ _ _ 0).
  - cbn [reach]. rewrite H0. unfold links. by rewrite Hz.
Qed.
Lemma clones_vacant l t new idx s K s' K' i : clones l t new idx s K s' K' -> i ∉ idx -> vacant l new i s -> vacant l new i s'.
Proof using.
  intros Hc Hi [Hw Hr]. split; intros p Hp.
  - rewrite (cl_new_walk _ _ _ _ _ _ _ _ Hc), decide_False by done. by apply Hw.
  - rewrite (cl_new_other _ _ _ _ _ _ _ _ Hc) by done. by apply Hr.
Qed.
Lemma clones_skip l t new i s K e :
  kernel_ok k3 s K -> ready_to_clone l t new s K -> entry_of (ram s) t i = Some e -> present e = false ->
  vacant l new i s -> clones l t new [i] s K s K.
Proof using HL.
  intros Hk [Ht Hn Ha Ho] He Hp [Hwn Hrn].
  assert (forall r, walk (ram s) t (i :: r) = None) as Hwt by (intros r; by apply (walk_absent _ _ _ _ e)).
  split; try done.
  - by apply quiet_refl.
  - intros j r Hr. destruct (decide (j ∈ [i])) as [->%in_singleton|]; [by rewrite Hwt|done].
  - intros j r Hr. destruct (decide (j ∈ [i])) as [->%in_singleton|]; [by rewrite Hwt, Hwn|done].
  - intros j p x ->%in_singleton Hl Hx. by rewrite Hrn in Hx.
  - intros j r d ->%in_singleton Hr Hw. by rewrite Hwt in Hw.
Qed.

(** A tree at whose root an entry became a dead end. *)
Lemma poke_dead_tree s K K' l x i e :
  kernel_ok k3 s K -> tree s K (S l) x -> (i < 512)%nat -> l = 0%nat \/ links e = false -> K' = K ->
  (forall j p, j <> i -> (length p <= l)%nat -> reach (ram (poke s x i e)) x (j :: p) = reach (ram s) x (j :: p)) /\
  (forall p y, (length (i :: p) < S l)%nat -> reach (ram (poke s x i e)) x (i :: p) = Some y -> False) /\
  tree (poke s x i e) K' (S l) x.
Proof using HL.
  intros Hk Ht Hi Hd ->. destruct (tr_held _ _ _ _ Ht x (owns_root _ (S l) _ ltac:(lia))) as (Hh & Hr & Hf).
  assert (forall j p, j <> i -> (length p <= l)%nat -> reach (ram (poke s x i e)) x (j :: p) = reach (ram s) x (j :: p)) as Hoth.
  { intros j p Hj Hp. by apply (poke_other s K l). }
  assert (forall p y, (length (i :: p) < S l)%nat -> reach (ram (poke s x i e)) x (i :: p) = Some y -> False) as Hdead.
  { intros p y Hp Hy. apply reach_cons in Hy as (d & He & Hl & _). rewrite entry_poke, decide_True in He by done. injection He as <-.
    destruct Hd as [->|Hd]; [cbn in Hp; lia|congruence]. }
  split_and!; [done..|].
  assert (forall p y, (length p < S l)%nat -> reach (ram (poke s x i e)) x p = Some y -> reach (ram s) x p = Some y) as Hback.
  { intros [|j p] y Hp Hy; [done|]. destruct (decide (j = i)) as [->|Hj]; [by destruct (Hdead p y)|]. rewrite Hoth in Hy; [done|done|cbn in Hp; lia]. }
  pose proof (quiet_poke k3 s K x i e Hk Hh) as Hq. split.
  - intros y (p & Hp & Hy). destruct (tr_held _ _ _ _ Ht y) as (H1 & H2 & H3); [exists p; auto|].
    split; [by apply (quiet_held k3 s K)|]. split; [done|by apply poke_frames].
  - intros p q y Hp Hq' Hy Hy'. apply (tr_inj _ _ _ _ Ht p q y); auto.
Qed.

(** The entry is copied. *)
Lemma clones_share l t new i s K e :
  kernel_ok k3 s K -> ready_to_clone (S l) t new s K -> (i < 512)%nat -> entry_of (ram s) t i = Some e -> present e = true ->
  l = 0%nat \/ links e = false -> shares e = false -> clones (S l) t new [i] s K (poke s new i e) K.
Proof using HL.
  intros Hk [Ht Hn Ha Ho] Hi He Hp Hd Hs. destruct (tr_held _ _ _ _ Hn new (owns_root _ (S l) _ ltac:(lia))) as (Hh & Hr & Hf).
  destruct (poke_dead_tree s K K l new i e Hk Hn Hi Hd eq_refl) as (Hoth & Hdead & Htree).
  assert (~ owns (ram s) (S l) t new) as Hout by (intros Hown; apply (Ha new Hown), owns_root; lia).
  destruct (poke_outside s new i e (S l) t Hout) as [Hsr Hsw].
  assert (forall r, length r = l -> cowed <$> walk (ram s) t (i :: r) = Some (length r, e)) as Hcow.
  { intros r Hr'. rewrite (walk_dead _ _ _ _ e l) by done. destruct r; cbn; [by rewrite cow_e_other|done]. }
  split.
  - by apply quiet_poke.
  - intros x _ Hx _. cbn. by apply put_word_ne.
  - intros p Hp'. apply Hsr. lia.
  - intros j r Hr'. rewrite Hsw by lia. destruct (decide (j ∈ [i])) as [->%in_singleton|]; [|done]. injection Hr' as Hr'.
    rewrite Hcow by done. by apply (walk_dead _ _ _ _ e l).
  - intros j r Hr'. injection Hr' as Hr'. destruct (decide (j ∈ [i])) as [->%in_singleton|Hj].
    + rewrite Hcow by done. apply (walk_dead _ _ _ _ e l); try done. by rewrite entry_poke, decide_True.
    + apply (poke_other s K l); [done|done|done|by intros ->; apply Hj, in_singleton|lia].
  - intros j p x ->%in_singleton Hl Hx. by destruct (Hdead p x).
  - intros j p Hj Hl. apply Hoth; [by intros ->; apply Hj, in_singleton|cbn in Hl; lia].
  - done.
  - intros j r d ->%in_singleton Hr' Hw Hsd. injection Hr' as Hr'. rewrite (walk_dead _ _ _ _ e l) in Hw by done. injection Hw as _ <-. congruence.
  - done.
Qed.

Lemma tree_single s K x : held s K x -> 0 <= x < 2 ^ 47 -> is_table_frame (ram s) x -> tree s K 1 x.
Proof using.
  intros Hh Hr Hf. split.
  - intros y (p & Hp & Hy). destruct p; [|cbn in Hp; lia]. injection Hy as <-. done.
  - intros p q y Hp Hq. destruct p, q; cbn in Hp, Hq; [done|lia..].
Qed.
Lemma walk_single m x j : walk m x [j] = match entry_of m x j with Some e => if present e then Some (O, e) else None | None => None end.
Proof using. cbn. destruct (entry_of m x j) as [e|]; [|done]. by destruct (present e). Qed.

(** A writable page is marked in both tables. *)
Definition marked_pair (s : Mem) (t new : Z) (i : nat) (e : Z) : Mem :=
  with_refcounts (poke (poke s t i (cow_e e)) new i (cow_e e))
    (<[pte_addr e := bump (PAGE_REFCOUNTS s !! pte_addr e)]> (PAGE_REFCOUNTS s)).
Lemma clones_mark t new i s K e :
  kernel_ok k3 s K -> ready_to_clone 1 t new s K -> (i < 512)%nat -> entry_of (ram s) t i = Some e -> present e = true ->
  shares e = true -> clones 1 t new [i] s K (marked_pair s t new i e) K.
Proof using HL.
  intros Hk [Ht Hn Ha Ho] Hi He Hp Hs. destruct (tr_held _ _ _ _ Hn new (owns_root _ 1 _ ltac:(lia))) as (Hhn & Hrn & Hfn).
  destruct (tr_held _ _ _ _ Ht t (owns_root _ 1 _ ltac:(lia))) as (Hht & Hrt & Hft).
  assert (t <> new) as Hne by (intros ->; apply (Ha new); apply owns_root; lia).
  set (s1 := poke s t i (cow_e e)). set (s2 := poke s1 new i (cow_e e)).
  destruct (cow_e_ok e Hp Hs) as (_ & _ & _ & Hpc & _).
  assert (forall j, entry_of (ram s2) t j = if decide (j = i) then Some (cow_e e) else entry_of (ram s) t j) as Het.
  { intros j. transitivity (entry_of (ram s1) t j); [unfold entry_of; cbn; by rewrite put_word_ne|]. by apply entry_poke. }
  assert (forall j, entry_of (ram s2) new j = if decide (j = i) then Some (cow_e e) else entry_of (ram s) new j) as Hen.
  { intros j. unfold s2. rewrite entry_poke by (done || by apply poke_frames). destruct (decide (j = i)); [done|].
    unfold entry_of; cbn; by rewrite put_word_ne. }
  assert (walk (ram s) t [i] = Some (O, e)) as Hw by (by apply walk_leaf).
  assert (quiet k3 s K (marked_pair s t new i e) K) as Hq.
  { pose proof (quiet_poke k3 s K t i (cow_e e) Hk Hht) as Q1. fold s1 in Q1.
    pose proof (quiet_poke k3 s1 K new i (cow_e e) (q_ok _ _ _ _ _ Q1) (quiet_held _ _ _ _ _ _ Q1 Hhn)) as Q2.
    eapply quiet_trans; [exact Q1|]. eapply quiet_trans; [exact Q2|]. apply quiet_refcounts, Q2. }
  split.
  - done.
  - intros x _ Hxn Hxt. cbn. rewrite !put_word_ne; [done| |done]. intros ->. apply Hxt, owns_root. lia.
  - intros [|j p] Hl; [done|cbn in Hl; lia].
  - intros j [|? r] Hl; [|done]. change (ram (marked_pair s t new i e)) with (ram s2). rewrite !walk_single, Het.
    destruct (decide (j ∈ [i])) as [->%in_singleton|Hj]; [rewrite decide_True by done; rewrite He, Hp, Hpc; done|].
    rewrite decide_False; [done|]. by intros ->; apply Hj, in_singleton.
  - intros j [|? r] Hl; [|done]. change (ram (marked_pair s t new i e)) with (ram s2). rewrite !walk_single, Hen.
    destruct (decide (j ∈ [i])) as [->%in_singleton|Hj]; [rewrite decide_True by done; rewrite He, Hp, Hpc; done|].
    rewrite decide_False; [done|]. by intros ->; apply Hj, in_singleton.
  - intros j p x _ Hl. cbn in Hl. lia.
  - intros j p _ Hl. cbn in Hl. lia.
  - apply tree_single; [by eapply quiet_held|done|by apply (q_frames _ _ _ _ _ Hq)].
  - intros j [|? r] d ->%in_singleton Hl Hwd Hsd; [|done]. rewrite Hw in Hwd. injection Hwd as <-. apply lookup_insert_eq.
  - intros p Hp'. apply lookup_insert_ne. apply (Hp' i [] e); [by apply in_singleton|done..].
Qed.

(** *** A table below *)

(** The whole tree at [t] has been cloned to the new tree at [new]. *)
Record cloned (l : nat) (t new : Z) (s : Mem) (K : gset Z) (s' : Mem) (K' : gset Z) : Prop := {
  cd_quiet : quiet k3 s K s' K';
  cd_keep x : held s K x -> ~ owns (ram s) l t x -> ram s' !! x = ram s !! x;
  cd_src p : (length p < l)%nat -> reach (ram s') t p = reach (ram s) t p;
  cd_src_walk p : length p = l -> walk (ram s') t p = cowed <$> walk (ram s) t p;
  cd_new_walk p : length p = l -> walk (ram s') new p = cowed <$> walk (ram s) t p;
  cd_new_fresh x : owns (ram s') l new x -> free s x = true;
  cd_new_tree : tree s' K' l new;
  cd_count p e : length p = l -> walk (ram s) t p = Some (O, e) -> shares e = true ->
    PAGE_REFCOUNTS s' !! pte_addr e = Some (bump (PAGE_REFCOUNTS s !! pte_addr e));
  cd_count_other x :
    (forall p e, length p = l -> walk (ram s) t p = Some (O, e) -> shares e = true -> pte_addr e <> x) ->
    PAGE_REFCOUNTS s' !! x = PAGE_REFCOUNTS s !! x;
}.

(** Only what lies below entry [i] of [t] changed. *)
Section Below.
Context (l : nat) (t : Z) (i : nat) (s : Mem) (K : gset Z) (e : Z) (s1 : Mem).
Context (Ht : tree s K (S l) t) (He : entry_of (ram s) t i = Some e) (Hl : links e = true).
Context (Hkeep : forall x, held s K x -> ~ owns (ram s) l (pte_addr e) x -> ram s1 !! x = ram s !! x).
Context (Hshape : forall p, (length p < l)%nat -> reach (ram s1) (pte_addr e) p = reach (ram s) (pte_addr e) p).

Lemma below_root : ram s1 !! t = ram s !! t.
Proof using Ht He Hl Hkeep.
  apply Hkeep; [apply (tr_held _ _ _ _ Ht), owns_root; lia|]. by apply (tree_no_loop s K l t i e Ht).
Qed.
Lemma below_other j d x : entry_of (ram s) t j = Some d -> links d = true -> j <> i -> owns (ram s) l (pte_addr d) x -> ram s1 !! x = ram s !! x.
Proof using Ht He Hl Hkeep.
  intros Hd Hld Hne Hx. apply Hkeep; [apply (tr_held _ _ _ _ Ht); by eapply owns_child|].
  intros Hx'. apply Hne. by apply (tree_sep s K l t j i d e x Ht).
Qed.
Lemma below_reach p : (length p <= l)%nat -> reach (ram s1) t p = reach (ram s) t p.
Proof using Ht He Hl Hkeep Hshape.
  intros Hp. destruct p as [|j p]; [done|]. cbn [reach]. unfold entry_of at 1. rewrite below_root. fold (entry_of (ram s) t j).
  destruct (entry_of (ram s) t j) as [d|] eqn:Hd; [|done]. destruct (links d) eqn:Hld; [|done]. cbn in Hp. destruct (decide (j = i)) as [->|Hne].
  - rewrite He in Hd. injection Hd as <-. apply Hshape. lia.
  - apply (reach_ext _ _ l); [intros x Hx; by apply (below_other j d x)|lia].
Qed.
Lemma below_walk j r : (0 < l)%nat -> length r = l ->
  walk (ram s1) t (j :: r) = if decide (j = i) then walk (ram s1) (pte_addr e) r else walk (ram s) t (j :: r).
Proof using Ht He Hl Hkeep.
  intros Hl0 Hr. assert (r <> []) as Hnil by (intros ->; cbn in Hr; lia).
  assert (entry_of (ram s1) t j = entry_of (ram s) t j) as Hent by (unfold entry_of; by rewrite below_root).
  destruct (decide (j = i)) as [->|Hne]; [by rewrite (walk_link _ _ _ _ e) by (done || by rewrite Hent)|].
  cbn [walk]. rewrite Hent. destruct (entry_of (ram s) t j) as [d|] eqn:Hd; [|done]. destruct (links d) eqn:Hld; [|done].
  rewrite (walk_ext_owns (ram s) _ l (pte_addr d)); [done|intros x Hx; by apply (below_other j d x)|lia].
Qed.
End Below.

Section Sub.
Context (l : nat) (t new : Z) (i : nat) (s : Mem) (K : gset Z) (e : Z) (new' : Z) (s1 : Mem) (K1 : gset Z) (e1 : Z).
Context (Hl0 : (0 < l)%nat) (Hk : kernel_ok k3 s K) (Hready : ready_to_clone (S l) t new s K) (Hi : (i < 512)%nat).
Context (He : entry_of (ram s) t i = Some e) (Hl : links e = true).
Context (Hsub : cloned l (pte_addr e) new' s K s1 K1).
Context (He1 : pte_addr e1 = new') (Hl1 : links e1 = true).

Let s2 := poke s1 new i e1.

Lemma sub_held : held s K new /\ 0 <= new < 2 ^ 47 /\ is_table_frame (ram s) new.
Proof using All. apply (tr_held _ _ _ _ (rc_new _ _ _ _ _ Hready)), owns_root. lia. Qed.
Lemma sub_new x : owns (ram s) (S l) new x -> ram s1 !! x = ram s !! x.
Proof using All.
  intros Hx. apply (cd_keep _ _ _ _ _ _ _ Hsub).
  - by apply (tr_held _ _ _ _ (rc_new _ _ _ _ _ Hready)).
  - intros Hx'. apply (rc_apart _ _ _ _ _ Hready x); [by eapply owns_child|done].
Qed.
Lemma sub_tree_new : tree s1 K1 (S l) new.
Proof using All.
  apply (tree_same_shape k3 s K); [apply Hsub| |apply Hready]. intros p Hp. apply (reach_ext _ _ (S l)); [apply sub_new|lia].
Qed.
(** The source after the subtree was cloned. *)
Lemma sub_src_reach p : (length p <= l)%nat -> reach (ram s1) t p = reach (ram s) t p.
Proof using All. apply (below_reach l t i s K e); [apply Hready|done|done|apply Hsub..]. Qed.
Lemma sub_src_walk j r : length r = l ->
  walk (ram s1) t (j :: r) = if decide (j = i) then cowed <$> walk (ram s) t (j :: r) else walk (ram s) t (j :: r).
Proof using All.
  intros Hr. rewrite (below_walk l t i s K e) by (done || apply Hready || apply Hsub). destruct (decide (j = i)) as [->|Hne]; [|done].
  assert (r <> []) as Hnil by (intros ->; cbn in Hr; lia).
  rewrite (walk_link (ram s) _ _ _ e) by done. by apply (cd_src_walk _ _ _ _ _ _ _ Hsub).
Qed.
Lemma sub_not_src : ~ owns (ram s1) (S l) t new.
Proof using All.
  intros (p & Hp & Hx). rewrite sub_src_reach in Hx by lia. apply (rc_apart _ _ _ _ _ Hready new); [by exists p|apply owns_root; lia].
Qed.
Lemma sub_not_new : ~ owns (ram s1) l new' new.
Proof using All. intros Hx%(cd_new_fresh _ _ _ _ _ _ _ Hsub). destruct sub_held as ((Hf & _) & _). congruence. Qed.
Lemma sub_frame : is_table_frame (ram s1) new.
Proof using All. apply (q_frames _ _ _ _ _ (cd_quiet _ _ _ _ _ _ _ Hsub)), sub_held. Qed.
Lemma sub_entry j : entry_of (ram s2) new j = if decide (j = i) then Some e1 else entry_of (ram s1) new j.
Proof using All. apply entry_poke; [apply sub_frame|done]. Qed.
Lemma sub_new_reach p : (length p <= l)%nat -> reach (ram s2) new (i :: p) = reach (ram s1) new' p.
Proof using All.
  intros Hp. rewrite (reach_link _ _ _ e1), He1 by (done || by rewrite sub_entry, decide_True).
  by apply (proj1 (poke_outside s1 new i e1 l new' sub_not_new)).
Qed.
Lemma sub_other_reach j p : j <> i -> (length p <= l)%nat -> reach (ram s2) new (j :: p) = reach (ram s) new (j :: p).
Proof using All.
  intros Hj Hp. transitivity (reach (ram s1) new (j :: p)).
  - apply (poke_other s1 K1 l); [apply sub_tree_new|apply sub_frame|done..].
  - apply (reach_ext _ _ (S l)); [apply sub_new|cbn; lia].
Qed.
Lemma sub_quiet : quiet k3 s1 K1 s2 K1.
Proof using All. apply quiet_poke; [apply Hsub|]. eapply quiet_held; [apply Hsub|apply sub_held]. Qed.
Lemma sub_new_cases p x : (length p < S l)%nat -> reach (ram s2) new p = Some x ->
  (exists q, p = i :: q /\ (length q < l)%nat /\ reach (ram s1) new' q = Some x) \/
  ((forall q, p <> i :: q) /\ reach (ram s) new p = Some x).
Proof using All.
  intros Hp Hx. destruct p as [|j p]; [right; by split|]. cbn in Hp. destruct (decide (j = i)) as [->|Hne].
  - left. exists p. rewrite sub_new_reach in Hx by lia. split_and!; [done|lia|done].
  - right. split; [congruence|]. by rewrite <-sub_other_reach by (done || lia).
Qed.
Lemma sub_new_tree : tree s2 K1 (S l) new.
Proof using All.
  pose proof (cd_new_tree _ _ _ _ _ _ _ Hsub) as Hnt. pose proof (rc_new _ _ _ _ _ Hready) as Hot.
  assert (forall q x p, (length q < l)%nat -> reach (ram s1) new' q = Some x -> (length p < S l)%nat -> reach (ram s) new p = Some x -> False) as Hdis.
  { intros q x p Hq Hx Hp Hx'. assert (free s x = true) as Hfr by (apply (cd_new_fresh _ _ _ _ _ _ _ Hsub); by exists q).
    destruct (tr_held _ _ _ _ Hot x) as ((Hf & _) & _); [by exists p|]. congruence. }
  split.
  - intros x (p & Hp & Hx). destruct (sub_new_cases p x Hp Hx) as [(q & -> & Hq & Hx')|[_ Hx']].
    + destruct (tr_held _ _ _ _ Hnt x) as (H1 & H2 & H3); [by exists q|].
      split; [by apply (quiet_held k3 s1 K1); [apply sub_quiet|]|]. split; [done|by apply poke_frames].
    + destruct (tr_held _ _ _ _ Hot x) as (H1 & H2 & H3); [by exists p|].
      split; [eapply quiet_held; [apply sub_quiet|]; by eapply quiet_held; [apply Hsub|]|]. split; [done|].
      apply poke_frames. by apply (q_frames _ _ _ _ _ (cd_quiet _ _ _ _ _ _ _ Hsub)).
  - intros p q x Hp Hq Hx Hx'. destruct (sub_new_cases p x Hp Hx) as [(p' & -> & Hp' & Hxp)|[Hnp Hxp]];
      destruct (sub_new_cases q x Hq Hx') as [(q' & -> & Hq' & Hxq)|[Hnq Hxq]].
    + f_equal. by apply (tr_inj _ _ _ _ Hnt p' q' x).
    + by destruct (Hdis p' x q).
    + by destruct (Hdis q' x p).
    + by apply (tr_inj _ _ _ _ Hot p q x).
Qed.

Lemma clones_sub : clones (S l) t new [i] s K s2 K1.
Proof using All.
  destruct (poke_outside s1 new i e1 (S l) t sub_not_src) as [Hsr Hsw].
  assert (forall j r, length r = l -> walk (ram s2) t (j :: r) = walk (ram s1) t (j :: r)) as Hst by (intros j r Hr; apply Hsw; cbn; lia).
  split.
  - eapply quiet_trans; [apply Hsub|apply sub_quiet].
  - intros x Hh Hn Ho. cbn. rewrite put_word_ne by done. apply (cd_keep _ _ _ _ _ _ _ Hsub x Hh). intros Hx. apply Ho. by eapply owns_child.
  - intros p Hp. etransitivity; [apply Hsr; lia|]. apply sub_src_reach. lia.
  - intros j r [= Hr]. rewrite Hst, sub_src_walk by done. destruct (decide (j = i)) as [->|Hne].
    + by rewrite decide_True by (by apply in_singleton).
    + by rewrite decide_False by (by rewrite in_singleton).
  - intros j r [= Hr]. destruct (decide (j ∈ [i])) as [->%in_singleton|Hj].
    + assert (r <> []) as Hnil by (intros ->; cbn in Hr; lia).
      rewrite (walk_link _ _ _ _ e1), He1, (walk_link (ram s) _ _ _ e) by (done || by rewrite sub_entry, decide_True).
      etransitivity; [apply (poke_outside s1 new i e1 l new' sub_not_new); lia|]. by apply (cd_new_walk _ _ _ _ _ _ _ Hsub).
    + rewrite in_singleton in Hj. transitivity (walk (ram s1) new (j :: r)).
      * apply (poke_other s1 K1 l); [apply sub_tree_new|apply sub_frame|done|done|lia].
      * apply (walk_ext_owns _ _ (S l)); [apply sub_new|cbn; lia].
  - intros j p x ->%in_singleton Hp Hx. cbn in Hp. rewrite sub_new_reach in Hx by lia. apply (cd_new_fresh _ _ _ _ _ _ _ Hsub). exists p. split; [lia|done].
  - intros j p Hj Hp. rewrite in_singleton in Hj. apply sub_other_reach; [done|cbn in Hp; lia].
  - apply sub_new_tree.
  - intros j r d ->%in_singleton [= Hr] Hw Hs. assert (r <> []) as Hnil by (intros ->; cbn in Hr; lia).
    rewrite (walk_link _ _ _ _ e) in Hw by done. by apply (cd_count _ _ _ _ _ _ _ Hsub r d).
  - intros x Hx. apply (cd_count_other _ _ _ _ _ _ _ Hsub). intros p d Hp Hw Hs. assert (p <> []) as Hnil by (intros ->; cbn in Hp; lia).
    apply (Hx i p d); [by apply in_singleton|cbn; lia|by rewrite (walk_link _ _ _ _ e)|done].
Qed.
End Sub.
End Clones.
