(* ===== verification/CowTables.v ===== *)
(** * Cloning page tables

    [cow_clone_table] on a whole tree: the new tree maps what the old one maps, the writable
    pages read-only and marked in both, or memory ran out and the old tree still maps every
    page it mapped. *)
From S2P Require Import Prelude PageAlloc Paging Mapping Cow CowScratch CowClone.

Section Tables.
Context `{HP : Paging} {HL : PagingLaws} (k3 : Z).

(** ** A clone that found no memory *)
Record stuck (l : nat) (t : Z) (N : Z -> Prop) (s : Mem) (K : gset Z) (s' : Mem) : Prop := {
  sk_cr3 : cr3_reg s' = cr3_reg s;
  sk_full x : free s' x = false;
  sk_root j : j <> 510%nat -> entry_of (ram s') (cr3_reg s) j = entry_of (ram s) (cr3_reg s) j;
  sk_keep x : held s K x -> ~ N x -> ~ owns (ram s) l t x -> ram s' !! x = ram s !! x;
  sk_src p : (length p < l)%nat -> reach (ram s') t p = reach (ram s) t p;
  sk_src_walk p : length p = l -> walk (ram s') t p = walk (ram s) t p \/ walk (ram s') t p = cowed <$> walk (ram s) t p;
}.

Lemma clones_stuck l t new idx s K s1 K1 s2 :
  clones k3 l t new idx s K s1 K1 -> stuck l t (eq new) s1 K1 s2 -> stuck l t (eq new) s K s2.
Proof using HL.
  intros Hc [Hcr Hf Hr Hk Hs Hw]. pose proof (cl_quiet _ _ _ _ _ _ _ _ _ Hc) as Hq. rewrite (q_cr3 _ _ _ _ _ Hq) in Hcr, Hr. split; try done.
  - intros j Hj. by rewrite Hr, (q_root _ _ _ _ _ Hq).
  - intros x Hx Hn Ho. rewrite Hk; [apply (cl_keep _ _ _ _ _ _ _ _ _ Hc); [done|by intros ->|done]|by eapply quiet_held|done|].
    intros (p & Hp & Hx'). apply Ho. exists p. by rewrite <-(cl_src _ _ _ _ _ _ _ _ _ Hc).
  - intros p Hp. by rewrite Hs, (cl_src _ _ _ _ _ _ _ _ _ Hc).
  - intros [|i r] Hp; [by left|]. pose proof (cl_src_walk _ _ _ _ _ _ _ _ _ Hc i r Hp) as Hw1. destruct (decide (i ∈ idx)).
    + right. destruct (Hw (i :: r) Hp) as [-> | ->]; rewrite Hw1; [done|apply cowed_twice].
    + rewrite <-Hw1. by apply Hw.
Qed.
Lemma stuck_below l t new i s K e s1 :
  (0 < l)%nat -> tree s K (S l) t -> entry_of (ram s) t i = Some e -> links e = true ->
  stuck l (pte_addr e) (fun _ => False) s K s1 -> stuck (S l) t (eq new) s K s1.
Proof using.
  intros Hl0 Ht He Hl [Hcr Hf Hr Hk Hs Hw].
  assert (forall x, held s K x -> ~ owns (ram s) l (pte_addr e) x -> ram s1 !! x = ram s !! x) as Hkeep by (intros x Hx; apply Hk; [done|by intros []]).
  split; try done.
  - intros x Hx _ Ho. apply Hkeep; [done|]. intros Hx'. apply Ho. by eapply owns_child.
  - intros p Hp. apply (below_reach l t i s K e); try done. lia.
  - intros [|j r] Hp; [done|]. injection Hp as Hp. rewrite (below_walk l t i s K e) by done. destruct (decide (j = i)) as [->|]; [|by left].
    assert (r <> []) as Hnil by (intros ->; cbn in Hp; lia). rewrite (walk_link (ram s) _ _ _ e) by done. by apply Hw.
Qed.

(** ** One entry *)

(** No page is mapped writable twice below [t]. *)
Definition once (l : nat) (t : Z) (s : Mem) : Prop :=
  forall p q e d, length p = l -> length q = l -> walk (ram s) t p = Some (O, e) -> walk (ram s) t q = Some (O, d) ->
    shares e = true -> shares d = true -> pte_addr e = pte_addr d -> p = q.

(** What cloning the table [t] promises. *)
Definition clones_table (l : nat) (clone : Z -> st Mem unit Z) : Prop :=
  forall t s K, kernel_ok k3 s K -> tree s K l t -> once l t s ->
  exists r s', clone t s = (r, s') /\
    match r with
    | Ok new => (0 <= new < 2 ^ 47 /\ new mod PAGE_4K = 0) /\ exists K', cloned k3 l t new s K s' K'
    | Err _ => stuck l t (fun _ => False) s K s'
    | Panic => False
    end.

Lemma PhysAddr_pte e : PhysAddr_new (pte_addr e) = Some (pte_addr e).
Proof using HL. apply PhysAddr_new_ok, pte_addr_ok. Qed.
Lemma mark_run s t new i e :
  t <> new -> is_table_frame (ram s) t -> 0 <= t < 2 ^ 47 -> is_table_frame (ram s) new -> 0 <= new < 2 ^ 47 -> (i < 512)%nat ->
  present e = true -> shares e = true ->
  (_ ← set_addr t i (pte_addr e) (cow_flags (pte_flags e)); _ ← set_addr new i (pte_addr e) (cow_flags (pte_flags e)); refcount_inc (pte_addr e))
    s = (Ok (E := unit) tt, marked_pair s t new i e).
Proof using HL.
  intros Hne Ht Htr Hn Hnr Hi Hp Hs. destruct (cow_e_ok e Hp Hs) as (Hm & _).
  rewrite (st_bind_eq _ _ _ _ _ (set_addr_ok s t i _ _ _ Ht Htr Hi Hm)).
  rewrite (st_bind_eq _ _ _ _ _ (set_addr_ok (poke s t i (cow_e e)) new i _ _ _ (poke_frames _ _ _ _ _ Hn) Hnr Hi Hm)).
  unfold refcount_inc, marked_pair, bump, mbind, st_bind, st_get, st_put. cbn. by destruct (PAGE_REFCOUNTS s !! pte_addr e).
Qed.

Lemma once_below l t i e s : (0 < l)%nat -> once (S l) t s -> entry_of (ram s) t i = Some e -> links e = true -> once l (pte_addr e) s.
Proof using.
  intros Hl0 Ho He Hl p q d d' Hp Hq Hwp Hwq Hd Hd' Heq.
  assert (p <> [] /\ q <> []) as [Hpn Hqn] by (split; intros ->; cbn in *; lia).
  assert (i :: p = i :: q) as [= ->]; [|done]. apply (Ho _ _ d d'); [cbn; lia|cbn; lia| | |done..]; by rewrite (walk_link _ _ _ _ e).
Qed.

Lemma cow_entry_ok clone l t new i s K :
  (0 < l -> clones_table l clone)%nat -> kernel_ok k3 s K -> ready_to_clone (S l) t new s K -> (i < 512)%nat -> vacant (S l) new i s ->
  exists r s', cow_entry clone (Nat.eqb (S l) 1) t new i s = (r, s') /\
    match r with
    | Ok _ => exists K', clones k3 (S l) t new [i] s K s' K'
    | Err _ => stuck (S l) t (eq new) s K s'
    | Panic => False
    end.
Proof using HL.
  intros Hclone Hk Hready Hi Hv.
  destruct (tr_held _ _ _ _ (rc_src _ _ _ _ _ Hready) t (owns_root _ (S l) _ ltac:(lia))) as (Hth & Htr & Htf).
  destruct (tr_held _ _ _ _ (rc_new _ _ _ _ _ Hready) new (owns_root _ (S l) _ ltac:(lia))) as (Hnh & Hnr & Hnf).
  destruct (entry_at_ok (E := unit) s t i Htf Htr Hi) as (e & He & Hrun).
  unfold cow_entry. rewrite (st_bind_eq _ _ _ _ _ Hrun). change (contains (pte_flags e) PRESENT) with (present e). cbv zeta.
  destruct (present e) eqn:Hp; cbn [negb]; [|exists (Ok tt), s; split; [done|]; exists K; by apply (clones_skip k3 _ _ _ _ _ _ e)].
  rewrite (st_bind_eq _ _ s (pte_addr e) s) by (unfold st_lift; by rewrite PhysAddr_pte).
  assert (links e = negb (contains (pte_flags e) HUGE_PAGE)) as Hlk by (unfold links; by rewrite Hp).
  assert (shares e = contains (pte_flags e) WRITABLE && links e) as Hsh by (unfold shares; by rewrite Hlk).
  destruct (contains (pte_flags e) HUGE_PAGE) eqn:Hh; cbn [negb] in Hlk.
  { rewrite put_entry_ok by done. eexists _, _. split; [done|]. exists K. apply clones_share; try done; [by right|]. by rewrite Hsh, Hlk, andb_false_r. }
  rewrite Hlk, andb_true_r in Hsh. destruct (Nat.eqb_spec (S l) 1) as [Hl|Hl].
  - injection Hl as ->. destruct (contains (pte_flags e) WRITABLE) eqn:Hw.
    + assert (t <> new) as Hne by (intros ->; apply (rc_apart _ _ _ _ _ Hready new); apply owns_root; lia).
      rewrite mark_run by done. eexists _, _. split; [done|]. exists K. by apply clones_mark.
    + rewrite put_entry_ok by done. eexists _, _. split; [done|]. exists K. apply clones_share; try done. by left.
  - assert (0 < l)%nat as Hl0 by lia.
    destruct (Hclone Hl0 (pte_addr e) s K Hk) as (r & s1 & Hc & Hr);
      [by eapply tree_child; [apply Hready|..]|apply (once_below l t i e s Hl0 (rc_once _ _ _ _ _ Hready) He Hlk)|].
    destruct r as [new'|[]|]; [|exists (Err tt), s1; split; [unfold mbind, st_bind; by rewrite Hc|by apply (stuck_below l t new i s K e); [|apply Hready|..]]|done].
    destruct Hr as [[Hn1 Hn2] (K1 & Hcl)]. rewrite (st_bind_eq _ _ _ _ _ Hc).
    destruct (pte_make_ok new' (pte_flags e) Hn2 ltac:(change MAX_PHYS with (2 ^ 52); lia) (pte_flags_ok e)) as (e1 & Hm & Ha1 & Hf1).
    rewrite (set_addr_ok s1 new i new' (pte_flags e) e1); [| |done|done|done].
    + eexists _, _. split; [done|]. exists K1. apply (clones_sub k3 l t new i s K e new'); try done. unfold links, present. by rewrite Hf1.
    + by apply (q_frames _ _ _ _ _ (cd_quiet _ _ _ _ _ _ _ _ Hcl)).
Qed.

(** ** All entries of a table *)
Lemma cow_entries_ok clone l t new idx s K :
  (0 < l -> clones_table l clone)%nat -> kernel_ok k3 s K -> ready_to_clone (S l) t new s K -> NoDup idx ->
  (forall i, i ∈ idx -> (i < 512)%nat /\ vacant (S l) new i s) -> idx <> [] ->
  exists r s', for_each idx (cow_entry clone (Nat.eqb (S l) 1) t new) s = (r, s') /\
    match r with
    | Ok _ => exists K', clones k3 (S l) t new idx s K s' K'
    | Err _ => stuck (S l) t (eq new) s K s'
    | Panic => False
    end.
Proof using HL.
  intros Hclone. revert s K. induction idx as [|i idx IH]; intros s K Hk Hready Hnd Hv Hne; [done|]. apply NoDup_cons in Hnd as [Hi Hnd].
  destruct (Hv i (list_elem_of_here _ _)) as [Hi512 Hvi]. cbn [for_each].
  destruct (cow_entry_ok clone l t new i s K Hclone Hk Hready Hi512 Hvi) as (r & s1 & Hrun & Hr).
  destruct r as [[]|[]|]; [|exists (Err tt), s1; split; [unfold mbind, st_bind; by rewrite Hrun|done]|done].
  destruct Hr as (K1 & Hc). rewrite (st_bind_eq _ _ _ _ _ Hrun). destruct (decide (idx = [])) as [->|Hne'].
  { exists (Ok tt), s1. split; [done|by exists K1]. }
  destruct (IH s1 K1) as (r & s2 & Hrun2 & Hr); [apply Hc|eapply clones_ready; [..|done|done]; lia|done| |done|].
  { intros j Hj. destruct (Hv j (list_elem_of_further _ _ _ Hj)) as [Hj512 Hvj]. split; [done|]. eapply clones_vacant; [done| |done].
    rewrite in_singleton. by intros ->. }
  exists r, s2. split; [done|]. destruct r as [[]|[]|]; [|by eapply clones_stuck|done].
  destruct Hr as (K2 & Hc2). exists K2. apply (clones_app k3 _ _ _ [i] idx _ _ s1 K1); [lia| |done..]. intros j ->%in_singleton. done.
Qed.

(** A new table, all zero. *)
Lemma zero_entry m x i : m !! x = Some (replicate 512 0) -> (i < 512)%nat -> entry_of m x i = Some 0.
Proof using. intros Hx Hi. unfold entry_of. rewrite Hx. by apply lookup_replicate_2. Qed.
Lemma zero_reach m x l p y : m !! x = Some (replicate 512 0) -> (length p < l)%nat -> reach m x p = Some y -> p = [] /\ y = x.
Proof using HL.
  intros Hx Hp Hy. destruct p as [|i p]; [split; [done|by injection Hy]|]. apply reach_cons in Hy as (e & He & Hl & _).
  unfold entry_of in He. rewrite Hx in He. apply lookup_replicate in He as [-> _]. unfold links, present in Hl. by rewrite pte_zero in Hl.
Qed.
Lemma outside_none m x i r : is_table_frame m x -> (512 <= i)%nat -> walk m x (i :: r) = None /\ reach m x (i :: r) = None.
Proof using.
  intros (ws & Hx & Hl) Hi. assert (entry_of m x i = None) as He by (unfold entry_of; rewrite Hx; apply lookup_ge_None_2; lia).
  cbn [walk reach]. by rewrite He.
Qed.

Section New.
Context (l : nat) (t : Z) (s : Mem) (K : gset Z) (new : Z) (s1 : Mem) (K1 : gset Z).
Context (Hk : kernel_ok k3 s K) (Ht : tree s K (S l) t) (Ho : once (S l) t s).
Context (Hq : quiet k3 s K s1 K1) (Hrc : PAGE_REFCOUNTS s1 = PAGE_REFCOUNTS s).
Context (Hkeep : forall x, held s K x -> ram s1 !! x = ram s !! x).
Context (Hnew : free s new = true /\ free s1 new = false /\ 0 <= new < 2 ^ 47 /\ ram s1 !! new = Some (replicate 512 0) /\ new ∉ K1).

Lemma new_frame : is_table_frame (ram s1) new.
Proof using Hnew. destruct Hnew as (_ & _ & _ & Hz & _). exists (replicate 512 0). split; [done|apply length_replicate]. Qed.
Lemma new_held : held s1 K1 new.
Proof using Hnew Hq Hk.
  destruct Hnew as (Hf & Hf1 & Hr & Hz & HK). by apply (fresh_held k3 s K).
Qed.
Lemma new_src_keep x : owns (ram s) (S l) t x -> ram s1 !! x = ram s !! x.
Proof using Ht Hkeep. intros Hx. by apply Hkeep, (tr_held _ _ _ _ Ht). Qed.
Lemma new_src_reach p : (length p <= S l)%nat -> reach (ram s1) t p = reach (ram s) t p.
Proof using Ht Hkeep. intros Hp. apply (reach_ext _ _ (S l)); [apply new_src_keep|done]. Qed.
Lemma new_src_walk p : (length p <= S l)%nat -> walk (ram s1) t p = walk (ram s) t p.
Proof using Ht Hkeep. intros Hp. apply (walk_ext_owns _ _ (S l)); [apply new_src_keep|done]. Qed.
Lemma new_ready : ready_to_clone (S l) t new s1 K1.
Proof using HL Hk Ht Ho Hq Hkeep Hnew.
  assert (tree s1 K1 (S l) t) as Ht1 by (apply (tree_same_shape k3 s K); [done| |done]; intros p Hp; apply new_src_reach; lia).
  destruct Hnew as (Hf & Hf1 & Hr & Hz & HK). split; [done|..].
  - split.
    + intros x (p & Hp & Hx). destruct (zero_reach _ _ _ _ _ Hz Hp Hx) as [-> ->]. split; [apply new_held|split; [done|apply new_frame]].
    + intros p q x Hp Hq' Hx Hx'. destruct (zero_reach _ _ _ _ _ Hz Hp Hx) as [-> _]. by destruct (zero_reach _ _ _ _ _ Hz Hq' Hx') as [-> _].
  - intros x (p & Hp & Hx) (q & Hq' & Hx'). destruct (zero_reach _ _ _ _ _ Hz Hq' Hx') as [-> ->].
    rewrite new_src_reach in Hx by lia. destruct (tr_held _ _ _ _ Ht new) as ((Hf' & _) & _); [by exists p|]. by rewrite Hf in Hf'.
  - intros p q e d Hp Hq' Hwp Hwq. rewrite new_src_walk in Hwp, Hwq by lia. by apply Ho.
Qed.

Section Done.
Context (s2 : Mem) (K2 : gset Z) (Hc : clones k3 (S l) t new (seq 0 512) s1 K1 s2 K2).
Lemma all_or_none {A} (i : nat) (P Q : A) : (i < 512)%nat -> (if decide (i ∈ seq 0 512) then P else Q) = P.
Proof using. intros Hi. apply decide_True. apply elem_of_seq. lia. Qed.
Lemma all_or_none' {A} (i : nat) (P Q : A) : (512 <= i)%nat -> (if decide (i ∈ seq 0 512) then P else Q) = Q.
Proof using. intros Hi. apply decide_False. rewrite elem_of_seq. lia. Qed.
Lemma done_walks p : length p = S l ->
  walk (ram s2) t p = cowed <$> walk (ram s) t p /\ walk (ram s2) new p = cowed <$> walk (ram s) t p.
Proof using HL Ht Hkeep Hnew Hc.
  intros Hp. destruct p as [|i r]; [done|]. rewrite (cl_src_walk _ _ _ _ _ _ _ _ _ Hc), (cl_new_walk _ _ _ _ _ _ _ _ _ Hc) by done.
  rewrite new_src_walk by lia. destruct (decide (i < 512)%nat) as [Hi|Hi]; [by rewrite !all_or_none|]. rewrite !all_or_none' by lia.
  destruct (tr_held _ _ _ _ Ht t (owns_root _ (S l) _ ltac:(lia))) as (_ & _ & Hf).
  destruct (outside_none _ _ i r Hf ltac:(lia)) as [-> _]. destruct (outside_none _ _ i r new_frame ltac:(lia)) as [-> _]. done.
Qed.
Lemma cloned_all : cloned k3 (S l) t new s K s2 K2.
Proof using All.
  destruct Hnew as (Hf & Hf1 & Hr & Hz & HK). split.
  - eapply quiet_trans; [done|apply Hc].
  - intros x Hx Hn. rewrite (cl_keep _ _ _ _ _ _ _ _ _ Hc); [by apply Hkeep|by eapply quiet_held| |].
    + intros ->. destruct Hx as [Hx _]. by rewrite Hf in Hx.
    + by rewrite (owns_ext (ram s)) by apply new_src_keep.
  - intros p Hp. rewrite (cl_src _ _ _ _ _ _ _ _ _ Hc) by done. apply new_src_reach. lia.
  - intros p Hp. by apply done_walks.
  - intros p Hp. by apply done_walks.
  - intros x (p & Hp & Hx). destruct p as [|i p]; [by injection Hx as <-|]. destruct (decide (i < 512)%nat) as [Hi|Hi].
    + apply (q_free _ _ _ _ _ Hq). apply (cl_new_fresh _ _ _ _ _ _ _ _ _ Hc i p x); [apply elem_of_seq; lia|done|done].
    + rewrite (cl_new_other _ _ _ _ _ _ _ _ _ Hc) in Hx; [|rewrite elem_of_seq; lia|done].
      destruct (outside_none _ _ i p new_frame ltac:(lia)) as [_ Hno]. by rewrite Hno in Hx.
  - apply Hc.
  - intros [|i r] e Hp Hw Hs; [done|]. rewrite <-Hrc. rewrite <-new_src_walk in Hw by lia. destruct (decide (i < 512)%nat) as [Hi|Hi].
    + apply (cl_count _ _ _ _ _ _ _ _ _ Hc i r); [apply elem_of_seq; lia|done..].
    + exfalso. destruct (tr_held _ _ _ _ Ht t (owns_root _ (S l) _ ltac:(lia))) as (_ & _ & Hft).
      rewrite new_src_walk in Hw by lia. destruct (outside_none _ _ i r Hft ltac:(lia)) as [Hno _]. by rewrite Hno in Hw.
  - intros x Hx. rewrite (cl_count_other _ _ _ _ _ _ _ _ _ Hc); [by rewrite Hrc|].
    intros i r e _ Hlen Hw Hs. apply (Hx (i :: r) e); [done|by rewrite <-new_src_walk by lia|done].
Qed.
End Done.

Lemma stuck_all s2 : stuck (S l) t (eq new) s1 K1 s2 -> stuck (S l) t (fun _ => False) s K s2.
Proof using Hk Ht Hq Hkeep Hnew.
  intros [Hcr Hfull Hroot Hkp Hs Hw]. rewrite (q_cr3 _ _ _ _ _ Hq) in Hcr, Hroot. destruct Hnew as (Hf & _). split; try done.
  - intros j Hj. by rewrite Hroot, (q_root _ _ _ _ _ Hq).
  - intros x Hx _ Ho'. rewrite Hkp; [by apply Hkeep|by eapply quiet_held| |].
    + intros <-. destruct Hx as [Hx _]. by rewrite Hf in Hx.
    + by rewrite (owns_ext (ram s)) by apply new_src_keep.
  - intros p Hp. rewrite Hs by done. apply new_src_reach. lia.
  - intros p Hp. rewrite <-!new_src_walk by lia. by apply Hw.
Qed.
End New.

(** ** Cloning a tree of tables *)
Lemma clone_step l clone :
  (0 < l -> clones_table l clone)%nat ->
  clones_table (S l) (fun t => new ← alloc_page_table; _ ← for_each (seq 0 512) (cow_entry clone (Nat.eqb (S l) 1) t new); mret new).
Proof using HL.
  intros Hclone t s K Hk Ht Ho. destruct (alloc_page_table_ok k3 s K Hk) as (r & s1 & Hrun & Hused & Hrc & Hkeep & Hr).
  destruct r as [new|[]|]; [|exists (Err tt), s1; split; [unfold mbind, st_bind; by rewrite Hrun|]|done].
  - destruct Hr as (Hf & Hf1 & Hnr & Hal & Hz & K1 & Hq & HK).
    assert (free s new = true /\ free s1 new = false /\ 0 <= new < 2 ^ 47 /\ ram s1 !! new = Some (replicate 512 0) /\ new ∉ K1) as Hnew by done.
    rewrite (st_bind_eq _ _ _ _ _ Hrun).
    destruct (cow_entries_ok clone l t new (seq 0 512) s1 K1) as (r & s2 & Hrun2 & Hr); [done|apply Hq|by apply (new_ready l t s K)|apply NoDup_seq| |done|].
    { intros i Hi%elem_of_seq. split; [lia|]. apply vacant_zero, zero_entry; [done|lia]. }
    destruct r as [[]|[]|]; [|exists (Err tt), s2; split; [unfold mbind at 1, st_bind at 1; by rewrite Hrun2|by apply (stuck_all l t s K new s1 K1)]|done].
    rewrite (st_bind_eq _ _ _ _ _ Hrun2). exists (Ok new), s2. split; [done|]. split; [done|]. destruct Hr as (K2 & Hc). exists K2.
    by apply (cloned_all l t s K new s1 K1).
  - destruct Hr as (Hcr & Hfull & Hroot). split; try done.
    + intros x Hx _ _. by apply Hkeep.
    + intros p Hp. apply (new_src_reach l t s K); [done|done|lia].
    + intros p Hp. left. apply (new_src_walk l t s K); [done|done|lia].
Qed.
Lemma cow_clone_table_eq l t :
  cow_clone_table (S l) t =
    (new ← alloc_page_table; _ ← for_each (seq 0 512) (cow_entry (cow_clone_table l) (Nat.eqb (S l) 1) t new); mret new).
Proof using. cbn [cow_clone_table]. exact eq_refl. Qed.
Lemma cow_clone_table_ok l : clones_table (S l) (cow_clone_table (S l)).
Proof using HL.
  induction l as [|l IH]; intros t s K; rewrite cow_clone_table_eq; revert t s K; apply clone_step; [lia|done].
Qed.
End Tables.
