(* ===== verification/CowFork.v ===== *)
(** * Cloning an address space

    [clone_address_space]: the user half of the new address space maps what the old one maps,
    both copy-on-write, and the kernel half is shared. *)
From S2P Require Import Prelude PageAlloc Paging Mapping Cow CowScratch CowClone CowTables.

Section Fork.
Context `{HP : Paging} {HL : PagingLaws} (k3 : Z).

(** The entries of the level 4 table [root] for user addresses lead to separate trees. *)
Record user_tables (s : Mem) (K : gset Z) (root : Z) : Prop := {
  ut_tree i e : (i < 256)%nat -> entry_of (ram s) root i = Some e -> present e = true -> links e = true /\ tree s K 3 (pte_addr e);
  ut_apart i j e d x : (i < 256)%nat -> (j < 256)%nat -> entry_of (ram s) root i = Some e -> links e = true ->
    entry_of (ram s) root j = Some d -> links d = true ->
    owns (ram s) 3 (pte_addr e) x -> owns (ram s) 3 (pte_addr d) x -> i = j;
}.
(** No page is mapped writable at two addresses. *)
Definition single_use (s : Mem) (root : Z) : Prop :=
  forall i j p q e d a b, (i < 256)%nat -> (j < 256)%nat -> length p = 3%nat -> length q = 3%nat ->
    entry_of (ram s) root i = Some a -> links a = true -> entry_of (ram s) root j = Some b -> links b = true ->
    walk (ram s) (pte_addr a) p = Some (O, e) -> walk (ram s) (pte_addr b) q = Some (O, d) ->
    shares e = true -> shares d = true -> pte_addr e = pte_addr d -> i = j /\ p = q.

(** The user entries [idx] of the active level 4 table have been cloned into [new]. *)
Record forked (new : Z) (idx : list nat) (s : Mem) (K : gset Z) (s' : Mem) (K' : gset Z) : Prop := {
  fk_quiet : quiet k3 s K s' K';
  fk_keep x : held s K x -> x <> new ->
    (forall i e, i ∈ idx -> entry_of (ram s) (cr3_reg s) i = Some e -> links e = true -> ~ owns (ram s) 3 (pte_addr e) x) ->
    ram s' !! x = ram s !! x;
  fk_src i e p : (i < 256)%nat -> entry_of (ram s) (cr3_reg s) i = Some e -> links e = true -> (length p < 3)%nat ->
    reach (ram s') (pte_addr e) p = reach (ram s) (pte_addr e) p;
  fk_src_walk i e p : (i < 256)%nat -> entry_of (ram s) (cr3_reg s) i = Some e -> links e = true -> length p = 3%nat ->
    walk (ram s') (pte_addr e) p = if decide (i ∈ idx) then cowed <$> walk (ram s) (pte_addr e) p else walk (ram s) (pte_addr e) p;
  fk_other j : j ∉ idx -> entry_of (ram s') new j = entry_of (ram s) new j;
  fk_none i e : i ∈ idx -> entry_of (ram s) (cr3_reg s) i = Some e -> present e = false ->
    entry_of (ram s') new i = entry_of (ram s) new i;
  fk_new i e : i ∈ idx -> entry_of (ram s) (cr3_reg s) i = Some e -> present e = true ->
    exists e1, entry_of (ram s') new i = Some e1 /\ links e1 = true /\ pte_flags e1 = pte_flags e /\ tree s' K' 3 (pte_addr e1) /\
      (forall x, owns (ram s') 3 (pte_addr e1) x -> free s x = true) /\
      (forall p, length p = 3%nat -> walk (ram s') (pte_addr e1) p = cowed <$> walk (ram s) (pte_addr e) p);
  fk_apart i j a b e d x : i ∈ idx -> j ∈ idx -> entry_of (ram s) (cr3_reg s) i = Some a -> present a = true ->
    entry_of (ram s) (cr3_reg s) j = Some b -> present b = true ->
    entry_of (ram s') new i = Some e -> entry_of (ram s') new j = Some d ->
    owns (ram s') 3 (pte_addr e) x -> owns (ram s') 3 (pte_addr d) x -> i = j;
  fk_count i a p e : i ∈ idx -> entry_of (ram s) (cr3_reg s) i = Some a -> links a = true -> length p = 3%nat ->
    walk (ram s) (pte_addr a) p = Some (O, e) -> shares e = true ->
    PAGE_REFCOUNTS s' !! pte_addr e = Some (bump (PAGE_REFCOUNTS s !! pte_addr e));
  fk_count_other x :
    (forall i a p e, i ∈ idx -> entry_of (ram s) (cr3_reg s) i = Some a -> links a = true -> length p = 3%nat ->
       walk (ram s) (pte_addr a) p = Some (O, e) -> shares e = true -> pte_addr e <> x) ->
    PAGE_REFCOUNTS s' !! x = PAGE_REFCOUNTS s !! x;
}.

Lemma quiet_entry s K s' K' i : quiet k3 s K s' K' -> (i < 256)%nat -> entry_of (ram s') (cr3_reg s') i = entry_of (ram s) (cr3_reg s) i.
Proof using. intros Hq Hi. rewrite (q_cr3 _ _ _ _ _ Hq). apply (q_root _ _ _ _ _ Hq). lia. Qed.

Lemma forked_tables new idx s K s' K' :
  forked new idx s K s' K' -> user_tables s K (cr3_reg s) -> user_tables s' K' (cr3_reg s').
Proof using.
  intros Hf [Ht Ha]. pose proof (fk_quiet _ _ _ _ _ _ Hf) as Hq. split.
  - intros i e Hi He Hp. rewrite (quiet_entry s K s' K') in He by done. destruct (Ht i e Hi He Hp) as [Hl Htr]. split; [done|].
    apply (tree_same_shape k3 s K); [done| |done]. intros p Hlen. by apply (fk_src _ _ _ _ _ _ Hf i).
  - intros i j e d x Hi Hj He Hle Hd Hld (p & Hp & Hx) (q & Hq' & Hx'). rewrite (quiet_entry s K s' K') in He, Hd by done.
    rewrite (fk_src _ _ _ _ _ _ Hf i) in Hx by done. rewrite (fk_src _ _ _ _ _ _ Hf j) in Hx' by done.
    apply (Ha i j e d x); [done..|by exists p|by exists q].
Qed.
Lemma forked_single new idx s K s' K' :
  forked new idx s K s' K' -> single_use s (cr3_reg s) -> single_use s' (cr3_reg s').
Proof using HL.
  intros Hf Hu. pose proof (fk_quiet _ _ _ _ _ _ Hf) as Hq.
  assert (forall i a p e, (i < 256)%nat -> entry_of (ram s) (cr3_reg s) i = Some a -> links a = true -> length p = 3%nat ->
    walk (ram s') (pte_addr a) p = Some (O, e) -> shares e = true -> walk (ram s) (pte_addr a) p = Some (O, e)) as Hback.
  { intros i a p e Hi Ha Hl Hp Hw Hs. rewrite (fk_src_walk _ _ _ _ _ _ Hf i) in Hw by done. destruct (decide (i ∈ idx)); [|done].
    apply cowed_Some in Hw as (d & Hw & ->). by rewrite (cow_not_shared _ _ _ _ Hw) in Hs. }
  intros i j p q e d a b Hi Hj Hp Hq' Ha Hla Hb Hlb Hwp Hwq Hse Hsd Heq. rewrite (quiet_entry s K s' K') in Ha, Hb by done.
  apply (Hu i j p q e d a b); try done; [by apply (Hback i)|by apply (Hback j)].
Qed.

(** ** Composition *)
Section Cons.
Context (new : Z) (i : nat) (idx : list nat) (s : Mem) (K : gset Z) (s1 : Mem) (K1 : gset Z) (s2 : Mem) (K2 : gset Z).
Context (Hi : (i < 256)%nat) (Hidx : forall j, j ∈ idx -> (j < 256)%nat) (Hni : i ∉ idx).
Context (Hut : user_tables s K (cr3_reg s)) (Hu : single_use s (cr3_reg s)) (Hnew : held s K new).
Context (F1 : forked new [i] s K s1 K1) (F2 : forked new idx s1 K1 s2 K2).

Lemma cons_entry j : (j < 256)%nat -> entry_of (ram s1) (cr3_reg s1) j = entry_of (ram s) (cr3_reg s) j.
Proof using F1. intros Hj. apply (quiet_entry s K s1 K1); [apply F1|done]. Qed.
Lemma cons_walk j a p : j ∈ idx -> entry_of (ram s) (cr3_reg s) j = Some a -> links a = true -> length p = 3%nat ->
  walk (ram s1) (pte_addr a) p = walk (ram s) (pte_addr a) p.
Proof using Hidx Hni F1.
  intros Hj Ha Hl Hp. rewrite (fk_src_walk _ _ _ _ _ _ F1 j), decide_False; [done| |by apply Hidx|done..]. rewrite in_singleton. by intros ->.
Qed.
(** The tables cloned first are left alone. *)
Lemma cons_new_keep e1 x : tree s1 K1 3 (pte_addr e1) -> (forall x, owns (ram s1) 3 (pte_addr e1) x -> free s x = true) ->
  owns (ram s1) 3 (pte_addr e1) x -> ram s2 !! x = ram s1 !! x.
Proof using Hidx Hut Hnew F1 F2.
  intros Ht Hfr Hx. apply (fk_keep _ _ _ _ _ _ F2).
  - by apply (tr_held _ _ _ _ Ht).
  - intros ->. destruct Hnew as [Hf _]. rewrite Hfr in Hf; done.
  - intros j d Hj Hd Hl (p & Hp & Hx'). rewrite cons_entry in Hd by (by apply Hidx).
    rewrite (fk_src _ _ _ _ _ _ F1 j) in Hx' by (done || by apply Hidx).
    destruct (ut_tree _ _ _ Hut j d) as [_ Htd]; [by apply Hidx|done|unfold links in Hl; by apply andb_true_iff in Hl as [? _]|].
    destruct (tr_held _ _ _ _ Htd x) as ((Hf & _) & _); [by exists p|]. rewrite Hfr in Hf; done.
Qed.
Lemma cons_first e : entry_of (ram s) (cr3_reg s) i = Some e -> present e = true ->
  exists e1, entry_of (ram s2) new i = Some e1 /\ entry_of (ram s1) new i = Some e1 /\ links e1 = true /\ pte_flags e1 = pte_flags e /\
    tree s1 K1 3 (pte_addr e1) /\ tree s2 K2 3 (pte_addr e1) /\
    (forall x, owns (ram s2) 3 (pte_addr e1) x -> free s x = true) /\
    (forall x, owns (ram s2) 3 (pte_addr e1) x <-> owns (ram s1) 3 (pte_addr e1) x) /\
    (forall p, length p = 3%nat -> walk (ram s2) (pte_addr e1) p = cowed <$> walk (ram s) (pte_addr e) p).
Proof using Hi Hidx Hni Hut Hnew F1 F2.
  intros He Hp. destruct (fk_new _ _ _ _ _ _ F1 i e) as (e1 & H1 & H2 & H3 & H4 & H5 & H6); [by apply in_singleton|done|done|].
  pose proof (fun x => cons_new_keep e1 x H4 H5) as Hkeep. exists e1.
  assert (forall x, owns (ram s2) 3 (pte_addr e1) x <-> owns (ram s1) 3 (pte_addr e1) x) as Hown by (intros x; by apply owns_ext).
  split_and!; try done.
  - by rewrite (fk_other _ _ _ _ _ _ F2).
  - apply (tree_same_shape k3 s1 K1); [apply F2| |done]. intros p Hl. apply (reach_ext _ _ 3); [done|lia].
  - intros x Hx. apply H5. by apply Hown.
  - intros p Hl. rewrite (walk_ext_owns (ram s1) _ 3); [by apply H6|done|lia].
Qed.
Lemma cons_second j e : j ∈ idx -> entry_of (ram s) (cr3_reg s) j = Some e -> present e = true ->
  exists e1, entry_of (ram s2) new j = Some e1 /\ links e1 = true /\ pte_flags e1 = pte_flags e /\ tree s2 K2 3 (pte_addr e1) /\
    (forall x, owns (ram s2) 3 (pte_addr e1) x -> free s1 x = true) /\
    (forall p, length p = 3%nat -> walk (ram s2) (pte_addr e1) p = cowed <$> walk (ram s) (pte_addr e) p).
Proof using Hidx Hni Hut F1 F2.
  intros Hj He Hp. destruct (fk_new _ _ _ _ _ _ F2 j e) as (e1 & H1 & H2 & H3 & H4 & H5 & H6); [done|by rewrite cons_entry by (by apply Hidx)|done|].
  exists e1. split_and!; try done. intros p Hl. rewrite H6 by done. f_equal. apply (cons_walk j); [done|done| |done]. by apply (ut_tree _ _ _ Hut j e (Hidx j Hj)).
Qed.
(** The present entries of [new], and whose tables they lead to. *)
Lemma cons_apart j d e1 x :
  j ∈ idx -> tree s1 K1 3 (pte_addr e1) -> (forall x, owns (ram s2) 3 (pte_addr e1) x <-> owns (ram s1) 3 (pte_addr e1) x) ->
  owns (ram s2) 3 (pte_addr e1) x -> (forall x, owns (ram s2) 3 (pte_addr d) x -> free s1 x = true) -> owns (ram s2) 3 (pte_addr d) x -> False.
Proof using.
  intros Hj Ht Hown Hx Hfr Hx'. apply Hown in Hx. destruct (tr_held _ _ _ _ Ht x Hx) as ((Hf & _) & _). rewrite Hfr in Hf; done.
Qed.

Lemma forked_cons : forked new (i :: idx) s K s2 K2.
Proof using All.
  assert (forall j (P : Prop), j ∈ i :: idx -> (j = i -> P) -> (j ∈ idx -> P) -> P) as Hcase.
  { intros j P [->|Hj]%elem_of_cons H1 H2; auto. }
  assert (forall j, j ∈ [i] -> j ∈ i :: idx) as Hin1 by (intros j ->%in_singleton; by left).
  assert (forall j, j ∈ idx -> j ∈ i :: idx) as Hin2 by (intros j Hj; by right).
  split.
  - eapply quiet_trans; [apply F1|apply F2].
  - intros x Hx Hne Ho. rewrite (fk_keep _ _ _ _ _ _ F2), (fk_keep _ _ _ _ _ _ F1); try done.
    + intros j e Hj. apply Ho. by apply Hin1.
    + eapply quiet_held; [apply F1|done].
    + intros j e Hj He Hl (p & Hp & Hx'). rewrite cons_entry in He by (by apply Hidx).
      rewrite (fk_src _ _ _ _ _ _ F1 j) in Hx' by (done || by apply Hidx). apply (Ho j e); [by apply Hin2|done|done|by exists p].
  - intros j e p Hj He Hl Hp. rewrite (fk_src _ _ _ _ _ _ F2 j), (fk_src _ _ _ _ _ _ F1 j); try done. by rewrite cons_entry.
  - intros j e p Hj He Hl Hp. rewrite (fk_src_walk _ _ _ _ _ _ F2 j), (fk_src_walk _ _ _ _ _ _ F1 j) by (done || by rewrite cons_entry).
    destruct (decide (j = i)) as [->|Hne].
    + rewrite (decide_False (P := i ∈ idx)), (decide_True (P := i ∈ [i])), decide_True; [done|by left|by apply in_singleton|done].
    + rewrite (decide_False (P := j ∈ [i])) by (by rewrite in_singleton). destruct (decide (j ∈ idx)) as [Hin|Hin].
      * rewrite decide_True by (by right). done.
      * rewrite decide_False by (intros [?|?]%elem_of_cons; done). done.
  - intros j Hj. apply not_elem_of_cons in Hj as [Hji Hjx]. rewrite (fk_other _ _ _ _ _ _ F2), (fk_other _ _ _ _ _ _ F1); [done| |done]. by rewrite in_singleton.
  - intros j e Hj He Hp. apply (Hcase j); [done|intros ->|intros Hjx].
    + rewrite (fk_other _ _ _ _ _ _ F2) by done. apply (fk_none _ _ _ _ _ _ F1 i e); [by apply in_singleton|done|done].
    + rewrite (fk_none _ _ _ _ _ _ F2 j e), (fk_other _ _ _ _ _ _ F1); [done| |done| |done]; [rewrite in_singleton; by intros ->|by rewrite cons_entry by (by apply Hidx)].
  - intros j e Hj He Hp. apply (Hcase j); [done|intros ->|intros Hjx].
    + destruct (cons_first e He Hp) as (e1 & ? & _ & ? & ? & _ & ? & ? & _ & ?). by exists e1.
    + destruct (cons_second j e Hjx He Hp) as (e1 & ? & ? & ? & ? & Hfr & ?). exists e1. split_and!; try done.
      intros x Hx. by apply (q_free _ _ _ _ _ (fk_quiet _ _ _ _ _ _ F1)), Hfr.
  - intros j k a b e d x Hj Hk Ha Hpa Hb Hpb He Hd Hx Hx'. apply (Hcase j); [done|intros ->|intros Hjx]; (apply (Hcase k); [done|intros ->|intros Hkx]).
    + done.
    + exfalso. destruct (cons_first a Ha Hpa) as (e1 & He1 & _ & _ & _ & Ht & _ & _ & Hown & _). rewrite He in He1. injection He1 as <-.
      destruct (cons_second k b Hkx Hb Hpb) as (d1 & Hd1 & _ & _ & _ & Hfr & _). rewrite Hd in Hd1. injection Hd1 as <-. by apply (cons_apart k d e x).
    + exfalso. destruct (cons_first b Hb Hpb) as (e1 & He1 & _ & _ & _ & Ht & _ & _ & Hown & _). rewrite Hd in He1. injection He1 as <-.
      destruct (cons_second j a Hjx Ha Hpa) as (d1 & Hd1 & _ & _ & _ & Hfr & _). rewrite He in Hd1. injection Hd1 as <-. by apply (cons_apart j e d x).
    + apply (fk_apart _ _ _ _ _ _ F2 j k a b e d x); try done; by rewrite cons_entry by (by apply Hidx).
  - intros j a p e Hj Ha Hl Hp Hw Hs. apply (Hcase j); [done|intros ->|intros Hjx].
    + rewrite (fk_count_other _ _ _ _ _ _ F2); [by apply (fk_count _ _ _ _ _ _ F1 i a p e); [apply in_singleton|..]|].
      intros k b q d Hk Hb Hlb Hq Hwd Hsd Heq. rewrite cons_entry in Hb by (by apply Hidx). rewrite (cons_walk k) in Hwd by done.
      destruct (Hu k i q p d e b a) as [-> _]; [by apply Hidx|done..].
    + rewrite (fk_count _ _ _ _ _ _ F2 j a p e); [|done|by rewrite cons_entry by (by apply Hidx)|done|done|by rewrite (cons_walk j)|done].
      do 2 f_equal. apply (fk_count_other _ _ _ _ _ _ F1). intros k b q d ->%in_singleton Hb Hlb Hq Hwd Hsd Heq.
      destruct (Hu i j q p d e b a) as [-> _]; [done|by apply Hidx|done..].
  - intros x Hx. rewrite (fk_count_other _ _ _ _ _ _ F2), (fk_count_other _ _ _ _ _ _ F1); [done|..].
    + intros j a p e Hj. apply Hx. by apply Hin1.
    + intros j a p e Hj Ha Hl Hp Hw. rewrite cons_entry in Ha by (by apply Hidx). rewrite (cons_walk j) in Hw by done. apply (Hx j a p e); [by apply Hin2|done..].
Qed.
End Cons.

(** ** One entry *)
Lemma forked_skip new i s K e :
  kernel_ok k3 s K -> entry_of (ram s) (cr3_reg s) i = Some e -> present e = false -> forked new [i] s K s K.
Proof using.
  intros Hk He Hp. assert (forall d, entry_of (ram s) (cr3_reg s) i = Some d -> present d = true -> False) as Hno by (intros d Hd Hpd; congruence).
  assert (forall d, entry_of (ram s) (cr3_reg s) i = Some d -> links d = true -> False) as Hno'.
  { intros d Hd Hl. apply (Hno d Hd). unfold links in Hl. by apply andb_true_iff in Hl as [? _]. }
  split; try done.
  - by apply quiet_refl.
  - intros j d p Hj Hd Hl Hlen. destruct (decide (j ∈ [i])) as [->%in_singleton|]; [|done]. by destruct (Hno' d).
  - intros j d ->%in_singleton Hd Hpd. by destruct (Hno d).
  - intros j k a b d d' x ->%in_singleton ->%in_singleton Ha Hpa. done.
  - intros j a p d ->%in_singleton Ha Hl. by destruct (Hno' a).
Qed.

Section Sub.
Context (new : Z) (i : nat) (s : Mem) (K : gset Z) (e : Z) (new' : Z) (s1 : Mem) (K1 : gset Z) (e1 : Z).
Context (Hi : (i < 256)%nat) (Hut : user_tables s K (cr3_reg s)).
Context (Hnew : held s K new) (Hnf : is_table_frame (ram s) new).
Context (Hnot : forall j d, (j < 256)%nat -> entry_of (ram s) (cr3_reg s) j = Some d -> links d = true -> ~ owns (ram s) 3 (pte_addr d) new).
Context (He : entry_of (ram s) (cr3_reg s) i = Some e) (Hp : present e = true) (Hl : links e = true).
Context (Hsub : cloned k3 3 (pte_addr e) new' s K s1 K1).
Context (He1 : pte_addr e1 = new') (Hf1 : pte_flags e1 = pte_flags e).

Let s2 := poke s1 new i e1.

Lemma fsub_ram x : x <> new -> ram s2 !! x = ram s1 !! x.
Proof using. intros Hx. apply put_word_ne. done. Qed.
Lemma fsub_quiet : quiet k3 s1 K1 s2 K1.
Proof using Hsub Hnew. apply quiet_poke; [apply Hsub|]. eapply quiet_held; [apply Hsub|done]. Qed.
Lemma fsub_other j d x : (j < 256)%nat -> j <> i -> entry_of (ram s) (cr3_reg s) j = Some d -> links d = true ->
  owns (ram s) 3 (pte_addr d) x -> ram s2 !! x = ram s !! x.
Proof using Hi Hut Hnot He Hl Hsub.
  intros Hj Hne Hd Hld Hx. rewrite fsub_ram by (intros ->; by apply (Hnot j d)). apply (cd_keep _ _ _ _ _ _ _ _ Hsub).
  - destruct (ut_tree _ _ _ Hut j d Hj Hd) as [_ Ht]; [unfold links in Hld; by apply andb_true_iff in Hld as [? _]|]. by apply (tr_held _ _ _ _ Ht).
  - intros Hx'. apply Hne. by apply (ut_apart _ _ _ Hut j i d e x).
Qed.
Lemma fsub_same x : owns (ram s1) 3 (pte_addr e) x -> ram s2 !! x = ram s1 !! x.
Proof using Hi Hnot He Hl Hsub.
  intros (p & Hlen & Hx). apply fsub_ram. intros ->. rewrite (cd_src _ _ _ _ _ _ _ _ Hsub) in Hx by done. apply (Hnot i e Hi He Hl). by exists p.
Qed.
Lemma fsub_new x : owns (ram s1) 3 new' x -> ram s2 !! x = ram s1 !! x.
Proof using Hnew Hsub.
  intros Hx%(cd_new_fresh _ _ _ _ _ _ _ _ Hsub). apply fsub_ram. intros ->. destruct Hnew as [Hf _]. by rewrite Hf in Hx.
Qed.
Lemma fsub_entry j : entry_of (ram s2) new j = if decide (j = i) then Some e1 else entry_of (ram s1) new j.
Proof using Hnf Hsub Hi. apply entry_poke; [|lia]. by apply (q_frames _ _ _ _ _ (cd_quiet _ _ _ _ _ _ _ _ Hsub)). Qed.
Lemma fsub_new_same : ram s1 !! new = ram s !! new.
Proof using Hi Hnew Hnot He Hl Hsub. apply (cd_keep _ _ _ _ _ _ _ _ Hsub); [done|by apply (Hnot i)]. Qed.

Lemma forked_sub : forked new [i] s K s2 K1.
Proof using All.
  assert (forall d, entry_of (ram s) (cr3_reg s) i = Some d -> d = e) as Hd by (intros d Hd; congruence). split.
  - eapply quiet_trans; [apply Hsub|apply fsub_quiet].
  - intros x Hx Hne Ho. rewrite fsub_ram by done. apply (cd_keep _ _ _ _ _ _ _ _ Hsub x Hx). apply (Ho i); [by apply in_singleton|done|done].
  - intros j d p Hj Hd' Hld Hlen. destruct (decide (j = i)) as [->|Hne].
    + rewrite (Hd d Hd'). rewrite (reach_ext (ram s1) _ 3); [by apply Hsub|apply fsub_same|lia].
    + apply (reach_ext _ _ 3); [intros x Hx; by apply (fsub_other j d)|lia].
  - intros j d p Hj Hd' Hld Hlen. destruct (decide (j ∈ [i])) as [->%in_singleton|Hne].
    + rewrite (Hd d Hd'). rewrite (walk_ext_owns (ram s1) _ 3); [by apply Hsub|apply fsub_same|lia].
    + rewrite in_singleton in Hne. apply (walk_ext_owns _ _ 3); [intros x Hx; by apply (fsub_other j d)|lia].
  - intros j Hj. rewrite in_singleton in Hj. rewrite fsub_entry, decide_False by done. unfold entry_of. by rewrite fsub_new_same.
  - intros j d ->%in_singleton Hd' Hpd. rewrite (Hd d Hd'), Hp in Hpd. done.
  - intros j d ->%in_singleton Hd' Hpd. rewrite (Hd d Hd'). exists e1. rewrite fsub_entry, decide_True, He1 by done. split_and!; try done.
    + unfold links, present in *. by rewrite Hf1.
    + apply (tree_same_shape k3 s1 K1); [apply fsub_quiet| |apply Hsub]. intros p Hlen. apply (reach_ext _ _ 3); [apply fsub_new|lia].
    + intros x Hx. apply (owns_ext (ram s1)) in Hx; [by apply (cd_new_fresh _ _ _ _ _ _ _ _ Hsub)|apply fsub_new].
    + intros p Hlen. rewrite (walk_ext_owns (ram s1) _ 3); [by apply Hsub|apply fsub_new|lia].
  - intros j k a b d d' x ->%in_singleton ->%in_singleton. done.
  - intros j a p d ->%in_singleton Ha Hla Hlen Hw Hs. rewrite (Hd a Ha) in Hw. by apply (cd_count _ _ _ _ _ _ _ _ Hsub p d).
  - intros x Hx. apply (cd_count_other _ _ _ _ _ _ _ _ Hsub). intros p d Hlen Hw Hs. apply (Hx i e p d); [by apply in_singleton|done..].
Qed.
End Sub.

(** ** No memory *)

(** The tables of the user addresses; [N] are the frames of the clone itself. *)
Record unforked (N : Z -> Prop) (s : Mem) (K : gset Z) (s' : Mem) : Prop := {
  uf_cr3 : cr3_reg s' = cr3_reg s;
  uf_full x : free s' x = false;
  uf_root j : j <> 510%nat -> entry_of (ram s') (cr3_reg s) j = entry_of (ram s) (cr3_reg s) j;
  uf_keep x : held s K x -> ~ N x ->
    (forall i e, (i < 256)%nat -> entry_of (ram s) (cr3_reg s) i = Some e -> links e = true -> ~ owns (ram s) 3 (pte_addr e) x) ->
    ram s' !! x = ram s !! x;
  uf_src_walk i e p : (i < 256)%nat -> entry_of (ram s) (cr3_reg s) i = Some e -> links e = true -> length p = 3%nat ->
    walk (ram s') (pte_addr e) p = walk (ram s) (pte_addr e) p \/
    walk (ram s') (pte_addr e) p = cowed <$> walk (ram s) (pte_addr e) p;
}.
Lemma stuck_unforked N i e s K s' :
  (i < 256)%nat -> user_tables s K (cr3_reg s) -> entry_of (ram s) (cr3_reg s) i = Some e -> links e = true ->
  stuck 3 (pte_addr e) (fun _ => False) s K s' -> unforked N s K s'.
Proof using.
  intros Hi Hut He Hl [Hcr Hf Hr Hk Hs Hw]. split; try done.
  - intros x Hx _ Ho. apply Hk; [done|by intros []|by apply (Ho i)].
  - intros j d p Hj Hd Hld Hlen. destruct (decide (j = i)) as [->|Hne].
    + rewrite He in Hd. injection Hd as <-. by apply Hw.
    + left. apply (walk_ext_owns _ _ 3); [|lia]. intros x Hx. apply Hk; [|by intros []|].
      * destruct (ut_tree _ _ _ Hut j d Hj Hd) as [_ Ht]; [unfold links in Hld; by apply andb_true_iff in Hld as [? _]|]. by apply (tr_held _ _ _ _ Ht).
      * intros Hx'. apply Hne. by apply (ut_apart _ _ _ Hut j i d e x).
Qed.
Lemma forked_unforked new idx s K s1 K1 s2 :
  (forall j, j ∈ idx -> (j < 256)%nat) -> forked new idx s K s1 K1 -> unforked (eq new) s1 K1 s2 -> unforked (eq new) s K s2.
Proof using HL.
  intros Hidx Hf [Hcr Hfull Hr Hk Hw]. pose proof (fk_quiet _ _ _ _ _ _ Hf) as Hq.
  assert (forall j, (j < 256)%nat -> entry_of (ram s1) (cr3_reg s1) j = entry_of (ram s) (cr3_reg s) j) as Hent by (intros j Hj; by apply (quiet_entry s K s1 K1)).
  split.
  - by rewrite Hcr, (q_cr3 _ _ _ _ _ Hq).
  - done.
  - intros j Hj. rewrite (q_cr3 _ _ _ _ _ Hq) in Hr. by rewrite Hr, (q_root _ _ _ _ _ Hq).
  - intros x Hx Hn Ho. rewrite Hk; [|by eapply quiet_held|done|].
    + apply (fk_keep _ _ _ _ _ _ Hf); [done|by intros ->|]. intros j e Hj. apply Ho. by apply Hidx.
    + intros j e Hj He Hl (p & Hp & Hx'). rewrite Hent in He by done. rewrite (fk_src _ _ _ _ _ _ Hf j) in Hx' by done.
      apply (Ho j e); [done..|by exists p].
  - intros j e p Hj He Hl Hp. pose proof (fk_src_walk _ _ _ _ _ _ Hf j e p Hj He Hl Hp) as Hw1.
    assert (walk (ram s2) (pte_addr e) p = walk (ram s1) (pte_addr e) p \/ walk (ram s2) (pte_addr e) p = cowed <$> walk (ram s1) (pte_addr e) p) as Hw2.
    { apply (Hw j); [done|by rewrite Hent|done|done]. }
    destruct (decide (j ∈ idx)); [|by rewrite <-Hw1]. right. destruct Hw2 as [-> | ->]; rewrite Hw1; [done|apply cowed_twice].
Qed.

(** ** The loop over the user entries *)
Definition apart (new : Z) (s : Mem) : Prop :=
  forall j d, (j < 256)%nat -> entry_of (ram s) (cr3_reg s) j = Some d -> links d = true -> ~ owns (ram s) 3 (pte_addr d) new.
Lemma forked_apart new idx s K s' K' : forked new idx s K s' K' -> apart new s -> apart new s'.
Proof using.
  intros Hf Ha j d Hj Hd Hl (p & Hp & Hx). rewrite (quiet_entry s K s' K') in Hd by (apply Hf || done).
  rewrite (fk_src _ _ _ _ _ _ Hf j) in Hx by done. apply (Ha j d); [done..|by exists p].
Qed.
Lemma single_once i e s : (i < 256)%nat -> single_use s (cr3_reg s) -> entry_of (ram s) (cr3_reg s) i = Some e -> links e = true ->
  once 3 (pte_addr e) s.
Proof using. intros Hi Hu He Hl p q a b Hp Hq Hwp Hwq Ha Hb Heq. by apply (Hu i i p q a b e e). Qed.

Lemma clone_user_entry_ok new i s K :
  kernel_ok k3 s K -> user_tables s K (cr3_reg s) -> single_use s (cr3_reg s) ->
  held s K new -> is_table_frame (ram s) new -> 0 <= new < 2 ^ 47 -> apart new s -> (i < 256)%nat ->
  exists r s', clone_user_entry (cr3_reg s) new i s = (r, s') /\
    match r with
    | Ok _ => exists K', forked new [i] s K s' K'
    | Err _ => unforked (eq new) s K s'
    | Panic => False
    end.
Proof using HL.
  intros Hk Hut Hu Hnew Hnf Hnr Ha Hi. destruct (ko_root _ _ _ Hk) as (Hrf & _ & Hrr).
  destruct (entry_at_ok (E := unit) s (cr3_reg s) i Hrf Hrr ltac:(lia)) as (e & He & Hrun).
  unfold clone_user_entry. rewrite (st_bind_eq _ _ _ _ _ Hrun). change (contains (pte_flags e) PRESENT) with (present e). cbv zeta.
  destruct (present e) eqn:Hp; cbn [negb]; [|exists (Ok tt), s; split; [done|]; exists K; by apply (forked_skip new i s K e)].
  rewrite (st_bind_eq _ _ s (pte_addr e) s) by (unfold st_lift; by rewrite PhysAddr_pte).
  destruct (ut_tree _ _ _ Hut i e Hi He Hp) as [Hl Ht].
  destruct (cow_clone_table_ok k3 2 (pte_addr e) s K Hk Ht (single_once i e s Hi Hu He Hl)) as (r & s1 & Hc & Hr).
  destruct r as [new'|[]|]; [|exists (Err tt), s1; split; [unfold mbind, st_bind; by rewrite Hc|by apply (stuck_unforked _ i e)]|done].
  destruct Hr as [[Hn1 Hn2] (K1 & Hcl)]. rewrite (st_bind_eq _ _ _ _ _ Hc).
  destruct (pte_make_ok new' (pte_flags e) Hn2 ltac:(change MAX_PHYS with (2 ^ 52); lia) (pte_flags_ok e)) as (e1 & Hm & Ha1 & Hf1).
  rewrite (set_addr_ok s1 new i new' (pte_flags e) e1); [| |done|lia|done].
  - eexists _, _. split; [done|]. exists K1. by apply (forked_sub new i s K e new' s1 K1 e1).
  - by apply (q_frames _ _ _ _ _ (cd_quiet _ _ _ _ _ _ _ _ Hcl)).
Qed.
Lemma clone_user_entries_ok new idx s K :
  kernel_ok k3 s K -> user_tables s K (cr3_reg s) -> single_use s (cr3_reg s) ->
  held s K new -> is_table_frame (ram s) new -> 0 <= new < 2 ^ 47 -> apart new s ->
  NoDup idx -> (forall j, j ∈ idx -> (j < 256)%nat) -> idx <> [] ->
  exists r s', for_each idx (clone_user_entry (cr3_reg s) new) s = (r, s') /\
    match r with
    | Ok _ => exists K', forked new idx s K s' K'
    | Err _ => unforked (eq new) s K s'
    | Panic => False
    end.
Proof using HL.
  revert s K. induction idx as [|i idx IH]; intros s K Hk Hut Hu Hnew Hnf Hnr Ha Hnd Hidx Hne; [done|]. apply NoDup_cons in Hnd as [Hni Hnd].
  assert (i < 256)%nat as Hi by (apply Hidx; by left). assert (forall j, j ∈ idx -> (j < 256)%nat) as Hidx' by (intros j Hj; apply Hidx; by right).
  destruct (clone_user_entry_ok new i s K) as (r & s1 & Hrun & Hr); try done. cbn [for_each].
  destruct r as [[]|[]|]; [|exists (Err tt), s1; split; [unfold mbind, st_bind; by rewrite Hrun|done]|done].
  destruct Hr as (K1 & F1). rewrite (st_bind_eq _ _ _ _ _ Hrun). pose proof (fk_quiet _ _ _ _ _ _ F1) as Hq.
  destruct (decide (idx = [])) as [->|Hne']; [exists (Ok tt), s1; split; [done|by exists K1]|].
  destruct (IH s1 K1) as (r & s2 & Hrun2 & Hr); try done.
  - apply Hq.
  - by eapply forked_tables.
  - by eapply forked_single.
  - by eapply quiet_held.
  - by apply (q_frames _ _ _ _ _ Hq).
  - by eapply forked_apart.
  - rewrite (q_cr3 _ _ _ _ _ Hq) in Hrun2. exists r, s2. split; [done|]. destruct r as [[]|[]|]; [|by eapply (forked_unforked new [i]); [intros j ->%in_singleton|..]|done].
    destruct Hr as (K2 & F2). exists K2. by apply (forked_cons new i idx s K s1 K1).
Qed.
End Fork.
