(* ===== verification/CowSpace.v ===== *)
(** * Address spaces after a fork

    The whole of [clone_address_space]: the new level 4 table, the kernel half it shares, the
    user half it clones, and the two address spaces that result. *)
From S2P Require Import Prelude PageAlloc Paging Mapping Cow CowScratch CowClone CowTables CowFork.

Section Space.
Context `{HP : Paging} {HL : PagingLaws} (k3 : Z).

(** ** The kernel half *)
Lemma copy_kernel_ok new idx s K :
  kernel_ok k3 s K -> held s K new -> is_table_frame (ram s) new -> 0 <= new < 2 ^ 47 -> (forall j, j ∈ idx -> (j < 512)%nat) ->
  exists s', for_each idx (copy_kernel_entry (cr3_reg s) new) s = (Ok tt, s') /\ quiet k3 s K s' K /\
    (forall x, x <> new -> ram s' !! x = ram s !! x) /\
    (forall j, entry_of (ram s') new j = if decide (j ∈ idx) then entry_of (ram s) (cr3_reg s) j else entry_of (ram s) new j) /\
    PAGE_REFCOUNTS s' = PAGE_REFCOUNTS s /\ (forall x, free s' x = free s x).
Proof using HL.
  revert s. induction idx as [|i idx IH]; intros s Hk Hh Hf Hr Hidx.
  - exists s. split_and!; try done. by apply quiet_refl.
  - destruct (ko_root _ _ _ Hk) as (Hrf & _ & Hrr). assert (i < 512)%nat as Hi by (apply Hidx; by left).
    destruct (entry_at_ok (E := unit) s (cr3_reg s) i Hrf Hrr Hi) as (e & He & Hrun). cbn [for_each].
    assert (copy_kernel_entry (cr3_reg s) new i s = (Ok tt, poke s new i e)) as Hstep.
    { unfold copy_kernel_entry. rewrite (st_bind_eq _ _ _ _ _ Hrun). by apply put_entry_ok. }
    rewrite (st_bind_eq _ _ _ _ _ Hstep). pose proof (quiet_poke k3 s K new i e Hk Hh) as Hq.
    destruct (IH (poke s new i e)) as (s' & Hrun' & Hq' & Hram & Hent & Hrc & Hfree);
      [apply Hq|done|by apply poke_frames|done|intros j Hj; apply Hidx; by right|].
    assert (new <> cr3_reg s) as Hne by apply Hh.
    exists s'. split_and!; [done|by eapply quiet_trans| | |done|done].
    + intros x Hx. rewrite Hram by done. by apply put_word_ne.
    + intros j. rewrite Hent, entry_poke by done. change (cr3_reg (poke s new i e)) with (cr3_reg s).
      assert (entry_of (ram (poke s new i e)) (cr3_reg s) j = entry_of (ram s) (cr3_reg s) j) as ->.
      { unfold entry_of. cbn. by rewrite put_word_ne. }
      destruct (decide (j ∈ idx)) as [Hin|Hin]; [by rewrite decide_True by (by right)|]. destruct (decide (j = i)) as [->|Hji].
      * by rewrite decide_True by (by left).
      * by rewrite decide_False by (intros [?|?]%elem_of_cons; done).
Qed.

(** ** The two address spaces *)
Definition user_table (m : Ram) (root x : Z) : Prop :=
  exists i e, (i < 256)%nat /\ entry_of m root i = Some e /\ links e = true /\ owns m 3 (pte_addr e) x.

(** The address space [new] has been cloned from the active one. *)
Record space_cloned (s : Mem) (K : gset Z) (new : Z) (s' : Mem) (K' : gset Z) : Prop := {
  sc_quiet : quiet k3 s K s' K';
  sc_fresh : free s new = true;
  sc_user i p : (i < 256)%nat -> length p = 3%nat ->
    walk (ram s') (cr3_reg s) (i :: p) = cowed <$> walk (ram s) (cr3_reg s) (i :: p) /\
    walk (ram s') new (i :: p) = cowed <$> walk (ram s) (cr3_reg s) (i :: p);
  sc_kernel j : (256 <= j < 510)%nat -> entry_of (ram s') new j = entry_of (ram s) (cr3_reg s) j;
  sc_self : exists e, entry_of (ram s') new 511 = Some e /\ pte_addr e = new /\ pte_flags e = Z.lor PRESENT WRITABLE;
  sc_keep x : held s K x -> ~ user_table (ram s) (cr3_reg s) x -> ram s' !! x = ram s !! x;
  sc_tables x : user_table (ram s') (cr3_reg s) x <-> user_table (ram s) (cr3_reg s) x;
  sc_new x : user_table (ram s') new x -> free s x = true;
  sc_old_space : user_tables s' K' (cr3_reg s);
  sc_new_kernel : kernel_ok k3 (with_cr3 s' new) K';
  sc_new_space : user_tables (with_cr3 s' new) K' new;
  sc_count i p e : (i < 256)%nat -> length p = 3%nat -> walk (ram s) (cr3_reg s) (i :: p) = Some (O, e) -> shares e = true ->
    PAGE_REFCOUNTS s' !! pte_addr e = Some (bump (PAGE_REFCOUNTS s !! pte_addr e));
  sc_count_other x :
    (forall i p e, (i < 256)%nat -> length p = 3%nat -> walk (ram s) (cr3_reg s) (i :: p) = Some (O, e) -> shares e = true -> pte_addr e <> x) ->
    PAGE_REFCOUNTS s' !! x = PAGE_REFCOUNTS s !! x;
}.

(** A level 4 table with the kernel's entry can take over. *)
Lemma kernel_ok_switch s K new e :
  kernel_ok k3 s K -> is_table_frame (ram s) new -> held s K new -> 0 <= new < 2 ^ 47 ->
  entry_of (ram s) new 510 = Some e -> links e = true -> pte_addr e = k3 -> kernel_ok k3 (with_cr3 s new) K.
Proof using.
  intros [Hm (Hrf & Hfr & Hrr) (e0 & He0 & Hl0 & Ha0) Hready Hempty Htab Hused] Hf (Hfree & HK & Hne) Hr He Hl Ha.
  assert (forall k, visited (ram s) (cr3_reg s) (scratch_path k) = cr3_reg s :: visited (ram s) k3 [448; 0; 256 + k]%nat) as Hv0.
  { intros k. unfold scratch_path. by rewrite (visited_link _ _ _ _ e0), Ha0. }
  assert (forall k, visited (ram s) new (scratch_path k) = new :: visited (ram s) k3 [448; 0; 256 + k]%nat) as Hv.
  { intros k. unfold scratch_path. by rewrite (visited_link _ _ _ _ e), Ha. }
  assert (forall k x, (k < 256)%nat -> x ∈ visited (ram s) k3 [448; 0; 256 + k]%nat -> x ∈ K) as Htail.
  { intros k x Hk Hx. destruct (Hready k Hk) as (Hnd & _). rewrite Hv0 in Hnd. apply NoDup_cons in Hnd as [Hn _].
    destruct (Htab k x) as [->|?]; [rewrite Hv0; by right|done|done]. }
  assert (forall k x, x ∈ visited (ram s) k3 [448; 0; 256 + k]%nat -> x ∈ K) as Htail'.
  { intros k x Hx. apply (Htail 0%nat); [lia|exact Hx]. }
  split; cbn [ram cr3_reg with_cr3]; try done.
  - by exists e.
  - intros k Hk. destruct (Hready k Hk) as (Hnd & Hts & Hlt & Hcl). unfold ready. rewrite Hv in *. rewrite Hv0 in Hnd, Hts, Hcl.
    apply NoDup_cons in Hnd as [Hn Hnd]. apply Forall_cons in Hts as [_ Hts]. split_and!.
    + apply NoDup_cons. split; [|done]. intros Hx. by apply HK, (Htail k).
    + by apply Forall_cons.
    + done.
    + intros n x i d Hx Hi Hd. destruct n as [|n].
      * injection Hx as <-. injection Hi as <-. rewrite He in Hd. injection Hd as <-. right. unfold links in Hl. by apply andb_true_iff in Hl as [? _].
      * by apply (Hcl (S n) x i d).
  - intros k Hk. pose proof (Hempty k Hk) as Hw. unfold scratch_path in *. rewrite (walk_link _ _ _ _ e0), Ha0 in Hw by done. by rewrite (walk_link _ _ _ _ e), Ha.
  - intros k x. rewrite Hv. intros [->|Hx]%elem_of_cons; [by left|right; by apply (Htail' k)].
  - intros x Hx. destruct (Hused x Hx). split; [done|]. by intros ->.
Qed.

(** ** The new table before the user half *)
Lemma held_tables s K x : user_tables s K (cr3_reg s) -> user_table (ram s) (cr3_reg s) x -> held s K x.
Proof using.
  intros Hut (i & e & Hi & He & Hl & Hx). destruct (ut_tree _ _ _ Hut i e Hi He) as [_ Ht]; [unfold links in Hl; by apply andb_true_iff in Hl as [? _]|].
  by apply (tr_held _ _ _ _ Ht).
Qed.
Section Same.
(** Memory in which the user half of the active address space is as it was. *)
Context (s : Mem) (K : gset Z) (s1 : Mem) (K1 : gset Z) (Hut : user_tables s K (cr3_reg s)) (Hq : quiet k3 s K s1 K1).
Context (Hkeep : forall x, user_table (ram s) (cr3_reg s) x -> ram s1 !! x = ram s !! x).

Lemma same_below i e : (i < 256)%nat -> entry_of (ram s) (cr3_reg s) i = Some e -> links e = true ->
  (forall p, (length p <= 3)%nat -> reach (ram s1) (pte_addr e) p = reach (ram s) (pte_addr e) p) /\
  (forall p, (length p <= 3)%nat -> walk (ram s1) (pte_addr e) p = walk (ram s) (pte_addr e) p).
Proof using Hkeep.
  intros Hi He Hl. split; intros p Hp; [apply (reach_ext _ _ 3)|apply (walk_ext_owns _ _ 3)]; try done; intros x Hx; apply Hkeep; by exists i, e.
Qed.
Lemma same_tables : user_tables s1 K1 (cr3_reg s1).
Proof using All.
  split.
  - intros i e Hi He Hp. rewrite (quiet_entry k3 s K s1 K1) in He by done. destruct (ut_tree _ _ _ Hut i e Hi He Hp) as [Hl Ht]. split; [done|].
    apply (tree_same_shape k3 s K); [done| |done]. intros p Hlen. apply (same_below i); [done..|lia].
  - intros i j e d x Hi Hj He Hle Hd Hld (p & Hp & Hx) (q & Hq' & Hx'). rewrite (quiet_entry k3 s K s1 K1) in He, Hd by done.
    rewrite (proj1 (same_below i e Hi He Hle)) in Hx by lia. rewrite (proj1 (same_below j d Hj Hd Hld)) in Hx' by lia.
    apply (ut_apart _ _ _ Hut i j e d x); [done..|by exists p|by exists q].
Qed.
Lemma same_single : single_use s (cr3_reg s) -> single_use s1 (cr3_reg s1).
Proof using Hq Hkeep.
  intros Hu i j p q e d a b Hi Hj Hp Hq' Ha Hla Hb Hlb Hwp Hwq. rewrite (quiet_entry k3 s K s1 K1) in Ha, Hb by done.
  rewrite (proj2 (same_below i a Hi Ha Hla)) in Hwp by lia. rewrite (proj2 (same_below j b Hj Hb Hlb)) in Hwq by lia. by apply (Hu i j p q e d a b).
Qed.
Lemma same_apart new : free s new = true -> apart new s1.
Proof using All.
  intros Hf j d Hj Hd Hl (p & Hp & Hx). rewrite (quiet_entry k3 s K s1 K1) in Hd by done. rewrite (proj1 (same_below j d Hj Hd Hl)) in Hx by lia.
  destruct (held_tables s K new Hut) as [Hf' _]; [exists j, d; split_and!; try done; by exists p|]. by rewrite Hf in Hf'.
Qed.
Lemma same_user_table x : user_table (ram s1) (cr3_reg s1) x <-> user_table (ram s) (cr3_reg s) x.
Proof using Hq Hkeep.
  split; intros (i & e & Hi & He & Hl & p & Hp & Hx); exists i, e.
  - rewrite (quiet_entry k3 s K s1 K1) in He by done. split_and!; try done. exists p. split; [done|]. rewrite <-Hx. symmetry. apply (same_below i e); [done..|lia].
  - rewrite (quiet_entry k3 s K s1 K1) by done. split_and!; try done. exists p. split; [done|]. rewrite <-Hx. apply (same_below i e); [done..|lia].
Qed.
Lemma same_walk i p : (i < 256)%nat -> length p = 3%nat -> walk (ram s1) (cr3_reg s1) (i :: p) = walk (ram s) (cr3_reg s) (i :: p).
Proof using Hut Hq Hkeep.
  intros Hi Hp. pose proof (quiet_entry k3 s K s1 K1 i Hq Hi) as He1. cbn [walk]. rewrite He1.
  destruct (entry_of (ram s) (cr3_reg s) i) as [e|] eqn:He; [|done]. destruct (present e) eqn:Hpe; [|done]. destruct p as [|j p]; [done|].
  destruct (ut_tree _ _ _ Hut i e Hi He Hpe) as [Hl _]. rewrite Hl. by apply (same_below i e); [..|rewrite Hp].
Qed.
End Same.

Lemma root_walk m root i e p : entry_of m root i = Some e -> links e = true -> length p = 3%nat -> walk m root (i :: p) = walk m (pte_addr e) p.
Proof using. intros He Hl Hp. assert (p <> []) by (by intros ->). by apply walk_link. Qed.

(** What [clone_address_space] has made before it sets the last entry. *)
Section Made.
Context (s : Mem) (K : gset Z) (new : Z) (s1 : Mem) (K1 : gset Z) (s2 : Mem) (K2 : gset Z) (e5 : Z).
Context (Hk : kernel_ok k3 s K) (Hut : user_tables s K (cr3_reg s)) (Hfr : free s new = true).
Context (Hq1 : quiet k3 s K s1 K1) (Hrc : PAGE_REFCOUNTS s1 = PAGE_REFCOUNTS s).
Context (Hkeep : forall x, held s K x -> ram s1 !! x = ram s !! x).
Context (Hh1 : held s1 K1 new) (Hf1 : is_table_frame (ram s1) new) (Hr : 0 <= new < 2 ^ 47).
Context (Hzero : forall j, (j < 256)%nat -> entry_of (ram s1) new j = Some 0).
Context (Hkern : forall j, (256 <= j < 510)%nat -> entry_of (ram s1) new j = entry_of (ram s) (cr3_reg s) j).
Context (Hlink : exists e, entry_of (ram s1) new 510 = Some e /\ links e = true /\ pte_addr e = k3).
Context (Hfk : forked k3 new (seq 0 256) s1 K1 s2 K2).
Context (He5 : pte_addr e5 = new /\ pte_flags e5 = Z.lor PRESENT WRITABLE).

Let s3 := poke s2 new 511 e5.

Lemma made_keep x : user_table (ram s) (cr3_reg s) x -> ram s1 !! x = ram s !! x.
Proof using Hut Hkeep. intros Hx. by apply Hkeep, held_tables. Qed.
Lemma made_cr3 : cr3_reg s1 = cr3_reg s /\ cr3_reg s2 = cr3_reg s.
Proof using Hq1 Hfk. split; [apply Hq1|]. rewrite (q_cr3 _ _ _ _ _ (fk_quiet _ _ _ _ _ _ _ Hfk)). apply Hq1. Qed.
Lemma made_held : held s2 K2 new.
Proof using Hh1 Hfk. eapply quiet_held; [apply Hfk|done]. Qed.
Lemma made_frame : is_table_frame (ram s2) new.
Proof using Hf1 Hfk. by apply (q_frames _ _ _ _ _ (fk_quiet _ _ _ _ _ _ _ Hfk)). Qed.
Lemma made_quiet : quiet k3 s K s3 K2.
Proof using Hq1 Hh1 Hfk.
  eapply quiet_trans; [exact Hq1|]. eapply quiet_trans; [apply Hfk|]. apply quiet_poke; [apply Hfk|apply made_held].
Qed.
Lemma made_apart : apart new s2.
Proof using All. eapply forked_apart; [done|]. apply (same_apart s K s1 K1); [done|done|apply made_keep|done]. Qed.
Lemma made_root i : (i < 256)%nat -> entry_of (ram s3) (cr3_reg s) i = entry_of (ram s) (cr3_reg s) i /\
  entry_of (ram s1) (cr3_reg s1) i = entry_of (ram s) (cr3_reg s) i.
Proof using Hq1 Hh1 Hfk.
  intros Hi. split; [apply (q_root _ _ _ _ _ made_quiet); lia|]. by apply (quiet_entry k3 s K s1 K1).
Qed.
Lemma made_entry j : entry_of (ram s3) new j = if decide (j = 511%nat) then Some e5 else entry_of (ram s2) new j.
Proof using Hf1 Hfk. apply entry_poke; [apply made_frame|lia]. Qed.
(** The trees of the old address space, three steps on. *)
Lemma made_old i e : (i < 256)%nat -> entry_of (ram s) (cr3_reg s) i = Some e -> links e = true ->
  (forall p, (length p < 3)%nat -> reach (ram s3) (pte_addr e) p = reach (ram s) (pte_addr e) p) /\
  (forall p, length p = 3%nat -> walk (ram s3) (pte_addr e) p = cowed <$> walk (ram s) (pte_addr e) p).
Proof using All.
  intros Hi He Hl. pose proof (proj2 (made_root i Hi)) as He1. rewrite He in He1.
  assert (~ owns (ram s2) 3 (pte_addr e) new) as Hno.
  { apply (made_apart i e Hi); [|done]. rewrite (quiet_entry k3 s1 K1 s2 K2); [done|apply Hfk|done]. }
  destruct (poke_outside s2 new 511 e5 3 (pte_addr e) Hno) as [Hr2 Hw2]. destruct (same_below s s1 made_keep i e Hi He Hl) as [Hr1 Hw1]. split; intros p Hp.
  - etransitivity; [apply Hr2; lia|]. rewrite (fk_src _ _ _ _ _ _ _ Hfk i) by done. apply Hr1. lia.
  - etransitivity; [apply Hw2; lia|]. rewrite (fk_src_walk _ _ _ _ _ _ _ Hfk i), decide_True by (done || apply elem_of_seq; lia). rewrite Hw1 by lia. done.
Qed.
(** The trees of the new one. *)
Lemma made_new i e : (i < 256)%nat -> entry_of (ram s) (cr3_reg s) i = Some e -> present e = true ->
  exists e1, entry_of (ram s3) new i = Some e1 /\ links e1 = true /\ tree s3 K2 3 (pte_addr e1) /\
    (forall x, owns (ram s3) 3 (pte_addr e1) x <-> owns (ram s2) 3 (pte_addr e1) x) /\
    (forall x, owns (ram s3) 3 (pte_addr e1) x -> free s1 x = true) /\
    (forall p, length p = 3%nat -> walk (ram s3) (pte_addr e1) p = cowed <$> walk (ram s) (pte_addr e) p).
Proof using All.
  intros Hi He Hp. pose proof (proj2 (made_root i Hi)) as He1. rewrite He in He1.
  destruct (fk_new _ _ _ _ _ _ _ Hfk i e) as (e1 & H1 & H2 & H3 & H4 & H5 & H6); [apply elem_of_seq; lia|done|done|].
  assert (~ owns (ram s2) 3 (pte_addr e1) new) as Hno by (intros Hx%H5; destruct Hh1 as [Hf _]; by rewrite Hf in Hx).
  destruct (poke_outside s2 new 511 e5 3 (pte_addr e1) Hno) as [Hr2 Hw2].
  assert (forall x, owns (ram s3) 3 (pte_addr e1) x <-> owns (ram s2) 3 (pte_addr e1) x) as Hown.
  { intros x. split; intros (p & Hlen & Hx); exists p; (split; [done|]); rewrite <-Hx; [symmetry|]; apply Hr2; lia. }
  destruct (ut_tree _ _ _ Hut i e Hi He Hp) as [Hl _]. destruct (same_below s s1 made_keep i e Hi He Hl) as [_ Hw1].
  exists e1. split_and!; try done.
  - rewrite made_entry, decide_False by lia. done.
  - apply (tree_same_shape k3 s2 K2); [apply quiet_poke; [apply Hfk|apply made_held]| |done]. intros p Hlen. apply Hr2. lia.
  - intros x Hx. by apply H5, Hown.
  - intros p Hlen. etransitivity; [apply Hw2; lia|]. rewrite H6, Hw1 by lia. done.
Qed.

Lemma present_links e : links e = true -> present e = true.
Proof using. unfold links. by intros [? _]%andb_true_iff. Qed.
Lemma made_absent i e : (i < 256)%nat -> entry_of (ram s) (cr3_reg s) i = Some e -> present e = false -> entry_of (ram s3) new i = Some 0.
Proof using All.
  intros Hi He Hp. rewrite made_entry, decide_False by lia. rewrite (fk_none _ _ _ _ _ _ _ Hfk i e); [by apply Hzero|apply elem_of_seq; lia| |done].
  by rewrite (proj2 (made_root i Hi)).
Qed.
Lemma zero_dead : present 0 = false /\ links 0 = false.
Proof using HL. unfold links, present. rewrite pte_zero. done. Qed.
Lemma root_entry i : (i < 512)%nat -> exists e, entry_of (ram s) (cr3_reg s) i = Some e.
Proof using Hk.
  intros Hi. destruct (ko_root _ _ _ Hk) as ((ws & Hws & Hl) & _). unfold entry_of. rewrite Hws. apply lookup_lt_is_Some_2. lia.
Qed.
Lemma made_user i p : (i < 256)%nat -> length p = 3%nat ->
  walk (ram s3) (cr3_reg s) (i :: p) = cowed <$> walk (ram s) (cr3_reg s) (i :: p) /\
  walk (ram s3) new (i :: p) = cowed <$> walk (ram s) (cr3_reg s) (i :: p).
Proof using All.
  intros Hi Hp. destruct (root_entry i) as [e He]; [lia|]. pose proof (proj1 (made_root i Hi)) as He3. rewrite He in He3.
  destruct (present e) eqn:Hpe.
  - destruct (ut_tree _ _ _ Hut i e Hi He Hpe) as [Hl _]. destruct (made_new i e Hi He Hpe) as (e1 & H1 & H2 & _ & _ & _ & Hw).
    rewrite (root_walk _ _ _ _ _ He3), (root_walk _ _ _ _ _ He), (root_walk _ _ _ _ _ H1) by done.
    split; [by apply (made_old i e)|by apply Hw].
  - pose proof (made_absent i e Hi He Hpe) as H0.
    rewrite (walk_absent _ _ _ _ _ He3), (walk_absent _ _ _ _ _ He), (walk_absent _ _ _ _ _ H0) by (done || apply zero_dead). done.
Qed.
(** An entry of the new table for user addresses that leads somewhere. *)
Lemma made_new_inv i d : (i < 256)%nat -> entry_of (ram s3) new i = Some d -> present d = true ->
  exists e, entry_of (ram s) (cr3_reg s) i = Some e /\ present e = true /\ links d = true /\ tree s3 K2 3 (pte_addr d) /\
    entry_of (ram s2) new i = Some d /\
    (forall x, owns (ram s3) 3 (pte_addr d) x <-> owns (ram s2) 3 (pte_addr d) x) /\
    (forall x, owns (ram s3) 3 (pte_addr d) x -> free s1 x = true).
Proof using All.
  intros Hi Hd Hp. destruct (root_entry i) as [e He]; [lia|]. exists e. destruct (present e) eqn:Hpe.
  - destruct (made_new i e Hi He Hpe) as (e1 & H1 & H2 & H3 & H4 & H5 & _). rewrite Hd in H1. injection H1 as <-. split_and!; try done.
    rewrite made_entry, decide_False in Hd by lia. done.
  - rewrite (made_absent i e Hi He Hpe) in Hd. injection Hd as <-. by rewrite (proj1 zero_dead) in Hp.
Qed.
Lemma made_old_tables x : user_table (ram s3) (cr3_reg s) x <-> user_table (ram s) (cr3_reg s) x.
Proof using All.
  split; intros (i & e & Hi & He & Hl & p & Hp & Hx); exists i, e.
  - rewrite (proj1 (made_root i Hi)) in He. split_and!; try done. exists p. split; [done|]. by rewrite <-(proj1 (made_old i e Hi He Hl)).
  - rewrite (proj1 (made_root i Hi)). split_and!; try done. exists p. split; [done|]. by rewrite (proj1 (made_old i e Hi He Hl)).
Qed.
Lemma made_old_space : user_tables s3 K2 (cr3_reg s).
Proof using All.
  split.
  - intros i e Hi He Hp. rewrite (proj1 (made_root i Hi)) in He. destruct (ut_tree _ _ _ Hut i e Hi He Hp) as [Hl Ht]. split; [done|].
    apply (tree_same_shape k3 s K); [apply made_quiet|apply (made_old i e Hi He Hl)|done].
  - intros i j e d x Hi Hj He Hle Hd Hld (p & Hp & Hx) (q & Hq' & Hx').
    rewrite (proj1 (made_root i Hi)) in He. rewrite (proj1 (made_root j Hj)) in Hd.
    rewrite (proj1 (made_old i e Hi He Hle)) in Hx by done. rewrite (proj1 (made_old j d Hj Hd Hld)) in Hx' by done.
    apply (ut_apart _ _ _ Hut i j e d x); [done..|by exists p|by exists q].
Qed.
Lemma made_new_space : user_tables (with_cr3 s3 new) K2 new.
Proof using All.
  split; cbn [ram with_cr3].
  - intros i d Hi Hd Hp. destruct (made_new_inv i d Hi Hd Hp) as (e & He & Hpe & Hl & Ht & _ & _ & Hfree). split; [done|]. split.
    + intros x Hx. destruct (tr_held _ _ _ _ Ht x Hx) as ((H1 & H2 & _) & H3). split; [|done]. split_and!; [done|done|]. cbn. intros ->.
      destruct Hh1 as [Hf _]. rewrite Hfree in Hf; done.
    + intros p q x. apply (tr_inj _ _ _ _ Ht).
  - intros i j e d x Hi Hj He Hle Hd Hld Hx Hx'.
    destruct (made_new_inv i e Hi He (present_links e Hle)) as (a & Ha & Hpa & _ & _ & He2 & Ho & _).
    destruct (made_new_inv j d Hj Hd (present_links d Hld)) as (b & Hb & Hpb & _ & _ & Hd2 & Ho' & _).
    apply (fk_apart _ _ _ _ _ _ _ Hfk i j a b e d x); try done; [apply elem_of_seq; lia|apply elem_of_seq; lia|..].
    + by rewrite (proj2 (made_root i Hi)).
    + by rewrite (proj2 (made_root j Hj)).
    + by apply Ho.
    + by apply Ho'.
Qed.
Lemma made_new_kernel : kernel_ok k3 (with_cr3 s3 new) K2.
Proof using All.
  destruct Hlink as (e & He & Hl & Ha). apply (kernel_ok_switch s3 K2 new e); try done.
  - apply made_quiet.
  - apply poke_frames, made_frame.
  - eapply quiet_held; [apply quiet_poke; [apply Hfk|]|]; apply made_held.
  - rewrite made_entry, decide_False by lia. rewrite (fk_other _ _ _ _ _ _ _ Hfk); [done|]. rewrite elem_of_seq. lia.
Qed.
Lemma made_cloned : space_cloned s K new s3 K2.
Proof using All.
  destruct made_cr3 as [Hc1 Hc2]. split.
  - apply made_quiet.
  - done.
  - apply made_user.
  - intros j Hj. rewrite made_entry, decide_False by lia. rewrite (fk_other _ _ _ _ _ _ _ Hfk); [by apply Hkern|]. rewrite elem_of_seq. lia.
  - exists e5. rewrite made_entry, decide_True by done. done.
  - intros x Hx Hn. assert (x <> new) as Hne by (intros ->; destruct Hx as [Hx _]; by rewrite Hfr in Hx).
    transitivity (ram s2 !! x); [by apply put_word_ne|]. rewrite (fk_keep _ _ _ _ _ _ _ Hfk x); [by apply Hkeep|by eapply quiet_held|done|].
    intros i e Hi%elem_of_seq He Hl (p & Hp & Ho). rewrite (proj2 (made_root i ltac:(lia))) in He.
    apply Hn. exists i, e. split_and!; [lia|done|done|]. exists p. split; [done|].
    by rewrite <-(proj1 (same_below s s1 made_keep i e ltac:(lia) He Hl)) by lia.
  - apply made_old_tables.
  - intros x (i & e & Hi & He & Hl & Hx). destruct (made_new_inv i e Hi He (present_links e Hl)) as (_ & _ & _ & _ & _ & _ & _ & Hfree).
    by apply (q_free _ _ _ _ _ Hq1), Hfree.
  - apply made_old_space.
  - apply made_new_kernel.
  - apply made_new_space.
  - intros i p e Hi Hp Hw Hs. destruct (root_entry i) as [a Ha]; [lia|].
    destruct (present a) eqn:Hpa; [|by rewrite (walk_absent _ _ _ _ _ Ha) in Hw].
    destruct (ut_tree _ _ _ Hut i a Hi Ha Hpa) as [Hl _]. rewrite (root_walk _ _ _ _ _ Ha) in Hw by done.
    change (PAGE_REFCOUNTS s3) with (PAGE_REFCOUNTS s2). rewrite <-Hrc. apply (fk_count _ _ _ _ _ _ _ Hfk i a p e); try done; [apply elem_of_seq; lia| |].
    + by rewrite (proj2 (made_root i Hi)).
    + by rewrite (proj2 (same_below s s1 made_keep i a Hi Ha Hl)) by lia.
  - intros x Hx. change (PAGE_REFCOUNTS s3) with (PAGE_REFCOUNTS s2). rewrite (fk_count_other _ _ _ _ _ _ _ Hfk); [by rewrite Hrc|].
    intros i a p e Hi%elem_of_seq Ha Hl Hp Hw Hs. rewrite (proj2 (made_root i ltac:(lia))) in Ha.
    rewrite (proj2 (same_below s s1 made_keep i a ltac:(lia) Ha Hl)) in Hw by lia. apply (Hx i p e); [lia|done| |done]. by rewrite (root_walk _ _ _ _ _ Ha).
Qed.
End Made.

(** ** The whole operation *)
Lemma unforked_back s K s1 K1 new s2 :
  user_tables s K (cr3_reg s) -> free s new = true -> quiet k3 s K s1 K1 -> (forall x, held s K x -> ram s1 !! x = ram s !! x) ->
  unforked (eq new) s1 K1 s2 -> unforked (fun _ => False) s K s2.
Proof using.
  intros Hut Hfr Hq Hkeep [Hcr Hfull Hr Hk Hw].
  assert (forall x, user_table (ram s) (cr3_reg s) x -> ram s1 !! x = ram s !! x) as Hk1 by (intros x Hx; by apply Hkeep, held_tables).
  assert (forall j, (j < 256)%nat -> entry_of (ram s1) (cr3_reg s1) j = entry_of (ram s) (cr3_reg s) j) as Hent by (intros j Hj; by apply (quiet_entry k3 s K s1 K1)).
  split.
  - by rewrite Hcr, (q_cr3 _ _ _ _ _ Hq).
  - done.
  - intros j Hj. rewrite (q_cr3 _ _ _ _ _ Hq) in Hr. by rewrite Hr, (q_root _ _ _ _ _ Hq).
  - intros x Hx _ Ho. rewrite Hk; [by apply Hkeep|by eapply quiet_held| |].
    + intros <-. destruct Hx as [Hx _]. by rewrite Hfr in Hx.
    + intros i e Hi He Hl (p & Hp & Hx'). rewrite Hent in He by done. rewrite (proj1 (same_below s s1 Hk1 i e Hi He Hl)) in Hx' by lia.
      apply (Ho i e); [done..|by exists p].
  - intros i e p Hi He Hl Hp. destruct (same_below s s1 Hk1 i e Hi He Hl) as [_ Hw1]. rewrite <-!Hw1 by lia. apply (Hw i); [done|by rewrite Hent|done|done].
Qed.

(** The new table with its kernel half. *)
Lemma table_made s K :
  kernel_ok k3 s K -> user_tables s K (cr3_reg s) ->
  exists r s0, alloc_page_table s = (r, s0) /\
    match r with
    | Ok new => exists s1, for_each (seq 256 256) (copy_kernel_entry (cr3_reg s0) new) s0 = (Ok tt, s1) /\
        spent s s1 /\ cr3_reg s0 = cr3_reg s /\ free s new = true /\ 0 <= new < 2 ^ 47 /\ new mod PAGE_4K = 0 /\ (forall x, held s K x -> ram s1 !! x = ram s !! x) /\
        PAGE_REFCOUNTS s1 = PAGE_REFCOUNTS s /\ is_table_frame (ram s1) new /\
        (forall j, (j < 256)%nat -> entry_of (ram s1) new j = Some 0) /\
        (forall j, (256 <= j < 512)%nat -> j <> 510%nat -> entry_of (ram s1) new j = entry_of (ram s) (cr3_reg s) j) /\
        (exists e, entry_of (ram s1) new 510 = Some e /\ links e = true /\ pte_addr e = k3) /\
        exists K1, quiet k3 s K s1 K1 /\ held s1 K1 new
    | Err _ => unforked (fun _ => False) s K s0
    | Panic => False
    end.
Proof using HL.
  intros Hk Hut. destruct (alloc_page_table_ok k3 s K Hk) as (r & s1 & Hrun & Hused & Hrc & Hkeep & Hr).
  exists r, s1. split; [done|]. destruct r as [new|[]|]; [| |done].
  - destruct Hr as (Hf & Hf1 & Hnr & Hal & Hz & K1 & Hq & HK).
    assert (held s1 K1 new) as Hh by (by apply (new_held k3 s K)).
    assert (is_table_frame (ram s1) new) as Hfr by (exists (replicate 512 0); split; [done|apply length_replicate]).
    destruct (copy_kernel_ok new (seq 256 256) s1 K1) as (s2 & Hrun2 & Hq2 & Hram & Hent & Hrc2 & Hfree); [apply Hq|done..|intros j ?%elem_of_seq; lia|].
    exists s2. split; [done|]. split; [destruct Hused as (l & ? & Hl); exists l; split; [done|]; intros q; by rewrite Hfree|].
    split; [apply Hq|]. do 3 (split; [done|]). split; [|split; [|split; [by apply (q_frames _ _ _ _ _ Hq2)|split; [|split; [|split]]]]].
    + intros x Hx. rewrite Hram; [by apply Hkeep|]. intros ->. destruct Hx as [Hx _]. by rewrite Hf in Hx.
    + by rewrite Hrc2.
    + intros j Hj. rewrite Hent, decide_False by (rewrite elem_of_seq; lia). apply zero_entry; [done|lia].
    + intros j Hj Hne. rewrite Hent, decide_True by (apply elem_of_seq; lia). rewrite (q_cr3 _ _ _ _ _ Hq). by apply (q_root _ _ _ _ _ Hq).
    + rewrite Hent, decide_True by (apply elem_of_seq; lia). apply (ko_link _ _ _ (q_ok _ _ _ _ _ Hq)).
    + exists K1. split; [by eapply quiet_trans|by eapply quiet_held].
  - destruct Hr as (Hcr & Hfull & Hroot). split; try done.
    + intros x Hx _ _. by apply Hkeep.
    + intros i e p Hi He Hl Hp. left. apply (walk_ext_owns _ _ 3); [|lia]. intros x Hx. apply Hkeep, (held_tables s K); [done|by exists i, e].
Qed.

Lemma clone_address_space_ok s K :
  kernel_ok k3 s K -> user_tables s K (cr3_reg s) -> single_use s (cr3_reg s) ->
  exists r s', clone_address_space s = (r, s') /\
    match r with
    | Ok new => exists K', space_cloned s K new s' K'
    | Err _ => unforked (fun _ => False) s K s'
    | Panic => False
    end.
Proof using HL.
  intros Hk Hut Hu. destruct (table_made s K Hk Hut) as (r & s0 & Hrun & Hr). unfold clone_address_space.
  destruct r as [new|[]|]; [|exists (Err tt), s0; split; [unfold mbind, st_bind; by rewrite Hrun|done]|done].
  destruct Hr as (s1 & Hrun1 & Hspent & Hc0 & Hfr & Hnr & Hal & Hkeep & Hrc & Hf1 & Hzero & Hkern & Hlink & K1 & Hq & Hh).
  rewrite (st_bind_eq _ _ _ _ _ Hrun). rewrite (st_bind_eq _ _ s0 (cr3_reg s0) s0) by done. rewrite (st_bind_eq _ _ _ _ _ Hrun1).
  assert (forall x, user_table (ram s) (cr3_reg s) x -> ram s1 !! x = ram s !! x) as Hk1 by (intros x Hx; by apply Hkeep, held_tables).
  destruct (clone_user_entries_ok k3 new (seq 0 256) s1 K1) as (r & s2 & Hrun2 & Hr); try done.
  - apply Hq.
  - by apply (same_tables s K).
  - by apply (same_single s K s1 K1).
  - by apply (same_apart s K s1 K1).
  - apply NoDup_seq.
  - intros j ?%elem_of_seq. lia.
  - rewrite Hc0, <-(q_cr3 _ _ _ _ _ Hq).
    destruct r as [[]|[]|]; [|exists (Err tt), s2; split; [unfold mbind at 1, st_bind at 1; by rewrite Hrun2|by apply (unforked_back s K s1 K1 new)]|done].
    destruct Hr as (K2 & Hfk). rewrite (st_bind_eq _ _ _ _ _ Hrun2).
    destruct (pte_make_ok new (Z.lor PRESENT WRITABLE) Hal ltac:(change MAX_PHYS with (2 ^ 52); lia) ltac:(split; done)) as (e5 & Hm & He5).
    assert (frame_containing new = new) as -> by (rewrite frame_containing_ok by (change MAX_PHYS with (2 ^ 52); lia); unfold page_of; lia).
    assert (set_addr new 511 new (Z.lor PRESENT WRITABLE) s2 = (Ok (E := unit) tt, poke s2 new 511 e5)) as Hset.
    { apply set_addr_ok; [|done|lia|done]. by apply (q_frames _ _ _ _ _ (fk_quiet _ _ _ _ _ _ _ Hfk)). }
    rewrite (st_bind_eq _ _ _ _ _ Hset). exists (Ok new), (poke s2 new 511 e5). split; [done|]. exists K2.
    apply (made_cloned s K new s1 K1 s2 K2 e5); try done. intros j Hj. apply Hkern; lia.
Qed.

(** C8: [clone_address_space] never panics, and fails only when no page is free.  When it
    succeeds, every user address of both address spaces leads to the page it led to, a writable
    one read-only and marked in both; what is in memory outside the tables of the user half is
    unchanged; the new tables are frames that were free; the kernel half is shared; and the new
    level 4 table can be switched to.  When it fails, every user address still leads to the
    page it led to, and what is in the pages is unchanged. *)
Theorem fork_clones_address_space s K :
  kernel_ok k3 s K -> user_tables s K (cr3_reg s) -> single_use s (cr3_reg s) ->
  exists r s', clone_address_space s = (r, s') /\ cr3_reg s' = cr3_reg s /\
    (forall x, held s K x -> ~ user_table (ram s) (cr3_reg s) x -> ram s' !! x = ram s !! x) /\
    match r with
    | Ok new =>
        (forall i p, (i < 256)%nat -> length p = 3%nat ->
           walk (ram s') (cr3_reg s) (i :: p) = cowed <$> walk (ram s) (cr3_reg s) (i :: p) /\
           walk (ram s') new (i :: p) = cowed <$> walk (ram s) (cr3_reg s) (i :: p)) /\
        (forall x, x = new \/ user_table (ram s') new x -> free s x = true) /\
        (forall j, (256 <= j < 510)%nat -> entry_of (ram s') new j = entry_of (ram s) (cr3_reg s) j) /\
        (exists K', kernel_ok k3 s' K' /\ kernel_ok k3 (with_cr3 s' new) K' /\
           user_tables s' K' (cr3_reg s) /\ user_tables (with_cr3 s' new) K' new)
    | Err _ => (forall x, free s' x = false) /\
        forall i p, (i < 256)%nat -> length p = 3%nat ->
          walk (ram s') (cr3_reg s) (i :: p) = walk (ram s) (cr3_reg s) (i :: p) \/
          walk (ram s') (cr3_reg s) (i :: p) = cowed <$> walk (ram s) (cr3_reg s) (i :: p)
    | Panic => False
    end.
Proof using HL.
  intros Hk Hut Hu. destruct (clone_address_space_ok s K Hk Hut Hu) as (r & s' & Hrun & Hr). exists r, s'. split; [done|]. destruct r as [new|[]|]; [| |done].
  - destruct Hr as (K' & Hc). pose proof (sc_quiet _ _ _ _ _ Hc) as Hq. split; [apply Hq|]. split; [apply Hc|]. split; [apply Hc|]. split; [|split; [apply Hc|]].
    + intros x [->|Hx]; [by apply (sc_fresh _ _ _ _ _ Hc)|by apply (sc_new _ _ _ _ _ Hc)].
    + exists K'. split; [apply Hq|]. split; [apply Hc|]. split; apply Hc.
  - destruct Hr as [Hcr Hfull Hroot Hkeep Hw]. split; [done|]. split.
    + intros x Hx Hn. apply Hkeep; [done|by intros []|]. intros i e Hi He Hl Ho. apply Hn. by exists i, e.
    + split; [done|]. intros i p Hi Hp. pose proof (Hroot i ltac:(lia)) as He. cbn [walk]. rewrite He.
      destruct (entry_of (ram s) (cr3_reg s) i) as [e|] eqn:He'; [|by left]. destruct (present e) eqn:Hpe; [|by left]. destruct p as [|j p]; [done|].
      destruct (ut_tree _ _ _ Hut i e Hi He' Hpe) as [Hl _]. rewrite Hl. by apply (Hw i e).
Qed.

(** A new address space for a program: nothing is mapped in the user half and the kernel half
    is the creator's, its entry 511 (the table itself) included. *)
Lemma new_user_address_space_ok s K :
  kernel_ok k3 s K -> user_tables s K (cr3_reg s) ->
  exists r s', new_user_address_space s = (r, s') /\
    match r with
    | Ok new => spent s s' /\ new mod PAGE_4K = 0 /\ cr3_reg s' = cr3_reg s /\ (forall i, (i < 256)%nat -> entry_of (ram s') new i = Some 0) /\
        free s new = true /\ (forall x, held s K x -> ram s' !! x = ram s !! x) /\
        (forall i p, (i < 256)%nat -> walk (ram s') new (i :: p) = None) /\
        (forall j, (256 <= j < 512)%nat -> j <> 510%nat -> entry_of (ram s') new j = entry_of (ram s) (cr3_reg s) j) /\
        exists K', kernel_ok k3 (with_cr3 s' new) K'
    | Err _ => few s /\ forall x, free s' x = false
    | Panic => False
    end.
Proof using HL.
  intros Hk Hut. destruct (table_made s K Hk Hut) as (r & s0 & Hrun & Hr). unfold new_user_address_space.
  destruct (alloc_page_table_ok k3 s K Hk) as (r' & s0' & Hrun' & Hused & _). rewrite Hrun in Hrun'. injection Hrun' as <- <-.
  destruct r as [new|[]|]; [|exists (Err tt), s0; split; [unfold mbind, st_bind; by rewrite Hrun|split; [done|apply Hr]]|done].
  destruct Hr as (s1 & Hrun1 & Hspent & Hc0 & Hfr & Hnr & Hal & Hkeep & Hrc & Hf1 & Hzero & Hkern & (e & He & Hl & Ha) & K1 & Hq & Hh).
  rewrite (st_bind_eq _ _ _ _ _ Hrun). rewrite (st_bind_eq _ _ s0 (cr3_reg s0) s0) by done. rewrite (st_bind_eq _ _ _ _ _ Hrun1).
  exists (Ok new), s1. split; [done|]. split; [done|]. split; [done|]. split; [apply Hq|]. split; [done|].
  do 2 (split; [done|]). split; [|split; [done|]].
  - intros i p Hi. apply (walk_absent _ _ _ _ 0); [by apply Hzero|apply zero_dead].
  - exists K1. apply (kernel_ok_switch s1 K1 new e); try done. apply Hq.
Qed.
End Space.
