(* ===== verification/CowFault.v ===== *)
(** * Copy-on-write faults

    [handle_cow_fault] gives the faulting address a page of its own that can be written and
    leaves every other page of every address space as it was. *)
From S2P Require Import Prelude PageAlloc Paging Mapping Cow CowScratch CowClone CowTables CowFork CowSpace.

Section Fault.
Context `{HP : Paging} {HL : PagingLaws} (k3 : Z).

(** ** One entry of a table of the last level *)
Lemma poke_leaf s K l t p x d e' :
  tree s K (S l) t -> length p = l -> reach (ram s) t p = Some x -> (d < 512)%nat ->
  (forall q, (length q <= l)%nat -> reach (ram (poke s x d e')) t q = reach (ram s) t q) /\
  (forall q, length q = S l -> walk (ram (poke s x d e')) t q =
     if decide (q = p ++ [d]) then (if present e' then Some (O, e') else None) else walk (ram s) t q).
Proof using HL.
  intros Ht Hp Hr Hd. revert l t Ht Hp Hr. induction p as [|i p IH]; intros l t Ht Hp Hr.
  - cbn in Hp. subst l. injection Hr as <-. destruct (tr_held _ _ _ _ Ht t (owns_root _ 1 _ ltac:(lia))) as (_ & _ & Hf). split.
    + intros [|j q] Hq; [done|cbn in Hq; lia].
    + intros [|j [|? ?]] Hq; [done| |done]. rewrite !walk_single, entry_poke by done. cbn [app]. destruct (decide (j = d)) as [->|Hne].
      * by rewrite decide_True by done.
      * by rewrite decide_False by congruence.
  - destruct l as [|l]; [done|]. injection Hp as Hp. apply reach_cons in Hr as (e & He & Hl & Hr).
    assert (owns (ram s) (S l) (pte_addr e) x) as Hx by (exists p; split; [lia|done]).
    assert (x <> t) as Hxt by (intros ->; by apply (tree_no_loop s K (S l) t i e)).
    assert (forall j, entry_of (ram (poke s x d e')) t j = entry_of (ram s) t j) as Hent by (intros j; unfold entry_of; cbn; by rewrite put_word_ne).
    destruct (IH l (pte_addr e)) as [IHr IHw]; [by eapply tree_child|done|done|].
    assert (forall j b, j <> i -> entry_of (ram s) t j = Some b -> links b = true -> ~ owns (ram s) (S l) (pte_addr b) x) as Hoth.
    { intros j b Hj Hb Hlb Hx'. by apply Hj, (tree_sep s K (S l) t j i b e x). }
    split.
    + intros [|j q] Hq; [done|]. cbn in Hq. cbn [reach]. rewrite Hent. destruct (entry_of (ram s) t j) as [b|] eqn:Hb; [|done]. destruct (links b) eqn:Hlb; [|done].
      destruct (decide (j = i)) as [->|Hne]; [rewrite He in Hb; injection Hb as <-; apply IHr; lia|].
      apply (proj1 (poke_outside s x d e' (S l) (pte_addr b) (Hoth j b Hne Hb Hlb))). lia.
    + intros [|j q] Hq; [done|]. injection Hq as Hq. cbn [app walk]. rewrite Hent. assert (q <> []) as Hnil by (by intros ->).
      destruct (entry_of (ram s) t j) as [b|] eqn:Hb.
      * destruct (decide (j = i)) as [->|Hne].
        -- rewrite He in Hb. injection Hb as <-. rewrite (present_links e Hl), Hl. destruct q; [done|]. rewrite IHw by done.
           destruct (decide _) as [->|Hn]; [by rewrite decide_True|by rewrite decide_False by congruence].
        -- rewrite decide_False by congruence. destruct (present b); [|done]. destruct q; [done|]. destruct (links b) eqn:Hlb; [|done].
           apply (proj2 (poke_outside s x d e' (S l) (pte_addr b) (Hoth j b Hne Hb Hlb))). lia.
      * rewrite decide_False; [done|]. intros [= -> _]. by rewrite He in Hb.
Qed.

Lemma walk4 m root a b c d e :
  walk m root [a; b; c; d] = Some (O, e) ->
  exists e4 e3 e2, entry_of m root a = Some e4 /\ links e4 = true /\ entry_of m (pte_addr e4) b = Some e3 /\ links e3 = true /\
    entry_of m (pte_addr e3) c = Some e2 /\ links e2 = true /\ entry_of m (pte_addr e2) d = Some e /\ present e = true.
Proof using.
  cbn [walk]. destruct (entry_of m root a) as [e4|]; [|done]. destruct (present e4) eqn:P4; [|done]. destruct (links e4) eqn:L4; [|done].
  destruct (entry_of m (pte_addr e4) b) as [e3|] eqn:E3; [|done]. destruct (present e3) eqn:P3; [|done]. destruct (links e3) eqn:L3; [|done].
  destruct (entry_of m (pte_addr e3) c) as [e2|] eqn:E2; [|done]. destruct (present e2) eqn:P2; [|done]. destruct (links e2) eqn:L2; [|done].
  destruct (entry_of m (pte_addr e2) d) as [e1|] eqn:E1; [|done]. destruct (present e1) eqn:P1; [|done].
  intros [= <-]. by exists e4, e3, e2.
Qed.

(** ** The user half after an entry of the last level was replaced *)
Section Replace.
Context (s : Mem) (K : gset Z) (Hk : kernel_ok k3 s K) (Hut : user_tables s K (cr3_reg s)).
Context (i a b d : nat) (e4 t1 e' : Z) (Hi : (i < 256)%nat) (Hd : (d < 512)%nat).
Context (He4 : entry_of (ram s) (cr3_reg s) i = Some e4) (Hl4 : links e4 = true) (Ht1 : reach (ram s) (pte_addr e4) [a; b] = Some t1).
Let s' := poke s t1 d e'.

Lemma replace_owns : owns (ram s) 3 (pte_addr e4) t1.
Proof using Ht1. exists [a; b]. split; [repeat constructor|done]. Qed.
Lemma replace_held : held s K t1 /\ 0 <= t1 < 2 ^ 47 /\ is_table_frame (ram s) t1.
Proof using All. apply (tr_held s K 3 (pte_addr e4)), replace_owns. by apply (ut_tree _ _ _ Hut i e4 Hi He4), present_links. Qed.
Lemma replace_quiet : quiet k3 s K s' K.
Proof using All. apply quiet_poke; [done|apply replace_held]. Qed.
Lemma replace_below j c : (j < 256)%nat -> entry_of (ram s) (cr3_reg s) j = Some c -> links c = true ->
  (forall p, (length p < 3)%nat -> reach (ram s') (pte_addr c) p = reach (ram s) (pte_addr c) p) /\
  (forall p, length p = 3%nat -> walk (ram s') (pte_addr c) p =
     if decide (j :: p = [i; a; b; d]) then (if present e' then Some (O, e') else None) else walk (ram s) (pte_addr c) p).
Proof using All.
  intros Hj Hc Hlc. destruct (decide (j = i)) as [->|Hne].
  - rewrite He4 in Hc. injection Hc as <-.
    destruct (poke_leaf s K 2 (pte_addr e4) [a; b] t1 d e') as [Hr Hw]; [by apply (ut_tree _ _ _ Hut i e4 Hi He4), present_links|done..|].
    split; intros p Hp; [apply Hr; lia|]. etransitivity; [by apply Hw|]. cbn [app].
    destruct (decide (p = [a; b; d])) as [->|Hn]; [by rewrite decide_True|by rewrite decide_False by congruence].
  - destruct (poke_outside s t1 d e' 3 (pte_addr c)) as [Hr Hw].
    { intros Hx. apply Hne. apply (ut_apart _ _ _ Hut j i c e4 t1); try done. apply replace_owns. }
    split; intros p Hp; [apply Hr; lia|]. rewrite decide_False by congruence. apply Hw. lia.
Qed.
Lemma replace_root j : (j < 256)%nat -> entry_of (ram s') (cr3_reg s) j = entry_of (ram s) (cr3_reg s) j.
Proof using All. intros Hj. apply (q_root _ _ _ _ _ replace_quiet). lia. Qed.
Lemma replace_tables x : user_table (ram s') (cr3_reg s) x <-> user_table (ram s) (cr3_reg s) x.
Proof using All.
  split; intros (j & c & Hj & Hc & Hl & p & Hp & Hx); exists j, c.
  - rewrite (replace_root j Hj) in Hc. split_and!; try done. exists p. split; [done|]. by rewrite <-(proj1 (replace_below j c Hj Hc Hl)).
  - rewrite (replace_root j Hj). split_and!; try done. exists p. split; [done|]. by rewrite (proj1 (replace_below j c Hj Hc Hl)).
Qed.
Lemma replace_space : user_tables s' K (cr3_reg s).
Proof using All.
  split.
  - intros j c Hj Hc Hp. rewrite (replace_root j Hj) in Hc. destruct (ut_tree _ _ _ Hut j c Hj Hc Hp) as [Hl Ht]. split; [done|].
    apply (tree_same_shape k3 s K); [apply replace_quiet|apply (replace_below j c Hj Hc Hl)|done].
  - intros j k c c' x Hj Hk' Hc Hlc Hc' Hlc' (p & Hp & Hx) (q & Hq & Hx').
    rewrite (replace_root j Hj) in Hc. rewrite (replace_root k Hk') in Hc'.
    rewrite (proj1 (replace_below j c Hj Hc Hlc)) in Hx by done. rewrite (proj1 (replace_below k c' Hk' Hc' Hlc')) in Hx' by done.
    apply (ut_apart _ _ _ Hut j k c c' x); [done..|by exists p|by exists q].
Qed.
Lemma replace_walk j p : (j < 256)%nat -> length p = 3%nat ->
  walk (ram s') (cr3_reg s) (j :: p) = if decide (j :: p = [i; a; b; d]) then (if present e' then Some (O, e') else None) else walk (ram s) (cr3_reg s) (j :: p).
Proof using All.
  intros Hj Hp. destruct (root_entry k3 s K Hk j ltac:(lia)) as [c Hc]. pose proof (replace_root j Hj) as Hc'. rewrite Hc in Hc'.
  destruct (present c) eqn:Hpc.
  - destruct (ut_tree _ _ _ Hut j c Hj Hc Hpc) as [Hl _]. rewrite (root_walk _ _ _ _ _ Hc'), (root_walk _ _ _ _ _ Hc) by done. by apply (replace_below j c).
  - rewrite (walk_absent _ _ _ _ _ Hc'), (walk_absent _ _ _ _ _ Hc) by done. rewrite decide_False; [done|]. intros [= -> _].
    rewrite He4 in Hc. injection Hc as <-. apply present_links in Hl4. congruence.
Qed.
End Replace.

(** ** The fault *)
Definition own_flags (flags : Z) : Z := Z.lor (Z.ldiff flags COW_FLAG) WRITABLE.
(** The flags before the page was shared are the ones the fault gives back. *)
Lemma own_cow_flags f : is_flags f -> contains f WRITABLE = true -> contains f COW_FLAG = false -> own_flags (cow_flags f) = f.
Proof using.
  intros Hf. change WRITABLE with (2 ^ 1). change COW_FLAG with (2 ^ 9). rewrite !contains_bit by done. intros Hw Hc. apply Z.bits_inj'. intros n Hn.
  unfold own_flags. change WRITABLE with (2 ^ 1). change COW_FLAG with (2 ^ 9). rewrite flags_bit by done. unfold cow_flags.
  change WRITABLE with (2 ^ 1). change COW_FLAG with (2 ^ 9). rewrite flags_bit by done.
  destruct (bool_decide_reflect (n = 9)) as [->|]; [rewrite Hc; done|]. destruct (bool_decide_reflect (n = 1)) as [->|]; [by rewrite Hw, orb_true_r|].
  cbn. by rewrite !andb_true_r, !orb_false_r.
Qed.

(** The user address [a] is mapped copy-on-write to a page that holds [ws]. *)
Record fault_at (s : Mem) (K : gset Z) (a e : Z) (ws : list Z) : Prop := {
  fa_range : 0 <= a < 2 ^ 64;
  fa_user : (table_index 4 a < 256)%nat;
  fa_walk : walk (ram s) (cr3_reg s) (indices a) = Some (O, e);
  fa_cow : contains (pte_flags e) COW_FLAG = true;
  fa_held : held s K (pte_addr e) /\ 0 <= pte_addr e < 2 ^ 47;
  fa_words : ram s !! pte_addr e = Some ws /\ length ws = 512%nat;
  fa_page : ~ user_table (ram s) (cr3_reg s) (pte_addr e);
}.
Record resolved (s : Mem) (K : gset Z) (a e : Z) (ws : list Z) (s' : Mem) (K' : gset Z) (e' : Z) : Prop := {
  rs_quiet : quiet k3 s K s' K';
  rs_walk : walk (ram s') (cr3_reg s) (indices a) = Some (O, e');
  rs_flags : pte_flags e' = own_flags (pte_flags e);
  rs_words : ram s' !! pte_addr e' = Some ws;
  rs_held : held s' K' (pte_addr e') /\ 0 <= pte_addr e' < 2 ^ 47;
  rs_other j p : (j < 256)%nat -> length p = 3%nat -> j :: p <> indices a ->
    walk (ram s') (cr3_reg s) (j :: p) = walk (ram s) (cr3_reg s) (j :: p);
  rs_keep x : held s K x -> ~ user_table (ram s) (cr3_reg s) x -> ram s' !! x = ram s !! x;
  rs_tables x : user_table (ram s') (cr3_reg s) x <-> user_table (ram s) (cr3_reg s) x;
  rs_space : user_tables s' K' (cr3_reg s);
  rs_how : if refcount_get s (pte_addr e) =? 1
    then pte_addr e' = pte_addr e /\ PAGE_REFCOUNTS s' = PAGE_REFCOUNTS s
    else free s (pte_addr e') = true /\
      PAGE_REFCOUNTS s' = <[pte_addr e := wrap 32 (refcount_get s (pte_addr e) - 1)]> (PAGE_REFCOUNTS s);
}.

Lemma table_index_lt l a : (1 <= l <= 4)%nat -> 0 <= a < 2 ^ 64 -> (table_index l a < 512)%nat.
Proof using HL.
  intros Hl Ha. rewrite table_index_ok by done. pose proof (Z.mod_pos_bound (a / 2 ^ (3 + 9 * Z.of_nat l)) 512 ltac:(lia)). lia.
Qed.
Lemma present_entry_ok {E} s x i e : is_table_frame (ram s) x -> 0 <= x < 2 ^ 47 -> (i < 512)%nat -> entry_of (ram s) x i = Some e -> present e = true ->
  present_entry (E := E) x i s = (Ok (Some e), s).
Proof using HL.
  intros Hf Hx Hi He Hp. destruct (entry_at_ok (E := E) s x i Hf Hx Hi) as (d & Hd & Hrun). rewrite He in Hd. injection Hd as <-.
  unfold present_entry. rewrite (st_bind_eq _ _ _ _ _ Hrun). unfold present in Hp. by rewrite Hp.
Qed.

Lemma resolve_make a f : 0 <= a < 2 ^ 47 -> a mod PAGE_4K = 0 -> is_flags f -> contains f PRESENT = true ->
  exists e', pte_make a (own_flags f) = Some e' /\ pte_addr e' = a /\ pte_flags e' = own_flags f /\ present e' = true.
Proof using HL.
  intros Ha Hal Hf Hp. assert (is_flags (own_flags f)) as Hf' by (by apply flags_update).
  destruct (pte_make_ok a (own_flags f) Hal ltac:(change MAX_PHYS with (2 ^ 52); lia) Hf') as (e' & Hm & H1 & H2). exists e'. split_and!; try done.
  unfold present. rewrite H2. change PRESENT with (2 ^ 0) in *. rewrite contains_bit in * by done. unfold own_flags.
  change COW_FLAG with (2 ^ 9). change WRITABLE with (2 ^ 1). rewrite flags_bit by done. by rewrite Hp.
Qed.
Lemma refcount_dec_ok {E} s x : refcount_get s x <> 1 ->
  exists b, refcount_dec (E := E) x s = (Ok b, with_refcounts s (<[x := wrap 32 (refcount_get s x - 1)]> (PAGE_REFCOUNTS s))).
Proof using.
  unfold refcount_get, refcount_dec, mbind, st_bind, st_get, st_put, mret, st_ret. destruct (PAGE_REFCOUNTS s !! x) as [n|]; [|done]. cbn. intros Hn.
  rewrite (proj2 (Z.eqb_neq n 1) Hn). by exists false.
Qed.

Lemma user_tables_refcounts s K root c : user_tables s K root -> user_tables (with_refcounts s c) K root.
Proof using.
  intros [Ht Ha]. split; [|exact Ha]. intros i e Hi He Hp. destruct (Ht i e Hi He Hp) as [Hl [Hh Hinj]]. split; [done|]. by split.
Qed.

Section Resolve.
Context (s : Mem) (K : gset Z) (Hk : kernel_ok k3 s K) (Hut : user_tables s K (cr3_reg s)).
Context (a e : Z) (ws : list Z) (Hfa : fault_at s K a e ws).
Context (e4 t1 : Z) (He4 : entry_of (ram s) (cr3_reg s) (table_index 4 a) = Some e4) (Hl4 : links e4 = true).
Context (Ht1 : reach (ram s) (pte_addr e4) [table_index 3 a; table_index 2 a] = Some t1).

Lemma fault_table : user_table (ram s) (cr3_reg s) t1.
Proof using He4 Hl4 Ht1 Hfa.
  exists (table_index 4 a), e4. split_and!; [apply Hfa|done|done|]. exists [table_index 3 a; table_index 2 a]. split; [repeat constructor|done].
Qed.
Lemma resolved_any s1 K1 e' c :
  quiet k3 s K s1 K1 -> (forall x, held s K x -> ram s1 !! x = ram s !! x) ->
  ram s1 !! pte_addr e' = Some ws -> held s1 K1 (pte_addr e') /\ 0 <= pte_addr e' < 2 ^ 47 -> ~ user_table (ram s) (cr3_reg s) (pte_addr e') ->
  pte_flags e' = own_flags (pte_flags e) -> present e' = true ->
  (if refcount_get s (pte_addr e) =? 1 then pte_addr e' = pte_addr e /\ c = PAGE_REFCOUNTS s
   else free s (pte_addr e') = true /\ c = <[pte_addr e := wrap 32 (refcount_get s (pte_addr e) - 1)]> (PAGE_REFCOUNTS s)) ->
  resolved s K a e ws (with_refcounts (poke s1 t1 (table_index 1 a) e') c) K1 e'.
Proof using All.
  intros Hq Hkeep Hws Hh Hn Hfl Hp Hhow. pose proof (fa_range _ _ _ _ _ Hfa) as Ha. pose proof (fa_user _ _ _ _ _ Hfa) as Hi.
  assert (forall x, user_table (ram s) (cr3_reg s) x -> ram s1 !! x = ram s !! x) as Hk1 by (intros x Hx; by apply Hkeep, (held_tables s K)).
  destruct (same_below s s1 Hk1 (table_index 4 a) e4 Hi He4 Hl4) as [Hr1 _].
  assert (forall j, (j < 256)%nat -> entry_of (ram s1) (cr3_reg s1) j = entry_of (ram s) (cr3_reg s) j) as Hent by (intros j Hj; by apply (quiet_entry k3 s K s1 K1)).
  pose proof (same_tables k3 s K s1 K1 Hut Hq Hk1) as Hut1. pose proof (same_user_table k3 s K s1 K1 Hq Hk1) as Htab.
  pose proof (same_walk k3 s K s1 K1 Hut Hq Hk1) as Hw1.
  pose proof (q_ok _ _ _ _ _ Hq) as Hok1. pose proof (table_index_lt 1 a ltac:(lia) Ha) as Hd.
  assert (entry_of (ram s1) (cr3_reg s1) (table_index 4 a) = Some e4) as He41 by (by rewrite Hent).
  assert (reach (ram s1) (pte_addr e4) [table_index 3 a; table_index 2 a] = Some t1) as Ht11 by (rewrite Hr1 by (cbn; lia); done).
  set (s2 := poke s1 t1 (table_index 1 a) e').
  pose proof (replace_quiet s1 K1 Hok1 Hut1 _ _ _ (table_index 1 a) e4 t1 e' Hi Hd He41 Hl4 Ht11) as Hq2.
  pose proof (replace_walk s1 K1 Hok1 Hut1 _ _ _ (table_index 1 a) e4 t1 e' Hi Hd He41 Hl4 Ht11) as Hw2.
  pose proof (replace_tables s1 K1 Hok1 Hut1 _ _ _ (table_index 1 a) e4 t1 e' Hi Hd He41 Hl4 Ht11) as Htab2.
  pose proof (replace_space s1 K1 Hok1 Hut1 _ _ _ (table_index 1 a) e4 t1 e' Hi Hd He41 Hl4 Ht11) as Hsp2.
  fold s2 in Hq2, Hw2, Htab2, Hsp2. rewrite (q_cr3 _ _ _ _ _ Hq) in *.
  assert (forall x, ~ user_table (ram s) (cr3_reg s) x -> ram s2 !! x = ram s1 !! x) as Hram2.
  { intros x Hx. apply put_word_ne. intros ->. apply Hx, fault_table. }
  assert (quiet k3 s K (with_refcounts s2 c) K1) as Hqq by (eapply quiet_trans; [exact Hq|]; eapply quiet_trans; [exact Hq2|]; apply quiet_refcounts, Hq2).
  split; try done.
  - change (walk (ram s2) (cr3_reg s) [table_index 4 a; table_index 3 a; table_index 2 a; table_index 1 a] = Some (O, e')). rewrite Hw2, decide_True by done. by rewrite Hp.
  - cbn [ram with_refcounts]. by rewrite Hram2.
  - intros j p Hj Hlen Hne. cbn [ram with_refcounts]. rewrite Hw2, decide_False by done. by apply Hw1.
  - intros x Hx Hnx. cbn [ram with_refcounts]. rewrite Hram2 by done. by apply Hkeep.
  - intros x. by rewrite <-Htab, <-Htab2.
  - by apply user_tables_refcounts.
Qed.
End Resolve.

(** The address space and what is in it when no page could be had. *)
Record unresolved (s : Mem) (K : gset Z) (s' : Mem) : Prop := {
  un_cr3 : cr3_reg s' = cr3_reg s;
  un_full x : free s' x = false;
  un_count : PAGE_REFCOUNTS s' = PAGE_REFCOUNTS s;
  un_keep x : held s K x -> ram s' !! x = ram s !! x;
  un_walk i p : (i < 256)%nat -> length p = 3%nat -> walk (ram s') (cr3_reg s) (i :: p) = walk (ram s) (cr3_reg s) (i :: p);
}.

Lemma fault_path s a e : walk (ram s) (cr3_reg s) (indices a) = Some (O, e) ->
  exists e4 e3 e2, entry_of (ram s) (cr3_reg s) (table_index 4 a) = Some e4 /\ links e4 = true /\
    entry_of (ram s) (pte_addr e4) (table_index 3 a) = Some e3 /\ links e3 = true /\
    entry_of (ram s) (pte_addr e3) (table_index 2 a) = Some e2 /\ links e2 = true /\
    entry_of (ram s) (pte_addr e2) (table_index 1 a) = Some e /\ present e = true /\
    reach (ram s) (pte_addr e4) [table_index 3 a; table_index 2 a] = Some (pte_addr e2).
Proof using.
  intros Hw. destruct (walk4 _ _ _ _ _ _ _ Hw) as (e4 & e3 & e2 & H4 & L4 & H3 & L3 & H2 & L2 & H1 & P1). exists e4, e3, e2. split_and!; try done.
  rewrite (reach_link _ _ _ e3), (reach_link _ _ _ e2) by done. done.
Qed.

Lemma resolve_cow_ok {E} s K a e ws e4 t1 :
  kernel_ok k3 s K -> user_tables s K (cr3_reg s) -> fault_at s K a e ws ->
  entry_of (ram s) (cr3_reg s) (table_index 4 a) = Some e4 -> links e4 = true ->
  reach (ram s) (pte_addr e4) [table_index 3 a; table_index 2 a] = Some t1 ->
  exists ok s', resolve_cow (E := E) t1 (table_index 1 a) e s = (Ok ok, s') /\
    if ok : bool then exists K' e', resolved s K a e ws s' K' e' else refcount_get s (pte_addr e) <> 1 /\ unresolved s K s'.
Proof using HL.
  intros Hk Hut Hfa He4 Hl4 Ht1. pose proof (fa_range _ _ _ _ _ Hfa) as Ha. pose proof (table_index_lt 1 a ltac:(lia) Ha) as Hd.
  pose proof (fault_table s K a e ws Hfa e4 t1 He4 Hl4 Ht1) as Hft.
  destruct (replace_held s K Hk Hut (table_index 4 a) (table_index 3 a) (table_index 2 a) (table_index 1 a) e4 t1 0) as (Hth & Htr & Htf); try done; [apply Hfa|].
  destruct (fa_held _ _ _ _ _ Hfa) as [Hph Hpr]. destruct (fa_words _ _ _ _ _ Hfa) as [Hws Hlen].
  assert (contains (pte_flags e) PRESENT = true) as Hp by (exact (walk_entry_present _ _ _ _ _ (fa_walk _ _ _ _ _ Hfa))).
  unfold resolve_cow. cbv zeta. rewrite (st_bind_eq _ _ s s s) by done. fold (own_flags (pte_flags e)).
  destruct (Z.eqb_spec (refcount_get s (pte_addr e)) 1) as [H1|H1].
  - destruct (resolve_make (pte_addr e) (pte_flags e)) as (e' & Hm & Ha' & Hf' & Hp'); [done|apply pte_addr_ok|apply pte_flags_ok|done|].
    rewrite (st_bind_eq _ _ _ _ _ (set_addr_ok s t1 (table_index 1 a) _ _ e' Htf Htr Hd Hm)). exists true. eexists. split; [done|]. exists K, e'.
    change (poke s t1 (table_index 1 a) e') with (with_refcounts (poke s t1 (table_index 1 a) e') (PAGE_REFCOUNTS s)).
    apply (resolved_any s K Hk Hut a e ws Hfa e4 t1 He4 Hl4 Ht1); rewrite ?Ha'; try done; [by apply quiet_refl|apply Hfa|]. by rewrite H1.
  - destruct (alloc_and_copy_page_ok k3 s K (pte_addr e) ws) as (r & s1 & Hrun & Hused & Hrc & Hkeep & Hr); try done.
    unfold attempt. unfold mbind at 1, st_bind at 1. rewrite Hrun. destruct r as [new|[]|]; [| |done].
    + destruct Hr as (Hf & Hf1 & Hnr & Hal & Hw1 & K1 & Hq & HK).
      destruct (resolve_make new (pte_flags e)) as (e' & Hm & Ha' & Hf' & Hp'); [done|done|apply pte_flags_ok|done|].
      assert (is_table_frame (ram s1) t1) as Htf1 by (by apply (q_frames _ _ _ _ _ Hq)).
      rewrite (st_bind_eq _ _ _ _ _ (set_addr_ok s1 t1 (table_index 1 a) _ _ e' Htf1 Htr Hd Hm)).
      assert (refcount_get (poke s1 t1 (table_index 1 a) e') (pte_addr e) = refcount_get s (pte_addr e)) as Hg by (unfold refcount_get; cbn; by rewrite Hrc).
      destruct (refcount_dec_ok (E := E) (poke s1 t1 (table_index 1 a) e') (pte_addr e)) as [bb Hdec]; [by rewrite Hg|].
      rewrite (st_bind_eq _ _ _ _ _ Hdec), Hg. exists true. eexists. split; [done|]. exists K1, e'. cbn [PAGE_REFCOUNTS poke with_ram]. rewrite Hrc.
      apply (resolved_any s K Hk Hut a e ws Hfa e4 t1 He4 Hl4 Ht1); rewrite ?Ha'; try done.
      * split; [|done]. by apply (fresh_held k3 s K).
      * intros Hx. apply (held_tables s K) in Hx as [Hx _]; [|done]. by rewrite Hf in Hx.
      * by rewrite (proj2 (Z.eqb_neq _ _) H1).
    + destruct Hr as (Hcr & Hfull & Hroot). exists false, s1. split; [done|]. split; [done|]. split; try done.
      intros i p Hi Hp'. pose proof (Hroot i ltac:(lia)) as He1. cbn [walk]. rewrite He1.
      destruct (entry_of (ram s) (cr3_reg s) i) as [c|] eqn:Hc; [|done]. destruct (present c) eqn:Hpc; [|done]. destruct p as [|j p]; [done|].
      destruct (ut_tree _ _ _ Hut i c Hi Hc Hpc) as [Hl _]. rewrite Hl. apply (walk_ext_owns _ _ 3); [|lia]. intros x Hx.
      apply Hkeep, (held_tables s K); [done|by exists i, c].
Qed.

Lemma handle_cow_fault_ok {E} s K a e ws :
  kernel_ok k3 s K -> user_tables s K (cr3_reg s) -> fault_at s K a e ws ->
  exists ok s', handle_cow_fault (E := E) a s = (Ok ok, s') /\
    if ok : bool then exists K' e', resolved s K a e ws s' K' e' else refcount_get s (pte_addr e) <> 1 /\ unresolved s K s'.
Proof using HL.
  intros Hk Hut Hfa. pose proof (fa_range _ _ _ _ _ Hfa) as Ha. pose proof (fa_user _ _ _ _ _ Hfa) as Hi.
  destruct (fault_path s a e (fa_walk _ _ _ _ _ Hfa)) as (e4 & e3 & e2 & H4 & L4 & H3 & L3 & H2 & L2 & H1 & P1 & Hreach).
  destruct (ko_root _ _ _ Hk) as (Hrf & _ & Hrr). destruct (ut_tree _ _ _ Hut _ e4 Hi H4 (present_links e4 L4)) as [_ Ht].
  assert (forall p x, (length p < 3)%nat -> reach (ram s) (pte_addr e4) p = Some x -> 0 <= x < 2 ^ 47 /\ is_table_frame (ram s) x) as Hin.
  { intros p x Hp Hx. apply (tr_held _ _ _ _ Ht x). by exists p. }
  destruct (Hin [] (pte_addr e4)) as [R3 F3]; [cbn; lia|done|].
  destruct (Hin [table_index 3 a] (pte_addr e3)) as [R2 F2]; [cbn; lia|by rewrite (reach_link _ _ _ e3)|].
  destruct (Hin [table_index 3 a; table_index 2 a] (pte_addr e2)) as [R1 F1]; [cbn; lia|done|].
  assert (forall l, (1 <= l <= 4)%nat -> (table_index l a < 512)%nat) as Hlt by (intros l Hl; by apply table_index_lt).
  unfold handle_cow_fault. rewrite (st_bind_eq _ _ s (cr3_reg s) s) by done.
  rewrite (st_bind_eq _ _ _ _ _ (present_entry_ok s (cr3_reg s) _ e4 Hrf Hrr (Hlt 4%nat ltac:(lia)) H4 (present_links e4 L4))).
  rewrite (st_bind_eq _ _ _ _ _ (present_entry_ok s (pte_addr e4) _ e3 F3 R3 (Hlt 3%nat ltac:(lia)) H3 (present_links e3 L3))).
  rewrite (st_bind_eq _ _ _ _ _ (present_entry_ok s (pte_addr e3) _ e2 F2 R2 (Hlt 2%nat ltac:(lia)) H2 (present_links e2 L2))).
  rewrite (st_bind_eq _ _ _ _ _ (present_entry_ok s (pte_addr e2) _ e F1 R1 (Hlt 1%nat ltac:(lia)) H1 P1)).
  rewrite (fa_cow _ _ _ _ _ Hfa). by apply (resolve_cow_ok s K a e ws e4).
Qed.
End Fault.
