(* ===== verification/CowIsolation.v ===== *)
(** * Isolation of the two sides of a fork

    Two address spaces in one memory; what one of them does to its pages, the other does not
    see. *)
From S2P Require Import Prelude PageAlloc Paging Mapping Cow CowScratch CowClone CowTables CowFork CowSpace CowFault.

Section Pair.
Context `{HP : Paging} {HL : PagingLaws} (k3 : Z).

(** Two address spaces whose user halves have no table in common. *)
Record pair (s : Mem) (K : gset Z) (r o : Z) : Prop := {
  pr_ne : r <> o;
  pr_kernel : kernel_ok k3 (with_cr3 s r) K;
  pr_kernel' : kernel_ok k3 (with_cr3 s o) K;
  pr_space : user_tables (with_cr3 s r) K r;
  pr_space' : user_tables (with_cr3 s o) K o;
  pr_root : ~ user_table (ram s) r o;
  pr_root' : ~ user_table (ram s) o r;
  pr_apart x : user_table (ram s) r x -> user_table (ram s) o x -> False;
}.
Lemma pair_sym s K r o : pair s K r o -> pair s K o r.
Proof using. intros [H1 H2 H3 H4 H5 H6 H7 H8]. split; try done. intros x Hx Hx'. by apply (H8 x). Qed.
Lemma with_cr3_id s c : cr3_reg s = c -> with_cr3 s c = s.
Proof using. destruct s. cbn. by intros ->. Qed.

Lemma pair_clone s K new s' K' :
  kernel_ok k3 s K -> user_tables s K (cr3_reg s) -> space_cloned k3 s K new s' K' -> pair s' K' (cr3_reg s) new.
Proof using.
  intros Hk Hut Hc. pose proof (sc_quiet _ _ _ _ _ _ Hc) as Hq. pose proof (q_cr3 _ _ _ _ _ Hq) as Hcr. pose proof (sc_fresh _ _ _ _ _ _ Hc) as Hf.
  destruct (ko_root _ _ _ Hk) as (_ & Hrf & _). split.
  - intros <-. by rewrite Hrf in Hf.
  - rewrite with_cr3_id by done. apply Hq.
  - apply Hc.
  - rewrite with_cr3_id by done. apply Hc.
  - apply Hc.
  - intros Hx. apply (sc_tables _ _ _ _ _ _ Hc), (held_tables s K) in Hx as [Hx _]; [|done]. by rewrite Hx in Hf.
  - intros Hx%(sc_new _ _ _ _ _ _ Hc). by rewrite Hrf in Hx.
  - intros x Hx Hx'%(sc_new _ _ _ _ _ _ Hc). apply (sc_tables _ _ _ _ _ _ Hc), (held_tables s K) in Hx as [Hx _]; [|done]. by rewrite Hx in Hx'.
Qed.

(** The tables of the other address space are in use and none of the active one's. *)
Lemma pair_held s K r o x : pair s K r o -> x = o \/ user_table (ram s) o x -> held (with_cr3 s r) K x /\ ~ user_table (ram s) r x.
Proof using.
  intros Hp [->|Hx].
  - destruct (ko_root _ _ _ (pr_kernel' _ _ _ _ Hp)) as (_ & Hf & _). split; [|apply Hp]. split_and!; [exact Hf| |by apply not_eq_sym, Hp].
    intros HK. by destruct (ko_used _ _ _ (pr_kernel' _ _ _ _ Hp) o HK).
  - destruct (held_tables (with_cr3 s o) K x) as (Hf & HK & Hne); [apply Hp|done|]. split; [|intros Hx'; by apply (pr_apart _ _ _ _ Hp x)].
    split_and!; [done|done|]. cbn. intros ->. by apply (pr_root' _ _ _ _ Hp).
Qed.

(** The tables of [o] are as they were. *)
Section Kept.
Context (m m' : Ram) (o : Z) (Hsame : forall x, x = o \/ user_table m o x -> m' !! x = m !! x).
Lemma kept_entry j : entry_of m' o j = entry_of m o j.
Proof using Hsame. unfold entry_of. rewrite Hsame; [done|by left]. Qed.
Lemma kept_below i e : (i < 256)%nat -> entry_of m o i = Some e -> links e = true ->
  (forall p, (length p <= 3)%nat -> reach m' (pte_addr e) p = reach m (pte_addr e) p) /\
  (forall p, (length p <= 3)%nat -> walk m' (pte_addr e) p = walk m (pte_addr e) p).
Proof using Hsame.
  intros Hi He Hl. split; intros p Hp; [apply (reach_ext _ _ 3)|apply (walk_ext_owns _ _ 3)]; try done; intros x Hx; apply Hsame; right; by exists i, e.
Qed.
Lemma kept_table x : user_table m' o x <-> user_table m o x.
Proof using Hsame.
  split; intros (i & e & Hi & He & Hl & p & Hp & Hx); exists i, e.
  - rewrite kept_entry in He. split_and!; try done. exists p. split; [done|]. rewrite <-Hx. symmetry. apply (kept_below i e); [done..|lia].
  - rewrite kept_entry. split_and!; try done. exists p. split; [done|]. rewrite <-Hx. apply (kept_below i e); [done..|lia].
Qed.
Lemma kept_walk i p : (i < 256)%nat -> length p = 3%nat -> (forall e, entry_of m o i = Some e -> present e = true -> links e = true) ->
  walk m' o (i :: p) = walk m o (i :: p).
Proof using Hsame.
  intros Hi Hp Hl. cbn [walk]. rewrite kept_entry. destruct (entry_of m o i) as [e|] eqn:He; [|done]. destruct (present e) eqn:Hpe; [|done].
  destruct p as [|j p]; [done|]. rewrite (Hl e) by done. apply (kept_below i e); [done|done|by apply Hl|by rewrite Hp].
Qed.
End Kept.

(** The active address space changes, the other one does not. *)
Lemma pair_step s K r o s' K' :
  pair s K r o -> quiet k3 (with_cr3 s r) K s' K' -> user_tables s' K' r -> (forall x, user_table (ram s') r x <-> user_table (ram s) r x) ->
  (forall x, x = o \/ user_table (ram s) o x -> ram s' !! x = ram s !! x) -> pair s' K' r o.
Proof using.
  intros Hp Hq Hut Htab Hsame. pose proof (q_cr3 _ _ _ _ _ Hq) as Hcr. cbn in Hcr.
  pose proof (fun x Hx => quiet_held _ _ _ _ _ x Hq (proj1 (pair_held s K r o x Hp Hx))) as Hh.
  split.
  - apply Hp.
  - rewrite with_cr3_id by done. apply Hq.
  - destruct (ko_link _ _ _ (pr_kernel' _ _ _ _ Hp)) as (e & He & Hl & Ha). destruct (ko_root _ _ _ (pr_kernel' _ _ _ _ Hp)) as (Hrf & _ & Hrr).
    apply (kernel_ok_switch k3 s' K' o e); try done.
    + apply Hq.
    + by apply (q_frames _ _ _ _ _ Hq).
    + apply Hh. by left.
    + by rewrite (kept_entry (ram s)).
  - rewrite with_cr3_id by done. done.
  - split; cbn [ram with_cr3].
    + intros i e Hi He Hpe. rewrite (kept_entry (ram s) _ o Hsame) in He. destruct (ut_tree _ _ _ (pr_space' _ _ _ _ Hp) i e Hi He Hpe) as [Hl [Hth Hinj]].
      split; [done|]. cbn [ram with_cr3] in Hth, Hinj. destruct (kept_below (ram s) _ o Hsame i e Hi He Hl) as [Hr _]. split; cbn [ram with_cr3].
      * intros x (p & Hlen & Hx). rewrite Hr in Hx by lia. assert (owns (ram s) 3 (pte_addr e) x) as Ho by (by exists p).
        destruct (Hth x Ho) as ((_ & _ & Hne) & Hrx & Hfx). destruct (Hh x) as (H1 & H2 & _); [right; by exists i, e|].
        split; [by split_and!|]. split; [done|]. by apply (q_frames _ _ _ _ _ Hq).
      * intros p q x Hp' Hq' Hx Hx'. rewrite Hr in Hx, Hx' by lia. by apply (Hinj p q x).
    + intros i j e d x Hi Hj He Hle Hd Hld (p & Hlp & Hx) (q & Hlq & Hx'). rewrite (kept_entry (ram s) _ o Hsame) in He, Hd.
      rewrite (proj1 (kept_below (ram s) _ o Hsame i e Hi He Hle)) in Hx by lia. rewrite (proj1 (kept_below (ram s) _ o Hsame j d Hj Hd Hld)) in Hx' by lia.
      apply (ut_apart _ _ _ (pr_space' _ _ _ _ Hp) i j e d x); [done..|by exists p|by exists q].
  - rewrite Htab. apply Hp.
  - rewrite (kept_table (ram s) _ o Hsame). apply Hp.
  - intros x Hx Hx'. rewrite Htab in Hx. rewrite (kept_table (ram s) _ o Hsame) in Hx'. by apply (pr_apart _ _ _ _ Hp x).
Qed.
Lemma pair_walk s K r o m' i p :
  pair s K r o -> (forall x, x = o \/ user_table (ram s) o x -> m' !! x = ram s !! x) -> (i < 256)%nat -> length p = 3%nat ->
  walk m' o (i :: p) = walk (ram s) o (i :: p).
Proof using.
  intros Hp Hsame Hi Hlen. apply (kept_walk (ram s)); try done. intros e He Hpe. by apply (ut_tree _ _ _ (pr_space' _ _ _ _ Hp) i e).
Qed.

(** ** Pages and what is in them *)
Definition write (s : Mem) (p : Z) (ws : list Z) : Mem := with_ram s (<[p := ws]> (ram s)).
Definition reads (m : Ram) (root a : Z) : option (list Z) :=
  match walk m root (indices a) with Some (O, e) => m !! pte_addr e | _ => None end.
Definition writes_to (m : Ram) (root a p : Z) : Prop :=
  exists e, walk m root (indices a) = Some (O, e) /\ contains (pte_flags e) WRITABLE = true /\ pte_addr e = p.

Lemma write_quiet s K p ws : kernel_ok k3 s K -> held s K p -> length ws = 512%nat -> quiet k3 s K (write s p ws) K.
Proof using.
  intros Hk (Hf & HK & Hr) Hl.
  assert (forall y, is_table_frame (ram s) y -> is_table_frame (<[p := ws]> (ram s)) y) as Hfr.
  { intros y (w & Hw & Hlw). destruct (decide (y = p)) as [->|Hne]; [exists ws; by rewrite lookup_insert_eq|exists w; by rewrite lookup_insert_ne]. }
  split; try done; [|by left|].
  - apply kernel_ok_ram; [done|done|]. intros y Hy. apply lookup_insert_ne. intros ->. by destruct Hy.
  - intros j Hj. unfold entry_of. cbn. by rewrite lookup_insert_ne.
Qed.
(** A page of neither address space's tables is written. *)
Lemma pair_write s K r o p ws :
  pair s K r o -> held (with_cr3 s r) K p -> p <> o -> ~ user_table (ram s) r p -> ~ user_table (ram s) o p -> length ws = 512%nat ->
  pair (write s p ws) K r o /\
  (forall a, (table_index 4 a < 256)%nat -> walk (ram (write s p ws)) r (indices a) = walk (ram s) r (indices a)) /\
  (forall a, (table_index 4 a < 256)%nat -> walk (ram (write s p ws)) o (indices a) = walk (ram s) o (indices a)).
Proof using HL.
  intros Hp Hh Hpo Hpr Hpo' Hl.
  assert (forall x, x = o \/ user_table (ram s) o x -> ram (write s p ws) !! x = ram s !! x) as Ho.
  { intros x Hx. cbn. apply lookup_insert_ne. intros ->. destruct Hx as [->|]; done. }
  assert (forall x, x = r \/ user_table (ram s) r x -> ram (write s p ws) !! x = ram s !! x) as Hr.
  { intros x Hx. cbn. apply lookup_insert_ne. intros ->. destruct Hx as [->|]; [|done]. by destruct Hh as (_ & _ & []). }
  assert (quiet k3 (with_cr3 s r) K (with_cr3 (write s p ws) r) K) as Hq by (apply (write_quiet (with_cr3 s r)); [apply Hp|done|done]).
  assert (user_tables (with_cr3 (write s p ws) r) K r) as Hut.
  { apply (same_tables k3 (with_cr3 s r) K (with_cr3 (write s p ws) r) K); [apply Hp|done|]. intros x Hx. apply Hr. by right. }
  split_and!.
  - destruct (pair_step s K r o (with_cr3 (write s p ws) r) K Hp Hq Hut) as [H1 H2 H3 H4 H5 H6 H7 H8]; [|exact Ho|by split].
    intros x. apply (kept_table (ram s)). exact Hr.
  - intros a Ha. apply (pair_walk s K o r); [by apply pair_sym|exact Hr|done|done].
  - intros a Ha. apply (pair_walk s K r o); [done|exact Ho|done|done].
Qed.

(** The address [a] of [o] is mapped copy-on-write to a page that holds [ws] and is no table. *)
Record cow_page (s : Mem) (K : gset Z) (r o a e : Z) (ws : list Z) : Prop := {
  cp_range : 0 <= a < 2 ^ 64;
  cp_user : (table_index 4 a < 256)%nat;
  cp_walk : walk (ram s) o (indices a) = Some (O, e);
  cp_cow : contains (pte_flags e) COW_FLAG = true;
  cp_frame : 0 <= pte_addr e < 2 ^ 47;
  cp_used : free s (pte_addr e) = false /\ pte_addr e ∉ K /\ pte_addr e <> r /\ pte_addr e <> o;
  cp_words : ram s !! pte_addr e = Some ws /\ length ws = 512%nat;
  cp_page : ~ user_table (ram s) r (pte_addr e) /\ ~ user_table (ram s) o (pte_addr e);
}.
Lemma cow_page_fault s K r o a e ws : cow_page s K r o a e ws -> fault_at (with_cr3 s o) K a e ws.
Proof using. intros [H1 H2 H3 H4 H5 (H6 & H7 & _ & H8) H9 [_ H10]]. by split. Qed.

(** What the rest of the proof needs of a fault in [r]. *)
Lemma pair_fault {E} s K r o a e ws :
  pair s K r o -> cow_page s K o r a e ws ->
  exists ok s2, handle_cow_fault (E := E) a (with_cr3 s r) = (Ok ok, s2) /\
    if ok : bool then exists K2 e', resolved k3 (with_cr3 s r) K a e ws s2 K2 e' /\ pair s2 K2 r o /\
      (forall b, (table_index 4 b < 256)%nat -> walk (ram s2) o (indices b) = walk (ram s) o (indices b))
    else refcount_get s (pte_addr e) <> 1 /\ forall x, free s2 x = false.
Proof using HL.
  intros Hp Hcp. destruct (handle_cow_fault_ok (E := E) k3 (with_cr3 s r) K a e ws) as (ok & s2 & Hrun & Hr);
    [apply Hp|apply Hp|by apply (cow_page_fault s K o r)|]. exists ok, s2. split; [done|]. destruct ok; [|destruct Hr as [Hn Hr]; split; [done|apply Hr]].
  destruct Hr as (K2 & e' & Hr). exists K2, e'. split; [done|].
  assert (forall x, x = o \/ user_table (ram s) o x -> ram s2 !! x = ram s !! x) as Hsame.
  { intros x Hx. destruct (pair_held s K r o x Hp Hx) as [Hh Hn]. by apply (rs_keep _ _ _ _ _ _ _ _ _ Hr). }
  split; [apply (pair_step s K r o s2 K2 Hp); [apply Hr|apply Hr|apply Hr|done]|]. intros b Hb. by apply (pair_walk s K r o).
Qed.

(** After a fault in [r] that copied the page, [o] still has the page it had. *)
Lemma fault_leaves s K r o a e ws s2 K2 e' :
  pair s K r o -> cow_page s K o r a e ws -> cow_page s K r o a e ws -> resolved k3 (with_cr3 s r) K a e ws s2 K2 e' -> pair s2 K2 r o ->
  (forall b, (table_index 4 b < 256)%nat -> walk (ram s2) o (indices b) = walk (ram s) o (indices b)) ->
  cow_page s2 K2 r o a e ws.
Proof using.
  intros Hp [_ _ _ _ _ (Hf & HK & Hpo & Hpr) (Hws & Hl) (Hno & Hnr)] [H1 H2 H3 H4 H5 _ _ _] Hr Hp2 Hw.
  assert (held (with_cr3 s r) K (pte_addr e)) as Hh by (by split_and!).
  destruct (quiet_held _ _ _ _ _ _ (rs_quiet _ _ _ _ _ _ _ _ _ Hr) Hh) as (Hf2 & HK2 & _). split; try done.
  - by rewrite Hw.
  - split; [|done]. by rewrite (rs_keep _ _ _ _ _ _ _ _ _ Hr).
  - split; [by rewrite (rs_tables _ _ _ _ _ _ _ _ _ Hr)|].
    rewrite (kept_table (ram s) (ram s2) o); [done|]. intros x Hx. destruct (pair_held s K r o x Hp Hx) as [Hhx Hn]. by apply (rs_keep _ _ _ _ _ _ _ _ _ Hr).
Qed.

Lemma own_writable f : contains (own_flags f) WRITABLE = true.
Proof using.
  change WRITABLE with (2 ^ 1). rewrite contains_bit by done. unfold own_flags. change WRITABLE with (2 ^ 1). change COW_FLAG with (2 ^ 9).
  rewrite flags_bit by done. apply orb_true_r.
Qed.
Lemma resolved_writes s K a e ws s' K' e' : resolved k3 s K a e ws s' K' e' -> writes_to (ram s') (cr3_reg s) a (pte_addr e') /\ reads (ram s') (cr3_reg s) a = Some ws.
Proof using.
  intros Hr. split; [exists e'; split; [apply Hr|split; [|done]]; rewrite (rs_flags _ _ _ _ _ _ _ _ _ Hr); apply own_writable|].
  unfold reads. rewrite (rs_walk _ _ _ _ _ _ _ _ _ Hr). apply Hr.
Qed.
(** A frame that was free is no table of either address space. *)
Lemma fresh_no_table s K r o p : pair s K r o -> free s p = true -> p <> o /\ ~ user_table (ram s) r p /\ ~ user_table (ram s) o p.
Proof using.
  intros Hp Hf. split_and!.
  - intros ->. destruct (ko_root _ _ _ (pr_kernel' _ _ _ _ Hp)) as (_ & Hf' & _). change (free s o = false) in Hf'. congruence.
  - intros Hx. destruct (held_tables (with_cr3 s r) K p (pr_space _ _ _ _ Hp) Hx) as [Hf' _]. change (free s p = false) in Hf'. congruence.
  - intros Hx. destruct (held_tables (with_cr3 s o) K p (pr_space' _ _ _ _ Hp) Hx) as [Hf' _]. change (free s p = false) in Hf'. congruence.
Qed.

(** The first to write gets a copy of its own and writes [ws1] to it. *)
Lemma first_fault {E} s K r o a e ws ws1 :
  pair s K r o -> cow_page s K o r a e ws -> cow_page s K r o a e ws -> refcount_get s (pte_addr e) = 2 -> length ws1 = 512%nat ->
  exists ok s2, handle_cow_fault (E := E) a (with_cr3 s r) = (Ok ok, s2) /\
    if ok : bool then exists p K2 e', writes_to (ram s2) r a p /\ reads (ram s2) r a = Some ws /\
      let s3 := write s2 p ws1 in
      pair s3 K2 r o /\ cow_page s3 K2 r o a e ws /\ refcount_get s3 (pte_addr e) = 1 /\
      walk (ram s3) r (indices a) = Some (O, e') /\ pte_addr e' = p /\ ram s3 !! p = Some ws1 /\ p <> pte_addr e /\
      held (with_cr3 s3 o) K2 p /\ ~ user_table (ram s3) o p
    else forall x, free s2 x = false.
Proof using HL.
  intros Hp Hcr Hco Hrc Hl1. destruct (pair_fault (E := E) s K r o a e ws Hp Hcr) as (ok & s2 & Hrun & Hr). exists ok, s2. split; [done|].
  destruct ok; [|apply Hr]. destruct Hr as (K2 & e' & Hr & Hp2 & Hw). destruct (resolved_writes _ _ _ _ _ _ _ _ Hr) as [Hwr Hrd].
  pose proof (rs_how _ _ _ _ _ _ _ _ _ Hr) as Hhow. change (refcount_get (with_cr3 s r) (pte_addr e)) with (refcount_get s (pte_addr e)) in Hhow. rewrite Hrc in Hhow.
  destruct Hhow as [Hfree Hcnt]. change (free s (pte_addr e') = true) in Hfree.
  destruct (fresh_no_table s K r o _ Hp Hfree) as (Hne & Hnr & Hno). pose proof (fault_leaves s K r o a e ws s2 K2 e' Hp Hcr Hco Hr Hp2 Hw) as Hcp2.
  assert (forall x, user_table (ram s2) o x <-> user_table (ram s) o x) as Hto.
  { intros x. apply (kept_table (ram s)). intros y Hy. destruct (pair_held s K r o y Hp Hy) as [Hhy Hny]. by apply (rs_keep _ _ _ _ _ _ _ _ _ Hr). }
  pose proof (rs_tables _ _ _ _ _ _ _ _ _ Hr) as Htr. cbn [cr3_reg with_cr3 ram] in Htr.
  destruct (rs_held _ _ _ _ _ _ _ _ _ Hr) as [Hh _]. assert (cr3_reg s2 = r) as Hc2 by apply (q_cr3 _ _ _ _ _ (rs_quiet _ _ _ _ _ _ _ _ _ Hr)).
  assert (pte_addr e' <> pte_addr e) as Hpe by (intros Heq; destruct (cp_used _ _ _ _ _ _ _ Hco) as [Hu _]; congruence).
  destruct (pair_write s2 K2 r o (pte_addr e') ws1 Hp2) as (Hp3 & Hwr3 & Hwo3); [by rewrite with_cr3_id|done|by rewrite Htr|by rewrite Hto|done|].
  exists (pte_addr e'), K2, e'. split; [exact Hwr|]. split; [exact Hrd|]. cbv zeta. pose proof (cp_user _ _ _ _ _ _ _ Hco) as Hu.
  assert (forall x, user_table (ram (write s2 (pte_addr e') ws1)) o x <-> user_table (ram s2) o x) as Hto3.
  { intros x. apply (kept_table (ram s2)). intros y Hy. cbn. apply lookup_insert_ne. intros <-. destruct Hy as [Hy|Hy]; [done|]. by apply Hno, Hto. }
  assert (forall x, user_table (ram (write s2 (pte_addr e') ws1)) r x <-> user_table (ram s2) r x) as Htr3.
  { intros x. apply (kept_table (ram s2)). intros y Hy. cbn. apply lookup_insert_ne. intros <-. destruct Hy as [Hy|Hy]; [|by apply Hnr, Htr].
    destruct Hh as (_ & _ & Hh). congruence. }
  split_and!; try done.
  - destruct Hcp2 as [H1 H2 H3 H4 H5 H6 [H7 H7'] H8]. split; try done; [by rewrite Hwo3| |by rewrite Hto3, Htr3].
    split; [|done]. cbn. by rewrite lookup_insert_ne.
  - unfold refcount_get. cbn. rewrite Hcnt. cbn. rewrite lookup_insert_eq. done.
  - rewrite Hwr3 by done. apply Hr.
  - cbn. by rewrite lookup_insert_eq.
  - destruct Hh as (Hf2 & HK2 & _). by split_and!.
  - by rewrite Hto3, Hto.
Qed.
(** The other one is then alone with the page and writes [ws2] to it in place. *)
Lemma second_fault {E} s K r o a e ws ws2 e' p ws1 :
  pair s K r o -> cow_page s K r o a e ws -> refcount_get s (pte_addr e) = 1 -> length ws2 = 512%nat ->
  walk (ram s) r (indices a) = Some (O, e') -> pte_addr e' = p -> ram s !! p = Some ws1 -> p <> pte_addr e ->
  held (with_cr3 s o) K p -> ~ user_table (ram s) o p ->
  exists s4, handle_cow_fault (E := E) a (with_cr3 s o) = (Ok true, s4) /\ writes_to (ram s4) o a (pte_addr e) /\ reads (ram s4) o a = Some ws /\
    reads (ram (write s4 (pte_addr e) ws2)) r a = Some ws1 /\ reads (ram (write s4 (pte_addr e) ws2)) o a = Some ws2.
Proof using HL.
  intros Hp Hcp Hrc Hl2 Hwr Hep Hws1 Hpe Hh Hn. pose proof (cp_user _ _ _ _ _ _ _ Hcp) as Hu.
  destruct (pair_fault (E := E) s K o r a e ws (pair_sym _ _ _ _ Hp) Hcp) as (ok & s4 & Hrun & Hr). destruct ok; [|by destruct Hr].
  destruct Hr as (K4 & e2 & Hr & Hp4 & Hw). destruct (resolved_writes _ _ _ _ _ _ _ _ Hr) as [Hwr4 Hrd4].
  pose proof (rs_how _ _ _ _ _ _ _ _ _ Hr) as Hhow. change (refcount_get (with_cr3 s o) (pte_addr e)) with (refcount_get s (pte_addr e)) in Hhow. rewrite Hrc in Hhow.
  destruct Hhow as [Hpage _]. rewrite Hpage in Hwr4. pose proof (rs_walk _ _ _ _ _ _ _ _ _ Hr) as Hwo4. pose proof (rs_tables _ _ _ _ _ _ _ _ _ Hr) as Hto.
  cbn [cr3_reg with_cr3 ram] in Hwo4, Hto, Hwr4, Hrd4.
  exists s4. do 3 (split; [done|]).
  destruct (cp_used _ _ _ _ _ _ _ Hcp) as (_ & _ & Hpr & Hpo). destruct (cp_page _ _ _ _ _ _ _ Hcp) as [Hnr Hno].
  assert (cr3_reg s4 = o) as Hc4 by apply (q_cr3 _ _ _ _ _ (rs_quiet _ _ _ _ _ _ _ _ _ Hr)).
  destruct (pair_write s4 K4 o r (pte_addr e) ws2 Hp4) as (_ & Hwo5 & Hwr5); [|done| | |done|].
  - rewrite with_cr3_id, <-Hpage by done. apply Hr.
  - by rewrite Hto.
  - rewrite (kept_table (ram s)); [done|]. intros y Hy. destruct (pair_held s K o r y (pair_sym _ _ _ _ Hp) Hy) as [Hhy Hny]. by apply (rs_keep _ _ _ _ _ _ _ _ _ Hr).
  - unfold reads. rewrite Hwr5, Hwo5, Hw, Hwr, Hwo4, Hep, Hpage by done. cbn. rewrite lookup_insert_eq, lookup_insert_ne by done. split; [|done].
    by rewrite (rs_keep _ _ _ _ _ _ _ _ _ Hr).
Qed.

(** ** The two sides of a fork *)

(** The user address [a] of the active address space is mapped writable to a page that holds
    [ws], is not shared and is no table. *)
Record own_page (s : Mem) (K : gset Z) (a e : Z) (ws : list Z) : Prop := {
  op_range : 0 <= a < 2 ^ 64;
  op_user : (table_index 4 a < 256)%nat;
  op_walk : walk (ram s) (cr3_reg s) (indices a) = Some (O, e);
  op_writable : shares e = true;
  op_held : held s K (pte_addr e) /\ 0 <= pte_addr e < 2 ^ 47;
  op_words : ram s !! pte_addr e = Some ws /\ length ws = 512%nat;
  op_page : ~ user_table (ram s) (cr3_reg s) (pte_addr e);
  op_alone : refcount_get s (pte_addr e) = 1;
}.
Lemma own_page_forked s K a e ws new s' K' :
  own_page s K a e ws -> space_cloned k3 s K new s' K' ->
  cow_page s' K' (cr3_reg s) new a (cow_e e) ws /\ cow_page s' K' new (cr3_reg s) a (cow_e e) ws /\
  refcount_get s' (pte_addr e) = 2 /\ pte_addr (cow_e e) = pte_addr e.
Proof using HL.
  intros [H1 H2 H3 H4 [Hh Hr] [Hws Hl] Hn Hrc] Hc. pose proof (walk_entry_present _ _ _ _ _ H3) as Hp. destruct (cow_e_ok e Hp H4) as (_ & Ha & Hf & _).
  destruct (cow_flags_ok _ (pte_flags_ok e)) as (_ & _ & Hb & _).
  assert (contains (pte_flags (cow_e e)) COW_FLAG = true) as Hcow by (rewrite Hf; change COW_FLAG with (2 ^ 9); by rewrite contains_bit).
  destruct (sc_user _ _ _ _ _ _ Hc (table_index 4 a) [table_index 3 a; table_index 2 a; table_index 1 a] H2 eq_refl) as [Hwo Hwn].
  change (_ :: [_; _; _]) with (indices a) in Hwo, Hwn. rewrite H3 in Hwo, Hwn. change (cowed <$> Some (O, e)) with (Some (O, cow_e e)) in Hwo, Hwn.
  destruct (quiet_held _ _ _ _ _ _ (sc_quiet _ _ _ _ _ _ Hc) Hh) as (Hf' & HK' & Hr'). rewrite (q_cr3 _ _ _ _ _ (sc_quiet _ _ _ _ _ _ Hc)) in Hr'.
  pose proof (sc_fresh _ _ _ _ _ _ Hc) as Hnf.
  assert (pte_addr e <> new) as Hne by (intros <-; destruct Hh as [Hh _]; congruence).
  assert (~ user_table (ram s') new (pte_addr e)) as Hnn by (intros Hx%(sc_new _ _ _ _ _ _ Hc); destruct Hh as [Hh _]; congruence).
  assert (~ user_table (ram s') (cr3_reg s) (pte_addr e)) as Hno by (by rewrite (sc_tables _ _ _ _ _ _ Hc)).
  assert (ram s' !! pte_addr e = Some ws) as Hws' by (by rewrite (sc_keep _ _ _ _ _ _ Hc)).
  split_and!; [by split; rewrite ?Ha..| |done].
  unfold refcount_get in *. rewrite (sc_count _ _ _ _ _ _ Hc (table_index 4 a) [table_index 3 a; table_index 2 a; table_index 1 a] e H2 eq_refl H3 H4).
  destruct (PAGE_REFCOUNTS s !! pte_addr e) as [n|]; cbn in *; [|done]. by rewrite Hrc.
Qed.

(** C7: after a fork neither side sees what the other writes to a page of the parent that was
    writable, mapped once and not shared by an earlier fork ([own_page]: the reference count is
    one).  [clone_address_space] maps the page in both address spaces; whichever
    side faults on it first ([child_first]) gets a writable page with the same words, and what
    it writes there the other side does not read; the other side's fault then always succeeds,
    and what it writes the first does not read.  The first fault fails only when no page is
    free.  A page that an earlier fork still shares is another matter
    ([CowSample.second_fork_write_visible]). *)
Theorem fork_isolates {E F} s K new s1 a e ws ws1 ws2 (child_first : bool) :
  kernel_ok k3 s K -> user_tables s K (cr3_reg s) -> single_use s (cr3_reg s) -> own_page s K a e ws ->
  clone_address_space s = (Ok new, s1) -> length ws1 = 512%nat -> length ws2 = 512%nat ->
  let me := if child_first then new else cr3_reg s in
  let other := if child_first then cr3_reg s else new in
  reads (ram s1) me a = Some ws /\ reads (ram s1) other a = Some ws /\
  exists ok s2, handle_cow_fault (E := E) a (with_cr3 s1 me) = (Ok ok, s2) /\
    if ok : bool then exists p, writes_to (ram s2) me a p /\ reads (ram s2) me a = Some ws /\
      let s3 := write s2 p ws1 in
      reads (ram s3) me a = Some ws1 /\ reads (ram s3) other a = Some ws /\
      exists s4 q, handle_cow_fault (E := F) a (with_cr3 s3 other) = (Ok true, s4) /\
        writes_to (ram s4) other a q /\ reads (ram s4) other a = Some ws /\
        let s5 := write s4 q ws2 in
        reads (ram s5) me a = Some ws1 /\ reads (ram s5) other a = Some ws2
    else forall x, free s2 x = false.
Proof using HL.
  intros Hk Hut Hu Hop Hrun Hl1 Hl2 me other. destruct (clone_address_space_ok k3 s K Hk Hut Hu) as (r & s' & Hrun' & Hr).
  rewrite Hrun in Hrun'. injection Hrun' as <- <-. destruct Hr as (K1 & Hc). pose proof (pair_clone s K new s1 K1 Hk Hut Hc) as Hpair.
  destruct (own_page_forked s K a e ws new s1 K1 Hop Hc) as (Hcn & Hco & Hrc & Ha).
  assert (pair s1 K1 me other /\ cow_page s1 K1 other me a (cow_e e) ws /\ cow_page s1 K1 me other a (cow_e e) ws) as (Hp & Hm & Ho).
  { unfold me, other. destruct child_first; [split; [by apply pair_sym|done]|done]. }
  assert (forall o r, cow_page s1 K1 r o a (cow_e e) ws -> reads (ram s1) o a = Some ws) as Hreads.
  { intros o r Hcp. unfold reads. rewrite (cp_walk _ _ _ _ _ _ _ Hcp). apply Hcp. }
  split; [by apply (Hreads me other)|]. split; [by apply (Hreads other me)|].
  destruct (first_fault (E := E) s1 K1 me other a (cow_e e) ws ws1) as (ok & s2 & Hrun2 & Hr); try done; [by rewrite Ha|]. exists ok, s2. split; [done|].
  destruct ok; [|done]. destruct Hr as (p & K2 & e' & Hwr & Hrd & Hp3 & Hcp3 & Hrc3 & Hw3 & Hep & Hpw & Hpe & Hph & Hpt). exists p. split; [done|]. split; [done|]. cbv zeta.
  split; [unfold reads; by rewrite Hw3, Hep|]. split; [unfold reads; rewrite (cp_walk _ _ _ _ _ _ _ Hcp3); apply Hcp3|].
  destruct (second_fault (E := F) _ K2 me other a (cow_e e) ws ws2 e' p ws1 Hp3 Hcp3 Hrc3 Hl2 Hw3 Hep Hpw Hpe Hph Hpt) as (s4 & Hrun4 & H4).
  exists s4, (pte_addr (cow_e e)). done.
Qed.
End Pair.
