(* ===== verification/CowTeardown.v ===== *)
(** * Releasing an address space

    [teardown_address_space] gives back the tables of the user half, the level 4 table, the
    pages that are not copy-on-write, and the copy-on-write pages of which it held the last
    reference. *)
From S2P Require Import Prelude PageAlloc Paging Mapping Cow CowScratch CowClone CowTables CowFork CowSpace CowFault CowIsolation.

Section Teardown.
Context `{HP : Paging} {HL : PagingLaws}.

Definition is_cow (e : Z) : bool := contains (pte_flags e) COW_FLAG.
Definition drop_ref (c : option Z) : option Z :=
  match c with Some n => if n =? 1 then None else Some (wrap 32 (n - 1)) | None => None end.
(** The page of the entry is given back. *)
Definition gone (s : Mem) (e : Z) : Prop := if is_cow e then PAGE_REFCOUNTS s !! pte_addr e = Some 1 else True.

(** The tables [T] and the pages of the entries [L], by their paths, have been released. *)
Record torn (T : Z -> Prop) (L : list nat -> Z -> Prop) (s s' : Mem) : Prop := {
  tn_mem : mem_ok s';
  tn_ram : ram s' = ram s;
  tn_cr3 : cr3_reg s' = cr3_reg s;
  tn_man x : manages s' x = manages s x;
  tn_free x : free s' x = true <-> free s x = true \/ T x \/ exists p e, L p e /\ pte_addr e = x /\ gone s e;
  tn_count p e : L p e -> is_cow e = true -> PAGE_REFCOUNTS s' !! pte_addr e = drop_ref (PAGE_REFCOUNTS s !! pte_addr e);
  tn_other x : (forall p e, L p e -> is_cow e = true -> pte_addr e <> x) -> PAGE_REFCOUNTS s' !! x = PAGE_REFCOUNTS s !! x;
}.
(** No page is shared copy-on-write under two of the paths. *)
Definition distinct (L : list nat -> Z -> Prop) : Prop :=
  forall p q e d, L p e -> L q d -> is_cow e = true -> is_cow d = true -> pte_addr e = pte_addr d -> p = q.
Definition frame_ok (s : Mem) (x : Z) : Prop :=
  manages s x = true /\ is_table_frame (ram s) x /\ 0 <= x < 2 ^ 47 /\ x mod PAGE_4K = 0.

Lemma torn_refl s : mem_ok s -> torn (fun _ => False) (fun _ _ => False) s s.
Proof using. intros Hm. split; try done. intros x. split; [by left|]. by intros [?|[[]|(? & ? & [] & _)]]. Qed.
Lemma torn_iff T L T' L' s s' :
  (forall x, T x <-> T' x) -> (forall p e, L p e <-> L' p e) -> torn T L s s' -> torn T' L' s s'.
Proof using.
  intros HT HLL [H1 H2 H3 H4 H5 H6 H7]. split; try done.
  - intros x. rewrite H5, HT. by setoid_rewrite HLL.
  - intros p e Hp. apply (H6 p). by apply HLL.
  - intros x Hx. apply H7. intros p e Hp. apply (Hx p). by apply HLL.
Qed.
Lemma torn_cons i T L s s' : torn T L s s' -> torn T (fun p e => exists r, p = i :: r /\ L r e) s s'.
Proof using.
  intros [H1 H2 H3 H4 H5 H6 H7]. split; try done.
  - intros x. rewrite H5. split; (intros [?|[?|Hx]]; [by left|right; by left|right; right]).
    + destruct Hx as (p & e & Hp & Hx). exists (i :: p), e. split; [by exists p|done].
    + destruct Hx as (p & e & (r & -> & Hr) & Hx). by exists r, e.
  - intros p e (r & -> & Hr). by apply (H6 r).
  - intros x Hx. apply H7. intros p e Hp. apply (Hx (i :: p)). by exists p.
Qed.
Lemma frame_ok_torn T L s s' x : torn T L s s' -> frame_ok s x -> frame_ok s' x.
Proof using. intros Ht (H1 & H2 & H3 & H4). unfold frame_ok. by rewrite (tn_man _ _ _ _ Ht), (tn_ram _ _ _ _ Ht). Qed.

Lemma torn_trans T1 L1 T2 L2 s s1 s2 :
  (forall p q e d, L1 p e -> L2 q d -> is_cow e = true -> is_cow d = true -> pte_addr e <> pte_addr d) ->
  torn T1 L1 s s1 -> torn T2 L2 s1 s2 -> torn (fun x => T1 x \/ T2 x) (fun p e => L1 p e \/ L2 p e) s s2.
Proof using.
  intros Hdis A B.
  assert (forall q d, L2 q d -> is_cow d = true -> PAGE_REFCOUNTS s1 !! pte_addr d = PAGE_REFCOUNTS s !! pte_addr d) as Hsame.
  { intros q d Hq Hc. apply (tn_other _ _ _ _ A). intros p e Hp He. by apply (Hdis p q). }
  assert (forall q d, L2 q d -> gone s1 d <-> gone s d) as Hgone.
  { intros q d Hq. unfold gone. destruct (is_cow d) eqn:Hc; [|done]. by rewrite (Hsame q d). }
  split.
  - apply B.
  - by rewrite (tn_ram _ _ _ _ B), (tn_ram _ _ _ _ A).
  - by rewrite (tn_cr3 _ _ _ _ B), (tn_cr3 _ _ _ _ A).
  - intros x. by rewrite (tn_man _ _ _ _ B), (tn_man _ _ _ _ A).
  - intros x. rewrite (tn_free _ _ _ _ B), (tn_free _ _ _ _ A). split.
    + intros [[?|[?|(p & e & Hp & Hx & Hg)]]|[?|(p & e & Hp & Hx & Hg)]]; [by left|right; left; by left| |right; left; by right|].
      * right; right. exists p, e. split; [by left|done].
      * right; right. exists p, e. split; [by right|]. split; [done|]. by apply (Hgone p).
    + intros [?|[[?|?]|(p & e & [Hp|Hp] & Hx & Hg)]]; [left; by left|left; right; by left|right; by left| |].
      * left. right. right. by exists p, e.
      * right. right. exists p, e. split; [done|]. split; [done|]. by apply (Hgone p).
  - intros p e [Hp|Hp] Hc.
    + rewrite (tn_other _ _ _ _ B); [by apply (tn_count _ _ _ _ A p)|]. intros q d Hq Hd Heq. by apply (Hdis p q e d).
    + rewrite (tn_count _ _ _ _ B p e), (Hsame p e); done.
  - intros x Hx. rewrite (tn_other _ _ _ _ B), (tn_other _ _ _ _ A); [done|..]; intros p e Hp; apply (Hx p); [by left|by right].
Qed.

(** ** Single frames *)
Lemma free_phys_ok {E} s x : mem_ok s -> frame_ok s x -> exists s', free_phys (E := E) x s = (Ok tt, s') /\ torn (eq x) (fun _ _ => False) s s' /\
  PAGE_REFCOUNTS s' = PAGE_REFCOUNTS s.
Proof using HL.
  intros Hm (H1 & H2 & H3 & H4). destruct (dealloc_page_ok s x Hm H1 H4 H2) as (s' & Hrun & Hm' & (Hcr & Hrc & _) & Hram & Hf & Hman); [lia|].
  exists s'. split; [unfold free_phys, attempt, mbind, st_bind; by rewrite Hrun|]. split; [|done]. split; try done.
  - intros y. rewrite Hf, orb_true_iff, bool_decide_eq_true. split; [intros [?|?]; [by left|right; left; congruence]|].
    intros [?|[?|(? & ? & [] & _)]]; [by left|right; congruence].
  - intros y _. by rewrite Hrc.
Qed.
Lemma free_leaf_ok {E} s p e : mem_ok s -> frame_ok s (pte_addr e) ->
  exists s', (if is_cow e then last ← refcount_dec (pte_addr e); if (last : bool) then free_phys (pte_addr e) else mret tt else free_phys (pte_addr e)) s = (Ok (E := E) tt, s') /\
    torn (fun _ => False) (fun q d => q = p /\ d = e) s s'.
Proof using HL.
  intros Hm Hf. destruct (is_cow e) eqn:Hc.
  - set (c' := match PAGE_REFCOUNTS s !! pte_addr e with Some n => if n =? 1 then delete (pte_addr e) (PAGE_REFCOUNTS s) else <[pte_addr e := wrap 32 (n - 1)]> (PAGE_REFCOUNTS s)
                | None => PAGE_REFCOUNTS s end).
    assert (forall x, c' !! x = if decide (x = pte_addr e) then drop_ref (PAGE_REFCOUNTS s !! x) else PAGE_REFCOUNTS s !! x) as Hc'.
    { intros x. unfold c', drop_ref. destruct (decide (x = pte_addr e)) as [->|Hne].
      - destruct (PAGE_REFCOUNTS s !! pte_addr e) as [n|] eqn:Hn; [|done]. destruct (n =? 1); [by rewrite lookup_delete_eq|by rewrite lookup_insert_eq].
      - destruct (PAGE_REFCOUNTS s !! pte_addr e) as [n|]; [|done]. destruct (n =? 1); [by rewrite lookup_delete_ne|by rewrite lookup_insert_ne]. }
    assert (refcount_dec (E := E) (pte_addr e) s = (Ok (bool_decide (PAGE_REFCOUNTS s !! pte_addr e = Some 1)), with_refcounts s c')) as Hrun.
    { unfold refcount_dec, c', mbind, st_bind, st_get, st_put, mret, st_ret. destruct (PAGE_REFCOUNTS s !! pte_addr e) as [n|] eqn:Hn; [|by destruct s].
      destruct (Z.eqb_spec n 1) as [->|Hne]; [by rewrite bool_decide_eq_true_2|by rewrite bool_decide_eq_false_2 by congruence]. }
    rewrite (st_bind_eq _ _ _ _ _ Hrun).
    assert (forall s', mem_ok s' -> ram s' = ram s -> cr3_reg s' = cr3_reg s -> (forall x, manages s' x = manages s x) -> PAGE_REFCOUNTS s' = c' ->
      (forall x, free s' x = true <-> free s x = true \/ x = pte_addr e /\ PAGE_REFCOUNTS s !! pte_addr e = Some 1) ->
      torn (fun _ => False) (fun q d => q = p /\ d = e) s s') as Hmk.
    { intros s' G1 G2 G3 G4 G5 G6. split; try done.
      - intros x. rewrite G6. unfold gone. split; [intros [?|[-> ?]]; [by left|right; right; exists p, e; by rewrite Hc]|].
        intros [?|[[]|(q & d & [-> ->] & <- & Hg)]]; [by left|right]. by rewrite Hc in Hg.
      - intros q d [-> ->] _. by rewrite G5, Hc', decide_True.
      - intros x Hx. rewrite G5, Hc', decide_False; [done|]. intros ->. by apply (Hx p e). }
    destruct (bool_decide_reflect (PAGE_REFCOUNTS s !! pte_addr e = Some 1)) as [H1|H1].
    + destruct (free_phys_ok (E := E) (with_refcounts s c') (pte_addr e) Hm Hf) as (s' & Hrun' & [T1 T2 T3 T4 T5 _ _] & Hrc). exists s'. split; [done|]. apply Hmk; try done.
      intros x. rewrite T5. split; [intros [?|[?|(? & ? & [] & _)]]; [by left|by right]|intros [?|[? _]]; [by left|right; by left]].
    + exists (with_refcounts s c'). split; [done|]. apply Hmk; try done. intros x. split; [by left|]. by intros [?|[_ ?]].
  - destruct (free_phys_ok (E := E) s (pte_addr e) Hm Hf) as (s' & Hrun' & [T1 T2 T3 T4 T5 _ _] & Hrc). exists s'. split; [done|]. split; try done.
    + intros x. rewrite T5. unfold gone. split; [intros [?|[?|(? & ? & [] & _)]]; [by left|right; right; exists p, e; by rewrite Hc]|].
      intros [?|[[]|(q & d & [-> ->] & <- & Hg)]]; [by left|right; by left].
    + intros q d [-> ->]. by rewrite Hc.
    + intros x _. by rewrite Hrc.
Qed.

(** ** Tables *)
Definition leaves (m : Ram) (l : nat) (t : Z) (p : list nat) (e : Z) : Prop :=
  length p = l /\ walk m t p = Some (O, e) /\ links e = true.
Definition sub_tables (m : Ram) (l : nat) (t : Z) (idx : list nat) (x : Z) : Prop :=
  exists i e, i ∈ idx /\ entry_of m t i = Some e /\ links e = true /\ owns m l (pte_addr e) x.
Definition sub_leaves (m : Ram) (l : nat) (t : Z) (idx : list nat) (p : list nat) (e : Z) : Prop :=
  exists i r, p = i :: r /\ i ∈ idx /\ leaves m (S l) t p e.
(** Everything below the table is a frame of the allocator. *)
Record releasable (l : nat) (t : Z) (s : Mem) : Prop := {
  re_tables x : owns (ram s) l t x -> frame_ok s x;
  re_pages p e : leaves (ram s) l t p e -> frame_ok s (pte_addr e);
  re_once : distinct (leaves (ram s) l t);
}.
Definition tears (l : nat) (f : Z -> st Mem unit unit) : Prop :=
  forall t s, mem_ok s -> releasable l t s -> exists s', f t s = (Ok tt, s') /\ torn (owns (ram s) l t) (leaves (ram s) l t) s s'.

Lemma releasable_torn T L l t s s' : torn T L s s' -> releasable l t s -> releasable l t s'.
Proof using.
  intros Ht [H1 H2 H3]. split; rewrite ?(tn_ram _ _ _ _ Ht); [intros x Hx|intros p e Hp|done]; (eapply frame_ok_torn; [done|]); [by apply H1|by apply (H2 p)].
Qed.
Lemma leaves_below m l t i e r d : entry_of m t i = Some e -> links e = true -> (0 < l)%nat -> leaves m (S l) t (i :: r) d <-> leaves m l (pte_addr e) r d.
Proof using.
  intros He Hl H0. unfold leaves. split; intros (Hr & Hw & Hd).
  - injection Hr as Hr. assert (r <> []) as Hn by (intros ->; cbn in Hr; lia). by rewrite (walk_link _ _ _ _ e) in Hw.
  - assert (r <> []) as Hn by (intros ->; cbn in Hr; lia). rewrite (walk_link _ _ _ _ e) by done. split_and!; [cbn; lia|done|done].
Qed.
Lemma releasable_below l t i e s : entry_of (ram s) t i = Some e -> links e = true -> (0 < l)%nat -> releasable (S l) t s -> releasable l (pte_addr e) s.
Proof using.
  intros He Hl H0 [H1 H2 H3]. split.
  - intros x Hx. apply H1. by eapply owns_child.
  - intros p d Hp. apply (H2 (i :: p)). by apply (leaves_below _ _ _ _ e).
  - intros p q d d' Hp Hq Hd Hd' Heq. assert (i :: p = i :: q) as [= ->]; [|done]. apply (H3 _ _ d d'); [by apply (leaves_below _ _ _ _ e)..|done|done|done].
Qed.

Lemma free_entry_ok below l t i s :
  (0 < l -> tears l below)%nat -> mem_ok s -> releasable (S l) t s -> (i < 512)%nat ->
  exists s', free_entry below (Nat.eqb (S l) 1) t i s = (Ok tt, s') /\ torn (sub_tables (ram s) l t [i]) (sub_leaves (ram s) l t [i]) s s'.
Proof using HL.
  intros Hbelow Hm Hre Hi. destruct (re_tables _ _ _ Hre t) as (_ & Htf & Htr & _); [apply owns_root; lia|].
  destruct (entry_at_ok (E := unit) s t i Htf Htr Hi) as (e & He & Hrun). unfold free_entry. rewrite (st_bind_eq _ _ _ _ _ Hrun). cbv zeta.
  change (contains (pte_flags e) PRESENT) with (present e).
  assert (forall x, sub_tables (ram s) l t [i] x <-> links e = true /\ owns (ram s) l (pte_addr e) x) as HT.
  { intros x. split; [intros (j & d & ->%in_singleton & Hd & Hl & Hx); rewrite He in Hd; by injection Hd as <-|].
    intros [Hl Hx]. exists i, e. split; [by apply in_singleton|done]. }
  assert (forall p d, sub_leaves (ram s) l t [i] p d <-> exists r, p = i :: r /\ leaves (ram s) (S l) t (i :: r) d) as HLv.
  { intros p d. split; [intros (j & r & -> & ->%in_singleton & Hp); by exists r|]. intros (r & -> & Hp). exists i, r. split; [done|]. split; [by apply in_singleton|done]. }
  destruct (links e) eqn:Hl.
  - pose proof (present_links e Hl) as Hp. rewrite Hp. unfold links in Hl. rewrite Hp in Hl. cbn in Hl. apply negb_true_iff in Hl as Hh. rewrite Hh. cbn [negb].
    assert (links e = true) as Hle by (unfold links; by rewrite Hp, Hh). destruct (Nat.eqb_spec (S l) 1) as [Hl1|Hl1].
    + injection Hl1 as ->. assert (leaves (ram s) 1 t [i] e) as Hleaf by (split_and!; [done|by apply walk_leaf|done]).
      destruct (free_leaf_ok (E := unit) s [i] e Hm (re_pages _ _ _ Hre _ _ Hleaf)) as (s' & Hrun' & Ht). exists s'. split; [done|].
      eapply torn_iff; [| |exact Ht].
      * intros x. rewrite HT. split; [done|]. intros [_ (p & Hlen & _)]. lia.
      * intros p d. rewrite HLv. split; [intros [-> ->]; by exists []|]. intros (r & -> & Hlen & Hw & _). destruct r; [|done].
        rewrite (walk_leaf _ _ _ e) in Hw by done. by injection Hw as <-.
    + assert (0 < l)%nat as H0 by lia. destruct (Hbelow H0 (pte_addr e) s Hm) as (s' & Hrun' & Ht); [by apply (releasable_below l t i e)|].
      exists s'. split; [done|]. eapply torn_iff; [| |exact (torn_cons i _ _ _ _ Ht)].
      * intros x. rewrite HT. naive_solver.
      * intros p d. rewrite HLv. setoid_rewrite (leaves_below _ _ _ _ e _ _ He Hle H0). done.
  - assert (forall p d, sub_leaves (ram s) l t [i] p d <-> False) as HL0.
    { intros p d. rewrite HLv. split; [|done]. intros (r & -> & Hlen & Hw & Hd). cbn [walk] in Hw. rewrite He, Hl in Hw.
      destruct (present e); [|done]. destruct r; injection Hw; intros; congruence. }
    exists s. split; [|eapply torn_iff; [| |by apply torn_refl]; [intros x; rewrite HT; naive_solver|intros p d; by rewrite HL0]].
    unfold links in Hl. destruct (present e); [|done]. cbn in Hl. apply negb_false_iff in Hl. by rewrite Hl.
Qed.

Lemma sub_distinct l t s idx1 idx2 :
  (forall i, i ∈ idx1 -> i ∉ idx2) -> distinct (leaves (ram s) (S l) t) ->
  forall p q e d, sub_leaves (ram s) l t idx1 p e -> sub_leaves (ram s) l t idx2 q d -> is_cow e = true -> is_cow d = true -> pte_addr e <> pte_addr d.
Proof using.
  intros Hdis Hd p q e d (i & r & -> & Hi & Hp) (j & r' & -> & Hj & Hq) Hce Hcd Heq. assert (i :: r = j :: r') as [= -> _] by (by apply (Hd _ _ e d)).
  by apply (Hdis j).
Qed.
Lemma sub_app m l t idx1 idx2 :
  (forall x, sub_tables m l t idx1 x \/ sub_tables m l t idx2 x <-> sub_tables m l t (idx1 ++ idx2) x) /\
  (forall p e, sub_leaves m l t idx1 p e \/ sub_leaves m l t idx2 p e <-> sub_leaves m l t (idx1 ++ idx2) p e).
Proof using.
  split; [intros x|intros p e]; unfold sub_tables, sub_leaves; setoid_rewrite elem_of_app; naive_solver.
Qed.
Lemma free_entries_ok below l t idx s :
  (0 < l -> tears l below)%nat -> mem_ok s -> releasable (S l) t s -> (forall i, i ∈ idx -> (i < 512)%nat) -> NoDup idx ->
  exists s', for_each idx (free_entry below (Nat.eqb (S l) 1) t) s = (Ok tt, s') /\ torn (sub_tables (ram s) l t idx) (sub_leaves (ram s) l t idx) s s'.
Proof using HL.
  intros Hbelow. revert s. induction idx as [|i idx IH]; intros s Hm Hre Hidx Hnd.
  - exists s. split; [done|]. eapply torn_iff; [| |by apply torn_refl].
    + intros x. split; [done|]. by intros (? & ? & ?%elem_of_nil & _).
    + intros p e. split; [done|]. by intros (? & ? & _ & ?%elem_of_nil & _).
  - apply NoDup_cons in Hnd as [Hni Hnd]. cbn [for_each].
    destruct (free_entry_ok below l t i s Hbelow Hm Hre) as (s1 & Hrun & Ht); [apply Hidx; by left|]. rewrite (st_bind_eq _ _ _ _ _ Hrun).
    destruct (IH s1) as (s2 & Hrun2 & Ht2); [apply Ht|by eapply releasable_torn|intros j Hj; apply Hidx; by right|done|].
    exists s2. split; [done|]. rewrite (tn_ram _ _ _ _ Ht) in Ht2. destruct (sub_app (ram s) l t [i] idx) as [HA HB].
    eapply torn_iff; [exact HA|exact HB|]. apply (torn_trans _ _ _ _ _ s1); [|done|done].
    apply sub_distinct; [by intros j ->%in_singleton|apply Hre].
Qed.

Lemma free_table_ok below l :
  (0 < l -> tears l below)%nat ->
  tears (S l) (fun t => _ ← for_each (seq 0 512) (free_entry below (Nat.eqb (S l) 1) t); free_phys t).
Proof using HL.
  intros Hbelow t s Hm Hre. destruct (free_entries_ok below l t (seq 0 512) s Hbelow Hm Hre) as (s1 & Hrun & Ht1); [intros i ?%elem_of_seq; lia|apply NoDup_seq|].
  assert (frame_ok s t) as Hf by (apply (re_tables _ _ _ Hre), owns_root; lia).
  destruct (free_phys_ok (E := unit) s1 t) as (s2 & Hrun2 & Ht2 & _); [apply Ht1|by eapply frame_ok_torn|].
  exists s2. rewrite (st_bind_eq _ _ _ _ _ Hrun). split; [done|].
  assert (forall i e, entry_of (ram s) t i = Some e -> i ∈ seq 0 512) as Hin.
  { intros i e He. apply elem_of_seq. destruct Hf as (_ & (ws & Hws & Hl) & _). unfold entry_of in He. rewrite Hws in He. apply lookup_lt_Some in He. lia. }
  eapply torn_iff; [| |exact (torn_trans _ _ _ _ s s1 s2 (fun _ _ _ _ _ (F : False) => False_ind _ F) Ht1 Ht2)].
  - intros x. split.
    + intros [(i & e & _ & He & Hl & Hx)| <-]; [by eapply owns_child|apply owns_root; lia].
    + intros [->|(i & e & He & Hl & Hx)]%owns_inv; [by right|left]. exists i, e. split_and!; try done. by apply (Hin i e).
  - intros p e. split.
    + intros [(i & r & _ & _ & Hp)|[]]. done.
    + intros Hp. left. destruct p as [|i r]; [by destruct Hp|]. exists i, r. split_and!; try done.
      destruct Hp as (_ & Hw & _). cbn [walk] in Hw. destruct (entry_of (ram s) t i) as [d|] eqn:Hd; [|done]. by apply (Hin i d).
Qed.
Lemma free_page_table_recursive_eq l t :
  free_page_table_recursive (S l) t =
    (_ ← for_each (seq 0 512) (free_entry (free_page_table_recursive l) (Nat.eqb (S l) 1) t); free_phys t).
Proof using. cbn [free_page_table_recursive]. exact eq_refl. Qed.
Lemma free_page_table_recursive_ok l : tears (S l) (free_page_table_recursive (S l)).
Proof using HL.
  induction l as [|l IH]; intros t s; rewrite free_page_table_recursive_eq; revert t s; apply free_table_ok; [lia|done].
Qed.

(** ** The address space *)
Definition user_half : list nat := seq 0 256.
Record releasable_space (s : Mem) (root : Z) : Prop := {
  rl_root : frame_ok s root;
  rl_link i e : i ∈ user_half -> entry_of (ram s) root i = Some e -> present e = true -> links e = true;
  rl_tables x : sub_tables (ram s) 3 root user_half x -> frame_ok s x;
  rl_pages p e : sub_leaves (ram s) 3 root user_half p e -> frame_ok s (pte_addr e);
  rl_once : distinct (sub_leaves (ram s) 3 root user_half);
}.
Lemma releasable_space_torn T L s s' root : torn T L s s' -> releasable_space s root -> releasable_space s' root.
Proof using.
  intros Ht [H1 H2 H3 H4 H5]. split; rewrite ?(tn_ram _ _ _ _ Ht); try done.
  - by eapply frame_ok_torn.
  - intros x Hx. eapply frame_ok_torn; [done|by apply H3].
  - intros p e Hp. eapply frame_ok_torn; [done|by apply (H4 p)].
Qed.
Lemma sub_weaken m l t idx idx' : idx ⊆ idx' ->
  (forall x, sub_tables m l t idx x -> sub_tables m l t idx' x) /\ (forall p e, sub_leaves m l t idx p e -> sub_leaves m l t idx' p e).
Proof using.
  intros Hsub. split.
  - intros x (i & e & Hi & Hx). exists i, e. split; [by apply Hsub|done].
  - intros p e (i & r & -> & Hi & Hp). exists i, r. split; [done|]. split; [by apply Hsub|done].
Qed.
Lemma free_user_entry_ok root i s :
  mem_ok s -> releasable_space s root -> i ∈ user_half ->
  exists s', free_user_entry root i s = (Ok tt, s') /\ torn (sub_tables (ram s) 3 root [i]) (sub_leaves (ram s) 3 root [i]) s s'.
Proof using HL.
  intros Hm Hre Hin. assert (i < 512)%nat as Hi by (apply elem_of_seq in Hin; lia). destruct (rl_root _ _ Hre) as (_ & Htf & Htr & _).
  destruct (entry_at_ok (E := unit) s root i Htf Htr Hi) as (e & He & Hrun). unfold free_user_entry. rewrite (st_bind_eq _ _ _ _ _ Hrun).
  change (contains (pte_flags e) PRESENT) with (present e).
  assert ([i] ⊆ user_half) as Hsub by (intros j ->%in_singleton; done). destruct (sub_weaken (ram s) 3 root [i] user_half Hsub) as [HsT HsL].
  destruct (present e) eqn:Hp; cbn [negb].
  - pose proof (rl_link _ _ Hre i e Hin He Hp) as Hl.
    assert (forall p d, leaves (ram s) 3 (pte_addr e) p d -> sub_leaves (ram s) 3 root [i] (i :: p) d) as Hup.
    { intros p d Hd. exists i, p. split; [done|]. split; [by apply in_singleton|]. apply (leaves_below _ _ _ _ e); [done|done|lia|done]. }
    assert (forall x, owns (ram s) 3 (pte_addr e) x -> sub_tables (ram s) 3 root [i] x) as HupT.
    { intros x Hx. exists i, e. split; [by apply in_singleton|done]. }
    destruct (free_page_table_recursive_ok 2 (pte_addr e) s Hm) as (s' & Hrun' & Ht).
    { split; [intros x Hx; by apply (rl_tables _ _ Hre), HsT, HupT|intros p d Hd; by apply (rl_pages _ _ Hre (i :: p)), HsL, Hup|].
      intros p q d d' Hd Hd' Hc Hc' Heq. assert (i :: p = i :: q) as [= ->]; [|done]. by apply (rl_once _ _ Hre _ _ d d'); [apply HsL, Hup|apply HsL, Hup|..]. }
    exists s'. split; [done|]. eapply torn_iff; [| |exact (torn_cons i _ _ _ _ Ht)].
    + intros x. split; [by apply HupT|]. intros (j & d & ->%in_singleton & Hd & _ & Hx). rewrite He in Hd. by injection Hd as <-.
    + intros p d. split; [intros (r & -> & Hr); by apply Hup|]. intros (j & r & -> & ->%in_singleton & Hr). exists r. split; [done|].
      apply (leaves_below _ _ _ i e) in Hr; [done|done|done|lia].
  - exists s. split; [done|]. eapply torn_iff; [| |by apply torn_refl].
    + intros x. split; [done|]. intros (j & d & ->%in_singleton & Hd & Hl & _). rewrite He in Hd. injection Hd as <-. apply present_links in Hl. congruence.
    + intros p d. split; [done|]. intros (j & r & -> & ->%in_singleton & _ & Hw & _). by rewrite (walk_absent _ _ _ _ e) in Hw.
Qed.
Lemma free_user_entries_ok root idx s :
  mem_ok s -> releasable_space s root -> idx ⊆ user_half -> NoDup idx ->
  exists s', for_each idx (free_user_entry root) s = (Ok tt, s') /\ torn (sub_tables (ram s) 3 root idx) (sub_leaves (ram s) 3 root idx) s s'.
Proof using HL.
  revert s. induction idx as [|i idx IH]; intros s Hm Hre Hsub Hnd.
  - exists s. split; [done|]. eapply torn_iff; [| |by apply torn_refl].
    + intros x. split; [done|]. by intros (? & ? & ?%elem_of_nil & _).
    + intros p e. split; [done|]. by intros (? & ? & _ & ?%elem_of_nil & _).
  - apply NoDup_cons in Hnd as [Hni Hnd]. cbn [for_each]. assert (i ∈ user_half) as Hi by (apply Hsub; by left).
    assert (idx ⊆ user_half) as Hsub' by (intros j Hj; apply Hsub; by right).
    destruct (free_user_entry_ok root i s Hm Hre Hi) as (s1 & Hrun & Ht). rewrite (st_bind_eq _ _ _ _ _ Hrun).
    destruct (IH s1) as (s2 & Hrun2 & Ht2); [apply Ht|by eapply releasable_space_torn|done|done|].
    exists s2. split; [done|]. rewrite (tn_ram _ _ _ _ Ht) in Ht2. destruct (sub_app (ram s) 3 root [i] idx) as [HA HB].
    eapply torn_iff; [exact HA|exact HB|]. apply (torn_trans _ _ _ _ _ s1); [|done|done].
    assert ([i] ⊆ user_half) as Hs1 by (intros j ->%in_singleton; done).
    intros p q e d Hp Hq Hc Hd Heq. assert (p = q) as <-.
    { apply (rl_once _ _ Hre p q e d); try done; [by apply (sub_weaken _ _ _ [i])|by apply (sub_weaken _ _ _ idx)]. }
    destruct Hp as (j & r & -> & ->%in_singleton & _), Hq as (j' & r' & [= <- <-] & Hj & _). done.
Qed.
Lemma teardown_ok root s :
  mem_ok s -> releasable_space s root ->
  exists s', teardown_address_space root s = (Ok tt, s') /\
    torn (fun x => x = root \/ sub_tables (ram s) 3 root user_half x) (sub_leaves (ram s) 3 root user_half) s s'.
Proof using HL.
  intros Hm Hre. destruct (free_user_entries_ok root user_half s Hm Hre) as (s1 & Hrun & Ht1); [done|apply NoDup_seq|].
  destruct (free_phys_ok (E := unit) s1 root) as (s2 & Hrun2 & Ht2 & _); [apply Ht1|eapply frame_ok_torn; [done|apply Hre]|].
  exists s2. unfold teardown_address_space. rewrite (st_bind_eq _ _ _ _ _ Hrun). split; [done|].
  eapply torn_iff; [| |exact (torn_trans _ _ _ _ s s1 s2 (fun _ _ _ _ _ (F : False) => False_ind _ F) Ht1 Ht2)].
  - intros x. split; [intros [?|<-]; [by right|by left]|intros [->|?]; [by right|by left]].
  - intros p e. split; [by intros [?|[]]|by left].
Qed.

(** ** A child that exits *)
Section Exit.
Context (k3 : Z).

(** The pages of the user half of the active address space: in use, no tables, each mapped at
    one address. *)
Record pages_ok (s : Mem) (K : gset Z) : Prop := {
  pg_frame p e : sub_leaves (ram s) 3 (cr3_reg s) user_half p e -> frame_ok s (pte_addr e) /\ held s K (pte_addr e) /\
    ~ user_table (ram s) (cr3_reg s) (pte_addr e);
  pg_once p q e d : sub_leaves (ram s) 3 (cr3_reg s) user_half p e -> sub_leaves (ram s) 3 (cr3_reg s) user_half q d -> pte_addr e = pte_addr d -> p = q;
}.
Lemma cow_e_addr e : present e = true -> pte_addr (cow_e e) = pte_addr e.
Proof using HL. intros Hp. destruct (shares e) eqn:Hs; [by apply cow_e_ok|by rewrite cow_e_other]. Qed.
Lemma user_table_sub m root x : user_table m root x <-> sub_tables m 3 root user_half x.
Proof using.
  split; intros (i & e & Hi & Hx); exists i, e; (split; [|done]); unfold user_half in *; [apply elem_of_seq; lia|apply elem_of_seq in Hi; lia].
Qed.
Lemma pages_single s K : pages_ok s K -> single_use s (cr3_reg s).
Proof using.
  intros Hpg i j p q e d a b Hi Hj Hp Hq Ha Hla Hb Hlb Hwp Hwq Hse Hsd Heq.
  assert (forall i p e a, (i < 256)%nat -> length p = 3%nat -> entry_of (ram s) (cr3_reg s) i = Some a -> links a = true ->
    walk (ram s) (pte_addr a) p = Some (O, e) -> shares e = true -> sub_leaves (ram s) 3 (cr3_reg s) user_half (i :: p) e) as Hleaf.
  { clear. intros i p e a Hi Hp Ha Hl Hw Hs. exists i, p. split; [done|]. split; [unfold user_half; apply elem_of_seq; lia|].
    split_and!; [cbn; lia|by rewrite (root_walk _ _ _ _ _ Ha)|]. pose proof (walk_entry_present _ _ _ _ _ Hw) as Hpe. unfold shares in Hs.
    apply andb_true_iff in Hs as [_ Hh]. unfold links. by rewrite Hpe, Hh. }
  assert (i :: p = j :: q) as [= -> ->]; [|done]. by apply (pg_once _ _ Hpg _ _ e d); [apply (Hleaf i p e a)|apply (Hleaf j q d b)|].
Qed.
Lemma clone_leaves s K new s1 K1 p e :
  space_cloned k3 s K new s1 K1 ->
  sub_leaves (ram s1) 3 new user_half p e <-> exists e0, sub_leaves (ram s) 3 (cr3_reg s) user_half p e0 /\ e = cow_e e0.
Proof using HL.
  intros Hc. assert (forall i r, i ∈ user_half -> length (i :: r) = 4%nat -> walk (ram s1) new (i :: r) = cowed <$> walk (ram s) (cr3_reg s) (i :: r)) as Hw.
  { intros i r Hi%elem_of_seq [= Hr]. apply (sc_user _ _ _ _ _ _ Hc); [lia|done]. }
  split.
  - intros (i & r & -> & Hi & Hlen & Hwk & Hl). rewrite Hw in Hwk by done. apply cowed_Some in Hwk as (e0 & Hwk & ->). exists e0. split; [|done].
    rewrite cow_e_links in Hl by (by eapply walk_entry_present). by exists i, r.
  - intros (e0 & (i & r & -> & Hi & Hlen & Hwk & Hl) & ->). rewrite <-cow_e_links in Hl by (by eapply walk_entry_present).
    exists i, r. do 3 (split; [done|]). split; [by rewrite Hw, Hwk|done].
Qed.
Lemma leaf_present m l t idx p e : sub_leaves m l t idx p e -> present e = true.
Proof using. intros (i & r & _ & _ & _ & Hw & _). by eapply walk_entry_present. Qed.

Lemma clone_releasable s K new s1 K1 :
  mem_ok s -> pages_ok s K -> space_cloned k3 s K new s1 K1 -> releasable_space s1 new.
Proof using HL.
  intros Hm Hpg Hc. pose proof (sc_quiet _ _ _ _ _ _ Hc) as Hq. pose proof (sc_new_kernel _ _ _ _ _ _ Hc) as Hk1.
  assert (forall x, free s x = true -> manages s1 x = true /\ x mod PAGE_4K = 0) as Hfr.
  { intros x Hx. rewrite (q_man _ _ _ _ _ Hq). split; [by apply free_manages|]. destruct Hm as (a & Ha & Hwf & _). unfold free in Hx. rewrite Ha in Hx. by apply (is_free_range a x). }
  destruct (ko_root _ _ _ Hk1) as (Hrf & _ & Hrr). cbn [cr3_reg with_cr3 ram] in Hrf, Hrr. split.
  - destruct (Hfr new (sc_fresh _ _ _ _ _ _ Hc)). unfold frame_ok. done.
  - intros i e Hi He Hp. unfold user_half in Hi. apply elem_of_seq in Hi. by apply (ut_tree _ _ _ (sc_new_space _ _ _ _ _ _ Hc) i e); [lia|..].
  - intros x Hx. apply user_table_sub in Hx. destruct (Hfr x (sc_new _ _ _ _ _ _ Hc x Hx)) as [H1 H2]. destruct Hx as (i & e & Hi & He & Hl & Hx).
    destruct (ut_tree _ _ _ (sc_new_space _ _ _ _ _ _ Hc) i e Hi He (present_links e Hl)) as [_ Ht]. destruct (tr_held _ _ _ _ Ht x Hx) as (_ & H3 & H4). unfold frame_ok. done.
  - intros p e He. apply (clone_leaves s K new s1 K1) in He as (e0 & He & ->); [|done]. rewrite cow_e_addr by (by eapply leaf_present).
    destruct (pg_frame _ _ Hpg p e0 He) as ((H1 & H2 & H3 & H4) & _). unfold frame_ok. split_and!; [by rewrite (q_man _ _ _ _ _ Hq)|by apply (q_frames _ _ _ _ _ Hq)|apply H3..|done].
  - intros p q e d He Hd _ _ Heq. apply (clone_leaves s K new s1 K1) in He as (e0 & He & ->), Hd as (d0 & Hd & ->); [|done..].
    rewrite !cow_e_addr in Heq by (by eapply leaf_present). by apply (pg_once _ _ Hpg p q e0 d0).
Qed.

Section Child.
Context (s : Mem) (K : gset Z) (Hk : kernel_ok k3 s K) (Hut : user_tables s K (cr3_reg s)) (Hpg : pages_ok s K).
Context (new : Z) (s1 : Mem) (K1 : gset Z) (Hc : space_cloned k3 s K new s1 K1).
Context (s2 : Mem) (Ht : torn (fun x => x = new \/ sub_tables (ram s1) 3 new user_half x) (sub_leaves (ram s1) 3 new user_half) s1 s2).

(** Frames in use before the fork that are no pages of the user half stay in use. *)
Lemma child_keeps x : held s K x \/ x = cr3_reg s -> (forall p e, sub_leaves (ram s) 3 (cr3_reg s) user_half p e -> pte_addr e <> x) -> free s2 x = false.
Proof using All.
  intros Hx Hn. pose proof (sc_quiet _ _ _ _ _ _ Hc) as Hq. assert (free s x = false) as Hf.
  { destruct Hx as [[Hf _]| ->]; [done|apply (ko_root _ _ _ Hk)]. }
  destruct (free s2 x) eqn:Hf2; [|done]. exfalso. apply (tn_free _ _ _ _ Ht) in Hf2 as [Hf1|[[->|Hx']|(p & e & He & Hxe & _)]].
  - apply (q_free _ _ _ _ _ Hq) in Hf1. congruence.
  - pose proof (sc_fresh _ _ _ _ _ _ Hc). congruence.
  - apply user_table_sub, (sc_new _ _ _ _ _ _ Hc) in Hx'. congruence.
  - apply (clone_leaves s K new s1 K1) in He as (e0 & He & ->); [|done]. rewrite cow_e_addr in Hxe by (by eapply leaf_present). by apply (Hn p e0).
Qed.
(** A page the fork shared copy-on-write is again the parent's alone. *)
Lemma child_returns p e : sub_leaves (ram s) 3 (cr3_reg s) user_half p e -> shares e = true -> refcount_get s (pte_addr e) = 1 ->
  free s2 (pte_addr e) = false /\ refcount_get s2 (pte_addr e) = 1.
Proof using All.
  intros Hp Hs Hrc. pose proof (leaf_present _ _ _ _ _ _ Hp) as Hpe. destruct (cow_e_ok e Hpe Hs) as (_ & Ha & Hfl & _).
  assert (is_cow (cow_e e) = true) as Hcow.
  { unfold is_cow. rewrite Hfl. change COW_FLAG with (2 ^ 9). rewrite contains_bit by done. by destruct (cow_flags_ok _ (pte_flags_ok e)) as (_ & _ & Hb & _). }
  assert (PAGE_REFCOUNTS s1 !! pte_addr e = Some 2) as Hc1.
  { destruct Hp as (i & r & -> & Hi & [= Hlen] & Hw & _). unfold user_half in Hi. apply elem_of_seq in Hi. rewrite (sc_count _ _ _ _ _ _ Hc i r e); [|lia|done..].
    unfold refcount_get in Hrc. destruct (PAGE_REFCOUNTS s !! pte_addr e) as [n|]; cbn in *; [by rewrite Hrc|done]. }
  assert (sub_leaves (ram s1) 3 new user_half p (cow_e e)) as Hp1 by (apply (clone_leaves s K new s1 K1); [done|by exists e]).
  destruct (pg_frame _ _ Hpg p e Hp) as (_ & (Hf & HK & Hne) & Hnt). split.
  - destruct (free s2 (pte_addr e)) eqn:Hf2; [|done]. exfalso. apply (tn_free _ _ _ _ Ht) in Hf2 as [Hf1|[[Heq|Hx']|(q & d & Hq & Hxd & Hg)]].
    + apply (q_free _ _ _ _ _ (sc_quiet _ _ _ _ _ _ Hc)) in Hf1. congruence.
    + pose proof (sc_fresh _ _ _ _ _ _ Hc). congruence.
    + apply user_table_sub, (sc_new _ _ _ _ _ _ Hc) in Hx'. congruence.
    + apply (clone_leaves s K new s1 K1) in Hq as (d0 & Hq & ->); [|done]. pose proof (leaf_present _ _ _ _ _ _ Hq) as Hpd. rewrite cow_e_addr in Hxd by done.
      assert (q = p) as -> by (by apply (pg_once _ _ Hpg q p d0 e)). destruct Hp as (i & r & -> & _ & _ & Hw & _), Hq as (j & r' & [= <- <-] & _ & _ & Hw' & _).
      rewrite Hw in Hw'. injection Hw' as <-. unfold gone in Hg. rewrite Hcow, Ha in Hg. congruence.
  - unfold refcount_get. rewrite <-Ha, (tn_count _ _ _ _ Ht p (cow_e e)), Ha, Hc1 by done. done.
Qed.
End Child.

(** C9: a child that exits without writing gives back what it took and nothing of its
    parent's.  After [clone_address_space] and [teardown_address_space] of the new address
    space, the parent's level 4 table and page tables are in use and lead to the same pages,
    and each page that was the parent's alone and writable is in use with a reference count of
    one, so that the parent's next write to it is resolved in place. *)
Theorem child_exit_keeps_parent s K new s1 :
  kernel_ok k3 s K -> user_tables s K (cr3_reg s) -> pages_ok s K -> clone_address_space s = (Ok new, s1) ->
  exists s2, teardown_address_space new s1 = (Ok tt, s2) /\ free s2 new = true /\
    free s2 (cr3_reg s) = false /\
    (forall x, user_table (ram s) (cr3_reg s) x -> user_table (ram s2) (cr3_reg s) x /\ free s2 x = false) /\
    (forall i p, (i < 256)%nat -> length p = 3%nat -> walk (ram s2) (cr3_reg s) (i :: p) = cowed <$> walk (ram s) (cr3_reg s) (i :: p)) /\
    (forall p e, sub_leaves (ram s) 3 (cr3_reg s) user_half p e -> shares e = true -> refcount_get s (pte_addr e) = 1 ->
       free s2 (pte_addr e) = false /\ refcount_get s2 (pte_addr e) = 1).
Proof using HL.
  intros Hk Hut Hpg Hrun. destruct (clone_address_space_ok k3 s K Hk Hut (pages_single s K Hpg)) as (r & s' & Hrun' & Hr).
  rewrite Hrun in Hrun'. injection Hrun' as <- <-. destruct Hr as (K1 & Hc).
  destruct (teardown_ok new s1) as (s2 & Hrun2 & Ht); [apply (ko_mem k3 s1 K1), (sc_quiet _ _ _ _ _ _ Hc)|by apply (clone_releasable s K new s1 K1 (ko_mem _ _ _ Hk))|].
  exists s2. split; [done|]. rewrite (tn_ram _ _ _ _ Ht). split_and!.
  - apply (tn_free _ _ _ _ Ht). right. left. by left.
  - apply (child_keeps s K Hk Hut Hpg new s1 K1 Hc s2 Ht); [by right|]. intros p e Hp Heq. destruct (pg_frame _ _ Hpg p e Hp) as (_ & (_ & _ & Hne) & _). done.
  - intros x Hx. split; [by apply (sc_tables _ _ _ _ _ _ Hc)|].
    apply (child_keeps s K Hk Hut Hpg new s1 K1 Hc s2 Ht); [left; by apply held_tables|]. intros p e Hp <-. by destruct (pg_frame _ _ Hpg p e Hp) as (_ & _ & []).
  - intros i p Hi Hp. by apply (sc_user _ _ _ _ _ _ Hc).
  - intros p e. by apply (child_returns s K Hk Hut Hpg new s1 K1 Hc s2 Ht).
Qed.

(** C12: a child that exits frees the read-only pages its parent still uses.  Such a page is
    in both address spaces without a reference count, [free_page_table_recursive] takes it for
    the child's own, and afterwards it is free while the parent's tables lead to it. *)
Theorem child_exit_frees_read_only s K new s1 a e :
  kernel_ok k3 s K -> user_tables s K (cr3_reg s) -> pages_ok s K -> clone_address_space s = (Ok new, s1) ->
  (table_index 4 a < 256)%nat -> walk (ram s) (cr3_reg s) (indices a) = Some (O, e) -> links e = true ->
  contains (pte_flags e) WRITABLE = false -> contains (pte_flags e) COW_FLAG = false ->
  exists s2, teardown_address_space new s1 = (Ok tt, s2) /\ free s2 (pte_addr e) = true /\
    walk (ram s2) (cr3_reg s) (indices a) = Some (O, e).
Proof using HL.
  intros Hk Hut Hpg Hrun Ha Hw Hl Hnw Hnc. destruct (clone_address_space_ok k3 s K Hk Hut (pages_single s K Hpg)) as (r & s' & Hrun' & Hr).
  rewrite Hrun in Hrun'. injection Hrun' as <- <-. destruct Hr as (K1 & Hc).
  destruct (teardown_ok new s1) as (s2 & Hrun2 & Ht); [apply (ko_mem k3 s1 K1), (sc_quiet _ _ _ _ _ _ Hc)|by apply (clone_releasable s K new s1 K1 (ko_mem _ _ _ Hk))|].
  assert (shares e = false) as Hs by (unfold shares; by rewrite Hnw). assert (cow_e e = e) as Hce by (by apply cow_e_other).
  assert (sub_leaves (ram s) 3 (cr3_reg s) user_half (indices a) e) as Hleaf.
  { eexists _, _. split; [reflexivity|]. split; [unfold user_half; apply elem_of_seq; lia|done]. }
  exists s2. split; [done|]. rewrite (tn_ram _ _ _ _ Ht). split.
  - apply (tn_free _ _ _ _ Ht). right. right. exists (indices a), (cow_e e). rewrite Hce. split; [|split; [done|]].
    + rewrite <-Hce. apply (clone_leaves s K new s1 K1); [done|by exists e].
    + unfold gone, is_cow. by rewrite Hnc.
  - destruct (sc_user _ _ _ _ _ _ Hc (table_index 4 a) [table_index 3 a; table_index 2 a; table_index 1 a] Ha eq_refl) as [Hwo _].
    change (_ :: [_; _; _]) with (indices a) in Hwo. rewrite Hwo, Hw. cbn. by rewrite Hce.
Qed.
End Exit.
End Teardown.
