(* ===== verification/CowSample.v ===== *)
(** * An address space on the processor's page tables

    A machine with 64 pages: the kernel's tables, an address space with a writable and a
    read-only page, and the rest free.  The theorems on mapping, forking, faulting and
    releasing apply to it. *)
From S2P Require Import Prelude PageAlloc Paging X86Paging Mapping Cow CowScratch CowClone CowTables CowFork CowSpace CowFault CowIsolation CowTeardown.

(** A table by its entries that are not zero. *)
Definition table_of (l : list (nat * Z)) : list Z := foldr (fun '(i, e) ws => <[i := e]> ws) (replicate 512 0) l.
Definition ROOT : Z := 0x1000.
Definition PAGE_W : Z := 0x8000.
Definition PAGE_R : Z := 0x9000.
Definition LINK : Z := 0x7.
(** The read-only page, mapped at 0x1000: the path "/", at 0x1100 the pointers to "p" and "ab" and
    at 0x1140 the pointer to "x", each list with a null pointer behind it. *)
Definition read_only_words : list (nat * Z) :=
  [(0%nat, 0x2F); (32%nat, 0x1200); (33%nat, 0x1210); (40%nat, 0x1220); (64%nat, 0x70); (66%nat, 0x6261); (68%nat, 0x78)].
Definition sample_tables : list (Z * list (nat * Z)) :=
  [(ROOT, [(0%nat, 0x5000 + LINK); (510%nat, 0x2000 + 0x3)]);
   (0x2000, [(448%nat, 0x3000 + 0x3)]); (0x3000, [(0%nat, 0x4000 + 0x3)]); (0x4000, []);
   (0x5000, [(0%nat, 0x6000 + LINK)]); (0x6000, [(0%nat, 0x7000 + LINK)]);
   (0x7000, [(0%nat, PAGE_W + 0x7); (1%nat, PAGE_R + 0x5)]);
   (PAGE_W, [(0%nat, 42)]); (PAGE_R, read_only_words)].
Definition sample_frames : list Z := (fun k => 0x1000 * Z.of_nat (S k)) <$> seq 0 64.
Definition sample_ram : Ram :=
  foldr (fun '(p, l) m => <[p := table_of l]> m) (list_to_map ((fun p => (p, replicate 512 0)) <$> sample_frames)) sample_tables.
Definition space_node : BitmapNode := mkNode HIGHER_HALF_BASE [2 ^ 64 - 2 ^ 9] 0x1000 0x40000.
Definition sample_mem : Mem := mkMem (Some [space_node]) sample_ram ROOT ∅ 0 0xFFFFFF7800000000.
Definition sample_K : gset Z := {[0x2000; 0x3000; 0x4000]}.

Lemma table_of_lookup l i e : table_of l !! i = Some e -> e = 0 \/ (i, e) ∈ l.
Proof.
  induction l as [|[j d] l IH]; cbn [table_of foldr]; [intros He; apply lookup_replicate in He as [-> _]; by left|]. fold (table_of l). intros He.
  destruct (decide (i = j)) as [->|Hne].
  - destruct (decide (j < length (table_of l))%nat) as [Hlt|Hge].
    + rewrite list_lookup_insert_eq in He by done. injection He as ->. right. by left.
    + rewrite list_insert_ge in He by lia. apply lookup_lt_Some in He. lia.
  - rewrite list_lookup_insert_ne in He by done. destruct (IH He) as [?|?]; [by left|right; by right].
Qed.
Lemma table_of_length l : length (table_of l) = 512%nat.
Proof. induction l as [|[j d] l IH]; cbn [table_of foldr]; [apply length_replicate|]. fold (table_of l). by rewrite length_insert. Qed.

Lemma sample_table p l : (p, l) ∈ sample_tables -> sample_ram !! p = Some (table_of l).
Proof.
  unfold sample_tables, sample_ram. rewrite !elem_of_cons, elem_of_nil. cbn [foldr sample_tables].
  intros Hin. repeat destruct Hin as [[= -> ->]|Hin]; [..|done]; repeat (rewrite lookup_insert_ne by done); by rewrite lookup_insert_eq.
Qed.
Lemma sample_frame p : p ∈ sample_frames -> is_table_frame sample_ram p.
Proof.
  intros Hp. assert (forall T, is_table_frame (foldr (fun '(p, l) m => <[p := table_of l]> m) (list_to_map ((fun p => (p, replicate 512 0)) <$> sample_frames)) T) p) as H; [|apply H].
  intros T. induction T as [|[q l] T IH]; cbn [foldr].
  - exists (replicate 512 0). split; [|apply length_replicate]. apply elem_of_list_to_map.
    + rewrite <-list_fmap_compose. unfold compose. cbn [fst]. rewrite list_fmap_id. unfold sample_frames. apply NoDup_fmap_2; [intros x y ?; lia|apply NoDup_seq].
    + apply list_elem_of_fmap. by exists p.
  - destruct (decide (p = q)) as [->|Hne].
    + exists (table_of l). split; [by rewrite lookup_insert_eq|apply table_of_length].
    + destruct IH as (ws & Hws & Hl). exists ws. by rewrite lookup_insert_ne.
Qed.
#[local] Opaque sample_ram.
Lemma sample_covered p : p mod PAGE_4K = 0 -> covers space_node p = true -> p ∈ sample_frames.
Proof.
  intros Ha Hc. apply covers_spec in Hc. cbn in Hc. unfold PAGE_4K in Ha. apply list_elem_of_fmap.
  exists (Z.to_nat (p / 0x1000 - 1)). pose proof (Z.div_mod p 0x1000 ltac:(lia)). split; [lia|]. apply elem_of_seq. lia.
Qed.

Lemma space_node_wf : alloc_wf [space_node].
Proof.
  split_and!; [|constructor|done]. split; cbn; try done.
  - repeat constructor; vm_compute; congruence.
  - change (0x40000 / PAGE_4K) with 64. intros k Hk. unfold bitmap_bit. destruct (decide (k < 64)) as [Hlt|Hge].
    + rewrite (Z.div_small k 64), (Z.mod_small k 64) by lia. change (Z.testbit (Z.shiftl (Z.ones 55) 9) k = false).
      rewrite Z.shiftl_spec by lia. apply Z.ones_spec_high. lia.
    + assert (1 <= k / 64) by (apply Z.div_le_lower_bound; lia). rewrite lookup_ge_None_2; [done|cbn; lia].
Qed.
Lemma sample_free p : free sample_mem p = true -> p ∈ sample_frames /\ 0xA000 <= p < 0x41000.
Proof.
  unfold free. cbn [ALLOCATOR sample_mem is_free existsb]. rewrite orb_false_r. unfold node_free. rewrite !andb_true_iff, Z.eqb_eq. intros [[Hc Ha] Hb].
  split; [by apply sample_covered|]. apply covers_spec in Hc. cbn in Hc. split; [|lia].
  destruct (decide (p < 0xA000)) as [Hlt|]; [|lia]. exfalso. unfold bitmap_bit in Hb. cbn [bn_map bn_base_phys space_node] in Hb.
  unfold PAGE_4K in *. assert (0 <= (p - 0x1000) / 4096 < 9) as Hk by (split; [apply Z.div_pos; lia|apply Z.div_lt_upper_bound; lia]).
  rewrite (Z.div_small ((p - 0x1000) / 4096) 64), (Z.mod_small ((p - 0x1000) / 4096) 64) in Hb by lia.
  change (Z.testbit (Z.shiftl (Z.ones 55) 9) ((p - 0x1000) / 4096) = true) in Hb. rewrite Z.shiftl_spec in Hb by lia.
  rewrite Z.testbit_neg_r in Hb by lia. done.
Qed.
Lemma sample_mem_ok : mem_ok sample_mem.
Proof.
  exists [space_node]. split; [done|]. split; [apply space_node_wf|]. intros p Hp. destruct (sample_free p Hp) as [Hin Hr].
  split; [by apply sample_frame|]. lia.
Qed.
(** The entries of the tables that are used. *)
Lemma sample_entry t l i e : (t, l) ∈ sample_tables -> entry_of sample_ram t i = Some e -> e = 0 \/ (i, e) ∈ l.
Proof. intros Ht He. unfold entry_of in He. rewrite (sample_table t l Ht) in He. by apply table_of_lookup. Qed.
Ltac decided := refine (bool_decide_unpack _ _); vm_compute; exact I.
Ltac in_tables := repeat (try (left; reflexivity); right).
Ltac sample_at t :=
  unfold entry_of; match goal with |- context [sample_ram !! ?x] => change x with t end; rewrite (sample_table t _ ltac:(in_tables)); reflexivity.
Ltac in_list Hin := rewrite ?elem_of_cons, ?elem_of_nil in Hin; repeat (let Heq := fresh in destruct Hin as [Heq|Hin]; [simplify_eq Heq; intros; subst|]); try contradiction.
Lemma dead_zero : present 0 = false /\ links 0 = false.
Proof. done. Qed.

Lemma sample_root_510 : entry_of sample_ram ROOT 510 = Some 0x2003.
Proof. sample_at ROOT. Qed.
Lemma sample_scratch k : visited sample_ram ROOT (scratch_path k) = [ROOT; 0x2000; 0x3000; 0x4000] /\
  forall e, entry_of sample_ram 0x4000 (256 + k) = Some e -> e = 0.
Proof.
  split.
  - unfold scratch_path. rewrite (visited_link _ _ _ _ 0x2003); [|sample_at ROOT|done|done]. rewrite (visited_link _ _ _ _ 0x3003); [|sample_at 0x2000|done|done].
    rewrite (visited_link _ _ _ _ 0x4003); [|sample_at 0x3000|done|done]. done.
  - intros e He. destruct (sample_entry 0x4000 [] _ e ltac:(in_tables) He) as [He0|Hin]; [exact He0|]. destruct (not_elem_of_nil _ Hin).
Qed.
Lemma sample_scratch_walk k : walk sample_ram ROOT (scratch_path k) = None.
Proof.
  unfold scratch_path. rewrite (walk_link _ _ _ _ 0x2003); [|sample_at ROOT|done|done]. rewrite (walk_link _ _ _ _ 0x3003); [|sample_at 0x2000|done|done].
  rewrite (walk_link _ _ _ _ 0x4003); [|sample_at 0x3000|done|done]. change (pte_addr 0x4003) with 0x4000. rewrite walk_single.
  destruct (entry_of sample_ram 0x4000 (256 + k)) as [e|] eqn:He; [|done]. by rewrite (proj2 (sample_scratch k) e He).
Qed.
Lemma sample_frames_1 p : p ∈ [ROOT; 0x2000; 0x3000; 0x4000; 0x5000; 0x6000; 0x7000; PAGE_W; PAGE_R] -> p ∈ sample_frames /\ free sample_mem p = false.
Proof.
  intros Hp. rewrite !elem_of_cons, elem_of_nil in Hp. repeat destruct Hp as [->|Hp]; [..|done]; (split; [decided|done]).
Qed.
Lemma sample_ready k : (k < 256)%nat -> ready sample_ram ROOT (scratch_path k).
Proof.
  intros Hk. unfold ready. destruct (sample_scratch k) as [Hv Hent]. rewrite Hv. split_and!.
  - decided.
  - apply Forall_forall. intros x Hx. apply sample_frame, sample_frames_1. rewrite !elem_of_cons, elem_of_nil in Hx. rewrite !elem_of_cons. tauto.
  - unfold scratch_path. rewrite !Forall_cons, Forall_nil. lia.
  - intros n x i e Hx Hi He. destruct n as [|[|[|[|n]]]]; [..|discriminate Hi]; injection Hx as <-; injection Hi as <-.
    + rewrite sample_root_510 in He. injection He as <-. by right.
    + destruct (sample_entry 0x2000 _ _ e ltac:(in_tables) He) as [->|Hin]; [by left|]. in_list Hin. by right.
    + destruct (sample_entry 0x3000 _ _ e ltac:(in_tables) He) as [->|Hin]; [by left|]. in_list Hin. by right.
    + rewrite (Hent e He). by left.
Qed.
Lemma sample_kernel_ok : kernel_ok 0x2000 sample_mem sample_K.
Proof.
  split; cbn [ram cr3_reg sample_mem].
  - apply sample_mem_ok.
  - split; [apply sample_frame; decided|]. split; [done|]. unfold ROOT. lia.
  - exists 0x2003. split; [apply sample_root_510|done].
  - apply sample_ready.
  - intros k _. apply sample_scratch_walk.
  - intros k x. rewrite (proj1 (sample_scratch k)). rewrite !elem_of_cons, elem_of_nil. unfold sample_K. set_solver.
  - intros x Hx. unfold sample_K in Hx. rewrite !elem_of_union, !elem_of_singleton in Hx. destruct Hx as [[-> | ->] | ->]; done.
Qed.

(** The user half: one table on each level and two pages. *)
Lemma sample_step t l i e : (t, l) ∈ sample_tables -> entry_of sample_ram t i = Some e -> present e = true -> (i, e) ∈ l.
Proof. intros Ht He Hp. destruct (sample_entry t l i e Ht He) as [->|Hin]; [discriminate Hp|exact Hin]. Qed.
Lemma sample_root_entry i e : (i < 256)%nat -> entry_of sample_ram ROOT i = Some e -> present e = true -> i = 0%nat /\ e = 0x5007.
Proof. intros Hi He Hp. pose proof (sample_step ROOT _ i e ltac:(in_tables) He Hp) as Hin. in_list Hin; [split; reflexivity|lia]. Qed.
Lemma sample_l3_entry i e : entry_of sample_ram 0x5000 i = Some e -> present e = true -> i = 0%nat /\ e = 0x6007.
Proof. intros He Hp. pose proof (sample_step 0x5000 _ i e ltac:(in_tables) He Hp) as Hin. in_list Hin. split; reflexivity. Qed.
Lemma sample_l2_entry i e : entry_of sample_ram 0x6000 i = Some e -> present e = true -> i = 0%nat /\ e = 0x7007.
Proof. intros He Hp. pose proof (sample_step 0x6000 _ i e ltac:(in_tables) He Hp) as Hin. in_list Hin. split; reflexivity. Qed.
Lemma sample_l1_entry i e : entry_of sample_ram 0x7000 i = Some e -> present e = true ->
  i = 0%nat /\ e = PAGE_W + 7 \/ i = 1%nat /\ e = PAGE_R + 5.
Proof. intros He Hp. pose proof (sample_step 0x7000 _ i e ltac:(in_tables) He Hp) as Hin. in_list Hin; [left|right]; split; reflexivity. Qed.

Lemma sample_reach p x : (length p < 3)%nat -> reach sample_ram 0x5000 p = Some x ->
  p = [] /\ x = 0x5000 \/ p = [0%nat] /\ x = 0x6000 \/ p = [0%nat; 0%nat] /\ x = 0x7000.
Proof.
  intros Hp Hx. destruct p as [|i p]; [injection Hx as <-; left; split; reflexivity|]. apply reach_cons in Hx as (e & He & Hl & Hx).
  destruct (sample_l3_entry i e He (present_links e Hl)) as [-> ->]. change (pte_addr 0x6007) with 0x6000 in Hx.
  destruct p as [|j p]; [injection Hx as <-; right; left; split; reflexivity|]. apply reach_cons in Hx as (d & Hd & Hld & Hx).
  destruct (sample_l2_entry j d Hd (present_links d Hld)) as [-> ->]. change (pte_addr 0x7007) with 0x7000 in Hx.
  destruct p as [|k p]; [injection Hx as <-; right; right; split; reflexivity|]. cbn in Hp. lia.
Qed.
Lemma sample_owns x : owns sample_ram 3 0x5000 x -> x ∈ [0x5000; 0x6000; 0x7000].
Proof. intros (p & Hp & Hx). rewrite !elem_of_cons. destruct (sample_reach p x Hp Hx) as [[_ ->]|[[_ ->]|[_ ->]]]; tauto. Qed.
Lemma sample_held x : x ∈ [0x5000; 0x6000; 0x7000; PAGE_W; PAGE_R] -> held sample_mem sample_K x /\ 0 <= x < 2 ^ 47 /\ is_table_frame sample_ram x.
Proof.
  intros Hx. destruct (sample_frames_1 x) as [Hf Hu]; [rewrite !elem_of_cons in *; tauto|]. split; [|split; [|by apply sample_frame]].
  - split; [exact Hu|]. rewrite !elem_of_cons, elem_of_nil in Hx. repeat destruct Hx as [->|Hx]; [..|contradiction]; (split; [decided|discriminate]).
  - rewrite !elem_of_cons, elem_of_nil in Hx. unfold PAGE_W, PAGE_R in Hx. lia.
Qed.
Lemma sample_user_tables : user_tables sample_mem sample_K (cr3_reg sample_mem).
Proof.
  change (cr3_reg sample_mem) with ROOT. split; cbn [ram sample_mem].
  - intros i e Hi He Hp. destruct (sample_root_entry i e Hi He Hp) as [-> ->]. split; [reflexivity|]. change (pte_addr 0x5007) with 0x5000. split; cbn [ram sample_mem].
    + intros x Hx%sample_owns. apply sample_held. rewrite !elem_of_cons in *. tauto.
    + intros p q x Hp' Hq' Hx Hx'. apply sample_reach in Hx, Hx'; [|done..].
      destruct Hx as [[-> ->]|[[-> ->]|[-> ->]]], Hx' as [[-> ?]|[[-> ?]|[-> ?]]]; (reflexivity || discriminate).
  - intros i j e d x Hi Hj He Hle Hd Hld _ _. destruct (sample_root_entry i e Hi He (present_links e Hle)) as [-> _].
    destruct (sample_root_entry j d Hj Hd (present_links d Hld)) as [-> _]. reflexivity.
Qed.
Lemma sample_leaf p e : sub_leaves sample_ram 3 ROOT user_half p e -> p = [0; 0; 0; 0]%nat /\ e = PAGE_W + 7 \/ p = [0; 0; 0; 1]%nat /\ e = PAGE_R + 5.
Proof.
  intros (i & r & -> & Hi & Hlen & Hw & Hl). apply elem_of_seq in Hi. destruct r as [|b [|c [|d [|? ?]]]]; try discriminate Hlen.
  destruct (walk4 _ _ _ _ _ _ _ Hw) as (e4 & e3 & e2 & H4 & L4 & H3 & L3 & H2 & L2 & H1 & P1).
  destruct (sample_root_entry i e4 ltac:(lia) H4 (present_links e4 L4)) as [-> ->]. change (pte_addr 0x5007) with 0x5000 in H3.
  destruct (sample_l3_entry b e3 H3 (present_links e3 L3)) as [-> ->]. change (pte_addr 0x6007) with 0x6000 in H2.
  destruct (sample_l2_entry c e2 H2 (present_links e2 L2)) as [-> ->]. change (pte_addr 0x7007) with 0x7000 in H1.
  destruct (sample_l1_entry d e H1 P1) as [[-> ->]|[-> ->]]; [left|right]; split; reflexivity.
Qed.
Lemma sample_not_table x : x ∈ [PAGE_W; PAGE_R] -> ~ user_table sample_ram ROOT x.
Proof.
  intros Hx (i & e & Hi & He & Hl & Ho). destruct (sample_root_entry i e Hi He (present_links e Hl)) as [-> ->].
  change (pte_addr 0x5007) with 0x5000 in Ho. apply sample_owns in Ho. rewrite !elem_of_cons, elem_of_nil in Hx. rewrite !elem_of_cons, elem_of_nil in Ho. unfold PAGE_W, PAGE_R in Hx. lia.
Qed.
Lemma sample_pages_ok : pages_ok sample_mem sample_K.
Proof.
  split; change (cr3_reg sample_mem) with ROOT; cbn [ram sample_mem].
  - intros p e Hp. assert (pte_addr e ∈ [PAGE_W; PAGE_R] /\ manages sample_mem (pte_addr e) = true /\ pte_addr e mod PAGE_4K = 0) as (Hin & Hman & Hal).
    { destruct (sample_leaf p e Hp) as [[_ ->]|[_ ->]]; (split; [decided|split; reflexivity]). }
    destruct (sample_held (pte_addr e)) as (Hh & Hr & Hf); [rewrite !elem_of_cons in *; tauto|]. split; [|split; [exact Hh|by apply sample_not_table]].
    split; [exact Hman|]. split; [exact Hf|]. split; [exact Hr|exact Hal].
  - intros p q e d Hp Hq Heq. destruct (sample_leaf p e Hp) as [[-> ->]|[-> ->]], (sample_leaf q d Hq) as [[-> ->]|[-> ->]]; (reflexivity || discriminate Heq).
Qed.

(** ** The theorems at this machine *)
Definition sample_fork : outcome unit Z * Mem := clone_address_space sample_mem.
Definition sample_forked : Mem := sample_fork.2.
Definition CHILD : Z := 0xA000.
Lemma sample_fork_ok : clone_address_space sample_mem = (Ok CHILD, sample_forked).
Proof.
  assert (sample_fork.1 = Ok CHILD) as H1 by (vm_compute; reflexivity). unfold sample_forked. fold sample_fork. rewrite <-H1.
  apply surjective_pairing.
Qed.
#[local] Opaque sample_forked sample_fork clone_address_space teardown_address_space.
Lemma sample_walk_w : walk sample_ram ROOT [0; 0; 0; 0]%nat = Some (O, PAGE_W + 7).
Proof.
  rewrite (walk_link _ _ _ _ 0x5007); [|sample_at ROOT|reflexivity|discriminate]. rewrite (walk_link _ _ _ _ 0x6007); [|sample_at 0x5000|reflexivity|discriminate].
  rewrite (walk_link _ _ _ _ 0x7007); [|sample_at 0x6000|reflexivity|discriminate]. apply walk_leaf; [sample_at 0x7000|reflexivity].
Qed.
Lemma sample_walk_r : walk sample_ram ROOT [0; 0; 0; 1]%nat = Some (O, PAGE_R + 5).
Proof.
  rewrite (walk_link _ _ _ _ 0x5007); [|sample_at ROOT|reflexivity|discriminate]. rewrite (walk_link _ _ _ _ 0x6007); [|sample_at 0x5000|reflexivity|discriminate].
  rewrite (walk_link _ _ _ _ 0x7007); [|sample_at 0x6000|reflexivity|discriminate]. apply walk_leaf; [sample_at 0x7000|reflexivity].
Qed.
Lemma sample_own_page : own_page sample_mem sample_K 0 (PAGE_W + 7) (table_of [(0%nat, 42)]).
Proof.
  destruct (sample_held PAGE_W) as (Hh & Hr & Hf); [decided|]. split; change (pte_addr (PAGE_W + 7)) with PAGE_W; cbn [ram cr3_reg sample_mem].
  - lia.
  - change (index_of 4 0 < 256)%nat. change (index_of 4 0) with 0%nat. lia.
  - exact sample_walk_w.
  - reflexivity.
  - split; [exact Hh|exact Hr].
  - split; [apply sample_table; in_tables|apply table_of_length].
  - apply sample_not_table. decided.
  - reflexivity.
Qed.

Lemma fork_clones_address_space_witness :
  exists s', clone_address_space sample_mem = (Ok CHILD, s') /\
    walk (ram s') CHILD [0; 0; 0; 0]%nat = Some (O, cow_e (PAGE_W + 7)) /\ walk (ram s') ROOT [0; 0; 0; 0]%nat = Some (O, cow_e (PAGE_W + 7)).
Proof.
  destruct (fork_clones_address_space 0x2000 sample_mem sample_K sample_kernel_ok sample_user_tables (pages_single _ _ sample_pages_ok))
    as (r & s' & Hrun & _ & _ & Hr).
  rewrite sample_fork_ok in Hrun. apply pair_equal_spec in Hrun as [<- <-]. exists sample_forked. split; [exact sample_fork_ok|].
  destruct Hr as (Hw & _). destruct (Hw 0%nat [0; 0; 0]%nat ltac:(lia) eq_refl) as [H1 H2]. cbn [ram cr3_reg sample_mem] in H1, H2.
  rewrite sample_walk_w in H1, H2. split; [exact H2|exact H1].
Defined.
Lemma fork_isolates_witness :
  exists s1, clone_address_space sample_mem = (Ok CHILD, s1) /\ reads (ram s1) CHILD 0 = Some (table_of [(0%nat, 42)]) /\
    reads (ram s1) ROOT 0 = Some (table_of [(0%nat, 42)]) /\
    exists ok s2, handle_cow_fault (E := unit) 0 (with_cr3 s1 CHILD) = (Ok ok, s2).
Proof.
  exists sample_forked. split; [exact sample_fork_ok|].
  destruct (fork_isolates (E := unit) (F := unit) 0x2000 sample_mem sample_K CHILD sample_forked 0 (PAGE_W + 7) (table_of [(0%nat, 42)])
    (replicate 512 1) (replicate 512 2) true sample_kernel_ok sample_user_tables (pages_single _ _ sample_pages_ok) sample_own_page sample_fork_ok
    (length_replicate 512 1) (length_replicate 512 2)) as (H1 & H2 & ok & s2 & Hrun & _).
  split; [exact H1|]. split; [exact H2|]. exists ok, s2. exact Hrun.
Defined.
Lemma child_exit_keeps_parent_witness :
  exists s2, teardown_address_space CHILD sample_forked = (Ok tt, s2) /\ free s2 ROOT = false /\ free s2 PAGE_W = false /\ refcount_get s2 PAGE_W = 1.
Proof.
  destruct (child_exit_keeps_parent 0x2000 sample_mem sample_K CHILD sample_forked sample_kernel_ok sample_user_tables sample_pages_ok sample_fork_ok)
    as (s2 & Hrun & _ & Hroot & _ & _ & Hp).
  exists s2. split; [exact Hrun|]. split; [exact Hroot|]. apply (Hp [0; 0; 0; 0]%nat (PAGE_W + 7)); [|reflexivity|reflexivity].
  exists 0%nat, [0; 0; 0]%nat. split; [reflexivity|]. split; [apply elem_of_seq; lia|]. split; [reflexivity|]. split; [exact sample_walk_w|reflexivity].
Defined.
Lemma child_exit_frees_read_only_witness :
  exists s2, teardown_address_space CHILD sample_forked = (Ok tt, s2) /\ free s2 PAGE_R = true /\ walk (ram s2) ROOT [0; 0; 0; 1]%nat = Some (O, PAGE_R + 5).
Proof.
  assert (indices 0x1000 = [0; 0; 0; 1]%nat) as Hidx by reflexivity. rewrite <-Hidx.
  apply (child_exit_frees_read_only 0x2000 sample_mem sample_K CHILD sample_forked 0x1000 (PAGE_R + 5)
    sample_kernel_ok sample_user_tables sample_pages_ok sample_fork_ok).
  - change (table_index 4 0x1000) with 0%nat. lia.
  - rewrite Hidx. exact sample_walk_r.
  - reflexivity.
  - reflexivity.
  - reflexivity.
Defined.

(** *** Mapping a page *)
Definition SCRATCH_0 : Z := scratch_addr 0.
Lemma sample_scratch_used t : t ∈ visited (ram sample_mem) (cr3_reg sample_mem) (indices SCRATCH_0) -> free sample_mem t = false.
Proof.
  unfold SCRATCH_0. rewrite scratch_indices by lia. change (ram sample_mem) with sample_ram. change (cr3_reg sample_mem) with ROOT.
  rewrite (proj1 (sample_scratch 0)). intros Ht. apply sample_frames_1. rewrite !elem_of_cons in *. tauto.
Qed.
Lemma kalloc_page_maps_witness :
  exists r s', kalloc_page SCRATCH_0 Arbitrary sample_mem = (r, s') /\ mapped_new sample_mem (indices SCRATCH_0) KERNEL_PAGE r s'.
Proof.
  destruct (scratch_range 0 ltac:(lia)) as (Hr & Hal & _).
  destruct (kalloc_page_maps sample_mem SCRATCH_0 sample_mem_ok Hr Hal) as (r & s' & Hrun & _ & _ & Hm & _).
  - unfold SCRATCH_0. rewrite scratch_indices by lia. apply sample_ready. lia.
  - unfold SCRATCH_0. rewrite scratch_indices by lia. apply sample_scratch_walk.
  - exact sample_scratch_used.
  - exists r, s'. split; [exact Hrun|exact Hm].
Defined.
Definition sample_kalloc : outcome MapErr Z * Mem := kalloc_page SCRATCH_0 Arbitrary sample_mem.
Lemma sample_kalloc_ok : kalloc_page SCRATCH_0 Arbitrary sample_mem = (Ok CHILD, sample_kalloc.2).
Proof. assert (sample_kalloc.1 = Ok CHILD) as H1 by (vm_compute; reflexivity). fold sample_kalloc. rewrite <-H1. apply surjective_pairing. Qed.
#[local] Opaque sample_kalloc.
Lemma kalloc_kfree_witness :
  exists s2, kfree_page SCRATCH_0 Arbitrary sample_kalloc.2 = (Ok tt, s2) /\ walk (ram s2) (cr3_reg s2) (indices SCRATCH_0) = None.
Proof.
  destruct (scratch_range 0 ltac:(lia)) as (Hr & Hal & _).
  destruct (kalloc_kfree sample_mem SCRATCH_0 CHILD sample_kalloc.2 sample_mem_ok Hr Hal) as (s2 & Hrun & _ & Hw & _).
  - unfold SCRATCH_0. rewrite scratch_indices by lia. apply sample_ready. lia.
  - unfold SCRATCH_0. rewrite scratch_indices by lia. apply sample_scratch_walk.
  - exact sample_scratch_used.
  - exact sample_kalloc_ok.
  - exists s2. split; [exact Hrun|exact Hw].
Defined.

(** *** A second fork *)

(** The parent forks twice and the first child and then the parent write to the page.  The
    second fork has not counted its reference, so that the parent believes to be alone with the
    page, and the second child reads what the parent wrote. *)
Definition after_second_fork : outcome unit Z * Mem := clone_address_space sample_forked.
Definition after_both_writes (s : Mem) : Mem :=
  let s1 := (handle_cow_fault (E := unit) 0 (with_cr3 s CHILD)).2 in
  let s2 := (handle_cow_fault (E := unit) 0 (with_cr3 s1 ROOT)).2 in
  write s2 PAGE_W (replicate 512 7).
Definition first_word (m : Ram) (root a : Z) : option Z := reads m root a ≫= (fun ws => ws !! 0%nat).
Example second_fork_write_visible :
  let '(r, s) := after_second_fork in
  match r with
  | Ok child2 => refcount_get s PAGE_W = 2 /\ child2 <> CHILD /\ first_word (ram s) child2 0 = Some 42 /\
      first_word (ram (after_both_writes s)) CHILD 0 = Some 42 /\
      first_word (ram (after_both_writes s)) ROOT 0 = Some 7 /\ first_word (ram (after_both_writes s)) child2 0 = Some 7
  | _ => False
  end.
Proof. vm_compute. repeat split. discriminate. Qed.

(** A fork that finds no memory for the last table leaves the tables it made taken: with twelve
    pages, three of them are lost although no address space has them. *)
Definition small_mem : Mem := mkMem (Some [mkNode HIGHER_HALF_BASE [2 ^ 12 - 2 ^ 9] 0x1000 0x40000]) sample_ram ROOT ∅ 0 0.
Example failed_fork_loses_tables :
  let '(r, s) := clone_address_space small_mem in
  r = Err tt /\ forallb (fun p => negb (free s p)) sample_frames = true /\
  length (filter (fun p => free small_mem p = true) sample_frames) = 3%nat.
Proof. vm_compute. repeat split. Qed.
