(* ===== verification/Slab.v ===== *)
(** * The kernel heap (zenos-kernel/src/memory/alloc.rs)

    Slabs of equal blocks for small requests, with the list of free blocks kept in the blocks'
    headers, and a second allocator for large ones. *)
From S2P Require Import Prelude PageAlloc Paging.

Definition PAGE_SIZE : Z := PAGE_4K.
Definition MAX_SLAB_PAGES : nat := 15.
Definition SLAB_SIZE_CLASSES : list Z := [8; 16; 32; 64; 128; 256; 512; 1024; 2048; 4096].
Definition MAX_SLABS : nat := 32.
Definition MAGIC : Z := Z.lor (Z.shiftl 0x16042010 1) 1.

(** ** Data *)
Record BlockMeta := mkBlockMeta { next : option Z; prev : option Z; bm_used : bool }.
Definition BlockMeta_new : BlockMeta := mkBlockMeta None None false.
Record SlabMeta := mkSlabMeta { sm_size : Z; sm_used : Z; sm_total : Z; magic_number : Z }.
Definition SlabMeta_new (size total : Z) : SlabMeta := mkSlabMeta size 0 total MAGIC.
(** [size_of] of the two headers: they are aligned to 16 bytes. *)
Definition size_of_BlockMeta : Z := 32.
Definition size_of_SlabMeta : Z := 32.
Definition SLAB_BYTES : Z := Z.of_nat MAX_SLAB_PAGES * PAGE_SIZE.

Definition is_full (m : SlabMeta) : bool := sm_total m <=? sm_used m.
Definition meta_allocate {E} (m : SlabMeta) : outcome E (option Z * SlabMeta) :=
  if is_full m then Ok (None, m)
  else u ← uadd 64 (sm_used m) 1; Ok (Some (sm_used m), mkSlabMeta (sm_size m) u (sm_total m) (magic_number m)).
Definition meta_deallocate {E} (m : SlabMeta) : outcome E SlabMeta :=
  let m := if 0 <? sm_used m then mkSlabMeta (sm_size m) (sm_used m - 1) (sm_total m) (magic_number m) else m in
  if sm_used m <=? sm_total m then Ok m else Panic.

Record Slab := mkSlab { base_addr : Z; slab_size : Z; head : option Z }.
Definition with_head (s : Slab) (h : option Z) : Slab := mkSlab (base_addr s) (slab_size s) h.
(** [heapless::Vec] holds at most [MAX_SLABS] elements. *)
Record SlabAllocator := mkSlabs { slabs : list Slab; next_base : Z; freed_slots : list Z }.
Definition SlabAllocator_new : SlabAllocator := mkSlabs [] SLAB_BASE_ADDR [].

Record Layout := mkLayout { size : Z; align : Z }.

(** The machine: page tables and allocator, and the headers in the mapped slabs. *)
Record Heap := mkHeap {
  pages : Mem;
  block_metas : gmap Z BlockMeta;
  slab_metas : gmap Z SlabMeta;
  slab_allocator : SlabAllocator;
}.
Definition with_pages (h : Heap) (m : Mem) : Heap := mkHeap m (block_metas h) (slab_metas h) (slab_allocator h).
Definition with_blocks (h : Heap) (b : gmap Z BlockMeta) : Heap := mkHeap (pages h) b (slab_metas h) (slab_allocator h).
Definition with_slab_metas (h : Heap) (b : gmap Z SlabMeta) : Heap := mkHeap (pages h) (block_metas h) b (slab_allocator h).
Definition with_slabs (h : Heap) (a : SlabAllocator) : Heap := mkHeap (pages h) (block_metas h) (slab_metas h) a.

(** Access to a header; without one mapped there the access faults. *)
Definition block_at {E} (p : Z) : st Heap E BlockMeta := h ← st_get; st_lift (unwrap (block_metas h !! p)).
Definition put_block {E} (p : Z) (b : BlockMeta) : st Heap E unit :=
  h ← st_get; st_put (with_blocks h (<[p := b]> (block_metas h))).
Definition slab_meta_at {E} (p : Z) : st Heap E SlabMeta := h ← st_get; st_lift (unwrap (slab_metas h !! p)).
Definition put_slab_meta {E} (p : Z) (m : SlabMeta) : st Heap E unit :=
  h ← st_get; st_put (with_slab_metas h (<[p := m]> (slab_metas h))).

Section Ops.
Context `{Paging}.

(** ** Slabs *)
Fixpoint slab_pages {E} (page : Z -> st Mem MapErr unit) (base : Z) (idx : list nat) : st Mem E unit :=
  match idx with
  | [] => mret tt
  | j :: idx =>
      o ← st_lift (umul 64 (Z.of_nat j) PAGE_SIZE);
      page_addr ← st_lift (uadd 64 base o);
      v ← st_lift (unwrap (VirtAddr_new page_addr));
      r ← attempt (page v);
      match r with
      | inl _ => st_lift Panic
      | inr _ => slab_pages page base idx
      end
  end.
Definition map_slab {E} : Z -> st Mem E unit := fun base =>
  slab_pages (fun v => _ ← kalloc_page v Arbitrary; mret tt) base (seq 0 MAX_SLAB_PAGES).
Definition unmap_slab {E} : Z -> st Mem E unit := fun base =>
  slab_pages (fun v => kfree_page v Arbitrary) base (seq 0 MAX_SLAB_PAGES).
Definition on_pages {E A} (m : st Mem E A) : st Heap E A := fun h =>
  let '(r, p) := m (pages h) in (r, with_pages h p).

Definition blocks_of (slab_size : Z) : Z := (SLAB_BYTES - size_of_SlabMeta) / (size_of_BlockMeta + slab_size).
Definition block_addr (base slab_size : Z) (i : nat) : Z :=
  base + size_of_SlabMeta + Z.of_nat i * (size_of_BlockMeta + slab_size).

Fixpoint init_blocks {E} (base slab_size : Z) (idx : list nat) (hd prv : option Z) : st Heap E (option Z) :=
  match idx with
  | [] => mret hd
  | i :: idx =>
      let bm := block_addr base slab_size i in
      _ ← put_block bm BlockMeta_new;
      hd ← match prv with
           | Some p =>
               b ← block_at p;
               _ ← put_block p (mkBlockMeta (Some bm) (prev b) (bm_used b));
               c ← block_at bm;
               _ ← put_block bm (mkBlockMeta (next c) (Some p) (bm_used c));
               mret hd
           | None => mret (Some bm)
           end;
      init_blocks base slab_size idx hd (Some bm)
  end.
Definition Slab_new {E} (base slab_size : Z) (meta : SlabMeta) : st Heap E Slab :=
  _ ← on_pages (map_slab base);
  _ ← put_slab_meta base meta;
  let actual_blocks := blocks_of slab_size in
  _ ← (if actual_blocks <? sm_total meta
       then put_slab_meta base (mkSlabMeta (sm_size meta) (sm_used meta) actual_blocks (magic_number meta)) else mret tt);
  hd ← init_blocks base slab_size (seq 0 (Z.to_nat actual_blocks)) None None;
  mret (mkSlab base slab_size hd).

Definition used_blocks {E} (s : Slab) : st Heap E Z := m ← slab_meta_at (base_addr s); mret (sm_used m).

(** The headers of the slab are gone with its pages. *)
Definition outside (base p : Z) : bool := (p <? base) || (base + SLAB_BYTES <=? p).
Definition Slab_free {E} (s : Slab) : st Heap E unit :=
  _ ← on_pages (unmap_slab (base_addr s));
  h ← st_get;
  st_put (mkHeap (pages h) (filter (fun '(p, _) => outside (base_addr s) p = true) (block_metas h))
            (filter (fun '(p, _) => outside (base_addr s) p = true) (slab_metas h)) (slab_allocator h)).

(** The result is a pointer, null if there is no block. *)
Definition Slab_alloc {E} (s : Slab) : st Heap E (Z * Slab) :=
  m ← slab_meta_at (base_addr s);
  if negb (magic_number m =? MAGIC) then mret (0, s)
  else if is_full m then mret (0, s)
  else match head s with
       | None => mret (0, s)
       | Some nn =>
           b ← block_at nn;
           _ ← match next b with
               | Some nxt => c ← block_at nxt; put_block nxt (mkBlockMeta (next c) None (bm_used c))
               | None => mret tt
               end;
           '(_, m) ← st_lift (meta_allocate m);
           _ ← put_slab_meta (base_addr s) m;
           c ← block_at nn;
           _ ← put_block nn (mkBlockMeta (next c) (prev c) true);
           mret (nn + size_of_BlockMeta, with_head s (next b))
       end.

Definition Slab_dealloc {E} (s : Slab) (ptr : Z) : st Heap E Slab :=
  m ← slab_meta_at (base_addr s);
  if negb (magic_number m =? MAGIC) || (sm_used m =? 0) || (ptr =? 0) then mret s
  else
    let bm := wrap 64 (ptr - size_of_BlockMeta) in
    _ ← st_lift (if bm =? 0 then Panic else Ok tt);
    _ ← block_at bm;
    _ ← put_block bm (mkBlockMeta (head s) None false);
    _ ← match head s with
        | Some old_head => c ← block_at old_head; put_block old_head (mkBlockMeta (next c) (Some bm) (bm_used c))
        | None => mret tt
        end;
    m ← st_lift (meta_deallocate m);
    _ ← put_slab_meta (base_addr s) m;
    mret (with_head s (Some bm)).

(** ** The allocator of small blocks *)
Definition put_slab {E} (i : nat) (s : Slab) : st Heap E unit :=
  h ← st_get; let a := slab_allocator h in
  st_put (with_slabs h (mkSlabs (<[i := s]> (slabs a)) (next_base a) (freed_slots a))).
Definition class_for (size align : Z) : option Z := find (fun s => (size <=? s) && (align <=? s)) SLAB_SIZE_CLASSES.

(** [freed_slots.pop()], or the next address. *)
Definition take_base {E} : st Heap E Z :=
  h ← st_get; let a := slab_allocator h in
  match last (freed_slots a) with
  | Some recycled_addr =>
      _ ← st_put (with_slabs h (mkSlabs (slabs a) (next_base a) (removelast (freed_slots a))));
      mret recycled_addr
  | None =>
      _ ← st_put (with_slabs h (mkSlabs (slabs a) (wrap 64 (next_base a + SLAB_BYTES)) (freed_slots a)));
      mret (next_base a)
  end.
Definition add_slab {E} (slab_size : Z) : st Heap E Z :=
  base ← take_base;
  new_slab ← Slab_new base slab_size (SlabMeta_new slab_size (blocks_of slab_size));
  '(ptr, new_slab) ← Slab_alloc new_slab;
  if ptr =? 0 then mret 0
  else
    h ← st_get; let a := slab_allocator h in
    if Nat.ltb (length (slabs a)) MAX_SLABS
    then _ ← st_put (with_slabs h (mkSlabs (slabs a ++ [new_slab]) (next_base a) (freed_slots a))); mret ptr
    else st_lift Panic.
Definition slab_alloc {E} (layout : Layout) : st Heap E Z :=
  if size layout =? 0 then mret 0
  else if 4096 <? size layout then mret 0
  else match class_for (size layout) (align layout) with
       | None => mret 0
       | Some c =>
           h ← st_get;
           match position (fun s => slab_size s =? c) (slabs (slab_allocator h)) with
           | Some i =>
               s ← st_lift (unwrap (slabs (slab_allocator h) !! i));
               '(ptr, s) ← Slab_alloc s;
               _ ← put_slab i s;
               if negb (ptr =? 0) then mret ptr else add_slab c
           | None => add_slab c
           end
       end.

Definition slab_dealloc {E} (ptr : Z) (layout : Layout) : st Heap E unit :=
  if ptr =? 0 then mret tt
  else match find (fun s => size layout <=? s) SLAB_SIZE_CLASSES with
       | None => mret tt
       | Some c =>
           h ← st_get;
           match position (fun s => slab_size s =? c) (slabs (slab_allocator h)) with
           | None => mret tt
           | Some index =>
               s ← st_lift (unwrap (slabs (slab_allocator h) !! index));
               s ← Slab_dealloc s ptr;
               _ ← put_slab index s;
               used ← used_blocks s;
               if used =? 0 then
                 h ← st_get; let a := slab_allocator h in
                 _ ← st_put (with_slabs h (mkSlabs (swap_remove index (slabs a)) (next_base a) (freed_slots a)));
                 _ ← Slab_free s;
                 h ← st_get; let a := slab_allocator h in
                 if Nat.ltb (length (freed_slots a)) MAX_SLABS
                 then st_put (with_slabs h (mkSlabs (slabs a) (next_base a) (freed_slots a ++ [base_addr s])))
                 else mret tt
               else mret tt
           end
       end.
End Ops.

(** ** The global allocator *)

(** The heap of the linked_list_allocator crate. *)
Class LargeHeap (L : Type) := {
  large_init : Z -> Z -> L;
  allocate_first_fit : Layout -> L -> option Z * L;
  large_deallocate : Z -> Layout -> L -> L;
}.
Section Global.
Context `{Paging} `{LargeHeap L}.
Definition on_slabs {E A} (m : st Heap E A) : st (Heap * L) E A := fun '(h, l) => let '(r, h) := m h in (r, (h, l)).
Definition first_fit {E} (layout : Layout) : st (Heap * L) E Z := fun '(h, l) =>
  let '(p, l) := allocate_first_fit layout l in (Ok (default 0 p), (h, l)).
Definition global_alloc {E} (layout : Layout) : st (Heap * L) E Z :=
  if 4096 <? size layout then first_fit layout
  else ptr ← on_slabs (slab_alloc layout); if ptr =? 0 then first_fit layout else mret ptr.
Definition global_dealloc {E} (ptr : Z) (layout : Layout) : st (Heap * L) E unit :=
  if 4096 <? size layout then
    fun '(h, l) => (Ok tt, (h, if ptr =? 0 then l else large_deallocate ptr layout l))
  else on_slabs (slab_dealloc ptr layout).

Fixpoint map_each {E} (n : nat) (addr : Z) : st Heap E unit :=
  match n with
  | O => mret tt
  | S n =>
      v ← st_lift (unwrap (VirtAddr_new addr));
      r ← attempt (on_pages (kalloc_page v Arbitrary));
      match r with
      | inl _ => st_lift Panic
      | inr _ => addr ← st_lift (uadd 64 addr PAGE_4K); map_each n addr
      end
  end.
Definition heap_init {E} : st (Heap * L) E unit :=
  _ ← on_slabs (map_each (Z.to_nat (PAGE_2M * 10 / PAGE_4K)) LARGE_ALLOC_BASE_ADDR);
  hl ← st_get; st_put (hl.1, large_init LARGE_ALLOC_BASE_ADDR (PAGE_2M * 10)).
End Global.
