(* ===== verification/SlabProof.v ===== *)
(** * Correctness of the kernel heap

    As long as no size class outgrows its first slab, the blocks handed out are pairwise
    disjoint and lie in mapped slabs, and a block is found. *)
From S2P Require Import Prelude PageAlloc Paging Slab.

(** ** Blocks *)
Definition blocks (base c : Z) : list Z := block_addr base c <$> seq 0 (Z.to_nat (blocks_of c)).

Lemma class_bounds c : c ∈ SLAB_SIZE_CLASSES ->
  8 <= c <= 4096 /\ 14 <= blocks_of c /\ 32 + blocks_of c * (32 + c) <= SLAB_BYTES.
Proof.
  unfold SLAB_SIZE_CLASSES. rewrite !elem_of_cons, elem_of_nil. intros Hc.
  repeat destruct Hc as [->|Hc]; [..|done]; vm_compute; repeat split; congruence.
Qed.
Lemma block_addr_inj base c i j : 0 <= c -> block_addr base c i = block_addr base c j -> i = j.
Proof. unfold block_addr, size_of_BlockMeta. intros Hc Heq. nia. Qed.
Lemma blocks_nodup base c : 0 <= c -> NoDup (blocks base c).
Proof. intros Hc. apply NoDup_fmap_2_strong; [|apply NoDup_seq]. intros i j _ _ Heq. by apply (block_addr_inj base c). Qed.
Lemma blocks_length base c : Z.of_nat (length (blocks base c)) = Z.max 0 (blocks_of c).
Proof. unfold blocks. rewrite length_fmap, length_seq. lia. Qed.
Lemma block_in base c x : x ∈ blocks base c <-> exists i, (i < Z.to_nat (blocks_of c))%nat /\ x = block_addr base c i.
Proof. unfold blocks. rewrite list_elem_of_fmap. setoid_rewrite elem_of_seq. split; intros (i & ? & ?); exists i; (split; [lia || done|done || lia]). Qed.
Lemma block_range base c x : c ∈ SLAB_SIZE_CLASSES -> x ∈ blocks base c -> base + 32 <= x /\ x + 32 + c <= base + SLAB_BYTES.
Proof.
  intros Hc (i & Hi & ->)%block_in. destruct (class_bounds c Hc) as (H1 & H2 & H3). unfold block_addr, size_of_SlabMeta, size_of_BlockMeta. nia.
Qed.
(** Two blocks of a slab do not overlap. *)
Lemma blocks_apart base c x y : 0 <= c -> x ∈ blocks base c -> y ∈ blocks base c -> x <> y -> x + 32 + c <= y \/ y + 32 + c <= x.
Proof.
  intros Hc (i & Hi & ->)%block_in (j & Hj & ->)%block_in Hne. unfold block_addr, size_of_SlabMeta, size_of_BlockMeta in *.
  destruct (decide (i < j)%nat); [left; nia|]. destruct (decide (j < i)%nat); [right; nia|]. assert (i = j) by lia. congruence.
Qed.

(** The free blocks, from the head along the links. *)
Fixpoint chain (m : gmap Z BlockMeta) (hd : option Z) (l : list Z) : Prop :=
  match l with
  | [] => hd = None
  | x :: l => hd = Some x /\ exists b, m !! x = Some b /\ chain m (next b) l
  end.
Lemma chain_ext m m' hd l :
  (forall x b, x ∈ l -> m !! x = Some b -> exists b', m' !! x = Some b' /\ next b' = next b) -> chain m hd l -> chain m' hd l.
Proof.
  revert hd. induction l as [|x l IH]; intros hd Hm Hc; [done|]. destruct Hc as [-> (b & Hb & Hc)]. split; [done|].
  destruct (Hm x b) as (b' & Hb' & Hn); [by left|done|]. exists b'. split; [done|]. rewrite Hn. apply IH; [|done]. intros y c Hy. apply Hm. by right.
Qed.

(** ** A new slab *)
Definition linked (m : gmap Z BlockMeta) (base c : Z) (k : nat) : Prop :=
  forall j, (j < k)%nat -> exists b, m !! block_addr base c j = Some b /\
    next b = if decide (S j < k)%nat then Some (block_addr base c (S j)) else None.
Lemma linked_chain m base c k j n : linked m base c k -> (j + n = k)%nat -> (0 < n)%nat ->
  chain m (Some (block_addr base c j)) (block_addr base c <$> seq j n).
Proof.
  intros Hl. revert j. induction n as [|n IH]; intros j Hk Hn; [lia|]. cbn [seq fmap list_fmap chain]. split; [done|].
  destruct (Hl j) as (b & Hb & Hnx); [lia|]. exists b. split; [done|]. rewrite Hnx. destruct n as [|n].
  - by rewrite decide_False by lia.
  - rewrite decide_True by lia. apply IH; lia.
Qed.

Lemma init_blocks_ok {E} base c n : forall a h hd,
  0 <= c -> linked (block_metas h) base c a -> hd = match a with O => None | _ => Some (block_addr base c 0) end ->
  exists m', init_blocks (E := E) base c (seq a n) hd (match a with O => None | S a' => Some (block_addr base c a') end) h
      = (Ok (match (a + n)%nat with O => None | _ => Some (block_addr base c 0) end), with_blocks h m') /\
    linked m' base c (a + n) /\
    forall x, (forall i, (i < a + n)%nat -> x <> block_addr base c i) -> m' !! x = block_metas h !! x.
Proof.
  induction n as [|n IH]; intros a h hd Hc Hl Hhd; cbn [seq init_blocks].
  - exists (block_metas h). rewrite Nat.add_0_r. split; [subst hd; by destruct a, h|]. split; [done|]. done.
  - set (bm := block_addr base c a).
    assert (forall j, (j < a)%nat -> block_addr base c j <> bm) as Hne by (intros j Hj Heq; apply block_addr_inj in Heq; lia).
    destruct a as [|a].
    + set (h1 := with_blocks h (<[bm := BlockMeta_new]> (block_metas h))).
      destruct (IH 1%nat h1 (Some bm)) as (m' & Hrun & Hl' & Hoth); [done| |done|].
      { intros j Hj. assert (j = 0%nat) as -> by lia. exists BlockMeta_new. rewrite decide_False by lia. split; [|done]. cbn. by rewrite lookup_insert_eq. }
      exists m'. split; [exact Hrun|]. split; [done|]. intros x Hx. rewrite Hoth by done. cbn. rewrite lookup_insert_ne; [done|].
      intros Heq. by apply (Hx 0%nat); [lia|].
    + destruct (Hl a ltac:(lia)) as (b & Hb & Hnb). rewrite decide_False in Hnb by lia.
      set (p := block_addr base c a) in *. assert (p <> bm) as Hpb by (apply Hne; lia).
      set (m1 := <[bm := BlockMeta_new]> (block_metas h)).
      set (m2 := <[p := mkBlockMeta (Some bm) (prev b) (bm_used b)]> m1).
      set (m3 := <[bm := mkBlockMeta None (Some p) false]> m2).
      set (step := (_ ← put_block bm BlockMeta_new; _)).
      assert (step h = init_blocks (E := E) base c (seq (S (S a)) n) hd (Some bm) (with_blocks h m3)) as ->.
      { unfold step, put_block, block_at, mbind, st_bind, st_get, st_put, st_lift, mret, st_ret. cbn [block_metas with_blocks].
        rewrite lookup_insert_ne, Hb by done. cbn [unwrap block_metas with_blocks]. fold m1 m2.
        assert (m2 !! bm = Some BlockMeta_new) as -> by (unfold m2, m1; by rewrite lookup_insert_ne, lookup_insert_eq). done. }
      destruct (IH (S (S a)) (with_blocks h m3) hd Hc) as (m' & Hrun & Hl' & Hoth); [|done|].
      { intros j Hj. cbn [block_metas with_blocks]. destruct (decide (j = S a)) as [->|Hj1].
        - eexists. split; [unfold m3; apply lookup_insert_eq|]. by rewrite decide_False by lia.
        - unfold m3. rewrite lookup_insert_ne by (apply not_eq_sym, Hne; lia). destruct (decide (j = a)) as [->|Hj2].
          + eexists. split; [unfold m2; apply lookup_insert_eq|]. by rewrite decide_True by lia.
          + assert (block_addr base c j <> p) by (intros Heq; apply block_addr_inj in Heq; lia).
            unfold m2, m1. rewrite !lookup_insert_ne by (done || apply not_eq_sym, Hne; lia). destruct (Hl j) as (d & Hd & Hnd); [lia|].
            exists d. split; [done|]. rewrite Hnd, !decide_True by lia. done. }
      replace (S a + S n)%nat with (S (S a) + n)%nat by lia. exists m'. split; [exact Hrun|]. split; [done|].
      intros x Hx. rewrite Hoth by done. cbn [block_metas with_blocks]. unfold m3, m2, m1.
      rewrite !lookup_insert_ne; [done|..]; apply not_eq_sym; apply Hx; lia.
Qed.

Lemma block_at_eq {E} h p b : block_metas h !! p = Some b -> block_at (E := E) p h = (Ok b, h).
Proof. intros Hb. unfold block_at, mbind, st_bind, st_get, st_lift. by rewrite Hb. Qed.
Lemma put_block_eq {E} h p b : put_block (E := E) p b h = (Ok tt, with_blocks h (<[p := b]> (block_metas h))).
Proof. done. Qed.
Lemma slab_meta_at_eq {E} h p b : slab_metas h !! p = Some b -> slab_meta_at (E := E) p h = (Ok b, h).
Proof. intros Hb. unfold slab_meta_at, mbind, st_bind, st_get, st_lift. by rewrite Hb. Qed.
Lemma put_slab_meta_eq {E} h p b : put_slab_meta (E := E) p b h = (Ok tt, with_slab_metas h (<[p := b]> (slab_metas h))).
Proof. done. Qed.

(** ** The invariant of a slab *)

(** The blocks [taken] are handed out, the others are in the chain of free blocks. *)
Record slab_ok (h : Heap) (s : Slab) (taken : list Z) : Prop := {
  so_class : slab_size s ∈ SLAB_SIZE_CLASSES;
  so_base : 0 < base_addr s /\ base_addr s + SLAB_BYTES < 2 ^ 64;
  so_meta : slab_metas h !! base_addr s =
    Some (mkSlabMeta (slab_size s) (Z.of_nat (length taken)) (blocks_of (slab_size s)) MAGIC);
  so_blocks x : x ∈ blocks (base_addr s) (slab_size s) -> is_Some (block_metas h !! x);
  so_free : exists free, chain (block_metas h) (head s) free /\ free ++ taken ≡ₚ blocks (base_addr s) (slab_size s);
}.
(** Everything but the headers of the slab at [base] is as it was. *)
Record elsewhere (base : Z) (h h' : Heap) : Prop := {
  el_blocks x : ~ (base <= x < base + SLAB_BYTES) -> block_metas h' !! x = block_metas h !! x;
  el_metas x : ~ (base <= x < base + SLAB_BYTES) -> slab_metas h' !! x = slab_metas h !! x;
  el_slabs : slab_allocator h' = slab_allocator h;
}.
Lemma elsewhere_trans base h h1 h2 : elsewhere base h h1 -> elsewhere base h1 h2 -> elsewhere base h h2.
Proof. intros [A1 A2 A3] [B1 B2 B3]. split; [intros x Hx; by rewrite B1, A1|intros x Hx; by rewrite B2, A2|by rewrite B3]. Qed.
Lemma block_positive h s taken x : slab_ok h s taken -> x ∈ blocks (base_addr s) (slab_size s) ->
  base_addr s <= x < base_addr s + SLAB_BYTES /\ 0 < x < 2 ^ 64.
Proof. intros Hs Hx. destruct (block_range _ _ _ (so_class _ _ _ Hs) Hx), (so_base _ _ _ Hs), (class_bounds _ (so_class _ _ _ Hs)). lia. Qed.
(** A slab whose region is left alone stays in order. *)
Lemma slab_ok_elsewhere base h h' s taken :
  slab_ok h s taken -> elsewhere base h h' -> (base_addr s + SLAB_BYTES <= base \/ base + SLAB_BYTES <= base_addr s) -> slab_ok h' s taken.
Proof.
  intros Hs He Hd. assert (forall x, x ∈ blocks (base_addr s) (slab_size s) -> block_metas h' !! x = block_metas h !! x) as Hsame.
  { intros x Hx. apply (el_blocks _ _ _ He). pose proof (block_positive h s taken x Hs Hx). lia. }
  destruct Hs as [H1 H2 H3 H4 (free & Hch & Hp)]. split; try done.
  - rewrite (el_metas _ _ _ He); [done|]. assert (0 < SLAB_BYTES) by done. lia.
  - intros x Hx. rewrite Hsame by done. by apply H4.
  - exists free. split; [|done]. eapply chain_ext; [|exact Hch]. intros x b Hx Hb. exists b. split; [|done]. rewrite Hsame; [done|]. rewrite <-Hp. apply elem_of_app. by left.
Qed.

Lemma Slab_alloc_ok {E} h s taken :
  slab_ok h s taken -> Z.of_nat (length taken) < blocks_of (slab_size s) ->
  exists x s' h', Slab_alloc (E := E) s h = (Ok (x + 32, s'), h') /\ 0 < x /\ slab_ok h' s' (x :: taken) /\
    base_addr s' = base_addr s /\ slab_size s' = slab_size s /\ pages h' = pages h /\ elsewhere (base_addr s) h h'.
Proof.
  intros Hs Hlt. pose proof (so_base _ _ _ Hs) as Hb. destruct (so_free _ _ _ Hs) as (free & Hch & Hp).
  pose proof (Permutation_length Hp) as Hlen. rewrite length_app in Hlen. pose proof (blocks_length (base_addr s) (slab_size s)) as Hbl.
  destruct (class_bounds _ (so_class _ _ _ Hs)) as (Hc & Hn & Hfit). destruct free as [|x free]; [cbn in Hlen; lia|].
  destruct Hch as [Hhd (b & Hbx & Hch)]. assert (NoDup ((x :: free) ++ taken)) as Hnd by (rewrite Hp; apply blocks_nodup; lia).
  cbn in Hnd. apply NoDup_cons in Hnd as [Hxn Hnd].
  assert (x ∈ blocks (base_addr s) (slab_size s)) as Hxb by (rewrite <-Hp; by left).
  pose proof (block_positive _ _ _ _ Hs Hxb) as Hxr.
  (* the next block loses its back link *)
  assert (exists m1, (match next b with
     | Some nxt => c ← block_at nxt; put_block nxt (mkBlockMeta (next c) None (bm_used c))
     | None => mret tt end) h = (Ok (E := E) tt, with_blocks h m1) /\ m1 !! x = Some b /\
     (forall y d, block_metas h !! y = Some d -> exists d', m1 !! y = Some d' /\ next d' = next d) /\
     (forall y, ~ (base_addr s <= y < base_addr s + SLAB_BYTES) -> m1 !! y = block_metas h !! y)) as (m1 & Hm1 & Hx1 & Hn1 & Ho1).
  { destruct free as [|y free].
    - cbn in Hch. rewrite Hch. exists (block_metas h). split; [by destruct h|]. split; [done|]. split; [intros y d Hd; by exists d|done].
    - destruct Hch as [Hny (c & Hcy & Hch)]. rewrite Hny. exists (<[y := mkBlockMeta (next c) None (bm_used c)]> (block_metas h)).
      assert (x <> y) as Hxy by (intros ->; apply Hxn; by left).
      assert (base_addr s <= y < base_addr s + SLAB_BYTES) as Hyr.
      { apply (block_positive h s taken); [done|]. rewrite <-Hp. right. by left. }
      split; [by rewrite (st_bind_eq _ _ _ _ _ (block_at_eq _ _ _ Hcy))|]. split; [by rewrite lookup_insert_ne|]. split.
      + intros z d Hd. destruct (decide (z = y)) as [->|Hz]; [|exists d; by rewrite lookup_insert_ne]. rewrite Hcy in Hd. injection Hd as <-.
        eexists. split; [apply lookup_insert_eq|done].
      + intros z Hz. rewrite lookup_insert_ne; [done|]. intros ->. lia. }
  set (meta := mkSlabMeta (slab_size s) (Z.of_nat (length (x :: taken))) (blocks_of (slab_size s)) MAGIC).
  set (h' := with_blocks (with_slab_metas (with_blocks h m1) (<[base_addr s := meta]> (slab_metas h))) (<[x := mkBlockMeta (next b) (prev b) true]> m1)).
  assert (forall y d, block_metas h !! y = Some d -> exists d', block_metas h' !! y = Some d' /\ next d' = next d) as Hn'.
  { intros y d Hd. cbn. destruct (decide (y = x)) as [->|Hy]; [|rewrite lookup_insert_ne by done; by apply Hn1].
    rewrite Hbx in Hd. injection Hd as <-. eexists. split; [apply lookup_insert_eq|done]. }
  exists x, (with_head s (next b)), h'. split_and!.
  - unfold Slab_alloc. rewrite (st_bind_eq _ _ _ _ _ (slab_meta_at_eq _ _ _ (so_meta _ _ _ Hs))). cbn [magic_number].
    rewrite Z.eqb_refl. cbn [negb]. unfold is_full. cbn [sm_total sm_used]. rewrite (proj2 (Z.leb_gt _ _) Hlt), Hhd.
    rewrite (st_bind_eq _ _ _ _ _ (block_at_eq _ _ _ Hbx)), (st_bind_eq _ _ _ _ _ Hm1).
    unfold meta_allocate, is_full. cbn [sm_total sm_used sm_size magic_number]. rewrite (proj2 (Z.leb_gt _ _) Hlt).
    rewrite uadd_eq by (assert (SLAB_BYTES < 2 ^ 64) by done; nia). cbn [mbind outcome_bind]. rewrite st_lift_bind with (a := (Some (Z.of_nat (length taken)), meta)).
    2: { unfold meta. do 3 f_equal. cbn. lia. }
    rewrite (st_bind_eq _ _ _ _ _ (put_slab_meta_eq _ _ _)). erewrite (st_bind_eq (block_at x)) by (by apply block_at_eq).
    rewrite (st_bind_eq _ _ _ _ _ (put_block_eq _ _ _)). done.
  - lia.
  - split; cbn [slab_size base_addr with_head].
    + apply Hs.
    + done.
    + cbn. by rewrite lookup_insert_eq.
    + intros y Hy. destruct (so_blocks _ _ _ Hs y Hy) as [d Hd]. destruct (Hn' y d Hd) as (d' & Hd' & _). by exists d'.
    + exists free. split; [|by rewrite <-Permutation_middle]. eapply chain_ext; [|exact Hch]. intros y d _. apply Hn'.
  - done.
  - done.
  - done.
  - split; cbn; [|intros y Hy; rewrite lookup_insert_ne; [done|intros <-; apply Hy; change SLAB_BYTES with 61440; lia]|done]. intros y Hy. rewrite lookup_insert_ne; [by apply Ho1|]. intros ->. lia.
Qed.
Lemma Slab_dealloc_ok {E} h s x taken :
  slab_ok h s (x :: taken) ->
  exists s' h', Slab_dealloc (E := E) s (x + 32) h = (Ok s', h') /\ slab_ok h' s' taken /\
    base_addr s' = base_addr s /\ slab_size s' = slab_size s /\ pages h' = pages h /\ elsewhere (base_addr s) h h'.
Proof.
  intros Hs. destruct (so_free _ _ _ Hs) as (free & Hch & Hp). destruct (class_bounds _ (so_class _ _ _ Hs)) as (Hc & _).
  assert (x ∈ blocks (base_addr s) (slab_size s)) as Hxb by (rewrite <-Hp; apply elem_of_app; right; by left).
  pose proof (block_positive _ _ _ _ Hs Hxb) as [Hxr Hx0]. destruct (so_blocks _ _ _ Hs x Hxb) as [b Hbx].
  assert (NoDup (x :: free ++ taken)) as Hnd by (rewrite Permutation_middle, Hp; apply blocks_nodup; lia). apply NoDup_cons in Hnd as [Hxn Hnd].
  set (m1 := <[x := mkBlockMeta (head s) None false]> (block_metas h)).
  assert (exists m2, (match head s with
     | Some old_head => c ← block_at old_head; put_block old_head (mkBlockMeta (next c) (Some x) (bm_used c))
     | None => mret tt end) (with_blocks h m1) = (Ok (E := E) tt, with_blocks h m2) /\
     (forall y d, m1 !! y = Some d -> exists d', m2 !! y = Some d' /\ next d' = next d) /\
     (forall y, ~ (base_addr s <= y < base_addr s + SLAB_BYTES) -> m2 !! y = m1 !! y)) as (m2 & Hm2 & Hn2 & Ho2).
  { destruct free as [|y free].
    - cbn in Hch. rewrite Hch. exists m1. split; [done|]. split; [intros y d Hd; by exists d|done].
    - destruct Hch as [-> (c & Hcy & _)]. exists (<[y := mkBlockMeta (next c) (Some x) (bm_used c)]> m1).
      assert (x <> y) as Hxy by (intros ->; apply Hxn; by left). assert (m1 !! y = Some c) as Hy1 by (unfold m1; by rewrite lookup_insert_ne).
      assert (base_addr s <= y < base_addr s + SLAB_BYTES) as Hyr by (apply (block_positive h s (x :: taken)); [done|]; rewrite <-Hp; by left).
      split; [by erewrite (st_bind_eq (block_at y)) by (by apply block_at_eq)|]. split.
      + intros z d Hd. destruct (decide (z = y)) as [->|Hz]; [|exists d; by rewrite lookup_insert_ne]. rewrite Hy1 in Hd. injection Hd as <-.
        eexists. split; [apply lookup_insert_eq|done].
      + intros z Hz. rewrite lookup_insert_ne; [done|]. intros ->. lia. }
  set (meta := mkSlabMeta (slab_size s) (Z.of_nat (length taken)) (blocks_of (slab_size s)) MAGIC).
  set (h' := with_slab_metas (with_blocks h m2) (<[base_addr s := meta]> (slab_metas h))).
  pose proof (Permutation_length Hp) as Hlen. rewrite length_app in Hlen. pose proof (blocks_length (base_addr s) (slab_size s)) as Hbl. cbn in Hlen.
  exists (with_head s (Some x)), h'. split_and!.
  - unfold Slab_dealloc. rewrite (st_bind_eq _ _ _ _ _ (slab_meta_at_eq _ _ _ (so_meta _ _ _ Hs))). cbn [magic_number sm_used].
    rewrite Z.eqb_refl, (proj2 (Z.eqb_neq (Z.of_nat (length (x :: taken))) 0)), (proj2 (Z.eqb_neq (x + 32) 0)) by (cbn [length]; lia). cbn [negb orb]. cbv zeta.
    replace (x + 32 - size_of_BlockMeta) with x by (unfold size_of_BlockMeta; lia). rewrite (wrap_small 64 x) by (unfold is_u; lia).
    rewrite (proj2 (Z.eqb_neq x 0)) by lia. rewrite (st_lift_bind _ _ _ tt) by done. rewrite (st_bind_eq _ _ _ _ _ (block_at_eq _ _ _ Hbx)).
    rewrite (st_bind_eq _ _ _ _ _ (put_block_eq _ _ _)). fold m1. rewrite (st_bind_eq _ _ _ _ _ Hm2).
    rewrite (st_lift_bind _ _ _ meta); [by rewrite (st_bind_eq _ _ _ _ _ (put_slab_meta_eq _ _ _))|].
    unfold meta_deallocate. cbn [sm_used sm_size sm_total magic_number]. rewrite (proj2 (Z.ltb_lt 0 _)) by (cbn [length]; lia). cbn [sm_used sm_total].
    rewrite (proj2 (Z.leb_le _ _)) by (cbn [length]; lia). unfold meta. do 2 f_equal. cbn [length]. lia.
  - assert (forall y d, m1 !! y = Some d -> exists d', block_metas h' !! y = Some d' /\ next d' = next d) as Hn' by done.
    split; cbn [slab_size base_addr with_head head].
    + apply Hs.
    + apply Hs.
    + cbn. by rewrite lookup_insert_eq.
    + intros y Hy. destruct (so_blocks _ _ _ Hs y Hy) as [d Hd]. destruct (decide (y = x)) as [->|Hy'].
      * destruct (Hn' x _ (lookup_insert_eq _ _ _)) as (d' & Hd' & _). by exists d'.
      * destruct (Hn' y d) as (d' & Hd' & _); [unfold m1; by rewrite lookup_insert_ne|]. by exists d'.
    + exists (x :: free). split; [|by rewrite <-Hp, <-Permutation_middle]. split; [done|].
      destruct (Hn' x _ (lookup_insert_eq _ _ _)) as (d' & Hd' & Hnx). exists d'. split; [done|]. rewrite Hnx. cbn [next].
      eapply chain_ext; [|exact Hch]. intros y d Hy Hd. apply Hn'. unfold m1. rewrite lookup_insert_ne; [done|]. intros ->. apply Hxn, elem_of_app. by left.
  - done.
  - done.
  - done.
  - split; cbn; [|intros y Hy; rewrite lookup_insert_ne; [done|intros <-; apply Hy; change SLAB_BYTES with 61440; lia]|done]. intros y Hy. rewrite Ho2 by done. unfold m1. rewrite lookup_insert_ne; [done|]. intros ->. lia.
Qed.

Section Heaps.
Context `{HP : Paging}.
Lemma slab_pages_cases {E} page base idx m : exists m',
  slab_pages (E := E) page base idx m = (Ok tt, m') \/ slab_pages (E := E) page base idx m = (Panic, m').
Proof.
  revert m. induction idx as [|j idx IH]; intros m; [exists m; by left|]. cbn [slab_pages]. unfold mbind, st_bind, st_lift.
  destruct (umul 64 (Z.of_nat j) PAGE_SIZE) as [o|e|] eqn:Ho; [|unfold umul in Ho; by destruct (_ <? _)|eexists; by right].
  destruct (uadd 64 base o) as [p|e|] eqn:Hp; [|unfold uadd in Hp; by destruct (_ <? _)|eexists; by right].
  destruct (VirtAddr_new p) as [v|]; cbn [unwrap]; [|eexists; by right]. unfold attempt.
  destruct (page v m) as [[a|e|] m']; [apply IH|eexists; by right..].
Qed.
Lemma Slab_new_ok {E} h base c m' :
  c ∈ SLAB_SIZE_CLASSES -> 0 < base /\ base + SLAB_BYTES < 2 ^ 64 -> map_slab (E := E) base (pages h) = (Ok tt, m') ->
  exists s h', Slab_new (E := E) base c (SlabMeta_new c (blocks_of c)) h = (Ok s, h') /\ base_addr s = base /\ slab_size s = c /\
    slab_ok h' s [] /\ elsewhere base h h'.
Proof.
  intros Hc Hb Hmap. destruct (class_bounds c Hc) as (Hcr & Hn & Hfit). set (n := Z.to_nat (blocks_of c)).
  set (h1 := with_slab_metas (with_pages h m') (<[base := SlabMeta_new c (blocks_of c)]> (slab_metas h))).
  destruct (init_blocks_ok (E := E) base c n 0 h1 None) as (m & Hrun & Hl & Hoth); [lia|intros j Hj; lia|done|]. cbn [Nat.add] in Hrun, Hl, Hoth.
  assert (n = S (n - 1)) as Hn1 by lia. exists (mkSlab base c (Some (block_addr base c 0))), (with_blocks h1 m). split_and!; try done.
  - unfold Slab_new. rewrite (st_bind_eq _ _ h tt (with_pages h m')) by (unfold on_pages; by rewrite Hmap).
    rewrite (st_bind_eq _ _ _ _ _ (put_slab_meta_eq _ _ _)). cbn [sm_total SlabMeta_new]. rewrite Z.ltb_irrefl.
    rewrite (st_bind_eq (mret tt) _ _ tt _) by done. fold n. rewrite (st_bind_eq _ _ _ _ _ Hrun). rewrite Hn1. done.
  - split; cbn [base_addr slab_size head]; try done.
    + cbn. by rewrite lookup_insert_eq.
    + intros x (i & Hi & ->)%block_in. destruct (Hl i Hi) as (b & Hbi & _). by exists b.
    + exists (blocks base c). split; [|by rewrite app_nil_r]. unfold blocks. fold n. apply (linked_chain _ _ _ n); [done|lia|lia].
  - split; cbn; [|intros x Hx; rewrite lookup_insert_ne; [done|intros <-; apply Hx; change SLAB_BYTES with 61440; lia]|done]. intros x Hx. rewrite Hoth; [done|].
    intros i Hi ->. apply Hx. assert (block_addr base c i ∈ blocks base c) as Hin by (apply block_in; by exists i). pose proof (block_range _ _ _ Hc Hin). lia.
Qed.
End Heaps.

(** ** The invariant of the heap *)
Definition slot (k : nat) : Z := SLAB_BASE_ADDR + Z.of_nat k * SLAB_BYTES.
(** The blocks of a class among the blocks in use, each given as its pointer and its class. *)
Definition taken_of (c : Z) (live : list (Z * Z)) : list Z := (fun q => q.1 - 32) <$> filter (fun q => q.2 = c) live.
Definition slot_count (a : SlabAllocator) : nat := length (slabs a) + length (freed_slots a).
Record heap_ok (h : Heap) (live : list (Z * Z)) : Prop := {
  ho_slabs s : s ∈ slabs (slab_allocator h) -> slab_ok h s (taken_of (slab_size s) live);
  ho_classes : NoDup (slab_size <$> slabs (slab_allocator h));
  ho_live p c : (p, c) ∈ live -> c ∈ slab_size <$> slabs (slab_allocator h);
  ho_bases : (base_addr <$> slabs (slab_allocator h)) ++ freed_slots (slab_allocator h)
    ≡ₚ slot <$> seq 0 (slot_count (slab_allocator h));
  ho_next : next_base (slab_allocator h) = slot (slot_count (slab_allocator h));
  ho_count : (slot_count (slab_allocator h) <= 10)%nat;
}.

Lemma slot_range k : (k <= 10)%nat -> 0 < slot k /\ slot k + SLAB_BYTES < 2 ^ 64.
Proof. intros Hk. unfold slot. change SLAB_BASE_ADDR with 0xFFFFFF1000000000. change SLAB_BYTES with 61440. lia. Qed.
Lemma slot_inj i j : slot i = slot j -> i = j.
Proof. unfold slot. change SLAB_BYTES with 61440. lia. Qed.
Lemma slots_apart i j : slot i <> slot j -> slot i + SLAB_BYTES <= slot j \/ slot j + SLAB_BYTES <= slot i.
Proof. unfold slot. change SLAB_BYTES with 61440. lia. Qed.
Lemma slots_nodup n : NoDup (slot <$> seq 0 n).
Proof. apply NoDup_fmap_2; [intros i j; apply slot_inj|apply NoDup_seq]. Qed.

Lemma taken_cons c x d live : taken_of c ((x + 32, d) :: live) = if decide (d = c) then x :: taken_of c live else taken_of c live.
Proof. unfold taken_of. rewrite filter_cons. cbn. destruct (decide (d = c)); [|done]. cbn. f_equal. lia. Qed.
Lemma taken_perm c live live' : live ≡ₚ live' -> taken_of c live ≡ₚ taken_of c live'.
Proof. intros Hp. unfold taken_of. by rewrite Hp. Qed.
Lemma slab_ok_perm h s t t' : t ≡ₚ t' -> slab_ok h s t -> slab_ok h s t'.
Proof. intros Hp [H1 H2 H3 H4 (f & Hc & Hf)]. split; try done; [by rewrite <-Hp|]. exists f. split; [done|]. by rewrite <-Hp. Qed.
Lemma taken_nil h live c : heap_ok h live -> c ∉ slab_size <$> slabs (slab_allocator h) -> taken_of c live = [].
Proof.
  intros Ho Hc. unfold taken_of. destruct (filter _ live) as [|[p d] l] eqn:Hf; [done|]. exfalso.
  assert ((p, d) ∈ filter (fun q => q.2 = c) live) as Hin by (rewrite Hf; by left). apply list_elem_of_filter in Hin as [Hd Hin]. cbn in Hd. subst d.
  by apply Hc, (ho_live _ _ Ho p c).
Qed.

Section Heap.
Context (h : Heap) (live : list (Z * Z)) (Ho : heap_ok h live).
Let a := slab_allocator h.
Lemma heap_base_slot b : b ∈ (base_addr <$> slabs a) ++ freed_slots a -> exists k, (k < 10)%nat /\ b = slot k.
Proof using Ho.
  intros Hb. unfold a in Hb. rewrite (ho_bases _ _ Ho) in Hb. apply list_elem_of_fmap in Hb as (k & -> & Hk%elem_of_seq).
  pose proof (ho_count _ _ Ho). exists k. split; [lia|done].
Qed.
Lemma heap_bases_nodup : NoDup ((base_addr <$> slabs a) ++ freed_slots a).
Proof using Ho. unfold a. rewrite (ho_bases _ _ Ho). apply slots_nodup. Qed.
(** The slabs other than the [i]-th lie apart from it. *)
Lemma heap_apart i s j s2 : slabs a !! i = Some s -> slabs a !! j = Some s2 -> i <> j ->
  base_addr s2 + SLAB_BYTES <= base_addr s \/ base_addr s + SLAB_BYTES <= base_addr s2.
Proof using Ho.
  intros Hi Hj Hne. pose proof heap_bases_nodup as Hnd. apply NoDup_app in Hnd as (Hnd & _ & _).
  assert (base_addr s <> base_addr s2) as Hb.
  { intros Heq. apply Hne. eapply (NoDup_lookup _ _ _ (base_addr s) Hnd); rewrite list_lookup_fmap; [by rewrite Hi|rewrite Hj; cbn; by rewrite Heq]. }
  destruct (heap_base_slot (base_addr s)) as (k & _ & Hk); [apply elem_of_app; left; apply list_elem_of_fmap; exists s; split; [done|by eapply list_elem_of_lookup_2]|].
  destruct (heap_base_slot (base_addr s2)) as (k2 & _ & Hk2); [apply elem_of_app; left; apply list_elem_of_fmap; exists s2; split; [done|by eapply list_elem_of_lookup_2]|].
  rewrite Hk, Hk2 in *. apply slots_apart. congruence.
Qed.
(** A new base is apart from every slab. *)
Lemma heap_new_base k s : slot k ∉ base_addr <$> slabs a -> s ∈ slabs a -> base_addr s + SLAB_BYTES <= slot k \/ slot k + SLAB_BYTES <= base_addr s.
Proof using Ho.
  intros Hk Hs. destruct (heap_base_slot (base_addr s)) as (k2 & _ & Hk2); [apply elem_of_app; left; apply list_elem_of_fmap; by exists s|].
  rewrite Hk2. apply slots_apart. intros Heq. apply Hk. rewrite <-Heq, <-Hk2. apply list_elem_of_fmap. by exists s.
Qed.
Lemma heap_few_slabs c : c ∈ SLAB_SIZE_CLASSES -> c ∉ slab_size <$> slabs a -> (length (slabs a) < 10)%nat.
Proof using Ho.
  intros Hc Hn. assert (NoDup (c :: (slab_size <$> slabs a))) as Hnd by (apply NoDup_cons; split; [done|apply Ho]).
  assert (c :: (slab_size <$> slabs a) ⊆ SLAB_SIZE_CLASSES) as Hsub.
  { intros d [->|Hd]%elem_of_cons; [done|]. apply list_elem_of_fmap in Hd as (s & -> & Hs). apply (so_class _ _ _ (ho_slabs _ _ Ho s Hs)). }
  pose proof (submseteq_length _ _ (NoDup_submseteq _ _ Hnd Hsub)) as Hlen. cbn in Hlen. rewrite length_fmap in Hlen. lia.
Qed.
(** The first slab of a class is its only one. *)
Lemma heap_position c i : position (fun s => slab_size s =? c) (slabs a) = Some i -> exists s, slabs a !! i = Some s /\ slab_size s = c.
Proof using. intros [(s & Hs & Heq) _]%position_Some. exists s. zbool. done. Qed.
Lemma heap_position_None c : position (fun s => slab_size s =? c) (slabs a) = None -> c ∉ slab_size <$> slabs a.
Proof using. intros Hp Hin. apply list_elem_of_fmap in Hin as (s & -> & Hs). rewrite position_None in Hp. specialize (Hp s Hs). cbn in Hp. by rewrite Z.eqb_refl in Hp. Qed.
Lemma heap_same_class i j s s2 : slabs a !! i = Some s -> slabs a !! j = Some s2 -> slab_size s = slab_size s2 -> i = j.
Proof using Ho. intros Hi Hj Heq. eapply (NoDup_lookup _ _ _ (slab_size s) (ho_classes _ _ Ho)); rewrite list_lookup_fmap; fold a; [by rewrite Hi|rewrite Hj; cbn; by rewrite Heq]. Qed.
End Heap.

(** One slab changes and with it the blocks in use of its class. *)
Lemma heap_ok_update h live live' i s s' h1 :
  heap_ok h live -> slabs (slab_allocator h) !! i = Some s -> base_addr s' = base_addr s -> slab_size s' = slab_size s ->
  elsewhere (base_addr s) h h1 -> slab_ok h1 s' (taken_of (slab_size s) live') ->
  (forall c, c <> slab_size s -> taken_of c live ≡ₚ taken_of c live') ->
  (forall p c, (p, c) ∈ live' -> c ∈ slab_size <$> slabs (slab_allocator h)) ->
  heap_ok (with_slabs h1 (mkSlabs (<[i := s']> (slabs (slab_allocator h))) (next_base (slab_allocator h)) (freed_slots (slab_allocator h)))) live'.
Proof.
  intros Ho Hi Hb Hsz He Hs' Htk Hlv. set (a := slab_allocator h) in *.
  assert (base_addr <$> <[i := s']> (slabs a) = base_addr <$> slabs a) as Hfb by (rewrite list_fmap_insert, Hb; apply list_insert_id; by rewrite list_lookup_fmap, Hi).
  assert (slab_size <$> <[i := s']> (slabs a) = slab_size <$> slabs a) as Hfs by (rewrite list_fmap_insert, Hsz; apply list_insert_id; by rewrite list_lookup_fmap, Hi).
  assert (slot_count (mkSlabs (<[i := s']> (slabs a)) (next_base a) (freed_slots a)) = slot_count a) as Hcnt by (unfold slot_count; cbn; by rewrite length_insert).
  split; cbn [slab_allocator with_slabs slabs freed_slots next_base]; rewrite ?Hcnt, ?Hfb, ?Hfs; try apply Ho; [|done].
  intros s2 (j & Hj)%list_elem_of_lookup. destruct (decide (j = i)) as [->|Hne].
  - rewrite list_lookup_insert_eq in Hj by (by eapply lookup_lt_Some). injection Hj as <-. rewrite Hsz. destruct Hs'. by split.
  - rewrite list_lookup_insert_ne in Hj by done. apply (slab_ok_perm _ _ (taken_of (slab_size s2) live)).
    { apply Htk. intros Heq. apply Hne. by eapply (heap_same_class h live Ho). }
    pose proof (ho_slabs _ _ Ho s2 ltac:(by eapply list_elem_of_lookup_2)) as Hs2.
    pose proof (heap_apart h live Ho i s j s2 Hi Hj ltac:(done)) as Hap. destruct (slab_ok_elsewhere _ _ _ _ _ Hs2 He Hap). by split.
Qed.

(** Where [take_base] puts a new slab: the slot freed last, or the next one. *)
Definition new_slab_base (a : SlabAllocator) : Z := default (next_base a) (last (freed_slots a)).

Section Ops.
Context `{HP : Paging}.

Lemma take_base_ok {E} h live c :
  heap_ok h live -> c ∈ SLAB_SIZE_CLASSES -> c ∉ slab_size <$> slabs (slab_allocator h) ->
  exists k a', take_base (E := E) h = (Ok (slot k), with_slabs h a') /\ (k < 10)%nat /\ slot k = new_slab_base (slab_allocator h) /\ slabs a' = slabs (slab_allocator h) /\
    slot k ∉ base_addr <$> slabs a' /\
    (base_addr <$> slabs a') ++ [slot k] ++ freed_slots a' ≡ₚ slot <$> seq 0 (S (slot_count a')) /\
    next_base a' = slot (S (slot_count a')) /\ (S (slot_count a') <= 10)%nat.
Proof.
  intros Ho Hc Hn. pose proof (heap_few_slabs h live Ho c Hc Hn) as Hfew. destruct h as [pg bm sm a]. cbn in *.
  pose proof (ho_bases _ _ Ho) as Hb. pose proof (ho_next _ _ Ho) as Hx. pose proof (ho_count _ _ Ho) as Hct. cbn in Hb, Hx, Hct.
  unfold take_base, mbind, st_bind, st_get, st_put, mret, st_ret. cbn [slab_allocator]. destruct (freed_slots a) as [|b0 l0 _] eqn:Hf using rev_ind.
  - cbn [last]. set (n := slot_count a) in *. assert (n = length (slabs a)) as Hlen by (unfold n, slot_count; rewrite Hf; cbn; lia).
    exists n, (mkSlabs (slabs a) (slot (S n)) []). unfold new_slab_base. rewrite Hf. cbn [slabs freed_slots next_base last default]. split_and!.
    + rewrite Hx. unfold with_slabs. cbn. rewrite wrap_small; [do 4 f_equal; unfold slot; lia|]. pose proof (slot_range n ltac:(lia)). unfold is_u.
      assert (0 < SLAB_BYTES) by done. lia.
    + lia.
    + by rewrite Hx.
    + done.
    + intros Hin. rewrite app_nil_r in Hb. rewrite Hb in Hin. apply list_elem_of_fmap in Hin as (j & Heq & Hj%elem_of_seq). apply slot_inj in Heq. lia.
    + unfold slot_count. cbn [slabs freed_slots length]. rewrite Nat.add_0_r, <-Hlen. change (slot 0 :: (slot <$> seq 1 n)) with (slot <$> seq 0 (S n)). rewrite seq_S, fmap_app. rewrite app_nil_r in Hb. by rewrite Hb.
    + unfold slot_count. cbn. by rewrite Nat.add_0_r, <-Hlen.
    + unfold slot_count. cbn. lia.
  - rewrite last_snoc, removelast_last. assert (exists k, (k < 10)%nat /\ b0 = slot k) as (k & Hk & ->).
    { apply (heap_base_slot _ live Ho). cbn. rewrite Hf, !elem_of_app. right. right. by left. }
    assert (slot_count a = S (length (slabs a) + length l0)) as Hsc by (unfold slot_count; rewrite Hf, length_app; cbn; lia).
    exists k, (mkSlabs (slabs a) (next_base a) l0). unfold new_slab_base. rewrite Hf, last_snoc. cbn [slabs freed_slots next_base default].
    split_and!; try done.
    + pose proof (heap_bases_nodup _ live Ho) as Hnd. cbn in Hnd. rewrite Hf in Hnd. apply NoDup_app in Hnd as (_ & Hd & _). intros Hin. apply (Hd _ Hin). apply elem_of_app. right. by left.
    + change (slot 0 :: _) with (slot <$> seq 0 (S (length (slabs a) + length l0))). rewrite <-Hsc, <-Hb. by rewrite (Permutation_app_comm l0 [slot k]).
    + unfold slot_count at 1. cbn [slabs freed_slots]. by rewrite <-Hsc.
    + unfold slot_count. cbn [slabs freed_slots]. by rewrite <-Hsc.
Qed.

Lemma add_slab_ok {E} h live c :
  heap_ok h live -> c ∈ SLAB_SIZE_CLASSES -> c ∉ slab_size <$> slabs (slab_allocator h) ->
  exists r h', add_slab (E := E) c h = (r, h') /\
    match r with
    | Ok p => p <> 0 /\ heap_ok h' ((p, c) :: live) /\
        exists u, (map_slab (E := E) (new_slab_base (slab_allocator h)) (pages h)).1 = Ok u
    | Err _ => False
    | Panic => (map_slab (E := E) (new_slab_base (slab_allocator h)) (pages h)).1 = Panic
    end.
Proof.
  intros Ho Hc Hn. destruct (take_base_ok (E := E) h live c Ho Hc Hn) as (k & a' & Hrun & Hk & Hbase & Hsl & Hnk & Hb & Hx & Hct).
  unfold add_slab. rewrite (st_bind_eq _ _ _ _ _ Hrun). pose proof (slot_range k ltac:(lia)) as Hrange.
  destruct (slab_pages_cases (E := E) (fun v => _ ← kalloc_page v Arbitrary; mret tt) (slot k) (seq 0 MAX_SLAB_PAGES) (pages h)) as (m' & [Hmap|Hmap]).
  2: { exists Panic, (with_pages (with_slabs h a') m'). split; [|rewrite <-Hbase; unfold map_slab; by rewrite Hmap].
       apply st_bind_Panic, st_bind_Panic. unfold on_pages. change (map_slab (E := E) (slot k) (pages h) = (Panic, m')) in Hmap.
       cbn [pages with_slabs]. by rewrite Hmap. }
  destruct (Slab_new_ok (E := E) (with_slabs h a') (slot k) c m' Hc Hrange Hmap) as (s & h1 & Hrun1 & Hsb & Hss & Hso & He1).
  rewrite (st_bind_eq _ _ _ _ _ Hrun1). destruct (class_bounds c Hc) as (Hcr & Hbl & _).
  destruct (Slab_alloc_ok (E := E) h1 s [] Hso) as (x & s' & h2 & Hrun2 & Hx0 & Hso2 & Hb2 & Hs2 & _ & He2); [rewrite Hss; cbn; lia|].
  rewrite (st_bind_eq _ _ _ _ _ Hrun2). rewrite (proj2 (Z.eqb_neq (x + 32) 0)) by lia.
  rewrite Hsb in He2. pose proof (elsewhere_trans _ _ _ _ He1 He2) as He. pose proof (el_slabs _ _ _ He) as Hal. cbn in Hal.
  rewrite (st_bind_eq _ _ h2 h2 h2) by done. rewrite Hal. pose proof (heap_few_slabs h live Ho c Hc Hn) as Hfew.
  rewrite (proj2 (Nat.ltb_lt _ _)) by (rewrite Hsl; unfold MAX_SLABS; lia). rewrite (st_bind_eq _ _ h2 tt (with_slabs h2 (mkSlabs (slabs a' ++ [s']) (next_base a') (freed_slots a')))) by done.
  exists (Ok (x + 32)). eexists. split; [done|]. split; [lia|]. split; [|exists tt; rewrite <-Hbase; unfold map_slab; by rewrite Hmap].
  rewrite Hsl in *.
  assert (slot_count (mkSlabs (slabs (slab_allocator h) ++ [s']) (next_base a') (freed_slots a')) = S (slot_count a')) as Hcnt.
  { unfold slot_count. cbn. rewrite length_app, Hsl. cbn. lia. }
  split; cbn [slab_allocator with_slabs slabs next_base freed_slots]; rewrite ?Hcnt, ?fmap_app; cbn [fmap list_fmap].
  - intros s0 [Hs0|Hs0]%elem_of_app.
    + rewrite taken_cons, decide_False by (intros ->; apply Hn, list_elem_of_fmap; by exists s0). pose proof (ho_slabs _ _ Ho s0 Hs0) as Hok.
      assert (slab_ok (with_slabs h a') s0 (taken_of (slab_size s0) live)) as Hok' by (destruct Hok; by split).
      destruct (slab_ok_elsewhere _ _ _ _ _ Hok' He); [|by split]. by apply (heap_new_base h live Ho).
    + apply list_elem_of_singleton in Hs0 as ->. rewrite Hs2, Hss, taken_cons, decide_True, (taken_nil h live c Ho Hn) by done. destruct Hso2. by split.
  - rewrite Hs2, Hss. apply NoDup_app. split_and!; [apply Ho| |apply NoDup_singleton]. by intros d Hd ->%list_elem_of_singleton.
  - intros p d [[= -> ->]|Hd]%elem_of_cons; rewrite elem_of_app; [right; rewrite Hs2, Hss; by left|left; by eapply ho_live].
  - rewrite Hb2, Hsb, <-app_assoc. done.
  - done.
  - done.
Qed.

Lemma slab_alloc_ok {E} h live l c :
  heap_ok h live -> 0 < size l <= 4096 -> class_for (size l) (align l) = Some c -> Z.of_nat (length (taken_of c live)) < blocks_of c ->
  exists r h', slab_alloc (E := E) l h = (r, h') /\
    match r with
    | Ok p => p <> 0 /\ heap_ok h' ((p, c) :: live) /\
        (c ∉ slab_size <$> slabs (slab_allocator h) ->
         exists u, (map_slab (E := E) (new_slab_base (slab_allocator h)) (pages h)).1 = Ok u)
    | Err _ => False
    | Panic => c ∉ slab_size <$> slabs (slab_allocator h) /\ (map_slab (E := E) (new_slab_base (slab_allocator h)) (pages h)).1 = Panic
    end.
Proof.
  intros Ho Hsz Hcl Hlt. unfold slab_alloc. rewrite (proj2 (Z.eqb_neq (size l) 0)), (proj2 (Z.ltb_ge 4096 _)), Hcl by lia.
  assert (c ∈ SLAB_SIZE_CLASSES) as Hc by (apply find_some in Hcl as [Hin _]; by apply list_elem_of_In).
  rewrite (st_bind_eq _ _ h h h) by done. destruct (position _ (slabs (slab_allocator h))) as [i|] eqn:Hpos.
  - destruct (heap_position h c i Hpos) as (s & Hi & Hs). rewrite (st_lift_bind _ _ _ s) by (by rewrite Hi). subst c.
    pose proof (ho_slabs _ _ Ho s ltac:(by eapply list_elem_of_lookup_2)) as Hso.
    destruct (Slab_alloc_ok (E := E) h s _ Hso Hlt) as (x & s' & h1 & Hrun & Hx & Hso' & Hb & Hs' & _ & He).
    rewrite (st_bind_eq _ _ _ _ _ Hrun). unfold put_slab. unfold mbind, st_bind, st_get, st_put. rewrite (el_slabs _ _ _ He).
    rewrite (proj2 (Z.eqb_neq (x + 32) 0)) by lia. cbn [negb]. exists (Ok (x + 32)). eexists. split; [done|]. split; [lia|].
    split; [|intros []; apply list_elem_of_fmap; exists s; split; [done|by eapply list_elem_of_lookup_2]].
    apply (heap_ok_update h live _ i s); try done.
    + by rewrite taken_cons, decide_True.
    + intros d Hd. by rewrite taken_cons, decide_False by congruence.
    + intros p d [[= -> ->]|Hd]%elem_of_cons; [apply list_elem_of_fmap; exists s; split; [done|by eapply list_elem_of_lookup_2]|by eapply ho_live].
  - pose proof (heap_position_None h c Hpos) as Hn. destruct (add_slab_ok (E := E) h live c Ho Hc Hn) as (r & h' & Hrun & Hr). exists r, h'. split; [done|].
    destruct r as [p| |]; [|done..]. by destruct Hr as (? & ? & ?).
Qed.

Lemma filter_outside {A} (m : gmap Z A) base x : ~ (base <= x < base + SLAB_BYTES) -> filter (fun '(p, _) => outside base p = true) m !! x = m !! x.
Proof.
  intros Hx. apply option_eq. intros v. rewrite map_lookup_filter_Some. split; [by intros [? _]|]. intros Hv. split; [done|].
  unfold outside. apply orb_true_iff. rewrite Z.ltb_lt, Z.leb_le. lia.
Qed.
Lemma Slab_free_ok {E} h s :
  exists r h', Slab_free (E := E) s h = (r, h') /\
    match r with
    | Ok _ => elsewhere (base_addr s) h h'
    | Err _ => False
    | Panic => (unmap_slab (E := E) (base_addr s) (pages h)).1 = Panic
    end.
Proof.
  destruct (slab_pages_cases (E := E) (fun v => kfree_page v Arbitrary) (base_addr s) (seq 0 MAX_SLAB_PAGES) (pages h)) as (m' & [Hmap|Hmap]);
    change (slab_pages _ _ _ (pages h)) with (unmap_slab (E := E) (base_addr s) (pages h)) in Hmap; unfold Slab_free.
  - rewrite (st_bind_eq _ _ h tt (with_pages h m')) by (unfold on_pages; by rewrite Hmap). eexists (Ok tt), _. split; [done|].
    split; cbn; [intros x Hx; by apply filter_outside..|done].
  - exists Panic, (with_pages h m'). split; [|by rewrite Hmap]. apply st_bind_Panic. unfold on_pages. by rewrite Hmap.
Qed.

(** A slab with no block in use is given up. *)
Lemma heap_ok_drop h live i s h' :
  heap_ok h live -> slabs (slab_allocator h) !! i = Some s -> Z.of_nat (length (taken_of (slab_size s) live)) = 0 ->
  elsewhere (base_addr s) (with_slabs h (mkSlabs (swap_remove i (slabs (slab_allocator h))) (next_base (slab_allocator h)) (freed_slots (slab_allocator h)))) h' ->
  heap_ok (with_slabs h' (mkSlabs (swap_remove i (slabs (slab_allocator h))) (next_base (slab_allocator h)) (freed_slots (slab_allocator h) ++ [base_addr s]))) live.
Proof.
  intros Ho Hi H0 He. set (a := slab_allocator h) in *. pose proof (swap_remove_perm (slabs a) i s Hi) as Hp.
  assert (slot_count (mkSlabs (swap_remove i (slabs a)) (next_base a) (freed_slots a ++ [base_addr s])) = slot_count a) as Hcnt.
  { unfold slot_count. cbn [slabs freed_slots]. rewrite length_app. pose proof (Permutation_length Hp) as Hlen. cbn in *. lia. }
  pose proof (ho_classes _ _ Ho) as Hcl. fold a in Hcl. rewrite <-Hp in Hcl. cbn in Hcl. apply NoDup_cons in Hcl as [Hcn Hcl].
  split; cbn [slab_allocator with_slabs slabs freed_slots next_base]; rewrite ?Hcnt.
  - intros s2 Hs2. assert (s2 ∈ slabs a) as Hin by (rewrite <-Hp; by right). pose proof (ho_slabs _ _ Ho s2 Hin) as Hso.
    assert (s2 <> s) as Hne by (intros ->; apply Hcn, list_elem_of_fmap; by exists s).
    apply list_elem_of_lookup in Hin as [j Hj]. assert (i <> j) as Hij by congruence.
    assert (slab_ok (with_slabs h (mkSlabs (swap_remove i (slabs a)) (next_base a) (freed_slots a))) s2 (taken_of (slab_size s2) live)) as Hso' by (destruct Hso; by split).
    destruct (slab_ok_elsewhere _ _ _ _ _ Hso' He (heap_apart h live Ho i s j s2 Hi Hj Hij)). by split.
  - done.
  - intros p c Hpc. pose proof (ho_live _ _ Ho p c Hpc) as Hin. fold a in Hin. rewrite <-Hp in Hin. cbn in Hin. apply elem_of_cons in Hin as [->|Hin]; [|done].
    exfalso. assert (p - 32 ∈ taken_of (slab_size s) live) as Ht by (unfold taken_of; apply list_elem_of_fmap; exists (p, slab_size s); split; [done|]; by apply list_elem_of_filter).
    destruct (taken_of (slab_size s) live); [by apply elem_of_nil in Ht|cbn in H0; lia].
  - pose proof (ho_bases _ _ Ho) as Hb. fold a in Hb. rewrite <-Hb. rewrite <-(fmap_Permutation base_addr _ _ Hp). cbn. by rewrite app_assoc, <-Permutation_cons_append.
  - apply Ho.
  - apply Ho.
Qed.

Lemma slab_dealloc_ok {E} h live p c live' l :
  heap_ok h live -> live ≡ₚ (p, c) :: live' -> find (fun s => size l <=? s) SLAB_SIZE_CLASSES = Some c ->
  exists r h', slab_dealloc (E := E) p l h = (r, h') /\
    match r with
    | Ok _ => heap_ok h' live'
    | Err _ => False
    | Panic => taken_of c live' = [] /\
        exists s, s ∈ slabs (slab_allocator h) /\ slab_size s = c /\ (unmap_slab (E := E) (base_addr s) (pages h)).1 = Panic
    end.
Proof.
  intros Ho Hp Hcl. set (a := slab_allocator h). assert ((p, c) ∈ live) as Hin by (rewrite Hp; by left).
  assert (exists x, p = x + 32) as [x ->] by (exists (p - 32); lia).
  unfold slab_dealloc. rewrite Hcl.
  pose proof (ho_live _ _ Ho _ _ Hin) as Hcin. destruct (position (fun s => slab_size s =? c) (slabs a)) as [i|] eqn:Hpos;
    [|by apply (heap_position_None h c) in Hpos].
  destruct (heap_position h c i Hpos) as (s & Hi & Hs). subst c.
  pose proof (ho_slabs _ _ Ho s ltac:(by eapply list_elem_of_lookup_2)) as Hso.
  assert (taken_of (slab_size s) live ≡ₚ x :: taken_of (slab_size s) live') as Htk by (rewrite (taken_perm _ _ _ Hp), taken_cons, decide_True; done).
  apply (slab_ok_perm _ _ _ _ Htk) in Hso. destruct (so_free _ _ _ Hso) as (free & _ & Hfree).
  assert (x ∈ blocks (base_addr s) (slab_size s)) as Hxb by (rewrite <-Hfree; apply elem_of_app; right; by left).
  pose proof (block_positive _ _ _ _ Hso Hxb) as [_ Hx0]. rewrite (proj2 (Z.eqb_neq (x + 32) 0)) by lia.
  rewrite (st_bind_eq _ _ h h h) by done. fold a. rewrite Hpos. rewrite (st_lift_bind _ _ _ s) by (unfold a; by rewrite Hi).
  destruct (Slab_dealloc_ok (E := E) h s x _ Hso) as (s' & h1 & Hrun & Hso' & Hb & Hsz & Hpg & He). rewrite (st_bind_eq _ _ _ _ _ Hrun).
  set (h2 := with_slabs h1 (mkSlabs (<[i := s']> (slabs a)) (next_base a) (freed_slots a))).
  rewrite (st_bind_eq _ _ h1 tt h2) by (unfold put_slab, mbind, st_bind, st_get, st_put; by rewrite (el_slabs _ _ _ He)).
  assert (heap_ok h2 live') as Ho2.
  { apply (heap_ok_update h live live' i s); try done.
    - intros d Hd. rewrite (taken_perm d _ _ Hp), taken_cons, decide_False by congruence. done.
    - intros q d Hq. apply (ho_live _ _ Ho q). rewrite Hp. by right. }
  assert (slabs (slab_allocator h2) !! i = Some s') as Hi2 by (cbn; apply list_lookup_insert_eq; by eapply lookup_lt_Some).
  pose proof (ho_slabs _ _ Ho2 s' ltac:(by eapply list_elem_of_lookup_2)) as Hso2. rewrite Hsz in Hso2.
  unfold used_blocks. rewrite (st_bind_eq _ _ h2 (Z.of_nat (length (taken_of (slab_size s) live'))) h2)
    by (by rewrite (st_bind_eq _ _ _ _ _ (slab_meta_at_eq _ _ _ (so_meta _ _ _ Hso2)))).
  destruct (Z.eqb_spec (Z.of_nat (length (taken_of (slab_size s) live'))) 0) as [H0|H0]; [|by exists (Ok tt), h2].
  rewrite (st_bind_eq _ _ h2 h2 h2) by done. cbv zeta.
  set (h3 := with_slabs h2 (mkSlabs (swap_remove i (slabs (slab_allocator h2))) (next_base (slab_allocator h2)) (freed_slots (slab_allocator h2)))).
  rewrite (st_bind_eq _ _ h2 tt h3) by done. destruct (Slab_free_ok (E := E) h3 s') as (r & h4 & Hrun4 & Hr).
  destruct r as [[]|e0|]; [|done|].
  2: { exists Panic, h4. split; [by apply st_bind_Panic|]. split; [by apply length_zero_iff_nil; lia|].
       exists s. split; [by eapply list_elem_of_lookup_2|]. split; [done|]. rewrite Hb in Hr. change (pages h3) with (pages h1) in Hr. by rewrite Hpg in Hr. }
  rewrite (st_bind_eq _ _ _ _ _ Hrun4). rewrite (st_bind_eq _ _ h4 h4 h4) by done. rewrite (el_slabs _ _ _ Hr). cbv zeta.
  pose proof (ho_count _ _ Ho2) as Hcnt. rewrite (proj2 (Nat.ltb_lt _ _)) by (unfold slot_count in Hcnt; cbn in *; unfold MAX_SLABS; lia).
  exists (Ok tt). eexists. split; [done|]. apply (heap_ok_drop h2 live' i s'); [done|done|by rewrite Hsz|done].
Qed.

(** ** Runs of the heap *)

(** The layout is served by the class [c], and released to it. *)
Definition fits (l : Layout) (c : Z) : Prop :=
  0 < size l <= 4096 /\ class_for (size l) (align l) = Some c /\ find (fun s => size l <=? s) SLAB_SIZE_CLASSES = Some c.
(** A block of the class is left in its slab. *)
Definition room (c : Z) (live : list (Z * Z)) : Prop := Z.of_nat (length (taken_of c live)) < blocks_of c.
Definition heap_start (m : Mem) : Heap := mkHeap m ∅ ∅ SlabAllocator_new.

(** Requests and releases by a program that releases only what it holds. *)
Inductive heap_step : Heap * list (Z * Z) -> Heap * list (Z * Z) -> Prop :=
| step_alloc h live l c p h' : fits l c -> room c live -> slab_alloc (E := unit) l h = (Ok p, h') -> heap_step (h, live) (h', (p, c) :: live)
| step_dealloc h live live' l c p h' : live ≡ₚ (p, c) :: live' -> fits l c -> slab_dealloc (E := unit) p l h = (Ok tt, h') -> heap_step (h, live) (h', live').

Lemma heap_start_ok m : heap_ok (heap_start m) [].
Proof.
  split; cbn; [by intros s ?%elem_of_nil|apply NoDup_nil_2|by intros p c ?%elem_of_nil|done|done|unfold slot_count; cbn; lia].
Qed.
Lemma heap_step_ok x y : heap_step x y -> heap_ok x.1 x.2 -> heap_ok y.1 y.2.
Proof.
  intros [h live l c p h' (Hsz & Hcl & _) Hr Hrun|h live live' l c p h' Hp (_ & _ & Hcl) Hrun] Ho; cbn in *.
  - destruct (slab_alloc_ok (E := unit) h live l c Ho Hsz Hcl Hr) as (r & h1 & Hrun' & Hr'). rewrite Hrun in Hrun'. injection Hrun' as <- <-. apply Hr'.
  - destruct (slab_dealloc_ok (E := unit) h live p c live' l Ho Hp Hcl) as (r & h1 & Hrun' & Hr'). rewrite Hrun in Hrun'. injection Hrun' as <- <-. apply Hr'.
Qed.
Lemma heap_run_ok x y : rtc heap_step x y -> heap_ok x.1 x.2 -> heap_ok y.1 y.2.
Proof. induction 1 as [|x y z Hs _ IH]; [done|]. intros Ho. by eapply IH, heap_step_ok. Qed.

(** A block in use and the slab that has it. *)
Lemma live_block h live i p c : heap_ok h live -> live !! i = Some (p, c) ->
  exists j s, slabs (slab_allocator h) !! j = Some s /\ slab_size s = c /\ p - 32 ∈ blocks (base_addr s) c /\ c ∈ SLAB_SIZE_CLASSES.
Proof.
  intros Ho Hi. assert ((p, c) ∈ live) as Hin by (by eapply list_elem_of_lookup_2).
  pose proof (ho_live _ _ Ho p c Hin) as Hc. apply list_elem_of_fmap in Hc as (s & -> & Hs). pose proof (ho_slabs _ _ Ho s Hs) as Hso.
  destruct (so_free _ _ _ Hso) as (free & _ & Hp). apply list_elem_of_lookup in Hs as [j Hj]. exists j, s. split_and!; try done; [|apply Hso].
  rewrite <-Hp. apply elem_of_app. right. unfold taken_of. apply list_elem_of_fmap. exists (p, slab_size s). split; [done|]. by apply list_elem_of_filter.
Qed.
Lemma taken_distinct h live i j p q c : heap_ok h live -> live !! i = Some (p, c) -> live !! j = Some (q, c) -> i <> j -> p <> q.
Proof.
  intros Ho Hi Hj Hne ->. destruct (live_block h live i q c Ho Hi) as (k & s & Hk & Hs & _ & Hc). subst c.
  pose proof (ho_slabs _ _ Ho s ltac:(by eapply list_elem_of_lookup_2)) as Hso. destruct (so_free _ _ _ Hso) as (free & _ & Hp).
  assert (NoDup (free ++ taken_of (slab_size s) live)) as Hnd by (rewrite Hp; apply blocks_nodup; pose proof (class_bounds _ Hc); lia).
  apply NoDup_app in Hnd as (_ & _ & Hnd). assert (exists l, live ≡ₚ (q, slab_size s) :: (q, slab_size s) :: l) as [l Hl].
  { exists (delete (if decide (j < i)%nat then j else pred j) (delete i live)). rewrite (delete_Permutation live i (q, slab_size s) Hi) at 1. apply Permutation_skip.
    apply delete_Permutation. destruct (decide (j < i)%nat); [rewrite list_lookup_delete_lt by lia; done|]. rewrite list_lookup_delete_ge by lia. by replace (S (pred j)) with j by lia. }
  rewrite (taken_perm _ _ _ Hl) in Hnd. replace q with (q - 32 + 32) in Hnd by lia. rewrite !taken_cons, !decide_True in Hnd by done.
  apply NoDup_cons in Hnd as [Hn _]. apply Hn. by left.
Qed.

Lemma live_distinct h live i j p c d : heap_ok h live -> live !! i = Some (p, c) -> live !! j = Some (p, d) -> i = j.
Proof.
  intros Ho Hi Hj. destruct (decide (i = j)) as [|Hne]; [done|]. exfalso.
  destruct (live_block h live i p c Ho Hi) as (k1 & s1 & Hk1 & Hs1 & Hb1 & Hc1), (live_block h live j p d Ho Hj) as (k2 & s2 & Hk2 & Hs2 & Hb2 & Hc2).
  destruct (decide (k1 = k2)) as [->|Hk].
  - assert (c = d) as -> by congruence. by apply (taken_distinct h live i j p p d Ho Hi Hj Hne).
  - pose proof (heap_apart h live Ho k1 s1 k2 s2 Hk1 Hk2 Hk). pose proof (block_range _ _ _ Hc1 Hb1). pose proof (block_range _ _ _ Hc2 Hb2).
    destruct (class_bounds _ Hc1), (class_bounds _ Hc2). lia.
Qed.
Lemma fresh_block h live p c : heap_ok h ((p, c) :: live) -> p ∉ live.*1.
Proof.
  intros Ho ([q d] & -> & Hd)%list_elem_of_fmap. apply list_elem_of_lookup in Hd as [j Hj].
  by pose proof (live_distinct h _ 0 (S j) q c d Ho eq_refl Hj).
Qed.

(** C13: blocks of the kernel heap never overlap, in runs of requests whose alignment does not
    exceed the class of their size ([fits]: [alloc] and [dealloc] then choose the same class; see
    [SlabSample.released_to_other_class] for the others) and in which no class needs a second
    slab.  However requests and releases follow each other, the blocks in use are pairwise
    disjoint, each lies within one slab, and no block in use covers the header of a slab or of
    any block. *)
Theorem heap_blocks_disjoint m h live :
  rtc heap_step (heap_start m, []) (h, live) ->
  (forall i j p c q d, live !! i = Some (p, c) -> live !! j = Some (q, d) -> i <> j -> p + c <= q \/ q + d <= p) /\
  (forall i p c, live !! i = Some (p, c) -> exists s, s ∈ slabs (slab_allocator h) /\ base_addr s + 64 <= p /\ p + c <= base_addr s + SLAB_BYTES) /\
  (forall i p c s x, live !! i = Some (p, c) -> s ∈ slabs (slab_allocator h) -> x = base_addr s \/ x ∈ blocks (base_addr s) (slab_size s) ->
     p + c <= x \/ x + 32 <= p).
Proof.
  intros Hrun. pose proof (heap_run_ok _ _ Hrun (heap_start_ok m)) as Ho. cbn in Ho. split_and!.
  - intros i j p c q d Hi Hj Hne. destruct (live_block h live i p c Ho Hi) as (k1 & s1 & Hk1 & Hs1 & Hb1 & Hc1), (live_block h live j q d Ho Hj) as (k2 & s2 & Hk2 & Hs2 & Hb2 & Hc2).
    destruct (decide (k1 = k2)) as [->|Hk].
    + assert (s1 = s2) as -> by congruence. assert (c = d) as -> by congruence. pose proof (taken_distinct h live i j p q d Ho Hi Hj Hne).
      pose proof (class_bounds d Hc1). destruct (blocks_apart (base_addr s2) d (p - 32) (q - 32)); [lia|done|done|lia|lia|lia].
    + pose proof (heap_apart h live Ho k1 s1 k2 s2 Hk1 Hk2 Hk). pose proof (block_range _ _ _ Hc1 Hb1). pose proof (block_range _ _ _ Hc2 Hb2). lia.
  - intros i p c Hi. destruct (live_block h live i p c Ho Hi) as (k & s & Hk & Hs & Hb & Hc). exists s. split; [by eapply list_elem_of_lookup_2|].
    pose proof (block_range _ _ _ Hc Hb). lia.
  - intros i p c s x Hi Hs Hx. destruct (live_block h live i p c Ho Hi) as (k & s1 & Hk & Hs1 & Hb & Hc). pose proof (block_range _ _ _ Hc Hb) as Hr.
    pose proof (ho_slabs _ _ Ho s Hs) as Hso. apply list_elem_of_lookup in Hs as [k2 Hk2]. destruct (class_bounds c Hc) as (Hc8 & _).
    assert (base_addr s <= x /\ x + 32 <= base_addr s + SLAB_BYTES) as Hxr.
    { destruct Hx as [->|Hx]; [split; [lia|change SLAB_BYTES with 61440; lia]|]. destruct (block_range _ _ _ (so_class _ _ _ Hso) Hx), (class_bounds _ (so_class _ _ _ Hso)). lia. }
    destruct (decide (k = k2)) as [->|Hne].
    + assert (s1 = s) as -> by congruence. destruct Hx as [->|Hx]; [lia|]. rewrite Hs1 in Hx. destruct (decide (x = p - 32)) as [->|Hn]; [lia|].
      destruct (blocks_apart (base_addr s) c x (p - 32)); [lia|done|done|done|lia|lia].
    + pose proof (heap_apart h live Ho k s1 k2 s Hk Hk2 Hne). lia.
Qed.

Definition served (l : Layout) (h : Heap) (live : list (Z * Z)) : Prop :=
  exists p h', slab_alloc (E := unit) l h = (Ok p, h') /\ p <> 0 /\ p ∉ live.*1.

(** C14: requests are served.  In every state a run can reach, a request of a class with room
    returns a pointer that is not null and not in use when the class has a slab already, or when
    the pages of its new slab, at the slot freed last or else the next one, can be mapped; it
    panics otherwise.  The release of a block in use returns when another block of its class is in
    use, or when the pages of the class's slab can be unmapped. *)
Theorem heap_serves_requests m h live l c :
  rtc heap_step (heap_start m, []) (h, live) -> fits l c ->
  (room c live ->
   if decide (c ∈ slab_size <$> slabs (slab_allocator h)) then served l h live
   else match (map_slab (E := unit) (new_slab_base (slab_allocator h)) (pages h)).1 with
        | Ok _ => served l h live
        | _ => exists h', slab_alloc (E := unit) l h = (Panic, h')
        end) /\
  (forall p, (p, c) ∈ live ->
   (exists q, (q, c) ∈ live /\ q <> p) \/
   (forall s, s ∈ slabs (slab_allocator h) -> slab_size s = c -> (unmap_slab (E := unit) (base_addr s) (pages h)).1 = Ok tt) ->
   exists h', slab_dealloc (E := unit) p l h = (Ok tt, h')).
Proof.
  intros Hrun (Hsz & Hcl & Hcl'). pose proof (heap_run_ok _ _ Hrun (heap_start_ok m)) as Ho. cbn in Ho. split.
  - intros Hroom. destruct (slab_alloc_ok (E := unit) h live l c Ho Hsz Hcl Hroom) as (r & h' & Hr & Hx).
    destruct r as [p|[]|]; [|done|].
    + assert (served l h live) as Hs by (exists p, h'; split; [done|]; split; [apply Hx|]; apply (fresh_block h' live p c), Hx).
      destruct (decide _) as [|Hn]; [done|]. destruct Hx as (_ & _ & Hmap). by destruct (Hmap Hn) as [u ->].
    + destruct Hx as [Hn Hmap]. rewrite decide_False, Hmap by done. by exists h'.
  - intros p Hp Hor. apply list_elem_of_lookup in Hp as [i Hi]. pose proof (delete_Permutation live i (p, c) Hi) as Hperm.
    destruct (slab_dealloc_ok (E := unit) h live p c _ l Ho Hperm Hcl') as (r & h' & Hr & Hx). destruct r as [[]|[]|]; [by exists h'|done|].
    destruct Hx as (Hnil & s & Hs & Hc & Hpan). destruct Hor as [(q & Hq & Hne)|Hall]; [|by rewrite Hall in Hpan].
    rewrite Hperm in Hq. apply elem_of_cons in Hq as [[= ->]|Hq]; [done|]. exfalso.
    assert (q - 32 ∈ taken_of c (delete i live)) as Ht; [|rewrite Hnil in Ht; by apply elem_of_nil in Ht].
    unfold taken_of. apply list_elem_of_fmap. exists (q, c). split; [done|]. by apply list_elem_of_filter.
Qed.
End Ops.
