(* ===== verification/SlabSample.v ===== *)
(** * The kernel heap on a machine with 64 pages

    The theorems apply to it; runs that need a second slab of a class, or an alignment above 32
    bytes, show what they exclude. *)
From S2P Require Import Prelude PageAlloc Paging X86Paging Slab SlabProof CowSample.

Definition heap_mem : Mem :=
  mkMem (Some [mkNode HIGHER_HALF_BASE [2 ^ 64 - 2 ^ 9] 0x1000 0x40000])
    (foldr (fun p m => <[p := replicate 512 0]> m) sample_ram ((fun k => 0x1000 * Z.of_nat k) <$> seq 25 40)) ROOT ∅ 0 0.
Definition heap0 : Heap := heap_start heap_mem.
Definition SMALL : Layout := mkLayout 24 8.
Definition heap1 : Heap := (slab_alloc (E := unit) SMALL heap0).2.
Definition BLOCK_1 : Z := SLAB_BASE_ADDR + 64.
Lemma heap1_run : slab_alloc (E := unit) SMALL heap0 = (Ok BLOCK_1, heap1).
Proof.
  assert ((slab_alloc (E := unit) SMALL heap0).1 = Ok BLOCK_1) as H1 by (vm_compute; reflexivity). unfold heap1. rewrite <-H1. apply surjective_pairing.
Qed.
#[local] Opaque heap1 heap0 slab_alloc slab_dealloc.
Lemma small_fits : fits SMALL 32.
Proof. split; [cbn; lia|]. split; reflexivity. Qed.
Lemma heap1_reachable : rtc heap_step (heap_start heap_mem, []) (heap1, [(BLOCK_1, 32)]).
Proof. apply rtc_once. apply (step_alloc _ [] SMALL); [apply small_fits|vm_compute; reflexivity|exact heap1_run]. Qed.

Lemma heap_blocks_disjoint_witness :
  exists s, s ∈ slabs (slab_allocator heap1) /\ base_addr s + 64 <= BLOCK_1 /\ BLOCK_1 + 32 <= base_addr s + SLAB_BYTES.
Proof.
  destruct (heap_blocks_disjoint heap_mem heap1 [(BLOCK_1, 32)] heap1_reachable) as (_ & H & _). apply (H 0%nat). reflexivity.
Defined.
Lemma heap_serves_requests_witness : served SMALL heap1 [(BLOCK_1, 32)].
Proof.
  destruct (heap_serves_requests heap_mem heap1 [(BLOCK_1, 32)] SMALL 32 heap1_reachable small_fits) as [H _].
  specialize (H eq_refl). rewrite decide_True in H; [exact H|]. vm_compute. left.
Defined.
#[local] Transparent heap1 heap0 slab_alloc slab_dealloc.

(** ** Two slabs of a class *)
Definition PAGE_LAYOUT : Layout := mkLayout 4096 8.
Fixpoint alloc_many (n : nat) (l : Layout) : st Heap unit (list Z) :=
  match n with O => mret [] | S n => p ← slab_alloc l; ps ← alloc_many n l; mret (p :: ps) end.
Fixpoint dealloc_all (ps : list Z) (l : Layout) : st Heap unit unit :=
  match ps with [] => mret tt | p :: ps => _ ← slab_dealloc p l; dealloc_all ps l end.

(** Fifteen blocks of a page, the last of which is in a second slab.  Releasing the last one and
    thirteen of the others empties the first slab by its count, and its pages are unmapped while
    its last block is in use: nothing is mapped at the block's header. *)
Definition two_slabs_run : st Heap unit (option Z * option BlockMeta) :=
  ps ← alloc_many 15 PAGE_LAYOUT;
  let kept := default 0 (ps !! 13%nat) in
  _ ← dealloc_all (take 13 ps ++ drop 14 ps) PAGE_LAYOUT;
  h ← st_get;
  mret (ps !! 14%nat, block_metas h !! (kept - 32)).
Example block_in_use_unmapped : (two_slabs_run heap0).1 = Ok (Some (SLAB_BASE_ADDR + SLAB_BYTES + 64), None).
Proof. vm_compute. reflexivity. Qed.

(** With the first slab of a class full, every request makes a new slab of its own, although the
    second has room: the sixteenth block is at the start of a third slab. *)
Example slab_for_every_block :
  match (alloc_many 16 PAGE_LAYOUT heap0).1 with
  | Ok ps => ps !! 15%nat = Some (SLAB_BASE_ADDR + 2 * SLAB_BYTES + 64)
  | _ => False
  end.
Proof. vm_compute. reflexivity. Qed.

(** A layout aligned to 64 bytes gets a block that is not. *)
Example alignment_missed :
  match (alloc_many 2 (mkLayout 64 64) heap0).1 with
  | Ok [p; q] => p mod 64 = 0 /\ q mod 64 = 32
  | _ => False
  end.
Proof. vm_compute. split; reflexivity. Qed.

(** A layout whose alignment exceeds its size is taken from one class and given back to another,
    whose count it lowers: here the class of 8 bytes is given up with its block in use. *)
Definition mixed_classes_run : st Heap unit (list Z) :=
  p ← slab_alloc (mkLayout 8 8);
  q ← slab_alloc (mkLayout 8 16);
  _ ← slab_dealloc q (mkLayout 8 16);
  h ← st_get;
  mret (slab_size <$> slabs (slab_allocator h)).
Example released_to_other_class : (mixed_classes_run heap0).1 = Ok [16].
Proof. vm_compute. reflexivity. Qed.
