(* ===== verification/Time.v ===== *)
(** * The clock (zenos-kernel/src/time.rs)

    Reading the real-time clock, the time since then from the timer's ticks, and the seconds
    since 1970. *)
From S2P Require Import Prelude.

Definition CURRENT_YEAR : Z := 2026.
Definition CENTURY_REGISTER : Z := 0x00.

Record CurrentTime := mkTime { second : Z; minute : Z; hour : Z; day : Z; month : Z; year : Z }.

(** The registers of the clock: reading one may change what the next read gives. *)
Class Rtc (R : Type) := { cmos : Z -> R -> Z * R }.
(** The static variables. *)
Record Clock (R : Type) := mkClock {
  BOOT_TIME_SECS : Z; BOOT_DAY : Z; BOOT_MONTH : Z; BOOT_YEAR : Z; BOOT_TIME_INITIALIZED : bool; TICK_COUNT : Z; rtc : R }.
Arguments mkClock {R}.
Arguments BOOT_TIME_SECS {R}.
Arguments BOOT_DAY {R}.
Arguments BOOT_MONTH {R}.
Arguments BOOT_YEAR {R}.
Arguments BOOT_TIME_INITIALIZED {R}.
Arguments TICK_COUNT {R}.
Arguments rtc {R}.

Definition bcd_to_bin {E} (val : Z) : outcome E Z :=
  t ← umul 8 (Z.shiftr val 4) 10; uadd 8 (Z.land val 0x0F) t.

Section Clock.
Context `{Rtc R}.

Definition read_cmos {E} (reg : Z) : st R E Z := fun r => let '(v, r) := cmos reg r in (Ok v, r).
Definition is_updating {E} : st R E bool := v ← read_cmos 0x0A; mret (negb (Z.land v 0x80 =? 0)).
Fixpoint wait_update {E} (fuel : nat) : st R E unit :=
  match fuel with
  | O => st_lift Panic
  | S fuel => u ← is_updating; if (u : bool) then wait_update fuel else mret tt
  end.
(** Seconds, minutes, hours, day, month, year and century. *)
Definition read_registers {E} : st R E (list Z) :=
  sec ← read_cmos 0x00; min ← read_cmos 0x02; hr ← read_cmos 0x04;
  day ← read_cmos 0x07; mon ← read_cmos 0x08; yr ← read_cmos 0x09;
  cent ← (if negb (CENTURY_REGISTER =? 0) then read_cmos CENTURY_REGISTER else mret 0);
  mret [sec; min; hr; day; mon; yr; cent].
(** The loop that reads until two readings agree; a panic stands for a loop that has not ended. *)
Fixpoint read_stable {E} (fuel : nat) (last : list Z) : st R E (list Z) :=
  match fuel with
  | O => st_lift Panic
  | S fuel =>
      _ ← wait_update fuel;
      current ← read_registers;
      if decide (current = last) then mret current else read_stable fuel current
  end.
Definition decode_time {E} (current : list Z) (register_b : Z) : outcome E CurrentTime :=
  match current with
  | [sec; min; hr; day; mon; yr; cent] =>
      '(sec, min, hr0, day, mon, yr, cent) ←
        (if Z.land register_b 0x04 =? 0 then
           sec ← bcd_to_bin sec; min ← bcd_to_bin min; hr ← bcd_to_bin (Z.land hr 0x7F);
           day ← bcd_to_bin day; mon ← bcd_to_bin mon; yr ← bcd_to_bin yr;
           cent ← (if negb (CENTURY_REGISTER =? 0) then bcd_to_bin cent else Ok cent);
           Ok (sec, min, hr, day, mon, yr, cent)
         else Ok (sec, min, hr, day, mon, yr, cent));
      hr ← (if (Z.land register_b 0x02 =? 0) && negb (Z.land hr 0x80 =? 0)
            then t ← uadd 8 hr0 12; Ok (t mod 24) else Ok hr0);
      full_year ← (if negb (CENTURY_REGISTER =? 0) then t ← umul 16 cent 100; uadd 16 t yr
                   else full ← uadd 16 (CURRENT_YEAR / 100 * 100) yr;
                        if full <? CURRENT_YEAR then uadd 16 full 100 else Ok full);
      Ok (mkTime sec min hr day mon full_year)
  | _ => Panic
  end.
Definition read_rtc {E} (fuel : nat) : st R E CurrentTime :=
  current ← read_stable fuel [0; 0; 0; 0; 0; 0; 0];
  register_b ← read_cmos 0x0B;
  st_lift (decode_time current register_b).

Definition to_seconds_since_midnight (t : CurrentTime) : Z := hour t * 3600 + minute t * 60 + second t.
Definition from_seconds_with_date (secs day month year : Z) : CurrentTime :=
  let days_elapsed := secs / 86400 in
  let secs := secs mod 86400 in
  let hour := wrap 8 (secs / 3600) in
  let secs := secs mod 3600 in
  mkTime (wrap 8 (secs mod 60)) (wrap 8 (secs / 60)) hour
    (Z.min (saturating_add 8 day (wrap 8 days_elapsed)) 31) month year.

Definition tick {E} : st (Clock R) E unit := fun c =>
  (Ok tt, mkClock (BOOT_TIME_SECS c) (BOOT_DAY c) (BOOT_MONTH c) (BOOT_YEAR c) (BOOT_TIME_INITIALIZED c) (wrap 64 (TICK_COUNT c + 1)) (rtc c)).
Definition current_time {E} (fuel : nat) : st (Clock R) E CurrentTime := fun c =>
  if negb (BOOT_TIME_INITIALIZED c) then
    let '(r, d) := read_rtc fuel (rtc c) in
    match r with
    | Ok t => (Ok t, mkClock (to_seconds_since_midnight t) (day t) (month t) (year t) true (TICK_COUNT c) d)
    | Err e => (Err e, mkClock (BOOT_TIME_SECS c) (BOOT_DAY c) (BOOT_MONTH c) (BOOT_YEAR c) false (TICK_COUNT c) d)
    | Panic => (Panic, c)
    end
  else
    (total_secs ← uadd 64 (BOOT_TIME_SECS c) (TICK_COUNT c / 100);
     Ok (from_seconds_with_date total_secs (wrap 8 (BOOT_DAY c)) (wrap 8 (BOOT_MONTH c)) (wrap 16 (BOOT_YEAR c))), c).
End Clock.

(** ** Seconds since 1970 *)
Definition DAYS_IN_MONTH : list Z := [31; 28; 31; 30; 31; 30; 31; 31; 30; 31; 30; 31].
Definition is_leap (year : Z) : bool := ((year mod 4 =? 0) && negb (year mod 100 =? 0)) || (year mod 400 =? 0).
Fixpoint add_years {E} (ys : list Z) (days : Z) : outcome E Z :=
  match ys with
  | [] => Ok days
  | y :: ys => days ← uadd 64 days (if is_leap y then 366 else 365); add_years ys days
  end.
Fixpoint add_months {E} (ms : list nat) (year days : Z) : outcome E Z :=
  match ms with
  | [] => Ok days
  | m :: ms =>
      d ← unwrap (DAYS_IN_MONTH !! m);
      days ← uadd 64 days d;
      days ← (if Nat.eqb m 1 && is_leap year then uadd 64 days 1 else Ok days);
      add_months ms year days
  end.
Definition as_unix_epoch {E} (t : CurrentTime) : outcome E Z :=
  days ← add_years (seqZ 1970 (year t - 1970)) 0;
  months ← usub (month t) 1;
  days ← add_months (seq 0 (Z.to_nat months)) (year t) days;
  d ← usub (day t) 1;
  days ← uadd 64 days d;
  s ← umul 64 days 86400;
  h ← umul 64 (hour t) 3600;
  s ← uadd 64 s h;
  m ← umul 64 (minute t) 60;
  s ← uadd 64 s m;
  uadd 64 s (second t).

(** ** The calendar *)
(** The Gregorian calendar, stated apart from the code: every fourth year is a leap year, of the
    full centuries only every fourth; April, June, September and November have thirty days. *)
Definition leap_year (y : Z) : bool :=
  if y mod 400 =? 0 then true else if y mod 100 =? 0 then false else y mod 4 =? 0.
Definition month_length (year month : Z) : Z :=
  match month with
  | 4 | 6 | 9 | 11 => 30
  | 2 => if leap_year year then 29 else 28
  | _ => 31
  end.
(** A moment from 1970 on, with fields of their widths. *)
Record valid_time (t : CurrentTime) : Prop := {
  vt_second : 0 <= second t < 60;
  vt_minute : 0 <= minute t < 60;
  vt_hour : 0 <= hour t < 24;
  vt_day : 1 <= day t <= month_length (year t) (month t);
  vt_month : 1 <= month t <= 12;
  vt_year : 1970 <= year t < 2 ^ 16;
}.
Definition next_day (t : CurrentTime) : CurrentTime :=
  if day t <? month_length (year t) (month t) then mkTime (second t) (minute t) (hour t) (day t + 1) (month t) (year t)
  else if month t <? 12 then mkTime (second t) (minute t) (hour t) 1 (month t + 1) (year t)
  else mkTime (second t) (minute t) (hour t) 1 1 (year t + 1).

(** Days before the year, and before the month in the year. *)
Definition leaps (y : Z) : Z := y / 4 - y / 100 + y / 400.
Definition year_days (y : Z) : Z := 365 * (y - 1970) + (leaps (y - 1) - leaps 1969).
Fixpoint months_before (year : Z) (n : nat) : Z :=
  match n with O => 0 | S n => months_before year n + month_length year (Z.of_nat (S n)) end.

Lemma is_leap_year y : is_leap y = leap_year y.
Proof.
  unfold is_leap, leap_year. destruct (Z.eqb_spec (y mod 4) 0), (Z.eqb_spec (y mod 100) 0), (Z.eqb_spec (y mod 400) 0); try done;
    Z.to_euclidean_division_equations; lia.
Qed.
(** The table of the code, with the day added to February, is the calendar's. *)
Lemma month_length_table y m : (m < 12)%nat ->
  month_length y (Z.of_nat (S m)) = DAYS_IN_MONTH !!! m + if Nat.eqb m 1 && is_leap y then 1 else 0.
Proof.
  intros Hm. rewrite is_leap_year. unfold month_length. do 12 (destruct m as [|m]; [cbn; by destruct (leap_year y)|]). lia.
Qed.
Lemma leap_step y : leaps y = leaps (y - 1) + if is_leap y then 1 else 0.
Proof.
  unfold leaps, is_leap. destruct (Z.eqb_spec (y mod 4) 0), (Z.eqb_spec (y mod 100) 0), (Z.eqb_spec (y mod 400) 0); cbn;
    Z.to_euclidean_division_equations; lia.
Qed.
Lemma year_days_step y : year_days (y + 1) = year_days y + (if is_leap y then 366 else 365).
Proof. unfold year_days. replace (y + 1 - 1) with y by lia. rewrite leap_step. destruct (is_leap y); lia. Qed.
Lemma year_days_bound y : 1970 <= y < 2 ^ 16 + 1 -> 0 <= year_days y < 2 ^ 25.
Proof. intros Hy. unfold year_days, leaps. Z.to_euclidean_division_equations. lia. Qed.
Lemma month_length_pos y m : 28 <= month_length y m <= 31.
Proof. unfold month_length. repeat case_match; lia. Qed.
Lemma months_before_bound y n : 0 <= months_before y n <= 32 * Z.of_nat n.
Proof. induction n as [|n IH]; [cbn; lia|]. cbn [months_before]. pose proof (month_length_pos y (Z.of_nat (S n))). lia. Qed.

Lemma add_years_ok {E} n : forall y days, 1970 <= y -> y + Z.of_nat n <= 2 ^ 16 -> days = year_days y ->
  add_years (E := E) (seqZ y (Z.of_nat n)) days = Ok (year_days (y + Z.of_nat n)).
Proof.
  induction n as [|n IH]; intros y days Hy Hn ->; [cbn; by rewrite Z.add_0_r|]. rewrite seqZ_cons by lia. cbn [add_years].
  pose proof (year_days_bound y ltac:(lia)). rewrite uadd_eq by (destruct (is_leap y); lia). cbn [mbind outcome_bind].
  replace (Z.pred (Z.of_nat (S n))) with (Z.of_nat n) by lia. rewrite (IH (Z.succ y)) by (lia || by rewrite <-year_days_step). do 2 f_equal. lia.
Qed.
Lemma add_months_ok {E} year n : forall m days, (m + n <= 12)%nat -> 0 <= days -> days + 40 * Z.of_nat n < 2 ^ 26 ->
  add_months (E := E) (seq m n) year days = Ok (days + (months_before year (m + n) - months_before year m)).
Proof.
  induction n as [|n IH]; intros m days Hm H0 Hd; [cbn; rewrite Nat.add_0_r; f_equal; lia|]. cbn [seq add_months].
  destruct (DAYS_IN_MONTH !! m) as [d|] eqn:Hdm; [|apply lookup_ge_None in Hdm; cbn in Hdm; lia]. cbn [unwrap mbind outcome_bind].
  pose proof (month_length_pos year (Z.of_nat (S m))) as Hb.
  pose proof (month_length_table year m ltac:(lia)) as Hl. rewrite (list_lookup_total_correct _ _ _ Hdm) in Hl.
  rewrite uadd_eq by (destruct (_ && _); lia). cbn [mbind outcome_bind].
  assert (Hn : (if Nat.eqb m 1 && is_leap year then uadd (E := E) 64 (days + d) 1 else Ok (days + d)) = Ok (days + month_length year (Z.of_nat (S m)))).
  { rewrite Hl. destruct (_ && _); [rewrite uadd_eq by lia|]; f_equal; lia. }
  rewrite Hn. cbn [mbind outcome_bind]. rewrite (IH (S m)) by lia. replace (m + S n)%nat with (S m + n)%nat by lia. cbn [months_before]. f_equal. lia.
Qed.

(** The days from the start of 1970 to the date. *)
Definition date_number (t : CurrentTime) : Z :=
  year_days (year t) + months_before (year t) (Z.to_nat (month t - 1)) + (day t - 1).
Lemma date_number_bound t : valid_time t -> 0 <= date_number t < 2 ^ 26.
Proof.
  intros [_ _ _ Hd Hm Hy]. unfold date_number. pose proof (year_days_bound (year t) ltac:(lia)).
  pose proof (months_before_bound (year t) (Z.to_nat (month t - 1))). pose proof (month_length_pos (year t) (month t)). lia.
Qed.
Lemma as_unix_epoch_ok {E} t : valid_time t ->
  as_unix_epoch (E := E) t = Ok (86400 * date_number t + to_seconds_since_midnight t).
Proof.
  intros Ht. pose proof (date_number_bound t Ht) as Hb. destruct Ht as [Hs Hmi Hh Hd Hm Hy]. unfold as_unix_epoch.
  pose proof (year_days_bound (year t) ltac:(lia)) as Hyd. pose proof (months_before_bound (year t) (Z.to_nat (month t - 1))) as Hmb.
  pose proof (month_length_pos (year t) (month t)) as Hlb.
  replace (year t - 1970) with (Z.of_nat (Z.to_nat (year t - 1970))) by lia. rewrite (add_years_ok _ 1970 0) by (lia || reflexivity).
  replace (1970 + Z.of_nat (Z.to_nat (year t - 1970))) with (year t) by lia. cbn [mbind outcome_bind].
  rewrite (usub_eq (month t)) by lia. cbn [mbind outcome_bind]. rewrite add_months_ok by lia. cbn [mbind outcome_bind plus months_before].
  rewrite Z.sub_0_r. rewrite usub_eq by lia. cbn [mbind outcome_bind]. rewrite uadd_eq by lia. cbn [mbind outcome_bind].
  fold (date_number t). unfold to_seconds_since_midnight. repeat (rewrite ?umul_eq, ?uadd_eq by lia; cbn [mbind outcome_bind]). f_equal. lia.
Qed.

(** ** Dates in order *)
Lemma months_before_year y : months_before y 12 = if is_leap y then 366 else 365.
Proof. rewrite is_leap_year. unfold months_before, month_length. cbn. by destruct (leap_year y). Qed.
Lemma next_day_valid t : valid_time t -> year (next_day t) < 2 ^ 16 -> valid_time (next_day t).
Proof.
  intros [Hs Hmi Hh Hd Hm Hy]. unfold next_day. destruct (Z.ltb_spec (day t) (month_length (year t) (month t)));
    [|destruct (Z.ltb_spec (month t) 12)]; cbn; intros; split; cbn; try lia.
  pose proof (month_length_pos (year t) (month t + 1)). lia.
Qed.
Lemma next_day_number t : valid_time t -> date_number (next_day t) = date_number t + 1.
Proof.
  intros [Hs Hmi Hh Hd Hm Hy]. unfold next_day, date_number. destruct (Z.ltb_spec (day t) (month_length (year t) (month t)));
    [|destruct (Z.ltb_spec (month t) 12)]; cbn [year month day]; [lia| |].
  - replace (Z.to_nat (month t + 1 - 1)) with (S (Z.to_nat (month t - 1))) by lia. cbn [months_before].
    replace (Z.of_nat (S (Z.to_nat (month t - 1)))) with (month t) by lia. lia.
  - assert (month t = 12) as Hm12 by lia. rewrite Hm12 in *. pose proof (months_before_year (year t)) as Hyr.
    change (Z.to_nat (12 - 1)) with 11%nat.
    assert (months_before (year t) 12 = months_before (year t) 11 + month_length (year t) 12) as Hlast by reflexivity.
    change (months_before (year t + 1) (Z.to_nat (1 - 1))) with 0. rewrite year_days_step. lia.
Qed.
Definition prev_day (t : CurrentTime) : CurrentTime :=
  if 1 <? day t then mkTime (second t) (minute t) (hour t) (day t - 1) (month t) (year t)
  else if 1 <? month t then mkTime (second t) (minute t) (hour t) (month_length (year t) (month t - 1)) (month t - 1) (year t)
  else mkTime (second t) (minute t) (hour t) 31 12 (year t - 1).
Lemma prev_day_valid t : valid_time t -> 0 < date_number t -> valid_time (prev_day t) /\ next_day (prev_day t) = t.
Proof.
  destruct t as [s mi h d m y]. intros [Hs Hmi Hh Hd Hm Hy] Hn. cbn in *. unfold prev_day, next_day. cbn.
  destruct (Z.ltb_spec 1 d); [|destruct (Z.ltb_spec 1 m)]; cbn.
  - split; [split; cbn; lia|]. destruct (Z.ltb_spec (d - 1) (month_length y m)); [|lia]. f_equal; lia.
  - pose proof (month_length_pos y (m - 1)). split; [split; cbn; lia|]. rewrite Z.ltb_irrefl.
    destruct (Z.ltb_spec (m - 1) 12); [|lia]. f_equal; lia.
  - assert (d = 1 /\ m = 1) as [-> ->] by lia. unfold date_number in Hn. cbn in Hn.
    destruct (decide (y = 1970)) as [->|Hy']; [cbv in Hn; discriminate Hn|].
    split; [split; cbn; try lia; change (1 <= 31 <= 31); lia|]. f_equal; lia.
Qed.

Definition first_day (t : CurrentTime) : CurrentTime := mkTime (second t) (minute t) (hour t) 1 1 1970.
Lemma date_number_zero t : valid_time t -> date_number t = 0 -> first_day t = t.
Proof.
  destruct t as [s mi h d m y]. intros [Hs Hmi Hh Hd Hm Hy] Hn. unfold first_day, date_number in *. cbn in *.
  pose proof (months_before_bound y (Z.to_nat (m - 1))) as Hb.
  assert (y = 1970) as -> by (pose proof (year_days_bound y ltac:(lia)); unfold year_days, leaps in *; Z.to_euclidean_division_equations; lia).
  change (year_days 1970) with 0 in Hn. destruct (Z.to_nat (m - 1)) as [|k] eqn:Hk; [f_equal; lia|].
  cbn [months_before] in *. pose proof (months_before_bound 1970 k). pose proof (month_length_pos 1970 (Z.of_nat (S k))). lia.
Qed.
Lemma date_reached n : forall t, valid_time t -> date_number t = Z.of_nat n -> t = Nat.iter n next_day (first_day t).
Proof.
  induction n as [|n IH]; intros t Ht Hn.
  - by rewrite <-(date_number_zero t) at 1.
  - destruct (prev_day_valid t Ht ltac:(lia)) as [Hp Hnp]. pose proof (next_day_number _ Hp) as Hd. rewrite Hnp in Hd.
    rewrite Nat.iter_succ, <-Hnp at 1. f_equal. rewrite (IH (prev_day t)) by (done || lia). f_equal.
    unfold first_day, prev_day. destruct (1 <? day t), (1 <? month t); done.
Qed.

(** C36: the seconds since 1970 follow the Gregorian calendar: every date from 1970 on (the year
    in sixteen bits) is reached from the first of January 1970 by a number of days, and its epoch
    is those days in seconds and the seconds since midnight. *)
Theorem epoch_counts_days {E} t : valid_time t ->
  exists n, t = Nat.iter n next_day (first_day t) /\
    as_unix_epoch (E := E) t = Ok (86400 * Z.of_nat n + (3600 * hour t + 60 * minute t + second t)).
Proof.
  intros Ht. pose proof (date_number_bound t Ht) as Hb. exists (Z.to_nat (date_number t)).
  split; [apply date_reached; [done|lia]|]. rewrite as_unix_epoch_ok, Z2Nat.id by (done || lia).
  f_equal. unfold to_seconds_since_midnight. lia.
Qed.
Lemma epoch_counts_days_witness :
  exists n, mkTime 30 15 10 29 2 2028 = Nat.iter n next_day (mkTime 30 15 10 1 1 1970) /\
    as_unix_epoch (E := unit) (mkTime 30 15 10 29 2 2028) = Ok (86400 * Z.of_nat n + (3600 * 10 + 60 * 15 + 30)).
Proof. apply (epoch_counts_days (mkTime 30 15 10 29 2 2028)). split; cbn -[month_length]; change (month_length 2028 2) with 29; lia. Defined.

(** ** The time from the ticks *)
Lemma from_seconds_ok secs d m y :
  0 <= secs -> 1 <= d -> d + secs / 86400 <= month_length y m -> 1 <= m <= 12 -> 1970 <= y < 2 ^ 16 ->
  let t := from_seconds_with_date secs d m y in
  valid_time t /\ 86400 * date_number t + to_seconds_since_midnight t = 86400 * date_number (mkTime 0 0 0 d m y) + secs.
Proof.
  intros Hs Hd Hm Hmo Hy. cbn zeta. pose proof (month_length_pos y m) as Hl.
  assert (Hq : 0 <= secs / 86400) by (apply Z.div_pos; lia). pose proof (Z.mod_pos_bound secs 86400 ltac:(lia)) as Hr.
  unfold from_seconds_with_date. rewrite !wrap_small by (unfold is_u; Z.to_euclidean_division_equations; lia).
  unfold saturating_add. change (umax 8) with 255. rewrite !Z.min_l by lia.
  unfold to_seconds_since_midnight, date_number.
  split; [split|]; cbn [second minute hour day month year]; Z.to_euclidean_division_equations; lia.
Qed.

Section Ticks.
Context `{Rtc R}.

Fixpoint ticks {E} (n : nat) : st (Clock R) E unit :=
  match n with O => mret tt | S n => _ ← tick; ticks n end.
Definition with_ticks (c : Clock R) (k : Z) : Clock R :=
  mkClock (BOOT_TIME_SECS c) (BOOT_DAY c) (BOOT_MONTH c) (BOOT_YEAR c) (BOOT_TIME_INITIALIZED c) k (rtc c).
Lemma ticks_ok {E} n : forall c, 0 <= TICK_COUNT c -> TICK_COUNT c + Z.of_nat n < 2 ^ 64 ->
  ticks (E := E) n c = (Ok tt, with_ticks c (TICK_COUNT c + Z.of_nat n)).
Proof.
  induction n as [|n IH]; intros c H0 Hn; [destruct c; cbn; by rewrite Z.add_0_r|]. cbn [ticks].
  assert (Ht : tick (E := E) c = (Ok tt, with_ticks c (TICK_COUNT c + 1))).
  { unfold tick. rewrite wrap_small by (unfold is_u; lia). done. }
  rewrite (st_bind_eq _ _ _ _ _ Ht), IH by (cbn; lia). unfold with_ticks. cbn. do 2 f_equal. lia.
Qed.

(** After the first reading the clock follows the timer: any number of ticks later, within the
    month, the time is a valid one whose seconds since 1970 are those of the first reading and one
    for every hundred ticks counted. *)
Theorem clock_follows_ticks {E} fuel n (c : Clock R) t d :
  BOOT_TIME_INITIALIZED c = false -> read_rtc (E := E) fuel (rtc c) = (Ok t, d) -> valid_time t ->
  0 <= TICK_COUNT c -> TICK_COUNT c + Z.of_nat n < 2 ^ 63 ->
  day t + (to_seconds_since_midnight t + (TICK_COUNT c + Z.of_nat n) / 100) / 86400 <= month_length (year t) (month t) ->
  exists t' c' e, (_ ← current_time fuel; _ ← ticks n; current_time fuel) c = (Ok (E := E) t', c') /\ valid_time t' /\
    as_unix_epoch (E := E) t = Ok e /\ as_unix_epoch (E := E) t' = Ok (e + (TICK_COUNT c + Z.of_nat n) / 100).
Proof using Type.
  intros Hi Hr Ht H0 Hn Hm. set (k := TICK_COUNT c + Z.of_nat n) in *.
  pose proof Ht as [Hs Hmi Hh Hd Hmo Hy]. pose proof (month_length_pos (year t) (month t)) as Hl.
  assert (Hsec : 0 <= to_seconds_since_midnight t < 86400) by (unfold to_seconds_since_midnight; lia).
  assert (Hk : 0 <= k / 100) by (apply Z.div_pos; lia). assert (k / 100 < 2 ^ 63) by (apply Z.div_lt_upper_bound; lia).
  destruct (from_seconds_ok (to_seconds_since_midnight t + k / 100) (day t) (month t) (year t)) as [Hv Hnum]; [lia..|].
  eexists _, _, _. split.
  { erewrite st_bind_eq; [|unfold current_time; rewrite Hi, Hr; reflexivity].
    erewrite st_bind_eq; [|apply ticks_ok; cbn; lia]. unfold current_time. cbn. fold k. rewrite uadd_eq by lia. cbn.
    rewrite !wrap_small by (unfold is_u; lia). reflexivity. }
  split; [exact Hv|]. rewrite !as_unix_epoch_ok by done. split; [reflexivity|]. f_equal. rewrite Hnum. unfold date_number. cbn. lia.
Qed.

(** ** The first reading *)
(** The device holds its registers still, with no update in progress. *)
Definition still (r : R) (regs : Z -> Z) : Prop :=
  (forall reg, cmos reg r = (regs reg, r)) /\ Z.land (regs 0x0A) 0x80 = 0.
(** A number as the registers hold it: in decimal digits or in binary. *)
Definition field (binary : bool) (x : Z) : Z := if binary then x else 16 * (x / 10) + x mod 10.
(** The registers show a time of the years 2026 to 2125 on the clock of twenty-four hours. *)
Record shows (regs : Z -> Z) (binary : bool) (t : CurrentTime) : Prop := {
  sh_valid : valid_time t;
  sh_year : 2026 <= year t < 2126;
  sh_second : regs 0x00 = field binary (second t);
  sh_minute : regs 0x02 = field binary (minute t);
  sh_hour : regs 0x04 = field binary (hour t);
  sh_day : regs 0x07 = field binary (day t);
  sh_month : regs 0x08 = field binary (month t);
  sh_years : regs 0x09 = field binary (year t mod 100);
  sh_mode : Z.land (regs 0x0B) 0x04 = 0 <-> binary = false;
  sh_hours : Z.land (regs 0x0B) 0x02 <> 0;
}.
Lemma bcd_to_bin_field {E} x : 0 <= x < 100 -> bcd_to_bin (E := E) (field false x) = Ok x.
Proof.
  intros Hx. unfold bcd_to_bin, field. assert (H0 : 0 <= x / 10 < 10) by (Z.to_euclidean_division_equations; lia).
  pose proof (Z.mod_pos_bound x 10 ltac:(lia)) as H1. rewrite Z.shiftr_div_pow2 by lia. change 0x0F with (Z.ones 4). rewrite Z.land_ones by lia.
  replace ((16 * (x / 10) + x mod 10) / 2 ^ 4) with (x / 10) by (Z.to_euclidean_division_equations; lia).
  replace ((16 * (x / 10) + x mod 10) mod 2 ^ 4) with (x mod 10) by (Z.to_euclidean_division_equations; lia).
  rewrite umul_eq by lia. cbn. rewrite uadd_eq by lia. f_equal. pose proof (Z.div_mod x 10). lia.
Qed.
Lemma field_hour binary x : 0 <= x < 24 -> Z.land (field binary x) 0x7F = field binary x.
Proof.
  intros Hx. change 0x7F with (Z.ones 7). rewrite Z.land_ones by lia. apply Z.mod_small. unfold field. destruct binary; Z.to_euclidean_division_equations; lia.
Qed.
Lemma decode_year {E} y : 2026 <= y < 2126 ->
  (full ← uadd (E := E) 16 (CURRENT_YEAR / 100 * 100) (y mod 100); if full <? CURRENT_YEAR then uadd 16 full 100 else Ok full) = Ok y.
Proof.
  intros Hy. change (CURRENT_YEAR / 100 * 100) with 2000. unfold CURRENT_YEAR. rewrite uadd_eq by (Z.to_euclidean_division_equations; lia).
  cbn [mbind outcome_bind]. destruct (Z.ltb_spec (2000 + y mod 100) 2026) as [Hl|Hl];
    [rewrite uadd_eq by (Z.to_euclidean_division_equations; lia)|]; f_equal; Z.to_euclidean_division_equations; lia.
Qed.
Lemma decode_shows {E} regs binary t : shows regs binary t ->
  decode_time (E := E) [regs 0x00; regs 0x02; regs 0x04; regs 0x07; regs 0x08; regs 0x09; 0] (regs 0x0B) = Ok t.
Proof.
  intros [Ht Hy -> -> -> -> -> -> Hmode Hhours]. pose proof Ht as [Hs Hmi Hh Hd Hm _]. pose proof (month_length_pos (year t) (month t)).
  pose proof (Z.mod_pos_bound (year t) 100 ltac:(lia)).
  unfold decode_time. change (negb (CENTURY_REGISTER =? 0)) with false. cbv iota.
  rewrite (proj2 (Z.eqb_neq (Z.land (regs 11) 2) 0) Hhours). cbn [andb].
  destruct binary; [rewrite (proj2 (Z.eqb_neq _ _)) by (intros Hc; by apply Hmode in Hc)|rewrite (proj2 (Z.eqb_eq _ _)) by (by apply Hmode)].
  - cbn [mbind outcome_bind field]. rewrite decode_year by done. by destruct t.
  - rewrite field_hour, !bcd_to_bin_field by lia. cbn [mbind outcome_bind]. rewrite decode_year by done. by destruct t.
Qed.
Lemma read_cmos_still {E} reg r regs : still r regs -> read_cmos (E := E) reg r = (Ok (regs reg), r).
Proof. intros [Hc _]. unfold read_cmos. by rewrite Hc. Qed.
Lemma wait_update_still {E} fuel r regs : still r regs -> wait_update (E := E) (S fuel) r = (Ok tt, r).
Proof.
  intros Hst. pose proof Hst as [_ Hu]. cbn [wait_update]. assert (Hi : is_updating (E := E) r = (Ok false, r)).
  { unfold is_updating. rewrite (st_bind_eq _ _ _ _ _ (read_cmos_still 0x0A r regs Hst)), Hu. done. }
  by rewrite (st_bind_eq _ _ _ _ _ Hi).
Qed.
Lemma read_registers_still {E} r regs : still r regs ->
  read_registers (E := E) r = (Ok [regs 0x00; regs 0x02; regs 0x04; regs 0x07; regs 0x08; regs 0x09; 0], r).
Proof.
  intros Hst. unfold read_registers. repeat rewrite (st_bind_eq _ _ _ _ _ (read_cmos_still _ r regs Hst)). done.
Qed.

(** The first reading ends with the time the device shows, in decimal digits or in binary,
    after at most three rounds, where the device holds still on the clock of twenty-four hours. *)
Theorem read_rtc_shows {E} r regs binary t fuel :
  still r regs -> shows regs binary t -> read_rtc (E := E) (3 + fuel) r = (Ok t, r).
Proof.
  intros Hst Hsh. set (cur := [regs 0x00; regs 0x02; regs 0x04; regs 0x07; regs 0x08; regs 0x09; 0]).
  assert (Hround : forall fuel last, read_stable (E := E) (S (S fuel)) last r =
    if decide (cur = last) then (Ok cur, r) else read_stable (S fuel) cur r).
  { intros fl last. cbn [read_stable]. rewrite (st_bind_eq _ _ _ _ _ (wait_update_still fl r regs Hst)),
      (st_bind_eq _ _ _ _ _ (read_registers_still r regs Hst)). fold cur. by destruct (decide (cur = last)). }
  assert (Hread : read_stable (E := E) (3 + fuel) [0; 0; 0; 0; 0; 0; 0] r = (Ok cur, r)).
  { change (3 + fuel)%nat with (S (S (S fuel))). rewrite Hround. destruct (decide (cur = _)); [done|].
    rewrite Hround. by destruct (decide (cur = cur)). }
  unfold read_rtc. rewrite (st_bind_eq _ _ _ _ _ Hread).
  rewrite (st_bind_eq _ _ _ _ _ (read_cmos_still 0x0B r regs Hst)). unfold st_lift, cur. by rewrite (decode_shows regs binary t).
Qed.
End Ticks.

(** ** Examples *)
(** A device at rest, by the contents of its registers. *)
#[local] Instance registers_rtc : Rtc (list Z) := { cmos reg r := (default 0 (r !! Z.to_nat reg), r) }.
(** 2026-02-27 23:59:30 in decimal digits, on the clock of twenty-four hours. *)
Definition sample_registers : list Z := [0x30; 0; 0x59; 0; 0x23; 0; 0; 0x27; 0x02; 0x26; 0x26; 0x02].
Definition sample_regs (reg : Z) : Z := default 0 (sample_registers !! Z.to_nat reg).
Definition sample_time : CurrentTime := mkTime 30 59 23 27 2 2026.
Lemma sample_time_valid : valid_time sample_time.
Proof. split; cbn -[month_length]; change (month_length 2026 2) with 28; lia. Qed.
Lemma read_rtc_shows_witness : read_rtc (E := unit) 3 sample_registers = (Ok sample_time, sample_registers).
Proof.
  apply (read_rtc_shows sample_registers sample_regs false sample_time 0); by split.
Defined.
Definition sample_clock : Clock (list Z) := mkClock 0 0 0 0 false 0 sample_registers.
(** A minute later it is the twenty-eighth. *)
Lemma clock_follows_ticks_witness :
  exists t' c' e, (_ ← current_time 3; _ ← ticks 6000; current_time 3) sample_clock = (Ok (E := unit) t', c') /\ valid_time t' /\
    as_unix_epoch (E := unit) sample_time = Ok e /\ as_unix_epoch (E := unit) t' = Ok (e + 60).
Proof.
  refine (clock_follows_ticks 3 6000 sample_clock sample_time sample_registers _ _ _ _ _ _);
    [reflexivity|vm_compute; reflexivity|apply sample_time_valid|cbn; lia|cbn; lia|vm_compute; discriminate].
Defined.

(** Past the end of February the date is one the calendar does not have. *)
Example february_does_not_end : (from_seconds_with_date (86400 * 3) 28 2 2026) = mkTime 0 0 0 31 2 2026.
Proof. reflexivity. Qed.
(** Five days after the last of January it is still the last of January, and the seconds since 1970
    stand five days back. *)
Example january_does_not_end : from_seconds_with_date (86400 * 5) 31 1 2026 = from_seconds_with_date 0 31 1 2026.
Proof. reflexivity. Qed.
(** On the clock of twelve hours, noon (twelve, with the flag of the afternoon) reads as midnight,
    and midnight (twelve, without it) as noon. *)
Example twelve_hours :
  decode_time (E := unit) [0; 0; 0x92; 1; 1; 0x26; 0] 0 = Ok (mkTime 0 0 0 1 1 2026) /\
  decode_time (E := unit) [0; 0; 0x12; 1; 1; 0x26; 0] 0 = Ok (mkTime 0 0 12 1 1 2026).
Proof. done. Qed.
(** In binary the flag of the afternoon is taken for a part of the hour: one in the afternoon reads
    as twenty-one. *)
Example afternoon_in_binary : decode_time (E := unit) [0; 0; 0x81; 1; 1; 26; 0] 0x04 = Ok (mkTime 0 0 21 1 1 2026).
Proof. reflexivity. Qed.
(** The ticks before the first reading are counted again: read first after a minute of ticks, the
    clock is a minute ahead at once. *)
Example first_reading_late :
  fst ((_ ← current_time 3; current_time 3) (mkClock 0 0 0 0 false 6000 sample_registers)) = Ok (E := unit) (mkTime 30 0 0 28 2 2026).
Proof. vm_compute. reflexivity. Qed.
(** A device whose date was never set stops the kernel. *)
Example unset_date : as_unix_epoch (E := unit) (mkTime 0 0 0 0 1 2026) = Panic.
Proof. vm_compute. reflexivity. Qed.
