(* ===== verification/BootMem.v ===== *)
(** * The bootloader's physical memory map
    (zenos-bootloader/common/src/legacy_memory_region.rs)

    The frame allocator that hands out frames before the kernel runs, and the memory
    map it leaves to the kernel.  A frame is its start address.  The address types of
    the x86_64 crate are the class [PhysAddrs], with what the crate documents as laws.
    The last section joins the map to the kernel's page allocator ([PageAlloc]). *)
From S2P Require Import Prelude PageAlloc.
From Stdlib Require Import Sorted.

(** ** Data *)
Inductive MemoryRegionKind := Usable | Bootloader | UnknownUefi (tag : Z).
#[export] Instance MemoryRegionKind_eq_dec : EqDecision MemoryRegionKind.
Proof. solve_decision. Defined.

Record MemoryRegion := mkRegion { r_start : Z; r_end : Z; r_kind : MemoryRegionKind }.

Record UsedMemorySlice := mkSlice { s_start : Z; s_end : Z }.

(** What a descriptor of the firmware's map answers to the methods of the trait. *)
Record LegacyMemoryRegion := mkDesc {
  d_start : Z;
  d_len : Z;
  d_kind : MemoryRegionKind;
  d_usable_after_bootloader_exit : bool;
}.

(** [PhysAddr], [PhysFrame<Size4KiB>], [align_down] and [align_up] of the x86_64
    crate; [None] is a panic. *)
Class PhysAddrs := {
  phys_add : Z -> Z -> option Z;
  phys_sub : Z -> Z -> option Z;
  containing_address : Z -> Z;
  frame_add : Z -> Z -> option Z;
  phys_align_down : Z -> Z -> Z;
  phys_align_up : Z -> Z -> option Z;
}.

Record LegacyFrameAllocator := mkLfa {
  original : list LegacyMemoryRegion;
  memory_map : list LegacyMemoryRegion;
  current_descriptor : option LegacyMemoryRegion;
  next_frame : Z;
  min_frame : Z;
}.

Definition LOWER_MEMORY_END_PAGE : Z := 0x100000.

Definition with_next_frame (a : LegacyFrameAllocator) (f : Z) : LegacyFrameAllocator :=
  mkLfa (original a) (memory_map a) (current_descriptor a) f (min_frame a).
Definition with_map (a : LegacyFrameAllocator) (m : list LegacyMemoryRegion)
    (d : option LegacyMemoryRegion) : LegacyFrameAllocator :=
  mkLfa (original a) m d (next_frame a) (min_frame a).

(** [start + len] at 64 bits. *)
Definition new_from_len {E} (start len : Z) : outcome E UsedMemorySlice :=
  e ← uadd 64 start len; Ok (mkSlice start e).

(** ** Operations *)
Section Ops.
Context {E : Type} `{PhysAddrs}.

Definition new_starting_at (frame : Z) (map : list LegacyMemoryRegion) : LegacyFrameAllocator :=
  let lower_mem_end := containing_address LOWER_MEMORY_END_PAGE in
  let frame := Z.max frame lower_mem_end in
  mkLfa map map None frame frame.

Definition lfa_new (map : list LegacyMemoryRegion) : LegacyFrameAllocator :=
  new_starting_at (containing_address LOWER_MEMORY_END_PAGE) map.

Definition allocate_frame_from_descriptor (a : LegacyFrameAllocator) (d : LegacyMemoryRegion) :
    outcome E (option Z * LegacyFrameAllocator) :=
  let start_frame := containing_address (d_start d) in
  end_addr ← unwrap (phys_add (d_start d) (d_len d));
  last ← unwrap (phys_sub end_addr 1);
  let end_frame := containing_address last in
  let a := if next_frame a <? start_frame then with_next_frame a start_frame else a in
  if next_frame a <=? end_frame
  then next ← unwrap (frame_add (next_frame a) 1);
       Ok (Some (next_frame a), with_next_frame a next)
  else Ok (None, a).

(** The [while let] over the descriptors still to come. *)
Fixpoint find_descriptor (m : list LegacyMemoryRegion) (a : LegacyFrameAllocator) :
    outcome E (option Z * LegacyFrameAllocator) :=
  match m with
  | [] => Ok (None, with_map a [] (current_descriptor a))
  | d :: m =>
      if decide (d_kind d = Usable)
      then '(r, a) ← allocate_frame_from_descriptor a d;
           match r with
           | Some frame => Ok (Some frame, with_map a m (Some d))
           | None => find_descriptor m a
           end
      else find_descriptor m a
  end.

Definition allocate_frame (a : LegacyFrameAllocator) : outcome E (option Z * LegacyFrameAllocator) :=
  match current_descriptor a with
  | Some d =>
      '(r, a) ← allocate_frame_from_descriptor a d;
      match r with
      | Some frame => Ok (Some frame, a)
      | None => find_descriptor (memory_map a) (with_map a (memory_map a) None)
      end
  | None => find_descriptor (memory_map a) a
  end.

(** [regions[..next_index]] is the list of the entries written so far; [cap] is the
    length of the slice. *)
Definition add_region (cap : nat) (region : MemoryRegion) (regions : list MemoryRegion) :
    outcome E (list MemoryRegion) :=
  if r_start region =? r_end region then Ok regions
  else if (length regions <? cap)%nat then Ok (regions ++ [region]) else Panic.

Definition overlap (region : MemoryRegion) (slice : UsedMemorySlice) : Z * Z :=
  (Z.max (r_start region) (s_start slice), Z.min (r_end region) (s_end slice)).

(** [min_by_key] keeps the first of equal keys. *)
Fixpoint min_by_start (l : list (Z * Z)) : option (Z * Z) :=
  match l with
  | [] => None
  | o :: l =>
      match min_by_start l with
      | Some o' => if o'.1 <? o.1 then Some o' else Some o
      | None => Some o
      end
  end.

Definition earliest_overlap (region : MemoryRegion) (used_slices : list UsedMemorySlice) :
    option (Z * Z) :=
  min_by_start (filter (fun o => o.1 < o.2) (overlap region <$> used_slices)).

Fixpoint align_slices (l : list UsedMemorySlice) : outcome E (list UsedMemorySlice) :=
  match l with
  | [] => Ok []
  | s :: l =>
      e ← unwrap (phys_align_up (s_end s) 0x1000);
      l ← align_slices l;
      Ok (mkSlice (phys_align_down (s_start s) 0x1000) e :: l)
  end.

(** The [while] loop; the used slices are aligned to pages as the iterator yields
    them.  A slice is passed at most once, so one round per slice and two to finish are
    enough. *)
Fixpoint split_loop (fuel cap : nat) (region : MemoryRegion) (regions : list MemoryRegion)
    (used_slices : list UsedMemorySlice) : outcome E (list MemoryRegion) :=
  match fuel with
  | O => Panic
  | S fuel =>
      if r_start region =? r_end region then Ok regions
      else
        used ← align_slices used_slices;
        match earliest_overlap region used with
        | Some (overlap_start, overlap_end) =>
            regions ← add_region cap (mkRegion (r_start region) overlap_start Usable) regions;
            regions ← add_region cap (mkRegion overlap_start overlap_end Bootloader) regions;
            split_loop fuel cap (mkRegion overlap_end (r_end region) (r_kind region)) regions used_slices
        | None => add_region cap region regions
        end
  end.

Definition split_and_add_region (cap : nat) (region : MemoryRegion) (regions : list MemoryRegion)
    (used_slices : list UsedMemorySlice) : outcome E (list MemoryRegion) :=
  if decide (r_kind region = Usable)
  then split_loop (length used_slices + 2) cap region regions used_slices
  else Panic.

Definition used_slices (a : LegacyFrameAllocator) (kernel_start kernel_len : Z)
    (ramdisk_start : option Z) (ramdisk_len : Z) : outcome E (list UsedMemorySlice) :=
  kernel ← new_from_len kernel_start kernel_len;
  ramdisk ← match ramdisk_start with
            | Some start => s ← new_from_len start ramdisk_len; Ok [s]
            | None => Ok []
            end;
  Ok ([mkSlice (min_frame a) (next_frame a); kernel] ++ ramdisk).

Definition kernel_kind (d : LegacyMemoryRegion) : MemoryRegionKind :=
  if d_usable_after_bootloader_exit d then Usable else d_kind d.

Fixpoint add_descriptors (cap : nat) (ds : list LegacyMemoryRegion) (regions : list MemoryRegion)
    (used : list UsedMemorySlice) : outcome E (list MemoryRegion) :=
  match ds with
  | [] => Ok regions
  | d :: ds =>
      e ← unwrap (phys_add (d_start d) (d_len d));
      let region := mkRegion (d_start d) e (kernel_kind d) in
      regions ← (if decide (r_kind region = Usable)
                 then split_and_add_region cap region regions used
                 else add_region cap region regions);
      add_descriptors cap ds regions used
  end.

Definition memory_map_max_region_count (a : LegacyFrameAllocator) : nat := length (original a) + 6.

Definition construct_memory_map (a : LegacyFrameAllocator) (cap : nat)
    (kernel_start kernel_len : Z) (ramdisk_start : option Z) (ramdisk_len : Z) :
    outcome E (list MemoryRegion) :=
  used ← used_slices a kernel_start kernel_len ramdisk_start ramdisk_len;
  add_descriptors cap (original a) [] used.

(** [max_phys_addr]: panics on an empty map, covers at least 4 GiB. *)
Fixpoint descriptor_ends (ds : list LegacyMemoryRegion) : outcome E (list Z) :=
  match ds with
  | [] => Ok []
  | d :: ds => e ← unwrap (phys_add (d_start d) (d_len d)); es ← descriptor_ends ds; Ok (e :: es)
  end.

Definition max_phys_addr (a : LegacyFrameAllocator) : outcome E Z :=
  es ← descriptor_ends (original a);
  match es with
  | [] => Panic
  | e :: es => Ok (Z.max (foldl Z.max e es) 0x100000000)
  end.
End Ops.

(** The regions the kernel passes to its allocator ([kernel_init] in
    zenos-kernel/src/lib.rs; [merge_contiguous_regions] returns its argument). *)
Definition merge_contiguous_regions (regions : list MemoryRegion) : list MemoryRegion := regions.
Definition usable_regions (regions : list MemoryRegion) : list (Z * Z) :=
  (fun g => (r_start g, r_end g - r_start g)) <$>
  filter (fun g => r_kind g = Usable) (merge_contiguous_regions regions).

(** ** What the x86_64 crate documents *)
Class PhysAddrsLaws `{PhysAddrs} : Prop := {
  phys_add_ok x n : 0 <= x -> 0 <= n -> x + n < MAX_PHYS -> phys_add x n = Some (x + n);
  phys_sub_ok x n : 0 <= n <= x -> x < MAX_PHYS -> phys_sub x n = Some (x - n);
  containing_address_ok x : 0 <= x < MAX_PHYS -> containing_address x = page_of x;
  frame_add_ok f n :
    0 <= f -> 0 <= n -> f + n * PAGE_4K < MAX_PHYS -> frame_add f n = Some (f + n * PAGE_4K);
  phys_align_down_ok x : 0 <= x -> phys_align_down x PAGE_4K = page_of x;
  phys_align_up_ok x :
    0 <= x -> x + (PAGE_4K - 1) < 2 ^ 64 ->
    phys_align_up x PAGE_4K = Some (page_of (x + (PAGE_4K - 1)));
}.

Definition phys_52 (x : Z) : option Z := if (0 <=? x) && (x <? MAX_PHYS) then Some x else None.
#[export] Instance x86_phys : PhysAddrs := {|
  phys_add x n := phys_52 (x + n);
  phys_sub x n := phys_52 (x - n);
  containing_address x := page_of x;
  frame_add f n := phys_52 (f + n * PAGE_4K);
  phys_align_down x a := x - x mod a;
  phys_align_up x a := if x + (a - 1) <? 2 ^ 64 then Some (x + (a - 1) - (x + (a - 1)) mod a) else None;
|}.

Lemma phys_52_Some x : 0 <= x < MAX_PHYS -> phys_52 x = Some x.
Proof. intros. unfold phys_52. by rewrite (proj2 (Z.leb_le _ _)), (proj2 (Z.ltb_lt _ _)) by lia. Qed.

#[export] Instance x86_phys_laws : PhysAddrsLaws.
Proof.
  split; cbn; intros; try (apply phys_52_Some; unfold PAGE_4K in *; lia); try done.
  by rewrite (proj2 (Z.ltb_lt _ _)) by lia.
Qed.

(** ** Frames handed out before the kernel runs *)
Definition d_end (d : LegacyMemoryRegion) : Z := d_start d + d_len d.

(** Descriptors of whole pages, as UEFI reports them. *)
Definition desc_ok (d : LegacyMemoryRegion) : Prop :=
  0 <= d_start d /\ 0 < d_len d /\ d_end d < MAX_PHYS /\
  d_start d mod PAGE_4K = 0 /\ d_len d mod PAGE_4K = 0.

Definition map_sorted (ds : list LegacyMemoryRegion) : Prop :=
  StronglySorted (fun d d' => d_end d <= d_start d') ds.

Definition in_desc (d : LegacyMemoryRegion) (x : Z) : Prop := d_start d <= x < d_end d.

Definition usable_frame (ds : list LegacyMemoryRegion) (f : Z) : Prop :=
  f mod PAGE_4K = 0 /\ exists d, d ∈ ds /\ d_kind d = Usable /\ in_desc d f.

Record lfa_inv (a : LegacyFrameAllocator) : Prop := {
  inv_next : next_frame a mod PAGE_4K = 0;
  inv_min : 0 <= min_frame a <= next_frame a;
  inv_next_small : next_frame a < MAX_PHYS;
  inv_split : exists pre,
    original a = pre ++ option_list (current_descriptor a) ++ memory_map a /\
    Forall (fun d => d_kind d = Usable -> d_end d <= next_frame a) pre;
  inv_current : forall d, current_descriptor a = Some d -> d_kind d = Usable;
}.

(** One call, against the least usable frame that is left. *)
Definition frame_spec (a : LegacyFrameAllocator) (r : option Z) (a' : LegacyFrameAllocator) : Prop :=
  match r with
  | Some f => usable_frame (original a) f /\ next_frame a <= f /\ next_frame a' = f + PAGE_4K /\
      (forall g, usable_frame (original a) g -> next_frame a <= g -> f <= g)
  | None => next_frame a' = next_frame a /\
      (forall g, usable_frame (original a) g -> g < next_frame a)
  end.

Lemma aligned_lt a b : a mod PAGE_4K = 0 -> b mod PAGE_4K = 0 -> a < b -> a + PAGE_4K <= b.
Proof.
  unfold PAGE_4K. intros Ha Hb H. apply Z_div_exact_full_2 in Ha, Hb; [|lia..]. lia.
Qed.

Lemma aligned_add a b :
  a mod PAGE_4K = 0 -> b mod PAGE_4K = 0 -> (a + b) mod PAGE_4K = 0.
Proof. intros Ha Hb. rewrite Z.add_mod, Ha, Hb by done. done. Qed.

Lemma page_of_aligned_eq a : a mod PAGE_4K = 0 -> page_of a = a.
Proof. unfold page_of. lia. Qed.

Lemma page_of_pred e : e mod PAGE_4K = 0 -> page_of (e - 1) = e - PAGE_4K.
Proof.
  intros He. unfold page_of, PAGE_4K in *. apply Z_div_exact_full_2 in He; [|lia].
  rewrite <-(Z.mod_unique (e - 1) 4096 (e / 4096 - 1) 4095) by lia. lia.
Qed.

Lemma d_end_aligned d : desc_ok d -> d_end d mod PAGE_4K = 0.
Proof. intros (_ & _ & _ & ? & ?). by apply aligned_add. Qed.

Lemma with_next_frame_id a : with_next_frame a (next_frame a) = a.
Proof. by destruct a. Qed.

(** The least usable frame from [next_frame] on lies in the first usable descriptor
    that reaches beyond it. *)
Lemma least_frame ds pre d post n :
  Forall desc_ok ds -> map_sorted ds -> ds = pre ++ d :: post -> d_kind d = Usable ->
  Forall (fun d => d_kind d = Usable -> d_end d <= n) pre -> n mod PAGE_4K = 0 -> n < d_end d ->
  usable_frame ds (Z.max n (d_start d)) /\
  (forall g, usable_frame ds g -> n <= g -> Z.max n (d_start d) <= g).
Proof.
  intros Hok Hs -> Hk Hpre Hn Hlt. apply Forall_app in Hok as [_ [Hd _]%Forall_cons].
  destruct Hd as (? & ? & ? & ? & ?). split.
  - split; [destruct (Z.max_spec n (d_start d)) as [[_ ->]|[_ ->]]; done|].
    exists d. split; [set_solver|]. split; [done|]. unfold in_desc, d_end in *. lia.
  - intros g (_ & d' & Hd' & Hk' & Hg) Hng. unfold in_desc in Hg. rewrite Forall_forall in Hpre.
    apply elem_of_app in Hd' as [Hd'|[->|Hd']%elem_of_cons].
    + specialize (Hpre _ Hd' Hk'). lia.
    + lia.
    + assert (d_end d <= d_start d') as Hdd; [|unfold d_end in *; lia].
      clear -Hs Hd'. unfold map_sorted in Hs. induction pre as [|x pre IH]; cbn in Hs.
      * apply StronglySorted_inv in Hs as [_ Hs]. rewrite Forall_forall in Hs. auto.
      * apply StronglySorted_inv in Hs as [Hs _]. auto.
Qed.

Section Frames.
Context {E : Type} `{HP : PhysAddrs} {HL : PhysAddrsLaws}.

Lemma from_descriptor_eq a d :
  desc_ok d -> 0 <= next_frame a -> next_frame a mod PAGE_4K = 0 ->
  @allocate_frame_from_descriptor E _ a d =
    Ok (if next_frame a <? d_end d
        then (Some (Z.max (next_frame a) (d_start d)),
              with_next_frame a (Z.max (next_frame a) (d_start d) + PAGE_4K))
        else (None, a)).
Proof using HL.
  intros Hd Hn Hna. pose proof (d_end_aligned d Hd) as Hea. destruct Hd as (? & ? & ? & Hs & ?).
  unfold allocate_frame_from_descriptor, d_end in *.
  rewrite phys_add_ok by lia. cbn. rewrite phys_sub_ok by lia. cbn.
  rewrite !containing_address_ok by lia. rewrite page_of_pred, page_of_aligned_eq by done.
  assert ((if next_frame a <? d_start d then with_next_frame a (d_start d) else a) =
    with_next_frame a (Z.max (next_frame a) (d_start d))) as ->.
  { destruct (Z.ltb_spec (next_frame a) (d_start d)).
    - by rewrite Z.max_r by lia.
    - rewrite Z.max_l by lia. symmetry. apply with_next_frame_id. }
  cbn. set (f := Z.max _ _).
  assert (f mod PAGE_4K = 0) as Hf by (subst f; destruct (Z.max_spec (next_frame a) (d_start d)) as [[_ ->]|[_ ->]]; done).
  destruct (Z.ltb_spec (next_frame a) (d_start d + d_len d)) as [Hlt|Hge].
  - pose proof (aligned_lt f _ Hf Hea ltac:(lia)). rewrite (proj2 (Z.leb_le _ _)) by lia.
    rewrite frame_add_ok by lia. cbn. by rewrite Z.mul_1_l.
  - rewrite (proj2 (Z.leb_gt _ _)) by (unfold PAGE_4K; lia).
    replace f with (next_frame a) by lia. by rewrite with_next_frame_id.
Qed.

Lemma find_descriptor_spec m a pre :
  Forall desc_ok (pre ++ m) -> map_sorted (pre ++ m) -> original a = pre ++ m ->
  next_frame a mod PAGE_4K = 0 -> 0 <= min_frame a <= next_frame a -> next_frame a < MAX_PHYS ->
  current_descriptor a = None ->
  Forall (fun d => d_kind d = Usable -> d_end d <= next_frame a) pre ->
  exists r a', @find_descriptor E _ m a = Ok (r, a') /\ lfa_inv a' /\
    original a' = original a /\ min_frame a' = min_frame a /\ frame_spec a r a'.
Proof using HL.
  revert pre. induction m as [|d m IH]; intros pre Hok Hs Ho Hn Hm Hsm Hc Hpre.
  { eexists _, _. split; [done|]. split_and!; [|done..|].
    - split; cbn; [done..| |by rewrite Hc]. exists pre. by rewrite Ho, Hc.
    - split; [done|]. intros g (_ & d & Hd & Hk & Hg). rewrite Ho, app_nil_r in Hd. rewrite Forall_forall in Hpre.
      specialize (Hpre d Hd Hk). unfold in_desc in Hg. lia. }
  assert (desc_ok d) as Hd by (apply Forall_app in Hok as [_ [? _]%Forall_cons]; done).
  assert (pre ++ d :: m = (pre ++ [d]) ++ m) as Happ by by rewrite <-app_assoc.
  cbn [find_descriptor]. destruct (decide (d_kind d = Usable)) as [Hk|Hk].
  - rewrite from_descriptor_eq by (done || lia). cbn.
    destruct (Z.ltb_spec (next_frame a) (d_end d)) as [Hlt|Hge].
    + destruct (least_frame (original a) pre d m (next_frame a)) as [Huf Hmin];
        [by rewrite Ho..|done|done|done|done|].
      eexists _, _. split; [done|]. destruct Hd as (? & ? & ? & Hds & Hdl). cbn.
      set (f := Z.max _ _) in *. assert (f mod PAGE_4K = 0) as Hf by apply Huf.
      pose proof (aligned_lt f (d_end d) Hf (aligned_add _ _ Hds Hdl) ltac:(unfold d_end in *; lia)).
      split; [|split; [done|split; [done|]]].
      * split; cbn; [by apply aligned_add|unfold PAGE_4K; lia|lia| |naive_solver].
        exists pre. split; [done|]. eapply Forall_impl; [exact Hpre|]. cbn. unfold PAGE_4K. intros ? Hx Hy.
        specialize (Hx Hy). lia.
      * split_and!; [done|lia|done|done].
    + apply (IH (pre ++ [d])); rewrite <-?Happ; try done. apply Forall_app. split; [done|]. by constructor.
  - apply (IH (pre ++ [d])); rewrite <-?Happ; try done. apply Forall_app. split; [done|]. by constructor.
Qed.

Lemma allocate_frame_spec a :
  Forall desc_ok (original a) -> map_sorted (original a) -> lfa_inv a ->
  exists r a', @allocate_frame E _ a = Ok (r, a') /\ lfa_inv a' /\
    original a' = original a /\ min_frame a' = min_frame a /\ frame_spec a r a'.
Proof using HL.
  intros Hok Hs [Hn Hm Hsm (pre & Ho & Hpre) Hcur]. unfold allocate_frame.
  destruct (current_descriptor a) as [d|] eqn:Hc; cbn in Ho.
  2: { apply (find_descriptor_spec _ a pre); rewrite <-?Ho; done. }
  assert (desc_ok d) as Hd by (rewrite Ho in Hok; apply Forall_app in Hok as [_ [? _]%Forall_cons]; done).
  rewrite from_descriptor_eq by (done || lia). cbn.
  destruct (Z.ltb_spec (next_frame a) (d_end d)) as [Hlt|Hge].
  - destruct (least_frame (original a) pre d (memory_map a) (next_frame a)) as [Huf Hmin];
      [done|done|done|by apply Hcur|done|done|done|].
    eexists _, _. split; [done|]. destruct Hd as (? & ? & ? & Hds & Hdl). cbn.
    set (f := Z.max _ _) in *. assert (f mod PAGE_4K = 0) as Hf by apply Huf.
    pose proof (aligned_lt f (d_end d) Hf (aligned_add _ _ Hds Hdl) ltac:(unfold d_end in *; lia)).
    split; [|split; [done|split; [done|]]].
    + split; cbn; [by apply aligned_add|unfold PAGE_4K; lia|lia| |by rewrite Hc].
      exists pre. rewrite Hc. split; [done|]. eapply Forall_impl; [exact Hpre|]. cbn. unfold PAGE_4K.
      intros ? Hx Hy. specialize (Hx Hy). lia.
    + split_and!; [done|lia|done|done].
  - assert ((pre ++ [d]) ++ memory_map a = original a) as Happ by by rewrite <-app_assoc.
    destruct (find_descriptor_spec (memory_map a) (with_map a (memory_map a) None) (pre ++ [d]))
      as (r & a' & ? & ? & ? & ? & ?); rewrite ?Happ; try done.
    { apply Forall_app. split; [done|]. by constructor. }
    by exists r, a'.
Qed.

(** [n] calls; the frames handed out. *)
Fixpoint allocate_frames (n : nat) (a : LegacyFrameAllocator) : outcome E (list Z * LegacyFrameAllocator) :=
  match n with
  | O => Ok ([], a)
  | S n => '(r, a) ← allocate_frame a; '(fs, a) ← allocate_frames n a; Ok (option_list r ++ fs, a)
  end.

Lemma allocate_frames_spec n a :
  Forall desc_ok (original a) -> map_sorted (original a) -> lfa_inv a ->
  exists fs a', allocate_frames n a = Ok (fs, a') /\ lfa_inv a' /\
    original a' = original a /\ min_frame a' = min_frame a /\ next_frame a <= next_frame a' /\
    StronglySorted Z.lt fs /\
    (forall g, g ∈ fs <-> usable_frame (original a) g /\ next_frame a <= g < next_frame a') /\
    (next_frame a' = next_frame a \/ next_frame a' - PAGE_4K ∈ fs) /\
    ((length fs < n)%nat -> forall g, usable_frame (original a) g -> g < next_frame a').
Proof using HL.
  intros Hok Hs. revert a Hok Hs. induction n as [|n IH]; intros a Hok Hs Hinv.
  { exists [], a. split; [done|]. split; [done|]. split_and!; [done|done|lia|constructor| |by left|cbn; lia].
    intros g. split; [set_solver|lia]. }
  cbn [allocate_frames]. destruct (allocate_frame_spec a Hok Hs Hinv) as (r & a1 & -> & Hinv1 & Ho1 & Hm1 & Hr).
  destruct (IH a1) as (fs & a' & Hrun & Hinv' & Ho' & Hm' & Hle & Hsort & Hmem & Hlast & Hall); [by rewrite Ho1..|done|].
  cbn [mbind outcome_bind]. rewrite Hrun. cbn [mbind outcome_bind]. rewrite Ho1 in *.
  exists (option_list r ++ fs), a'. split; [done|]. split; [done|].
  assert (0 < PAGE_4K) by done. destruct r as [f|]; cbn in Hr.
  - destruct Hr as (Hf & Hnf & Hn1 & Hmin). split_and!; [done|congruence|lia| | | |].
    + cbn. constructor; [done|]. apply Forall_forall. intros g Hg%Hmem. lia.
    + intros g. cbn. rewrite elem_of_cons, Hmem. split.
      * intros [->|[? ?]]; split; try done; lia.
      * intros [Hg ?]. specialize (Hmin g Hg ltac:(lia)). destruct (decide (g = f)) as [|Hne]; [by left|].
        right. split; [done|]. pose proof (aligned_lt f g (proj1 Hf) (proj1 Hg) ltac:(lia)). lia.
    + right. cbn. destruct Hlast as [->|Hl]; [|by right]. rewrite Hn1, Z.add_simpl_r. left.
    + cbn. intros Hlen. apply Hall. lia.
  - destruct Hr as [Hn1 Hnone]. split_and!; [done|congruence|lia|done| | |].
    + intros g. cbn. rewrite Hmem, Hn1. done.
    + cbn. by rewrite <-Hn1.
    + intros _ g Hg. specialize (Hnone g Hg). lia.
Qed.
End Frames.

Lemma lfa_new_inv `{HP : PhysAddrs} {HL : PhysAddrsLaws} ds :
  lfa_inv (lfa_new ds) /\ next_frame (lfa_new ds) = LOWER_MEMORY_END_PAGE /\
  min_frame (lfa_new ds) = LOWER_MEMORY_END_PAGE /\ original (lfa_new ds) = ds.
Proof.
  unfold lfa_new, new_starting_at.
  rewrite containing_address_ok by (unfold LOWER_MEMORY_END_PAGE, MAX_PHYS; lia).
  change (page_of LOWER_MEMORY_END_PAGE) with LOWER_MEMORY_END_PAGE. rewrite Z.max_id. cbn.
  split_and!; try done. split; cbn; try done. by exists [].
Qed.

(** C4: the bootloader's frame allocator over a sorted map of page-aligned regions.
    Any number of calls returns, without a panic, exactly the usable frames between
    1 MiB and [next_frame], in ascending order and each once; a call reports failure
    only when every usable frame above 1 MiB has been handed out. *)
Theorem bootloader_frames_exact {E} `{HP : PhysAddrs} {HL : PhysAddrsLaws} ds n :
  Forall desc_ok ds -> map_sorted ds ->
  exists fs a, @allocate_frames E _ n (lfa_new ds) = Ok (fs, a) /\
    StronglySorted Z.lt fs /\
    (forall g, g ∈ fs <-> usable_frame ds g /\ LOWER_MEMORY_END_PAGE <= g < next_frame a) /\
    ((length fs < n)%nat -> forall g, usable_frame ds g -> LOWER_MEMORY_END_PAGE <= g -> g ∈ fs).
Proof.
  intros Hok Hs. destruct (lfa_new_inv ds) as (Hinv & Hn & Hm & Ho).
  destruct (@allocate_frames_spec E _ _ n (lfa_new ds)) as (fs & a & Hrun & _ & _ & _ & _ & Hsort & Hmem & _ & Hall);
    [by rewrite Ho..|done|].
  rewrite Ho, Hn in *. exists fs, a. split_and!; [done..|].
  intros Hlen g Hg Hlow. apply Hmem. split; [done|]. split; [done|]. by apply Hall.
Qed.

Definition sample_map : list LegacyMemoryRegion :=
  [mkDesc 0x1000 0x9f000 Usable false; mkDesc 0x100000 0x3000 Usable false;
   mkDesc 0x103000 0x2000 (UnknownUefi 7) true; mkDesc 0x200000 0x4000 Usable false].

Lemma sample_map_ok : Forall desc_ok sample_map /\ map_sorted sample_map.
Proof. split; repeat constructor; vm_compute; congruence. Qed.

Lemma bootloader_frames_exact_witness :
  exists fs a, @allocate_frames unit _ 5 (lfa_new sample_map) = Ok (fs, a) /\
    StronglySorted Z.lt fs /\
    (forall g, g ∈ fs <-> usable_frame sample_map g /\ LOWER_MEMORY_END_PAGE <= g < next_frame a) /\
    ((length fs < 5)%nat -> forall g, usable_frame sample_map g -> LOWER_MEMORY_END_PAGE <= g -> g ∈ fs).
Proof. apply bootloader_frames_exact; apply sample_map_ok. Defined.

(** ** The memory map left to the kernel *)
Definition in_region (g : MemoryRegion) (x : Z) : Prop := r_start g <= x < r_end g.
Definition in_slice (x : Z) (s : UsedMemorySlice) : Prop := s_start s <= x < s_end s.
#[export] Instance in_slice_dec x s : Decision (in_slice x s).
Proof. unfold in_slice. apply _. Defined.

(** The kind of an address of a usable descriptor. *)
Definition tile_kind (us : list UsedMemorySlice) (x : Z) : MemoryRegionKind :=
  if decide (Exists (in_slice x) us) then Bootloader else Usable.

Definition sizes (out : list MemoryRegion) : Z :=
  foldr (fun g t => (r_end g - r_start g) + t) 0 out.

Lemma sizes_app l1 l2 : sizes (l1 ++ l2) = sizes l1 + sizes l2.
Proof. unfold sizes. induction l1 as [|g l1 IH]; cbn; [done|]. rewrite IH. lia. Qed.

(** [out] cuts [[lo, hi)] into consecutive regions of one kind each. *)
Record tiles (us : list UsedMemorySlice) (lo hi : Z) (out : list MemoryRegion) : Prop := {
  t_in : Forall (fun g => lo <= r_start g /\ r_start g < r_end g /\ r_end g <= hi) out;
  t_sorted : StronglySorted (fun g g' => r_end g <= r_start g') out;
  t_cover : forall x, lo <= x < hi -> exists g, g ∈ out /\ in_region g x;
  t_kind : forall g x, g ∈ out -> in_region g x -> r_kind g = tile_kind us x;
  t_ends : forall P : Z -> Prop, P lo -> P hi ->
    Forall (fun s => P (s_start s) /\ P (s_end s)) us ->
    Forall (fun g => P (r_start g) /\ P (r_end g)) out;
  t_size : sizes out = hi - lo;
}.

Definition piece (g : MemoryRegion) : list MemoryRegion := if r_start g =? r_end g then [] else [g].

Lemma StronglySorted_app_2 {A} (R : A -> A -> Prop) l1 l2 :
  StronglySorted R l1 -> StronglySorted R l2 -> (forall x y, x ∈ l1 -> y ∈ l2 -> R x y) ->
  StronglySorted R (l1 ++ l2).
Proof.
  intros H1 H2 H. induction H1 as [|x l1 H1 IH Hx]; cbn; [done|]. constructor.
  - apply IH. intros. apply H; [by right|done].
  - apply Forall_app. split; [done|]. apply Forall_forall. intros. apply H; [by left|done].
Qed.

Lemma tiles_piece us lo hi k :
  lo <= hi -> (forall x, lo <= x < hi -> k = tile_kind us x) -> tiles us lo hi (piece (mkRegion lo hi k)).
Proof.
  intros Hle Hk. unfold piece. cbn. destruct (Z.eqb_spec lo hi) as [->|Hne].
  { split; [constructor|constructor|lia|set_solver|constructor|cbn; lia]. }
  split.
  - repeat constructor; cbn; lia.
  - repeat constructor.
  - intros x Hx. eexists. split; [by left|done].
  - intros g x ->%list_elem_of_singleton Hx. by apply Hk.
  - intros P ? ? _. by repeat constructor.
  - cbn. lia.
Qed.

Lemma tiles_app us lo m hi out1 out2 :
  lo <= m <= hi -> tiles us lo m out1 -> tiles us m hi out2 ->
  (forall P : Z -> Prop, P lo -> P hi -> Forall (fun s => P (s_start s) /\ P (s_end s)) us -> P m) ->
  tiles us lo hi (out1 ++ out2).
Proof.
  intros Hm [I1 S1 C1 K1 E1 Z1] [I2 S2 C2 K2 E2 Z2] Hends. rewrite Forall_forall in I1, I2. split.
  - apply Forall_app. split; apply Forall_forall; intros g Hg; [apply I1 in Hg|apply I2 in Hg]; lia.
  - apply StronglySorted_app_2; [done..|]. intros g g' Hg%I1 Hg'%I2. lia.
  - intros x Hx. destruct (decide (x < m)).
    + destruct (C1 x) as (g & ? & ?); [lia|]. exists g. set_solver.
    + destruct (C2 x) as (g & ? & ?); [lia|]. exists g. set_solver.
  - intros g x [Hg|Hg]%elem_of_app; auto.
  - intros P Hlo Hhi Hus. pose proof (Hends P Hlo Hhi Hus). apply Forall_app.
    split; [by apply E1|by apply E2].
  - rewrite sizes_app. lia.
Qed.

Lemma min_by_start_Some l o :
  min_by_start l = Some o -> o ∈ l /\ forall o', o' ∈ l -> o.1 <= o'.1.
Proof.
  revert o. induction l as [|p l IH]; intros o; [done|]. cbn.
  destruct (min_by_start l) as [q|] eqn:Hq.
  - destruct (IH q eq_refl) as [Hin Hmin].
    destruct (Z.ltb_spec q.1 p.1) as [Hlt|Hge]; intros [= <-].
    + split; [by right|]. intros o' [->|Ho']%elem_of_cons; [lia|auto].
    + split; [by left|]. intros o' [->|Ho']%elem_of_cons; [lia|]. specialize (Hmin _ Ho'). lia.
  - intros [= <-]. split; [by left|]. intros o' [->|Ho']%elem_of_cons; [lia|].
    destruct l as [|z l]; [by apply not_elem_of_nil in Ho'|]. cbn in Hq.
    by destruct (min_by_start l) as [y|]; [destruct (y.1 <? z.1)|].
Qed.

Definition overlaps (lo hi : Z) (s : UsedMemorySlice) : Prop :=
  Z.max lo (s_start s) < Z.min hi (s_end s).
#[export] Instance overlaps_dec lo hi s : Decision (overlaps lo hi s).
Proof. unfold overlaps. apply _. Defined.

Lemma earliest_overlap_Some r us os oe :
  earliest_overlap r us = Some (os, oe) ->
  (exists s, s ∈ us /\ overlaps (r_start r) (r_end r) s /\
     os = Z.max (r_start r) (s_start s) /\ oe = Z.min (r_end r) (s_end s)) /\
  (forall s, s ∈ us -> overlaps (r_start r) (r_end r) s -> os <= Z.max (r_start r) (s_start s)).
Proof.
  intros [Hin Hmin]%min_by_start_Some. apply list_elem_of_filter in Hin as [Hlt Hin].
  apply list_elem_of_fmap in Hin as (s & [= -> ->] & Hs). cbn in *. split; [by exists s|].
  intros s' Hs' Ho. apply (Hmin (overlap r s')). apply list_elem_of_filter. split; [done|].
  by apply list_elem_of_fmap_2.
Qed.

Lemma earliest_overlap_None r us :
  earliest_overlap r us = None -> forall s, s ∈ us -> ~ overlaps (r_start r) (r_end r) s.
Proof.
  unfold earliest_overlap. intros H s Hs Ho.
  destruct (filter _ _) as [|o l] eqn:Hf; cbn in H.
  - assert (overlap r s ∈ @nil (Z * Z)) as Hin; [|by apply not_elem_of_nil in Hin].
    rewrite <-Hf. apply list_elem_of_filter. split; [done|]. by apply list_elem_of_fmap_2.
  - by destruct (min_by_start l) as [y|]; [destruct (y.1 <? o.1)|].
Qed.

Lemma filter_length_mono {A} (P Q : A -> Prop) `{!forall x, Decision (P x), !forall x, Decision (Q x)} l :
  (forall x, Q x -> P x) -> (length (filter Q l) <= length (filter P l))%nat.
Proof.
  intros Himp. induction l as [|x l IH]; [done|]. rewrite !filter_cons.
  destruct (decide (Q x)), (decide (P x)); cbn; try lia. naive_solver.
Qed.

Lemma filter_length_lt {A} (P Q : A -> Prop) `{!forall x, Decision (P x), !forall x, Decision (Q x)} l x :
  (forall x, Q x -> P x) -> x ∈ l -> P x -> ~ Q x -> (length (filter Q l) < length (filter P l))%nat.
Proof.
  intros Himp Hx HP HQ. induction l as [|y l IH]; [by apply not_elem_of_nil in Hx|]. rewrite !filter_cons.
  pose proof (filter_length_mono P Q l Himp). apply elem_of_cons in Hx as [<-|Hx].
  - rewrite (decide_True (P:=P x)), (decide_False (P:=Q x)) by done. cbn. lia.
  - specialize (IH Hx). destruct (decide (Q y)), (decide (P y)); cbn; try lia. naive_solver.
Qed.

Definition strictly_in (lo hi x : Z) : bool := (lo <? x) && (x <? hi).
(** The ends of slices strictly inside an interval: where it can be cut. *)
Definition cuts (us : list UsedMemorySlice) (lo hi : Z) : nat :=
  length (filter (fun s => strictly_in lo hi (s_start s)) us) +
  length (filter (fun s => strictly_in lo hi (s_end s)) us).
Definition tiles_bound (us : list UsedMemorySlice) (lo hi : Z) : nat :=
  (if (lo <? hi)%Z then 1 else 0) + cuts us lo hi.

Lemma strictly_in_spec lo hi x : Is_true (strictly_in lo hi x) <-> lo < x < hi.
Proof. unfold strictly_in. rewrite Is_true_true, andb_true_iff, !Z.ltb_lt. done. Qed.

Lemma length_piece g : length (piece g) = if r_start g =? r_end g then 0%nat else 1%nat.
Proof. unfold piece. by case_match. Qed.

Lemma add_region_eq {E} cap g regs :
  (length regs + length (piece g) <= cap)%nat -> @add_region E cap g regs = Ok (regs ++ piece g).
Proof.
  unfold add_region, piece. destruct (r_start g =? r_end g); cbn [length]; intros; [by rewrite app_nil_r|].
  by rewrite (proj2 (Nat.ltb_lt _ _)) by lia.
Qed.

(** Cutting off the earliest overlap uses up the ends it was cut at. *)
Lemma cuts_step us lo hi s :
  s ∈ us -> overlaps lo hi s ->
  let os := Z.max lo (s_start s) in let oe := Z.min hi (s_end s) in
  ((if (lo =? os)%Z then 0 else 1) + 1 + tiles_bound us oe hi <= tiles_bound us lo hi)%nat.
Proof.
  intros Hs Ho os oe. unfold overlaps in Ho. unfold tiles_bound, cuts.
  rewrite (proj2 (Z.ltb_lt lo hi)) by lia.
  pose proof (filter_length_mono (fun s => strictly_in lo hi (s_start s))
    (fun s => strictly_in oe hi (s_start s)) us) as Hs1.
  pose proof (filter_length_mono (fun s => strictly_in lo hi (s_end s))
    (fun s => strictly_in oe hi (s_end s)) us) as He1.
  pose proof (filter_length_lt (fun s => strictly_in lo hi (s_start s))
    (fun s => strictly_in oe hi (s_start s)) us s) as Hs2.
  pose proof (filter_length_lt (fun s => strictly_in lo hi (s_end s))
    (fun s => strictly_in oe hi (s_end s)) us s) as He2.
  assert (forall x, strictly_in oe hi x -> strictly_in lo hi x) as Hmono
    by (intros x; rewrite !strictly_in_spec; lia).
  specialize (Hs1 (fun s => Hmono (s_start s))). specialize (He1 (fun s => Hmono (s_end s))).
  specialize (Hs2 (fun s => Hmono (s_start s)) Hs). specialize (He2 (fun s => Hmono (s_end s)) Hs).
  cbv beta in Hs2, He2. rewrite !strictly_in_spec in Hs2. rewrite !strictly_in_spec in He2.
  destruct (Z.eqb_spec lo os) as [Hlo|Hlo], (Z.ltb_spec oe hi) as [Hhi|Hhi].
  - specialize (He2 ltac:(lia) ltac:(lia)). lia.
  - lia.
  - specialize (Hs2 ltac:(lia) ltac:(lia)). specialize (He2 ltac:(lia) ltac:(lia)). lia.
  - specialize (Hs2 ltac:(lia) ltac:(lia)). lia.
Qed.

Section Map.
Context {E : Type} `{HP : PhysAddrs}.

Lemma split_loop_spec cap sl us :
  @align_slices E _ sl = Ok us -> forall fuel lo hi regs,
  lo <= hi -> (length (filter (overlaps lo hi) us) < fuel)%nat ->
  (length regs + tiles_bound us lo hi <= cap)%nat ->
  exists out, @split_loop E _ fuel cap (mkRegion lo hi Usable) regs sl = Ok (regs ++ out) /\
    tiles us lo hi out /\ (length out <= tiles_bound us lo hi)%nat.
Proof using.
  intros Hal fuel. induction fuel as [|fuel IH]; intros lo hi regs Hle Hfuel Hcap; [lia|].
  cbn. destruct (Z.eqb_spec lo hi) as [->|Hne].
  { exists []. rewrite app_nil_r. split; [done|]. split; [|cbn; lia].
    pose proof (tiles_piece us hi hi Usable ltac:(lia) ltac:(lia)) as Ht.
    unfold piece in Ht. cbn in Ht. by rewrite Z.eqb_refl in Ht. }
  rewrite Hal. cbn [mbind outcome_bind]. assert (1 <= tiles_bound us lo hi)%nat.
  { unfold tiles_bound. rewrite (proj2 (Z.ltb_lt _ _)) by lia. lia. }
  destruct (earliest_overlap _ us) as [[os oe]|] eqn:Heo.
  2: { pose proof (earliest_overlap_None _ _ Heo) as Hno. cbn in Hno.
    rewrite add_region_eq by (rewrite length_piece; cbn; case_match; lia).
    eexists. split; [done|]. split; [|rewrite length_piece; cbn; case_match; lia].
    apply tiles_piece; [done|]. intros x Hx. unfold tile_kind. rewrite decide_False; [done|].
    rewrite Exists_exists. intros (s & Hs & Hin). apply (Hno s Hs). unfold overlaps, in_slice in *. lia. }
  apply earliest_overlap_Some in Heo as [(s & Hs & Ho & Hos & Hoe) Hfirst]. cbn in *.
  pose proof (cuts_step us lo hi s Hs Ho) as Hcuts. cbn in Hcuts. rewrite <-Hos, <-Hoe in Hcuts.
  assert (lo <= os /\ os < oe /\ oe <= hi) as (? & ? & ?) by (unfold overlaps in Ho; lia).
  rewrite add_region_eq by (rewrite length_piece; cbn; case_match; lia). cbn [mbind outcome_bind].
  rewrite add_region_eq by (rewrite length_app, !length_piece; cbn; rewrite (proj2 (Z.eqb_neq os oe)) by lia;
    case_match; lia). cbn [mbind outcome_bind].
  edestruct (IH oe hi) as (out & -> & Ht & Hlen); [lia| | |].
  { enough (length (filter (overlaps oe hi) us) < length (filter (overlaps lo hi) us))%nat by lia.
    eapply filter_length_lt; [|exact Hs|done|]; unfold overlaps; lia. }
  { rewrite !length_app, !length_piece. cbn. rewrite (proj2 (Z.eqb_neq os oe)) by lia. case_match; lia. }
  eexists. rewrite <-!app_assoc. split; [done|]. split.
  - apply (tiles_app _ _ os); [lia| |apply (tiles_app _ _ oe); [lia| |done|]|].
    + apply tiles_piece; [done|]. intros x Hx. unfold tile_kind. rewrite decide_False; [done|].
      rewrite Exists_exists. intros (s' & Hs' & Hin). specialize (Hfirst s' Hs').
      unfold overlaps, in_slice in *. lia.
    + apply tiles_piece; [lia|]. intros x Hx. unfold tile_kind. rewrite decide_True; [done|].
      apply Exists_exists. exists s. split; [done|]. unfold in_slice. lia.
    + intros P Hlo Hhi Hus. rewrite Forall_forall in Hus. apply Hus in Hs as [? ?]. subst oe.
      by destruct (Z.min_spec hi (s_end s)) as [[_ ->]|[_ ->]].
    + intros P Hlo Hhi Hus. rewrite Forall_forall in Hus. apply Hus in Hs as [? ?]. subst os.
      by destruct (Z.max_spec lo (s_start s)) as [[_ ->]|[_ ->]].
  - rewrite !length_app, !length_piece. cbn. rewrite (proj2 (Z.eqb_neq os oe)) by lia. case_match; lia.
Qed.

(** The kind the kernel is told of an address of descriptor [d]. *)
Definition desc_kind (us : list UsedMemorySlice) (d : LegacyMemoryRegion) (x : Z) : MemoryRegionKind :=
  if decide (kernel_kind d = Usable) then tile_kind us x else kernel_kind d.

Definition desc_disjoint (d d' : LegacyMemoryRegion) : Prop :=
  d_end d <= d_start d' \/ d_end d' <= d_start d.
Definition region_disjoint (g g' : MemoryRegion) : Prop :=
  r_end g <= r_start g' \/ r_end g' <= r_start g.
Definition desc_bounded (d : LegacyMemoryRegion) : Prop :=
  0 <= d_start d /\ 0 <= d_len d /\ d_end d < MAX_PHYS.

Record map_of (us : list UsedMemorySlice) (ds : list LegacyMemoryRegion)
    (out : list MemoryRegion) : Prop := {
  m_in : Forall (fun g => r_start g < r_end g /\ exists d, d ∈ ds /\
    d_start d <= r_start g /\ r_end g <= d_end d /\
    forall x, in_region g x -> r_kind g = desc_kind us d x) out;
  m_disjoint : ForallOrdPairs region_disjoint out;
  m_cover : forall d x, d ∈ ds -> in_desc d x -> exists g, g ∈ out /\ in_region g x;
  m_ends : forall P : Z -> Prop, Forall (fun d => P (d_start d) /\ P (d_end d)) ds ->
    Forall (fun s => P (s_start s) /\ P (s_end s)) us ->
    Forall (fun g => P (r_start g) /\ P (r_end g)) out;
  m_size : sizes out = foldr (fun d t => d_len d + t) 0 ds;
}.

Lemma sorted_disjoint {A} (R Q : A -> A -> Prop) l :
  (forall x y, R x y -> Q x y) -> StronglySorted R l -> ForallOrdPairs Q l.
Proof using.
  intros H. induction 1 as [|x l Hs IH Hx]; constructor; [|done]. eapply Forall_impl; [exact Hx|]. auto.
Qed.

Lemma ForallOrdPairs_app {A} (R : A -> A -> Prop) l1 l2 :
  ForallOrdPairs R l1 -> ForallOrdPairs R l2 -> (forall x y, x ∈ l1 -> y ∈ l2 -> R x y) ->
  ForallOrdPairs R (l1 ++ l2).
Proof using.
  intros H1 H2 H. induction H1 as [|x l1 Hx H1 IH]; cbn; [done|]. constructor.
  - apply Forall_app. split; [done|]. apply Forall_forall. intros. apply H; [by left|done].
  - apply IH. intros. apply H; [by right|done].
Qed.

(** The regions of one descriptor. *)
Definition desc_regions (us : list UsedMemorySlice) (d : LegacyMemoryRegion)
    (out : list MemoryRegion) : Prop :=
  if decide (kernel_kind d = Usable) then tiles us (d_start d) (d_end d) out
  else out = piece (mkRegion (d_start d) (d_end d) (kernel_kind d)).

Lemma desc_regions_map us d out : 0 <= d_len d -> desc_regions us d out -> map_of us [d] out.
Proof using.
  unfold desc_regions. intros Hl. destruct (decide (kernel_kind d = Usable)) as [Hk|Hk].
  - intros [I S C K En Sz]. split.
    + apply Forall_forall. intros g Hg. rewrite Forall_forall in I. specialize (I g Hg). split; [lia|].
      exists d. split; [by left|]. split_and!; [lia..|]. intros x Hx. unfold desc_kind.
      rewrite decide_True by done. auto.
    + eapply sorted_disjoint; [|exact S]. unfold region_disjoint. auto.
    + intros d' x ->%list_elem_of_singleton Hx. auto.
    + intros P [[? ?] _]%Forall_cons ?. auto.
    + rewrite Sz. cbn. unfold d_end. lia.
  - intros ->. unfold piece. cbn. destruct (Z.eqb_spec (d_start d) (d_end d)) as [He|He].
    { split; [constructor|constructor| |constructor|cbn; unfold d_end in He; lia].
      intros d' x ->%list_elem_of_singleton Hx. unfold in_desc in Hx. lia. }
    split.
    + constructor; [|done]. cbn. unfold d_end in *. split; [lia|]. exists d. split; [by left|].
      split_and!; [lia..|]. intros x _. unfold desc_kind. by rewrite decide_False.
    + repeat constructor.
    + intros d' x ->%list_elem_of_singleton Hx. eexists. split; [by left|done].
    + intros P [Hd _]%Forall_cons _. constructor; [done|constructor].
    + cbn. unfold d_end. lia.
Qed.

Lemma map_of_cons us d ds out1 out2 :
  Forall (desc_disjoint d) ds -> map_of us [d] out1 -> map_of us ds out2 ->
  map_of us (d :: ds) (out1 ++ out2).
Proof using.
  intros Hd [I1 D1 C1 E1 Z1] [I2 D2 C2 E2 Z2]. split.
  - apply Forall_app. split; (eapply Forall_impl; [eassumption|]); cbn;
      intros g (? & d' & Hd' & ?); (split; [done|]); exists d'; (split; [set_solver|done]).
  - apply ForallOrdPairs_app; [done..|]. intros g g' Hg Hg'.
    rewrite Forall_forall in I1, I2. rewrite Forall_forall in Hd.
    destruct (I1 g Hg) as (_ & d1 & ->%list_elem_of_singleton & ? & ? & _).
    destruct (I2 g' Hg') as (_ & d2 & Hd2 & ? & ? & _). specialize (Hd _ Hd2).
    unfold desc_disjoint, region_disjoint in *. lia.
  - intros d' x [->|Hd']%elem_of_cons Hx.
    + destruct (C1 d x) as (g & ? & ?); [by left|done|]. exists g. set_solver.
    + destruct (C2 d' x) as (g & ? & ?); [done..|]. exists g. set_solver.
  - intros P [? ?]%Forall_cons ?. apply Forall_app. split; [apply E1|apply E2]; auto.
  - rewrite sizes_app, Z1, Z2. cbn. lia.
Qed.

Lemma add_descriptor_spec cap sl us d regs :
  @align_slices E _ sl = Ok us -> 0 <= d_len d ->
  (length regs + (1 + cuts us (d_start d) (d_end d)) <= cap)%nat ->
  exists out, (if decide (kernel_kind d = Usable)
     then @split_and_add_region E _ cap (mkRegion (d_start d) (d_end d) (kernel_kind d)) regs sl
     else add_region cap (mkRegion (d_start d) (d_end d) (kernel_kind d)) regs) = Ok (regs ++ out) /\
    desc_regions us d out /\ (length out <= 1 + cuts us (d_start d) (d_end d))%nat.
Proof using.
  intros Hal Hl Hcap. unfold desc_regions. destruct (decide (kernel_kind d = Usable)) as [Hk|Hk].
  - unfold split_and_add_region. cbn [r_kind]. rewrite decide_True by done. rewrite Hk.
    assert (tiles_bound us (d_start d) (d_end d) <= 1 + cuts us (d_start d) (d_end d))%nat
      by (unfold tiles_bound; case_match; lia).
    destruct (split_loop_spec cap sl us Hal (length sl + 2) (d_start d) (d_end d) regs)
      as (out & ? & ? & ?); [unfold d_end; lia| |lia|].
    { assert (length sl = length us) as ->.
      { clear -Hal. revert us Hal. induction sl as [|s sl IH]; cbn; intros us Hal; inv_ok; subst; [done|].
        cbn. f_equal. eauto. }
      pose proof (length_filter (overlaps (d_start d) (d_end d)) us). lia. }
    exists out. split_and!; [done..|lia].
  - rewrite add_region_eq by (rewrite length_piece; case_match; lia).
    eexists. split_and!; [done..|]. rewrite length_piece. case_match; lia.
Qed.

Lemma add_descriptors_spec {HL : PhysAddrsLaws} cap sl us ds regs :
  @align_slices E _ sl = Ok us -> Forall desc_bounded ds -> ForallOrdPairs desc_disjoint ds ->
  (length regs + (length ds + sum_list_with (fun d => cuts us (d_start d) (d_end d)) ds) <= cap)%nat ->
  exists out, @add_descriptors E _ cap ds regs sl = Ok (regs ++ out) /\ map_of us ds out.
Proof using.
  intros Hal. revert regs. induction ds as [|d ds IH]; intros regs Hok Hdis Hcap.
  { exists []. rewrite app_nil_r. split; [done|]. split; [constructor|constructor|set_solver|constructor|done]. }
  apply Forall_cons in Hok as [(? & Hl & Hend) Hok]. inversion Hdis as [|? ? Hd Hdis']; subst.
  cbn [length sum_list_with] in Hcap. cbn [add_descriptors].
  destruct (add_descriptor_spec cap sl us d regs Hal Hl ltac:(lia)) as (out1 & Heq & Hout1 & Hlen1).
  unfold d_end in Hend. rewrite phys_add_ok by lia. cbn [unwrap mbind outcome_bind r_kind].
  change (d_start d + d_len d) with (d_end d). rewrite Heq. cbn [mbind outcome_bind].
  destruct (IH (regs ++ out1)) as (out2 & -> & Hout2); [done|done|rewrite length_app; lia|].
  exists (out1 ++ out2). rewrite app_assoc. split; [done|].
  apply map_of_cons; [done| |done]. by apply desc_regions_map.
Qed.
End Map.

(** A point lies strictly inside at most one of the descriptors, so the cuts are no
    more than the ends of the slices. *)
Lemma point_in_one ds x :
  ForallOrdPairs desc_disjoint ds ->
  (sum_list_with (fun d => if strictly_in (d_start d) (d_end d) x then 1 else 0) ds <= 1)%nat.
Proof.
  induction 1 as [|d ds Hd Hds IH]; cbn; [lia|].
  destruct (strictly_in (d_start d) (d_end d) x) eqn:Hx; [|done].
  enough (sum_list_with (fun d => if strictly_in (d_start d) (d_end d) x then 1 else 0) ds = 0)%nat as ->
    by lia.
  apply Is_true_true, strictly_in_spec in Hx. clear IH Hds.
  induction Hd as [|d' ds Hd' Hd IH]; cbn; [done|]. rewrite IH.
  destruct (strictly_in (d_start d') (d_end d') x) eqn:Hx'; [|done].
  apply Is_true_true, strictly_in_spec in Hx'. unfold desc_disjoint in Hd'. lia.
Qed.

Lemma sum_list_with_add {A} (f g : A -> nat) l :
  sum_list_with (fun x => f x + g x)%nat l = (sum_list_with f l + sum_list_with g l)%nat.
Proof. induction l; cbn; lia. Qed.
Lemma sum_list_with_ext {A} (f g : A -> nat) l :
  (forall x, f x = g x) -> sum_list_with f l = sum_list_with g l.
Proof. intros H. induction l; cbn; rewrite ?H; lia. Qed.

Lemma cuts_total us ds :
  ForallOrdPairs desc_disjoint ds ->
  (sum_list_with (fun d => cuts us (d_start d) (d_end d)) ds <= 2 * length us)%nat.
Proof.
  intros Hd. induction us as [|s us IH].
  { rewrite (sum_list_with_ext _ (fun _ => 0%nat)) by done. clear. induction ds; cbn in *; lia. }
  rewrite (sum_list_with_ext _ (fun d => ((if strictly_in (d_start d) (d_end d) (s_start s) then 1 else 0) +
    (if strictly_in (d_start d) (d_end d) (s_end s) then 1 else 0)) + cuts us (d_start d) (d_end d))%nat).
  - rewrite !sum_list_with_add. pose proof (point_in_one ds (s_start s) Hd).
    pose proof (point_in_one ds (s_end s) Hd). cbn. lia.
  - intros d. unfold cuts. rewrite !filter_cons.
    destruct (strictly_in _ _ (s_start s)), (strictly_in _ _ (s_end s));
      repeat case_decide; cbn in *; tauto || lia.
Qed.

(** The pages that [[lo, hi)] touches. *)
Definition page_span (lo hi x : Z) : bool :=
  (page_of lo <=? x) && (x <? page_of (hi + (PAGE_4K - 1))).

(** The pages told as the bootloader's: the whole span from the first page above 1 MiB to the last
    frame it handed out, the kernel image and the ramdisk. *)
Definition boot_used (a : LegacyFrameAllocator) (kernel_start kernel_len : Z)
    (ramdisk_start : option Z) (ramdisk_len x : Z) : bool :=
  page_span (min_frame a) (next_frame a) x ||
  page_span kernel_start (kernel_start + kernel_len) x ||
  match ramdisk_start with Some r => page_span r (r + ramdisk_len) x | None => false end.

(** What the kernel is told of an address of descriptor [d]. *)
Definition told_kind (a : LegacyFrameAllocator) (ks kl : Z) (ro : option Z) (rl : Z)
    (d : LegacyMemoryRegion) (x : Z) : MemoryRegionKind :=
  if decide (kernel_kind d = Usable)
  then if boot_used a ks kl ro rl x then Bootloader else Usable
  else kernel_kind d.

(** The kernel image and the ramdisk lie in physical memory. *)
Definition images_ok (ks kl : Z) (ro : option Z) (rl : Z) : Prop :=
  0 <= ks /\ 0 <= kl /\ ks + kl < MAX_PHYS /\
  0 <= rl /\ from_option (fun r => 0 <= r /\ r + rl < MAX_PHYS) True ro.
Definition slice_args_ok (a : LegacyFrameAllocator) (ks kl : Z) (ro : option Z) (rl : Z) : Prop :=
  0 <= min_frame a <= next_frame a /\ next_frame a < MAX_PHYS /\ images_ok ks kl ro rl.

Section MapTheorem.
Context {E : Type} `{HP : PhysAddrs} {HL : PhysAddrsLaws}.
Context (a : LegacyFrameAllocator) (ks kl : Z) (ro : option Z) (rl : Z).
Context (Hargs : slice_args_ok a ks kl ro rl).

Definition page_slice (lo hi : Z) : UsedMemorySlice :=
  mkSlice (page_of lo) (page_of (hi + (PAGE_4K - 1))).
Definition page_slices : list UsedMemorySlice :=
  [page_slice (min_frame a) (next_frame a); page_slice ks (ks + kl)] ++
  match ro with Some r => [page_slice r (r + rl)] | None => [] end.

Lemma used_slices_eq :
  exists sl, @used_slices E a ks kl ro rl = Ok sl /\ @align_slices E _ sl = Ok page_slices.
Proof using HL Hargs.
  destruct Hargs as (? & ? & ? & ? & ? & ? & Hr). unfold used_slices, new_from_len, page_slices.
  assert (MAX_PHYS + PAGE_4K < 2 ^ 64) by done. assert (0 < PAGE_4K) by done.
  rewrite (uadd_eq 64 ks kl) by lia. cbn [mbind outcome_bind].
  destruct ro as [r|]; cbn in Hr; [rewrite (uadd_eq 64 r rl) by lia|]; cbn [mbind outcome_bind];
    (eexists; split; [done|]); cbn [align_slices app s_start s_end];
    rewrite !phys_align_up_ok by lia; cbn [unwrap mbind outcome_bind];
    rewrite !phys_align_down_ok by lia; done.
Qed.

Lemma tile_kind_page_slices x :
  tile_kind page_slices x = if boot_used a ks kl ro rl x then Bootloader else Usable.
Proof using.
  clear Hargs. assert (forall lo hi, in_slice x (page_slice lo hi) <-> page_span lo hi x = true) as Hspan.
  { intros. unfold in_slice, page_slice, page_span. cbn. rewrite andb_true_iff, Z.leb_le, Z.ltb_lt. done. }
  unfold tile_kind. case_decide as Hd; (destruct (boot_used a ks kl ro rl x) eqn:Hb; [try done|try done]); exfalso.
  - rewrite Exists_exists in Hd. destruct Hd as (s & Hs & Hin). unfold boot_used in Hb.
    apply orb_false_iff in Hb as [[H1 H2]%orb_false_iff H3]. unfold page_slices in Hs. cbn in Hs.
    repeat apply elem_of_cons in Hs as [->|Hs]; [apply Hspan in Hin; congruence..|].
    destruct ro; [apply list_elem_of_singleton in Hs as ->; apply Hspan in Hin; congruence|].
    by apply not_elem_of_nil in Hs.
  - apply Hd. unfold boot_used in Hb. unfold page_slices. rewrite Exists_app, !Exists_cons, !Hspan.
    apply orb_true_iff in Hb as [[->| ->]%orb_true_iff|Hr]; [auto..|].
    right. destruct ro; [|done]. constructor. by apply Hspan.
Qed.

Lemma construct_memory_map_spec cap :
  Forall desc_bounded (original a) -> ForallOrdPairs desc_disjoint (original a) ->
  (memory_map_max_region_count a <= cap)%nat ->
  exists out, @construct_memory_map E _ a cap ks kl ro rl = Ok out /\ map_of page_slices (original a) out.
Proof using HL Hargs.
  intros Hok Hdis Hcap. destruct used_slices_eq as (sl & Hsl & Hal).
  unfold construct_memory_map. rewrite Hsl. cbn [mbind outcome_bind].
  apply (add_descriptors_spec cap sl page_slices (original a) []); [done..|].
  pose proof (cuts_total page_slices (original a) Hdis). unfold memory_map_max_region_count in Hcap.
  assert (length page_slices <= 3)%nat by (unfold page_slices; destruct ro; cbn; lia). cbn [length]. lia.
Qed.
End MapTheorem.

(** Two descriptors of the map that hold the same address are the same one. *)
Lemma desc_unique ds d d' x :
  ForallOrdPairs desc_disjoint ds -> d ∈ ds -> d' ∈ ds -> in_desc d x -> in_desc d' x -> d = d'.
Proof.
  intros Hdis Hd%list_elem_of_In Hd'%list_elem_of_In Hx Hx'.
  destruct (ForallOrdPairs_In Hdis _ _ Hd Hd') as [?|[H|H]]; [done|..];
    unfold desc_disjoint, in_desc in *; lia.
Qed.

Lemma map_of_kind us ds out x k :
  ForallOrdPairs desc_disjoint ds -> map_of us ds out ->
  (exists g, g ∈ out /\ in_region g x /\ r_kind g = k) <->
  (exists d, d ∈ ds /\ in_desc d x /\ desc_kind us d x = k).
Proof.
  intros Hdis [I D C En Sz]. rewrite Forall_forall in I.
  assert (forall g, g ∈ out -> in_region g x ->
    exists d, d ∈ ds /\ in_desc d x /\ r_kind g = desc_kind us d x) as Hg.
  { intros g Hg Hx. destruct (I g Hg) as (_ & d & Hd & ? & ? & Hk). exists d.
    split_and!; [done| |auto]. unfold in_desc, in_region in *. lia. }
  split.
  - intros (g & Hin & Hx & <-). destruct (Hg g Hin Hx) as (d & ? & ? & ?). by exists d.
  - intros (d & Hd & Hx & <-). destruct (C d x Hd Hx) as (g & Hin & Hgx).
    destruct (Hg g Hin Hgx) as (d' & Hd' & Hx' & Hk). exists g.
    rewrite Hk, (desc_unique ds d d' x) by done. done.
Qed.

Lemma desc_kind_told a ks kl ro rl d x :
  desc_kind (page_slices a ks kl ro rl) d x = told_kind a ks kl ro rl d x.
Proof. unfold desc_kind, told_kind. by rewrite tile_kind_page_slices. Qed.

(** C3: the memory map handed to the kernel, for a firmware map of disjoint regions.
    With room for [memory_map_max_region_count] entries its construction never panics;
    the regions are non-empty and disjoint; and an address is in a region of kind [k]
    exactly when a descriptor of the firmware holds it and that descriptor's address is
    to be told as [k]: usable memory less the pages of the frames handed out, of the
    kernel image and of the ramdisk, which are marked as the bootloader's. *)
Theorem memory_map_exact {E} `{HP : PhysAddrs} {HL : PhysAddrsLaws} a ks kl ro rl cap :
  Forall desc_bounded (original a) -> ForallOrdPairs desc_disjoint (original a) ->
  slice_args_ok a ks kl ro rl -> (memory_map_max_region_count a <= cap)%nat ->
  exists out, @construct_memory_map E _ a cap ks kl ro rl = Ok out /\
    Forall (fun g => r_start g < r_end g) out /\ ForallOrdPairs region_disjoint out /\
    forall x k, (exists g, g ∈ out /\ in_region g x /\ r_kind g = k) <->
      (exists d, d ∈ original a /\ in_desc d x /\ told_kind a ks kl ro rl d x = k).
Proof.
  intros Hok Hdis Hargs Hcap.
  destruct (@construct_memory_map_spec E _ _ a ks kl ro rl Hargs cap Hok Hdis Hcap) as (out & Hout & Hmap).
  exists out. split_and!; [done| |apply Hmap|].
  - eapply Forall_impl; [apply (m_in _ _ _ Hmap)|]. cbn. tauto.
  - intros x k. rewrite (map_of_kind _ _ _ _ _ Hdis Hmap).
    split; intros (d & ? & ? & Hk); exists d; by rewrite desc_kind_told in *.
Qed.

Definition sample_lfa : LegacyFrameAllocator :=
  mkLfa sample_map [] None 0x201000 0x100000.

Lemma sample_disjoint :
  Forall desc_bounded sample_map /\ ForallOrdPairs desc_disjoint sample_map.
Proof.
  split; [repeat constructor; vm_compute; congruence|].
  eapply sorted_disjoint; [|apply sample_map_ok]. unfold desc_disjoint. auto.
Qed.

Lemma memory_map_exact_witness :
  (exists out, @construct_memory_map unit _ sample_lfa 10 0x202800 0x900 (Some 0x10000) 0x100 = Ok out /\
    Forall (fun g => r_start g < r_end g) out /\ ForallOrdPairs region_disjoint out /\
    forall x k, (exists g, g ∈ out /\ in_region g x /\ r_kind g = k) <->
      (exists d, d ∈ original sample_lfa /\ in_desc d x /\
         told_kind sample_lfa 0x202800 0x900 (Some 0x10000) 0x100 d x = k)) /\
  @construct_memory_map unit _ sample_lfa 10 0x202800 0x900 (Some 0x10000) 0x100 =
    Ok [mkRegion 0x1000 0x10000 Usable; mkRegion 0x10000 0x11000 Bootloader;
        mkRegion 0x11000 0xa0000 Usable; mkRegion 0x100000 0x103000 Bootloader;
        mkRegion 0x103000 0x105000 Bootloader; mkRegion 0x200000 0x201000 Bootloader;
        mkRegion 0x201000 0x202000 Usable; mkRegion 0x202000 0x204000 Bootloader].
Proof.
  split; [|vm_compute; reflexivity].
  apply memory_map_exact; [apply sample_disjoint..| |cbn; lia].
  unfold slice_args_ok, images_ok. cbn. unfold MAX_PHYS. lia.
Defined.

(** ** The kernel's page allocator on that map *)
Definition page_region (g : MemoryRegion) : Prop :=
  0 <= r_start g /\ r_start g < r_end g /\ r_end g < MAX_PHYS /\
  r_start g mod PAGE_4K = 0 /\ r_end g mod PAGE_4K = 0.

Lemma page_bounds_aligned g :
  page_region g ->
  page_lo (r_start g, r_end g - r_start g) = r_start g /\
  page_hi (r_start g, r_end g - r_start g) = r_end g.
Proof.
  intros (? & ? & ? & Hs & He). unfold page_lo, page_hi, PAGE_4K in *. cbn [fst snd].
  apply Z_div_exact_full_2 in Hs, He; [|lia..]. split.
  - rewrite <-(Z.div_unique (r_start g + (4096 - 1)) 4096 (r_start g / 4096) 4095) by lia. lia.
  - replace (r_start g + (r_end g - r_start g)) with (r_end g) by lia. lia.
Qed.

Lemma usable_regions_cons g out :
  usable_regions (g :: out) =
  (if decide (r_kind g = Usable) then [(r_start g, r_end g - r_start g)] else []) ++ usable_regions out.
Proof. unfold usable_regions, merge_contiguous_regions. rewrite filter_cons. by case_decide. Qed.

Lemma usable_regions_ok out :
  Forall page_region out -> ForallOrdPairs region_disjoint out -> regions_ok (usable_regions out).
Proof.
  intros Hout Hdis. induction Hdis as [|g out Hd Hdis IH]; [done|]. rewrite usable_regions_cons.
  apply Forall_cons in Hout as [Hg Hout]. specialize (IH Hout). case_decide; [|done]. cbn.
  pose proof (page_bounds_aligned g Hg) as [Hlo _]. destruct Hg as (? & ? & ? & _ & _).
  split_and!; [|done|].
  - unfold region_ok. rewrite Hlo. cbn. lia.
  - apply Forall_forall. intros r Hr. unfold usable_regions in Hr.
    apply list_elem_of_fmap in Hr as (g' & -> & [_ Hg']%list_elem_of_filter). cbn.
    rewrite Forall_forall in Hd. specialize (Hd g' Hg'). unfold region_disjoint in Hd. lia.
Qed.

Lemma usable_regions_dom out p :
  Forall page_region out ->
  boot_dom (usable_regions out) p = true <-> exists g, g ∈ out /\ in_region g p /\ r_kind g = Usable.
Proof.
  intros Hout. unfold boot_dom. rewrite existsb_exists. rewrite Forall_forall in Hout. split.
  - intros (r & Hr%list_elem_of_In & Hp). unfold usable_regions in Hr.
    apply list_elem_of_fmap in Hr as (g & -> & [Hk Hg]%list_elem_of_filter). exists g.
    destruct (page_bounds_aligned g (Hout g Hg)) as [Hlo Hhi]. rewrite Hlo, Hhi in Hp. zbool.
    unfold in_region. auto.
  - intros (g & Hg & Hp & Hk). exists (r_start g, r_end g - r_start g). split.
    + apply list_elem_of_In, list_elem_of_fmap. exists g. split; [done|]. by apply list_elem_of_filter.
    + destruct (page_bounds_aligned g (Hout g Hg)) as [-> ->]. unfold in_region in Hp.
      apply andb_true_iff. rewrite Z.leb_le, Z.ltb_lt. done.
Qed.

Lemma usable_regions_size out :
  Forall page_region out -> total_size (usable_regions out) <= sizes out.
Proof.
  induction 1 as [|g out (? & ? & _) Hout IH]; [done|]. rewrite usable_regions_cons.
  change (sizes (g :: out)) with (r_end g - r_start g + sizes out).
  unfold total_size in *. case_decide; cbn; lia.
Qed.

Lemma page_slices_aligned a ks kl ro rl :
  Forall (fun s => s_start s mod PAGE_4K = 0 /\ s_end s mod PAGE_4K = 0) (page_slices a ks kl ro rl).
Proof.
  assert (forall lo hi, s_start (page_slice lo hi) mod PAGE_4K = 0 /\ s_end (page_slice lo hi) mod PAGE_4K = 0)
    as H by (intros; split; apply page_of_aligned).
  unfold page_slices. destruct ro; cbn; repeat constructor; apply H.
Qed.

Lemma map_of_page_regions a ks kl ro rl ds out :
  Forall desc_ok ds -> map_of (page_slices a ks kl ro rl) ds out -> Forall page_region out.
Proof.
  intros Hok [I _ _ En _]. rewrite Forall_forall in Hok.
  assert (Forall (fun d => d_start d mod PAGE_4K = 0 /\ d_end d mod PAGE_4K = 0) ds) as Hds.
  { apply Forall_forall. intros d Hd. destruct (Hok d Hd) as (_ & _ & _ & ? & ?).
    split; [done|]. by apply aligned_add. }
  specialize (En (fun x => x mod PAGE_4K = 0) Hds (page_slices_aligned a ks kl ro rl)).
  apply Forall_forall. intros g Hg. rewrite Forall_forall in I, En. destruct (En g Hg).
  destruct (I g Hg) as (? & d & Hd & ? & ? & _). destruct (Hok d Hd) as (? & ? & ? & _).
  unfold page_region. split_and!; try done; lia.
Qed.

Lemma page_span_in lo hi x : lo <= x < hi -> page_span lo hi x = true.
Proof.
  intros. unfold page_span, page_of, PAGE_4K. apply andb_true_iff. rewrite Z.leb_le, Z.ltb_lt.
  pose proof (Z.mod_pos_bound lo 4096). pose proof (Z.mod_pos_bound (hi + (4096 - 1)) 4096). lia.
Qed.

Lemma usable_map_free a ks kl ro rl ds out p :
  Forall desc_ok ds -> ForallOrdPairs desc_disjoint ds -> map_of (page_slices a ks kl ro rl) ds out ->
  boot_free (usable_regions out) p = true <->
  p mod PAGE_4K = 0 /\ (exists d, d ∈ ds /\ kernel_kind d = Usable /\ in_desc d p) /\
  boot_used a ks kl ro rl p = false.
Proof.
  intros Hok Hdis Hmap. pose proof (map_of_page_regions _ _ _ _ _ _ _ Hok Hmap) as Hpr.
  unfold boot_free. rewrite andb_true_iff, Z.eqb_eq.
  rewrite (usable_regions_dom out p Hpr), (map_of_kind _ _ _ _ _ Hdis Hmap).
  setoid_rewrite desc_kind_told. unfold told_kind. split.
  - intros [(d & Hd & Hp & Hk) Hal]. split; [done|]. destruct (decide (kernel_kind d = Usable)); [|done].
    destruct (boot_used a ks kl ro rl p); [done|]. eauto.
  - intros (Hal & (d & Hd & Hk & Hp) & Hb). split; [|done]. exists d. rewrite Hb.
    by rewrite decide_True.
Qed.

(** The pages of the kernel image and of the ramdisk. *)
Definition image_page (ks kl : Z) (ro : option Z) (rl x : Z) : bool :=
  page_span ks (ks + kl) x || match ro with Some r => page_span r (r + rl) x | None => false end.

(** A page of memory the kernel may use when the bootloader has handed out [fs]: of a descriptor
    that was usable all along, any page that was not handed out; of one that becomes usable when
    the bootloader exits, only the pages below 1 MiB and those above all frames handed out. *)
Definition left_over (ds : list LegacyMemoryRegion) (fs : list Z) (p : Z) : Prop :=
  exists d, d ∈ ds /\ in_desc d p /\
    (d_kind d = Usable /\ p ∉ fs \/
     d_usable_after_bootloader_exit d = true /\ (p < LOWER_MEMORY_END_PAGE \/ Forall (fun f => f < p) fs)).

Section Leftover.
Context (ds : list LegacyMemoryRegion) (fs : list Z) (next : Z).
Context (Hnext : next mod PAGE_4K = 0) (Hle : LOWER_MEMORY_END_PAGE <= next).
Context (Hmem : forall g, g ∈ fs <-> usable_frame ds g /\ LOWER_MEMORY_END_PAGE <= g < next).
Context (Hlast : next = LOWER_MEMORY_END_PAGE \/ next - PAGE_4K ∈ fs).

Lemma span_aligned p : page_span LOWER_MEMORY_END_PAGE next p = false <-> p < LOWER_MEMORY_END_PAGE \/ next <= p.
Proof using Hnext.
  assert (page_of (next + (PAGE_4K - 1)) = next) as He.
  { unfold page_of, PAGE_4K in *. apply Z_div_exact_full_2 in Hnext; [|lia]. rewrite Hnext.
    rewrite <-(Z.mod_unique (4096 * (next / 4096) + (4096 - 1)) 4096 (next / 4096) 4095); lia. }
  unfold page_span. rewrite He. change (page_of LOWER_MEMORY_END_PAGE) with LOWER_MEMORY_END_PAGE.
  rewrite andb_false_iff, Z.leb_gt, Z.ltb_ge. done.
Qed.
Lemma above_frames p : p mod PAGE_4K = 0 -> LOWER_MEMORY_END_PAGE <= p -> next <= p <-> Forall (fun f => f < p) fs.
Proof using All.
  intros Hp Hlow. rewrite Forall_forall. split.
  - intros Hn f [_ Hf]%Hmem. lia.
  - intros Hall. destruct Hlast as [->|Hl]; [done|]. specialize (Hall _ Hl).
    pose proof (aligned_lt (next - PAGE_4K) p) as Hlt. unfold PAGE_4K in *.
    assert ((next - 4096) mod 4096 = 0) by (rewrite Zminus_mod, Hnext; done). specialize (Hlt ltac:(done) Hp ltac:(done)). lia.
Qed.
Lemma left_over_spec p : p mod PAGE_4K = 0 ->
  (exists d, d ∈ ds /\ kernel_kind d = Usable /\ in_desc d p) /\ page_span LOWER_MEMORY_END_PAGE next p = false <-> left_over ds fs p.
Proof using All.
  intros Hp. rewrite span_aligned. unfold left_over, kernel_kind. split.
  - intros [(d & Hd & Hk & Hin) Hsp]. exists d. split_and!; [done..|].
    destruct (d_usable_after_bootloader_exit d) eqn:Hu; [right; split; [done|]|left; split; [done|]].
    + destruct (decide (p < LOWER_MEMORY_END_PAGE)); [by left|right]. apply above_frames; [done|lia|lia].
    + intros [_ Hr]%Hmem. lia.
  - intros (d & Hd & Hin & [[Hk Hf]|[Hu Hr]]).
    + split; [exists d; split_and!; [done| |done]; by destruct (d_usable_after_bootloader_exit d)|].
      destruct (decide (p < LOWER_MEMORY_END_PAGE)); [by left|right]. apply Z.nlt_ge. intros Hlt. apply Hf, Hmem.
      split; [|lia]. split; [done|]. by exists d.
    + split; [exists d; split_and!; [done| |done]; by rewrite Hu|]. destruct Hr as [|Hr]; [by left|].
      destruct (decide (p < LOWER_MEMORY_END_PAGE)); [by left|right]. apply above_frames; [done|lia|done].
Qed.
End Leftover.

(** C2: from the firmware's map to the kernel's free pages.  The bootloader hands out
    any number of frames, writes the memory map, and the kernel boots its page allocator
    from it; none of the three steps panics, and the pages the kernel's allocator then
    holds free are exactly the pages outside the kernel image and the ramdisk that are left over:
    of descriptors usable from the start all pages but those handed out, of descriptors usable
    only after the bootloader's exit the pages below 1 MiB and above the last frame handed out
    (the others are lost, although nothing was ever allocated there). *)
Theorem kernel_free_set_after_boot {E} `{HP : PhysAddrs} {HL : PhysAddrsLaws} ds n ks kl ro rl :
  Forall desc_ok ds -> map_sorted ds -> foldr (fun d t => d_len d + t) 0 ds < STORAGE_LIMIT ->
  images_ok ks kl ro rl ->
  exists fs a out alloc, @allocate_frames E _ n (lfa_new ds) = Ok (fs, a) /\
    @construct_memory_map E _ a (memory_map_max_region_count a) ks kl ro rl = Ok out /\
    @initialize MapErr (usable_regions out) = Ok alloc /\ alloc_wf alloc /\
    (forall p, is_free alloc p = true <->
       p mod PAGE_4K = 0 /\ image_page ks kl ro rl p = false /\ left_over ds fs p) /\
    (forall f, f ∈ fs -> is_free alloc f = false).
Proof.
  intros Hok Hs Hsum Himg. destruct (lfa_new_inv ds) as (Hinv0 & Hn0 & Hm0 & Ho0).
  destruct (@allocate_frames_spec E _ _ n (lfa_new ds))
    as (fs & a & Hrun & Hinv & Ho & Hm & Hle & _ & Hmem & Hlast & _); [by rewrite Ho0..|done|].
  rewrite Ho0 in *. rewrite Hm0 in Hm. rewrite Hn0 in *.
  assert (slice_args_ok a ks kl ro rl) as Hargs.
  { destruct Hinv as [_ ? ? _ _]. split_and!; [lia|lia|lia|done]. }
  assert (ForallOrdPairs desc_disjoint ds) as Hdis.
  { eapply sorted_disjoint; [|exact Hs]. unfold desc_disjoint. auto. }
  assert (Forall desc_bounded ds) as Hbd.
  { eapply Forall_impl; [exact Hok|]. intros d (? & ? & ? & _). unfold desc_bounded. lia. }
  destruct (@construct_memory_map_spec E _ _ a ks kl ro rl Hargs (memory_map_max_region_count a))
    as (out & Hout & Hmap); [by rewrite Ho..|done|]. rewrite Ho in Hmap.
  pose proof (map_of_page_regions _ _ _ _ _ _ _ Hok Hmap) as Hpr.
  destruct (@init_regions_spec MapErr (usable_regions out) [] 0) as (al & off & Hinit & Hwf & _ & Hf);
    [by apply usable_regions_ok; [|apply Hmap]|done|by apply Forall_true|lia| |].
  { pose proof (usable_regions_size out Hpr). rewrite (m_size _ _ _ Hmap) in H. lia. }
  assert (forall p, is_free al p = true <-> p mod PAGE_4K = 0 /\ image_page ks kl ro rl p = false /\ left_over ds fs p) as Hfree.
  { intros p. rewrite Hf. etrans; [by apply (usable_map_free a ks kl ro rl ds)|]. unfold boot_used. rewrite Hm, <-orb_assoc, orb_false_iff.
    fold (image_page ks kl ro rl p). pose proof (left_over_spec ds fs (next_frame a) (inv_next _ Hinv) Hle Hmem Hlast p) as Hl. tauto. }
  exists fs, a, out, al. unfold initialize. rewrite Hinit. split_and!; try done.
  intros f Hin. apply not_true_iff_false. rewrite Hfree. intros (Hal & _ & Hlo).
  apply (left_over_spec ds fs (next_frame a) (inv_next _ Hinv) Hle Hmem Hlast f Hal) in Hlo as [_ Hsp].
  apply Hmem in Hin as [_ Hrange]. by rewrite page_span_in in Hsp by lia.
Qed.

Lemma kernel_free_set_after_boot_witness :
  exists fs a out alloc, @allocate_frames unit _ 4 (lfa_new sample_map) = Ok (fs, a) /\
    @construct_memory_map unit _ a (memory_map_max_region_count a) 0x202800 0x900 (Some 0x10000) 0x100 =
      Ok out /\
    @initialize MapErr (usable_regions out) = Ok alloc /\ alloc_wf alloc /\
    (forall p, is_free alloc p = true <->
       p mod PAGE_4K = 0 /\ image_page 0x202800 0x900 (Some 0x10000) 0x100 p = false /\ left_over sample_map fs p) /\
    (forall f, f ∈ fs -> is_free alloc f = false).
Proof.
  apply kernel_free_set_after_boot; [apply sample_map_ok..|vm_compute; reflexivity|].
  unfold images_ok. cbn. unfold MAX_PHYS. lia.
Defined.

(** In the sample map the pages of the third descriptor become usable at the exit, but four frames
    handed out, the last of them above, withhold them from the kernel. *)
Example after_exit_pages_withheld :
  (fun '(fs, a) => ((fs, construct_memory_map (E := unit) a 10 0x300000 0 None 0))) <$>
    (match allocate_frames (E := unit) 4 (lfa_new sample_map) with Ok x => Some x | _ => None end) =
  Some ([0x100000; 0x101000; 0x102000; 0x200000],
    Ok [mkRegion 0x1000 0xa0000 Usable; mkRegion 0x100000 0x103000 Bootloader;
        mkRegion 0x103000 0x105000 Bootloader; mkRegion 0x200000 0x201000 Bootloader; mkRegion 0x201000 0x204000 Usable]).
Proof. vm_compute. reflexivity. Qed.

(** The nodes of the kernel's page allocator are written from physical address 0 on
    (the higher half maps physical memory), and nothing takes those pages out of the
    free set: with low memory usable and 256 MiB above, the allocator hands out the
    page at 0x1000 while a bitmap occupies it. *)
Example allocator_nodes_are_allocatable :
  let regions := [(0x100000, 0x10000000); (0x1000, 0x9f000)] in
  exists low high a', @initialize MapErr regions = Ok [low; high] /\
    bn_virt high = HIGHER_HALF_BASE /\
    0x1000 < size_of_BitmapNode + 8 * Z.of_nat (length (bn_map high)) /\
    @alloc PhysAddr_52 MapErr [low; high] Size4KiB (Some 0x1000) = Ok (Some 0x1000, a').
Proof. eexists _, _, _. split; [vm_compute; reflexivity|]. vm_compute. repeat split. Qed.
