(* ===== verification/Level4.v ===== *)
(** * Virtual address space of the bootloader
    (zenos-bootloader/common/src/level_4_entries.rs)

    Which entries of the level 4 page table are in use, and the search for a free
    virtual address range.  Addresses and pages of the x86_64 crate and the random
    number generator are classes whose laws say what those crates document. *)
From S2P Require Import Prelude.

(** ** Data *)
Inductive Mapping := Dynamic | FixedAddress (addr : Z).

Record BootloaderConfig := mkConfig {
  kernel_stack_size : Z;
  m_kernel_stack : Mapping;
  m_kernel_base : Mapping;
  m_boot_info : Mapping;
  m_framebuffer : Mapping;
  m_physical_memory : option Mapping;
  m_page_table_recursive : option Mapping;
  m_aslr : bool;
  m_dynamic_range_start : option Z;
  m_dynamic_range_end : option Z;
}.

(** A program header: what [xmas_elf] reads of it. *)
Record ProgramHeader := mkHeader {
  ph_is_load : bool;
  ph_virtual_addr : Z;
  ph_mem_size : Z;
  ph_align : Z;
}.
Record ElfFile := mkElf { elf_is_executable : bool; program_iter : list ProgramHeader }.
Record ElfMemoryRequirements := mkReq { req_size : Z; req_align : Z; req_min_addr : Z }.

(** [addr] and [info.byte_len]. *)
Record RawFrameBufferInfo := mkFb { fb_addr : Z; fb_byte_len : Z }.

Record UsedLevel4Entries (R : Type) := mkUsed { entry_state : list bool; rng : option R }.
Arguments mkUsed {R} _ _.
Arguments entry_state {R} _.
Arguments rng {R} _.

(** [VirtAddr] and [Page] of the x86_64 crate; [None] is a panic. *)
Class VirtAddrs := {
  virt_new : Z -> option Z;
  virt_add : Z -> Z -> option Z;
  virt_sub : Z -> Z -> option Z;
  virt_is_aligned : Z -> Z -> bool;
  p4_index : Z -> Z;                      (* of the page that holds the address *)
  page_backward : Z -> option Z;          (* [Step::backward_checked(page, 1)] *)
  page_forward : Z -> option Z;           (* [Step::forward_checked(page, 1)] *)
  page_1gib_start : Z -> Z;               (* [from_page_table_indices_1gib(p4, 0)] *)
}.

(** [IteratorRandom::choose] and [Uniform::from(0..n).sample] of the rand crate. *)
Class Rng (R : Type) := {
  choose : R -> list nat -> option nat * R;
  sample : R -> Z -> Z * R;
}.

Definition LEVEL_4_SIZE : Z := 4096 * 512 * 512 * 512.
(** [size_of::<MemoryRegion>()]. *)
Definition size_of_MemoryRegion : Z := 24.

(** ** Operations *)
Section Ops.
Context {E R : Type} `{VirtAddrs} `{Rng R}.
Implicit Types u : UsedLevel4Entries R.

Definition mark_p4_index_as_used (u : UsedLevel4Entries R) (i : Z) :
    outcome E (UsedLevel4Entries R) :=
  if (Z.to_nat i <? length (entry_state u))%nat
  then Ok (mkUsed (<[Z.to_nat i := true]> (entry_state u)) (rng u))
  else Panic.

(** [for i in lo..lo+n]. *)
Fixpoint mark_indices (n : nat) (lo : Z) (u : UsedLevel4Entries R) : outcome E (UsedLevel4Entries R) :=
  match n with
  | O => Ok u
  | S n => u ← mark_p4_index_as_used u lo; mark_indices n (lo + 1) u
  end.

Definition mark_range_as_used (address size : Z) (u : UsedLevel4Entries R) :
    outcome E (UsedLevel4Entries R) :=
  start ← unwrap (virt_new address);
  end_ ← unwrap (virt_add start size);
  end_inclusive ← unwrap (virt_sub end_ 1);
  mark_indices (Z.to_nat (p4_index end_inclusive + 1 - p4_index start)) (p4_index start) u.

(** [VirtualAddressOffset + u64]. *)
Definition offset_add (virtual_address_offset addr : Z) : outcome E Z :=
  let a := virtual_address_offset + addr in
  if (0 <=? a) && (a <? 2 ^ 64) then Ok a else Panic.

Fixpoint mark_segments (segments : list ProgramHeader) (virtual_address_offset : Z)
    (u : UsedLevel4Entries R) : outcome E (UsedLevel4Entries R) :=
  match segments with
  | [] => Ok u
  | s :: segments =>
      if 0 <? ph_mem_size s
      then a ← offset_add virtual_address_offset (ph_virtual_addr s);
           u ← mark_range_as_used a (ph_mem_size s) u;
           mark_segments segments virtual_address_offset u
      else mark_segments segments virtual_address_offset u
  end.

Fixpoint segment_ends (l : list ProgramHeader) : outcome E (list Z) :=
  match l with
  | [] => Ok []
  | h :: l => e ← uadd 64 (ph_virtual_addr h) (ph_mem_size h); es ← segment_ends l; Ok (e :: es)
  end.

(** [max().unwrap_or(d)] and [min().unwrap_or(d)]. *)
Definition max_or (d : Z) (l : list Z) : Z := match l with [] => d | x :: l => foldl Z.max x l end.
Definition min_or (d : Z) (l : list Z) : Z := match l with [] => d | x :: l => foldl Z.min x l end.

Definition calc_elf_memory_requirements (elf : ElfFile) : outcome E ElfMemoryRequirements :=
  let headers := filter (fun h => ph_is_load h) (program_iter elf) in
  es ← segment_ends headers;
  let max_addr := max_or 0 es in
  let min_addr := min_or 0 (ph_virtual_addr <$> headers) in
  size ← usub max_addr min_addr;
  Ok (mkReq size (max_or 1 (ph_align <$> headers)) min_addr).

(** [self.entry_state.windows(num)], the positions of those without a used entry. *)
Fixpoint free_windows (num : nat) (i : nat) (l : list bool) : list nat :=
  match l with
  | [] => []
  | _ :: l' =>
      (if (num <=? length l)%nat && forallb negb (take num l) then [i] else []) ++
      free_windows num (S i) l'
  end.

Definition get_free_entries (u : UsedLevel4Entries R) (num : Z) :
    outcome E (Z * UsedLevel4Entries R) :=
  if num =? 0 then Panic   (* [windows(0)] *)
  else
    let n := Z.to_nat num in
    let free_entries := free_windows n 0 (entry_state u) in
    let '(idx_opt, rng') :=
      match rng u with
      | Some r => let '(i, r) := choose r free_entries in (i, Some r)
      | None => (head free_entries, None)
      end in
    idx ← unwrap idx_opt;
    u ← mark_indices n (Z.of_nat idx) (mkUsed (entry_state u) rng');
    Ok (Z.of_nat idx, u).

Definition is_power_of_two (x : Z) : bool := (0 <? x) && (Z.land x (x - 1) =? 0).

(** The offset in the first of the entries. *)
Definition random_offset (u : UsedLevel4Entries R) (size alignment : Z) :
    outcome E (Z * UsedLevel4Entries R) :=
  match rng u with
  | Some r =>
      let max_offset := LEVEL_4_SIZE - size mod LEVEL_4_SIZE in
      if max_offset / alignment =? 0 then Panic   (* an empty range *)
      else let '(v, r) := sample r (max_offset / alignment) in
           o ← umul 64 v alignment;
           Ok (o, mkUsed (entry_state u) (Some r))
  | None => Ok (0, u)
  end.

Definition get_free_address (u : UsedLevel4Entries R) (size alignment : Z) :
    outcome E (Z * UsedLevel4Entries R) :=
  if negb (is_power_of_two alignment) then Panic
  else
    t ← uadd 64 size (LEVEL_4_SIZE - 1);
    let level_4_entries := t / LEVEL_4_SIZE in
    '(idx, u) ← get_free_entries u level_4_entries;
    let base := page_1gib_start idx in
    '(offset, u) ← random_offset u size alignment;
    addr ← unwrap (virt_add base offset);
    Ok (addr, u).

Definition mark_fixed (m : option Mapping) (size : Z) (u : UsedLevel4Entries R) :
    outcome E (UsedLevel4Entries R) :=
  match m with Some (FixedAddress a) => mark_range_as_used a size u | _ => Ok u end.
End Ops.

(** [Layout::new::<BootInfo>().extend(Layout::array::<MemoryRegion>(n))], for a
    [BootInfo] of [boot_info_size] bytes; both types are aligned to 8. *)
Definition boot_info_layout {E} (boot_info_size : Z) (n : Z) : outcome E Z :=
  let combined := (boot_info_size + 7) / 8 * 8 + size_of_MemoryRegion * n in
  if combined <? 2 ^ 63 then Ok combined else Panic.

Definition MISALIGNED : string := "kernel_code mapping alignment does not match elf file".

Section New.
Context {R : Type} `{VirtAddrs} (build_rng : R) (boot_info_size : Z).
Context (max_phys_addr : Z) (regions_len : Z) (framebuffer : option RawFrameBufferInfo).
Context (config : BootloaderConfig) (kernel_elf : ElfFile).

Definition mark_recursive (u : UsedLevel4Entries R) : outcome string (UsedLevel4Entries R) :=
  match m_page_table_recursive config with
  | Some (FixedAddress a) => v ← unwrap (virt_new a); mark_p4_index_as_used u (p4_index v)
  | _ => Ok u
  end.

Definition mark_kernel_base (u : UsedLevel4Entries R) : outcome string (UsedLevel4Entries R) :=
  match m_kernel_base config with
  | FixedAddress kernel_base =>
      req ← calc_elf_memory_requirements kernel_elf;
      v ← unwrap (virt_new kernel_base);
      if virt_is_aligned v (req_align req) then mark_range_as_used kernel_base (req_size req) u
      else Err MISALIGNED
  | Dynamic => Ok u
  end.

Definition mark_executable (u : UsedLevel4Entries R) : outcome string (UsedLevel4Entries R) :=
  if elf_is_executable kernel_elf
  then req ← calc_elf_memory_requirements kernel_elf;
       mark_range_as_used (req_min_addr req) (req_size req) u
  else Ok u.

Definition mark_boot_info (u : UsedLevel4Entries R) : outcome string (UsedLevel4Entries R) :=
  match m_boot_info config with
  | FixedAddress a =>
      combined ← boot_info_layout boot_info_size (regions_len + 1);
      mark_range_as_used a combined u
  | Dynamic => Ok u
  end.

Definition mark_before (u : UsedLevel4Entries R) : outcome string (UsedLevel4Entries R) :=
  match m_dynamic_range_start config with
  | Some a =>
      v ← unwrap (virt_new a);
      match page_backward v with
      | Some unusable_page => mark_indices (Z.to_nat (p4_index unusable_page + 1)) 0 u
      | None => Ok u
      end
  | None => Ok u
  end.

Definition mark_after (u : UsedLevel4Entries R) : outcome string (UsedLevel4Entries R) :=
  match m_dynamic_range_end config with
  | Some a =>
      v ← unwrap (virt_new a);
      match page_forward v with
      | Some unusable_page =>
          mark_indices (Z.to_nat (512 - p4_index unusable_page)) (p4_index unusable_page) u
      | None => Ok u
      end
  | None => Ok u
  end.

(** [UsedLevel4Entries::new]. *)
Definition used_new : outcome string (UsedLevel4Entries R) :=
  let used := mkUsed (replicate 512 false) (if m_aslr config then Some build_rng else None) in
  used ← mark_range_as_used 0 max_phys_addr used;
  used ← match framebuffer with
         | Some fb => mark_range_as_used (fb_addr fb) (fb_byte_len fb) used
         | None => Ok used
         end;
  used ← mark_fixed (m_physical_memory config) max_phys_addr used;
  used ← mark_recursive used;
  used ← mark_fixed (Some (m_kernel_stack config)) (kernel_stack_size config) used;
  used ← mark_kernel_base used;
  used ← mark_executable used;
  used ← mark_boot_info used;
  used ← match framebuffer with
         | Some fb => mark_fixed (Some (m_framebuffer config)) (fb_byte_len fb) used
         | None => Ok used
         end;
  used ← mark_before used;
  mark_after used.
End New.

(** ** What the crates document *)
Definition canonical_addr (x : Z) : Prop := 0 <= x < 2 ^ 47 \/ 2 ^ 64 - 2 ^ 47 <= x < 2 ^ 64.
(** Bits 39 to 47 of an address. *)
Definition p4_of (x : Z) : Z := x / LEVEL_4_SIZE mod 512.

Definition page_start (x : Z) : Z := x - x mod 4096.

Class VirtAddrsLaws `{VirtAddrs} : Prop := {
  virt_new_ok x y : virt_new x = Some y -> y = x /\ canonical_addr x;
  virt_add_Some x n y : virt_add x n = Some y -> y = x + n /\ canonical_addr y;
  virt_add_ok x n : canonical_addr (x + n) -> virt_add x n = Some (x + n);
  virt_sub_Some x n y : virt_sub x n = Some y -> y = x - n /\ canonical_addr y;
  p4_index_ok x : canonical_addr x -> p4_index x = p4_of x;
  (* the steps to the pages before and after skip the addresses that are not canonical *)
  page_backward_ok x : canonical_addr x ->
    match page_backward x with
    | Some y => canonical_addr y /\ y mod 4096 = 0 /\ forall z, canonical_addr z -> z < page_start x -> z < y + 4096
    | None => forall z, canonical_addr z -> page_start x <= z
    end;
  page_forward_ok x : canonical_addr x ->
    match page_forward x with
    | Some y => canonical_addr y /\ forall z, canonical_addr z -> page_start x + 4096 <= z -> y <= z
    | None => forall z, canonical_addr z -> z < page_start x + 4096
    end;
  page_1gib_start_ok i : 0 <= i < 512 ->
    page_1gib_start i = i * LEVEL_4_SIZE + (if i <? 256 then 0 else 2 ^ 64 - 2 ^ 48);
}.

Class RngLaws (R : Type) `{Rng R} : Prop := {
  choose_elem r l i r' : choose r l = (Some i, r') -> i ∈ l;
  choose_some r l : l <> [] -> is_Some (choose r l).1;
  sample_range r n : 0 < n -> 0 <= (sample r n).1 < n;
}.

(** ** Free entries *)
Definition entry_free (l : list bool) (i : nat) : Prop := l !! i = Some false.
Definition window_free (l : list bool) (k n : nat) : Prop :=
  forall m, (m < n)%nat -> entry_free l (k + m).
(** [l'] is [l] with the entries of [[k, k + n)] used. *)
Definition marked (l : list bool) (k n : nat) (l' : list bool) : Prop :=
  length l' = length l /\
  forall i, l' !! i = if decide (k <= i < k + n)%nat then (fun _ => true) <$> l !! i else l !! i.

Lemma mark_indices_spec {E R} n k (u : UsedLevel4Entries R) :
  (k + n <= length (entry_state u))%nat ->
  exists l', @mark_indices E R n (Z.of_nat k) u = Ok (mkUsed l' (rng u)) /\ marked (entry_state u) k n l'.
Proof.
  revert k u. induction n as [|n IH]; intros k u Hk.
  { exists (entry_state u). split; [by destruct u|]. split; [done|]. intros i. by rewrite decide_False by lia. }
  cbn [mark_indices]. unfold mark_p4_index_as_used at 1. rewrite Nat2Z.id, (proj2 (Nat.ltb_lt _ _)) by lia.
  cbn [mbind outcome_bind]. replace (Z.of_nat k + 1) with (Z.of_nat (S k)) by lia.
  destruct (IH (S k) (mkUsed (<[k:=true]> (entry_state u)) (rng u))) as (l' & Heq & Hlen & Hl').
  { cbn. rewrite length_insert. lia. }
  exists l'. split; [done|]. cbn in *. rewrite length_insert in Hlen. split; [done|].
  intros i. rewrite Hl'. destruct (decide (i = k)) as [->|].
  - rewrite decide_False, decide_True by lia. rewrite list_lookup_insert_eq by lia.
    destruct (lookup_lt_is_Some_2 (entry_state u) k) as [b ->]; [lia|done].
  - rewrite list_lookup_insert_ne by done. repeat case_decide; lia || done.
Qed.

Lemma forallb_negb_take n l :
  (n <= length l)%nat -> forallb negb (take n l) = true <-> window_free l 0 n.
Proof.
  revert n. induction l as [|b l IH]; intros [|n] Hn; cbn in *; try (split; [intros _ m Hm|]; lia || done).
  rewrite andb_true_iff, negb_true_iff, IH by lia. split.
  - intros [-> Hw] [|m] Hm; [done|]. apply (Hw m). lia.
  - intros Hw. split; [specialize (Hw 0%nat ltac:(lia)); by injection Hw|].
    intros m Hm. apply (Hw (S m)). lia.
Qed.

Lemma elem_of_free_windows n i l j :
  (0 < n)%nat ->
  j ∈ free_windows n i l <-> exists k, j = (i + k)%nat /\ (k + n <= length l)%nat /\ window_free l k n.
Proof.
  intros Hn. revert i. induction l as [|b l IH]; intros i.
  { cbn. split; [by intros ?%not_elem_of_nil|]. intros (k & _ & ? & _). cbn in *. lia. }
  cbn [free_windows]. rewrite elem_of_app, IH. split.
  - intros [Hj|(k & -> & Hk & Hw)].
    + destruct ((n <=? length (b :: l))%nat && forallb negb (take n (b :: l))) eqn:Hb;
        [|by apply not_elem_of_nil in Hj].
      apply list_elem_of_singleton in Hj as ->. apply andb_true_iff in Hb as [Hle%Nat.leb_le Hw].
      exists 0%nat. split_and!; [lia|done|]. by apply forallb_negb_take.
    + exists (S k). split_and!; [lia|cbn; lia|]. exact Hw.
  - intros ([|k] & -> & Hk & Hw).
    + left. rewrite (proj2 (Nat.leb_le _ _)) by (cbn in *; lia).
      rewrite (proj2 (forallb_negb_take n (b :: l) ltac:(cbn in *; lia))) by done.
      apply list_elem_of_singleton. lia.
    + right. exists k. split_and!; [lia|cbn in Hk; lia|]. exact Hw.
Qed.

Section Free.
Context {E R : Type} `{HV : VirtAddrs} {HVL : VirtAddrsLaws} `{HR : Rng R} {HRL : RngLaws R}.

(** A search succeeds exactly when some window is free, and takes one. *)
Lemma get_free_entries_spec (u : UsedLevel4Entries R) num :
  0 < num ->
  (exists k, (k + Z.to_nat num <= length (entry_state u))%nat /\ window_free (entry_state u) k (Z.to_nat num)) ->
  exists k l' r', @get_free_entries E R _ u num = Ok (Z.of_nat k, mkUsed l' r') /\
    (k + Z.to_nat num <= length (entry_state u))%nat /\ window_free (entry_state u) k (Z.to_nat num) /\
    marked (entry_state u) k (Z.to_nat num) l' /\ (rng u = None <-> r' = None).
Proof using HRL.
  intros Hnum (k0 & Hk0 & Hw0). unfold get_free_entries. rewrite (proj2 (Z.eqb_neq num 0)) by lia.
  set (n := Z.to_nat num) in *. set (ws := free_windows n 0 (entry_state u)).
  assert (k0 ∈ ws) as Hin by (apply elem_of_free_windows; [lia|]; exists k0; split_and!; done).
  assert (exists k r', (match rng u with
      | Some r => let '(i, r) := choose r ws in (i, Some r) | None => (head ws, None) end) = (Some k, r') /\
      k ∈ ws /\ (rng u = None <-> r' = None)) as (k & r' & -> & Hk & Hr).
  { destruct (rng u) as [r|].
    - destruct (choose_some r ws) as [k Hk]; [by destruct ws; [apply not_elem_of_nil in Hin|]|].
      destruct (choose r ws) as [o r'] eqn:Hc. cbn in Hk. subst o. exists k, (Some r').
      split_and!; [done| |done]. by eapply choose_elem.
    - destruct ws as [|k ws]; [by apply not_elem_of_nil in Hin|]. exists k, None. split_and!; [done|by left|done]. }
  apply elem_of_free_windows in Hk as (k' & -> & Hlen & Hw); [|lia]. cbn [unwrap mbind outcome_bind].
  destruct (@mark_indices_spec E R n (0 + k') (mkUsed (entry_state u) r')) as (l' & Heq & Hm); [done|].
  rewrite Heq. cbn [mbind outcome_bind]. exists k', l', r'. split_and!; done.
Qed.

Lemma get_free_entries_none (u : UsedLevel4Entries R) num :
  0 < num ->
  (forall k, (k + Z.to_nat num <= length (entry_state u))%nat -> ~ window_free (entry_state u) k (Z.to_nat num)) ->
  @get_free_entries E R _ u num = Panic.
Proof using HRL.
  intros Hnum Hno. unfold get_free_entries. rewrite (proj2 (Z.eqb_neq num 0)) by lia.
  destruct (free_windows (Z.to_nat num) 0 (entry_state u)) as [|k ws] eqn:Hw.
  - destruct (rng u) as [r|]; [|done]. destruct (choose r []) as [[i|] r'] eqn:Hc; [|done].
    apply choose_elem in Hc. by apply not_elem_of_nil in Hc.
  - assert (k ∈ free_windows (Z.to_nat num) 0 (entry_state u)) as Hk by (rewrite Hw; by left).
    apply elem_of_free_windows in Hk as (k' & -> & Hlen & Hf); [|lia]. by destruct (Hno _ Hlen).
Qed.
End Free.

(** ** Free addresses *)
Lemma is_power_of_two_pow k : 0 <= k -> is_power_of_two (2 ^ k) = true.
Proof.
  intros Hk. unfold is_power_of_two. pose proof (Z.pow_pos_nonneg 2 k).
  rewrite (proj2 (Z.ltb_lt _ _)) by lia. apply Z.eqb_eq.
  replace (2 ^ k - 1) with (Z.ones k) by (rewrite Z.ones_equiv; lia).
  rewrite Z.land_ones by lia. apply Z.mod_same. lia.
Qed.

(** The range [size] bytes long at [offset] from the start of [num] entries at [k]. *)
Lemma p4_of_range k num offset size x :
  0 <= k -> k + num <= 512 -> 0 <= offset -> offset + size <= num * LEVEL_4_SIZE ->
  let addr := k * LEVEL_4_SIZE + (if k <? 256 then 0 else 2 ^ 64 - 2 ^ 48) + offset in
  addr <= x < addr + size -> k <= p4_of x < k + num.
Proof.
  intros Hk Hn Ho Hs addr Hx. subst addr. unfold p4_of, LEVEL_4_SIZE in *.
  set (t := x - (k * (4096 * 512 * 512 * 512) + (if k <? 256 then 0 else 2 ^ 64 - 2 ^ 48))).
  assert (0 <= t < num * (4096 * 512 * 512 * 512)) as Ht by (subst t; lia).
  pose proof (Z.div_mod t (4096 * 512 * 512 * 512) ltac:(lia)).
  pose proof (Z.mod_pos_bound t (4096 * 512 * 512 * 512) ltac:(lia)).
  assert (0 <= t / (4096 * 512 * 512 * 512) < num) as Hq
    by (split; [apply Z.div_pos|apply Z.div_lt_upper_bound]; lia).
  set (q := t / (4096 * 512 * 512 * 512)) in *.
  assert (x / (4096 * 512 * 512 * 512) = k + q + (if k <? 256 then 0 else (2 ^ 16 - 1) * 512)) as ->.
  { symmetry. apply (Z.div_unique x _ _ (t mod (4096 * 512 * 512 * 512))); [lia|]. subst t.
    destruct (k <? 256); lia. }
  destruct (k <? 256); rewrite ?Z.add_0_r, ?Z_mod_plus_full; rewrite Z.mod_small; lia.
Qed.

(** The size fits the entries, and with ASLR a random offset is left room for. *)
Definition offset_fits {R} (u : UsedLevel4Entries R) (size alignment : Z) : Prop :=
  rng u = None \/ (size mod LEVEL_4_SIZE <> 0 /\ size mod LEVEL_4_SIZE + alignment <= LEVEL_4_SIZE).
Definition entries_for (size : Z) : nat := Z.to_nat ((size + (LEVEL_4_SIZE - 1)) / LEVEL_4_SIZE).

Lemma entries_for_bounds size :
  0 < size -> size <= Z.of_nat (entries_for size) * LEVEL_4_SIZE /\
  (size mod LEVEL_4_SIZE <> 0 ->
   Z.of_nat (entries_for size) * LEVEL_4_SIZE = size - size mod LEVEL_4_SIZE + LEVEL_4_SIZE) /\
  0 < Z.of_nat (entries_for size).
Proof.
  intros Hs. unfold entries_for, LEVEL_4_SIZE.
  set (L := 4096 * 512 * 512 * 512). assert (0 < L) by done.
  pose proof (Z.div_mod size L ltac:(lia)). pose proof (Z.mod_pos_bound size L ltac:(lia)).
  pose proof (Z.div_pos size L ltac:(lia) ltac:(lia)).
  destruct (decide (size mod L = 0)) as [Hz|Hz].
  - rewrite <-(Z.div_unique (size + (L - 1)) L (size / L) (L - 1)) by lia.
    rewrite Z2Nat.id by lia. split_and!; nia.
  - rewrite <-(Z.div_unique (size + (L - 1)) L (size / L + 1) (size mod L - 1)) by lia.
    rewrite Z2Nat.id by lia. split_and!; nia.
Qed.

Lemma random_offset_bounds v m al :
  0 < al -> 0 <= v < m / al -> 0 <= v * al /\ v * al + al <= m.
Proof. intros Ha Hv. pose proof (Z.mul_div_le m al Ha). nia. Qed.

Section Address.
Context {E R : Type} `{HV : VirtAddrs} {HVL : VirtAddrsLaws} `{HR : Rng R} {HRL : RngLaws R}.

Lemma random_offset_spec (u : UsedLevel4Entries R) size al :
  0 < size -> 0 < al <= LEVEL_4_SIZE -> offset_fits u size al ->
  exists o r', @random_offset E R _ u size al = Ok (o, mkUsed (entry_state u) r') /\
    0 <= o < LEVEL_4_SIZE /\ o + size <= Z.of_nat (entries_for size) * LEVEL_4_SIZE /\ (al | o).
Proof using HRL.
  intros Hs Hal Hfit. unfold random_offset. destruct (entries_for_bounds size Hs) as (Hb1 & Hb2 & _).
  destruct (rng u) as [r|] eqn:Hr.
  - destruct Hfit as [Hn|[Hz Hroom]]; [congruence|]. cbv zeta.
    set (m := LEVEL_4_SIZE - size mod LEVEL_4_SIZE) in *.
    assert (1 <= m / al) by (apply Z.div_le_lower_bound; lia).
    rewrite (proj2 (Z.eqb_neq _ _)) by lia. pose proof (sample_range r (m / al) ltac:(lia)) as Hv.
    destruct (sample r (m / al)) as [v r']. cbn in Hv. specialize (Hb2 Hz).
    destruct (random_offset_bounds v m al ltac:(lia) Hv).
    pose proof (Z.mod_pos_bound size LEVEL_4_SIZE ltac:(done)). assert (LEVEL_4_SIZE < 2 ^ 64) by done.
    rewrite umul_eq by lia. cbn. eexists _, _. split; [done|]. split_and!; [lia|lia|lia|]. by exists v.
  - exists 0, None. split; [destruct u; cbn in *; by subst|]. split_and!; [lia|done|lia|by exists 0].
Qed.

(** What [get_free_address] returns and marks. *)
Lemma get_free_address_spec (u : UsedLevel4Entries R) size k :
  length (entry_state u) = 512%nat -> 0 < size <= 2 ^ 48 -> 0 <= k <= 39 ->
  offset_fits u size (2 ^ k) ->
  (exists i, (i + entries_for size <= 512)%nat /\ window_free (entry_state u) i (entries_for size)) ->
  exists addr i l' r', @get_free_address E R _ _ u size (2 ^ k) = Ok (addr, mkUsed l' r') /\
    (2 ^ k | addr) /\ canonical_addr addr /\
    marked (entry_state u) i (entries_for size) l' /\ window_free (entry_state u) i (entries_for size) /\
    (forall x, addr <= x < addr + size -> (i <= Z.to_nat (p4_of x) < i + entries_for size)%nat /\
       (size <= LEVEL_4_SIZE -> canonical_addr x)).
Proof using HVL HRL.
  intros Hlen Hsize Hk Hfit Hwin. unfold get_free_address. rewrite is_power_of_two_pow by lia. cbn [negb].
  rewrite uadd_eq by (unfold LEVEL_4_SIZE; lia). cbn [mbind outcome_bind].
  destruct (entries_for_bounds size ltac:(lia)) as (_ & _ & Hpos). unfold entries_for in Hpos.
  rewrite Z2Nat.id in Hpos by lia.
  destruct (get_free_entries_spec (E:=E) u ((size + (LEVEL_4_SIZE - 1)) / LEVEL_4_SIZE)) as
    (i & l' & r1 & -> & Hi & Hw & Hm & Hr); [lia|by rewrite Hlen|].
  cbn [mbind outcome_bind]. rewrite Hlen in Hi. fold (entries_for size) in Hi, Hw, Hm.
  assert (0 < 2 ^ k <= LEVEL_4_SIZE) as Hal.
  { split; [apply Z.pow_pos_nonneg; lia|]. change LEVEL_4_SIZE with (2 ^ 39). apply Z.pow_le_mono_r; lia. }
  destruct (random_offset_spec (mkUsed l' r1) size (2 ^ k)) as (o & r' & -> & Ho & Hfits & Hdiv); [lia|done|..].
  { destruct Hfit as [Hn|?]; [left; by apply Hr|by right]. }
  cbn [mbind outcome_bind entry_state]. unfold entries_for in Hi at 1.
  rewrite page_1gib_start_ok by lia.
  set (base := Z.of_nat i * LEVEL_4_SIZE + _).
  assert (canonical_addr (base + o)) as Hcan.
  { subst base. unfold canonical_addr, LEVEL_4_SIZE in *.
    destruct (Z.ltb_spec (Z.of_nat i) 256); [left|right]; lia. }
  rewrite virt_add_ok by done. cbn. exists (base + o), i, l', r'. split_and!; try done.
  - apply Z.divide_add_r; [|done]. subst base. apply Z.divide_add_r.
    + apply Z.divide_mul_r. change LEVEL_4_SIZE with (2 ^ 39). exists (2 ^ (39 - k)).
      rewrite <-Z.pow_add_r by lia. f_equal. lia.
    + case_match; [by exists 0|]. exists ((2 ^ 16 - 1) * 2 ^ (48 - k)).
      rewrite <-Z.mul_assoc, <-Z.pow_add_r by lia. replace (48 - k + k) with 48 by lia. lia.
  - intros x Hx. split; cycle 1.
    { intros Hone. assert (entries_for size = 1%nat) as He1.
      { unfold entries_for. rewrite <-(Z.div_unique (size + (LEVEL_4_SIZE - 1)) LEVEL_4_SIZE 1 (size - 1)); lia. }
      rewrite He1 in *. subst base. unfold canonical_addr, LEVEL_4_SIZE in *.
      destruct (Z.ltb_spec (Z.of_nat i) 256); [left|right]; lia. }
    pose proof (p4_of_range (Z.of_nat i) (Z.of_nat (entries_for size)) o size x ltac:(lia)
      ltac:(unfold entries_for; lia) ltac:(lia) ltac:(lia) ltac:(subst base; lia)). lia.
Qed.
End Address.

(** ** The configured ranges *)
(** Entries only become used, and the table keeps its length. *)
Definition grows {R} (u u' : UsedLevel4Entries R) : Prop :=
  length (entry_state u') = length (entry_state u) /\
  forall i : nat, entry_state u !! i = Some true -> entry_state u' !! i = Some true.
Definition used_at {R} (u : UsedLevel4Entries R) (x : Z) : Prop :=
  entry_state u !! Z.to_nat (p4_of x) = Some true.

#[export] Instance grows_preorder R : PreOrder (@grows R).
Proof.
  split; [by intros u|]. intros u1 u2 u3 [L1 G1] [L2 G2]. split; [congruence|]. auto.
Qed.

Lemma grows_used {R} (u u' : UsedLevel4Entries R) x : grows u u' -> used_at u x -> used_at u' x.
Proof. intros [_ H]. apply H. Qed.

Lemma mark_indices_Ok {E R} n k (u u' : UsedLevel4Entries R) :
  0 <= k -> @mark_indices E R n k u = Ok u' ->
  grows u u' /\ forall i, k <= i < k + Z.of_nat n -> entry_state u' !! Z.to_nat i = Some true.
Proof.
  revert k u. induction n as [|n IH]; intros k u Hk H; cbn in H.
  { injection H as <-. split; [done|lia]. }
  apply outcome_bind_Ok in H as (u1 & H1 & H). unfold mark_p4_index_as_used in H1.
  destruct (Z.to_nat k <? length (entry_state u))%nat eqn:Hlt; [|done]. apply Nat.ltb_lt in Hlt.
  injection H1 as <-. destruct (IH (k + 1) _ ltac:(lia) H) as [[L G] Hm]. cbn in L, G.
  rewrite length_insert in L. split.
  - split; [done|]. intros i Hi. apply G. destruct (decide (i = Z.to_nat k)) as [->|].
    + by rewrite list_lookup_insert_eq.
    + by rewrite list_lookup_insert_ne.
  - intros i Hi. destruct (decide (i = k)) as [->|]; [|apply Hm; lia].
    apply G. by rewrite list_lookup_insert_eq.
Qed.

Lemma p4_of_mono x y : canonical_addr x -> canonical_addr y -> x <= y -> 0 <= p4_of x <= p4_of y.
Proof.
  unfold canonical_addr, p4_of, LEVEL_4_SIZE. intros Hx Hy Hle.
  set (L := 4096 * 512 * 512 * 512) in *.
  assert (forall z, 0 <= z < 2 ^ 47 -> 0 <= z / L < 256 /\ (z / L) mod 512 = z / L) as Hlow.
  { intros z Hz. assert (0 <= z / L < 256)
      by (split; [apply Z.div_pos|apply Z.div_lt_upper_bound]; subst L; lia).
    split; [done|]. apply Z.mod_small. lia. }
  assert (forall z, 2 ^ 64 - 2 ^ 47 <= z < 2 ^ 64 ->
    2 ^ 25 - 256 <= z / L < 2 ^ 25 /\ (z / L) mod 512 = z / L - (2 ^ 25 - 512)) as Hhigh.
  { intros z Hz. assert (2 ^ 25 - 256 <= z / L < 2 ^ 25)
      by (split; [apply Z.div_le_lower_bound|apply Z.div_lt_upper_bound]; subst L; lia).
    split; [done|]. symmetry. apply (Z.mod_unique (z / L) 512 (2 ^ 16 - 1)); lia. }
  pose proof (Z.div_le_mono x y L ltac:(subst L; lia) Hle).
  destruct Hx as [Hx|Hx], Hy as [Hy|Hy]; [apply Hlow in Hx, Hy|apply Hlow in Hx; apply Hhigh in Hy|lia
    |apply Hhigh in Hx, Hy]; lia.
Qed.

Section Configured.
Context {R : Type} `{HV : VirtAddrs} {HVL : VirtAddrsLaws}.

Lemma mark_range_Ok {E} a size (u u' : UsedLevel4Entries R) :
  @mark_range_as_used E R _ a size u = Ok u' ->
  grows u u' /\ forall x, canonical_addr x -> a <= x < a + size -> used_at u' x.
Proof using HVL.
  unfold mark_range_as_used. intros H. apply outcome_bind_Ok in H as (s & Hs & H).
  apply outcome_bind_Ok in H as (e & He & H). apply outcome_bind_Ok in H as (e1 & He1 & H).
  destruct (virt_new a) eqn:E1; [|done]. injection Hs as ->. apply virt_new_ok in E1 as [-> Ca].
  destruct (virt_add a size) eqn:E2; [|done]. injection He as ->. apply virt_add_Some in E2 as [-> _].
  destruct (virt_sub (a + size) 1) eqn:E3; [|done]. injection He1 as ->. apply virt_sub_Some in E3 as [-> Ce].
  rewrite !p4_index_ok in H by done. pose proof (p4_of_mono a a Ca Ca ltac:(lia)).
  apply mark_indices_Ok in H as [Hg Hm]; [|lia]. split; [done|]. intros x Cx Hx. apply Hm.
  pose proof (p4_of_mono a x Ca Cx ltac:(lia)). pose proof (p4_of_mono x (a + size - 1) Cx Ce ltac:(lia)). lia.
Qed.

Lemma mark_fixed_Ok {E} m size (u u' : UsedLevel4Entries R) :
  @mark_fixed E R _ m size u = Ok u' ->
  grows u u' /\ forall a x, m = Some (FixedAddress a) -> canonical_addr x -> a <= x < a + size -> used_at u' x.
Proof using HVL.
  unfold mark_fixed. destruct m as [[|a]|]; [by intros [= ->]| |by intros [= ->]].
  intros [Hg Hm]%mark_range_Ok. split; [done|]. intros a' x [= ->]. apply Hm.
Qed.

Context (build_rng : R) (boot_info_size max_phys regions_len : Z) (fb : option RawFrameBufferInfo).
Context (c : BootloaderConfig) (elf : ElfFile).

(** The ranges that [new] reserves: start and size. *)
Inductive configured : Z -> Z -> Prop :=
| conf_identity : configured 0 max_phys
| conf_framebuffer f : fb = Some f -> configured (fb_addr f) (fb_byte_len f)
| conf_physical a : m_physical_memory c = Some (FixedAddress a) -> configured a max_phys
| conf_stack a : m_kernel_stack c = FixedAddress a -> configured a (kernel_stack_size c)
| conf_kernel_base a req : m_kernel_base c = FixedAddress a ->
    @calc_elf_memory_requirements string elf = Ok req -> configured a (req_size req)
| conf_executable req : elf_is_executable elf = true ->
    @calc_elf_memory_requirements string elf = Ok req -> configured (req_min_addr req) (req_size req)
| conf_boot_info a sz : m_boot_info c = FixedAddress a ->
    @boot_info_layout string boot_info_size (regions_len + 1) = Ok sz -> configured a sz
| conf_fb_mapping f a : fb = Some f -> m_framebuffer c = FixedAddress a -> configured a (fb_byte_len f)
(* the entry of the table itself, and what lies before and after the pages of the dynamic range *)
| conf_recursive a : m_page_table_recursive c = Some (FixedAddress a) -> configured (a - a mod LEVEL_4_SIZE) LEVEL_4_SIZE
| conf_before a : m_dynamic_range_start c = Some a -> configured 0 (page_start a)
| conf_after a : m_dynamic_range_end c = Some a -> configured (page_start a + 4096) (2 ^ 64 - (page_start a + 4096)).

Lemma mark_kernel_base_Ok (u u' : UsedLevel4Entries R) :
  mark_kernel_base c elf u = Ok u' ->
  grows u u' /\ forall a req x, m_kernel_base c = FixedAddress a ->
    @calc_elf_memory_requirements string elf = Ok req -> canonical_addr x ->
    a <= x < a + req_size req -> used_at u' x.
Proof using HVL.
  unfold mark_kernel_base. destruct (m_kernel_base c) as [|b]; [by intros [= ->]|]. intros H.
  apply outcome_bind_Ok in H as (req & Hreq & H). apply outcome_bind_Ok in H as (v & _ & H).
  destruct (virt_is_aligned v (req_align req)); [|done]. apply mark_range_Ok in H as [Hg Hm].
  split; [done|]. intros a req' x [= <-] Hreq'. rewrite Hreq in Hreq'. injection Hreq' as <-. apply Hm.
Qed.

Lemma mark_executable_Ok (u u' : UsedLevel4Entries R) :
  mark_executable elf u = Ok u' ->
  grows u u' /\ forall req x, elf_is_executable elf = true ->
    @calc_elf_memory_requirements string elf = Ok req -> canonical_addr x ->
    req_min_addr req <= x < req_min_addr req + req_size req -> used_at u' x.
Proof using HVL.
  unfold mark_executable. destruct (elf_is_executable elf); [|by intros [= ->]]. intros H.
  apply outcome_bind_Ok in H as (req & Hreq & [Hg Hm]%mark_range_Ok).
  split; [done|]. intros req' x _ Hreq'. rewrite Hreq in Hreq'. injection Hreq' as <-. apply Hm.
Qed.

Lemma mark_boot_info_Ok (u u' : UsedLevel4Entries R) :
  mark_boot_info boot_info_size regions_len c u = Ok u' ->
  grows u u' /\ forall a sz x, m_boot_info c = FixedAddress a ->
    @boot_info_layout string boot_info_size (regions_len + 1) = Ok sz -> canonical_addr x ->
    a <= x < a + sz -> used_at u' x.
Proof using HVL.
  unfold mark_boot_info. destruct (m_boot_info c) as [|b]; [by intros [= ->]|]. intros H.
  apply outcome_bind_Ok in H as (sz & Hsz & [Hg Hm]%mark_range_Ok).
  split; [done|]. intros a sz' x [= <-] Hsz'. rewrite Hsz in Hsz'. injection Hsz' as <-. apply Hm.
Qed.

Lemma unwrap_virt_new {E} a v : unwrap (E := E) (virt_new a) = Ok v -> v = a /\ canonical_addr a.
Proof using HVL. destruct (virt_new a) eqn:Ha; [|done]. intros [= ->]. by apply virt_new_ok. Qed.

Lemma mark_recursive_Ok (u u' : UsedLevel4Entries R) :
  mark_recursive c u = Ok u' ->
  grows u u' /\ forall a x, m_page_table_recursive c = Some (FixedAddress a) ->
    a - a mod LEVEL_4_SIZE <= x < a - a mod LEVEL_4_SIZE + LEVEL_4_SIZE -> used_at u' x.
Proof using HVL.
  unfold mark_recursive. destruct (m_page_table_recursive c) as [[|a]|]; [by intros [= ->]| |by intros [= ->]].
  intros H. apply outcome_bind_Ok in H as (v & [-> Ca]%unwrap_virt_new & H).
  rewrite p4_index_ok in H by done. pose proof (p4_of_mono a a Ca Ca ltac:(lia)).
  assert (@mark_indices string R 1 (p4_of a) u = Ok u') as Hm by (cbn; by rewrite H).
  apply mark_indices_Ok in Hm as [? Hm]; [|lia]. split; [done|]. intros a' x [= <-] Hx.
  assert (p4_of x = p4_of a) as Heq; [|unfold used_at; rewrite Heq; apply Hm; lia].
  unfold p4_of. f_equal. pose proof (Z.div_mod a LEVEL_4_SIZE ltac:(done)).
  symmetry. apply (Z.div_unique x LEVEL_4_SIZE (a / LEVEL_4_SIZE) (x - LEVEL_4_SIZE * (a / LEVEL_4_SIZE))); lia.
Qed.

(** All bytes of a page are in one entry. *)
Lemma p4_of_page y z : canonical_addr y -> canonical_addr z -> y mod 4096 = 0 -> z < y + 4096 -> p4_of z <= p4_of y.
Proof using.
  intros Cy Cz Hy Hz. destruct (decide (z <= y)); [by apply p4_of_mono|].
  assert (p4_of z = p4_of y) as ->; [|done]. unfold p4_of. f_equal. unfold LEVEL_4_SIZE.
  apply Z_div_exact_full_2 in Hy; [|lia]. rewrite <-!Z.div_div by lia.
  do 3 f_equal. symmetry. apply (Z.div_unique z 4096 (y / 4096) (z - y)); lia.
Qed.

Lemma mark_before_Ok (u u' : UsedLevel4Entries R) :
  mark_before c u = Ok u' ->
  grows u u' /\ forall a x, m_dynamic_range_start c = Some a -> canonical_addr x -> x < page_start a -> used_at u' x.
Proof using HVL.
  unfold mark_before. destruct (m_dynamic_range_start c) as [a|]; [|by intros [= ->]]. intros H.
  apply outcome_bind_Ok in H as (v & [-> Ca]%unwrap_virt_new & H). pose proof (page_backward_ok a Ca) as Hb.
  destruct (page_backward a) as [y|].
  - destruct Hb as (Cy & Hy & Hb). rewrite p4_index_ok in H by done.
    apply mark_indices_Ok in H as [Hg Hm]; [|lia]. split; [done|]. intros a' x [= <-] Cx Hx. apply Hm.
    pose proof (p4_of_mono x x Cx Cx ltac:(lia)). pose proof (p4_of_page y x Cy Cx Hy (Hb x Cx Hx)). lia.
  - injection H as ->. split; [done|]. intros a' x [= <-] Cx Hx. specialize (Hb x Cx). lia.
Qed.

Lemma mark_after_Ok (u u' : UsedLevel4Entries R) :
  mark_after c u = Ok u' ->
  grows u u' /\ forall a x, m_dynamic_range_end c = Some a -> canonical_addr x -> page_start a + 4096 <= x -> used_at u' x.
Proof using HVL.
  unfold mark_after. destruct (m_dynamic_range_end c) as [a|]; [|by intros [= ->]]. intros H.
  apply outcome_bind_Ok in H as (v & [-> Ca]%unwrap_virt_new & H). pose proof (page_forward_ok a Ca) as Hf.
  destruct (page_forward a) as [y|].
  - destruct Hf as (Cy & Hf). rewrite p4_index_ok in H by done. pose proof (p4_of_mono y y Cy Cy ltac:(lia)).
    apply mark_indices_Ok in H as [Hg Hm]; [|lia]. split; [done|]. intros a' x [= <-] Cx Hx. apply Hm.
    pose proof (p4_of_mono y x Cy Cx (Hf x Cx Hx)). pose proof (Z.mod_pos_bound (x / LEVEL_4_SIZE) 512). unfold p4_of in *. lia.
  - injection H as ->. split; [done|]. intros a' x [= <-] Cx Hx. specialize (Hf x Cx). lia.
Qed.

Lemma mark_fb_Ok (u u' : UsedLevel4Entries R) :
  match fb with Some f => mark_range_as_used (fb_addr f) (fb_byte_len f) u | None => @Ok string _ u end = Ok u' ->
  grows u u' /\ forall f x, fb = Some f -> canonical_addr x ->
    fb_addr f <= x < fb_addr f + fb_byte_len f -> used_at u' x.
Proof using HVL.
  destruct fb as [f|]; [|by intros [= ->]]. intros [Hg Hm]%mark_range_Ok. split; [done|].
  intros f' x [= <-]. apply Hm.
Qed.

Lemma mark_fb_mapping_Ok (u u' : UsedLevel4Entries R) :
  match fb with
  | Some f => mark_fixed (Some (m_framebuffer c)) (fb_byte_len f) u
  | None => @Ok string _ u
  end = Ok u' ->
  grows u u' /\ forall f a x, fb = Some f -> m_framebuffer c = FixedAddress a -> canonical_addr x ->
    a <= x < a + fb_byte_len f -> used_at u' x.
Proof using HVL.
  destruct fb as [f|]; [|by intros [= ->]]. intros [Hg Hm]%mark_fixed_Ok. split; [done|].
  intros f' a x [= <-] Ha. apply Hm. by rewrite Ha.
Qed.

Lemma used_new_reserves u :
  used_new build_rng boot_info_size max_phys regions_len fb c elf = Ok u ->
  length (entry_state u) = 512%nat /\
  forall a sz x, configured a sz -> canonical_addr x -> a <= x < a + sz -> used_at u x.
Proof using HVL.
  unfold used_new. intros H.
  apply outcome_bind_Ok in H as (u1 & [G1 M1]%mark_range_Ok & H).
  apply outcome_bind_Ok in H as (u2 & [G2 M2]%mark_fb_Ok & H).
  apply outcome_bind_Ok in H as (u3 & [G3 M3]%mark_fixed_Ok & H).
  apply outcome_bind_Ok in H as (u4 & [G4 M4]%mark_recursive_Ok & H).
  apply outcome_bind_Ok in H as (u5 & [G5 M5]%mark_fixed_Ok & H).
  apply outcome_bind_Ok in H as (u6 & [G6 M6]%mark_kernel_base_Ok & H).
  apply outcome_bind_Ok in H as (u7 & [G7 M7]%mark_executable_Ok & H).
  apply outcome_bind_Ok in H as (u8 & [G8 M8]%mark_boot_info_Ok & H).
  apply outcome_bind_Ok in H as (u9 & [G9 M9]%mark_fb_mapping_Ok & H).
  apply outcome_bind_Ok in H as (u10 & [G10 M10]%mark_before_Ok & [G11 M11]%mark_after_Ok).
  assert (grows u9 u) as T9 by (by transitivity u10).
  assert (grows u8 u) as T8 by (by transitivity u9). assert (grows u7 u) as T7 by (by transitivity u8).
  assert (grows u6 u) as T6 by (by transitivity u7). assert (grows u5 u) as T5 by (by transitivity u6).
  assert (grows u4 u) as T4 by (by transitivity u5). assert (grows u3 u) as T3 by (by transitivity u4).
  assert (grows u2 u) as T2 by (by transitivity u3). assert (grows u1 u) as T1 by (by transitivity u2).
  split.
  - destruct T1 as [-> _]. by destruct G1 as [-> _].
  - intros a sz x [] Cx Hx.
    + apply (grows_used u1); auto.
    + apply (grows_used u2); eauto.
    + apply (grows_used u3); eauto.
    + apply (grows_used u5); [done|]. eapply M5; [by f_equal|done..].
    + apply (grows_used u6); eauto.
    + apply (grows_used u7); eauto.
    + apply (grows_used u8); eauto.
    + apply (grows_used u9); eauto.
    + apply (grows_used u4); eauto.
    + apply (grows_used u10); [done|]. eapply M10; [done|done|lia].
    + eapply M11; [done|done|lia].
Qed.
End Configured.

(** C5: a free virtual address range.  Take the table [new] builds from a
    configuration, with any further entries in use.  For an alignment that is a power of
    two up to 512 GiB, a table with enough contiguous unused entries and, with ASLR, a size that
    leaves room for an aligned offset in the last entry ([offset_fits]; see
    [whole_entries_overrun] for sizes that do not), [get_free_address] returns, whatever the
    generator draws, an aligned canonical address; every byte of the range lies in an entry that
    was not in use and now is, so that later ranges do not meet it, and is canonical for sizes up to
    one entry (a larger range may reach into the gap, [range_meets_gap]); and no canonical byte of it
    belongs to anything [new] reserved: identity-mapped memory, the framebuffer, the fixed
    mappings, the kernel image, the entry of a recursive table, and all memory outside the dynamic
    range. *)
Theorem free_address_is_fresh {E R} `{HV : VirtAddrs} {HVL : VirtAddrsLaws} `{HR : Rng R} {HRL : RngLaws R}
    (build_rng : R) bi_size max_phys regions_len fb c elf u0 u size k :
  used_new build_rng bi_size max_phys regions_len fb c elf = Ok u0 -> grows u0 u ->
  0 < size <= 2 ^ 48 -> 0 <= k <= 39 -> offset_fits u size (2 ^ k) ->
  (exists i, (i + entries_for size <= 512)%nat /\ window_free (entry_state u) i (entries_for size)) ->
  exists addr u', @get_free_address E R _ _ u size (2 ^ k) = Ok (addr, u') /\
    (2 ^ k | addr) /\ canonical_addr addr /\ grows u u' /\
    forall x, addr <= x < addr + size -> ~ used_at u x /\ used_at u' x /\ (size <= LEVEL_4_SIZE -> canonical_addr x) /\
      (canonical_addr x -> forall a sz, configured bi_size max_phys regions_len fb c elf a sz ->
         ~ a <= x < a + sz).
Proof.
  intros Hnew Hgrows Hsize Hk Hfit Hwin. apply used_new_reserves in Hnew as [Hlen0 Hres].
  destruct (get_free_address_spec (E:=E) u size k) as (addr & i & l' & r' & Haddr & Hal & Hcan & Hm & Hw & Hin);
    [by destruct Hgrows as [-> _]|done..|].
  exists addr, (mkUsed l' r'). destruct Hm as [Hlen Hm]. split_and!; try done.
  - split; [done|]. cbn. intros j Hj. rewrite Hm. case_decide; [by rewrite Hj|done].
  - intros x Hx. destruct (Hin x Hx) as [Hix Hcx]. clear Hin.
    assert (entry_state u !! Z.to_nat (p4_of x) = Some false) as Hfree.
    { replace (Z.to_nat (p4_of x)) with (i + (Z.to_nat (p4_of x) - i))%nat by lia. apply Hw. lia. }
    split_and!.
    + unfold used_at. rewrite Hfree. done.
    + unfold used_at. cbn. rewrite Hm, decide_True by done. by rewrite Hfree.
    + done.
    + intros Cx a sz Hconf Hr. specialize (Hres a sz x Hconf Cx Hr).
      apply (grows_used u0 u) in Hres; [|done]. unfold used_at in Hres. congruence.
Qed.


(** The address types as the crate documents them. *)
Definition canonicalb (x : Z) : bool :=
  ((0 <=? x) && (x <? 2 ^ 47)) || ((2 ^ 64 - 2 ^ 47 <=? x) && (x <? 2 ^ 64)).
Definition virt_canonical (x : Z) : option Z := if canonicalb x then Some x else None.
#[export] Instance x86_virt : VirtAddrs := {|
  virt_new := virt_canonical;
  virt_add x n := virt_canonical (x + n);
  virt_sub x n := virt_canonical (x - n);
  virt_is_aligned x a := x mod a =? 0;
  p4_index := p4_of;
  page_backward x :=
    if page_start x =? 0 then None
    else Some (if page_start x =? 2 ^ 64 - 2 ^ 47 then 2 ^ 47 - 4096 else page_start x - 4096);
  page_forward x :=
    if page_start x =? 2 ^ 64 - 4096 then None
    else Some (if page_start x =? 2 ^ 47 - 4096 then 2 ^ 64 - 2 ^ 47 else page_start x + 4096);
  page_1gib_start i := i * LEVEL_4_SIZE + (if i <? 256 then 0 else 2 ^ 64 - 2 ^ 48);
|}.

Lemma virt_canonical_Some x y : virt_canonical x = Some y <-> y = x /\ canonical_addr x.
Proof.
  unfold virt_canonical, canonicalb, canonical_addr. destruct (_ || _) eqn:Hb.
  - apply orb_true_iff in Hb as [Hb|Hb]; zbool; naive_solver.
  - zbool. apply andb_false_iff in H, H0. split; [done|]. intros [-> Hc].
    destruct H, H0; zbool; lia.
Qed.

#[export] Instance x86_virt_laws : VirtAddrsLaws.
Proof.
  split; try (cbn; intros; (by apply virt_canonical_Some) || done ||
    by match goal with H : virt_canonical _ = Some _ |- _ => apply virt_canonical_Some in H as [-> ?] end).
  - cbn. intros x Cx. unfold page_start, canonical_addr in *. pose proof (Z.div_mod x 4096 ltac:(lia)).
    pose proof (Z.mod_pos_bound x 4096 ltac:(lia)). destruct (Z.eqb_spec (x - x mod 4096) 0); [intros; lia|].
    destruct (Z.eqb_spec (x - x mod 4096) (2 ^ 64 - 2 ^ 47)); (split; [lia|]; split; [|intros; lia]); [done|].
    replace (x - x mod 4096 - 4096) with ((x / 4096 - 1) * 4096) by lia. apply Z_mod_mult.
  - cbn. intros x Cx. unfold page_start, canonical_addr in *. pose proof (Z.div_mod x 4096 ltac:(lia)).
    pose proof (Z.mod_pos_bound x 4096 ltac:(lia)). destruct (Z.eqb_spec (x - x mod 4096) (2 ^ 64 - 4096)); [intros; lia|].
    destruct (Z.eqb_spec (x - x mod 4096) (2 ^ 47 - 4096)); (split; [lia|]; intros; lia).
Qed.

(** A generator that always takes the last choice. *)
#[export] Instance last_rng : Rng unit := {|
  choose r l := (last l, r);
  sample r n := (n - 1, r);
|}.
#[export] Instance last_rng_laws : RngLaws unit.
Proof.
  split; cbn.
  - intros r l i r' [= H]. by apply last_Some_elem_of in H.
  - intros r l Hl. by apply last_is_Some.
  - lia.
Qed.

Definition aslr_table : UsedLevel4Entries unit := mkUsed (<[0%nat := true]> (replicate 512 false)) (Some tt).

Definition sample_config : BootloaderConfig :=
  mkConfig 0x14000 (FixedAddress 0xFFFF800100000000) (FixedAddress 0xFFFF800050000000) Dynamic
    (FixedAddress 0xFFFF900000000000) (Some (FixedAddress 0xFFFF800000000000)) (Some (FixedAddress 0xFFFFFF0000000000)) true
    (Some 0xFFFF800000000000) (Some 0xFFFFFFFFFFFFFFFF).
Definition sample_elf : ElfFile := mkElf false [mkHeader true 0 0x200000 0x1000; mkHeader false 0x300000 0x10 8].

Lemma free_address_is_fresh_witness :
  exists u, used_new tt 200 0x100000000 12 (Some (mkFb 0x80000000 0x300000)) sample_config sample_elf = Ok u /\
  exists addr u', @get_free_address unit unit _ _ u 0x345000 (2 ^ 12) = Ok (addr, u') /\
    (2 ^ 12 | addr) /\ canonical_addr addr /\ grows u u' /\
    forall x, addr <= x < addr + 0x345000 -> ~ used_at u x /\ used_at u' x /\ (0x345000 <= LEVEL_4_SIZE -> canonical_addr x) /\
      (canonical_addr x -> forall a sz,
         configured 200 0x100000000 12 (Some (mkFb 0x80000000 0x300000)) sample_config sample_elf a sz ->
         ~ a <= x < a + sz).
Proof.
  eexists. split; [vm_compute; reflexivity|].
  eapply (free_address_is_fresh tt 200 0x100000000 12 (Some (mkFb 0x80000000 0x300000)) sample_config sample_elf);
    [vm_compute; reflexivity|done|lia|lia|right; vm_compute; split; congruence|].
  exists 300%nat. split; [vm_compute; lia|]. intros m Hm. replace m with 0%nat by (vm_compute in Hm; lia). done.
Defined.

(** A window of two entries may be the last of the lower and the first of the upper half; the
    addresses between are not canonical. *)
Example range_meets_gap :
  exists addr u', @get_free_address unit unit _ _
      (mkUsed (<[256%nat := false]> (<[255%nat := false]> (replicate 512 true))) None) (2 * LEVEL_4_SIZE) 4096 = Ok (addr, u') /\
    addr = 255 * LEVEL_4_SIZE /\ ~ canonical_addr (addr + LEVEL_4_SIZE).
Proof.
  eexists _, _. split; [vm_compute; reflexivity|]. split; [reflexivity|]. unfold canonical_addr, LEVEL_4_SIZE. lia.
Qed.

(** The hypothesis [offset_fits] is needed: with ASLR and a size that is a whole number
    of entries, the range returned may run past the entries that were marked. *)
Example whole_entries_overrun :
  exists addr u', @get_free_address unit unit _ _ aslr_table LEVEL_4_SIZE 4096 = Ok (addr, u') /\
    let last_byte := addr + LEVEL_4_SIZE - 1 in
    ~ canonical_addr last_byte /\ p4_of last_byte = 0 /\ entry_state aslr_table !! 0%nat = Some true.
Proof.
  eexists _, _. split; [vm_compute; reflexivity|]. cbv zeta. split_and!; [|vm_compute; reflexivity..].
  unfold canonical_addr. vm_compute. intuition congruence.
Qed.
