(* ===== verification/Config.v ===== *)
(** * The configuration that a kernel gives the bootloader (zenos-bootloader/api/src/config.rs)

    Its byte format: the kernel stores it in a section of its file, the bootloader reads it
    back.  The version of the crate is generated by the build and is a parameter. *)
From S2P Require Import Prelude Bytes Level4.
#[local] Open Scope list_scope.
#[local] Open Scope Z_scope.

Record ApiVersion := mkVersion { version_major : Z; version_minor : Z; version_patch : Z; pre_release : bool }.
#[export] Instance ApiVersion_eq_dec : EqDecision ApiVersion.
Proof. solve_decision. Defined.
Record FrameBuffer := mkFrameBuffer { minimum_framebuffer_height : option Z; minimum_framebuffer_width : option Z }.
(** The whole configuration; the part that the bootloader's address space uses is Level4's. *)
Record Config := mkFullConfig { version : ApiVersion; settings : BootloaderConfig; ramdisk_memory : Mapping; frame_buffer : FrameBuffer }.

Definition UUID : bytes := [0x74; 0x3C; 0xA9; 0x61; 0x09; 0x36; 0x46; 0xA0; 0xBB; 0x55; 0x5C; 0x15; 0x89; 0x15; 0x25; 0x3D].
Definition SERIALIZED_LEN : nat := 133.

(** ** Writing *)
Definition byte_of_bool (b : bool) : Z := if b then 1 else 0.
Definition Mapping_serialize (m : Mapping) : bytes :=
  match m with Dynamic => replicate 9 0 | FixedAddress addr => 1 :: to_le 8 addr end.
Definition opt_mapping (m : option Mapping) : bytes := match m with None => replicate 10 0 | Some m => 1 :: Mapping_serialize m end.
Definition opt_u64 (x : option Z) : bytes := match x with None => replicate 9 0 | Some a => 1 :: to_le 8 a end.
Definition version_bytes (v : ApiVersion) : bytes :=
  to_le 2 (version_major v) ++ to_le 2 (version_minor v) ++ to_le 2 (version_patch v) ++ [byte_of_bool (pre_release v)].
Definition serialize (self : Config) : bytes :=
  let s := settings self in
  UUID ++ version_bytes (version self) ++ to_le 8 (kernel_stack_size s) ++
  Mapping_serialize (m_kernel_stack s) ++ Mapping_serialize (m_kernel_base s) ++
  Mapping_serialize (m_boot_info s) ++ Mapping_serialize (m_framebuffer s) ++
  opt_mapping (m_physical_memory s) ++ opt_mapping (m_page_table_recursive s) ++
  [byte_of_bool (m_aslr s)] ++
  opt_u64 (m_dynamic_range_start s) ++ opt_u64 (m_dynamic_range_end s) ++
  Mapping_serialize (ramdisk_memory self) ++
  opt_u64 (minimum_framebuffer_height (frame_buffer self)) ++ opt_u64 (minimum_framebuffer_width (frame_buffer self)).

(** ** Reading *)
Inductive ConfigError :=
| InvalidLen | InvalidUuid | InvalidPreVersion | IncompatibleVersion | InvalidMapping | InvalidPhysMemory | InvalidRecursive
| InvalidAslr | InvalidRangeStart | InvalidRangeEnd | InvalidHeight | InvalidWidth | UnexpectedRest.
Abbreviation out := (outcome ConfigError).
(** [split_at] panics behind the end. *)
Definition split_array_ref (n : nat) (s : bytes) : out (bytes * bytes) :=
  if Nat.leb n (length s) then Ok (take n s, drop n s) else Panic.
Definition get_bool (e : ConfigError) (b : bytes) : out bool :=
  match b with [0] => Ok false | [1] => Ok true | _ => Err e end.
Definition Mapping_deserialize (serialized : bytes) : out Mapping :=
  '(variant, s) ← split_array_ref 1 serialized;
  '(addr, s) ← split_array_ref 8 s;
  if negb (Nat.eqb (length s) 0) then Err InvalidMapping
  else if bool_decide (variant = [0]) && bool_decide (addr = replicate 8 0) then Ok Dynamic
  else if bool_decide (variant = [1]) then Ok (FixedAddress (from_le addr))
  else Err InvalidMapping.
Definition get_opt_mapping (e : ConfigError) (some b : bytes) : out (option Mapping) :=
  if bool_decide (some = [0]) && bool_decide (b = replicate 9 0) then Ok None
  else if bool_decide (some = [1]) then m ← Mapping_deserialize b; Ok (Some m)
  else Err e.
Definition get_opt_u64 (e : ConfigError) (some b : bytes) : out (option Z) :=
  if bool_decide (some = [0]) && bool_decide (b = replicate 8 0) then Ok None
  else if bool_decide (some = [1]) then Ok (Some (from_le b))
  else Err e.

Section Deserialize.
(** [ApiVersion::new_default]. *)
Context (default_version : ApiVersion).

Definition deserialize_version (s : bytes) : out (ApiVersion * bytes) :=
  '(major, s) ← split_array_ref 2 s;
  '(minor, s) ← split_array_ref 2 s;
  '(patch, s) ← split_array_ref 2 s;
  '(pre, s) ← split_array_ref 1 s;
  pre ← get_bool InvalidPreVersion pre;
  Ok (mkVersion (from_le major) (from_le minor) (from_le patch) pre, s).
Definition deserialize_mappings (stack_size : Z) (s : bytes) : out (BootloaderConfig * Mapping * bytes) :=
  '(kernel_stack, s) ← split_array_ref 9 s;
  '(kernel_base, s) ← split_array_ref 9 s;
  '(boot_info, s) ← split_array_ref 9 s;
  '(framebuffer, s) ← split_array_ref 9 s;
  '(physical_memory_some, s) ← split_array_ref 1 s;
  '(physical_memory, s) ← split_array_ref 9 s;
  '(page_table_recursive_some, s) ← split_array_ref 1 s;
  '(page_table_recursive, s) ← split_array_ref 9 s;
  '(aslr, s) ← split_array_ref 1 s;
  '(dynamic_range_start_some, s) ← split_array_ref 1 s;
  '(dynamic_range_start, s) ← split_array_ref 8 s;
  '(dynamic_range_end_some, s) ← split_array_ref 1 s;
  '(dynamic_range_end, s) ← split_array_ref 8 s;
  '(ramdisk, s) ← split_array_ref 9 s;
  kernel_stack ← Mapping_deserialize kernel_stack;
  kernel_base ← Mapping_deserialize kernel_base;
  boot_info ← Mapping_deserialize boot_info;
  framebuffer ← Mapping_deserialize framebuffer;
  physical_memory ← get_opt_mapping InvalidPhysMemory physical_memory_some physical_memory;
  page_table_recursive ← get_opt_mapping InvalidRecursive page_table_recursive_some page_table_recursive;
  aslr ← get_bool InvalidAslr aslr;
  range_start ← get_opt_u64 InvalidRangeStart dynamic_range_start_some dynamic_range_start;
  range_end ← get_opt_u64 InvalidRangeEnd dynamic_range_end_some dynamic_range_end;
  ramdisk ← Mapping_deserialize ramdisk;
  Ok (mkConfig stack_size kernel_stack kernel_base boot_info framebuffer physical_memory page_table_recursive aslr range_start range_end, ramdisk, s).
Definition deserialize_frame_buffer (s : bytes) : out (FrameBuffer * bytes) :=
  '(height_some, s) ← split_array_ref 1 s;
  '(height, s) ← split_array_ref 8 s;
  '(width_some, s) ← split_array_ref 1 s;
  '(width, s) ← split_array_ref 8 s;
  height ← get_opt_u64 InvalidHeight height_some height;
  width ← get_opt_u64 InvalidWidth width_some width;
  Ok (mkFrameBuffer height width, s).
Definition deserialize (serialized : bytes) : out Config :=
  if negb (Nat.eqb (length serialized) SERIALIZED_LEN) then Err InvalidLen
  else
    '(uuid, s) ← split_array_ref 16 serialized;
    if negb (bool_decide (uuid = UUID)) then Err InvalidUuid
    else
      '(version, s) ← deserialize_version s;
      if negb (bool_decide (version = default_version)) then Err IncompatibleVersion
      else
        '(stack_size, s) ← split_array_ref 8 s;
        '(settings, ramdisk, s) ← deserialize_mappings (from_le stack_size) s;
        '(frame_buffer, s) ← deserialize_frame_buffer s;
        if negb (Nat.eqb (length s) 0) then Err UnexpectedRest
        else Ok (mkFullConfig version settings ramdisk frame_buffer).
End Deserialize.

(** ** The two agree *)
Definition mapping_ok (m : Mapping) : Prop := match m with Dynamic => True | FixedAddress a => is_u 64 a end.
Definition opt_ok {A} (P : A -> Prop) (x : option A) : Prop := match x with None => True | Some a => P a end.
Record config_ok (c : Config) : Prop := {
  ok_version : is_u 16 (version_major (version c)) /\ is_u 16 (version_minor (version c)) /\ is_u 16 (version_patch (version c));
  ok_size : is_u 64 (kernel_stack_size (settings c));
  ok_mappings : mapping_ok (m_kernel_stack (settings c)) /\ mapping_ok (m_kernel_base (settings c)) /\ mapping_ok (m_boot_info (settings c)) /\
    mapping_ok (m_framebuffer (settings c)) /\ mapping_ok (ramdisk_memory c);
  ok_optional : opt_ok mapping_ok (m_physical_memory (settings c)) /\ opt_ok mapping_ok (m_page_table_recursive (settings c));
  ok_ranges : opt_ok (is_u 64) (m_dynamic_range_start (settings c)) /\ opt_ok (is_u 64) (m_dynamic_range_end (settings c));
  ok_screen : opt_ok (is_u 64) (minimum_framebuffer_height (frame_buffer c)) /\ opt_ok (is_u 64) (minimum_framebuffer_width (frame_buffer c));
}.

Lemma split_Ok n s a r : split_array_ref n s = Ok (a, r) <-> s = a ++ r /\ length a = n.
Proof.
  unfold split_array_ref. destruct (Nat.leb_spec n (length s)) as [Hn|Hn].
  - split; [intros [= <- <-]; split; [by rewrite take_drop|rewrite length_take; lia]|]. intros [-> <-]. by rewrite take_app_length, drop_app_length.
  - split; [done|]. intros [-> <-]. rewrite length_app in Hn. lia.
Qed.
Lemma get_bool_Ok e b x : get_bool e b = Ok x <-> b = [byte_of_bool x].
Proof.
  unfold get_bool. split; [|intros ->; by destruct x]. destruct b as [|[|[]|] []]; try done; by intros [= <-].
Qed.
Lemma le_8 b x : Forall is_byte b -> length b = 8%nat -> from_le b = x <-> is_u 64 x /\ b = to_le 8 x.
Proof.
  intros Hb Hl. split.
  - intros <-. split; [pose proof (from_le_range b Hb) as Hr; by rewrite Hl in Hr|]. rewrite <-Hl. by rewrite to_from_le.
  - intros [Hx ->]. by apply from_to_le.
Qed.
Lemma le_2 b x : Forall is_byte b -> length b = 2%nat -> from_le b = x <-> is_u 16 x /\ b = to_le 2 x.
Proof.
  intros Hb Hl. split.
  - intros <-. split; [pose proof (from_le_range b Hb) as Hr; by rewrite Hl in Hr|]. rewrite <-Hl. by rewrite to_from_le.
  - intros [Hx ->]. by apply from_to_le.
Qed.
Lemma opt_u64_Ok e f b x : Forall is_byte b -> length f = 1%nat -> length b = 8%nat -> get_opt_u64 e f b = Ok x <-> opt_ok (is_u 64) x /\ f ++ b = opt_u64 x.
Proof.
  intros Hb Hf Hl. destruct f as [|y []]; [done| |done]. unfold get_opt_u64. split.
  - case_bool_decide as E1; [injection E1 as ->; case_bool_decide as E2; [intros [= <-]; by rewrite E2|]|]; cbn [andb].
    + case_bool_decide; done.
    + case_bool_decide as E3; [|done]. injection E3 as ->. intros [= <-]. cbn. destruct (proj1 (le_8 b _ Hb Hl) eq_refl) as [? Hbe]. by rewrite <-Hbe.
  - destruct x as [a|]; cbn; intros [Hx [= -> ->]].
    + cbn. by rewrite from_to_le.
    + done.
Qed.
Lemma Mapping_Ok b m : Forall is_byte b -> length b = 9%nat -> Mapping_deserialize b = Ok m <-> mapping_ok m /\ b = Mapping_serialize m.
Proof.
  intros Hb Hl. destruct b as [|y b]; [done|]. apply Forall_cons in Hb as [_ Hb]. injection Hl as Hl. unfold Mapping_deserialize.
  rewrite (proj2 (split_Ok 1 (y :: b) [y] b)) by done. cbn [mbind outcome_bind]. rewrite (proj2 (split_Ok 8 b b [])) by (by rewrite app_nil_r). cbn [mbind outcome_bind length Nat.eqb negb].
  split.
  - case_bool_decide as E1; [injection E1 as ->; case_bool_decide as E2; [intros [= <-]; by rewrite E2|]|]; cbn [andb].
    + case_bool_decide; done.
    + case_bool_decide as E3; [|done]. injection E3 as ->. intros [= <-]. cbn. destruct (proj1 (le_8 b _ Hb Hl) eq_refl) as [? Hbe]. by rewrite <-Hbe.
  - destruct m as [|a]; cbn; intros [Hx [= -> ->]]; [done|]. by rewrite from_to_le.
Qed.
Lemma opt_mapping_Ok e f b x : Forall is_byte b -> length f = 1%nat -> length b = 9%nat -> get_opt_mapping e f b = Ok x <-> opt_ok mapping_ok x /\ f ++ b = opt_mapping x.
Proof.
  intros Hb Hf Hl. destruct f as [|y []]; [done| |done]. unfold get_opt_mapping. split.
  - case_bool_decide as E1; [injection E1 as ->; case_bool_decide as E2; [intros [= <-]; by rewrite E2|]|]; cbn [andb].
    + case_bool_decide; done.
    + case_bool_decide as E3; [|done]. injection E3 as ->. destruct (Mapping_deserialize b) as [m| |] eqn:Hm; cbn; [|done|done]. intros [= <-].
      apply Mapping_Ok in Hm as [? ->]; done.
  - destruct x as [m|]; cbn; intros [Hx [= -> ->]]; [|done].
    assert (Mapping_deserialize (Mapping_serialize m) = Ok m) as -> by (by apply Mapping_Ok). done.
Qed.

Lemma version_Ok s v r : Forall is_byte s -> deserialize_version s = Ok (v, r) <->
  (is_u 16 (version_major v) /\ is_u 16 (version_minor v) /\ is_u 16 (version_patch v)) /\ s = version_bytes v ++ r.
Proof.
  intros Hs. unfold deserialize_version. split.
  - intros ([a s1] & [-> La]%split_Ok & H1)%outcome_bind_Ok. apply outcome_bind_Ok in H1 as ([b s2] & [-> Lb]%split_Ok & H2).
    apply outcome_bind_Ok in H2 as ([c s3] & [-> Lc]%split_Ok & H3). apply outcome_bind_Ok in H3 as ([d s4] & [-> Ld]%split_Ok & H4).
    apply outcome_bind_Ok in H4 as (p & ->%get_bool_Ok & [= <- <-]). rewrite !Forall_app in Hs. destruct Hs as (Ha & Hb & Hc & _).
    destruct (proj1 (le_2 a _ Ha La) eq_refl) as [? Ea], (proj1 (le_2 b _ Hb Lb) eq_refl) as [? Eb], (proj1 (le_2 c _ Hc Lc) eq_refl) as [? Ec].
    split; [done|]. unfold version_bytes. cbn [version_major version_minor version_patch pre_release]. rewrite <-Ea, <-Eb, <-Ec. by rewrite <-!app_assoc.
  - intros [(H1 & H2 & H3) ->]. unfold version_bytes. rewrite <-!app_assoc.
    do 3 (rewrite (proj2 (split_Ok 2 _ _ _)) by (split; [reflexivity|apply to_le_length]); cbn [mbind outcome_bind]).
    rewrite (proj2 (split_Ok 1 _ [byte_of_bool (pre_release v)] r)) by done. cbn [mbind outcome_bind].
    rewrite (proj2 (get_bool_Ok _ _ (pre_release v))) by done. cbn [mbind outcome_bind]. rewrite !from_to_le by done. by destruct v.
Qed.
(** The pieces that optional values are read from. *)
Lemma opt_u64_parts x : exists f b, opt_u64 x = f ++ b /\ length f = 1%nat /\ length b = 8%nat /\ Forall is_byte b.
Proof.
  destruct x as [a|]; [exists [1], (to_le 8 a)|exists [0], (replicate 8 0)]; (split_and!; [done|done|by rewrite ?to_le_length|]); [apply to_le_bytes|].
  apply Forall_replicate. done.
Qed.
Lemma Mapping_bytes m : length (Mapping_serialize m) = 9%nat /\ Forall is_byte (Mapping_serialize m).
Proof.
  destruct m as [|a]; cbn [Mapping_serialize length]; rewrite ?to_le_length; (split; [done|]); [by apply Forall_replicate|].
  apply Forall_cons. split; [done|apply to_le_bytes].
Qed.
Lemma Mapping_round m : mapping_ok m -> Mapping_deserialize (Mapping_serialize m) = Ok m.
Proof. intros Hm. apply Mapping_Ok; [apply Mapping_bytes..|done]. Qed.
Lemma opt_mapping_parts x : exists f b, opt_mapping x = f ++ b /\ length f = 1%nat /\ length b = 9%nat /\ Forall is_byte b.
Proof.
  destruct x as [m|]; [exists [1], (Mapping_serialize m)|exists [0], (replicate 9 0)]; (split_and!; [done|done|apply Mapping_bytes || done|]); [apply Mapping_bytes|].
  by apply Forall_replicate.
Qed.
(** One read, backwards and forwards. *)
Ltac read_back H := let a := fresh "a" in let s := fresh "s" in let L := fresh "L" in
  apply outcome_bind_Ok in H as ([a s] & [-> L]%split_Ok & H).
Ltac read_on := rewrite (proj2 (split_Ok _ _ _ _)) by (split; [reflexivity|assumption || reflexivity]); cbn [mbind outcome_bind].

Lemma screen_on f r : opt_ok (is_u 64) (minimum_framebuffer_height f) /\ opt_ok (is_u 64) (minimum_framebuffer_width f) ->
  deserialize_frame_buffer (opt_u64 (minimum_framebuffer_height f) ++ opt_u64 (minimum_framebuffer_width f) ++ r) = Ok (f, r).
Proof.
  intros [H1 H2]. unfold deserialize_frame_buffer. destruct (opt_u64_parts (minimum_framebuffer_height f)) as (fh & bh & Eh & Lh & Lh' & Bh), (opt_u64_parts (minimum_framebuffer_width f)) as (fw & bw & Ew & Lw & Lw' & Bw).
  rewrite Eh, Ew, <-!app_assoc. do 4 read_on.
  rewrite (proj2 (opt_u64_Ok _ fh bh _ Bh Lh Lh') (conj H1 (eq_sym Eh))). cbn [mbind outcome_bind].
  rewrite (proj2 (opt_u64_Ok _ fw bw _ Bw Lw Lw') (conj H2 (eq_sym Ew))). cbn [mbind outcome_bind]. by destruct f.
Qed.
Lemma screen_Ok s f r : Forall is_byte s -> deserialize_frame_buffer s = Ok (f, r) <->
  (opt_ok (is_u 64) (minimum_framebuffer_height f) /\ opt_ok (is_u 64) (minimum_framebuffer_width f)) /\
  s = opt_u64 (minimum_framebuffer_height f) ++ opt_u64 (minimum_framebuffer_width f) ++ r.
Proof.
  intros Hs. split.
  - unfold deserialize_frame_buffer. intros H. read_back H. read_back H. read_back H. read_back H. rewrite !Forall_app in Hs. destruct Hs as (_ & ? & _ & ? & _).
    apply outcome_bind_Ok in H as (h & Hh & H). apply outcome_bind_Ok in H as (w & Hw & [= <- <-]). cbn [minimum_framebuffer_height minimum_framebuffer_width].
    apply opt_u64_Ok in Hh as [? <-]; [|done..]. apply opt_u64_Ok in Hw as [? <-]; [|done..]. split; [done|]. by rewrite <-!app_assoc.
  - intros [H ->]. by apply screen_on.
Qed.
Definition settings_bytes (s : BootloaderConfig) (ramdisk : Mapping) : bytes :=
  Mapping_serialize (m_kernel_stack s) ++ Mapping_serialize (m_kernel_base s) ++
  Mapping_serialize (m_boot_info s) ++ Mapping_serialize (m_framebuffer s) ++
  opt_mapping (m_physical_memory s) ++ opt_mapping (m_page_table_recursive s) ++
  [byte_of_bool (m_aslr s)] ++
  opt_u64 (m_dynamic_range_start s) ++ opt_u64 (m_dynamic_range_end s) ++
  Mapping_serialize ramdisk.
Definition settings_ok (c : BootloaderConfig) (ramdisk : Mapping) : Prop :=
  (mapping_ok (m_kernel_stack c) /\ mapping_ok (m_kernel_base c) /\ mapping_ok (m_boot_info c) /\ mapping_ok (m_framebuffer c) /\ mapping_ok ramdisk) /\
  (opt_ok mapping_ok (m_physical_memory c) /\ opt_ok mapping_ok (m_page_table_recursive c)) /\
  (opt_ok (is_u 64) (m_dynamic_range_start c) /\ opt_ok (is_u 64) (m_dynamic_range_end c)).
Lemma settings_back n s c m r : Forall is_byte s -> deserialize_mappings n s = Ok (c, m, r) ->
  kernel_stack_size c = n /\ settings_ok c m /\ s = settings_bytes c m ++ r.
Proof.
  intros Hs H. unfold deserialize_mappings in H. do 14 read_back H. rewrite !Forall_app in Hs. destruct_and! Hs.
  repeat (apply outcome_bind_Ok in H as (? & ? & H)). injection H as <- <- <-.
  repeat match goal with
  | E : Mapping_deserialize _ = Ok _ |- _ => apply Mapping_Ok in E as [? ->]; [|done..]
  | E : get_opt_mapping _ _ _ = Ok _ |- _ => apply opt_mapping_Ok in E as [? E]; [|done..]
  | E : get_opt_u64 _ _ _ = Ok _ |- _ => apply opt_u64_Ok in E as [? E]; [|done..]
  | E : get_bool _ _ = Ok _ |- _ => apply get_bool_Ok in E as ->
  end.
  split; [done|]. split; [done|]. unfold settings_bytes. cbn [m_kernel_stack m_kernel_base m_boot_info m_framebuffer m_physical_memory m_page_table_recursive m_aslr m_dynamic_range_start m_dynamic_range_end].
  repeat match goal with E : _ ++ _ = opt_mapping _ |- _ => rewrite <-E; clear E | E : _ ++ _ = opt_u64 _ |- _ => rewrite <-E; clear E end.
  by rewrite <-!app_assoc.
Qed.
Lemma settings_on c m r : settings_ok c m -> deserialize_mappings (kernel_stack_size c) (settings_bytes c m ++ r) = Ok (c, m, r).
Proof.
  intros ((? & ? & ? & ? & ?) & (Hp & Hr) & (Hs & He)). unfold deserialize_mappings, settings_bytes. rewrite <-!app_assoc.
  pose proof (fun m => proj1 (Mapping_bytes m)) as Lm.
  destruct (opt_mapping_parts (m_physical_memory c)) as (fp & bp & Ep & ? & ? & ?), (opt_mapping_parts (m_page_table_recursive c)) as (fr & br & Er & ? & ? & ?).
  destruct (opt_u64_parts (m_dynamic_range_start c)) as (fs & bs & Es & ? & ? & ?), (opt_u64_parts (m_dynamic_range_end c)) as (fe & be & Ee & ? & ? & ?).
  rewrite Ep, Er, Es, Ee, <-!app_assoc.
  do 4 (rewrite (proj2 (split_Ok 9 _ _ _)) by (split; [reflexivity|apply Lm]); cbn [mbind outcome_bind]). do 4 read_on.
  rewrite (proj2 (split_Ok 1 _ [byte_of_bool (m_aslr c)] _)) by (split; reflexivity). cbn [mbind outcome_bind]. do 4 read_on.
  rewrite (proj2 (split_Ok 9 _ _ _)) by (split; [reflexivity|apply Lm]). cbn [mbind outcome_bind].
  do 4 (rewrite Mapping_round by done; cbn [mbind outcome_bind]).
  rewrite (proj2 (opt_mapping_Ok _ fp bp _ ltac:(done) ltac:(done) ltac:(done)) (conj Hp (eq_sym Ep))). cbn [mbind outcome_bind].
  rewrite (proj2 (opt_mapping_Ok _ fr br _ ltac:(done) ltac:(done) ltac:(done)) (conj Hr (eq_sym Er))). cbn [mbind outcome_bind].
  rewrite (proj2 (get_bool_Ok _ _ (m_aslr c)) eq_refl). cbn [mbind outcome_bind].
  rewrite (proj2 (opt_u64_Ok _ fs bs _ ltac:(done) ltac:(done) ltac:(done)) (conj Hs (eq_sym Es))). cbn [mbind outcome_bind].
  rewrite (proj2 (opt_u64_Ok _ fe be _ ltac:(done) ltac:(done) ltac:(done)) (conj He (eq_sym Ee))). cbn [mbind outcome_bind].
  rewrite Mapping_round by done. cbn [mbind outcome_bind]. by destruct c.
Qed.

Lemma serialize_eq c : serialize c = UUID ++ version_bytes (version c) ++ to_le 8 (kernel_stack_size (settings c)) ++ settings_bytes (settings c) (ramdisk_memory c) ++
  opt_u64 (minimum_framebuffer_height (frame_buffer c)) ++ opt_u64 (minimum_framebuffer_width (frame_buffer c)) ++ [].
Proof. unfold serialize, settings_bytes. by rewrite app_nil_r, <-!app_assoc. Qed.
Lemma config_bytes_ok c : length (serialize c) = SERIALIZED_LEN /\ Forall is_byte (serialize c).
Proof.
  assert (forall x, length (opt_u64 x) = 9%nat /\ Forall is_byte (opt_u64 x)) as Ho.
  { intros [a|]; cbn [opt_u64 length]; rewrite ?to_le_length; (split; [done|]); [constructor; [done|apply to_le_bytes]|by apply Forall_replicate]. }
  assert (forall x, length (opt_mapping x) = 10%nat /\ Forall is_byte (opt_mapping x)) as Hm.
  { intros [m|]; cbn [opt_mapping length]; [destruct (Mapping_bytes m) as [-> ?]; split; [done|by constructor]|]. split; [done|by apply Forall_replicate]. }
  split.
  - unfold serialize, version_bytes. rewrite !length_app, !to_le_length, !(proj1 (Mapping_bytes _)), !(proj1 (Ho _)), !(proj1 (Hm _)). reflexivity.
  - unfold serialize, version_bytes. repeat (apply Forall_app; split); try apply to_le_bytes; try apply Mapping_bytes; try apply Ho; try apply Hm.
    + repeat constructor; done.
    + constructor; [by destruct (pre_release _)|done].
    + constructor; [by destruct (m_aslr _)|done].
Qed.

(** C25: reading a configuration inverts writing one.  The bytes that [deserialize] accepts are
    exactly the serialisations of the configurations with the bootloader's own version whose
    numbers fit their widths, and the configuration returned is that one; so no two byte
    sequences are read as the same configuration. *)
Theorem config_round_trip v s c : Forall is_byte s -> deserialize v s = Ok c <-> config_ok c /\ version c = v /\ s = serialize c.
Proof.
  intros Hs. split.
  - unfold deserialize. destruct (Nat.eqb_spec (length s) SERIALIZED_LEN); [cbn [negb]|done]. intros H. read_back H. case_bool_decide as Hu; [cbn [negb] in H|done].
    rewrite !Forall_app in Hs. destruct Hs as [_ Hs]. apply outcome_bind_Ok in H as ([w s1] & [Hv ->]%version_Ok & H); [|done]. case_bool_decide as Hw; [cbn [negb] in H|done].
    apply outcome_bind_Ok in H as ([b s2] & [-> Lb]%split_Ok & H). rewrite !Forall_app in Hs. destruct Hs as (_ & Hb & Hs2). destruct (proj1 (le_8 b _ Hb Lb) eq_refl) as [Hn Eb].
    apply outcome_bind_Ok in H as ([[c0 m] s3] & (Ec & (H1 & H2 & H3) & ->)%settings_back & H); [|done]. rewrite !Forall_app in Hs2. destruct Hs2 as [_ Hs3].
    apply outcome_bind_Ok in H as ([f s4] & [Hf ->]%screen_Ok & H); [|done]. destruct s4; [cbn in H|done]. injection H as <-.
    split; [split; cbn; rewrite ?Ec; try done|]. split; [done|]. rewrite serialize_eq. cbn [version settings ramdisk_memory frame_buffer]. rewrite Ec, <-Eb, Hu. done.
  - intros ([Hv Hn Hm Ho Hr Hf] & <- & ->). unfold deserialize. destruct (config_bytes_ok c) as [-> _]. cbn [Nat.eqb SERIALIZED_LEN negb].
    rewrite serialize_eq. rewrite (proj2 (split_Ok 16 _ UUID _)) by (split; reflexivity). cbn [mbind outcome_bind]. rewrite bool_decide_true by done. cbn [negb].
    rewrite serialize_eq in Hs. apply Forall_app in Hs as [_ Hs]. rewrite (proj2 (version_Ok _ (version c) _ Hs)) by done. cbn [mbind outcome_bind]. rewrite bool_decide_true by done. cbn [negb].
    rewrite (proj2 (split_Ok 8 _ _ _)) by (split; [reflexivity|apply to_le_length]). cbn [mbind outcome_bind]. rewrite from_to_le by done.
    rewrite settings_on by done. cbn [mbind outcome_bind].
    rewrite screen_on by done. cbn. by destruct c.
Qed.
(** The format of version 0.11.12 with its defaults but a stack of 90 KiB and the whole of physical
    memory mapped. *)
Definition sample_full_config : Config :=
  mkFullConfig (mkVersion 0 11 12 false) (mkConfig (90 * 1024) Dynamic Dynamic Dynamic Dynamic (Some (FixedAddress 0xFFFF800000000000)) None false None None) Dynamic (mkFrameBuffer None None).
Lemma config_round_trip_witness : deserialize (mkVersion 0 11 12 false) (serialize sample_full_config) = Ok sample_full_config.
Proof.
  apply (config_round_trip (mkVersion 0 11 12 false) (serialize sample_full_config) sample_full_config).
  - vm_compute. repeat constructor; congruence.
  - split; [|split; reflexivity]. split; vm_compute; intuition congruence.
Defined.
