(* ===== verification/OpenFile.v ===== *)
(** * Open files (zenos-kernel/src/disk/vfs.rs, disk/mod.rs, syscall/errors.rs)

    Inodes and open files live in stores, because the kernel shares them through
    reference-counted pointers: a descriptor is the key of an open file, an open file
    names the key of its inode.  What a file system does for an inode (the trait
    [InodeOps]) is a class. *)
From S2P Require Import Prelude.

(** ** Errors *)
Inductive FileError :=
| UnsupportedOperation | ReadError | WriteError | SeekError | InvalidFileDescriptor
| NotFound | AlreadyExists | NotADirectory | IsADirectory | PermissionDenied
| ReadOnlyFilesystem | Other (msg : string).
#[export] Instance FileError_eq_dec : EqDecision FileError.
Proof. solve_decision. Defined.

Inductive FsMountError := InvalidSuperblock | ParseError | MountReadError | Corrupted | Unsupported
| MountOther (msg : string).
#[export] Instance FsMountError_eq_dec : EqDecision FsMountError.
Proof. solve_decision. Defined.

Definition ENOENT : Z := 2.
Definition ESRCH : Z := 3.
Definition EIO : Z := 5.
Definition EBADF : Z := 9.
Definition ECHILD : Z := 10.
Definition EAGAIN : Z := 11.
Definition ENOMEM : Z := 12.
Definition EACCES : Z := 13.
Definition EFAULT : Z := 14.
Definition EEXIST : Z := 17.
Definition ENOTDIR : Z := 20.
Definition EISDIR : Z := 21.
Definition EINVAL : Z := 22.
Definition ESPIPE : Z := 29.
Definition EROFS : Z := 30.
Definition ENOSYS : Z := 38.

(** [(-errno) as u64]. *)
Definition neg_errno (e : Z) : Z := wrap 64 (- e).

Definition file_error_to_errno (err : FileError) : Z :=
  let errno :=
    match err with
    | UnsupportedOperation => ENOSYS
    | ReadError => EIO
    | WriteError => EIO
    | SeekError => ESPIPE
    | InvalidFileDescriptor => EBADF
    | NotFound => ENOENT
    | AlreadyExists => EEXIST
    | NotADirectory => ENOTDIR
    | IsADirectory => EISDIR
    | PermissionDenied => EACCES
    | ReadOnlyFilesystem => EROFS
    | Other _ => EIO
    end in
  neg_errno errno.

(** ** Inodes and open files *)
Inductive FileType :=
| File | Directory | Symlink | Socket | CharDevice | BlockDevice | Fifo.
#[export] Instance FileType_eq_dec : EqDecision FileType.
Proof. solve_decision. Defined.

(** The bit sets [Permissions] (u16) and [FileOpenOptions] (u64) are their bits. *)
Definition OWNER_READ : Z := 0x100.
Definition OWNER_WRITE : Z := 0x80.
Definition OWNER_EXEC : Z := 0x40.
Definition READ_ONLY : Z := 0.
Definition WRITE_ONLY : Z := 1.
Definition READ_WRITE : Z := 2.
Definition CREATE : Z := 0x40.
Definition EXCLUSIVE : Z := 0x80.
Definition TRUNCATE : Z := 0x200.
Definition APPEND : Z := 0x400.
Definition CLOSE_ON_EXEC : Z := 0x80000.

(** [contains] of a bit set. *)
Definition contains (flags other : Z) : bool := Z.land flags other =? other.

Record Inode := mkInode {
  num : Z;
  kind : FileType;
  size : Z;
  perms : Z;
  links : Z;
  owner_uid : Z;
  owner_gid : Z;
  access_time : Z;
  modified_time : Z;
  change_time : Z;
}.

Definition set_access_time (i : Inode) (t : Z) : Inode :=
  mkInode (num i) (kind i) (size i) (perms i) (links i) (owner_uid i) (owner_gid i)
    t (modified_time i) (change_time i).
Definition set_modified_change_time (i : Inode) (t : Z) : Inode :=
  mkInode (num i) (kind i) (size i) (perms i) (links i) (owner_uid i) (owner_gid i)
    (access_time i) t t.

Record OpenFile := mkOpenFile {
  inode : nat;
  cursor : Z;
  file_open_options : Z;
}.

Definition set_cursor (f : OpenFile) (c : Z) : OpenFile :=
  mkOpenFile (inode f) c (file_open_options f).

Inductive SeekFrom := Start (pos : Z) | End_ (offset : Z) | Current (offset : Z).

(** The stores and the state of the file systems behind them. *)
Record FsState (D : Type) := mkFs {
  inodes : gmap nat Inode;
  files : gmap nat OpenFile;
  dev : D;
}.
Arguments mkFs {D} _ _ _.
Arguments inodes {D} _.
Arguments files {D} _.
Arguments dev {D} _.

Record DirEntry := mkDirEntry {
  de_name : string;
  de_inode : nat;
  de_offset : Z;
  de_file_type : FileType;
}.

Record Stat := mkStat {
  st_dev : Z;
  st_ino : Z;
  st_mode : Z;
  st_nlink : Z;
  st_uid : Z;
  st_gid : Z;
  st_rdev : Z;
  st_size : Z;
  st_blksize : Z;
  st_blocks : Z;
  st_atime : Z;
  st_mtime : Z;
  st_ctime : Z;
}.

(** The trait [InodeOps]: [op_read] returns the number of bytes it wrote to the front
    of the buffer, together with the buffer. *)
Class InodeOps (D : Type) := {
  op_read : nat -> Z -> list Z -> st (FsState D) FileError (Z * list Z);
  op_write : nat -> Z -> list Z -> st (FsState D) FileError Z;
  op_truncate : nat -> Z -> st (FsState D) FileError unit;
  op_sync : nat -> st (FsState D) FileError unit;
  op_unlink : nat -> string -> st (FsState D) FileError unit;
  op_lookup : nat -> string -> st (FsState D) FileError nat;
  op_create : nat -> string -> FileType -> Z -> st (FsState D) FileError nat;
  op_read_dir : nat -> st (FsState D) FileError (list DirEntry);
  op_stat : nat -> st (FsState D) FileError Stat;
}.

(** Following a pointer to an inode or to an open file; the pointers are never dangling. *)
Definition get_inode {D} (i : nat) : st (FsState D) FileError Inode :=
  fun s => (unwrap (inodes s !! i), s).
Definition put_inode {D} (i : nat) (x : Inode) : st (FsState D) FileError unit :=
  fun s => (Ok tt, mkFs (<[i := x]> (inodes s)) (files s) (dev s)).
Definition get_file {D} (f : nat) : st (FsState D) FileError OpenFile :=
  fun s => (unwrap (files s !! f), s).
Definition put_file {D} (f : nat) (x : OpenFile) : st (FsState D) FileError unit :=
  fun s => (Ok tt, mkFs (inodes s) (<[f := x]> (files s)) (dev s)).

(** A key no object of the store has: a fresh allocation. *)
Definition next_key {A} (m : gmap nat A) : nat :=
  map_fold (fun i _ acc => Nat.max (S i) acc) 0%nat m.

Definition alloc_inode {D E} (x : Inode) : st (FsState D) E nat := fun s =>
  let i := next_key (inodes s) in (Ok i, mkFs (<[i := x]> (inodes s)) (files s) (dev s)).
Definition alloc_file {D E} (x : OpenFile) : st (FsState D) E nat := fun s =>
  let f := next_key (files s) in (Ok f, mkFs (inodes s) (<[f := x]> (files s)) (dev s)).

Lemma next_key_fresh {A} (m : gmap nat A) : m !! next_key m = None.
Proof.
  enough (forall i, is_Some (m !! i) -> (i < next_key m)%nat) as Hlt.
  { destruct (m !! next_key m) eqn:Hm; [|done]. specialize (Hlt (next_key m)). rewrite Hm in Hlt.
    specialize (Hlt ltac:(done)). lia. }
  unfold next_key.
  apply (map_fold_weak_ind (fun acc m => forall i, is_Some (m !! i) -> (i < acc)%nat)).
  - intros i Hi. rewrite lookup_empty in Hi. by destruct Hi.
  - intros k v m' acc Hk IH i Hi. destruct (decide (i = k)) as [->|]; [lia|].
    rewrite lookup_insert_ne in Hi by done. specialize (IH i Hi). lia.
Qed.

(** ** Operations *)

(** [-offset] of an i64, cast to u64. *)
Definition neg_i64 {E} (offset : Z) : outcome E Z :=
  if offset =? - 2 ^ 63 then Panic else Ok (- offset).

Definition seek_from {E} (base offset : Z) : outcome E Z :=
  if offset <? 0 then o ← neg_i64 offset; Ok (saturating_sub base o)
  else Ok (saturating_add 64 base offset).

Definition OpenFile_seek {D} (f : nat) (from : SeekFrom) : st (FsState D) FileError Z :=
  self ← get_file f;
  let current_pos := cursor self in
  new_pos ← match from with
            | Start pos => mret pos
            | End_ offset =>
                ino ← get_inode (inode self);
                st_lift (seek_from (size ino) offset)
            | Current offset => st_lift (seek_from current_pos offset)
            end;
  _ ← put_file f (set_cursor self new_pos);
  mret new_pos.

Section OpenFileIO.
Context {D : Type} `{InodeOps D}.
(** [current_time().as_unix_epoch()]. *)
Context (now : Z).

Definition OpenFile_read (f : nat) (buf : list Z) : st (FsState D) FileError (Z * list Z) :=
  self ← get_file f;
  ino ← get_inode (inode self);
  if negb (contains (file_open_options self) (Z.lor READ_ONLY READ_WRITE))
     && negb (contains (perms ino) OWNER_READ)
  then st_lift (Err PermissionDenied)
  else
    let offset := cursor self in
    '(bytes_read, buf') ← op_read (inode self) offset buf;
    c ← st_lift (uadd 64 offset bytes_read);
    _ ← put_file f (set_cursor self c);
    ino' ← get_inode (inode self);
    _ ← put_inode (inode self) (set_access_time ino' now);
    _ ← op_sync (inode self);
    mret (bytes_read, buf').

Definition OpenFile_write (f : nat) (buf : list Z) : st (FsState D) FileError Z :=
  self ← get_file f;
  ino ← get_inode (inode self);
  if negb (contains (file_open_options self) (Z.lor WRITE_ONLY READ_WRITE)
           || contains (perms ino) OWNER_WRITE)
  then st_lift (Err PermissionDenied)
  else
    let offset := cursor self in
    bytes_written ← op_write (inode self) offset buf;
    c ← st_lift (uadd 64 offset bytes_written);
    _ ← put_file f (set_cursor self c);
    ino' ← get_inode (inode self);
    _ ← put_inode (inode self) (set_modified_change_time ino' now);
    _ ← op_sync (inode self);
    mret bytes_written.
End OpenFileIO.

(** ** What a file system promises *)
Class InodeOpsLaws (D : Type) `{InodeOps D} : Prop := {
  read_keeps_files i o b s r s' : op_read i o b s = (r, s') -> files s' = files s;
  write_keeps_files i o b s r s' : op_write i o b s = (r, s') -> files s' = files s;
  sync_keeps_files i s r s' : op_sync i s = (r, s') -> files s' = files s;
  read_count i o b s n b' s' :
    op_read i o b s = (Ok (n, b'), s') -> 0 <= n <= Z.of_nat (length b) /\ length b' = length b;
  write_count i o b s n s' :
    op_write i o b s = (Ok n, s') -> 0 <= n <= Z.of_nat (length b);
}.

(** Computations that leave the open files alone. *)
Definition keeps_files {D E A} (m : st (FsState D) E A) : Prop := forall s, files (m s).2 = files s.
Lemma keeps_bind {D E A B} (m : st (FsState D) E A) (k : A -> st (FsState D) E B) :
  keeps_files m -> (forall a, keeps_files (k a)) -> keeps_files (m ≫= k).
Proof.
  intros Hm Hk s. unfold mbind, st_bind. specialize (Hm s). destruct (m s) as [[a|e|] s1]; cbn in *; [|done..]. by rewrite Hk.
Qed.
Lemma keeps_map_err {D E F A} (f : E -> F) (m : st (FsState D) E A) : keeps_files m -> keeps_files (st_map_err f m).
Proof. intros Hm s. unfold st_map_err. specialize (Hm s). by destruct (m s). Qed.
Lemma keeps_Ok {D E A} (m : st (FsState D) E A) s r s' : keeps_files m -> m s = (r, s') -> files s' = files s.
Proof. intros Hm Hs. specialize (Hm s). by rewrite Hs in Hm. Qed.
Lemma keeps_lift {D E A} (r : outcome E A) : keeps_files (D := D) (st_lift r).
Proof. done. Qed.
Lemma keeps_ret {D E A} (a : A) : keeps_files (D := D) (E := E) (mret a).
Proof. done. Qed.
Lemma keeps_get {D E} : keeps_files (D := D) (E := E) st_get.
Proof. done. Qed.
Lemma keeps_get_inode {D} i : keeps_files (D := D) (get_inode i).
Proof. done. Qed.
Lemma keeps_put_inode {D} i x : keeps_files (D := D) (put_inode i x).
Proof. done. Qed.
Lemma keeps_alloc_inode {D E} x : keeps_files (D := D) (E := E) (alloc_inode x).
Proof. done. Qed.
Create HintDb keeps.
#[export] Hint Resolve keeps_bind keeps_map_err keeps_lift keeps_ret keeps_get keeps_get_inode keeps_put_inode
  keeps_alloc_inode : keeps.
(** Goes through the steps of a computation. *)
Ltac solve_keeps := repeat first [done|apply keeps_bind; [|intros ?]|apply keeps_map_err|solve [auto with keeps]|case_match].

(** The operations on directories, and those that change a file's size, do so. *)
Class DirOpsLaws (D : Type) `{InodeOps D} : Prop := {
  lookup_keeps_files i name : keeps_files (op_lookup i name);
  create_keeps_files i name kind perms : keeps_files (op_create i name kind perms);
  truncate_keeps_files i size : keeps_files (op_truncate i size);
}.
#[export] Hint Resolve lookup_keeps_files create_keeps_files truncate_keeps_files : keeps.

Lemma get_file_Ok {D} f (s : FsState D) x s' :
  get_file f s = (Ok x, s') -> files s !! f = Some x /\ s' = s.
Proof. unfold get_file, unwrap. destruct (files s !! f); naive_solver. Qed.
Lemma get_inode_Ok {D} i (s : FsState D) x s' :
  get_inode i s = (Ok x, s') -> inodes s !! i = Some x /\ s' = s.
Proof. unfold get_inode, unwrap. destruct (inodes s !! i); naive_solver. Qed.

(** Splits a successful run of a state computation into its steps. *)
Ltac inv_st :=
  repeat match goal with
  | H : (_ ≫= _) _ = (Ok _, _) |- _ => apply st_bind_Ok in H; destruct H as (? & ? & ? & ?)
  | H : (let '(_, _) := ?p in _) _ = (Ok _, _) |- _ => destruct p
  | H : st_lift _ _ = (_, _) |- _ => unfold st_lift in H; injection H as ? ?; subst
  | H : mret _ _ = (_, _) |- _ => injection H as ? ?; subst
  | H : put_inode _ _ _ = (_, _) |- _ => injection H as ? ?; subst
  | H : get_file _ _ = (Ok _, _) |- _ => apply get_file_Ok in H; destruct H as [? ->]
  | H : get_inode _ _ = (Ok _, _) |- _ => apply get_inode_Ok in H; destruct H as [? ->]
  | H : put_file _ _ _ = (_, _) |- _ => injection H as ? ?; subst
  end.

Definition clamp_u64 (x : Z) : Z := Z.max 0 (Z.min (umax 64) x).

Lemma seek_from_clamp {E} base offset :
  is_u 64 base -> - 2 ^ 63 < offset < 2 ^ 63 ->
  @seek_from E base offset = Ok (clamp_u64 (base + offset)).
Proof.
  unfold is_u, seek_from, neg_i64, clamp_u64, saturating_sub, saturating_add, umax. intros.
  destruct (Z.ltb_spec offset 0); [destruct (Z.eqb_spec offset (- 2 ^ 63)); [lia|]|]; cbn;
    f_equal; lia.
Qed.

Definition seek_target (inode_size cur : Z) (from : SeekFrom) : Z :=
  match from with
  | Start pos => pos
  | End_ offset => clamp_u64 (inode_size + offset)
  | Current offset => clamp_u64 (cur + offset)
  end.
Definition seek_offset_ok (from : SeekFrom) : Prop :=
  match from with
  | Start pos => is_u 64 pos
  | End_ offset | Current offset => - 2 ^ 63 < offset < 2 ^ 63
  end.

(** A seek returns, moves the cursor of that open file to the requested position
    clamped to the range of u64 (never wrapping around), and changes no other open
    file and no inode. *)
Theorem seek_clamps {D} f (s : FsState D) self ino from :
  files s !! f = Some self -> inodes s !! inode self = Some ino ->
  is_u 64 (cursor self) -> is_u 64 (size ino) -> seek_offset_ok from ->
  let p := seek_target (size ino) (cursor self) from in
  is_u 64 p /\
  OpenFile_seek f from s =
    (Ok p, mkFs (inodes s) (<[f := set_cursor self p]> (files s)) (dev s)).
Proof.
  intros Hf Hi Hc Hs Hok p. split.
  - unfold p, is_u in *. destruct from; cbn in *; unfold clamp_u64, umax, is_u in *; lia.
  - unfold OpenFile_seek, mbind, st_bind, get_file. rewrite Hf. cbn.
    destruct from as [pos|offset|offset]; cbn in *.
    + done.
    + unfold mbind, st_bind, get_inode. rewrite Hi. cbn. unfold st_lift.
      by rewrite seek_from_clamp.
    + unfold st_lift. by rewrite seek_from_clamp.
Qed.

(** The one offset that has no negation: the seek panics. *)
Lemma seek_min_panics {D} f (s : FsState D) self :
  files s !! f = Some self -> OpenFile_seek f (Current (- 2 ^ 63)) s = (Panic, s).
Proof. intros Hf. unfold OpenFile_seek, mbind, st_bind, get_file. by rewrite Hf. Qed.

Section IO.
Context {D : Type} `{HO : InodeOps D} {HL : InodeOpsLaws D} (now : Z).

(** A successful read delivers what the file system reads at the cursor, advances
    the cursor of that open file by exactly the number of bytes delivered, which never
    exceeds the buffer, and moves no other open file's cursor. *)
Theorem read_advances_cursor f buf s n buf' s' :
  OpenFile_read now f buf s = (Ok (n, buf'), s') ->
  exists self s1, files s !! f = Some self /\
    op_read (inode self) (cursor self) buf s = (Ok (n, buf'), s1) /\
    0 <= n <= Z.of_nat (length buf) /\ length buf' = length buf /\
    files s' = <[f := set_cursor self (cursor self + n)]> (files s).
Proof using HL.
  unfold OpenFile_read. intros Hr. inv_st. case_match; inv_st; [done|].
  arith_ok.
  match goal with Hr : op_read _ _ _ _ = _, Hs : op_sync _ _ = _ |- _ =>
    pose proof (read_count _ _ _ _ _ _ _ Hr) as [? ?];
    apply sync_keeps_files in Hs; pose proof (read_keeps_files _ _ _ _ _ _ Hr) as Hk end.
  cbn in *. do 2 eexists. split_and!; first [done|lia|congruence].
Qed.

Theorem write_advances_cursor f buf s n s' :
  OpenFile_write now f buf s = (Ok n, s') ->
  exists self s1, files s !! f = Some self /\
    op_write (inode self) (cursor self) buf s = (Ok n, s1) /\
    0 <= n <= Z.of_nat (length buf) /\
    files s' = <[f := set_cursor self (cursor self + n)]> (files s).
Proof using HL.
  unfold OpenFile_write. intros Hr. inv_st. case_match; inv_st; [done|]. arith_ok.
  match goal with Hw : op_write _ _ _ _ = _, Hs : op_sync _ _ = _ |- _ =>
    pose proof (write_count _ _ _ _ _ _ Hw) as [? ?];
    apply sync_keeps_files in Hs; pose proof (write_keeps_files _ _ _ _ _ _ Hw) as Hk end.
  cbn in *. do 2 eexists. split_and!; first [done|lia|congruence].
Qed.
End IO.

(** ** Files in memory: an instance, and the promises it keeps *)
Definition mem_read (i : nat) (off : Z) (buf : list Z) :
    st (FsState (gmap nat (list Z))) FileError (Z * list Z) := fun s =>
  let data := take (length buf) (drop (Z.to_nat off) (default [] (dev s !! i))) in
  (Ok (Z.of_nat (length data), data ++ drop (length data) buf), s).
Definition mem_write (i : nat) (off : Z) (buf : list Z) :
    st (FsState (gmap nat (list Z))) FileError Z := fun s =>
  let old := default [] (dev s !! i) in
  let o := Z.to_nat off in
  (Ok (Z.of_nat (length buf)),
   mkFs (inodes s) (files s)
     (<[i := resize o 0 (take o old) ++ buf ++ drop (o + length buf) old]> (dev s))).
#[export] Instance mem_ops : InodeOps (gmap nat (list Z)) := {
  op_read := mem_read;
  op_write := mem_write;
  op_truncate i n := fun s =>
    (Ok tt, mkFs (inodes s) (files s) (<[i := resize (Z.to_nat n) 0 (default [] (dev s !! i))]> (dev s)));
  op_sync i := mret tt;
  op_unlink i name := st_lift (Err NotADirectory);
  op_lookup i name := st_lift (Err NotADirectory);
  op_create i name k p := st_lift (Err NotADirectory);
  op_read_dir i := st_lift (Err NotADirectory);
  op_stat i := st_lift (Err UnsupportedOperation);
}.

#[export] Instance mem_ops_laws : InodeOpsLaws (gmap nat (list Z)).
Proof.
  split; cbn; unfold mem_read, mem_write; intros; simplify_eq; try done.
  - unfold mret, st_ret in *. by simplify_eq.
  - split; [rewrite length_take; lia|]. rewrite length_app, length_drop, length_take. lia.
  - lia.
Qed.

#[export] Instance mem_dir_laws : DirOpsLaws (gmap nat (list Z)).
Proof. by split. Qed.

Definition sample_fs : FsState (gmap nat (list Z)) :=
  mkFs {[ 0%nat := mkInode 7 File 5 0x180 1 0 0 0 0 0 ]}
    {[ 3%nat := mkOpenFile 0 1 READ_WRITE; 4%nat := mkOpenFile 0 0 READ_ONLY ]}
    {[ 0%nat := [10; 11; 12; 13; 14] ]}.

Lemma seek_clamps_witness :
  (OpenFile_seek 3 (End_ (-9)) sample_fs).1 = Ok 0.
Proof.
  destruct (seek_clamps 3 sample_fs (mkOpenFile 0 1 READ_WRITE) (mkInode 7 File 5 0x180 1 0 0 0 0 0)
    (End_ (-9))) as [_ ->]; try reflexivity; vm_compute; split; congruence.
Defined.

Lemma read_advances_cursor_witness :
  exists s', OpenFile_read 99 3 [0; 0] sample_fs = (Ok (2, [11; 12]), s') /\
    exists self s1, files sample_fs !! 3%nat = Some self /\
    op_read (inode self) (cursor self) [0; 0] sample_fs = (Ok (2, [11; 12]), s1) /\
    0 <= 2 <= 2 /\ 2%nat = 2%nat /\
    files s' = <[3%nat := set_cursor self (cursor self + 2)]> (files sample_fs).
Proof.
  eexists. split; [vm_compute; reflexivity|].
  apply (read_advances_cursor 99 3 [0; 0] sample_fs 2 [11; 12]). vm_compute. reflexivity.
Defined.

(** A descriptor opened read-only writes, as long as the inode grants its owner write. *)
Example read_only_descriptor_writes :
  (OpenFile_write 99 4 [1; 2] sample_fs).1 = Ok 2.
Proof. reflexivity. Qed.
