(* ===== verification/Process.v ===== *)
(** * Processes and the kernel state (zenos-kernel/src/process/mod.rs, percpu.rs)

    The process table is a vector; the per-CPU pointer to the current process is the
    index of a slot of that vector, so moving processes about in the vector moves what
    the pointer points at.  Descriptors name shared open files. *)
From S2P Require Import Prelude OpenFile.

(** ** CPU context *)
Record ProcessState := mkState {
  rax : Z; rbx : Z; rcx : Z; rdx : Z; rsi : Z; rdi : Z; rbp : Z; rsp : Z;
  r8 : Z; r9 : Z; r10 : Z; r11 : Z; r12 : Z; r13 : Z; r14 : Z; r15 : Z;
  rip : Z; rflags : Z; cs : Z; ss : Z;
  fxsave : list Z;
}.

(** What the machine and the linker provide: the FPU image [fxsave] stores, the
    selectors of the GDT, entry and stack of the idle loop, the active page table. *)
Record Machine := mkMachine {
  fpu_image : list Z;
  code_selector : Z;
  data_selector : Z;
  user_code_segment : Z;
  user_data_segment : Z;
  idle_loop : Z;
  idle_stack_top : Z;
  active_cr3 : Z;
}.

Definition ProcessState_default (hw : Machine) : ProcessState :=
  mkState 0 0 0 0 0 0 0 0 0 0 0 0 0 0 0 0 0 0 0 0 (fpu_image hw).

Definition with_rax (s : ProcessState) (v : Z) : ProcessState :=
  mkState v (rbx s) (rcx s) (rdx s) (rsi s) (rdi s) (rbp s) (rsp s)
    (r8 s) (r9 s) (r10 s) (r11 s) (r12 s) (r13 s) (r14 s) (r15 s)
    (rip s) (rflags s) (cs s) (ss s) (fxsave s).
Definition with_frame (s : ProcessState) (rip' rsp' rflags' cs' ss' : Z) : ProcessState :=
  mkState (rax s) (rbx s) (rcx s) (rdx s) (rsi s) (rdi s) (rbp s) rsp'
    (r8 s) (r9 s) (r10 s) (r11 s) (r12 s) (r13 s) (r14 s) (r15 s)
    rip' rflags' cs' ss' (fxsave s).

(** ** Processes *)
Inductive ProcessStatus :=
| Running | Ready | Created | Exited
| Blocked (flag : nat)
| WaitingFor (target : Z).
#[export] Instance ProcessStatus_eq_dec : EqDecision ProcessStatus.
Proof. solve_decision. Defined.

Definition DEFAULT_PRIORITY : Z := 15.
Definition U8_MAX : Z := 255.

Record Process := mkProcess {
  pid : Z;
  parent_pid : Z;
  name : string;
  state : ProcessState;
  status : ProcessStatus;
  cr3 : Z;
  end_ : Z;
  entry_point : Z;
  file_handles : gmap Z nat;
  cwd : nat;
  load_bias : Z;
  loaded : bool;
  user_stack_top : Z;
  exit_code : option Z;
  envp : list (list Z);
  argv : list (list Z);
  priority : Z;
}.

Definition with_state (p : Process) (s : ProcessState) : Process :=
  mkProcess (pid p) (parent_pid p) (name p) s (status p) (cr3 p) (end_ p) (entry_point p)
    (file_handles p) (cwd p) (load_bias p) (loaded p) (user_stack_top p) (exit_code p)
    (envp p) (argv p) (priority p).
Definition with_status (p : Process) (s : ProcessStatus) : Process :=
  mkProcess (pid p) (parent_pid p) (name p) (state p) s (cr3 p) (end_ p) (entry_point p)
    (file_handles p) (cwd p) (load_bias p) (loaded p) (user_stack_top p) (exit_code p)
    (envp p) (argv p) (priority p).
Definition with_file_handles (p : Process) (h : gmap Z nat) : Process :=
  mkProcess (pid p) (parent_pid p) (name p) (state p) (status p) (cr3 p) (end_ p) (entry_point p)
    h (cwd p) (load_bias p) (loaded p) (user_stack_top p) (exit_code p)
    (envp p) (argv p) (priority p).
Definition with_parent_pid (p : Process) (pp : Z) : Process :=
  mkProcess (pid p) pp (name p) (state p) (status p) (cr3 p) (end_ p) (entry_point p)
    (file_handles p) (cwd p) (load_bias p) (loaded p) (user_stack_top p) (exit_code p)
    (envp p) (argv p) (priority p).
Definition with_exit (p : Process) (code : Z) : Process :=
  mkProcess (pid p) (parent_pid p) (name p) (state p) Exited (cr3 p) (end_ p) (entry_point p)
    (file_handles p) (cwd p) (load_bias p) (loaded p) (user_stack_top p) (Some code)
    (envp p) (argv p) (priority p).

(** ** The kernel state *)
Record Scheduler := mkScheduler {
  current_pid : option Z;
  times_scheduled : Z;
  quantum : Z;
  time : Z;
}.

Record Kernel (D M : Type) := mkKernel {
  PROCESSES : list Process;
  NEXT_PID : Z;
  SCHEDULER : Scheduler;
  curr_pid : Z;
  curr_proc : option nat;
  flags : nat -> bool;
  fs : FsState D;
  mem : M;
}.
Arguments mkKernel {D M}.
Arguments PROCESSES {D M} _.
Arguments NEXT_PID {D M} _.
Arguments SCHEDULER {D M} _.
Arguments curr_pid {D M} _.
Arguments curr_proc {D M} _.
Arguments flags {D M} _.
Arguments fs {D M} _.
Arguments mem {D M} _.

Definition MAX_PROCESSES : nat := 256.

(** The address-space operations of process/isolation.rs. *)
Class AddressSpaces (M : Type) := {
  clone_address_space : st M unit Z;
  new_user_address_space : st M unit Z;
  teardown_address_space : Z -> M -> M;
}.

Section KernelOps.
Context {D M : Type}.
Implicit Type k : Kernel D M.

Definition set_procs (ps : list Process) k : Kernel D M :=
  mkKernel ps (NEXT_PID k) (SCHEDULER k) (curr_pid k) (curr_proc k) (flags k) (fs k) (mem k).
Definition set_next_pid (n : Z) k : Kernel D M :=
  mkKernel (PROCESSES k) n (SCHEDULER k) (curr_pid k) (curr_proc k) (flags k) (fs k) (mem k).
Definition set_sched (s : Scheduler) k : Kernel D M :=
  mkKernel (PROCESSES k) (NEXT_PID k) s (curr_pid k) (curr_proc k) (flags k) (fs k) (mem k).
Definition set_percpu (p : Z) (i : option nat) k : Kernel D M :=
  mkKernel (PROCESSES k) (NEXT_PID k) (SCHEDULER k) p i (flags k) (fs k) (mem k).
Definition set_fs (f : FsState D) k : Kernel D M :=
  mkKernel (PROCESSES k) (NEXT_PID k) (SCHEDULER k) (curr_pid k) (curr_proc k) (flags k) f (mem k).
Definition set_mem (m : M) k : Kernel D M :=
  mkKernel (PROCESSES k) (NEXT_PID k) (SCHEDULER k) (curr_pid k) (curr_proc k) (flags k) (fs k) m.

Definition on_fs {E A} (m : st (FsState D) E A) : st (Kernel D M) E A := fun k =>
  let '(r, f) := m (fs k) in (r, set_fs f k).
Definition on_mem {E A} (m : st M E A) : st (Kernel D M) E A := fun k =>
  let '(r, x) := m (mem k) in (r, set_mem x k).

(** [current_proc_mut]: [None] for the null pointer; a pointer past the end of the
    vector is not a process, and following it has no defined result. *)
Definition current_proc_mut {E} : st (Kernel D M) E (option (nat * Process)) := fun k =>
  match curr_proc k with
  | None => (Ok None, k)
  | Some i =>
      match PROCESSES k !! i with
      | Some p => (Ok (Some (i, p)), k)
      | None => (Panic, k)
      end
  end.
Definition put_proc {E} (i : nat) (p : Process) : st (Kernel D M) E unit := fun k =>
  (Ok tt, set_procs (<[i := p]> (PROCESSES k)) k).
(** [push] of the bounded vector. *)
Definition push_proc (p : Process) : st (Kernel D M) unit unit := fun k =>
  if Nat.ltb (length (PROCESSES k)) MAX_PROCESSES
  then (Ok tt, set_procs (PROCESSES k ++ [p]) k)
  else (Err tt, k).
End KernelOps.

(** ** Descriptors *)
Definition max_key (m : gmap Z nat) : option Z :=
  map_fold (fun fd _ acc => Some (match acc with Some a => Z.max fd a | None => fd end)) None m.

(** [keys().max().unwrap_or(2) + 1] on u32. *)
Definition next_fd {E} (m : gmap Z nat) : outcome E Z := uadd 32 (default 2 (max_key m)) 1.

Definition get_file_handle (self : Process) (fd : Z) : option nat :=
  file_handles self !! wrap 32 fd.

Definition dup_file_handle (self : Process) (old_fd : Z) (new_fd : option Z) :
    outcome unit (Z * Process) :=
  old_handle ← ok_or tt (file_handles self !! wrap 32 old_fd);
  new_fd ← match new_fd with Some fd => Ok fd | None => next_fd (file_handles self) end;
  let h := if decide (is_Some (file_handles self !! wrap 32 new_fd))
           then delete (wrap 32 new_fd) (file_handles self) else file_handles self in
  Ok (new_fd, with_file_handles self (<[wrap 32 new_fd := old_handle]> h)).

Definition close_file_handle (self : Process) (fd : Z) : outcome FileError Process :=
  _ ← ok_or InvalidFileDescriptor (file_handles self !! wrap 32 fd);
  Ok (with_file_handles self (delete (wrap 32 fd) (file_handles self))).

(** [add_file_handle]: a new open file for the inode, at the next descriptor. *)
Definition add_file_handle {D} (self : Process) (descriptor : nat) (foo : Z) :
    st (FsState D) unit (Z * Process) :=
  new_fd ← st_lift (next_fd (file_handles self));
  open_file ← alloc_file (mkOpenFile descriptor 0 foo);
  mret (new_fd, with_file_handles self (<[new_fd := open_file]> (file_handles self))).

(** ** Creating processes *)
Definition save_context (self : Process) (ctx : ProcessState) : Process :=
  with_status (with_state self ctx) Ready.

Section Create.
Context {D M : Type} `{AddressSpaces M}.
Context (hw : Machine) (now : Z).

Definition std_handle {E} (perms opts : Z) : st (FsState D) E nat :=
  i ← alloc_inode (mkInode 0 CharDevice 0 perms 0 0 0 now now now);
  alloc_file (mkOpenFile i 0 opts).

Definition store_next_pid {E} (n : Z) : st (Kernel D M) E unit := fun k => (Ok tt, set_next_pid n k).

Definition Process_new {E} (parent : Process) (name : string) : st (Kernel D M) E Process :=
  k ← st_get;
  let new_pid := NEXT_PID k in
  h0 ← on_fs (std_handle OWNER_READ (Z.lor READ_ONLY TRUNCATE));
  h1 ← on_fs (std_handle OWNER_WRITE READ_WRITE);
  h2 ← on_fs (std_handle OWNER_WRITE READ_WRITE);
  let p := mkProcess new_pid (pid parent) name (ProcessState_default hw) Created
             (active_cr3 hw) 0 0 (<[2 := h2]> (<[1 := h1]> (<[0 := h0]> ∅))) (cwd parent) 0
             false 0 None (envp parent) [] DEFAULT_PRIORITY in
  n ← st_lift (uadd 64 new_pid 1);
  _ ← store_next_pid n;
  mret p.

Definition fork_from (parent : Process) (child_state : ProcessState) :
    st (Kernel D M) unit Process :=
  child_cr3 ← on_mem clone_address_space;
  p ← Process_new parent (name parent);
  mret (mkProcess (pid p) (parent_pid p) (name p) child_state Ready child_cr3
          (end_ parent) (entry_point parent) (file_handles parent) (cwd p) (load_bias parent)
          true (user_stack_top parent) (exit_code p) (envp p) (argv p) (priority parent)).

(** [init_process] and [create_idle_task]: the entries they push. *)
Definition init_entry (cwd : nat) (load_bias : Z) (h0 h1 h2 : nat) : Process :=
  mkProcess 1 0 "/bin/init" (ProcessState_default hw) Created (active_cr3 hw) 0 0
    (<[2 := h2]> (<[1 := h1]> (<[0 := h0]> ∅))) cwd load_bias false 0 None [] [] DEFAULT_PRIORITY.
Definition idle_entry (cwd : nat) : Process :=
  mkProcess 0 0 "[kidle]"
    (with_frame (ProcessState_default hw) (idle_loop hw) (idle_stack_top hw) 0x202
       (code_selector hw) (data_selector hw))
    Ready (active_cr3 hw) 0 (idle_loop hw) ∅ cwd 0 true (idle_stack_top hw) None [] [] U8_MAX.
End Create.

(** ** Descriptor numbers *)
Lemma max_key_spec m fd : is_Some (m !! fd) -> exists x, max_key m = Some x /\ fd <= x.
Proof.
  unfold max_key. revert fd.
  apply (map_fold_weak_ind (fun acc m => forall fd, is_Some (m !! fd) -> exists x, acc = Some x /\ fd <= x)).
  - intros fd Hfd. rewrite lookup_empty in Hfd. by destruct Hfd.
  - intros k v m' acc Hk IH fd Hfd. destruct (decide (fd = k)) as [->|].
    + eexists. split; [done|]. destruct acc; lia.
    + rewrite lookup_insert_ne in Hfd by done. destruct (IH fd Hfd) as (x & -> & ?).
      eexists. split; [done|]. lia.
Qed.

(** A descriptor handed out is not in use. *)
Lemma next_fd_fresh {E} m fd : @next_fd E m = Ok fd -> m !! fd = None.
Proof.
  unfold next_fd. intros Hn. apply uadd_Ok in Hn as [_ ->].
  destruct (m !! _) as [f|] eqn:Hm; [|done]. exfalso.
  destruct (max_key_spec m (default 2 (max_key m) + 1)) as (x & Hx & ?); [by rewrite Hm|].
  rewrite Hx in *. cbn in *. lia.
Qed.

Lemma next_fd_range {E} m fd :
  @next_fd E m = Ok fd -> (forall k, is_Some (m !! k) -> 0 <= k) -> is_u 32 fd.
Proof.
  unfold next_fd. intros Hn Hk. apply uadd_Ok in Hn as [Hlt ->]. split; [|done].
  destruct (max_key m) as [x|] eqn:Hx; cbn; [|lia].
  enough (0 <= x) by lia. clear Hlt. revert x Hx Hk. unfold max_key.
  apply (map_fold_weak_ind (fun acc m => forall x, acc = Some x ->
    (forall k, is_Some (m !! k) -> 0 <= k) -> 0 <= x)); [done|].
  intros k v m' acc Hnk IH x [= <-] Hk. assert (0 <= k) by (apply Hk; by rewrite lookup_insert_eq).
  destruct acc as [a|]; [|done]. enough (0 <= a) by lia. apply IH; [done|].
  intros j Hj. apply Hk. destruct (decide (j = k)) as [->|]; [by rewrite lookup_insert_eq|].
  by rewrite lookup_insert_ne.
Qed.

