(* ===== verification/Sched.v ===== *)
(** * The scheduler (zenos-kernel/src/process/scheduler/mod.rs, process/mod.rs) *)
From S2P Require Import Prelude OpenFile Process.

Definition Scheduler_new : Scheduler := mkScheduler None 0 5 0.

Definition force_reschedule (self : Scheduler) : Scheduler :=
  mkScheduler (current_pid self) (times_scheduled self) (quantum self) (quantum self).

(** The locals of the first pass over the process table. *)
Record Pick := mkPick {
  best_idx : option nat;
  best_priority : Z;
  reap_idx : option nat;
  wake_idx : option (nat * Z);
}.
Definition no_pick : Pick := mkPick None U8_MAX None None.

Section Pass.
Context (flags : nat -> bool) (procs : list Process).

Definition target_idx (target_pid : Z) : option nat := position (fun t => pid t =? target_pid) procs.
Definition target_exit (target_pid : Z) : option Z :=
  idx ← target_idx target_pid; t ← procs !! idx; exit_code t.

(** One round of the loop over the process table. *)
Definition consider (acc : Pick) (i : nat) (proc : Process) : Pick :=
  match status proc with
  | WaitingFor target_pid =>
      let exit_code := target_exit target_pid in
      if bool_decide (is_Some exit_code) || bool_decide (target_idx target_pid = None) then
        let ec := default (umax 64) exit_code in
        if priority proc <? best_priority acc
        then mkPick (Some i) (priority proc) (target_idx target_pid) (Some (i, ec))
        else acc
      else acc
  | Blocked flag =>
      if negb (flags flag) then
        if priority proc <? best_priority acc
        then mkPick (Some i) (priority proc) (reap_idx acc) (wake_idx acc)
        else acc
      else acc
  | Ready =>
      if priority proc <? best_priority acc
      then mkPick (Some i) (priority proc) (reap_idx acc) (wake_idx acc)
      else acc
  | _ => acc
  end.

Fixpoint first_pass (i : nat) (rest : list Process) (acc : Pick) : Pick :=
  match rest with
  | [] => acc
  | proc :: rest => first_pass (S i) rest (consider acc i proc)
  end.
End Pass.

(** Saving the context of the process that was interrupted. *)
Definition save_current (self : Scheduler) (current_state : ProcessState) (procs : list Process) :
    list Process :=
  match current_pid self with
  | Some cur =>
      match position (fun p => pid p =? cur) procs with
      | Some i =>
          match procs !! i with
          | Some current_proc =>
              match status current_proc with
              | Running => <[i := with_status (save_context current_proc current_state) Ready]> procs
              | Blocked _ => <[i := save_context current_proc current_state]> procs
              | _ => procs
              end
          | None => procs
          end
      | None => procs
      end
  | None => procs
  end.

Section Schedule.
Context {D M : Type} (hw : Machine).

Definition idle_state : ProcessState :=
  with_frame (ProcessState_default hw) (idle_loop hw) (idle_stack_top hw) 0x202
    (code_selector hw) (data_selector hw).

Definition update {E} (f : Kernel D M -> Kernel D M) : st (Kernel D M) E unit := fun k => (Ok tt, f k).

(** [Scheduler::set_current]. *)
Definition set_current {E} (next_pid : Z) (slot : nat) : st (Kernel D M) E unit :=
  update (fun k =>
    let self := SCHEDULER k in
    set_percpu next_pid (Some slot)
      (set_sched (mkScheduler (Some next_pid) (times_scheduled self) (quantum self) (time self)) k)).

(** The process as it is resumed: a wake-up delivers an exit code in [rax]. *)
Definition resumed (pick : Pick) (p : Process) : Process :=
  match wake_idx pick with
  | Some (_, exit_code) => with_state p (with_rax (state p) exit_code)
  | None => p
  end.

(** The second half of [schedule]: from the chosen index to the context returned. *)
Definition dispatch {E} (pick : Pick) (best : nat) :
    st (Kernel D M) E (option (Z * Z * ProcessState)) :=
  k ← st_get;
  p ← st_lift (unwrap (PROCESSES k !! best));
  let next_proc := resumed pick p in
  _ ← put_proc best (with_status next_proc Running);
  _ ← set_current (pid next_proc) best;
  _ ← match reap_idx pick with
      | Some idx =>
          k ← st_get;
          if Nat.ltb idx (length (PROCESSES k))
          then update (set_procs (delete idx (PROCESSES k)))
          else st_lift Panic
      | None => mret tt
      end;
  k ← st_get;
  let self := SCHEDULER k in
  n ← st_lift (uadd 64 (times_scheduled self) 1);
  _ ← update (set_sched (mkScheduler (current_pid self) n (quantum self) 0));
  mret (Some (pid next_proc, cr3 next_proc, state next_proc)).

(** [lock_free]: whether [PROCESSES.try_lock()] succeeds. *)
Definition schedule {E} (lock_free : bool) (current_state : ProcessState) :
    st (Kernel D M) E (option (Z * Z * ProcessState)) :=
  k ← st_get;
  let self := SCHEDULER k in
  if time self <=? quantum self then
    if negb lock_free then mret None
    else
      let procs := save_current self current_state (PROCESSES k) in
      _ ← update (set_procs procs);
      if Nat.eqb (length procs) 0 then mret None
      else
        let pick := first_pass (flags k) procs 0 procs no_pick in
        match best_idx pick with
        | None => mret (Some (0, active_cr3 hw, idle_state))
        | Some best => dispatch pick best
        end
  else
    t ← st_lift (uadd 64 (time self) 1);
    _ ← update (set_sched (mkScheduler (current_pid self) (times_scheduled self) (quantum self) t));
    mret None.

(** [switch_to_next]: forces a switch and hands over to the next process; it panics
    when the scheduler has nothing to offer. *)
Definition switch_to_next {E} : st (Kernel D M) E (Z * ProcessState) :=
  _ ← update (fun k => set_sched (force_reschedule (SCHEDULER k)) k);
  next ← schedule true (ProcessState_default hw);
  '(_, next_cr3, next_state) ← st_lift (unwrap next);
  mret (next_cr3, next_state).
End Schedule.

(** ** The choice *)
Section Choice.
Context (flags : nat -> bool) (procs : list Process).

(** A process the scheduler may resume. *)
Definition runnable (p : Process) : bool :=
  match status p with
  | Ready => true
  | Blocked flag => negb (flags flag)
  | WaitingFor t =>
      bool_decide (is_Some (target_exit procs t)) || bool_decide (target_idx procs t = None)
  | _ => false
  end.
Definition eligible (p : Process) : bool := runnable p && (priority p <? U8_MAX).

(** The first process of the best priority among the eligible ones. *)
Definition best_choice (b : nat) (p : Process) : Prop :=
  procs !! b = Some p /\ eligible p = true /\
  forall j q, procs !! j = Some q -> eligible q = true ->
    priority p <= priority q /\ (priority q = priority p -> (b <= j)%nat).

Record pass_inv (n : nat) (acc : Pick) : Prop := {
  pass_best : forall j q, (j < n)%nat -> procs !! j = Some q -> runnable q = true ->
    best_priority acc <= priority q /\
    forall b, best_idx acc = Some b -> (j < b)%nat -> best_priority acc < priority q;
  pass_none : best_idx acc = None -> best_priority acc = U8_MAX /\ wake_idx acc = None;
  pass_some : forall b, best_idx acc = Some b -> (b < n)%nat /\ exists p, procs !! b = Some p /\
    runnable p = true /\ priority p = best_priority acc /\ priority p < U8_MAX /\
    forall t, status p = WaitingFor t ->
      wake_idx acc = Some (b, default (umax 64) (target_exit procs t)) /\
      reap_idx acc = target_idx procs t;
  pass_le : best_priority acc <= U8_MAX;
  pass_wake : forall w ec, wake_idx acc = Some (w, ec) -> exists pw t,
    procs !! w = Some pw /\ status pw = WaitingFor t /\ runnable pw = true /\
    ec = default (umax 64) (target_exit procs t) /\ reap_idx acc = target_idx procs t;
  pass_reap : wake_idx acc = None -> reap_idx acc = None;
}.

(** A round either takes the process over as the best so far or leaves the locals. *)
Lemma consider_cases acc i p :
  (runnable p = true /\ priority p < best_priority acc /\
   exists r w, consider flags procs acc i p = mkPick (Some i) (priority p) r w /\
     ((exists t, status p = WaitingFor t /\ r = target_idx procs t /\
        w = Some (i, default (umax 64) (target_exit procs t)))
      \/ ((forall t, status p <> WaitingFor t) /\ r = reap_idx acc /\ w = wake_idx acc)))
  \/ ((runnable p = true -> best_priority acc <= priority p) /\ consider flags procs acc i p = acc).
Proof.
  unfold consider, runnable. destruct (status p) eqn:Hs; try (right; done).
  - destruct (Z.ltb_spec (priority p) (best_priority acc)); [left|right; done].
    split_and!; [done..|]. do 2 eexists. split; [done|]. right. done.
  - destruct (flags flag); cbn; [right; done|].
    destruct (Z.ltb_spec (priority p) (best_priority acc)); [left|right; done].
    split_and!; [done..|]. do 2 eexists. split; [done|]. right. done.
  - destruct (_ || _); [|right; done].
    destruct (Z.ltb_spec (priority p) (best_priority acc)); [left|right; done].
    split_and!; [done..|]. do 2 eexists. split; [done|]. left. by eexists.
Qed.

Lemma consider_inv acc i p :
  procs !! i = Some p -> pass_inv i acc -> pass_inv (S i) (consider flags procs acc i p).
Proof.
  intros Hp [Hbest Hnone Hsome Hle Hwake Hreap].
  destruct (consider_cases acc i p) as [(Hrun & Hlt & r & w & -> & Hrw)|[Hge ->]].
  - split; cbn; try done; try lia.
    + intros j q Hj Hq Hr. destruct (decide (j = i)) as [->|].
      * simplify_eq. split; [lia|]. intros b [= <-] ?. lia.
      * destruct (Hbest j q ltac:(lia) Hq Hr). split; [lia|]. intros; lia.
    + intros b [= <-]. split; [lia|]. exists p. split_and!; [done..|lia|].
      intros t Ht. destruct Hrw as [(t' & ? & -> & ->)|[Hno _]]; [|by destruct (Hno t)].
      by replace t' with t by congruence.
    + intros w' ec' ->. destruct Hrw as [(t & ? & -> & [= -> ->])|(_ & -> & Hw)]; [by exists p, t|].
      by apply Hwake.
    + intros ->. destruct Hrw as [(t & ? & ? & ?)|(_ & -> & Hw)]; [done|]. auto.
  - split; try done.
    + intros j q Hj Hq Hr. destruct (decide (j = i)) as [->|]; [|apply Hbest; (lia || done)].
      simplify_eq. split; [auto|]. intros b Hb ?. destruct (Hsome b Hb). lia.
    + intros b Hb. destruct (Hsome b Hb). split; [lia|done].
Qed.

Lemma first_pass_inv rest acc i :
  (forall j, rest !! j = procs !! (i + j)%nat) -> pass_inv i acc ->
  pass_inv (i + length rest) (first_pass flags procs i rest acc).
Proof.
  revert i acc. induction rest as [|p rest IH]; intros i acc Hrest Hinv; cbn.
  { by rewrite Nat.add_0_r. }
  replace (i + S (length rest))%nat with (S i + length rest)%nat by lia. apply IH.
  - intros j. specialize (Hrest (S j)). by rewrite <-Nat.add_succ_comm in Hrest.
  - apply consider_inv; [|done]. specialize (Hrest 0%nat). by rewrite Nat.add_0_r in Hrest.
Qed.

Lemma pass_spec : pass_inv (length procs) (first_pass flags procs 0 procs no_pick).
Proof.
  apply (first_pass_inv procs no_pick 0); [done|].
  split; cbn; try done; lia.
Qed.

Lemma best_choice_spec b p :
  best_idx (first_pass flags procs 0 procs no_pick) = Some b -> procs !! b = Some p ->
  best_choice b p.
Proof.
  intros Hb Hp. destruct pass_spec as [Hbest _ Hsome _ _ _].
  destruct (Hsome b Hb) as (_ & p' & Hp' & Hrun & Hprio & Hlt & _). simplify_eq.
  split; [done|]. split; [unfold eligible; rewrite Hrun; by apply Z.ltb_lt|].
  intros j q Hq [Hr _]%andb_true_iff.
  destruct (Hbest j q (lookup_lt_Some _ _ _ Hq) Hq Hr) as [? Hj]. split; [lia|].
  intros Heq. destruct (decide (j < b)%nat); [|lia]. specialize (Hj b Hb ltac:(done)). lia.
Qed.

Lemma no_choice_spec q :
  best_idx (first_pass flags procs 0 procs no_pick) = None -> q ∈ procs -> eligible q = false.
Proof.
  intros Hb [j Hj]%list_elem_of_lookup. destruct pass_spec as [Hbest Hnone _ _ _ _].
  destruct (Hnone Hb) as [Hp _]. unfold eligible. destruct (runnable q) eqn:Hr; [|done].
  destruct (Hbest j q (lookup_lt_Some _ _ _ Hj) Hj Hr). apply Z.ltb_ge. lia.
Qed.
End Choice.

(** ** The whole switch *)
Section Switch.
Context {D M : Type} (hw : Machine).
Implicit Type k : Kernel D M.

Lemma resumed_pid pick p : pid (resumed pick p) = pid p /\ cr3 (resumed pick p) = cr3 p.
Proof. unfold resumed. by destruct (wake_idx pick) as [[]|]. Qed.

(** The table after the chosen process is resumed and the zombie, if any, is reaped. *)
Definition switched_table (pick : Pick) (best : nat) (p : Process) (procs : list Process) :
    list Process :=
  let procs := <[best := with_status (resumed pick p) Running]> procs in
  match reap_idx pick with Some idx => delete idx procs | None => procs end.

Definition switched (pick : Pick) (best : nat) (p : Process) k : Kernel D M :=
  let self := SCHEDULER k in
  set_sched (mkScheduler (Some (pid p)) (times_scheduled self + 1) (quantum self) 0)
    (set_percpu (pid p) (Some best) (set_procs (switched_table pick best p (PROCESSES k)) k)).

Lemma dispatch_eq {E} pick best p k :
  PROCESSES k !! best = Some p ->
  (forall idx, reap_idx pick = Some idx -> (idx < length (PROCESSES k))%nat) ->
  times_scheduled (SCHEDULER k) + 1 < 2 ^ 64 ->
  @dispatch D M E pick best k =
    (Ok (Some (pid p, cr3 p, state (resumed pick p))), switched pick best p k).
Proof.
  intros Hp Hreap Hn. unfold dispatch, mbind, st_bind, st_get, st_lift, put_proc, set_current,
    update, switched, switched_table. rewrite Hp. cbn [unwrap].
  destruct (resumed_pid pick p) as [Hpid Hcr3]. rewrite Hpid, Hcr3.
  destruct (reap_idx pick) as [idx|]; cbn -[Nat.ltb].
  - rewrite length_insert, (proj2 (Nat.ltb_lt _ _)) by auto.
    cbn. rewrite uadd_eq by done. done.
  - rewrite uadd_eq by done. done.
Qed.

Lemma target_idx_lt procs t idx : target_idx procs t = Some idx -> (idx < length procs)%nat.
Proof. intros [(x & Hx & _) _]%position_Some. by eapply lookup_lt_Some. Qed.

Lemma pick_reap_lt flags procs idx :
  reap_idx (first_pass flags procs 0 procs no_pick) = Some idx -> (idx < length procs)%nat.
Proof.
  destruct (pass_spec flags procs) as [_ _ _ _ Hwake Hreap].
  destruct (wake_idx _) as [[w ec]|]; intros Hr.
  - destruct (Hwake w ec eq_refl) as (pw & t & _ & _ & _ & _ & Ht). rewrite Hr in Ht.
    by eapply target_idx_lt.
  - by rewrite Hreap in Hr.
Qed.

(** When the quantum test lets it through and the table can be locked, the scheduler
    resumes its choice, or idles when it has none. *)
Lemma schedule_cases {E} cs k :
  time (SCHEDULER k) <= quantum (SCHEDULER k) -> PROCESSES k <> [] ->
  times_scheduled (SCHEDULER k) + 1 < 2 ^ 64 ->
  let procs := save_current (SCHEDULER k) cs (PROCESSES k) in
  let k1 := set_procs procs k in
  let pick := first_pass (flags k) procs 0 procs no_pick in
  (exists b p, best_idx pick = Some b /\ best_choice (flags k) procs b p /\
     @schedule D M hw E true cs k =
       (Ok (Some (pid p, cr3 p, state (resumed pick p))), switched pick b p k1))
  \/ (best_idx pick = None /\ (forall q, q ∈ procs -> eligible (flags k) procs q = false) /\
     @schedule D M hw E true cs k = (Ok (Some (0, active_cr3 hw, idle_state hw)), k1)).
Proof.
  intros Ht Hne Hn procs k1 pick.
  assert (length procs = length (PROCESSES k)) as Hlen.
  { unfold procs, save_current. repeat case_match; rewrite ?length_insert; done. }
  unfold schedule, mbind, st_bind, st_get, update.
  rewrite (proj2 (Z.leb_le _ _)) by done. cbn [negb]. fold procs.
  destruct (Nat.eqb_spec (length procs) 0) as [H0|_].
  { rewrite Hlen in H0. by apply nil_length_inv in H0. }
  fold pick. destruct (best_idx pick) as [b|] eqn:Hb.
  - left. destruct (pass_spec (flags k) procs) as [_ _ Hsome _ _ _].
    destruct (Hsome b Hb) as (_ & p & Hp & _). exists b, p. split; [done|].
    split; [by apply best_choice_spec|]. apply dispatch_eq; [done| |done].
    intros idx. apply pick_reap_lt.
  - right. split_and!; [done| |done]. intros q. by apply no_choice_spec.
Qed.

(** C15: a tick that reaches the process table resumes the first process of the best
    priority among those it may run (ready, unblocked, or waiting for a process that
    has exited or is gone; priority 255 excluded), records it as current, and restarts
    its time slice; only when there is none does it return the idle loop. *)
Theorem schedule_resumes_best_choice {E} cs k :
  time (SCHEDULER k) <= quantum (SCHEDULER k) -> PROCESSES k <> [] ->
  times_scheduled (SCHEDULER k) + 1 < 2 ^ 64 ->
  let procs := save_current (SCHEDULER k) cs (PROCESSES k) in
  exists r k', @schedule D M hw E true cs k = (Ok (Some r), k') /\
    ((exists b p, best_choice (flags k) procs b p /\ r.1 = (pid p, cr3 p) /\
        curr_pid k' = pid p /\ current_pid (SCHEDULER k') = Some (pid p) /\
        time (SCHEDULER k') = 0)
     \/ ((forall q, q ∈ procs -> eligible (flags k) procs q = false) /\
        r = (0, active_cr3 hw, idle_state hw) /\ SCHEDULER k' = SCHEDULER k)).
Proof.
  intros Ht Hne Hn procs.
  destruct (@schedule_cases E cs k Ht Hne Hn) as [(b & p & _ & Hbest & ->)|(_ & Hno & ->)];
    do 2 eexists; (split; [done|]); [left|right]; [|done].
  exists b, p. done.
Qed.

(** A waiter that is the choice is resumed with the exit code, and the zombie is reaped. *)
Lemma schedule_wakes_waiter {E} cs k b p t :
  time (SCHEDULER k) <= quantum (SCHEDULER k) -> PROCESSES k <> [] ->
  times_scheduled (SCHEDULER k) + 1 < 2 ^ 64 ->
  let procs := save_current (SCHEDULER k) cs (PROCESSES k) in
  best_choice (flags k) procs b p -> status p = WaitingFor t ->
  exists k', @schedule D M hw E true cs k =
      (Ok (Some (pid p, cr3 p, with_rax (state p) (default (umax 64) (target_exit procs t)))), k') /\
    current_pid (SCHEDULER k') = Some (pid p) /\
    match target_idx procs t with
    | Some z => PROCESSES k' = delete z (<[b := with_status (with_state p
                  (with_rax (state p) (default (umax 64) (target_exit procs t)))) Running]> procs)
    | None => PROCESSES k' = <[b := with_status (with_state p (with_rax (state p) (umax 64))) Running]> procs
    end.
Proof.
  intros Ht Hne Hn procs (Hb & Hel & Hmin) Hst.
  destruct (@schedule_cases E cs k Ht Hne Hn) as [(b' & p' & Hpick & Hbest & ->)|(_ & Hno & _)].
  2:{ exfalso. fold procs in Hno. rewrite Hno in Hel; [done|]. by eapply list_elem_of_lookup_2. }
  fold procs in Hpick, Hbest |- *. destruct Hbest as (Hb' & Hel' & Hmin').
  assert (b' = b) as ->.
  { destruct (Hmin b' p' Hb' Hel'), (Hmin' b p Hb Hel). assert (priority p = priority p') by lia. lia. }
  simplify_eq. destruct (pass_spec (flags k) procs) as [_ _ Hsome _ _ _].
  destruct (Hsome b Hpick) as (_ & p' & Hp' & _ & _ & _ & Hw). simplify_eq.
  destruct (Hw t Hst) as [Hwake Hreap].
  unfold switched, switched_table, resumed. rewrite Hwake, Hreap. eexists. split; [done|].
  split; [done|]. cbn. destruct (target_idx procs t) eqn:Ht'; [done|].
  unfold target_exit. by rewrite Ht'.
Qed.

(** C17: a process woken from [waitpid] is resumed with the exit code of the process it
    waited for in [rax] ([u64::MAX] when that process is gone), its other registers as
    they were saved, and the zombie is taken out of the table. *)
Theorem woken_waiter_gets_exit_code {E} cs k b p t :
  time (SCHEDULER k) <= quantum (SCHEDULER k) -> PROCESSES k <> [] ->
  times_scheduled (SCHEDULER k) + 1 < 2 ^ 64 ->
  let procs := save_current (SCHEDULER k) cs (PROCESSES k) in
  best_choice (flags k) procs b p -> status p = WaitingFor t ->
  exists k', @schedule D M hw E true cs k =
      (Ok (Some (pid p, cr3 p, with_rax (state p) (default (umax 64) (target_exit procs t)))), k') /\
    match target_idx procs t with
    | Some z => PROCESSES k' = delete z (<[b := with_status (with_state p
                  (with_rax (state p) (default (umax 64) (target_exit procs t)))) Running]> procs)
    | None => PROCESSES k' = <[b := with_status (with_state p (with_rax (state p) (umax 64))) Running]> procs
    end.
Proof.
  intros Ht Hne Hn procs Hb Hst. destruct (@schedule_wakes_waiter E cs k b p t Ht Hne Hn Hb Hst) as (k' & Hrun & _ & Hps). eauto.
Qed.

(** ** The invariant of the process table *)
Record sched_inv k : Prop := {
  inv_pids : NoDup (pid <$> PROCESSES k);
  inv_running : forall p, p ∈ PROCESSES k -> status p = Running ->
    current_pid (SCHEDULER k) = Some (pid p);
  inv_exited : forall p, p ∈ PROCESSES k -> is_Some (exit_code p) -> status p = Exited;
}.

Lemma fmap_pid_insert (procs : list Process) (i : nat) p q :
  procs !! i = Some p -> pid q = pid p -> pid <$> (<[i := q]> procs) = pid <$> procs.
Proof.
  intros Hi Hq. rewrite list_fmap_insert. apply list_insert_id. rewrite list_lookup_fmap, Hi. cbn. by rewrite Hq.
Qed.

(** Saving the interrupted process leaves no process running. *)
Lemma save_current_spec k cs :
  sched_inv k ->
  let procs := save_current (SCHEDULER k) cs (PROCESSES k) in
  pid <$> procs = pid <$> PROCESSES k /\
  (forall p, p ∈ procs -> status p <> Running) /\
  (forall p, p ∈ procs -> is_Some (exit_code p) -> status p = Exited).
Proof.
  intros [Hnd Hrun Hex] procs. unfold procs, save_current.
  assert (forall p, current_pid (SCHEDULER k) <> Some (pid p) -> p ∈ PROCESSES k -> status p <> Running)
    as Hother by (intros p Hc Hp Hs; by apply Hc, Hrun).
  destruct (current_pid (SCHEDULER k)) as [cur|] eqn:Hcur; [|naive_solver].
  destruct (position _ (PROCESSES k)) as [i|] eqn:Hpos.
  2:{ rewrite position_None in Hpos. split_and!; [done| |done]. intros p Hp. apply Hother; [|done].
      intros [= ->]. specialize (Hpos p Hp). cbn in Hpos. apply Z.eqb_neq in Hpos. done. }
  apply position_Some in Hpos as [(c & Hc & Hcp%Z.eqb_eq) _]. subst cur. rewrite Hc.
  assert (forall j p, PROCESSES k !! j = Some p -> status p = Running -> j = i) as Honly.
  { intros j p Hj Hs. apply (NoDup_lookup _ _ _ (pid p) Hnd); rewrite list_lookup_fmap; [by rewrite Hj|].
    rewrite Hc. cbn. f_equal. pose proof (Hrun p (list_elem_of_lookup_2 _ _ _ Hj) Hs). congruence. }
  assert (c ∈ PROCESSES k) as Hin by (by eapply list_elem_of_lookup_2).
  destruct (status c) eqn:Hst; (split_and!;
    [try done; by eapply fmap_pid_insert|..]); try done.
  all: intros p [j Hj]%list_elem_of_lookup; destruct (decide (j = i)) as [->|];
    [rewrite ?list_lookup_insert_eq in Hj by (by eapply lookup_lt_Some); simplify_eq
    |rewrite ?list_lookup_insert_ne in Hj by done].
  all: cbn; try congruence; eauto using list_elem_of_lookup_2.
  all: intros He; specialize (Hex c Hin He); congruence.
Qed.

(** Only a process that has exited is reaped. *)
Lemma reaped_has_exited flags procs z :
  reap_idx (first_pass flags procs 0 procs no_pick) = Some z ->
  exists p, procs !! z = Some p /\ is_Some (exit_code p).
Proof.
  destruct (pass_spec flags procs) as [_ _ _ _ Hwake Hreap].
  destruct (wake_idx _) as [[w ec]|]; intros Hr; [|by rewrite Hreap in Hr].
  destruct (Hwake w ec eq_refl) as (pw & t & _ & Hst & Hrun & _ & Ht). rewrite Hr in Ht.
  unfold runnable in Hrun. rewrite Hst, <-Ht, orb_true_iff, !bool_decide_eq_true in Hrun.
  destruct Hrun as [Hex|]; [|done]. unfold target_exit in Hex. rewrite <-Ht in Hex. cbn in Hex.
  destruct (procs !! z) as [p|]; [|by destruct Hex]. by exists p.
Qed.

Lemma elem_of_delete {A} (l : list A) i x : x ∈ delete i l -> x ∈ l.
Proof. revert i. induction l as [|y l IH]; intros [|i]; cbn; set_solver. Qed.

Lemma dispatch_bound {E} pick best k r k' :
  @dispatch D M E pick best k = (Ok r, k') -> times_scheduled (SCHEDULER k) + 1 < 2 ^ 64.
Proof.
  intros Hd. apply Z.nle_gt. intros Hge. revert Hd.
  unfold dispatch, mbind, st_bind, st_get, st_lift, put_proc, set_current, update.
  destruct (PROCESSES k !! best); [|done]. cbn -[Nat.ltb].
  destruct (reap_idx pick) as [idx|]; [destruct (Nat.ltb _ _); [|done]|]; cbn; unfold uadd;
    (destruct (Z.ltb_spec (times_scheduled (SCHEDULER k) + 1) (2 ^ 64)); [lia|done]).
Qed.

Lemma delete_keeps {A} (l : list A) i j x : l !! j = Some x -> i <> j -> x ∈ delete i l.
Proof.
  revert i j. induction l as [|y l IH]; intros [|i] [|j]; cbn; try done.
  - intros Hj _. by eapply list_elem_of_lookup_2.
  - intros [= ->] _. set_solver.
  - intros Hj Hne. apply elem_of_cons. right. apply (IH i j); [done|lia].
Qed.

Lemma delete_pids (l : list Process) i : NoDup (pid <$> l) -> NoDup (pid <$> delete i l).
Proof.
  revert i. induction l as [|y l IH]; intros [|i]; cbn; try done; rewrite !NoDup_cons.
  - naive_solver.
  - intros [Hy Hl]. split; [|auto]. intros Hin. apply Hy.
    apply list_elem_of_fmap in Hin as (x & -> & Hx). apply list_elem_of_fmap. exists x.
    split; [done|]. by eapply elem_of_delete.
Qed.

(** The table after a switch, in terms of the table it starts from. *)
Lemma switched_table_spec flags procs b p :
  let pick := first_pass flags procs 0 procs no_pick in
  (forall q, q ∈ procs -> status q <> Running) ->
  (forall q, q ∈ procs -> is_Some (exit_code q) -> status q = Exited) ->
  best_idx pick = Some b -> best_choice flags procs b p -> NoDup (pid <$> procs) ->
  let procs' := switched_table pick b p procs in
  let p' := with_status (resumed pick p) Running in
  NoDup (pid <$> procs') /\ p' ∈ procs' /\ (forall q, q ∈ procs' -> q = p' \/ q ∈ procs) /\
  exit_code p' = None.
Proof.
  intros pick Hnr Hex Hbest (Hb & Hel & _) Hnd procs' p'.
  assert (pid p' = pid p) as Hpid by (unfold p'; cbn; apply resumed_pid).
  assert (NoDup (pid <$> <[b := p']> procs)) by (by rewrite (fmap_pid_insert _ _ p)).
  assert (forall q, q ∈ <[b := p']> procs -> q = p' \/ q ∈ procs) as Hin.
  { intros q [j Hj]%list_elem_of_lookup. destruct (decide (j = b)) as [->|].
    - rewrite list_lookup_insert_eq in Hj by (by eapply lookup_lt_Some). left. congruence.
    - rewrite list_lookup_insert_ne in Hj by done. right. by eapply list_elem_of_lookup_2. }
  assert (<[b := p']> procs !! b = Some p') as Hp'
    by (apply list_lookup_insert_eq; by eapply lookup_lt_Some).
  assert (exit_code p = None) as Hnx.
  { destruct (exit_code p) eqn:Hx; [|done]. exfalso. unfold eligible, runnable in Hel.
    rewrite (Hex p) in Hel; [done|by eapply list_elem_of_lookup_2|by rewrite Hx]. }
  assert (exit_code p' = None) by (unfold p', resumed; by destruct (wake_idx pick) as [[]|]).
  unfold procs', switched_table. fold p'. destruct (reap_idx pick) as [z|] eqn:Hz.
  - apply reaped_has_exited in Hz as (pz & Hpz & Hx).
    assert (z <> b) as Hne.
    { intros ->. simplify_eq. rewrite Hnx in Hx. by destruct Hx. }
    split_and!; [by apply delete_pids|by eapply delete_keeps| |done].
    intros q Hq%elem_of_delete. auto.
  - split_and!; [done|by eapply list_elem_of_lookup_2|done..].
Qed.

(** C16: every tick keeps the process table in order: pids stay distinct, only the
    current process is marked running, and only exited processes carry an exit code.
    The process a tick resumes is in the table and is the one marked running. *)
Theorem schedule_keeps_table {E} lock_free cs k r k' :
  sched_inv k -> @schedule D M hw E lock_free cs k = (Ok r, k') ->
  sched_inv k' /\
  (forall p q, p ∈ PROCESSES k' -> q ∈ PROCESSES k' -> status p = Running -> status q = Running ->
    pid p = pid q) /\
  match r with
  | Some (next_pid, _, _) =>
      (exists p, p ∈ PROCESSES k' /\ status p = Running /\ pid p = next_pid) \/
      (next_pid = 0 /\ forall p, p ∈ PROCESSES k' -> status p <> Running)
  | None => True
  end.
Proof.
  intros Hinv Hs. cut (sched_inv k' /\ match r with
    | Some (next_pid, _, _) =>
        (exists p, p ∈ PROCESSES k' /\ status p = Running /\ pid p = next_pid) \/
        (next_pid = 0 /\ forall p, p ∈ PROCESSES k' -> status p <> Running)
    | None => True end).
  { intros [Hk ?]. split_and!; [done| |done]. intros p q Hp Hq Hps Hqs.
    pose proof (inv_running _ Hk p Hp Hps). pose proof (inv_running _ Hk q Hq Hqs). congruence. }
  destruct (save_current_spec k cs Hinv) as (Hpids & Hnr & Hex). revert Hs.
  unfold schedule, mbind at 1, st_bind, st_get, mret, st_ret. cbn beta iota.
  destruct (Z.leb_spec (time (SCHEDULER k)) (quantum (SCHEDULER k))).
  2:{ unfold mbind, st_lift, update. destruct (uadd 64 _ 1); [|done..]. intros [= <- <-].
      by destruct Hinv; repeat split. }
  destruct lock_free; cbn [negb]; [|by intros [= <- <-]].
  set (procs := save_current _ _ _) in *. unfold mbind at 1, update.
  destruct (Nat.eqb_spec (length procs) 0) as [H0|_].
  { apply nil_length_inv in H0. intros [= <- <-]. rewrite H0 in Hpids.
    split; [|done]. split; cbn; fold procs; rewrite H0; [constructor|set_solver..]. }
  set (pick := first_pass _ _ _ _ _). destruct (best_idx pick) as [b|] eqn:Hb.
  - destruct (pass_spec (flags k) procs) as [_ _ Hsome _ _ _].
    destruct (Hsome b Hb) as (_ & p & Hp & _). intros Hd. pose proof (dispatch_bound _ _ _ _ _ Hd) as Hn.
    rewrite (dispatch_eq pick b p) in Hd; [|done|intros idx; apply pick_reap_lt|done].
    injection Hd as <- <-.
    destruct (switched_table_spec (flags k) procs b p) as (Hnd & Hin & Hall & Hnx); [done..| | |].
    { by apply best_choice_spec. } { rewrite Hpids. apply Hinv. }
    fold pick in Hnd, Hin, Hall, Hnx. destruct (resumed_pid pick p) as [Hpid _].
    split; [|left; eexists; split_and!; [exact Hin|done|done]]. split; [done|..]; cbn.
    + intros q [->|Hq]%Hall Hs; [by rewrite <-Hpid|]. by destruct (Hnr q Hq).
    + intros q [->|Hq]%Hall He; [|auto]. rewrite Hnx in He. by destruct He.
  - intros [= <- <-]. split; [|right; done]. split; cbn; [rewrite Hpids; apply Hinv|..]; [|done].
    intros q Hq Hs. by destruct (Hnr q Hq).
Qed.
End Switch.

(** ** The quantum *)
Section Quantum.
Context {D M : Type} (hw : Machine).

(** The steps that reach the scheduler's own state; all other kernel code leaves it alone. *)
Inductive sched_step : Kernel D M -> Kernel D M -> Prop :=
| step_tick lock_free cs r k k' :
    @schedule D M hw unit lock_free cs k = (Ok r, k') -> sched_step k k'
| step_force k : sched_step k (set_sched (force_reschedule (SCHEDULER k)) k)
| step_other k k' : SCHEDULER k' = SCHEDULER k -> sched_step k k'.

Definition slice_ok (k : Kernel D M) : Prop :=
  0 <= quantum (SCHEDULER k) /\ time (SCHEDULER k) <= quantum (SCHEDULER k).

Lemma sched_step_slice k k' : slice_ok k -> sched_step k k' -> slice_ok k'.
Proof.
  intros [Hq Ht]. destruct 1 as [lock_free cs r k k' Hs|k|k k' He]; unfold slice_ok in *.
  - revert Hs. unfold schedule, mbind at 1, st_bind, st_get, mret, st_ret. cbn beta iota.
    rewrite (proj2 (Z.leb_le _ _)) by done.
    destruct lock_free; cbn [negb]; [|by intros [= <- <-]].
    set (procs := save_current _ _ _) in *. unfold mbind at 1, update.
    destruct (Nat.eqb _ _); [by intros [= <- <-]|].
    set (pick := first_pass _ _ _ _ _). destruct (best_idx pick) as [b|] eqn:Hb; [|by intros [= <- <-]].
    destruct (pass_spec (flags k) procs) as [_ _ Hsome _ _ _].
    destruct (Hsome b Hb) as (_ & p & Hp & _). intros Hd. pose proof (dispatch_bound _ _ _ _ _ Hd).
    rewrite (dispatch_eq pick b p) in Hd; [|done|intros idx; apply pick_reap_lt|done].
    injection Hd as _ <-. cbn. lia.
  - cbn. lia.
  - by rewrite He.
Qed.

(** The time slice never delays a switch.  From a fresh scheduler, along every
    sequence of ticks and forced reschedules, the time used stays within the quantum,
    so the test [quantum >= time] always passes: a tick that can lock a non-empty
    table always switches, and the counter of the else branch is never advanced. *)
Theorem quantum_never_delays k0 k cs r k' :
  SCHEDULER k0 = Scheduler_new -> rtc sched_step k0 k ->
  @schedule D M hw unit true cs k = (Ok r, k') -> PROCESSES k <> [] ->
  time (SCHEDULER k) <= quantum (SCHEDULER k) /\ is_Some r.
Proof.
  intros H0 Hr Hs Hne. assert (slice_ok k) as [Hq Ht].
  { assert (slice_ok k0) as Hk by (unfold slice_ok; rewrite H0; cbn; lia).
    clear H0 Hs Hne. induction Hr; eauto using sched_step_slice. }
  split; [done|]. revert Hs. unfold schedule, mbind at 1, st_bind, st_get, mret, st_ret.
  cbn beta iota. rewrite (proj2 (Z.leb_le _ _)) by done. cbn [negb].
  set (procs := save_current _ _ _) in *. unfold mbind at 1, update.
  destruct (Nat.eqb_spec (length procs) 0) as [Hz|_].
  { exfalso. apply Hne, nil_length_inv. rewrite <-Hz. unfold procs, save_current.
    repeat case_match; rewrite ?length_insert; done. }
  set (pick := first_pass _ _ _ _ _). destruct (best_idx pick) as [b|] eqn:Hb; [|by intros [= <- _]].
  destruct (pass_spec (flags k) procs) as [_ _ Hsome _ _ _].
  destruct (Hsome b Hb) as (_ & p & Hp & _). intros Hd. pose proof (dispatch_bound _ _ _ _ _ Hd).
  rewrite (dispatch_eq pick b p) in Hd; [|done|intros idx; apply pick_reap_lt|done].
  by injection Hd as <- _.
Qed.

(** A process that blocks is not kept off the CPU: when the tick interrupts it,
    saving its context marks it ready again, so with nothing of better priority around
    it is resumed although its flag is still set. *)
Theorem blocked_current_is_resumed cs (k : Kernel D M) p flag :
  PROCESSES k = [p] -> current_pid (SCHEDULER k) = Some (pid p) -> status p = Blocked flag ->
  flags k flag = true -> priority p < U8_MAX ->
  time (SCHEDULER k) <= quantum (SCHEDULER k) -> times_scheduled (SCHEDULER k) + 1 < 2 ^ 64 ->
  exists k', @schedule D M hw unit true cs k = (Ok (Some (pid p, cr3 p, cs)), k').
Proof.
  intros Hp Hc Hst Hf Hprio Ht Hn.
  destruct (@schedule_cases D M hw unit cs k) as [(b & q & Hb & (Hq & _) & ->)|(Hno & Hall & _)];
    [done|by rewrite Hp|done|..].
  all: unfold save_current in *; rewrite Hc, Hp in *; cbn [position] in *;
    rewrite Z.eqb_refl in *; cbn [lookup list_lookup] in *; rewrite Hst in *.
  - destruct b as [|b]; cbn in Hq; [|by destruct b]. injection Hq as <-. eexists. f_equal.
    unfold resumed. cbn. rewrite (proj2 (Z.ltb_lt _ _)) by done. done.
  - exfalso. specialize (Hall (save_context p cs)). unfold eligible, runnable in Hall. cbn in Hall.
    rewrite (proj2 (Z.ltb_lt _ _)) in Hall by done. specialize (Hall ltac:(set_solver)). done.
Qed.
End Quantum.

(** ** Concrete tables *)
Definition sample_hw : Machine := mkMachine [] 8 16 32 40 0x1000 0x9000 0x7000.
Definition sample_proc (pid : Z) (st : ProcessStatus) (ec : option Z) (prio : Z) : Process :=
  mkProcess pid 1 "p" (ProcessState_default sample_hw) st (pid * 0x1000) 0 0 ∅ 0 0 true 0 ec [] [] prio.
Definition sample_kernel (cur : option Z) (ps : list Process) : Kernel unit unit :=
  mkKernel ps 9 (mkScheduler cur 0 5 0) 0 None (fun _ => true) (mkFs ∅ ∅ tt) tt.

Definition sample_ready : Kernel unit unit :=
  sample_kernel (Some 1) [sample_proc 1 Running None 15; sample_proc 2 Ready None 15; sample_proc 3 Ready None 7].

Lemma schedule_resumes_best_choice_witness :
  exists r k', @schedule unit unit sample_hw unit true (ProcessState_default sample_hw) sample_ready
    = (Ok (Some r), k') /\ r.1 = (3, 0x3000).
Proof.
  destruct (schedule_resumes_best_choice sample_hw (E := unit) (ProcessState_default sample_hw) sample_ready)
    as (r & k' & Hs & _); [vm_compute; congruence|done|vm_compute; reflexivity|].
  exists r, k'. split; [exact Hs|]. vm_compute in Hs. injection Hs as <- _. reflexivity.
Defined.

Definition sample_wait : Kernel unit unit :=
  sample_kernel None [sample_proc 2 (WaitingFor 5) None 15; sample_proc 5 Exited (Some 42) 15].

Lemma woken_waiter_gets_exit_code_witness :
  exists k', @schedule unit unit sample_hw unit true (ProcessState_default sample_hw) sample_wait =
    (Ok (Some (2, 0x2000, with_rax (ProcessState_default sample_hw) 42)), k') /\
    (pid <$> PROCESSES k') = [2].
Proof.
  destruct (woken_waiter_gets_exit_code sample_hw (E := unit) (ProcessState_default sample_hw) sample_wait
    0 (sample_proc 2 (WaitingFor 5) None 15) 5) as (k' & Hs & Hk).
  - vm_compute; congruence.
  - done.
  - vm_compute; reflexivity.
  - split; [reflexivity|]. split; [reflexivity|]. intros [|[|j]] q Hq He; cbn in Hq; try done; simplify_eq; try done.
  - reflexivity.
  - exists k'. split; [exact Hs|]. vm_compute in Hs. injection Hs as <-. reflexivity.
Defined.

Lemma schedule_keeps_table_witness :
  exists r k', @schedule unit unit sample_hw unit true (ProcessState_default sample_hw) sample_ready
    = (Ok r, k') /\ sched_inv k'.
Proof.
  eexists _, _. split; [vm_compute; reflexivity|].
  apply (schedule_keeps_table sample_hw (E := unit) true (ProcessState_default sample_hw) sample_ready
    (Some (3, 0x3000, ProcessState_default sample_hw))); [|vm_compute; reflexivity].
  split.
  - apply (bool_decide_unpack _). vm_compute. exact I.
  - intros p Hp Hs. cbn in Hp. rewrite !elem_of_cons, elem_of_nil in Hp.
    destruct Hp as [->|[->|[->|[]]]]; done.
  - intros p Hp Hs. cbn in Hp. rewrite !elem_of_cons, elem_of_nil in Hp.
    destruct Hp as [->|[->|[->|[]]]]; destruct Hs; done.
Defined.

Lemma quantum_never_delays_witness :
  exists r k', @schedule unit unit sample_hw unit true (ProcessState_default sample_hw)
      (set_sched (force_reschedule Scheduler_new) (set_sched Scheduler_new sample_ready)) = (Ok r, k') /\
    5 <= 5 /\ is_Some r.
Proof.
  eexists _, _. split; [vm_compute; reflexivity|].
  apply (quantum_never_delays sample_hw (set_sched Scheduler_new sample_ready)
    (set_sched (force_reschedule Scheduler_new) (set_sched Scheduler_new sample_ready))
    (ProcessState_default sample_hw) _
    (set_sched (mkScheduler (Some 3) 1 5 0) (set_percpu 3 (Some 2%nat) (set_procs
      [sample_proc 1 Running None 15; sample_proc 2 Ready None 15; sample_proc 3 Running None 7] sample_ready))));
    [reflexivity| |vm_compute; reflexivity|done].
  apply rtc_once. apply (step_force sample_hw (set_sched Scheduler_new sample_ready)).
Defined.

Lemma blocked_current_is_resumed_witness :
  exists k', @schedule unit unit sample_hw unit true (ProcessState_default sample_hw)
    (sample_kernel (Some 2) [sample_proc 2 (Blocked 0) None 15]) =
    (Ok (Some (2, 0x2000, ProcessState_default sample_hw)), k').
Proof.
  apply (blocked_current_is_resumed sample_hw (ProcessState_default sample_hw)
    (sample_kernel (Some 2) [sample_proc 2 (Blocked 0) None 15])
    (sample_proc 2 (Blocked 0) None 15) 0); try reflexivity; vm_compute; congruence.
Defined.

(** A wake-up can hit the wrong process.  Process 2 waits for 5, which has exited
    with 42; process 3 is ready with a better priority and is chosen, but it is resumed
    with 42 in [rax], the zombie is reaped, and process 2 is left waiting for a pid that
    no longer exists (its next wake-up delivers [u64::MAX]). *)
Theorem wakeup_clobbers_bystander :
  exists k1 k2,
    @schedule unit unit sample_hw unit true (ProcessState_default sample_hw)
      (sample_kernel None [sample_proc 2 (WaitingFor 5) None 15; sample_proc 5 Exited (Some 42) 15;
                           sample_proc 3 Ready None 7]) =
      (Ok (Some (3, 0x3000, with_rax (ProcessState_default sample_hw) 42)), k1) /\
    (pid <$> PROCESSES k1) = [2; 3] /\
    @schedule unit unit sample_hw unit true (ProcessState_default sample_hw)
      (set_procs [sample_proc 2 (WaitingFor 5) None 15] k1) =
      (Ok (Some (2, 0x2000, with_rax (ProcessState_default sample_hw) (umax 64))), k2).
Proof. do 2 eexists. do 2 (split; [vm_compute; reflexivity|]). vm_compute. reflexivity. Qed.

(** Reaping moves the table under the pointer to the current process.  When the
    zombie stands before the process that is resumed, the per-CPU pointer keeps the old
    slot: process 2 is resumed, but the current process the system calls see is 3. *)
Theorem reap_moves_current_process :
  exists k1 p,
    @schedule unit unit sample_hw unit true (ProcessState_default sample_hw)
      (sample_kernel None [sample_proc 5 Exited (Some 42) 15; sample_proc 2 (WaitingFor 5) None 15;
                           sample_proc 3 Ready None 20]) =
      (Ok (Some (2, 0x2000, with_rax (ProcessState_default sample_hw) 42)), k1) /\
    curr_pid k1 = 2 /\ current_proc_mut (E := unit) k1 = (Ok (Some (1%nat, p)), k1) /\ pid p = 3.
Proof. do 2 eexists. do 3 (split; [vm_compute; reflexivity|]). reflexivity. Qed.
