(* ===== verification/UserMem.v ===== *)
(** * User memory (zenos-kernel/src/syscall/mod.rs)

    The copies between kernel buffers and user memory, behind the check that the user
    range is mapped.  The page tables and the memory behind them are a class; the check
    does not look at the write permission, so a store may fault. *)
From S2P Require Import Prelude PageAlloc OpenFile.

(** [translated m p]: whether the active page tables map the page at [p].  A store by the kernel
    to a page it may not write faults; [store] is [None] when [page_fault_handler] panics on that
    fault: the page is read-only, or it is copy-on-write and no page is left to copy it to. *)
Class UserMemory (M : Type) := {
  translated : M -> Z -> bool;
  load : M -> Z -> Z;
  store : M -> Z -> Z -> option M;
}.
Class UserMemoryLaws (M : Type) `{UserMemory M} : Prop := {
  load_store m a v m' b : store m a v = Some m' -> load m' b = if decide (a = b) then v else load m b;
  translated_store m a v m' p : store m a v = Some m' -> translated m' p = translated m p;
}.

Section UserMem.
Context {M : Type} `{UserMemory M}.
(** [VirtAddr::try_new] of the x86_64 crate: whether it accepts the address. *)
Context (VirtAddr_try_new : Z -> bool).

(** The walk over the pages of [[addr, end)]. *)
Fixpoint walk_pages {E} (fuel : nat) (m : M) (addr end_ : Z) : outcome E bool :=
  match fuel with
  | O => Panic
  | S fuel =>
      if addr <? end_ then
        if negb (VirtAddr_try_new addr) then Ok false
        else if negb (translated m addr) then Ok false
        else if 2 ^ 64 <=? addr + PAGE_4K then Ok false
        else walk_pages fuel m (addr + PAGE_4K) end_
      else Ok true
  end.

Definition user_range_is_mapped {E} (m : M) (user_ptr len : Z) : outcome E bool :=
  if (user_ptr =? 0) || (len =? 0) then Ok false
  else if HIGHER_HALF_BASE <=? user_ptr then Ok false
  else
    let start := user_ptr in
    if 2 ^ 64 <=? start + len then Ok false
    else
      let end_ := start + len in
      let addr := Z.land start (unot 64 (PAGE_4K - 1)) in
      walk_pages (Z.to_nat (len / PAGE_4K + 3)) m addr end_.

Fixpoint load_bytes (m : M) (a : Z) (n : nat) : list Z :=
  match n with O => [] | S n => load m a :: load_bytes m (a + 1) n end.
Fixpoint store_bytes (m : M) (a : Z) (bs : list Z) : option M :=
  match bs with [] => Some m | b :: bs => m' ← store m a b; store_bytes m' (a + 1) bs end.

(** [copy_from_user::<T>] with [size_of::<T>() = size]: the bytes of the elements. *)
Definition copy_from_user (size : Z) (m : M) (user_ptr count : Z) : outcome unit (list Z) :=
  if count =? 0 then Ok []
  else if 2 ^ 64 <=? count * size then Err tt
  else
    let byte_len := count * size in
    ok ← user_range_is_mapped m user_ptr byte_len;
    if negb ok then Err tt else Ok (load_bytes m user_ptr (Z.to_nat byte_len)).

(** [copy_to_user]: [bytes] are the bytes of the elements of the buffer.  A store that faults for
    good is a panic of the kernel. *)
Definition copy_to_user (m : M) (user_ptr : Z) (bytes : list Z) : outcome unit M :=
  let byte_len := Z.of_nat (length bytes) in
  if byte_len =? 0 then Ok m
  else
    ok ← user_range_is_mapped m user_ptr byte_len;
    if negb ok then Err tt else unwrap (store_bytes m user_ptr bytes).

(** The bytes of a string up to and including its first NUL, at most [n] of them. *)
Fixpoint string_bytes (m : M) (user_ptr : Z) (n : nat) : outcome Z (list Z * bool) :=
  match n with
  | O => Ok ([], false)
  | S n =>
      bs ← map_err (fun _ => neg_errno EFAULT) (copy_from_user 1 m user_ptr 1);
      byte ← unwrap (head bs);
      if byte =? 0 then Ok ([byte], true)
      else '(rest, found_null) ← string_bytes m (wrap 64 (user_ptr + 1)) n;
           Ok (byte :: rest, found_null)
  end.

Definition in_range (lo hi b : Z) : bool := (lo <=? b) && (b <=? hi).
(** [String::from_utf8] accepts exactly the well-formed byte sequences. *)
Fixpoint utf8_ok (l : list Z) : bool :=
  match l with
  | [] => true
  | b0 :: l =>
      if b0 <? 0x80 then utf8_ok l
      else match l with
      | [] => false
      | b1 :: l =>
          if in_range 0xC2 0xDF b0 && in_range 0x80 0xBF b1 then utf8_ok l
          else match l with
          | [] => false
          | b2 :: l =>
              if in_range 0x80 0xBF b2 &&
                 ((b0 =? 0xE0) && in_range 0xA0 0xBF b1
                  || in_range 0xE1 0xEC b0 && in_range 0x80 0xBF b1
                  || (b0 =? 0xED) && in_range 0x80 0x9F b1
                  || in_range 0xEE 0xEF b0 && in_range 0x80 0xBF b1)
              then utf8_ok l
              else match l with
              | [] => false
              | b3 :: l =>
                  in_range 0x80 0xBF b2 && in_range 0x80 0xBF b3 &&
                  ((b0 =? 0xF0) && in_range 0x90 0xBF b1
                   || in_range 0xF1 0xF3 b0 && in_range 0x80 0xBF b1
                   || (b0 =? 0xF4) && in_range 0x80 0x8F b1)
                  && utf8_ok l
              end
          end
      end
  end.

Definition ENAMETOOLONG : Z := 36.

(** [trim_end_matches('\0')]. *)
Fixpoint trim_nuls (l : list Z) : list Z :=
  match l with
  | [] => []
  | b :: l => match trim_nuls l with
              | [] => if b =? 0 then [] else [b]
              | l' => b :: l'
              end
  end.

Definition copy_string (m : M) (user_ptr max_len : Z) : outcome Z (list Z) :=
  '(vec, found_null) ← string_bytes m user_ptr (Z.to_nat max_len);
  if negb (utf8_ok vec) then Err (neg_errno EINVAL)
  else if negb found_null then Err (neg_errno ENAMETOOLONG)
  else Ok (trim_nuls vec).
End UserMem.

(** ** The range check *)
Definition LOWER_HALF_END : Z := 2 ^ 47.
(** What [VirtAddr::try_new] documents: it accepts exactly the canonical addresses. *)
Definition canonical (VirtAddr_try_new : Z -> bool) : Prop :=
  forall a, 0 <= a < 2 ^ 64 ->
    VirtAddr_try_new a = true <-> a < LOWER_HALF_END \/ 2 ^ 64 - 2 ^ 47 <= a.

Section RangeCheck.
Context {M : Type} `{HM : UserMemory M}.
Context (VirtAddr_try_new : Z -> bool) (Hcanon : canonical VirtAddr_try_new).

Definition page_ok (m : M) (p : Z) : Prop :=
  VirtAddr_try_new p = true /\ translated m p = true /\ p + PAGE_4K < 2 ^ 64.

Lemma walk_pages_spec {E} fuel m addr end_ :
  0 <= addr -> addr mod PAGE_4K = 0 -> end_ - addr <= Z.of_nat fuel * PAGE_4K ->
  exists b, @walk_pages M HM VirtAddr_try_new E (S fuel) m addr end_ = Ok b /\
    (b = true <-> forall p, addr <= p < end_ -> p mod PAGE_4K = 0 -> page_ok m p).
Proof.
  revert addr. induction fuel as [|fuel IH]; intros addr Ha Hal Hfuel; cbn [walk_pages];
    (destruct (Z.ltb_spec addr end_); [|exists true; split; [done|]; split; [intros; lia|done]]);
    unfold PAGE_4K in *; [lia|].
  assert (forall b : bool, b = false -> ~ page_ok m addr -> b = true <->
    forall p, addr <= p < end_ -> p mod 4096 = 0 -> page_ok m p) as Hfail.
  { intros b -> Hn. split; [done|]. intros Hall. destruct Hn. apply Hall; [lia|done]. }
  destruct (VirtAddr_try_new addr) eqn:Hv; cbn [negb].
  2:{ exists false. split; [done|]. apply Hfail; [done|]. intros (? & ? & _). congruence. }
  destruct (translated m addr) eqn:Ht; cbn [negb].
  2:{ exists false. split; [done|]. apply Hfail; [done|]. intros (? & ? & _). congruence. }
  destruct (Z.leb_spec (2 ^ 64) (addr + 4096)).
  { exists false. split; [done|]. apply Hfail; [done|]. intros (_ & _ & ?). unfold PAGE_4K in *. lia. }
  destruct (IH (addr + 4096)) as (b & Hb & Hspec); [lia|by rewrite Zplus_mod, Hal|lia|].
  exists b. split; [exact Hb|]. rewrite Hspec. split.
  - intros Hall p Hp Hm. destruct (decide (p = addr)) as [->|]; [done|].
    apply Hall; [|done]. apply Z_div_exact_full_2 in Hm, Hal; lia.
  - intros Hall p Hp Hm. apply Hall; [lia|done].
Qed.

(** The ranges the kernel may touch on behalf of a process. *)
Definition range_ok (m : M) (user_ptr len : Z) : Prop :=
  user_ptr <> 0 /\ len <> 0 /\ user_ptr + len <= LOWER_HALF_END /\
  forall a, user_ptr <= a < user_ptr + len -> translated m (page_of a) = true.

Lemma user_range_spec {E} m user_ptr len :
  is_u 64 user_ptr -> is_u 64 len ->
  exists b, @user_range_is_mapped M HM VirtAddr_try_new E m user_ptr len = Ok b /\
    (b = true <-> range_ok m user_ptr len).
Proof using Hcanon.
  intros Hp Hl. unfold user_range_is_mapped, is_u in *.
  destruct (Z.eqb_spec user_ptr 0); [exists false; split; [done|]; split; [done|intros (? & _); done]|].
  destruct (Z.eqb_spec len 0); [exists false; split; [done|]; split; [done|intros (_ & ? & _); done]|].
  cbn [orb].
  destruct (Z.leb_spec HIGHER_HALF_BASE user_ptr).
  { exists false. split; [done|]. split; [done|]. intros (_ & _ & ? & _).
    unfold HIGHER_HALF_BASE, LOWER_HALF_END in *. lia. }
  destruct (Z.leb_spec (2 ^ 64) (user_ptr + len)).
  { exists false. split; [done|]. split; [done|]. intros (_ & _ & ? & _).
    unfold LOWER_HALF_END in *. lia. }
  replace (Z.to_nat (len / PAGE_4K + 3)) with (S (Z.to_nat (len / PAGE_4K + 2)))
    by (pose proof (Z.div_pos len PAGE_4K ltac:(lia) ltac:(done)); lia).
  change (PAGE_4K - 1) with (Z.ones 12). rewrite land_unot by (unfold is_u; lia).
  rewrite Z.ldiff_ones_r, Z.shiftr_div_pow2, Z.shiftl_mul_pow2 by lia. change (2 ^ 12) with 4096.
  pose proof (Z.div_mod user_ptr 4096 ltac:(lia)). pose proof (Z.mod_pos_bound user_ptr 4096 ltac:(lia)).
  pose proof (Z.div_mod len 4096 ltac:(lia)). pose proof (Z.mod_pos_bound len 4096 ltac:(lia)).
  pose proof (Z.div_pos user_ptr 4096 ltac:(lia) ltac:(lia)).
  destruct (@walk_pages_spec E (Z.to_nat (len / PAGE_4K + 2)) m (user_ptr / 4096 * 4096) (user_ptr + len))
    as (b & Hb & Hspec); [lia|apply Z_mod_mult|unfold PAGE_4K; lia|].
  exists b. split; [done|]. rewrite Hspec. clear Hb Hspec. unfold page_ok, range_ok, page_of, PAGE_4K, LOWER_HALF_END.
  split.
  - intros Hall. assert (user_ptr + len <= 2 ^ 47) as Hend.
    { apply Z.nlt_ge. intros Hlt.
      set (p := Z.max (user_ptr / 4096 * 4096) (2 ^ 47)).
      assert (p mod 4096 = 0) by (unfold p; destruct (Z.max_spec (user_ptr / 4096 * 4096) (2 ^ 47)) as [[_ ->]|[_ ->]]; [done|apply Z_mod_mult]).
      destruct (Hall p) as (Hv & _); [unfold p; lia|done|].
      apply Hcanon in Hv; unfold p, LOWER_HALF_END, HIGHER_HALF_BASE in *; lia. }
    split_and!; [done..|]. intros a Ha.
    pose proof (Z.div_mod a 4096 ltac:(lia)). pose proof (Z.mod_pos_bound a 4096 ltac:(lia)).
    apply Hall; [lia|]. rewrite Zminus_mod_idemp_r, Z.sub_diag. done.
  - intros (_ & _ & Hend & Hall) p Hpp Hm. apply Z_div_exact_full_2 in Hm; [|lia].
    split_and!; [apply Hcanon; unfold LOWER_HALF_END; lia| |lia].
    pose proof (Hall (Z.max p user_ptr) ltac:(lia)) as Ht.
    assert (Z.max p user_ptr - Z.max p user_ptr mod 4096 = p) as He; [|by rewrite He in Ht].
    pose proof (Z.div_mod (Z.max p user_ptr) 4096 ltac:(lia)).
    pose proof (Z.mod_pos_bound (Z.max p user_ptr) 4096 ltac:(lia)). lia.
Qed.

(** C26: the copies touch user memory exactly when every byte of the range is mapped and
    the range lies in the lower half of the address space, not at null.  Then the copy
    from user memory returns its bytes; the copy to user memory makes its stores and succeeds
    if they all do, and it panics with the page fault of the first store that does not (to a
    read-only page, or to a copy-on-write page when no page is free).  On any other
    non-empty range both fail without touching memory.  A copy of nothing succeeds at any address. *)
Theorem user_copies_are_checked size m user_ptr count bytes :
  is_u 64 user_ptr -> 0 <= count -> 0 < size ->
  let len := Z.of_nat (length bytes) in is_u 64 len ->
  (count = 0 -> copy_from_user VirtAddr_try_new size m user_ptr count = Ok []) /\
  (range_ok m user_ptr (count * size) ->
     copy_from_user VirtAddr_try_new size m user_ptr count =
       Ok (load_bytes m user_ptr (Z.to_nat (count * size)))) /\
  (0 < count -> ~ range_ok m user_ptr (count * size) ->
     copy_from_user VirtAddr_try_new size m user_ptr count = Err tt) /\
  (bytes = [] -> copy_to_user VirtAddr_try_new m user_ptr bytes = Ok m) /\
  (range_ok m user_ptr len ->
     copy_to_user VirtAddr_try_new m user_ptr bytes =
       match store_bytes m user_ptr bytes with Some m' => Ok m' | None => Panic end) /\
  (bytes <> [] -> ~ range_ok m user_ptr len -> copy_to_user VirtAddr_try_new m user_ptr bytes = Err tt).
Proof using Hcanon.
  intros Hp Hc Hs len Hu.
  assert (forall n, is_u 64 n -> exists b : bool, user_range_is_mapped (E := unit) VirtAddr_try_new m user_ptr n = Ok b /\
    (range_ok m user_ptr n -> b = true) /\ (~ range_ok m user_ptr n -> b = false)) as Hrange.
  { intros n Hn. destruct (user_range_spec (E := unit) m user_ptr n Hp Hn) as (b & Hb & Hiff). exists b.
    destruct b; naive_solver. }
  unfold copy_from_user, copy_to_user. fold len.
  destruct (Hrange len Hu) as (b & -> & Hyes & Hno). cbn [mbind outcome_bind].
  split; [by intros ->|]. apply Logic.and_assoc. split.
  - destruct (Z.eqb_spec count 0) as [->|H0]; [split; [by intros (_ & ? & _)|lia]|].
    destruct (Z.leb_spec (2 ^ 64) (count * size)).
    { split; [|done]. intros (_ & _ & ? & _). unfold LOWER_HALF_END, is_u in *. lia. }
    destruct (Hrange (count * size)) as (c & -> & Hcy & Hcn); [unfold is_u; lia|]. cbn [mbind outcome_bind].
    split; [intros Hr; by rewrite (Hcy Hr)|intros _ Hr; by rewrite (Hcn Hr)].
  - destruct (Z.eqb_spec len 0) as [H0|H0].
    { assert (bytes = []) as -> by (apply length_zero_iff_nil; lia). split_and!; [done|by intros (_ & ? & _)|done]. }
    split_and!; [by intros ->|intros Hr; by rewrite (Hyes Hr)|intros _ Hr; by rewrite (Hno Hr)].
Qed.
End RangeCheck.

(** ** The copies *)
Section Copies.
Context {M : Type} `{HM : UserMemory M} {HL : UserMemoryLaws M}.
Context (VirtAddr_try_new : Z -> bool) (Hcanon : canonical VirtAddr_try_new).

Lemma load_store_bytes m a bs m' x : store_bytes m a bs = Some m' ->
  load m' x = if decide (a <= x) then default (load m x) (bs !! Z.to_nat (x - a)) else load m x.
Proof using HL.
  revert m a. induction bs as [|b bs IH]; intros m a; cbn [store_bytes].
  { intros [= ->]. rewrite lookup_nil. by destruct (decide _). }
  intros (m1 & Hm1 & Hm')%bind_Some. rewrite (IH _ _ Hm'), (load_store _ _ _ _ _ Hm1). destruct (decide (a = x)) as [->|].
  - rewrite decide_False by lia. rewrite decide_True by lia. by rewrite Z.sub_diag.
  - destruct (decide (a + 1 <= x)); [|by rewrite decide_False by lia].
    rewrite decide_True by lia.
    replace (Z.to_nat (x - a)) with (S (Z.to_nat (x - (a + 1)))) by lia. done.
Qed.

Lemma translated_store_bytes m a bs m' p : store_bytes m a bs = Some m' -> translated m' p = translated m p.
Proof using HL.
  revert m a. induction bs as [|b bs IH]; intros m a; cbn; [by intros [= ->]|].
  intros (m1 & Hm1 & Hm')%bind_Some. by rewrite (IH _ _ Hm'), (translated_store _ _ _ _ _ Hm1).
Qed.

Lemma load_bytes_lookup m a n i : (i < n)%nat -> load_bytes m a n !! i = Some (load m (a + Z.of_nat i)).
Proof.
  revert a i. induction n as [|n IH]; intros a i Hi; [lia|]. destruct i as [|i]; cbn.
  - by rewrite Z.add_0_r.
  - rewrite IH by lia. do 2 f_equal. lia.
Qed.

Lemma load_bytes_length m a n : length (load_bytes m a n) = n.
Proof. revert a. induction n; intros; cbn; auto. Qed.

Lemma walk_pages_ext {E} fuel m m' addr end_ :
  (forall p, translated m p = translated m' p) ->
  @walk_pages M HM VirtAddr_try_new E fuel m addr end_ = walk_pages VirtAddr_try_new fuel m' addr end_.
Proof.
  intros Hm. revert addr. induction fuel as [|fuel IH]; intros addr; cbn; [done|].
  by rewrite Hm, IH.
Qed.

(** A successful copy to user memory writes exactly the bytes of the range and
    nothing else, and copying the range back returns the same bytes. *)
Theorem copy_to_from_user m user_ptr bytes m' :
  is_u 64 user_ptr -> is_u 64 (Z.of_nat (length bytes)) ->
  copy_to_user VirtAddr_try_new m user_ptr bytes = Ok m' ->
  (forall a, a < user_ptr \/ user_ptr + Z.of_nat (length bytes) <= a -> load m' a = load m a) /\
  copy_from_user VirtAddr_try_new 1 m' user_ptr (Z.of_nat (length bytes)) = Ok bytes.
Proof using HL.
  unfold copy_to_user, copy_from_user, is_u. rewrite Z.mul_1_r. intros Hp Hl.
  destruct (Z.eqb_spec (Z.of_nat (length bytes)) 0) as [H0|H0].
  { intros [= <-]. split; [done|]. destruct bytes; [done|cbn in H0; lia]. }
  destruct (Z.leb_spec (2 ^ 64) (Z.of_nat (length bytes))); [lia|].
  destruct (user_range_is_mapped _ m user_ptr _) as [[]| |] eqn:Hr; try done. cbn [mbind outcome_bind negb].
  destruct (store_bytes m user_ptr bytes) as [m1|] eqn:Hst; [|done]. intros [= <-]. split.
  - intros a Ha. rewrite (load_store_bytes _ _ _ _ _ Hst). destruct (decide _); [|done].
    rewrite lookup_ge_None_2 by lia. done.
  - replace (user_range_is_mapped _ m1 _ _) with (Ok (E:=unit) true).
    2:{ rewrite <-Hr. unfold user_range_is_mapped. repeat case_match; try done.
        apply walk_pages_ext. intros p. symmetry. by apply (translated_store_bytes _ _ _ _ _ Hst). }
    cbn. f_equal. apply list_eq. intros i. rewrite Nat2Z.id.
    destruct (decide (i < length bytes)%nat) as [Hi|Hi].
    + rewrite load_bytes_lookup, (load_store_bytes _ _ _ _ _ Hst), decide_True by lia.
      replace (Z.to_nat (user_ptr + Z.of_nat i - user_ptr)) with i by lia.
      destruct (lookup_lt_is_Some_2 bytes i Hi) as [b ->]. done.
    + rewrite !lookup_ge_None_2; [done|lia|rewrite load_bytes_length; lia].
Qed.

Lemma trim_nuls_id bs : Forall (fun b => b <> 0) bs -> trim_nuls (bs ++ [0]) = bs.
Proof.
  induction 1 as [|b bs Hb Hbs IH]; cbn; [done|]. rewrite IH.
  destruct bs; [|done]. by destruct (Z.eqb_spec b 0).
Qed.

Lemma copy_one m p :
  is_u 64 p -> p <> 0 -> p + 1 <= LOWER_HALF_END -> translated m (page_of p) = true ->
  copy_from_user VirtAddr_try_new 1 m p 1 = Ok [load m p].
Proof using Hcanon.
  intros Hp H0 He Ht. unfold copy_from_user. change (1 =? 0) with false. rewrite Z.mul_1_r.
  change (2 ^ 64 <=? 1) with false. cbv zeta iota.
  destruct (user_range_spec VirtAddr_try_new Hcanon (E := unit) m p 1 Hp) as (b & -> & Hb);
    [unfold is_u; lia|].
  assert (b = true) as ->; [|done]. apply Hb. split_and!; [done|lia|done|].
  intros a Ha. by replace a with p by lia.
Qed.

(** A string that is mapped, valid UTF-8 and terminated within the limit is copied
    exactly, without its terminator. *)
Theorem copy_string_exact m user_ptr max_len bs :
  0 < user_ptr -> range_ok m user_ptr (Z.of_nat (length bs) + 1) ->
  (forall i b, bs !! i = Some b -> load m (user_ptr + Z.of_nat i) = b /\ b <> 0) ->
  load m (user_ptr + Z.of_nat (length bs)) = 0 ->
  Z.of_nat (length bs) < max_len -> utf8_ok (bs ++ [0]) = true ->
  copy_string VirtAddr_try_new m user_ptr max_len = Ok bs.
Proof using Hcanon.
  intros Hpos (_ & _ & Hend & Hmap) Hbs Hnul Hmax Hutf. unfold copy_string.
  assert (forall n, (length bs < n)%nat ->
    string_bytes VirtAddr_try_new m user_ptr n = Ok (bs ++ [0], true)) as Hsb.
  2:{ rewrite Hsb by lia. cbn. rewrite Hutf. cbn. rewrite trim_nuls_id; [done|].
      apply Forall_lookup. intros i b Hb. by apply (Hbs i). }
  clear Hmax Hutf max_len. revert user_ptr Hpos Hend Hmap Hbs Hnul.
  unfold LOWER_HALF_END in *.
  induction bs as [|b bs IH]; intros p Hpos Hend Hmap Hbs Hnul n Hn; destruct n as [|n]; try (cbn in Hn; lia);
    cbn [string_bytes length] in *; (rewrite copy_one;
      [|unfold is_u; lia|lia|unfold LOWER_HALF_END; lia|apply Hmap; lia]); cbn [map_err mbind outcome_bind head unwrap].
  - rewrite Z.add_0_r in Hnul. by rewrite Hnul.
  - destruct (Hbs 0%nat b eq_refl) as [Hb Hb0]. rewrite Z.add_0_r in Hb. rewrite Hb.
    rewrite (proj2 (Z.eqb_neq b 0)) by done. rewrite wrap_small by (unfold is_u; lia).
    rewrite IH; [done|lia|lia|intros a Ha; apply Hmap; lia| | |cbn in Hn; lia].
    + intros i c Hc. destruct (Hbs (S i) c Hc) as [<- ?]. split; [f_equal; lia|done].
    + rewrite <-Hnul. f_equal. lia.
Qed.
End Copies.

(** ** A memory with lists of mapped and of read-only pages *)
Record FlatMem := mkFlatMem { flat_pages : list Z; flat_locked : list Z; flat_bytes : gmap Z Z }.
Definition mkFlat (pages : list Z) (bytes : gmap Z Z) : FlatMem := mkFlatMem pages [] bytes.
#[export] Instance flat_memory : UserMemory FlatMem := {
  translated m p := bool_decide (p ∈ flat_pages m);
  load m a := default 0 (flat_bytes m !! a);
  store m a v :=
    if bool_decide (page_of a ∈ flat_pages m /\ page_of a ∉ flat_locked m)
    then Some (mkFlatMem (flat_pages m) (flat_locked m) (<[a := v]> (flat_bytes m))) else None;
}.
#[export] Instance flat_memory_laws : UserMemoryLaws FlatMem.
Proof.
  split; intros m a v m' b; cbn; destruct (bool_decide _); intros [= <-]; cbn; [|done].
  destruct (decide (a = b)) as [->|]; [by rewrite lookup_insert_eq|by rewrite lookup_insert_ne].
Qed.

Definition canon (a : Z) : bool := (a <? LOWER_HALF_END) || (2 ^ 64 - 2 ^ 47 <=? a).
Lemma canon_canonical : canonical canon.
Proof. intros a _. unfold canon. rewrite orb_true_iff, Z.ltb_lt, Z.leb_le. done. Qed.

(** "hi" at 0x5fff, across the boundary of two mapped pages. *)
Definition sample_mem : FlatMem :=
  mkFlat [0x5000; 0x6000] {[ 0x5fff := 104; 0x6000 := 105 ]}.

Lemma sample_page a : 0x5fff <= a < 0x6002 -> @translated FlatMem _ sample_mem (page_of a) = true.
Proof.
  intros Ha. assert (a = 0x5fff \/ a = 0x6000 \/ a = 0x6001) as [->|[->| ->]] by lia; reflexivity.
Qed.

Lemma user_copies_are_checked_witness :
  copy_from_user canon 1 sample_mem 0x5fff 2 = Ok [104; 105] /\
  copy_to_user canon (mkFlatMem [0x5000; 0x6000] [0x5000] ∅) 0x5fff [7; 8] = Panic.
Proof.
  split.
  - assert (range_ok sample_mem 0x5fff (2 * 1)) as Hr.
    { split_and!; [done|done|by vm_compute|]. intros a Ha. apply sample_page. lia. }
    destruct (user_copies_are_checked canon canon_canonical 1 sample_mem 0x5fff 2 [])
      as (_ & H & _); [vm_compute; split; congruence|lia|lia|vm_compute; split; congruence|].
    exact (H Hr).
  - assert (range_ok (mkFlatMem [0x5000; 0x6000] [0x5000] ∅) 0x5fff (Z.of_nat 2)) as Hr.
    { split_and!; [done|done|by vm_compute|]. intros a Ha. apply sample_page. lia. }
    destruct (user_copies_are_checked canon canon_canonical 1 (mkFlatMem [0x5000; 0x6000] [0x5000] ∅) 0x5fff 0 [7; 8])
      as (_ & _ & _ & _ & H & _); [vm_compute; split; congruence|lia|lia|vm_compute; split; congruence|].
    exact (H Hr).
Defined.

Lemma copy_to_from_user_witness :
  exists m', copy_to_user canon sample_mem 0x5ffe [1; 2; 3] = Ok m' /\
    copy_from_user canon 1 m' 0x5ffe 3 = Ok [1; 2; 3].
Proof.
  eexists. split; [vm_compute; reflexivity|].
  apply (copy_to_from_user canon sample_mem 0x5ffe [1; 2; 3]);
    [vm_compute; split; congruence|vm_compute; split; congruence|vm_compute; reflexivity].
Defined.

Lemma copy_string_exact_witness : copy_string canon sample_mem 0x5fff 4096 = Ok [104; 105].
Proof.
  apply (copy_string_exact canon canon_canonical sample_mem 0x5fff 4096 [104; 105]).
  - lia.
  - split_and!; [done|done|by vm_compute|]. intros a Ha. apply sample_page. cbn in Ha. lia.
  - intros [|[|i]] b Hb; cbn in Hb; simplify_eq; vm_compute; (split; [reflexivity|congruence]).
  - reflexivity.
  - cbn. lia.
  - reflexivity.
Defined.
