(* ===== verification/Syscall.v ===== *)
(** * System calls (zenos-kernel/src/syscall)

    A handler returns a value to its caller, switches to another process, or halts
    until the next timer tick. *)
From S2P Require Import Prelude PageAlloc OpenFile Process Sched UserMem.

Inductive SysResult :=
| Ret (v : Z)
| Switch (next_cr3 : Z) (next_state : ProcessState)
| Halt.

(** [unwrap_or_else(|errno| errno)]. *)
Definition or_errno {S E} (m : st S Z Z) : st S E Z := fun s =>
  match m s with
  | (Ok v, s) => (Ok v, s)
  | (Err e, s) => (Ok e, s)
  | (Panic, s) => (Panic, s)
  end.

Section Syscalls.
Context {D M : Type} `{InodeOps D} `{AddressSpaces M} `{UserMemory M}.
Context (hw : Machine) (now : Z) (VirtAddr_try_new : Z -> bool).
Abbreviation K := (Kernel D M).
Abbreviation sys E := (st K E).

Definition ret {E} (m : sys E Z) : sys E SysResult := v ← m; mret (Ret v).

(** ** close, lseek, dup, dup2 *)
Definition sys_close {E} (fd : Z) : sys E Z :=
  cur ← current_proc_mut;
  match cur with
  | None => mret (neg_errno ESRCH)
  | Some (i, process) =>
      match close_file_handle process fd with
      | Ok process' => _ ← put_proc i process'; mret 0
      | Err _ => mret (neg_errno EBADF)
      | Panic => st_lift Panic
      end
  end.

(** The error type of the file system does not occur in a seek. *)
Definition seek_inner (fd offset whence : Z) : sys Z Z :=
  cur ← current_proc_mut;
  match cur with
  | None => st_lift (Err (neg_errno ESRCH))
  | Some (_, process) =>
      file_handle ← st_lift (ok_or (neg_errno EBADF) (get_file_handle process fd));
      seek_from ← (if whence =? 0 then mret (Start (wrap 64 offset))
                   else if whence =? 1 then mret (Current offset)
                   else if whence =? 2 then mret (End_ offset)
                   else st_lift (Err (neg_errno EINVAL)));
      st_map_err file_error_to_errno (on_fs (OpenFile_seek file_handle seek_from))
  end.

Definition sys_lseek {E} (rdi rsi rdx : Z) : sys E Z :=
  or_errno (seek_inner rdi (as_signed 64 rsi) rdx).

Definition sys_dup {E} (old_fd : Z) : sys E Z :=
  cur ← current_proc_mut;
  match cur with
  | None => mret (neg_errno ESRCH)
  | Some (i, curr_proc) =>
      match dup_file_handle curr_proc old_fd None with
      | Ok (fd, p) => _ ← put_proc i p; mret fd
      | Err _ => mret (neg_errno EBADF)
      | Panic => st_lift Panic
      end
  end.

Definition sys_dup2 {E} (old_fd new_fd : Z) : sys E Z :=
  cur ← current_proc_mut;
  match cur with
  | None => mret (neg_errno ESRCH)
  | Some (i, curr_proc) =>
      if old_fd =? new_fd then
        match get_file_handle curr_proc old_fd with
        | None => mret (neg_errno EBADF)
        | Some _ => mret new_fd
        end
      else
        match dup_file_handle curr_proc old_fd (Some new_fd) with
        | Ok (fd, p) => _ ← put_proc i p; mret fd
        | Err _ => mret (neg_errno EBADF)
        | Panic => st_lift Panic
        end
  end.

(** ** read, write *)
Definition read_inner (fd : Z) (buf : list Z) : sys Z (Z * list Z) :=
  cur ← current_proc_mut;
  match cur with
  | None => st_lift (Err (neg_errno ESRCH))
  | Some (_, process) =>
      file_handle ← st_lift (ok_or (neg_errno EBADF) (get_file_handle process fd));
      st_map_err file_error_to_errno (on_fs (OpenFile_read now file_handle buf))
  end.

Definition sys_read {E} (fd buf_ptr len : Z) : sys E Z := fun k =>
  let len := Z.min len 0x10000 in
  match read_inner fd (replicate (Z.to_nat len) 0) k with
  | (Ok (n, kernel_buf), k) =>
      if n <=? Z.of_nat (length kernel_buf) then
        match copy_to_user VirtAddr_try_new (mem k) buf_ptr (take (Z.to_nat n) kernel_buf) with
        | Ok m => (Ok n, set_mem m k)
        | _ => (Panic, k)
        end
      else (Panic, k)
  | (Err errno, k) =>
      (Ok (if as_signed 64 errno <? 0 then errno else wrap 64 (- as_signed 64 errno)), k)
  | (Panic, k) => (Panic, k)
  end.

Definition write_inner (buf : list Z) (fd : Z) : sys Z Z :=
  cur ← current_proc_mut;
  match cur with
  | None => st_lift (Err (neg_errno ESRCH))
  | Some (_, process) =>
      file_handle ← st_lift (ok_or (neg_errno EBADF) (get_file_handle process fd));
      st_map_err file_error_to_errno (on_fs (OpenFile_write now file_handle buf))
  end.

Definition sys_write {E} (fd buf_ptr len : Z) : sys E Z := fun k =>
  match copy_from_user VirtAddr_try_new 1 (mem k) buf_ptr len with
  | Ok buf => or_errno (write_inner buf fd) k
  | Err _ => (Ok (neg_errno EFAULT), k)
  | Panic => (Panic, k)
  end.

(** ** fork *)
(** The registers of the child: those of the parent, with 0 in [rax] and interrupts on. *)
Definition fork_child_state (parent : Process) : ProcessState :=
  let child_state := with_rax (state parent) 0 in
  let user_cs := Z.lor (user_code_segment hw) 3 in
  let user_ss := Z.lor (user_data_segment hw) 3 in
  with_frame child_state (rip child_state) (rsp child_state) (Z.lor (rflags child_state) 0x200)
    (if cs child_state =? 0 then user_cs else cs child_state)
    (if ss child_state =? 0 then user_ss else ss child_state).

Definition sys_fork {E} : sys E Z := fun k =>
  match current_proc_mut (E := E) k with
  | (Ok (Some (_, parent)), k) =>
      match fork_from hw now parent (fork_child_state parent) k with
      | (Ok child_process, k) =>
          match push_proc child_process k with
          | (Ok _, k) => (Ok (pid child_process), k)
          | (Err _, k) => (Ok (neg_errno ENOMEM), k)
          | (Panic, k) => (Panic, k)
          end
      | (Err _, k) => (Ok (neg_errno ENOMEM), k)
      | (Panic, k) => (Panic, k)
      end
  | (Ok None, k) => (Ok (neg_errno EAGAIN), k)
  | (_, k) => (Panic, k)
  end.

(** ** exit *)
Definition reparent (dead : Z) (p : Process) : Process :=
  if parent_pid p =? dead then with_parent_pid p 1 else p.

Definition sys_exit {E} (rdi : Z) : sys E SysResult :=
  let exit_code := as_signed 32 (wrap 32 rdi) in
  cur ← current_proc_mut;
  match cur with
  | Some (i, proc) =>
      _ ← put_proc i (with_exit proc (wrap 64 exit_code));
      if pid proc =? 1 then st_lift Panic
      else
        _ ← update (fun k => set_procs (reparent (pid proc) <$> PROCESSES k) k);
        '(next_cr3, next_state) ← switch_to_next hw;
        mret (Switch next_cr3 next_state)
  | None => mret (Ret 0)
  end.

(** ** waitpid *)
(** Taking a zombie out of the table and freeing its address space. *)
Definition reap {E} (idx : nat) : sys E SysResult := fun k =>
  match PROCESSES k !! idx with
  | Some p =>
      match exit_code p with
      | Some code =>
          (Ok (Ret code), set_mem (teardown_address_space (cr3 p) (mem k))
                            (set_procs (swap_remove idx (PROCESSES k)) k))
      | None => (Panic, k)
      end
  | None => (Panic, k)
  end.

(** [schedule_next]: force a switch and halt until the tick. *)
Definition schedule_next {E} : sys E SysResult :=
  _ ← update (fun k => set_sched (force_reschedule (SCHEDULER k)) k);
  mret Halt.

Definition exited (p : Process) : bool := bool_decide (is_Some (exit_code p)).

Definition wait_for {E} (target_pid : Z) : sys E SysResult :=
  k ← st_get;
  let t := wrap 64 target_pid in
  match position (fun p => (pid p =? t) && exited p) (PROCESSES k) with
  | Some idx => reap idx
  | None =>
      if existsb (fun p => pid p =? t) (PROCESSES k) then
        cur ← current_proc_mut;
        _ ← match cur with
            | Some (i, caller) => put_proc i (with_status caller (WaitingFor t))
            | None => mret tt
            end;
        schedule_next
      else mret (Ret (neg_errno ESRCH))
  end.

Definition sys_waitpid {E} (rdi : Z) : sys E SysResult :=
  let target_pid := as_signed 64 rdi in
  k ← st_get;
  let caller_pid := curr_pid k in
  if target_pid =? -1 then
    match position (fun p => (parent_pid p =? caller_pid) && exited p) (PROCESSES k) with
    | Some idx => reap idx
    | None =>
        match List.find (fun p => parent_pid p =? caller_pid) (PROCESSES k) with
        | Some child => wait_for (as_signed 64 (pid child))
        | None => mret (Ret (neg_errno ECHILD))
        end
    end
  else wait_for target_pid.

(** ** getpid, getppid *)
Definition sys_getpid {E} : sys E Z := k ← st_get; mret (curr_pid k).
Definition sys_getppid {E} : sys E Z :=
  cur ← current_proc_mut;
  mret (match cur with Some (_, p) => parent_pid p | None => 0 end).

(** ** getdents64 *)
Definition filetype_to_dtype (filetype : FileType) : Z :=
  match filetype with
  | Fifo => 1 | CharDevice => 2 | Directory => 4 | BlockDevice => 6
  | File => 8 | Symlink => 10 | Socket => 12
  end.
Definition align_up (len : Z) : Z := Z.land (len + 7) (unot 64 7).

Definition name_bytes (s : string) : list Z :=
  (fun c => Z.of_N (Ascii.N_of_ascii c)) <$> String.list_ascii_of_string s.

(** The 280 bytes of a [LinuxDirent64], with its five bytes of padding. *)
Definition dirent_bytes (d_ino d_off d_reclen d_type : Z) (name : list Z) : list Z :=
  Z_to_little_endian 8 8 d_ino ++ Z_to_little_endian 8 8 d_off ++
  Z_to_little_endian 2 8 d_reclen ++ [d_type] ++ resize 256 0 name ++ replicate 5 0.

Fixpoint dirents {E} (m : M) (inos : gmap nat Inode) (dentries : list DirEntry)
    (user_buf buf_size bytes_written offset : Z) : outcome E (outcome unit (Z * Z) * M) :=
  match dentries with
  | [] => Ok (Ok (bytes_written, offset), m)
  | dentry :: rest =>
      let name := name_bytes (de_name dentry) in
      let name_len := Z.min (Z.of_nat (length name)) 255 in
      let reclen := align_up (8 + 8 + 2 + 1 + name_len + 1) in
      if buf_size <? bytes_written + reclen then Ok (Ok (bytes_written, offset), m)
      else
        ino ← unwrap (inos !! de_inode dentry);
        let d := dirent_bytes (num ino) (offset + 1) (wrap 16 reclen)
                   (filetype_to_dtype (de_file_type dentry)) (take (Z.to_nat name_len) name) in
        match copy_to_user VirtAddr_try_new m user_buf d with
        | Ok m' => dirents m' inos rest (wrap 64 (user_buf + reclen)) buf_size
                     (bytes_written + reclen) (offset + 1)
        | Err _ => Ok (Err tt, m)
        | Panic => Panic
        end
  end.

Definition sys_getdents64 {E} (fd_idx user_buf buf_size : Z) : sys E Z := fun k =>
  match current_proc_mut (E := E) k with
  | (Ok None, k) => (Ok (neg_errno ESRCH), k)
  | (Ok (Some (_, proc)), k) =>
      match get_file_handle proc fd_idx with
      | None => (Ok (neg_errno EBADF), k)
      | Some fd =>
          match files (fs k) !! fd with
          | None => (Panic, k)
          | Some f =>
              match op_read_dir (inode f) (fs k) with
              | (Err e, s) => (Ok (file_error_to_errno e), set_fs s k)
              | (Panic, s) => (Panic, set_fs s k)
              | (Ok dentries, s) =>
                  let offset := cursor f in
                  match dirents (E := E) (mem k) (inodes s) (drop (Z.to_nat offset) dentries)
                          user_buf buf_size 0 offset with
                  | Ok (Ok (bytes_written, offset'), m) =>
                      let s' := mkFs (inodes s) (<[fd := set_cursor f offset']> (files s)) (dev s) in
                      (Ok bytes_written, set_mem m (set_fs s' k))
                  | Ok (Err _, m) => (Ok (neg_errno EFAULT), set_mem m (set_fs s k))
                  | Ok (Panic, m) => (Panic, set_mem m (set_fs s k))
                  | Err _ | Panic => (Panic, set_fs s k)
                  end
              end
          end
      end
  | (_, k) => (Panic, k)
  end.

(** ** Dispatch *)
Record SyscallFrame := mkFrame {
  f_rax : Z; f_rbx : Z; f_rcx : Z; f_rdx : Z; f_rsi : Z; f_rdi : Z; f_rbp : Z;
  f_r8 : Z; f_r9 : Z; f_r10 : Z; f_r11 : Z; f_r12 : Z; f_r13 : Z; f_r14 : Z; f_r15 : Z;
  user_rip : Z; user_rflags : Z; user_rsp : Z;
}.

Definition to_process_state (f : SyscallFrame) : ProcessState :=
  mkState (f_rax f) (f_rbx f) (f_rcx f) (f_rdx f) (f_rsi f) (f_rdi f) (f_rbp f) (user_rsp f)
    (f_r8 f) (f_r9 f) (f_r10 f) (f_r11 f) (f_r12 f) (f_r13 f) (f_r14 f) (f_r15 f)
    (user_rip f) (user_rflags f)
    (Z.lor (user_code_segment hw) 3) (Z.lor (user_data_segment hw) 3) (fpu_image hw).

Definition set_IF (f : SyscallFrame) : SyscallFrame :=
  mkFrame (f_rax f) (f_rbx f) (f_rcx f) (f_rdx f) (f_rsi f) (f_rdi f) (f_rbp f)
    (f_r8 f) (f_r9 f) (f_r10 f) (f_r11 f) (f_r12 f) (f_r13 f) (f_r14 f) (f_r15 f)
    (user_rip f) (Z.lor (user_rflags f) 0x200) (user_rsp f).

(** The entries of the table the handlers above register. *)
Definition syscall_entry {E} (num rdi rsi rdx : Z) : option (sys E SysResult) :=
  match num with
  | 0 => Some (ret (sys_read rdi rsi rdx))
  | 1 => Some (ret (sys_write rdi rsi rdx))
  | 3 => Some (ret (sys_close rdi))
  | 8 => Some (ret (sys_lseek rdi rsi rdx))
  | 32 => Some (ret (sys_dup rdi))
  | 33 => Some (ret (sys_dup2 rdi rsi))
  | 39 => Some (ret sys_getpid)
  | 57 => Some (ret sys_fork)
  | 60 => Some (sys_exit rdi)
  | 61 => Some (sys_waitpid rdi)
  | 110 => Some (ret sys_getppid)
  | 217 => Some (ret (sys_getdents64 rdi rsi rdx))
  | _ => None
  end.

(** [others]: the entries of the table that are not modelled here. *)
Definition syscall_main {E} (others : Z -> option (sys E SysResult)) (sframe : SyscallFrame) :
    sys E SysResult :=
  let frame := set_IF sframe in
  let syscall_num := f_rax frame in
  cur ← current_proc_mut;
  _ ← match cur with
      | Some (i, proc) => put_proc i (with_state proc (to_process_state frame))
      | None => mret tt
      end;
  if 256 <=? syscall_num then mret (Ret (neg_errno ENOSYS))
  else
    match syscall_entry syscall_num (f_rdi frame) (f_rsi frame) (f_rdx frame) with
    | Some func => func
    | None => match others syscall_num with
              | Some func => func
              | None => mret (Ret (neg_errno ENOSYS))
              end
    end.
End Syscalls.

(** ** Theorems *)
Section SyscallTheorems.
Context {D M : Type} `{HO : InodeOps D} `{HA : AddressSpaces M} `{HU : UserMemory M}.
Context (hw : Machine) (now : Z) (VirtAddr_try_new : Z -> bool).
Implicit Type k : Kernel D M.

Definition current k (i : nat) (p : Process) : Prop :=
  curr_proc k = Some i /\ PROCESSES k !! i = Some p.

Lemma current_proc_mut_eq {E} k i p :
  current k i p -> @current_proc_mut D M E k = (Ok (Some (i, p)), k).
Proof. intros [Hc Hp]. unfold current_proc_mut. by rewrite Hc, Hp. Qed.

Definition fs_extends (f f' : FsState D) : Prop :=
  files f ⊆ files f' /\ inodes f ⊆ inodes f' /\ dev f' = dev f.
Lemma std_handle_extends {E} perms opts (f : FsState D) :
  exists h f', std_handle now (E := E) perms opts f = (Ok h, f') /\ fs_extends f f'.
Proof.
  eexists _, _. split; [reflexivity|]. split_and!; cbn; [apply insert_subseteq, next_key_fresh..|done].
Qed.

Lemma Process_new_eq {E} parent nm k :
  NEXT_PID k + 1 < 2 ^ 64 ->
  exists p f', @Process_new D M hw now E parent nm k =
      (Ok p, set_next_pid (NEXT_PID k + 1) (set_fs f' k)) /\ fs_extends (fs k) f' /\
    pid p = NEXT_PID k /\ parent_pid p = pid parent /\ name p = nm /\ cwd p = cwd parent /\
    exit_code p = None /\ envp p = envp parent /\ argv p = [].
Proof.
  intros Hn. destruct (std_handle_extends (E := E) OWNER_READ (Z.lor READ_ONLY TRUNCATE) (fs k)) as (h0 & f0 & H0 & E0).
  destruct (std_handle_extends (E := E) OWNER_WRITE READ_WRITE f0) as (h1 & f1 & H1 & E1).
  destruct (std_handle_extends (E := E) OWNER_WRITE READ_WRITE f1) as (h2 & f2 & H2 & E2).
  unfold Process_new, mbind, st_bind, st_get, on_fs. rewrite H0. cbn [fs set_fs]. rewrite H1. cbn [fs set_fs]. rewrite H2.
  unfold st_lift, store_next_pid, mret, st_ret. rewrite uadd_eq by done. do 2 eexists. split; [reflexivity|]. split; [|done].
  destruct E0 as (? & ? & ?), E1 as (? & ? & ?), E2 as (? & ? & ?). split_and!; [by do 2 (etrans; [eassumption|])..|congruence].
Qed.

(** C18: [fork] appends one process to the table and leaves the others alone.  The child
    has a pid no process had, the caller as its parent, all of the caller's registers and its
    FPU state but for 0 in [rax] and interrupts turned on in [rflags] (and user selectors where
    the caller has none), the cloned address space, the caller's open files, directory,
    environment, stack and priority, and no arguments; the caller gets the child's pid.  Open
    files, inodes and the scheduler stay; only new inodes and files appear. *)
Theorem fork_creates_child k i p child_cr3 m' :
  current k i p -> (forall q, q ∈ PROCESSES k -> pid q < NEXT_PID k) ->
  clone_address_space (mem k) = (Ok child_cr3, m') ->
  (length (PROCESSES k) < MAX_PROCESSES)%nat -> NEXT_PID k + 1 < 2 ^ 64 ->
  let s := state p in
  let child_state := mkState 0 (rbx s) (rcx s) (rdx s) (rsi s) (rdi s) (rbp s) (rsp s)
    (r8 s) (r9 s) (r10 s) (r11 s) (r12 s) (r13 s) (r14 s) (r15 s) (rip s) (Z.lor (rflags s) 0x200)
    (if cs s =? 0 then Z.lor (user_code_segment hw) 3 else cs s)
    (if ss s =? 0 then Z.lor (user_data_segment hw) 3 else ss s) (fxsave s) in
  let child := mkProcess (NEXT_PID k) (pid p) (name p) child_state Ready child_cr3 (end_ p) (entry_point p)
    (file_handles p) (cwd p) (load_bias p) true (user_stack_top p) None (envp p) [] (priority p) in
  (forall q, q ∈ PROCESSES k -> pid q <> pid child) /\
  exists f', fs_extends (fs k) f' /\
    @sys_fork D M HA hw now unit k = (Ok (NEXT_PID k),
      mkKernel (PROCESSES k ++ [child]) (NEXT_PID k + 1) (SCHEDULER k) (curr_pid k) (curr_proc k) (flags k) f' m').
Proof.
  intros Hcur Hpids Hclone Hlen Hnext s cst child. split; [intros q Hq Heq; specialize (Hpids q Hq); cbn in *; lia|].
  unfold sys_fork. rewrite (current_proc_mut_eq k i p) by done. unfold fork_from, mbind, st_bind, on_mem. rewrite Hclone.
  destruct (@Process_new_eq unit p (name p) (set_mem m' k)) as (c & f' & -> & Hf & Hpid & Hpar & Hnm & Hcwd & Hex & Henv & Hargv); [done|].
  exists f'. split; [done|]. unfold push_proc, mret, st_ret. cbn [PROCESSES set_next_pid set_fs set_mem pid].
  rewrite (proj2 (Nat.ltb_lt _ _)) by done. rewrite Hpid, Hpar, Hnm, Hcwd, Hex, Henv, Hargv. done.
Qed.

Lemma lseek_set_eq {E} k i p fd f file pos :
  current k i p -> get_file_handle p fd = Some f -> files (fs k) !! f = Some file ->
  0 <= pos < 2 ^ 63 ->
  @sys_lseek D M E fd pos 0 k =
    (Ok pos, set_fs (mkFs (inodes (fs k)) (<[f := set_cursor file pos]> (files (fs k))) (dev (fs k))) k).
Proof.
  intros Hcur Hf Hfile Hp. unfold sys_lseek, or_errno, seek_inner, mbind, st_bind.
  rewrite (current_proc_mut_eq k i p) by done. unfold st_lift. rewrite Hf. cbn -[OpenFile_seek].
  unfold as_signed. rewrite (proj2 (Z.ltb_lt _ _)) by (cbn; lia).
  rewrite wrap_small by (unfold is_u; lia).
  unfold st_map_err, on_fs, OpenFile_seek, mbind, st_bind, get_file. rewrite Hfile. done.
Qed.

Lemma lseek_cur_eq {E} k i p fd f file :
  current k i p -> get_file_handle p fd = Some f -> files (fs k) !! f = Some file ->
  is_u 64 (cursor file) ->
  exists k', @sys_lseek D M E fd 0 1 k = (Ok (cursor file), k').
Proof.
  intros Hcur Hf Hfile Hp. unfold sys_lseek, or_errno, seek_inner, mbind, st_bind.
  rewrite (current_proc_mut_eq k i p) by done. unfold st_lift. rewrite Hf. cbn -[OpenFile_seek].
  unfold st_map_err, on_fs, OpenFile_seek, mbind, st_bind, get_file. rewrite Hfile.
  cbn -[seek_from]. unfold st_lift. change (as_signed 64 0) with 0.
  rewrite seek_from_clamp by (done || lia). unfold clamp_u64, umax, is_u in *.
  rewrite Z.add_0_r, Z.min_r, Z.max_r by lia. by eexists.
Qed.

(** Duplicating a descriptor yields one that was not in use and that shares the
    file offset: a position set through the old one is the position read through the
    new one. *)
Theorem dup_shares_offset k i p fd f file pos :
  current k i p -> get_file_handle p fd = Some f -> files (fs k) !! f = Some file ->
  (forall x, is_Some (file_handles p !! x) -> 0 <= x) -> default 2 (max_key (file_handles p)) + 1 < 2 ^ 32 ->
  0 <= pos < 2 ^ 63 ->
  exists fd' k1 k2 k3, @sys_dup D M unit fd k = (Ok fd', k1) /\
    get_file_handle p fd' = None /\
    @sys_lseek D M unit fd pos 0 k1 = (Ok pos, k2) /\
    @sys_lseek D M unit fd' 0 1 k2 = (Ok pos, k3).
Proof.
  intros Hcur Hf Hfile Hpos Hmax Hp.
  pose proof (uadd_eq (E := unit) 32 _ 1 Hmax) as Hnext. fold (@next_fd unit (file_handles p)) in Hnext.
  set (fd' := default 2 (max_key (file_handles p)) + 1) in *.
  pose proof (next_fd_fresh _ _ Hnext) as Hfresh.
  pose proof (next_fd_range _ _ Hnext Hpos) as Hrange. pose proof (wrap_small _ _ Hrange) as Hwrap.
  unfold get_file_handle in *.
  assert (wrap 32 fd <> fd') as Hne by (intros E; rewrite E in Hf; congruence).
  set (p1 := with_file_handles p (<[fd' := f]> (file_handles p))).
  set (k1 := set_procs (<[i := p1]> (PROCESSES k)) k).
  assert (current k1 i p1) as Hcur1.
  { destruct Hcur as [Hc Hi]. split; [done|]. apply list_lookup_insert_eq. by eapply lookup_lt_Some. }
  assert (get_file_handle p1 fd = Some f) as Hf1.
  { unfold get_file_handle, p1. cbn. by rewrite lookup_insert_ne. }
  assert (get_file_handle p1 fd' = Some f) as Hf2.
  { unfold get_file_handle, p1. cbn. by rewrite Hwrap, lookup_insert_eq. }
  set (k2 := set_fs (mkFs (inodes (fs k)) (<[f := set_cursor file pos]> (files (fs k))) (dev (fs k))) k1).
  destruct (@lseek_cur_eq unit k2 i p1 fd' f (set_cursor file pos)) as [k3 Hk3];
    [done|done|apply lookup_insert_eq|unfold is_u; cbn; lia|].
  exists fd', k1, k2, k3. split_and!.
  - unfold sys_dup, mbind at 1, st_bind. rewrite (current_proc_mut_eq k i p) by done.
    unfold dup_file_handle. rewrite Hf, Hnext. cbn. rewrite Hwrap, Hfresh. done.
  - by rewrite Hwrap.
  - by apply (lseek_set_eq k1 i p1 fd f file).
  - exact Hk3.
Qed.

(** C20: waiting for a process that has exited returns its exit code at once, takes
    exactly that process out of the table (in some order) and frees its address space. *)
Theorem waitpid_reaps k p code :
  NoDup (pid <$> PROCESSES k) -> p ∈ PROCESSES k -> exit_code p = Some code -> 0 <= pid p < 2 ^ 63 ->
  exists k', @sys_waitpid D M HA unit (pid p) k = (Ok (Ret code), k') /\
    p :: PROCESSES k' ≡ₚ PROCESSES k /\ mem k' = teardown_address_space (cr3 p) (mem k) /\
    curr_proc k' = curr_proc k.
Proof.
  intros Hnd Hp Hex Hpid. unfold sys_waitpid, mbind at 1, st_bind, st_get.
  assert (as_signed 64 (pid p) = pid p) as ->.
  { unfold as_signed. by rewrite (proj2 (Z.ltb_lt _ _)) by (cbn; lia). }
  rewrite (proj2 (Z.eqb_neq _ _)) by lia. unfold wait_for, mbind at 1, st_bind, st_get.
  rewrite wrap_small by (unfold is_u; lia).
  destruct (position _ (PROCESSES k)) as [idx|] eqn:Hpos.
  - apply position_Some in Hpos as [(q & Hq & [Hqp%Z.eqb_eq _]%andb_true_iff) _].
    assert (q = p) as ->.
    { apply list_elem_of_lookup in Hp as [j Hj]. assert (idx = j) as ->; [|congruence].
      apply (NoDup_lookup _ _ _ (pid p) Hnd); rewrite list_lookup_fmap; [rewrite Hq|rewrite Hj];
        cbn; congruence. }
    unfold reap. rewrite Hq, Hex. eexists. split; [done|]. split; [|done].
    by apply swap_remove_perm.
  - exfalso. rewrite position_None in Hpos. specialize (Hpos p Hp). cbn in Hpos.
    rewrite Z.eqb_refl in Hpos. unfold exited in Hpos. by rewrite Hex in Hpos.
Qed.

(** An exit is the end of the process, the reparenting of its children and a switch. *)
Lemma sys_exit_eq k j child rdi :
  current k j child -> pid child <> 1 ->
  let code := wrap 64 (as_signed 32 (wrap 32 rdi)) in
  let procs := reparent (pid child) <$> <[j := with_exit child code]> (PROCESSES k) in
  @sys_exit D M hw unit rdi k =
    ('(next_cr3, next_state) ← switch_to_next hw; mret (Switch next_cr3 next_state)) (set_procs procs k).
Proof.
  intros Hcur Hn1 code procs. unfold sys_exit, mbind at 1, st_bind. rewrite (current_proc_mut_eq k j child) by done.
  unfold mbind at 1, put_proc. rewrite (proj2 (Z.eqb_neq _ _)) by done. done.
Qed.

(** The table of an exit: the child is its zombie, and saving the context changes nothing. *)
Section ExitTable.
Context (k : Kernel D M) (i j : nat) (parent child : Process) (code : Z).
Context (Hnd : NoDup (pid <$> PROCESSES k)) (Hj : PROCESSES k !! j = Some child).
Let procs := reparent (pid child) <$> <[j := with_exit child code]> (PROCESSES k).
Let zombie := reparent (pid child) (with_exit child code).

Lemma exit_zombie : pid zombie = pid child /\ status zombie = Exited /\ exit_code zombie = Some code.
Proof using. unfold zombie, reparent. by destruct (_ =? _). Qed.
Lemma exit_table_pids : pid <$> procs = pid <$> PROCESSES k.
Proof using Hj.
  unfold procs. rewrite <-list_fmap_compose. etrans; [|by apply (fmap_pid_insert _ j child (with_exit child code))].
  apply list_fmap_ext. intros n x _. cbn. unfold reparent. by destruct (_ =? _).
Qed.
Lemma exit_table_child : procs !! j = Some zombie.
Proof using Hj. unfold procs. rewrite list_lookup_fmap, list_lookup_insert_eq by (by eapply lookup_lt_Some). done. Qed.
Lemma exit_target : target_idx procs (pid child) = Some j.
Proof using Hnd Hj.
  unfold target_idx. destruct (position _ procs) as [n|] eqn:Hpos.
  - apply position_Some in Hpos as [(q & Hq & Hqp%Z.eqb_eq) _]. f_equal. rewrite <-exit_table_pids in Hnd.
    apply (NoDup_lookup _ _ _ (pid child) Hnd); rewrite list_lookup_fmap; [rewrite Hq|rewrite exit_table_child]; cbn; [congruence|].
    by rewrite (proj1 exit_zombie).
  - rewrite position_None in Hpos. specialize (Hpos _ (list_elem_of_lookup_2 _ _ _ exit_table_child)). cbn in Hpos.
    by rewrite (proj1 exit_zombie), Z.eqb_refl in Hpos.
Qed.
Lemma exit_target_code : target_exit procs (pid child) = Some code.
Proof using Hnd Hj. unfold target_exit. rewrite exit_target. cbn. rewrite exit_table_child. apply exit_zombie. Qed.
Lemma exit_save self cs : current_pid self = Some (pid child) -> save_current self cs procs = procs.
Proof using Hnd Hj.
  intros Hc. unfold save_current. rewrite Hc. fold (target_idx procs (pid child)). rewrite exit_target, exit_table_child.
  by rewrite (proj1 (proj2 exit_zombie)).
Qed.
Lemma exit_parent_eligible :
  PROCESSES k !! i = Some parent -> status parent = WaitingFor (pid child) -> i <> j -> priority parent < U8_MAX ->
  procs !! i = Some (reparent (pid child) parent) /\ eligible (flags k) procs (reparent (pid child) parent) = true.
Proof using Hnd Hj.
  intros Hi Hst Hne Hprio. split.
  - unfold procs. by rewrite list_lookup_fmap, list_lookup_insert_ne, Hi.
  - assert (status (reparent (pid child) parent) = WaitingFor (pid child) /\ priority (reparent (pid child) parent) = priority parent) as [Hs Hp]
      by (unfold reparent; by destruct (_ =? _)).
    unfold eligible, runnable. rewrite Hs, Hp, exit_target_code. cbn. by apply Z.ltb_lt.
Qed.
End ExitTable.

(** C19: a process exits while its parent waits for it, in a table of any size.  The exit
    switches to the first process of the best priority among those that may run; the waiting
    parent is one of these.  When it is that choice it is resumed with the exit code
    (sign-extended from 32 bits) in [rax] and its other registers as saved, it is recorded as the
    current process, and the zombie is gone from the table while the others stay, the children of
    the dead process handed to process 1. *)
Theorem exit_wakes_waiting_parent k i j parent child rdi :
  NoDup (pid <$> PROCESSES k) -> current k j child -> current_pid (SCHEDULER k) = Some (pid child) ->
  PROCESSES k !! i = Some parent -> status parent = WaitingFor (pid child) -> i <> j ->
  pid child <> 1 -> priority parent < U8_MAX -> times_scheduled (SCHEDULER k) + 1 < 2 ^ 64 ->
  let code := wrap 64 (as_signed 32 (wrap 32 rdi)) in
  let procs := reparent (pid child) <$> <[j := with_exit child code]> (PROCESSES k) in
  let parent' := reparent (pid child) parent in
  (exists b p s k', best_choice (flags k) procs b p /\ priority p <= priority parent /\
     @sys_exit D M hw unit rdi k = (Ok (Switch (cr3 p) s), k') /\ current_pid (SCHEDULER k') = Some (pid p)) /\
  (best_choice (flags k) procs i parent' ->
   exists k', @sys_exit D M hw unit rdi k = (Ok (Switch (cr3 parent) (with_rax (state parent) code)), k') /\
     current_pid (SCHEDULER k') = Some (pid parent) /\
     PROCESSES k' = delete j (<[i := with_status (with_state parent' (with_rax (state parent) code)) Running]> procs)).
Proof.
  intros Hnd Hcur Hc Hi Hst Hij Hn1 Hprio Hn code procs parent'. pose proof Hcur as [_ Hj].
  destruct (exit_parent_eligible k i j parent child code Hnd Hj Hi Hst Hij Hprio) as [Hi' Hel]. fold procs parent' in Hi', Hel.
  assert (priority parent' = priority parent /\ cr3 parent' = cr3 parent /\ state parent' = state parent /\
    pid parent' = pid parent /\ status parent' = WaitingFor (pid child)) as (Hpp & Hpc & Hps & Hpi & Hpt)
    by (unfold parent', reparent; by destruct (_ =? _)).
  set (k1 := set_sched (force_reschedule (SCHEDULER k)) (set_procs procs k)).
  assert (save_current (SCHEDULER k1) (ProcessState_default hw) (PROCESSES k1) = procs) as Hsave by (by apply exit_save).
  assert (PROCESSES k1 <> []) as Hne by (change (procs <> []); intros H0; by rewrite H0 in Hi').
  rewrite (sys_exit_eq k j child rdi Hcur Hn1). fold code procs. unfold switch_to_next, mbind, st_bind, update.
  change (set_sched (force_reschedule (SCHEDULER (set_procs procs k))) (set_procs procs k)) with k1. split.
  - destruct (@schedule_cases D M hw unit (ProcessState_default hw) k1) as [(b & p & _ & Hb & ->)|(_ & Hno & _)]; [cbn; lia|done|done|..].
    + rewrite Hsave in Hb. exists b, p. do 2 eexists. split; [done|]. split; [|done]. rewrite <-Hpp. by apply (proj2 (proj2 Hb) i).
    + rewrite Hsave in Hno. specialize (Hno parent' (list_elem_of_lookup_2 _ _ _ Hi')). change (flags k1) with (flags k) in Hno. congruence.
  - intros Hbest. destruct (@schedule_wakes_waiter D M hw unit (ProcessState_default hw) k1 i parent' (pid child)) as (k' & -> & Hcp & Hpr);
      [cbn; lia|done|done|by rewrite Hsave|done|]. rewrite Hsave in *. unfold procs in Hpr |- *.
    rewrite exit_target in Hpr by done. rewrite exit_target_code in Hpr |- * by done. exists k'. rewrite Hpc, Hps, Hpi in *. done.
Qed.

(** [read] unwraps the copy to user memory: whenever the file delivers data and the
    buffer of the caller is not a writable user range, the kernel panics. *)
Theorem read_to_bad_pointer_panics (Hcanon : canonical VirtAddr_try_new) fd ptr len k n buf k1 :
  @read_inner D M HO now fd (replicate (Z.to_nat (Z.min len 0x10000)) 0) k = (Ok (n, buf), k1) ->
  0 < n <= Z.of_nat (length buf) -> n < 2 ^ 64 -> is_u 64 ptr -> ~ range_ok (mem k1) ptr n ->
  @sys_read D M HO HU now VirtAddr_try_new unit fd ptr len k = (Panic, k1).
Proof.
  intros Hr Hn Hmax Hp Hbad. unfold sys_read. rewrite Hr. rewrite (proj2 (Z.leb_le _ _)) by lia.
  unfold copy_to_user. rewrite length_take, Nat.min_l, Z2Nat.id by lia.
  rewrite (proj2 (Z.eqb_neq _ _)) by lia.
  destruct (user_range_spec VirtAddr_try_new Hcanon (E := unit) (mem k1) ptr n Hp) as (b & -> & Hb);
    [unfold is_u; lia|].
  destruct b; [|done]. by destruct (Hbad (proj1 Hb eq_refl)).
Qed.
End SyscallTheorems.

(** ** A small kernel *)
#[export] Instance flat_spaces : AddressSpaces FlatMem := {
  clone_address_space m := (Ok 0x8000, m);
  new_user_address_space m := (Ok 0x9000, m);
  teardown_address_space c m := m;
}.
Definition shell : Process :=
  mkProcess 2 1 "sh" (ProcessState_default sample_hw) Running 0x2000 0 0 {[ 3 := 3%nat; 4 := 4%nat ]}
    0 0 true 0 None [] [] 15.
Definition zombie : Process := sample_proc 5 Exited (Some 42) 15.
Definition small_kernel (ps : list Process) (slot : nat) : Kernel (gmap nat (list Z)) FlatMem :=
  mkKernel ps 9 (mkScheduler (Some 2) 0 5 0) 2 (Some slot) (fun _ => true) sample_fs sample_mem.

Lemma fork_creates_child_witness :
  exists k' child, sys_fork sample_hw 0 (E := unit) (small_kernel [shell] 0) = (Ok 9, k') /\
    PROCESSES k' = [shell] ++ [child] /\ pid child = 9 /\ parent_pid child = 2 /\
    files sample_fs ⊆ files (fs k').
Proof.
  destruct (fork_creates_child sample_hw 0 (small_kernel [shell] 0) 0 shell 0x8000 sample_mem)
    as (H1 & f' & (H2 & _) & H3).
  - split; reflexivity.
  - intros q Hq. cbn in Hq. apply list_elem_of_singleton in Hq as ->. vm_compute. reflexivity.
  - reflexivity.
  - cbn. unfold MAX_PROCESSES. lia.
  - vm_compute. reflexivity.
  - eexists _, _. split; [exact H3|]. split; [reflexivity|]. split; [reflexivity|]. split; [reflexivity|exact H2].
Defined.

Lemma dup_shares_offset_witness :
  exists fd' k1 k2 k3, sys_dup (E := unit) 3 (small_kernel [shell] 0) = (Ok fd', k1) /\
    get_file_handle shell fd' = None /\
    sys_lseek (E := unit) 3 100 0 k1 = (Ok 100, k2) /\ sys_lseek (E := unit) fd' 0 1 k2 = (Ok 100, k3).
Proof.
  apply (dup_shares_offset (small_kernel [shell] 0) 0 shell 3 3 (mkOpenFile 0 1 READ_WRITE) 100).
  - split; reflexivity.
  - reflexivity.
  - reflexivity.
  - intros x Hx. cbn in Hx. destruct (decide (x = 3)) as [->|]; [lia|].
    destruct (decide (x = 4)) as [->|]; [lia|].
    rewrite lookup_insert_ne, lookup_singleton_ne in Hx by done. by destruct Hx.
  - vm_compute. reflexivity.
  - lia.
Defined.

Lemma waitpid_reaps_witness :
  exists k', sys_waitpid (E := unit) 5 (small_kernel [zombie; shell] 1) = (Ok (Ret 42), k') /\
    zombie :: PROCESSES k' ≡ₚ [zombie; shell].
Proof.
  destruct (waitpid_reaps (small_kernel [zombie; shell] 1) zombie 42) as (k' & H1 & H2 & _).
  - apply (bool_decide_unpack _). vm_compute. exact I.
  - cbn. left.
  - reflexivity.
  - cbn. lia.
  - exists k'. split; [exact H1|exact H2].
Defined.

Definition waiting_init : Process := sample_proc 1 (WaitingFor 2) None 15.

(** Process 1 waits for the shell, which runs; a ready process of lower urgency and the idle
    task are in the table. *)
Definition wait_kernel : Kernel (gmap nat (list Z)) FlatMem :=
  small_kernel [idle_entry sample_hw 0; waiting_init; sample_proc 5 Ready None 20; shell] 3.
Lemma exit_wakes_waiting_parent_witness :
  exists k', sys_exit sample_hw (E := unit) 0xFFFFFFFF wait_kernel =
      (Ok (Switch 0x1000 (with_rax (ProcessState_default sample_hw) (umax 64))), k') /\
    (pid <$> PROCESSES k') = [0; 1; 5].
Proof.
  destruct (exit_wakes_waiting_parent sample_hw wait_kernel 1 3 waiting_init shell 0xFFFFFFFF) as (_ & H).
  - apply (bool_decide_unpack _). vm_compute. exact I.
  - split; reflexivity.
  - reflexivity.
  - reflexivity.
  - reflexivity.
  - lia.
  - vm_compute. congruence.
  - vm_compute. reflexivity.
  - vm_compute. reflexivity.
  - destruct H as (k' & H1 & _ & H2).
    + split; [reflexivity|]. split; [reflexivity|]. intros [|[|[|[|n]]]] q Hq Hel; cbn in Hq; simplify_eq; vm_compute in Hel; try discriminate;
        vm_compute; split; (discriminate || congruence || lia).
    + exists k'. split; [exact H1|]. rewrite H2. reflexivity.
Defined.

Lemma read_to_bad_pointer_panics_witness :
  exists k1, sys_read 0 canon (E := unit) 3 0x1000 2 (small_kernel [shell] 0) = (Panic, k1).
Proof.
  eexists.
  apply (read_to_bad_pointer_panics 0 canon canon_canonical 3 0x1000 2 (small_kernel [shell] 0) 2 [11; 12]).
  - vm_compute. reflexivity.
  - cbn. lia.
  - vm_compute. reflexivity.
  - split; vm_compute; congruence.
  - intros (_ & _ & _ & Hall). specialize (Hall 0x1000 ltac:(lia)). vm_compute in Hall. discriminate.
Defined.

(** A process can make the kernel panic with two calls: [dup2] to the largest
    descriptor, and then any call that needs the next one. *)
Theorem dup2_then_dup_panics :
  exists k1, sys_dup2 (E := unit) 3 0xFFFFFFFF (small_kernel [shell] 0) = (Ok 0xFFFFFFFF, k1) /\
    (sys_dup (E := unit) 3 k1).1 = Panic.
Proof. eexists. split; [vm_compute; reflexivity|vm_compute; reflexivity]. Qed.

(** Reaping with [waitpid] moves the table under the pointer to the caller: here the
    caller stands last, and after the call the current-process pointer is past the end of
    the table. *)
Theorem waitpid_strands_current_process :
  exists k1, sys_waitpid (E := unit) 5 (small_kernel [zombie; shell] 1) = (Ok (Ret 42), k1) /\
    PROCESSES k1 = [shell] /\ curr_proc k1 = Some 1%nat /\
    (current_proc_mut (E := unit) k1).1 = Panic.
Proof. eexists. do 3 (split; [vm_compute; reflexivity|]). vm_compute. reflexivity. Qed.

(** A directory with one entry "a" (inode 0). *)
Definition one_entry_dir : InodeOps unit := {|
  op_read i o b := st_lift (Err IsADirectory);
  op_write i o b := st_lift (Err IsADirectory);
  op_truncate i n := st_lift (Err IsADirectory);
  op_sync i := mret tt;
  op_unlink i name := st_lift (Err UnsupportedOperation);
  op_lookup i name := st_lift (Err NotFound);
  op_create i name k p := st_lift (Err UnsupportedOperation);
  op_read_dir i := mret [mkDirEntry "a" 0 0 File];
  op_stat i := st_lift (Err UnsupportedOperation);
|}.
Definition dir_kernel : Kernel unit FlatMem :=
  mkKernel [shell] 9 (mkScheduler (Some 2) 0 5 0) 2 (Some 0%nat) (fun _ => true)
    (mkFs {[ 0%nat := mkInode 7 File 5 0x180 1 0 0 0 0 0 ]} {[ 3%nat := mkOpenFile 0 0 READ_ONLY ]} tt)
    (mkFlat [0x5000] {[ 0x5100 := 77 ]}).

(** [getdents64] writes past the buffer it is given.  A buffer of 24 bytes at 0x5080
    holds the one entry of 24 bytes, the call reports 24 bytes, and yet the byte at 0x5100,
    well outside the buffer, is overwritten: every record is copied at its full 280 bytes. *)
Theorem getdents_writes_past_buffer :
  exists k1, @sys_getdents64 unit FlatMem one_entry_dir flat_memory canon unit 3 0x5080 24 dir_kernel =
      (Ok 24, k1) /\ load (mem dir_kernel) 0x5100 = 77 /\ load (mem k1) 0x5100 = 0.
Proof. eexists. do 2 (split; [vm_compute; reflexivity|]). vm_compute. reflexivity. Qed.
