(* ===== verification/Vfs.v ===== *)
(** * The virtual file system (zenos-kernel/src/disk/vfs.rs, syscall/open.rs) *)
From S2P Require Import Prelude PageAlloc OpenFile Process UserMem.
Open Scope string_scope.
Open Scope Z_scope.

(** ** Paths *)
Definition slash : Ascii.ascii := Ascii.ascii_of_nat 47.

(** [split('/')]: always at least one part. *)
Fixpoint split_slash (s : string) : list string :=
  match s with
  | EmptyString => [""]
  | String c s =>
      if Ascii.eqb c slash then "" :: split_slash s
      else match split_slash s with
           | h :: t => String c h :: t
           | [] => [String c ""]
           end
  end.

(** One component of a path: skipped, removing the last one, or pushed. *)
Definition push_part (components : list string) (part : string) : list string :=
  if bool_decide (part = "" \/ part = ".") then components
  else if bool_decide (part = "..") then removelast components
  else components ++ [part].

Definition path_components (path : string) : list string :=
  fold_left push_part (split_slash path) [].

Definition normalize_path (path : string) : string :=
  String slash (String.concat "/" (path_components path)).

(** [trim_start_matches('/')]. *)
Fixpoint trim_slashes (s : string) : string :=
  match s with
  | String c s' => if Ascii.eqb c slash then trim_slashes s' else s
  | EmptyString => ""
  end.

Fixpoint string_drop (n : nat) (s : string) : string :=
  match n, s with
  | S n, String _ s => string_drop n s
  | _, _ => s
  end.

(** The parts of [path[mount_point.len()..]]. *)
Definition relative_parts (mount_point normalized : string) : list string :=
  filter (fun p => p <> "")
    (split_slash (trim_slashes (string_drop (String.length mount_point) normalized))).

(** ** Mounts *)
Section Vfs.
(** The type of file system drivers, and their root directories. *)
Context {F D : Type} `{InodeOps D} (fs_root : F -> st (FsState D) FileError nat).

(** The map is iterated in the order of its keys; the list is in that order. *)
Abbreviation VFS := (list (string * F)).
Implicit Type v : VFS.

Definition get_fs v (path : string) : option F :=
  snd <$> List.find (fun e => String.eqb e.1 path) v.

(** Insertion keeps the keys in order. *)
Fixpoint vfs_insert (path : string) (f : F) v : VFS :=
  match v with
  | [] => [(path, f)]
  | (p, g) :: v => if String.ltb path p then (path, f) :: (p, g) :: v else (p, g) :: vfs_insert path f v
  end.

Definition mount v (path : string) (f : F) : outcome FileError VFS :=
  match get_fs v path with
  | Some _ => Err AlreadyExists
  | None => Ok (vfs_insert path f v)
  end.

Definition unmount v (path : string) : outcome FileError VFS :=
  match get_fs v path with
  | Some _ => Ok (List.filter (fun e => negb (String.eqb e.1 path)) v)
  | None => Err NotFound
  end.

Definition root_dir v : st (FsState D) FileError nat :=
  f ← st_lift (ok_or NotFound (get_fs v "/"));
  fs_root f.

Definition better (normalized_path : string) (best_match : option (string * F)) (e : string * F) :
    option (string * F) :=
  if String.prefix e.1 normalized_path then
    match best_match with
    | Some (best_mount, _) =>
        if Nat.ltb (String.length best_mount) (String.length e.1) then Some e else best_match
    | None => Some e
    end
  else best_match.

Definition path_to_fs v (path : string) : option (string * F) :=
  fold_left (better (normalize_path path)) v None.

(** ** Lookup *)
(** The directories on the way: each must carry the permission bits [need]. *)
Fixpoint walk_dirs (need : Z) (dir_inode : nat) (parts : list string) : st (FsState D) FileError nat :=
  match parts with
  | [] => mret dir_inode
  | part :: parts =>
      di ← op_lookup dir_inode part;
      ino ← get_inode di;
      if contains (perms ino) need then walk_dirs need di parts
      else st_lift (Err PermissionDenied)
  end.

Definition open_file v (path : string) : st (FsState D) FileError nat :=
  let normalized_path := normalize_path path in
  '(mount_point, f) ← st_lift (ok_or NotFound (path_to_fs v normalized_path));
  dir_inode ← fs_root f;
  let parts := relative_parts mount_point normalized_path in
  match last parts with
  | None => mret dir_inode
  | Some name =>
      dir_inode ← walk_dirs OWNER_EXEC dir_inode (removelast parts);
      file_inode ← op_lookup dir_inode name;
      ino ← get_inode file_inode;
      if contains (perms ino) OWNER_READ then mret file_inode
      else st_lift (Err PermissionDenied)
  end.

Definition create_file v (path : string) (perms : Z) : st (FsState D) FileError nat :=
  let normalized_path := normalize_path path in
  '(mount_point, f) ← st_lift (ok_or NotFound (path_to_fs v normalized_path));
  dir_inode ← fs_root f;
  let parts := relative_parts mount_point normalized_path in
  match last parts with
  | None => mret dir_inode
  | Some name =>
      dir_inode ← walk_dirs (Z.lor OWNER_EXEC OWNER_WRITE) dir_inode (removelast parts);
      op_create dir_inode name File perms
  end.
End Vfs.

(** ** Normal forms of paths *)
Definition slash_free (s : string) : Prop := split_slash s = [s].
Definition component (s : string) : Prop := slash_free s /\ s <> "" /\ s <> "." /\ s <> "..".

Lemma split_nonempty s : split_slash s <> [].
Proof. destruct s as [|c s]; cbn; [done|]. destruct (Ascii.eqb c slash); [done|]. by destruct (split_slash s). Qed.

Lemma split_parts_free s : Forall slash_free (split_slash s).
Proof.
  induction s as [|c s IH]; cbn; [by repeat constructor|].
  destruct (Ascii.eqb c slash) eqn:Hc; [by constructor|].
  destruct (split_slash s) as [|h t] eqn:Hs; [by apply split_nonempty in Hs|].
  apply Forall_cons in IH as [Hh Ht]. constructor; [|done].
  unfold slash_free in *. cbn. by rewrite Hc, Hh.
Qed.

Lemma split_app a b : slash_free a -> split_slash (a +:+ String slash b) = a :: split_slash b.
Proof.
  unfold slash_free. induction a as [|c a IH]; [done|]. cbn [split_slash].
  destruct (Ascii.eqb c slash) eqn:Hc; [done|]. intros Ha.
  destruct (split_slash a) as [|h t] eqn:Hs; [by apply split_nonempty in Hs|].
  injection Ha as -> ->.
  change (String c a +:+ String slash b) with (String c (a +:+ String slash b)).
  cbn [split_slash]. by rewrite Hc, IH.
Qed.

Lemma split_concat cs : cs <> [] -> Forall slash_free cs -> split_slash (String.concat "/" cs) = cs.
Proof.
  induction cs as [|c cs IH]; [done|]. intros _ [Hc Hcs]%Forall_cons.
  destruct cs as [|d cs]; [exact Hc|].
  change (String.concat "/" (c :: d :: cs)) with (c +:+ (String slash (String.concat "/" (d :: cs)))).
  rewrite split_app by done. by rewrite IH.
Qed.

Lemma push_part_component cs p : component p -> push_part cs p = (cs ++ [p])%list.
Proof.
  intros (_ & ? & ? & ?). unfold push_part. rewrite !bool_decide_false; naive_solver.
Qed.

Lemma Forall_removelast {A} (P : A -> Prop) l : Forall P l -> Forall P (removelast l).
Proof. induction 1 as [|x l Hx Hl IH]; cbn; [done|]. destruct l; constructor; auto. Qed.

Lemma push_part_ok cs p : slash_free p -> Forall component cs -> Forall component (push_part cs p).
Proof.
  intros Hp Hcs. unfold push_part. repeat case_bool_decide; [done|by apply Forall_removelast|].
  apply Forall_app. split; [done|]. repeat constructor; naive_solver.
Qed.

Lemma fold_push_components ps cs :
  Forall component ps -> fold_left push_part ps cs = (cs ++ ps)%list.
Proof.
  intros Hps. revert cs. induction Hps as [|p ps Hp Hps IH]; intros cs; cbn; [by rewrite app_nil_r|].
  rewrite push_part_component, IH by done. by rewrite <-app_assoc.
Qed.

Lemma path_components_ok path : Forall component (path_components path).
Proof.
  unfold path_components. assert (Forall component []) as Hnil by constructor. revert Hnil.
  generalize (split_parts_free path). generalize (@nil string). generalize (split_slash path).
  intros ps. induction ps as [|p ps IH]; intros cs Hps Hcs; cbn; [done|].
  apply Forall_cons in Hps as [Hp Hps]. auto using push_part_ok.
Qed.

Lemma components_of_normal cs :
  Forall component cs -> path_components (String slash (String.concat "/" cs)) = cs.
Proof.
  intros Hcs. unfold path_components.
  change (split_slash (String slash (String.concat "/" cs))) with ("" :: split_slash (String.concat "/" cs)).
  cbn [fold_left]. assert (push_part [] "" = []) as -> by (unfold push_part; by rewrite bool_decide_true by auto).
  destruct (decide (cs = [])) as [->|Hne].
  { cbn. unfold push_part. by rewrite bool_decide_true by auto. }
  rewrite split_concat; [by rewrite fold_push_components|done|].
  eapply Forall_impl; [exact Hcs|]. by intros s [? _].
Qed.

(** C30: a normalized path is canonical: its components are non-empty, contain no slash
    and are neither [.] nor [..], it names the same components as the path it was made
    from, and normalizing it again changes nothing. *)
Theorem normalize_path_canonical path :
  Forall component (path_components path) /\
  path_components (normalize_path path) = path_components path /\
  normalize_path (normalize_path path) = normalize_path path.
Proof.
  pose proof (path_components_ok path) as Hok. pose proof (components_of_normal _ Hok) as Hn.
  fold (normalize_path path) in Hn. split_and!; [done..|]. unfold normalize_path at 1. by rewrite Hn.
Qed.

Lemma normalize_idem path : normalize_path (normalize_path path) = normalize_path path.
Proof.
  pose proof (components_of_normal _ (path_components_ok path)) as Hn.
  fold (normalize_path path) in Hn. unfold normalize_path at 1. by rewrite Hn.
Qed.

(** ** Finding the file system of a path *)
Section Mounts.
Context {F D : Type}.
Implicit Type v : list (string * F).

Lemma prefix_same_length a b s :
  String.prefix a s = true -> String.prefix b s = true -> String.length a = String.length b -> a = b.
Proof. rewrite !String.prefix_correct. intros Ha Hb Hl. by rewrite <-Ha, <-Hb, Hl. Qed.

Definition best_of (n : string) (v : list (string * F)) (r : option (string * F)) : Prop :=
  match r with
  | Some e => e ∈ v /\ String.prefix e.1 n = true /\
      forall e', e' ∈ v -> String.prefix e'.1 n = true -> (String.length e'.1 <= String.length e.1)%nat
  | None => forall e, e ∈ v -> String.prefix e.1 n = false
  end.

Lemma better_spec n v r e : best_of n v r -> best_of n (v ++ [e]) (better n r e).
Proof.
  unfold better. intros Hr. destruct (String.prefix e.1 n) eqn:He.
  - destruct r as [[m g]|]; cbn in Hr.
    + destruct Hr as (Hin & Hp & Hmax). case_match eqn:Hlt; cbn.
      * apply Nat.ltb_lt in Hlt. split_and!; [set_solver|done|].
        intros e' [He'| ->%list_elem_of_singleton]%elem_of_app Hp'; [|done].
        specialize (Hmax e' He' Hp'). lia.
      * apply Nat.ltb_ge in Hlt. split_and!; [set_solver|done|].
        intros e' [He'| ->%list_elem_of_singleton]%elem_of_app Hp'; [auto|done].
    + split_and!; [set_solver|done|].
      intros e' [He'| ->%list_elem_of_singleton]%elem_of_app Hp'; [|done]. by rewrite Hr in Hp'.
  - destruct r as [[m g]|]; cbn in Hr |- *.
    + destruct Hr as (Hin & Hp & Hmax). split_and!; [set_solver|done|].
      intros e' [He'| ->%list_elem_of_singleton]%elem_of_app Hp'; [auto|congruence].
    + intros e' [He'| ->%list_elem_of_singleton]%elem_of_app; auto.
Qed.

Lemma path_to_fs_best v path : best_of (normalize_path path) v (path_to_fs v path).
Proof.
  unfold path_to_fs. induction v as [|e v IH] using rev_ind; [cbn; set_solver|].
  rewrite fold_left_app. cbn. by apply better_spec.
Qed.

Lemma best_of_unique n v r r' :
  NoDup v.*1 -> best_of n v r -> best_of n v r' -> r = r'.
Proof.
  intros Hnd Hr Hr'. destruct r as [[m g]|], r' as [[m' g']|]; cbn in *; [|..|done].
  - destruct Hr as (Hin & Hp & Hmax), Hr' as (Hin' & Hp' & Hmax').
    assert (m = m') as <-.
    { apply (prefix_same_length m m' n Hp Hp').
      pose proof (Hmax _ Hin' Hp'). pose proof (Hmax' _ Hin Hp). cbn in *. lia. }
    do 2 f_equal. apply list_elem_of_lookup in Hin as [i Hi], Hin' as [j Hj].
    assert (i = j) as ->; [|congruence].
    apply (NoDup_lookup _ _ _ m Hnd); rewrite list_lookup_fmap; [by rewrite Hi|by rewrite Hj].
  - destruct Hr as (Hin & Hp & _). pose proof (Hr' _ Hin). cbn in *. congruence.
  - destruct Hr' as (Hin & Hp & _). pose proof (Hr _ Hin). cbn in *. congruence.
Qed.

(** The file system found for a path is the one whose mount point is the longest
    that is a prefix of the normalized path, none is found exactly when no mount point is
    a prefix, and the answer does not depend on the order the mounts are visited in. *)
Theorem path_to_fs_longest_prefix v v' path :
  NoDup v.*1 -> v ≡ₚ v' ->
  best_of (normalize_path path) v (path_to_fs v path) /\ path_to_fs v path = path_to_fs v' path.
Proof.
  intros Hnd Hp. split; [apply path_to_fs_best|].
  apply (best_of_unique (normalize_path path) v); [done|apply path_to_fs_best|].
  pose proof (path_to_fs_best v' path) as Hb. unfold best_of in *.
  destruct (path_to_fs v' path); rewrite ?Hp in *; setoid_rewrite Hp; done.
Qed.

Lemma get_fs_insert v path f q :
  get_fs v path = None ->
  get_fs (vfs_insert path f v) q = if decide (q = path) then Some f else get_fs v q.
Proof.
  unfold get_fs. induction v as [|[p g] v IH]; cbn.
  { intros _. destruct (String.eqb_spec path q); [by rewrite decide_True|by rewrite decide_False]. }
  destruct (String.eqb_spec p path) as [->|Hne]; [done|]. intros Hv.
  destruct (String.ltb path p); cbn.
  - destruct (String.eqb_spec path q); [by rewrite decide_True|]. by rewrite decide_False.
  - destruct (String.eqb_spec p q) as [->|].
    + by rewrite decide_False.
    + by rewrite IH.
Qed.

Lemma unmount_insert v path f :
  get_fs v path = None ->
  List.filter (fun e => negb (String.eqb e.1 path)) (vfs_insert path f v) = v.
Proof.
  unfold get_fs. induction v as [|[p g] v IH]; cbn.
  { intros _. by rewrite String.eqb_refl. }
  destruct (String.eqb_spec p path) as [->|Hne]; [done|]. intros Hv.
  destruct (String.ltb path p); cbn.
  - rewrite String.eqb_refl. cbn. rewrite (proj2 (String.eqb_neq _ _)) by done. cbn. f_equal.
    clear IH. induction v as [|[p' g'] v IH]; cbn in *; [done|].
    destruct (String.eqb_spec p' path); [done|]. cbn. f_equal. auto.
  - rewrite (proj2 (String.eqb_neq _ _)) by done. cbn. f_equal. auto.
Qed.

(** Mounting at a free path makes that file system, and no other, appear at that
    path; a second mount there is refused; unmounting restores the table as it was. *)
Theorem mount_unmount_round_trip v path f g :
  get_fs v path = None ->
  exists v', mount v path f = Ok v' /\
    (forall q, get_fs v' q = if decide (q = path) then Some f else get_fs v q) /\
    mount v' path g = Err AlreadyExists /\ unmount v' path = Ok v.
Proof.
  intros Hv. unfold mount, unmount. rewrite Hv. eexists. split; [done|].
  pose proof (get_fs_insert v path f path Hv) as Hp. rewrite decide_True in Hp by done.
  split_and!.
  - intros q. by apply get_fs_insert.
  - by rewrite Hp.
  - rewrite Hp. by rewrite unmount_insert.
Qed.

(** What a path opens depends only on its components: [.], [..] that stay below the
    root, empty components and trailing slashes make no difference, to opening as to
    creating. *)
Theorem open_by_components `{InodeOps D} (fs_root : F -> st (FsState D) FileError nat) v p q perms :
  path_components p = path_components q ->
  open_file fs_root v p = open_file fs_root v q /\
  create_file fs_root v p perms = create_file fs_root v q perms.
Proof.
  intros Hpq. assert (normalize_path p = normalize_path q) as Hn
    by (unfold normalize_path; by rewrite Hpq).
  unfold open_file, create_file. by rewrite Hn.
Qed.
End Mounts.

Lemma path_to_fs_longest_prefix_witness :
  path_to_fs [("/", 1%nat); ("/proc", 2%nat)] "/proc/1/../self" = Some ("/proc", 2%nat) /\
  best_of (normalize_path "/proc/1/../self") [("/", 1%nat); ("/proc", 2%nat)]
    (path_to_fs [("/", 1%nat); ("/proc", 2%nat)] "/proc/1/../self").
Proof.
  split; [vm_compute; reflexivity|].
  apply (path_to_fs_longest_prefix [("/", 1%nat); ("/proc", 2%nat)] [("/proc", 2%nat); ("/", 1%nat)]).
  - apply (bool_decide_unpack _). vm_compute. exact I.
  - apply perm_swap.
Defined.

Lemma mount_unmount_round_trip_witness :
  exists v', mount [("/", 1%nat)] "/proc" 2%nat = Ok v' /\ unmount v' "/proc" = Ok [("/", 1%nat)].
Proof.
  destruct (mount_unmount_round_trip [("/", 1%nat)] "/proc" 2%nat 3%nat) as (v' & H1 & _ & _ & H2);
    [reflexivity|].
  exists v'. split; [exact H1|exact H2].
Defined.

Lemma open_by_components_witness :
  open_file (D := gmap nat (list Z)) (fun f : nat => mret f) [("/", 1%nat)] "/a/./b//../c" =
  open_file (D := gmap nat (list Z)) (fun f : nat => mret f) [("/", 1%nat)] "/a/c".
Proof.
  apply (open_by_components (D := gmap nat (list Z)) (fun f : nat => mret f) [("/", 1%nat)]
    "/a/./b//../c" "/a/c" 0).
  vm_compute. reflexivity.
Defined.

(** Mount points match by characters, not by components: with a file system at
    [/proc], the path [/procfoo] is looked up there, as [foo] in its root directory. *)
Theorem mount_prefix_ignores_boundary :
  path_to_fs [("/", 1%nat); ("/proc", 2%nat)] "/procfoo" = Some ("/proc", 2%nat) /\
  relative_parts "/proc" (normalize_path "/procfoo") = ["foo"].
Proof. split; vm_compute; reflexivity. Qed.

(** ** The open system call *)
Section Open.
Context {F D M : Type} `{HO : InodeOps D} `{UserMemory M} (fs_root : F -> st (FsState D) FileError nat).
Context (VirtAddr_try_new : Z -> bool).

Definition EMFILE : Z := 24.
Definition MAX_PATH_LEN : Z := 4096.
(** [from_bits_truncate]: the bits of [FileOpenOptions] that have a name. *)
Definition known_options : Z := 0x81FC3.

Definition catch {S E A} (m : st S E A) : st S E (outcome E A) := fun s =>
  match m s with
  | (Panic, s) => (Panic, s)
  | (r, s) => (Ok r, s)
  end.

(** The part that runs with interrupts disabled. *)
Definition open_or_create (FS : list (string * F)) (file_name : string) (foo : Z) :
    st (FsState D) Z nat :=
  if contains foo TRUNCATE && (Z.land foo (Z.lor WRITE_ONLY READ_WRITE) =? 0)
  then st_lift (Err (neg_errno EINVAL))
  else
    res ← st_map_err file_error_to_errno (catch (open_file fs_root FS file_name));
    match res with
    | Ok file =>
        if contains foo TRUNCATE then
          ino ← st_map_err file_error_to_errno (get_inode file);
          _ ← st_map_err file_error_to_errno (put_inode file
                 (mkInode (num ino) (kind ino) 0 (perms ino) (links ino) (owner_uid ino) (owner_gid ino)
                    (access_time ino) (modified_time ino) (change_time ino)));
          _ ← st_map_err file_error_to_errno (op_truncate file 0);
          mret file
        else mret file
    | Err e =>
        if contains foo CREATE then
          _ ← st_map_err file_error_to_errno (create_file fs_root FS file_name 0x1E4);
          res ← st_map_err file_error_to_errno (catch (open_file fs_root FS file_name));
          match res with Ok file => mret file | _ => st_lift Panic end
        else st_lift (Err (file_error_to_errno e))
    | Panic => st_lift Panic
    end.

Definition open_inner (FS : list (string * F)) (file_name : string) (foo : Z) : st (Kernel D M) Z Z :=
  file ← on_fs (open_or_create FS file_name foo);
  let wants_write := contains foo WRITE_ONLY || contains foo READ_WRITE || contains foo TRUNCATE in
  ino ← on_fs (st_map_err file_error_to_errno (get_inode file));
  if bool_decide (kind ino = Directory) && wants_write then st_lift (Err (neg_errno EISDIR))
  else
    cur ← current_proc_mut;
    match cur with
    | None => st_lift (Err (neg_errno ESRCH))
    | Some (i, process) =>
        '(fd, process') ← st_map_err (fun _ => neg_errno EMFILE) (on_fs (add_file_handle process file foo));
        _ ← put_proc i process';
        mret fd
    end.

Definition string_of_bytes (bs : list Z) : string :=
  String.string_of_list_ascii ((fun b => Ascii.ascii_of_N (Z.to_N b)) <$> bs).

Definition sys_open {E} (FS : list (string * F)) (rdi rsi : Z) : st (Kernel D M) E Z := fun k =>
  let flags := Z.land rsi known_options in
  match copy_string VirtAddr_try_new (mem k) rdi MAX_PATH_LEN with
  | Ok buf =>
      match open_inner FS (string_of_bytes buf) flags k with
      | (Ok fd, k) => (Ok fd, k)
      | (Err errno, k) => (Ok errno, k)
      | (Panic, k) => (Panic, k)
      end
  | Err e => (Ok e, k)
  | Panic => (Panic, k)
  end.

Lemma on_fs_procs {E A} (m : st (FsState D) E A) (k : Kernel D M) r k' :
  on_fs m k = (r, k') -> PROCESSES k' = PROCESSES k /\ curr_proc k' = curr_proc k.
Proof. unfold on_fs. destruct (m (fs k)) as [r' f]. intros [= <- <-]. done. Qed.

(** The inode the call opens: the one the path leads to, or, where it leads to none and the flags
    ask for it, the one it leads to once the file has been created. *)
Definition opened (FS : list (string * F)) (file_name : string) (foo : Z) (s : FsState D) (file : nat) : Prop :=
  (exists s1, open_file fs_root FS file_name s = (Ok file, s1)) \/
  contains foo CREATE = true /\ exists e s1 x s2 s3, open_file fs_root FS file_name s = (Err e, s1) /\
    create_file fs_root FS file_name 0x1E4 s1 = (Ok x, s2) /\ open_file fs_root FS file_name s2 = (Ok file, s3).

Section Laws.
Context {HD : DirOpsLaws D} (Hroot : forall f, keeps_files (fs_root f)).

Lemma walk_dirs_keeps need parts : forall i, keeps_files (walk_dirs need i parts).
Proof using HD. induction parts as [|part parts IH]; intros i; cbn [walk_dirs]; solve_keeps. Qed.
#[local] Hint Resolve walk_dirs_keeps Hroot : keeps.
Lemma open_file_keeps FS path : keeps_files (open_file fs_root FS path).
Proof using HD Hroot. unfold open_file. solve_keeps. Qed.
Lemma create_file_keeps FS path ps : keeps_files (create_file fs_root FS path ps).
Proof using HD Hroot. unfold create_file. solve_keeps. Qed.
Lemma catch_open FS path s (r : outcome FileError nat) s' :
  st_map_err file_error_to_errno (catch (open_file fs_root FS path)) s = (Ok r, s') ->
  open_file fs_root FS path s = (r, s') /\ files s' = files s.
Proof using HD Hroot.
  intros Hs. assert (open_file fs_root FS path s = (r, s')) as Ho.
  { unfold st_map_err, catch in Hs. destruct (open_file _ _ _ s) as [[]]; cbn in Hs; by simplify_eq. }
  split; [done|]. by apply (keeps_Ok _ _ _ _ (open_file_keeps FS path) Ho).
Qed.

Lemma open_or_create_Ok FS file_name foo s file s' : open_or_create FS file_name foo s = (Ok file, s') ->
  opened FS file_name foo s file /\ files s' = files s.
Proof using HD Hroot.
  unfold open_or_create. case_match; [done|]. intros Ho. apply st_bind_Ok in Ho as (res & s1 & Hres & Ho).
  apply catch_open in Hres as [Hopen Hf]. destruct res as [x|e|]; [| |done].
  - assert (keeps_files (if contains foo TRUNCATE then
        ino ← st_map_err file_error_to_errno (get_inode x);
        _ ← st_map_err file_error_to_errno (put_inode x
               (mkInode (num ino) (kind ino) 0 (perms ino) (links ino) (owner_uid ino) (owner_gid ino)
                  (access_time ino) (modified_time ino) (change_time ino)));
        _ ← st_map_err file_error_to_errno (op_truncate x 0); mret x else mret x)) as Hk by solve_keeps.
    pose proof (keeps_Ok _ _ _ _ Hk Ho) as Hf1. assert (file = x) as ->.
    { case_match; [|by injection Ho]. do 3 (apply st_bind_Ok in Ho as (? & ? & _ & Ho)). by injection Ho. }
    split; [left; eauto|congruence].
  - case_match eqn:Hc; [|done]. apply st_bind_Ok in Ho as (x & s2 & Hcr & Ho).
    apply st_bind_Ok in Ho as (res & s3 & Hres & Ho). apply catch_open in Hres as [Hopen2 Hf2].
    assert (create_file fs_root FS file_name 0x1E4 s1 = (Ok x, s2)) as Hcr'.
    { unfold st_map_err in Hcr. destruct (create_file _ _ _ _ s1) as [[]]; cbn in Hcr; by simplify_eq. }
    destruct res as [y| |]; [|done..]. injection Ho as <- <-.
    split; [right; split; [done|]; by exists e, s1, x, s2, s3|].
    rewrite Hf2, (keeps_Ok _ _ _ _ (create_file_keeps FS file_name 0x1E4) Hcr'). done.
Qed.

(** C24: a successful open yields a descriptor that was free, bound to a new open file (the
    files that were open before stay as they are) positioned at 0, with the flags of the call, on
    the inode the path leads to, or leads to once the file is created; every other descriptor of
    the process and every other process stays as it was. *)
Theorem open_gives_fresh_descriptor FS file_name foo (k : Kernel D M) fd k' i p :
  curr_proc k = Some i -> PROCESSES k !! i = Some p ->
  open_inner FS file_name foo k = (Ok fd, k') ->
  file_handles p !! fd = None /\
  exists f file, opened FS file_name foo (fs k) file /\ files (fs k) !! f = None /\
    files (fs k') = <[f := mkOpenFile file 0 foo]> (files (fs k)) /\
    PROCESSES k' = <[i := with_file_handles p (<[fd := f]> (file_handles p))]> (PROCESSES k).
Proof using HD Hroot.
  intros Hc Hp. unfold open_inner. intros Ho.
  apply st_bind_Ok in Ho as (file & k1 & H1 & Ho). pose proof (on_fs_procs _ _ _ _ H1) as [Hp1 Hc1].
  assert (opened FS file_name foo (fs k) file /\ files (fs k1) = files (fs k)) as [Hop Hf1].
  { unfold on_fs in H1. destruct (open_or_create FS file_name foo (fs k)) as [r s1] eqn:Hoc. injection H1 as -> <-.
    by apply open_or_create_Ok in Hoc. }
  apply st_bind_Ok in Ho as (ino & k2 & H2 & Ho). pose proof (on_fs_procs _ _ _ _ H2) as [Hp2 Hc2].
  assert (files (fs k2) = files (fs k)) as Hf2.
  { rewrite <-Hf1. unfold on_fs, st_map_err in H2. cbn in H2. by injection H2 as _ <-. }
  case_match; [done|]. apply st_bind_Ok in Ho as (cur & k3 & Hcur & Ho).
  assert (k3 = k2 /\ cur = Some (i, p)) as [-> ->].
  { unfold current_proc_mut in Hcur. rewrite Hc2, Hc1, Hc, Hp2, Hp1, Hp in Hcur. by injection Hcur. }
  apply st_bind_Ok in Ho as ([fd' p'] & k4 & Hadd & Ho).
  apply st_bind_Ok in Ho as ([] & k5 & Hput & Ho). injection Ho as -> ->. injection Hput as <-.
  unfold st_map_err, on_fs, add_file_handle, mbind, st_bind, st_lift in Hadd.
  destruct (next_fd (file_handles p)) as [nfd| |] eqn:Hn; cbn in Hadd; try done.
  injection Hadd as <- <- <-. split; [by eapply next_fd_fresh|].
  exists (next_key (files (fs k2))), file. cbn. rewrite Hf2, Hp2, Hp1. split_and!; [done|apply next_key_fresh|done|done].
Qed.
End Laws.
End Open.

Definition opener : Process :=
  mkProcess 2 1 "sh" (mkState 0 0 0 0 0 0 0 0 0 0 0 0 0 0 0 0 0 0 0 0 []) Running 0x2000 0 0
    {[ 3 := 3%nat; 4 := 4%nat ]} 0 0 true 0 None [] [] 15.
Definition open_kernel : Kernel (gmap nat (list Z)) FlatMem :=
  mkKernel [opener] 9 (mkScheduler (Some 2) 0 5 0) 2 (Some 0%nat) (fun _ => true) sample_fs sample_mem.

Lemma open_gives_fresh_descriptor_witness :
  exists k' f file, open_inner (M := FlatMem) (fun f : nat => mret f) [("/", 0%nat)] "/" READ_ONLY open_kernel
    = (Ok 5, k') /\ opened (fun f : nat => mret f) [("/", 0%nat)] "/" READ_ONLY sample_fs file /\
    files (fs k') = <[f := mkOpenFile file 0 READ_ONLY]> (files sample_fs).
Proof.
  destruct (open_inner (M := FlatMem) (fun f : nat => mret f) [("/", 0%nat)] "/" READ_ONLY open_kernel) as [r k'] eqn:Hr.
  assert (r = Ok 5) as -> by (apply (f_equal fst) in Hr; vm_compute in Hr; by symmetry).
  destruct (open_gives_fresh_descriptor (M := FlatMem) (fun f : nat => mret f) (fun f => keeps_ret f) [("/", 0%nat)] "/" READ_ONLY
    open_kernel 5 k' 0%nat opener) as (_ & f & file & H1 & _ & H2 & _); [reflexivity|reflexivity|exact Hr|].
  exists k', f, file. split; [reflexivity|]. split; [exact H1|exact H2].
Defined.

(** [EXCLUSIVE] is accepted and never looked at: opening an existing file with
    [CREATE | EXCLUSIVE] succeeds. *)
Example exclusive_create_opens_existing :
  (open_inner (M := FlatMem) (fun f : nat => mret f) [("/", 0%nat)] "/" (Z.lor CREATE EXCLUSIVE)
     open_kernel).1 = Ok 5.
Proof. vm_compute. reflexivity. Qed.
