(* ===== verification/FileInfo.v ===== *)
(** * Looking at files (zenos-kernel/src/syscall/stat.rs, syscall/access.rs)

    [stat] copies what the file system knows of a file into a buffer of the program; [access]
    looks at its permission bits. *)
From S2P Require Import Prelude PageAlloc Bytes OpenFile Process Sched UserMem Syscall Vfs.
#[local] Open Scope list_scope.

(** The rest of the bits of [Permissions]. *)
Definition GROUP_READ : Z := 0x20.
Definition GROUP_WRITE : Z := 0x10.
Definition GROUP_EXEC : Z := 0x8.
Definition OTHER_READ : Z := 0x4.
Definition OTHER_WRITE : Z := 0x2.
Definition OTHER_EXEC : Z := 0x1.
(** The modes of [access]; [F_OK] is zero. *)
Definition R_OK : Z := 4.
Definition W_OK : Z := 2.
Definition X_OK : Z := 1.
Definition intersects (flags other : Z) : bool := negb (Z.land flags other =? 0).

(** The structure with the layout of C: [pad] are the four bytes between the mode and the number
    of links, which nothing writes. *)
Definition stat_bytes (pad : list Z) (s : Stat) : list Z :=
  to_le 8 (st_dev s) ++ to_le 8 (st_ino s) ++ to_le 4 (st_mode s) ++ pad ++ to_le 8 (st_nlink s) ++
  to_le 4 (st_uid s) ++ to_le 4 (st_gid s) ++ to_le 8 (st_rdev s) ++ to_le 8 (st_size s) ++ to_le 8 (st_blksize s) ++
  to_le 8 (st_blocks s) ++ to_le 8 (st_atime s) ++ to_le 8 (st_mtime s) ++ to_le 8 (st_ctime s).

Section FileInfo.
Context {F D M : Type} `{HO : InodeOps D} `{HM : UserMemory M}.
Context (fs_root : F -> st (FsState D) FileError nat) (VirtAddr_try_new : Z -> bool).
Abbreviation K := (Kernel D M).

Definition stat_path (FS : list (string * F)) (path : string) : st (FsState D) Z Stat :=
  file ← st_map_err file_error_to_errno (open_file fs_root FS path);
  st_map_err file_error_to_errno (op_stat file).
Definition sys_stat {E} (FS : list (string * F)) (pad : list Z) (rdi rsi : Z) : st K E Z := fun k =>
  match copy_string VirtAddr_try_new (mem k) rdi MAX_PATH_LEN with
  | Panic => (Panic, k)
  | Err e => (Ok e, k)
  | Ok path =>
      match on_fs (stat_path FS (string_of_bytes path)) k with
      | (Panic, k) => (Panic, k)
      | (Err e, k) => (Ok e, k)
      | (Ok stat, k) =>
          match copy_to_user VirtAddr_try_new (mem k) rsi (stat_bytes pad stat) with
          | Panic => (Panic, k)
          | Err _ => (Ok (neg_errno EFAULT), k)
          | Ok m => (Ok 0, set_mem m k)
          end
      end
  end.

(** [Mode::from_bits]: there is a value for the known bits only. *)
Definition Mode_from_bits (bits : Z) : option Z := if Z.land bits 7 =? bits then Some bits else None.
Definition allows (perms mode : Z) : bool :=
  negb (contains mode R_OK && negb (intersects perms (Z.lor (Z.lor OWNER_READ GROUP_READ) OTHER_READ))) &&
  negb (contains mode W_OK && negb (intersects perms (Z.lor (Z.lor OWNER_WRITE GROUP_WRITE) OTHER_WRITE))) &&
  negb (contains mode X_OK && negb (intersects perms (Z.lor (Z.lor OWNER_EXEC GROUP_EXEC) OTHER_EXEC))).
Definition access_inner (FS : list (string * F)) (file_name : string) (mode : Z) : st (FsState D) Z unit :=
  f ← st_map_err file_error_to_errno (open_file fs_root FS file_name);
  ino ← st_map_err file_error_to_errno (get_inode f);
  if allows (perms ino) mode then mret tt else st_lift (Err (neg_errno EACCES)).
Definition sys_access {E} (FS : list (string * F)) (rdi rsi : Z) : st K E Z := fun k =>
  match Mode_from_bits (wrap 32 rsi) with
  | None => (Ok (neg_errno EINVAL), k)
  | Some mode =>
      match copy_string VirtAddr_try_new (mem k) rdi MAX_PATH_LEN with
      | Panic => (Panic, k)
      | Err e => (Ok e, k)
      | Ok file_name =>
          match on_fs (access_inner FS (string_of_bytes file_name) mode) k with
          | (Ok tt, k) => (Ok 0, k)
          | (Err errno, k) => (Ok errno, k)
          | (Panic, k) => (Panic, k)
          end
      end
  end.
End FileInfo.

(** ** What [stat] leaves in the buffer *)
Definition field (off n : nat) (bs : list Z) : Z := from_le (sub_bytes off n bs).
(** The structure a program reads from its buffer. *)
Definition stat_at (bs : list Z) : Stat :=
  let signed off := as_signed 64 (field off 8 bs) in
  mkStat (field 0 8 bs) (field 8 8 bs) (field 16 4 bs) (field 24 8 bs) (field 32 4 bs) (field 36 4 bs) (field 40 8 bs)
    (signed 48%nat) (signed 56%nat) (signed 64%nat) (signed 72%nat) (signed 80%nat) (signed 88%nat).
Record stat_ok (s : Stat) : Prop := {
  so_u64 : Forall (is_u 64) [st_dev s; st_ino s; st_nlink s; st_rdev s];
  so_u32 : Forall (is_u 32) [st_mode s; st_uid s; st_gid s];
  so_i64 : Forall (fun x => - 2 ^ 63 <= x < 2 ^ 63) [st_size s; st_blksize s; st_blocks s; st_atime s; st_mtime s; st_ctime s];
}.
Lemma signed_le x : - 2 ^ 63 <= x < 2 ^ 63 -> as_signed 64 (from_le (to_le 8 x)) = x.
Proof.
  intros Hx. unfold from_le, to_le. rewrite little_endian_to_Z_to_little_endian by lia. change (2 ^ (Z.of_nat 8 * 8)) with (2 ^ 64).
  unfold as_signed. change (2 ^ (64 - 1)) with (2 ^ 63). destruct (decide (0 <= x)) as [H0|H0].
  - rewrite Z.mod_small by lia. rewrite (proj2 (Z.ltb_lt x (2 ^ 63))) by lia. done.
  - rewrite <-(Z_mod_plus_full x 1), Z.mod_small by lia. rewrite (proj2 (Z.ltb_ge _ _)) by lia. lia.
Qed.
Lemma field_skip off n a b : (length a <= off)%nat -> field off n (a ++ b) = field (off - length a) n b.
Proof. intros Ha. unfold field. by rewrite sub_bytes_app_r. Qed.
Lemma field_here n x b : field 0 n (to_le n x ++ b) = from_le (to_le n x).
Proof. unfold field. rewrite sub_bytes_all; [done|]. apply to_le_length. Qed.
Lemma stat_bytes_length pad s : length pad = 4%nat -> length (stat_bytes pad s) = 96%nat.
Proof. intros Hp. unfold stat_bytes. rewrite !length_app, !to_le_length, Hp. done. Qed.
Lemma stat_bytes_read pad s : length pad = 4%nat -> stat_ok s -> stat_at (stat_bytes pad s) = s.
Proof.
  intros Hp [H1 H2 H3]. repeat apply Forall_cons in H1 as [? H1]. repeat apply Forall_cons in H2 as [? H2]. repeat apply Forall_cons in H3 as [? H3].
  rewrite <-(app_nil_r (stat_bytes pad s)). unfold stat_bytes. rewrite <-!app_assoc. unfold stat_at. cbv zeta.
  destruct s as [a1 a2 a3 a4 a5 a6 a7 a8 a9 a10 a11 a12 a13]. cbn [st_dev st_ino st_mode st_nlink st_uid st_gid st_rdev st_size st_blksize st_blocks st_atime st_mtime st_ctime] in *.
  f_equal; repeat (rewrite field_skip by (rewrite ?to_le_length, ?Hp; lia); rewrite ?to_le_length, ?Hp; cbn [Nat.sub]);
    rewrite field_here; (by apply signed_le) || (by apply from_to_le).
Qed.

Section Laws.
Context {F D M : Type} `{HO : InodeOps D} `{HM : UserMemory M} {HL : UserMemoryLaws M}.
Context (fs_root : F -> st (FsState D) FileError nat) (VirtAddr_try_new : Z -> bool) (Hcanon : canonical VirtAddr_try_new).

Lemma load_store_all (m : M) a bs m' : store_bytes m a bs = Some m' -> load_bytes m' a (length bs) = bs.
Proof using HL.
  intros Hst. apply list_eq. intros i. destruct (decide (i < length bs)%nat) as [Hi|Hi].
  - rewrite load_bytes_lookup, (load_store_bytes _ _ _ _ _ Hst), decide_True by lia. replace (Z.to_nat (a + Z.of_nat i - a)) with i by lia.
    destruct (lookup_lt_is_Some_2 bs i Hi) as [b ->]. done.
  - rewrite !lookup_ge_None_2; [done|lia|rewrite load_bytes_length; lia].
Qed.
(** [stat] of a file that opens leaves in the buffer what the file system says of it, at the
    offsets of the C structure, and touches nothing else; a buffer that is not mapped for the
    program gives EFAULT and changes no memory, and one that is mapped but cannot be written
    stops the kernel. *)
Theorem stat_fills_buffer {E} FS pad rdi rsi path st (k k1 : Kernel D M) :
  copy_string VirtAddr_try_new (mem k) rdi MAX_PATH_LEN = Ok path ->
  on_fs (stat_path fs_root FS (string_of_bytes path)) k = (Ok st, k1) ->
  length pad = 4%nat -> stat_ok st -> is_u 64 rsi ->
  exists r k', sys_stat (E := E) fs_root VirtAddr_try_new FS pad rdi rsi k = (r, k') /\ fs k' = fs k1 /\
    (r = Ok 0 /\ range_ok (mem k) rsi 96 /\ stat_at (load_bytes (mem k') rsi 96) = st /\
       (forall a, a < rsi \/ rsi + 96 <= a -> load (mem k') a = load (mem k) a)
     \/ r = Ok (neg_errno EFAULT) /\ ~ range_ok (mem k) rsi 96 /\ mem k' = mem k
     \/ r = Panic /\ range_ok (mem k) rsi 96 /\ store_bytes (mem k) rsi (stat_bytes pad st) = None).
Proof using HL Hcanon.
  intros Hpath Hst Hpad Hok Hrsi. assert (mem k1 = mem k) as Hmem by (unfold on_fs in Hst; destruct (stat_path _ _ _ (fs k)); by injection Hst as _ <-).
  unfold sys_stat. rewrite Hpath, Hst, Hmem. unfold copy_to_user. rewrite (stat_bytes_length pad st Hpad). cbn [Z.of_nat Z.eqb Pos.of_succ_nat].
  destruct (user_range_spec VirtAddr_try_new Hcanon (E := unit) (mem k) rsi 96 Hrsi ltac:(done)) as (b & Hb & Hr). change (Z.of_nat 96) with 96.
  rewrite Hb. cbn [mbind outcome_bind]. destruct b; cbn [negb].
  - destruct (store_bytes (mem k) rsi (stat_bytes pad st)) as [m1|] eqn:Hs; cbn [unwrap].
    2: { exists Panic, k1. split; [done|]. split; [done|]. right. right. split_and!; [done|by apply Hr|done]. }
    eexists (Ok 0), _. split; [done|]. split; [done|]. left. cbn [mem set_mem]. split_and!; [done|by apply Hr| |].
    + rewrite <-(stat_bytes_length pad st Hpad), (load_store_all _ _ _ _ Hs). by apply stat_bytes_read.
    + intros a Ha. rewrite (load_store_bytes _ _ _ _ _ Hs). destruct (decide (rsi <= a)); [|done]. rewrite lookup_ge_None_2; [done|].
      rewrite (stat_bytes_length pad st Hpad). lia.
  - exists (Ok (neg_errno EFAULT)), k1. split; [done|]. split; [done|]. right. left. split_and!; [done| |done]. intros Hro. by apply Hr in Hro.
Qed.

(** ** What [access] answers *)
(** Some of the owner, the group and the others has the right of bit [i] (0 to run, 1 to write, 2 to read). *)
Definition someone (perms i : Z) : Prop := Z.testbit perms i = true \/ Z.testbit perms (i + 3) = true \/ Z.testbit perms (i + 6) = true.
Lemma mode_bit mode i : 0 <= i -> contains mode (2 ^ i) = Z.testbit mode i.
Proof using.
  intros Hi. unfold contains. destruct (Z.testbit mode i) eqn:Hb.
  - apply Z.eqb_eq. apply Z.bits_inj'. intros j Hj. rewrite Z.land_spec. destruct (decide (i = j)) as [->|Hne]; [by rewrite Hb|].
    rewrite Z.pow2_bits_false by lia. apply andb_false_r.
  - apply Z.eqb_neq. intros Heq. apply (f_equal (fun x => Z.testbit x i)) in Heq. by rewrite Z.land_spec, Hb, Z.pow2_bits_true in Heq.
Qed.
Lemma intersects_bits perms i : 0 <= i -> intersects perms (Z.lor (Z.lor (2 ^ (i + 6)) (2 ^ (i + 3))) (2 ^ i)) = true <-> someone perms i.
Proof using.
  intros Hi. assert (forall j, 0 <= j -> Z.testbit (Z.lor (Z.lor (2 ^ (i + 6)) (2 ^ (i + 3))) (2 ^ i)) j = true <-> j = i \/ j = i + 3 \/ j = i + 6) as Hbit.
  { intros j Hj. rewrite !Z.lor_spec, !Z.pow2_bits_eqb, !orb_true_iff, !Z.eqb_eq by lia. lia. }
  unfold intersects, someone. rewrite negb_true_iff, Z.eqb_neq. split.
  - intros Hne. destruct (Z.testbit perms i) eqn:H0; [by left|]. destruct (Z.testbit perms (i + 3)) eqn:H3; [by right; left|].
    destruct (Z.testbit perms (i + 6)) eqn:H6; [by right; right|]. destruct Hne. apply Z.bits_inj'. intros j Hj. rewrite Z.land_spec, Z.bits_0.
    destruct (Z.testbit (Z.lor _ _) j) eqn:Hm; [|apply andb_false_r]. apply Hbit in Hm as [->|[->| ->]]; [by rewrite H0|by rewrite H3|by rewrite H6|lia].
  - intros Hs Heq. assert (forall j, 0 <= j -> j = i \/ j = i + 3 \/ j = i + 6 -> Z.testbit perms j = false) as Hno.
    { intros j Hj Hm. apply Hbit in Hm; [|done]. apply (f_equal (fun x => Z.testbit x j)) in Heq. rewrite Z.land_spec, Hm, Z.bits_0 in Heq. by rewrite andb_true_r in Heq. }
    destruct Hs as [Hs|[Hs|Hs]]; rewrite Hno in Hs by (lia || tauto); done.
Qed.
Lemma allows_spec perms mode : allows perms mode = true <-> forall i, 0 <= i <= 2 -> Z.testbit mode i = true -> someone perms i.
Proof using.
  unfold allows. change R_OK with (2 ^ 2). change W_OK with (2 ^ 1). change X_OK with (2 ^ 0). rewrite !mode_bit by lia.
  pose proof (intersects_bits perms 0) as H0. pose proof (intersects_bits perms 1) as H1. pose proof (intersects_bits perms 2) as H2.
  rewrite !andb_true_iff, !negb_true_iff, !andb_false_iff, !negb_false_iff.
  change (Z.lor (Z.lor OWNER_READ GROUP_READ) OTHER_READ) with (Z.lor (Z.lor (2 ^ (2 + 6)) (2 ^ (2 + 3))) (2 ^ 2)).
  change (Z.lor (Z.lor OWNER_WRITE GROUP_WRITE) OTHER_WRITE) with (Z.lor (Z.lor (2 ^ (1 + 6)) (2 ^ (1 + 3))) (2 ^ 1)).
  change (Z.lor (Z.lor OWNER_EXEC GROUP_EXEC) OTHER_EXEC) with (Z.lor (Z.lor (2 ^ (0 + 6)) (2 ^ (0 + 3))) (2 ^ 0)).
  rewrite H0, H1, H2 by lia. split.
  - intros [[A2 A1] A0] i Hi Hm. assert (i = 0 \/ i = 1 \/ i = 2) as [->|[->| ->]] by lia; rewrite Hm in *; naive_solver.
  - intros Hall. split_and!; match goal with |- Z.testbit _ ?i = _ \/ _ => destruct (Z.testbit mode i) eqn:Hb; [right; by apply Hall|by left] end.
Qed.
(** [access] of a file that opens: each right asked for is granted to someone, whoever asks. *)
Theorem access_asks_anyone {E} FS rdi rsi path f ino s1 (k : Kernel D M) :
  copy_string VirtAddr_try_new (mem k) rdi MAX_PATH_LEN = Ok path ->
  open_file fs_root FS (string_of_bytes path) (fs k) = (Ok f, s1) -> inodes s1 !! f = Some ino -> 0 <= rsi < 8 ->
  exists r, sys_access (E := E) fs_root VirtAddr_try_new FS rdi rsi k = (Ok r, set_fs s1 k) /\
    (r = 0 /\ (forall i, 0 <= i <= 2 -> Z.testbit rsi i = true -> someone (perms ino) i) \/
     r = neg_errno EACCES /\ exists i, 0 <= i <= 2 /\ Z.testbit rsi i = true /\ ~ someone (perms ino) i).
Proof using.
  intros Hpath Hopen Hino Hr. unfold sys_access. rewrite wrap_small by (unfold is_u; lia).
  assert (Mode_from_bits rsi = Some rsi) as ->.
  { unfold Mode_from_bits. change 7 with (Z.ones 3). rewrite Z.land_ones, Z.mod_small by lia. by rewrite Z.eqb_refl. }
  rewrite Hpath. unfold on_fs, access_inner, st_map_err, mbind, st_bind, get_inode. rewrite Hopen. cbn [map_err]. rewrite Hino. cbn [map_err unwrap].
  destruct (allows (perms ino) rsi) eqn:Ha.
  - exists 0. split; [done|]. left. split; [done|]. by apply allows_spec.
  - exists (neg_errno EACCES). split; [done|]. right. split; [done|].
    assert (forall i, Decision (someone (perms ino) i)) as Hdec by (intros; unfold someone; apply _).
    destruct (decide (Exists (fun i => Z.testbit rsi i = true /\ ~ someone (perms ino) i) [0; 1; 2])) as [Hex|Hno].
    + apply Exists_exists in Hex as (i & Hi & Hm & Hs). exists i. split; [|done]. rewrite !elem_of_cons, elem_of_nil in Hi. lia.
    + apply not_true_iff_false in Ha. destruct Ha. apply allows_spec. intros i Hi Hm. destruct (Hdec i) as [|Hn]; [done|]. destruct Hno.
      apply Exists_exists. exists i. split; [|done]. rewrite !elem_of_cons. lia.
Qed.
End Laws.

(** ** A file system with its root only *)
Definition root_stat : Stat := mkStat 1 2 0x41ED 2 0 0 0 4096 4096 8 (-1) 1700000000 1700000000.
#[local] Instance root_ops : InodeOps unit := {
  op_read i off buf := st_lift (Err IsADirectory);
  op_write i off buf := st_lift (Err IsADirectory);
  op_truncate i n := st_lift (Err IsADirectory);
  op_sync i := mret tt;
  op_unlink i name := st_lift (Err NotFound);
  op_lookup i name := st_lift (Err NotFound);
  op_create i name k p := st_lift (Err PermissionDenied);
  op_read_dir i := mret [];
  op_stat i := mret root_stat;
}.
Definition root_kernel : Kernel unit FlatMem :=
  mkKernel [] 9 (mkScheduler None 0 5 0) 2 None (fun _ => true) (mkFs {[ 0%nat := mkInode 2 Directory 4096 0x1ED 2 0 0 0 0 0 ]} ∅ tt)
    (mkFlat [0x5000; 0x6000] {[ 0x5000 := 47 ]}).
Lemma stat_fills_buffer_witness :
  exists k', sys_stat (E := unit) (fun f : nat => mret f) canon [("/", 0%nat)] [1; 2; 3; 4] 0x5000 0x5FC0 root_kernel = (Ok 0, k') /\
    stat_at (load_bytes (mem k') 0x5FC0 96) = root_stat.
Proof.
  destruct (stat_fills_buffer (E := unit) (fun f : nat => mret f) canon canon_canonical [("/", 0%nat)] [1; 2; 3; 4] 0x5000 0x5FC0 [47] root_stat root_kernel root_kernel)
    as (r & k' & Hrun & _ & [(-> & _ & Hst & _)|[(_ & Hno & _)|(_ & _ & Hnone)]]).
  - vm_compute. reflexivity.
  - vm_compute. reflexivity.
  - reflexivity.
  - split; repeat constructor; vm_compute; congruence.
  - vm_compute. split; congruence.
  - exists k'. split; [exact Hrun|exact Hst].
  - exfalso. apply Hno. split_and!; [done|done|by vm_compute|]. intros a Ha. unfold page_of, PAGE_4K.
    assert (a - a mod 4096 = 0x5000 \/ a - a mod 4096 = 0x6000) as [->| ->]; [|reflexivity|reflexivity]. Z.to_euclidean_division_equations. lia.
  - vm_compute in Hnone. discriminate.
Defined.
(** The four bytes between the mode and the number of links are the kernel's: [pad] reaches the program. *)
Example stat_shows_padding pad s : length pad = 4%nat -> sub_bytes 20 4 (stat_bytes pad s) = pad.
Proof.
  intros Hp. unfold stat_bytes. do 3 (rewrite sub_bytes_app_r by (rewrite to_le_length; lia); rewrite to_le_length; cbn [Nat.sub]). by apply sub_bytes_all.
Qed.
