(* ===== verification/UserSpace.v ===== *)
(** * The address space of a user program

    What loading a program needs of an address space: its pages are allocated, and the kernel
    reads and writes its bytes through the active page tables.  The operations are a class;
    their laws say what they do to the bytes at user addresses. *)
From S2P Require Import Prelude PageAlloc Bytes OpenFile Process.

Definition USER_END : Z := 2 ^ 47.
Definition user (a : Z) : Prop := 0 <= a < USER_END.

(** [None] of [peek] and [poke] is a page fault, which stops the kernel. *)
Class UserSpace (M : Type) := {
  cr3_of : M -> Z;
  write_cr3 : Z -> M -> M;
  ualloc : Z -> Z -> st M MapErr Z;          (* [ualloc_page_flags] for an arbitrary frame *)
  peek : M -> Z -> option Z;
  poke : Z -> Z -> M -> option M;
}.

(** The flags of a page of a user program: present, writable, for the user. *)
Definition USER_PAGE : Z := 7.

Class UserSpaceLaws (M : Type) `{UserSpace M} `{AddressSpaces M} := {
  us_base : M -> Prop;                       (* the kernel and its memory are in order *)
  us_ok : M -> Prop;                         (* and the active space belongs to one program *)
  us_room : M -> nat -> Prop;                (* so many frames can still be taken *)
  cr3_write m c : cr3_of (write_cr3 c m) = c;
  write_write m c d : write_cr3 d (write_cr3 c m) = write_cr3 d m;
  write_same m : write_cr3 (cr3_of m) m = m;
  poke_ok m a v : us_ok m -> user a -> is_byte v -> is_Some (peek m a) ->
    exists m', poke a v m = Some m' /\ us_ok m' /\ cr3_of m' = cr3_of m /\ (forall n, us_room m n -> us_room m' n) /\
      forall b, user b -> peek m' b = if decide (b = a) then Some v else peek m b;
  poke_fault m a v : peek m a = None -> poke a v m = None;
  ualloc_ok m p n : us_ok m -> user p -> p mod PAGE_4K = 0 -> us_room m (4 + n) ->
    exists f m', ualloc p USER_PAGE m = (Ok f, m') /\ us_ok m' /\ cr3_of m' = cr3_of m /\ us_room m' n /\
      (forall b, user b -> page_of b = p -> is_Some (peek m' b)) /\
      (forall b, user b -> is_Some (peek m b) \/ page_of b <> p -> peek m' b = peek m b);
  new_space_ok m n : us_base m -> us_room m (8 + n) ->
    exists c m', new_user_address_space m = (Ok c, m') /\ c mod PAGE_4K = 0 /\ cr3_of m' = cr3_of m /\ us_ok (write_cr3 c m') /\ us_room (write_cr3 c m') n /\
      forall b, user b -> peek (write_cr3 c m') b = None;
}.

(** [unwrap] of a result. *)
Definition st_unwrap {S E F A} (m : st S E A) : st S F A := fun s =>
  match m s with (Ok a, s) => (Ok a, s) | (_, s) => (Panic, s) end.

Section Access.
Context {M : Type} `{HU : UserSpace M}.

Definition write_byte {E} (a v : Z) : st M E unit := fun m =>
  match poke a v m with Some m' => (Ok tt, m') | None => (Panic, m) end.
Fixpoint write_bytes {E} (a : Z) (bs : list Z) : st M E unit :=
  match bs with [] => mret tt | b :: bs => _ ← write_byte a b; write_bytes (a + 1) bs end.
(** [*(addr as *mut u64) = val]. *)
Definition write_word {E} (a v : Z) : st M E unit := write_bytes a (to_le 8 v).
Definition switch_space {E} (c : Z) : st M E unit := fun m => (Ok tt, write_cr3 c m).
Definition ualloc_unwrap {E} (addr flags : Z) : st M E unit := _ ← st_unwrap (ualloc addr flags); mret tt.

(** The bytes at [a] in the active space. *)
Definition holds (m : M) (a : Z) (bs : list Z) : Prop := forall i b, bs !! i = Some b -> peek m (a + Z.of_nat i) = Some b.
Definition mapped (m : M) (a n : Z) : Prop := forall b, a <= b < a + n -> is_Some (peek m b).
Definition inside (a n b : Z) : Prop := a <= b < a + n.
End Access.

Section Laws.
Context {M : Type} `{HU : UserSpace M} `{HA : AddressSpaces M} `{HL : !UserSpaceLaws M}.

(** [m'] differs from [m] at most in the bytes of [P]. *)
Record changes (P : Z -> Prop) (m m' : M) : Prop := {
  ch_ok : us_ok m';
  ch_cr3 : cr3_of m' = cr3_of m;
  ch_room n : us_room m n -> us_room m' n;
  ch_mapped b : user b -> is_Some (peek m b) -> is_Some (peek m' b);
  ch_other b : user b -> ~ P b -> peek m' b = peek m b;
}.
Lemma changes_refl P m : us_ok m -> changes P m m.
Proof. by split. Qed.
Lemma changes_trans P m m1 m2 : changes P m m1 -> changes P m1 m2 -> changes P m m2.
Proof.
  intros [A1 A2 A3 A4 A5] [B1 B2 B3 B4 B5]. split; [done|congruence|auto|auto|]. intros b Hb HP. by rewrite B5, A5.
Qed.
Lemma changes_weaken (P Q : Z -> Prop) m m' : (forall b, P b -> Q b) -> changes P m m' -> changes Q m m'.
Proof. intros HPQ [A1 A2 A3 A4 A5]. split; try done. intros b Hb HQ. apply A5; [done|]. auto. Qed.
Lemma changes_mapped P m m' a n : changes P m m' -> 0 <= a -> a + n <= USER_END -> mapped m a n -> mapped m' a n.
Proof. intros Hc Ha Hn Hm b Hb. apply (ch_mapped _ _ _ Hc); [unfold user; lia|by apply Hm]. Qed.
Lemma changes_holds P m m' a bs : changes P m m' -> 0 <= a -> a + Z.of_nat (length bs) <= USER_END ->
  (forall b, inside a (Z.of_nat (length bs)) b -> ~ P b) -> holds m a bs -> holds m' a bs.
Proof.
  intros Hc Ha Hn Hd Hh i b Hi. pose proof (lookup_lt_Some _ _ _ Hi). rewrite (ch_other _ _ _ Hc); [by apply Hh|unfold user; lia|].
  apply Hd. unfold inside. lia.
Qed.
Lemma holds_app m a bs cs : holds m a bs -> holds m (a + Z.of_nat (length bs)) cs -> holds m a (bs ++ cs).
Proof.
  intros Hb Hc i b Hi. apply lookup_app_Some in Hi as [Hi|[Hle Hi]]; [by apply Hb|]. apply Hc in Hi. rewrite <-Hi. f_equal. lia.
Qed.

Lemma write_byte_ok {E} m a v : us_ok m -> user a -> is_byte v -> is_Some (peek m a) ->
  exists m', write_byte (E := E) a v m = (Ok tt, m') /\ changes (eq a) m m' /\ peek m' a = Some v.
Proof.
  intros Hm Ha Hv Hp. destruct (poke_ok m a v Hm Ha Hv Hp) as (m' & Hrun & Hok & Hc & Hr & Hb).
  exists m'. unfold write_byte. rewrite Hrun. split; [done|]. split; [|by rewrite Hb, decide_True].
  split; try done.
  - intros b Hub Hbm. rewrite Hb by done. by destruct (decide (b = a)).
  - intros b Hub Hne. rewrite Hb by done. by rewrite decide_False by congruence.
Qed.
Lemma write_bytes_ok {E} bs : forall m a, us_ok m -> 0 <= a -> a + Z.of_nat (length bs) <= USER_END -> Forall is_byte bs ->
  mapped m a (Z.of_nat (length bs)) ->
  exists m', write_bytes (E := E) a bs m = (Ok tt, m') /\ changes (inside a (Z.of_nat (length bs))) m m' /\ holds m' a bs.
Proof.
  induction bs as [|b bs IH]; intros m a Hm Ha Hn Hb Hmap.
  - exists m. split; [done|]. split; [by apply changes_refl|]. by intros i b Hi.
  - cbn [length] in *. apply Forall_cons in Hb as [Hb Hbs].
    destruct (write_byte_ok (E := E) m a b Hm) as (m1 & Hrun1 & Hc1 & Hp1); [unfold user; lia|done|apply Hmap; lia|].
    destruct (IH m1 (a + 1)) as (m2 & Hrun2 & Hc2 & Hh2); [apply Hc1|lia|lia|done| |].
    { intros x Hx. apply (ch_mapped _ _ _ Hc1); [unfold user; lia|apply Hmap; lia]. }
    exists m2. cbn [write_bytes]. rewrite (st_bind_eq _ _ _ _ _ Hrun1), Hrun2. split; [done|]. split.
    + eapply changes_trans; (eapply changes_weaken; [|eassumption]); unfold inside; intros; lia.
    + intros [|i] x Hi; cbn in Hi.
      * injection Hi as <-. rewrite Z.add_0_r. rewrite (ch_other _ _ _ Hc2); [done|unfold user; lia|unfold inside; lia].
      * apply Hh2 in Hi. rewrite <-Hi. f_equal. lia.
Qed.
Lemma write_bytes_fault {E} bs : forall m a i, us_ok m -> 0 <= a -> a + Z.of_nat (length bs) <= USER_END -> Forall is_byte bs ->
  (i < length bs)%nat -> peek m (a + Z.of_nat i) = None -> exists m', write_bytes (E := E) a bs m = (Panic, m').
Proof.
  induction bs as [|b bs IH]; intros m a i Hm Ha Hn Hb Hi Hp; [cbn in Hi; lia|]. apply Forall_cons in Hb as [Hb Hbs]. cbn [length write_bytes] in *.
  destruct (peek m a) as [v|] eqn:Hpa.
  - destruct (write_byte_ok (E := E) m a b Hm) as (m1 & Hrun1 & Hc1 & Hp1); [unfold user; lia|done|by rewrite Hpa|].
    rewrite (st_bind_eq _ _ _ _ _ Hrun1). destruct i as [|i]; [rewrite Z.add_0_r in Hp; congruence|].
    apply (IH m1 (a + 1) i); [apply Hc1|lia|lia|done|lia|]. rewrite (ch_other _ _ _ Hc1); [|unfold user; lia|lia].
    rewrite <-Hp. f_equal. lia.
  - exists m. apply st_bind_Panic. unfold write_byte. by rewrite poke_fault.
Qed.

(** [m'] maps what [m] maps and more: pages of [Q]; of the bytes mapped before, those of [W] may
    have changed. *)
Record extends (W Q : Z -> Prop) (m m' : M) : Prop := {
  ex_ok : us_ok m';
  ex_cr3 : cr3_of m' = cr3_of m;
  ex_mapped b : user b -> is_Some (peek m b) -> is_Some (peek m' b);
  ex_keep b : user b -> is_Some (peek m b) -> ~ W b -> peek m' b = peek m b;
  ex_new b : user b -> is_Some (peek m' b) -> is_Some (peek m b) \/ Q b;
}.
Lemma extends_refl W Q m : us_ok m -> extends W Q m m.
Proof. split; auto. Qed.
Lemma extends_trans W Q m m1 m2 : extends W Q m m1 -> extends W Q m1 m2 -> extends W Q m m2.
Proof.
  intros [A1 A2 A3 A4 A5] [B1 B2 B3 B4 B5]. split; [done|congruence|auto| |].
  - intros b Hb Hm HP. rewrite B4, A4; auto.
  - intros b Hb [Hs|?]%B5; auto.
Qed.
Lemma extends_weaken (W W' Q Q' : Z -> Prop) m m' :
  (forall b, W b -> W' b) -> (forall b, Q b -> Q' b) -> extends W Q m m' -> extends W' Q' m m'.
Proof. intros HW HQ [A1 A2 A3 A4 A5]. split; auto. intros b Hb [?|?]%A5; auto. Qed.
Lemma changes_extends (W Q : Z -> Prop) m m' : changes W m m' -> (forall b, user b -> W b -> is_Some (peek m b)) -> extends W Q m m'.
Proof.
  intros [A1 A2 A3 A4 A5] HW. split; auto. intros b Hb Hs. left. destruct (peek m b) eqn:Hp; [done|].
  rewrite A5, Hp in Hs; [done|done|]. intros HWb. destruct (HW b Hb HWb). congruence.
Qed.

(** One more page. *)
Lemma ualloc_unwrap_ok {E} m p n : us_ok m -> user p -> p mod PAGE_4K = 0 -> us_room m (4 + n) ->
  exists m', ualloc_unwrap (E := E) p USER_PAGE m = (Ok tt, m') /\ extends (fun _ => False) (inside p PAGE_4K) m m' /\
    us_room m' n /\ (p + PAGE_4K <= USER_END -> mapped m' p PAGE_4K).
Proof.
  intros Hm Hp Hal Hr. destruct (ualloc_ok m p n Hm Hp Hal Hr) as (f & m' & Hrun & Hok & Hc & Hr' & Hnew & Hold). exists m'. split_and!; [| |done|].
  - unfold ualloc_unwrap, st_unwrap, mbind, st_bind. by rewrite Hrun.
  - assert (forall b, page_of b = p -> inside p PAGE_4K b) as Hin by (intros b <-; unfold inside, page_of, PAGE_4K; pose proof (Z.mod_pos_bound b 4096); lia).
    split; try done.
    + intros b Hb Hs. rewrite Hold; auto.
    + intros b Hb Hs _. apply Hold; auto.
    + intros b Hb Hs. destruct (decide (page_of b = p)) as [Hpb|Hpb]; [right; auto|left]. rewrite Hold in Hs; auto.
  - intros He b Hb. apply Hnew; [unfold user in *; unfold PAGE_4K in *; lia|]. unfold page_of, PAGE_4K in *. Z.to_euclidean_division_equations. lia.
Qed.
End Laws.
