(* ===== verification/MemSpace.v ===== *)
(** * Page tables as the address space of a program

    The operations that loading a program relies on (UserSpace.v), on the page tables and the page
    allocator of the kernel, with the laws it asks for. *)
From S2P Require Import Prelude Bytes OpenFile Process UserMem UserSpace PageAlloc Paging Mapping Cow CowScratch CowClone CowTables CowFork CowSpace.
#[local] Open Scope list_scope.

(** ** Bytes of words *)
Definition byte_of (w j : Z) : Z := Z.land (Z.shiftr w (8 * j)) 0xFF.
Definition set_byte (w j v : Z) : Z := Z.lor (Z.ldiff w (Z.shiftl 0xFF (8 * j))) (Z.shiftl v (8 * j)).
Lemma byte_range w j : is_byte (byte_of w j).
Proof. unfold byte_of, is_byte. change 0xFF with (Z.ones 8). rewrite Z.land_ones by lia. apply Z.mod_pos_bound. lia. Qed.
Lemma byte_set w j v k : 0 <= j -> 0 <= k -> is_byte v -> byte_of (set_byte w j v) k = if decide (k = j) then v else byte_of w k.
Proof.
  intros Hj Hk Hv. unfold is_byte in Hv. assert (forall i, 8 <= i -> Z.testbit v i = false) as Hhigh.
  { intros i Hi. apply Z.testbit_false; [lia|]. rewrite Z.div_small; [done|]. split; [lia|]. apply Z.lt_le_trans with (2 ^ 8); [lia|]. apply Z.pow_le_mono_r; lia. }
  apply Z.bits_inj'. intros i Hi. unfold byte_of, set_byte. change 0xFF with (Z.ones 8).
  rewrite Z.land_spec, Z.shiftr_spec, Z.lor_spec, Z.ldiff_spec, !Z.shiftl_spec by lia.
  destruct (decide (k = j)) as [->|Hne].
  - replace (i + 8 * j - 8 * j) with i by lia. destruct (Z.ltb_spec i 8).
    + rewrite Z.ones_spec_low by lia. cbn. by rewrite andb_false_r, andb_true_r.
    + rewrite Z.ones_spec_high by lia. by rewrite andb_false_r, Hhigh.
  - rewrite Z.land_spec, Z.shiftr_spec by lia. destruct (Z.ltb_spec i 8); [|by rewrite (Z.ones_spec_high 8 i), !andb_false_r by lia].
    rewrite (Z.ones_spec_low 8 i) by lia. rewrite !andb_true_r. destruct (Z.ltb_spec (i + 8 * k - 8 * j) 0).
    + rewrite (Z.testbit_neg_r v), (Z.testbit_neg_r (Z.ones 8)) by lia. cbn. by rewrite andb_true_r, orb_false_r.
    + rewrite Hhigh, Z.ones_spec_high by lia. cbn. by rewrite andb_true_r, orb_false_r.
Qed.

(** ** Frames to take *)
Definition mem_room (s : Mem) (n : nat) : Prop := exists X : gset Z, (n < base.size X)%nat /\ forall x, x ∈ X -> free s x = true.
Lemma list_set_size (l : list Z) : (base.size (list_to_set l : gset Z) <= length l)%nat.
Proof.
  induction l as [|x l IH]; cbn [list_to_set length foldr]; [by rewrite size_empty|]. rewrite size_union_alt, size_singleton.
  pose proof (subseteq_size (list_to_set l ∖ {[x]}) (list_to_set l : gset Z) ltac:(set_solver)). lia.
Qed.
Lemma room_not_few s n : mem_room s (4 + n) -> ~ few s.
Proof.
  intros (X & HX & Hf) (l & Hl & Hall). assert (X ⊆ list_to_set l) as Hsub by (intros x Hx; apply elem_of_list_to_set; auto).
  apply subseteq_size in Hsub. pose proof (list_set_size l). lia.
Qed.
Lemma room_spent s s' n : mem_room s (4 + n) -> spent s s' -> mem_room s' n.
Proof.
  intros (X & HX & Hf) (l & Hl & Hq). exists (X ∖ list_to_set l). split.
  - rewrite size_difference_alt. pose proof (subseteq_size (X ∩ list_to_set l) (list_to_set l) ltac:(set_solver)). pose proof (list_set_size l). lia.
  - intros x [Hx Hxl]%elem_of_difference. rewrite elem_of_list_to_set in Hxl. rewrite Hq, (Hf x Hx), bool_decide_eq_false_2; done.
Qed.
Lemma room_mono s s' n k : (k <= n)%nat -> (forall x, free s' x = free s x) -> mem_room s n -> mem_room s' k.
Proof. intros Hk Hfr (X & HX & Hf). exists X. split; [lia|]. intros x Hx. rewrite Hfr. auto. Qed.

Section Space.
Context `{HP : Paging} {HL : PagingLaws}.

(** ** Paths *)
Lemma reach_app m t p q : reach m t (p ++ q) = reach m t p ≫= (fun x => reach m x q).
Proof using.
  revert t. induction p as [|i p IH]; intros t; [done|]. cbn. destruct (entry_of m t i) as [e|]; [|done]. by destruct (links e).
Qed.
Lemma reach_same m m' t q : (forall k x, (k < length q)%nat -> reach m t (take k q) = Some x -> m' !! x = m !! x) -> reach m' t q = reach m t q.
Proof using.
  revert t. induction q as [|i q IH]; intros t Hs; [done|]. cbn [reach].
  assert (entry_of m' t i = entry_of m t i) as -> by (unfold entry_of; by rewrite (Hs 0%nat t); [|cbn; lia|]).
  destruct (entry_of m t i) as [e|] eqn:He; [|done]. destruct (links e) eqn:Hl; [|done]. apply IH. intros k x Hk Hr.
  apply (Hs (S k) x); [cbn; lia|]. cbn. by rewrite He, Hl.
Qed.
Lemma reach_walk m t q x : reach m t q = Some x -> q <> [] -> exists e, walk m t q = Some (O, e) /\ pte_addr e = x /\ links e = true.
Proof using.
  revert t. induction q as [|i q IH]; intros t Hr Hne; [done|]. apply reach_cons in Hr as (e & He & Hl & Hr).
  destruct q as [|j q].
  - injection Hr as <-. exists e. split; [|done]. apply walk_leaf; [done|]. unfold links in Hl. by apply andb_true_iff in Hl as [? _].
  - rewrite (walk_link _ _ _ _ e) by done. by apply IH.
Qed.
Lemma walk_reach m t q e : walk m t q = Some (O, e) -> links e = true -> reach m t q = Some (pte_addr e).
Proof using.
  revert t. induction q as [|i q IH]; intros t Hw Hl; [done|]. cbn [walk reach] in *. destruct (entry_of m t i) as [d|]; [|done].
  destruct (present d) eqn:Hp; [|done]. cbn [negb] in Hw. destruct q as [|j q].
  - injection Hw as ->. by rewrite Hl.
  - destruct (links d); [by apply IH|]. done.
Qed.
Lemma visited_reach m t q k x : visited m t q !! k = Some x -> reach m t (take k q) = Some x.
Proof using.
  revert t k. induction q as [|i q IH]; intros t k Hk; [done|]. destruct k as [|k]; [by injection Hk as ->|].
  destruct (decide (q = [])) as [->|Hne]; [done|]. destruct (entry_of m t i) as [e|] eqn:He.
  - destruct (links e) eqn:Hl; [|rewrite visited_stop in Hk by (intros ? ?; congruence); done].
    rewrite (visited_link _ _ _ _ e) in Hk by done. cbn. rewrite He, Hl. by apply IH.
  - rewrite visited_stop in Hk by (intros ? ?; congruence). done.
Qed.
(** Past the tables visited the path leads nowhere. *)
Lemma visited_end m t q k : (length (visited m t q) <= k < length q)%nat -> reach m t (take k q) = None.
Proof using.
  revert t k. induction q as [|i q IH]; intros t k [Hv Hk]; [cbn in Hk; lia|].
  destruct k as [|k]; [cbn in Hv; lia|]. cbn [take reach].
  destruct (decide (q = [])) as [->|Hne]; [cbn in Hk; lia|]. destruct (entry_of m t i) as [e|] eqn:He; [|done].
  destruct (links e) eqn:Hl; [|done]. rewrite (visited_link _ _ _ _ e) in Hv by done. apply IH. cbn in Hv, Hk. lia.
Qed.

(** ** The invariant *)
Definition upath (p : list nat) : Prop := match p with [] => True | i :: _ => (i < 256)%nat end.
(** The tables and the pages of the user half are apart, in use, and every entry is empty or leads
    on; the pages are the user's. *)
Record space (s : Mem) : Prop := {
  sp_mem : mem_ok s;
  sp_root : is_table_frame (ram s) (cr3_reg s) /\ free s (cr3_reg s) = false;
  sp_frame p x : upath p -> (length p <= 4)%nat -> reach (ram s) (cr3_reg s) p = Some x -> is_table_frame (ram s) x /\ free s x = false;
  sp_inj p q x : upath p -> upath q -> (length p <= 4)%nat -> (length q <= 4)%nat ->
    reach (ram s) (cr3_reg s) p = Some x -> reach (ram s) (cr3_reg s) q = Some x -> p = q;
  sp_entry p x i e : upath (p ++ [i]) -> (length p <= 3)%nat -> reach (ram s) (cr3_reg s) p = Some x -> entry_of (ram s) x i = Some e ->
    e = 0 \/ links e = true /\ (length p = 3%nat -> pte_flags e = USER_PAGE);
}.
Lemma upath_take p k : upath p -> upath (take k p).
Proof using. destruct p, k; done. Qed.
Lemma upath_app p q : upath (p ++ q) -> upath p.
Proof using. by destruct p. Qed.

Section Path.
Context (s : Mem) (Hs : space s) (path : list nat) (Hu : upath path) (Hlen : length path = 4%nat) (H512 : Forall (fun i => i < 512)%nat path).
Let m := ram s.
Let root := cr3_reg s.

Lemma path_visited k x : visited m root path !! k = Some x -> is_table_frame m x /\ free s x = false.
Proof using Hs Hu Hlen.
  intros Hk. apply visited_reach in Hk. apply (sp_frame s Hs (take k path)); [by apply upath_take|rewrite length_take; lia|done].
Qed.
Lemma path_ready : ready m root path.
Proof using HL Hs Hu Hlen H512.
  assert (forall k x, visited m root path !! k = Some x -> (k < 4)%nat) as Hk4.
  { intros k x Hk. apply lookup_lt_Some in Hk. pose proof (visited_length m root path). lia. }
  split_and!; [| |done|].
  - apply NoDup_alt. intros i j x Hi Hj. pose proof (Hk4 _ _ Hi). pose proof (Hk4 _ _ Hj). apply visited_reach in Hi, Hj.
    assert (take i path = take j path) as Heq by (apply (sp_inj s Hs _ _ x); [by apply upath_take..|rewrite length_take; lia|rewrite length_take; lia|done|done]).
    apply (f_equal length) in Heq. rewrite !length_take in Heq. lia.
  - apply Forall_lookup. intros k x Hk. by apply path_visited in Hk as [? _].
  - intros k x i e Hk Hi He. destruct (sp_entry s Hs (take k path) x i e) as [->|[Hl _]].
    + rewrite <-(take_S_r _ _ _ Hi). by apply upath_take.
    + rewrite length_take. pose proof (Hk4 _ _ Hk). lia.
    + by apply visited_reach.
    + done.
    + left. by apply pte_unused_ok.
    + right. unfold links in Hl. by apply andb_true_iff in Hl as [? _].
Qed.
Lemma path_walk : walk m root path = None /\ reach m root path = None \/
  exists e, walk m root path = Some (O, e) /\ reach m root path = Some (pte_addr e) /\ pte_flags e = USER_PAGE.
Proof using HL Hs Hu Hlen H512.
  assert (forall suf pre x, path = pre ++ suf -> suf <> [] -> reach m root pre = Some x ->
    walk m x suf = None /\ reach m x suf = None \/ exists e, walk m x suf = Some (O, e) /\ reach m x suf = Some (pte_addr e) /\ pte_flags e = USER_PAGE) as Hgen.
  { induction suf as [|i suf IH]; intros pre x Hp Hne Hr; [done|]. cbn [walk reach]. destruct (entry_of m x i) as [e|] eqn:He; [|by left].
    pose proof (f_equal length Hp) as Hl. rewrite length_app in Hl. cbn in Hl.
    destruct (sp_entry s Hs pre x i e) as [->|[Hlk Hfl]]; [|lia|done|done| |].
    { assert (path = (pre ++ [i]) ++ suf) as Hp' by (by rewrite <-app_assoc). rewrite Hp' in Hu. by apply upath_app in Hu. }
    { left. unfold links, present. rewrite pte_zero. done. }
    assert (present e = true) as Hpr by (unfold links in Hlk; by apply andb_true_iff in Hlk as [? _]). rewrite Hpr, Hlk. cbn [negb].
    destruct suf as [|j suf]; [right; exists e; split_and!; [done|done|apply Hfl; cbn in Hl; lia]|].
    apply (IH (pre ++ [i])); [by rewrite <-app_assoc|done|]. rewrite reach_app, Hr. cbn. by rewrite He, Hlk. }
  apply (Hgen path [] root); [done|by intros ->|done].
Qed.

(** ** Mapping the page of the path *)
Section Mapped.
Context (s' : Mem) (fs : list Z) (e : Z).
Let m' := ram s'.
Let V := visited m root path.
Let chain := V ++ fs ++ [pte_addr e].
Context (Hfs : Forall (fun x => free s x = true) fs) (Heff : map_effect m root path fs m').
Context (Hw : walk m' root path = Some (O, e)) (Hlk : links e = true).

Lemma chain_length : length (V ++ fs) = 4%nat.
Proof using Heff Hw Hlen. unfold V. rewrite <-(me_visited _ _ _ _ _ Heff), (walk_all_visited _ _ _ _ Hw). done. Qed.
Lemma chain_reach k x : chain !! k = Some x -> (k <= 4)%nat /\ reach m' root (take k path) = Some x.
Proof using Heff Hw Hlk Hlen.
  intros Hk. pose proof chain_length as Hc. unfold chain in Hk. rewrite app_assoc in Hk. apply lookup_app_Some in Hk as [Hk|[Hge Hk]].
  - pose proof (lookup_lt_Some _ _ _ Hk). split; [lia|]. apply visited_reach. by rewrite (me_visited _ _ _ _ _ Heff).
  - rewrite Hc in *. destruct (k - 4)%nat as [|j] eqn:Hj; [|done]. injection Hk as <-. assert (k = 4%nat) as -> by lia.
    split; [done|]. rewrite take_ge by lia. by apply walk_reach.
Qed.
Lemma chain_some k : (k <= 4)%nat -> exists x, chain !! k = Some x.
Proof using Heff Hw Hlen. intros Hk. apply lookup_lt_is_Some_2. unfold chain. rewrite app_assoc, length_app, chain_length. cbn. lia. Qed.
(** The entries of the tables of the chain. *)
Lemma chain_old k x i : V !! k = Some x -> path !! k <> Some i -> entry_of m' x i = entry_of m x i.
Proof using Heff Hlen.
  intros Hk Hi. destruct (lookup_lt_is_Some_2 path k) as [j Hj].
  { apply lookup_lt_Some in Hk. pose proof (visited_length m root path). unfold V in Hk. lia. }
  destruct (me_old _ _ _ _ _ Heff k x j Hk Hj) as (ws & d & H1 & H2). unfold entry_of. rewrite H1, H2. cbn [mbind option_bind].
  rewrite list_lookup_insert_ne; [done|]. intros ->. done.
Qed.
Lemma chain_new k x i d : fs !! k = Some x -> path !! (length V + k)%nat <> Some i -> entry_of m' x i = Some d -> d = 0.
Proof using Heff Hw Hlen.
  intros Hk Hi Hd. destruct (lookup_lt_is_Some_2 path (length V + k)) as [j Hj].
  { pose proof chain_length as Hc. rewrite length_app in Hc. apply lookup_lt_Some in Hk. lia. }
  destruct (me_new _ _ _ _ _ Heff k x j Hk Hj) as (d0 & H1). unfold entry_of in Hd. rewrite H1 in Hd. cbn [mbind option_bind] in Hd.
  rewrite list_lookup_insert_ne in Hd by congruence. by apply lookup_replicate in Hd as [-> _].
Qed.
(** Tables and pages off the path are as they were. *)
Lemma off_path q x : upath q -> (length q <= 4)%nat -> reach m root q = Some x -> ~ q `prefix_of` path \/ length q = 4%nat -> m' !! x = m !! x.
Proof using Hs Hu Hlen Hfs Heff.
  intros Hq Hl Hr Hoff. apply (me_frame _ _ _ _ _ Heff).
  - intros Hx. rewrite Forall_forall in Hfs. destruct (sp_frame s Hs q x Hq Hl Hr) as [_ Hf]. by rewrite (Hfs x Hx) in Hf.
  - intros (k & Hk)%list_elem_of_lookup. pose proof (lookup_lt_Some _ _ _ Hk). pose proof (visited_length m root path). apply visited_reach in Hk.
    assert (q = take k path) as -> by (apply (sp_inj s Hs _ _ x); [done|by apply upath_take|done|rewrite length_take; lia|done|done]).
    destruct Hoff as [Hoff|Hoff]; [apply Hoff, prefix_take|rewrite length_take in Hoff; lia].
Qed.

Lemma reach_new q : upath q -> (length q <= 4)%nat ->
  reach m' root q = if decide (q `prefix_of` path) then chain !! length q else reach m root q.
Proof using HL Hs Hu Hlen H512 Hfs Heff Hw Hlk.
  intros Hq Hl. destruct (decide (q `prefix_of` path)) as [[r Hp]|Hnp].
  - destruct (chain_some (length q) Hl) as [x Hx]. rewrite Hx. apply chain_reach in Hx as [_ Hx]. rewrite Hp, take_app_length in Hx. done.
  - (* the first index off the path *)
    assert (exists k i r, q = take k path ++ i :: r /\ (k < 4)%nat /\ path !! k <> Some i) as (k & i & r & Hqe & Hk & Hi).
    { clear -Hnp Hl Hlen. assert (forall p, (length q <= length p)%nat -> ~ q `prefix_of` p -> exists k i r, q = take k p ++ i :: r /\ (k < length p)%nat /\ p !! k <> Some i) as Hg.
      { clear. induction q as [|i q IH]; intros p Hl Hn; [by destruct Hn; apply prefix_nil|]. destruct p as [|j p]; [cbn in Hl; lia|].
        destruct (decide (i = j)) as [->|Hne].
        - destruct (IH p) as (k & i & r & -> & Hk & Hi); [cbn in Hl; lia|by intros Hx; apply Hn, prefix_cons|]. exists (S k), i, r. split_and!; [done|cbn; lia|done].
        - exists 0%nat, i, q. split_and!; [done|cbn; lia|cbn; congruence]. }
      rewrite <-Hlen. apply Hg; [lia|done]. }
    destruct (chain_some k ltac:(lia)) as [t Ht]. pose proof (chain_reach k t Ht) as [_ Hrt]. rewrite Hqe, !reach_app, Hrt. cbn [mbind option_bind].
    unfold chain in Ht. rewrite app_assoc, lookup_app_l in Ht by (rewrite chain_length; lia). apply lookup_app_Some in Ht as [Ht|[Hge Ht]].
    + pose proof (visited_reach _ _ _ _ _ Ht) as Hrm. rewrite Hrm. cbn [mbind option_bind]. cbn [reach].
      rewrite (chain_old k t i Ht Hi). destruct (entry_of m t i) as [d|] eqn:Hd; [|done]. destruct (links d) eqn:Hld; [|done].
      apply reach_same. intros j x Hj Hrx. apply (off_path (take k path ++ i :: take j r)).
      * rewrite Hqe in Hq. by destruct k, path.
      * rewrite Hqe, length_app in Hl. rewrite length_app. cbn [length] in Hl |- *. rewrite (length_take r). lia.
      * rewrite reach_app, Hrm. cbn. by rewrite Hd, Hld.
      * left. intros [r' Hp]. apply Hi. rewrite Hp, <-app_assoc. rewrite lookup_app_r by (rewrite length_take; lia).
        rewrite length_take, Nat.min_l, Nat.sub_diag by lia. done.
    + assert (reach m root (take k path) = None) as -> by (apply visited_end; fold V; lia). cbn [mbind option_bind]. cbn [reach].
      destruct (entry_of m' t i) as [d|] eqn:Hd; [|done]. apply (chain_new (k - length V)) in Hd as ->; [|done|by replace (length V + (k - length V))%nat with k by lia].
      unfold links, present. by rewrite pte_zero.
Qed.

Context (Hm' : mem_ok s') (Hcr : cr3_reg s' = root) (Hfl : pte_flags e = USER_PAGE).
Context (Hsub : forall q, free s' q = true -> free s q = true) (Htaken : Forall (fun x => free s' x = false) fs).
Context (Hlast : free s (pte_addr e) = true /\ free s' (pte_addr e) = false \/ reach m root path = Some (pte_addr e)).
Context (Hnd : NoDup (fs ++ [pte_addr e])).

Lemma kept_frame x : is_table_frame m x -> is_table_frame m' x.
Proof using Heff H512. intros Hx. eapply map_effect_frames; [exact Heff|done|by eapply map_effect_length|done]. Qed.
Lemma still_taken x : free s x = false -> free s' x = false.
Proof using Hsub. intros Hx. destruct (free s' x) eqn:Hf; [|done]. by rewrite (Hsub x Hf) in Hx. Qed.
Lemma chain_frame k x : chain !! k = Some x -> is_table_frame m' x /\ free s' x = false.
Proof using Hs Hu Hlen H512 Hfs Heff Hsub Htaken Hlast.
  intros Hk. unfold chain in Hk. apply lookup_app_Some in Hk as [Hk|[_ Hk]].
  - apply path_visited in Hk as [? ?]; [|done..]. split; [by apply kept_frame|by apply still_taken].
  - apply lookup_app_Some in Hk as [Hk|[_ Hk]].
    + split; [|by apply (Forall_lookup_1 _ _ _ _ Htaken Hk)]. apply kept_frame. pose proof (Forall_lookup_1 _ _ _ _ Hfs Hk) as Hf. cbn in Hf.
      by apply (mem_ok_back s x (sp_mem s Hs)) in Hf as [? _].
    + apply list_lookup_singleton_Some in Hk as [_ <-]. destruct Hlast as [[Hf Hf']|Hr].
      * split; [|done]. apply kept_frame. by apply (mem_ok_back s _ (sp_mem s Hs)) in Hf as [? _].
      * destruct (sp_frame s Hs path (pte_addr e)) as [? ?]; [done|lia|done|]. split; [by apply kept_frame|by apply still_taken].
Qed.
(** What was reachable and is on the chain was reached along the path. *)
Lemma chain_known q k x : upath q -> (length q <= 4)%nat -> reach m root q = Some x -> chain !! k = Some x -> q `prefix_of` path.
Proof using Hs Hu Hlen Hfs Hlast.
  intros Hq Hl Hr Hk. unfold chain in Hk. apply lookup_app_Some in Hk as [Hk|[_ Hk]].
  - pose proof (lookup_lt_Some _ _ _ Hk). pose proof (visited_length m root path). unfold V in *. apply visited_reach in Hk.
    assert (q = take k path) as ->; [|apply prefix_take]. apply (sp_inj s Hs _ _ x); [done|by apply upath_take|done|rewrite length_take; lia|done|done].
  - destruct (sp_frame s Hs q x Hq Hl Hr) as [_ Hf]. apply lookup_app_Some in Hk as [Hk|[_ Hk]].
    + pose proof (Forall_lookup_1 _ _ _ _ Hfs Hk) as Hf'. cbn in Hf'. by rewrite Hf in Hf'.
    + apply list_lookup_singleton_Some in Hk as [_ <-]. destruct Hlast as [[Hf' _]|Hr']; [by rewrite Hf in Hf'|].
      assert (q = path) as ->; [|done]. apply (sp_inj s Hs _ _ (pte_addr e)); try done; lia.
Qed.
Lemma chain_nodup : NoDup chain.
Proof using HL Hs Hu Hlen H512 Hfs Hlast Hnd.
  apply NoDup_app. split_and!; [by destruct path_ready| |done]. intros x (k & Hk)%list_elem_of_lookup Hx.
  assert (chain !! k = Some x) as Hck by (unfold chain; by apply lookup_app_l_Some).
  pose proof (lookup_lt_Some _ _ _ Hk) as Hkl. pose proof (visited_length m root path) as Hvl. fold V in Hvl. pose proof (path_visited _ _ Hk) as [_ Hf].
  apply elem_of_app in Hx as [Hx|Hx%list_elem_of_singleton].
  - rewrite Forall_forall in Hfs. by rewrite (Hfs x Hx) in Hf.
  - subst x. destruct Hlast as [[Hf' _]|Hr]; [by rewrite Hf in Hf'|]. apply visited_reach in Hk.
    assert (path = take k path) as Hp by (apply (sp_inj s Hs _ _ (pte_addr e)); [done|by apply upath_take|lia|rewrite length_take; lia|done|done]).
    apply (f_equal length) in Hp. rewrite length_take in Hp. lia.
Qed.
Lemma prefix_take_length q : q `prefix_of` path -> q = take (length q) path.
Proof using. intros [r Hr]. by rewrite Hr, take_app_length. Qed.

Lemma space_mapped : space s'.
Proof using All.
  split.
  - done.
  - rewrite Hcr. destruct (sp_root s Hs). split; [by apply kept_frame|by apply still_taken].
  - rewrite Hcr. intros q x Hq Hl Hr. fold m' in Hr |- *. rewrite reach_new in Hr by done. destruct (decide _); [by eapply chain_frame|].
    destruct (sp_frame s Hs q x) as [? ?]; [done..|]. split; [by apply kept_frame|by apply still_taken].
  - rewrite Hcr. intros p q x Hp Hq Hlp Hlq Hrp Hrq. fold m' in Hrp, Hrq. rewrite reach_new in Hrp, Hrq by done.
    destruct (decide (p `prefix_of` path)) as [Hpp|Hpp], (decide (q `prefix_of` path)) as [Hpq|Hpq].
    + rewrite (prefix_take_length p Hpp), (prefix_take_length q Hpq). f_equal. eapply NoDup_lookup; [apply chain_nodup|done|done].
    + by destruct Hpq; eapply chain_known.
    + by destruct Hpp; eapply chain_known.
    + by apply (sp_inj s Hs _ _ x).
  - rewrite Hcr. intros p x i d Hp Hl Hr Hd. fold m' in Hr, Hd. pose proof (upath_app _ _ Hp) as Hup.
    destruct (decide (p ++ [i] `prefix_of` path)) as [Hpi|Hpi].
    + right. destruct (chain_some (length (p ++ [i]))) as [y Hy]; [rewrite length_app; cbn; lia|].
      assert (reach m' root (p ++ [i]) = Some y) as Hry by (rewrite reach_new, decide_True by (done || rewrite length_app; cbn; lia); done).
      rewrite reach_app, Hr in Hry. cbn [mbind option_bind reach] in Hry. rewrite Hd in Hry. destruct (links d) eqn:Hld; [|done]. split; [done|]. intros H3.
      assert (p ++ [i] = path) as Hpe.
      { destruct Hpi as [r Hr']. assert (r = []) as -> by (apply (f_equal length) in Hr'; rewrite !length_app, Hlen in Hr'; destruct r; [done|cbn in Hr'; lia]). by rewrite app_nil_r in Hr'. }
      rewrite <-Hpe in Hw. clear -Hw Hr Hd Hld Hfl. revert Hr Hw. generalize root. induction p as [|j p IH]; intros t Hr Hw.
      * injection Hr as ->. cbn in Hw. rewrite Hd in Hw. destruct (present d); [|done]. cbn in Hw. by injection Hw as ->.
      * apply reach_cons in Hr as (b & Hb & Hlb & Hr). cbn [app] in Hw. rewrite (walk_link _ _ _ _ b) in Hw; [|done|done|by destruct p]. by apply (IH (pte_addr b)).
    + rewrite reach_new in Hr by (done || lia). destruct (decide (p `prefix_of` path)) as [Hpp|Hpp].
      * pose proof (prefix_take_length p Hpp) as Hpt.
        assert (path !! length p <> Some i) as Hne by (intros Hi; apply Hpi; rewrite Hpt, <-(take_S_r _ _ _ Hi); apply prefix_take).
        unfold chain in Hr. apply lookup_app_Some in Hr as [Hr|[Hge Hr]].
        -- rewrite (chain_old _ _ _ Hr Hne) in Hd. apply visited_reach in Hr. rewrite <-Hpt in Hr. by apply (sp_entry s Hs p x i d).
        -- left. apply lookup_app_Some in Hr as [Hr|[Hge' Hr]].
           ++ apply (chain_new _ _ _ _ Hr) in Hd; [done|]. by replace (length V + (length p - length V))%nat with (length p) by lia.
           ++ pose proof chain_length as Hc. rewrite length_app in Hc. apply list_lookup_singleton_Some in Hr as [Hz _]. lia.
      * assert (entry_of m' x i = entry_of m x i) as He by (unfold entry_of; rewrite (off_path p x); [done|done|lia|done|by left]).
        rewrite He in Hd. by apply (sp_entry s Hs p x i d).
Qed.
End Mapped.
End Path.

(** ** Addresses *)
Lemma indices_eq a : 0 <= a < 2 ^ 64 -> indices a = [Z.to_nat (a / 2 ^ 39 mod 512); Z.to_nat (a / 2 ^ 30 mod 512); Z.to_nat (a / 2 ^ 21 mod 512); Z.to_nat (a / 2 ^ 12 mod 512)].
Proof using HL. intros Ha. unfold indices. cbn [fmap list_fmap]. by rewrite !table_index_ok by lia. Qed.
Lemma indices_user a : user a -> upath (indices a) /\ length (indices a) = 4%nat /\ Forall (fun i => i < 512)%nat (indices a).
Proof using HL.
  unfold user, USER_END. intros Ha. rewrite indices_eq by lia. split_and!; [|done|].
  - cbn. Z.to_euclidean_division_equations. lia.
  - assert (forall x, (Z.to_nat (x mod 512) < 512)%nat) as Hx by (intros x; pose proof (Z.mod_pos_bound x 512); lia). by rewrite !Forall_cons.
Qed.
(** The indices are the digits of the page number. *)
Lemma page_digits x : 0 <= x < 2 ^ 47 ->
  x / 2 ^ 12 = (x / 2 ^ 39 mod 512) * 2 ^ 27 + (x / 2 ^ 30 mod 512) * 2 ^ 18 + (x / 2 ^ 21 mod 512) * 2 ^ 9 + x / 2 ^ 12 mod 512.
Proof using.
  intros Hx. change (2 ^ 39) with (2 ^ 12 * 512 * 512 * 512). change (2 ^ 30) with (2 ^ 12 * 512 * 512). change (2 ^ 21) with (2 ^ 12 * 512).
  rewrite <-!Z.div_div by lia. assert (0 <= x / 2 ^ 12 < 2 ^ 35) as Hy by (split; [apply Z.div_pos|apply Z.div_lt_upper_bound]; lia).
  revert Hy. generalize (x / 2 ^ 12). intros y Hy. pose proof (Z.div_mod y 512 ltac:(lia)). pose proof (Z.div_mod (y / 512) 512 ltac:(lia)).
  pose proof (Z.div_mod (y / 512 / 512) 512 ltac:(lia)). pose proof (Z.mod_pos_bound y 512 ltac:(lia)). pose proof (Z.mod_pos_bound (y / 512) 512 ltac:(lia)).
  pose proof (Z.mod_pos_bound (y / 512 / 512) 512 ltac:(lia)). rewrite (Z.mod_small (y / 512 / 512 / 512)) by lia. lia.
Qed.
Lemma indices_page a b : user a -> user b -> indices a = indices b <-> page_of a = page_of b.
Proof using HL.
  unfold user, USER_END. intros Ha Hb. rewrite !indices_eq by lia.
  assert (page_of a = page_of b <-> a / 2 ^ 12 = b / 2 ^ 12) as ->.
  { unfold page_of, PAGE_4K. change (2 ^ 12) with 4096. pose proof (Z.div_mod a 4096). pose proof (Z.div_mod b 4096). lia. }
  split.
  - intros [= H4 H3 H2 H1]. rewrite (page_digits a), (page_digits b) by lia.
    assert (forall x, 0 <= x mod 512) as Hp by (intros x; apply Z.mod_pos_bound; lia). apply Z2Nat.inj in H4, H3, H2, H1; try apply Hp. by rewrite H4, H3, H2, H1.
  - intros H12. assert (forall x k, 0 <= k -> x / 2 ^ (12 + k) = x / 2 ^ 12 / 2 ^ k) as Hd by (intros x k Hk; by rewrite Z.pow_add_r, Z.div_div by lia).
    pose proof (Hd a 27 ltac:(lia)) as A1. pose proof (Hd a 18 ltac:(lia)) as A2. pose proof (Hd a 9 ltac:(lia)) as A3.
    pose proof (Hd b 27 ltac:(lia)) as B1. pose proof (Hd b 18 ltac:(lia)) as B2. pose proof (Hd b 9 ltac:(lia)) as B3.
    change (12 + 27) with 39 in *. change (12 + 18) with 30 in *. change (12 + 9) with 21 in *. by rewrite A1, A2, A3, B1, B2, B3, H12.
Qed.

(** ** The operations *)
Definition word_index (a : Z) : nat := Z.to_nat (a mod PAGE_4K / 8).
Definition frame_byte (m : Ram) (x a : Z) : option Z := ws ← m !! x; w ← ws !! word_index a; Some (byte_of w (a mod 8)).
Definition mem_peek (s : Mem) (a : Z) : option Z :=
  match walk (ram s) (cr3_reg s) (indices a) with Some (O, e) => frame_byte (ram s) (pte_addr e) a | _ => None end.
(** A write needs a page that is writable. *)
Definition mem_poke (a v : Z) (s : Mem) : option Mem :=
  match walk (ram s) (cr3_reg s) (indices a) with
  | Some (O, e) =>
      if contains (pte_flags e) WRITABLE then
        ws ← ram s !! pte_addr e; w ← ws !! word_index a;
        Some (with_ram s (<[pte_addr e := <[word_index a := set_byte w (a mod 8) v]> ws]> (ram s)))
      else None
  | _ => None
  end.
#[export] Instance mem_spaces : AddressSpaces Mem := {
  Process.clone_address_space := clone_address_space;
  Process.new_user_address_space := new_user_address_space;
  Process.teardown_address_space c s := (teardown_address_space c s).2;
}.
#[export] Instance mem_space : UserSpace Mem := {
  cr3_of := cr3_reg;
  write_cr3 c s := with_cr3 s c;
  ualloc p flags := ualloc_page_flags p Arbitrary flags;
  peek := mem_peek;
  poke := mem_poke;
}.

(** What the copies of the system calls do: a store to a page that is not writable faults, and goes
    on if the fault was that of a copy-on-write page that could be resolved. *)
#[export] Instance mem_memory : UserMemory Mem := {
  translated s p := match virt_to_phys (E := unit) p s with (Ok (Some _), _) => true | _ => false end;
  load s a := default 0 (mem_peek s a);
  store s a v :=
    match mem_poke a v s with
    | Some s' => Some s'
    | None => match handle_cow_fault (E := unit) a s with (Ok true, s') => mem_poke a v s' | _ => None end
    end;
}.

(** ** The laws *)
Lemma word_index_lt a : 0 <= a -> (word_index a < 512)%nat.
Proof using. intros Ha. unfold word_index, PAGE_4K. Z.to_euclidean_division_equations. lia. Qed.
Lemma same_byte a b : 0 <= a -> 0 <= b -> page_of a = page_of b -> word_index a = word_index b -> a mod 8 = b mod 8 -> a = b.
Proof using. unfold page_of, word_index, PAGE_4K. intros. Z.to_euclidean_division_equations. lia. Qed.

(** The byte at an address, by the frame the indices lead to. *)
Lemma peek_reach s a : space s -> user a -> mem_peek s a = reach (ram s) (cr3_reg s) (indices a) ≫= (fun x => frame_byte (ram s) x a).
Proof using HL.
  intros Hs Ha. destruct (indices_user a Ha) as (Hu & Hl & H512). unfold mem_peek.
  destruct (path_walk s Hs (indices a) Hu Hl H512) as [[-> ->]|(e & -> & -> & _)]; done.
Qed.
Lemma frame_some m x a : is_table_frame m x -> 0 <= a -> is_Some (frame_byte m x a).
Proof using.
  intros (ws & Hx & Hl) Ha. unfold frame_byte. rewrite Hx. cbn [mbind option_bind]. destruct (lookup_lt_is_Some_2 ws (word_index a)) as [w Hw]; [rewrite Hl; by apply word_index_lt|].
  rewrite Hw. by eexists.
Qed.
Lemma peek_some s a x : space s -> user a -> reach (ram s) (cr3_reg s) (indices a) = Some x -> is_Some (mem_peek s a).
Proof using HL.
  intros Hs Ha Hr. rewrite peek_reach, Hr by done. cbn. destruct (indices_user a Ha) as (Hu & Hl & _). apply frame_some; [|unfold user in Ha; lia].
  apply (sp_frame s Hs (indices a)); [done|lia|done].
Qed.
Lemma peek_none s a : space s -> user a -> reach (ram s) (cr3_reg s) (indices a) = None -> mem_peek s a = None.
Proof using HL. intros Hs Ha Hr. by rewrite peek_reach, Hr. Qed.

(** *** Writing a byte *)
Lemma poke_law s a v : space s -> user a -> is_byte v -> is_Some (mem_peek s a) ->
  exists s', mem_poke a v s = Some s' /\ space s' /\ cr3_reg s' = cr3_reg s /\ (forall x, free s' x = free s x) /\
    forall b, user b -> mem_peek s' b = if decide (b = a) then Some v else mem_peek s b.
Proof using HL.
  intros Hs Ha Hv Hp. destruct (indices_user a Ha) as (Hu & Hl & H512). assert (0 <= a) as Ha0 by (unfold user in Ha; lia).
  destruct (path_walk s Hs (indices a) Hu Hl H512) as [[_ Hr]|(e & Hw & Hr & Hfl)]; [rewrite peek_none in Hp by done; by destruct Hp|].
  destruct (sp_frame s Hs (indices a) (pte_addr e) Hu ltac:(lia) Hr) as [(ws & Hws & Hlw) Hfr]. set (x := pte_addr e) in *.
  destruct (lookup_lt_is_Some_2 ws (word_index a)) as [w Hww]; [rewrite Hlw; by apply word_index_lt|].
  set (m' := <[x := <[word_index a := set_byte w (a mod 8) v]> ws]> (ram s)).
  assert (forall q y, upath q -> (length q <= 3)%nat -> reach (ram s) (cr3_reg s) q = Some y -> m' !! y = ram s !! y) as Htab.
  { intros q y Hq Hlq Hry. unfold m'. apply lookup_insert_ne. intros <-.
    assert (q = indices a) as -> by (apply (sp_inj s Hs _ _ x); (done || lia)). lia. }
  assert (forall q, upath q -> (length q <= 4)%nat -> reach m' (cr3_reg s) q = reach (ram s) (cr3_reg s) q) as Hreach.
  { intros q Hq Hlq. apply reach_same. intros k y Hk Hry. apply (Htab (take k q)); [by apply upath_take|rewrite length_take; lia|done]. }
  exists (with_ram s m'). assert (space (with_ram s m')) as Hs'.
  { split; cbn [ram cr3_reg with_ram].
    - apply mem_ok_put; [done|apply Hs].
    - destruct (sp_root s Hs). split; [by apply table_frame_put|done].
    - intros q y Hq Hlq Hry. rewrite Hreach in Hry by done. destruct (sp_frame s Hs q y Hq Hlq Hry). split; [by apply table_frame_put|done].
    - intros p q y Hpp Hq Hlp Hlq Hrp Hrq. rewrite Hreach in Hrp, Hrq by done. by apply (sp_inj s Hs _ _ y).
    - intros p y i d Hpi Hlp Hry Hd. pose proof (upath_app _ _ Hpi). rewrite Hreach in Hry by (done || lia). unfold entry_of in Hd. rewrite (Htab p y) in Hd by done.
      by apply (sp_entry s Hs p y i d). }
  split_and!; [|done|done|done|].
  - unfold mem_poke. rewrite Hw, Hfl. change (contains USER_PAGE WRITABLE) with true. cbv iota. fold x. rewrite Hws. cbn [mbind option_bind]. by rewrite Hww.
  - intros b Hb. rewrite !peek_reach by done. cbn [ram cr3_reg with_ram]. destruct (indices_user b Hb) as (Hub & Hlb & _). assert (0 <= b) as Hb0 by (unfold user in Hb; lia).
    rewrite Hreach by (done || lia). destruct (reach (ram s) (cr3_reg s) (indices b)) as [y|] eqn:Hy.
    2:{ cbn. destruct (decide (b = a)) as [->|]; [congruence|done]. }
    cbn [mbind option_bind]. unfold frame_byte. destruct (decide (y = x)) as [->|Hne].
    + assert (indices b = indices a) as Hi by (apply (sp_inj s Hs _ _ x); (done || lia)). apply indices_page in Hi; [|done..].
      unfold m'. rewrite lookup_insert_eq, Hws. cbn [mbind option_bind]. destruct (decide (word_index b = word_index a)) as [Hwi|Hwi].
      * rewrite Hwi, list_lookup_insert_eq by (rewrite Hlw; by apply word_index_lt). cbn [mbind option_bind]. rewrite Hww. cbn [mbind option_bind].
        rewrite byte_set by (done || (apply Z.mod_pos_bound; lia)). destruct (decide (b = a)) as [->|Hba]; [by rewrite decide_True|].
        rewrite decide_False; [done|]. intros Hm8. by apply Hba, same_byte.
      * rewrite list_lookup_insert_ne by done. rewrite decide_False by (intros ->; done). done.
    + unfold m'. rewrite lookup_insert_ne by done. rewrite decide_False; [done|]. intros ->. congruence.
Qed.

(** *** Allocating a page *)
(** After the page at [p] has been mapped, or was already. *)
Section Allocated.
Context (s s' : Mem) (p : Z) (fs : list Z) (e : Z) (Hs : space s) (Hup : user p) (Hal : p mod PAGE_4K = 0).
Context (Hfs : Forall (fun x => free s x = true) fs) (Heff : map_effect (ram s) (cr3_reg s) (indices p) fs (ram s')).
Context (Hw : walk (ram s') (cr3_reg s) (indices p) = Some (O, e)) (Hfl : pte_flags e = USER_PAGE).
Context (Hm' : mem_ok s') (Hcr : cr3_reg s' = cr3_reg s).
Context (Hsub : forall q, free s' q = true -> free s q = true) (Htaken : Forall (fun x => free s' x = false) fs).
Context (Hlast : (reach (ram s) (cr3_reg s) (indices p) = None /\ free s (pte_addr e) = true /\ free s' (pte_addr e) = false) \/
  reach (ram s) (cr3_reg s) (indices p) = Some (pte_addr e)).
Context (Hnd : NoDup (fs ++ [pte_addr e])).

Lemma user_page_links : links e = true.
Proof using Hfl. unfold links, present. by rewrite Hfl. Qed.
Lemma allocated_law : space s' /\
  (forall b, user b -> page_of b = p -> is_Some (mem_peek s' b)) /\
  (forall b, user b -> is_Some (mem_peek s b) \/ page_of b <> p -> mem_peek s' b = mem_peek s b).
Proof using All.
  destruct (indices_user p Hup) as (Hu & Hl & H512). pose proof user_page_links as Hlk.
  assert (space s') as Hs' by (apply (space_mapped s Hs (indices p) Hu Hl H512 s' fs e); try done; destruct Hlast as [(_ & ? & ?)|?]; auto).
  pose proof (reach_new s Hs (indices p) Hu Hl H512 s' fs e Hfs Heff Hw Hlk) as Hreach.
  pose proof (off_path s Hs (indices p) Hu Hl s' fs Hfs Heff) as Hoff.
  assert (page_of p = p) as Hpp by (by apply page_of_id).
  assert (forall b, user b -> page_of b = p -> reach (ram s') (cr3_reg s) (indices b) = Some (pte_addr e)) as Hon.
  { intros b Hb Hpb. assert (indices b = indices p) as -> by (apply indices_page; [done|done|congruence]). by apply walk_reach. }
  split_and!; [done| |].
  - intros b Hb Hpb. apply (peek_some s' b (pte_addr e)); [done|done|]. rewrite Hcr. by apply Hon.
  - intros b Hb Hcase. destruct (indices_user b Hb) as (Hub & Hlb & _). rewrite !peek_reach, Hcr by done.
    assert (reach (ram s') (cr3_reg s) (indices b) = reach (ram s) (cr3_reg s) (indices b)) as ->.
    + destruct (decide (page_of b = p)) as [Hpb|Hpb].
      * rewrite (Hon b Hb Hpb). assert (indices b = indices p) as -> by (apply indices_page; [done|done|congruence]).
        destruct Hlast as [(Hr & _)|Hr]; [|done]. destruct Hcase as [Hsome|Hne]; [|done]. rewrite peek_reach in Hsome by done.
        assert (indices b = indices p) as Hib by (apply indices_page; [done|done|congruence]). rewrite Hib, Hr in Hsome. by destruct Hsome.
      * rewrite Hreach by (done || lia). rewrite decide_False; [done|]. intros Hpre. apply Hpb. rewrite <-Hpp. apply indices_page; [done|done|].
        apply prefix_length_eq; [done|lia].
    + destruct (reach (ram s) (cr3_reg s) (indices b)) as [y|] eqn:Hy; [|done]. cbn. unfold frame_byte.
      rewrite (Hoff (indices b) y); [done|done|lia|done|by right].
Qed.
End Allocated.

Lemma ualloc_law s p n : space s -> user p -> p mod PAGE_4K = 0 -> mem_room s (4 + n) ->
  exists f s', ualloc_page_flags p Arbitrary USER_PAGE s = (Ok f, s') /\ space s' /\ cr3_reg s' = cr3_reg s /\ mem_room s' n /\
    (forall b, user b -> page_of b = p -> is_Some (mem_peek s' b)) /\
    (forall b, user b -> is_Some (mem_peek s b) \/ page_of b <> p -> mem_peek s' b = mem_peek s b).
Proof using HL.
  intros Hs Hup Hal Hroom. destruct (indices_user p Hup) as (Hu & Hl & H512). pose proof (path_ready s Hs (indices p) Hu Hl H512) as Hready.
  assert (forall t, t ∈ visited (ram s) (cr3_reg s) (indices p) -> free s t = false) as Hvis.
  { intros t (k & Hk)%list_elem_of_lookup. by apply (path_visited s Hs (indices p) Hu Hl) in Hk as [_ ?]. }
  unfold ualloc_page_flags. change (Z.lor (Z.lor USER_PAGE PRESENT) (user_bits Arbitrary)) with USER_PAGE.
  assert (0 <= p < 2 ^ 64) as Hp64 by (unfold user, USER_END in Hup; lia).
  destruct (path_walk s Hs (indices p) Hu Hl H512) as [[Hw Hr]|(e & Hw & Hr & Hfl)].
  - destruct (alloc_and_map_ok s p USER_PAGE) as (r & s' & Hrun & (Hc & _) & Hm' & Hnew); try done; [apply Hs|].
    destruct r as [f|er|]; [|by apply room_not_few in Hroom; destruct Hroom; apply Hnew|done].
    pose proof (room_spent _ _ _ Hroom (spent_new _ _ _ _ _ Hnew Hl)) as Hroom'.
    destruct Hnew as (Hf & fs & Hnd & Hfs & Hq & _ & Heff & e & Hwe & <- & Hfl). exists (pte_addr e), s'. split; [done|].
    destruct (allocated_law s s' p fs e) as (Hs' & Hon & Hoff); try done.
    + intros q. rewrite Hq. by intros [? _]%andb_true_iff.
    + apply Forall_forall. intros x Hx. rewrite Hq, (bool_decide_eq_true_2 _) by set_solver. by rewrite andb_false_r.
    + left. split_and!; [done|done|]. rewrite Hq, (bool_decide_eq_true_2 _) by set_solver. by rewrite andb_false_r.
    + rewrite NoDup_app. apply NoDup_cons in Hnd as [Hni Hnd]. split_and!; [done| |apply NoDup_singleton]. intros x Hx ->%list_elem_of_singleton. done.
  - destruct (alloc_and_map_again s p USER_PAGE e) as (f & s' & Hrun & (Hc & _) & Hm' & Hf & Hq & Heff & Hwe); try done; [apply Hs|by eapply room_not_few|].
    assert (mem_room s' n) as Hroom' by (apply (room_spent _ _ _ Hroom); exists [f]; split; [cbn; lia|done]).
    exists f, s'. split; [done|].
    destruct (allocated_law s s' p [] e) as (Hs' & Hon & Hoff); try done; [|by right|apply NoDup_singleton].
    intros q. rewrite Hq. by intros [? _]%andb_true_iff.
Qed.

(** *** A new space *)
Context (k3 : Z).
Definition mem_base (s : Mem) : Prop := exists K, kernel_ok k3 s K /\ user_tables s K (cr3_reg s).
Lemma new_space_law s n : mem_base s -> mem_room s (8 + n) ->
  exists c s', new_user_address_space s = (Ok c, s') /\ c mod PAGE_4K = 0 /\ cr3_reg s' = cr3_reg s /\ space (with_cr3 s' c) /\ mem_room (with_cr3 s' c) n /\
    forall b, user b -> mem_peek (with_cr3 s' c) b = None.
Proof using HL.
  intros (K & Hk & Hut) Hroom. destruct (new_user_address_space_ok k3 s K Hk Hut) as (r & s' & Hrun & Hr).
  destruct r as [c|er|]; [|by apply (room_not_few s (4 + n)) in Hroom; destruct Hroom; apply Hr|done].
  destruct Hr as (Hspent & Hal & Hcr & Hzero & _ & _ & Hnone & _ & K' & [Hmem (Hroot & Hfree & _) _ _ _ _ _]).
  exists c, s'. split; [done|]. split; [done|]. split; [done|].
  assert (forall p x, upath p -> reach (ram s') c p = Some x -> p = [] /\ x = c) as Honly.
  { intros [|i p] x Hp Hr; [by injection Hr as <-|]. cbn in Hp. apply reach_cons in Hr as (e & He & Hlk & _). rewrite Hzero in He by done.
    injection He as <-. unfold links, present in Hlk. by rewrite pte_zero in Hlk. }
  split_and!.
  - split; cbn [ram cr3_reg with_cr3]; [done|done| | |].
    + intros p x Hp _ Hr. by apply Honly in Hr as [_ ->].
    + intros p q x Hp Hq _ _ Hrp Hrq. apply Honly in Hrp as [-> _], Hrq as [-> _]; done.
    + intros p x i e Hp _ Hr He. apply Honly in Hr as [-> ->]; [|by apply upath_app in Hp]. left. cbn in Hp. rewrite Hzero in He by done. by injection He.
  - apply (room_mono s' _ (4 + n)); [lia|done|]. by apply (room_spent s).
  - intros b Hb. unfold mem_peek. cbn [ram cr3_reg with_cr3]. destruct (indices_user b Hb) as (Hu & Hl & _). destruct (indices b) as [|i q]; [done|]. by rewrite Hnone.
Qed.

#[export] Instance mem_space_laws : UserSpaceLaws Mem.
Proof using HL k3.
  refine {| us_base := mem_base; us_ok := space; us_room := mem_room |}.
  - done.
  - done.
  - by intros [].
  - intros m a v Hm Ha Hv Hp. destruct (poke_law m a v Hm Ha Hv Hp) as (m' & Hrun & Hok & Hc & Hfr & Hb). exists m'. split_and!; try done.
    intros n. by apply room_mono.
  - intros m a v Hp. cbn in *. unfold mem_peek, mem_poke, frame_byte in *. destruct (walk _ _ _) as [[[|k] e]|]; [|done|done].
    destruct (contains _ _); [|done]. destruct (ram m !! pte_addr e) as [ws|]; [|done]. cbn [mbind option_bind] in *. by destruct (ws !! word_index a).
  - apply ualloc_law.
  - apply new_space_law.
Defined.
End Space.
