(* ===== verification/Exec.v ===== *)
(** * Running a program (zenos-kernel/src/process/mod.rs, syscall/exec.rs)

    [execve]: the arguments are copied from user memory, the process takes a new address space,
    the segments of the program are loaded into it, and the stack is laid out for its start. *)
From S2P Require Import Prelude PageAlloc Bytes OpenFile Process Sched UserMem Syscall Vfs Level4 UserSpace.

Definition DEFAULT_USER_BASE : Z := 0x400000.
Definition ENOEXEC : Z := 8.
Definition MAX_ARGC : nat := 256.
Definition MAX_ARG_LEN : Z := 4096.

(** ** Program files, as the xmas_elf crate reads them *)
Record ProgramHeader := mkPh {
  ph_load : bool;                            (* [get_type() == Ok(Load)] *)
  ph_offset : Z;
  virtual_addr : Z;
  file_size : Z;
  mem_size : Z;
}.
Record ElfFile := mkElf {
  shared_object : bool;
  elf_entry_point : Z;
  program_iter : list ProgramHeader;
}.
(** Rounding of addresses in the x86_64 crate; [None] is a panic. *)
Class VirtAlign := { align_down : Z -> Z -> Z; virt_align_up : Z -> Z -> option Z }.

Definition with_load (p : Process) (bias e entry : Z) : Process :=
  mkProcess (pid p) (parent_pid p) (name p) (state p) (status p) (cr3 p) e entry
    (file_handles p) (cwd p) bias true (user_stack_top p) (exit_code p) (envp p) (argv p) (priority p).
Definition with_run (p : Process) (s : ProcessState) (top : Z) : Process :=
  mkProcess (pid p) (parent_pid p) (name p) s (status p) (cr3 p) (end_ p) (entry_point p)
    (file_handles p) (cwd p) (load_bias p) (loaded p) top (exit_code p) (envp p) (argv p) (priority p).

Section Load.
Context {M : Type} `{UserSpace M} `{VirtAddrs} `{VirtAlign}.
Context (ElfFile_new : list Z -> option ElfFile) (sanity_check : ProgramHeader -> ElfFile -> bool).

Definition compute_load_bias (elf : ElfFile) : Z := if shared_object elf then DEFAULT_USER_BASE else 0.

Fixpoint map_pages {E} (fuel : nat) (addr page_end : Z) : st M E unit :=
  match fuel with
  | O => st_lift Panic
  | S fuel =>
      if addr <? page_end then
        _ ← ualloc_unwrap addr USER_PAGE;
        addr ← st_lift (unwrap (virt_add addr PAGE_4K));
        map_pages fuel addr page_end
      else mret tt
  end.

(** The body of the loop for a segment that is loaded.  The copy reads the file's buffer from
    [offset]; past its end there is nothing to read. *)
Definition load_segment {E} (bytes : list Z) (bias : Z) (segment : ProgramHeader) : st M E unit :=
  end_addr ← st_lift (uadd 64 (virtual_addr segment) (file_size segment));
  dst ← st_lift (uadd 64 (virtual_addr segment) bias);
  seg_start ← st_lift (unwrap (virt_new dst));
  e ← st_lift (uadd 64 (virtual_addr segment) (mem_size segment));
  e ← st_lift (uadd 64 e bias);
  seg_end ← st_lift (unwrap (virt_new e));
  let page_start := align_down seg_start PAGE_4K in
  page_end ← st_lift (unwrap (virt_align_up seg_end PAGE_4K));
  _ ← map_pages (Z.to_nat ((page_end - page_start) / PAGE_4K + 1)) page_start page_end;
  src ← st_lift (slice (Z.to_nat (ph_offset segment)) (Z.to_nat (file_size segment)) bytes);
  _ ← write_bytes dst src;
  bss_len ← st_lift (usub (mem_size segment) (file_size segment));
  b ← st_lift (uadd 64 end_addr bias);
  write_bytes b (replicate (Z.to_nat bss_len) 0).

Fixpoint load_segments {E} (bytes : list Z) (bias : Z) (phs : list ProgramHeader) : st M E unit :=
  match phs with
  | [] => mret tt
  | ph :: phs =>
      _ ← (if ph_load ph then load_segment bytes bias ph else mret tt);
      load_segments bytes bias phs
  end.
Fixpoint max_end {E} (phs : list ProgramHeader) (acc : Z) : outcome E Z :=
  match phs with
  | [] => Ok acc
  | ph :: phs =>
      if ph_load ph then
        e ← uadd 64 (virtual_addr ph) (mem_size ph);
        max_end phs (if acc <? e then e else acc)
      else max_end phs acc
  end.

Definition internal_load {E} (self : Process) (bytes : list Z) : st M E Process :=
  elf ← st_lift (unwrap (ElfFile_new bytes));
  let bias := compute_load_bias elf in
  if negb (forallb (fun ph => sanity_check ph elf) (program_iter elf)) then st_lift Panic
  else
    _ ← load_segments bytes bias (program_iter elf);
    e ← st_lift (max_end (program_iter elf) 0);
    mret (with_load self bias e (elf_entry_point elf)).

(** [Process::load]: in the address space of the process, and back. *)
Definition Process_load {E} (self : Process) (bytes : list Z) : st M E Process :=
  m ← st_get;
  let saved_cr3 := cr3_of m in
  _ ← switch_space (page_of (cr3 self));
  self ← internal_load self bytes;
  _ ← switch_space saved_cr3;
  mret self.

(** *** The stack *)
Definition STACK_GAP : Z := 0x20000.
Definition STACK_SIZE : Z := 0x4000.

Fixpoint map_stack {E} (fuel : nat) (addr user_stack_top : Z) : st M E unit :=
  match fuel with
  | O => st_lift Panic
  | S fuel =>
      if addr <? user_stack_top then
        a ← st_lift (unwrap (virt_new addr));
        _ ← ualloc_unwrap a USER_PAGE;
        addr ← st_lift (uadd 64 addr PAGE_4K);
        map_stack fuel addr user_stack_top
      else mret tt
  end.
(** The strings in the order of the loop, with the addresses they got. *)
Fixpoint push_strings {E} (strs : list (list Z)) (sp : Z) : st M E (list Z * Z) :=
  match strs with
  | [] => mret ([], sp)
  | s :: strs =>
      sp ← st_lift (usub sp (Z.of_nat (length s) + 1));
      _ ← write_bytes sp s;
      _ ← write_byte (sp + Z.of_nat (length s)) 0;
      '(ptrs, sp') ← push_strings strs sp;
      mret (sp :: ptrs, sp')
  end.
Fixpoint align_16 {E} (fuel : nat) (sp : Z) : outcome E Z :=
  match fuel with
  | O => Panic
  | S fuel => if sp mod 16 =? 0 then Ok sp else sp ← usub sp 1; align_16 fuel sp
  end.
Definition push {E} (val sp : Z) : st M E Z :=
  sp ← st_lift (usub sp 8); _ ← write_word sp val; mret sp.
Fixpoint push_all {E} (vals : list Z) (sp : Z) : st M E Z :=
  match vals with [] => mret sp | v :: vals => sp ← push v sp; push_all vals sp end.

Definition build_stack {E} (self : Process) : st M E (Z * Z) :=
  t ← st_lift (uadd 64 (load_bias self) (end_ self));
  t ← st_lift (uadd 64 t STACK_GAP);
  t ← st_lift (uadd 64 t 0xFFF);
  let user_stack_top := Z.land t (unot 64 0xFFF) in
  stack_start ← st_lift (usub user_stack_top STACK_SIZE);
  _ ← map_stack 5 stack_start user_stack_top;
  '(envp_ptrs, sp) ← push_strings (rev (envp self)) user_stack_top;
  '(argv_ptrs, sp) ← push_strings (rev (argv self)) sp;
  sp ← st_lift (align_16 16 sp);
  let pointer_entries := 1 + Z.of_nat (length (argv self)) + Z.of_nat (length (envp self)) + 2 in
  temp_sp ← st_lift (usub sp (pointer_entries * 8));
  sp ← (if negb (temp_sp mod 16 =? 0) then st_lift (usub sp 8) else mret sp);
  sp ← push_all ([0; 0; 0] ++ envp_ptrs ++ [0] ++ argv_ptrs ++ [Z.of_nat (length (argv self))]) sp;
  if negb (stack_start <=? sp) then st_lift Panic else mret (user_stack_top, sp).

(** [prepare_run] in the address space of the process. *)
Definition prepare_stack {E} (self : Process) : st M E Process :=
  if user_stack_top self =? 0 then
    '(top, sp) ← build_stack self;
    rip' ← st_lift (uadd 64 (entry_point self) (load_bias self));
    let s := state self in
    if negb (sp mod 16 =? 0) then st_lift Panic
    else mret (with_run self (with_frame s rip' sp (rflags s) (cs s) (ss s)) top)
  else mret self.
End Load.

Section Exec.
Context {F D M : Type} `{InodeOps D} `{AddressSpaces M} `{UserMemory M} `{UserSpace M} `{VirtAddrs} `{VirtAlign}.
Context (ElfFile_new : list Z -> option ElfFile) (sanity_check : ProgramHeader -> ElfFile -> bool).
Context (fs_root : F -> st (FsState D) FileError nat) (hw : Machine) (VirtAddr_try_new : Z -> bool).
Abbreviation K := (Kernel D M).

Definition prepare_run {E} (self : Process) : st K E (option (Z * Z) * Process) :=
  if negb (loaded self) then mret (None, self)
  else
    _ ← on_mem (switch_space (page_of (cr3 self)));
    _ ← update (fun k => set_percpu (pid self) (curr_proc k) k);
    self ← on_mem (prepare_stack self);
    let self := with_status self Running in
    mret (Some (rip (state self), rsp (state self)), self).

(** *** [exec_replace]

    The strings are the kernel's own buffers, and they are read up to the first NUL.  Their
    buffers hold no NUL: [behind] is what the heap holds behind each of them, up to a NUL.  An
    empty buffer has no memory; its pointer is the address one, and [at_one] is the string there,
    if the page is mapped. *)
Record HeapTail := mkTail { behind : nat -> list Z; at_one : option (list Z) }.
Fixpoint until_nul (bs : list Z) : list Z :=
  match bs with [] => [] | b :: bs => if b =? 0 then [] else b :: until_nul bs end.
Definition c_string {E} (h : HeapTail) (i : nat) (buf : list Z) : outcome E (list Z) :=
  match buf with [] => unwrap (at_one h) | _ => Ok (until_nul (buf ++ behind h i)) end.
(** [ptrs] are the pointers of the array, the last one null. *)
Fixpoint c_strings {E} (h : HeapTail) (i : nat) (bufs : list (list Z)) : outcome E (list (list Z)) :=
  match bufs with
  | [] => Ok []
  | buf :: bufs => s ← c_string h i buf; rest ← c_strings h (S i) bufs; Ok (s :: rest)
  end.

Definition strip_suffix (suffix s : list Z) : option (list Z) :=
  let n := (length s - length suffix)%nat in
  if decide (drop n s = suffix) then Some (take n s) else None.
Definition strip_prefix (prefix s : list Z) : option (list Z) :=
  if decide (take (length prefix) s = prefix) then Some (drop (length prefix) s) else None.
(** The name shown for the process: ".elf" is dropped from its first word. *)
Definition display_name (commandline : list Z) (new_argv : list (list Z)) : list Z :=
  match new_argv with
  | first :: _ =>
      if utf8_ok first then
        match strip_suffix (name_bytes ".elf") first, strip_prefix first commandline with
        | Some stripped, Some rest => stripped ++ rest
        | _, _ => commandline
        end
      else commandline
  | [] => commandline
  end.

Definition keeps_open (fs : FsState D) (file : nat) : bool :=
  match files fs !! file with
  | Some f => negb (contains (file_open_options f) CLOSE_ON_EXEC)
  | None => true
  end.
Definition exec_replace {E} (self : Process) (h_argv h_envp : HeapTail) (commandline : list Z) (argv envp : list (list Z)) : st K E Process :=
  new_envp ← st_lift (c_strings h_envp 0 envp);
  new_argv ← st_lift (c_strings h_argv 0 argv);
  k ← st_get;
  let handles := filter (fun '(_, fh) => keeps_open (fs k) fh = true) (file_handles self) in
  new_cr3 ← on_mem (st_unwrap new_user_address_space);
  mret (mkProcess (pid self) (parent_pid self) (string_of_bytes (display_name commandline new_argv)) (ProcessState_default hw) Created
          new_cr3 0 0 handles (cwd self) 0 false 0 (exit_code self) new_envp new_argv (priority self)).

(** *** The system call *)
Inductive ExecResult :=
| Errno (e : Z)
| EnterUser (entry stack : Z).

(** [enter_user_mode]. *)
Definition enter_user_mode {E} (entry stack : Z) : outcome E ExecResult :=
  if stack mod 16 =? 0 then Ok (EnterUser entry stack) else Panic.

Definition exec_inner {E} (h_argv h_envp : HeapTail) (file : nat) (path : list Z) (argv envp : list (list Z)) : st K E ExecResult := fun k =>
  match inodes (fs k) !! file with
  | None => (Panic, k)
  | Some ino =>
      let file_len := size ino in
      match on_fs (op_read file 0 (replicate (Z.to_nat file_len) 0)) k with
      | (Err e, k) => (Ok (Errno (file_error_to_errno e)), k)
      | (Panic, k) => (Panic, k)
      | (Ok (len, file_buf), k) =>
          if negb (len =? file_len) then (Panic, k)
          else if negb (contains (perms ino) OWNER_EXEC) then (Ok (Errno (neg_errno ENOEXEC)), k)
          else
            (cur ← current_proc_mut;
             match cur with
             | None => mret (Errno (neg_errno ESRCH))
             | Some (i, proc) =>
                 proc ← exec_replace proc h_argv h_envp path argv envp;
                 proc ← on_mem (Process_load ElfFile_new sanity_check proc file_buf);
                 '(r, proc) ← prepare_run proc;
                 _ ← put_proc i proc;
                 match r with
                 | None => mret (Errno (neg_errno ENOEXEC))
                 | Some (entry, stack) =>
                     _ ← set_current (pid proc) i;
                     st_lift (enter_user_mode entry stack)
                 end
             end) k
      end
  end.

(** The array of strings at [ptr], up to a null pointer or [n] of them. *)
Fixpoint copy_strings (m : M) (ptr : Z) (n : nat) : outcome Z (list (list Z)) :=
  match n with
  | O => Ok []
  | S n =>
      ptr_bytes ← map_err (fun _ => neg_errno EFAULT) (copy_from_user VirtAddr_try_new 1 m ptr 8);
      let str_ptr := from_le ptr_bytes in
      if str_ptr =? 0 then Ok []
      else
        buf ← copy_string VirtAddr_try_new m str_ptr MAX_ARG_LEN;
        rest ← copy_strings m (wrap 64 (ptr + 8)) n;
        Ok (buf :: rest)
  end.
Definition copy_string_array (m : M) (ptr : Z) : outcome Z (list (list Z)) := copy_strings m ptr MAX_ARGC.

(** What is read of the arguments: the path, the arguments and the environment. *)
Definition exec_args (m : M) (rdi rsi rdx : Z) : outcome Z (list Z * list (list Z) * list (list Z)) :=
  path_buf ← map_err (fun _ => neg_errno EFAULT) (copy_from_user VirtAddr_try_new 1 m rdi MAX_PATH_LEN);
  path_len ← ok_or (neg_errno ENAMETOOLONG) (position (fun b => b =? 0) path_buf);
  let path := take path_len path_buf in
  if negb (utf8_ok path) then Err (neg_errno EINVAL)
  else
    kargv ← copy_string_array m rsi;
    kenvp ← copy_string_array m rdx;
    Ok (path, kargv, kenvp).

Definition sys_exec {E} (FS : list (string * F)) (h_argv h_envp : HeapTail) (rdi rsi rdx : Z) : st K E ExecResult := fun k =>
  match exec_args (mem k) rdi rsi rdx with
  | Panic => (Panic, k)
  | Err e => (Ok (Errno e), k)
  | Ok (path, kargv, kenvp) =>
      match on_fs (open_file fs_root FS (string_of_bytes path)) k with
      | (Err e, k) => (Ok (Errno (file_error_to_errno e)), k)
      | (Panic, k) => (Panic, k)
      | (Ok file, k) => exec_inner h_argv h_envp file path kargv kenvp k
      end
  end.
End Exec.
