(* ===== verification/ExecLoad.v ===== *)
(** * Loading the segments of a program

    The bytes at the addresses of every segment are those of the file, followed by zeros; nothing
    but the pages of the segments is mapped. *)
From S2P Require Import Prelude PageAlloc Bytes OpenFile Process Sched UserMem Syscall Vfs Level4 UserSpace Exec.

Class VirtAlignLaws `{VirtAlign} : Prop := {
  align_down_ok x : user x -> align_down x PAGE_4K = page_of x;
  align_up_ok x : user x -> x <= USER_END - PAGE_4K -> virt_align_up x PAGE_4K = Some (page_of (x + PAGE_4K - 1));
}.
Lemma page_of_range x : page_of x <= x < page_of x + PAGE_4K.
Proof. unfold page_of, PAGE_4K. pose proof (Z.mod_pos_bound x 4096). lia. Qed.
Lemma page_of_le x y : x mod PAGE_4K = 0 -> x <= y -> x <= page_of y.
Proof. unfold page_of, PAGE_4K. intros. Z.to_euclidean_division_equations. lia. Qed.

Section Load.
Context {M : Type} `{HU : UserSpace M} `{HA : AddressSpaces M} `{HL : !UserSpaceLaws M}.
Context `{HV : VirtAddrs} {HVL : VirtAddrsLaws} `{HG : VirtAlign} {HGL : VirtAlignLaws}.
(** [VirtAddr::new] accepts the lower half. *)
Context (Hnew : forall x, user x -> virt_new x = Some x).

Lemma virt_add_page x : 0 <= x -> x + PAGE_4K < USER_END -> virt_add x PAGE_4K = Some (x + PAGE_4K).
Proof using HVL. intros H0 Hx. apply virt_add_ok. left. unfold USER_END, PAGE_4K in *. lia. Qed.

(** ** Pages *)
(** The [k] pages from [addr] have been mapped, and [n] frames are left. *)
Definition grown (addr : Z) (k n : nat) (m m' : M) : Prop :=
  extends (fun _ => False) (inside addr (Z.of_nat k * PAGE_4K)) m m' /\ us_room m' n /\ mapped m' addr (Z.of_nat k * PAGE_4K).
Lemma grown_O addr n m : us_ok m -> us_room m n -> grown addr 0 n m m.
Proof using. intros Hm Hr. split_and!; [by apply extends_refl|done|]. intros b Hb. lia. Qed.
Lemma next_page_aligned addr : addr mod PAGE_4K = 0 -> (addr + PAGE_4K) mod PAGE_4K = 0.
Proof using. unfold PAGE_4K. intros. Z.to_euclidean_division_equations. lia. Qed.
Lemma grown_S {E} addr k n m : us_ok m -> 0 <= addr -> addr mod PAGE_4K = 0 -> addr + Z.of_nat (S k) * PAGE_4K < USER_END ->
  us_room m (4 * S k + n) ->
  exists m1, ualloc_unwrap (E := E) addr USER_PAGE m = (Ok tt, m1) /\ us_ok m1 /\ us_room m1 (4 * k + n) /\
    forall m2, grown (addr + PAGE_4K) k n m1 m2 -> grown addr (S k) n m m2.
Proof using.
  intros Hm Ha Hal He Hr. assert (0 < PAGE_4K) as Hp by (unfold PAGE_4K; lia).
  destruct (ualloc_unwrap_ok (E := E) m addr (4 * k + n)) as (m1 & Hrun1 & Hx1 & Hr1 & Hm1);
    [done|unfold user; lia|done|by replace (4 + (4 * k + n))%nat with (4 * S k + n)%nat by lia|].
  exists m1. split_and!; [done|apply Hx1|done|]. intros m2 (Hx2 & Hr2 & Hm2). split_and!; [|done|].
  - eapply extends_trans; (eapply extends_weaken; [| |eassumption]); try done; unfold inside; intros; lia.
  - intros b Hb. destruct (decide (b < addr + PAGE_4K)); [|apply Hm2; lia].
    apply (ex_mapped _ _ _ _ Hx2); [unfold user; lia|]. apply Hm1; lia.
Qed.
Lemma map_pages_ok {E} k : forall fuel addr m n, us_ok m -> 0 <= addr -> addr mod PAGE_4K = 0 ->
  addr + Z.of_nat k * PAGE_4K < USER_END -> (k < fuel)%nat -> us_room m (4 * k + n) ->
  exists m', map_pages (E := E) fuel addr (addr + Z.of_nat k * PAGE_4K) m = (Ok tt, m') /\ grown addr k n m m'.
Proof using HVL.
  induction k as [|k IH]; intros fuel addr m n Hm Ha Hal He Hf Hr; (destruct fuel as [|fuel]; [lia|]); cbn [map_pages].
  - rewrite Z.add_0_r, Z.ltb_irrefl. exists m. split; [done|by apply grown_O].
  - assert (0 < PAGE_4K) as Hp by (unfold PAGE_4K; lia). rewrite (proj2 (Z.ltb_lt _ _)) by lia.
    destruct (grown_S (E := E) addr k n m) as (m1 & Hrun1 & Hm1 & Hr1 & Hgrow); [done..|].
    rewrite (st_bind_eq _ _ _ _ _ Hrun1). rewrite (st_bind_eq _ _ m1 (addr + PAGE_4K) m1) by (by rewrite virt_add_page by lia).
    replace (addr + Z.of_nat (S k) * PAGE_4K) with (addr + PAGE_4K + Z.of_nat k * PAGE_4K) by lia.
    destruct (IH fuel (addr + PAGE_4K) m1 n) as (m2 & Hrun2 & Hg); [done|lia|by apply next_page_aligned|lia|lia|done|]. eauto.
Qed.
Lemma map_stack_ok {E} k : forall fuel addr m n, us_ok m -> 0 <= addr -> addr mod PAGE_4K = 0 ->
  addr + Z.of_nat k * PAGE_4K < USER_END -> (k < fuel)%nat -> us_room m (4 * k + n) ->
  exists m', map_stack (E := E) fuel addr (addr + Z.of_nat k * PAGE_4K) m = (Ok tt, m') /\ grown addr k n m m'.
Proof using Hnew.
  induction k as [|k IH]; intros fuel addr m n Hm Ha Hal He Hf Hr; (destruct fuel as [|fuel]; [lia|]); cbn [map_stack].
  - rewrite Z.add_0_r, Z.ltb_irrefl. exists m. split; [done|by apply grown_O].
  - assert (0 < PAGE_4K) as Hp by (unfold PAGE_4K; lia). rewrite (proj2 (Z.ltb_lt _ _)) by lia.
    rewrite (st_bind_eq _ _ m addr m) by (by rewrite Hnew by (unfold user; lia)).
    destruct (grown_S (E := E) addr k n m) as (m1 & Hrun1 & Hm1 & Hr1 & Hgrow); [done..|].
    rewrite (st_bind_eq _ _ _ _ _ Hrun1). rewrite (st_bind_eq _ _ m1 (addr + PAGE_4K) m1) by (rewrite uadd_eq; [done|unfold USER_END in *; lia]).
    replace (addr + Z.of_nat (S k) * PAGE_4K) with (addr + PAGE_4K + Z.of_nat k * PAGE_4K) by lia.
    destruct (IH fuel (addr + PAGE_4K) m1 n) as (m2 & Hrun2 & Hg); [done|lia|by apply next_page_aligned|lia|lia|done|]. eauto.
Qed.

(** ** Segments *)
(** A segment that fits: into the file, and into the addresses of a program at [bias]. *)
Record segment_ok (bytes : list Z) (bias : Z) (ph : ProgramHeader) : Prop := {
  sg_offset : 0 <= ph_offset ph;
  sg_file : ph_offset ph + file_size ph <= Z.of_nat (length bytes);
  sg_sizes : 0 <= file_size ph <= mem_size ph;
  sg_addr : 0 <= virtual_addr ph;
  sg_end : virtual_addr ph + mem_size ph + bias <= USER_END - 0x100000;
}.
(** What the segment holds. *)
Definition segment_bytes (bytes : list Z) (ph : ProgramHeader) : list Z :=
  sub_bytes (Z.to_nat (ph_offset ph)) (Z.to_nat (file_size ph)) bytes ++ replicate (Z.to_nat (mem_size ph - file_size ph)) 0.
Lemma segment_bytes_length bytes bias ph : segment_ok bytes bias ph -> Z.of_nat (length (segment_bytes bytes ph)) = mem_size ph.
Proof using. intros []. unfold segment_bytes. rewrite length_app, length_replicate, sub_bytes_length; lia. Qed.
(** The pages of a segment, and how many. *)
Definition first_page (bias : Z) (ph : ProgramHeader) : Z := page_of (virtual_addr ph + bias).
Definition page_count (bias : Z) (ph : ProgramHeader) : nat :=
  Z.to_nat ((page_of (virtual_addr ph + mem_size ph + bias + PAGE_4K - 1) - first_page bias ph) / PAGE_4K).
Definition segment_pages (bias : Z) (ph : ProgramHeader) (b : Z) : Prop :=
  inside (first_page bias ph) (Z.of_nat (page_count bias ph) * PAGE_4K) b.
Definition segment_range (bias : Z) (ph : ProgramHeader) (b : Z) : Prop := inside (virtual_addr ph + bias) (mem_size ph) b.

Lemma page_count_ok bytes bias ph : segment_ok bytes bias ph -> 0 <= bias ->
  first_page bias ph + Z.of_nat (page_count bias ph) * PAGE_4K = page_of (virtual_addr ph + mem_size ph + bias + PAGE_4K - 1) /\
  forall b, segment_range bias ph b -> segment_pages bias ph b.
Proof using.
  intros [] Hb. assert (first_page bias ph + Z.of_nat (page_count bias ph) * PAGE_4K = page_of (virtual_addr ph + mem_size ph + bias + PAGE_4K - 1)) as Heq.
  { unfold page_count, first_page, page_of, PAGE_4K. Z.to_euclidean_division_equations. lia. }
  split; [done|]. unfold segment_pages, segment_range, inside. rewrite Heq. intros b Hr.
  pose proof (page_of_range (virtual_addr ph + bias)). pose proof (page_of_range (virtual_addr ph + mem_size ph + bias + PAGE_4K - 1)).
  unfold first_page. lia.
Qed.

Lemma load_segment_ok {E} bytes bias ph m n :
  segment_ok bytes bias ph -> Forall is_byte bytes -> 0 <= bias -> us_ok m -> us_room m (4 * page_count bias ph + n) ->
  exists m', load_segment (E := E) bytes bias ph m = (Ok tt, m') /\ us_room m' n /\
    extends (segment_range bias ph) (segment_pages bias ph) m m' /\ holds m' (virtual_addr ph + bias) (segment_bytes bytes ph).
Proof using Hnew HVL HGL.
  intros Hs Hby Hb Hm Hr. destruct (page_count_ok bytes bias ph Hs Hb) as [Hpe Hin]. pose proof Hs as [Ho Hfi [Hf0 Hfm] Ha He].
  pose proof (page_of_range (virtual_addr ph + bias)) as Hp1. pose proof (page_of_range (virtual_addr ph + mem_size ph + bias + PAGE_4K - 1)) as Hp2.
  set (dst := virtual_addr ph + bias) in *. unfold USER_END, PAGE_4K in He, Hp1, Hp2.
  unfold load_segment.
  rewrite (st_bind_eq _ _ m (virtual_addr ph + file_size ph) m) by (rewrite uadd_eq; [done|lia]).
  rewrite (st_bind_eq _ _ m dst m) by (rewrite uadd_eq; [done|lia]).
  rewrite (st_bind_eq _ _ m dst m) by (rewrite Hnew; [done|unfold user, USER_END; lia]).
  rewrite (st_bind_eq _ _ m (virtual_addr ph + mem_size ph) m) by (rewrite uadd_eq; [done|lia]).
  rewrite (st_bind_eq _ _ m (virtual_addr ph + mem_size ph + bias) m) by (rewrite uadd_eq; [done|lia]).
  rewrite (st_bind_eq _ _ m (virtual_addr ph + mem_size ph + bias) m) by (rewrite Hnew; [done|unfold user, USER_END; lia]).
  cbv zeta. rewrite align_down_ok by (unfold user, USER_END; lia).
  rewrite (st_bind_eq _ _ m (first_page bias ph + Z.of_nat (page_count bias ph) * PAGE_4K) m)
    by (rewrite align_up_ok; [by rewrite Hpe|unfold user, USER_END; lia|unfold USER_END, PAGE_4K; lia]).
  fold dst in Hpe |- *. change (page_of dst) with (first_page bias ph).
  destruct (map_pages_ok (E := E) (page_count bias ph) (Z.to_nat ((first_page bias ph + Z.of_nat (page_count bias ph) * PAGE_4K - first_page bias ph) / PAGE_4K + 1))
    (first_page bias ph) m n) as (m1 & Hrun1 & Hx1 & Hr1 & Hm1); [done| | | | |done|].
  { apply (page_of_le 0); [done|lia]. }
  { apply page_of_aligned. }
  { rewrite Hpe. unfold USER_END, PAGE_4K. lia. }
  { rewrite Z.add_simpl_l, Z.div_mul by done. lia. }
  rewrite (st_bind_eq _ _ _ _ _ Hrun1).
  set (src := sub_bytes (Z.to_nat (ph_offset ph)) (Z.to_nat (file_size ph)) bytes).
  rewrite (st_bind_eq _ _ m1 src m1).
  2:{ unfold st_lift. f_equal. apply slice_Ok. lia. }
  assert (mapped m1 dst (mem_size ph)) as Hmap by (intros b Hbr; by apply Hm1, Hin).
  assert (Z.of_nat (length src) = file_size ph) as Hls by (unfold src; rewrite sub_bytes_length; lia).
  destruct (write_bytes_ok (E := E) src m1 dst) as (m2 & Hrun2 & Hc2 & Hh2);
    [apply Hx1|lia|unfold USER_END; lia|by apply sub_bytes_bytes|intros b Hbr; apply Hmap; lia|].
  rewrite (st_bind_eq _ _ _ _ _ Hrun2).
  rewrite (st_bind_eq _ _ m2 (mem_size ph - file_size ph) m2) by (rewrite usub_eq; [done|lia]).
  rewrite (st_bind_eq _ _ m2 (dst + file_size ph) m2) by (rewrite uadd_eq; [f_equal; f_equal; lia|lia]).
  destruct (write_bytes_ok (E := E) (replicate (Z.to_nat (mem_size ph - file_size ph)) 0) m2 (dst + file_size ph)) as (m3 & Hrun3 & Hc3 & Hh3);
    rewrite ?length_replicate; [apply Hc2|lia|unfold USER_END; lia|by apply Forall_replicate| |].
  { intros b Hbr. apply (ch_mapped _ _ _ Hc2); [unfold user, USER_END; lia|apply Hmap; lia]. }
  exists m3. rewrite length_replicate in Hc3. split_and!; [exact Hrun3|by apply Hc3, Hc2| |].
  - assert (changes (segment_range bias ph) m1 m3) as Hc.
    { eapply changes_trans; (eapply changes_weaken; [|eassumption]); unfold inside, segment_range; fold dst; intros; unfold inside; lia. }
    eapply extends_trans; [eapply extends_weaken; [| |exact Hx1]; done|]. apply changes_extends; [done|]. intros b _ Hbr. by apply Hmap.
  - unfold segment_bytes. fold src. apply holds_app; [|by rewrite Hls].
    eapply changes_holds; [exact Hc3|lia|unfold USER_END; lia| |done]. unfold inside. intros; lia.
Qed.
(** *** All segments *)
Definition loads (phs : list ProgramHeader) (ph : ProgramHeader) : Prop := ph ∈ phs /\ ph_load ph = true.
Definition image_range (bias : Z) (phs : list ProgramHeader) (b : Z) : Prop := exists ph, loads phs ph /\ segment_range bias ph b.
Definition image_pages (bias : Z) (phs : list ProgramHeader) (b : Z) : Prop := exists ph, loads phs ph /\ segment_pages bias ph b.
Fixpoint image_page_count (bias : Z) (phs : list ProgramHeader) : nat :=
  match phs with [] => 0 | ph :: phs => (if ph_load ph then page_count bias ph else 0) + image_page_count bias phs end.
(** The segments do not overlap. *)
Fixpoint apart (bias : Z) (phs : list ProgramHeader) : Prop :=
  match phs with
  | [] => True
  | ph :: phs => (ph_load ph = true -> forall b, segment_range bias ph b -> image_range bias phs b -> False) /\ apart bias phs
  end.
Definition image_holds (bytes : list Z) (bias : Z) (phs : list ProgramHeader) (m : M) : Prop :=
  forall ph, loads phs ph -> holds m (virtual_addr ph + bias) (segment_bytes bytes ph).

Lemma holds_mapped m a bs b : holds m a bs -> inside a (Z.of_nat (length bs)) b -> is_Some (peek m b).
Proof using.
  intros Hh Hb. unfold inside in Hb. destruct (lookup_lt_is_Some_2 bs (Z.to_nat (b - a))) as [x Hx]; [lia|].
  apply Hh in Hx. exists x. rewrite <-Hx. f_equal. lia.
Qed.
Lemma extends_holds W Q m m' a bs : extends W Q m m' -> 0 <= a -> a + Z.of_nat (length bs) <= USER_END ->
  (forall b, inside a (Z.of_nat (length bs)) b -> ~ W b) -> holds m a bs -> holds m' a bs.
Proof using.
  intros Hx Ha Hn Hd Hh i b Hi. pose proof (lookup_lt_Some _ _ _ Hi). rewrite (ex_keep _ _ _ _ Hx); [by apply Hh|unfold user; lia| |].
  - rewrite (Hh i b Hi). done.
  - apply Hd. unfold inside. lia.
Qed.

Lemma load_segments_ok {E} bytes bias phs : forall m n,
  (forall ph, loads phs ph -> segment_ok bytes bias ph) -> apart bias phs -> Forall is_byte bytes -> 0 <= bias ->
  us_ok m -> us_room m (4 * image_page_count bias phs + n) ->
  exists m', load_segments (E := E) bytes bias phs m = (Ok tt, m') /\ us_room m' n /\
    extends (image_range bias phs) (image_pages bias phs) m m' /\ image_holds bytes bias phs m'.
Proof using Hnew HVL HGL.
  induction phs as [|ph phs IH]; intros m n Hok Hap Hby Hb Hm Hr.
  - exists m. split_and!; [done|done|by apply extends_refl|]. intros ph [Hin _]. by apply elem_of_nil in Hin.
  - cbn [load_segments image_page_count apart] in *. destruct Hap as [Hd Hap].
    assert (forall q, loads phs q -> loads (ph :: phs) q) as Hsub by (intros q [? ?]; split; [by right|done]).
    assert (forall m1, us_ok m1 -> us_room m1 (4 * image_page_count bias phs + n) -> exists m', load_segments (E := E) bytes bias phs m1 = (Ok tt, m') /\ us_room m' n /\
      extends (image_range bias phs) (image_pages bias phs) m1 m' /\ image_holds bytes bias phs m') as IH' by (intros m1 ? ?; apply IH; auto).
    assert (forall m1 m2, extends (image_range bias phs) (image_pages bias phs) m1 m2 -> extends (image_range bias (ph :: phs)) (image_pages bias (ph :: phs)) m1 m2) as Hw.
    { intros m1 m2. apply extends_weaken; intros b (q & Hq & Hbq); exists q; auto. }
    destruct (ph_load ph) eqn:Hl.
    + assert (loads (ph :: phs) ph) as Hph by (split; [left|done]). specialize (Hok ph Hph).
      destruct (load_segment_ok (E := E) bytes bias ph m (4 * image_page_count bias phs + n)) as (m1 & Hrun1 & Hr1 & Hx1 & Hh1); try done.
      { replace (4 * page_count bias ph + (4 * image_page_count bias phs + n))%nat with (4 * (page_count bias ph + image_page_count bias phs) + n)%nat by lia. done. }
      destruct (IH' m1) as (m2 & Hrun2 & Hr2 & Hx2 & Hh2); [apply Hx1|done|]. rewrite (st_bind_eq _ _ _ _ _ Hrun1).
      exists m2. split_and!; [done|done| |].
      * eapply extends_trans; [|by apply Hw]. eapply extends_weaken; [| |exact Hx1]; intros b Hbr; by exists ph.
      * intros q [[->|Hin]%elem_of_cons Hlq]; [|by apply Hh2]. pose proof (segment_bytes_length bytes bias ph Hok) as Hlen.
        destruct Hok as [? ? ? ? He]. unfold USER_END in He. eapply extends_holds; [exact Hx2|lia|rewrite Hlen; unfold USER_END; lia| |done].
        rewrite Hlen. intros b Hbr Hbi. by apply (Hd eq_refl b).
    + destruct (IH' m) as (m2 & Hrun2 & Hr2 & Hx2 & Hh2); [done|done|]. rewrite (st_bind_eq _ _ m tt m) by done.
      exists m2. split_and!; [done|done|by apply Hw|]. intros q [[->|Hin]%elem_of_cons Hlq]; [congruence|by apply Hh2].
Qed.

Lemma max_end_ok {E} bytes bias phs : forall acc, 0 <= bias -> (forall ph, loads phs ph -> segment_ok bytes bias ph) -> 0 <= acc <= USER_END - 0x100000 - bias ->
  exists e, max_end (E := E) phs acc = Ok e /\ acc <= e <= USER_END - 0x100000 - bias /\
    forall ph, loads phs ph -> virtual_addr ph + mem_size ph <= e.
Proof using.
  induction phs as [|ph phs IH]; intros acc Hb Hok Ha.
  - exists acc. split_and!; [done|lia|lia|]. intros ph [Hin _]. by apply elem_of_nil in Hin.
  - assert (forall q, loads phs q -> segment_ok bytes bias q) as Hok' by (intros q [? ?]; apply Hok; split; [by right|done]).
    cbn [max_end]. destruct (ph_load ph) eqn:Hl.
    + destruct (Hok ph) as [? ? ? ? He]; [split; [left|done]|]. unfold USER_END in *. rewrite uadd_eq by lia. cbn [mbind outcome_bind].
      destruct (IH (if acc <? virtual_addr ph + mem_size ph then virtual_addr ph + mem_size ph else acc)) as (e & Hrun & Hr & Hall); [done|done| |].
      { destruct (Z.ltb_spec acc (virtual_addr ph + mem_size ph)); lia. }
      exists e. destruct (Z.ltb_spec acc (virtual_addr ph + mem_size ph)).
      * split_and!; [done|lia|lia|]. intros q [[->|Hin]%elem_of_cons Hlq]; [lia|by apply Hall].
      * split_and!; [done|lia|lia|]. intros q [[->|Hin]%elem_of_cons Hlq]; [lia|by apply Hall].
    + destruct (IH acc) as (e & Hrun & Hr & Hall); [done..|]. exists e. split_and!; [done|lia|lia|].
      intros q [[->|Hin]%elem_of_cons Hlq]; [congruence|by apply Hall].
Qed.
End Load.
