(* ===== verification/ExecStack.v ===== *)
(** * The stack of a program at its start

    Either the arguments and the environment fit, and the stack holds them as the System V
    convention says, or the kernel stops. *)
From S2P Require Import Prelude PageAlloc Bytes OpenFile Process Sched UserMem Syscall Vfs Level4 UserSpace Exec ExecLoad.
#[local] Open Scope list_scope.

(** ** How much of the stack is used *)
Definition strings_size (strs : list (list Z)) : Z := foldr (fun s n => Z.of_nat (length s) + 1 + n) 0 strs.
(** The strings, rounded up to 16, the word that makes up for an odd number of words, the words. *)
Definition stack_use (argv envp : list (list Z)) : Z :=
  let n := Z.of_nat (length argv) + Z.of_nat (length envp) in
  let t := strings_size argv + strings_size envp in
  t + (- t) mod 16 + 8 * ((n + 3) mod 2) + 8 * (n + 5).
Definition stack_top (self : Process) : Z := page_of (load_bias self + end_ self + STACK_GAP + 0xFFF).
Definition words (ws : list Z) : list Z := concat (to_le 8 <$> ws).

Lemma strings_size_app a b : strings_size (a ++ b) = strings_size a + strings_size b.
Proof. unfold strings_size. induction a as [|s a IH]; cbn; lia. Qed.
Lemma strings_size_rev a : strings_size (rev a) = strings_size a.
Proof. induction a as [|s a IH]; [done|]. cbn [rev]. rewrite strings_size_app, IH. unfold strings_size. cbn. lia. Qed.
Lemma strings_size_pos a : 0 <= strings_size a.
Proof. unfold strings_size. induction a as [|s a IH]; cbn; lia. Qed.
Lemma words_length ws : length (words ws) = (8 * length ws)%nat.
Proof. unfold words. induction ws as [|w ws IH]; [done|]. cbn. rewrite length_app, to_le_length, IH. lia. Qed.
Lemma words_app a b : words (a ++ b) = words a ++ words b.
Proof. unfold words. by rewrite fmap_app, concat_app. Qed.

Lemma mask_page x : 0 <= x < 2 ^ 64 -> Z.land x (unot 64 0xFFF) = page_of x.
Proof.
  intros Hx. rewrite land_unot by (unfold is_u; lia). change 0xFFF with (Z.ones 12). rewrite Z.ldiff_ones_r, Z.shiftr_div_pow2, Z.shiftl_mul_pow2 by lia.
  unfold page_of, PAGE_4K. Z.to_euclidean_division_equations. lia.
Qed.

Lemma Forall2_rev' {A B} (P : A -> B -> Prop) l k : Forall2 P l k -> Forall2 P (rev l) (rev k).
Proof. induction 1; cbn; [done|]. apply Forall2_app; [done|by constructor]. Qed.

Section Stack.
Context {M : Type} `{HU : UserSpace M} `{HA : AddressSpaces M} `{HL : !UserSpaceLaws M}.

(** A string at an address, with its NUL. *)
Definition c_string_at (m : M) (p : Z) (s : list Z) : Prop := holds m p (s ++ [0]).

(** ** Strings *)
Definition string_in (lo hi : Z) (m : M) (p : Z) (s : list Z) : Prop :=
  c_string_at m p s /\ lo <= p /\ p + Z.of_nat (length s) + 1 <= hi.
Lemma string_in_kept W lo hi m m' p s : changes W m m' -> 0 <= lo -> hi <= USER_END -> (forall b, lo <= b < hi -> ~ W b) ->
  string_in lo hi m p s -> string_in lo hi m' p s.
Proof using.
  intros Hc Hlo Hhi Hd (Hs & Hp & He). split_and!; [|done|done].
  eapply changes_holds; [exact Hc|lia| | |exact Hs]; rewrite length_app; cbn [length]; [lia|]. intros b Hb. apply Hd. unfold inside in Hb. lia.
Qed.
Lemma strings_kept W lo hi m m' ptrs strs : changes W m m' -> 0 <= lo -> hi <= USER_END -> (forall b, lo <= b < hi -> ~ W b) ->
  Forall2 (string_in lo hi m) ptrs strs -> Forall2 (string_in lo hi m') ptrs strs.
Proof using. intros Hc Hlo Hhi Hd Hf. eapply Forall2_impl; [exact Hf|]. intros p s. by apply (string_in_kept W). Qed.
Lemma string_in_weaken lo hi lo' hi' m p s : lo' <= lo -> hi <= hi' -> string_in lo hi m p s -> string_in lo' hi' m p s.
Proof using. intros ? ? (Hs & ? & ?). split_and!; [done|lia|lia]. Qed.
Lemma strings_at lo hi m ptrs strs : Forall2 (string_in lo hi m) ptrs strs -> Forall2 (c_string_at m) ptrs strs.
Proof using. intros Hf. eapply Forall2_impl; [exact Hf|]. by intros p s [? _]. Qed.
Lemma push_strings_ok {E} strs : forall m sp lo, us_ok m -> 0 <= lo -> sp <= USER_END -> lo <= sp - strings_size strs ->
  Forall (Forall is_byte) strs -> mapped m lo (sp - lo) ->
  exists ptrs m', push_strings (E := E) strs sp m = (Ok (ptrs, sp - strings_size strs), m') /\
    changes (inside (sp - strings_size strs) (strings_size strs)) m m' /\ Forall2 (string_in (sp - strings_size strs) sp m') ptrs strs.
Proof using.
  induction strs as [|s strs IH]; intros m sp lo Hm Hlo Hsp Hfit Hb Hmap.
  - exists [], m. cbn. rewrite Z.sub_0_r. split_and!; [done|by apply changes_refl|done].
  - apply Forall_cons in Hb as [Hs Hb]. pose proof (strings_size_pos strs) as Hpos.
    assert (strings_size (s :: strs) = Z.of_nat (length s) + 1 + strings_size strs) as Hsz by done. rewrite Hsz in *. cbn [push_strings].
    set (l := Z.of_nat (length s)) in *. unfold USER_END in *.
    rewrite (st_bind_eq _ _ m (sp - (l + 1)) m) by (rewrite usub_eq; [done|lia]).
    destruct (write_bytes_ok (E := E) s m (sp - (l + 1))) as (m1 & Hrun1 & Hc1 & Hh1); [done|lia|unfold USER_END; lia|done|intros b Hbr; apply Hmap; lia|].
    rewrite (st_bind_eq _ _ _ _ _ Hrun1). fold l in Hc1 |- *.
    assert (mapped m1 lo (sp - lo)) as Hmap1 by (eapply changes_mapped; [exact Hc1|done|unfold USER_END; lia|done]).
    destruct (write_byte_ok (E := E) m1 (sp - (l + 1) + l) 0) as (m2 & Hrun2 & Hc2 & Hp2); [apply Hc1|unfold user, USER_END; lia|done|apply Hmap1; lia|].
    rewrite (st_bind_eq _ _ _ _ _ Hrun2).
    assert (mapped m2 lo (sp - (l + 1) - lo)) as Hmap2.
    { intros b Hbr. apply (changes_mapped (eq (sp - (l + 1) + l)) m1 m2 lo (sp - lo)); [done|done|unfold USER_END; lia|done|lia]. }
    destruct (IH m2 (sp - (l + 1)) lo) as (ptrs & m3 & Hrun3 & Hc3 & Hf3); [apply Hc2|done|lia|lia|done|done|].
    rewrite (st_bind_eq _ _ _ _ _ Hrun3). replace (sp - (l + 1 + strings_size strs)) with (sp - (l + 1) - strings_size strs) by lia.
    exists (sp - (l + 1) :: ptrs), m3. split_and!; [done| |].
    + eapply changes_trans; [|eapply changes_trans]; (eapply changes_weaken; [|eassumption]); unfold inside; intros; lia.
    + constructor; [|eapply Forall2_impl; [exact Hf3|]; intros p q; apply string_in_weaken; lia].
      apply (string_in_weaken (sp - (l + 1)) sp); [lia|lia|].
      apply (string_in_kept _ _ _ m2 _ _ _ Hc3); [lia|unfold USER_END; lia|unfold inside; intros; lia|split_and!; [|lia|lia]].
      * apply holds_app; [eapply changes_holds; [exact Hc2|lia|unfold USER_END; lia| |done]; unfold inside; intros; lia|].
        intros [|i] b Hi; [|done]. injection Hi as <-. rewrite Z.add_0_r. exact Hp2.
Qed.
(** *** Whatever the memory: a computation stops the kernel, or gives a result of [P] *)
Definition yields {E A} (P : A -> Prop) (c : st M E A) : Prop :=
  forall m, exists m', c m = (Panic, m') \/ exists a, c m = (Ok a, m') /\ P a.
Lemma yields_ret {E A} (P : A -> Prop) (a : A) : P a -> yields (E := E) P (mret a).
Proof using. intros Ha m. exists m. right. by exists a. Qed.
Lemma yields_panic {E A} (P : A -> Prop) : yields (E := E) P (st_lift Panic).
Proof using. intros m. exists m. by left. Qed.
Lemma yields_bind {E A B} (P : A -> Prop) (Q : B -> Prop) (c : st M E A) f :
  yields P c -> (forall a, P a -> yields Q (f a)) -> yields Q (c ≫= f).
Proof using.
  intros Hc Hf m. destruct (Hc m) as (m1 & [Hp|(a & Ha & HP)]); [exists m1; left; by apply st_bind_Panic|].
  destruct (Hf a HP m1) as (m2 & H2). exists m2. by rewrite (st_bind_eq _ _ _ _ _ Ha).
Qed.
Lemma yields_usub {E} x y : yields (E := E) (fun z => z = x - y) (st_lift (usub x y)).
Proof using. intros m. exists m. unfold st_lift, usub. destruct (_ <=? _); [right; by eexists|by left]. Qed.
Lemma yields_write_byte {E} a v : yields (E := E) (fun _ => True) (write_byte a v).
Proof using. intros m. unfold write_byte. destruct (poke a v m) as [m'|]; eexists; [right; by eexists|by left]. Qed.
Lemma yields_write_bytes {E} bs : forall a, yields (E := E) (fun _ => True) (write_bytes a bs).
Proof using.
  induction bs as [|b bs IH]; intros a; [by apply yields_ret|]. cbn. eapply yields_bind; [apply yields_write_byte|]. auto.
Qed.
Lemma yields_push_strings {E} strs : forall sp, yields (E := E) (fun r => r.2 = sp - strings_size strs /\ length r.1 = length strs) (push_strings strs sp).
Proof using.
  induction strs as [|s strs IH]; intros sp; [apply yields_ret; cbn; lia|]. cbn [push_strings].
  eapply yields_bind; [apply yields_usub|]. intros sp1 ->. eapply yields_bind; [apply yields_write_bytes|]. intros _ _.
  eapply yields_bind; [apply yields_write_byte|]. intros _ _. eapply yields_bind; [apply IH|]. intros [ptrs sp2] [Hsp Hlen]. apply yields_ret.
  cbn in *. split; [|lia]. rewrite Hsp. unfold strings_size. cbn. lia.
Qed.
Lemma yields_push_all {E} vals : forall sp, yields (E := E) (fun r => r = sp - 8 * Z.of_nat (length vals)) (push_all vals sp).
Proof using.
  induction vals as [|v vals IH]; intros sp; [apply yields_ret; cbn; lia|]. cbn [push_all].
  eapply yields_bind with (P := fun r => r = sp - 8).
  - unfold push. eapply yields_bind; [apply yields_usub|]. intros ? ->. eapply yields_bind; [apply yields_write_bytes|]. intros _ _. by apply yields_ret.
  - intros sp1 ->. intros m. destruct (IH (sp - 8) m) as (m' & [Hp|(r & Hr & ->)]); exists m'; [by left|right]. eexists. split; [exact Hr|]. cbn [length]. lia.
Qed.
Lemma align_16_ok {E} k : forall fuel sp, Z.of_nat k = sp mod 16 -> 0 <= sp -> (k < fuel)%nat -> align_16 (E := E) fuel sp = Ok (sp - sp mod 16).
Proof using.
  induction k as [|k IH]; intros fuel sp Hk Hsp Hf; (destruct fuel as [|fuel]; [lia|]); cbn [align_16].
  - rewrite (proj2 (Z.eqb_eq _ _)) by lia. f_equal. lia.
  - rewrite (proj2 (Z.eqb_neq _ _)) by lia. assert (1 <= sp) by (destruct (decide (sp = 0)) as [->|]; [rewrite Z.mod_0_l in Hk; lia|lia]).
    rewrite usub_eq by done. cbn [mbind outcome_bind]. assert ((sp - 1) mod 16 = sp mod 16 - 1) as Hm by (Z.to_euclidean_division_equations; lia).
    rewrite IH by lia. f_equal. lia.
Qed.

(** ** Words *)
Lemma push_all_ok {E} vals : forall m sp lo, us_ok m -> 0 <= lo -> sp <= USER_END -> lo <= sp - 8 * Z.of_nat (length vals) -> mapped m lo (sp - lo) ->
  exists m', push_all (E := E) vals sp m = (Ok (sp - 8 * Z.of_nat (length vals)), m') /\
    changes (inside (sp - 8 * Z.of_nat (length vals)) (8 * Z.of_nat (length vals))) m m' /\
    holds m' (sp - 8 * Z.of_nat (length vals)) (words (rev vals)).
Proof using.
  induction vals as [|v vals IH]; intros m sp lo Hm Hlo Hsp Hfit Hmap.
  - exists m. cbn. rewrite Z.sub_0_r. split_and!; [done|by apply changes_refl|by intros i b Hi].
  - cbn [length push_all] in *. set (n := Z.of_nat (length vals)) in *. replace (Z.of_nat (S (length vals))) with (n + 1) in * by lia.
    unfold USER_END in *.
    destruct (write_bytes_ok (E := E) (to_le 8 v) m (sp - 8)) as (m1 & Hrun1 & Hc1 & Hh1); rewrite ?to_le_length;
      [done|lia|unfold USER_END; lia|apply to_le_bytes|intros b Hbr; apply Hmap; lia|].
    rewrite to_le_length in Hc1.
    assert (push (E := E) v sp m = (Ok (sp - 8), m1)) as Hpush.
    { unfold push. rewrite (st_bind_eq _ _ m (sp - 8) m) by (rewrite usub_eq; [done|lia]). unfold write_word. by rewrite (st_bind_eq _ _ _ _ _ Hrun1). }
    rewrite (st_bind_eq _ _ _ _ _ Hpush).
    destruct (IH m1 (sp - 8) lo) as (m2 & Hrun2 & Hc2 & Hh2); [apply Hc1|done|unfold USER_END; lia|fold n; lia| |].
    { intros b Hbr. apply (changes_mapped _ m m1 lo (sp - lo) Hc1); [done|unfold USER_END; lia|done|lia]. }
    fold n in Hrun2, Hc2, Hh2. replace (sp - 8 - 8 * n) with (sp - 8 * (n + 1)) in * by lia.
    exists m2. split_and!; [done| |].
    + eapply changes_trans; (eapply changes_weaken; [|eassumption]); unfold inside; intros; lia.
    + cbn [rev]. rewrite words_app. apply holds_app; [done|]. rewrite words_length, length_rev.
      replace (sp - 8 * (n + 1) + Z.of_nat (8 * length vals)) with (sp - 8) by lia.
      eapply changes_holds; [exact Hc2|lia|cbn; rewrite app_nil_r, to_le_length; unfold USER_END; lia| |cbn; by rewrite app_nil_r].
      cbn. rewrite app_nil_r, to_le_length. unfold inside. intros; lia.
Qed.

(** ** The whole stack *)
(** The System V layout at [sp]: the number of arguments, pointers to them and a null, pointers to
    the environment and a null, and an empty auxiliary vector. *)
Definition stack_layout (m : M) (sp : Z) (argv envp : list (list Z)) : Prop :=
  exists aps eps, holds m sp (words (Z.of_nat (length argv) :: aps ++ [0] ++ eps ++ [0; 0; 0])) /\
    Forall2 (c_string_at m) aps argv /\ Forall2 (c_string_at m) eps envp.

Lemma yields_align {E} fuel : forall sp, yields (E := E) (fun r => r mod 16 = 0 /\ sp - Z.of_nat fuel < r <= sp) (st_lift (align_16 fuel sp)).
Proof using.
  induction fuel as [|fuel IH]; intros sp m; [exists m; by left|]. exists m. unfold st_lift. cbn [align_16].
  destruct (Z.eqb_spec (sp mod 16) 0) as [Hz|Hz]; [right; exists sp; split; [done|lia]|].
  unfold usub. destruct (1 <=? sp); [|by left]. cbn [mbind outcome_bind]. destruct (IH (sp - 1) m) as (m' & [Hp|(r & Hr & Hr')]).
  - left. unfold st_lift in Hp. by injection Hp as -> _.
  - right. exists r. unfold st_lift in Hr. injection Hr as -> _. split; [done|lia].
Qed.
(** The address the stack pointer ends at. *)
Lemma stack_pointer top T n sp2 : top mod PAGE_4K = 0 -> sp2 mod 16 = 0 -> top - T - 16 < sp2 <= top - T ->
  (if negb ((sp2 - (1 + n + 2) * 8) mod 16 =? 0) then sp2 - 8 else sp2) - 8 * (n + 5) =
  top - (T + (- T) mod 16 + 8 * ((n + 3) mod 2) + 8 * (n + 5)).
Proof using.
  unfold PAGE_4K. intros Ht Hs Hr. assert (sp2 = top - (T + (- T) mod 16)) as -> by (Z.to_euclidean_division_equations; lia).
  destruct (Z.eqb_spec ((top - (T + (- T) mod 16) - (1 + n + 2) * 8) mod 16) 0) as [He|He]; cbn; Z.to_euclidean_division_equations; lia.
Qed.

Section Build.
Context `{HV : VirtAddrs} (Hnew : forall x, user x -> virt_new x = Some x).
Context (self : Process) (m : M) (n : nat).
Context (Hm : us_ok m) (Hroom : us_room m (16 + n)).
Context (Hlow : 0 <= load_bias self /\ 0 <= end_ self /\ load_bias self + end_ self <= USER_END - 0x100000).
Context (Hbytes : Forall (Forall is_byte) (argv self) /\ Forall (Forall is_byte) (envp self)).
Let top := stack_top self.
Let use := stack_use (argv self) (envp self).

Lemma top_range : top mod PAGE_4K = 0 /\ load_bias self + end_ self + STACK_GAP <= top <= USER_END - 0x1000.
Proof using Hlow.
  unfold top, stack_top, USER_END, STACK_GAP in *. split; [apply page_of_aligned|].
  pose proof (page_of_range (load_bias self + end_ self + 0x20000 + 0xFFF)) as Hr. unfold PAGE_4K in Hr. lia.
Qed.
(** The pages of the stack. *)
Lemma stack_mapped {E} : exists m1,
  map_stack (E := E) 5 (top - STACK_SIZE) top m = (Ok tt, m1) /\ us_room m1 n /\
  extends (fun _ => False) (inside (top - STACK_SIZE) STACK_SIZE) m m1 /\ mapped m1 (top - STACK_SIZE) STACK_SIZE.
Proof using Hnew Hm Hroom Hlow.
  destruct top_range as [Hal Hr]. unfold USER_END, STACK_GAP, STACK_SIZE, PAGE_4K in *.
  destruct (map_stack_ok Hnew (E := E) 4 5 (top - 0x4000) m n) as (m1 & Hrun & Hx & Hr1 & Hmap); try done.
  - lia.
  - unfold PAGE_4K. Z.to_euclidean_division_equations. lia.
  - unfold USER_END, PAGE_4K. lia.
  - lia.
  - change (Z.of_nat 4 * PAGE_4K) with 0x4000 in *. replace (top - 0x4000 + 0x4000) with top in Hrun by lia. eauto.
Qed.

(** Everything before the strings is the same for every stack. *)
Lemma build_stack_eq {E} m1 : map_stack (E := E) 5 (top - STACK_SIZE) top m = (Ok tt, m1) ->
  build_stack (E := E) self m =
  ('(envp_ptrs, sp) ← push_strings (rev (envp self)) top;
   '(argv_ptrs, sp) ← push_strings (rev (argv self)) sp;
   sp ← st_lift (align_16 16 sp);
   let pointer_entries := 1 + Z.of_nat (length (argv self)) + Z.of_nat (length (envp self)) + 2 in
   temp_sp ← st_lift (usub sp (pointer_entries * 8));
   sp ← (if negb (temp_sp mod 16 =? 0) then st_lift (usub sp 8) else mret sp);
   sp ← push_all ([0; 0; 0] ++ envp_ptrs ++ [0] ++ argv_ptrs ++ [Z.of_nat (length (argv self))]) sp;
   if negb (top - STACK_SIZE <=? sp) then st_lift Panic else mret (top, sp)) m1.
Proof using Hlow.
  intros Hrun. destruct top_range as [_ Hr]. unfold USER_END, STACK_GAP, STACK_SIZE in *. unfold build_stack, STACK_GAP, STACK_SIZE.
  rewrite (st_bind_eq _ _ m (load_bias self + end_ self) m) by (rewrite uadd_eq; [done|lia]).
  rewrite (st_bind_eq _ _ m (load_bias self + end_ self + 0x20000) m) by (rewrite uadd_eq; [done|lia]).
  rewrite (st_bind_eq _ _ m (load_bias self + end_ self + 0x20000 + 0xFFF) m) by (rewrite uadd_eq; [done|lia]).
  cbv zeta. rewrite mask_page by lia. change (page_of (load_bias self + end_ self + 0x20000 + 0xFFF)) with top.
  rewrite (st_bind_eq _ _ m (top - 0x4000) m) by (rewrite usub_eq; [done|lia]). by rewrite (st_bind_eq _ _ _ _ _ Hrun).
Qed.

(** The stack does not hold the strings. *)
Lemma build_stack_panic {E} : STACK_SIZE < use -> exists m', build_stack (E := E) self m = (Panic, m').
Proof using All.
  intros Huse. destruct (stack_mapped (E := E)) as (m1 & Hrun & _). rewrite (build_stack_eq m1 Hrun). destruct top_range as [Hal _].
  match goal with |- exists m', ?c m1 = _ => assert (yields (fun _ => False) c) as Hy end.
  { eapply yields_bind; [apply yields_push_strings|]. intros [eps sp] [Hsp Hle]. cbn in Hsp, Hle. subst sp.
    eapply yields_bind; [apply yields_push_strings|]. intros [aps sp] [Hsp Hla]. cbn in Hsp, Hla. subst sp.
    eapply yields_bind; [apply yields_align|]. intros sp2 [H16 Hr2]. cbv zeta. rewrite !strings_size_rev in Hr2.
    eapply yields_bind; [apply yields_usub|]. intros temp ->.
    eapply yields_bind with (P := fun r => r = if negb ((sp2 - (1 + (Z.of_nat (length (argv self)) + Z.of_nat (length (envp self))) + 2) * 8) mod 16 =? 0) then sp2 - 8 else sp2).
    { rewrite Z.add_assoc. destruct (negb _); [apply yields_usub|by apply yields_ret]. }
    intros sp3 ->. eapply yields_bind; [apply yields_push_all|]. intros sp4 ->.
    rewrite !length_app, Hle, Hla, !length_rev. cbn [length].
    match goal with |- context [?a <=? ?b] => assert (b = top - use) as Hb end.
    { unfold use, stack_use. rewrite <-(stack_pointer top (strings_size (argv self) + strings_size (envp self)) _ sp2) by (done || lia). lia. }
    rewrite Hb. destruct (Z.leb_spec (top - STACK_SIZE) (top - use)); [lia|]. apply yields_panic. }
  destruct (Hy m1) as (m' & [Hp|(a & _ & [])]). eauto.
Qed.

Lemma stack_aligned : (top - use) mod 16 = 0.
Proof using Hlow.
  destruct top_range as [Hal _]. unfold use, stack_use, PAGE_4K in *. Z.to_euclidean_division_equations. lia.
Qed.
(** The stack holds the strings. *)
Lemma build_stack_ok {E} : use <= STACK_SIZE -> exists m',
  build_stack (E := E) self m = (Ok (top, top - use), m') /\ us_room m' n /\
  extends (inside (top - STACK_SIZE) STACK_SIZE) (inside (top - STACK_SIZE) STACK_SIZE) m m' /\
  stack_layout m' (top - use) (argv self) (envp self).
Proof using All.
  intros Huse. destruct Hbytes as [Hba Hbe]. destruct (stack_mapped (E := E)) as (m1 & Hrun & Hr1 & Hx1 & Hmap1). rewrite (build_stack_eq m1 Hrun). destruct top_range as [Hal Htop].
  set (lo := top - STACK_SIZE) in *. set (ea := strings_size (argv self)). set (ee := strings_size (envp self)).
  set (k := Z.of_nat (length (argv self)) + Z.of_nat (length (envp self))).
  assert (use = ea + ee + (- (ea + ee)) mod 16 + 8 * ((k + 3) mod 2) + 8 * (k + 5)) as Hu by done.
  pose proof (strings_size_pos (argv self)) as Hea. pose proof (strings_size_pos (envp self)) as Hee. fold ea in Hea. fold ee in Hee.
  assert (0 <= k) as Hk by lia. assert (0 <= (- (ea + ee)) mod 16 < 16) as H16 by (apply Z.mod_pos_bound; lia).
  assert (0 <= (k + 3) mod 2 < 2) as H2 by (apply Z.mod_pos_bound; lia). unfold USER_END, STACK_GAP, STACK_SIZE in *.
  (* the environment *)
  destruct (push_strings_ok (E := E) (rev (envp self)) m1 top lo) as (eps & m2 & Hrun2 & Hc2 & Hf2);
    [apply Hx1|lia|unfold USER_END; lia|rewrite strings_size_rev; lia|by apply Forall_rev|intros b Hb; apply Hmap1; lia|].
  rewrite strings_size_rev in Hrun2, Hc2. fold ee in Hrun2, Hc2. rewrite (st_bind_eq _ _ _ _ _ Hrun2).
  (* the arguments *)
  assert (mapped m2 lo (top - lo)) as Hmap2 by (eapply changes_mapped; [exact Hc2|lia|unfold USER_END; lia|intros b Hb; apply Hmap1; lia]).
  destruct (push_strings_ok (E := E) (rev (argv self)) m2 (top - ee) lo) as (aps & m3 & Hrun3 & Hc3 & Hf3);
    [apply Hc2|lia|unfold USER_END; lia|rewrite strings_size_rev; lia|by apply Forall_rev|intros b Hb; apply Hmap2; lia|].
  rewrite strings_size_rev in Hrun3, Hc3. fold ea in Hrun3, Hc3. rewrite (st_bind_eq _ _ _ _ _ Hrun3).
  (* the words *)
  pose proof (Forall2_length _ _ _ Hf2) as Hle. pose proof (Forall2_length _ _ _ Hf3) as Hla. rewrite length_rev in Hle, Hla.
  set (sp2 := top - ee - ea - (top - ee - ea) mod 16).
  assert (0 <= (top - ee - ea) mod 16 < 16) as Hm16 by (apply Z.mod_pos_bound; lia).
  rewrite (st_bind_eq _ _ m3 sp2 m3).
  2:{ unfold st_lift. rewrite (align_16_ok (Z.to_nat ((top - ee - ea) mod 16))) by lia. done. }
  cbv zeta. rewrite (st_bind_eq _ _ m3 (sp2 - (1 + k + 2) * 8) m3).
  2:{ unfold st_lift. rewrite usub_eq by lia. do 2 f_equal. lia. }
  set (sp3 := if negb ((sp2 - (1 + k + 2) * 8) mod 16 =? 0) then sp2 - 8 else sp2).
  assert (sp3 - 8 * (k + 5) = top - use) as Hsp.
  { rewrite Hu. apply stack_pointer; [done| |lia]. unfold sp2. Z.to_euclidean_division_equations. lia. }
  rewrite (st_bind_eq _ _ m3 sp3 m3).
  2:{ unfold sp3. destruct (negb _); [|done]. unfold st_lift. rewrite usub_eq by lia. done. }
  set (vals := [0; 0; 0] ++ eps ++ [0] ++ aps ++ [Z.of_nat (length (argv self))]).
  assert (Z.of_nat (length vals) = k + 5) as Hlv by (unfold vals; rewrite !length_app; cbn [length]; lia).
  assert (mapped m3 lo (top - lo)) as Hmap3 by (eapply changes_mapped; [exact Hc3|lia|unfold USER_END; lia|done]).
  destruct (push_all_ok (E := E) vals m3 sp3 lo) as (m4 & Hrun4 & Hc4 & Hh4); rewrite ?Hlv, ?Hsp; [apply Hc3|lia|unfold USER_END; lia|lia|intros b Hb; apply Hmap3; lia|].
  rewrite Hlv, Hsp in Hrun4, Hc4, Hh4. rewrite (st_bind_eq _ _ _ _ _ Hrun4). rewrite (proj2 (Z.leb_le _ _)) by lia. cbn [negb].
  exists m4. split_and!; [done|by apply Hc4, Hc3, Hc2| |].
  - assert (changes (inside lo 0x4000) m1 m4) as Hc.
    { eapply changes_trans; [|eapply changes_trans]; (eapply changes_weaken; [|eassumption]); unfold inside; intros; lia. }
    eapply extends_trans; [eapply extends_weaken; [| |exact Hx1]; done|]. apply changes_extends; [done|]. intros b _ Hb. by apply Hmap1.
  - exists (rev aps), (rev eps). split_and!.
    + replace (Z.of_nat (length (argv self)) :: rev aps ++ [0] ++ rev eps ++ [0; 0; 0]) with (rev vals); [done|].
      unfold vals. rewrite !rev_app_distr. cbn [rev app]. by rewrite <-!app_assoc.
    + rewrite <-(rev_involutive (argv self)). apply Forall2_rev'. eapply strings_at.
      refine (strings_kept _ _ _ _ m4 _ _ Hc4 _ _ _ Hf3); rewrite ?strings_size_rev; fold ea; unfold USER_END, inside; intros; lia.
    + rewrite <-(rev_involutive (envp self)). apply Forall2_rev'. eapply strings_at.
      refine (strings_kept _ _ _ _ m4 _ _ Hc4 _ _ _ (strings_kept _ _ _ _ m3 _ _ Hc3 _ _ _ Hf2)); rewrite ?strings_size_rev; fold ee; unfold USER_END, inside; intros; lia.
Qed.
End Build.
End Stack.
