(* ===== verification/ExecRun.v ===== *)
(** * [execve] as a whole

    A program that can run is run: its image and its stack are in the new address space, and the
    process goes on at its entry. *)
From S2P Require Import Prelude PageAlloc Bytes OpenFile Process Sched UserMem Syscall Vfs Level4 UserSpace Exec ExecLoad ExecStack.
#[local] Open Scope list_scope.

Section Run.
Context {D M : Type} `{HO : InodeOps D} `{HU : UserSpace M} `{HA : AddressSpaces M} `{HL : !UserSpaceLaws M}.
Context `{HV : VirtAddrs} {HVL : VirtAddrsLaws} `{HG : VirtAlign} {HGL : VirtAlignLaws}.
Context (Hnew : forall x, user x -> virt_new x = Some x).
Context (ElfFile_new : list Z -> option ElfFile) (sanity_check : ProgramHeader -> ElfFile -> bool) (hw : Machine).
Context {F : Type} `{HM : UserMemory M} (fs_root : F -> st (FsState D) FileError nat) (VirtAddr_try_new : Z -> bool).

(** A program file that can be run. *)
Record program_ok (bytes : list Z) (elf : ElfFile) : Prop := {
  pg_parse : ElfFile_new bytes = Some elf;
  pg_sane : forallb (fun ph => sanity_check ph elf) (program_iter elf) = true;
  pg_bytes : Forall is_byte bytes;
  pg_segments ph : loads (program_iter elf) ph -> segment_ok bytes (compute_load_bias elf) ph;
  pg_apart : apart (compute_load_bias elf) (program_iter elf);
  pg_entry : 0 <= elf_entry_point elf /\ elf_entry_point elf + compute_load_bias elf < 2 ^ 64;
}.
Lemma bias_range elf : 0 <= compute_load_bias elf <= 0x400000.
Proof using. unfold compute_load_bias, DEFAULT_USER_BASE. destruct (shared_object elf); lia. Qed.

Lemma internal_load_ok {E} self bytes elf m n :
  program_ok bytes elf -> us_ok m -> us_room m (4 * image_page_count (compute_load_bias elf) (program_iter elf) + n) ->
  exists e m', internal_load ElfFile_new sanity_check (E := E) self bytes m = (Ok (with_load self (compute_load_bias elf) e (elf_entry_point elf)), m') /\
    us_room m' n /\ extends (image_range (compute_load_bias elf) (program_iter elf)) (image_pages (compute_load_bias elf) (program_iter elf)) m m' /\
    image_holds bytes (compute_load_bias elf) (program_iter elf) m' /\
    0 <= e <= USER_END - 0x100000 - compute_load_bias elf /\ forall ph, loads (program_iter elf) ph -> virtual_addr ph + mem_size ph <= e.
Proof using Hnew HVL HGL.
  intros [Hp Hs Hby Hseg Hap Hen] Hm Hr. pose proof (bias_range elf) as Hb. set (bias := compute_load_bias elf) in *.
  unfold internal_load. rewrite (st_bind_eq _ _ m elf m) by (by rewrite Hp). cbv zeta. rewrite Hs. cbn [negb].
  destruct (load_segments_ok Hnew (E := E) bytes bias (program_iter elf) m n) as (m1 & Hrun1 & Hr1 & Hx1 & Hh1); [done..|lia|done|done|].
  rewrite (st_bind_eq _ _ _ _ _ Hrun1).
  destruct (max_end_ok (E := E) bytes bias (program_iter elf) 0) as (e & Hrun2 & He & Hall); [lia|done|unfold USER_END; lia|].
  rewrite (st_bind_eq _ _ m1 e m1) by (unfold st_lift; by rewrite Hrun2). exists e, m1. split_and!; try done; lia.
Qed.

(** ** The start of the process *)
(** The process [self], about to run for the first time in the active space. *)
Lemma prepare_run_ok {E} self (k : Kernel D M) m n :
  loaded self = true -> user_stack_top self = 0 -> cr3 self mod PAGE_4K = 0 -> m = write_cr3 (cr3 self) (mem k) ->
  us_ok m -> us_room m (16 + n) -> 0 <= load_bias self /\ 0 <= end_ self /\ load_bias self + end_ self <= USER_END - 0x100000 ->
  Forall (Forall is_byte) (argv self) /\ Forall (Forall is_byte) (envp self) -> 0 <= entry_point self -> entry_point self + load_bias self < 2 ^ 64 ->
  let sp := stack_top self - stack_use (argv self) (envp self) in
  if decide (stack_use (argv self) (envp self) <= STACK_SIZE) then
    exists m', let self' := with_status (with_run self (with_frame (state self) (entry_point self + load_bias self) sp (rflags (state self)) (cs (state self)) (ss (state self))) (stack_top self)) Running in
      prepare_run (E := E) self k = (Ok (Some (entry_point self + load_bias self, sp), self'), set_mem m' (set_percpu (pid self) (curr_proc k) (set_mem m k))) /\
      sp mod 16 = 0 /\ us_room m' n /\ stack_layout m' sp (argv self) (envp self) /\
      extends (inside (stack_top self - STACK_SIZE) STACK_SIZE) (inside (stack_top self - STACK_SIZE) STACK_SIZE) m m'
  else exists k', prepare_run (E := E) self k = (Panic, k').
Proof using Hnew.
  intros Hld Hst Hcr -> Hm Hr Hlow Hby He0 He sp. set (m := write_cr3 (cr3 self) (mem k)) in *.
  assert (prepare_run (E := E) self k = (self0 ← on_mem (prepare_stack self); mret (Some (rip (state (with_status self0 Running)), rsp (state (with_status self0 Running))), with_status self0 Running))
    (set_percpu (pid self) (curr_proc k) (set_mem m k))) as ->.
  { unfold prepare_run. rewrite Hld. cbn [negb]. unfold on_mem at 1, switch_space, mbind at 1, st_bind at 1. unfold page_of. rewrite Hcr, Z.sub_0_r. done. }
  unfold mbind, st_bind, on_mem. change (mem (set_percpu (pid self) (curr_proc k) (set_mem m k))) with m.
  unfold prepare_stack. rewrite Hst. cbn [Z.eqb]. destruct (decide (_ <= STACK_SIZE)) as [Hu|Hu].
  - destruct (build_stack_ok Hnew self m n Hm Hr Hlow Hby (E := E) Hu) as (m' & Hrun & Hr' & Hx & Hlay).
    pose proof (stack_aligned self Hlow) as H16. fold sp in Hrun, Hlay, H16.
    exists m'. split; [|done]. rewrite (st_bind_eq _ _ _ _ _ Hrun). rewrite (st_bind_eq _ _ m' (entry_point self + load_bias self) m') by (rewrite uadd_eq; done).
    rewrite H16. cbn. reflexivity.
  - destruct (build_stack_panic Hnew self m n Hm Hr Hlow Hby (E := E)) as (m' & Hrun); [lia|].
    eexists. rewrite (st_bind_Panic _ _ _ _ Hrun). reflexivity.
Qed.

(** ** The strings *)
(** What [exec_replace] reads at the kernel's copies [bufs] of the strings are the byte strings
    [strs]: each copy and what the heap holds behind it, up to a NUL. *)
Definition strings_read (h : HeapTail) (bufs strs : list (list Z)) : Prop :=
  c_strings (E := unit) h 0 bufs = Ok strs /\ Forall (Forall is_byte) strs.
Lemma c_strings_any {E} h bufs : forall i strs, c_strings (E := unit) h i bufs = Ok strs -> c_strings (E := E) h i bufs = Ok strs.
Proof using.
  assert (forall i s r, c_string (E := unit) h i s = Ok r -> c_string (E := E) h i s = Ok r) as Hone.
  { intros i s r. unfold c_string. destruct s; [|by intros [= <-]]. by destruct (at_one h); [intros [= <-]|]. }
  induction bufs as [|s bufs IH]; intros i strs; cbn [c_strings]; [by intros [= <-]|].
  intros (r & Hr & (rest & Hrest & [= <-])%outcome_bind_Ok)%outcome_bind_Ok.
  rewrite (Hone _ _ _ Hr). cbn. by rewrite (IH _ _ Hrest).
Qed.
Lemma until_nul_app s t : 0 ∉ s -> until_nul (s ++ t) = s ++ until_nul t.
Proof using.
  induction s as [|b s IH]; [done|]. intros Hn. cbn. destruct (Z.eqb_spec b 0) as [->|Hb]; [exfalso; apply Hn; left|].
  rewrite IH; [done|]. intros Hs. apply Hn. by right.
Qed.
(** Copies that are not empty, hold no NUL and have one behind them are read as they are. *)
Lemma c_strings_ok {E} h strs : (forall i, until_nul (behind h i) = []) -> Forall (fun s => s <> [] /\ 0 ∉ s) strs ->
  forall i, c_strings (E := E) h i strs = Ok strs.
Proof using.
  intros Hn. induction 1 as [|s strs [Hne H0] _ IH]; intros i; [done|]. cbn [c_strings].
  assert (c_string (E := E) h i s = Ok s) as ->.
  { unfold c_string. destruct s as [|b s]; [done|]. by rewrite until_nul_app, Hn, app_nil_r. }
  cbn. by rewrite IH.
Qed.

(** The process after [exec_replace]. *)
Definition replaced (p : Process) (k : Kernel D M) (path : list Z) (argv envp : list (list Z)) (c : Z) : Process :=
  mkProcess (pid p) (parent_pid p) (string_of_bytes (display_name path argv)) (ProcessState_default hw) Created
    c 0 0 (filter (fun '(_, fh) => keeps_open (fs k) fh = true) (file_handles p)) (cwd p) 0 false 0 (exit_code p) envp argv (priority p).
Lemma exec_replace_ok {E} p ha he path kargv kenvp argv envp (k : Kernel D M) n :
  strings_read ha kargv argv -> strings_read he kenvp envp -> us_base (mem k) -> us_room (mem k) (8 + n) ->
  exists c m', exec_replace hw (E := E) p ha he path kargv kenvp k = (Ok (replaced p k path argv envp c), set_mem m' k) /\
    c mod PAGE_4K = 0 /\ us_ok (write_cr3 c m') /\ us_room (write_cr3 c m') n /\ (forall b, user b -> peek (write_cr3 c m') b = None).
Proof using.
  intros [Hsa _] [Hse _] Hm Hr. destruct (new_space_ok (mem k) n Hm Hr) as (c & m' & Hrun & Hc & _ & Hok & Hr' & Hp). exists c, m'.
  split; [|done]. unfold exec_replace. rewrite (st_bind_eq _ _ k envp k) by (unfold st_lift; by rewrite (c_strings_any _ _ _ _ Hse)).
  rewrite (st_bind_eq _ _ k argv k) by (unfold st_lift; by rewrite (c_strings_any _ _ _ _ Hsa)). rewrite (st_bind_eq _ _ k k k) by done.
  rewrite (st_bind_eq _ _ k c (set_mem m' k)); [done|]. unfold on_mem, st_unwrap. by rewrite Hrun.
Qed.

(** ** The system call *)
Section Exec.
Context (k k1 : Kernel D M) (file i : nat) (ino : Inode) (p : Process) (file_buf path : list Z) (elf : ElfFile).
Context (ha he : HeapTail) (kargv kenvp argv envp : list (list Z)) (n : nat).
Let phs := program_iter elf.
Let bias := compute_load_bias elf.
Context (Hino : inodes (fs k) !! file = Some ino).
Context (Hread : on_fs (op_read file 0 (replicate (Z.to_nat (size ino)) 0)) k = (Ok (size ino, file_buf), k1)).
Context (Hexec : contains (perms ino) OWNER_EXEC = true).
Context (Hcur : curr_proc k1 = Some i) (Hproc : PROCESSES k1 !! i = Some p).
Context (Hprog : program_ok file_buf elf).
Context (Hargv : strings_read ha kargv argv) (Henvp : strings_read he kenvp envp).
Context (Hok : us_base (mem k1)) (Hroom : us_room (mem k1) (8 + (4 * image_page_count bias phs + (16 + n)))).

(** The new address space with the image, before the stack. *)
Lemma exec_loaded {E} : exists c e m1 m2,
  exec_replace hw (E := E) p ha he path kargv kenvp k1 = (Ok (replaced p k1 path argv envp c), set_mem m1 k1) /\
  Process_load ElfFile_new sanity_check (E := E) (replaced p k1 path argv envp c) file_buf m1 =
    (Ok (with_load (replaced p k1 path argv envp c) bias e (elf_entry_point elf)), write_cr3 (cr3_of m1) m2) /\
  c mod PAGE_4K = 0 /\ us_ok m2 /\ us_room m2 (16 + n) /\ cr3_of m2 = c /\ image_holds file_buf bias phs m2 /\
  (forall b, user b -> is_Some (peek m2 b) -> image_pages bias phs b) /\
  0 <= e <= USER_END - 0x100000 - bias /\ forall ph, loads phs ph -> virtual_addr ph + mem_size ph <= e.
Proof using Hnew HVL HGL HL Hprog Hargv Henvp Hok Hroom.
  destruct (exec_replace_ok (E := E) p ha he path kargv kenvp argv envp k1 (4 * image_page_count bias phs + (16 + n)) Hargv Henvp Hok Hroom) as (c & m1 & Hrun1 & Hc & Hm1 & Hr1 & Hnone).
  destruct (internal_load_ok (E := E) (replaced p k1 path argv envp c) file_buf elf (write_cr3 c m1) (16 + n) Hprog Hm1 Hr1) as (e & m2 & Hrun2 & Hr2 & Hx2 & Hh2 & He & Hall).
  exists c, e, m1, m2. split_and!; try done; try apply He.
  - unfold Process_load. rewrite (st_bind_eq _ _ m1 m1 m1) by done. cbv zeta. rewrite (st_bind_eq _ _ m1 tt (write_cr3 c m1)).
    2:{ unfold switch_space. cbn [cr3 replaced]. unfold page_of. by rewrite Hc, Z.sub_0_r. }
    by rewrite (st_bind_eq _ _ _ _ _ Hrun2).
  - apply Hx2.
  - rewrite (ex_cr3 _ _ _ _ Hx2). apply cr3_write.
  - intros b Hb Hs. destruct (ex_new _ _ _ _ Hx2 b Hb Hs) as [Hs'|?]; [|done]. rewrite Hnone in Hs' by done. by destruct Hs'.
Qed.

(** Up to the start of the process. *)
Lemma exec_inner_eq {E} c e m1 m2 :
  exec_replace hw (E := E) p ha he path kargv kenvp k1 = (Ok (replaced p k1 path argv envp c), set_mem m1 k1) ->
  Process_load ElfFile_new sanity_check (E := E) (replaced p k1 path argv envp c) file_buf m1 =
    (Ok (with_load (replaced p k1 path argv envp c) bias e (elf_entry_point elf)), write_cr3 (cr3_of m1) m2) ->
  exec_inner ElfFile_new sanity_check hw (E := E) ha he file path kargv kenvp k =
  ('(r, proc) ← prepare_run (with_load (replaced p k1 path argv envp c) bias e (elf_entry_point elf));
   _ ← put_proc i proc;
   match r with
   | None => mret (Errno (neg_errno ENOEXEC))
   | Some (entry, stack) => _ ← set_current (pid proc) i; st_lift (enter_user_mode entry stack)
   end) (set_mem (write_cr3 (cr3_of m1) m2) (set_mem m1 k1)).
Proof using Hino Hread Hexec Hcur Hproc.
  intros H1 H2. unfold exec_inner. rewrite Hino, Hread, Z.eqb_refl, Hexec. cbn [negb].
  rewrite (st_bind_eq _ _ k1 (Some (i, p)) k1) by (unfold current_proc_mut; by rewrite Hcur, Hproc).
  rewrite (st_bind_eq _ _ _ _ _ H1). rewrite (st_bind_eq _ _ (set_mem m1 k1) (with_load (replaced p k1 path argv envp c) bias e (elf_entry_point elf)) (set_mem (write_cr3 (cr3_of m1) m2) (set_mem m1 k1))); [done|].
  unfold on_mem. cbn [mem set_mem]. by rewrite H2.
Qed.

(** What [prepare_run_ok] asks of the loaded process. *)
Lemma exec_prepares c e m1 m2 : cr3_of m2 = c -> 0 <= e <= USER_END - 0x100000 - bias ->
  m2 = write_cr3 c (mem (set_mem (write_cr3 (cr3_of m1) m2) (set_mem m1 k1))) /\
  (0 <= bias /\ 0 <= e /\ bias + e <= USER_END - 0x100000) /\ (Forall (Forall is_byte) argv /\ Forall (Forall is_byte) envp) /\
  0 <= elf_entry_point elf /\ elf_entry_point elf + bias < 2 ^ 64.
Proof using HL Hprog Hargv Henvp.
  intros <- He. pose proof (bias_range elf) as Hb. fold bias in Hb. split_and!; try lia; try apply Hargv; try apply Henvp; try apply (pg_entry _ _ Hprog).
  cbn [mem set_mem]. by rewrite write_write, write_same.
Qed.

(** C21: [execve] runs a program: where the path and the strings can be copied from the caller,
    the path opens a file that may be run and that reads as a program whose segments fit and do not
    overlap, the strings fit on the stack and the frames are there, the process goes on at the
    entry of the program in a new address space that maps the pages of the segments and the stack
    and nothing else, with the bytes of the file and zeros in the segments, and the arguments and
    the environment on an aligned stack; of its descriptors it keeps those not closed on exec.  The
    strings on the stack are those [exec_replace] reads ([strings_read]): the kernel's copies
    where a NUL follows each of them, which [copy_string_array] does not see to
    ([ExecSample.argument_runs_on], [ExecSample.empty_argument_faults]). *)
Theorem exec_runs_program {E} FS rdi rsi rdx k0 :
  exec_args VirtAddr_try_new (mem k0) rdi rsi rdx = Ok (path, kargv, kenvp) ->
  on_fs (open_file fs_root FS (string_of_bytes path)) k0 = (Ok file, k) ->
  stack_use argv envp <= STACK_SIZE ->
  exists k' p' sp, sys_exec ElfFile_new sanity_check fs_root hw VirtAddr_try_new (E := E) FS ha he rdi rsi rdx k0 =
      (Ok (EnterUser (elf_entry_point elf + bias) sp), k') /\
    PROCESSES k' = <[i := p']> (PROCESSES k1) /\ curr_proc k' = Some i /\ current_pid (SCHEDULER k') = Some (pid p) /\
    pid p' = pid p /\ status p' = Running /\ cr3_of (mem k') = cr3 p' /\
    file_handles p' = filter (fun '(_, fh) => keeps_open (fs k1) fh = true) (file_handles p) /\
    image_holds file_buf bias phs (mem k') /\ sp mod 16 = 0 /\ stack_layout (mem k') sp argv envp /\
    forall b, user b -> is_Some (peek (mem k') b) -> image_pages bias phs b \/ inside (user_stack_top p' - STACK_SIZE) STACK_SIZE b.
Proof using Hnew HVL HGL HL Hino Hread Hexec Hcur Hproc Hprog Hargv Henvp Hok Hroom.
  intros Hargs Hopen Hu. destruct (exec_loaded (E := E)) as (c & e & m1 & m2 & H1 & H2 & Hc & Hm2 & Hr2 & Hcr & Hh & Hout & He & Hall).
  unfold sys_exec. rewrite Hargs, Hopen.
  rewrite (exec_inner_eq c e m1 m2 H1 H2). set (self := with_load (replaced p k1 path argv envp c) bias e (elf_entry_point elf)) in *.
  destruct (exec_prepares c e m1 m2 Hcr He) as (A1 & A2 & A3 & A4 & A5).
  pose proof (prepare_run_ok (E := E) self (set_mem (write_cr3 (cr3_of m1) m2) (set_mem m1 k1)) m2 n) as Hrun.
  destruct (decide _) as [_|Hn] in Hrun; [|by destruct Hn]. destruct Hrun as (m' & Hrun & H16 & Hr' & Hlay & Hx); try done.
  cbv zeta in Hrun. rewrite (st_bind_eq _ _ _ _ _ Hrun). eexists _, _, _. split.
  { unfold mbind, st_bind, put_proc, set_current, update, st_lift, enter_user_mode. rewrite H16. reflexivity. }
  cbn [PROCESSES curr_proc SCHEDULER mem set_percpu set_sched set_procs set_mem current_pid pid with_status with_run status cr3 file_handles user_stack_top].
  split_and!; try done.
  - rewrite (ex_cr3 _ _ _ _ Hx), Hcr. done.
  - intros ph Hph. pose proof (segment_bytes_length file_buf bias ph (pg_segments _ _ Hprog ph Hph)) as Hlen.
    destruct (pg_segments _ _ Hprog ph Hph) as [? ? ? ? Hend]. fold bias in Hend. specialize (Hall ph Hph).
    unfold USER_END in Hend. eapply extends_holds; [exact Hx|lia|rewrite Hlen; unfold USER_END; lia| |by apply Hh].
    rewrite Hlen. unfold inside. destruct (top_range self) as [_ Ht]; [cbn; unfold USER_END in *; lia|].
    unfold stack_top in *. cbn in Ht |- *. unfold STACK_GAP, STACK_SIZE in *. intros; lia.
  - intros b Hub Hs. destruct (ex_new _ _ _ _ Hx b Hub Hs) as [Hs'|?]; [left; by apply Hout|by right].
Qed.
(** C22: strings that do not fit on the stack of sixteen KiB stop the kernel: whatever the length
    of the arguments a program passes to [execve], there is no error for it. *)
Theorem exec_overflows_stack {E} : STACK_SIZE < stack_use argv envp ->
  exists k', exec_inner ElfFile_new sanity_check hw (E := E) ha he file path kargv kenvp k = (Panic, k').
Proof using Hnew HVL HGL HL Hino Hread Hexec Hcur Hproc Hprog Hargv Henvp Hok Hroom.
  intros Hu. destruct (exec_loaded (E := E)) as (c & e & m1 & m2 & H1 & H2 & Hc & Hm2 & Hr2 & Hcr & Hh & Hout & He & Hall).
  rewrite (exec_inner_eq c e m1 m2 H1 H2). set (self := with_load (replaced p k1 path argv envp c) bias e (elf_entry_point elf)) in *.
  destruct (exec_prepares c e m1 m2 Hcr He) as (A1 & A2 & A3 & A4 & A5).
  pose proof (prepare_run_ok (E := E) self (set_mem (write_cr3 (cr3_of m1) m2) (set_mem m1 k1)) m2 n) as Hrun.
  destruct (decide _) as [Hn|_] in Hrun; [cbn in Hn; lia|]. destruct Hrun as (k' & Hrun); try done. exists k'. by rewrite (st_bind_Panic _ _ _ _ Hrun).
Qed.
End Exec.
End Run.
