(* ===== verification/ExecSample.v ===== *)
(** * Running a program on the processor's page tables

    The machine of [CowSample] with a process that runs a program of one segment; the theorems on
    [execve] apply to it.  What is read of arguments that are empty or not followed by a NUL. *)
From S2P Require Import Prelude PageAlloc Bytes Mapping CowSample X86Paging OpenFile Process Sched UserMem Syscall Vfs Level4 UserSpace Exec ExecLoad ExecStack ExecRun MemSpace.
From S2P Require Import Paging CowScratch.
#[local] Open Scope list_scope.

(** The rounding of the crate: up past the lower half is not an address. *)
#[export] Instance x86_align : VirtAlign := {
  align_down x a := x - x mod a;
  virt_align_up x a := virt_canonical (x + a - 1 - (x + a - 1) mod a);
}.
#[export] Instance x86_align_laws : VirtAlignLaws.
Proof.
  split.
  - done.
  - unfold user, USER_END, PAGE_4K. intros x Hx Hle. apply virt_canonical_Some. split; [done|]. unfold canonical_addr, page_of, PAGE_4K.
    Z.to_euclidean_division_equations. lia.
Qed.
Lemma x86_new x : user x -> virt_new x = Some x.
Proof. unfold user, USER_END. intros Hx. apply virt_canonical_Some. split; [done|]. unfold canonical_addr. lia. Qed.

Definition prog_bytes : list Z := [0x90; 0x90; 0xF4].
Definition prog_elf : ElfFile := mkElf false 0x400001 [mkPh true 1 0x400000 2 6; mkPh false 0 0 0 0].
Definition prog_parse (bs : list Z) : option ElfFile := if decide (bs = prog_bytes) then Some prog_elf else None.
Definition prog_fs : FsState (gmap nat (list Z)) :=
  mkFs {[ 0%nat := mkInode 7 File 3 0x1C0 1 0 0 0 0 0 ]}
    {[ 3%nat := mkOpenFile 0 1 READ_WRITE; 4%nat := mkOpenFile 0 0 CLOSE_ON_EXEC ]} {[ 0%nat := prog_bytes ]}.
Definition prog_kernel : Kernel (gmap nat (list Z)) Mem :=
  mkKernel [shell] 9 (mkScheduler (Some 2) 0 5 0) 2 (Some 0%nat) (fun _ => true) prog_fs CowSample.sample_mem.
(** A NUL behind every buffer. *)
Definition nul_tail : HeapTail := mkTail (fun _ => [0]) None.

Lemma prog_ok : program_ok prog_parse (fun _ _ => true) prog_bytes prog_elf.
Proof.
  assert (forall ph, loads (program_iter prog_elf) ph -> ph = mkPh true 1 0x400000 2 6) as Hone.
  { intros ph [Hin Hl]. cbn in Hin. rewrite !elem_of_cons, elem_of_nil in Hin. destruct Hin as [->|[->|[]]]; [done|discriminate Hl]. }
  split.
  - done.
  - done.
  - repeat constructor; done.
  - intros ph ->%Hone. change (compute_load_bias prog_elf) with 0. split; unfold USER_END; cbn; lia.
  - split; [|done]. intros _ b _ (ph & [Hin Hl] & _). apply list_elem_of_singleton in Hin as ->. discriminate Hl.
  - change (compute_load_bias prog_elf) with 0. cbn. lia.
Qed.
Lemma prog_strings h strs : h = nul_tail -> Forall (Forall is_byte) strs -> Forall (fun s => s <> [] /\ 0 ∉ s) strs -> strings_read h strs strs.
Proof. intros -> Hb Hs. split; [by apply c_strings_ok|done]. Qed.
(** The frames from 0xA000 on are free. *)
Definition free_frames : list Z := (fun k => 0x1000 * Z.of_nat k) <$> seq 10 55.
Lemma prog_room n : (n <= 40)%nat -> mem_room CowSample.sample_mem n.
Proof.
  intros Hn. exists (list_to_set free_frames). split.
  - rewrite size_list_to_set; [change (length free_frames) with 55%nat; lia|]. apply NoDup_fmap_2; [intros x y ?; lia|apply NoDup_seq].
  - intros x Hx%elem_of_list_to_set. revert x Hx. apply Forall_forall. decided.
Qed.


Lemma prog_base : mem_base 0x2000 CowSample.sample_mem.
Proof. exists sample_K. split; [apply sample_kernel_ok|apply sample_user_tables]. Qed.
Lemma exec_runs_program_witness :
  exists k' p' sp, sys_exec prog_parse (fun _ _ => true) (fun f : nat => mret f) sample_hw canon (E := unit)
      [("/"%string, 0%nat)] nul_tail nul_tail 0x1000 0x1100 0x1140 prog_kernel = (Ok (EnterUser 0x400001 sp), k') /\
    PROCESSES k' = [p'] /\ file_handles p' = {[ 3 := 3%nat ]} /\ sp mod 16 = 0 /\
    UserSpace.holds (mem k') 0x400000 [0x90; 0xF4; 0; 0; 0; 0].
Proof.
  destruct (exec_runs_program (HL := mem_space_laws 0x2000) x86_new prog_parse (fun _ _ => true) sample_hw
    (fun f : nat => mret f) canon prog_kernel prog_kernel 0 0
    (mkInode 7 File 3 0x1C0 1 0 0 0 0 0) shell prog_bytes [47] prog_elf nul_tail nul_tail [[112]; [97; 98]] [[120]] [[112]; [97; 98]] [[120]] 0) with
    (E := unit) (FS := [("/"%string, 0%nat)]) (rdi := 0x1000) (rsi := 0x1100) (rdx := 0x1140) (k0 := prog_kernel)
    as (k' & p' & sp & Hrun & Hps & _ & _ & _ & _ & _ & Hfh & Himg & Hal & _).
  - reflexivity.
  - vm_compute. reflexivity.
  - reflexivity.
  - reflexivity.
  - reflexivity.
  - apply prog_ok.
  - apply prog_strings; [done|repeat constructor; done|repeat constructor; set_solver].
  - apply prog_strings; [done|repeat constructor; done|repeat constructor; set_solver].
  - apply prog_base.
  - apply prog_room. vm_compute. lia.
  - vm_compute. reflexivity.
  - vm_compute. reflexivity.
  - vm_compute. congruence.
  - exists k', p', sp. split; [exact Hrun|]. split; [exact Hps|]. split; [rewrite Hfh; vm_compute; reflexivity|]. split; [exact Hal|].
    apply (Himg (mkPh true 1 0x400000 2 6)). split; [left|reflexivity].
Defined.
(** A copy to the read-only page of the program stops the kernel; there is no error for it. *)
Example store_to_read_only_page : copy_to_user canon CowSample.sample_mem 0x1000 [1] = Panic.
Proof. vm_compute. reflexivity. Qed.

(** Five arguments of four thousand bytes each. *)
Definition long_args : list (list Z) := replicate 5 (replicate 4000 97).
Lemma exec_overflows_stack_witness :
  exists k', exec_inner prog_parse (fun _ _ => true) sample_hw (E := unit) nul_tail nul_tail 0 [112] long_args [] prog_kernel = (Panic, k').
Proof.
  apply (exec_overflows_stack (HL := mem_space_laws 0x2000) x86_new prog_parse (fun _ _ => true) sample_hw prog_kernel prog_kernel 0 0
    (mkInode 7 File 3 0x1C0 1 0 0 0 0 0) shell prog_bytes [112] prog_elf nul_tail nul_tail long_args [] long_args [] 0).
  - reflexivity.
  - vm_compute. reflexivity.
  - reflexivity.
  - reflexivity.
  - reflexivity.
  - apply prog_ok.
  - apply prog_strings; [done|apply Forall_replicate, Forall_replicate; done|]. apply Forall_replicate. split; [done|].
    intros H. apply elem_of_replicate in H as [H _]. discriminate H.
  - apply prog_strings; [done|constructor|constructor].
  - apply prog_base.
  - apply prog_room. vm_compute. lia.
  - vm_compute. reflexivity.
Defined.

(** The buffers of the arguments have no NUL: what the heap holds behind one becomes part of it. *)
Example argument_runs_on : c_strings (E := unit) (mkTail (fun _ => [120; 121; 0]) None) 0 [[108; 115]] = Ok [[108; 115; 120; 121]].
Proof. reflexivity. Qed.
(** An empty argument has no buffer at all: its pointer is the address one. *)
Example empty_argument_faults : c_strings (E := unit) nul_tail 0 [[112]; []] = Panic.
Proof. reflexivity. Qed.
