(* ===== verification/ProcFs.v ===== *)
(** * The process file system (zenos-kernel/src/disk/fs/proc/mod.rs)

    Files that show the state of the system: their text is made at the first read of an inode and
    kept.  What the text is made of (the table of processes, the clock, the allocator's counts,
    the processor's identification) is the environment of a call. *)
From Stdlib Require Import Ascii.
From S2P Require Import Prelude PageAlloc Bytes OpenFile Process Sched UserMem Syscall Vfs FileInfo.

#[local] Open Scope list_scope.

(** ** Text *)
Definition NL : string := String "010"%char "".
Definition TAB : string := String "009"%char "".
Definition NUL : string := String "000"%char "".
Definition digit (d : Z) : string := String (Ascii.ascii_of_N (Z.to_N (48 + d))) "".
(** [{}] of a number; a u64 has at most twenty digits. *)
Fixpoint decimal (fuel : nat) (n : Z) : string :=
  match fuel with
  | O => ""
  | S fuel => if n <? 10 then digit n else (decimal fuel (n / 10) ++ digit (n mod 10))%string
  end.
Definition dec (n : Z) : string := decimal 20 n.
Fixpoint pad_left (c : string) (n : nat) (s : string) : string :=
  match n with O => s | S n => (c ++ pad_left c n s)%string end.
(** [{:w}] and [{:0w}] of a number. *)
Definition dec_width (c : string) (w : nat) (n : Z) : string := pad_left c (w - String.length (dec n)) (dec n).
(** [str::parse::<u64>]. *)
Definition digit_of (a : Ascii.ascii) : option Z :=
  let c := Z.of_N (Ascii.N_of_ascii a) in if (48 <=? c) && (c <=? 57) then Some (c - 48) else None.
Fixpoint parse_digits (s : string) (acc : Z) : option Z :=
  match s with
  | "" => Some acc
  | String a s =>
      d ← digit_of a;
      if 2 ^ 64 <=? acc * 10 + d then None else parse_digits s (acc * 10 + d)
  end.
Definition parse_u64 (s : string) : option Z :=
  match s with
  | "" => None
  | String a rest =>
      if Ascii.eqb a "+"%char then (if String.eqb rest "" then None else parse_digits rest 0) else parse_digits s 0
  end.
(** [replace(')', "?")]. *)
Fixpoint replace_paren (s : string) : string :=
  match s with "" => "" | String a s => String (if Ascii.eqb a ")" then "?" else a)%char (replace_paren s) end.
Fixpoint join (sep : string) (l : list string) : string :=
  match l with [] => "" | [s] => s | s :: l => (s ++ sep ++ join sep l)%string end.

(** The characters of White_Space, as they are encoded. *)
Definition white_spaces : list (list Z) :=
  [[9]; [10]; [11]; [12]; [13]; [32]; [0xC2; 0x85]; [0xC2; 0xA0]; [0xE1; 0x9A; 0x80]] ++
  ((fun k => [0xE2; 0x80; 0x80 + Z.of_nat k]) <$> seq 0 11) ++
  [[0xE2; 0x80; 0xA8]; [0xE2; 0x80; 0xA9]; [0xE2; 0x80; 0xAF]; [0xE2; 0x81; 0x9F]; [0xE3; 0x80; 0x80]].
Definition starts_with (p s : list Z) : bool := bool_decide (take (length p) s = p).
Fixpoint trim_front (pats : list (list Z)) (fuel : nat) (s : list Z) : list Z :=
  match fuel with
  | O => s
  | S fuel => match List.find (fun p => starts_with p s) pats with Some p => trim_front pats fuel (drop (length p) s) | None => s end
  end.
(** [trim] and [trim_matches('\0')]: both ends, whole characters. *)
Definition trim_both (pats : list (list Z)) (s : list Z) : list Z :=
  rev (trim_front (rev (A := Z) <$> pats) (length s) (rev (trim_front pats (length s) s))).
Definition utf8_or_unknown (bs : list Z) : list Z := if utf8_ok bs then bs else name_bytes "Unknown".

(** ** The environment *)
Record CpuidResult := mkCpuid { eax : Z; ebx : Z; ecx : Z; edx : Z }.
Record ProcEnv := mkEnv {
  env_now : Z;                              (* [current_time().as_unix_epoch()] *)
  env_procs : list Process;                 (* [PROCESSES] *)
  env_current : option Z;                   (* [SCHEDULER.current_pid()] *)
  env_ticks : Z;                            (* [TICK_COUNT] *)
  env_stats : option (Z * Z);               (* [memory::get_stats] *)
  cpuid : Z -> CpuidResult;
}.

(** ** The texts *)
Definition uptime_secs (ticks : Z) : Z := ticks / 100.
Section Texts.
Context (env : ProcEnv).

Definition cpu_vendor : list Z :=
  let c := cpuid env 0 in utf8_or_unknown (to_le 4 (ebx c) ++ to_le 4 (edx c) ++ to_le 4 (ecx c)).
Definition cpuid_bytes (c : CpuidResult) : list Z := to_le 4 (eax c) ++ to_le 4 (ebx c) ++ to_le 4 (ecx c) ++ to_le 4 (edx c).
Definition cpu_brand : list Z :=
  if 0x80000004 <=? eax (cpuid env 0x80000000) then
    let bytes := cpuid_bytes (cpuid env 0x80000002) ++ cpuid_bytes (cpuid env 0x80000003) ++ cpuid_bytes (cpuid env 0x80000004) in
    trim_both white_spaces (trim_both [[0]] (utf8_or_unknown bytes))
  else name_bytes "Unknown".
Definition bit (r i : Z) : bool := negb (Z.land r (Z.shiftl 1 i) =? 0).
Definition cpu_flags : list string :=
  let c1 := cpuid env 1 in let c7 := cpuid env 7 in let ce := cpuid env 0x80000001 in
  snd <$> List.filter fst
    [(bit (edx c1) 0, "fpu"); (bit (edx c1) 4, "tsc"); (bit (edx c1) 5, "msr"); (bit (edx c1) 6, "pae"); (bit (edx c1) 9, "apic");
     (bit (edx c1) 23, "mmx"); (bit (edx c1) 25, "sse"); (bit (edx c1) 26, "sse2");
     (bit (ecx c1) 0, "sse3"); (bit (ecx c1) 9, "ssse3"); (bit (ecx c1) 19, "sse4_1"); (bit (ecx c1) 20, "sse4_2"); (bit (ecx c1) 28, "avx");
     (bit (ebx c7) 3, "bmi1"); (bit (ebx c7) 8, "bmi2"); (bit (ebx c7) 7, "smep"); (bit (ebx c7) 20, "smap"); (bit (ebx c7) 0, "fsgsbase");
     (bit (ebx c7) 18, "rdseed"); (bit (ebx c7) 19, "adx"); (bit (ebx c7) 29, "sha_ni");
     (bit (edx ce) 20, "nx"); (bit (edx ce) 29, "lm"); (bit (ecx ce) 5, "abm"); (bit (ecx ce) 6, "sse4a");
     (bit (ecx c1) 31, "hypervisor")]%string.
Definition generate_cpuinfo : string :=
  let c := eax (cpuid env 1) in
  let stepping := Z.land c 0xF in
  let model := Z.lor (Z.land (Z.shiftr c 4) 0xF) (Z.shiftl (Z.land (Z.shiftr c 16) 0xF) 4) in
  let family := Z.land (Z.shiftr c 8) 0xF + Z.land (Z.shiftr c 20) 0xFF in
  let sizes := eax (cpuid env 0x80000008) in
  ("processor" ++ TAB ++ ": 0" ++ NL ++
   "vendor_id" ++ TAB ++ ": " ++ string_of_bytes (trim_both white_spaces cpu_vendor) ++ NL ++
   "cpu family" ++ TAB ++ ": " ++ dec family ++ NL ++
   "model" ++ TAB ++ TAB ++ ": " ++ dec model ++ NL ++
   "model name" ++ TAB ++ ": " ++ string_of_bytes cpu_brand ++ NL ++
   "stepping" ++ TAB ++ ": " ++ dec stepping ++ NL ++
   "microcode" ++ TAB ++ ": 0x0" ++ NL ++
   "cpu MHz" ++ TAB ++ TAB ++ ": 3300.000" ++ NL ++
   "cache size" ++ TAB ++ ": 512 KB" ++ NL ++
   "physical id" ++ TAB ++ ": 0" ++ NL ++
   "siblings" ++ TAB ++ ": 1" ++ NL ++
   "core id" ++ TAB ++ TAB ++ ": 0" ++ NL ++
   "cpu cores" ++ TAB ++ ": 1" ++ NL ++
   "apicid" ++ TAB ++ TAB ++ ": 0" ++ NL ++
   "initial apicid" ++ TAB ++ ": 0" ++ NL ++
   "flags" ++ TAB ++ TAB ++ ": " ++ join " " cpu_flags ++ NL ++
   "bugs" ++ TAB ++ TAB ++ ": spectre_v1 spectre_v2 spec_store_bypass retbleed" ++ NL ++
   "bogomips" ++ TAB ++ ": 6600.00" ++ NL ++
   "clflush size" ++ TAB ++ ": 64" ++ NL ++
   "cache_alignment" ++ TAB ++ ": 64" ++ NL ++
   "address sizes" ++ TAB ++ ": " ++ dec (Z.land sizes 0xFF) ++ " bits physical, " ++ dec (Z.land (Z.shiftr sizes 8) 0xFF) ++ " bits virtual" ++ NL ++
   "power management:" ++ NL ++ NL)%string.

Definition generate_meminfo {E} : outcome E string :=
  match env_stats env with
  | Some (free_pages, total_pages) =>
      let page_size_kb := PAGE_4K / 1024 in
      total_kb ← umul 64 total_pages page_size_kb;
      free_kb ← umul 64 free_pages page_size_kb;
      let used_kb := saturating_sub total_kb free_kb in
      Ok ("MemTotal:       " ++ dec_width " " 8 total_kb ++ " kB" ++ NL ++
          "MemFree:        " ++ dec_width " " 8 free_kb ++ " kB" ++ NL ++
          "MemUsed:        " ++ dec_width " " 8 used_kb ++ " kB" ++ NL)%string
  | None => Ok ("MemTotal:              0 kB" ++ NL ++ "MemFree:               0 kB" ++ NL)%string
  end.
Definition generate_version : string := ("zenos version 0.1.0 (rustc 1.95.0-nightly)" ++ NL)%string.
Definition generate_uptime : string :=
  (dec (env_ticks env / 100) ++ "." ++ dec_width "0" 2 (env_ticks env mod 100) ++ " 0.00" ++ NL)%string.

Definition find_process (p : Z) : option Process := List.find (fun q => pid q =? p) (env_procs env).
Definition state_letter (s : ProcessStatus) : string :=
  match s with Running => "R" | Ready => "S" | Blocked _ => "D" | Created => "S" | Exited => "Z" | WaitingFor _ => "S" end.
Definition stat_line (proc : Process) : string :=
  (dec (pid proc) ++ " (" ++ replace_paren (name proc) ++ ") " ++ state_letter (status proc) ++ " " ++ dec (parent_pid proc) ++ " " ++
   "0 0 0 0 0 " ++
   "0 0 0 0 0 " ++
   "0 0 0 0 1 " ++
   "0 0 " ++
   "0 0 0 " ++
   dec (entry_point proc) ++ " " ++ dec (end_ proc) ++ " " ++ dec (user_stack_top proc) ++ " " ++
   "0 0 0 0 0 " ++
   "0 0 0 0 0 " ++
   "0 0 0 0 0 " ++
   "0 0 0 0 0 0" ++ NL)%string.
Definition generate_process_stat (p : Z) : string :=
  match find_process p with Some proc => stat_line proc | None => "" end.
Definition state_words (s : ProcessStatus) : string :=
  match s with
  | Running => "R (running)" | Ready => "S (sleeping)" | Blocked _ => "D (disk sleep)"
  | Created => "T (stopped)" | Exited => "Z (zombie)" | WaitingFor _ => "S (sleeping)"
  end.
Definition generate_process_status (p : Z) : string :=
  match find_process p with
  | Some proc =>
      ("Name:" ++ TAB ++ name proc ++ NL ++
       "State:" ++ TAB ++ state_words (status proc) ++ NL ++
       "Pid:" ++ TAB ++ dec (pid proc) ++ NL ++
       "PPid:" ++ TAB ++ dec (parent_pid proc) ++ NL ++
       "FDSize:" ++ TAB ++ dec (Z.of_nat (base.size (file_handles proc))) ++ NL)%string
  | None => ""
  end.
Definition generate_process_cmdline (p : Z) : string :=
  match find_process p with Some proc => (name proc ++ NUL)%string | None => "" end.

(** ** Nodes *)
Inductive ProcFileType :=
| CpuInfo | MemInfo | Version | Uptime
| ProcessStat (pid : Z) | ProcessStatusFile (pid : Z) | ProcessCmdline (pid : Z).
Inductive ProcNode :=
| ProcRootDir
| ProcessDir (pid : Z)
| ProcFile (file_type : ProcFileType) (content : list Z) (generated : bool).
(** The nodes behind the inodes. *)
Abbreviation ProcFsState := (gmap nat ProcNode).
Abbreviation op := (st (FsState ProcFsState) FileError).

Definition make_content {E} (t : ProcFileType) : outcome E string :=
  match t with
  | CpuInfo => Ok generate_cpuinfo
  | MemInfo => generate_meminfo
  | Version => Ok generate_version
  | Uptime => Ok generate_uptime
  | ProcessStat p => Ok (generate_process_stat p)
  | ProcessStatusFile p => Ok (generate_process_status p)
  | ProcessCmdline p => Ok (generate_process_cmdline p)
  end.
Definition set_node (i : nat) (n : ProcNode) : op unit := fun s => (Ok tt, mkFs (inodes s) (files s) (<[i := n]> (dev s))).
Definition generate_content (i : nat) (t : ProcFileType) (content : list Z) (generated : bool) : op (list Z) :=
  if generated then mret content
  else
    text ← st_lift (make_content t);
    _ ← set_node i (ProcFile t (name_bytes text) true);
    mret (name_bytes text).

Definition READ_ALL : Z := Z.lor (Z.lor OWNER_READ GROUP_READ) OTHER_READ.
Definition EXEC_ALL : Z := Z.lor (Z.lor OWNER_EXEC GROUP_EXEC) OTHER_EXEC.
(** A fresh inode with its node. *)
Definition proc_inode (kind : FileType) (perms : Z) (n : ProcNode) : op nat :=
  i ← alloc_inode (mkInode 0 kind 0 perms 1 0 0 (env_now env) (env_now env) (env_now env));
  _ ← set_node i n;
  mret i.
Definition new_file (t : ProcFileType) : op nat := proc_inode File READ_ALL (ProcFile t [] false).
Definition new_dir (p : Z) : op nat := proc_inode Directory (Z.lor READ_ALL EXEC_ALL) (ProcessDir p).
Definition proc_root_dir : op nat := proc_inode Directory READ_ALL ProcRootDir.

Definition root_lookup (name : string) : op nat :=
  if String.eqb name "cpuinfo" then new_file CpuInfo
  else if String.eqb name "meminfo" then new_file MemInfo
  else if String.eqb name "version" then new_file Version
  else if String.eqb name "uptime" then new_file Uptime
  else if String.eqb name "self" then p ← st_lift (unwrap (env_current env)); new_dir p
  else match parse_u64 name with
       | Some p => new_dir p
       | None => st_lift (Err NotFound)
       end.
Definition process_lookup (p : Z) (name : string) : op nat :=
  if String.eqb name "stat" then new_file (ProcessStat p)
  else if String.eqb name "status" then new_file (ProcessStatusFile p)
  else if String.eqb name "cmdline" then new_file (ProcessCmdline p)
  else st_lift (Err NotFound).
(** Entries for the given names, numbered from [offset]. *)
Fixpoint list_entries (look : string -> op nat) (kind : FileType) (names : list string) (offset : Z) : op (list DirEntry) :=
  match names with
  | [] => mret []
  | n :: names =>
      i ← look n;
      rest ← list_entries look kind names (offset + 1);
      mret (mkDirEntry n i offset kind :: rest)
  end.
Definition root_read_dir : op (list DirEntry) :=
  files ← list_entries root_lookup File ["cpuinfo"; "meminfo"; "version"; "uptime"] 0;
  dirs ← list_entries root_lookup Directory ((fun p => dec (pid p)) <$> env_procs env) 4;
  mret (files ++ dirs).
Definition process_read_dir (p : Z) : op (list DirEntry) := list_entries (process_lookup p) File ["stat"; "status"; "cmdline"] 0.

Definition proc_read (i : nat) (t : ProcFileType) (content : list Z) (generated : bool) (offset : Z) (buf : list Z) : op (Z * list Z) :=
  content ← generate_content i t content generated;
  let content_len := Z.of_nat (length content) in
  if content_len <=? offset then mret (0, buf)
  else
    let to_read := Z.to_nat (Z.min (Z.of_nat (length buf)) (content_len - offset)) in
    bs ← st_lift (slice (Z.to_nat offset) to_read content);
    buf ← st_lift (put_slice 0 bs buf);
    mret (Z.of_nat to_read, buf).
Definition file_ino {E} (t : ProcFileType) : outcome E Z :=
  match t with
  | CpuInfo => Ok 2 | MemInfo => Ok 3 | Version => Ok 4 | Uptime => Ok 5
  | ProcessStat p => uadd 64 0x20000 p
  | ProcessStatusFile p => uadd 64 0x30000 p
  | ProcessCmdline p => uadd 64 0x40000 p
  end.
Definition proc_stat (i : nat) (n : ProcNode) : op Stat :=
  let now := env_now env in
  match n with
  | ProcRootDir => mret (mkStat 0 1 0x416D 2 0 0 0 0 4096 0 now now now)
  | ProcessDir p => ino ← st_lift (uadd 64 p 0x10000); mret (mkStat 0 ino 0x416D 2 0 0 0 0 4096 0 now now now)
  | ProcFile t content generated =>
      content ← generate_content i t content generated;
      let sz := Z.of_nat (length content) in
      ino ← st_lift (file_ino t);
      mret (mkStat 0 ino 0x8124 1 0 0 0 sz 4096 ((sz + 511) / 512) now now now)
  end.

Definition node_at (i : nat) : op ProcNode := fun s => (unwrap (dev s !! i), s).
#[export] Instance proc_ops : InodeOps ProcFsState := {
  op_read i offset buf := n ← node_at i;
    match n with ProcFile t c g => proc_read i t c g offset buf | _ => st_lift (Err IsADirectory) end;
  op_write i offset buf := n ← node_at i;
    match n with ProcFile _ _ _ => st_lift (Err ReadOnlyFilesystem) | _ => st_lift (Err IsADirectory) end;
  op_truncate i size := n ← node_at i;
    match n with ProcFile _ _ _ => st_lift (Err ReadOnlyFilesystem) | _ => st_lift (Err IsADirectory) end;
  op_sync i := n ← node_at i;
    match n with ProcFile _ _ _ => mret tt | _ => st_lift (Err IsADirectory) end;
  op_unlink i name := _ ← node_at i; st_lift (Err ReadOnlyFilesystem);
  op_lookup i name := n ← node_at i;
    match n with ProcRootDir => root_lookup name | ProcessDir p => process_lookup p name | ProcFile _ _ _ => st_lift (Err NotADirectory) end;
  op_create i name kind perms := n ← node_at i;
    match n with ProcFile _ _ _ => st_lift (Err NotADirectory) | _ => st_lift (Err ReadOnlyFilesystem) end;
  op_read_dir i := n ← node_at i;
    match n with ProcRootDir => root_read_dir | ProcessDir p => process_read_dir p | ProcFile _ _ _ => st_lift (Err NotADirectory) end;
  op_stat i := n ← node_at i; proc_stat i n;
}.
End Texts.

(** ** Numbers as text *)
Lemma digit_cases d : 0 <= d < 10 -> d ∈ [0; 1; 2; 3; 4; 5; 6; 7; 8; 9].
Proof. intros Hd. rewrite !elem_of_cons. lia. Qed.
Lemma digit_ok d : 0 <= d < 10 -> exists a, digit d = String a "" /\ digit_of a = Some d.
Proof.
  intros Hd%digit_cases. rewrite !elem_of_cons, elem_of_nil in Hd. repeat (destruct Hd as [->|Hd]; [eexists; split; reflexivity|]). done.
Qed.
Lemma parse_digits_app a b : forall acc, parse_digits (a ++ b)%string acc = parse_digits a acc ≫= parse_digits b.
Proof.
  induction a as [|c a IH]; intros acc; [done|]. change ((String c a ++ b)%string) with (String c (a ++ b)%string).
  cbn [parse_digits]. destruct (digit_of c) as [d|]; [|done]. cbn [mbind option_bind]. destruct (_ <=? _); [done|]. apply IH.
Qed.
Lemma parse_decimal fuel : forall n, 0 <= n < 10 ^ Z.of_nat fuel -> n < 2 ^ 64 -> parse_digits (decimal fuel n) 0 = Some n.
Proof.
  induction fuel as [|fuel IH]; intros n Hn Hw; [cbn in Hn |- *; f_equal; lia|]. cbn [decimal].
  assert (forall acc d, 0 <= acc -> 0 <= d < 10 -> acc * 10 + d < 2 ^ 64 -> parse_digits (digit d) acc = Some (acc * 10 + d)) as Hone.
  { intros acc d Ha Hd Hb. destruct (digit_ok d Hd) as (a & -> & Hda). cbn [parse_digits]. rewrite Hda. cbn [mbind option_bind].
    by rewrite (proj2 (Z.leb_gt _ _)). }
  destruct (Z.ltb_spec n 10) as [Hs|Hs].
  - rewrite Hone by lia. f_equal; lia.
  - replace (Z.of_nat (S fuel)) with (Z.of_nat fuel + 1) in Hn by lia. rewrite Z.pow_add_r in Hn by lia.
    pose proof (Z.div_mod n 10 ltac:(lia)). pose proof (Z.mod_pos_bound n 10 ltac:(lia)).
    rewrite parse_digits_app, IH by (split || idtac; (apply Z.div_pos || apply Z.div_lt_upper_bound || idtac); lia). cbn [mbind option_bind].
    rewrite Hone by lia. f_equal; lia.
Qed.
Lemma decimal_head fuel : forall n, 0 <= n -> exists a r, decimal (S fuel) n = String a r /\ is_Some (digit_of a).
Proof.
  induction fuel as [|fuel IH]; intros n Hn; cbn [decimal]; destruct (Z.ltb_spec n 10) as [Hs|Hs].
  - destruct (digit_ok n) as (a & -> & Ha); [lia|]. by exists a, "".
  - destruct (digit_ok (n mod 10)) as (a & -> & Ha); [apply Z.mod_pos_bound; lia|]. by exists a, "".
  - destruct (digit_ok n) as (a & -> & Ha); [lia|]. by exists a, "".
  - destruct (IH (n / 10)) as (a & r & Hd & Ha); [apply Z.div_pos; lia|]. cbn [decimal] in Hd. rewrite Hd. by exists a, (r ++ digit (n mod 10))%string.
Qed.
(** Printing a number and parsing it. *)
Lemma parse_dec n : is_u 64 n -> parse_u64 (dec n) = Some n.
Proof.
  unfold is_u. intros Hn. unfold parse_u64. destruct (decimal_head 19 n) as (a & r & Hd & Ha); [lia|]. fold (dec n) in Hd. rewrite Hd.
  destruct (Ascii.eqb_spec a "+"%char) as [->|_]; [by destruct Ha|]. rewrite <-Hd. apply parse_decimal; [|lia]. change (10 ^ Z.of_nat 20) with (10 ^ 20). lia.
Qed.
Lemma dec_inj n m : is_u 64 n -> is_u 64 m -> dec n = dec m -> n = m.
Proof. intros Hn Hm Heq. apply parse_dec in Hn, Hm. rewrite Heq in Hn. congruence. Qed.

(** ** Inodes *)
(** From [s] to [s'] inodes may have been made; the others are as they were. *)
Record keeps (s s' : FsState (gmap nat ProcNode)) : Prop := {
  kp_files : files s' = files s;
  kp_inode j x : inodes s !! j = Some x -> inodes s' !! j = Some x;
  kp_node j x : inodes s !! j = Some x -> dev s' !! j = dev s !! j;
}.
#[export] Instance keeps_preorder : PreOrder keeps.
Proof.
  split; [by split|]. intros s1 s2 s3 [A1 A2 A3] [B1 B2 B3]. split; [congruence|eauto|]. intros j x Hj. rewrite (B3 j x) by eauto. by eapply A3.
Qed.
Lemma proc_inode_ok env kind p n s : exists i s', proc_inode env kind p n s = (Ok i, s') /\ keeps s s' /\ inodes s !! i = None /\
  dev s' !! i = Some n /\ inodes s' !! i = Some (mkInode 0 kind 0 p 1 0 0 (env_now env) (env_now env) (env_now env)).
Proof.
  eexists _, _. split; [reflexivity|]. pose proof (next_key_fresh (inodes s)) as Hf. cbn. split_and!; [|done|by rewrite lookup_insert_eq..].
  split; cbn; [done|intros j x Hj; rewrite lookup_insert_ne; [done|congruence]..].
Qed.
Lemma root_lookup_pid env p s : is_u 64 p -> root_lookup env (dec p) s = new_dir env p s.
Proof.
  intros Hp. pose proof (parse_dec p Hp) as Hd. unfold root_lookup.
  assert (forall n, parse_u64 n = None -> String.eqb (dec p) n = false) as Hno.
  { intros n Hn. apply String.eqb_neq. intros <-. congruence. }
  rewrite !Hno by reflexivity. by rewrite Hd.
Qed.
Lemma list_entries_ok env look kind mk p names :
  (forall n s, n ∈ names -> look n s = proc_inode env kind p (mk n) s) -> forall offset s,
  exists es s', list_entries look kind names offset s = (Ok es, s') /\ keeps s s' /\ length es = length names /\
    forall k n, names !! k = Some n -> exists i, es !! k = Some (mkDirEntry n i (offset + Z.of_nat k) kind) /\ dev s' !! i = Some (mk n).
Proof.
  induction names as [|n names IH]; intros Hlook offset s; [exists [], s; split_and!; [done|reflexivity|done|by intros k n Hk]|]. cbn [list_entries].
  destruct (proc_inode_ok env kind p (mk n) s) as (i & s1 & Hrun & Hk & _ & Hd & Hi).
  rewrite (st_bind_eq _ _ s i s1) by (rewrite Hlook; [done|left]).
  destruct (IH ltac:(intros; apply Hlook; by right) (offset + 1) s1) as (es & s' & Hrun' & Hk' & Hl & Hall).
  rewrite (st_bind_eq _ _ _ _ _ Hrun'). eexists _, s'. split; [reflexivity|]. split; [by etrans|]. split; [cbn; by rewrite Hl|].
  intros [|k] n' Hn; cbn in Hn.
  - injection Hn as <-. exists i. split; [cbn; do 2 f_equal; lia|]. by rewrite (kp_node _ _ Hk' i _ Hi).
  - destruct (Hall k n' Hn) as (j & Hj & Hdj). exists j. split; [|done]. change ((mkDirEntry n i offset kind :: es) !! S k) with (es !! k). rewrite Hj. do 2 f_equal. lia.
Qed.

(** The root of the file system lists, behind its four files, a directory for each process
    in the order of the table, under the decimal name of its pid; looking that name up leads to
    the directory of that process, and different processes have different names. *)
Theorem proc_lists_processes env r s : dev s !! r = Some ProcRootDir -> Forall (fun p => is_u 64 (pid p)) (env_procs env) ->
  exists es s', @op_read_dir _ (proc_ops env) r s = (Ok es, s') /\ length es = (4 + length (env_procs env))%nat /\
    (forall k p, env_procs env !! k = Some p ->
       (exists i, es !! (4 + k)%nat = Some (mkDirEntry (dec (pid p)) i (4 + Z.of_nat k) Directory) /\ dev s' !! i = Some (ProcessDir (pid p))) /\
       exists d s2, @op_lookup _ (proc_ops env) r (dec (pid p)) s = (Ok d, s2) /\ dev s2 !! d = Some (ProcessDir (pid p))) /\
    (forall p q, p ∈ env_procs env -> q ∈ env_procs env -> dec (pid p) = dec (pid q) -> pid p = pid q).
Proof.
  intros Hr Hu. rewrite Forall_forall in Hu.
  assert (forall A (f : ProcNode -> st (FsState (gmap nat ProcNode)) FileError A), (n ← node_at r; f n) s = f ProcRootDir s) as Hnode.
  { intros A f. unfold mbind, st_bind, node_at. by rewrite Hr. }
  cbn [op_read_dir proc_ops op_lookup]. rewrite Hnode.
  destruct (list_entries_ok env (root_lookup env) File (fun n => ProcFile (if String.eqb n "cpuinfo" then CpuInfo else if String.eqb n "meminfo" then MemInfo
    else if String.eqb n "version" then Version else Uptime) [] false) READ_ALL ["cpuinfo"; "meminfo"; "version"; "uptime"]) with (offset := 0) (s := s)
    as (es1 & s1 & Hrun1 & Hk1 & Hl1 & _).
  { intros n s0 Hn. rewrite !elem_of_cons, elem_of_nil in Hn. repeat destruct Hn as [->|Hn]; done. }
  destruct (list_entries_ok env (root_lookup env) Directory (fun n => ProcessDir (default 0 (parse_u64 n))) (Z.lor READ_ALL EXEC_ALL)
    ((fun p => dec (pid p)) <$> env_procs env)) with (offset := 4) (s := s1) as (es2 & s2 & Hrun2 & Hk2 & Hl2 & Hall).
  { intros n s0 (p & -> & Hp)%list_elem_of_fmap. rewrite root_lookup_pid, parse_dec by auto. done. }
  exists (es1 ++ es2), s2. split_and!.
  - unfold root_read_dir. rewrite (st_bind_eq _ _ _ _ _ Hrun1), (st_bind_eq _ _ _ _ _ Hrun2). done.
  - rewrite length_app, Hl1, Hl2, length_fmap. done.
  - intros k p Hp. assert (is_u 64 (pid p)) as Hpu by (apply Hu; by eapply list_elem_of_lookup_2). split.
    + destruct (Hall k (dec (pid p))) as (i & Hi & Hd); [by rewrite list_lookup_fmap, Hp|]. rewrite parse_dec in Hd by done. exists i.
      split; [|done]. rewrite lookup_app_r by (rewrite Hl1; cbn; lia). rewrite Hl1. by replace (4 + k - _)%nat with k by (cbn; lia).
    + rewrite Hnode, root_lookup_pid by done. destruct (proc_inode_ok env Directory (Z.lor READ_ALL EXEC_ALL) (ProcessDir (pid p)) s) as (d & s3 & H3 & _ & _ & Hd & _).
      by exists d, s3.
  - intros p q Hp Hq. apply dec_inj; auto.
Qed.

(** ** Reading *)
(** What a read at [offset] returns of a text. *)
Definition text_part (content : list Z) (offset : Z) (buf : list Z) : Z * list Z :=
  let n := Nat.min (length buf) (length content - Z.to_nat offset) in
  (Z.of_nat n, sub_bytes (Z.to_nat offset) n content ++ drop n buf).
Lemma proc_read_made env i t content offset buf s : 0 <= offset ->
  proc_read env i t content true offset buf s = (Ok (text_part content offset buf), s).
Proof.
  intros Ho. unfold proc_read, generate_content. rewrite (st_bind_eq _ _ s content s) by done. unfold text_part.
  destruct (Z.leb_spec (Z.of_nat (length content)) offset) as [Hge|Hlt].
  - replace (length content - Z.to_nat offset)%nat with 0%nat by lia. rewrite Nat.min_0_r. done.
  - replace (Z.to_nat (Z.min (Z.of_nat (length buf)) (Z.of_nat (length content) - offset))) with (Nat.min (length buf) (length content - Z.to_nat offset)) by lia.
    set (n := Nat.min _ _). rewrite (st_bind_eq _ _ s (sub_bytes (Z.to_nat offset) n content) s) by (unfold st_lift; rewrite slice_Ok by lia; done).
    assert (length (sub_bytes (Z.to_nat offset) n content) = n) as Hn by (apply sub_bytes_length; lia).
    rewrite (st_bind_eq _ _ s (sub_bytes (Z.to_nat offset) n content ++ drop n buf) s); [done|].
    unfold st_lift, put_slice. rewrite Hn. rewrite (proj2 (Nat.leb_le _ _)) by lia. done.
Qed.
(** Reads of one inode, each with the system as it is then. *)
Fixpoint reads (i : nat) (l : list (ProcEnv * Z * list Z)) : st (FsState (gmap nat ProcNode)) FileError (list (Z * list Z)) :=
  match l with
  | [] => mret []
  | (env, offset, buf) :: l => r ← @op_read _ (proc_ops env) i offset buf; rest ← reads i l; mret (r :: rest)
  end.
Lemma node_found i n s A (f : ProcNode -> st (FsState (gmap nat ProcNode)) FileError A) : dev s !! i = Some n -> (n ← node_at i; f n) s = f n s.
Proof. intros Hn. unfold mbind, st_bind, node_at. by rewrite Hn. Qed.
Lemma reads_made i t content l : Forall (fun '(_, offset, _) => 0 <= offset) l -> forall s, dev s !! i = Some (ProcFile t content true) ->
  reads i l s = (Ok ((fun '(_, offset, buf) => text_part content offset buf) <$> l), s).
Proof.
  induction 1 as [|[[env offset] buf] l Ho _ IH]; intros s Hn; [done|]. cbn [reads].
  rewrite (st_bind_eq _ _ s (text_part content offset buf) s).
  2:{ cbn [op_read proc_ops]. rewrite (node_found _ _ _ _ _ Hn). by apply proc_read_made. }
  by rewrite (st_bind_eq _ _ _ _ _ (IH s Hn)).
Qed.
(** C31: a file shows the system at its first read: whatever happens between the reads of one
    open file, they all return parts of the text made at the first one. *)
Theorem proc_file_is_snapshot i t text env offset buf l s : dev s !! i = Some (ProcFile t [] false) ->
  make_content env t = Ok (E := FileError) text -> Forall (fun '(_, offset, _) => 0 <= offset) ((env, offset, buf) :: l) ->
  exists s', reads i ((env, offset, buf) :: l) s =
    (Ok ((fun '(_, offset, buf) => text_part (name_bytes text) offset buf) <$> (env, offset, buf) :: l), s') /\
    inodes s' = inodes s /\ files s' = files s.
Proof.
  intros Hn Ht Hl. set (s1 := mkFs (inodes s) (files s) (<[i := ProcFile t (name_bytes text) true]> (dev s))). exists s1. split; [|done].
  assert (dev s1 !! i = Some (ProcFile t (name_bytes text) true)) as Hn1 by (cbn; by rewrite lookup_insert_eq).
  apply Forall_cons in Hl as [Ho Hl]. cbn [reads]. rewrite (st_bind_eq _ _ s (text_part (name_bytes text) offset buf) s1).
  - by rewrite (st_bind_eq _ _ _ _ _ (reads_made i t (name_bytes text) l Hl s1 Hn1)).
  - rewrite <-(proc_read_made env i t (name_bytes text) offset buf s1 Ho). cbn [op_read proc_ops]. rewrite (node_found _ _ _ _ _ Hn).
    unfold proc_read, generate_content, mbind, st_bind, st_lift. by rewrite Ht.
Qed.

(** A read of a file whose text is not made yet makes it first. *)
Lemma proc_read_first env i t content offset buf s r s' : proc_read env i t content false offset buf s = (r, s') ->
  make_content env t = Panic (E := FileError) /\ r = Panic /\ s' = s \/
  exists text, make_content env t = Ok (E := FileError) text /\
    proc_read env i t (name_bytes text) true offset buf (mkFs (inodes s) (files s) (<[i := ProcFile t (name_bytes text) true]> (dev s))) = (r, s').
Proof.
  unfold proc_read at 1, generate_content, mbind, st_bind, st_lift. destruct (make_content env t) as [text|e|] eqn:Ht.
  - intros Hr. right. exists text. split; [done|]. exact Hr.
  - exfalso. destruct t; try discriminate Ht. cbn in Ht. unfold generate_meminfo in Ht. destruct (env_stats env) as [[a b]|]; [|discriminate Ht].
    unfold mbind, outcome_bind in Ht. unfold umul in Ht. repeat case_match; simplify_eq.
  - intros [= <- <-]. by left.
Qed.
#[export] Instance proc_ops_laws env : @InodeOpsLaws _ (proc_ops env).
Proof.
  assert (forall i t c offset buf s r s', proc_read env i t c true offset buf s = (r, s') -> s' = s /\
    forall n b, r = Ok (n, b) -> 0 <= n <= Z.of_nat (length buf) /\ length b = length buf) as Hmade.
  { intros i t c offset buf s r s'. unfold proc_read, generate_content. rewrite (st_bind_eq _ _ s c s) by done. destruct (_ <=? _) eqn:Hlt.
    - intros [= <- <-]. split; [done|]. intros n b [= <- <-]. lia.
    - unfold mbind, st_bind, st_lift. destruct (slice _ _ _) as [bs|e|] eqn:Hs; [|by intros [= <- <-]..]. apply slice_length in Hs.
      destruct (put_slice 0 bs buf) as [b'|e|] eqn:Hp; [|by intros [= <- <-]..]. intros [= <- <-]. split; [done|]. intros n b [= <- <-].
      unfold put_slice in Hp. case_match; [|done]. injection Hp as <-. zbool. rewrite length_app, length_drop. cbn. lia. }
  assert (forall i t c g offset buf s r s', proc_read env i t c g offset buf s = (r, s') -> files s' = files s /\
    forall n b, r = Ok (n, b) -> 0 <= n <= Z.of_nat (length buf) /\ length b = length buf) as Hread.
  { intros i t c [] offset buf s r s' Hr; [apply Hmade in Hr as [-> ?]; done|]. apply proc_read_first in Hr as [(_ & -> & ->)|(text & _ & Hr)]; [done|].
    apply Hmade in Hr as [-> ?]. done. }
  split; cbn; unfold mbind, st_bind, node_at; intros i; intros; destruct (dev s !! i) as [[| |t c g]|]; cbn in *; unfold st_lift, mret, st_ret in *; simplify_eq; try done.
  - by apply Hread in H as [? _].
  - apply Hread in H as [_ H]. by apply H.
Qed.
#[export] Instance proc_dir_laws env : @DirOpsLaws _ (proc_ops env).
Proof.
  split; cbn; [intros i name|intros i name kind perms|intros i size]; (apply keeps_bind; [done|intros n]); destruct n; try done;
    unfold root_lookup, process_lookup, new_file, new_dir, proc_inode; solve_keeps.
Qed.

(** The way to a file of a process, as [open_file] goes it, and its text. *)
Theorem proc_shows_status env r s p buf : dev s !! r = Some ProcRootDir -> is_u 64 (pid p) -> find_process env (pid p) = Some p ->
  exists f s', (d ← @walk_dirs _ (proc_ops env) OWNER_EXEC r [dec (pid p)]; @op_lookup _ (proc_ops env) d "status") s = (Ok f, s') /\
    (@op_read _ (proc_ops env) f 0 buf s').1 = Ok (text_part (name_bytes (generate_process_status env (pid p))) 0 buf).
Proof.
  intros Hr Hu Hf. destruct (proc_inode_ok env Directory (Z.lor READ_ALL EXEC_ALL) (ProcessDir (pid p)) s) as (d & s1 & Hrun & _ & _ & Hd & Hi).
  destruct (proc_inode_ok env File READ_ALL (ProcFile (ProcessStatusFile (pid p)) [] false) s1) as (f & s2 & Hrun2 & _ & _ & Hn & _).
  exists f, s2. split.
  - rewrite (st_bind_eq _ _ s d s1).
    + cbn [op_lookup proc_ops]. by rewrite (node_found _ _ _ _ _ Hd).
    + cbn [walk_dirs op_lookup proc_ops]. rewrite (st_bind_eq _ _ s d s1) by (rewrite (node_found _ _ _ _ _ Hr), root_lookup_pid by done; exact Hrun).
      unfold mbind, st_bind, get_inode. rewrite Hi. reflexivity.
  - cbn [op_read proc_ops]. rewrite (node_found _ _ _ _ _ Hn). set (text := name_bytes (generate_process_status env (pid p))).
    set (s3 := mkFs (inodes s2) (files s2) (<[f := ProcFile (ProcessStatusFile (pid p)) text true]> (dev s2))).
    replace (proc_read env f (ProcessStatusFile (pid p)) [] false 0 buf s2) with (proc_read env f (ProcessStatusFile (pid p)) text true 0 buf s3) by reflexivity.
    by rewrite proc_read_made.
Qed.

(** Nothing can be changed. *)
Theorem proc_is_read_only env i n s offset buf len name kind perms : dev s !! i = Some n ->
  exists e1 e2 e3 e4, @op_write _ (proc_ops env) i offset buf s = (Err e1, s) /\ @op_truncate _ (proc_ops env) i len s = (Err e2, s) /\
    @op_unlink _ (proc_ops env) i name s = (Err e3, s) /\ @op_create _ (proc_ops env) i name kind perms s = (Err e4, s).
Proof.
  intros Hn. cbn [op_write op_truncate op_unlink op_create proc_ops]. rewrite !(node_found _ _ _ _ _ Hn). destruct n; by eexists _, _, _, _.
Qed.

(** ** The line of a process *)
Fixpoint spaces (s : string) : nat := match s with "" => 0 | String a s => (if Ascii.eqb a " " then 1 else 0) + spaces s end.
Lemma spaces_app a b : spaces (a ++ b)%string = (spaces a + spaces b)%nat.
Proof.
  induction a as [|c a IH]; [done|]. change ((String c a ++ b)%string) with (String c (a ++ b)%string). cbn [spaces]. rewrite IH. lia.
Qed.
Lemma spaces_digit d : 0 <= d < 10 -> spaces (digit d) = 0%nat.
Proof. intros Hd%digit_cases. rewrite !elem_of_cons, elem_of_nil in Hd. repeat (destruct Hd as [->|Hd]; [reflexivity|]). done. Qed.
Lemma spaces_decimal fuel : forall n, 0 <= n -> spaces (decimal fuel n) = 0%nat.
Proof.
  induction fuel as [|fuel IH]; intros n Hn; [done|]. cbn [decimal]. destruct (Z.ltb_spec n 10); [apply spaces_digit; lia|].
  rewrite spaces_app, IH, spaces_digit; [done|apply Z.mod_pos_bound; lia|apply Z.div_pos; lia].
Qed.
Lemma spaces_paren s : spaces (replace_paren s) = spaces s.
Proof. induction s as [|a s IH]; [done|]. cbn [replace_paren spaces]. rewrite IH. f_equal. by destruct (Ascii.eqb_spec a ")"%char) as [->|]. Qed.
(** The line has 48 fields where the comment above it promises 52 (a field more for each space in
    the name). *)
Theorem stat_line_fields p : 0 <= pid p -> 0 <= parent_pid p -> 0 <= entry_point p -> 0 <= end_ p -> 0 <= user_stack_top p ->
  spaces (stat_line p) = (47 + spaces (name p))%nat.
Proof.
  intros H1 H2 H3 H4 H5. unfold stat_line. rewrite !spaces_app, spaces_paren. unfold dec. rewrite !spaces_decimal by done.
  destruct (status p); cbn; lia.
Qed.

(** ** A table with two processes *)
Definition proc_env : ProcEnv := mkEnv 1700000000 [shell; zombie] (Some 2) 12345 (Some (100, 256)) (fun _ => mkCpuid 0 0 0 0).
Definition proc_fs : FsState (gmap nat ProcNode) := mkFs {[ 0%nat := mkInode 0 Directory 0 READ_ALL 1 0 0 0 0 0 ]} ∅ {[ 0%nat := ProcRootDir ]}.
Lemma proc_lists_processes_witness :
  exists es s' i, @op_read_dir _ (proc_ops proc_env) 0 proc_fs = (Ok es, s') /\ es !! 5%nat = Some (mkDirEntry "5" i 5 Directory) /\ dev s' !! i = Some (ProcessDir 5).
Proof.
  destruct (proc_lists_processes proc_env 0 proc_fs) as (es & s' & Hrun & _ & Hall & _).
  - reflexivity.
  - repeat constructor; vm_compute; congruence.
  - destruct (Hall 1%nat zombie ltac:(reflexivity)) as [(i & Hi & Hd) _]. exists es, s', i. split; [exact Hrun|]. split; [exact Hi|exact Hd].
Defined.
Definition uptime_fs : FsState (gmap nat ProcNode) := mkFs ∅ ∅ {[ 1%nat := ProcFile Uptime [] false ]}.
(** The clock moves on between the reads; the text does not. *)
Lemma proc_file_is_snapshot_witness :
  exists s', reads 1 [(proc_env, 0, [0; 0; 0; 0]); (mkEnv 0 [] None 99900 None (cpuid proc_env), 4, [0; 0; 0])] uptime_fs =
    (Ok [(4, [49; 50; 51; 46]); (3, [52; 53; 32])], s').
Proof.
  destruct (proc_file_is_snapshot 1 Uptime (generate_uptime proc_env) proc_env 0 [0; 0; 0; 0] [(mkEnv 0 [] None 99900 None (cpuid proc_env), 4, [0; 0; 0])] uptime_fs)
    as (s' & Hrun & _).
  - reflexivity.
  - reflexivity.
  - repeat constructor; lia.
  - exists s'. rewrite Hrun. vm_compute. reflexivity.
Defined.

(** Any number names a directory, whether or not there is such a process. *)
Example no_process_has_directory : (@op_lookup _ (proc_ops proc_env) 0 "77" proc_fs).1 = Ok 1%nat /\ (@op_lookup _ (proc_ops proc_env) 0 "+2" proc_fs).1 = Ok 1%nat.
Proof. vm_compute. done. Qed.
(** [stat] of the directory of the largest number overflows. *)
Example stat_of_last_number_panics :
  (d ← @op_lookup _ (proc_ops proc_env) 0 "18446744073709551615"; @op_stat _ (proc_ops proc_env) d) proc_fs =
  (Panic, ((@op_lookup _ (proc_ops proc_env) 0 "18446744073709551615" proc_fs).2)).
Proof. vm_compute. reflexivity. Qed.
(** Two files have the same inode number. *)
Example inode_numbers_collide : exists s1 s2 a b, @proc_stat proc_env 1 (ProcessDir 0x10005) proc_fs = (Ok a, s1) /\
  @proc_stat proc_env 1 (ProcFile (ProcessStat 5) [] true) proc_fs = (Ok b, s2) /\ st_ino a = st_ino b.
Proof. do 4 eexists. split; [vm_compute; reflexivity|]. split; [vm_compute; reflexivity|]. reflexivity. Qed.
(** Without a current process the name of the caller's directory stops the kernel. *)
Example self_needs_process : (@op_lookup _ (proc_ops (mkEnv 0 [] None 0 None (cpuid proc_env))) 0 "self" proc_fs).1 = Panic.
Proof. reflexivity. Qed.
