(* ===== verification/Apic.v ===== *)
(** * The interrupt controllers (zenos-kernel/src/hardware/mod.rs)

    The legacy controllers, the interval timer, the local and the I/O APICs, and the routing of
    the interrupts at boot.  The chips behind the ports, the registers in memory and the
    model-specific registers are a class. *)
From S2P Require Import Prelude PageAlloc Paging Level4 ProcFs.
#[local] Open Scope list_scope.

Class Chips (H : Type) := {
  inb : Z -> H -> Z * H;
  outb : Z -> Z -> H -> H;
  mmio_read : Z -> H -> Z * H;               (* [read_volatile] of a u32 *)
  mmio_write : Z -> Z -> H -> H;
  msr_read : Z -> H -> Z * H;
  msr_write : Z -> Z -> H -> H;
  chip_cpuid : Z -> H -> CpuidResult;
}.

Definition MAX_IOAPICS : nat := 8.
Definition IRQ_BASE : Z := 0x20.
Definition IRQ_SLAVE_BASE : Z := 0x28.
Definition SPURIOUS : Z := 0xFF.
Definition IRQ0_PIT : Z := IRQ_BASE.
Definition IRQ1_KEYBOARD : Z := IRQ_BASE + 1.
Definition LAPIC_TIMER : Z := IRQ0_PIT.
Definition APIC_ID : Z := 0x20.
Definition APIC_VERSION : Z := 0x30.
Definition APIC_EOI : Z := 0xB0.
Definition APIC_SVR : Z := 0xF0.
Definition APIC_ICR_LOW : Z := 0x300.
Definition APIC_ICR_HIGH : Z := 0x310.
Definition APIC_LVT_TIMER : Z := 0x320.
Definition APIC_TIMER_INIT : Z := 0x380.
Definition APIC_TIMER_CURRENT : Z := 0x390.
Definition APIC_TIMER_DIVIDE : Z := 0x3E0.
Definition PIC1_CMD : Z := 0x20.
Definition PIC1_DATA : Z := 0x21.
Definition PIC2_CMD : Z := 0xA0.
Definition PIC2_DATA : Z := 0xA1.
Definition ICW1_INIT : Z := 0x10.
Definition ICW1_ICW4 : Z := 0x01.
Definition ICW4_8086 : Z := 0x01.
Definition PIT_CHANNEL0 : Z := 0x40.
Definition PIT_CMD : Z := 0x43.
Definition PIT_FREQ : Z := 1193182.

Inductive DeliveryMode := Fixed | Lowest | Smi | Nmi | Init | Startup.
Definition mode_bits (m : DeliveryMode) : Z := match m with Fixed => 0 | Lowest => 1 | Smi => 2 | Nmi => 4 | Init => 5 | Startup => 6 end.
Inductive Level := Deassert | Assert.
Definition level_bits (l : Level) : Z := match l with Deassert => 0 | Assert => 1 end.
Inductive ApicMode := XApic | X2Apic | LegacyPic.
Record LocalApic := mkLapic { mode : ApicMode; mmio_base : Z }.
Record IoRedirEntry := mkRedir { low : Z; high : Z }.
Record IoApic := mkIoApic { io_id : Z; io_base : Z; max_entries : Z }.
Record ApicManager := mkManager { lapic : LocalApic; ioapics : list IoApic }.

Section Apic.
Context {H : Type} `{Chips H}.
Abbreviation hw E := (st H E).

Definition port_in {E} (p : Z) : hw E Z := fun h => let '(v, h) := inb p h in (Ok v, h).
Definition port_out {E} (p v : Z) : hw E unit := fun h => (Ok tt, outb p v h).
Definition read_volatile {E} (a : Z) : hw E Z := fun h => let '(v, h) := mmio_read a h in (Ok v, h).
Definition write_volatile {E} (a v : Z) : hw E unit := fun h => (Ok tt, mmio_write a v h).
Definition rdmsr {E} (m : Z) : hw E Z := fun h => let '(v, h) := msr_read m h in (Ok v, h).
Definition wrmsr {E} (m v : Z) : hw E unit := fun h => (Ok tt, msr_write m v h).

(** ** The legacy controllers *)
Definition pic_remap {E} (offset1 offset2 : Z) : hw E unit :=
  _ ← port_out PIC1_CMD (Z.lor ICW1_INIT ICW1_ICW4);
  _ ← port_out PIC2_CMD (Z.lor ICW1_INIT ICW1_ICW4);
  _ ← port_out PIC1_DATA offset1;
  _ ← port_out PIC2_DATA offset2;
  _ ← port_out PIC1_DATA 4;
  _ ← port_out PIC2_DATA 2;
  _ ← port_out PIC1_DATA ICW4_8086;
  port_out PIC2_DATA ICW4_8086.
Definition pic_send_eoi {E} (irq : Z) : hw E unit :=
  _ ← (if 8 <=? irq then port_out PIC2_CMD 0x20 else mret tt);
  port_out PIC1_CMD 0x20.
Definition pic_set_mask {E} (irq : Z) (masked : bool) : hw E unit :=
  let port := if irq <? 8 then PIC1_DATA else PIC2_DATA in
  let bit := if irq <? 8 then irq else irq - 8 in
  val ← port_in port;
  b ← st_lift (ushl 8 1 bit);
  port_out port (if masked then Z.lor val b else Z.land val (unot 8 b)).
Definition pic_unmask {E} (irq : Z) : hw E unit := pic_set_mask irq false.

(** ** The interval timer *)
Definition pit_count (us : Z) : Z := wrap 16 (us * PIT_FREQ / 1000000).
Definition prepare_sleep {E} (us : Z) : hw E unit :=
  let count := pit_count us in
  _ ← port_out PIT_CMD 0x30;
  _ ← port_out PIT_CHANNEL0 (Z.land count 0xFF);
  port_out PIT_CHANNEL0 (Z.shiftr count 8).
(** A panic stands for a wait that has not ended. *)
Fixpoint perform_sleep {E} (fuel : nat) : hw E unit :=
  match fuel with
  | O => st_lift Panic
  | S fuel =>
      _ ← port_out PIT_CMD 0;
      lo ← port_in PIT_CHANNEL0;
      hi ← port_in PIT_CHANNEL0;
      let curr := Z.lor (wrap 16 (Z.shiftl hi 8)) lo in
      if curr =? 0 then mret tt else perform_sleep fuel
  end.

(** ** The local APIC *)
Definition lapic_read {E} (self : LocalApic) (off : Z) : hw E Z :=
  match mode self with
  | X2Apic => v ← rdmsr (0x800 + Z.shiftr off 4); mret (wrap 32 v)
  | XApic => addr ← st_lift (uadd 64 (mmio_base self) off); read_volatile addr
  | LegacyPic => mret 0
  end.
Definition lapic_write {E} (self : LocalApic) (off v : Z) : hw E unit :=
  match mode self with
  | X2Apic => wrmsr (0x800 + Z.shiftr off 4) v
  | XApic => addr ← st_lift (uadd 64 (mmio_base self) off); write_volatile addr v
  | LegacyPic => mret tt
  end.
Definition calibrate_timer_10ms {E} (fuel : nat) (self : LocalApic) : hw E unit :=
  _ ← lapic_write self APIC_TIMER_DIVIDE 0x3;
  _ ← prepare_sleep 10000;
  _ ← lapic_write self APIC_TIMER_INIT 0xFFFFFFFF;
  _ ← perform_sleep fuel;
  _ ← lapic_write self APIC_LVT_TIMER 0x10000;
  c ← lapic_read self APIC_TIMER_CURRENT;
  let elapsed := wrap 32 (0xFFFFFFFF - c) in
  _ ← lapic_write self APIC_LVT_TIMER (Z.lor LAPIC_TIMER 0x20000);
  _ ← lapic_write self APIC_TIMER_DIVIDE 0x3;
  lapic_write self APIC_TIMER_INIT elapsed.
Definition lapic_send_eoi {E} (self : LocalApic) : hw E unit :=
  match mode self with LegacyPic => pic_send_eoi 0 | _ => lapic_write self APIC_EOI 0 end.
Definition lapic_send_ipi {E} (self : LocalApic) (dest vec : Z) (m : DeliveryMode) (lvl : Level) : hw E unit :=
  match mode self with
  | LegacyPic => mret tt
  | _ =>
      _ ← lapic_write self APIC_ICR_HIGH dest;
      lapic_write self APIC_ICR_LOW (Z.lor (Z.lor (Z.shiftl (mode_bits m) 8) (Z.shiftl (level_bits lvl) 14)) vec)
  end.
Definition lapic_id {E} (self : LocalApic) : hw E Z :=
  match mode self with LegacyPic => mret 0 | _ => v ← lapic_read self APIC_ID; mret (wrap 8 (Z.shiftr v 24)) end.
Definition pic_supported : bool := true.
Definition LocalApic_new {E} (fuel : nat) (base : Z) : hw E LocalApic :=
  _ ← pic_remap IRQ_BASE IRQ_SLAVE_BASE;
  h ← st_get;
  let leaf := chip_cpuid 1 h in
  let have_apic := negb (Z.land (Z.shiftr (edx leaf) 9) 1 =? 0) in
  let have_x2 := negb (Z.land (Z.shiftr (ecx leaf) 21) 1 =? 0) in
  mode ← (if have_x2 then
            m ← rdmsr 0x1B; _ ← wrmsr 0x1B (Z.lor m 0x400); _ ← rdmsr 0x1B; mret X2Apic
          else if have_apic then
            m ← rdmsr 0x1B; _ ← wrmsr 0x1B (Z.lor m 0x800); _ ← rdmsr 0x1B; mret XApic
          else if pic_supported then mret LegacyPic
          else st_lift Panic);
  let self := mkLapic mode base in
  match mode with
  | LegacyPic => _ ← pic_unmask (IRQ1_KEYBOARD - IRQ_BASE); mret self
  | _ =>
      _ ← lapic_read self APIC_VERSION;
      svr ← lapic_read self APIC_SVR;
      _ ← lapic_write self APIC_SVR (Z.lor (Z.lor svr 0x100) SPURIOUS);
      _ ← lapic_read self APIC_SVR;
      _ ← lapic_write self 0x80 0;
      _ ← calibrate_timer_10ms fuel self;
      _ ← lapic_id self;
      mret self
  end.

(** ** The I/O APICs *)
Definition read_reg {E} (self : IoApic) (reg : Z) : hw E Z :=
  _ ← write_volatile (io_base self) reg;
  a ← st_lift (uadd 64 (io_base self) 0x10);
  read_volatile a.
Definition write_reg {E} (self : IoApic) (reg val : Z) : hw E unit :=
  _ ← write_volatile (io_base self) reg;
  a ← st_lift (uadd 64 (io_base self) 0x10);
  write_volatile a val.
Definition IoApic_new {E} (base : Z) : hw E IoApic :=
  _ ← write_volatile base 1;
  a ← st_lift (uadd 64 base 0x10);
  ver ← read_volatile a;
  let max_entries := Z.land (Z.shiftr ver 16) 0xFF + 1 in
  _ ← write_volatile base 0;
  id_reg ← read_volatile a;
  mret (mkIoApic (wrap 8 (Z.shiftr id_reg 24)) base (wrap 8 max_entries)).
(** The number of a register of entry [idx]: [first + idx * 2]. *)
Definition redir_reg {E} (first idx : Z) : outcome E Z := d ← umul 8 idx 2; uadd 8 first d.
Definition read_redir {E} (self : IoApic) (idx : Z) : hw E IoRedirEntry :=
  r ← st_lift (redir_reg 0x10 idx);
  low ← read_reg self r;
  r ← st_lift (redir_reg 0x11 idx);
  high ← read_reg self r;
  mret (mkRedir low high).
Definition write_redir {E} (self : IoApic) (idx : Z) (e : IoRedirEntry) : hw E unit :=
  r ← st_lift (redir_reg 0x10 idx);
  _ ← write_reg self r (low e);
  r ← st_lift (redir_reg 0x11 idx);
  write_reg self r (high e).
Definition mask_irq {E} (self : IoApic) (idx : Z) : hw E unit :=
  e ← read_redir self idx;
  write_redir self idx (mkRedir (Z.lor (low e) 0x10000) (high e)).
Definition unmask_irq {E} (self : IoApic) (idx : Z) : hw E unit :=
  e ← read_redir self idx;
  write_redir self idx (mkRedir (Z.land (low e) (unot 32 0x10000)) (high e)).

(** ** The manager *)
Definition manager_send_eoi {E} (self : ApicManager) : hw E unit := lapic_send_eoi (lapic self).
Definition manager_send_ipi {E} (self : ApicManager) (dest vec : Z) (m : DeliveryMode) (lvl : Level) : hw E unit :=
  lapic_send_ipi (lapic self) dest vec m lvl.
Fixpoint mask_each {E} (io : IoApic) (idxs : list Z) : hw E unit :=
  match idxs with [] => mret tt | i :: idxs => _ ← mask_irq io i; mask_each io idxs end.
Fixpoint mask_chips {E} (ios : list IoApic) : hw E unit :=
  match ios with [] => mret tt | io :: ios => _ ← mask_each io (seqZ 0 (max_entries io)); mask_chips ios end.
Definition mask_all_irqs {E} (self : ApicManager) : hw E unit := mask_chips (ioapics self).
Definition manager_unmask_irq {E} (self : ApicManager) (id idx : Z) : hw E unit :=
  match List.find (fun x => io_id x =? id) (ioapics self) with
  | Some io => unmask_irq io idx
  | None => mret tt
  end.

(** ** Routing *)
Definition route {E} (io : IoApic) (gsi vector id : Z) : hw E unit :=
  _ ← write_redir io gsi (mkRedir vector (wrap 32 (Z.shiftl id 24)));
  unmask_irq io gsi.
(** The overrides [(isa, gsi)]. *)
Fixpoint route_overrides {E} (self : ApicManager) (id : Z) (iso : list (Z * Z)) : hw E unit :=
  match iso with
  | [] => mret tt
  | (isa, gsi) :: iso =>
      vector ← st_lift (uadd 8 IRQ_BASE (wrap 8 isa));
      _ ← match head (ioapics self) with
          | Some io => if wrap 8 gsi <? max_entries io then route io (wrap 8 gsi) vector id else mret tt
          | None => mret tt
          end;
      route_overrides self id iso
  end.
Fixpoint route_defaults {E} (self : ApicManager) (iso : list (Z * Z)) (irqs : list Z) : hw E unit :=
  match irqs with
  | [] => mret tt
  | isa_irq :: irqs =>
      _ ← (if existsb (fun '(isa, _) => wrap 8 isa =? isa_irq) iso then mret tt
           else
             vector ← st_lift (uadd 8 IRQ_BASE isa_irq);
             id ← lapic_id (lapic self);
             match head (ioapics self) with
             | Some io => if isa_irq <? max_entries io then route io isa_irq vector id else mret tt
             | None => mret tt
             end);
      route_defaults self iso irqs
  end.
Definition route_all {E} (self : ApicManager) (iso : list (Z * Z)) : hw E unit :=
  id ← lapic_id (lapic self);
  _ ← route_overrides self id iso;
  route_defaults self iso (seqZ 0 16).
End Apic.

(** ** Boot: the chips and the kernel's memory *)
Section Boot.
Context {H : Type} `{Chips H} `{HP : Paging} `{VirtAddrs}.
Abbreviation board E := (st (H * Mem) E).
Definition on_chips {E A} (m : st H E A) : board E A := fun '(h, s) => let '(r, h) := m h in (r, (h, s)).
(** [kalloc_page] for the registers of a chip; an error stops the kernel. *)
Definition map_registers {E} (base : Z) : board E Z := fun '(h, s) =>
  match (v ← uadd 64 base HIGHER_HALF_BASE; unwrap (virt_new v)) : outcome E Z with
  | Ok v => match kalloc_page v MmioRecursive s with (Ok _, s) => (Ok v, (h, s)) | (_, s) => (Panic, (h, s)) end
  | _ => (Panic, (h, s))
  end.
Fixpoint new_ioapics {E} (io_bases : list Z) : board E (list IoApic) :=
  match io_bases with
  | [] => mret []
  | base :: io_bases =>
      v ← map_registers base;
      io ← on_chips (IoApic_new v);
      ios ← new_ioapics io_bases;
      mret (io :: ios)
  end.
Definition ApicManager_init {E} (fuel : nat) (apic_base : Z) (io_bases : list Z) : board E ApicManager :=
  v ← map_registers apic_base;
  l ← on_chips (LocalApic_new fuel v);
  ios ← new_ioapics (take MAX_IOAPICS io_bases);
  mret (mkManager l ios).
Definition hardware_init {E} (fuel : nat) (apic_base : Z) (io_bases : list Z) (iso : list (Z * Z)) : board E ApicManager :=
  m ← ApicManager_init fuel apic_base io_bases;
  _ ← on_chips (route_all m iso);
  mret m.
End Boot.

(** ** The window of an I/O APIC *)
(** The bits of a register that the chip sets itself: delivery status and remote IRR of the low
    half of an entry. *)
Definition chip_bits (reg : Z) : Z := if (0x10 <=? reg) && (reg mod 2 =? 0) then 0x5000 else 0.
(** The registers of the chip at [base], without those bits, and the one that is selected. *)
Class IoApicLaws (H : Type) `{Chips H} (base : Z) := {
  io_reg : H -> Z -> Z;
  io_sel : H -> Z;
  io_reg_u h r : is_u 32 (io_reg h r);
  select_ok h r : 0 <= r < 256 -> io_sel (mmio_write base r h) = r /\ forall q, io_reg (mmio_write base r h) q = io_reg h q;
  window_read h v h' : mmio_read (base + 0x10) h = (v, h') ->
    is_u 32 v /\ Z.ldiff v (chip_bits (io_sel h)) = io_reg h (io_sel h) /\ io_sel h' = io_sel h /\ forall q, io_reg h' q = io_reg h q;
  window_write h v q : is_u 32 v ->
    io_reg (mmio_write (base + 0x10) v h) q = if decide (q = io_sel h) then Z.ldiff v (chip_bits q) else io_reg h q;
}.

Section Window.
Context {H : Type} `{HC : Chips H} (io : IoApic) {HL : IoApicLaws H (io_base io)}.
Context (Hbase : 0 <= io_base io < 2 ^ 64 - 16).

Lemma window_addr {E} : uadd (E := E) 64 (io_base io) 0x10 = Ok (io_base io + 0x10).
Proof using Hbase. apply uadd_eq. lia. Qed.
Lemma read_reg_ok {E} r h : 0 <= r < 256 -> exists v h', read_reg (E := E) io r h = (Ok v, h') /\
  is_u 32 v /\ Z.ldiff v (chip_bits r) = io_reg h r /\ forall q, io_reg h' q = io_reg h q.
Proof using HL Hbase.
  intros Hr. destruct (select_ok h r Hr) as [Hs Hq]. destruct (mmio_read (io_base io + 0x10) (mmio_write (io_base io) r h)) as [v h'] eqn:Hrd.
  destruct (window_read _ _ _ Hrd) as (Hu & Hv & _ & Hq'). rewrite Hs, Hq in Hv. exists v, h'. split; [|split_and!; [done..|intros q; by rewrite Hq', Hq]].
  unfold read_reg, write_volatile, read_volatile, mbind, st_bind, st_lift. rewrite window_addr. cbn. by rewrite Hrd.
Qed.
Lemma write_reg_ok {E} r v h : 0 <= r < 256 -> is_u 32 v -> exists h', write_reg (E := E) io r v h = (Ok tt, h') /\
  forall q, io_reg h' q = if decide (q = r) then Z.ldiff v (chip_bits r) else io_reg h q.
Proof using HL Hbase.
  intros Hr Hv. destruct (select_ok h r Hr) as [Hs Hq]. eexists. split.
  { unfold write_reg, write_volatile, mbind, st_bind, st_lift. rewrite window_addr. reflexivity. }
  intros q. rewrite window_write, Hs by done. destruct (decide (q = r)) as [->|]; [done|apply Hq].
Qed.

(** An entry, without the bits of the chip. *)
Definition redir (h : H) (idx : Z) : IoRedirEntry := mkRedir (io_reg h (0x10 + idx * 2)) (io_reg h (0x11 + idx * 2)).
Lemma redir_regs {E} idx : 0 <= idx < 120 -> redir_reg (E := E) 0x10 idx = Ok (0x10 + idx * 2) /\ redir_reg (E := E) 0x11 idx = Ok (0x11 + idx * 2).
Proof using. intros Hi. unfold redir_reg. rewrite umul_eq by lia. cbn [mbind outcome_bind]. by rewrite !uadd_eq by lia. Qed.
Lemma chip_bits_low idx : 0 <= idx -> chip_bits (0x10 + idx * 2) = 0x5000.
Proof using. intros Hi. unfold chip_bits. rewrite (proj2 (Z.leb_le _ _)) by lia. rewrite Z_mod_plus_full. done. Qed.
Lemma chip_bits_high idx : chip_bits (0x11 + idx * 2) = 0.
Proof using. unfold chip_bits. rewrite Z_mod_plus_full. by rewrite andb_false_r. Qed.

Lemma read_redir_ok {E} idx h : 0 <= idx < 120 -> exists e h', read_redir (E := E) io idx h = (Ok e, h') /\
  is_u 32 (low e) /\ is_u 32 (high e) /\ mkRedir (Z.ldiff (low e) 0x5000) (high e) = redir h idx /\ forall q, io_reg h' q = io_reg h q.
Proof using HL Hbase.
  intros Hi. destruct (redir_regs (E := E) idx Hi) as [H1 H2].
  destruct (read_reg_ok (E := E) (0x10 + idx * 2) h) as (v & h1 & Hr1 & Hu1 & Hv1 & Hq1); [lia|].
  destruct (read_reg_ok (E := E) (0x11 + idx * 2) h1) as (w & h2 & Hr2 & Hu2 & Hv2 & Hq2); [lia|]. rewrite chip_bits_low in Hv1 by lia.
  rewrite chip_bits_high, Z.ldiff_0_r, Hq1 in Hv2. exists (mkRedir v w), h2. split; [|cbn; split_and!; [done|done|by unfold redir; rewrite Hv1, Hv2|intros q; by rewrite Hq2, Hq1]].
  unfold read_redir, mbind, st_bind, st_lift. rewrite H1, Hr1, H2, Hr2. done.
Qed.
Lemma write_redir_ok {E} idx e h : 0 <= idx < 120 -> is_u 32 (low e) -> is_u 32 (high e) -> exists h', write_redir (E := E) io idx e h = (Ok tt, h') /\
  redir h' idx = mkRedir (Z.ldiff (low e) 0x5000) (high e) /\ forall j, j <> idx -> redir h' j = redir h j.
Proof using HL Hbase.
  intros Hi Hl Hh. destruct (redir_regs (E := E) idx Hi) as [H1 H2].
  destruct (write_reg_ok (E := E) (0x10 + idx * 2) (low e) h) as (h1 & Hr1 & Hq1); [lia|done|].
  destruct (write_reg_ok (E := E) (0x11 + idx * 2) (high e) h1) as (h2 & Hr2 & Hq2); [lia|done|]. exists h2. split_and!.
  - unfold write_redir, mbind, st_bind, st_lift. by rewrite H1, Hr1, H2, Hr2.
  - unfold redir. rewrite !Hq2, (decide_False (P := _ = _)), (decide_True (P := _ = _)), Hq1, (decide_True (P := _ = _)) by lia.
    by rewrite chip_bits_high, Z.ldiff_0_r, chip_bits_low by lia.
  - intros j Hj. unfold redir. rewrite !Hq2, !(decide_False (P := _ = _)), !Hq1, !(decide_False (P := _ = _)) by lia. done.
Qed.
Lemma ldiff_comm x a b : Z.ldiff (Z.ldiff x a) b = Z.ldiff (Z.ldiff x b) a.
Proof using. apply Z.bits_inj'. intros n Hn. rewrite !Z.ldiff_spec. destruct (Z.testbit x n), (Z.testbit a n), (Z.testbit b n); done. Qed.
Lemma ldiff_lor_apart a b c : Z.land b c = 0 -> Z.ldiff (Z.lor a b) c = Z.lor (Z.ldiff a c) b.
Proof using.
  intros Hbc. apply Z.bits_inj'. intros n Hn. apply (f_equal (fun x => Z.testbit x n)) in Hbc. rewrite Z.land_spec, Z.bits_0 in Hbc.
  rewrite Z.ldiff_spec, !Z.lor_spec, Z.ldiff_spec. by destruct (Z.testbit a n), (Z.testbit b n), (Z.testbit c n).
Qed.
Lemma mask_irq_ok {E} idx h : 0 <= idx < 120 -> exists h', mask_irq (E := E) io idx h = (Ok tt, h') /\
  redir h' idx = mkRedir (Z.lor (low (redir h idx)) 0x10000) (high (redir h idx)) /\ forall j, j <> idx -> redir h' j = redir h j.
Proof using HL Hbase.
  intros Hi. destruct (read_redir_ok (E := E) idx h Hi) as (e & h1 & Hr & Hl & Hh & He & Hq).
  destruct (write_redir_ok (E := E) idx (mkRedir (Z.lor (low e) 0x10000) (high e)) h1 Hi) as (h2 & Hw & Hs & Ho); [by apply is_u_lor|done|].
  exists h2. split; [unfold mask_irq; by rewrite (st_bind_eq _ _ _ _ _ Hr)|]. split.
  - rewrite Hs, <-He. cbn. by rewrite ldiff_lor_apart.
  - intros j Hj. rewrite Ho by done. unfold redir. by rewrite !Hq.
Qed.
Lemma unmask_irq_ok {E} idx h : 0 <= idx < 120 -> exists h', unmask_irq (E := E) io idx h = (Ok tt, h') /\
  redir h' idx = mkRedir (Z.ldiff (low (redir h idx)) 0x10000) (high (redir h idx)) /\ forall j, j <> idx -> redir h' j = redir h j.
Proof using HL Hbase.
  intros Hi. destruct (read_redir_ok (E := E) idx h Hi) as (e & h1 & Hr & Hl & Hh & He & Hq).
  destruct (write_redir_ok (E := E) idx (mkRedir (Z.land (low e) (unot 32 0x10000)) (high e)) h1 Hi) as (h2 & Hw & Hs & Ho); [|done|].
  { cbn. rewrite land_unot by (done || lia). by apply is_u_ldiff. }
  exists h2. split; [unfold unmask_irq; by rewrite (st_bind_eq _ _ _ _ _ Hr)|]. split.
  - rewrite Hs, <-He. cbn. rewrite land_unot by (done || lia). by rewrite ldiff_comm.
  - intros j Hj. rewrite Ho by done. unfold redir. by rewrite !Hq.
Qed.

Lemma mask_each_ok {E} idxs : forall h, NoDup idxs -> Forall (fun i => 0 <= i < 120) idxs -> exists h', mask_each (E := E) io idxs h = (Ok tt, h') /\
  forall j, redir h' j = if decide (j ∈ idxs) then mkRedir (Z.lor (low (redir h j)) 0x10000) (high (redir h j)) else redir h j.
Proof using HL Hbase.
  induction idxs as [|i idxs IH]; intros h Hnd Hr; [by exists h|]. apply NoDup_cons in Hnd as [Hni Hnd]. apply Forall_cons in Hr as [Hi Hr].
  destruct (mask_irq_ok (E := E) i h Hi) as (h1 & Hrun & Hs & Ho). destruct (IH h1 Hnd Hr) as (h2 & Hrun2 & Hall). exists h2.
  split; [cbn [mask_each]; by rewrite (st_bind_eq _ _ _ _ _ Hrun)|]. intros j. rewrite Hall. destruct (decide (j = i)) as [->|Hne].
  - rewrite decide_False, decide_True by set_solver. done.
  - rewrite Ho by done. destruct (decide (j ∈ idxs)); [rewrite decide_True by set_solver|rewrite decide_False by set_solver]; done.
Qed.
Lemma mask_irq_panics {E} i h : 120 <= i < 256 -> mask_irq (E := E) io i h = (Panic, h).
Proof using.
  intros Hi. unfold mask_irq. apply st_bind_Panic. unfold read_redir. apply st_bind_Panic. unfold st_lift. f_equal. unfold redir_reg, umul.
  destruct (Z.ltb_spec (i * 2) (2 ^ 8)); [|done]. cbn [mbind outcome_bind]. unfold uadd. by rewrite (proj2 (Z.ltb_ge _ _)) by lia.
Qed.
Lemma mask_each_panics {E} idxs h : Exists (fun i => 120 <= i) idxs -> Forall (fun i => 0 <= i < 256) idxs -> exists h', mask_each (E := E) io idxs h = (Panic, h').
Proof using HL Hbase.
  intros Hex. revert h. induction Hex as [i idxs Hi|i idxs _ IH]; intros h Hr; apply Forall_cons in Hr as [Hri Hr]; cbn [mask_each].
  - exists h. apply st_bind_Panic, mask_irq_panics. lia.
  - destruct (decide (i < 120)) as [Hs|Hs]; [|exists h; apply st_bind_Panic, mask_irq_panics; lia].
    destruct (mask_irq_ok (E := E) i h) as (h1 & Hrun & _ & _); [lia|]. rewrite (st_bind_eq _ _ _ _ _ Hrun). by apply IH.
Qed.

(** Masking all interrupts of an I/O APIC sets the mask of each of its entries and nothing
    else; with more than 120 entries the number of a register no longer fits a byte and the
    kernel stops. *)
Theorem mask_all_masks {E} m h : ioapics m = [io] -> 0 <= max_entries io < 256 ->
  if decide (max_entries io <= 120) then
    exists h', mask_all_irqs (E := E) m h = (Ok tt, h') /\
      forall j, redir h' j = if decide (0 <= j < max_entries io) then mkRedir (Z.lor (low (redir h j)) 0x10000) (high (redir h j)) else redir h j
  else exists h', mask_all_irqs (E := E) m h = (Panic, h').
Proof using HL Hbase.
  intros Hm Hmax. unfold mask_all_irqs. rewrite Hm. cbn [mask_chips]. destruct (decide _) as [Hle|Hgt].
  - destruct (mask_each_ok (E := E) (seqZ 0 (max_entries io)) h) as (h' & Hrun & Hall); [apply NoDup_seqZ|apply Forall_seqZ; lia|].
    exists h'. rewrite (st_bind_eq _ _ _ _ _ Hrun). split; [done|]. intros j. rewrite Hall. destruct (decide (0 <= j < max_entries io)) as [Hj|Hj].
    + rewrite decide_True; [done|]. apply elem_of_seqZ. lia.
    + rewrite decide_False; [done|]. rewrite elem_of_seqZ. lia.
  - destruct (mask_each_panics (E := E) (seqZ 0 (max_entries io)) h) as (h' & Hrun).
    + apply Exists_exists. exists 120. split; [|lia]. apply elem_of_seqZ. lia.
    + apply Forall_seqZ. lia.
    + exists h'. by apply st_bind_Panic.
Qed.

(** ** Routing *)
Context (m : ApicManager) (rest : list IoApic) (id : Z) (Hm : ioapics m = io :: rest) (Hmax : 0 <= max_entries io <= 120) (Hidr : 0 <= id < 256).
Definition dest : Z := id * 2 ^ 24.
Lemma route_ok {E} g vec h : 0 <= g < 120 -> 0 <= vec < 256 -> exists h', route (E := E) io g vec id h = (Ok tt, h') /\
  redir h' g = mkRedir vec dest /\ forall j, j <> g -> redir h' j = redir h j.
Proof using HL Hbase Hidr.
  intros Hg Hv. assert (wrap 32 (Z.shiftl id 24) = dest) as Hd.
  { rewrite Z.shiftl_mul_pow2 by lia. apply wrap_small. unfold is_u, dest. lia. }
  assert (forall c, Z.ldiff vec (Z.shiftl c 8) = vec) as Hl.
  { intros c. apply Z.bits_inj'. intros n Hn. rewrite Z.ldiff_spec. destruct (decide (n < 8)) as [Hlt|Hge].
    - rewrite Z.shiftl_spec_low by lia. by rewrite andb_true_r.
    - by rewrite (is_u_testbit 8 vec n) by (unfold is_u; lia). }
  destruct (write_redir_ok (E := E) g (mkRedir vec (wrap 32 (Z.shiftl id 24))) h Hg) as (h1 & Hw & Hs & Ho); [unfold is_u; cbn; lia|rewrite Hd; unfold is_u, dest; cbn; lia|].
  destruct (unmask_irq_ok (E := E) g h1 Hg) as (h2 & Hu & Hs2 & Ho2). exists h2. unfold route. rewrite (st_bind_eq _ _ _ _ _ Hw). split; [done|]. split.
  - rewrite Hs2, Hs. cbn [low high]. change 0x5000 with (Z.shiftl 0x50 8). change 0x10000 with (Z.shiftl 0x100 8). by rewrite !Hl, Hd.
  - intros j Hj. by rewrite Ho2, Ho.
Qed.

(** The vector the overrides give to a GSI; the last one counts. *)
Fixpoint override (iso : list (Z * Z)) (g : Z) : option Z :=
  match iso with
  | [] => None
  | (isa, gsi) :: iso =>
      match override iso g with
      | Some v => Some v
      | None => if wrap 8 gsi =? g then Some (IRQ_BASE + wrap 8 isa) else None
      end
  end.
Definition is_overridden (iso : list (Z * Z)) (isa_irq : Z) : bool := existsb (fun '(isa, _) => wrap 8 isa =? isa_irq) iso.
Lemma wrap_8 x : 0 <= wrap 8 x < 256.
Proof using. apply Z.mod_pos_bound. lia. Qed.
Lemma route_overrides_ok {E} iso : Forall (fun '(isa, _) => wrap 8 isa < 0xE0) iso -> forall h,
  exists h', route_overrides (E := E) m id iso h = (Ok tt, h') /\
    forall g, 0 <= g < max_entries io -> redir h' g = match override iso g with Some v => mkRedir v dest | None => redir h g end.
Proof using HL Hbase Hm Hmax Hidr.
  induction 1 as [|[isa gsi] iso Hisa _ IH]; intros h; [by exists h|]. cbn [route_overrides override].
  pose proof (wrap_8 isa). pose proof (wrap_8 gsi). unfold IRQ_BASE in *.
  rewrite (st_bind_eq _ _ h (0x20 + wrap 8 isa) h) by (unfold st_lift; rewrite uadd_eq by lia; done). rewrite Hm. cbn [head].
  destruct (Z.ltb_spec (wrap 8 gsi) (max_entries io)) as [Hlt|Hge].
  - destruct (route_ok (E := E) (wrap 8 gsi) (0x20 + wrap 8 isa) h) as (h1 & Hrun & Hs & Ho); [lia|lia|]. rewrite (st_bind_eq _ _ _ _ _ Hrun).
    destruct (IH h1) as (h2 & Hrun2 & Hall). exists h2. split; [done|]. intros g Hg. rewrite Hall by done. destruct (override iso g); [done|].
    destruct (Z.eqb_spec (wrap 8 gsi) g) as [<-|Hne]; [done|]. by apply Ho.
  - rewrite (st_bind_eq _ _ h tt h) by done. destruct (IH h) as (h2 & Hrun2 & Hall). exists h2. split; [done|]. intros g Hg. rewrite Hall by done.
    destruct (override iso g); [done|]. destruct (Z.eqb_spec (wrap 8 gsi) g); [lia|done].
Qed.

(** Reading the number of the local APIC gives the same every time and leaves the entries alone. *)
Context (Hid : forall h, exists h', lapic_id (E := unit) (lapic m) h = (Ok id, h') /\ forall q, io_reg h' q = io_reg h q).
Lemma route_defaults_ok iso irqs : Forall (fun i => 0 <= i < 16) irqs -> forall h,
  exists h', route_defaults (E := unit) m iso irqs h = (Ok tt, h') /\
    forall g, 0 <= g < max_entries io -> redir h' g = if decide (g ∈ irqs /\ is_overridden iso g = false) then mkRedir (IRQ_BASE + g) dest else redir h g.
Proof using HL Hbase Hm Hmax Hidr Hid.
  induction 1 as [|i irqs Hi _ IH]; intros h; [exists h; split; [done|]; intros g _; rewrite decide_False; [done|set_solver]|]. cbn [route_defaults].
  fold (is_overridden iso i). destruct (is_overridden iso i) eqn:Hov.
  - rewrite (st_bind_eq _ _ h tt h) by done. destruct (IH h) as (h2 & Hrun2 & Hall). exists h2. split; [done|]. intros g Hg. rewrite Hall by done.
    destruct (decide (g ∈ irqs /\ is_overridden iso g = false)); [rewrite decide_True by set_solver; done|]. rewrite decide_False; [done|]. rewrite elem_of_cons. intros [[->|?] ?]; [congruence|auto].
  - destruct (Hid h) as (h1 & Hrun1 & Hq1). unfold IRQ_BASE in *.
    assert (exists h2, ((vector ← st_lift (uadd 8 0x20 i); id ← lapic_id (lapic m);
      match head (ioapics m) with Some io => if i <? max_entries io then route io i vector id else mret tt | None => mret tt end) : st H unit unit) h = (Ok tt, h2) /\
      forall g, 0 <= g < max_entries io -> redir h2 g = if decide (g = i) then mkRedir (0x20 + i) dest else redir h g) as (h2 & Hrun & Hg2).
    { rewrite (st_bind_eq _ _ h (0x20 + i) h) by (unfold st_lift; rewrite uadd_eq by lia; done). rewrite (st_bind_eq _ _ _ _ _ Hrun1), Hm. cbn [head].
      destruct (Z.ltb_spec i (max_entries io)) as [Hlt|Hge].
      - destruct (route_ok (E := unit) i (0x20 + i) h1) as (h2 & Hrun & Hs & Ho); [lia|lia|]. exists h2. split; [done|]. intros g Hg.
        destruct (decide (g = i)) as [->|Hne]; [done|]. rewrite Ho by done. unfold redir. by rewrite !Hq1.
      - exists h1. split; [done|]. intros g Hg. rewrite decide_False by lia. unfold redir. by rewrite !Hq1. }
    rewrite (st_bind_eq _ _ _ _ _ Hrun). destruct (IH h2) as (h3 & Hrun3 & Hall). exists h3. split; [done|]. intros g Hg. rewrite Hall, Hg2 by done.
    destruct (decide (g ∈ irqs /\ is_overridden iso g = false)); [rewrite decide_True by set_solver; done|].
    destruct (decide (g = i)) as [->|Hne]; [rewrite decide_True by set_solver; done|]. rewrite decide_False; [done|]. rewrite elem_of_cons. intros [[->|?] ?]; auto.
Qed.

(** C27: how interrupts are routed at boot: below sixteen an input whose own ISA interrupt is not
    overridden gets the vector of its number, every other one the vector of the last override
    that names it, all of them unmasked and to the local APIC; an input nothing names keeps its
    entry.  (So an override to an input below sixteen is lost when that input's own interrupt
    is not overridden.) *)
Theorem boot_routes_interrupts iso h : Forall (fun '(isa, _) => wrap 8 isa < 0xE0) iso ->
  exists h', route_all (E := unit) m iso h = (Ok tt, h') /\
    forall g, 0 <= g < max_entries io ->
      redir h' g = if decide (g < 16 /\ is_overridden iso g = false) then mkRedir (IRQ_BASE + g) dest
                   else match override iso g with Some v => mkRedir v dest | None => redir h g end.
Proof using HL Hbase Hm Hmax Hidr Hid.
  intros Hiso. destruct (Hid h) as (h1 & Hrun1 & Hq1). destruct (route_overrides_ok (E := unit) iso Hiso h1) as (h2 & Hrun2 & Hall2).
  destruct (route_defaults_ok iso (seqZ 0 16)) with (h := h2) as (h3 & Hrun3 & Hall3); [apply Forall_seqZ; lia|].
  exists h3. unfold route_all. rewrite (st_bind_eq _ _ _ _ _ Hrun1), (st_bind_eq _ _ _ _ _ Hrun2). split; [done|].
  intros g Hg. rewrite Hall3, Hall2 by done. destruct (decide (g < 16 /\ is_overridden iso g = false)) as [[Hlt Hov]|Hno].
  - rewrite decide_True; [done|]. split; [|done]. apply elem_of_seqZ. lia.
  - rewrite decide_False by (rewrite elem_of_seqZ; intros [? ?]; apply Hno; lia || (split; [lia|done])). destruct (override iso g); [done|]. unfold redir. by rewrite !Hq1.
Qed.
End Window.

(** ** The legacy chips *)
(** Setting a mask changes that bit of the port and no other. *)
Theorem pic_mask_one_bit {H : Type} `{Chips H} {E} irq masked v (h h1 : H) : 0 <= irq < 16 -> is_u 8 v ->
  let port := if irq <? 8 then PIC1_DATA else PIC2_DATA in let bit := irq mod 8 in
  inb port h = (v, h1) -> exists v', pic_set_mask (E := E) irq masked h = (Ok tt, outb port v' h1) /\ is_u 8 v' /\
    Z.testbit v' bit = masked /\ forall i, 0 <= i < 8 -> i <> bit -> Z.testbit v' i = Z.testbit v i.
Proof.
  intros Hi Hv port bit Hin. unfold pic_set_mask. assert ((if irq <? 8 then irq else irq - 8) = bit) as ->.
  { unfold bit. destruct (Z.ltb_spec irq 8); [by rewrite Z.mod_small by lia|]. rewrite <-(Z_mod_plus_full irq (-1)), Z.mod_small; lia. }
  fold port. assert (0 <= bit < 8) as Hb by (apply Z.mod_pos_bound; lia). assert (wrap 8 (Z.shiftl 1 bit) = 2 ^ bit) as Hs.
  { rewrite Z.shiftl_1_l. apply wrap_small. split; [lia|]. apply Z.pow_lt_mono_r; lia. }
  assert (is_u 8 (2 ^ bit)) as Hbu by (split; [lia|apply Z.pow_lt_mono_r; lia]).
  exists (if masked then Z.lor v (2 ^ bit) else Z.land v (unot 8 (2 ^ bit))). split; [|split_and!].
  - unfold mbind, st_bind, port_in. rewrite Hin. unfold st_lift, ushl. rewrite (proj2 (Z.ltb_lt bit 8)), Hs by lia. done.
  - destruct masked; [by apply is_u_lor|]. rewrite land_unot by (done || lia). by apply is_u_ldiff.
  - destruct masked; [rewrite Z.lor_spec, Z.pow2_bits_true by lia; apply orb_true_r|].
    rewrite land_unot, Z.ldiff_spec, Z.pow2_bits_true by (done || lia). apply andb_false_r.
  - intros i Hir Hne. destruct masked; [rewrite Z.lor_spec, Z.pow2_bits_false by lia; apply orb_false_r|].
    rewrite land_unot, Z.ldiff_spec, Z.pow2_bits_false by (done || lia). apply andb_true_r.
Qed.
(** The count of the timer is that of the time asked for up to 54,925 microseconds, and wraps
    around above. *)
Theorem pit_count_range us : 0 <= us -> (pit_count us = us * PIT_FREQ / 1000000 <-> us <= 54925).
Proof.
  intros Hu. unfold pit_count, PIT_FREQ. split.
  - intros Heq. apply Z.nlt_ge. intros Hlt. pose proof (Z.mod_pos_bound (us * 1193182 / 1000000) (2 ^ 16) ltac:(lia)) as Hb. unfold wrap in Heq. rewrite Heq in Hb.
    assert (65536 <= us * 1193182 / 1000000) by (apply Z.div_le_lower_bound; lia). lia.
  - intros Hle. apply wrap_small. split; [apply Z.div_pos; lia|]. apply Z.div_lt_upper_bound; lia.
Qed.

(** ** A board with one I/O APIC *)
Record SimBoard := mkSim { sim_sel : Z; sim_regs : gmap Z Z; sim_other : gmap Z Z; sim_ports : list (Z * Z); sim_leaf : CpuidResult }.
Definition SIM_IO : Z := 0xFFFF8000FEC00000.
Definition SIM_LAPIC : Z := 0xFFFF8000FEE00000.
Definition sim_reg (h : SimBoard) (r : Z) : Z := wrap 32 (default 0 (sim_regs h !! r)).
#[export] Instance sim_chips : Chips SimBoard := {
  inb p h := (0, h);
  outb p v h := mkSim (sim_sel h) (sim_regs h) (sim_other h) (sim_ports h ++ [(p, v)]) (sim_leaf h);
  mmio_read a h := (if a =? SIM_IO + 0x10 then sim_reg h (sim_sel h) else if a =? SIM_LAPIC + APIC_ID then 0x03000000 else default 0 (sim_other h !! a), h);
  mmio_write a v h :=
    if a =? SIM_IO then mkSim v (sim_regs h) (sim_other h) (sim_ports h) (sim_leaf h)
    else if a =? SIM_IO + 0x10 then mkSim (sim_sel h) (<[sim_sel h := Z.ldiff v (chip_bits (sim_sel h))]> (sim_regs h)) (sim_other h) (sim_ports h) (sim_leaf h)
    else mkSim (sim_sel h) (sim_regs h) (<[a := v]> (sim_other h)) (sim_ports h) (sim_leaf h);
  msr_read m h := (if m =? 0x802 then 3 else default 0 (sim_other h !! m), h);
  msr_write m v h := mkSim (sim_sel h) (sim_regs h) (<[m := v]> (sim_other h)) (sim_ports h) (sim_leaf h);
  chip_cpuid leaf h := sim_leaf h;
}.
Definition sim_ioapic : IoApic := mkIoApic 1 SIM_IO 24.
Lemma ldiff_twice x c : Z.ldiff (Z.ldiff x c) c = Z.ldiff x c.
Proof. apply Z.bits_inj'. intros n Hn. rewrite !Z.ldiff_spec. by destruct (Z.testbit x n), (Z.testbit c n). Qed.
#[export] Instance sim_io_laws : IoApicLaws SimBoard (io_base sim_ioapic).
Proof.
  refine {| io_reg h r := Z.ldiff (sim_reg h r) (chip_bits r); io_sel := sim_sel |}.
  - intros h r. apply is_u_ldiff; [lia|]. unfold sim_reg, wrap, is_u. apply Z.mod_pos_bound. lia.
  - intros h r Hr. done.
  - intros h v h' [= <- <-]. split_and!; try done; unfold sim_reg, wrap; apply Z.mod_pos_bound; lia.
  - intros h v q Hv. change (mmio_write (io_base sim_ioapic + 0x10) v h) with
      (mkSim (sim_sel h) (<[sim_sel h := Z.ldiff v (chip_bits (sim_sel h))]> (sim_regs h)) (sim_other h) (sim_ports h) (sim_leaf h)).
    unfold sim_reg. cbn [sim_regs]. destruct (decide (q = sim_sel h)) as [->|Hne]; [|by rewrite lookup_insert_ne].
    rewrite lookup_insert_eq. cbn [default from_option]. rewrite wrap_small by (by apply is_u_ldiff). apply ldiff_twice.
Defined.
Definition sim_manager (mode : ApicMode) : ApicManager := mkManager (mkLapic mode SIM_LAPIC) [sim_ioapic].
Definition sim_board : SimBoard := mkSim 0 ∅ ∅ [] (mkCpuid 0 0 0 0x200).

(** The timer at input 2, as the tables of most machines say: its override does not survive, input 2 has the vector of the cascade. *)
Lemma boot_routes_interrupts_witness :
  exists h', route_all (E := unit) (sim_manager XApic) [(0, 2); (9, 9)] sim_board = (Ok tt, h') /\
    redir sim_ioapic h' 1 = mkRedir 0x21 0x03000000 /\ redir sim_ioapic h' 9 = mkRedir 0x29 0x03000000 /\ redir sim_ioapic h' 2 = mkRedir 0x22 0x03000000.
Proof.
  destruct (boot_routes_interrupts sim_ioapic) with (m := sim_manager XApic) (rest := @nil IoApic) (id := 3) (iso := [(0, 2); (9, 9)]) (h := sim_board)
    as (h' & Hrun & Hall).
  - vm_compute. split; congruence.
  - reflexivity.
  - vm_compute. split; congruence.
  - lia.
  - intros h. exists h. split; reflexivity.
  - repeat constructor.
  - exists h'. split; [exact Hrun|]. rewrite !Hall by (vm_compute; split; congruence). split_and!; reflexivity.
Defined.
Lemma mask_all_masks_witness : exists h', mask_all_irqs (E := unit) (sim_manager XApic) sim_board = (Ok tt, h') /\ low (redir sim_ioapic h' 23) = 0x10000.
Proof.
  destruct (mask_all_masks sim_ioapic ltac:(vm_compute; split; congruence) (E := unit) (sim_manager XApic) sim_board ltac:(reflexivity) ltac:(cbn; lia)) as (h' & Hrun & Hall).
  exists h'. split; [exact Hrun|]. rewrite Hall. reflexivity.
Defined.

(** With the MSRs of the newer mode the number is the whole register, but its upper byte is taken. *)
Example x2apic_id_is_zero : (lapic_id (E := unit) (mkLapic X2Apic 0) sim_board).1 = Ok 0.
Proof. reflexivity. Qed.
(** In legacy mode the end of any interrupt is told to the first controller only. *)
Example legacy_eoi_first_chip : sim_ports (manager_send_eoi (E := unit) (sim_manager LegacyPic) sim_board).2 = [(PIC1_CMD, 0x20)].
Proof. reflexivity. Qed.
