(* ===== verification/BlockDev.v ===== *)
(** * Block devices (zenos-kernel/src/disk/block/mod.rs)

    The trait [BlockDevice] with its default method [read_exact], the laws a device
    keeps, and a device in memory that keeps them. *)
From S2P Require Import Prelude OpenFile Bytes.

Inductive BlockError :=
| BlockReadError | BlockWriteError | BlockSeekError | BlockUnsupported | DeviceNotFound | InvalidGPT.
#[export] Instance BlockError_eq_dec : EqDecision BlockError.
Proof. solve_decision. Defined.

(** [bd_read] returns the number of bytes it put at the front of the buffer, and the buffer. *)
Class BlockDevice (S : Type) := {
  block_size : S -> Z;
  bd_read : bytes -> st S BlockError (Z * bytes);
  bd_write : bytes -> st S BlockError Z;
  bd_seek : SeekFrom -> st S BlockError Z;
  bd_flush : st S BlockError unit;
}.

Section ReadExact.
Context {S : Type} `{BlockDevice S}.

(** The loop of [read_exact]: [buf] is the part still to be filled. *)
Fixpoint read_loop (fuel : nat) (buf : bytes) : st S BlockError bytes :=
  match fuel with
  | O => st_lift Panic
  | Datatypes.S fuel =>
      if Nat.eqb (length buf) 0 then mret []
      else
        '(n, buf') ← bd_read buf;
        if n =? 0 then st_lift (Err BlockReadError)
        else if n <=? Z.of_nat (length buf') then
          rest ← read_loop fuel (drop (Z.to_nat n) buf');
          mret (take (Z.to_nat n) buf' ++ rest)
        else st_lift Panic
  end.

Definition read_exact (buf : bytes) : st S BlockError bytes := read_loop (length buf + 1) buf.
End ReadExact.

(** ** What a device promises: it is a sequence of bytes and a position in it *)

(** The bytes that 48-bit numbers of 512-byte blocks can name. *)
Definition ADDRESSABLE : Z := 2 ^ 57.
Class BlockDeviceLaws (S : Type) `{BlockDevice S} := {
  contents : S -> bytes;
  position_of : S -> Z;
  (** A read inside the device delivers some bytes, at least one, from the position on. *)
  read_inside buf s :
    (0 < length buf)%nat -> 0 <= position_of s -> position_of s + Z.of_nat (length buf) <= Z.of_nat (length (contents s)) ->
    exists n s', bd_read buf s =
        (Ok (Z.of_nat n, sub_bytes (Z.to_nat (position_of s)) n (contents s) ++ drop n buf), s') /\
      (0 < n <= length buf)%nat /\
      contents s' = contents s /\ position_of s' = position_of s + Z.of_nat n /\
      block_size s' = block_size s;
  (** A read that reaches past the end fails, or delivers what there is, or nothing. *)
  read_outside buf s :
    (0 < length buf)%nat -> 0 <= position_of s -> position_of s + Z.of_nat (length buf) <= ADDRESSABLE ->
    Z.of_nat (length (contents s)) < position_of s + Z.of_nat (length buf) ->
    exists s', contents s' = contents s /\
      (bd_read buf s = (Err BlockReadError, s') \/
       exists n buf', bd_read buf s = (Ok (Z.of_nat n, buf'), s') /\ length buf' = length buf /\
         (n = 0%nat \/ position_of s + Z.of_nat n <= Z.of_nat (length (contents s))) /\ position_of s' = position_of s + Z.of_nat n);
  seek_start p s :
    0 <= p -> exists s', bd_seek (Start p) s = (Ok p, s') /\ contents s' = contents s /\ position_of s' = p /\
      block_size s' = block_size s;
  (** A write inside the device replaces the bytes at the position. *)
  write_inside bs s :
    0 <= position_of s -> position_of s + Z.of_nat (length bs) <= Z.of_nat (length (contents s)) ->
    exists s', bd_write bs s = (Ok (Z.of_nat (length bs)), s') /\
      contents s' = take (Z.to_nat (position_of s)) (contents s) ++ bs ++
                    drop (Z.to_nat (position_of s) + length bs) (contents s) /\
      position_of s' = position_of s + Z.of_nat (length bs) /\ block_size s' = block_size s;
}.

(** A read inside the device delivers the whole of a buffer of [n] bytes. *)
Class FullReads (S : Type) `{BlockDeviceLaws S} (n : nat) : Prop := full_read buf (s : S) :
  length buf = n -> 0 <= position_of s ->
  position_of s + Z.of_nat n <= Z.of_nat (length (contents s)) ->
  exists s', bd_read buf s = (Ok (Z.of_nat n, sub_bytes (Z.to_nat (position_of s)) n (contents s)), s') /\
    contents s' = contents s.

(** A buffer keeps its length: it is a [&mut [u8]]. *)
Class KeepsLength (S : Type) `{BlockDevice S} : Prop := read_keeps_length buf (s : S) n buf' s' :
  bd_read buf s = (Ok (n, buf'), s') -> length buf' = length buf.

Lemma read_loop_length {S} `{HK : KeepsLength S} fuel buf s r s' :
  read_loop fuel buf s = (Ok r, s') -> length r = length buf.
Proof.
  revert buf s r. induction fuel as [|fuel IH]; intros buf s r Hr; [done|]. cbn [read_loop] in Hr.
  destruct (Nat.eqb_spec (length buf) 0) as [Hz|Hz]; [by injection Hr as <- <-|].
  apply st_bind_Ok in Hr as ([n buf'] & s1 & Hb & Hr). apply read_keeps_length in Hb.
  destruct (n =? 0); [done|]. destruct (Z.leb_spec n (Z.of_nat (length buf'))) as [Hn|]; [|done].
  apply st_bind_Ok in Hr as (rest & s2 & Hrest & Hr). injection Hr as <- <-. apply IH in Hrest.
  rewrite length_app, length_take, Hrest, length_drop. lia.
Qed.

Section ReadExactSpec.
Context {S : Type} `{HB : BlockDevice S} {HL : BlockDeviceLaws S}.
Implicit Type s : S.

Lemma read_loop_inside fuel buf s :
  0 <= position_of s -> position_of s + Z.of_nat (length buf) <= Z.of_nat (length (contents s)) ->
  (length buf < fuel)%nat ->
  exists s', read_loop fuel buf s =
      (Ok (sub_bytes (Z.to_nat (position_of s)) (length buf) (contents s)), s') /\
    contents s' = contents s /\ position_of s' = position_of s + Z.of_nat (length buf) /\
    block_size s' = block_size s.
Proof.
  revert buf s. induction fuel as [|fuel IH]; intros buf s Hp Hin Hf; [lia|]. cbn [read_loop].
  destruct (Nat.eqb_spec (length buf) 0) as [H0|H0].
  { exists s. rewrite H0, Z.add_0_r. split_and!; try done. }
  destruct (read_inside buf s) as (n & s1 & Hr & Hn & Hc & Hpos & Hbs); [lia..|].
  unfold mbind at 1, st_bind. rewrite Hr. rewrite (proj2 (Z.eqb_neq _ _)) by lia.
  assert (length (sub_bytes (Z.to_nat (position_of s)) n (contents s)) = n) as Hl
    by (apply sub_bytes_length; lia).
  rewrite length_app, Hl, length_drop. rewrite (proj2 (Z.leb_le _ _)) by lia.
  rewrite Nat2Z.id, drop_app_length', take_app_length' by done.
  destruct (IH (drop n buf) s1) as (s' & Hs' & Hc' & Hp' & Hb');
    [lia|rewrite length_drop, Hc; lia|rewrite length_drop; lia|].
  exists s'. unfold mbind, st_bind. rewrite Hs'. split_and!; [|congruence| |congruence].
  - unfold mret, st_ret. do 2 f_equal. rewrite Hc, Hpos, length_drop.
    replace (Z.to_nat (position_of s + Z.of_nat n)) with (Z.to_nat (position_of s) + n)%nat by lia.
    rewrite sub_bytes_split. f_equal. lia.
  - rewrite Hp', Hpos, length_drop. lia.
Qed.

(** Reading past the end of the device is an error, not a short read. *)
Lemma read_loop_past_end fuel buf s :
  0 <= position_of s -> position_of s + Z.of_nat (length buf) <= ADDRESSABLE ->
  Z.of_nat (length (contents s)) < position_of s + Z.of_nat (length buf) -> (length buf < fuel)%nat -> (0 < length buf)%nat ->
  exists s', read_loop fuel buf s = (Err BlockReadError, s') /\ contents s' = contents s.
Proof.
  revert buf s. induction fuel as [|fuel IH]; intros buf s Hp Hlim Hout Hf Hb; [lia|]. cbn [read_loop].
  destruct (Nat.eqb_spec (length buf) 0) as [H0|_]; [lia|].
  destruct (read_outside buf s Hb Hp Hlim Hout) as (s1 & Hc & [Hr|(n & buf' & Hr & Hl & Hn & Hpos)]); unfold mbind at 1, st_bind; rewrite Hr.
  - by exists s1.
  - destruct Hn as [->|Hn]; [by exists s1|]. destruct (Z.eqb_spec (Z.of_nat n) 0) as [|H0]; [by exists s1|]. rewrite Hl, (proj2 (Z.leb_le _ _)), Nat2Z.id by lia.
    destruct (IH (drop n buf') s1) as (s' & Hs' & Hc'); [lia|rewrite length_drop, ?Hc, ?Hpos; lia..|].
    exists s'. unfold mbind, st_bind. rewrite Hs'. split; [done|congruence].
Qed.

(** C34: on a device that keeps its laws, [read_exact] terminates; it fills the buffer with
    exactly the bytes at the position and advances the position by that many, or reports a
    read error when the device ends first. *)
Theorem read_exact_spec buf s :
  0 <= position_of s -> position_of s + Z.of_nat (length buf) <= ADDRESSABLE -> (0 < length buf)%nat ->
  exists s', contents s' = contents s /\
    (position_of s + Z.of_nat (length buf) <= Z.of_nat (length (contents s)) ->
       read_exact buf s = (Ok (sub_bytes (Z.to_nat (position_of s)) (length buf) (contents s)), s') /\
       position_of s' = position_of s + Z.of_nat (length buf)) /\
    (Z.of_nat (length (contents s)) < position_of s + Z.of_nat (length buf) ->
       read_exact buf s = (Err BlockReadError, s')).
Proof.
  intros Hp Hlim Hb. unfold read_exact.
  destruct (decide (position_of s + Z.of_nat (length buf) <= Z.of_nat (length (contents s)))) as [Hin|Hout].
  - destruct (read_loop_inside (length buf + 1) buf s) as (s' & ? & ? & ? & ?); [lia..|].
    exists s'. split_and!; [done|done|lia].
  - destruct (read_loop_past_end (length buf + 1) buf s) as (s' & ? & ?); [lia..|].
    exists s'. split_and!; [done|lia|done].
Qed.

(** Positioning and reading, the way every file system reads its metadata. *)
Definition read_at (p : Z) (n : nat) : st S BlockError bytes :=
  _ ← bd_seek (Start p); read_exact (replicate n 0).

Lemma read_at_eq p n s :
  0 <= p -> p + Z.of_nat n <= Z.of_nat (length (contents s)) ->
  exists s', read_at p n s = (Ok (sub_bytes (Z.to_nat p) n (contents s)), s') /\
    contents s' = contents s /\ block_size s' = block_size s.
Proof.
  intros Hp Hn. destruct (seek_start p s Hp) as (s1 & Hs1 & Hc1 & Hp1 & Hb1).
  destruct (read_loop_inside (length (replicate n 0) + 1) (replicate n 0) s1)
    as (s2 & Hs2 & Hc2 & _ & Hb2); [lia|rewrite length_replicate, Hc1; lia|lia|].
  exists s2. unfold read_at, mbind, st_bind. rewrite Hs1. unfold read_exact. rewrite Hs2.
  rewrite length_replicate, Hc1, Hp1. split_and!; congruence.
Qed.
End ReadExactSpec.

(** ** A device in memory that reads at most one sector at a time *)
Record MemDisk := mkMemDisk { md_bytes : bytes; md_pos : Z }.
#[export] Instance mem_disk : BlockDevice MemDisk := {
  block_size s := 512;
  bd_read buf := fun s =>
    let data := take (Nat.min (length buf) 512) (drop (Z.to_nat (md_pos s)) (md_bytes s)) in
    (Ok (Z.of_nat (length data), data ++ drop (length data) buf),
     mkMemDisk (md_bytes s) (md_pos s + Z.of_nat (length data)));
  bd_write bs := fun s =>
    let p := Z.to_nat (md_pos s) in
    (Ok (Z.of_nat (length bs)),
     mkMemDisk (take p (md_bytes s) ++ bs ++ drop (p + length bs) (md_bytes s))
       (md_pos s + Z.of_nat (length bs)));
  bd_seek from := fun s =>
    let p := match from with Start p => p | End_ o => Z.of_nat (length (md_bytes s)) + o
                           | Current o => md_pos s + o end in
    (Ok p, mkMemDisk (md_bytes s) p);
  bd_flush := mret tt;
}.
#[export] Instance mem_disk_laws : BlockDeviceLaws MemDisk.
Proof.
  refine {| contents := md_bytes; position_of := md_pos |}.
  - intros buf s Hb Hp Hin.
    set (n := Nat.min (length buf) 512).
    assert (length (take n (drop (Z.to_nat (md_pos s)) (md_bytes s))) = n) as Hl by (rewrite length_take, length_drop; lia).
    exists n, (mkMemDisk (md_bytes s) (md_pos s + Z.of_nat n)). split; [|split_and!; try done; cbn in *; lia].
    cbn [bd_read mem_disk]. fold n. rewrite Hl. reflexivity.
  - intros buf s Hb Hp Hlim Hout. set (data := take (Nat.min (length buf) 512) (drop (Z.to_nat (md_pos s)) (md_bytes s))).
    assert (length data = Nat.min (Nat.min (length buf) 512) (length (md_bytes s) - Z.to_nat (md_pos s))) as Hl by (unfold data; rewrite length_take, length_drop; lia).
    exists (mkMemDisk (md_bytes s) (md_pos s + Z.of_nat (length data))). split; [done|]. right. exists (length data), (data ++ drop (length data) buf). split_and!; [done|rewrite length_app, length_drop; lia| |done].
    cbn in Hp. destruct (decide (length data = 0%nat)); [by left|right; lia].
  - intros p s Hp. eexists. done.
  - intros bs s Hp Hin. eexists. done.
Defined.

#[export] Instance mem_disk_keeps_length : KeepsLength MemDisk.
Proof.
  intros buf s n buf' s' [= <- <- <-]. rewrite length_app, !length_take, !length_drop. lia.
Qed.

Definition sample_disk : MemDisk := mkMemDisk (seqZ 0 16) 3.

Lemma read_exact_spec_witness :
  (read_exact [0; 0; 0; 0] sample_disk).1 = Ok [3; 4; 5; 6].
Proof.
  destruct (read_exact_spec [0; 0; 0; 0] sample_disk) as (s' & _ & Hin & _);
    [vm_compute; congruence|vm_compute; congruence|cbn; lia|].
  destruct Hin as [-> _]; [vm_compute; congruence|]. reflexivity.
Defined.
