(* ===== verification/AhciDevice.v ===== *)
(** * The disk as a block device (zenos-kernel/src/disk/block/ahci.rs)

    Reads and writes of bytes as transfers of whole sectors, at most eight at a time, through a
    buffer of their own; a part of a sector is written by reading the sector first.  The
    commands of the port and the buffers for them are a class. *)
From S2P Require Import Prelude PageAlloc Bytes OpenFile BlockDev.
#[local] Open Scope list_scope.

Definition SECTOR_SIZE : Z := 512.
Record PortInfo := mkPortInfo { port_base : Z; port_phys_offset : Z; virt_cmd_list : Z; virt_cmd_tables_base : Z }.
#[export] Instance PortInfo_eq_dec : EqDecision PortInfo.
Proof. solve_decision. Defined.

(** [kalloc_dma_pages] gives a buffer with its bytes; a command returns the buffer. *)
Class SectorPort (P : Type) := {
  dma_alloc : Z -> st P unit (Z * list Z);
  dma_free : Z -> Z -> st P unit unit;
  read_sectors : PortInfo -> Z -> list Z -> Z -> st P unit (list Z);
  write_sectors : PortInfo -> Z -> list Z -> Z -> st P unit unit;
}.
Record AhciBlockDevice (P : Type) := mkAhci { ahci_cursor : Z; ahci_port : P }.
Arguments mkAhci {P}.
Arguments ahci_cursor {P}.
Arguments ahci_port {P}.

Section Device.
Context {P : Type} `{SectorPort P}.
(** The list of initialised ports, and the base of the one the device is bound to. *)
Context (PORTS : option (list PortInfo)) (base : Z).
Abbreviation dev_st := (st (AhciBlockDevice P) BlockError).

Definition on_port {A} (e : BlockError) (m : st P unit A) : dev_st A := fun s =>
  match m (ahci_port s) with
  | (Ok a, p) => (Ok a, mkAhci (ahci_cursor s) p)
  | (Err _, p) => (Err e, mkAhci (ahci_cursor s) p)
  | (Panic, p) => (Panic, mkAhci (ahci_cursor s) p)
  end.
Definition find_port : option PortInfo := ps ← PORTS; List.find (fun p => port_base p =? base) ps.
(** [kfree_dma_pages(ubuf).ok()]. *)
Definition drop_buffer (addr len : Z) : dev_st unit := fun s =>
  match dma_free addr len (ahci_port s) with
  | (Panic, p) => (Panic, mkAhci (ahci_cursor s) p)
  | (_, p) => (Ok tt, mkAhci (ahci_cursor s) p)
  end.
Definition sectors_for_bytes (bytes : Z) : Z := wrap 16 ((bytes + SECTOR_SIZE - 1) / SECTOR_SIZE).
(** A command that failed: the buffer is freed and the call ends. *)
Definition or_fail {A} (e : BlockError) (addr len : Z) (m : dev_st A) : dev_st A := fun s =>
  match m s with
  | (Err _, s) => (_ ← on_port e (dma_free addr len); st_lift (Err e)) s
  | r => r
  end.

(** One round of a loop: the port and the buffer for [chunk] bytes at [sector_offset]. *)
Definition get_port (addr len : Z) : dev_st PortInfo :=
  match find_port with
  | Some p => mret p
  | None => _ ← drop_buffer addr len; st_lift (Err DeviceNotFound)
  end.
Definition read_chunk (start_lba sector_offset chunk_len : Z) : dev_st (list Z) :=
  let sectors := sectors_for_bytes (sector_offset + chunk_len) in
  let size := sectors * SECTOR_SIZE in
  '(addr, ubuf) ← on_port BlockReadError (dma_alloc size);
  info ← get_port addr size;
  ubuf ← or_fail BlockReadError addr size (on_port BlockReadError (read_sectors info start_lba ubuf sectors));
  data ← st_lift (slice (Z.to_nat sector_offset) (Z.to_nat chunk_len) ubuf);
  _ ← on_port BlockReadError (dma_free addr size);
  mret data.
Definition write_chunk (start_lba sector_offset : Z) (chunk : list Z) : dev_st unit :=
  let chunk_len := Z.of_nat (length chunk) in
  let sectors := sectors_for_bytes (sector_offset + chunk_len) in
  let size := sectors * SECTOR_SIZE in
  '(addr, ubuf) ← on_port BlockWriteError (dma_alloc size);
  info ← get_port addr size;
  ubuf ← (if negb (sector_offset =? 0) || negb (chunk_len =? size)
          then or_fail BlockWriteError addr size (on_port BlockWriteError (read_sectors info start_lba ubuf sectors))
          else mret ubuf);
  ubuf ← st_lift (put_slice (Z.to_nat sector_offset) chunk ubuf);
  _ ← or_fail BlockWriteError addr size (on_port BlockWriteError (write_sectors info start_lba ubuf sectors));
  on_port BlockWriteError (dma_free addr size).
(** Where the next round starts and how many of the [left] bytes it takes. *)
Definition next_chunk (total left : Z) : dev_st (Z * Z * Z) := fun s =>
  (match uadd 64 (ahci_cursor s) total with
   | Ok current =>
       let sector_offset := current mod SECTOR_SIZE in
       Ok (current / SECTOR_SIZE, sector_offset, Z.min left (saturating_sub PAGE_4K sector_offset))
   | Err e => Err e
   | Panic => Panic
   end, s).
(** The loops: [left] bytes to read, [buf] still to write. *)
Fixpoint read_chunks (fuel : nat) (total left : Z) : dev_st (list Z) :=
  match fuel with
  | O => st_lift Panic
  | S fuel =>
      if 0 <? left then
        '(start_lba, sector_offset, chunk_len) ← next_chunk total left;
        if chunk_len =? 0 then mret []
        else
          data ← read_chunk start_lba sector_offset chunk_len;
          rest ← read_chunks fuel (total + chunk_len) (left - chunk_len);
          mret (data ++ rest)
      else mret []
  end.
Fixpoint write_chunks (fuel : nat) (total : Z) (buf : list Z) : dev_st unit :=
  match fuel with
  | O => st_lift Panic
  | S fuel =>
      if 0 <? Z.of_nat (length buf) then
        '(start_lba, sector_offset, chunk_len) ← next_chunk total (Z.of_nat (length buf));
        _ ← write_chunk start_lba sector_offset (take (Z.to_nat chunk_len) buf);
        write_chunks fuel (total + chunk_len) (drop (Z.to_nat chunk_len) buf)
      else mret tt
  end.
Definition advance (n : Z) : dev_st unit := fun s =>
  match uadd 64 (ahci_cursor s) n with Ok c => (Ok tt, mkAhci c (ahci_port s)) | Err e => (Err e, s) | Panic => (Panic, s) end.

Definition ahci_read (buf : list Z) : dev_st (Z * list Z) :=
  data ← read_chunks (length buf + 1) 0 (Z.of_nat (length buf));
  _ ← advance (Z.of_nat (length data));
  mret (Z.of_nat (length data), data ++ drop (length data) buf).
Definition ahci_write (buf : list Z) : dev_st Z :=
  _ ← write_chunks (length buf + 1) 0 buf;
  _ ← advance (Z.of_nat (length buf));
  mret (Z.of_nat (length buf)).
Definition ahci_seek (from : SeekFrom) : dev_st Z := fun s =>
  let set c := (Ok c, mkAhci c (ahci_port s)) in
  match from with
  | Start offset => set offset
  | End_ _ => (Err BlockUnsupported, s)
  | Current offset =>
      if offset <? 0 then if ahci_cursor s <? - offset then (Err BlockSeekError, s) else set (ahci_cursor s + offset)
      else if 2 ^ 64 <=? ahci_cursor s + offset then (Err BlockSeekError, s) else set (ahci_cursor s + offset)
  end.
#[export] Instance ahci_device : BlockDevice (AhciBlockDevice P) := {
  block_size s := SECTOR_SIZE;
  bd_read := ahci_read;
  bd_write := ahci_write;
  bd_seek := ahci_seek;
  bd_flush := mret tt;
}.
End Device.

(** ** What the port promises: it reads and writes the sectors of a disk

    A buffer and a command need a page each; [room] is the number of pages that can be had. *)
Class SectorPortLaws (P : Type) `{SectorPort P} (info : PortInfo) := {
  disk : P -> list Z;
  buffer : P -> Z -> Prop;
  room : P -> nat -> Prop;
  room_le p n k : room p n -> (k <= n)%nat -> room p k;
  disk_whole p : exists n, length (disk p) = (512 * n)%nat /\ Z.of_nat (length (disk p)) <= ADDRESSABLE;
  dma_alloc_ok n p r : 0 < n <= PAGE_4K -> room p (S r) ->
    exists a buf p', dma_alloc n p = (Ok (a, buf), p') /\ length buf = Z.to_nat n /\ disk p' = disk p /\ buffer p' a /\ room p' r;
  dma_free_ok a n p : 0 < n <= PAGE_4K -> buffer p a -> exists p', dma_free a n p = (Ok tt, p') /\ disk p' = disk p /\ forall r, room p r -> room p' r;
  read_sectors_ok lba buf n p r : room p (S r) -> 0 <= lba -> 0 < n <= 8 -> Z.of_nat (length buf) = n * 512 -> (lba + n) * 512 <= Z.of_nat (length (disk p)) ->
    exists p', read_sectors info lba buf n p = (Ok (sub_bytes (Z.to_nat (lba * 512)) (Z.to_nat (n * 512)) (disk p)), p') /\ disk p' = disk p /\
      room p' r /\ forall a, buffer p a -> buffer p' a;
  read_sectors_bad lba buf n p r : room p (S r) -> 0 <= lba -> 0 < n <= 8 -> Z.of_nat (length buf) = n * 512 ->
    (lba + n) * 512 <= ADDRESSABLE -> Z.of_nat (length (disk p)) < (lba + n) * 512 ->
    exists p', read_sectors info lba buf n p = (Err tt, p') /\ disk p' = disk p /\ room p' r /\ forall a, buffer p a -> buffer p' a;
  write_sectors_ok lba buf n p r : room p (S r) -> 0 <= lba -> 0 < n <= 8 -> Z.of_nat (length buf) = n * 512 -> (lba + n) * 512 <= Z.of_nat (length (disk p)) ->
    exists p', write_sectors info lba buf n p = (Ok tt, p') /\ disk p' = put (Z.to_nat (lba * 512)) buf (disk p) /\
      room p' r /\ forall a, buffer p a -> buffer p' a;
}.
Lemma st_bind_Err {S E A B} (m : st S E A) (f : A -> st S E B) s e s' : m s = (Err e, s') -> (m ≫= f) s = (Err e, s').
Proof. intros Hm. unfold mbind, st_bind. by rewrite Hm. Qed.

Section DeviceLaws.
Context {P : Type} `{HP : SectorPort P} (info : PortInfo) {HPL : SectorPortLaws P info}.
Context (PORTS : option (list PortInfo)) (base : Z) (Hport : find_port PORTS base = Some info).
Implicit Types (s : AhciBlockDevice P) (p : P).

Lemma on_port_eq {A} e (m : st P unit A) c p a p' :
  m p = (Ok a, p') -> on_port e m (mkAhci c p) = (Ok a, mkAhci c p').
Proof. intros Hm. unfold on_port. cbn. by rewrite Hm. Qed.

(** The whole sectors around [n] bytes at offset [o] of a sector. *)
Lemma sectors_bounds o n :
  0 <= o < 512 -> 0 < n -> o + n <= 4096 ->
  0 < sectors_for_bytes (o + n) <= 8 /\ o + n <= sectors_for_bytes (o + n) * 512 < o + n + 512.
Proof.
  intros Ho Hn Hon. unfold sectors_for_bytes, SECTOR_SIZE. rewrite wrap_small; unfold is_u; [|change (2 ^ 16) with 65536];
    pose proof (Z.div_mod (o + n + 512 - 1) 512 ltac:(lia)); pose proof (Z.mod_pos_bound (o + n + 512 - 1) 512 ltac:(lia)); lia.
Qed.
(** A disk of whole sectors holds the sectors around the bytes when it holds the bytes. *)
Lemma sectors_inside p lba o n :
  0 <= o < 512 -> 0 < n -> o + n <= 4096 -> 0 <= lba ->
  (lba + sectors_for_bytes (o + n)) * 512 <= Z.of_nat (length (disk p)) <-> lba * 512 + o + n <= Z.of_nat (length (disk p)).
Proof using HPL.
  intros Ho Hn Hon Hl. destruct (sectors_bounds o n) as [? ?]; [lia..|]. destruct (disk_whole p) as (k & Hk & _). lia.
Qed.

Lemma get_port_eq a n s : get_port PORTS base a n s = (Ok info, s).
Proof using Hport. unfold get_port. by rewrite Hport. Qed.
Lemma or_fail_Ok {A} e a n (m : st (AhciBlockDevice P) BlockError A) s r s' : m s = (Ok r, s') -> or_fail e a n m s = (Ok r, s').
Proof. intros Hm. unfold or_fail. by rewrite Hm. Qed.

Lemma read_chunk_inside lba o n c p r :
  room p (2 + r) -> 0 <= lba -> 0 <= o < 512 -> 0 < n -> o + n <= 4096 -> lba * 512 + o + n <= Z.of_nat (length (disk p)) ->
  exists p', read_chunk PORTS base lba o n (mkAhci c p) = (Ok (sub_bytes (Z.to_nat (lba * 512 + o)) (Z.to_nat n) (disk p)), mkAhci c p') /\ disk p' = disk p /\ room p' r.
Proof using Hport HPL.
  intros Hroom Hl Ho Hn Hon Hin. destruct (sectors_bounds o n) as [Hs Hb]; [lia..|].
  pose proof (proj2 (sectors_inside p lba o n ltac:(lia) ltac:(lia) ltac:(lia) ltac:(lia)) Hin) as Hin'.
  unfold read_chunk. change SECTOR_SIZE with 512. set (k := sectors_for_bytes (o + n)) in *.
  destruct (dma_alloc_ok (k * 512) p _ ltac:(unfold PAGE_4K; lia) Hroom) as (a & buf & p1 & H1 & Hlen & Hd1 & Hbuf & Hr1).
  destruct (read_sectors_ok lba buf k p1 _ Hr1) as (p2 & H2 & Hd2 & Hr2 & Hk2); [lia..|by rewrite Hd1|].
  destruct (dma_free_ok a (k * 512) p2) as (p3 & H3 & Hd3 & Hr3); [unfold PAGE_4K; lia|auto|].
  exists p3. split; [|split; [congruence|auto]].
  rewrite (st_bind_eq _ _ _ _ _ (on_port_eq _ _ _ _ _ _ H1)). cbn beta iota.
  rewrite (st_bind_eq _ _ _ _ _ (get_port_eq _ _ _)).
  rewrite (st_bind_eq _ _ _ _ _ (or_fail_Ok _ _ _ _ _ _ _ (on_port_eq _ _ _ _ _ _ H2))).
  erewrite st_lift_bind by (apply slice_Ok; rewrite sub_bytes_length; [lia|rewrite Hd1; lia]).
  rewrite (st_bind_eq _ _ _ _ _ (on_port_eq _ _ _ _ _ _ H3)).
  unfold mret, st_ret. do 2 f_equal. rewrite sub_bytes_sub_bytes, Hd1 by lia. f_equal. lia.
Qed.

Lemma read_chunk_outside lba o n c p r :
  room p (2 + r) -> 0 <= lba -> 0 <= o < 512 -> 0 < n -> o + n <= 4096 -> lba * 512 + o + n <= ADDRESSABLE -> Z.of_nat (length (disk p)) < lba * 512 + o + n ->
  exists p', read_chunk PORTS base lba o n (mkAhci c p) = (Err BlockReadError, mkAhci c p') /\ disk p' = disk p /\ room p' r.
Proof using Hport HPL.
  intros Hroom Hl Ho Hn Hon Hlim Hout. destruct (sectors_bounds o n) as [Hs Hb]; [lia..|].
  pose proof (sectors_inside p lba o n ltac:(lia) ltac:(lia) ltac:(lia) ltac:(lia)) as Hin.
  unfold read_chunk. change SECTOR_SIZE with 512. set (k := sectors_for_bytes (o + n)) in *.
  destruct (dma_alloc_ok (k * 512) p _ ltac:(unfold PAGE_4K; lia) Hroom) as (a & buf & p1 & H1 & Hlen & Hd1 & Hbuf & Hr1).
  destruct (read_sectors_bad lba buf k p1 _ Hr1) as (p2 & H2 & Hd2 & Hr2 & Hk2); [lia..|unfold ADDRESSABLE in *; lia|rewrite Hd1; lia|].
  destruct (dma_free_ok a (k * 512) p2) as (p3 & H3 & Hd3 & Hr3); [unfold PAGE_4K; lia|auto|].
  exists p3. split; [|split; [congruence|auto]].
  rewrite (st_bind_eq _ _ _ _ _ (on_port_eq _ _ _ _ _ _ H1)). cbn beta iota.
  rewrite (st_bind_eq _ _ _ _ _ (get_port_eq _ _ _)).
  unfold mbind at 1, st_bind at 1, or_fail. unfold on_port at 1. cbn [ahci_port ahci_cursor]. rewrite H2.
  by rewrite (st_bind_eq _ _ _ _ _ (on_port_eq _ _ _ _ _ _ H3)).
Qed.

Lemma write_chunk_inside lba o bs c p r :
  room p (3 + r) -> 0 <= lba -> 0 <= o < 512 -> (0 < length bs)%nat -> o + Z.of_nat (length bs) <= 4096 ->
  lba * 512 + o + Z.of_nat (length bs) <= Z.of_nat (length (disk p)) ->
  exists p', write_chunk PORTS base lba o bs (mkAhci c p) = (Ok tt, mkAhci c p') /\ disk p' = put (Z.to_nat (lba * 512 + o)) bs (disk p) /\ room p' r.
Proof using Hport HPL.
  intros Hroom Hl Ho Hn Hon Hin. destruct (sectors_bounds o (Z.of_nat (length bs))) as [Hs Hb]; [lia..|].
  pose proof (proj2 (sectors_inside p lba o (Z.of_nat (length bs)) ltac:(lia) ltac:(lia) ltac:(lia) ltac:(lia)) Hin) as Hin'.
  unfold write_chunk. change SECTOR_SIZE with 512. set (k := sectors_for_bytes (o + _)) in *.
  destruct (dma_alloc_ok (k * 512) p _ ltac:(unfold PAGE_4K; lia) Hroom) as (a & buf & p1 & H1 & Hlen & Hd1 & Hbuf & Hr1).
  set (old := sub_bytes (Z.to_nat (lba * 512)) (Z.to_nat (k * 512)) (disk p)).
  assert (length old = Z.to_nat (k * 512)) as Hold by (apply sub_bytes_length; lia).
  assert (exists buf2 p2, (if negb (o =? 0) || negb (Z.of_nat (length bs) =? k * 512)
      then or_fail BlockWriteError a (k * 512) (on_port BlockWriteError (read_sectors info lba buf k)) else mret buf) (mkAhci c p1) = (Ok buf2, mkAhci c p2) /\
      length buf2 = Z.to_nat (k * 512) /\ disk p2 = disk p /\ buffer p2 a /\ room p2 (1 + r) /\ put (Z.to_nat o) bs buf2 = put (Z.to_nat o) bs old) as (buf2 & p2 & H2 & Hl2 & Hd2 & Hb2 & Hr2 & Hput).
  { destruct (negb (o =? 0) || _) eqn:Hc.
    - destruct (read_sectors_ok lba buf k p1 _ Hr1) as (p2 & H2 & Hd2 & Hr2 & Hk2); [lia..|by rewrite Hd1|]. rewrite Hd1 in H2. fold old in H2.
      exists old, p2. split_and!; [|done|congruence|auto|done|done]. by apply or_fail_Ok, on_port_eq.
    - apply orb_false_iff in Hc as [Hc1%negb_false_iff%Z.eqb_eq Hc2%negb_false_iff%Z.eqb_eq].
      exists buf, p1. split_and!; [done|done|done|done|by apply (room_le _ _ _ Hr1); lia|]. rewrite Hc1. change (Z.to_nat 0) with 0%nat. by rewrite !put_whole by lia. }
  destruct (write_sectors_ok lba (put (Z.to_nat o) bs old) k p2 _ Hr2) as (p3 & H3 & Hd3 & Hr3 & Hk3); [lia|lia|rewrite length_put; lia|by rewrite Hd2|].
  destruct (dma_free_ok a (k * 512) p3) as (p4 & H4 & Hd4 & Hr4); [unfold PAGE_4K; lia|auto|].
  exists p4. split; [|split; [|auto]].
  - rewrite (st_bind_eq _ _ _ _ _ (on_port_eq _ _ _ _ _ _ H1)). cbn beta iota.
    rewrite (st_bind_eq _ _ _ _ _ (get_port_eq _ _ _)). rewrite (st_bind_eq _ _ _ _ _ H2).
    rewrite (st_lift_bind _ _ _ (put (Z.to_nat o) bs old)) by (rewrite put_slice_put by lia; by rewrite Hput).
    rewrite (st_bind_eq _ _ _ _ _ (or_fail_Ok _ _ _ _ _ _ _ (on_port_eq _ _ _ _ _ _ H3))). by apply on_port_eq.
  - rewrite Hd4, Hd3, Hd2. unfold old. rewrite put_put_in by lia. f_equal. lia.
Qed.

(** ** The loops *)
Lemma next_chunk_eq total left c p :
  is_u 64 (c + total) -> next_chunk total left (mkAhci c p) =
    (Ok ((c + total) / 512, (c + total) mod 512, Z.min left (4096 - (c + total) mod 512)), mkAhci c p).
Proof.
  intros Hu. unfold next_chunk. cbn [ahci_cursor]. rewrite uadd_eq by apply Hu. unfold saturating_sub, PAGE_4K, SECTOR_SIZE.
  pose proof (Z.mod_pos_bound (c + total) 512 ltac:(lia)). do 3 f_equal. lia.
Qed.
Lemma chunk_here x left : 0 <= x -> 0 < left -> let o := x mod 512 in let n := Z.min left (4096 - o) in
  0 <= x / 512 /\ 0 <= o < 512 /\ 0 < n <= left /\ o + n <= 4096 /\ x / 512 * 512 + o = x.
Proof.
  intros Hx Hl o n. pose proof (Z.mod_pos_bound x 512 ltac:(lia)). pose proof (Z.div_mod x 512 ltac:(lia)).
  pose proof (Z.div_pos x 512 Hx ltac:(lia)). unfold n, o. lia.
Qed.

Lemma read_chunks_inside fuel total left c p r :
  room p (2 * Z.to_nat left + r) -> 0 <= c + total -> 0 <= left < Z.of_nat fuel -> c + total + left <= Z.of_nat (length (disk p)) ->
  exists p', read_chunks PORTS base fuel total left (mkAhci c p) =
    (Ok (sub_bytes (Z.to_nat (c + total)) (Z.to_nat left) (disk p)), mkAhci c p') /\ disk p' = disk p /\ room p' r.
Proof using Hport HPL.
  revert total left p. induction fuel as [|fuel IH]; intros total left p Hroom Hx Hf Hin; [lia|]. cbn [read_chunks].
  destruct (Z.ltb_spec 0 left) as [Hl|Hl]. 2:{ exists p. replace left with 0 in * by lia. done. }
  destruct (disk_whole p) as (_ & _ & Hmax).
  rewrite (st_bind_eq _ _ _ _ _ (next_chunk_eq total _ c p ltac:(unfold is_u, ADDRESSABLE in *; lia))). cbn beta iota.
  destruct (chunk_here (c + total) left Hx Hl) as (Hlba & Ho & Hn & Hon & Heq). set (n := Z.min _ _) in *.
  rewrite (proj2 (Z.eqb_neq n 0)) by lia.
  destruct (read_chunk_inside ((c + total) / 512) ((c + total) mod 512) n c p (2 * Z.to_nat (left - n) + r)) as (p1 & H1 & Hd1 & Hr1); [apply (room_le _ _ _ Hroom); lia|lia..|].
  rewrite (st_bind_eq _ _ _ _ _ H1).
  destruct (IH (total + n) (left - n) p1 Hr1) as (p2 & H2 & Hd2 & Hr2); [lia..|rewrite Hd1; lia|].
  rewrite (st_bind_eq _ _ _ _ _ H2). exists p2. split; [|split; [congruence|done]].
  unfold mret, st_ret. do 2 f_equal. rewrite Heq, Hd1.
  replace (Z.to_nat (c + (total + n))) with (Z.to_nat (c + total) + Z.to_nat n)%nat by lia.
  rewrite sub_bytes_split. f_equal. lia.
Qed.

Lemma read_chunks_outside fuel total left c p r :
  room p (2 * Z.to_nat left + r) -> 0 <= c + total -> c + total + left <= ADDRESSABLE -> 0 < left < Z.of_nat fuel -> Z.of_nat (length (disk p)) < c + total + left ->
  exists p', read_chunks PORTS base fuel total left (mkAhci c p) = (Err BlockReadError, mkAhci c p') /\ disk p' = disk p /\ room p' r.
Proof using Hport HPL.
  revert total left p. induction fuel as [|fuel IH]; intros total left p Hroom Hx Hlim Hf Hout; [lia|]. cbn [read_chunks].
  destruct (Z.ltb_spec 0 left) as [Hl|Hl]; [|lia]. destruct (disk_whole p) as (_ & _ & Hmax).
  rewrite (st_bind_eq _ _ _ _ _ (next_chunk_eq total _ c p ltac:(unfold is_u, ADDRESSABLE in *; lia))). cbn beta iota.
  destruct (chunk_here (c + total) left Hx Hl) as (Hlba & Ho & Hn & Hon & Heq). set (n := Z.min _ _) in *.
  rewrite (proj2 (Z.eqb_neq n 0)) by lia.
  destruct (decide (c + total + n <= Z.of_nat (length (disk p)))) as [Hin|Hbad].
  - destruct (read_chunk_inside ((c + total) / 512) ((c + total) mod 512) n c p (2 * Z.to_nat (left - n) + r)) as (p1 & H1 & Hd1 & Hr1); [apply (room_le _ _ _ Hroom); lia|lia..|].
    rewrite (st_bind_eq _ _ _ _ _ H1).
    destruct (IH (total + n) (left - n) p1 Hr1) as (p2 & H2 & Hd2 & Hr2); [lia..|rewrite Hd1; lia|].
    exists p2. split; [|split; [congruence|done]]. by apply st_bind_Err.
  - destruct (read_chunk_outside ((c + total) / 512) ((c + total) mod 512) n c p r) as (p1 & H1 & Hd1 & Hr1); [apply (room_le _ _ _ Hroom); lia|lia..|].
    exists p1. split; [|done]. by apply st_bind_Err.
Qed.

Lemma write_chunks_inside fuel total bs c p r :
  room p (3 * length bs + r) -> 0 <= c + total -> Z.of_nat (length bs) < Z.of_nat fuel -> c + total + Z.of_nat (length bs) <= Z.of_nat (length (disk p)) ->
  exists p', write_chunks PORTS base fuel total bs (mkAhci c p) = (Ok tt, mkAhci c p') /\ disk p' = put (Z.to_nat (c + total)) bs (disk p) /\ room p' r.
Proof using Hport HPL.
  revert total bs p. induction fuel as [|fuel IH]; intros total bs p Hroom Hx Hf Hin; [lia|]. cbn [write_chunks].
  destruct (Z.ltb_spec 0 (Z.of_nat (length bs))) as [Hl|Hl].
  2:{ exists p. split; [done|]. destruct bs; [|cbn in Hl; lia]. unfold put. cbn [length app]. by rewrite Nat.add_0_r, take_drop. }
  destruct (disk_whole p) as (_ & _ & Hmax).
  rewrite (st_bind_eq _ _ _ _ _ (next_chunk_eq total _ c p ltac:(unfold is_u, ADDRESSABLE in *; lia))). cbn beta iota.
  destruct (chunk_here (c + total) _ Hx Hl) as (Hlba & Ho & Hn & Hon & Heq). set (n := Z.min _ _) in *.
  assert (length (take (Z.to_nat n) bs) = Z.to_nat n) as Ht by (rewrite length_take; lia).
  destruct (write_chunk_inside ((c + total) / 512) ((c + total) mod 512) (take (Z.to_nat n) bs) c p (3 * length (drop (Z.to_nat n) bs) + r)) as (p1 & H1 & Hd1 & Hr1); [apply (room_le _ _ _ Hroom); rewrite length_drop; lia|lia..|].
  rewrite (st_bind_eq _ _ _ _ _ H1). rewrite Heq in Hd1.
  assert (length (disk p1) = length (disk p)) as Hlen by (rewrite Hd1, length_put; lia).
  destruct (IH (total + n) (drop (Z.to_nat n) bs) p1 Hr1) as (p2 & H2 & Hd2 & Hr2); [lia|rewrite length_drop; lia..|].
  exists p2. split; [done|]. split; [|done]. rewrite Hd2, Hd1.
  replace (Z.to_nat (c + (total + n))) with (Z.to_nat (c + total) + length (take (Z.to_nat n) bs))%nat by lia.
  rewrite put_app, take_drop by (rewrite length_drop; lia). done.
Qed.

(** ** The device keeps the laws of a block device *)
Lemma advance_eq n c p : c + n < 2 ^ 64 -> advance n (mkAhci c p) = (Ok tt, mkAhci (c + n) p).
Proof. intros Hc. unfold advance. cbn [ahci_cursor ahci_port]. by rewrite uadd_eq. Qed.

Lemma ahci_read_inside buf c p r :
  room p (2 * length buf + r) -> 0 <= c -> c + Z.of_nat (length buf) <= Z.of_nat (length (disk p)) ->
  exists p', ahci_read PORTS base buf (mkAhci c p) =
    (Ok (Z.of_nat (length buf), sub_bytes (Z.to_nat c) (length buf) (disk p)), mkAhci (c + Z.of_nat (length buf)) p') /\ disk p' = disk p /\ room p' r.
Proof using Hport HPL.
  intros Hroom Hc Hin. destruct (disk_whole p) as (_ & _ & Hmax).
  destruct (read_chunks_inside (length buf + 1) 0 (Z.of_nat (length buf)) c p r) as (p' & H1 & Hd); [by rewrite Nat2Z.id|lia..|].
  rewrite Z.add_0_r, Nat2Z.id in H1. exists p'. split; [|done]. unfold ahci_read. rewrite (st_bind_eq _ _ _ _ _ H1).
  rewrite sub_bytes_length by lia. rewrite (st_bind_eq _ _ _ _ _ (advance_eq (Z.of_nat (length buf)) c p' ltac:(unfold ADDRESSABLE in *; lia))).
  unfold mret, st_ret. by rewrite drop_all, app_nil_r.
Qed.
Lemma ahci_write_inside bs c p r :
  room p (3 * length bs + r) -> 0 <= c -> c + Z.of_nat (length bs) <= Z.of_nat (length (disk p)) ->
  exists p', ahci_write PORTS base bs (mkAhci c p) = (Ok (Z.of_nat (length bs)), mkAhci (c + Z.of_nat (length bs)) p') /\
    disk p' = put (Z.to_nat c) bs (disk p) /\ room p' r.
Proof using Hport HPL.
  intros Hroom Hc Hin. destruct (disk_whole p) as (_ & _ & Hmax).
  destruct (write_chunks_inside (length bs + 1) 0 bs c p r) as (p' & H1 & Hd); [done|lia..|].
  rewrite Z.add_0_r in Hd. exists p'. split; [|done]. unfold ahci_write. rewrite (st_bind_eq _ _ _ _ _ H1).
  by rewrite (st_bind_eq _ _ _ _ _ (advance_eq (Z.of_nat (length bs)) c p' ltac:(unfold ADDRESSABLE in *; lia))).
Qed.
Lemma ahci_read_outside buf c p r :
  room p (2 * length buf + r) -> 0 <= c -> c + Z.of_nat (length buf) <= ADDRESSABLE -> (0 < length buf)%nat -> Z.of_nat (length (disk p)) < c + Z.of_nat (length buf) ->
  exists p', ahci_read PORTS base buf (mkAhci c p) = (Err BlockReadError, mkAhci c p') /\ disk p' = disk p /\ room p' r.
Proof using Hport HPL.
  intros Hroom Hc Hlim Hb Hout. destruct (read_chunks_outside (length buf + 1) 0 (Z.of_nat (length buf)) c p r) as (p' & H1 & Hd); [by rewrite Nat2Z.id|lia..|].
  exists p'. split; [|done]. by apply st_bind_Err.
Qed.

(** As long as pages can be had. *)
Definition ahci_device_laws (Hroom : forall p n, room p n) : @BlockDeviceLaws (AhciBlockDevice P) (ahci_device PORTS base).
Proof using Hport HPL.
  refine (@Build_BlockDeviceLaws _ (ahci_device PORTS base) (fun s => disk (ahci_port s)) ahci_cursor _ _ _ _).
  - intros buf [c p] Hb Hc Hin. destruct (ahci_read_inside buf c p 0 (Hroom _ _) Hc Hin) as (p' & Hr & Hd & _).
    exists (length buf), (mkAhci (c + Z.of_nat (length buf)) p'). split_and!; try done. cbn. by rewrite Hr, drop_all, app_nil_r.
  - intros buf [c p] Hb Hc Hlim Hout. destruct (ahci_read_outside buf c p 0 (Hroom _ _) Hc Hlim Hb Hout) as (p' & Hr & Hd & _). exists (mkAhci c p'). auto.
  - intros x [c p] Hx. exists (mkAhci x p). done.
  - intros bs [c p] Hc Hin. destruct (ahci_write_inside bs c p 0 (Hroom _ _) Hc Hin) as (p' & Hr & Hd & _). by exists (mkAhci (c + Z.of_nat (length bs)) p').
Defined.
Lemma ahci_full_reads (Hroom : forall p n, room p n) n : @FullReads _ (ahci_device PORTS base) (ahci_device_laws Hroom) n.
Proof using Hport HPL.
  intros buf [c p] Hb Hc Hin. cbn in *. destruct (ahci_read_inside buf c p 0 (Hroom _ _) Hc) as (p' & Hr & Hd & _); [by rewrite Hb|].
  exists (mkAhci (c + Z.of_nat (length buf)) p'). rewrite Hr, Hb. done.
Qed.
End DeviceLaws.

(** A read never delivers more bytes than asked for. *)
Section Lengths.
Context {P : Type} `{HP : SectorPort P} (PORTS : option (list PortInfo)) (base : Z).
Lemma read_chunk_length lba o n s data s' : read_chunk (P := P) PORTS base lba o n s = (Ok data, s') -> length data = Z.to_nat n.
Proof.
  unfold read_chunk. intros ([a ubuf] & s1 & _ & H1)%st_bind_Ok. apply st_bind_Ok in H1 as (i & s2 & _ & H2). apply st_bind_Ok in H2 as (ub & s3 & _ & H3).
  apply st_bind_Ok in H3 as (d & s4 & H4 & H5). apply st_bind_Ok in H5 as (u & s5 & _ & [= <- <-]). injection H4 as H4 _. by apply slice_length in H4.
Qed.
Lemma read_chunks_length fuel : forall total left s data s', 0 <= left -> read_chunks (P := P) PORTS base fuel total left s = (Ok data, s') -> Z.of_nat (length data) <= left.
Proof.
  induction fuel as [|fuel IH]; intros total left s data s' Hl Hr; [done|]. cbn [read_chunks] in Hr. destruct (Z.ltb_spec 0 left) as [Hp|]; [|by injection Hr as <- <-].
  apply st_bind_Ok in Hr as ([[lba o] n] & s1 & Hn & Hr). destruct (Z.eqb_spec n 0); [by injection Hr as <- <-|].
  assert (0 <= n <= left) as Hb. { unfold next_chunk in Hn. destruct (uadd _ _ _) as [cur| |]; [|done|done]. injection Hn as _ _ <- _. unfold saturating_sub. lia. }
  apply st_bind_Ok in Hr as (d & s2 & Hd%read_chunk_length & Hr). apply st_bind_Ok in Hr as (rest & s3 & Hrest & [= <- <-]). apply IH in Hrest; [|lia].
  rewrite length_app. lia.
Qed.
#[export] Instance ahci_keeps_length : @KeepsLength (AhciBlockDevice P) (ahci_device PORTS base).
Proof.
  intros buf s n buf' s'. cbn [bd_read ahci_device]. unfold ahci_read. intros (data & s1 & Hd & Hr)%st_bind_Ok.
  apply read_chunks_length in Hd; [|lia]. apply st_bind_Ok in Hr as (u & s2 & _ & [= _ <- _]). rewrite length_app, length_drop. lia.
Qed.
End Lengths.
