(* ===== verification/Pci.v ===== *)
(** * The PCI bus (zenos-kernel/src/pci/mod.rs)

    Reading the configuration space through the two ports, and the scan of all buses, slots
    and functions for an AHCI controller.  The ports are a class; its law is configuration
    mechanism #1. *)
From S2P Require Import Prelude Bytes.

Definition CONFIG_ADDRESS : Z := 0xCF8.
Definition CONFIG_DATA : Z := 0xCFC.
Class Ports32 (C : Type) := {
  outl : Z -> Z -> C -> C;
  inl : Z -> C -> Z * C;
}.
Record PciDevice := mkPciDevice { pci_bus : Z; pci_slot : Z; pci_func : Z; bar5 : Z }.

Section Scan.
Context {C : Type} `{Ports32 C} {E : Type}.

Definition config_address (bus slot func offset : Z) : Z :=
  Z.lor (Z.lor (Z.lor (Z.lor (2 ^ 31) (Z.shiftl bus 16)) (Z.shiftl slot 11)) (Z.shiftl func 8)) (Z.land offset 0xFC).
Definition pci_config_read_dword (bus slot func offset : Z) : st C E Z := fun c =>
  let '(v, c) := inl CONFIG_DATA (outl CONFIG_ADDRESS (config_address bus slot func offset) c) in (Ok v, c).
Definition pci_config_read_byte (bus slot func offset : Z) : st C E Z :=
  dword ← pci_config_read_dword bus slot func (Z.land offset 0xFC);
  mret (Z.land (Z.shiftr dword (Z.land offset 3 * 8)) 0xFF).
Definition pci_config_read_word (bus slot func offset : Z) : st C E Z :=
  dword ← pci_config_read_dword bus slot func (Z.land offset 0xFC);
  mret (Z.land (Z.shiftr dword (Z.land offset 2 * 8)) 0xFFFF).

(** One round of the innermost loop. *)
Definition probe (bus slot func : Z) : st C E (option PciDevice) :=
  vendor_id ← pci_config_read_word bus slot func 0;
  if vendor_id =? 0xFFFF then mret None
  else
    class_code ← pci_config_read_byte bus slot func 0x0B;
    subclass ← pci_config_read_byte bus slot func 0x0A;
    prog_if ← pci_config_read_byte bus slot func 0x09;
    if (class_code =? 1) && (subclass =? 6) && (prog_if =? 1) then
      bar ← pci_config_read_dword bus slot func 0x24;
      mret (Some (mkPciDevice bus slot func (Z.land bar 0xFFFFFFF0)))
    else mret None.
Fixpoint scan (l : list (Z * Z * Z)) : st C E (option PciDevice) :=
  match l with
  | [] => mret None
  | (bus, slot, func) :: l =>
      r ← probe bus slot func;
      match r with Some d => mret (Some d) | None => scan l end
  end.
(** The three loops: every function of every slot of every bus. *)
Definition all_functions : list (Z * Z * Z) :=
  bus ← seqZ 0 256; slot ← seqZ 0 32; (fun func => (bus, slot, func)) <$> seqZ 0 8.
Definition scan_pci_for_ahci : st C E (option PciDevice) := scan all_functions.
End Scan.

(** ** Configuration mechanism #1: the address selects a dword of a function's space *)
Class Ports32Laws (C : Type) `{Ports32 C} := {
  config : C -> Z -> Z -> Z -> Z -> Z;
  config_read c addr : is_u 32 addr -> Z.testbit addr 31 = true -> let r := inl CONFIG_DATA (outl CONFIG_ADDRESS addr c) in
    r.1 = config c (Z.land (Z.shiftr addr 16) 0xFF) (Z.land (Z.shiftr addr 11) 0x1F) (Z.land (Z.shiftr addr 8) 7) (Z.land addr 0xFC) /\
    forall b s f o, config r.2 b s f o = config c b s f o;
}.

Lemma find_first {A} (f : A -> bool) l x : List.find f l = Some x ->
  exists pre post, l = pre ++ x :: post /\ f x = true /\ Forall (fun y => f y = false) pre.
Proof.
  induction l as [|y l IH]; [done|]. cbn. destruct (f y) eqn:Hy.
  - intros [= ->]. by exists [], l.
  - intros (pre & post & -> & ? & ?)%IH. exists (y :: pre), post. auto.
Qed.

Section ScanSpec.
Context {C : Type} `{HP : Ports32 C} {HL : Ports32Laws C} {E : Type}.
Implicit Types c : C.

Lemma dword_offset o : 0 <= o < 256 -> o mod 4 = 0 -> Z.land o 0xFC = o.
Proof.
  intros Ho Hm. assert (Forall (fun o => o mod 4 = 0 -> Z.land o 0xFC = o) (seqZ 0 256)) as Hall by (apply (bool_decide_unpack _); vm_compute; exact I).
  rewrite Forall_forall in Hall. apply Hall; [|done]. apply elem_of_seqZ. lia.
Qed.
(** The bits of the address are the coordinates of the function. *)
Lemma config_address_sum bus slot func o :
  0 <= bus < 256 -> 0 <= slot < 32 -> 0 <= func < 8 -> 0 <= o < 256 -> o mod 4 = 0 ->
  config_address bus slot func o = o + func * 2 ^ 8 + slot * 2 ^ 11 + bus * 2 ^ 16 + 1 * 2 ^ 31.
Proof.
  intros Hb Hs Hf Ho Hm. unfold config_address. rewrite dword_offset by done. change (2 ^ 31) with (Z.shiftl 1 31) at 1.
  rewrite <-!lor_shiftl_add by lia. apply Z.bits_inj. intros n. rewrite !Z.lor_spec. by destruct (Z.testbit _ _), (Z.testbit _ _), (Z.testbit _ _), (Z.testbit _ _), (Z.testbit _ _).
Qed.
Lemma config_address_fields bus slot func o :
  0 <= bus < 256 -> 0 <= slot < 32 -> 0 <= func < 8 -> 0 <= o < 256 -> o mod 4 = 0 ->
  let a := config_address bus slot func o in
  is_u 32 a /\ Z.testbit a 31 = true /\
  Z.land (Z.shiftr a 16) 0xFF = bus /\ Z.land (Z.shiftr a 11) 0x1F = slot /\ Z.land (Z.shiftr a 8) 7 = func /\ Z.land a 0xFC = o.
Proof.
  intros Hb Hs Hf Ho Hm a. assert (a = o + func * 2 ^ 8 + slot * 2 ^ 11 + bus * 2 ^ 16 + 1 * 2 ^ 31) as Ha by (by apply config_address_sum). clearbody a.
  change 0xFF with (Z.ones 8). change 0x1F with (Z.ones 5). change 7 with (Z.ones 3).
  rewrite !Z.land_ones, !Z.shiftr_div_pow2 by lia.
  assert (Z.land a 0xFC = Z.land (a mod 2 ^ 8) 0xFC) as -> by (rewrite <-Z.land_ones, <-Z.land_assoc by lia; reflexivity).
  assert (a mod 2 ^ 8 = o) as -> by (Z.div_mod_to_equations; lia). rewrite dword_offset by done.
  unfold is_u. rewrite (Z.testbit_true a 31 ltac:(lia)). split_and!; Z.div_mod_to_equations; lia.
Qed.

Definition same_config c c' : Prop := forall b s f o, config c' b s f o = config c b s f o.
Lemma read_dword_ok bus slot func o c :
  0 <= bus < 256 -> 0 <= slot < 32 -> 0 <= func < 8 -> 0 <= o < 256 -> o mod 4 = 0 ->
  exists c', pci_config_read_dword (E := E) bus slot func o c = (Ok (config c bus slot func o), c') /\ same_config c c'.
Proof using HL.
  intros Hb Hs Hf Ho Hm. destruct (config_address_fields bus slot func o) as (Hu & H31 & E1 & E2 & E3 & E4); [done..|].
  destruct (config_read c _ Hu H31) as [H1 H2]. rewrite E1, E2, E3, E4 in H1. unfold pci_config_read_dword.
  destruct (inl _ _) as [v c']. cbn in H1, H2. subst v. by exists c'.
Qed.

(** What the configuration space says of a function. *)
Definition field (c : C) (bus slot func o sh mask : Z) : Z := Z.land (Z.shiftr (config c bus slot func o) sh) mask.
Definition is_ahci (c : C) (p : Z * Z * Z) : bool :=
  let '(bus, slot, func) := p in
  negb (field c bus slot func 0 0 0xFFFF =? 0xFFFF) && (field c bus slot func 8 24 0xFF =? 1) &&
  (field c bus slot func 8 16 0xFF =? 6) && (field c bus slot func 8 8 0xFF =? 1).
Definition device_at (c : C) (p : Z * Z * Z) : PciDevice :=
  let '(bus, slot, func) := p in mkPciDevice bus slot func (Z.land (config c bus slot func 0x24) 0xFFFFFFF0).
Definition in_range (p : Z * Z * Z) : Prop := let '(bus, slot, func) := p in 0 <= bus < 256 /\ 0 <= slot < 32 /\ 0 <= func < 8.

Lemma probe_ok bus slot func c : in_range (bus, slot, func) ->
  exists c', probe (E := E) bus slot func c = (Ok (if is_ahci c (bus, slot, func) then Some (device_at c (bus, slot, func)) else None), c') /\ same_config c c'.
Proof using HL.
  intros (Hb & Hs & Hf). unfold probe, pci_config_read_word, pci_config_read_byte, is_ahci, device_at, field.
  change (Z.land 0 252) with 0. change (Z.land 11 252) with 8. change (Z.land 10 252) with 8. change (Z.land 9 252) with 8.
  change (Z.land 0 2 * 8) with 0. change (Z.land 11 3 * 8) with 24. change (Z.land 10 3 * 8) with 16. change (Z.land 9 3 * 8) with 8.
  destruct (read_dword_ok bus slot func 0 c) as (c1 & H1 & S1); [done..|]. 
  erewrite st_bind_eq by (rewrite (st_bind_eq _ _ _ _ _ H1); reflexivity).
  destruct (_ =? 0xFFFF); [by exists c1|]. cbn [negb andb].
  destruct (read_dword_ok bus slot func 8 c1) as (c2 & H2 & S2); [done..|].
  erewrite st_bind_eq by (rewrite (st_bind_eq _ _ _ _ _ H2); reflexivity).
  destruct (read_dword_ok bus slot func 8 c2) as (c3 & H3 & S3); [done..|].
  erewrite st_bind_eq by (rewrite (st_bind_eq _ _ _ _ _ H3); reflexivity).
  destruct (read_dword_ok bus slot func 8 c3) as (c4 & H4 & S4); [done..|].
  erewrite st_bind_eq by (rewrite (st_bind_eq _ _ _ _ _ H4); reflexivity).
  rewrite (S3 bus slot func 8), (S2 bus slot func 8), (S1 bus slot func 8).
  destruct (_ && _ && _).
  - destruct (read_dword_ok bus slot func 0x24 c4) as (c5 & H5 & S5); [done..|]. rewrite (st_bind_eq _ _ _ _ _ H5).
    exists c5. split; [|intros ????; by rewrite S5, S4, S3, S2, S1]. by rewrite S4, S3, S2, S1.
  - exists c4. split; [done|]. intros ????. by rewrite S4, S3, S2, S1.
Qed.

Lemma scan_ok l c : Forall in_range l ->
  exists c', scan (E := E) l c = (Ok (device_at c <$> List.find (is_ahci c) l), c') /\ same_config c c'.
Proof using HL.
  revert c. induction l as [|[[bus slot] func] l IH]; intros c Hl; [by exists c|]. apply Forall_cons in Hl as [Hr Hl].
  cbn [scan List.find]. destruct (probe_ok bus slot func c Hr) as (c1 & H1 & S1). rewrite (st_bind_eq _ _ _ _ _ H1).
  destruct (is_ahci c (bus, slot, func)); [by exists c1|].
  destruct (IH c1 Hl) as (c2 & H2 & S2). exists c2. split; [|intros ????; by rewrite S2, S1]. rewrite H2. do 2 f_equal.
  assert (forall p, is_ahci c1 p = is_ahci c p) as Ha by (intros [[b s] f]; unfold is_ahci, field; by rewrite !S1).
  assert (forall p, device_at c1 p = device_at c p) as Hd by (intros [[b s] f]; unfold device_at; by rewrite !S1).
  clear -Ha Hd. induction l as [|p l IHl]; [done|]. cbn. rewrite Ha. destruct (is_ahci c p); [cbn; by rewrite Hd|done].
Qed.
Lemma all_functions_spec p : p ∈ all_functions <-> in_range p.
Proof.
  destruct p as [[b s] f]. unfold all_functions, in_range. split.
  - intros (b' & (s' & (f' & [= -> -> ->] & Hf%elem_of_seqZ)%list_elem_of_fmap & Hs%elem_of_seqZ)%list_elem_of_bind & Hb%elem_of_seqZ)%list_elem_of_bind. lia.
  - intros (? & ? & ?). apply list_elem_of_bind. exists b. split; [|apply elem_of_seqZ; lia].
    apply list_elem_of_bind. exists s. split; [|apply elem_of_seqZ; lia]. apply list_elem_of_fmap. exists f. split; [done|apply elem_of_seqZ; lia].
Qed.

(** C28: the scan returns the first AHCI function (class 1, subclass 6, interface 1) in the order
    of buses, slots and functions with the address of its registers, and nothing only when no
    function of the configuration space is one. *)
Theorem scan_finds_ahci c :
  exists r c', scan_pci_for_ahci (E := E) c = (Ok r, c') /\ same_config c c' /\
    match r with
    | Some d => exists pre p post, all_functions = pre ++ p :: post /\ is_ahci c p = true /\ d = device_at c p /\ Forall (fun q => is_ahci c q = false) pre
    | None => forall p, in_range p -> is_ahci c p = false
    end.
Proof using HL.
  destruct (scan_ok all_functions c) as (c' & Hr & Hs); [apply Forall_forall; intros p; apply all_functions_spec|].
  exists (device_at c <$> List.find (is_ahci c) all_functions), c'. split_and!; [done|done|].
  destruct (List.find _ _) as [p|] eqn:Hf; cbn.
  - apply find_first in Hf as (pre & post & ? & ? & ?). eauto 10.
  - intros p Hp. eapply List.find_none; [done|]. apply list_elem_of_In. by apply all_functions_spec.
Qed.
End ScanSpec.

(** ** A board: the function 0:31.2 is an AHCI controller, 0:1.0 a storage device of another kind *)
Record SimPci := mkSimPci { selected : Z }.
Definition sim_dword (b s f o : Z) : Z :=
  if bool_decide ((b, s, f, o) = (0, 31, 2, 0)) then 0x29228086
  else if bool_decide ((b, s, f, o) = (0, 31, 2, 8)) then 0x01060102
  else if bool_decide ((b, s, f, o) = (0, 31, 2, 0x24)) then 0xFEBF1000
  else if bool_decide ((b, s, f, o) = (0, 1, 0, 0)) then 0x70108086
  else if bool_decide ((b, s, f, o) = (0, 1, 0, 8)) then 0x01018000
  else 0xFFFFFFFF.
#[export] Instance sim_pci : Ports32 SimPci := {
  outl p v c := if p =? CONFIG_ADDRESS then mkSimPci v else c;
  inl p c := let a := selected c in
    (if (p =? CONFIG_DATA) && Z.testbit a 31 then
       sim_dword (Z.land (Z.shiftr a 16) 0xFF) (Z.land (Z.shiftr a 11) 0x1F) (Z.land (Z.shiftr a 8) 7) (Z.land a 0xFC)
     else 0xFFFFFFFF, c);
}.
#[export] Instance sim_pci_laws : Ports32Laws SimPci.
Proof.
  refine {| config c := sim_dword |}. intros c a Ha H31. cbn [outl inl sim_pci selected]. rewrite !Z.eqb_refl. cbn [selected andb].
  by rewrite H31.
Defined.
Lemma scan_finds_ahci_witness : exists c', scan_pci_for_ahci (E := unit) (mkSimPci 0) = (Ok (Some (mkPciDevice 0 31 2 0xFEBF1000)), c').
Proof.
  destruct (scan_finds_ahci (E := unit) (mkSimPci 0)) as (r & c' & Hr & _). exists c'. rewrite Hr.
  assert (Ok (E := unit) r = (scan_pci_for_ahci (E := unit) (mkSimPci 0)).1) as Hr1 by (by rewrite Hr).
  f_equal. rewrite Hr1. vm_compute. reflexivity.
Defined.
