(* ===== verification/Ahci.v ===== *)
(** * The AHCI controller (zenos-kernel/src/disk/block/ahci.rs)

    Finding the controller, setting up its ports in memory, and one command to a port: the
    command header, the command table with the packet for the drive and the region descriptor,
    the doorbell, the wait and the copy of the data.  The controller, the memory it shares with
    the processor and the allocation of pages are a class. *)
From S2P Require Import Prelude PageAlloc Bytes Paging OpenFile BlockDev AhciDevice Pci.
#[local] Open Scope list_scope.

(** ** Registers, commands and flags *)
Definition AHCI_VIRT_BASE : Z := KERNEL_BASE + 0x20000000.
Definition MAX_SLOTS : Z := 32.
Definition TIMEOUT_MAX : positive := 10000000.
Definition PORTS_IMPLEMENTED : Z := 0x0C.
Definition PORT_BASE : Z := 0x100.
Definition PORT_SIZE : Z := 0x80.
Definition CLB : Z := 0x00.
Definition CLBU : Z := 0x04.
Definition FB : Z := 0x08.
Definition FBU : Z := 0x0C.
Definition IS : Z := 0x10.
Definition CMD : Z := 0x18.
Definition TFD : Z := 0x20.
Definition SSTS : Z := 0x28.
Definition SERR : Z := 0x30.
Definition CI : Z := 0x38.
Definition READ_DMA_EXT : Z := 0x25.
Definition WRITE_DMA_EXT : Z := 0x35.
Definition CMD_ST : Z := 2 ^ 0.
Definition CMD_FRE : Z := 2 ^ 4.
Definition CMD_FR : Z := 2 ^ 14.
Definition CMD_CR : Z := 2 ^ 15.
Definition IS_TFES : Z := 2 ^ 30.
Definition TFD_ERR : Z := 2 ^ 0.
Definition PRDT_IOC : Z := 2 ^ 31.
Definition CMD_WRITE : Z := 2 ^ 6.
Definition DEVICE_LBA : Z := 2 ^ 6.

(** [RegFis::new_dma_command]: the packet, byte by byte. *)
Definition new_dma_command (lba count : Z) (write : bool) : list Z :=
  let b n := Z.land (Z.shiftr lba n) 0xFF in
  [0x27; 0x80; if write then WRITE_DMA_EXT else READ_DMA_EXT; 0;
   Z.land lba 0xFF; b 8; b 16; DEVICE_LBA;
   b 24; b 32; b 40; 0;
   Z.land count 0xFF; Z.land (Z.shiftr count 8) 0xFF; 0; 0;
   0; 0; 0; 0].
(** The sizes of [HbaCmdHeader] and [RegFis], and where the fields are. *)
Definition HEADER_SIZE : Z := 32.
Definition FIS_SIZE : Z := 20.
Definition HEADER_CTBA : Z := 8.
Definition TABLE_PRDT : Z := 128.

(** Registers and memory are read and written at virtual addresses; [block_and_halt] is
    [block_current_process] with the halt until the next interrupt. *)
Class Hba (H : Type) := {
  hba_read : Z -> H -> Z * H;
  hba_write : Z -> Z -> H -> H;
  mem_read : Z -> nat -> H -> list Z;
  mem_write : Z -> list Z -> H -> H;
  virt_addr : Z -> option Z;                       (* [VirtAddr::new]; [None] is a panic *)
  hba_virt_to_phys : Z -> H -> option Z;
  hba_kalloc_page : Z -> PageType -> st H MapErr Z;
  hba_kfree_page : Z -> PageType -> st H MapErr unit;
  hba_kalloc_dma : Z -> st H MapErr Z;
  hba_kfree_dma : Z -> Z -> st H MapErr unit;
  has_current_process : H -> bool;
  block_and_halt : H -> H;
}.
Record Driver (H : Type) := mkDriver { hw : H; AHCI_BLOCKED : bool; PORTS : option (list PortInfo) }.
Arguments mkDriver {H}.
Arguments hw {H}.
Arguments AHCI_BLOCKED {H}.
Arguments PORTS {H}.

Section Port.
Context {H : Type} `{Hba H}.
Abbreviation drv := (st (Driver H) unit).
Definition with_hw (s : Driver H) (h : H) : Driver H := mkDriver h (AHCI_BLOCKED s) (PORTS s).

Definition on_hw {A} (f : H -> A * H) : drv A := fun s => let '(a, h) := f (hw s) in (Ok a, with_hw s h).
Definition change_hw (f : H -> H) : drv unit := fun s => (Ok tt, with_hw s (f (hw s))).
(** The register at [offset] of the port with the registers at [base]. *)
Definition read_reg (base offset : Z) : drv Z := on_hw (hba_read (base + offset / 4 * 4)).
Definition write_reg (base offset value : Z) : drv unit := change_hw (hba_write (base + offset / 4 * 4) value).
Definition store (addr : Z) (bs : list Z) : drv unit := change_hw (mem_write addr bs).
Definition new_virt (a : Z) : drv Z := st_lift (unwrap (virt_addr a)).
(** [expect] on the result of an allocation. *)
Definition expect {A} (m : st H MapErr A) : drv A := fun s =>
  match m (hw s) with (Ok a, h) => (Ok a, with_hw s h) | (_, h) => (Panic, with_hw s h) end.

(** *** The state of a port *)
Fixpoint wait_clear (fuel : nat) (base flag : Z) : drv unit :=
  match fuel with
  | O => st_lift Panic
  | S fuel => v ← read_reg base CMD; if Z.land v flag =? 0 then mret tt else wait_clear fuel base flag
  end.
Definition stop (fuel : nat) (base : Z) : drv unit :=
  cmd ← read_reg base CMD;
  _ ← write_reg base CMD (Z.ldiff cmd CMD_ST);
  _ ← wait_clear fuel base CMD_CR;
  cmd ← read_reg base CMD;
  _ ← write_reg base CMD (Z.ldiff cmd CMD_FRE);
  wait_clear fuel base CMD_FR.
Definition start (base : Z) : drv unit :=
  cmd ← read_reg base CMD;
  _ ← write_reg base CMD (Z.lor cmd CMD_FRE);
  cmd ← read_reg base CMD;
  write_reg base CMD (Z.lor cmd CMD_ST).
Definition has_drive (base : Z) : drv bool :=
  ssts ← read_reg base SSTS;
  mret ((Z.land ssts 0xF =? 3) && (Z.land (Z.shiftr ssts 8) 0xF =? 1)).
Definition allocate_slot (base : Z) : drv (option Z) :=
  ci ← read_reg base CI;
  mret (List.find (fun slot => Z.land ci (2 ^ slot) =? 0) (seqZ 0 MAX_SLOTS)).
Definition clear_errors (base : Z) : drv unit :=
  _ ← write_reg base IS 0xFFFFFFFF;
  write_reg base SERR 0xFFFFFFFF.
Definition prdt_mask_bytecount (bytes_minus_one : Z) : Z := Z.land bytes_minus_one 0x3FFFFF.

(** *** Waiting for a command *)
(** Called by the timer interrupt. *)
Fixpoint any_idle (ports : list PortInfo) : drv bool :=
  match ports with
  | [] => mret false
  | p :: ports => ci ← read_reg (port_base p) CI; if ci =? 0 then mret true else any_idle ports
  end.
Definition set_blocked (b : bool) : drv unit := fun s => (Ok tt, mkDriver (hw s) b (PORTS s)).
Definition check_ahci_completion : drv unit :=
  s ← st_get;
  if negb (AHCI_BLOCKED s) then mret tt
  else match PORTS s with
       | Some port_list => idle ← any_idle port_list; if (idle : bool) then set_blocked false else mret tt
       | None => mret tt
       end.
(** One round of the loop: [Some] ends it. *)
Definition poll (base slot : Z) : drv (option bool) :=
  ci ← read_reg base CI;
  if Z.land ci (2 ^ slot) =? 0 then mret (Some true)
  else
    int_status ← read_reg base IS;
    if negb (Z.land int_status IS_TFES =? 0) then
      serr ← read_reg base SERR;
      _ ← write_reg base IS int_status;
      _ ← write_reg base SERR serr;
      mret (Some false)
    else
      s ← st_get;
      if has_current_process (hw s) then
        _ ← set_blocked true;
        _ ← change_hw block_and_halt;
        _ ← check_ahci_completion;
        mret None
      else mret None.
(** At most [n] rounds. *)
Fixpoint rounds (n : positive) (round : drv (option bool)) : drv (option bool) :=
  let twice m := r ← m; match r with Some b => mret (Some b) | None => m end in
  match n with
  | xH => round
  | xO n => twice (rounds n round)
  | xI n => r ← round; match r with Some b => mret (Some b) | None => twice (rounds n round) end
  end.
Definition wait_for_completion (base slot : Z) : drv bool :=
  r ← rounds TIMEOUT_MAX (poll base slot);
  mret (match r with Some b => b | None => false end).

(** *** One command; the result is the buffer *)
Definition table_addr (info : PortInfo) (slot : Z) : Z := virt_cmd_tables_base info + slot * PAGE_4K.
Definition header_addr (info : PortInfo) (slot : Z) : Z := virt_cmd_list info + slot * HEADER_SIZE.
(** The data of the command: a page of its own, [expect]ed to be mapped. *)
Definition dma_page (total_bytes : Z) : drv (Z * Z) := fun s =>
  match hba_kalloc_dma total_bytes (hw s) with
  | (Ok v, h) => match hba_virt_to_phys v h with Some p => (Ok (v, p), with_hw s h) | None => (Panic, with_hw s h) end
  | (Err _, h) => (Err tt, with_hw s h)
  | (Panic, h) => (Panic, with_hw s h)
  end.
Definition write_prdt (table phys total_bytes : Z) : drv unit :=
  _ ← store (table + TABLE_PRDT) (to_le 4 (Z.land phys 0xFFFFFFFF));
  _ ← store (table + TABLE_PRDT + 4) (to_le 4 (Z.land (Z.shiftr phys 32) 0xFFFFFFFF));
  store (table + TABLE_PRDT + 12) (to_le 4 (Z.lor (prdt_mask_bytecount (total_bytes - 1)) PRDT_IOC)).
Definition check_errors (base : Z) : drv unit :=
  tfd ← read_reg base TFD;
  if negb (Z.land tfd TFD_ERR =? 0) then
    int_status ← read_reg base IS;
    serr ← read_reg base SERR;
    _ ← write_reg base IS int_status;
    _ ← write_reg base SERR serr;
    st_lift (Err tt)
  else mret tt.
Definition load (addr : Z) (n : nat) : drv (list Z) := fun s => (Ok (mem_read addr n (hw s)), s).

(** The header and the packet of the command in this slot; the result is the table. *)
Definition setup_command (info : PortInfo) (slot lba sector_count : Z) (write : bool) : drv Z :=
  let header := header_addr info slot in
  _ ← store header (to_le 2 (Z.lor (Z.land (FIS_SIZE / 4) 0x1F) (if write then CMD_WRITE else 0)));
  _ ← store (header + 2) (to_le 2 0);
  _ ← store (header + 4) (to_le 4 0);
  table ← new_virt (table_addr info slot);
  _ ← store table (new_dma_command lba sector_count write);
  mret table.
(** The page with the data and its descriptor. *)
Definition setup_data (info : PortInfo) (slot table : Z) (buf : list Z) (total_bytes : Z) (write : bool) : drv Z :=
  '(dma_virt, dma_phys) ← dma_page total_bytes;
  _ ← store dma_virt (replicate (Z.to_nat PAGE_4K) 0);
  _ ← (if write then data ← st_lift (slice 0 (Z.to_nat total_bytes) buf); store dma_virt data else mret tt);
  _ ← write_prdt table dma_phys total_bytes;
  _ ← store (header_addr info slot + 2) (to_le 2 1);
  mret dma_virt.
(** The doorbell, the wait and the result. *)
Definition issue_command (base slot dma_virt : Z) (buf : list Z) (total_bytes : Z) (write : bool) : drv (list Z) :=
  cmd_status ← read_reg base CMD;
  if Z.land cmd_status CMD_ST =? 0 then st_lift (Err tt)
  else
    _ ← write_reg base CI (2 ^ slot);
    res ← wait_for_completion base slot;
    buf ← (if res && negb write then load dma_virt (Z.to_nat total_bytes) else mret buf);
    _ ← check_errors base;
    if (res : bool) then mret buf else st_lift (Err tt).
Definition send_command (info : PortInfo) (lba : Z) (buf : list Z) (sector_count : Z) (write : bool) : drv (list Z) :=
  let base := port_base info in
  _ ← clear_errors base;
  slot ← (r ← allocate_slot base; st_lift (ok_or tt r));
  table ← setup_command info slot lba sector_count write;
  let total_bytes := sector_count * SECTOR_SIZE in
  if (total_bytes =? 0) || (PAGE_4K <? total_bytes) then st_lift (Err tt)
  else
    dma_virt ← setup_data info slot table buf total_bytes write;
    issue_command base slot dma_virt buf total_bytes write.
Definition read_command (info : PortInfo) (lba : Z) (buf : list Z) (count : Z) : drv (list Z) := send_command info lba buf count false.
Definition write_command (info : PortInfo) (lba : Z) (buf : list Z) (count : Z) : drv unit :=
  _ ← send_command info lba buf count true; mret tt.

(** *** Finding the controller and setting up its ports *)
Definition list_virt (port_num : Z) : Z := AHCI_VIRT_BASE + port_num * PAGE_4K.
Definition fis_virt (port_num : Z) : Z := AHCI_VIRT_BASE + 0x1000 + port_num * PAGE_4K.
Definition tables_virt (port_num : Z) : Z := AHCI_VIRT_BASE + 0x2000 + port_num * MAX_SLOTS * PAGE_4K.
Definition zero_page (v : Z) : drv unit := store v (replicate (Z.to_nat PAGE_4K) 0).
Definition set_command_table_addr (header addr : Z) : drv unit :=
  _ ← store (header + HEADER_CTBA) (to_le 4 (wrap 32 addr));
  store (header + HEADER_CTBA + 4) (to_le 4 (wrap 32 (Z.shiftr addr 32))).
Fixpoint link_tables (cmd_list tables : Z) (slots : list Z) : drv unit :=
  match slots with
  | [] => mret tt
  | slot :: slots =>
      table_virt ← new_virt (tables + slot * PAGE_4K);
      table_phys ← expect (hba_kalloc_page table_virt Arbitrary);
      _ ← zero_page table_virt;
      _ ← set_command_table_addr (cmd_list + slot * HEADER_SIZE) table_phys;
      link_tables cmd_list tables slots
  end.
Fixpoint free_tables (tables : Z) (slots : list Z) : drv unit :=
  match slots with
  | [] => mret tt
  | slot :: slots =>
      table_virt ← new_virt (tables + slot * PAGE_4K);
      _ ← expect (hba_kfree_page table_virt Arbitrary);
      free_tables tables slots
  end.
Definition write_addr (base low high phys : Z) : drv unit :=
  _ ← write_reg base low (wrap 32 phys);
  write_reg base high (wrap 32 (Z.shiftr phys 32)).
(** The body of the loop for an implemented port: its description when it has a drive. *)
Definition init_port (fuel : nat) (mmio_base bar port_num : Z) : drv (option PortInfo) :=
  let offset := PORT_BASE + port_num * PORT_SIZE in
  let base := mmio_base + offset in
  _ ← stop fuel base;
  virt_list ← new_virt (list_virt port_num);
  virt_fis ← new_virt (fis_virt port_num);
  cmd_list_phys ← expect (hba_kalloc_page virt_list Arbitrary);
  fis_phys ← expect (hba_kalloc_page virt_fis Arbitrary);
  _ ← zero_page virt_list;
  _ ← zero_page virt_fis;
  _ ← write_addr base CLB CLBU cmd_list_phys;
  _ ← read_reg base CLB;
  _ ← write_addr base FB FBU fis_phys;
  tables ← new_virt (tables_virt port_num);
  _ ← link_tables virt_list tables (seqZ 0 MAX_SLOTS);
  _ ← start base;
  drive ← has_drive base;
  if (drive : bool) then mret (Some (mkPortInfo base (bar + offset) virt_list tables))
  else _ ← free_tables tables (seqZ 0 MAX_SLOTS); mret None.
Fixpoint init_ports (fuel : nat) (mmio_base bar ports_implemented : Z) (nums : list Z) : drv (option PortInfo) :=
  match nums with
  | [] => mret None
  | n :: nums =>
      if Z.land ports_implemented (2 ^ n) =? 0 then init_ports fuel mmio_base bar ports_implemented nums
      else r ← init_port fuel mmio_base bar n;
           match r with Some p => mret (Some p) | None => init_ports fuel mmio_base bar ports_implemented nums end
  end.
Definition set_ports (l : list PortInfo) : drv unit := fun s => (Ok tt, mkDriver (hw s) (AHCI_BLOCKED s) (Some l)).
(** The base of the port and the cursor of the device. *)
Definition new_device (port_index : nat) : drv (option (Z * Z)) := fun s =>
  (Ok (ports ← PORTS s; pinfo ← ports !! port_index; Some (port_base pinfo, 0)), s).
Context `{Ports32 H}.
Definition init_ahcibd (fuel : nat) : drv (option (Z * Z)) :=
  pci ← (fun s => match scan_pci_for_ahci (E := unit) (hw s) with (r, h) => (r, with_hw s h) end);
  match pci with
  | None => mret None
  | Some pci =>
      mmio_base ← st_lift (uadd 64 (bar5 pci) HIGHER_HALF_BASE);
      v ← new_virt mmio_base;
      _ ← expect (hba_kalloc_page v MmioRecursive);
      ports_implemented ← on_hw (hba_read (mmio_base + PORTS_IMPLEMENTED));
      r ← init_ports fuel mmio_base (bar5 pci) ports_implemented (seqZ 0 MAX_SLOTS);
      match r with
      | None => mret None
      | Some pinfo => _ ← set_ports [pinfo]; new_device 0
      end
  end.
End Port.
