(* ===== verification/AhciPort.v ===== *)
(** * Commands reach the disk

    What the controller promises, after the AHCI specification: a command is read from the
    command list in memory, carried out on the disk and the memory, and reported by the
    registers.  On such a controller [send_command] reads and writes the sectors it is asked
    for, and the port keeps the laws that the block device of AhciDevice.v relies on. *)
From S2P Require Import Prelude PageAlloc Bytes Paging OpenFile BlockDev AhciDevice Pci Ahci.
#[local] Open Scope list_scope.

(** ** Bytes of memory *)
Definition mem_get (m : gmap Z Z) (a : Z) (n : nat) : list Z := (fun i => default 0 (m !! (a + Z.of_nat i))) <$> seq 0 n.
Fixpoint mem_put (a : Z) (bs : list Z) (m : gmap Z Z) : gmap Z Z :=
  match bs with [] => m | b :: bs => <[a := b]> (mem_put (a + 1) bs m) end.
(** A 64-bit address in two words. *)
Definition get64 (m : gmap Z Z) (a : Z) : Z := from_le (mem_get m a 4) + 2 ^ 32 * from_le (mem_get m (a + 4) 4).

Lemma mem_get_length m a n : length (mem_get m a n) = n.
Proof. unfold mem_get. by rewrite length_fmap, length_seq. Qed.
Lemma mem_put_away bs : forall a m i, i < a \/ a + Z.of_nat (length bs) <= i -> mem_put a bs m !! i = m !! i.
Proof.
  induction bs as [|b bs IH]; intros a m i Hi; [done|]. cbn [mem_put length] in *. rewrite lookup_insert_ne by lia. apply IH. lia.
Qed.
Lemma mem_put_at bs : forall a m j, (j < length bs)%nat -> mem_put a bs m !! (a + Z.of_nat j) = bs !! j.
Proof.
  induction bs as [|b bs IH]; intros a m j Hj; [cbn in Hj; lia|]. cbn [mem_put length] in *. destruct j as [|j].
  - by rewrite Z.add_0_r, lookup_insert_eq.
  - rewrite lookup_insert_ne by lia. replace (a + Z.of_nat (S j)) with (a + 1 + Z.of_nat j) by lia. rewrite IH by lia. done.
Qed.
Lemma mem_get_lookup m a n j : (j < n)%nat -> mem_get m a n !! j = Some (default 0 (m !! (a + Z.of_nat j))).
Proof. intros Hj. unfold mem_get. by rewrite list_lookup_fmap, lookup_seq_lt. Qed.
Lemma mem_get_away m a n p bs : a + Z.of_nat n <= p \/ p + Z.of_nat (length bs) <= a -> mem_get (mem_put p bs m) a n = mem_get m a n.
Proof.
  intros Hd. unfold mem_get. apply list_fmap_ext. intros i j Hj%lookup_seq. by rewrite mem_put_away by lia.
Qed.
Lemma mem_get_same m a bs n : length bs = n -> mem_get (mem_put a bs m) a n = bs.
Proof.
  intros <-. apply list_eq. intros j. destruct (decide (j < length bs)%nat) as [Hj|Hj].
  - rewrite mem_get_lookup, mem_put_at by done. by apply lookup_lt_is_Some in Hj as [x ->].
  - rewrite !lookup_ge_None_2; [done|lia|rewrite mem_get_length; lia].
Qed.
Lemma get64_away m a p bs : a + 8 <= p \/ p + Z.of_nat (length bs) <= a -> get64 (mem_put p bs m) a = get64 m a.
Proof. intros Hd. unfold get64. by rewrite !mem_get_away by lia. Qed.

(** ** The controller *)
(** A command runs for so many looks at the command register, and succeeds or not. *)
Inductive Phase := Idle | Busy (slot : Z) (left : nat) (ok : bool) | Failed.
Record Board := mkBoard {
  b_mem : gmap Z Z;                 (* the bytes at physical addresses *)
  b_map : gmap Z Z;                 (* virtual pages and their frames *)
  b_disk : list Z;
  b_clb : Z;                        (* where the port finds its command list *)
  b_run : bool;
  b_phase : Phase;
  b_room : nat;                     (* pages that can still be had *)
}.
Definition with_mem (m : gmap Z Z) (b : Board) : Board := mkBoard m (b_map b) (b_disk b) (b_clb b) (b_run b) (b_phase b) (b_room b).
Definition with_map (m : gmap Z Z) (n : nat) (b : Board) : Board := mkBoard (b_mem b) m (b_disk b) (b_clb b) (b_run b) (b_phase b) n.
Definition with_disk (d : list Z) (b : Board) : Board := mkBoard (b_mem b) (b_map b) d (b_clb b) (b_run b) (b_phase b) (b_room b).
Definition with_phase (p : Phase) (b : Board) : Board := mkBoard (b_mem b) (b_map b) (b_disk b) (b_clb b) (b_run b) p (b_room b).

(** A read or write of sectors with one region, as the specification describes it; [None] is an
    error of the drive. *)
Definition execute (b : Board) (slot : Z) : option Board :=
  let m := b_mem b in
  let header := b_clb b + slot * 32 in
  let flags := from_le (mem_get m header 2) in
  let table := get64 m (header + 8) in
  let fis := mem_get m table 20 in
  let byte i := nth i fis 0 in
  let lba := from_le [byte 4%nat; byte 5%nat; byte 6%nat; byte 8%nat; byte 9%nat; byte 10%nat] in
  let count := from_le [byte 12%nat; byte 13%nat] in
  let n := Z.to_nat (count * 512) in
  let region := get64 m (table + 128) in
  let region_size := Z.land (from_le (mem_get m (table + 140) 4)) 0x3FFFFF + 1 in
  let done_ := with_mem (mem_put (header + 4) (to_le 4 (count * 512)) m) in
  if (Z.land flags 0x1F =? 5) && (from_le (mem_get m (header + 2) 2) =? 1) && (byte 0%nat =? 0x27) &&
     Z.testbit (byte 1%nat) 7 && Z.testbit (byte 7%nat) 6 && (region_size =? count * 512) && (0 <=? lba) && (0 <? count) &&
     ((lba + count) * 512 <=? Z.of_nat (length (b_disk b)))
  then
    if (byte 2%nat =? 0x25) && negb (Z.testbit flags 6) then
      Some (with_mem (mem_put (header + 4) (to_le 4 (count * 512)) (mem_put region (sub_bytes (Z.to_nat (lba * 512)) n (b_disk b)) m)) b)
    else if (byte 2%nat =? 0x35) && Z.testbit flags 6 then
      Some (done_ (with_disk (put (Z.to_nat (lba * 512)) (mem_get m region n) (b_disk b)) b))
    else None
  else None.

(** A look at the command register. *)
Definition seen (p : Phase) : Z * Phase :=
  match p with
  | Busy slot (S k) ok => (2 ^ slot, Busy slot k ok)
  | Busy slot O true => (0, Idle)
  | Busy slot O false => (2 ^ slot, p)
  | _ => (0, p)
  end.
Definition task_error (p : Phase) : bool := match p with Busy _ O false => true | _ => false end.

Class HbaLaws (H : Type) `{Hba H} (base : Z) := {
  board : H -> Board;
  board_disk h : exists n, length (b_disk (board h)) = (512 * n)%nat /\ Z.of_nat (length (b_disk (board h))) <= ADDRESSABLE;
  (** Memory, a page at a time. *)
  mem_write_ok h v bs p f : p mod PAGE_4K = 0 -> b_map (board h) !! p = Some f -> p <= v -> v + Z.of_nat (length bs) <= p + PAGE_4K ->
    board (mem_write v bs h) = with_mem (mem_put (f + (v - p)) bs (b_mem (board h))) (board h);
  mem_read_ok h p n f : p mod PAGE_4K = 0 -> b_map (board h) !! p = Some f -> Z.of_nat n <= PAGE_4K -> mem_read p n h = mem_get (b_mem (board h)) f n;
  virt_to_phys_ok h p : p mod PAGE_4K = 0 -> hba_virt_to_phys p h = b_map (board h) !! p;
  (** A buffer is a page that was not mapped, in a frame that no page had. *)
  kalloc_dma_ok h n : 0 < n <= PAGE_4K -> (0 < b_room (board h))%nat -> exists v f h', hba_kalloc_dma n h = (Ok v, h') /\
    v mod PAGE_4K = 0 /\ f mod PAGE_4K = 0 /\ is_u 64 f /\ b_map (board h) !! v = None /\ (forall q, b_map (board h) !! q <> Some f) /\
    board h' = with_map (<[v := f]> (b_map (board h))) (pred (b_room (board h))) (board h);
  kfree_dma_ok h v n : 0 < n <= PAGE_4K -> is_Some (b_map (board h) !! v) -> exists h' r, hba_kfree_dma v n h = (Ok tt, h') /\
    (b_room (board h) <= r)%nat /\ board h' = with_map (delete v (b_map (board h))) r (board h);
  halt_ok h : board (block_and_halt h) = board h;
  (** The registers of the port. *)
  read_ci h : let r := hba_read (base + CI) h in r.1 = (seen (b_phase (board h))).1 /\ board r.2 = with_phase (seen (b_phase (board h))).2 (board h);
  read_is h : let r := hba_read (base + IS) h in (Z.land r.1 IS_TFES = 0 <-> task_error (b_phase (board h)) = false) /\ board r.2 = board h;
  read_serr h : board (hba_read (base + SERR) h).2 = board h;
  read_cmd h : let r := hba_read (base + CMD) h in (Z.land r.1 CMD_ST = 0 <-> b_run (board h) = false) /\ board r.2 = board h;
  read_tfd h : let r := hba_read (base + TFD) h in (Z.land r.1 TFD_ERR = 0 <-> b_phase (board h) <> Failed) /\ board r.2 = board h;
  write_is h v : board (hba_write (base + IS) v h) = if task_error (b_phase (board h)) then with_phase Failed (board h) else board h;
  write_serr h v : board (hba_write (base + SERR) v h) = board h;
  (** The doorbell of an idle port that runs. *)
  issue h slot : b_run (board h) = true -> b_phase (board h) = Idle \/ b_phase (board h) = Failed -> 0 <= slot < 32 ->
    exists k, Z.of_nat k + 1 < Z.pos TIMEOUT_MAX /\ board (hba_write (base + CI) (2 ^ slot) h) =
      match execute (board h) slot with Some b => with_phase (Busy slot k true) b | None => with_phase (Busy slot k false) (board h) end;
}.

(** ** What a command says *)
Lemma from_to_le_mod n x : from_le (to_le n x) = x mod 2 ^ (8 * Z.of_nat n).
Proof. unfold from_le, to_le. rewrite little_endian_to_Z_to_little_endian by lia. do 2 f_equal. lia. Qed.
Lemma to_le_6 x : to_le 6 x = [Z.land x 0xFF; Z.land (Z.shiftr x 8) 0xFF; Z.land (Z.shiftr x 16) 0xFF; Z.land (Z.shiftr x 24) 0xFF; Z.land (Z.shiftr x 32) 0xFF; Z.land (Z.shiftr x 40) 0xFF].
Proof.
  unfold to_le. change (Z.of_nat 6) with (Z.succ (Z.succ (Z.succ (Z.succ (Z.succ (Z.succ 0)))))).
  rewrite !Z_to_little_endian_succ, Z_to_little_endian_0 by lia. rewrite !Z.shiftr_shiftr by lia. done.
Qed.
Lemma to_le_pair x : to_le 2 x = [Z.land x 0xFF; Z.land (Z.shiftr x 8) 0xFF].
Proof.
  unfold to_le. change (Z.of_nat 2) with (Z.succ (Z.succ 0)). rewrite !Z_to_little_endian_succ, Z_to_little_endian_0 by lia. done.
Qed.
(** The packet carries the low 48 bits of the block number and the low 16 bits of the count. *)
Lemma fis_fields lba count write : let fis := new_dma_command lba count write in let byte i := nth i fis 0 in
  from_le [byte 4%nat; byte 5%nat; byte 6%nat; byte 8%nat; byte 9%nat; byte 10%nat] = lba mod 2 ^ 48 /\
  from_le [byte 12%nat; byte 13%nat] = count mod 2 ^ 16.
Proof.
  cbn [nth new_dma_command]. pose proof (to_le_6 lba) as E6. pose proof (to_le_pair count) as E2. cbn beta iota zeta in *. rewrite <-E6, <-E2.
  split; apply from_to_le_mod.
Qed.

(** ** The port after its initialisation *)
Section Commands.
Context {H : Type} `{HH : Hba H} (info : PortInfo) {HL : HbaLaws H (port_base info)}.
Implicit Types (s : Driver H) (h : H).
Abbreviation drv := (st (Driver H) unit).
Definition at_ (s : Driver H) : Board := board (hw s).

Record wired (t : Z) (b : Board) : Prop := {
  w_run : b_run b = true;
  w_phase : b_phase b = Idle \/ b_phase b = Failed;
  w_pages : virt_cmd_list info mod PAGE_4K = 0 /\ virt_cmd_tables_base info mod PAGE_4K = 0;
  w_virt : virt_addr (table_addr info 0) = Some (table_addr info 0);
  w_list : b_map b !! virt_cmd_list info = Some (b_clb b);
  w_table : b_map b !! virt_cmd_tables_base info = Some t;
  w_frames : b_clb b mod PAGE_4K = 0 /\ t mod PAGE_4K = 0 /\ t <> b_clb b;
  w_link : get64 (b_mem b) (b_clb b + HEADER_CTBA) = t;
}.
Definition ready (s : Driver H) : Prop := PORTS s = Some [info] /\ exists t, wired t (at_ s).

(** *** Registers *)
Lemma read_reg_eq r s : r mod 4 = 0 -> exists h, read_reg (port_base info) r s = (Ok (hba_read (port_base info + r) (hw s)).1, with_hw s h) /\ h = (hba_read (port_base info + r) (hw s)).2.
Proof.
  intros Hr. unfold read_reg, on_hw. replace (r / 4 * 4) with r by (pose proof (Z.div_mod r 4 ltac:(lia)); lia).
  destruct (hba_read _ _) as [v h]. by exists h.
Qed.
Lemma read_ci_eq s : exists h, read_reg (port_base info) CI s = (Ok (seen (b_phase (at_ s))).1, with_hw s h) /\
  board h = with_phase (seen (b_phase (at_ s))).2 (at_ s).
Proof using HL.
  destruct (read_reg_eq CI s) as (h & Hr & ->); [done|]. destruct (read_ci (hw s)) as [H1 H2]. exists (hba_read (port_base info + CI) (hw s)).2. by rewrite Hr, H1.
Qed.
Lemma write_reg_eq r v s : r mod 4 = 0 -> write_reg (port_base info) r v s = (Ok tt, with_hw s (hba_write (port_base info + r) v (hw s))).
Proof. intros Hr. unfold write_reg, change_hw. replace (r / 4 * 4) with r by (pose proof (Z.div_mod r 4 ltac:(lia)); lia). done. Qed.

(** Acknowledging: the two writes of [IS] and [SERR]. *)
Lemma clear_errors_eq s : exists h, clear_errors (port_base info) s = (Ok tt, with_hw s h) /\
  board h = if task_error (b_phase (at_ s)) then with_phase Failed (at_ s) else at_ s.
Proof using HL.
  eexists. unfold clear_errors. rewrite (st_bind_eq _ _ _ _ _ (write_reg_eq IS _ s eq_refl)), write_reg_eq by done. split; [done|].
  cbn [hw with_hw]. by rewrite write_serr, write_is.
Qed.

(** *** The wait *)
(** What a wait may do to the driver besides the phase of the port. *)
Definition waits (ph : Phase) (s s' : Driver H) : Prop := PORTS s' = PORTS s /\ at_ s' = with_phase ph (at_ s).

Lemma check_completion_ok s : PORTS s = Some [info] -> exists s', check_ahci_completion s = (Ok tt, s') /\
  (waits (b_phase (at_ s)) s s' \/ waits (seen (b_phase (at_ s))).2 s s').
Proof using HL.
  intros Hp. unfold check_ahci_completion, mbind at 1, st_bind at 1, st_get. cbn beta iota. rewrite Hp.
  destruct (AHCI_BLOCKED s); cbn [negb].
  - destruct (read_ci_eq s) as (h & Hr & Hb). cbn [any_idle]. 
    destruct ((seen (b_phase (at_ s))).1 =? 0) eqn:E0.
    + exists (mkDriver h false (PORTS s)). split; [|right; by split]. erewrite st_bind_eq; [|erewrite st_bind_eq by done; by rewrite E0]. done.
    + exists (with_hw s h). split; [|right; by split]. erewrite st_bind_eq; [|erewrite st_bind_eq by done; by rewrite E0]. done.
  - exists s. split; [done|]. left. split; [done|]. by destruct (at_ s).
Qed.
Lemma waits_trans p1 p2 s s1 s2 : waits p1 s s1 -> waits p2 s1 s2 -> waits p2 s s2.
Proof. intros [A1 A2] [B1 B2]. split; [congruence|]. by rewrite B2, A2. Qed.
Lemma waits_phase p s s' : waits p s s' -> b_phase (at_ s') = p.
Proof. intros [_ ->]. done. Qed.

(** The command in [slot] is still to end with [ok], after at most [n] more looks. *)
Definition pending (slot : Z) (ok : bool) (n : nat) (p : Phase) : Prop :=
  p = Idle /\ ok = true \/ exists j, p = Busy slot j ok /\ (j <= n)%nat.
Definition ended (ok : bool) : Phase := if ok then Idle else Failed.

Lemma read_is_eq s : exists v h, read_reg (port_base info) IS s = (Ok v, with_hw s h) /\ board h = at_ s /\ (Z.land v IS_TFES =? 0) = negb (task_error (b_phase (at_ s))).
Proof using HL.
  destruct (read_reg_eq IS s) as (h & Hr & ->); [done|]. destruct (read_is (hw s)) as [H1 H2]. eexists _, _. split_and!; [done|done|].
  fold (at_ s) in H1. destruct (task_error (b_phase (at_ s))).
  - apply Z.eqb_neq. intros E0. by apply H1 in E0.
  - by apply Z.eqb_eq, H1.
Qed.
(** Acknowledging an error with the values read. *)
Lemma acknowledge_eq {A} (x : drv A) v s :
  exists h, (serr ← read_reg (port_base info) SERR; _ ← write_reg (port_base info) IS v; _ ← write_reg (port_base info) SERR serr; x) s = x (with_hw s h) /\
    board h = if task_error (b_phase (at_ s)) then with_phase Failed (at_ s) else at_ s.
Proof using HL.
  destruct (read_reg_eq SERR s) as (h & Hr & ->); [done|]. eexists. rewrite (st_bind_eq _ _ _ _ _ Hr).
  rewrite (st_bind_eq _ _ _ _ _ (write_reg_eq IS _ _ eq_refl)), (st_bind_eq _ _ _ _ _ (write_reg_eq SERR _ _ eq_refl)). split; [done|].
  cbn [hw with_hw]. by rewrite write_serr, write_is, read_serr.
Qed.

Lemma pow_land slot : 0 <= slot -> (Z.land (2 ^ slot) (2 ^ slot) =? 0) = false.
Proof. intros Hs. rewrite Z.land_diag. apply Z.eqb_neq. lia. Qed.

(** The part of a round after the command was seen running. *)
Lemma poll_running slot k ok s : PORTS s = Some [info] -> b_phase (at_ s) = Busy slot k ok ->
  exists r s', (int_status ← read_reg (port_base info) IS;
    if negb (Z.land int_status IS_TFES =? 0) then
      serr ← read_reg (port_base info) SERR; _ ← write_reg (port_base info) IS int_status; _ ← write_reg (port_base info) SERR serr; mret (Some false)
    else
      s ← st_get;
      if has_current_process (hw s) then _ ← set_blocked true; _ ← change_hw block_and_halt; _ ← check_ahci_completion; mret None
      else mret None) s = (Ok r, s') /\
    (r = Some ok /\ waits (ended ok) s s' \/ r = None /\ task_error (Busy slot k ok) = false /\ exists p, waits p s s' /\ pending slot ok k p).
Proof using HL.
  intros Hp Hb. destruct (read_is_eq s) as (v & h & Hr & Hbh & Hv). rewrite (st_bind_eq _ _ _ _ _ Hr), Hv, Hb, negb_involutive.
  assert (at_ (with_hw s h) = at_ s) as Hat by done.
  destruct (task_error (Busy slot k ok)) eqn:He.
  - destruct k; [|done]. destruct ok; [done|]. destruct (acknowledge_eq (mret (Some false)) v (with_hw s h)) as (h' & Ha & Hb'). rewrite Ha.
    rewrite Hat, Hb in Hb'. eexists _, _. split; [done|]. left. done.
  - unfold mbind at 1, st_bind at 1, st_get. cbn beta iota. destruct (has_current_process _).
    + set (s1 := mkDriver (block_and_halt h) true (PORTS s)).
      assert (at_ s1 = at_ s) as Hat1 by (unfold at_ at 1; cbn; by rewrite halt_ok).
      destruct (check_completion_ok s1 Hp) as (s2 & H2 & Hw). eexists None, s2. split; [|right; split; [done|split; [done|]]].
      { do 2 (erewrite st_bind_eq by reflexivity). fold s1. by rewrite (st_bind_eq _ _ _ _ _ H2). }
      rewrite Hat1, Hb in Hw. assert (forall p, waits p s1 s2 -> waits p s s2) as Hws by (intros p [? E2]; split; [done|by rewrite E2, Hat1]).
      destruct Hw as [Hw|Hw]; eexists; (split; [by apply Hws|]); [right; eauto|].
      destruct k as [|k], ok; cbn; [by left|done|right; eauto..].
    + eexists None, (with_hw s h). split; [done|]. right. split; [done|split; [done|]]. exists (Busy slot k ok). split; [|right; eauto].
      split; [done|]. rewrite Hat, <-Hb. by destruct (at_ s).
Qed.
Lemma poll_ok slot n ok s : 0 <= slot -> PORTS s = Some [info] -> pending slot ok n (b_phase (at_ s)) ->
  exists r s', poll (port_base info) slot s = (Ok r, s') /\
    (r = Some ok /\ waits (ended ok) s s' \/ r = None /\ (0 < n)%nat /\ exists p, waits p s s' /\ pending slot ok (pred n) p).
Proof using HL.
  intros Hs Hp Hpend. unfold poll. destruct (read_ci_eq s) as (h & Hr & Hb). rewrite (st_bind_eq _ _ _ _ _ Hr).
  assert (forall p, waits p s (with_hw s h) <-> p = (seen (b_phase (at_ s))).2) as Hw.
  { intros p. unfold waits, at_ at 1. cbn [hw with_hw PORTS]. rewrite Hb. split; [|by intros ->]. intros [_ E2]. by injection E2 as ->. }
  destruct Hpend as [[E0 ->]|(j & E0 & Hj)]; rewrite E0 in *; cbn [seen fst snd].
  { eexists _, _. split; [done|]. left. split; [done|]. by apply Hw. }
  assert (forall k, (seen (Busy slot j ok)) = (2 ^ slot, Busy slot k ok) -> exists r s', (int_status ← read_reg (port_base info) IS;
      if negb (Z.land int_status IS_TFES =? 0) then
        serr ← read_reg (port_base info) SERR; _ ← write_reg (port_base info) IS int_status; _ ← write_reg (port_base info) SERR serr; mret (Some false)
      else
        s ← st_get;
        if has_current_process (hw s) then _ ← set_blocked true; _ ← change_hw block_and_halt; _ ← check_ahci_completion; mret None
        else mret None) (with_hw s h) = (Ok r, s') /\
      (r = Some ok /\ waits (ended ok) s s' \/ r = None /\ task_error (Busy slot k ok) = false /\ exists p, waits p s s' /\ pending slot ok k p)) as Hrun.
  { intros k Hk. assert (waits (Busy slot k ok) s (with_hw s h)) as Hw0 by (apply Hw; by rewrite Hk).
    destruct (poll_running slot k ok (with_hw s h) Hp (waits_phase _ _ _ Hw0)) as (r & s' & Hr' & Hc). exists r, s'. split; [done|].
    destruct Hc as [[? ?]|(? & ? & p & ? & ?)]; [left|right]; eauto 10 using waits_trans. }
  destruct j as [|j]; [destruct ok|]; cbn [seen fst] in *; rewrite ?pow_land by done.
  - eexists _, _. split; [done|]. left. split; [done|]. by apply Hw.
  - destruct (Hrun O eq_refl) as (r & s' & Hr' & Hc). exists r, s'. split; [done|]. destruct Hc as [?|(_ & [=] & _)]. by left.
  - destruct (Hrun j eq_refl) as (r & s' & Hr' & Hc). exists r, s'. split; [done|]. destruct Hc as [?|(-> & _ & p & Hwp & Hpp)]; [by left|right].
    split_and!; [done|lia|]. exists p. split; [done|]. destruct Hpp as [?|(i & -> & Hi)]; [by left|]. right. exists i. split; [done|lia].
Qed.

(** The rounds of the loop, one after the other. *)
Fixpoint in_turn (n : nat) (round : drv (option bool)) : drv (option bool) :=
  match n with
  | O => mret None
  | S n => r ← round; match r with Some b => mret (Some b) | None => in_turn n round end
  end.
Lemma in_turn_add n m round s : in_turn (n + m) round s = (r ← in_turn n round; match r with Some b => mret (Some b) | None => in_turn m round end) s.
Proof.
  revert s. induction n as [|n IH]; intros s; [done|]. cbn [in_turn Nat.add]. unfold mbind, st_bind.
  destruct (round s) as [[[b|]| |] s1]; [done| |done|done]. by rewrite IH.
Qed.
Lemma rounds_in_turn p round s : rounds p round s = in_turn (Pos.to_nat p) round s.
Proof.
  revert s. induction p as [p IH|p IH|]; intros s; cbn [rounds].
  - rewrite Pos2Nat.inj_xI. replace (S (2 * Pos.to_nat p)) with (S (Pos.to_nat p + Pos.to_nat p)) by lia. cbn [in_turn].
    unfold mbind, st_bind. destruct (round s) as [[[b|]| |] s1]; [done| |done|done]. rewrite in_turn_add. unfold mbind, st_bind. rewrite IH.
    destruct (in_turn _ _ s1) as [[[b|]| |] s2]; [done|apply IH|done|done].
  - rewrite Pos2Nat.inj_xO. replace (2 * Pos.to_nat p)%nat with (Pos.to_nat p + Pos.to_nat p)%nat by lia. rewrite in_turn_add.
    unfold mbind, st_bind. rewrite IH. destruct (in_turn _ _ s) as [[[b|]| |] s2]; [done|apply IH|done|done].
  - change (Pos.to_nat 1) with 1%nat. cbn [in_turn]. unfold mbind, st_bind. by destruct (round s) as [[[b|]| |] s1].
Qed.
Lemma in_turn_ok slot ok n : forall m s, 0 <= slot -> PORTS s = Some [info] -> pending slot ok n (b_phase (at_ s)) -> (n < m)%nat ->
  exists s', in_turn m (poll (port_base info) slot) s = (Ok (Some ok), s') /\ waits (ended ok) s s'.
Proof using HL.
  induction n as [n IH] using lt_wf_ind; intros m s Hs Hp Hpend Hm. destruct m as [|m]; [lia|]. cbn [in_turn].
  destruct (poll_ok slot n ok s Hs Hp Hpend) as (r & s1 & H1 & [[-> Hw]|(-> & Hn & p & Hw & Hpend')]); rewrite (st_bind_eq _ _ _ _ _ H1).
  - by exists s1.
  - destruct (IH (pred n) ltac:(lia) m s1) as (s2 & H2 & Hw2); [done|rewrite (proj1 Hw); done|by rewrite (waits_phase _ _ _ Hw)|lia|].
    exists s2. split; [done|]. by eapply waits_trans.
Qed.
Lemma wait_ok slot ok k s : 0 <= slot -> PORTS s = Some [info] -> b_phase (at_ s) = Busy slot k ok -> Z.of_nat k < Z.pos TIMEOUT_MAX ->
  exists s', wait_for_completion (port_base info) slot s = (Ok ok, s') /\ waits (ended ok) s s'.
Proof using HL.
  intros Hs Hp Hb Hk. destruct (in_turn_ok slot ok k (Pos.to_nat TIMEOUT_MAX) s) as (s' & H1 & Hw); [done|done|right; eauto|rewrite <-positive_nat_Z in Hk; lia|].
  exists s'. split; [|done]. unfold wait_for_completion. rewrite <-rounds_in_turn in H1. by rewrite (st_bind_eq _ _ _ _ _ H1).
Qed.

(** *** The command in memory *)
Lemma header_0 : header_addr info 0 = virt_cmd_list info.
Proof. unfold header_addr. lia. Qed.
Lemma table_0 : table_addr info 0 = virt_cmd_tables_base info.
Proof. unfold table_addr. lia. Qed.
Lemma store_eq v bs p f s : p mod PAGE_4K = 0 -> b_map (at_ s) !! p = Some f -> p <= v -> v + Z.of_nat (length bs) <= p + PAGE_4K ->
  exists h, store v bs s = (Ok tt, with_hw s h) /\ board h = with_mem (mem_put (f + (v - p)) bs (b_mem (at_ s))) (at_ s).
Proof using HL. intros. eexists. split; [done|]. by apply mem_write_ok. Qed.

Definition flag_bytes (write : bool) : list Z := to_le 2 (Z.lor (Z.land (FIS_SIZE / 4) 0x1F) (if write then CMD_WRITE else 0)).
Definition header_mem (clb t : Z) (fis : list Z) (write : bool) (m : gmap Z Z) : gmap Z Z :=
  mem_put t fis (mem_put (clb + 4) (to_le 4 0) (mem_put (clb + 2) (to_le 2 0) (mem_put clb (flag_bytes write) m))).
Definition region_size (total : Z) : Z := Z.lor (prdt_mask_bytecount (total - 1)) PRDT_IOC.
Definition data_mem (clb t f total : Z) (m : gmap Z Z) : gmap Z Z :=
  mem_put (clb + 2) (to_le 2 1) (mem_put (t + 140) (to_le 4 (region_size total))
    (mem_put (t + 132) (to_le 4 (Z.land (Z.shiftr f 32) 0xFFFFFFFF)) (mem_put (t + 128) (to_le 4 (Z.land f 0xFFFFFFFF)) m))).
Definition page_mem (f : Z) (data : option (list Z)) (m : gmap Z Z) : gmap Z Z :=
  let m := mem_put f (replicate (Z.to_nat PAGE_4K) 0) m in match data with Some d => mem_put f d m | None => m end.

Lemma setup_command_ok t lba count write s : wired t (at_ s) -> exists h, setup_command info 0 lba count write s = (Ok (virt_cmd_tables_base info), with_hw s h) /\
  board h = with_mem (header_mem (b_clb (at_ s)) t (new_dma_command lba count write) write (b_mem (at_ s))) (at_ s).
Proof using HL.
  intros [_ _ [Hp1 Hp2] Hv Hl Ht _ _]. unfold setup_command. rewrite header_0. rewrite table_0 in Hv.
  assert (length (flag_bytes write) = 2%nat) as Hlen by (unfold flag_bytes; by rewrite to_le_length).
  destruct (store_eq (virt_cmd_list info) (flag_bytes write) _ _ s Hp1 Hl) as (h1 & H1 & E1); [lia|unfold PAGE_4K; lia|].
  rewrite (st_bind_eq _ _ _ _ _ H1).
  destruct (store_eq (virt_cmd_list info + 2) (to_le 2 0) (virt_cmd_list info) (b_clb (at_ s)) (with_hw s h1)) as (h2 & H2 & E2);
    [done|unfold at_ at 1; cbn; by rewrite E1|lia|rewrite to_le_length; unfold PAGE_4K; lia|]. rewrite (st_bind_eq _ _ _ _ _ H2).
  destruct (store_eq (virt_cmd_list info + 4) (to_le 4 0) (virt_cmd_list info) (b_clb (at_ s)) (with_hw s h2)) as (h3 & H3 & E3);
    [done|unfold at_ in *; cbn in *; by rewrite E2, E1|lia|rewrite to_le_length; unfold PAGE_4K; lia|]. cbn [with_hw hw AHCI_BLOCKED PORTS] in *. rewrite (st_bind_eq _ _ _ _ _ H3).
  unfold new_virt. rewrite table_0, Hv. cbn [unwrap]. erewrite st_lift_bind by done.
  destruct (store_eq (virt_cmd_tables_base info) (new_dma_command lba count write) (virt_cmd_tables_base info) t (with_hw s h3)) as (h4 & H4 & E4);
    [done|unfold at_ in *; cbn in *; by rewrite E3, E2, E1|lia|cbn; unfold PAGE_4K; lia|]. cbn [with_hw hw AHCI_BLOCKED PORTS] in *.
  rewrite (st_bind_eq _ _ _ _ _ H4). exists h4. split; [done|]. rewrite E4. unfold at_ in *. cbn [with_hw hw] in *. rewrite E3, E2, E1. unfold header_mem.
  cbn [b_clb b_mem with_mem b_map b_disk b_run b_phase b_room]. unfold with_mem. cbn [b_clb b_mem b_map b_disk b_run b_phase b_room].
  rewrite !Z.sub_diag, !Z.add_0_r, !Z.add_simpl_l. done.
Qed.

Lemma slice_0 {E} n l : (n <= length l)%nat -> slice (E := E) 0 n l = Ok (take n l).
Proof. intros. rewrite slice_Ok by lia. unfold sub_bytes. by rewrite drop_0. Qed.
(** The stores of the data and its descriptor, on a board where the three pages are mapped. *)
Lemma store_region v f clb t total data write s :
  v mod PAGE_4K = 0 -> virt_cmd_list info mod PAGE_4K = 0 -> virt_cmd_tables_base info mod PAGE_4K = 0 ->
  b_map (at_ s) !! v = Some f -> b_map (at_ s) !! virt_cmd_list info = Some clb -> b_map (at_ s) !! virt_cmd_tables_base info = Some t ->
  0 < total <= PAGE_4K -> (write = true -> total <= Z.of_nat (length data)) ->
  exists h, (_ ← store v (replicate (Z.to_nat PAGE_4K) 0);
    _ ← (if write then d ← st_lift (slice 0 (Z.to_nat total) data); store v d else mret tt);
    _ ← write_prdt (virt_cmd_tables_base info) f total;
    _ ← store (header_addr info 0 + 2) (to_le 2 1);
    mret v) s = (Ok v, with_hw s h) /\
  board h = with_mem (data_mem clb t f total (page_mem f (if write then Some (take (Z.to_nat total) data) else None) (b_mem (at_ s)))) (at_ s).
Proof using HL.
  intros Hv Hp1 Hp2 Lv Ll Lt Ht Hd. rewrite header_0.
  destruct (store_eq v (replicate (Z.to_nat PAGE_4K) 0) v f s Hv Lv) as (h0 & H0 & E0); [lia|rewrite length_replicate; unfold PAGE_4K; lia|].
  rewrite (st_bind_eq _ _ _ _ _ H0). rewrite Z.sub_diag, Z.add_0_r in E0.
  assert (exists h1, (if write then d ← st_lift (slice 0 (Z.to_nat total) data); store v d else mret tt) (with_hw s h0) = (Ok tt, with_hw s h1) /\
    board h1 = with_mem (page_mem f (if write then Some (take (Z.to_nat total) data) else None) (b_mem (at_ s))) (at_ s)) as (h1 & H1 & E1).
  { destruct write; [|by exists h0]. rewrite (st_lift_bind _ _ _ (take (Z.to_nat total) data)) by (apply slice_0; specialize (Hd eq_refl); lia).
    destruct (store_eq v (take (Z.to_nat total) data) v f (with_hw s h0) Hv) as (h1 & H1 & E1);
      [unfold at_; cbn; by rewrite E0|lia|rewrite length_take; unfold PAGE_4K in *; lia|]. rewrite Z.sub_diag, Z.add_0_r in E1.
    exists h1. split; [done|]. unfold at_ in E1 at 1 2. cbn [with_hw hw] in E1. by rewrite E1, E0. }
  rewrite (st_bind_eq _ _ _ _ _ H1). set (b1 := board h1) in *.
  assert (b_map b1 = b_map (at_ s) /\ b_clb b1 = b_clb (at_ s)) as [Em _] by (by rewrite E1).
  unfold write_prdt.
  destruct (store_eq (virt_cmd_tables_base info + TABLE_PRDT) (to_le 4 (Z.land f 0xFFFFFFFF)) (virt_cmd_tables_base info) t (with_hw s h1) Hp2) as (h2 & H2 & E2);
    [by unfold at_; cbn; fold b1; rewrite Em|unfold TABLE_PRDT; lia|rewrite to_le_length; unfold TABLE_PRDT, PAGE_4K; lia|].
  destruct (store_eq (virt_cmd_tables_base info + TABLE_PRDT + 4) (to_le 4 (Z.land (Z.shiftr f 32) 0xFFFFFFFF)) (virt_cmd_tables_base info) t (with_hw s h2) Hp2) as (h3 & H3 & E3);
    [unfold at_ in *; cbn in *; rewrite E2; cbn; fold b1; by rewrite Em|unfold TABLE_PRDT; lia|rewrite to_le_length; unfold TABLE_PRDT, PAGE_4K; lia|].
  destruct (store_eq (virt_cmd_tables_base info + TABLE_PRDT + 12) (to_le 4 (Z.lor (prdt_mask_bytecount (total - 1)) PRDT_IOC)) (virt_cmd_tables_base info) t (with_hw s h3) Hp2) as (h4 & H4 & E4);
    [unfold at_ in *; cbn in *; rewrite E3, E2; cbn; fold b1; by rewrite Em|unfold TABLE_PRDT; lia|rewrite to_le_length; unfold TABLE_PRDT, PAGE_4K; lia|].
  destruct (store_eq (virt_cmd_list info + 2) (to_le 2 1) (virt_cmd_list info) clb (with_hw s h4) Hp1) as (h5 & H5 & E5);
    [unfold at_ in *; cbn in *; rewrite E4, E3, E2; cbn; fold b1; by rewrite Em|lia|rewrite to_le_length; unfold PAGE_4K; lia|].
  erewrite st_bind_eq; [|rewrite (st_bind_eq _ _ _ _ _ H2), (st_bind_eq _ _ _ _ _ H3); exact H4].
  rewrite (st_bind_eq _ _ _ _ _ H5). exists h5. split; [done|]. unfold at_ in *. cbn [with_hw hw] in *. rewrite E5, E4, E3, E2. fold b1. rewrite E1.
  unfold with_mem, data_mem, region_size, TABLE_PRDT. cbn [b_clb b_mem b_map b_disk b_run b_phase b_room]. do 2 f_equal; [|f_equal; [|f_equal; [|f_equal]]]; lia.
Qed.

Lemma pages_apart x y : x mod PAGE_4K = 0 -> y mod PAGE_4K = 0 -> x <> y -> x + PAGE_4K <= y \/ y + PAGE_4K <= x.
Proof. unfold PAGE_4K. intros Hx Hy Hne. Z.div_mod_to_equations. lia. Qed.
Lemma page_mem_away f a n d m0 : (forall bs, d = Some bs -> Z.of_nat (length bs) <= PAGE_4K) -> a + Z.of_nat n <= f \/ f + PAGE_4K <= a ->
  mem_get (page_mem f d m0) a n = mem_get m0 a n.
Proof.
  intros Hd Ha. unfold page_mem. destruct d as [bs|]; rewrite ?mem_get_away; rewrite ?length_replicate; try done; try (unfold PAGE_4K in *; lia).
  specialize (Hd _ eq_refl). lia.
Qed.
Lemma flag_fields write : Z.land (from_le (flag_bytes write)) 0x1F = 5 /\ Z.testbit (from_le (flag_bytes write)) 6 = write.
Proof. by destruct write. Qed.
(** Three pages of memory: the command list, the table and the data. *)
Section Layout.
Context (clb t f total : Z) (m : gmap Z Z) (lba count : Z) (write : bool) (data : list Z).
Context (Hc : clb mod PAGE_4K = 0) (Ht : t mod PAGE_4K = 0) (Hf : f mod PAGE_4K = 0) (Hfu : is_u 64 f) (Htc : t <> clb) (Hft : f <> t) (Hfc : f <> clb).
Context (Hlink : get64 m (clb + HEADER_CTBA) = t) (Hcount : 0 < count <= 8) (Htot : total = count * 512).
Context (Hdata : write = true -> Z.of_nat (length data) = total).
Let fis := new_dma_command lba count write.
Let M := data_mem clb t f total (page_mem f (if write then Some data else None) (header_mem clb t fis write m)).

Lemma flag_length : length (flag_bytes write) = 2%nat.
Proof. unfold flag_bytes. by rewrite to_le_length. Qed.
Lemma data_small bs : (if write then Some data else None) = Some bs -> Z.of_nat (length bs) <= PAGE_4K.
Proof using All. destruct write; [|done]. intros [= <-]. rewrite Hdata by done. unfold PAGE_4K. lia. Qed.

Ltac away := repeat (rewrite mem_get_away by (rewrite ?to_le_length, ?flag_length; unfold PAGE_4K, HEADER_CTBA in *; lia)).
Lemma layout :
  mem_get M clb 2 = flag_bytes write /\ mem_get M (clb + 2) 2 = to_le 2 1 /\ get64 M (clb + 8) = t /\ mem_get M t 20 = fis /\
  get64 M (t + 128) = f /\ from_le (mem_get M (t + 140) 4) = region_size total /\ (write = true -> mem_get M f (Z.to_nat total) = data).
Proof using All.
  pose proof (pages_apart _ _ Hc Ht ltac:(congruence)) as D1. pose proof (pages_apart _ _ Hc Hf ltac:(congruence)) as D2.
  pose proof (pages_apart _ _ Ht Hf ltac:(congruence)) as D3. unfold M, data_mem, header_mem. assert (length fis = 20%nat) as Hfl by done.
  split_and!.
  - away. rewrite page_mem_away by (apply data_small || (unfold PAGE_4K in *; lia)). away. apply mem_get_same, flag_length.
  - apply mem_get_same. by rewrite to_le_length.
  - transitivity (get64 m (clb + HEADER_CTBA)); [|done]. unfold get64. f_equal; [|f_equal]; f_equal; away; rewrite page_mem_away by (apply data_small || (unfold PAGE_4K in *; lia)); away; done.
  - away. rewrite page_mem_away by (apply data_small || (unfold PAGE_4K in *; lia)). by apply mem_get_same.
  - unfold get64. replace (t + 128 + 4) with (t + 132) by lia.
    match goal with |- from_le ?x + _ * from_le ?y = _ => assert (x = to_le 4 (Z.land f 0xFFFFFFFF)) as -> by (away; apply mem_get_same, to_le_length);
      assert (y = to_le 4 (Z.land (Z.shiftr f 32) 0xFFFFFFFF)) as -> by (away; apply mem_get_same, to_le_length) end.
    rewrite !from_to_le_mod. change (8 * Z.of_nat 4) with 32.
    change 0xFFFFFFFF with (Z.ones 32). rewrite !Z.land_ones, Z.shiftr_div_pow2 by lia. unfold is_u in Hfu.
    assert (0 <= f / 2 ^ 32 < 2 ^ 32) as Hhi by (split; [apply Z.div_pos|apply Z.div_lt_upper_bound]; lia).
    rewrite !Z.mod_mod, (Z.mod_small (f / 2 ^ 32) (2 ^ 32)) by lia. pose proof (Z.div_mod f (2 ^ 32) ltac:(lia)). lia.
  - away. rewrite mem_get_same by (by rewrite to_le_length). rewrite from_to_le_mod. apply Z.mod_small.
    assert (count = 1 \/ count = 2 \/ count = 3 \/ count = 4 \/ count = 5 \/ count = 6 \/ count = 7 \/ count = 8) as Hcases by lia.
    rewrite Htot. by destruct Hcases as [->|[->|[->|[->|[->|[->|[->| ->]]]]]]].
  - intros Hw. rewrite Hw in *. away. unfold page_mem. apply mem_get_same. specialize (Hdata eq_refl). lia.
Qed.

Lemma region_total : Z.land (region_size total) 0x3FFFFF + 1 = count * 512.
Proof using All.
  assert (count = 1 \/ count = 2 \/ count = 3 \/ count = 4 \/ count = 5 \/ count = 6 \/ count = 7 \/ count = 8) as Hcases by (clear -Hcount; lia).
  rewrite Htot. by destruct Hcases as [->|[->|[->|[->|[->|[->|[->| ->]]]]]]].
Qed.
(** The drive carries out the command that the driver meant. *)
Lemma execute_command b : b_mem b = M -> b_clb b = clb ->
  execute b 0 =
    let l := lba mod 2 ^ 48 in
    if (l + count) * 512 <=? Z.of_nat (length (b_disk b)) then
      Some (if write then with_mem (mem_put (clb + 4) (to_le 4 total) M) (with_disk (put (Z.to_nat (l * 512)) data (b_disk b)) b)
            else with_mem (mem_put (clb + 4) (to_le 4 total) (mem_put f (sub_bytes (Z.to_nat (l * 512)) (Z.to_nat total) (b_disk b)) M)) b)
    else None.
Proof using All.
  intros Hm Hb. destruct layout as (L1 & L2 & L3 & L4 & L5 & L6 & L7). destruct (flag_fields write) as [F1 F2]. pose proof region_total as F3.
  destruct (fis_fields lba count write) as [F4 F5]. unfold execute. rewrite Hm, Hb, Z.mul_0_l, Z.add_0_r, L1, L2, L3, L4, L5, L6, F1, F2, F3.
  fold fis in F4, F5. cbn beta zeta in F4, F5. cbv zeta. rewrite F4, F5. rewrite (Z.mod_small count) by (clear -Hcount; lia). rewrite <-Htot.
  change (from_le (to_le 2 1)) with 1. rewrite !Z.eqb_refl. change (nth 0 fis 0) with 0x27. change (nth 1 fis 0) with 0x80. change (nth 7 fis 0) with 0x40.
  change (nth 2 fis 0) with (if write then WRITE_DMA_EXT else READ_DMA_EXT). cbn [andb Z.testbit Pos.testbit Z.eqb Pos.eqb].
  change (Z.testbit 0x80 7) with true. change (Z.testbit 0x40 6) with true. cbn [andb].
  rewrite (proj2 (Z.leb_le 0 _)) by (clear; apply Z.mod_pos_bound; lia). rewrite (proj2 (Z.ltb_lt 0 count)) by (clear -Hcount; lia). cbn [andb].
  destruct (_ <=? _); [|done]. destruct write; cbn; [|done]. by rewrite L7.
Qed.
End Layout.

(** *** The doorbell and the result *)
Lemma check_errors_idle s : b_phase (at_ s) = Idle -> exists h, check_errors (port_base info) s = (Ok tt, with_hw s h) /\ board h = at_ s.
Proof using HL.
  intros Hp. destruct (read_reg_eq TFD s) as (h & Hr & ->); [done|]. destruct (read_tfd (hw s)) as [H1 H2]. fold (at_ s) in H1, H2.
  eexists. unfold check_errors. rewrite (st_bind_eq _ _ _ _ _ Hr). rewrite (proj2 (Z.eqb_eq _ _)) by (apply H1; congruence). done.
Qed.
Lemma check_errors_failed s : b_phase (at_ s) = Failed -> exists h, check_errors (port_base info) s = (Err tt, with_hw s h) /\ board h = at_ s.
Proof using HL.
  intros Hp. destruct (read_reg_eq TFD s) as (h & Hr & Hh); [done|]. destruct (read_tfd (hw s)) as [H1 H2]. fold (at_ s) in H1, H2.
  unfold check_errors. rewrite (st_bind_eq _ _ _ _ _ Hr). rewrite (proj2 (Z.eqb_neq _ _)) by (intros E0; by apply H1 in E0). cbn [negb].
  destruct (read_is_eq (with_hw s h)) as (v & h1 & Hr1 & E1 & _). rewrite (st_bind_eq _ _ _ _ _ Hr1).
  destruct (acknowledge_eq (st_lift (A := unit) (Err tt)) v (with_hw (with_hw s h) h1)) as (h2 & Ha & E2). rewrite Ha.
  exists h2. split; [done|]. unfold at_ in *. cbn [with_hw hw] in *. subst h. rewrite E2, E1, H2. by rewrite Hp.
Qed.

Lemma ring_ok s : b_run (at_ s) = true -> b_phase (at_ s) = Idle \/ b_phase (at_ s) = Failed -> PORTS s = Some [info] ->
  exists s', (cmd_status ← read_reg (port_base info) CMD;
    if Z.land cmd_status CMD_ST =? 0 then st_lift (Err tt)
    else _ ← write_reg (port_base info) CI (2 ^ 0); wait_for_completion (port_base info) 0) s =
      (Ok (bool_decide (is_Some (execute (at_ s) 0))), s') /\ PORTS s' = PORTS s /\
    at_ s' = match execute (at_ s) 0 with Some b => with_phase Idle b | None => with_phase Failed (at_ s) end.
Proof using HL.
  intros Hrun Hph Hp. destruct (read_reg_eq CMD s) as (h & Hr & Hh); [done|]. destruct (read_cmd (hw s)) as [H1 H2]. fold (at_ s) in H1, H2. rewrite <-Hh in H2.
  rewrite (st_bind_eq _ _ _ _ _ Hr). rewrite (proj2 (Z.eqb_neq _ _)) by (intros E0; apply H1 in E0; congruence).
  rewrite (st_bind_eq _ _ _ _ _ (write_reg_eq CI (2 ^ 0) _ eq_refl)). cbn [with_hw hw].
  destruct (issue h 0) as (k & Hk & Hb); [by rewrite H2..|lia|]. rewrite H2 in Hb.
  set (s1 := with_hw (with_hw s h) (hba_write (port_base info + CI) (2 ^ 0) h)). change (board _) with (at_ s1) in Hb.
  destruct (execute (at_ s) 0) as [b|].
  - destruct (wait_ok 0 true k s1) as (s' & Hw & [E1 E2]); [done|done|by rewrite Hb|lia|]. exists s'. split; [done|]. rewrite E2, Hb. done.
  - destruct (wait_ok 0 false k s1) as (s' & Hw & [E1 E2]); [done|done|by rewrite Hb|lia|]. exists s'. split; [done|]. rewrite E2, Hb. done.
Qed.
Lemma issue_ok v f buf total write s : b_run (at_ s) = true -> b_phase (at_ s) = Idle \/ b_phase (at_ s) = Failed -> PORTS s = Some [info] ->
  v mod PAGE_4K = 0 -> b_map (at_ s) !! v = Some f -> 0 < total <= PAGE_4K -> (forall b, execute (at_ s) 0 = Some b -> b_map b = b_map (at_ s)) ->
  exists s', PORTS s' = PORTS s /\
    match execute (at_ s) 0 with
    | Some b => issue_command (port_base info) 0 v buf total write s = (Ok (if write then buf else mem_get (b_mem b) f (Z.to_nat total)), s') /\ at_ s' = with_phase Idle b
    | None => issue_command (port_base info) 0 v buf total write s = (Err tt, s') /\ at_ s' = with_phase Failed (at_ s)
    end.
Proof using HL.
  intros Hrun Hph Hp Hv Hf Ht Hmap. destruct (ring_ok s Hrun Hph Hp) as (s1 & H1 & Hp1 & E1). unfold issue_command.
  destruct (read_reg_eq CMD s) as (h & Hr & _); [done|].
  rewrite (st_bind_eq _ _ _ _ _ Hr) in H1. rewrite (st_bind_eq _ _ _ _ _ Hr). destruct (_ =? 0); [done|].
  rewrite (st_bind_eq _ _ _ _ _ (write_reg_eq CI (2 ^ 0) _ eq_refl)) in H1. rewrite (st_bind_eq _ _ _ _ _ (write_reg_eq CI (2 ^ 0) _ eq_refl)), (st_bind_eq _ _ _ _ _ H1).
  destruct (execute (at_ s) 0) as [b|] eqn:Ex; cbn.
  - destruct (check_errors_idle s1) as (h2 & H2 & E2); [by rewrite E1|]. exists (with_hw s1 h2). split; [done|]. split; [|unfold at_ at 1; cbn; congruence].
    rewrite (st_bind_eq _ _ _ (if write then buf else mem_get (b_mem b) f (Z.to_nat total)) s1).
    2:{ destruct write; [done|]. unfold load. cbn [negb]. rewrite (mem_read_ok (hw s1) v (Z.to_nat total) f Hv); [|fold (at_ s1); rewrite E1; cbn; by rewrite (Hmap b eq_refl)|lia].
        fold (at_ s1). by rewrite E1. }
    by rewrite (st_bind_eq _ _ _ _ _ H2).
  - destruct (check_errors_failed s1) as (h2 & H2 & E2); [by rewrite E1|]. exists (with_hw s1 h2). split; [done|]. split; [|unfold at_ at 1; cbn; congruence].
    rewrite (st_bind_eq _ _ _ buf s1) by done. by apply st_bind_Err.
Qed.

(** *** A whole command *)
Lemma first_slot s : b_phase (at_ s) = Idle \/ b_phase (at_ s) = Failed ->
  exists h, (r ← allocate_slot (port_base info); st_lift (ok_or tt r)) s = (Ok 0, with_hw s h) /\ board h = at_ s.
Proof using HL.
  intros Hph. destruct (read_ci_eq s) as (h & Hr & Hb). exists h.
  assert (seen (b_phase (at_ s)) = (0, b_phase (at_ s))) as Hs by (by destruct Hph as [-> | ->]). rewrite Hs in Hr, Hb. cbn [fst snd] in Hr, Hb.
  split; [|rewrite Hb; by destruct (at_ s)]. unfold allocate_slot. erewrite st_bind_eq; [|by rewrite (st_bind_eq _ _ _ _ _ Hr)]. done.
Qed.
Lemma wired_after t b b' : wired t b -> b_run b' = b_run b -> b_phase b' = Idle \/ b_phase b' = Failed -> b_map b' = b_map b -> b_clb b' = b_clb b ->
  get64 (b_mem b') (b_clb b + HEADER_CTBA) = t -> wired t b'.
Proof. intros [? ? ? ? ? ? ? ?] E1 E2 E3 E4 E5. split; rewrite ?E1, ?E3, ?E4; done. Qed.
Lemma wired_mem t m b : wired t b -> get64 m (b_clb b + HEADER_CTBA) = t -> wired t (with_mem m b).
Proof. intros [? ? ? ? ? ? ? ?] Hm. by split. Qed.
Lemma header_mem_link t fis write b : wired t b -> length fis = 20%nat -> get64 (header_mem (b_clb b) t fis write (b_mem b)) (b_clb b + HEADER_CTBA) = t.
Proof.
  intros [_ _ _ _ _ _ (Hc & Ht & Hne) Hl] Hf. pose proof (pages_apart _ _ Hc Ht ltac:(congruence)) as D. unfold header_mem.
  rewrite !get64_away; [done|..]; rewrite ?to_le_length, ?Hf; unfold HEADER_CTBA, PAGE_4K in *; try lia.
  unfold flag_bytes. rewrite to_le_length. lia.
Qed.
(** The beginning of a command: errors cleared, slot 0, header and packet. *)
Lemma prepare_ok t lba count write s : wired t (at_ s) -> exists h, (_ ← clear_errors (port_base info); slot ← (r ← allocate_slot (port_base info); st_lift (ok_or tt r));
    table ← setup_command info slot lba count write; mret (slot, table)) s = (Ok (0, virt_cmd_tables_base info), with_hw s h) /\
  board h = with_mem (header_mem (b_clb (at_ s)) t (new_dma_command lba count write) write (b_mem (at_ s))) (at_ s).
Proof using HL.
  intros Hw. pose proof (w_phase _ _ Hw) as Hph. destruct (clear_errors_eq s) as (h1 & H1 & E1).
  replace (task_error (b_phase (at_ s))) with false in E1 by (by destruct Hph as [-> | ->]). rewrite (st_bind_eq _ _ _ _ _ H1).
  destruct (first_slot (with_hw s h1)) as (h2 & H2 & E2); [unfold at_; cbn; by rewrite E1|]. unfold at_ in E2 at 1. cbn in E2. rewrite E1 in E2. rewrite (st_bind_eq _ _ _ _ _ H2).
  destruct (setup_command_ok t lba count write (with_hw s h2)) as (h3 & H3 & E3); [unfold at_; cbn; by rewrite E2|].
  unfold with_hw in *. cbn in *. rewrite (st_bind_eq _ _ _ _ _ H3). exists h3. split; [done|]. unfold at_ in E3. cbn in E3. rewrite E3, E2. done.
Qed.
Lemma send_command_eq lba buf count write s h : (_ ← clear_errors (port_base info); slot ← (r ← allocate_slot (port_base info); st_lift (ok_or tt r));
    table ← setup_command info slot lba count write; mret (slot, table)) s = (Ok (0, virt_cmd_tables_base info), with_hw s h) ->
  send_command info lba buf count write s =
    (let total := count * SECTOR_SIZE in
     if (total =? 0) || (PAGE_4K <? total) then st_lift (Err tt)
     else dma_virt ← setup_data info 0 (virt_cmd_tables_base info) buf total write;
          issue_command (port_base info) 0 dma_virt buf total write) (with_hw s h).
Proof.
  intros Hp. unfold send_command. apply st_bind_Ok in Hp as (u & s1 & H1 & Hp). apply st_bind_Ok in Hp as (slot & s2 & H2 & Hp).
  apply st_bind_Ok in Hp as (tb & s3 & H3 & [= -> -> ->]). by rewrite (st_bind_eq _ _ _ _ _ H1), (st_bind_eq _ _ _ _ _ H2), (st_bind_eq _ _ _ _ _ H3).
Qed.
Lemma dma_page_ok n s : 0 < n <= PAGE_4K -> (0 < b_room (at_ s))%nat -> exists v f h, dma_page n s = (Ok (v, f), with_hw s h) /\
    v mod PAGE_4K = 0 /\ f mod PAGE_4K = 0 /\ is_u 64 f /\ b_map (at_ s) !! v = None /\ (forall q, b_map (at_ s) !! q <> Some f) /\
    board h = with_map (<[v := f]> (b_map (at_ s))) (pred (b_room (at_ s))) (at_ s).
Proof using HL.
  intros Hn Hroom. destruct (kalloc_dma_ok (hw s) n Hn Hroom) as (v & f & h & Hr & Hv & Hf & Hu & Hnone & Hfresh & Hb). exists v, f, h. split_and!; try done.
  unfold dma_page. rewrite Hr, virt_to_phys_ok, Hb by done. cbn. by rewrite lookup_insert_eq.
Qed.

(** The board with the command of [total] bytes in place, and the page that holds its data. *)
Definition loaded (t v f lba count : Z) (write : bool) (data : list Z) (b : Board) : Board :=
  with_map (<[v := f]> (b_map b)) (pred (b_room b))
    (with_mem (data_mem (b_clb b) t f (count * 512) (page_mem f (if write then Some data else None)
      (header_mem (b_clb b) t (new_dma_command lba count write) write (b_mem b)))) b).
Lemma setup_ok t lba buf count write s : wired t (at_ s) -> (0 < b_room (at_ s))%nat -> 0 < count <= 8 -> (write = true -> Z.of_nat (length buf) = count * 512) ->
  exists v f h, send_command info lba buf count write s = issue_command (port_base info) 0 v buf (count * 512) write (with_hw s h) /\
    v mod PAGE_4K = 0 /\ f mod PAGE_4K = 0 /\ is_u 64 f /\ b_map (at_ s) !! v = None /\ (forall q, b_map (at_ s) !! q <> Some f) /\
    board h = loaded t v f lba count write buf (at_ s).
Proof using HL.
  intros Hw Hroom Hc Hlen. destruct (prepare_ok t lba count write s Hw) as (h1 & H1 & E1). rewrite (send_command_eq _ _ _ _ _ _ H1).
  change SECTOR_SIZE with 512. cbv zeta. rewrite (proj2 (Z.eqb_neq _ _)), (proj2 (Z.ltb_ge _ _)) by (unfold PAGE_4K; lia). cbn [orb].
  destruct (dma_page_ok (count * 512) (with_hw s h1)) as (v & f & h2 & H2 & Hv & Hf & Hu & Hnone & Hfresh & E2); [unfold PAGE_4K; lia|unfold at_; cbn; by rewrite E1|].
  unfold at_ in Hnone, Hfresh, E2. cbn [with_hw hw] in *. rewrite E1 in Hnone, Hfresh, E2. cbn [b_map with_mem] in *.
  pose proof (w_list _ _ Hw) as Ll. pose proof (w_table _ _ Hw) as Lt. destruct (w_pages _ _ Hw) as [Hp1 Hp2].
  destruct (store_region v f (b_clb (at_ s)) t (count * 512) buf write (with_hw s h2) Hv Hp1 Hp2) as (h3 & H3 & E3);
    [..|unfold PAGE_4K; lia|intros Hwr; rewrite Hlen by done; lia|]; [unfold at_; cbn; rewrite E2; cbn..|].
  { by rewrite lookup_insert_eq. }
  { rewrite lookup_insert_ne by (intros ->; fold (at_ s) in Hnone; congruence). done. }
  { rewrite lookup_insert_ne by (intros ->; fold (at_ s) in Hnone; congruence). done. }
  exists v, f, h3. split_and!; try done.
  - erewrite st_bind_eq; [done|]. unfold setup_data. rewrite (st_bind_eq _ _ _ _ _ H2). exact H3.
  - rewrite E3. unfold at_. cbn [with_hw hw]. rewrite E2. unfold loaded. destruct write; [|done]. by rewrite (take_ge buf) by (rewrite <-Hlen by done; lia).
Qed.

Lemma loaded_wired t v f lba count write data b : wired t b -> f mod PAGE_4K = 0 -> is_u 64 f -> b_map b !! v = None -> (forall q, b_map b !! q <> Some f) ->
  0 < count <= 8 -> (write = true -> Z.of_nat (length data) = count * 512) -> wired t (loaded t v f lba count write data b).
Proof using HL.
  intros [Hrun Hph Hp Hv Hl Ht (Hcl & Htl & Hne) Hlink] Hf Hu Hnone Hfresh Hc Hd.
  assert (f <> t /\ f <> b_clb b) as [Hft Hfc] by (split; intros ->; by eapply Hfresh).
  destruct (layout (b_clb b) t f (count * 512) (b_mem b) lba count write data) as (_ & _ & L3 & _); try done.
  split; try done; cbn; rewrite lookup_insert_ne by congruence; done.
Qed.

Lemma send_command_run lba buf count write s : ready s -> (0 < b_room (at_ s))%nat -> 0 < count <= 8 -> (write = true -> Z.of_nat (length buf) = count * 512) ->
  let l := lba mod 2 ^ 48 in
  exists s', ready s' /\ b_room (at_ s) = S (b_room (at_ s')) /\ (forall q f, b_map (at_ s) !! q = Some f -> b_map (at_ s') !! q = Some f) /\
    if (l + count) * 512 <=? Z.of_nat (length (b_disk (at_ s))) then
      send_command info lba buf count write s = (Ok (if write then buf else sub_bytes (Z.to_nat (l * 512)) (Z.to_nat (count * 512)) (b_disk (at_ s))), s') /\
      b_disk (at_ s') = if write then put (Z.to_nat (l * 512)) buf (b_disk (at_ s)) else b_disk (at_ s)
    else send_command info lba buf count write s = (Err tt, s') /\ b_disk (at_ s') = b_disk (at_ s).
Proof using HL.
  intros [Hp [t Hw]] Hroom Hc Hlen l. destruct (setup_ok t lba buf count write s Hw Hroom Hc Hlen) as (v & f & h & Hs & Hv & Hf & Hu & Hnone & Hfresh & Eb).
  pose proof (loaded_wired t v f lba count write buf (at_ s) Hw Hf Hu Hnone Hfresh Hc Hlen) as Hw1. rewrite Hs.
  pose proof (w_frames _ _ Hw) as (Hcl & Htl & Hne).
  assert (f <> t /\ f <> b_clb (at_ s)) as [Hft Hfc] by (split; intros ->; [by eapply Hfresh, (w_table _ _ Hw)|by eapply Hfresh, (w_list _ _ Hw)]).
  pose proof (execute_command (b_clb (at_ s)) t f (count * 512) (b_mem (at_ s)) lba count write buf Hcl Htl Hf Hu Hne Hft Hfc (w_link _ _ Hw) Hc eq_refl Hlen
    (loaded t v f lba count write buf (at_ s)) eq_refl eq_refl) as Hex. cbv zeta in Hex. fold l in Hex.
  destruct (issue_ok v f buf (count * 512) write (with_hw s h)) as (s' & Hp' & Hi);
    [by unfold at_; cbn; rewrite Eb; apply Hw1|by unfold at_; cbn; rewrite Eb; apply Hw1|done|done|unfold at_; cbn; rewrite Eb; cbn; by rewrite lookup_insert_eq|unfold PAGE_4K; lia| |].
  { unfold at_. cbn [hw with_hw]. rewrite Eb, Hex. intros b. destruct (_ <=? _); [|done]. intros Hb%(inj Some). rewrite <-Hb. destruct write; reflexivity. }
  unfold at_ in Hi. cbn [hw with_hw] in Hi. rewrite Eb, Hex in Hi. fold (at_ s') in Hi. exists s'.
  pose proof (pages_apart _ _ Hcl Hf ltac:(congruence)) as D. pose proof (w_link _ _ Hw1) as Hlink.
  assert (forall q x, b_map (at_ s) !! q = Some x -> <[v := f]> (b_map (at_ s)) !! q = Some x) as Hkeep
    by (intros q x Hq; rewrite lookup_insert_ne; [done|]; congruence).
  set (b1 := loaded t v f lba count write buf (at_ s)) in *. change (b_disk b1) with (b_disk (at_ s)) in Hi. change (b_clb b1) with (b_clb (at_ s)) in Hlink.
  destruct (Z.leb_spec ((l + count) * 512) (Z.of_nat (length (b_disk (at_ s))))) as [Hin|Hout]; destruct Hi as [Hi Eat].
  - assert (length (sub_bytes (Z.to_nat (l * 512)) (Z.to_nat (count * 512)) (b_disk (at_ s))) = Z.to_nat (count * 512)) as Hsl by (apply sub_bytes_length; unfold l in *; pose proof (Z.mod_pos_bound lba (2 ^ 48) ltac:(lia)); lia).
    split_and!; [split; [by rewrite Hp'|]; exists t|rewrite Eat; destruct write; cbn; lia|intros q x Hq; rewrite Eat; by destruct write; apply Hkeep| |by rewrite Eat; destruct write].
    + apply (wired_after t b1); [done|by rewrite Eat; destruct write|rewrite Eat; by left|by rewrite Eat; destruct write..|].
      rewrite Eat. change (b_clb b1) with (b_clb (at_ s)). destruct write; cbn [b_mem with_phase with_mem];
        rewrite get64_away by (rewrite to_le_length; unfold HEADER_CTBA; lia); [done|]. rewrite get64_away by (rewrite Hsl; unfold HEADER_CTBA, PAGE_4K in *; lia). done.
    + rewrite Hi. do 2 f_equal. destruct write; [done|]. cbn [b_mem with_mem]. rewrite mem_get_away by (rewrite to_le_length; unfold PAGE_4K in *; lia). by apply mem_get_same.
  - split_and!; [split; [by rewrite Hp'|]; exists t|rewrite Eat; cbn; lia|intros q x Hq; rewrite Eat; by apply Hkeep|done|by rewrite Eat].
    apply (wired_after t b1); [done|by rewrite Eat|rewrite Eat; by right|by rewrite Eat..].
Qed.

(** ** The port as the block device sees it
    The states are those of an initialised port.  Outside the conditions below a call is an
    error of its caller, or there is no page left. *)
Definition LivePort : Type := { s : Driver H | ready s }.
Definition args_ok (i : PortInfo) (buf : list Z) (n : Z) (p : LivePort) : Prop :=
  i = info /\ 0 < n <= 8 /\ Z.of_nat (length buf) = n * 512 /\ (0 < b_room (at_ (`p)))%nat.
Lemma command_ready i lba buf n write (p : LivePort) : args_ok i buf n p -> ready (send_command info lba buf n write (`p)).2.
Proof using HL.
  intros (_ & Hn & Hl & Hr). destruct p as [s Hs]. cbn in Hr |- *.
  destruct (send_command_run lba buf n write s Hs Hr Hn ltac:(done)) as (s' & Hs' & _ & _ & Hc). destruct (_ <=? _); destruct Hc as [-> _]; done.
Qed.
#[local] Instance args_dec i buf n p : Decision (args_ok i buf n p).
Proof. unfold args_ok. apply _. Defined.
Definition port_command (i : PortInfo) (lba : Z) (buf : list Z) (n : Z) (write : bool) : st LivePort unit (list Z) := fun p =>
  match decide (args_ok i buf n p) with
  | left Ha => let r := send_command info lba buf n write (`p) in (r.1, exist ready _ (command_ready i lba buf n write p Ha))
  | right _ => (Panic, p)
  end.

Definition alloc_buffer (n : Z) : drv (Z * list Z) := fun s =>
  match hba_kalloc_dma n (hw s) with
  | (Ok v, h) => (Ok (v, mem_read v (Z.to_nat n) h), with_hw s h)
  | (Err _, h) => (Err tt, with_hw s h)
  | (Panic, h) => (Panic, with_hw s h)
  end.
Definition alloc_ok (n : Z) (p : LivePort) : Prop := 0 < n <= PAGE_4K /\ (0 < b_room (at_ (`p)))%nat.
Lemma with_map_wired t m r b : wired t b -> m !! virt_cmd_list info = b_map b !! virt_cmd_list info -> m !! virt_cmd_tables_base info = b_map b !! virt_cmd_tables_base info ->
  wired t (with_map m r b).
Proof. intros [? ? ? ? ? ? ? ?] E1 E2. split; try done; cbn; congruence. Qed.
Lemma alloc_ready n (p : LivePort) : alloc_ok n p -> ready (alloc_buffer n (`p)).2.
Proof using HL.
  intros [Hn Hr]. destruct p as [s [Hp [t Hw]]]. cbn in *. destruct (kalloc_dma_ok (hw s) n Hn Hr) as (v & f & h & Hrun & _ & _ & _ & Hnone & _ & Hb).
  unfold alloc_buffer. rewrite Hrun. split; [done|]. exists t. unfold at_. cbn. rewrite Hb. pose proof (w_list _ _ Hw) as Hl. pose proof (w_table _ _ Hw) as Ht. unfold at_ in Hl, Ht.
  apply with_map_wired; [done|rewrite lookup_insert_ne; [done|congruence]..].
Qed.
#[local] Instance alloc_dec n p : Decision (alloc_ok n p).
Proof. unfold alloc_ok. apply _. Defined.
Definition port_alloc (n : Z) : st LivePort unit (Z * list Z) := fun p =>
  match decide (alloc_ok n p) with
  | left Ha => let r := alloc_buffer n (`p) in (r.1, exist ready _ (alloc_ready n p Ha))
  | right _ => (Panic, p)
  end.

Definition free_buffer (a n : Z) : drv unit := fun s =>
  match hba_kfree_dma a n (hw s) with
  | (Ok _, h) => (Ok tt, with_hw s h)
  | (Err _, h) => (Err tt, with_hw s h)
  | (Panic, h) => (Panic, with_hw s h)
  end.
Definition buffer_ok (p : LivePort) (a : Z) : Prop := is_Some (b_map (at_ (`p)) !! a) /\ a <> virt_cmd_list info /\ a <> virt_cmd_tables_base info.
Definition free_ok (a n : Z) (p : LivePort) : Prop := 0 < n <= PAGE_4K /\ buffer_ok p a.
Lemma free_ready a n (p : LivePort) : free_ok a n p -> ready (free_buffer a n (`p)).2.
Proof using HL.
  intros [Hn (Ha & Hl & Ht)]. destruct p as [s [Hp [t Hw]]]. cbn in *. destruct (kfree_dma_ok (hw s) a n Hn Ha) as (h & r & Hrun & _ & Hb).
  unfold free_buffer. rewrite Hrun. split; [done|]. exists t. unfold at_. cbn. rewrite Hb. apply with_map_wired; [done|by rewrite lookup_delete_ne..].
Qed.
#[local] Instance free_dec a n p : Decision (free_ok a n p).
Proof. unfold free_ok, buffer_ok. apply _. Defined.
Definition port_free (a n : Z) : st LivePort unit unit := fun p =>
  match decide (free_ok a n p) with
  | left Ha => let r := free_buffer a n (`p) in (r.1, exist ready _ (free_ready a n p Ha))
  | right _ => (Panic, p)
  end.
#[export] Instance live_port : SectorPort LivePort := {
  dma_alloc := port_alloc;
  dma_free := port_free;
  read_sectors i lba buf n := port_command i lba buf n false;
  write_sectors i lba buf n := _ ← port_command i lba buf n true; mret tt;
}.

Lemma port_command_ok lba buf n write (p : LivePort) r : (S r <= b_room (at_ (`p)))%nat -> 0 <= lba -> 0 < n <= 8 -> Z.of_nat (length buf) = n * 512 -> lba + n <= 2 ^ 48 ->
  exists p', (r <= b_room (at_ (`p')))%nat /\ (forall a, buffer_ok p a -> buffer_ok p' a) /\
    if (lba + n) * 512 <=? Z.of_nat (length (b_disk (at_ (`p)))) then
      port_command info lba buf n write p = (Ok (if write then buf else sub_bytes (Z.to_nat (lba * 512)) (Z.to_nat (n * 512)) (b_disk (at_ (`p)))), p') /\
      b_disk (at_ (`p')) = if write then put (Z.to_nat (lba * 512)) buf (b_disk (at_ (`p))) else b_disk (at_ (`p))
    else port_command info lba buf n write p = (Err tt, p') /\ b_disk (at_ (`p')) = b_disk (at_ (`p)).
Proof using HL.
  intros Hr Hl Hn Hlen Hmax. unfold port_command. destruct (decide (args_ok info buf n p)) as [Ha|Hna]; [|destruct Hna; split_and!; done || lia].
  destruct (send_command_run lba buf n write (`p) (proj2_sig p)) as (s' & Hs' & Hroom & Hmap & Hc); [apply Ha|done|done|].
  rewrite (Z.mod_small lba) in Hc by lia. pose proof (command_ready info lba buf n write p Ha) as Hx.
  exists (exist ready _ (command_ready info lba buf n write p Ha)).
  assert (s' = (send_command info lba buf n write (`p)).2) as -> by (destruct (_ <=? _); by destruct Hc as [-> _]).
  split; [cbn; lia|]. split; [intros a ([f Hf] & ? & ?); split; [exists f; by apply Hmap|done]|].
  destruct (_ <=? _); destruct Hc as [Hc Hd]; (split; [|exact Hd]); cbn [proj1_sig]; f_equal; by rewrite Hc.
Qed.
#[export] Instance live_port_laws : SectorPortLaws LivePort info.
Proof using HL.
  refine (@Build_SectorPortLaws _ live_port info (fun p => b_disk (at_ (`p))) buffer_ok (fun p n => (n <= b_room (at_ (`p)))%nat) _ _ _ _ _ _ _).
  - intros p n k Hn Hk. lia.
  - intros p. apply board_disk.
  - intros n p r Hn Hr. cbn. unfold port_alloc. destruct (decide (alloc_ok n p)) as [Ha|Hna]; [|destruct Hna; split; [done|lia]].
    destruct (kalloc_dma_ok (hw (`p)) n Hn (proj2 Ha)) as (v & f & h & Hrun & Hv & _ & _ & Hnone & _ & Hb).
    assert (alloc_buffer n (`p) = (Ok (v, mem_read v (Z.to_nat n) h), with_hw (`p) h)) as Hal by (unfold alloc_buffer; by rewrite Hrun).
    exists v, (mem_read v (Z.to_nat n) h), (exist ready _ (alloc_ready n p Ha)). split; [f_equal; by rewrite Hal|]. unfold buffer_ok. cbn [proj1_sig]. rewrite Hal. cbn [fst snd].
    unfold at_. cbn [hw with_hw]. rewrite Hb. destruct p as [s [Hp [t Hw]]]. cbn [proj1_sig] in *. pose proof (w_list _ _ Hw) as Hl. pose proof (w_table _ _ Hw) as Ht. unfold at_ in *.
    split_and!; [|done|cbn; rewrite lookup_insert_eq; by eexists|congruence|congruence|cbn; lia].
    rewrite (mem_read_ok h v (Z.to_nat n) f Hv), mem_get_length; [done|rewrite Hb; cbn; by rewrite lookup_insert_eq|lia].
  - intros a n p Hn Hbuf. cbn. unfold port_free. destruct (decide (free_ok a n p)) as [Ha|Hna]; [|by destruct Hna].
    destruct (kfree_dma_ok (hw (`p)) a n Hn (proj1 Hbuf)) as (h & r' & Hrun & Hr & Hb).
    assert (free_buffer a n (`p) = (Ok tt, with_hw (`p) h)) as Hfr by (unfold free_buffer; by rewrite Hrun).
    exists (exist ready _ (free_ready a n p Ha)). split; [f_equal; by rewrite Hfr|]. cbn [proj1_sig]. rewrite Hfr. cbn [fst snd]. unfold at_. cbn [hw with_hw]. rewrite Hb. split; [done|].
    intros r Hrr. cbn. lia.
  - intros lba buf n p r Hr Hl Hn Hlen Hin. destruct (board_disk (hw (`p))) as (_ & _ & Hmax). unfold ADDRESSABLE in *. unfold at_ in Hin.
    destruct (port_command_ok lba buf n false p r Hr Hl Hn Hlen) as (p' & Hr' & Hb & Hc); [lia|].
    rewrite (proj2 (Z.leb_le _ _)) in Hc by done. exists p'. by destruct Hc.
  - intros lba buf n p r Hr Hl Hn Hlen Hin Hout. unfold ADDRESSABLE in *. destruct (port_command_ok lba buf n false p r Hr Hl Hn Hlen) as (p' & Hr' & Hb & Hc); [lia|].
    rewrite (proj2 (Z.leb_gt _ _)) in Hc by done. exists p'. by destruct Hc.
  - intros lba buf n p r Hr Hl Hn Hlen Hin. destruct (board_disk (hw (`p))) as (_ & _ & Hmax). unfold ADDRESSABLE in *. unfold at_ in Hin.
    destruct (port_command_ok lba buf n true p r Hr Hl Hn Hlen) as (p' & Hr' & Hb & Hc); [lia|].
    rewrite (proj2 (Z.leb_le _ _)) in Hc by done. exists p'. destruct Hc as [Hc Hd]. cbn. erewrite st_bind_eq by exact Hc. done.
Defined.

Lemma port_found : find_port (Some [info]) (port_base info) = Some info.
Proof. unfold find_port. cbn. by rewrite Z.eqb_refl. Qed.


(** A block number past 48 bits is cut: the command of block [2 ^ 48 + lba] reads block [lba]. *)
Corollary block_number_cut lba buf n s : ready s -> (0 < b_room (at_ s))%nat -> 0 < n <= 8 -> 0 <= lba < 2 ^ 48 -> (lba + n) * 512 <= Z.of_nat (length (b_disk (at_ s))) ->
  exists s', read_command info (2 ^ 48 + lba) buf n s = (Ok (sub_bytes (Z.to_nat (lba * 512)) (Z.to_nat (n * 512)) (b_disk (at_ s))), s').
Proof using HL.
  intros Hs Hr Hn Hl Hin. destruct (send_command_run (2 ^ 48 + lba) buf n false s Hs Hr Hn ltac:(done)) as (s' & _ & _ & _ & Hc).
  replace ((2 ^ 48 + lba) mod 2 ^ 48) with lba in Hc by (rewrite <-Z.add_mod_idemp_l, Z.mod_same, Z.add_0_l, Z.mod_small by lia; done).
  rewrite (proj2 (Z.leb_le _ _)) in Hc by done. exists s'. apply Hc.
Qed.
End Commands.
