(* ===== verification/AhciSample.v ===== *)
(** * A machine with an AHCI controller

    A controller that carries out commands as AhciPort.v specifies, with a disk of four sectors
    at one of its two ports, and memory for its pages; the initialisation and the block device
    run on it. *)
From S2P Require Import Prelude PageAlloc Bytes Paging OpenFile BlockDev AhciDevice Pci Ahci AhciPort.
#[local] Open Scope list_scope.

(** ** Pages and frames *)
Definition DISK_SIZE : nat := 2048.
(** Pages for buffers, with the frames they get. *)
Definition buffers : list (Z * Z) := (fun i => (KERNEL_BASE + 0x10000000 + i * PAGE_4K, 0x100000 + i * PAGE_4K)) <$> seqZ 0 16.
Definition in_use (m : gmap Z Z) (f : Z) : bool := existsb (fun '(_, g) => g =? f) (map_to_list m).
Definition usable (m : gmap Z Z) (c : Z * Z) : bool := bool_decide (m !! c.1 = None) && negb (in_use m c.2).
Definition normal (b : Board) : Board :=
  mkBoard (b_mem b) (b_map b) (sub_bytes 0 DISK_SIZE (b_disk b ++ replicate DISK_SIZE 0)) (b_clb b) (b_run b) (b_phase b) (length (filter (usable (b_map b)) buffers)).
Definition frames : list Z := (fun i => 0x200000 + i * PAGE_4K) <$> seqZ 0 80.
Definition fresh_frame (m : gmap Z Z) : option Z := List.find (fun f => negb (in_use m f)) frames.

Lemma in_use_false m f : in_use m f = false <-> forall q, m !! q <> Some f.
Proof.
  unfold in_use. rewrite <-not_true_iff_false, existsb_exists. split.
  - intros Hn q Hq. apply Hn. exists (q, f). split; [|apply Z.eqb_refl]. apply list_elem_of_In. by apply elem_of_map_to_list.
  - intros Hn ([q g] & Hin & ->%Z.eqb_eq). apply list_elem_of_In, elem_of_map_to_list in Hin. by eapply Hn.
Qed.
Lemma normal_normal b : normal (normal b) = normal b.
Proof.
  unfold normal. cbn [b_mem b_map b_disk b_clb b_run b_phase]. f_equal.
  rewrite sub_bytes_all; [done|]. apply sub_bytes_length. rewrite length_app, length_replicate. lia.
Qed.
Lemma normal_disk b : length (b_disk (normal b)) = DISK_SIZE.
Proof. cbn [normal b_disk]. apply sub_bytes_length. rewrite length_app, length_replicate. lia. Qed.
Lemma normal_id b : length (b_disk b) = DISK_SIZE -> b_room b = length (filter (usable (b_map b)) buffers) -> normal b = b.
Proof. intros Hd Hr. destruct b as [mem mp d clb run ph r]. unfold normal. cbn [b_mem b_map b_disk b_clb b_run b_phase b_room] in *. rewrite sub_bytes_all by done. by rewrite Hr. Qed.

(** ** The machine: the port is at [base] *)
Record AhciMachine := mkMachine { m_board : Board; m_select : Z }.
Definition on_board (f : Board -> Board) (m : AhciMachine) : AhciMachine := mkMachine (f (normal (m_board m))) (m_select m).
Definition set_reg (r v : Z) (b : Board) : Board :=
  if r =? IS then if task_error (b_phase b) then with_phase Failed b else b
  else if r =? CMD then mkBoard (b_mem b) (b_map b) (b_disk b) (b_clb b) (Z.testbit v 0) (b_phase b) (b_room b)
  else if r =? CLB then mkBoard (b_mem b) (b_map b) (b_disk b) (b_clb b / 2 ^ 32 * 2 ^ 32 + v) (b_run b) (b_phase b) (b_room b)
  else if r =? CLBU then mkBoard (b_mem b) (b_map b) (b_disk b) (b_clb b mod 2 ^ 32 + v * 2 ^ 32) (b_run b) (b_phase b) (b_room b)
  else if (r =? CI) && b_run b && match b_phase b with Busy _ _ _ => false | _ => true end then
    let slot := Z.log2 v in
    match execute b slot with Some b' => with_phase (Busy slot 2 true) b' | None => with_phase (Busy slot 2 false) b end
  else b.
Definition get_reg (r : Z) (b : Board) : Z :=
  if r =? CI then (seen (b_phase b)).1
  else if r =? IS then if task_error (b_phase b) then IS_TFES else 0
  else if r =? CMD then if b_run b then 1 else 0
  else if r =? TFD then match b_phase b with Failed => 1 | _ => 0 end
  else if r =? SSTS then 0x123
  else 0.
Definition touch_reg (r : Z) (b : Board) : Board := if r =? CI then with_phase (seen (b_phase b)).2 b else b.
Definition page_base (v : Z) : Z := v / PAGE_4K * PAGE_4K.
Definition sim_bar : Z := 0xFEBF1000.
Definition sim_mmio : Z := sim_bar + HIGHER_HALF_BASE.

Section Machine.
Context (base : Z).
Definition on_map {E A} (f : Board -> outcome E A * Board) : st AhciMachine E A := fun m =>
  let '(r, b) := f (normal (m_board m)) in (r, mkMachine b (m_select m)).
(** A page that is mapped keeps its frame, and the caller is told of another one. *)
Definition sim_kalloc (v : Z) : st AhciMachine MapErr Z := on_map (fun b =>
  match fresh_frame (b_map b) with
  | None => (Err OutOfMemory, b)
  | Some f => (Ok f, if bool_decide (b_map b !! v = None) then with_map (<[v := f]> (b_map b)) (b_room b) b else b)
  end).
#[export] Instance machine_hba : Hba AhciMachine := {
  hba_read a m := let b := normal (m_board m) in
    (if (base <=? a) && (a <? base + PORT_SIZE) then get_reg (a - base) b else if a =? sim_mmio + PORTS_IMPLEMENTED then 3 else 0,
     mkMachine (if (base <=? a) && (a <? base + PORT_SIZE) then touch_reg (a - base) b else b) (m_select m));
  hba_write a v m := on_board (fun b => if (base <=? a) && (a <? base + PORT_SIZE) then set_reg (a - base) v b else b) m;
  mem_read v n m := let b := normal (m_board m) in
    match b_map b !! page_base v with Some f => mem_get (b_mem b) (f + (v - page_base v)) n | None => [] end;
  mem_write v bs m := on_board (fun b =>
    match b_map b !! page_base v with Some f => with_mem (mem_put (f + (v - page_base v)) bs (b_mem b)) b | None => b end) m;
  virt_addr := Some;
  hba_virt_to_phys v m := (fun f => f + (v - page_base v)) <$> b_map (normal (m_board m)) !! page_base v;
  hba_kalloc_page v t := match t with Arbitrary => sim_kalloc v | _ => mret v end;
  hba_kfree_page v t := on_map (fun b => (Ok tt, with_map (delete v (b_map b)) (b_room b) b));
  hba_kalloc_dma n := on_map (fun b =>
    match List.find (usable (b_map b)) buffers with
    | Some (v, f) => (Ok v, with_map (<[v := f]> (b_map b)) (b_room b) b)
    | None => (Panic, b)
    end);
  hba_kfree_dma v n := on_map (fun b => (Ok tt, with_map (delete v (b_map b)) (b_room b) b));
  has_current_process m := false;
  block_and_halt m := m;
}.
#[export] Instance machine_ports : Ports32 AhciMachine := {
  outl p v m := if p =? CONFIG_ADDRESS then mkMachine (m_board m) v else m;
  inl p m := ((inl p (mkSimPci (m_select m))).1, m);
}.
End Machine.

(** ** The machine keeps the laws of the controller *)
Lemma buffers_nodup : NoDup buffers.*1 /\ NoDup buffers.*2.
Proof. split; apply (bool_decide_unpack _); vm_compute; exact I. Qed.
Lemma buffers_fields c : c ∈ buffers -> c.1 mod PAGE_4K = 0 /\ c.2 mod PAGE_4K = 0 /\ is_u 64 c.2.
Proof.
  intros (i & -> & Hi%elem_of_seqZ)%list_elem_of_fmap. cbn [fst snd]. unfold is_u. change KERNEL_BASE with (0xFFFFFF0000000 * PAGE_4K). unfold PAGE_4K. Z.div_mod_to_equations. lia.
Qed.
Lemma usable_true m c : usable m c = true <-> m !! c.1 = None /\ forall q, m !! q <> Some c.2.
Proof. unfold usable. by rewrite andb_true_iff, bool_decide_eq_true, negb_true_iff, in_use_false. Qed.
Lemma fields_inj c c' : c ∈ buffers -> c' ∈ buffers -> c.1 = c'.1 \/ c.2 = c'.2 -> c = c'.
Proof.
  intros (i & -> & _)%list_elem_of_fmap (j & -> & _)%list_elem_of_fmap. cbn [fst snd]. unfold PAGE_4K. intros Hij. assert (i = j) as -> by lia. done.
Qed.
Lemma usable_insert m v f c : c ∈ buffers -> (v, f) ∈ buffers -> usable m (v, f) = true ->
  usable (<[v := f]> m) c = usable m c && negb (bool_decide (c = (v, f))).
Proof.
  intros Hc Hvf [Hv Hf]%usable_true. cbn [fst snd] in *. apply eq_true_iff_eq. rewrite andb_true_iff, negb_true_iff, bool_decide_eq_false, !usable_true. split.
  - intros [H1 H2]. apply lookup_insert_None in H1 as [H1 Hne]. split; [split; [done|]|intros ->; by apply Hne].
    intros q Hq. apply (H2 q). rewrite lookup_insert_ne; [done|congruence].
  - intros [[H1 H2] Hne]. assert (c.1 <> v /\ c.2 <> f) as [N1 N2] by (split; intros E0; apply Hne, fields_inj; auto).
    split; [by rewrite lookup_insert_ne|]. intros q. destruct (decide (q = v)) as [->|]; [rewrite lookup_insert_eq; congruence|by rewrite lookup_insert_ne].
Qed.
Lemma filter_agree {A} (f g : A -> bool) (l : list A) : (forall y, y ∈ l -> g y = f y) -> filter g l = filter f l.
Proof.
  induction l as [|y l IH]; intros Hg; [done|]. rewrite !filter_cons, IH by (intros z Hz; apply Hg; by right). by rewrite (Hg y ltac:(left)).
Qed.
Lemma filter_but_one {A} `{EqDecision A} (f g : A -> bool) x (l : list A) : NoDup l -> (forall y, y ∈ l -> g y = f y && negb (bool_decide (y = x))) ->
  List.find f l = Some x -> length (filter g l) = pred (length (filter f l)).
Proof.
  induction l as [|y l IH]; [done|]. intros [Hy Hl]%NoDup_cons Hg Hfind. cbn in Hfind. rewrite !filter_cons.
  assert (g y = f y && negb (bool_decide (y = x))) as Hgy by (apply Hg; left). destruct (f y) eqn:Hfy.
  - injection Hfind as ->. rewrite bool_decide_true in Hgy by done. rewrite Hgy. cbn. rewrite (filter_agree f g); [done|]. intros z Hz. rewrite Hg by (by right).
    rewrite bool_decide_false by (intros ->; done). apply andb_true_r.
  - rewrite Hgy. cbn. apply IH; [done| |done]. intros z Hz. apply Hg. by right.
Qed.
(** Taking a buffer leaves the others. *)
Lemma take_buffer m v f : List.find (usable m) buffers = Some (v, f) -> length (filter (usable (<[v := f]> m)) buffers) = pred (length (filter (usable m) buffers)).
Proof.
  intros Hf. destruct (find_first _ _ _ Hf) as (pre & post & Hb & Hu & _). assert ((v, f) ∈ buffers) as Hin by (rewrite Hb; set_solver).
  apply (filter_but_one _ _ (v, f)); [eapply NoDup_fmap_1; apply buffers_nodup| |done]. intros c Hc. by apply usable_insert.
Qed.
Lemma normal_with_mem m b : normal (with_mem m (normal b)) = with_mem m (normal b).
Proof. apply normal_id; [apply normal_disk|done]. Qed.
Lemma normal_with_map m r b : normal (with_map m r (normal b)) = with_map m (length (filter (usable m) buffers)) (normal b).
Proof.
  unfold normal, with_map. cbn [b_mem b_map b_disk b_clb b_run b_phase]. f_equal.
  rewrite sub_bytes_all; [done|]. apply sub_bytes_length. rewrite length_app, length_replicate. lia.
Qed.
Lemma filter_more {A} (f g : A -> bool) (l : list A) : (forall y, f y = true -> g y = true) -> (length (filter f l) <= length (filter g l))%nat.
Proof.
  intros Hfg. induction l as [|y l IH]; [done|]. rewrite !filter_cons. specialize (Hfg y). case_decide as Hf; case_decide as Hg; cbn [length]; try lia.
  apply Is_true_true, Hfg, Is_true_true in Hf. done.
Qed.
Lemma filter_find_none {A} (f : A -> bool) (l : list A) : List.find f l = None -> filter f l = [].
Proof. induction l as [|y l IH]; [done|]. cbn [List.find]. rewrite filter_cons. destruct (f y); [done|]. intros Hn. cbn. auto. Qed.
Lemma usable_delete m v c : usable m c = true -> usable (delete v m) c = true.
Proof.
  rewrite !usable_true. intros [H1 H2]. split; [apply lookup_delete_None; auto|]. intros q [_ Hq]%lookup_delete_Some. by apply (H2 q).
Qed.
Lemma normal_with_phase p b : normal (with_phase p (normal b)) = with_phase p (normal b).
Proof. apply normal_id; [apply normal_disk|done]. Qed.
Lemma execute_normal b slot b' : execute (normal b) slot = Some b' -> normal b' = b'.
Proof.
  unfold execute. set (lba := from_le [_; _; _; _; _; _]). set (count := from_le [_; _]). destruct (_ && _) eqn:Hc; [|done].
  apply andb_true_iff in Hc as [Hc Hin%Z.leb_le]. apply andb_true_iff in Hc as [Hc Hcnt%Z.ltb_lt]. apply andb_true_iff in Hc as [_ Hl%Z.leb_le]. rewrite normal_disk in Hin.
  destruct (_ && _); [intros Hb%(inj Some); subst b'; apply normal_id; [apply normal_disk|done]|].
  destruct (_ && _); [|done]. intros Hb%(inj Some). subst b'. apply normal_id; [|done]. cbn [b_disk with_mem with_disk].
  rewrite length_put; rewrite ?mem_get_length, normal_disk; unfold DISK_SIZE in *; [done|lia].
Qed.
Lemma page_base_eq p v : p mod PAGE_4K = 0 -> p <= v < p + PAGE_4K -> page_base v = p.
Proof. unfold page_base, PAGE_4K. intros. Z.div_mod_to_equations. lia. Qed.

Section MachineLaws.
Context (base : Z).
Lemma in_bank r : 0 <= r < PORT_SIZE -> (base <=? base + r) && (base + r <? base + PORT_SIZE) = true.
Proof. intros. apply andb_true_iff. split; [apply Z.leb_le|apply Z.ltb_lt]; lia. Qed.
Definition machine_laws : @HbaLaws AhciMachine (machine_hba base) base.
Proof.
  refine (@Build_HbaLaws AhciMachine (machine_hba base) base (fun m => normal (m_board m)) _ _ _ _ _ _ _ _ _ _ _ _ _ _ _).
  - intros m. exists 4%nat. rewrite normal_disk. split; [done|]. vm_compute. congruence.
  - intros m v bs p f Hp Hl Hpv Hend. cbn [mem_write machine_hba on_board m_board]. destruct (decide (length bs = 0%nat)) as [E0|Hne].
    + destruct bs; [|done]. cbn [mem_put]. destruct (b_map (normal (m_board m)) !! page_base v); rewrite ?normal_with_mem, ?normal_normal; by destruct (normal (m_board m)).
    + rewrite (page_base_eq p v Hp) by (unfold PAGE_4K in *; lia). rewrite Hl. apply normal_with_mem.
  - intros m p n f Hp Hl Hn. cbn [mem_read machine_hba]. rewrite (page_base_eq p p Hp) by (unfold PAGE_4K; lia). rewrite Hl. f_equal. lia.
  - intros m p Hp. cbn [hba_virt_to_phys machine_hba]. rewrite (page_base_eq p p Hp) by (unfold PAGE_4K; lia).
    destruct (_ !! p); [|done]. cbn. f_equal. lia.
  - intros m n Hn Hr. cbn [hba_kalloc_dma machine_hba]. unfold on_map. set (b := normal (m_board m)) in *.
    destruct (List.find (usable (b_map b)) buffers) as [[v f]|] eqn:Hf.
    2:{ exfalso. unfold b in Hr. cbn [normal b_room] in Hr. apply filter_find_none in Hf. unfold b in Hf. cbn [normal b_map] in Hf. rewrite Hf in Hr. cbn in Hr. lia. }
    destruct (find_first _ _ _ Hf) as (pre & post & Hb & [Hv Hfr]%usable_true & _). assert ((v, f) ∈ buffers) as Hin by (rewrite Hb; set_solver).
    destruct (buffers_fields _ Hin) as (? & ? & ?). exists v, f, (mkMachine (with_map (<[v := f]> (b_map b)) (b_room b) b) (m_select m)). split_and!; try done.
    cbn [m_board]. unfold b. rewrite normal_with_map, take_buffer by exact Hf. done.
  - intros m v n Hn [f Hf]. cbn [hba_kfree_dma machine_hba]. unfold on_map. set (b := normal (m_board m)) in *.
    eexists _, _. split; [done|]. cbn [m_board]. unfold b. rewrite normal_with_map. split; [|done]. apply filter_more. intros c. apply usable_delete.
  - done.
  - intros m. cbn [hba_read machine_hba fst snd m_board]. rewrite in_bank by (vm_compute; intuition congruence). replace (base + CI - base) with CI by lia.
    split; [done|]. apply normal_with_phase.
  - intros m. cbn [hba_read machine_hba fst snd m_board]. rewrite in_bank by (vm_compute; intuition congruence). replace (base + IS - base) with IS by lia.
    split; [|apply normal_normal]. unfold get_reg. change (IS =? CI) with false. change (IS =? IS) with true. cbv iota. by destruct (task_error _).
  - intros m. cbn [hba_read machine_hba fst snd m_board]. rewrite in_bank by (vm_compute; intuition congruence). replace (base + SERR - base) with SERR by lia. apply normal_normal.
  - intros m. cbn [hba_read machine_hba fst snd m_board]. rewrite in_bank by (vm_compute; intuition congruence). replace (base + CMD - base) with CMD by lia.
    split; [|apply normal_normal]. unfold get_reg. change (CMD =? CI) with false. change (CMD =? IS) with false. change (CMD =? CMD) with true. cbv iota. by destruct (b_run _).
  - intros m. cbn [hba_read machine_hba fst snd m_board]. rewrite in_bank by (vm_compute; intuition congruence). replace (base + TFD - base) with TFD by lia.
    split; [|apply normal_normal]. unfold get_reg. change (TFD =? CI) with false. change (TFD =? IS) with false. change (TFD =? CMD) with false. change (TFD =? TFD) with true. cbv iota.
    by destruct (b_phase _).
  - intros m v. cbn [hba_write machine_hba on_board m_board]. rewrite in_bank by (vm_compute; intuition congruence). replace (base + IS - base) with IS by lia.
    unfold set_reg. change (IS =? IS) with true. cbv iota. destruct (task_error _); [apply normal_with_phase|apply normal_normal].
  - intros m v. cbn [hba_write machine_hba on_board m_board]. rewrite in_bank by (vm_compute; intuition congruence). replace (base + SERR - base) with SERR by lia. apply normal_normal.
  - intros m slot Hrun Hph Hs. exists 2%nat. split; [done|]. cbn [hba_write machine_hba on_board m_board]. rewrite in_bank by (vm_compute; intuition congruence). replace (base + CI - base) with CI by lia.
    unfold set_reg. change (CI =? IS) with false. change (CI =? CMD) with false. change (CI =? CLB) with false. change (CI =? CLBU) with false. change (CI =? CI) with true. cbv iota. rewrite Hrun. cbn [andb].
    replace (match b_phase (normal (m_board m)) with Busy _ _ _ => false | _ => true end) with true by (by destruct Hph as [-> | ->]).
    rewrite Z.log2_pow2 by lia. destruct (execute _ _) as [b|] eqn:Hx; [|apply normal_with_phase]. rewrite <-(execute_normal _ _ _ Hx). apply normal_with_phase.
Defined.
End MachineLaws.

(** ** Initialisation *)
Definition blank : Board := mkBoard ∅ ∅ (mjoin ((fun k => replicate 512 (k + 1)) <$> seqZ 0 4)) 0 false Idle 0.
Definition boot (port : Z) : outcome unit (option (Z * Z)) * Driver AhciMachine :=
  let base := sim_mmio + PORT_BASE + port * PORT_SIZE in
  @init_ahcibd _ (machine_hba base) machine_ports 10 (mkDriver (mkMachine blank 0) false None).
(** With the drive at the second port the command list that the controller is told of is not the
    page that the driver writes: that page is the receive area of the first port. *)
Definition list_of (d : Driver AhciMachine) : option (Z * option Z) :=
  match PORTS d with
  | Some [i] => Some (b_clb (normal (m_board (hw d))), b_map (normal (m_board (hw d))) !! virt_cmd_list i)
  | _ => None
  end.
Example boot_port_1 : list_of (boot 1).2 = Some (0x202000, Some 0x201000).
Proof. vm_compute. reflexivity. Qed.
(** With the drive at the first port the device is ready. *)
#[local] Instance Phase_eq_dec : EqDecision Phase.
Proof. solve_decision. Defined.
Definition boot_info : PortInfo := mkPortInfo (sim_mmio + PORT_BASE) (sim_bar + PORT_BASE) (list_virt 0) (tables_virt 0).
Definition boot_table : Z := 0x202000.
Definition booted : Driver AhciMachine := (boot 0).2.
Lemma boot_checks : let b := normal (m_board (hw booted)) in
  PORTS booted = Some [boot_info] /\ b_run b = true /\ b_phase b = Idle /\ b_map b !! virt_cmd_list boot_info = Some (b_clb b) /\
  b_map b !! virt_cmd_tables_base boot_info = Some boot_table /\ b_clb b mod PAGE_4K = 0 /\ boot_table <> b_clb b /\
  get64 (b_mem b) (b_clb b + HEADER_CTBA) = boot_table /\ b_room b = 16%nat /\ b_disk b = b_disk blank.
Proof. cbv zeta. apply (bool_decide_unpack _). vm_compute. exact I. Qed.
Example boot_port_0 : (boot 0).1 = Ok (Some (sim_mmio + PORT_BASE, 0)).
Proof. vm_compute. reflexivity. Qed.
#[local] Existing Instance machine_hba.
#[local] Instance boot_laws : @HbaLaws AhciMachine (machine_hba (port_base boot_info)) (port_base boot_info) := machine_laws (port_base boot_info).
Lemma boot_ready : @ready AhciMachine (machine_hba (port_base boot_info)) boot_info boot_laws booted.
Proof.
  destruct boot_checks as (Hp & Hrun & Hph & Hl & Ht & Hc & Hne & Hlink & _). split; [exact Hp|]. exists boot_table.
  split; [exact Hrun|by left|split; reflexivity|reflexivity|exact Hl|exact Ht|split; [exact Hc|split; [reflexivity|exact Hne]]|exact Hlink].
Qed.
Definition boot_port : @LivePort AhciMachine (machine_hba (port_base boot_info)) boot_info boot_laws := exist _ booted boot_ready.
Lemma boot_port_room : b_room (@at_ AhciMachine (machine_hba (port_base boot_info)) boot_info boot_laws (proj1_sig boot_port)) = 16%nat.
Proof. apply boot_checks. Qed.
Lemma boot_port_disk : b_disk (@at_ AhciMachine (machine_hba (port_base boot_info)) boot_info boot_laws (proj1_sig boot_port)) = b_disk blank.
Proof. apply boot_checks. Qed.
Lemma blank_bytes : sub_bytes (Z.to_nat 511) 3 (b_disk blank) = [1; 2; 2] /\ (511 + 3 <=? Z.of_nat (length (b_disk blank))) = true.
Proof. vm_compute. done. Qed.
