(* ===== verification/Gpt.v ===== *)
(** * GUID partition tables (zenos-kernel/src/disk/block/mod.rs) *)
From S2P Require Import Prelude OpenFile Bytes BlockDev.

(** ** CRC-32 *)
Definition CRC32_POLY : Z := 0xEDB88320.

Definition crc_bit (crc : Z) : Z :=
  if negb (Z.land crc 1 =? 0) then Z.lxor (Z.shiftr crc 1) CRC32_POLY else Z.shiftr crc 1.
Definition crc_byte (crc byte : Z) : Z := Nat.iter 8 crc_bit (Z.lxor crc byte).
Definition crc32 (data : bytes) : Z := unot 32 (fold_left crc_byte data 0xFFFFFFFF).

(** ** The header *)
Record GPTHeader := mkHeader {
  signature : bytes;
  rev : Z;
  header_size : Z;
  hdr_crc32 : Z;
  reserved : Z;
  current_lba : Z;
  backup_lba : Z;
  first_usable_lba : Z;
  last_usable_lba : Z;
  disk_guid : bytes;
  partition_entry_lba : Z;
  num_partition_entries : Z;
  size_of_partition_entry : Z;
  partition_entry_array_crc32 : Z;
}.

(** "EFI PART" *)
Definition EFI_PART : bytes := [69; 70; 73; 32; 80; 65; 82; 84].

(** [header_bytes[16..20].fill(0)]. *)
Definition zero_crc (header_bytes : bytes) : bytes :=
  take 16 header_bytes ++ [0; 0; 0; 0] ++ drop 20 header_bytes.

(** [GPTHeader::deserialize]: the buffer is at least 92 bytes long, so none of its
    fixed slices can fail. *)
Definition GPTHeader_deserialize (buf : bytes) : option GPTHeader :=
  let le off n := from_le (sub_bytes off n buf) in
  if Nat.ltb (length buf) 92 then None
  else if negb (bool_decide (sub_bytes 0 8 buf = EFI_PART)) then None
  else
    let header_size := le 12%nat 4%nat in
    if (header_size <? 92) || (Z.of_nat (length buf) <? header_size) then None
    else
      let stored_crc32 := le 16%nat 4%nat in
      let header_bytes := zero_crc (sub_bytes 0 (Z.to_nat header_size) buf) in
      let computed_crc := crc32 header_bytes in
      if negb (computed_crc =? stored_crc32) then None
      else Some (mkHeader (sub_bytes 0 8 buf) (le 8 4)%nat header_size stored_crc32 (le 20 4)%nat
                   (le 24 8)%nat (le 32 8)%nat (le 40 8)%nat (le 48 8)%nat (sub_bytes 56 16 buf)
                   (le 72 8)%nat (le 80 4)%nat (le 84 4)%nat (le 88 4)%nat).

(** ** Partition entries *)
Record GPTPartitionEntry := mkEntry {
  partition_type_guid : bytes;
  unique_partition_guid : bytes;
  starting_lba : Z;
  ending_lba : Z;
  attributes : Z;
  partition_name : list Z;
}.

Fixpoint u16s (bs : bytes) : list Z :=
  match bs with
  | a :: b :: bs => from_le [a; b] :: u16s bs
  | _ => []
  end.

Definition GPTPartitionEntry_deserialize (buf : bytes) : option GPTPartitionEntry :=
  let le off n := from_le (sub_bytes off n buf) in
  if Nat.ltb (length buf) 128 then None
  else Some (mkEntry (sub_bytes 0 16 buf) (sub_bytes 16 16 buf) (le 32 8)%nat (le 40 8)%nat
               (le 48 8)%nat (u16s (sub_bytes 56 72 buf))).

Definition is_used (e : GPTPartitionEntry) : bool :=
  negb (bool_decide (partition_type_guid e = replicate 16 0)).

Section Device.
Context {S : Type} `{BlockDevice S}.

Definition get_header : st S BlockError GPTHeader :=
  s ← st_get;
  let block_size := block_size s in
  p ← st_lift (umul 64 1 block_size);
  _ ← bd_seek (Start p);
  buf ← read_exact (replicate (Z.to_nat block_size) 0);
  st_lift (ok_or InvalidGPT (GPTHeader_deserialize buf)).

(** The entries of the table, those shorter than 128 bytes left out. *)
Definition parse_entries (entry_size : nat) (n : nat) (buf : bytes) : list GPTPartitionEntry :=
  omap (fun i => GPTPartitionEntry_deserialize (sub_bytes (i * entry_size) entry_size buf)) (seq 0 n).

(** [ok()?] on each device operation: [None] on any error. *)
Definition get_partition_entries (self : GPTHeader) :
    st S BlockError (option (list GPTPartitionEntry)) := fun s =>
  let entry_size := size_of_partition_entry self in
  let total_size := num_partition_entries self * entry_size in
  match umul (E := BlockError) 64 (partition_entry_lba self) (block_size s) with
  | Ok offset =>
      match (_ ← bd_seek (Start offset); read_exact (replicate (Z.to_nat total_size) 0)) s with
      | (Ok buf, s) =>
          (Ok (Some (parse_entries (Z.to_nat entry_size) (Z.to_nat (num_partition_entries self)) buf)), s)
      | (Err _, s) => (Ok None, s)
      | (Panic, s) => (Panic, s)
      end
  | Err _ => (Ok None, s)
  | Panic => (Panic, s)
  end.
End Device.

(** ** The checksum *)
Lemma crc_bit_testbit31 c :
  is_u 32 c -> Z.testbit (crc_bit c) 31 = negb (Z.land c 1 =? 0).
Proof.
  intros Hc. unfold crc_bit. destruct (Z.land c 1 =? 0); cbn [negb].
  - rewrite Z.shiftr_spec by lia. by apply (is_u_testbit 32).
  - rewrite Z.lxor_spec, Z.shiftr_spec by lia. rewrite (is_u_testbit 32) by (lia || done). done.
Qed.

Lemma is_u_lxor w x y : 0 <= w -> is_u w x -> is_u w y -> is_u w (Z.lxor x y).
Proof.
  intros Hw Hx Hy. apply is_u_of_bits; [done|apply Z.lxor_nonneg; split; intros _; apply Hx || apply Hy|].
  intros i Hi. by rewrite Z.lxor_spec, (is_u_testbit w x), (is_u_testbit w y).
Qed.

Lemma crc_bit_range c : is_u 32 c -> is_u 32 (crc_bit c).
Proof.
  intros Hc. assert (is_u 32 (Z.shiftr c 1)) as Hs.
  { unfold is_u in *. rewrite Z.shiftr_div_pow2 by lia. split; [apply Z.div_pos; lia|].
    apply Z.div_lt_upper_bound; lia. }
  unfold crc_bit. case_match; [|done]. apply is_u_lxor; [lia|done|]. vm_compute. split; congruence.
Qed.

Lemma crc_bit_inj c d : is_u 32 c -> is_u 32 d -> crc_bit c = crc_bit d -> c = d.
Proof.
  intros Hc Hd Heq. pose proof (crc_bit_testbit31 c Hc) as Hbc. rewrite Heq, crc_bit_testbit31 in Hbc by done.
  assert (Z.shiftr c 1 = Z.shiftr d 1) as Hs.
  { unfold crc_bit in Heq. rewrite Hbc in Heq. destruct (Z.land c 1 =? 0); cbn [negb] in Heq; [done|].
    apply (f_equal (fun z => Z.lxor z CRC32_POLY)) in Heq.
    by rewrite !Z.lxor_assoc, Z.lxor_nilpotent, !Z.lxor_0_r in Heq. }
  change 1 with (Z.ones 1) in Hbc at 1 2. rewrite !Z.land_ones in Hbc by lia.
  rewrite !Z.shiftr_div_pow2 in Hs by lia. change (2 ^ 1) with 2 in *.
  pose proof (Z.div_mod c 2 ltac:(lia)). pose proof (Z.div_mod d 2 ltac:(lia)).
  pose proof (Z.mod_pos_bound c 2 ltac:(lia)). pose proof (Z.mod_pos_bound d 2 ltac:(lia)).
  destruct (Z.eqb_spec (c mod 2) 0), (Z.eqb_spec (d mod 2) 0); try done; lia.
Qed.

Lemma crc_iter n c d :
  is_u 32 c -> is_u 32 d ->
  is_u 32 (Nat.iter n crc_bit c) /\ (Nat.iter n crc_bit c = Nat.iter n crc_bit d -> c = d).
Proof.
  intros Hc Hd. induction n as [|n [IHr IHi]]; cbn; [done|]. split; [by apply crc_bit_range|].
  intros Heq. apply IHi, crc_bit_inj; [done| |done].
  clear -Hd. induction n; cbn; auto using crc_bit_range.
Qed.

Lemma byte_u32 b : is_byte b -> is_u 32 b.
Proof. unfold is_byte, is_u. lia. Qed.

Lemma crc_byte_range c b : is_u 32 c -> is_byte b -> is_u 32 (crc_byte c b).
Proof. intros Hc Hb%byte_u32. unfold crc_byte. by eapply crc_iter; apply is_u_lxor. Qed.

Lemma crc_byte_inj c d b b' :
  is_u 32 c -> is_u 32 d -> is_byte b -> is_byte b' -> crc_byte c b = crc_byte d b' ->
  Z.lxor c b = Z.lxor d b'.
Proof.
  intros Hc Hd Hb%byte_u32 Hb'%byte_u32. unfold crc_byte.
  apply (crc_iter 8 (Z.lxor c b) (Z.lxor d b')); by apply is_u_lxor.
Qed.

Lemma crc_fold_range bs c : is_u 32 c -> Forall is_byte bs -> is_u 32 (fold_left crc_byte bs c).
Proof. intros Hc Hbs. revert c Hc. induction Hbs; cbn [fold_left]; auto using crc_byte_range. Qed.

Lemma crc_fold_inj bs c d :
  is_u 32 c -> is_u 32 d -> Forall is_byte bs ->
  fold_left crc_byte bs c = fold_left crc_byte bs d -> c = d.
Proof.
  intros Hc Hd Hbs. revert c d Hc Hd. induction Hbs as [|b bs Hb Hbs IH]; intros c d Hc Hd Heq; [done|].
  apply IH in Heq; [|by apply crc_byte_range..]. apply crc_byte_inj in Heq; [|done..].
  apply (f_equal (fun z => Z.lxor z b)) in Heq.
  by rewrite !Z.lxor_assoc, Z.lxor_nilpotent, !Z.lxor_0_r in Heq.
Qed.

Lemma crc_start : is_u 32 0xFFFFFFFF.
Proof. unfold is_u. lia. Qed.

(** Replacing one byte by another always changes the checksum. *)
Lemma crc32_one_byte l i x y :
  Forall is_byte l -> is_byte y -> l !! i = Some x -> x <> y -> crc32 (<[i := y]> l) <> crc32 l.
Proof.
  intros Hl Hy Hx Hne Heq. pose proof (lookup_lt_Some _ _ _ Hx).
  rewrite <-(take_drop_middle l i x Hx) in Heq at 2. rewrite insert_take_drop in Heq by done.
  unfold crc32, unot in Heq. rewrite !fold_left_app in Heq. cbn [fold_left] in Heq.
  apply (f_equal (fun z => Z.lxor z (Z.ones 32))) in Heq.
  rewrite !Z.lxor_assoc, Z.lxor_nilpotent, !Z.lxor_0_r in Heq.
  set (c := fold_left crc_byte (take i l) 0xFFFFFFFF) in *.
  assert (is_u 32 c) by (apply crc_fold_range; [exact crc_start|by apply Forall_take]).
  pose proof (Forall_lookup_1 _ _ _ _ Hl Hx) as Hbx.
  apply crc_fold_inj in Heq; [|by apply crc_byte_range..|by apply Forall_drop].
  apply crc_byte_inj in Heq; [|done..]. apply Hne.
  apply (f_equal (Z.lxor c)) in Heq. by rewrite <-!Z.lxor_assoc, Z.lxor_nilpotent, !Z.lxor_0_l in Heq.
Qed.

Example crc32_check_value : crc32 [49; 50; 51; 52; 53; 54; 55; 56; 57] = 0xCBF43926.
Proof. vm_compute. reflexivity. Qed.

Lemma zero_crc_insert l i y :
  (20 <= length l)%nat -> (i < length l)%nat ->
  zero_crc (<[i := y]> l) =
    if decide (16 <= i < 20)%nat then zero_crc l else <[i := y]> (zero_crc l).
Proof.
  intros Hl Hi. unfold zero_crc. destruct (decide (i < 16)%nat).
  - rewrite decide_False by lia. rewrite take_insert_lt, drop_insert_lt by lia.
    rewrite insert_app_l; [done|]. rewrite length_take. lia.
  - rewrite take_insert_ge by lia. destruct (decide (i < 20)%nat).
    + rewrite decide_True by lia. by rewrite drop_insert_lt by lia.
    + rewrite decide_False by lia. rewrite drop_insert_ge by lia.
      rewrite insert_app_r_alt by (rewrite length_take; lia).
      rewrite length_take, Nat.min_l by lia. rewrite insert_app_r_alt by (simpl length; lia).
      do 3 f_equal. simpl length. lia.
Qed.

Lemma zero_crc_bytes l : Forall is_byte l -> Forall is_byte (zero_crc l).
Proof.
  intros Hl. unfold zero_crc. apply Forall_app. split; [by apply Forall_take|].
  repeat (apply Forall_cons; split; [unfold is_byte; lia|]). by apply Forall_drop.
Qed.

Lemma zero_crc_lookup l i :
  (20 <= length l)%nat -> (i < 16 \/ 20 <= i)%nat -> zero_crc l !! i = l !! i.
Proof.
  intros Hl Hi. unfold zero_crc. destruct (decide (i < 16)%nat).
  - rewrite lookup_app_l by (rewrite length_take; lia). by rewrite lookup_take_lt by lia.
  - rewrite lookup_app_r by (rewrite length_take; lia). rewrite length_take, Nat.min_l by lia.
    rewrite lookup_app_r by (simpl length; lia). rewrite lookup_drop. f_equal. simpl length. lia.
Qed.

Lemma from_le_inj bs bs' :
  Forall is_byte bs -> Forall is_byte bs' -> length bs = length bs' -> from_le bs = from_le bs' -> bs = bs'.
Proof.
  intros Hb Hb' Hl He. rewrite <-(to_from_le bs), <-(to_from_le bs') by done. by rewrite Hl, He.
Qed.


Lemma deserialize_Some buf h :
  GPTHeader_deserialize buf = Some h ->
  (92 <= length buf)%nat /\ 92 <= header_size h <= Z.of_nat (length buf) /\
  header_size h = from_le (sub_bytes 12 4 buf) /\
  crc32 (zero_crc (sub_bytes 0 (Z.to_nat (header_size h)) buf)) = from_le (sub_bytes 16 4 buf).
Proof.
  unfold GPTHeader_deserialize. destruct (Nat.ltb_spec (length buf) 92) as [|Hl]; [done|].
  case_match; [done|]. case_match eqn:Hsz; [done|]. zbool. case_match eqn:Hcrc; [done|]. zbool.
  intros [= <-]. cbn. auto with lia.
Qed.

(** C35: a header that passes [deserialize] no longer does after any single byte of it is
    changed to another value (the four bytes of its length field apart): the checksum
    detects every such corruption, and so does the checksum field itself. *)
Theorem gpt_header_corruption_detected buf h i x y :
  Forall is_byte buf -> is_byte y -> GPTHeader_deserialize buf = Some h ->
  buf !! i = Some x -> x <> y -> Z.of_nat i < header_size h -> (i < 12 \/ 16 <= i)%nat ->
  GPTHeader_deserialize (<[i := y]> buf) = None.
Proof.
  intros Hbuf Hy Hd Hx Hne Hi Hfield. apply deserialize_Some in Hd as (Hl & Hsz & Hh & Hcrc).
  pose proof (lookup_lt_Some _ _ _ Hx) as Hlt.
  unfold GPTHeader_deserialize. rewrite length_insert.
  destruct (Nat.ltb_spec (length buf) 92) as [|_]; [done|]. case_match; [done|].
  assert (sub_bytes 12 4 (<[i := y]> buf) = sub_bytes 12 4 buf) as ->
    by (rewrite sub_bytes_insert, decide_False by lia; done).
  rewrite <-Hh. case_match; [done|]. zbool.
  destruct (Z.eqb_spec (crc32 (zero_crc (sub_bytes 0 (Z.to_nat (header_size h)) (<[i := y]> buf))))
    (from_le (sub_bytes 16 4 (<[i := y]> buf)))) as [Heq|]; [exfalso|done].
  rewrite !sub_bytes_insert in Heq by done. rewrite (decide_True (P := (0 <= i < _)%nat)) in Heq by lia.
  rewrite Nat.sub_0_r in Heq.
  set (hb := sub_bytes 0 (Z.to_nat (header_size h)) buf) in *.
  assert (length hb = Z.to_nat (header_size h)) as Hlen by (apply sub_bytes_length; lia).
  rewrite zero_crc_insert in Heq by lia.
  assert (Forall is_byte hb) as Hhb by (by apply sub_bytes_bytes).
  destruct (decide (16 <= i < 20)%nat) as [Hc|Hc].
  - rewrite decide_True in Heq by lia. rewrite Hcrc in Heq. apply from_le_inj in Heq;
      [|by apply sub_bytes_bytes|apply Forall_insert; [by apply sub_bytes_bytes|done]|by rewrite length_insert].
    apply (f_equal (fun l => l !! (i - 16)%nat)) in Heq.
    rewrite list_lookup_insert_eq in Heq by (rewrite sub_bytes_length; lia).
    unfold sub_bytes in Heq. rewrite lookup_take_lt, lookup_drop in Heq by lia.
    replace (16 + (i - 16))%nat with i in Heq by lia. congruence.
  - rewrite decide_False in Heq by lia. rewrite <-Hcrc in Heq. revert Heq.
    apply (crc32_one_byte _ i x y); [by apply zero_crc_bytes|done| |done].
    rewrite zero_crc_lookup by lia. unfold hb, sub_bytes. rewrite lookup_take_lt by lia. done.
Qed.

(** ** The partition table on disk *)
Definition encode_entry (e : GPTPartitionEntry) : bytes :=
  partition_type_guid e ++ unique_partition_guid e ++ to_le 8 (starting_lba e) ++
  to_le 8 (ending_lba e) ++ to_le 8 (attributes e) ++ concat (to_le 2 <$> partition_name e).

Record entry_ok (e : GPTPartitionEntry) : Prop := {
  ok_type : length (partition_type_guid e) = 16%nat;
  ok_unique : length (unique_partition_guid e) = 16%nat;
  ok_start : is_u 64 (starting_lba e);
  ok_end : is_u 64 (ending_lba e);
  ok_attr : is_u 64 (attributes e);
  ok_name : length (partition_name e) = 36%nat /\ Forall (is_u 16) (partition_name e);
}.

Lemma concat_le2_length l : length (concat (to_le 2 <$> l)) = (2 * length l)%nat.
Proof. induction l as [|x l IH]; [done|]. cbn [fmap list_fmap concat]. rewrite length_app, to_le_length, IH. cbn. lia. Qed.

Lemma u16s_concat l : Forall (is_u 16) l -> u16s (concat (to_le 2 <$> l)) = l.
Proof.
  induction 1 as [|x l Hx Hl IH]; [done|]. cbn [fmap list_fmap concat].
  pose proof (to_le_length 2 x) as Hlen. pose proof (from_to_le 2 x Hx) as Hx2.
  destruct (to_le 2 x) as [|a [|b [|]]]; try done. cbn [app u16s]. by rewrite Hx2, IH.
Qed.

Lemma encode_entry_length e : entry_ok e -> length (encode_entry e) = 128%nat.
Proof.
  intros []. unfold encode_entry. rewrite !length_app, !to_le_length, concat_le2_length. lia.
Qed.

Lemma entry_round_trip e : entry_ok e -> GPTPartitionEntry_deserialize (encode_entry e) = Some e.
Proof.
  intros He. pose proof (encode_entry_length e He) as Hl. unfold GPTPartitionEntry_deserialize.
  rewrite Hl. change (Nat.ltb 128 128) with false. cbv iota. destruct He as [Ht Hu ? ? ? [Hn ?]].
  unfold encode_entry. field_at. 
  rewrite !from_to_le by done.
  rewrite <-(app_nil_r (concat _)), sub_bytes_here by (rewrite concat_le2_length; lia).
  rewrite u16s_concat by done. by destruct e.
Qed.

Lemma parse_entries_encode es k :
  Forall entry_ok es ->
  omap (fun i => GPTPartitionEntry_deserialize (sub_bytes ((i - k) * 128) 128 (concat (encode_entry <$> es))))
    (seq k (length es)) = es.
Proof.
  intros Hes. revert k. induction Hes as [|e es He Hes IH]; intros k; [done|].
  cbn [length seq omap list_omap fmap list_fmap concat]. rewrite Nat.sub_diag, sub_bytes_here, entry_round_trip
    by auto using encode_entry_length. f_equal. rewrite <-(IH (S k)) at 2.
  apply list_omap_ext. apply Forall2_same_length_lookup. split; [done|]. intros i x y Hx Hy. simplify_eq.
  apply lookup_seq in Hx as [-> _]. rewrite (sub_bytes_skip _ _ _ _ 128) by (auto using encode_entry_length; lia).
  do 2 f_equal. lia.
Qed.

Section TableOnDevice.
Context {S : Type} `{HB : BlockDevice S} {HL : BlockDeviceLaws S}.

(** A partition table written to a device is read back: for a header that points at
    the encoded entries, [get_partition_entries] returns exactly these entries. *)
Theorem partition_table_round_trip (s : S) h es :
  Forall entry_ok es -> es <> [] -> size_of_partition_entry h = 128 ->
  num_partition_entries h = Z.of_nat (length es) ->
  let off := partition_entry_lba h * block_size s in
  0 <= off < 2 ^ 64 -> off + 128 * Z.of_nat (length es) <= Z.of_nat (length (contents s)) ->
  sub_bytes (Z.to_nat off) (128 * length es) (contents s) = concat (encode_entry <$> es) ->
  exists s', get_partition_entries h s = (Ok (Some es), s') /\ contents s' = contents s.
Proof using HL.
  intros Hes Hne Hsz Hnum off Hoff Hin Hbytes. unfold get_partition_entries.
  fold off. rewrite umul_eq by (fold off; lia). fold off. rewrite Hsz, Hnum.
  destruct (read_at_eq off (Z.to_nat (Z.of_nat (length es) * 128)) s) as (s' & Hr & Hc & _); [lia|lia|].
  unfold read_at in Hr. rewrite Hr. exists s'. split; [|done]. do 3 f_equal.
  replace (Z.to_nat (Z.of_nat (length es) * 128)) with (128 * length es)%nat by lia.
  rewrite Hbytes, Nat2Z.id. unfold parse_entries. change (Z.to_nat 128) with 128%nat.
  rewrite <-(parse_entries_encode es 0 Hes) at 2. apply list_omap_ext.
  apply Forall2_same_length_lookup. split; [done|]. intros i x y Hx Hy. simplify_eq. by rewrite Nat.sub_0_r.
Qed.
End TableOnDevice.

Definition sample_entry : GPTPartitionEntry :=
  mkEntry (replicate 16 1) (replicate 16 2) 34 2047 0 (replicate 36 65).
Lemma sample_entry_ok : entry_ok sample_entry.
Proof.
  split; try (vm_compute; congruence); try (vm_compute; split; congruence).
  split; [reflexivity|]. apply Forall_replicate. vm_compute. split; congruence.
Qed.
Definition table_disk : MemDisk :=
  mkMemDisk (replicate 1024 0 ++ encode_entry sample_entry ++ encode_entry sample_entry ++ replicate 8 0) 0.

Lemma partition_table_round_trip_witness :
  exists s', get_partition_entries (mkHeader EFI_PART 0x10000 92 0 0 1 9 3 8 (replicate 16 0) 2 2 128 0)
    table_disk = (Ok (Some [sample_entry; sample_entry]), s').
Proof.
  destruct (partition_table_round_trip table_disk
    (mkHeader EFI_PART 0x10000 92 0 0 1 9 3 8 (replicate 16 0) 2 2 128 0) [sample_entry; sample_entry])
    as (s' & H1 & _); [|done|reflexivity|reflexivity| | | |].
  - repeat constructor; apply sample_entry_ok.
  - vm_compute. split; congruence.
  - vm_compute. congruence.
  - vm_compute. reflexivity.
  - exists s'. exact H1.
Defined.

(** A header of 92 bytes with a valid checksum. *)
Definition sample_header_body (crc : Z) : bytes :=
  EFI_PART ++ to_le 4 0x10000 ++ to_le 4 92 ++ to_le 4 crc ++ to_le 4 0 ++ to_le 8 1 ++ to_le 8 99 ++
  to_le 8 34 ++ to_le 8 66 ++ replicate 16 7 ++ to_le 8 2 ++ to_le 4 128 ++ to_le 4 128 ++ to_le 4 5.
Definition sample_header : bytes := sample_header_body (crc32 (sample_header_body 0)).

Lemma gpt_header_corruption_detected_witness :
  is_Some (GPTHeader_deserialize sample_header) /\
  GPTHeader_deserialize (<[40%nat := 35]> sample_header) = None.
Proof.
  assert (exists h, GPTHeader_deserialize sample_header = Some h /\ 40 < header_size h) as (h & Hh & Hs).
  { eexists. split; [vm_compute; reflexivity|]. vm_compute. reflexivity. }
  split; [by rewrite Hh|].
  apply (gpt_header_corruption_detected sample_header h 40 34 35).
  - apply (bool_decide_unpack _). vm_compute. exact I.
  - vm_compute. split; congruence.
  - exact Hh.
  - vm_compute. reflexivity.
  - lia.
  - exact Hs.
  - lia.
Defined.
