(* ===== verification/Fat.v ===== *)
(** * FAT file systems: on-disk structures and the allocation table
    (zenos-kernel/src/disk/fs/fat/plumbing.rs)

    The BIOS parameter block, directory entries and 8.3 names, the file allocation
    table over a block device, and cluster access. *)
From S2P Require Import Prelude OpenFile Bytes BlockDev.

(** ** Data *)
Inductive FatType := Fat12 | Fat16 | Fat32.
#[export] Instance FatType_eq_dec : EqDecision FatType.
Proof. solve_decision. Defined.

Definition FAT_FREE : Z := 0.

Record BiosParameterBlock := mkBpb {
  bytes_per_sector : Z;
  sectors_per_cluster : Z;
  reserved_sector_count : Z;
  num_fats : Z;
  root_entry_count : Z;
  total_sectors_16 : Z;
  media_type : Z;
  fat_size_16 : Z;
  sectors_per_track : Z;
  num_heads : Z;
  hidden_sectors : Z;
  total_sectors_32 : Z;
  fat_size_32 : Z;
  root_cluster : Z;
}.

Definition BPB_parse (boot_sector : bytes) : outcome FileError BiosParameterBlock :=
  if Nat.ltb (length boot_sector) 512 then Err ReadError
  else
    bytes_per_sector ← get_le 11 2 boot_sector;
    sectors_per_cluster ← get_le 13 1 boot_sector;
    reserved_sector_count ← get_le 14 2 boot_sector;
    num_fats ← get_le 16 1 boot_sector;
    root_entry_count ← get_le 17 2 boot_sector;
    total_sectors_16 ← get_le 19 2 boot_sector;
    media_type ← get_le 21 1 boot_sector;
    fat_size_16 ← get_le 22 2 boot_sector;
    sectors_per_track ← get_le 24 2 boot_sector;
    num_heads ← get_le 26 2 boot_sector;
    hidden_sectors ← get_le 28 4 boot_sector;
    total_sectors_32 ← get_le 32 4 boot_sector;
    fat_size_32 ← get_le 36 4 boot_sector;
    root_cluster ← get_le 44 4 boot_sector;
    Ok (mkBpb bytes_per_sector sectors_per_cluster reserved_sector_count num_fats root_entry_count
          total_sectors_16 media_type fat_size_16 sectors_per_track num_heads hidden_sectors
          total_sectors_32 fat_size_32 root_cluster).

Section Bpb.
Context {E : Type} (b : BiosParameterBlock).

Definition fat_size : Z := if fat_size_16 b =? 0 then fat_size_32 b else fat_size_16 b.
Definition total_sectors : Z := if total_sectors_16 b =? 0 then total_sectors_32 b else total_sectors_16 b.

Definition root_dir_sectors : outcome E Z :=
  n ← umul 32 (root_entry_count b) 32;
  d ← usub (bytes_per_sector b) 1;
  t ← uadd 32 n d;
  udiv t (bytes_per_sector b).

Definition first_data_sector : outcome E Z :=
  f ← umul 32 (num_fats b) fat_size;
  t ← uadd 32 (reserved_sector_count b) f;
  r ← root_dir_sectors;
  uadd 32 t r.

Definition first_fat_sector : Z := reserved_sector_count b.

Definition fat_type : outcome E FatType :=
  r ← root_dir_sectors;
  f ← umul 32 (num_fats b) fat_size;
  t ← uadd 32 (reserved_sector_count b) f;
  t ← uadd 32 t r;
  data_sectors ← usub total_sectors t;
  cluster_count ← udiv data_sectors (sectors_per_cluster b);
  Ok (if cluster_count <? 4085 then Fat12 else if cluster_count <? 65525 then Fat16 else Fat32).

Definition cluster_to_sector (cluster : Z) : outcome E Z :=
  c ← usub cluster 2;
  t ← umul 32 c (sectors_per_cluster b);
  f ← first_data_sector;
  uadd 32 t f.

Definition bytes_per_cluster : outcome E Z := umul 32 (bytes_per_sector b) (sectors_per_cluster b).
End Bpb.

Definition is_pow2_u8 (x : Z) : bool := (0 <? x) && (Z.land x (x - 1) =? 0).

Definition BPB_validate (b : BiosParameterBlock) : outcome FsMountError unit :=
  let s := bytes_per_sector b in
  if negb ((s =? 512) || (s =? 1024) || (s =? 2048) || (s =? 4096)) then Err InvalidSuperblock
  else if (sectors_per_cluster b =? 0) || (128 <? sectors_per_cluster b)
          || negb (is_pow2_u8 (sectors_per_cluster b)) then Err InvalidSuperblock
  else if reserved_sector_count b =? 0 then Err InvalidSuperblock
  else if num_fats b =? 0 then Err InvalidSuperblock
  else if total_sectors b =? 0 then Err InvalidSuperblock
  else if fat_size b =? 0 then Err InvalidSuperblock
  else
    ft ← fat_type b;
    _ ← match ft with
        | Fat12 | Fat16 => if root_entry_count b =? 0 then Err Corrupted else Ok tt
        | Fat32 =>
            if negb (root_entry_count b =? 0) then Err Corrupted
            else if root_cluster b <? 2 then Err Corrupted
            else if fat_size_32 b =? 0 then Err Corrupted else Ok tt
        end;
    f ← umul 32 (num_fats b) (fat_size b);
    t ← uadd 32 (reserved_sector_count b) f;
    r ← root_dir_sectors b;
    required_sectors ← uadd 32 t r;
    if total_sectors b <=? required_sectors then Err Corrupted else Ok tt.

(** ** Directory entries *)
Record FatDirEntry := mkFde {
  fde_name : bytes;
  fde_attr : Z;
  fde_nt_reserved : Z;
  fde_create_time_tenth : Z;
  fde_create_time : Z;
  fde_create_date : Z;
  fde_last_access_date : Z;
  fde_first_cluster_high : Z;
  fde_write_time : Z;
  fde_write_date : Z;
  fde_first_cluster_low : Z;
  fde_file_size : Z;
}.
Definition FDE_SIZE : nat := 32.
Definition ATTR_READ_ONLY : Z := 0x01.
Definition ATTR_VOLUME_ID : Z := 0x08.
Definition ATTR_DIRECTORY : Z := 0x10.
Definition ATTR_ARCHIVE : Z := 0x20.
Definition ATTR_LONG_NAME : Z := 0x0F.

Definition FatDirEntry_parse {E} (data : bytes) : outcome E (option FatDirEntry) :=
  if Nat.ltb (length data) FDE_SIZE then Ok None
  else
    first ← get_le 0 1 data;
    if first =? 0 then Ok None
    else if first =? 0xE5 then Ok None
    else
      name ← slice 0 11 data;
      attr ← get_le 11 1 data;
      nt_reserved ← get_le 12 1 data;
      create_time_tenth ← get_le 13 1 data;
      create_time ← get_le 14 2 data;
      create_date ← get_le 16 2 data;
      last_access_date ← get_le 18 2 data;
      first_cluster_high ← get_le 20 2 data;
      write_time ← get_le 22 2 data;
      write_date ← get_le 24 2 data;
      first_cluster_low ← get_le 26 2 data;
      file_size ← get_le 28 4 data;
      Ok (Some (mkFde name attr nt_reserved create_time_tenth create_time create_date last_access_date
                  first_cluster_high write_time write_date first_cluster_low file_size)).

(** The buffer is filled from its start to its end, field after field. *)
Definition FatDirEntry_serialize (e : FatDirEntry) : bytes :=
  fde_name e ++ to_le 1 (fde_attr e) ++ to_le 1 (fde_nt_reserved e) ++ to_le 1 (fde_create_time_tenth e) ++
  to_le 2 (fde_create_time e) ++ to_le 2 (fde_create_date e) ++ to_le 2 (fde_last_access_date e) ++
  to_le 2 (fde_first_cluster_high e) ++ to_le 2 (fde_write_time e) ++ to_le 2 (fde_write_date e) ++
  to_le 2 (fde_first_cluster_low e) ++ to_le 4 (fde_file_size e).

Definition first_cluster (e : FatDirEntry) : Z :=
  Z.lor (Z.shiftl (fde_first_cluster_high e) 16) (fde_first_cluster_low e).

Definition set_first_cluster (e : FatDirEntry) (cluster : Z) : FatDirEntry :=
  mkFde (fde_name e) (fde_attr e) (fde_nt_reserved e) (fde_create_time_tenth e) (fde_create_time e)
    (fde_create_date e) (fde_last_access_date e) (Z.land (Z.shiftr cluster 16) 0xFFFF) (fde_write_time e)
    (fde_write_date e) (Z.land cluster 0xFFFF) (fde_file_size e).

Definition is_directory (e : FatDirEntry) : bool := negb (Z.land (fde_attr e) ATTR_DIRECTORY =? 0).
Definition is_volume_id (e : FatDirEntry) : bool := negb (Z.land (fde_attr e) ATTR_VOLUME_ID =? 0).
Definition is_long_name (e : FatDirEntry) : bool := Z.land (fde_attr e) ATTR_LONG_NAME =? ATTR_LONG_NAME.

(** [char::is_whitespace] below 256, and [trim_end]. *)
Definition is_space (c : Z) : bool := ((9 <=? c) && (c <=? 13)) || (c =? 32) || (c =? 0x85) || (c =? 0xA0).
Fixpoint trim_end (l : list Z) : list Z :=
  match l with
  | [] => []
  | c :: l => match trim_end l with
              | [] => if is_space c then [] else [c]
              | l' => c :: l'
              end
  end.

Definition DOT : Z := 46.

(** Characters are code points. *)
Definition short_name (e : FatDirEntry) : list Z :=
  let name_part := trim_end (take 8 (fde_name e)) in
  let ext_part := trim_end (take 3 (drop 8 (fde_name e))) in
  match ext_part with [] => name_part | _ => name_part ++ [DOT] ++ ext_part end.

(** [rfind]: the parts before and after the last dot. *)
Fixpoint split_last_dot (l : list Z) : option (list Z * list Z) :=
  match l with
  | [] => None
  | c :: l => match split_last_dot l with
              | Some (base, ext) => Some (c :: base, ext)
              | None => if c =? DOT then Some ([], l) else None
              end
  end.

Section Name.
(** [char::to_uppercase] outside ASCII, from the Unicode tables. *)
Context (upper_non_ascii : Z -> list Z).

(** [str::to_uppercase], on code points. *)
Definition char_upper (c : Z) : list Z :=
  if c <? 128 then [if (97 <=? c) && (c <=? 122) then c - 32 else c] else upper_non_ascii c.
Definition to_uppercase (l : list Z) : list Z := l ≫= char_upper.

Definition pad (n : nat) (l : list Z) : bytes :=
  let t := (wrap 8 <$> take n l) in t ++ replicate (n - length t) 0x20.

Definition name_to_8_3 (name : list Z) : bytes :=
  let upper := to_uppercase name in
  let '(base, ext) := default (upper, []) (split_last_dot upper) in
  pad 8 base ++ pad 3 ext.
End Name.

(** ** The allocation table *)
Record FatTable := mkTable { ft_bpb : BiosParameterBlock; ft_type : FatType; partition_offset : Z }.

Definition FatTable_new {E} (b : BiosParameterBlock) (partition_offset : Z) : outcome E FatTable :=
  ft ← fat_type b; Ok (mkTable b ft partition_offset).

Section Table.
Context {S : Type} `{BlockDevice S}.
Context (t : FatTable).
Abbreviation bps := (bytes_per_sector (ft_bpb t)).

Definition sector_offset (sector : Z) : outcome FileError Z :=
  o ← umul 64 sector bps; uadd 64 o (partition_offset t).

Definition read_sector (sector : Z) (buf : bytes) : st S FileError bytes :=
  offset ← st_lift (sector_offset sector);
  _ ← st_map_err (fun _ => SeekError) (bd_seek (Start offset));
  '(_, buf) ← st_map_err (fun _ => ReadError) (bd_read buf);
  mret buf.

Definition write_sector (sector : Z) (buf : bytes) : st S FileError unit :=
  offset ← st_lift (sector_offset sector);
  _ ← st_map_err (fun _ => SeekError) (bd_seek (Start offset));
  _ ← st_map_err (fun _ => WriteError) (bd_write buf);
  mret tt.

Definition fat_offset (cluster : Z) : outcome FileError Z :=
  match ft_type t with
  | Fat12 => uadd 32 cluster (cluster / 2)
  | Fat16 => umul 32 cluster 2
  | Fat32 => umul 32 cluster 4
  end.

(** The sector of the first table that holds the entry, and the position in it. *)
Definition locate (cluster : Z) : outcome FileError (Z * Z) :=
  off ← fat_offset cluster;
  q ← udiv off bps;
  fat_sector ← uadd 32 (first_fat_sector (ft_bpb t)) q;
  o ← urem off bps;
  Ok (fat_sector, o).

Definition new_buf : bytes := replicate (Z.to_nat bps) 0.

Definition read_entry (cluster : Z) : st S FileError Z :=
  '(fat_sector, o) ← st_lift (locate cluster);
  sector_buf ← read_sector fat_sector new_buf;
  let o := Z.to_nat o in
  match ft_type t with
  | Fat12 =>
      last ← st_lift (usub bps 1);
      val ← (if Z.of_nat o =? last then
               next ← st_lift (uadd 32 fat_sector 1);
               next_sector_buf ← read_sector next new_buf;
               lo ← st_lift (get_le o 1 sector_buf);
               hi ← st_lift (get_le 0 1 next_sector_buf);
               mret (Z.lor lo (Z.shiftl hi 8))
             else st_lift (get_le o 2 sector_buf));
      mret (if negb (Z.land cluster 1 =? 0) then Z.shiftr val 4 else Z.land val 0x0FFF)
  | Fat16 => st_lift (get_le o 2 sector_buf)
  | Fat32 => v ← st_lift (get_le o 4 sector_buf); mret (Z.land v 0x0FFFFFFF)
  end.

(** The word that replaces [existing] in a 12-bit table. *)
Definition fat12_word (cluster existing value : Z) : Z :=
  if negb (Z.land cluster 1 =? 0)
  then Z.lor (Z.land existing 0x000F) (wrap 16 (Z.shiftl (wrap 16 value) 4))
  else Z.lor (Z.land existing 0xF000) (Z.land (wrap 16 value) 0x0FFF).

(** The sector with the entry replaced. *)
Definition patch_entry (cluster value : Z) (o : nat) (sector_buf : bytes) : outcome FileError bytes :=
  match ft_type t with
  | Fat12 =>
      lo ← get_le o 1 sector_buf;
      let hi := default 0 (sector_buf !! (o + 1)%nat) in
      let new_val := fat12_word cluster (lo + 256 * hi) value in
      buf ← put_slice o [wrap 8 new_val] sector_buf;
      if Nat.ltb (o + 1) (length buf) then put_slice (o + 1) [wrap 8 (Z.shiftr new_val 8)] buf
      else Ok buf
  | Fat16 => put_slice o (to_le 2 (wrap 16 value)) sector_buf
  | Fat32 =>
      existing ← get_le o 4 sector_buf;
      let new_val := Z.lor (Z.land existing 0xF0000000) (Z.land value 0x0FFFFFFF) in
      put_slice o (to_le 4 new_val) sector_buf
  end.

(** [for i in 1..num_fats], [n] rounds from [i] on. *)
Fixpoint write_mirrors (n : nat) (i fat_sector : Z) (sector_buf : bytes) : st S FileError unit :=
  match n with
  | O => mret tt
  | Datatypes.S n =>
      d ← st_lift (umul 32 i (fat_size (ft_bpb t)));
      mirror_sector ← st_lift (uadd 32 fat_sector d);
      _ ← write_sector mirror_sector sector_buf;
      write_mirrors n (i + 1) fat_sector sector_buf
  end.

Definition write_entry (cluster value : Z) : st S FileError unit :=
  '(fat_sector, o) ← st_lift (locate cluster);
  sector_buf ← read_sector fat_sector new_buf;
  sector_buf ← st_lift (patch_entry cluster value (Z.to_nat o) sector_buf);
  _ ← write_sector fat_sector sector_buf;
  write_mirrors (Z.to_nat (num_fats (ft_bpb t) - 1)) 1 fat_sector sector_buf.

Definition eoc_mark : Z :=
  match ft_type t with Fat12 => 0x0FFF | Fat16 => 0xFFFF | Fat32 => 0x0FFFFFFF end.
Definition is_eoc (entry : Z) : bool :=
  match ft_type t with Fat12 => 0x0FF8 <=? entry | Fat16 => 0xFFF8 <=? entry | Fat32 => 0x0FFFFFF8 <=? entry end.

(** [for cluster in cluster..cluster + n]. *)
Fixpoint find_free (n : nat) (cluster : Z) : st S FileError Z :=
  match n with
  | O => st_lift (Err (Other "No free clusters"))
  | Datatypes.S n =>
      entry ← read_entry cluster;
      if entry =? FAT_FREE then _ ← write_entry cluster eoc_mark; mret cluster
      else find_free n (cluster + 1)
  end.

Definition total_clusters {E} : outcome E Z :=
  f ← first_data_sector (ft_bpb t);
  d ← usub (total_sectors (ft_bpb t)) f;
  udiv d (sectors_per_cluster (ft_bpb t)).

Definition allocate_cluster : st S FileError Z :=
  n ← st_lift total_clusters;
  _ ← st_lift (uadd 32 n 2);
  find_free (Z.to_nat n) 2.
End Table.

(** ** Clusters *)
Section Clusters.
Context {S : Type} `{BlockDevice S}.
Context (b : BiosParameterBlock) (partition_offset : Z).

Definition cluster_offset (cluster : Z) : outcome FileError Z :=
  sector ← cluster_to_sector b cluster;
  o ← umul 64 sector (bytes_per_sector b);
  uadd 64 o partition_offset.

Definition read_cluster (cluster : Z) (buf : bytes) : st S FileError bytes :=
  offset ← st_lift (cluster_offset cluster);
  _ ← st_map_err (fun _ => SeekError) (bd_seek (Start offset));
  '(_, buf) ← st_map_err (fun _ => ReadError) (bd_read buf);
  mret buf.

Definition write_cluster (cluster : Z) (buf : bytes) : st S FileError unit :=
  offset ← st_lift (cluster_offset cluster);
  _ ← st_map_err (fun _ => SeekError) (bd_seek (Start offset));
  _ ← st_map_err (fun _ => WriteError) (bd_write buf);
  mret tt.
End Clusters.

(** ** The table as a sequence of entries *)
Section Entries.
Context (ft : FatType).

Definition entry_width : nat := match ft with Fat12 | Fat16 => 2 | Fat32 => 4 end.
Definition entry_bits : Z := match ft with Fat12 => 12 | Fat16 => 16 | Fat32 => 28 end.
(** Where the entry of a cluster starts in the table. *)
Definition entry_pos (c : Z) : Z :=
  match ft with Fat12 => c + c / 2 | Fat16 => c * 2 | Fat32 => c * 4 end.

(** The entry of cluster [c] of the table [fat], and the table with it replaced. *)
Definition entry_of_word (c w : Z) : Z :=
  match ft with
  | Fat12 => if negb (Z.land c 1 =? 0) then Z.shiftr w 4 else Z.land w 0x0FFF
  | Fat16 => w
  | Fat32 => Z.land w 0x0FFFFFFF
  end.
Definition word_of_entry (c w v : Z) : Z :=
  match ft with
  | Fat12 => fat12_word c w v
  | Fat16 => wrap 16 v
  | Fat32 => Z.lor (Z.land w 0xF0000000) (Z.land v 0x0FFFFFFF)
  end.
Definition word_at (c : Z) (fat : bytes) : Z := from_le (sub_bytes (Z.to_nat (entry_pos c)) entry_width fat).
Definition fat_get (c : Z) (fat : bytes) : Z := entry_of_word c (word_at c fat).
Definition fat_set (c v : Z) (fat : bytes) : bytes :=
  put (Z.to_nat (entry_pos c)) (to_le entry_width (word_of_entry c (word_at c fat) v)) fat.

(** The entry lies in a table of [len] bytes. *)
Definition entry_in (len : nat) (c : Z) : Prop := 0 <= c /\ entry_pos c + Z.of_nat entry_width <= Z.of_nat len.

Lemma land_1_odd c : negb (Z.land c 1 =? 0) = Z.odd c.
Proof.
  change 1 with (Z.ones 1). rewrite Z.land_ones by lia. change (2 ^ 1) with 2.
  rewrite Zmod_odd. by destruct (Z.odd c).
Qed.

Lemma land_low w n : 0 <= n -> Z.land w (Z.ones n) = w mod 2 ^ n.
Proof. intros. by apply Z.land_ones. Qed.

Lemma mod_mod_4096 v : (v mod 65536) mod 4096 = v mod 4096.
Proof. symmetry. apply Znumtheory.Zmod_div_mod; [lia|lia|]. by exists 16. Qed.

(** The words of a 12-bit table in arithmetic. *)
Lemma fat12_word_eq c w v :
  is_u 16 w -> fat12_word c w v =
    if Z.odd c then w mod 16 + v mod 4096 * 16 else v mod 4096 + w / 4096 * 4096.
Proof.
  intros Hw. unfold fat12_word. rewrite land_1_odd. destruct (Z.odd c).
  - change 0x000F with (Z.ones 4). rewrite land_low by lia. change (2 ^ 4) with 16.
    assert (wrap 16 (Z.shiftl (wrap 16 v) 4) = Z.shiftl (v mod 4096) 4) as ->.
    { unfold wrap. rewrite !Z.shiftl_mul_pow2 by lia. change (2 ^ 16) with 65536. change (2 ^ 4) with 16.
      replace ((v mod 65536 * 16) mod 65536) with ((v mod 65536 * 16) mod (4096 * 16)) by done.
      rewrite Z.mul_mod_distr_r by lia. f_equal. by rewrite mod_mod_4096. }
    rewrite lor_shiftl_add by (try apply Z.mod_pos_bound; lia). done.
  - change 0x0FFF with (Z.ones 12). rewrite land_low by lia.
    assert (Z.land w 0xF000 = Z.shiftl (w / 4096) 12) as ->.
    { change 4096 with (2 ^ 12). rewrite <-Z.shiftr_div_pow2, <-Z.ldiff_ones_r by lia.
      apply Z.bits_inj'. intros i Hi. rewrite Z.land_spec, Z.ldiff_spec, Z.testbit_ones_nonneg by lia.
      destruct (decide (16 <= i)).
      - rewrite (is_u_testbit 16 w) by (done || lia). done.
      - change 0xF000 with (Z.shiftl (Z.ones 4) 12). destruct (Z.ltb_spec i 12).
        + rewrite Z.shiftl_spec_low by lia. cbn [negb]. by rewrite !andb_false_r.
        + rewrite Z.shiftl_spec, Z.testbit_ones_nonneg by lia. rewrite (proj2 (Z.ltb_lt _ _)) by lia. done. }
    unfold wrap. rewrite Z.lor_comm. rewrite lor_shiftl_add by (try apply Z.mod_pos_bound; lia).
    change (2 ^ 12) with 4096. change (2 ^ 16) with 65536. by rewrite mod_mod_4096.
Qed.

Lemma entry_of_word_eq c w :
  is_u 16 w -> ft = Fat12 -> entry_of_word c w = if Z.odd c then w / 16 else w mod 4096.
Proof.
  intros Hw Hft. unfold entry_of_word. rewrite Hft, land_1_odd. destruct (Z.odd c).
  - by rewrite Z.shiftr_div_pow2 by lia.
  - change 0x0FFF with (Z.ones 12). by rewrite land_low by lia.
Qed.
End Entries.

Section GetSet.
Context (ft : FatType).
Abbreviation pos := (entry_pos ft).
Abbreviation width := (entry_width ft).

Lemma entry_pos_nonneg c : 0 <= c -> 0 <= pos c.
Proof using. intros Hc. pose proof (Z.div_pos c 2 Hc). unfold entry_pos. destruct ft; lia. Qed.

Lemma word_at_range c fat : entry_in ft (length fat) c -> Forall is_byte fat ->
  is_u (8 * Z.of_nat width) (word_at ft c fat).
Proof using.
  intros [Hc Hin] Hb. unfold word_at. pose proof (entry_pos_nonneg c Hc).
  pose proof (from_le_range (sub_bytes (Z.to_nat (pos c)) width fat) (sub_bytes_bytes _ _ _ Hb)) as H1.
  rewrite sub_bytes_length in H1 by lia. done.
Qed.

Lemma land_mask_high w : is_u 32 (Z.land w 0xF0000000).
Proof using.
  apply is_u_of_bits; [lia|apply Z.land_nonneg; by right|]. intros i Hi.
  rewrite Z.land_spec. rewrite (is_u_testbit 32 0xF0000000) by (unfold is_u; lia). apply andb_false_r.
Qed.

Lemma word_of_entry_range c w v :
  is_u (8 * Z.of_nat width) w -> is_u (8 * Z.of_nat width) (word_of_entry ft c w v).
Proof using.
  unfold word_of_entry, entry_width. destruct ft; cbn [Z.of_nat Pos.of_succ_nat Pos.succ Z.mul Pos.mul]; intros Hw.
  - rewrite fat12_word_eq by done. unfold is_u in *.
    pose proof (Z.mod_pos_bound v 4096 ltac:(lia)). pose proof (Z.mod_pos_bound w 16 ltac:(lia)).
    pose proof (Z.div_mod w 4096 ltac:(lia)). pose proof (Z.mod_pos_bound w 4096 ltac:(lia)).
    pose proof (Z.div_pos w 4096 ltac:(lia) ltac:(lia)). pose proof (Z.div_lt_upper_bound w 4096 16 ltac:(lia) ltac:(lia)).
    destruct (Z.odd c); lia.
  - apply is_u_wrap. lia.
  - apply is_u_lor; [lia|apply land_mask_high|]. change 0x0FFFFFFF with (Z.ones 28). rewrite land_low by lia.
    pose proof (Z.mod_pos_bound v (2 ^ 28) ltac:(lia)). unfold is_u. lia.
Qed.

Lemma word_at_set_same c v fat :
  entry_in ft (length fat) c -> Forall is_byte fat ->
  word_at ft c (fat_set ft c v fat) = word_of_entry ft c (word_at ft c fat) v.
Proof using.
  intros Hc Hb. unfold word_at at 1, fat_set.
  set (w := word_of_entry ft c (word_at ft c fat) v).
  assert (length (to_le width w) = width) as Hl by apply to_le_length.
  rewrite <-Hl at 1. rewrite sub_bytes_put_same.
  - apply from_to_le, word_of_entry_range. by apply word_at_range.
  - rewrite Hl. destruct Hc as [Hc Hin]. pose proof (entry_pos_nonneg c Hc). lia.
Qed.

Lemma fat_get_set_same c v fat :
  entry_in ft (length fat) c -> Forall is_byte fat ->
  fat_get ft c (fat_set ft c v fat) = v mod 2 ^ entry_bits ft.
Proof using.
  intros Hc Hb. unfold fat_get. rewrite word_at_set_same by done.
  pose proof (word_at_range c fat Hc Hb) as Hw. pose proof (word_of_entry_range c _ v Hw) as Hw'.
  set (w := word_at ft c fat) in *. unfold entry_bits. destruct ft eqn:Hft.
  - rewrite entry_of_word_eq by done. cbn [word_of_entry]. rewrite fat12_word_eq by done.
    change (2 ^ 12) with 4096. pose proof (Z.mod_pos_bound v 4096 ltac:(lia)).
    destruct (Z.odd c).
    + symmetry. apply (Z.div_unique _ 16 _ (w mod 16)); [left; apply Z.mod_pos_bound; lia|lia].
    + rewrite Z_mod_plus_full. by apply Z.mod_small.
  - done.
  - cbn [entry_of_word word_of_entry]. apply Z.bits_inj'. intros i Hi.
    rewrite Z.land_spec, Z.lor_spec, !Z.land_spec. change 0x0FFFFFFF with (Z.ones 28).
    rewrite Z.testbit_ones_nonneg by lia. destruct (Z.ltb_spec i 28).
    + rewrite Z.mod_pow2_bits_low by lia. rewrite !andb_true_r.
      replace (Z.testbit 0xF0000000 i) with false; [by rewrite andb_false_r|].
      change 0xF0000000 with (Z.shiftl 15 28). by rewrite Z.shiftl_spec_low by lia.
    + rewrite Z.mod_pow2_bits_high by lia. apply andb_false_r.
Qed.

(** Entries of 16 and 32 bits, and 12-bit entries that are not neighbours of one word,
    share no byte. *)
Lemma fat_get_set_away c c' v fat :
  entry_in ft (length fat) c -> entry_in ft (length fat) c' ->
  pos c + Z.of_nat width <= pos c' \/ pos c' + Z.of_nat width <= pos c ->
  fat_get ft c' (fat_set ft c v fat) = fat_get ft c' fat.
Proof using.
  intros [Hc Hin] [Hc' Hin'] Hd. unfold fat_get, word_at. do 2 f_equal. unfold fat_set.
  pose proof (entry_pos_nonneg c Hc). pose proof (entry_pos_nonneg c' Hc').
  apply sub_bytes_put_away; rewrite to_le_length; lia.
Qed.
End GetSet.

(** The two 12-bit entries that share a byte. *)
Lemma fat12_pair k :
  0 <= k -> entry_pos Fat12 (2 * k) = 3 * k /\ entry_pos Fat12 (2 * k + 1) = 3 * k + 1 /\
  Z.odd (2 * k) = false /\ Z.odd (2 * k + 1) = true.
Proof.
  intros Hk. cbn [entry_pos].
  assert (2 * k / 2 = k) as -> by (symmetry; apply Z.div_unique with 0; lia).
  assert ((2 * k + 1) / 2 = k) as -> by (symmetry; apply Z.div_unique with 1; lia).
  split_and!; [lia|lia|apply Z.odd_even|apply Z.odd_odd].
Qed.

Lemma fat12_set_even k v fat :
  0 <= k -> entry_in Fat12 (length fat) (2 * k) -> entry_in Fat12 (length fat) (2 * k + 1) -> Forall is_byte fat ->
  fat_get Fat12 (2 * k + 1) (fat_set Fat12 (2 * k) v fat) = fat_get Fat12 (2 * k + 1) fat.
Proof.
  intros Hk [_ Hin] [_ Hin'] Hb. destruct (fat12_pair k Hk) as (He & Ho & Hev & Hod).
  rewrite He in Hin. rewrite Ho in Hin'. cbn in Hin, Hin'. set (p := Z.to_nat (3 * k)).
  destruct (sub_bytes_2 p fat) as (b0 & b1 & H0 & H1 & Hs); [lia|].
  destruct (sub_bytes_2 (p + 1) fat) as (b1' & b2 & H1' & H2 & Hs'); [lia|].
  rewrite H1 in H1'. injection H1' as <-. rewrite <-Nat.add_assoc in H2. cbn in H2.
  rewrite Forall_lookup in Hb. pose proof (Hb _ _ H0) as B0. pose proof (Hb _ _ H1) as B1. pose proof (Hb _ _ H2) as B2.
  unfold is_byte in B0, B1, B2. unfold fat_get, word_at, fat_set. rewrite He, Ho.
  replace (Z.to_nat (3 * k + 1)) with (p + 1)%nat by lia. fold p. cbn [entry_width]. unfold word_at. rewrite He. fold p.
  cbn [entry_width word_of_entry]. rewrite Hs, Hs', !from_le_2 by done.
  rewrite fat12_word_eq by (unfold is_u; lia). rewrite Hev. set (w := _ + _ * 4096).
  assert ((b0 + 256 * b1) / 4096 = b1 / 16) as Hhigh.
  { replace 4096 with (256 * 16) by lia. rewrite <-Z.div_div by lia. f_equal.
    symmetry. apply Z.div_unique with b0; lia. }
  pose proof (Z.mod_pos_bound v 4096 ltac:(lia)). pose proof (Z.div_mod b1 16 ltac:(lia)).
  pose proof (Z.mod_pos_bound b1 16 ltac:(lia)).
  assert (w = v mod 4096 + b1 / 16 * 4096) as Hw by (subst w; by rewrite Hhigh). clearbody w.
  assert (is_u 16 w) as Hwu by (unfold is_u; lia). rewrite to_le_2 by done.
  assert (sub_bytes (p + 1) 2 (put p [w mod 256; w / 256] fat) = [w / 256; b2]) as ->.
  { apply list_eq. intros i. rewrite lookup_sub_bytes. destruct i as [|[|i]]; cbn [decide].
    - rewrite decide_True by lia. rewrite lookup_put by (cbn; lia). rewrite decide_True by (cbn; lia).
      by replace (p + 1 + 0 - p)%nat with 1%nat by lia.
    - rewrite decide_True by lia. rewrite lookup_put by (cbn; lia). rewrite decide_False by (cbn; lia).
      cbn. rewrite <-H2. f_equal. lia.
    - rewrite decide_False by lia. done. }
  assert (is_byte (w / 256)) as Hb1.
  { unfold is_byte, is_u in *. split; [apply Z.div_pos|apply Z.div_lt_upper_bound]; lia. }
  rewrite from_le_2 by done. rewrite !entry_of_word_eq by (done || (unfold is_u, is_byte in *; lia)). rewrite Hod.
  assert (w / 256 / 16 = b1 / 16) as Hn.
  { rewrite Z.div_div by lia. symmetry. apply Z.div_unique with (v mod 4096); lia. }
  replace (w / 256 + 256 * b2) with (w / 256 + b2 * 16 * 16) by lia.
  replace (b1 + 256 * b2) with (b1 + b2 * 16 * 16) by lia. rewrite !Z.div_add by lia. lia.
Qed.

Lemma fat12_set_odd k v fat :
  0 <= k -> entry_in Fat12 (length fat) (2 * k) -> entry_in Fat12 (length fat) (2 * k + 1) -> Forall is_byte fat ->
  fat_get Fat12 (2 * k) (fat_set Fat12 (2 * k + 1) v fat) = fat_get Fat12 (2 * k) fat.
Proof.
  intros Hk [_ Hin] [_ Hin'] Hb. destruct (fat12_pair k Hk) as (He & Ho & Hev & Hod).
  rewrite He in Hin. rewrite Ho in Hin'. cbn in Hin, Hin'. set (p := Z.to_nat (3 * k)).
  destruct (sub_bytes_2 p fat) as (b0 & b1 & H0 & H1 & Hs); [lia|].
  destruct (sub_bytes_2 (p + 1) fat) as (b1' & b2 & H1' & H2 & Hs'); [lia|].
  rewrite H1 in H1'. injection H1' as <-.
  rewrite Forall_lookup in Hb. pose proof (Hb _ _ H0) as B0. pose proof (Hb _ _ H1) as B1. pose proof (Hb _ _ H2) as B2.
  unfold is_byte in B0, B1, B2. unfold fat_get, word_at, fat_set. rewrite He, Ho.
  replace (Z.to_nat (3 * k + 1)) with (p + 1)%nat by lia. fold p. cbn [entry_width]. unfold word_at. rewrite Ho.
  replace (Z.to_nat (3 * k + 1)) with (p + 1)%nat by lia.
  cbn [entry_width word_of_entry]. rewrite Hs, Hs', !from_le_2 by done.
  rewrite fat12_word_eq by (unfold is_u; lia). rewrite Hod. set (w := _ + _ * 16).
  pose proof (Z.mod_pos_bound v 4096 ltac:(lia)). pose proof (Z.mod_pos_bound (b1 + 256 * b2) 16 ltac:(lia)).
  assert (is_u 16 w) as Hwu by (unfold is_u; subst w; lia). rewrite to_le_2 by done.
  assert (sub_bytes p 2 (put (p + 1) [w mod 256; w / 256] fat) = [b0; w mod 256]) as ->.
  { apply list_eq. intros i. rewrite lookup_sub_bytes. destruct i as [|[|i]]; cbn [decide].
    - rewrite decide_True by lia. rewrite lookup_put by (cbn; lia). rewrite decide_False by (cbn; lia).
      by rewrite Nat.add_0_r.
    - rewrite decide_True by lia. rewrite lookup_put by (cbn; lia). rewrite decide_True by (cbn; lia).
      by replace (p + 1 - (p + 1))%nat with 0%nat by lia.
    - rewrite decide_False by lia. done. }
  assert (is_byte (w mod 256)) as Hb1 by (apply Z.mod_pos_bound; lia).
  rewrite from_le_2 by done. rewrite !entry_of_word_eq by (done || (unfold is_u, is_byte in *; lia)). rewrite Hev.
  assert ((w mod 256) mod 16 = b1 mod 16) as Hn.
  { rewrite <-(Znumtheory.Zmod_div_mod 16 256 w) by (try lia; by exists 16). subst w.
    rewrite Z_mod_plus_full, Zmod_mod. replace (b1 + 256 * b2) with (b1 + b2 * 16 * 16) by lia.
    by rewrite Z_mod_plus_full. }
  assert (forall b, is_byte b -> (b0 + 256 * b) mod 4096 = b0 + 256 * (b mod 16)) as Hm.
  { intros b Hbb. pose proof (Z.div_mod b 16 ltac:(lia)). pose proof (Z.mod_pos_bound b 16 ltac:(lia)).
    symmetry. apply Z.mod_unique with (b / 16); lia. }
  rewrite !Hm by done. by rewrite Hn.
Qed.

Lemma fat_get_set_other ft c c' v fat :
  entry_in ft (length fat) c -> entry_in ft (length fat) c' -> Forall is_byte fat -> c <> c' ->
  fat_get ft c' (fat_set ft c v fat) = fat_get ft c' fat.
Proof.
  intros Hc Hc' Hb Hne. destruct ft; [|apply fat_get_set_away; [done|done|cbn; lia]..].
  pose proof (proj1 Hc) as H0. pose proof (proj1 Hc') as H0'.
  destruct (decide (c / 2 = c' / 2)) as [Heq|Hdiff].
  - pose proof (Z.div_mod c 2 ltac:(lia)). pose proof (Z.div_mod c' 2 ltac:(lia)).
    pose proof (Z.mod_pos_bound c 2 ltac:(lia)). pose proof (Z.mod_pos_bound c' 2 ltac:(lia)).
    pose proof (Z.div_pos c 2 H0 ltac:(lia)). set (k := c / 2) in *.
    destruct (decide (c = 2 * k)) as [Hck|Hck].
    + assert (c' = 2 * k + 1) as Hck' by lia. rewrite Hck, Hck' in *. by apply fat12_set_even.
    + assert (c = 2 * k + 1) as Hck1 by lia. assert (c' = 2 * k) as Hck' by lia.
      rewrite Hck1, Hck' in *. by apply fat12_set_odd.
  - apply fat_get_set_away; [done|done|]. cbn.
    pose proof (Z.div_mod c 2 ltac:(lia)). pose proof (Z.div_mod c' 2 ltac:(lia)).
    pose proof (Z.mod_pos_bound c 2 ltac:(lia)). pose proof (Z.mod_pos_bound c' 2 ltac:(lia)). lia.
Qed.

(** ** Directory entries on disk *)
Record fde_ok (e : FatDirEntry) : Prop := {
  fde_ok_name : length (fde_name e) = 11%nat;
  fde_ok_bytes : Forall is_byte (fde_name e);
  fde_ok_live : exists b, fde_name e !! 0%nat = Some b /\ b <> 0 /\ b <> 0xE5;
  fde_ok_attr : is_u 8 (fde_attr e);
  fde_ok_nt : is_u 8 (fde_nt_reserved e);
  fde_ok_tenth : is_u 8 (fde_create_time_tenth e);
  fde_ok_ctime : is_u 16 (fde_create_time e);
  fde_ok_cdate : is_u 16 (fde_create_date e);
  fde_ok_adate : is_u 16 (fde_last_access_date e);
  fde_ok_high : is_u 16 (fde_first_cluster_high e);
  fde_ok_wtime : is_u 16 (fde_write_time e);
  fde_ok_wdate : is_u 16 (fde_write_date e);
  fde_ok_low : is_u 16 (fde_first_cluster_low e);
  fde_ok_size : is_u 32 (fde_file_size e);
}.

Lemma serialize_length e : length (fde_name e) = 11%nat -> length (FatDirEntry_serialize e) = 32%nat.
Proof. intros H. unfold FatDirEntry_serialize. rewrite !length_app, !to_le_length, H. done. Qed.

Lemma serialize_bytes e : Forall is_byte (fde_name e) -> Forall is_byte (FatDirEntry_serialize e).
Proof. intros H. unfold FatDirEntry_serialize. rewrite !Forall_app. split_and!; [done|apply to_le_bytes..]. Qed.

Lemma parse_serialize {E} e : fde_ok e -> @FatDirEntry_parse E (FatDirEntry_serialize e) = Ok (Some e).
Proof.
  intros He. destruct He. pose proof (serialize_length e fde_ok_name0) as Hl. destruct fde_ok_live0 as (b & Hb & H0 & H5).
  unfold FatDirEntry_parse. rewrite Hl. change (Nat.ltb 32 FDE_SIZE) with false. cbv iota.
  assert (sub_bytes 0 1 (FatDirEntry_serialize e) = [b]) as Hfirst.
  { apply sub_bytes_1. unfold FatDirEntry_serialize. rewrite lookup_app_l by lia. done. }
  rewrite slice_Ok by lia. rewrite !get_le_Ok by lia. rewrite Hfirst. cbn [mbind outcome_bind].
  rewrite from_le_1 by (rewrite Forall_lookup in fde_ok_bytes0; eauto).
  rewrite (proj2 (Z.eqb_neq b 0)), (proj2 (Z.eqb_neq b 0xE5)) by done.
  unfold FatDirEntry_serialize. rewrite <-(app_nil_r (to_le 4 _)). field_at.
  rewrite !from_to_le by done. by destruct e.
Qed.

Lemma first_set_cluster e c : is_u 32 c -> first_cluster (set_first_cluster e c) = c.
Proof.
  intros Hc. unfold first_cluster. cbn. change 0xFFFF with (Z.ones 16). rewrite !Z.land_ones by lia.
  rewrite Z.shiftr_div_pow2, Z.lor_comm by lia.
  rewrite lor_shiftl_add by (try apply Z.mod_pos_bound; lia).
  rewrite (Z.mod_small (c / _)); [pose proof (Z.div_mod c (2 ^ 16)); lia|].
  unfold is_u in Hc. split; [apply Z.div_pos|apply Z.div_lt_upper_bound]; lia.
Qed.

(** ** Short names *)
(** A character an 8.3 name keeps: printable, upper case, neither space nor dot. *)
Definition plain (c : Z) : bool := (33 <=? c) && (c <? 127) && negb (c =? DOT) && negb ((97 <=? c) && (c <=? 122)).

Lemma plain_upper f c : plain c = true -> char_upper f c = [c].
Proof.
  unfold plain, char_upper. intros H. rewrite !andb_true_iff, negb_true_iff in H. destruct H as [[[H1 H2] _] ->%negb_true_iff].
  by rewrite (proj2 (Z.ltb_lt c 128)) by lia.
Qed.

Lemma to_uppercase_plain f l : Forall (fun c => plain c = true \/ c = DOT) l -> to_uppercase f l = l.
Proof.
  induction 1 as [|c l [Hc| ->] Hl IH]; [done| |]; cbn; unfold to_uppercase in IH; rewrite IH; [by rewrite plain_upper|done].
Qed.

Lemma split_no_dot l : Forall (fun c => plain c = true) l -> split_last_dot l = None.
Proof.
  induction 1 as [|c l Hc Hl IH]; [done|]. cbn. rewrite IH. unfold plain in Hc. by destruct (c =? DOT); [rewrite !andb_false_r in Hc|].
Qed.
Lemma split_dot a l : Forall (fun c => plain c = true) l -> split_last_dot (a ++ DOT :: l) = Some (a, l).
Proof. intros Hl. induction a as [|c a IH]; cbn; [by rewrite split_no_dot|by rewrite IH]. Qed.

Lemma plain_bounds c : plain c = true -> 33 <= c < 127.
Proof. unfold plain. intros H. rewrite !andb_true_iff in H. lia. Qed.

Lemma pad_plain n l :
  (length l <= n)%nat -> Forall (fun c => plain c = true) l -> pad n l = l ++ replicate (n - length l) 0x20.
Proof.
  intros Hn Hl. unfold pad. rewrite length_fmap, length_take, take_ge, Nat.min_r by lia. f_equal.
  induction Hl as [|c l Hc Hl IH]; [done|]. cbn in *. rewrite IH by lia. f_equal.
  apply Z.mod_small. pose proof (plain_bounds c Hc). cbn. lia.
Qed.

Lemma trim_plain l k : Forall (fun c => plain c = true) l -> trim_end (l ++ replicate k 0x20) = l.
Proof.
  intros Hl. induction Hl as [|c l Hc Hl IH].
  - induction k as [|k IHk]; [done|]. cbn in *. by rewrite IHk.
  - cbn. rewrite IH. destruct l; [|done]. pose proof (plain_bounds c Hc) as H. unfold is_space.
    rewrite (proj2 (Z.leb_gt c 13)) by lia. rewrite (proj2 (Z.eqb_neq c 32)) by lia.
    rewrite (proj2 (Z.eqb_neq c _)), (proj2 (Z.eqb_neq c _)) by lia. by rewrite andb_false_r.
Qed.

(** [base.ext], or [base] alone. *)
Definition name_83 (base ext : list Z) : list Z := match ext with [] => base | _ => base ++ [DOT] ++ ext end.

Lemma name_to_8_3_plain f base ext :
  (length base <= 8)%nat -> (length ext <= 3)%nat ->
  Forall (fun c => plain c = true) base -> Forall (fun c => plain c = true) ext ->
  name_to_8_3 f (name_83 base ext) =
    (base ++ replicate (8 - length base) 0x20) ++ (ext ++ replicate (3 - length ext) 0x20).
Proof.
  intros Hb He Pb Pe. unfold name_to_8_3. rewrite to_uppercase_plain; cycle 1.
  { unfold name_83. destruct ext; [|apply Forall_app; split; [|constructor; [by right|]]].
    all: eapply Forall_impl; try eassumption; by left. }
  unfold name_83. destruct ext as [|c ext]; [rewrite split_no_dot by done|change ([DOT] ++ c :: ext) with (DOT :: c :: ext); rewrite split_dot by done]; cbn [default].
  all: unfold id; by rewrite (pad_plain 8), (pad_plain 3).
Qed.

Lemma short_name_83 e f base ext :
  (length base <= 8)%nat -> (length ext <= 3)%nat ->
  Forall (fun c => plain c = true) base -> Forall (fun c => plain c = true) ext ->
  fde_name e = name_to_8_3 f (name_83 base ext) -> short_name e = name_83 base ext.
Proof.
  intros Hb He Pb Pe Hn. rewrite name_to_8_3_plain in Hn by done. unfold short_name. rewrite Hn.
  rewrite take_app_length', drop_app_length' by (rewrite length_app, length_replicate; lia).
  rewrite take_ge by (rewrite length_app, length_replicate; lia). rewrite !trim_plain by done. done.
Qed.


(** An entry for a new file or directory: everything but the name, the kind and the cluster is 0. *)
Definition new_entry (name : bytes) (attr cluster : Z) : FatDirEntry :=
  set_first_cluster (mkFde name attr 0 0 0 0 0 0 0 0 0 0) cluster.

Lemma new_entry_ok f base ext attr cluster :
  (1 <= length base <= 8)%nat -> (length ext <= 3)%nat ->
  Forall (fun c => plain c = true) base -> Forall (fun c => plain c = true) ext ->
  is_u 8 attr -> is_u 32 cluster -> fde_ok (new_entry (name_to_8_3 f (name_83 base ext)) attr cluster).
Proof.
  intros Hb He Pb Pe Ha Hc.
  assert (forall l, Forall (fun c => plain c = true) l -> Forall is_byte l) as Hpb.
  { intros l Hl. eapply Forall_impl; [exact Hl|]. intros c Hpc%plain_bounds. unfold is_byte. lia. }
  assert (forall k, Forall is_byte (replicate k 0x20)) as Hrb by (intros; by apply Forall_replicate).
  split; try done; cbn [new_entry set_first_cluster fde_name fde_first_cluster_high fde_first_cluster_low].
  - rewrite name_to_8_3_plain by (done || lia). rewrite !length_app, !length_replicate. lia.
  - rewrite name_to_8_3_plain by (done || lia). rewrite !Forall_app. auto.
  - rewrite name_to_8_3_plain by (done || lia). destruct base as [|b base]; [cbn in Hb; lia|].
    exists b. apply Forall_cons in Pb as [Hb0%plain_bounds _]. split; [done|lia].
  - cbn. change 0xFFFF with (Z.ones 16). rewrite Z.land_ones by lia. by apply Z.mod_pos_bound.
  - cbn. change 0xFFFF with (Z.ones 16). rewrite Z.land_ones by lia. by apply Z.mod_pos_bound.
Qed.

(** The entry written for a new file with a proper 8.3 name is read back: the 32 bytes
    parse to the entry, which gives the name, the kind and the first cluster again. *)
Theorem dir_entry_round_trip f base ext attr cluster :
  (1 <= length base <= 8)%nat -> (length ext <= 3)%nat ->
  Forall (fun c => plain c = true) base -> Forall (fun c => plain c = true) ext ->
  is_u 8 attr -> is_u 32 cluster ->
  exists e, @FatDirEntry_parse FileError
      (FatDirEntry_serialize (new_entry (name_to_8_3 f (name_83 base ext)) attr cluster)) = Ok (Some e) /\
    short_name e = name_83 base ext /\ first_cluster e = cluster /\
    is_directory e = negb (Z.land attr ATTR_DIRECTORY =? 0).
Proof.
  intros Hb He Pb Pe Ha Hc. eexists. split; [apply parse_serialize; by apply new_entry_ok|].
  split_and!; [|by apply first_set_cluster|done]. eapply short_name_83; try done. lia.
Qed.

Lemma dir_entry_round_trip_witness :
  exists e, @FatDirEntry_parse FileError
      (FatDirEntry_serialize (new_entry (name_to_8_3 (fun c => [c]) [82; 69; 65; 68; 46; 84; 88]) 0x20 70000)) = Ok (Some e) /\
    short_name e = [82; 69; 65; 68; 46; 84; 88] /\ first_cluster e = 70000 /\ is_directory e = false.
Proof.
  apply (dir_entry_round_trip (fun c => [c]) [82; 69; 65; 68] [84; 88] 0x20 70000);
    try (cbn; lia); try (vm_compute; split; congruence); repeat (constructor; [reflexivity|]); constructor.
Defined.
