(* ===== verification/FatTable.v ===== *)
(** * The file allocation table on a device

    The operations of [Fat] on a block device that keeps its laws, against the table as
    a sequence of entries: reading, writing with all copies, and allocating clusters. *)
From S2P Require Import Prelude OpenFile Bytes BlockDev Fat.

(** ** The table on a device *)
Section OnDevice.
Context (t : FatTable).
Abbreviation bpb := (ft_bpb t).
Abbreviation bps := (bytes_per_sector bpb).

(** The volume's layout fits [len] bytes of device and 32-bit sector numbers. *)
Record layout_ok (len : nat) : Prop := {
  lay_bps : 4 <= bps < 2 ^ 16;
  lay_bps_4 : bps mod 4 = 0;
  lay_offset : 0 <= partition_offset t;
  lay_reserved : 0 <= reserved_sector_count bpb;
  lay_fats : 1 <= num_fats bpb;
  lay_fat_size : 0 < fat_size bpb;
  lay_sectors : reserved_sector_count bpb + num_fats bpb * fat_size bpb < 2 ^ 32;
  lay_end : partition_offset t + (reserved_sector_count bpb + num_fats bpb * fat_size bpb) * bps <= Z.of_nat len;
  lay_len : Z.of_nat len < 2 ^ 63;
}.

Definition fat_len : Z := fat_size bpb * bps.
Definition fat_start (j : Z) : Z := partition_offset t + reserved_sector_count bpb * bps + j * fat_len.
(** The [j]-th copy of the table. *)
Definition fat_copy (j : Z) (cs : bytes) : bytes := sub_bytes (Z.to_nat (fat_start j)) (Z.to_nat fat_len) cs.

(** The cluster has an entry; a 12-bit entry to be written does not span two sectors. *)
Definition has_entry (c : Z) : Prop := entry_in (ft_type t) (Z.to_nat fat_len) c /\ entry_pos (ft_type t) c < 2 ^ 32.
Definition in_one_sector (c : Z) : Prop :=
  ft_type t = Fat12 -> entry_pos Fat12 c mod bps <> bps - 1.

(** The entries, read off the first copy; every copy is the same. *)
Definition table (cs : bytes) (c : Z) : Z := fat_get (ft_type t) c (fat_copy 0 cs).
Definition in_sync (cs : bytes) : Prop := forall j, 0 <= j < num_fats bpb -> fat_copy j cs = fat_copy 0 cs.

(** From [cs] to [cs'] the entry of [c] has become [v] in every copy; the other entries and
    the bytes outside the tables are as they were. *)
Definition entry_written (c v : Z) (cs cs' : bytes) : Prop :=
  length cs' = length cs /\ Forall is_byte cs' /\ in_sync cs' /\
  (forall c', has_entry c' -> table cs' c' = if decide (c' = c) then v else table cs c') /\
  (forall i : nat, Z.of_nat i < fat_start 0 \/ fat_start (num_fats bpb) <= Z.of_nat i -> cs' !! i = cs !! i).

(** The least free cluster of [c .. c + n]. *)
Fixpoint first_free (n : nat) (c : Z) (f : Z -> Z) : option Z :=
  match n with
  | O => None
  | S n => if f c =? FAT_FREE then Some c else first_free n (c + 1) f
  end.

Lemma first_free_range n c f c' : first_free n c f = Some c' -> c <= c' < c + Z.of_nat n.
Proof using.
  revert c. induction n as [|n IH]; intros c; cbn [first_free]; [done|].
  destruct (f c =? FAT_FREE); [intros; simplify_eq; lia|]. intros ?%IH. lia.
Qed.

Lemma copy_bounds len j :
  layout_ok len -> 0 <= j < num_fats bpb ->
  0 <= fat_start j /\ fat_start j + fat_len <= Z.of_nat len /\ 0 < fat_len.
Proof using.
  intros [] Hj. unfold fat_start, fat_len in *.
  assert (0 <= reserved_sector_count bpb * bps) by (apply Z.mul_nonneg_nonneg; lia).
  assert (0 < fat_size bpb * bps) by (apply Z.mul_pos_pos; lia).
  assert (j * (fat_size bpb * bps) + fat_size bpb * bps <= num_fats bpb * fat_size bpb * bps) by nia.
  split_and!; [|nia|lia]. nia.
Qed.

Lemma fat_copy_length len j cs :
  layout_ok len -> length cs = len -> 0 <= j < num_fats bpb -> length (fat_copy j cs) = Z.to_nat fat_len.
Proof using.
  intros Hlay <- Hj. pose proof (copy_bounds _ j Hlay Hj). unfold fat_copy. apply sub_bytes_length. lia.
Qed.

(** An entry's sector and its place there. *)
Lemma entry_place len c :
  layout_ok len -> has_entry c ->
  let p := entry_pos (ft_type t) c in
  0 <= p / bps /\ 0 <= p mod bps < bps /\ p = p / bps * bps + p mod bps /\ p / bps < fat_size bpb /\
  (p / bps + 1) * bps <= fat_len /\
  (ft_type t <> Fat12 \/ in_one_sector c -> p mod bps + Z.of_nat (entry_width (ft_type t)) <= bps).
Proof using.
  intros Hlay [[Hc Hin] _] p. pose proof (lay_bps_4 _ Hlay) as Hb4. destruct Hlay. pose proof (entry_pos_nonneg (ft_type t) c Hc) as Hp. fold p in Hp, Hin.
  unfold fat_len in *. assert (0 < fat_size bpb * bps) by (apply Z.mul_pos_pos; lia).
  pose proof (Z.div_mod p bps ltac:(lia)). pose proof (Z.mod_pos_bound p bps ltac:(lia)).
  assert (0 <= p / bps) by (apply Z.div_pos; lia).
  assert (p / bps < fat_size bpb).
  { apply Z.div_lt_upper_bound; [lia|]. assert (0 < Z.of_nat (entry_width (ft_type t))) by (destruct (ft_type t); done). lia. }
  split_and!; [done|lia|lia|lia|lia|nia|].
  intros Hone. subst p. unfold entry_pos, entry_width, in_one_sector in *. destruct (ft_type t).
  - destruct Hone as [|Hone]; [done|]. specialize (Hone eq_refl). cbn [entry_pos] in Hone. cbn. lia.
  - assert ((c * 2) mod bps mod 2 = 0) as Hm.
    { rewrite <-Znumtheory.Zmod_div_mod; [apply Z_mod_mult|lia|lia|].
      apply Z.mod_divide in Hb4 as [q Hq]; [|lia]. exists (q * 2). lia. }
    assert (bps mod 2 = 0) as Hb2 by (rewrite (Znumtheory.Zmod_div_mod 2 4 bps), Hb4; [done|lia|lia|by exists 2]).
    cbn. apply Z_div_exact_full_2 in Hm, Hb2; [|lia..]. lia.
  - assert ((c * 4) mod bps mod 4 = 0) as Hm.
    { rewrite <-Znumtheory.Zmod_div_mod; [apply Z_mod_mult|lia|lia|]. by apply Z.mod_divide; [lia|]. }
    cbn. apply Z_div_exact_full_2 in Hm, Hb4; [|lia..]. lia.
Qed.
End OnDevice.

Section DeviceOps.
Context {D : Type} `{HB : BlockDevice D} {HL : BlockDeviceLaws D}.
Context (t : FatTable) {HF : FullReads D (Z.to_nat (bytes_per_sector (ft_bpb t)))}.
Abbreviation bpb := (ft_bpb t).
Abbreviation bps := (bytes_per_sector bpb).
Implicit Type s : D.

Lemma sector_offset_eq len sector :
  layout_ok t len -> 0 <= sector -> (sector * bps + partition_offset t) + bps <= Z.of_nat len ->
  sector_offset t sector = Ok (sector * bps + partition_offset t).
Proof using.
  intros [] Hs Hin. assert (0 <= sector * bps) by (apply Z.mul_nonneg_nonneg; lia).
  unfold sector_offset. rewrite umul_eq by lia. cbn. rewrite uadd_eq by lia. done.
Qed.

Lemma read_sector_eq sector s :
  layout_ok t (length (contents s)) -> 0 <= sector ->
  (sector * bps + partition_offset t) + bps <= Z.of_nat (length (contents s)) ->
  exists s', read_sector t sector (new_buf t) s =
      (Ok (sub_bytes (Z.to_nat (sector * bps + partition_offset t)) (Z.to_nat bps) (contents s)), s') /\
    contents s' = contents s.
Proof using HF.
  intros Hlay Hs Hin. pose proof (sector_offset_eq _ _ Hlay Hs Hin) as Ho. destruct Hlay.
  assert (0 <= sector * bps) by (apply Z.mul_nonneg_nonneg; lia).
  destruct (seek_start (sector * bps + partition_offset t) s ltac:(lia)) as (s1 & Hseek & Hc1 & Hp1 & _).
  destruct (full_read (new_buf t) s1) as (s2 & Hread & Hc2);
    [unfold new_buf; by rewrite length_replicate|lia|rewrite Hc1, Z2Nat.id; lia|].
  exists s2. unfold read_sector. rewrite (st_bind_eq _ _ s _ s (f_equal (fun r => (r, s)) Ho)).
  erewrite st_bind_eq by (unfold st_map_err; by rewrite Hseek).
  erewrite st_bind_eq by (unfold st_map_err; by rewrite Hread).
  rewrite Hp1, Hc1. split; [done|congruence].
Qed.

Lemma write_sector_eq sector buf s :
  layout_ok t (length (contents s)) -> 0 <= sector -> Z.of_nat (length buf) = bps ->
  (sector * bps + partition_offset t) + bps <= Z.of_nat (length (contents s)) ->
  exists s', write_sector t sector buf s = (Ok tt, s') /\
    contents s' = put (Z.to_nat (sector * bps + partition_offset t)) buf (contents s).
Proof using HL.
  intros Hlay Hs Hbuf Hin. pose proof (sector_offset_eq _ _ Hlay Hs Hin) as Ho. destruct Hlay.
  assert (0 <= sector * bps) by (apply Z.mul_nonneg_nonneg; lia).
  destruct (seek_start (sector * bps + partition_offset t) s ltac:(lia)) as (s1 & Hseek & Hc1 & Hp1 & _).
  destruct (write_inside buf s1) as (s2 & Hwrite & Hc2 & _); [lia|rewrite Hc1; lia|].
  exists s2. unfold write_sector. rewrite (st_bind_eq _ _ s _ s (f_equal (fun r => (r, s)) Ho)).
  erewrite st_bind_eq by (unfold st_map_err; by rewrite Hseek).
  erewrite st_bind_eq by (unfold st_map_err; by rewrite Hwrite).
  split; [done|]. rewrite Hc2, Hp1, Hc1. done.
Qed.

Lemma locate_eq len c :
  layout_ok t len -> has_entry t c ->
  locate t c = Ok (reserved_sector_count bpb + entry_pos (ft_type t) c / bps, entry_pos (ft_type t) c mod bps).
Proof using.
  intros Hlay Hc. destruct (entry_place t len c Hlay Hc) as (H0 & _ & _ & Hq & _). pose proof Hc as [[Hc0 _] Hsmall].
  unfold locate. replace (fat_offset t c) with (@Ok FileError _ (entry_pos (ft_type t) c)).
  2: { unfold fat_offset. unfold entry_pos in *. by destruct (ft_type t); rewrite ?uadd_eq, ?umul_eq. }
  destruct Hlay. assert (fat_size bpb <= num_fats bpb * fat_size bpb) by nia.
  cbn. unfold udiv, urem. rewrite (proj2 (Z.eqb_neq bps 0)) by lia. cbn. unfold first_fat_sector.
  rewrite uadd_eq by lia. done.
Qed.

(** A sector of a copy of the table, on the device and in the copy. *)
Lemma copy_sector len j q cs :
  layout_ok t len -> length cs = len -> 0 <= j < num_fats bpb -> 0 <= q -> (q + 1) * bps <= fat_len t ->
  let pos := (reserved_sector_count bpb + q + j * fat_size bpb) * bps + partition_offset t in
  pos = fat_start t j + q * bps /\ pos + bps <= Z.of_nat len /\ 0 <= pos /\
  sub_bytes (Z.to_nat pos) (Z.to_nat bps) cs =
    sub_bytes (Z.to_nat (q * bps)) (Z.to_nat bps) (fat_copy t j cs).
Proof using.
  intros Hlay Hlen Hj Hq Hin pos. pose proof (copy_bounds t len j Hlay Hj) as (H0 & H1 & _).
  pose proof (lay_bps _ _ Hlay). assert (pos = fat_start t j + q * bps) as Hpos
    by (subst pos; unfold fat_start, fat_len; lia).
  split; [done|]. split; [lia|]. assert (0 <= q * bps) by (apply Z.mul_nonneg_nonneg; lia).
  split; [lia|]. rewrite Hpos. unfold fat_copy. rewrite sub_bytes_sub_bytes by lia. f_equal. lia.
Qed.

Lemma read_fat_sector j q s :
  layout_ok t (length (contents s)) -> 0 <= j < num_fats bpb -> 0 <= q -> (q + 1) * bps <= fat_len t ->
  exists s', read_sector t (reserved_sector_count bpb + q + j * fat_size bpb) (new_buf t) s =
      (Ok (sub_bytes (Z.to_nat (q * bps)) (Z.to_nat bps) (fat_copy t j (contents s))), s') /\
    contents s' = contents s.
Proof using HF.
  intros Hlay Hj Hq Hin. destruct (copy_sector _ j q (contents s) Hlay eq_refl Hj Hq Hin) as (_ & Hend & _ & <-).
  apply read_sector_eq; [done| |done].
  pose proof (lay_reserved _ _ Hlay). pose proof (lay_fat_size _ _ Hlay). nia.
Qed.

(** The word of an entry that lies in one sector. *)
Lemma word_in_sector c fat :
  let p := entry_pos (ft_type t) c in
  0 <= p / bps -> 0 <= p mod bps -> 0 < bps -> (p / bps + 1) * bps <= Z.of_nat (length fat) ->
  p mod bps + Z.of_nat (entry_width (ft_type t)) <= bps ->
  @get_le FileError (Z.to_nat (p mod bps)) (entry_width (ft_type t))
    (sub_bytes (Z.to_nat (p / bps * bps)) (Z.to_nat bps) fat) = Ok (word_at (ft_type t) c fat).
Proof using.
  intros p Hq Ho Hb Hlen Hin. assert (0 <= p / bps * bps) by (apply Z.mul_nonneg_nonneg; lia).
  rewrite get_le_Ok by (rewrite sub_bytes_length; lia).
  rewrite sub_bytes_sub_bytes by lia. unfold word_at. fold p. do 3 f_equal.
  pose proof (Z.div_mod p bps ltac:(lia)). lia.
Qed.

(** A 12-bit entry that spans two sectors is read from both. *)
Lemma read_spanning_word c s :
  layout_ok t (length (contents s)) -> has_entry t c -> Forall is_byte (contents s) -> ft_type t = Fat12 ->
  let p := entry_pos Fat12 c in
  let fat := fat_copy t 0 (contents s) in
  p mod bps = bps - 1 ->
  exists s', (next ← st_lift (uadd 32 (reserved_sector_count bpb + p / bps) 1);
      next_sector_buf ← read_sector t next (new_buf t);
      lo ← st_lift (get_le (Z.to_nat (p mod bps)) 1 (sub_bytes (Z.to_nat (p / bps * bps)) (Z.to_nat bps) fat));
      hi ← st_lift (get_le 0 1 next_sector_buf);
      mret (Z.lor lo (Z.shiftl hi 8))) s = (Ok (word_at Fat12 c fat), s') /\
    contents s' = contents s.
Proof using HF.
  intros Hlay Hc Hbytes Hft p fat Hlast. pose proof (entry_place t _ c Hlay Hc) as Hplace.
  pose proof Hc as [[_ Hfits] _]. rewrite Hft in *. fold p in Hplace, Hfits. destruct Hplace as (Hq & Ho & Hp & Hqs & Hin & _).
  pose proof (lay_bps _ _ Hlay). pose proof (lay_fats _ _ Hlay). pose proof (lay_sectors _ _ Hlay).
  pose proof (lay_reserved _ _ Hlay). pose proof (lay_fat_size _ _ Hlay).
  pose proof (fat_copy_length t _ 0 (contents s) Hlay eq_refl ltac:(lia)) as Hlen. fold fat in Hlen.
  pose proof (copy_bounds t _ 0 Hlay ltac:(lia)) as (_ & _ & Hfl).
  assert (p / bps + 1 < fat_size bpb) as Hnext.
  { apply (Z.mul_lt_mono_pos_r bps); [lia|]. unfold fat_len in *. cbn [entry_width] in Hfits. lia. }
  assert (fat_size bpb <= num_fats bpb * fat_size bpb) by nia.
  assert ((p / bps + 1 + 1) * bps <= fat_len t) as Hin2 by (apply Z.mul_le_mono_nonneg_r; lia).
  rewrite (st_lift_bind _ _ _ (reserved_sector_count bpb + (p / bps + 1))) by (rewrite uadd_eq by lia; f_equal; lia).
  destruct (read_fat_sector 0 (p / bps + 1) s) as (s1 & Hr & Hc1); [done|lia|lia|done|].
  rewrite Z.mul_0_l, Z.add_0_r in Hr. erewrite st_bind_eq by exact Hr. fold fat.
  destruct (sub_bytes_2 (Z.to_nat p) fat) as (x & y & Hx & Hy & Hxy); [cbn [entry_width] in Hfits; lia|].
  assert (Forall is_byte fat) as Hb by (by apply sub_bytes_bytes). rewrite Forall_lookup in Hb.
  pose proof (Hb _ _ Hx) as Bx. pose proof (Hb _ _ Hy) as By.
  assert (forall o q v, fat !! (q + o)%nat = Some v -> is_byte v -> (q + o < length fat)%nat -> (o < Z.to_nat bps)%nat ->
    (q + Z.to_nat bps <= length fat)%nat ->
    @get_le FileError o 1 (sub_bytes q (Z.to_nat bps) fat) = Ok v) as Hget.
  { intros o q v Hv Bv Hl Hob Hqb. rewrite get_le_Ok by (rewrite sub_bytes_length; lia).
    rewrite sub_bytes_sub_bytes by lia. by rewrite (sub_bytes_1 _ _ v), from_le_1. }
  rewrite (st_lift_bind _ _ _ x) by (apply Hget; [by replace (_ + _)%nat with (Z.to_nat p) by lia|done|lia..]).
  rewrite (st_lift_bind _ _ _ y) by (apply Hget; [by replace (_ + _)%nat with (Z.to_nat p + 1)%nat by lia|done|lia..]).
  exists s1. split; [|done]. unfold word_at. fold p. cbn [entry_width]. rewrite Hxy, from_le_2 by done.
  unfold mret, st_ret. rewrite lor_shiftl_add by (unfold is_byte in Bx; cbn; lia). do 3 f_equal. lia.
Qed.

Lemma read_entry_spec c s :
  layout_ok t (length (contents s)) -> has_entry t c -> Forall is_byte (contents s) ->
  exists s', read_entry t c s = (Ok (fat_get (ft_type t) c (fat_copy t 0 (contents s))), s') /\
    contents s' = contents s.
Proof using HF.
  intros Hlay Hc Hbytes. pose proof (locate_eq _ c Hlay Hc) as Hloc.
  destruct (entry_place t _ c Hlay Hc) as (Hq & Ho & Hp & Hqs & Hin & Hone).
  pose proof (lay_bps _ _ Hlay) as Hbps. pose proof (lay_fats _ _ Hlay) as Hn.
  pose proof (fat_copy_length t _ 0 (contents s) Hlay eq_refl ltac:(lia)) as Hlen.
  pose proof (copy_bounds t _ 0 Hlay ltac:(lia)) as (_ & _ & Hfl).
  set (p := entry_pos (ft_type t) c) in *. set (fat := fat_copy t 0 (contents s)) in *.
  destruct (read_fat_sector 0 (p / bps) s Hlay ltac:(lia) Hq Hin) as (s1 & Hr & Hc1).
  rewrite Z.mul_0_l, Z.add_0_r in Hr. fold fat in Hr.
  pose proof (word_in_sector c fat) as Hword. fold p in Hword. cbv zeta in Hword.
  unfold read_entry. rewrite (st_lift_bind _ _ _ _ Hloc). erewrite st_bind_eq by exact Hr.
  unfold fat_get. destruct (ft_type t) eqn:Hft; cbn [entry_of_word entry_width] in *.
  2: { rewrite Hword by (try lia; apply Hone; by left). by exists s1. }
  2: { rewrite (st_lift_bind _ _ _ (word_at Fat32 c fat)) by (apply Hword; try lia; apply Hone; by left). by exists s1. }
  rewrite (st_lift_bind _ _ _ (bps - 1)) by (apply usub_eq; lia). rewrite Z2Nat.id by lia.
  destruct (Z.eqb_spec (p mod bps) (bps - 1)) as [Hlast|Hnot].
  2: { rewrite (st_bind_eq _ _ _ (word_at Fat12 c fat) s1); [by exists s1|].
       unfold st_lift. rewrite Hword; [done|lia..|]. apply Hone. right. by intros _. }
  destruct (read_spanning_word c s1) as (s2 & Hspan & Hc2); rewrite ?Hc1; try done.
  fold p in Hspan. rewrite Hc1 in Hspan, Hc2. fold fat in Hspan. cbv zeta in Hspan.
  exists s2. erewrite st_bind_eq by exact Hspan. done.
Qed.

Lemma patch_entry_eq c v fat :
  let p := entry_pos (ft_type t) c in
  let sec := sub_bytes (Z.to_nat (p / bps * bps)) (Z.to_nat bps) fat in
  0 <= p / bps -> 0 <= p mod bps -> 0 < bps -> (p / bps + 1) * bps <= Z.of_nat (length fat) ->
  p mod bps + Z.of_nat (entry_width (ft_type t)) <= bps -> Forall is_byte fat ->
  patch_entry t c v (Z.to_nat (p mod bps)) sec =
    Ok (put (Z.to_nat (p mod bps))
          (to_le (entry_width (ft_type t)) (word_of_entry (ft_type t) c (word_at (ft_type t) c fat) v)) sec).
Proof using.
  intros p sec Hq Ho Hb Hlen Hin Hbytes.
  pose proof (word_in_sector c fat Hq Ho Hb Hlen Hin) as Hword. fold p sec in Hword.
  assert (0 <= p / bps * bps) by (apply Z.mul_nonneg_nonneg; lia).
  assert (length sec = Z.to_nat bps) as Hsec by (apply sub_bytes_length; lia).
  assert (Forall is_byte sec) as Bsec by (by apply sub_bytes_bytes).
  set (o := Z.to_nat (p mod bps)) in *. unfold patch_entry.
  destruct (ft_type t) eqn:Hft; cbn [entry_width word_of_entry] in *.
  - destruct (sub_bytes_2 o sec) as (x & y & Hx & Hy & Hxy); [lia|].
    rewrite Forall_lookup in Bsec. pose proof (Bsec _ _ Hx) as Bx. pose proof (Bsec _ _ Hy) as By.
    rewrite get_le_Ok in Hword by lia. rewrite Hxy, from_le_2 in Hword by done. injection Hword as <-.
    rewrite get_le_Ok by lia. rewrite (sub_bytes_1 _ _ x), from_le_1 by done. cbn [mbind outcome_bind].
    rewrite Hy. cbn [default]. set (w := fat12_word c (x + 256 * y) v).
    assert (is_u 16 w) as Hw.
    { apply (word_of_entry_range Fat12 c (x + 256 * y) v). unfold is_u, is_byte in *. cbn. lia. }
    rewrite put_slice_put by (cbn; lia). cbn [mbind outcome_bind]. rewrite length_put by (cbn; lia).
    rewrite (proj2 (Nat.ltb_lt _ _)) by lia. rewrite put_slice_put by (rewrite length_put; cbn; lia).
    change (o + 1)%nat with (o + length [wrap 8 w])%nat. rewrite put_app, to_le_2 by (done || cbn; lia). cbn [app]. unfold wrap. rewrite Z.shiftr_div_pow2 by lia.
    change (2 ^ 8) with 256. rewrite (Z.mod_small (w / 256)); [done|]. unfold is_u in Hw.
    split; [apply Z.div_pos|apply Z.div_lt_upper_bound]; lia.
  - rewrite put_slice_put; [done|]. rewrite to_le_length. lia.
  - rewrite Hword. cbn [mbind outcome_bind]. rewrite put_slice_put; [done|]. rewrite to_le_length. lia.
Qed.

(** The copies picked by [P] are changed by [f]; nothing else is. *)
Definition copies_updated (P : Z -> bool) (f : bytes -> bytes) (cs cs' : bytes) : Prop :=
  length cs' = length cs /\ (Forall is_byte cs -> Forall is_byte cs') /\
  (forall j, 0 <= j < num_fats bpb -> fat_copy t j cs' = if P j then f (fat_copy t j cs) else fat_copy t j cs) /\
  (forall i : nat, Z.of_nat i < fat_start t 0 \/ fat_start t (num_fats bpb) <= Z.of_nat i -> cs' !! i = cs !! i).

Lemma write_fat_sector j q buf s :
  layout_ok t (length (contents s)) -> 0 <= j < num_fats bpb -> 0 <= q -> (q + 1) * bps <= fat_len t ->
  Z.of_nat (length buf) = bps -> Forall is_byte buf ->
  exists s', write_sector t (reserved_sector_count bpb + q + j * fat_size bpb) buf s = (Ok tt, s') /\
    copies_updated (Z.eqb j) (put (Z.to_nat (q * bps)) buf) (contents s) (contents s').
Proof using HL.
  intros Hlay Hj Hq Hin Hbuf Hbb.
  destruct (copy_sector _ j q (contents s) Hlay eq_refl Hj Hq Hin) as (Hpos & Hend & Hp0 & _).
  pose proof (lay_reserved _ _ Hlay). pose proof (lay_fat_size _ _ Hlay). pose proof (lay_bps _ _ Hlay).
  destruct (write_sector_eq (reserved_sector_count bpb + q + j * fat_size bpb) buf s) as (s' & Hw & Hc);
    [done|nia|done|done|].
  exists s'. split; [done|]. rewrite Hc, Hpos in *. clear Hc Hpos.
  assert (0 <= q * bps) by (apply Z.mul_nonneg_nonneg; lia).
  assert (forall k, fat_start t (k + 1) = fat_start t k + fat_len t) as Hstep by (intros; unfold fat_start; lia).
  assert (forall k l, k <= l -> fat_start t k <= fat_start t l) as Hmono.
  { intros k l Hkl. unfold fat_start. pose proof (copy_bounds t _ j Hlay Hj). nia. }
  pose proof (Hstep j). pose proof (Hmono (j + 1) (num_fats bpb) ltac:(lia)). pose proof (Hmono 0 j ltac:(lia)).
  split_and!.
  - apply length_put. lia.
  - intros. by apply put_bytes.
  - intros k Hk. pose proof (copy_bounds t _ k Hlay Hk) as (? & ? & ?). pose proof (Hstep k). unfold fat_copy.
    destruct (Z.eqb_spec j k) as [<-|Hne].
    + rewrite sub_bytes_put_in by lia. f_equal. lia.
    + apply sub_bytes_put_away; [lia|].
      destruct (decide (j < k)); [pose proof (Hmono (j + 1) k ltac:(lia))|pose proof (Hmono (k + 1) j ltac:(lia))]; lia.
  - intros i Hi. rewrite lookup_put by lia. rewrite decide_False; [done|]. lia.
Qed.

Lemma copies_updated_trans P Q f cs cs1 cs2 :
  (forall j, P j = true -> Q j = false) ->
  copies_updated P f cs cs1 -> copies_updated Q f cs1 cs2 -> copies_updated (fun j => P j || Q j) f cs cs2.
Proof using.
  intros Hd (L1 & B1 & C1 & O1) (L2 & B2 & C2 & O2). split_and!; [congruence|auto| |].
  - intros j Hj. rewrite C2, C1 by done. specialize (Hd j). destruct (P j), (Q j); try done. by specialize (Hd eq_refl).
  - intros i Hi. rewrite O2, O1; done.
Qed.

Lemma copies_updated_ext P Q f cs cs' :
  (forall j, 0 <= j < num_fats bpb -> P j = Q j) -> copies_updated P f cs cs' -> copies_updated Q f cs cs'.
Proof using.
  intros Hext (L & B & C & O). split_and!; [done..| |done]. intros j Hj. rewrite C, Hext by done. done.
Qed.

Lemma write_mirrors_spec n i q buf s :
  layout_ok t (length (contents s)) -> 0 <= q -> (q + 1) * bps <= fat_len t ->
  Z.of_nat (length buf) = bps -> Forall is_byte buf -> 0 <= i -> i + Z.of_nat n <= num_fats bpb ->
  exists s', write_mirrors t n i (reserved_sector_count bpb + q) buf s = (Ok tt, s') /\
    copies_updated (fun j => (i <=? j) && (j <? i + Z.of_nat n)) (put (Z.to_nat (q * bps)) buf)
      (contents s) (contents s').
Proof using HL.
  revert i s. induction n as [|n IH]; intros i s Hlay Hq Hin Hbuf Hbb Hi Hn; cbn [write_mirrors].
  { exists s. split; [done|]. split_and!; [done..| |done]. intros j Hj.
    destruct (Z.leb_spec i j), (Z.ltb_spec j (i + Z.of_nat 0)); cbn; lia || done. }
  pose proof (lay_reserved _ _ Hlay). pose proof (lay_fat_size _ _ Hlay). pose proof (lay_sectors _ _ Hlay).
  pose proof (lay_bps _ _ Hlay).
  assert (q < fat_size bpb) by (unfold fat_len in Hin; nia).
  assert (q + i * fat_size bpb < num_fats bpb * fat_size bpb) by nia.
  rewrite (st_lift_bind _ _ _ (i * fat_size bpb)) by (apply umul_eq; lia).
  rewrite (st_lift_bind _ _ _ (reserved_sector_count bpb + q + i * fat_size bpb)) by (apply uadd_eq; lia).
  destruct (write_fat_sector i q buf s) as (s1 & Hw & Hu); [done|lia|done..|].
  erewrite st_bind_eq by exact Hw. pose proof Hu as (Hlen & _ & _ & _).
  destruct (IH (i + 1) s1) as (s' & -> & Hu'); [by rewrite Hlen|done..|lia|lia|].
  exists s'. split; [done|]. eapply copies_updated_ext; [|eapply copies_updated_trans; [|exact Hu|exact Hu']].
  - intros j Hj. cbn. destruct (Z.eqb_spec i j), (Z.leb_spec (i + 1) j), (Z.leb_spec i j),
      (Z.ltb_spec j (i + 1 + Z.of_nat n)), (Z.ltb_spec j (i + Z.of_nat (Datatypes.S n))); cbn; lia || done.
  - intros j ->%Z.eqb_eq. cbn. rewrite (proj2 (Z.leb_gt _ _)) by lia. done.
Qed.

Lemma write_entry_copies c v s :
  layout_ok t (length (contents s)) -> has_entry t c -> in_one_sector t c -> Forall is_byte (contents s) ->
  in_sync t (contents s) ->
  exists s', write_entry t c v s = (Ok tt, s') /\
    copies_updated (fun _ => true) (fat_set (ft_type t) c v) (contents s) (contents s').
Proof using HF.
  intros Hlay Hc Hsec Hbytes Hsync. pose proof (locate_eq _ c Hlay Hc) as Hloc.
  destruct (entry_place t _ c Hlay Hc) as (Hq & Ho & Hp & Hqs & Hin & Hone). specialize (Hone (or_intror Hsec)).
  pose proof (lay_bps _ _ Hlay) as Hbps. pose proof (lay_fats _ _ Hlay) as Hn.
  pose proof (fat_copy_length t _ 0 (contents s) Hlay eq_refl ltac:(lia)) as Hlen.
  assert (Forall is_byte (fat_copy t 0 (contents s))) as Hfb by by apply sub_bytes_bytes.
  pose proof (copy_bounds t _ 0 Hlay ltac:(lia)) as (_ & _ & Hfl).
  set (p := entry_pos (ft_type t) c) in *. set (fat := fat_copy t 0 (contents s)) in *.
  destruct (read_fat_sector 0 (p / bps) s Hlay ltac:(lia) Hq Hin) as (s1 & Hr & Hc1).
  rewrite Z.mul_0_l, Z.add_0_r in Hr. fold fat in Hr.
  unfold write_entry. rewrite (st_lift_bind _ _ _ _ Hloc). fold p. rewrite (st_bind_eq _ _ _ _ _ Hr).
  assert ((p / bps + 1) * bps <= Z.of_nat (length fat)) as Hfit by lia.
  pose proof (patch_entry_eq c v fat Hq (proj1 Ho) ltac:(lia) Hfit Hone Hfb) as Hpatch. fold p in Hpatch.
  rewrite (st_lift_bind _ _ _ _ Hpatch). clear Hpatch Hr Hloc.
  set (word := to_le _ _). set (buf := put _ word _).
  assert (0 <= p / bps * bps) by (apply Z.mul_nonneg_nonneg; lia).
  assert (length word = entry_width (ft_type t)) as Hw by apply to_le_length.
  assert (length (sub_bytes (Z.to_nat (p / bps * bps)) (Z.to_nat bps) fat) = Z.to_nat bps) as Hsl
    by (apply sub_bytes_length; lia).
  assert (Z.of_nat (length buf) = bps) as Hbl by (unfold buf; rewrite length_put; lia).
  assert (Forall is_byte buf) as Hbb by (apply put_bytes; [apply to_le_bytes|by apply sub_bytes_bytes]).
  destruct (write_fat_sector 0 (p / bps) buf s1) as (s2 & Hw2 & Hu2); [by rewrite Hc1|lia|done..|].
  rewrite Z.mul_0_l, Z.add_0_r in Hw2. rewrite (st_bind_eq _ _ _ _ _ Hw2). rewrite Hc1 in Hu2.
  destruct (write_mirrors_spec (Z.to_nat (num_fats bpb - 1)) 1 (p / bps) buf s2) as (s3 & -> & Hu3);
    [by rewrite (proj1 Hu2)|done..|lia|lia|].
  exists s3. split; [done|].
  pose proof (fun Hd => copies_updated_trans (Z.eqb 0) _ _ _ _ _ Hd Hu2 Hu3) as Hu.
  destruct Hu as (Hl3 & Hb3 & Hc3 & Ho3); [by intros j <-%Z.eqb_eq|].
  split_and!; [done..| |done]. intros j Hj. rewrite Hc3, (Hsync j Hj) by done. cbn beta. fold fat.
  replace ((0 =? j) || _) with true; cycle 1.
  { destruct (Z.eqb_spec 0 j), (Z.leb_spec 1 j), (Z.ltb_spec j (1 + Z.of_nat (Z.to_nat (num_fats bpb - 1)))); cbn; lia || done. }
  unfold buf. rewrite put_put_in by lia. unfold fat_set. fold p. fold word. f_equal. lia.
Qed.

Lemma table_after_write c v s s' :
  layout_ok t (length (contents s)) -> has_entry t c -> Forall is_byte (contents s) ->
  copies_updated (fun _ => true) (fat_set (ft_type t) c v) (contents s) (contents s') -> in_sync t (contents s) ->
  entry_written t c (v mod 2 ^ entry_bits (ft_type t)) (contents s) (contents s').
Proof using.
  intros Hlay Hc Hbytes (Hl & Hb & Hcopy & Hout) Hsync. pose proof (lay_fats _ _ Hlay).
  pose proof (fat_copy_length t _ 0 (contents s) Hlay eq_refl ltac:(lia)) as Hlen.
  assert (Forall is_byte (fat_copy t 0 (contents s))) as Hfb by by apply sub_bytes_bytes.
  split_and!; [done|auto| | |done].
  - intros j Hj. rewrite (Hcopy j), (Hcopy 0), Hsync by lia. done.
  - intros c' Hc'. unfold table. rewrite Hcopy by lia.
    destruct Hc as [Hc _], Hc' as [Hc' _]. rewrite <-Hlen in Hc, Hc'.
    case_decide as Hcc; [subst c'; by apply fat_get_set_same|]. apply fat_get_set_other; auto.
Qed.

Lemma write_entry_spec c v s :
  layout_ok t (length (contents s)) -> has_entry t c -> in_one_sector t c -> Forall is_byte (contents s) ->
  in_sync t (contents s) ->
  exists s', write_entry t c v s = (Ok tt, s') /\
    entry_written t c (v mod 2 ^ entry_bits (ft_type t)) (contents s) (contents s').
Proof using HF.
  intros Hlay Hc Hsec Hbytes Hsync. destruct (write_entry_copies c v s) as (s' & Hw & Hu); [done..|].
  exists s'. split; [done|]. by apply table_after_write.
Qed.

Lemma find_free_spec n c s :
  layout_ok t (length (contents s)) -> Forall is_byte (contents s) -> in_sync t (contents s) ->
  (forall c', c <= c' < c + Z.of_nat n -> has_entry t c') ->
  match first_free n c (table t (contents s)) with
  | None => exists s', find_free t n c s = (Err (Other "No free clusters"), s') /\ contents s' = contents s
  | Some c' => in_one_sector t c' ->
      exists s', find_free t n c s = (Ok c', s') /\ entry_written t c' (eoc_mark t) (contents s) (contents s')
  end.
Proof using HF.
  revert c s. induction n as [|n IH]; intros c s Hlay Hbytes Hsync Hin; cbn [first_free find_free]; [by exists s|].
  destruct (read_entry_spec c s) as (s1 & Hr & Hc1); [done|apply Hin; lia|done|].
  rewrite (st_bind_eq _ _ _ _ _ Hr). change (fat_get _ _ _) with (table t (contents s) c).
  destruct (_ =? FAT_FREE).
  - intros Hsec. destruct (write_entry_spec c (eoc_mark t) s1) as (s' & Hw & He); rewrite ?Hc1; [done|apply Hin; lia|done..|].
    exists s'. rewrite (st_bind_eq _ _ _ _ _ Hw). rewrite Hc1 in He. split; [done|].
    replace (eoc_mark t) with (eoc_mark t mod 2 ^ entry_bits (ft_type t)); [done|].
    unfold eoc_mark. by destruct (ft_type t).
  - specialize (IH (c + 1) s1). rewrite Hc1 in IH. apply IH; [done..|]. intros. apply Hin. lia.
Qed.

(** [allocate_cluster] takes the least free cluster and marks it as the end of a chain in
    every copy of the table; the other entries and everything outside the tables stay as they
    were, and the copies stay the same. When no cluster is free it reports that and
    writes nothing. A 12-bit entry is assumed not to span two sectors. *)
Theorem allocate_cluster_spec n s :
  layout_ok t (length (contents s)) -> Forall is_byte (contents s) -> in_sync t (contents s) ->
  @total_clusters t FileError = Ok n -> 0 <= n < 2 ^ 32 - 2 -> (forall c, 2 <= c < 2 + n -> has_entry t c) ->
  match first_free (Z.to_nat n) 2 (table t (contents s)) with
  | None => exists s', allocate_cluster t s = (Err (Other "No free clusters"), s') /\ contents s' = contents s
  | Some c => in_one_sector t c ->
      exists s', allocate_cluster t s = (Ok c, s') /\ entry_written t c (eoc_mark t) (contents s) (contents s') /\
        is_eoc t (table t (contents s') c) = true
  end.
Proof using HF.
  intros Hlay Hbytes Hsync Hn Hsmall Hin. unfold allocate_cluster.
  rewrite (st_lift_bind _ _ _ _ Hn), (st_lift_bind _ _ _ (n + 2)) by (apply uadd_eq; lia).
  assert (forall c, 2 <= c < 2 + Z.of_nat (Z.to_nat n) -> has_entry t c) as Hin' by (intros; apply Hin; lia).
  pose proof (find_free_spec (Z.to_nat n) 2 s Hlay Hbytes Hsync Hin') as Hf.
  pose proof (first_free_range (Z.to_nat n) 2 (table t (contents s))) as Hr.
  destruct (first_free _ _ _) as [c|]; [|done]. intros Hsec. destruct (Hf Hsec) as (s' & Hs' & He).
  exists s'. split_and!; [done|done|]. destruct He as (_ & _ & _ & Ht & _).
  specialize (Hr c eq_refl).
  rewrite Ht, decide_True by (done || by apply Hin'). unfold is_eoc, eoc_mark. by destruct (ft_type t).
Qed.
End DeviceOps.

(** ** A small volume in memory *)
Lemma mem_disk_full_read n : (n <= 512)%nat -> FullReads MemDisk n.
Proof.
  intros Hn buf s Hl Hp Hin. eexists. cbn. rewrite Hl, Nat.min_l by done.
  rewrite length_take, length_drop, Nat.min_l by (cbn in *; lia).
  rewrite (drop_ge buf) by lia. rewrite app_nil_r. done.
Qed.
#[export] Instance mem_disk_full_reads : FullReads MemDisk 512 := mem_disk_full_read 512 (le_n 512).
#[export] Instance mem_disk_full_reads_32 : FullReads MemDisk 32.
Proof. apply mem_disk_full_read. lia. Qed.

(** 512-byte sectors, one sector per cluster, one reserved sector, two tables of two sectors,
    16 root entries, [total] sectors. *)
Definition small_bpb (total : Z) : BiosParameterBlock := mkBpb 512 1 1 2 16 total 0xF8 2 0 0 0 0 0 0.
Definition small_table (total : Z) : FatTable := mkTable (small_bpb total) Fat12 0.
(** The tables hold the bytes [fat] and then zeros. *)
Definition small_disk (total : nat) (fat : bytes) : MemDisk :=
  mkMemDisk (replicate 512 0 ++ fat ++ replicate (1024 - length fat) 0 ++ fat ++ replicate (1024 - length fat) 0 ++
             replicate ((total - 5) * 512) 0) 0.

Lemma small_layout : layout_ok (small_table 10) 5120.
Proof. split; vm_compute; intuition congruence. Qed.

Lemma small_disk_bytes total fat : Forall is_byte fat -> Forall is_byte (contents (small_disk total fat)).
Proof. intros Hf. unfold small_disk. cbn [contents mem_disk_laws md_bytes]. rewrite !Forall_app. split_and!; try done; by apply Forall_replicate. Qed.

(** Clusters 0 to 2 are in use. *)
Definition used_0_2 : bytes := [0xF8; 0xFF; 0xFF; 0xFF; 0x0F].

Lemma small_entries c : 2 <= c < 6 -> has_entry (small_table 10) c.
Proof.
  intros Hc. unfold has_entry, entry_in. change (Z.of_nat (Z.to_nat (fat_len _))) with 1024.
  cbn [ft_type small_table entry_pos entry_width Z.of_nat Pos.of_succ_nat Pos.succ].
  pose proof (Z.div_lt c 2). pose proof (Z.div_pos c 2). lia.
Qed.
Lemma small_sync : in_sync (small_table 10) (contents (small_disk 10 used_0_2)).
Proof. intros j Hj. assert (j = 0 \/ j = 1) as [-> | ->] by (cbn in Hj; lia); reflexivity. Qed.
Lemma small_bytes : Forall is_byte (contents (small_disk 10 used_0_2)).
Proof. apply small_disk_bytes. by repeat (constructor; [done|]). Qed.

Lemma allocate_cluster_spec_witness :
  exists s', allocate_cluster (small_table 10) (small_disk 10 used_0_2) = (Ok 3, s') /\
    is_eoc (small_table 10) (table (small_table 10) (contents s') 3) = true.
Proof.
  pose proof (allocate_cluster_spec (small_table 10) 4 (small_disk 10 used_0_2)) as H.
  destruct H as (s' & Hs' & _ & He); [exact small_layout|exact small_bytes|exact small_sync|reflexivity| | | |by exists s'].
  - split; reflexivity || discriminate.
  - intros c Hc. apply small_entries. lia.
  - intros _. vm_compute. congruence.
Defined.

(** A 12-bit entry that spans two sectors, as that of cluster 341, loses its upper part when
    it is written: the end-of-chain mark is read back as 0x00F. *)
Example spanning_entry_loses_its_end :
  let '(r, s) := write_entry (small_table 10) 341 0xFFF (small_disk 10 used_0_2) in
  r = Ok tt /\ (read_entry (small_table 10) 341 s).1 = Ok 0x00F.
Proof. vm_compute. done. Qed.
