(* ===== verification/FatFs.v ===== *)
(** * The FAT file system (zenos-kernel/src/disk/fs/fat/mod.rs)

    Directories and files of a FAT volume on a block device, and the file system as an
    implementation of the inode operations. *)
From S2P Require Import Prelude OpenFile Bytes BlockDev Fat.

(** [str::chars]: the code points of a UTF-8 string, and back. *)
Fixpoint decode_utf8 (l : list Z) : list Z :=
  match l with
  | [] => []
  | a :: l =>
      if a <? 0x80 then a :: decode_utf8 l
      else match l with
      | b :: l =>
          if a <? 0xE0 then (a mod 32) * 64 + b mod 64 :: decode_utf8 l
          else match l with
          | c :: l =>
              if a <? 0xF0 then (a mod 16) * 4096 + (b mod 64) * 64 + c mod 64 :: decode_utf8 l
              else match l with
              | d :: l => (a mod 8) * 262144 + (b mod 64) * 4096 + (c mod 64) * 64 + d mod 64 :: decode_utf8 l
              | [] => []
              end
          | [] => []
          end
      | [] => []
      end
  end.
Definition encode_char (c : Z) : list Z :=
  if c <? 0x80 then [c]
  else if c <? 0x800 then [0xC0 + c / 64; 0x80 + c mod 64]
  else if c <? 0x10000 then [0xE0 + c / 4096; 0x80 + c / 64 mod 64; 0x80 + c mod 64]
  else [0xF0 + c / 262144; 0x80 + c / 4096 mod 64; 0x80 + c / 64 mod 64; 0x80 + c mod 64].
Definition chars (s : string) : list Z := decode_utf8 (str_bytes s).
Definition string_of_chars (l : list Z) : string := str_of_bytes (l ≫= encode_char).

(** ** State *)
Record InodeKey := mkKey { dir_cluster : Z; entry_index : Z; in_root : bool }.
#[export] Instance InodeKey_eq_dec : EqDecision InodeKey.
Proof. solve_decision. Defined.
#[export] Instance InodeKey_countable : Countable InodeKey.
Proof.
  refine (inj_countable' (fun k => (dir_cluster k, entry_index k, in_root k))
            (fun '(c, i, r) => mkKey c i r) _).
  by intros [].
Defined.

Record FatDirectory := mkDir { d_cluster : Z; d_is_root : bool }.
Record FatFile := mkFile { f_entry : FatDirEntry; f_cursor : Z; f_key : InodeKey }.
(** The [data] of an inode. *)
Inductive FatNode := DirNode (d : FatDirectory) | FileNode (f : FatFile).

(** The volume; [inner_nodes] holds the data of the inodes made for it. *)
Record FatFileSystemInner (Dev : Type) := mkInner {
  inner_device : Dev;
  inner_bpb : BiosParameterBlock;
  inner_fat_type : FatType;
  inner_partition_offset : Z;
  ino_cache : gmap InodeKey nat;
  inner_nodes : gmap nat FatNode;
}.
Arguments mkInner {Dev} _ _ _ _ _ _.
Arguments inner_device {Dev} _.
Arguments inner_bpb {Dev} _.
Arguments inner_fat_type {Dev} _.
Arguments inner_partition_offset {Dev} _.
Arguments ino_cache {Dev} _.
Arguments inner_nodes {Dev} _.

Definition set_file_size (e : FatDirEntry) (n : Z) : FatDirEntry :=
  mkFde (fde_name e) (fde_attr e) (fde_nt_reserved e) (fde_create_time_tenth e) (fde_create_time e)
    (fde_create_date e) (fde_last_access_date e) (fde_first_cluster_high e) (fde_write_time e)
    (fde_write_date e) (fde_first_cluster_low e) n.

Section Volume.
Context {Dev : Type} `{BlockDevice Dev}.
(** A cluster chain is followed for at most [fuel] clusters: on a cyclic chain the loops of
    the code do not end. *)
Context (fuel : nat) (upper_non_ascii : Z -> list Z).
Context (b : BiosParameterBlock) (ft : FatType) (po : Z).

Abbreviation dev_op := (st Dev FileError).
Abbreviation fixed_root is_root := (is_root && negb (bool_decide (ft = Fat32))).

Definition seek_to (offset : Z) : dev_op Z := st_map_err (fun _ => SeekError) (bd_seek (Start offset)).
Definition dev_read (buf : bytes) : dev_op bytes :=
  '(_, buf) ← st_map_err (fun _ => ReadError) (bd_read buf); mret buf.
Definition dev_write (buf : bytes) : dev_op Z := st_map_err (fun _ => WriteError) (bd_write buf).

Definition zeros (n : Z) : bytes := replicate (Z.to_nat n) 0.

(** The fixed root directory of FAT12 and FAT16. *)
Definition root_dir_sector : outcome FileError Z :=
  f ← umul 32 (num_fats b) (fat_size b); uadd 32 (reserved_sector_count b) f.
Definition root_dir_size : Z := root_entry_count b * 32.
Definition root_dir_offset : outcome FileError Z :=
  sector ← root_dir_sector; o ← umul 64 sector (bytes_per_sector b); uadd 64 o po.

(** *** Directories *)

(** The entries of the chunks with their indices, from index [i] on; [None] for the next
    index when the end mark was met. *)
Fixpoint scan_chunks (cs : list bytes) (i : Z) : outcome FileError (list (FatDirEntry * Z) * option Z) :=
  match cs with
  | [] => Ok ([], Some i)
  | chunk :: cs =>
      first ← get_le 0 1 chunk;
      if first =? 0 then Ok ([], None)
      else
        e ← FatDirEntry_parse chunk;
        '(entries, next) ← scan_chunks cs (i + 1);
        Ok (match e with
            | Some entry => if negb (is_long_name entry) && negb (is_volume_id entry)
                            then (entry, i) :: entries else entries
            | None => entries
            end, next)
  end.

Fixpoint read_entries_from (fuel : nat) (cluster global_idx : Z) (buf : bytes) :
    dev_op (list (FatDirEntry * Z)) :=
  match fuel with
  | O => st_lift Panic
  | S fuel =>
      buf ← read_cluster b po cluster buf;
      '(entries, next_idx) ← st_lift (scan_chunks (chunks FDE_SIZE buf) global_idx);
      match next_idx with
      | None => mret entries
      | Some global_idx =>
          fat ← st_lift (FatTable_new b po);
          next ← read_entry fat cluster;
          if is_eoc fat next then mret entries
          else more ← read_entries_from fuel next global_idx buf; mret (entries ++ more)
      end
  end.

Definition read_entries (d : FatDirectory) : dev_op (list (FatDirEntry * Z)) :=
  if fixed_root (d_is_root d) then
    offset ← st_lift root_dir_offset;
    _ ← seek_to offset;
    buf ← dev_read (zeros root_dir_size);
    '(entries, _) ← st_lift (scan_chunks (chunks FDE_SIZE buf) 0);
    mret entries
  else
    cluster_size ← st_lift (bytes_per_cluster b);
    read_entries_from fuel (d_cluster d) 0 (zeros cluster_size).

Definition find_entry (d : FatDirectory) (name : list Z) : dev_op (option (FatDirEntry * Z)) :=
  entries ← read_entries d;
  let target := to_uppercase upper_non_ascii name in
  mret (List.find (fun '(entry, _) => bool_decide (to_uppercase upper_non_ascii (short_name entry) = target)) entries).

(** The first chunk that is free. *)
Definition chunk_free (chunk : bytes) : bool :=
  match chunk with first :: _ => (first =? 0x00) || (first =? 0xE5) | [] => false end.
Definition find_slot (buf : bytes) : option nat := position chunk_free (chunks FDE_SIZE buf).

Fixpoint add_to_chain (fuel : nat) (cluster_size cluster : Z) (entry_data buf : bytes) : dev_op unit :=
  match fuel with
  | O => st_lift Panic
  | S fuel =>
      buf ← read_cluster b po cluster buf;
      match find_slot buf with
      | Some i =>
          buf ← st_lift (put_slice (FDE_SIZE * i) entry_data buf);
          write_cluster b po cluster buf
      | None =>
          fat ← st_lift (FatTable_new b po);
          next ← read_entry fat cluster;
          if is_eoc fat next then
            new_dir_cluster ← allocate_cluster fat;
            _ ← write_entry fat cluster new_dir_cluster;
            new_buf ← st_lift (put_slice 0 entry_data (zeros cluster_size));
            write_cluster b po new_dir_cluster new_buf
          else add_to_chain fuel cluster_size next entry_data buf
      end
  end.

Definition new_dir_cluster (is_dir : bool) : dev_op Z :=
  if is_dir then
    fat ← st_lift (FatTable_new b po);
    cluster ← allocate_cluster fat;
    cluster_size ← st_lift (bytes_per_cluster b);
    _ ← write_cluster b po cluster (zeros cluster_size);
    mret cluster
  else mret 0.

Definition create_entry (d : FatDirectory) (name : list Z) (is_dir : bool) : dev_op FatDirEntry :=
  new_cluster ← new_dir_cluster is_dir;
  let entry := set_first_cluster
    (mkFde (name_to_8_3 upper_non_ascii name) (if is_dir then ATTR_DIRECTORY else ATTR_ARCHIVE)
       0 0 0 0 0 0 0 0 0 0) new_cluster in
  let entry_data := FatDirEntry_serialize entry in
  if fixed_root (d_is_root d) then
    offset ← st_lift root_dir_offset;
    _ ← seek_to offset;
    buf ← dev_read (zeros root_dir_size);
    match find_slot buf with
    | Some i =>
        buf ← st_lift (put_slice (FDE_SIZE * i) entry_data buf);
        _ ← seek_to offset;
        _ ← dev_write buf;
        mret entry
    | None => st_lift (Err (Other "Root directory full"))
    end
  else
    cluster_size ← st_lift (bytes_per_cluster b);
    _ ← add_to_chain fuel cluster_size (d_cluster d) entry_data (zeros cluster_size);
    mret entry.

(** [for _ in 0..n { cluster = fat.read_entry(cluster)? }]. *)
Fixpoint nth_cluster (n : nat) (cluster : Z) : dev_op Z :=
  match n with
  | O => mret cluster
  | S n =>
      fat ← st_lift (FatTable_new b po);
      next ← read_entry fat cluster;
      nth_cluster n next
  end.

(** Freeing a chain. *)
Fixpoint free_chain (fuel : nat) (fat : FatTable) (cluster : Z) : dev_op unit :=
  match fuel with
  | O => st_lift Panic
  | S fuel =>
      next ← read_entry fat cluster;
      _ ← write_entry fat cluster 0;
      if is_eoc fat next then mret tt else free_chain fuel fat next
  end.

(** The position of an entry: in the fixed root directory, or in a cluster of the chain. *)
Definition root_entry_offset (index : Z) : outcome FileError Z :=
  sector ← root_dir_sector;
  o ← umul 64 sector (bytes_per_sector b);
  i ← umul 64 index 32;
  o ← uadd 64 o i;
  uadd 64 o po.

Definition entry_cluster (start index : Z) : dev_op (Z * Z * Z) :=
  cluster_size ← st_lift (bytes_per_cluster b);
  let entries_per_cluster := cluster_size / 32 in
  target_cluster_idx ← st_lift (udiv index entries_per_cluster);
  r ← st_lift (urem index entries_per_cluster);
  cluster ← nth_cluster (Z.to_nat target_cluster_idx) start;
  mret (cluster, r * 32, cluster_size).

Definition mark_deleted (d : FatDirectory) (index : Z) : dev_op unit :=
  if fixed_root (d_is_root d) then
    offset ← st_lift (root_entry_offset index);
    _ ← seek_to offset;
    entry_data ← dev_read (zeros 32);
    entry_data ← st_lift (put_slice 0 [0xE5] entry_data);
    _ ← seek_to offset;
    _ ← dev_write entry_data;
    mret tt
  else
    '(cluster, offset_in_cluster, cluster_size) ← entry_cluster (d_cluster d) index;
    buf ← read_cluster b po cluster (zeros cluster_size);
    buf ← st_lift (put_slice (Z.to_nat offset_in_cluster) [0xE5] buf);
    write_cluster b po cluster buf.

(** [unlink] on the device: the index of the entry it removed. *)
Definition unlink_entry (d : FatDirectory) (name : list Z) : dev_op Z :=
  found ← find_entry d name;
  '(entry, index) ← st_lift (ok_or NotFound found);
  if is_directory entry then st_lift (Err IsADirectory)
  else
    _ ← (if 2 <=? first_cluster entry then
           fat ← st_lift (FatTable_new b po);
           free_chain fuel fat (first_cluster entry)
         else mret tt);
    _ ← mark_deleted d index;
    mret index.

(** *** Files *)
Definition sync_entry (f : FatFile) : dev_op unit :=
  let entry_data := FatDirEntry_serialize (f_entry f) in
  if fixed_root (in_root (f_key f)) then
    offset ← st_lift (root_entry_offset (entry_index (f_key f)));
    _ ← seek_to offset;
    _ ← dev_write entry_data;
    mret tt
  else
    '(cluster, offset_in_cluster, cluster_size) ← entry_cluster (dir_cluster (f_key f)) (entry_index (f_key f));
    buf ← read_cluster b po cluster (zeros cluster_size);
    buf ← st_lift (put_slice (Z.to_nat offset_in_cluster) entry_data buf);
    write_cluster b po cluster buf.

(** The clusters before the cursor; [None] when the chain ends before. *)
Fixpoint skip_read (n : nat) (cluster : Z) : dev_op (option Z) :=
  match n with
  | O => mret (Some cluster)
  | S n =>
      if cluster <? 2 then mret None
      else
        fat ← st_lift (FatTable_new b po);
        next ← read_entry fat cluster;
        if is_eoc fat next then mret None else skip_read n next
  end.

(** The reading loop: [acc] is [buf[..bytes_read]], [len] the length of [buf]. *)
Fixpoint file_read_loop (fuel : nat) (len cluster_size file_size cursor cluster offset_in_cluster : Z)
    (cluster_buf acc : bytes) : dev_op bytes :=
  match fuel with
  | O => st_lift Panic
  | S fuel =>
      let bytes_read := Z.of_nat (length acc) in
      if (bytes_read <? len) && (cursor + bytes_read <? file_size) then
        if cluster <? 2 then mret acc
        else
          cluster_buf ← read_cluster b po cluster cluster_buf;
          let remaining_in_cluster := cluster_size - offset_in_cluster in
          let remaining_in_file := file_size - cursor - bytes_read in
          let remaining_in_buf := len - bytes_read in
          let to_copy := Z.min (Z.min remaining_in_cluster remaining_in_file) remaining_in_buf in
          data ← st_lift (slice (Z.to_nat offset_in_cluster) (Z.to_nat to_copy) cluster_buf);
          let acc := acc ++ data in
          fat ← st_lift (FatTable_new b po);
          next ← read_entry fat cluster;
          if is_eoc fat next then mret acc
          else file_read_loop fuel len cluster_size file_size cursor next 0 cluster_buf acc
      else mret acc
  end.

(** The clusters before the cursor, with the missing ones added to the chain. *)
Definition next_or_extend (cluster : Z) : dev_op Z :=
  fat ← st_lift (FatTable_new b po);
  next ← read_entry fat cluster;
  if is_eoc fat next then
    new_cluster ← allocate_cluster fat;
    _ ← write_entry fat cluster new_cluster;
    mret new_cluster
  else mret next.
Fixpoint skip_write (n : nat) (cluster : Z) : dev_op Z :=
  match n with
  | O => mret cluster
  | S n => next ← next_or_extend cluster; skip_write n next
  end.

(** The part of [buf] that goes into one cluster. *)
Definition part_len (cluster_size offset_in_cluster : Z) (buf : bytes) : nat :=
  Z.to_nat (Z.min (cluster_size - offset_in_cluster) (Z.of_nat (length buf))).
Definition write_part (cluster_size cluster offset_in_cluster : Z) (cluster_buf buf : bytes) : dev_op bytes :=
  cluster_buf ← (if negb (offset_in_cluster =? 0) || (Z.of_nat (length buf) <? cluster_size)
                 then read_cluster b po cluster cluster_buf else mret cluster_buf);
  let to_copy := part_len cluster_size offset_in_cluster buf in
  cluster_buf ← st_lift (put_slice (Z.to_nat offset_in_cluster) (take to_copy buf) cluster_buf);
  _ ← write_cluster b po cluster cluster_buf;
  mret cluster_buf.

(** The writing loop: [buf] is what is still to be written. *)
Fixpoint file_write_loop (fuel : nat) (cluster_size cluster offset_in_cluster : Z) (cluster_buf buf : bytes) :
    dev_op unit :=
  match fuel with
  | O => st_lift Panic
  | S fuel =>
      match buf with
      | [] => mret tt
      | _ =>
          cluster_buf ← write_part cluster_size cluster offset_in_cluster cluster_buf buf;
          match drop (part_len cluster_size offset_in_cluster buf) buf with
          | [] => mret tt
          | rest =>
              next ← next_or_extend cluster;
              file_write_loop fuel cluster_size next 0 cluster_buf rest
          end
      end
  end.

(** The methods of a file change the file and the device. *)
Abbreviation file_op := (st (FatFile * Dev) FileError).
Definition on_device {A} (m : dev_op A) : file_op A := fun '(f, d) =>
  let '(r, d) := m d in (r, (f, d)).
Definition set_f_cursor (c : Z) : file_op unit := fun '(f, d) => (Ok tt, (mkFile (f_entry f) c (f_key f), d)).
Definition set_f_entry (e : FatDirEntry) : file_op unit := fun '(f, d) => (Ok tt, (mkFile e (f_cursor f) (f_key f), d)).
Definition self : file_op FatFile := fun '(f, d) => (Ok f, (f, d)).
Definition sync_self : file_op unit := f ← self; on_device (sync_entry f).

Definition file_read (offset : Z) (buf : bytes) : file_op (Z * bytes) :=
  _ ← set_f_cursor offset;
  f ← self;
  let file_size := fde_file_size (f_entry f) in
  if file_size <=? offset then mret (0, buf)
  else
    cluster_size ← st_lift (bytes_per_cluster b);
    cluster_idx ← st_lift (udiv offset cluster_size);
    start ← on_device (skip_read (Z.to_nat cluster_idx) (first_cluster (f_entry f)));
    match start with
    | None => mret (0, buf)
    | Some cluster =>
        offset_in_cluster ← st_lift (urem offset cluster_size);
        acc ← on_device (file_read_loop (length buf + 1) (Z.of_nat (length buf)) cluster_size file_size offset
                           cluster offset_in_cluster (zeros cluster_size) []);
        let bytes_read := Z.of_nat (length acc) in
        c ← st_lift (uadd 64 offset bytes_read);
        _ ← set_f_cursor c;
        mret (bytes_read, acc ++ drop (length acc) buf)
    end.

Definition first_or_allocate : file_op Z :=
  f ← self;
  if first_cluster (f_entry f) <? 2 then
    fat ← st_lift (FatTable_new b po);
    new_cluster ← on_device (allocate_cluster fat);
    _ ← set_f_entry (set_first_cluster (f_entry f) new_cluster);
    f ← self;
    mret (first_cluster (f_entry f))
  else mret (first_cluster (f_entry f)).

(** The cluster that holds [offset]. *)
Definition reach_cluster (cluster_size offset : Z) : file_op Z :=
  first ← first_or_allocate;
  cluster_idx ← st_lift (udiv offset cluster_size);
  on_device (skip_write (Z.to_nat cluster_idx) first).

(** The clusters of the file from [offset] on get the bytes of [buf]. *)
Definition write_clusters (cluster_size offset : Z) (buf : bytes) : file_op unit :=
  cluster ← reach_cluster cluster_size offset;
  offset_in_cluster ← st_lift (urem offset cluster_size);
  on_device (file_write_loop (length buf + 1) cluster_size cluster offset_in_cluster (zeros cluster_size) buf).

Definition grow_to (c : Z) : file_op unit :=
  f ← self;
  if fde_file_size (f_entry f) <? c
  then _ ← set_f_entry (set_file_size (f_entry f) (wrap 32 c)); sync_self
  else mret tt.

Definition file_write (offset : Z) (buf : bytes) : file_op Z :=
  _ ← set_f_cursor offset;
  if Nat.eqb (length buf) 0 then mret 0
  else
    cluster_size ← st_lift (bytes_per_cluster b);
    _ ← write_clusters cluster_size offset buf;
    c ← st_lift (uadd 64 offset (Z.of_nat (length buf)));
    _ ← set_f_cursor c;
    _ ← grow_to c;
    mret (Z.of_nat (length buf)).

Definition file_truncate (size : Z) : file_op unit :=
  '(_, buf) ← file_read 0 (zeros size);
  _ ← set_f_cursor 0;
  _ ← file_write 0 buf;
  f ← self;
  _ ← set_f_entry (set_file_size (f_entry f) (wrap 32 size));
  sync_self.
End Volume.

Definition FatFileSystem_mount {Dev} `{BlockDevice Dev} (partition_offset : Z) (device : Dev) :
    outcome FsMountError (FatFileSystemInner Dev) * Dev :=
  (_ ← st_map_err (fun _ => MountReadError) (bd_seek (Start partition_offset));
   '(_, boot_sector) ← st_map_err (fun _ => MountReadError) (bd_read (replicate 512 0));
   bpb ← st_lift (map_err (fun _ => MountReadError) (BPB_parse boot_sector));
   _ ← st_lift (BPB_validate bpb);
   fat_type ← st_lift (fat_type bpb);
   device ← st_get;
   mret (mkInner device bpb fat_type partition_offset ∅ ∅)) device.

(** ** The inode operations *)
Definition PERMS_ALL : Z := 0xFFF.
Definition PERMS_WRITE : Z := 0x92.

Section Ops.
Context {Dev : Type} `{BlockDevice Dev}.
Context (fuel : nat) (upper_non_ascii : Z -> list Z) (now : Z).
(** Whether a pointer outside the cache still holds the inode ([Weak::upgrade]). *)
Context (alive : nat -> bool).

Abbreviation S := (FsState (FatFileSystemInner Dev)).
Abbreviation op := (st S FileError).

Definition with_device (v : FatFileSystemInner Dev) (d : Dev) : FatFileSystemInner Dev :=
  mkInner d (inner_bpb v) (inner_fat_type v) (inner_partition_offset v) (ino_cache v) (inner_nodes v).
Definition with_cache (v : FatFileSystemInner Dev) (c : gmap InodeKey nat) : FatFileSystemInner Dev :=
  mkInner (inner_device v) (inner_bpb v) (inner_fat_type v) (inner_partition_offset v) c (inner_nodes v).
Definition with_node (v : FatFileSystemInner Dev) (i : nat) (n : FatNode) : FatFileSystemInner Dev :=
  mkInner (inner_device v) (inner_bpb v) (inner_fat_type v) (inner_partition_offset v) (ino_cache v)
    (<[i := n]> (inner_nodes v)).
Definition on_inner (f : FatFileSystemInner Dev -> FatFileSystemInner Dev) : op unit := fun s =>
  (Ok tt, mkFs (inodes s) (files s) (f (dev s))).

Definition node_of (i : nat) : op FatNode := fun s => (unwrap (inner_nodes (dev s) !! i), s).

(** Running a device operation of the volume. *)
Definition on_volume {A} (m : BiosParameterBlock -> FatType -> Z -> st Dev FileError A) : op A := fun s =>
  let v := dev s in
  let '(r, d) := m (inner_bpb v) (inner_fat_type v) (inner_partition_offset v) (inner_device v) in
  (r, mkFs (inodes s) (files s) (with_device v d)).

(** Running a method of the file behind inode [i]. *)
Definition on_file {A} (i : nat) (f : FatFile)
    (m : BiosParameterBlock -> FatType -> Z -> st (FatFile * Dev) FileError A) : op A := fun s =>
  let v := dev s in
  let '(r, (f, d)) := m (inner_bpb v) (inner_fat_type v) (inner_partition_offset v) (f, inner_device v) in
  (r, mkFs (inodes s) (files s) (with_node (with_device v d) i (FileNode f))).

Definition fat_root_dir : op nat :=
  s ← st_get;
  let root_cluster := if decide (inner_fat_type (dev s) = Fat32) then root_cluster (inner_bpb (dev s)) else 0 in
  i ← alloc_inode (mkInode (umax 64) Directory 0 PERMS_ALL 1 0 0 now now now);
  _ ← on_inner (fun v => with_node v i (DirNode (mkDir root_cluster true)));
  mret i.

Definition create_and_cache_inode (d : FatDirectory) (key : InodeKey) (entry : FatDirEntry) (idx : Z) : op nat :=
  let node := if is_directory entry then DirNode (mkDir (first_cluster entry) false)
              else FileNode (mkFile entry 0 (mkKey (d_cluster d) idx (d_is_root d))) in
  let perms := if negb (Z.land (fde_attr entry) ATTR_READ_ONLY =? 0)
               then Z.ldiff PERMS_ALL PERMS_WRITE else PERMS_ALL in
  i ← alloc_inode (mkInode (Z.lor (Z.shiftl (d_cluster d) 32) idx)
        (if is_directory entry then Directory else File) (fde_file_size entry) perms 1 0 0 now now now);
  _ ← on_inner (fun v => with_cache (with_node v i node) (<[key := i]> (ino_cache v)));
  mret i.

(** The inode of an entry: the cached one while it lives, or a new one. *)
Definition inode_of_entry (d : FatDirectory) (entry : FatDirEntry) (idx : Z) : op nat :=
  let key := mkKey (d_cluster d) idx (d_is_root d) in
  s ← st_get;
  match ino_cache (dev s) !! key with
  | Some i =>
      if alive i then mret i
      else
        _ ← on_inner (fun v => with_cache v (delete key (ino_cache v)));
        create_and_cache_inode d key entry idx
  | None => create_and_cache_inode d key entry idx
  end.

Definition dir_lookup (d : FatDirectory) (name : string) : op nat :=
  found ← on_volume (fun b ft po => find_entry fuel upper_non_ascii b ft po d (chars name));
  '(entry, idx) ← st_lift (ok_or NotFound found);
  inode_of_entry d entry idx.

Definition dir_create (d : FatDirectory) (name : string) (kind : FileType) : op nat :=
  _ ← on_volume (fun b ft po =>
        create_entry fuel upper_non_ascii b ft po d (chars name) (bool_decide (kind = Directory)));
  dir_lookup d name.

Definition dir_unlink (d : FatDirectory) (name : string) : op unit :=
  idx ← on_volume (fun b ft po => unlink_entry fuel upper_non_ascii b ft po d (chars name));
  on_inner (fun v => with_cache v (delete (mkKey (d_cluster d) idx (d_is_root d)) (ino_cache v))).

Fixpoint dir_entries (d : FatDirectory) (entries : list (FatDirEntry * Z)) : op (list DirEntry) :=
  match entries with
  | [] => mret []
  | (entry, idx) :: entries =>
      i ← inode_of_entry d entry idx;
      rest ← dir_entries d entries;
      mret (mkDirEntry (string_of_chars (short_name entry)) i idx
              (if is_directory entry then Directory else File) :: rest)
  end.

Definition dir_read_dir (d : FatDirectory) : op (list DirEntry) :=
  entries ← on_volume (fun b ft po => read_entries fuel b ft po d);
  dir_entries d entries.

(** [get_dev_id] is the trait's default for every device. *)
Definition dir_stat (d : FatDirectory) : op Stat :=
  s ← st_get;
  blksize ← st_lift (bytes_per_cluster (inner_bpb (dev s)));
  mret (mkStat 0 (Z.lor (Z.shiftl (d_cluster d) 32) (if d_is_root d then 1 else 0)) 0x41ED 2 0 0 0 0
          blksize 0 now now now).
Definition file_stat (f : FatFile) : op Stat :=
  s ← st_get;
  let file_size := fde_file_size (f_entry f) in
  let mode := if negb (Z.land (fde_attr (f_entry f)) ATTR_READ_ONLY =? 0) then 0x8124 else 0x81B6 in
  blksize ← st_lift (bytes_per_cluster (inner_bpb (dev s)));
  mret (mkStat 0 (Z.lor (Z.shiftl (dir_cluster (f_key f)) 32) (entry_index (f_key f))) mode 1 0 0 0 file_size
          blksize ((file_size + 511) / 512) now now now).

Definition on_dir {A} (i : nat) (m : FatDirectory -> op A) : op A :=
  n ← node_of i;
  match n with DirNode d => m d | FileNode _ => st_lift (Err NotADirectory) end.
Definition on_file_node {A} (i : nat)
    (m : BiosParameterBlock -> FatType -> Z -> st (FatFile * Dev) FileError A) : op A :=
  n ← node_of i;
  match n with DirNode _ => st_lift (Err IsADirectory) | FileNode f => on_file i f m end.

#[export] Instance fat_ops : InodeOps (FatFileSystemInner Dev) := {
  op_read i offset buf := on_file_node i (fun b ft po => file_read b po offset buf);
  op_write i offset buf := on_file_node i (fun b ft po => file_write b ft po offset buf);
  op_truncate i size := on_file_node i (fun b ft po => file_truncate b ft po size);
  op_sync i := n ← node_of i;
    match n with DirNode _ => mret tt | FileNode f => on_file i f (fun b ft po => sync_self b ft po) end;
  op_unlink i name := on_dir i (fun d => dir_unlink d name);
  op_lookup i name := on_dir i (fun d => dir_lookup d name);
  op_create i name kind perms := on_dir i (fun d => dir_create d name kind);
  op_read_dir i := on_dir i dir_read_dir;
  op_stat i := n ← node_of i; match n with DirNode d => dir_stat d | FileNode f => file_stat f end;
}.
End Ops.

(** ** The laws of the inode operations *)
Section Laws.
Context {Dev : Type} `{BlockDevice Dev}.
Context (fuel : nat) (upper_non_ascii : Z -> list Z) (now : Z) (alive : nat -> bool).

Lemma file_read_loop_count b po fl len cs fs cur c o cbuf acc d acc' d' :
  Z.of_nat (length acc) <= len ->
  file_read_loop b po fl len cs fs cur c o cbuf acc d = (Ok acc', d') -> Z.of_nat (length acc') <= len.
Proof using.
  revert c o cbuf acc d. induction fl as [|fl IH]; intros c o cbuf acc d Hacc; cbn [file_read_loop]; [done|].
  destruct ((_ <? len) && _) eqn:Hc; [|intros; inv_st; by simplify_eq].
  destruct (c <? 2); [intros; inv_st; by simplify_eq|]. intros Hr. inv_st.
  match goal with Hs : slice _ _ _ = Ok _ |- _ => apply slice_length in Hs end.
  destruct (is_eoc _ _); inv_st; [rewrite length_app; lia|].
  eapply IH; [|eassumption]. rewrite length_app. lia.
Qed.

Lemma on_device_Ok {A} (m : st Dev FileError A) fd a fd' :
  on_device m fd = (Ok a, fd') -> exists d', m fd.2 = (Ok a, d') /\ fd' = (fd.1, d').
Proof using. destruct fd as [f d]. cbn. destruct (m d) as [r d'] eqn:Hm. intros [= -> <-]. eauto. Qed.
Lemma set_f_cursor_Ok c fd u fd' :
  set_f_cursor (Dev := Dev) c fd = (Ok u, fd') -> fd' = (mkFile (f_entry fd.1) c (f_key fd.1), fd.2).
Proof using. destruct fd. by intros [= ? <-]. Qed.
Lemma self_Ok fd f fd' : self (Dev := Dev) fd = (Ok f, fd') -> f = fd.1 /\ fd' = fd.
Proof using. destruct fd. by intros [= <- <-]. Qed.

Lemma file_read_count b po offset buf fd n buf' fd' :
  file_read b po offset buf fd = (Ok (n, buf'), fd') -> 0 <= n <= Z.of_nat (length buf) /\ length buf' = length buf.
Proof using.
  unfold file_read. intros Hr. inv_st.
  match goal with Hs : self _ = _ |- _ => apply self_Ok in Hs as [-> ->] end.
  destruct (_ <=? offset); inv_st; [simplify_eq; lia|].
  match goal with Hs : on_device (skip_read _ _ _ _) _ = _ |- _ => clear Hs end.
  case_match; inv_st; [|simplify_eq; lia].
  match goal with Hs : on_device (file_read_loop _ _ _ _ _ _ _ _ _ _ _) _ = _ |- _ =>
    apply on_device_Ok in Hs as (? & Hs & _); apply file_read_loop_count in Hs; [|cbn; lia] end.
  simplify_eq. rewrite length_app, length_drop. lia.
Qed.

Lemma file_write_count b ft po offset buf fd n fd' :
  file_write b ft po offset buf fd = (Ok n, fd') -> 0 <= n <= Z.of_nat (length buf).
Proof using.
  unfold file_write. intros Hr. inv_st. destruct (Nat.eqb _ _); inv_st; [lia|]. simplify_eq. lia.
Qed.

Lemma on_file_node_files {A} i m (s : FsState (FatFileSystemInner Dev)) (r : outcome FileError A) s' :
  on_file_node i m s = (r, s') -> files s' = files s.
Proof using.
  unfold on_file_node, mbind, st_bind, node_of. destruct (inner_nodes _ !! i) as [[d|f]|]; cbn; [by intros [= ? <-]| |by intros [= ? <-]].
  unfold on_file. destruct (m _ _ _ _) as [? [? ?]]. by intros [= ? <-].
Qed.

Lemma on_file_node_Ok {A} i m (s : FsState (FatFileSystemInner Dev)) (a : A) s' :
  on_file_node i m s = (Ok a, s') -> exists b ft po fd fd', m b ft po fd = (Ok a, fd').
Proof using.
  unfold on_file_node, mbind, st_bind, node_of. destruct (inner_nodes _ !! i) as [[d|f]|]; cbn; try done.
  unfold on_file. destruct (m _ _ _ _) as [? [? ?]] eqn:Hm. intros [= -> <-]. eauto 10.
Qed.

#[export] Instance fat_ops_laws : @InodeOpsLaws _ (fat_ops (Dev := Dev) fuel upper_non_ascii now alive).
Proof.
  split; cbn.
  - intros *. apply on_file_node_files.
  - intros *. apply on_file_node_files.
  - intros * Hs. unfold mbind, st_bind, node_of in Hs.
    destruct (inner_nodes _ !! i) as [[d|f]|]; cbn in Hs; [by injection Hs as ? <-| |by injection Hs as ? <-].
    unfold on_file in Hs. destruct (sync_self _ _ _ _) as [? [? ?]]. by injection Hs as ? <-.
  - intros * Hr. apply on_file_node_Ok in Hr as (? & ? & ? & ? & ? & Hr). by eapply file_read_count.
  - intros * Hr. apply on_file_node_Ok in Hr as (? & ? & ? & ? & ? & Hr). by eapply file_write_count.
Qed.

Lemma on_volume_keeps {A} m : keeps_files (on_volume (Dev := Dev) (A := A) m).
Proof using. intros s. unfold on_volume. by destruct (m _ _ _ _). Qed.
Lemma dir_lookup_keeps d name : keeps_files (dir_lookup (Dev := Dev) fuel upper_non_ascii now alive d name).
Proof using.
  unfold dir_lookup. apply keeps_bind; [apply on_volume_keeps|intros found]. apply keeps_bind; [done|intros [entry idx]].
  unfold inode_of_entry, create_and_cache_inode. solve_keeps.
Qed.
#[export] Instance fat_dir_laws : @DirOpsLaws _ (fat_ops (Dev := Dev) fuel upper_non_ascii now alive).
Proof.
  split; cbn; [intros i name|intros i name kind perms|intros i size].
  - unfold on_dir. apply keeps_bind; [done|intros [d|f]; [apply dir_lookup_keeps|done]].
  - unfold on_dir, dir_create. apply keeps_bind; [done|intros [d|f]; [|done]].
    apply keeps_bind; [apply on_volume_keeps|intros; apply dir_lookup_keeps].
  - intros s. destruct (on_file_node _ _ s) as [r s'] eqn:Hs. by apply on_file_node_files in Hs.
Qed.
Lemma fat_root_keeps : keeps_files (fat_root_dir (Dev := Dev) now).
Proof using. unfold fat_root_dir. solve_keeps. Qed.
End Laws.
