(* ===== verification/FatData.v ===== *)
(** * Files of a FAT volume as sequences of bytes

    Cluster chains, the data they hold, and what reading and writing a file of [FatFs] do
    to them on a device that keeps its laws. *)
From S2P Require Import Prelude OpenFile Bytes BlockDev Fat FatTable FatFs.

(** ** The data area *)
Section Volume.
Context (t : FatTable) (n : Z).
Abbreviation bpb := (ft_bpb t).
Abbreviation bps := (bytes_per_sector bpb).
Abbreviation spc := (sectors_per_cluster bpb).

Definition cluster_size : Z := bps * spc.
Definition data_sector : Z :=
  reserved_sector_count bpb + num_fats bpb * fat_size bpb + (root_entry_count bpb * 32 + (bps - 1)) / bps.
Definition cluster_pos (c : Z) : Z := ((c - 2) * spc + data_sector) * bps + partition_offset t.
Definition cluster_data (cs : bytes) (c : Z) : bytes :=
  sub_bytes (Z.to_nat (cluster_pos c)) (Z.to_nat cluster_size) cs.

Definition valid (c : Z) : Prop := 2 <= c < 2 + n.

(** A volume of [n] clusters on a device of [len] bytes. *)
Record volume_ok (len : nat) : Prop := {
  vol_layout : layout_ok t len;
  vol_type : @fat_type FileError bpb = Ok (ft_type t);
  vol_total : @total_clusters t FileError = Ok n;
  vol_n : 0 <= n < 2 ^ 28;
  vol_spc : 0 < spc < 2 ^ 8;
  vol_root : 0 <= root_entry_count bpb < 2 ^ 16;
  vol_sectors : data_sector + n * spc < 2 ^ 32;
  vol_end : partition_offset t + (data_sector + n * spc) * bps <= Z.of_nat len;
  vol_entries c : valid c -> has_entry t c;
  vol_eoc c : valid c -> is_eoc t c = false;
}.

(** [l] is the chain of its clusters: each entry leads to the next, the last is an end mark. *)
Fixpoint is_chain (f : Z -> Z) (l : list Z) : Prop :=
  match l with
  | [] => True
  | c :: l' => match l' with [] => is_eoc t (f c) = true | c' :: _ => f c = c' end /\ is_chain f l'
  end.
Definition file_chain (cs : bytes) (l : list Z) : Prop :=
  is_chain (table t cs) l /\ Forall valid l /\ NoDup l.
(** What the clusters of a chain hold. *)
Definition chain_data (cs : bytes) (l : list Z) : bytes := concat (cluster_data cs <$> l).

Lemma data_sector_bounds len :
  volume_ok len -> reserved_sector_count bpb + num_fats bpb * fat_size bpb <= data_sector.
Proof using.
  intros []. pose proof (lay_bps _ _ vol_layout0). unfold data_sector.
  assert (0 <= (root_entry_count bpb * 32 + (bps - 1)) / bps) by (apply Z.div_pos; lia). lia.
Qed.

Lemma cluster_bounds len c :
  volume_ok len -> valid c ->
  0 < cluster_size < 2 ^ 24 /\ fat_start t (num_fats bpb) <= cluster_pos c /\ 0 <= cluster_pos c /\
  cluster_pos c + cluster_size <= Z.of_nat len.
Proof using.
  intros Hv Hc. pose proof (data_sector_bounds _ Hv) as Hd. destruct Hv. pose proof vol_layout0 as [].
  unfold valid, cluster_size, cluster_pos, fat_start, fat_len in *.
  assert (0 <= (c - 2) * spc) by (apply Z.mul_nonneg_nonneg; lia).
  assert ((c - 2) * spc + spc <= n * spc) by (replace ((c - 2) * spc + spc) with ((c - 1) * spc) by lia; apply Z.mul_le_mono_nonneg_r; lia).
  assert (0 <= num_fats bpb * fat_size bpb) by (apply Z.mul_nonneg_nonneg; lia).
  set (A := (c - 2) * spc) in *. set (B := n * spc) in *. set (F := num_fats bpb * fat_size bpb) in *.
  replace (num_fats bpb * (fat_size bpb * bps)) with (F * bps) by (unfold F; ring).
  assert ((A + data_sector + spc) * bps <= (data_sector + B) * bps) by (apply Z.mul_le_mono_nonneg_r; lia).
  assert ((reserved_sector_count bpb + F) * bps <= (A + data_sector) * bps) by (apply Z.mul_le_mono_nonneg_r; lia).
  assert (0 <= (reserved_sector_count bpb + F) * bps) by (apply Z.mul_nonneg_nonneg; lia).
  assert (0 < bps * spc) by (apply Z.mul_pos_pos; lia).
  assert (bps * spc < 2 ^ 16 * 2 ^ 8) by (apply Z.mul_lt_mono_nonneg; lia).
  split_and!; lia.
Qed.

Lemma size_pos len : volume_ok len -> 0 < cluster_size.
Proof using. intros []. pose proof (lay_bps _ _ vol_layout0). unfold cluster_size. apply Z.mul_pos_pos; lia. Qed.

Lemma cluster_data_length len cs c :
  volume_ok len -> length cs = len -> valid c -> length (cluster_data cs c) = Z.to_nat cluster_size.
Proof using. intros Hv <- Hc. pose proof (cluster_bounds _ _ Hv Hc). apply sub_bytes_length. lia. Qed.

Lemma chain_data_length len cs l :
  volume_ok len -> length cs = len -> Forall valid l -> length (chain_data cs l) = (length l * Z.to_nat cluster_size)%nat.
Proof using.
  intros Hv Hl Hf. unfold chain_data. induction Hf as [|c l Hc Hf IH]; [done|]. cbn. rewrite length_app, IH.
  by erewrite cluster_data_length.
Qed.

Lemma chain_data_app cs l l' : chain_data cs (l ++ l') = chain_data cs l ++ chain_data cs l'.
Proof using. unfold chain_data. by rewrite fmap_app, concat_app. Qed.

Lemma chain_tail f c l : is_chain f (c :: l) -> is_chain f l.
Proof using. by intros [_ H]. Qed.
Lemma file_chain_tail cs c l : file_chain cs (c :: l) -> file_chain cs l.
Proof using.
  intros (Hc & Hv & Hn). apply Forall_cons in Hv as [_ Hv]. apply NoDup_cons in Hn as [_ Hn].
  split_and!; [by eapply chain_tail|done..].
Qed.

Lemma file_chain_drop cs k l : file_chain cs l -> file_chain cs (drop k l).
Proof using.
  revert l. induction k as [|k IH]; intros [|c l] Hl; try done. apply IH. by eapply file_chain_tail.
Qed.
Lemma chain_data_drop len cs k l :
  volume_ok len -> length cs = len -> Forall valid l ->
  chain_data cs (drop k l) = drop (k * Z.to_nat cluster_size) (chain_data cs l).
Proof using.
  intros Hv Hl Hf. revert k. induction Hf as [|c l Hc Hf IH]; intros [|k]; [done|by rewrite drop_nil; unfold chain_data; cbn; rewrite drop_nil|done|].
  change (chain_data cs (c :: l)) with (cluster_data cs c ++ chain_data cs l).
  pose proof (cluster_data_length _ cs c Hv Hl Hc) as Hcl.
  cbn [drop]. rewrite IH, drop_app_ge by lia. f_equal. lia.
Qed.

(** Two clusters do not meet. *)
Lemma cluster_apart len c c' :
  volume_ok len -> valid c -> valid c' -> c <> c' ->
  cluster_pos c + cluster_size <= cluster_pos c' \/ cluster_pos c' + cluster_size <= cluster_pos c.
Proof using.
  intros Hv Hc Hc' Hne. destruct Hv. pose proof (lay_bps _ _ vol_layout0). unfold cluster_pos, cluster_size.
  destruct (decide (c < c')); [left|right].
  - assert ((c - 1) * spc <= (c' - 2) * spc) by (apply Z.mul_le_mono_nonneg_r; lia).
    assert (((c - 1) * spc + data_sector) * bps <= ((c' - 2) * spc + data_sector) * bps)
      by (apply Z.mul_le_mono_nonneg_r; lia). lia.
  - assert ((c' - 1) * spc <= (c - 2) * spc) by (apply Z.mul_le_mono_nonneg_r; lia).
    assert (((c' - 1) * spc + data_sector) * bps <= ((c - 2) * spc + data_sector) * bps)
      by (apply Z.mul_le_mono_nonneg_r; lia). lia.
Qed.
End Volume.

Lemma FatTable_eta t : mkTable (ft_bpb t) (ft_type t) (partition_offset t) = t.
Proof. by destruct t. Qed.

(** ** Reading and writing clusters *)
Section ClusterOps.
Context {D : Type} `{HB : BlockDevice D} {HL : BlockDeviceLaws D}.
Context (t : FatTable) (n : Z).
Context {HF : FullReads D (Z.to_nat (bytes_per_sector (ft_bpb t)))} {HF' : FullReads D (Z.to_nat (cluster_size t))}.
Abbreviation bpb := (ft_bpb t).
Abbreviation bps := (bytes_per_sector bpb).
Abbreviation po := (partition_offset t).
Implicit Type s : D.

Lemma FatTable_new_eq len : volume_ok t n len -> @FatTable_new FileError bpb po = Ok t.
Proof using. intros Hv. unfold FatTable_new. rewrite (vol_type _ _ _ Hv). cbn. by rewrite FatTable_eta. Qed.

Lemma cluster_offset_eq len c : volume_ok t n len -> valid n c -> cluster_offset bpb po c = Ok (cluster_pos t c).
Proof using.
  intros Hv Hc. pose proof (cluster_bounds t n _ c Hv Hc) as (? & ? & ? & ?).
  pose proof (data_sector_bounds t n _ Hv). destruct Hv. pose proof vol_layout0 as [].
  unfold valid in Hc. unfold cluster_offset, cluster_to_sector, first_data_sector, root_dir_sectors.
  assert (0 <= (c - 2) * sectors_per_cluster bpb) by (apply Z.mul_nonneg_nonneg; lia).
  assert ((c - 2) * sectors_per_cluster bpb <= n * sectors_per_cluster bpb) by (apply Z.mul_le_mono_nonneg_r; lia).
  assert (0 <= num_fats bpb * fat_size bpb) by (apply Z.mul_nonneg_nonneg; lia).
  unfold cluster_pos, data_sector in *. set (r := root_entry_count bpb) in *.
  assert (0 <= (r * 32 + (bps - 1)) / bps) by (apply Z.div_pos; lia).
  rewrite (usub_eq c), (usub_eq bps) by lia. cbn. rewrite (umul_eq _ (c - 2)) by lia. cbn.
  rewrite (umul_eq _ (num_fats _)) by lia. cbn.
  rewrite (uadd_eq _ (reserved_sector_count _)) by lia. cbn. rewrite (umul_eq _ r) by lia. cbn.
  rewrite (uadd_eq _ (r * 32)) by lia. cbn. unfold udiv.
  rewrite (proj2 (Z.eqb_neq bps 0)) by lia. cbn. rewrite uadd_eq by lia. cbn. rewrite uadd_eq by lia. cbn.
  rewrite umul_eq by lia. cbn. rewrite uadd_eq by lia. done.
Qed.

Lemma bytes_per_cluster_eq len : volume_ok t n len -> @bytes_per_cluster FileError bpb = Ok (cluster_size t).
Proof using.
  intros []. pose proof (lay_bps _ _ vol_layout0). unfold bytes_per_cluster, cluster_size.
  assert (0 <= bps * sectors_per_cluster bpb) by (apply Z.mul_nonneg_nonneg; lia).
  assert (bps * sectors_per_cluster bpb < 2 ^ 16 * 2 ^ 8) by (apply Z.mul_lt_mono_nonneg; lia).
  apply umul_eq. lia.
Qed.

Lemma read_cluster_eq c buf s :
  volume_ok t n (length (contents s)) -> valid n c -> length buf = Z.to_nat (cluster_size t) ->
  exists s', read_cluster bpb po c buf s = (Ok (cluster_data t (contents s) c), s') /\ contents s' = contents s.
Proof using HF'.
  intros Hv Hc Hb. pose proof (cluster_bounds t n _ c Hv Hc) as (? & ? & ? & ?).
  destruct (seek_start (cluster_pos t c) s ltac:(lia)) as (s1 & Hseek & Hc1 & Hp1 & _).
  destruct (full_read buf s1) as (s2 & Hread & Hc2); [done|lia|rewrite Hc1; lia|].
  exists s2. split; [|congruence]. unfold read_cluster. rewrite (st_lift_bind _ _ _ _ (cluster_offset_eq _ c Hv Hc)).
  unfold st_map_err, mbind, st_bind, mret, st_ret. rewrite Hseek. cbn. rewrite Hread. cbn. by rewrite Hc1, Hp1.
Qed.

Lemma write_cluster_eq c buf s :
  volume_ok t n (length (contents s)) -> valid n c -> length buf = Z.to_nat (cluster_size t) ->
  exists s', write_cluster bpb po c buf s = (Ok tt, s') /\
    contents s' = put (Z.to_nat (cluster_pos t c)) buf (contents s).
Proof using HL.
  intros Hv Hc Hb. pose proof (cluster_bounds t n _ c Hv Hc) as (? & ? & ? & ?).
  destruct (seek_start (cluster_pos t c) s ltac:(lia)) as (s1 & Hseek & Hc1 & Hp1 & _).
  destruct (write_inside buf s1) as (s2 & Hw & Hc2 & _); [lia|rewrite Hc1, Hp1, Hb; lia|].
  exists s2. unfold write_cluster. rewrite (st_lift_bind _ _ _ _ (cluster_offset_eq _ c Hv Hc)).
  unfold st_map_err, mbind, st_bind, mret, st_ret. rewrite Hseek. cbn. rewrite Hw. cbn. split; [done|].
  by rewrite Hc2, Hp1, Hc1.
Qed.

Lemma read_table c s :
  volume_ok t n (length (contents s)) -> Forall is_byte (contents s) -> valid n c ->
  exists s', read_entry t c s = (Ok (table t (contents s) c), s') /\ contents s' = contents s.
Proof using HF. intros Hv Hb Hc. apply (read_entry_spec t); [apply Hv|by apply (vol_entries _ _ _ Hv)|done]. Qed.

(** *** Reading a file *)
Lemma skip_read_spec k l c l' s :
  volume_ok t n (length (contents s)) -> Forall is_byte (contents s) ->
  file_chain t n (contents s) l -> l = c :: l' -> (k < length l)%nat ->
  exists c' s', skip_read bpb po k c s = (Ok (Some c'), s') /\ contents s' = contents s /\
    exists l'', drop k l = c' :: l''.
Proof using HF.
  intros Hv Hb. revert l c l' s Hv Hb. induction k as [|k IH]; intros l c l' s Hv Hb Hch -> Hk; cbn [skip_read].
  { eexists _, _. split_and!; [done..|]. by eexists. }
  pose proof Hch as (Hc & Hval & _). apply Forall_cons in Hval as [Hvc Hval].
  rewrite (proj2 (Z.ltb_ge c 2)) by (destruct Hvc; lia).
  rewrite (st_lift_bind _ _ _ _ (FatTable_new_eq _ Hv)).
  destruct (read_table c s Hv Hb Hvc) as (s1 & Hr & Hc1). rewrite (st_bind_eq _ _ _ _ _ Hr).
  destruct l' as [|c' l']; [cbn in Hk; lia|]. destruct Hc as [-> Hc].
  apply Forall_cons in Hval as [Hvc' Hval]. rewrite (vol_eoc _ _ _ Hv c' Hvc').
  destruct (IH (c' :: l') c' l' s1) as (c2 & s2 & -> & Hc2 & Hd); rewrite ?Hc1; [done|done| |done|cbn in *; lia|].
  { by eapply file_chain_tail. }
  exists c2, s2. split_and!; [done|congruence|done].
Qed.

Lemma file_read_loop_spec fl len fsize cur o cbuf acc l c l' s :
  volume_ok t n (length (contents s)) -> Forall is_byte (contents s) ->
  file_chain t n (contents s) l -> l = c :: l' -> length cbuf = Z.to_nat (cluster_size t) ->
  0 <= o < cluster_size t -> Z.of_nat (length acc) <= len -> cur + Z.of_nat (length acc) <= fsize ->
  Z.min (len - Z.of_nat (length acc)) (fsize - cur - Z.of_nat (length acc)) <=
    Z.of_nat (length (chain_data t (contents s) l)) - o ->
  (len - Z.of_nat (length acc) < Z.of_nat fl) ->
  exists s', file_read_loop bpb po fl len (cluster_size t) fsize cur c o cbuf acc s =
      (Ok (acc ++ sub_bytes (Z.to_nat o)
                    (Z.to_nat (Z.min (len - Z.of_nat (length acc)) (fsize - cur - Z.of_nat (length acc))))
                    (chain_data t (contents s) l)), s') /\ contents s' = contents s.
Proof using HF HF'.
  revert o cbuf acc l c l' s. induction fl as [|fl IH]; intros o cbuf acc l c l' s Hv Hb Hch -> Hcb Ho Hacc Hcur Hfs Hfl;
    [lia|]. cbn [file_read_loop]. set (cs := contents s) in *. set (k := Z.of_nat (length acc)) in *.
  destruct ((k <? len) && (cur + k <? fsize)) eqn:Hc; cycle 1.
  { exists s. split; [|done]. unfold mret, st_ret. replace (Z.to_nat (Z.min _ _)) with 0%nat; cycle 1.
    { rewrite andb_false_iff, !Z.ltb_ge in Hc. lia. }
    unfold sub_bytes. by rewrite take_0, app_nil_r. }
  apply andb_true_iff in Hc as [Hc1%Z.ltb_lt Hc2%Z.ltb_lt].
  pose proof Hch as (Hchain & Hval & _). apply Forall_cons in Hval as [Hvc Hval].
  rewrite (proj2 (Z.ltb_ge c 2)) by (destruct Hvc; lia).
  destruct (read_cluster_eq c cbuf s Hv Hvc Hcb) as (s1 & Hr & Hcs1). rewrite (st_bind_eq _ _ _ _ _ Hr).
  pose proof (cluster_data_length t n _ cs c Hv eq_refl Hvc) as Hcl.
  pose proof (chain_data_length t n _ cs l' Hv eq_refl Hval) as Hll.
  change (chain_data t cs (c :: l')) with (cluster_data t cs c ++ chain_data t cs l') in *.
  rewrite length_app in Hfs. set (m := Z.min _ (len - k)).
  rewrite (st_lift_bind _ _ _ (sub_bytes (Z.to_nat o) (Z.to_nat m) (cluster_data t cs c)))
    by (apply slice_Ok; subst m; lia).
  assert (length (sub_bytes (Z.to_nat o) (Z.to_nat m) (cluster_data t cs c)) = Z.to_nat m) as Hsl
    by (apply sub_bytes_length; subst m; lia).
  rewrite (st_lift_bind _ _ _ _ (FatTable_new_eq _ Hv)).
  destruct (read_table c s1) as (s2 & Hr2 & Hcs2); rewrite ?Hcs1; [done..|].
  rewrite (st_bind_eq _ _ _ _ _ Hr2). rewrite Hcs1. fold cs.
  assert (m <= cluster_size t - o) by (subst m; lia).
  destruct l' as [|c' l'].
  - destruct Hchain as [-> _]. exists s2. split; [|unfold cs; congruence]. unfold mret, st_ret. do 3 f_equal. cbn in Hll.
    cbn [chain_data fmap list_fmap concat] in *. rewrite app_nil_r. f_equal. subst m. cbn in Hfs. lia.
  - destruct Hchain as [-> Hchain]. apply Forall_cons in Hval as [Hvc' Hval].
    rewrite (vol_eoc _ _ _ Hv c' Hvc').
    assert (Z.of_nat (length (chain_data t cs (c' :: l'))) = Z.of_nat (length (c' :: l')) * cluster_size t) as Hll'
      by (rewrite Hll; lia).
    destruct (IH 0 (cluster_data t cs c) (acc ++ sub_bytes (Z.to_nat o) (Z.to_nat m) (cluster_data t cs c)) (c' :: l') c' l' s2)
      as (s3 & -> & Hcs3); rewrite ?Hcs2, ?Hcs1, ?length_app, ?Hsl; fold cs; try done; try (subst m; lia).
    { split_and!; [done|by constructor|]. destruct Hch as (_ & _ & Hn). by apply NoDup_cons in Hn as [_ Hn]. }
    exists s3. split; [|unfold cs; congruence]. do 2 f_equal. rewrite <-app_assoc. f_equal.
    rewrite sub_bytes_app by lia. rewrite Hcl. f_equal; f_equal; subst m; lia.
Qed.

(** A file's content: the first bytes of its chain. *)
Definition file_content (cs : bytes) (l : list Z) (size : Z) : bytes := take (Z.to_nat size) (chain_data t cs l).

(** Reading a file whose chain holds it delivers exactly the bytes of its content from
    [offset] on, as many as the buffer takes and the file has, and changes nothing on the
    device. *)
Theorem fat_file_read f l offset buf s :
  volume_ok t n (length (contents s)) -> Forall is_byte (contents s) ->
  file_chain t n (contents s) l -> head l = Some (first_cluster (f_entry f)) ->
  is_u 32 (fde_file_size (f_entry f)) -> 0 <= offset < 2 ^ 64 ->
  fde_file_size (f_entry f) <= Z.of_nat (length (chain_data t (contents s) l)) ->
  let data := sub_bytes (Z.to_nat offset) (length buf) (file_content (contents s) l (fde_file_size (f_entry f))) in
  exists s' f', file_read bpb po offset buf (f, s) =
      (Ok (Z.of_nat (length data), data ++ drop (length data) buf), (f', s')) /\
    contents s' = contents s /\ f_entry f' = f_entry f.
Proof using HF HF'.
  intros Hv Hb Hch Hhd Hsz Hoff Hfit data. destruct l as [|c l']; [done|]. injection Hhd as Hhd.
  set (l := c :: l') in *. set (cs := contents s) in *. pose proof Hch as (_ & Hval & _).
  pose proof (cluster_bounds t n _ c Hv ltac:(by inversion Hval)) as (Hcs & _).
  pose proof (chain_data_length t n _ cs l Hv eq_refl Hval) as Hlen.
  set (fsize := fde_file_size (f_entry f)) in *. unfold is_u in Hsz.
  assert (data = sub_bytes (Z.to_nat offset) (Nat.min (length buf) (Z.to_nat fsize - Z.to_nat offset)) (chain_data t cs l)) as Hdata
    by apply sub_bytes_take.
  unfold file_read. rewrite (st_bind_eq _ _ _ tt (mkFile (f_entry f) offset (f_key f), s)) by done.
  rewrite (st_bind_eq _ _ _ (mkFile (f_entry f) offset (f_key f)) (mkFile (f_entry f) offset (f_key f), s)) by done.
  cbn [f_entry]. fold fsize. destruct (Z.leb_spec fsize offset).
  { replace (Z.to_nat fsize - Z.to_nat offset)%nat with 0%nat in Hdata by lia. rewrite Nat.min_0_r in Hdata.
    eexists s, _. rewrite Hdata. done. }
  rewrite (st_lift_bind _ _ _ _ (bytes_per_cluster_eq _ Hv)).
  assert (0 <= offset / cluster_size t) by (apply Z.div_pos; lia).
  pose proof (Z.div_mod offset (cluster_size t) ltac:(lia)) as Hdm.
  pose proof (Z.mod_pos_bound offset (cluster_size t) ltac:(lia)) as Hmod.
  rewrite (st_lift_bind _ _ _ (offset / cluster_size t)) by (unfold udiv; by rewrite (proj2 (Z.eqb_neq _ _)) by lia).
  assert (offset / cluster_size t < Z.of_nat (length l)) as Hk
    by (apply Z.div_lt_upper_bound; lia).
  set (k := Z.to_nat (offset / cluster_size t)).
  destruct (skip_read_spec k l c l' s) as (c' & s1 & Hskip & Hc1 & l'' & Hdrop); [done..|lia|].
  rewrite <-Hhd.
  rewrite (st_bind_eq _ _ _ (Some c') (mkFile (f_entry f) offset (f_key f), s1)) by (cbn; by rewrite Hskip).
  rewrite (st_lift_bind _ _ _ (offset mod cluster_size t)) by (unfold urem; by rewrite (proj2 (Z.eqb_neq _ _)) by lia).
  assert (chain_data t cs (drop k l) = drop (k * Z.to_nat (cluster_size t)) (chain_data t cs l)) as Hcd
    by (by eapply chain_data_drop).
  assert (Z.of_nat (length (chain_data t cs (drop k l))) = Z.of_nat (length (chain_data t cs l)) - offset / cluster_size t * cluster_size t)
    as Hcdl by (rewrite Hcd, length_drop, Hlen; lia).
  destruct (file_read_loop_spec (length buf + 1) (Z.of_nat (length buf)) fsize offset (offset mod cluster_size t)
    (zeros (cluster_size t)) [] (drop k l) c' l'' s1) as (s2 & Hloop & Hc2); rewrite ?Hc1; fold cs; cbn [length];
    try done; try lia.
  { by apply file_chain_drop. }
  { apply length_replicate. }
  rewrite (st_bind_eq _ _ _ data (mkFile (f_entry f) offset (f_key f), s2)); cycle 1.
  { cbn [on_device]. rewrite Hloop, app_nil_l, Hc1. fold cs. cbn [length]. do 2 f_equal. rewrite Hdata, Hcd, sub_bytes_drop.
    f_equal; f_equal; lia. }
  assert (Z.of_nat (length data) <= fsize) as Hdl.
  { rewrite Hdata. unfold sub_bytes. rewrite length_take. lia. }
  rewrite (st_lift_bind _ _ _ (offset + Z.of_nat (length data))) by (apply uadd_eq; lia).
  rewrite (st_bind_eq _ _ _ tt (mkFile (f_entry f) (offset + Z.of_nat (length data)) (f_key f), s2)) by done.
  eexists s2, _. split_and!; [done|unfold cs; congruence|done].
Qed.
End ClusterOps.

(** ** Writing a file *)
Section Frames.
Context (t : FatTable) (n : Z).
Abbreviation bpb := (ft_bpb t).

Definition in_tables (i : nat) : Prop := fat_start t 0 <= Z.of_nat i < fat_start t (num_fats bpb).
Definition in_cluster (c : Z) (i : nat) : Prop := cluster_pos t c <= Z.of_nat i < cluster_pos t c + cluster_size t.

(** From [cs] to [cs'] at most the entries and the data of the clusters [T] have changed. *)
Record frame (T : list Z) (cs cs' : bytes) : Prop := {
  fr_length : length cs' = length cs;
  fr_bytes : Forall is_byte cs';
  fr_sync : in_sync t cs';
  fr_table c : valid n c -> c ∉ T -> table t cs' c = table t cs c;
  fr_data i : ~ in_tables i -> (forall c, c ∈ T -> ~ in_cluster c i) -> cs' !! i = cs !! i;
}.

Definition same_data (cs cs' : bytes) : Prop := length cs' = length cs /\ forall i, ~ in_tables i -> cs' !! i = cs !! i.
Definition is_free_cluster (cs : bytes) (c : Z) : Prop := table t cs c = FAT_FREE.
Definition no_free (cs : bytes) : Prop := forall c, valid n c -> ~ is_free_cluster cs c.

Lemma frame_weaken T T' cs cs' : T ⊆ T' -> frame T cs cs' -> frame T' cs cs'.
Proof using. intros Hs []. split; [done..| |]; intros; [apply fr_table0|apply fr_data0]; auto. Qed.
Lemma frame_trans T cs1 cs2 cs3 : frame T cs1 cs2 -> frame T cs2 cs3 -> frame T cs1 cs3.
Proof using.
  intros [] []. split; [congruence|done|done| |]; intros.
  - by rewrite fr_table1, fr_table0.
  - by rewrite fr_data1, fr_data0.
Qed.

Lemma cluster_not_in_tables len c i : volume_ok t n len -> valid n c -> in_cluster c i -> ~ in_tables i.
Proof using. intros Hv Hc Hi. pose proof (cluster_bounds t n _ c Hv Hc). unfold in_cluster, in_tables in *. lia. Qed.

Lemma same_cluster_data cs cs' c :
  volume_ok t n (length cs) -> valid n c -> length cs' = length cs ->
  (forall i, in_cluster c i -> cs' !! i = cs !! i) -> cluster_data t cs' c = cluster_data t cs c.
Proof using.
  intros Hv Hc Hl Hi. pose proof (cluster_bounds t n _ c Hv Hc). apply sub_bytes_ext; [done|].
  intros i Hin. apply Hi. unfold in_cluster. lia.
Qed.

Lemma chain_data_ext cs cs' l :
  (forall c, c ∈ l -> cluster_data t cs' c = cluster_data t cs c) -> chain_data t cs' l = chain_data t cs l.
Proof using.
  intros Hc. unfold chain_data. f_equal. apply list_fmap_ext. intros i c Hi. apply Hc. by eapply list_elem_of_lookup_2.
Qed.

Lemma same_data_chain cs cs' l :
  volume_ok t n (length cs) -> Forall (valid n) l -> same_data cs cs' -> chain_data t cs' l = chain_data t cs l.
Proof using.
  intros Hv Hl [Hlen Hd]. apply chain_data_ext. intros c Hc. rewrite Forall_forall in Hl.
  apply same_cluster_data; [done|by apply Hl|done|]. intros i Hi. apply Hd. eapply cluster_not_in_tables; eauto.
Qed.

Lemma frame_cluster_data T cs cs' c :
  volume_ok t n (length cs) -> Forall (valid n) T -> frame T cs cs' -> valid n c -> c ∉ T ->
  cluster_data t cs' c = cluster_data t cs c.
Proof using.
  intros Hv HT Hf Hc Hn. apply same_cluster_data; [done|done|apply Hf|]. intros i Hi. apply (fr_data _ _ _ Hf).
  - eapply cluster_not_in_tables; eauto.
  - intros c' Hc' Hi'. rewrite Forall_forall in HT.
    destruct (cluster_apart t n _ c c' Hv Hc (HT _ Hc')) as [|]; [by intros ->| |]; unfold in_cluster in *; lia.
Qed.

(** Writing an entry changes no data. *)
Lemma entry_written_same_data len c v cs cs' :
  layout_ok t len -> entry_written t c v cs cs' -> same_data cs cs'.
Proof using.
  intros Hlay (Hl & _ & _ & _ & Ho). split; [done|]. intros i Hi. apply Ho. unfold in_tables in Hi. lia.
Qed.
Lemma entry_written_frame len c v cs cs' :
  volume_ok t n len -> entry_written t c v cs cs' -> frame [c] cs cs'.
Proof using.
  intros Hv (Hl & Hb & Hs & Ht & Ho). split; [done..| |].
  - intros c' Hc' Hn. rewrite Ht by (by apply Hv). rewrite decide_False; [done|]. set_solver.
  - intros i Hi _. apply Ho. unfold in_tables in Hi. lia.
Qed.

(** A write behind the tables leaves them alone. *)
Lemma put_after_tables P bs cs j :
  layout_ok t (length cs) -> fat_start t (num_fats bpb) <= P -> P + Z.of_nat (length bs) <= Z.of_nat (length cs) ->
  0 <= j < num_fats bpb -> fat_copy t j (put (Z.to_nat P) bs cs) = fat_copy t j cs.
Proof using.
  intros Hlay Hfs Hend Hj. pose proof (copy_bounds t _ j Hlay Hj).
  assert ((j + 1) * fat_len t <= num_fats bpb * fat_len t) by (apply Z.mul_le_mono_nonneg_r; lia).
  unfold fat_start in *. apply sub_bytes_put_away; [lia|]. left. unfold fat_start. lia.
Qed.

(** Writing a cluster changes its data only. *)
Lemma put_cluster c buf cs :
  volume_ok t n (length cs) -> valid n c -> length buf = Z.to_nat (cluster_size t) ->
  Forall is_byte cs -> Forall is_byte buf -> in_sync t cs ->
  let cs' := put (Z.to_nat (cluster_pos t c)) buf cs in
  frame [c] cs cs' /\ (forall c', valid n c' -> table t cs' c' = table t cs c') /\ cluster_data t cs' c = buf.
Proof using.
  intros Hv Hc Hl Hb Hbb Hs cs'. pose proof (cluster_bounds t n _ c Hv Hc) as (? & ? & ? & ?).
  assert (forall i, cs' !! i = if decide (in_cluster c i) then buf !! (i - Z.to_nat (cluster_pos t c))%nat else cs !! i) as Hi.
  { intros i. unfold cs'. rewrite lookup_put by lia. unfold in_cluster.
    destruct (decide _), (decide _); try done; lia. }
  assert (forall j, 0 <= j < num_fats bpb -> fat_copy t j cs' = fat_copy t j cs) as Hcopy
    by (intros; apply put_after_tables; [apply Hv|lia..]).
  pose proof (lay_fats _ _ (vol_layout _ _ _ Hv)).
  split_and!.
  - split; [apply length_put; lia|by apply put_bytes| | |].
    + intros j Hj. rewrite !Hcopy by lia. by apply Hs.
    + intros c' _ _. unfold table. by rewrite Hcopy by lia.
    + intros i Hi1 Hi2. rewrite Hi, decide_False; [done|]. apply Hi2. set_solver.
  - intros c' _. unfold table. by rewrite Hcopy by lia.
  - unfold cluster_data, cs'. rewrite <-Hl. apply sub_bytes_put_same. lia.
Qed.

Lemma first_free_Some k c f c' : first_free k c f = Some c' -> f c' = FAT_FREE.
Proof using.
  revert c. induction k as [|k IH]; intros c; cbn; [done|]. destruct (Z.eqb_spec (f c) FAT_FREE); [|apply IH].
  intros; by simplify_eq.
Qed.
Lemma first_free_None k c f : first_free k c f = None -> forall c', c <= c' < c + Z.of_nat k -> f c' <> FAT_FREE.
Proof using.
  revert c. induction k as [|k IH]; intros c; cbn; [lia|]. destruct (Z.eqb_spec (f c) FAT_FREE); [done|].
  intros Hn c' Hc'. destruct (decide (c' = c)) as [->|]; [done|]. apply (IH (c + 1)); [done|lia].
Qed.

Lemma eoc_mark_eoc : is_eoc t (eoc_mark t) = true.
Proof using. unfold is_eoc, eoc_mark. by destruct (ft_type t). Qed.

(** A cluster of a chain is not free. *)
Lemma chain_not_free cs l c : volume_ok t n (length cs) -> file_chain t n cs l -> c ∈ l -> ~ is_free_cluster cs c.
Proof using.
  intros Hv (Hch & Hval & _) Hc. unfold is_free_cluster, FAT_FREE. induction l as [|c0 l IH]; [by apply not_elem_of_nil in Hc|].
  apply Forall_cons in Hval as [Hv0 Hval]. destruct Hch as [Hh Hch]. apply elem_of_cons in Hc as [->|Hc]; [|by apply IH].
  destruct l as [|c1 l]; [|apply Forall_cons in Hval as [Hv1 _]; destruct Hv1; lia].
  intros H0. rewrite H0 in Hh. unfold is_eoc in Hh. by destruct (ft_type t).
Qed.

(** Cluster numbers fit their entries. *)
Lemma valid_fits len c : volume_ok t n len -> valid n c -> c mod 2 ^ entry_bits (ft_type t) = c.
Proof using.
  intros Hv Hc. pose proof (vol_n _ _ _ Hv). pose proof (vol_eoc _ _ _ Hv c Hc) as He. unfold valid in Hc.
  apply Z.mod_small. unfold is_eoc in He. unfold entry_bits. destruct (ft_type t); apply Z.leb_gt in He; lia.
Qed.

(** The table with the chain [l] extended by [new]. *)
Lemma is_chain_ext f g l : (forall c, c ∈ l -> g c = f c) -> is_chain t f l -> is_chain t g l.
Proof using.
  induction l as [|c l IH]; [done|]. intros Hfg [Hh Hch]. split; [rewrite Hfg by set_solver; done|].
  apply IH; [|done]. intros; apply Hfg; set_solver.
Qed.
Lemma is_chain_snoc f g l c new :
  is_chain t f (l ++ [c]) -> (forall x, x ∈ l -> g x = f x) -> g c = new -> is_eoc t (g new) = true ->
  is_chain t g (l ++ [c; new]).
Proof using.
  induction l as [|x l IH]; intros Hch Hg Hc He; cbn in *; [done|]. destruct Hch as [Hh Hch]. split.
  - rewrite Hg by set_solver. destruct l as [|y l]; cbn in *; [done|done].
  - apply IH; [done| |done..]. intros; apply Hg; set_solver.
Qed.

(** The state in which the operations are called: a volume whose copies agree. *)
Definition ready (cs : bytes) : Prop := volume_ok t n (length cs) /\ Forall is_byte cs /\ in_sync t cs.

Lemma frame_ready T cs cs' : frame T cs cs' -> ready cs -> ready cs'.
Proof using. intros Hf (Hv & _ & _). split_and!; [by rewrite (fr_length _ _ _ Hf)|apply Hf..]. Qed.

(** Adding the free cluster [new] to the end of a chain. *)
Lemma extend_chain cs cs1 cs2 l c new :
  ready cs -> file_chain t n cs (l ++ [c]) -> valid n new -> is_free_cluster cs new ->
  entry_written t new (eoc_mark t) cs cs1 ->
  entry_written t c new cs1 cs2 ->
  file_chain t n cs2 (l ++ [c; new]) /\ frame (l ++ [c; new]) cs cs2 /\
  same_data cs cs2.
Proof using.
  intros (Hv & Hb & Hs) Hch Hnew Hfree Hw1 Hw2. pose proof Hch as (Hc & Hval & Hnd).
  assert (new ∉ l ++ [c]) as Hni.
  { intros Hin. by eapply (chain_not_free cs). }
  pose proof Hw1 as (Hl1 & _ & _ & Ht1 & _). pose proof Hw2 as (_ & _ & _ & Ht2 & _).
  pose proof (vol_layout _ _ _ Hv) as Hlay.
  assert (valid n c) as Hvc by (rewrite Forall_app, Forall_singleton in Hval; tauto).
  assert (c <> new) as Hne by set_solver.
  split_and!.
  - split_and!.
    + apply (is_chain_snoc (table t cs)); [done| | |].
      * intros x Hx. assert (valid n x) by (rewrite Forall_forall in Hval; apply Hval; set_solver).
        rewrite Ht2, Ht1 by (by apply Hv). rewrite !decide_False; [done|set_solver|].
        intros ->. apply NoDup_app in Hnd as (_ & Hd & _). apply (Hd c Hx). set_solver.
      * rewrite Ht2 by (by apply Hv). by rewrite decide_True.
      * rewrite Ht2, Ht1 by (by apply Hv). rewrite decide_False, decide_True by done.
        apply eoc_mark_eoc.
    + rewrite Forall_app in Hval |- *. destruct Hval as [? _]. by rewrite Forall_cons, Forall_singleton.
    + change [c; new] with ([c] ++ [new]). rewrite app_assoc. apply NoDup_app. split_and!; [done|set_solver|].
      apply NoDup_singleton.
  - eapply frame_trans; (eapply frame_weaken; [|eapply entry_written_frame; [|done]]); try done; try (rewrite Hl1; done); set_solver.
  - destruct (entry_written_same_data _ _ _ _ _ Hlay Hw1) as [E1 F1].
    rewrite <-Hl1 in Hlay. destruct (entry_written_same_data _ _ _ _ _ Hlay Hw2) as [E2 F2].
    split; [congruence|]. intros i Hi. by rewrite F2, F1.
Qed.

(** Writing into one cluster of a chain. *)
Lemma put_in_chain cs cs' l pre c post o bs :
  ready cs -> Forall (valid n) l -> NoDup l -> l = pre ++ c :: post ->
  (o + length bs <= Z.to_nat (cluster_size t))%nat -> frame [c] cs cs' ->
  cluster_data t cs' c = put o bs (cluster_data t cs c) ->
  chain_data t cs' l = put (length pre * Z.to_nat (cluster_size t) + o) bs (chain_data t cs l).
Proof using.
  intros (Hv & Hb & Hs) Hval Hnd -> Ho Hfr Hcd.
  apply Forall_app in Hval as [Hvpre Hval]. apply Forall_cons in Hval as [Hvc Hvpost].
  apply NoDup_app in Hnd as (_ & Hd1 & Hnd). apply NoDup_cons in Hnd as [Hd2 _].
  assert (forall l', Forall (valid n) l' -> c ∉ l' -> chain_data t cs' l' = chain_data t cs l') as Hsame.
  { intros l' Hl' Hc. apply chain_data_ext. intros c' Hc'. rewrite Forall_forall in Hl'.
    apply (frame_cluster_data [c]); [done|by constructor|done|by apply Hl'|]. set_solver. }
  rewrite !chain_data_app, Hsame by (done || intros Hc; apply (Hd1 c Hc); set_solver).
  change (chain_data t ?x (c :: post)) with (cluster_data t x c ++ chain_data t x post).
  rewrite Hcd, (Hsame post) by done.
  rewrite <-(chain_data_length t n _ cs pre Hv eq_refl Hvpre), put_app_r.
  pose proof (cluster_data_length t n _ cs c Hv eq_refl Hvc). rewrite put_app_l by lia. done.
Qed.

(** The outcome of writing [buf] at [pos] of the chain [l]: the chain is extended by free
    clusters [ext], the first [k] bytes are in place, and nothing else is changed; [k] is
    smaller than the length only when no cluster is free any more. *)
Definition written {A} (l : list Z) (pos : nat) (buf cs : bytes) (r : outcome FileError A) (cs' : bytes)
    (ext : list Z) (k : nat) : Prop :=
  file_chain t n cs' (l ++ ext) /\ Forall (is_free_cluster cs) ext /\ frame (l ++ ext) cs cs' /\
  chain_data t cs' (l ++ ext) = put pos (take k buf) (chain_data t cs (l ++ ext)) /\
  (k <= length buf)%nat /\ (k = 0 \/ pos + k <= length (l ++ ext) * Z.to_nat (cluster_size t))%nat /\
  match r with
  | Ok _ => k = length buf
  | Err e => e = Other "No free clusters" /\ no_free cs'
  | Panic => False
  end.

Lemma frame_refl T cs : ready cs -> frame T cs cs.
Proof using. intros (_ & ? & ?). by split. Qed.
Lemma same_data_trans cs1 cs2 cs3 : same_data cs1 cs2 -> same_data cs2 cs3 -> same_data cs1 cs3.
Proof using. intros [L1 D1] [L2 D2]. split; [congruence|]. intros i Hi. by rewrite D2, D1. Qed.

(** Clusters free after a change to other clusters were free before. *)
Lemma free_before T ext cs1 cs2 cs3 :
  frame T cs1 cs2 -> file_chain t n cs3 (T ++ ext) -> Forall (is_free_cluster cs2) ext -> Forall (is_free_cluster cs1) ext.
Proof using.
  intros Hfr (_ & Hval & Hnd) Hfree. apply Forall_app in Hval as [_ Hval]. apply NoDup_app in Hnd as (_ & Hd & _).
  rewrite Forall_forall in Hfree, Hval |- *. intros c Hc. unfold is_free_cluster in *.
  rewrite <-(fr_table _ _ _ Hfr); [by apply Hfree|by apply Hval|]. intros Hc'. by apply (Hd c).
Qed.

(** Writing after clusters were added to the chain. *)
Lemma written_after {A} l pos buf cs cs1 cs2 ext1 ext2 k (r : outcome FileError A) :
  volume_ok t n (length cs) -> frame (l ++ ext1) cs cs1 -> same_data cs cs1 -> Forall (is_free_cluster cs) ext1 ->
  written (l ++ ext1) pos buf cs1 r cs2 ext2 k -> written l pos buf cs r cs2 (ext1 ++ ext2) k.
Proof using.
  intros Hv Hfr Hsd Hfree (Wch & Wfree & Wfr & Wdata & Wk & Wpos & Wr). unfold written. rewrite app_assoc.
  split_and!; try done.
  - apply Forall_app. split; [done|]. by eapply free_before.
  - eapply frame_trans; [|done]. eapply frame_weaken; [|done]. set_solver.
  - rewrite Wdata. f_equal. apply same_data_chain; [done|apply Wch|done].
Qed.
(** A failure before anything is written. *)
Lemma written_none {A} l pos buf cs cs1 ext e :
  volume_ok t n (length cs) -> file_chain t n cs1 (l ++ ext) -> frame (l ++ ext) cs cs1 -> same_data cs cs1 ->
  Forall (is_free_cluster cs) ext -> e = Other "No free clusters" -> no_free cs1 ->
  written l pos buf cs (@Err FileError A e) cs1 ext 0.
Proof using.
  intros Hv Hch Hfr Hsd Hfree -> Hno. unfold written. split_and!; try done; [|lia|by left].
  rewrite take_0. unfold put. cbn [length app]. rewrite Nat.add_0_r, take_drop. apply same_data_chain; [done|apply Hch|done].
Qed.

(** What one round has done: the front of [buf], [m] bytes, is at [pos] of the chain. *)
Record round_done (l : list Z) (pos : nat) (buf cs cs1 : bytes) (m : nat) : Prop := {
  rd_frame : frame l cs cs1;
  rd_table c : valid n c -> table t cs1 c = table t cs c;
  rd_data l' : Forall (valid n) l' -> NoDup (l ++ l') ->
    chain_data t cs1 (l ++ l') = put pos (take m buf) (chain_data t cs (l ++ l'));
  rd_len : (m <= length buf)%nat;
  rd_pos : (pos + m <= length l * Z.to_nat (cluster_size t))%nat;
}.

Lemma round_chain l pos buf cs cs1 m : round_done l pos buf cs cs1 m -> file_chain t n cs l -> file_chain t n cs1 l.
Proof using.
  intros [] (Hc & Hval & Hnd). split_and!; [|done..]. apply (is_chain_ext (table t cs)); [|done].
  intros c Hc'. apply rd_table0. rewrite Forall_forall in Hval. by apply Hval.
Qed.

Lemma written_stop {A} l pos buf cs cs1 m (r : outcome FileError A) :
  round_done l pos buf cs cs1 m -> file_chain t n cs l ->
  match r with Ok _ => m = length buf | Err e => e = Other "No free clusters" /\ no_free cs1 | Panic => False end ->
  written l pos buf cs r cs1 [] m.
Proof using.
  intros Hrd Hch Hr. pose proof (round_chain _ _ _ _ _ _ Hrd Hch) as Hch1. pose proof Hch as (_ & _ & Hnd). destruct Hrd. unfold written. specialize (rd_data0 []).
  rewrite app_nil_r in *. split_and!; try done; [by apply rd_data0|lia].
Qed.

Lemma written_more {A} l pos buf cs cs1 cs2 cs3 ext1 ext2 k m (r : outcome FileError A) :
  ready cs -> file_chain t n cs l -> round_done l pos buf cs cs1 m ->
  Forall (is_free_cluster cs1) ext1 -> file_chain t n cs2 (l ++ ext1) ->
  frame (l ++ ext1) cs1 cs2 -> same_data cs1 cs2 ->
  written (l ++ ext1) (pos + m) (drop m buf) cs2 r cs3 ext2 k -> written l pos buf cs r cs3 (ext1 ++ ext2) (m + k).
Proof using.
  intros (Hv & Hb & Hs) Hch [] Hfree1 Hch2 Hfr2 Hsd (Wch & Wfree & Wfr & Wdata & Wk & Wpos & Wr). unfold written.
  rewrite app_assoc. pose proof Wch as (_ & Wval & Wnd). pose proof Wval as Wval'.
  rewrite <-app_assoc in Wval', Wnd. apply Forall_app in Wval' as [Hvl Hvext].
  pose proof (fr_length _ _ _ rd_frame0) as Hl1.
  rewrite length_drop in Wk.
  assert (pos + (m + k) <= length ((l ++ ext1) ++ ext2) * Z.to_nat (cluster_size t))%nat as Hend
    by (rewrite !length_app in *; lia).
  split_and!; [done| | | |lia|by right|].
  - apply Forall_app. split.
    + rewrite Forall_forall in Hfree1 |- *. intros c Hc. unfold is_free_cluster in *. rewrite <-rd_table0; [by apply Hfree1|].
      apply Forall_app in Hvext as [Hve _]. rewrite Forall_forall in Hve. by apply Hve.
    + eapply (free_before (l ++ ext1) _ _ cs2); [|done..]. eapply frame_trans; [|done]. eapply frame_weaken; [|done]. set_solver.
  - eapply frame_trans; [|done]. eapply frame_trans; (eapply frame_weaken; [|done]); set_solver.
  - rewrite Wdata, (same_data_chain cs1 cs2), <-app_assoc, rd_data0 by (done || by rewrite ?Hl1).
    replace (pos + m)%nat with (pos + length (take m buf))%nat by (rewrite length_take; lia).
    rewrite put_app; [by rewrite take_take_drop|]. rewrite (chain_data_length t n _ cs) by (done || by apply Forall_app).
    rewrite !length_take, length_drop. rewrite app_assoc. lia.
  - destruct r; [rewrite length_drop in Wr; lia|done|done].
Qed.
End Frames.

Section WriteOps.
Context {D : Type} `{HB : BlockDevice D} {HL : BlockDeviceLaws D}.
Context (t : FatTable) (n : Z).
Context {HF : FullReads D (Z.to_nat (bytes_per_sector (ft_bpb t)))} {HF' : FullReads D (Z.to_nat (cluster_size t))}.
Context (Hone : forall c, valid n c -> in_one_sector t c).
Abbreviation bpb := (ft_bpb t).
Abbreviation po := (partition_offset t).
Implicit Type s : D.

Lemma allocate_eq s :
  ready t n (contents s) ->
  exists r s', allocate_cluster t s = (r, s') /\
    ((r = Err (Other "No free clusters") /\ contents s' = contents s /\ no_free t n (contents s)) \/
     (exists c, r = Ok c /\ valid n c /\ is_free_cluster t (contents s) c /\
        entry_written t c (eoc_mark t) (contents s) (contents s'))).
Proof using HF Hone.
  intros (Hv & Hb & Hs). pose proof (vol_n _ _ _ Hv).
  pose proof (find_free_spec t (Z.to_nat n) 2 s (vol_layout _ _ _ Hv) Hb Hs) as Hf.
  assert (allocate_cluster t s = find_free t (Z.to_nat n) 2 s) as ->.
  { unfold allocate_cluster. rewrite (st_lift_bind _ _ _ _ (vol_total _ _ _ Hv)).
    by rewrite (st_lift_bind _ _ _ (n + 2)) by (apply uadd_eq; lia). }
  destruct (first_free _ _ _) as [c|] eqn:Hff.
  - pose proof (first_free_range _ _ _ _ Hff). assert (valid n c) as Hc by (unfold valid; lia).
    destruct Hf as (s' & -> & Hw); [intros; apply Hv; unfold valid; lia|by apply Hone|].
    eexists _, _. split; [done|]. right. exists c. split_and!; [done..|by eapply first_free_Some|done].
  - destruct Hf as (s' & -> & Hw); [intros; apply Hv; unfold valid; lia|].
    eexists _, _. split; [done|]. left. split_and!; [done..|]. intros c Hc. unfold is_free_cluster.
    eapply first_free_None; [done|]. unfold valid in Hc. lia.
Qed.


Lemma next_or_extend_spec l pre c post s :
  ready t n (contents s) -> file_chain t n (contents s) l -> l = pre ++ c :: post ->
  exists r s', next_or_extend bpb po c s = (r, s') /\
    ((r = Err (Other "No free clusters") /\ contents s' = contents s /\ no_free t n (contents s)) \/
     (exists next ext post', r = Ok next /\ l ++ ext = pre ++ c :: next :: post' /\
        file_chain t n (contents s') (l ++ ext) /\ Forall (is_free_cluster t (contents s)) ext /\
        frame t n (l ++ ext) (contents s) (contents s') /\ same_data t (contents s) (contents s'))).
Proof using HF Hone.
  intros Hready Hch ->. pose proof Hready as (Hv & Hb & Hs). pose proof Hch as (Hc & Hval & Hnd).
  apply Forall_app in Hval as [Hvpre Hval]. apply Forall_cons in Hval as [Hvc Hvpost].
  unfold next_or_extend. rewrite (st_lift_bind _ _ _ _ (FatTable_new_eq t n _ Hv)).
  destruct (read_table t n c s Hv Hb Hvc) as (s1 & Hr & Hc1). rewrite (st_bind_eq _ _ _ _ _ Hr).
  assert (is_chain t (table t (contents s)) (c :: post)) as [Hh _].
  { clear -Hc. induction pre as [|x pre IH]; [done|]. destruct Hc as [_ Hc]. auto. }
  destruct post as [|c' post].
  - rewrite Hh. destruct (allocate_eq s1) as (r & s2 & Ha & Hcase); [by rewrite Hc1|]. rewrite Hc1 in Hcase.
    destruct Hcase as [(-> & Hc2 & Hno)|(new & -> & Hvn & Hfree & Hw)].
    { eexists _, s2. split; [|left; done]. unfold mbind, st_bind. by rewrite Ha. }
    rewrite (st_bind_eq _ _ _ _ _ Ha).
    pose proof (entry_written_frame t n _ _ _ _ _ Hv Hw) as Hfr.
    destruct (frame_ready t n _ _ _ Hfr Hready) as (Hv2 & Hb2 & Hs2).
    destruct (write_entry_spec t c new s2) as (s3 & Hw3 & He3); [apply Hv2|by apply Hv|by apply Hone|done..|].
    rewrite (st_bind_eq _ _ _ _ _ Hw3). eexists _, s3. split; [done|]. right.
    assert (new mod 2 ^ entry_bits (ft_type t) = new) as Hmod by (by eapply valid_fits).
    rewrite Hmod in He3. destruct (extend_chain t n (contents s) (contents s2) (contents s3) pre c new) as (E1 & E2 & E3); [done..|].
    exists new, [new], []. rewrite <-app_assoc. cbn [app]. split_and!; [done..|by apply Forall_singleton|done|done].
  - apply Forall_cons in Hvpost as [Hvc' _]. rewrite Hh, (vol_eoc _ _ _ Hv c' Hvc').
    eexists _, s1. split; [done|]. right. exists c', [], post. rewrite app_nil_r, Hc1. done.
Qed.

(** One round of the loop: the cluster [c] gets the front of [buf]. *)
Lemma write_part_spec l pre c post o cbuf buf s :
  ready t n (contents s) -> file_chain t n (contents s) l -> l = pre ++ c :: post ->
  length cbuf = Z.to_nat (cluster_size t) -> 0 <= o < cluster_size t -> Forall is_byte cbuf -> Forall is_byte buf ->
  exists cbuf' s', write_part bpb po (cluster_size t) c o cbuf buf s = (Ok cbuf', s') /\
    length cbuf' = Z.to_nat (cluster_size t) /\ Forall is_byte cbuf' /\
    round_done t n l (length pre * Z.to_nat (cluster_size t) + Z.to_nat o) buf (contents s) (contents s')
      (part_len (cluster_size t) o buf).
Proof using HF' HF Hone.
  intros Hready Hch -> Hcb Ho Hcbb Hbb. pose proof Hready as (Hv & Hb & Hs). pose proof Hch as (_ & Hval & _).
  assert (valid n c) as Hvc by (apply Forall_app in Hval as [_ Hval]; by apply Forall_cons in Hval as [? _]).
  pose proof (cluster_data_length t n _ (contents s) c Hv eq_refl Hvc) as Hcl.
  set (m := part_len (cluster_size t) o buf). set (bs := take m buf).
  assert (length bs = m) as Hbs by (unfold bs; rewrite length_take; unfold m, part_len; lia).
  assert (Z.to_nat o + m <= Z.to_nat (cluster_size t))%nat as Hm by (unfold m, part_len; lia).
  (* the buffer before the copy agrees with the cluster where the copy does not reach *)
  assert (exists cb s1, (if negb (o =? 0) || (Z.of_nat (length buf) <? cluster_size t)
      then read_cluster bpb po c cbuf else mret cbuf) s = (Ok cb, s1) /\ contents s1 = contents s /\
      length cb = Z.to_nat (cluster_size t) /\ put (Z.to_nat o) bs cb = put (Z.to_nat o) bs (cluster_data t (contents s) c))
    as (cb & s1 & Hr & Hc1 & Hcbl & Hput).
  { destruct (negb (o =? 0) || _) eqn:Hpart.
    - destruct (read_cluster_eq t n c cbuf s Hv Hvc Hcb) as (s1 & Hr & Hc1). eexists _, s1. done.
    - exists cbuf, s. split_and!; [done..|]. apply orb_false_iff in Hpart as [Ho0%negb_false_iff%Z.eqb_eq Hlt%Z.ltb_ge].
      subst o. rewrite !put_whole; [done|..]; rewrite Hbs; unfold m, part_len; lia. }
  unfold write_part. rewrite (st_bind_eq _ _ _ _ _ Hr). fold m bs.
  rewrite (st_lift_bind _ _ _ (put (Z.to_nat o) bs cb)) by (apply put_slice_put; lia). rewrite Hput.
  set (cb' := put (Z.to_nat o) bs _).
  assert (length cb' = Z.to_nat (cluster_size t)) as Hcb'l by (unfold cb'; rewrite length_put; lia).
  assert (Forall is_byte cb') as Hcb'b by (apply put_bytes; [by apply Forall_take|by apply sub_bytes_bytes]).
  destruct (write_cluster_eq t n c cb' s1) as (s2 & Hw & Hc2); rewrite ?Hc1; [done..|].
  rewrite (st_bind_eq _ _ _ _ _ Hw). exists cb', s2. rewrite Hc2, Hc1.
  destruct (put_cluster t n c cb' (contents s) Hv Hvc Hcb'l Hb Hcb'b Hs) as (Hfr & Htab & Hcd).
  split_and!; [done..|]. split; [eapply frame_weaken; [|done]; set_solver|done| |unfold m, part_len; lia|];
    [|rewrite length_app; cbn [length]; fold m; lia].
  intros l' Hl' Hnd. rewrite <-app_assoc. cbn [app]. fold bs. eapply put_in_chain; [done| | |reflexivity|lia|done|done].
  - rewrite app_comm_cons, app_assoc. by apply Forall_app.
  - by rewrite app_comm_cons, app_assoc.
Qed.

Lemma file_write_loop_spec fl l pre c post o cbuf buf s :
  ready t n (contents s) -> file_chain t n (contents s) l -> l = pre ++ c :: post ->
  length cbuf = Z.to_nat (cluster_size t) -> 0 <= o < cluster_size t -> Forall is_byte cbuf -> Forall is_byte buf ->
  buf <> [] -> (length buf < fl)%nat ->
  exists r s' ext k, file_write_loop bpb po fl (cluster_size t) c o cbuf buf s = (r, s') /\
    written t n l (length pre * Z.to_nat (cluster_size t) + Z.to_nat o) buf (contents s) r (contents s') ext k.
Proof using HF HF' Hone.
  revert l pre c post o cbuf buf s. induction fl as [|fl IH];
    intros l pre c post o cbuf buf s Hready Hch Hl Hcb Ho Hcbb Hbb Hne Hfl; [lia|].
  cbn [file_write_loop]. destruct buf as [|b0 buf0] eqn:Hbuf; [done|]. rewrite <-Hbuf in *. clear b0 buf0 Hbuf Hne.
  destruct (write_part_spec l pre c post o cbuf buf s) as (cb' & s1 & Hw & Hcb' & Hcbb' & Hrd); [done..|].
  rewrite (st_bind_eq _ _ _ _ _ Hw). set (m := part_len (cluster_size t) o buf) in *.
  pose proof (frame_ready t n _ _ _ (rd_frame _ _ _ _ _ _ _ _ Hrd) Hready) as Hready1.
  pose proof (round_chain _ _ _ _ _ _ _ _ Hrd Hch) as Hch1.
  destruct (drop m buf) as [|b1 rest1] eqn:Hdrop.
  { eexists _, s1, [], m. split; [done|]. apply written_stop; [done..|].
    apply (f_equal length) in Hdrop. rewrite length_drop in Hdrop. cbn in Hdrop. unfold m, part_len in *. lia. }
  rewrite <-Hdrop in *. assert (length (drop m buf) <> 0)%nat as Hrest by (rewrite Hdrop; cbn; lia). clear b1 rest1 Hdrop.
  destruct (next_or_extend_spec l pre c post s1) as (r1 & s2 & Hnext & Hcase); [done..|].
  destruct Hcase as [(-> & Hc2 & Hno)|(next & ext1 & post' & -> & Hl1 & Hch2 & Hfree1 & Hfr2 & Hsd)].
  { eexists _, s2, [], m. split; [unfold mbind, st_bind; by rewrite Hnext|]. rewrite Hc2. by apply written_stop. }
  rewrite (st_bind_eq _ _ _ _ _ Hnext).
  destruct (IH (l ++ ext1) (pre ++ [c]) next post' 0 cb' (drop m buf) s2) as (r & s' & ext2 & k & Hloop & Hwr).
  all: try done; try (rewrite length_drop in *; unfold m, part_len in *; lia).
  { by eapply frame_ready. }
  { rewrite Hl1, <-app_assoc. done. }
  { by apply Forall_drop. }
  { intros Hn. by rewrite Hn in Hrest. }
  exists r, s', (ext1 ++ ext2), (m + k)%nat. split; [done|]. eapply written_more; try done.
  replace (length pre * _ + _ + m)%nat with (length (pre ++ [c]) * Z.to_nat (cluster_size t) + Z.to_nat 0)%nat; [done|].
  rewrite length_drop in Hrest. rewrite length_app. cbn [length]. unfold m, part_len in *. lia.
Qed.

(** Walking to the cluster [k] places on, adding clusters to the chain where it ends. *)
Lemma skip_write_spec k l pre c post s :
  ready t n (contents s) -> file_chain t n (contents s) l -> l = pre ++ c :: post ->
  exists r s' ext, skip_write bpb po k c s = (r, s') /\
    file_chain t n (contents s') (l ++ ext) /\ Forall (is_free_cluster t (contents s)) ext /\
    frame t n (l ++ ext) (contents s) (contents s') /\ same_data t (contents s) (contents s') /\
    match r with
    | Ok c' => exists pre' post', l ++ ext = pre' ++ c' :: post' /\ length pre' = (length pre + k)%nat
    | Err e => e = Other "No free clusters" /\ no_free t n (contents s')
    | Panic => False
    end.
Proof using HF HF' Hone.
  revert l pre c post s. induction k as [|k IH]; intros l pre c post s Hready Hch Hl; cbn [skip_write].
  { exists (Ok c), s, []. rewrite app_nil_r. split_and!; try done; [by apply frame_refl|]. exists pre, post. split; [done|lia]. }
  destruct (next_or_extend_spec l pre c post s) as (r1 & s1 & Hnext & Hcase); [done..|].
  destruct Hcase as [(-> & Hc1 & Hno)|(next & ext1 & post' & -> & Hl1 & Hch1 & Hfree1 & Hfr1 & Hsd1)].
  { eexists _, s1, []. rewrite app_nil_r, Hc1. split; [unfold mbind, st_bind; by rewrite Hnext|].
    split_and!; try done. by apply frame_refl. }
  rewrite (st_bind_eq _ _ _ _ _ Hnext).
  destruct (IH (l ++ ext1) (pre ++ [c]) next post' s1) as (r & s' & ext2 & Hrun & Hch2 & Hfree2 & Hfr2 & Hsd2 & Hr).
  { by eapply frame_ready. } { done. } { rewrite Hl1, <-app_assoc. done. }
  exists r, s', (ext1 ++ ext2). rewrite app_assoc. split_and!; [done|done| | | |].
  - apply Forall_app. split; [done|]. by eapply free_before.
  - eapply frame_trans; [|done]. eapply frame_weaken; [|done]. set_solver.
  - by eapply same_data_trans.
  - destruct r as [c'|e|]; [|done|done]. destruct Hr as (pre' & post2 & Hl2 & Hlen). exists pre', post2.
    split; [done|]. rewrite Hlen, length_app. cbn. lia.
Qed.
End WriteOps.

(** ** The directory entry of a file *)
Section Home.
Context (t : FatTable) (n : Z).
Abbreviation bpb := (ft_bpb t).
Abbreviation bps := (bytes_per_sector bpb).

Definition root_pos : Z :=
  (reserved_sector_count bpb + num_fats bpb * fat_size bpb) * bps + partition_offset t.

(** The entry named by [key] is at [P] on the device: in the fixed root directory, or in the
    clusters [dl] of its directory. *)
Definition entry_home (key : InodeKey) (dl : list Z) (cs : bytes) (P : Z) : Prop :=
  0 <= entry_index key < 2 ^ 32 /\
  if in_root key && negb (bool_decide (ft_type t = Fat32))
  then dl = [] /\ entry_index key < root_entry_count bpb /\ P = root_pos + entry_index key * 32
  else file_chain t n cs dl /\ head dl = Some (dir_cluster key) /\ 32 <= cluster_size t /\
       exists c, dl !! Z.to_nat (entry_index key / (cluster_size t / 32)) = Some c /\
         P = cluster_pos t c + entry_index key mod (cluster_size t / 32) * 32.

Lemma home_in_cluster key :
  32 <= cluster_size t -> 0 <= entry_index key mod (cluster_size t / 32) * 32 /\
  entry_index key mod (cluster_size t / 32) * 32 + 32 <= cluster_size t.
Proof using.
  intros Hc. assert (1 <= cluster_size t / 32) by (apply Z.div_le_lower_bound; lia).
  pose proof (Z.mod_pos_bound (entry_index key) (cluster_size t / 32) ltac:(lia)).
  pose proof (Z.mul_div_le (cluster_size t) 32 ltac:(lia)). lia.
Qed.

Lemma root_bounds len :
  volume_ok t n len ->
  fat_start t (num_fats bpb) = root_pos /\ root_pos + root_entry_count bpb * 32 <= cluster_pos t 2 /\
  0 <= root_pos /\ cluster_pos t 2 <= Z.of_nat len.
Proof using.
  intros Hv. pose proof (data_sector_bounds t n _ Hv) as Hd. destruct Hv. pose proof vol_layout0 as [].
  assert (0 <= num_fats bpb * fat_size bpb) by (apply Z.mul_nonneg_nonneg; lia).
  assert (0 <= n * sectors_per_cluster bpb) by (apply Z.mul_nonneg_nonneg; lia).
  unfold fat_start, fat_len, root_pos, cluster_pos, data_sector in *. set (r := root_entry_count bpb) in *.
  set (R := reserved_sector_count bpb + num_fats bpb * fat_size bpb) in *.
  assert (r * 32 <= (r * 32 + (bps - 1)) / bps * bps).
  { pose proof (Z.div_mod (r * 32 + (bps - 1)) bps ltac:(lia)).
    pose proof (Z.mod_pos_bound (r * 32 + (bps - 1)) bps ltac:(lia)). lia. }
  assert (0 <= R * bps) by (apply Z.mul_nonneg_nonneg; lia).
  assert (0 <= n * sectors_per_cluster bpb * bps) by (apply Z.mul_nonneg_nonneg; lia).
  split_and!; lia.
Qed.

(** Where the entry is: on the device, outside the tables and the clusters not of [dl]. *)
Lemma home_bounds key dl cs P :
  volume_ok t n (length cs) -> entry_home key dl cs P ->
  fat_start t (num_fats bpb) <= P /\ 0 <= P /\ P + 32 <= Z.of_nat (length cs) /\
  forall c, valid n c -> c ∉ dl -> P + 32 <= cluster_pos t c \/ cluster_pos t c + cluster_size t <= P.
Proof using.
  intros Hv [Hidx Hhome]. pose proof (root_bounds _ Hv) as (Hfs & Hroot & H0 & Hend).
  destruct (_ && _).
  - destruct Hhome as (-> & Hi & ->). split_and!; [lia..|]. intros c Hc _. left.
    assert (cluster_pos t 2 <= cluster_pos t c); [|lia].
    destruct (decide (c = 2)) as [->|Hne]; [lia|]. pose proof (lay_bps _ _ (vol_layout _ _ _ Hv)).
    pose proof (vol_spc _ _ _ Hv). unfold cluster_pos. apply Z.add_le_mono_r, Z.mul_le_mono_nonneg_r; [lia|].
    apply Z.add_le_mono_r, Z.mul_le_mono_nonneg_r; unfold valid in Hc; lia.
  - destruct Hhome as ((_ & Hval & _) & _ & Hcs & c & Hc & ->). pose proof (home_in_cluster key Hcs) as [? ?].
    rewrite Forall_forall in Hval. assert (valid n c) as Hvc by (apply Hval; by eapply list_elem_of_lookup_2).
    pose proof (cluster_bounds t n _ c Hv Hvc) as (? & ? & ? & ?). split_and!; [lia..|].
    intros c' Hc' Hni. assert (c <> c') by (intros ->; apply Hni; by eapply list_elem_of_lookup_2).
    destruct (cluster_apart t n _ c c' Hv Hvc Hc') as [|]; [done|lia|lia].
Qed.

(** The entry stays where it is when other clusters change. *)
Lemma home_frame key dl cs cs' P T :
  frame t n T cs cs' -> (forall c, c ∈ dl -> c ∉ T) -> entry_home key dl cs P -> entry_home key dl cs' P.
Proof using.
  intros Hfr Hd [Hidx Hhome]. split; [done|]. destruct (_ && _); [done|]. destruct Hhome as ((Hc & Hval & Hnd) & Hrest).
  split; [|done]. split_and!; [|done..]. apply (is_chain_ext t (table t cs)); [|done].
  intros c Hc'. rewrite Forall_forall in Hval. apply (fr_table _ _ _ _ _ Hfr); auto.
Qed.

(** Writing 32 bytes there leaves the tables and those clusters alone. *)
Lemma put_home key dl cs P bs :
  ready t n cs -> entry_home key dl cs P -> length bs = 32%nat -> Forall is_byte bs ->
  let cs' := put (Z.to_nat P) bs cs in
  ready t n cs' /\ length cs' = length cs /\ sub_bytes (Z.to_nat P) 32 cs' = bs /\
  (forall c, table t cs' c = table t cs c) /\
  (forall c, valid n c -> c ∉ dl -> cluster_data t cs' c = cluster_data t cs c) /\
  (forall i : nat, ~ P <= Z.of_nat i < P + 32 -> cs' !! i = cs !! i).
Proof using.
  intros (Hv & Hb & Hs) Hhome Hl Hbb cs'. pose proof (home_bounds _ _ _ _ Hv Hhome) as (Hfs & H0 & Hend & Hap).
  assert (forall j, 0 <= j < num_fats bpb -> fat_copy t j cs' = fat_copy t j cs) as Hcopy
    by (intros; apply put_after_tables; [apply Hv|lia..]).
  pose proof (lay_fats _ _ (vol_layout _ _ _ Hv)).
  assert (length cs' = length cs) as Hlen by (apply length_put; lia).
  split_and!.
  - split_and!; [by rewrite Hlen|by apply put_bytes|]. intros j Hj. rewrite !Hcopy by lia. by apply Hs.
  - done.
  - rewrite <-Hl. apply sub_bytes_put_same. lia.
  - intros c. unfold table. by rewrite Hcopy by lia.
  - intros c Hc Hni. pose proof (cluster_bounds t n _ c Hv Hc). specialize (Hap c Hc Hni).
    apply sub_bytes_put_away; lia.
  - intros i Hi. unfold cs'. rewrite lookup_put by lia. rewrite decide_False; [done|lia].
Qed.
End Home.

Section FileOps.
Context {D : Type} `{HB : BlockDevice D} {HL : BlockDeviceLaws D}.
Context (t : FatTable) (n : Z).
Context {HF : FullReads D (Z.to_nat (bytes_per_sector (ft_bpb t)))} {HF' : FullReads D (Z.to_nat (cluster_size t))}.
Context (Hone : forall c, valid n c -> in_one_sector t c).
Abbreviation bpb := (ft_bpb t).
Abbreviation po := (partition_offset t).
Implicit Type s : D.

Lemma nth_cluster_spec k l c c' s :
  ready t n (contents s) -> file_chain t n (contents s) l -> head l = Some c -> l !! k = Some c' ->
  exists s', nth_cluster bpb po k c s = (Ok c', s') /\ contents s' = contents s.
Proof using HF.
  revert l c s. induction k as [|k IH]; intros [|c0 l] c s (Hv & Hb & Hs) Hch Hh Hk; cbn [nth_cluster]; try done.
  { exists s. cbn in *. by simplify_eq. }
  injection Hh as ->. pose proof Hch as (Hc & Hval & _). apply Forall_cons in Hval as [Hvc Hval].
  rewrite (st_lift_bind _ _ _ _ (FatTable_new_eq t n _ Hv)).
  destruct (read_table t n c s Hv Hb Hvc) as (s1 & Hr & Hc1). rewrite (st_bind_eq _ _ _ _ _ Hr).
  destruct l as [|c1 l]; [done|]. destruct Hc as [-> _].
  destruct (IH (c1 :: l) c1 s1) as (s2 & -> & Hc2); rewrite ?Hc1; try done; [by eapply file_chain_tail|].
  exists s2. split; [done|congruence].
Qed.

(** Seeking to a place and writing there. *)
Lemma write_at P bs s :
  0 <= P -> P + Z.of_nat (length bs) <= Z.of_nat (length (contents s)) ->
  exists p q s1 s2, seek_to P s = (Ok p, s1) /\ dev_write bs s1 = (Ok q, s2) /\
    contents s2 = put (Z.to_nat P) bs (contents s).
Proof using HL.
  intros H0 Hend. destruct (seek_start P s H0) as (s1 & Hseek & Hc1 & Hp1 & _).
  destruct (write_inside bs s1) as (s2 & Hw & Hc2 & _); [lia|rewrite Hc1; lia|].
  eexists _, _, s1, s2. unfold seek_to, dev_write, st_map_err. rewrite Hseek, Hw.
  split_and!; [done..|]. by rewrite Hc2, Hp1, Hc1.
Qed.

Lemma root_entry_offset_eq len idx :
  volume_ok t n len -> 0 <= idx < root_entry_count bpb ->
  root_entry_offset bpb po idx = Ok (root_pos t + idx * 32).
Proof using.
  intros Hv Hi. pose proof (root_bounds t n _ Hv) as (_ & ? & ? & ?). destruct Hv. pose proof vol_layout0 as [].
  unfold root_entry_offset, root_dir_sector, root_pos in *.
  assert (0 <= num_fats bpb * fat_size bpb) by (apply Z.mul_nonneg_nonneg; lia).
  set (F := num_fats bpb * fat_size bpb) in *.
  assert (0 <= (reserved_sector_count bpb + F) * bytes_per_sector bpb) by (apply Z.mul_nonneg_nonneg; lia).
  rewrite (umul_eq _ (num_fats bpb)) by (fold F; lia). fold F. cbn. rewrite (uadd_eq _ (reserved_sector_count _)) by lia. cbn.
  rewrite (umul_eq _ (_ + F)) by lia. cbn. rewrite (umul_eq _ idx) by lia. cbn. rewrite uadd_eq by lia. cbn.
  rewrite uadd_eq by lia. f_equal. lia.
Qed.

Lemma sync_entry_spec f dl P s :
  ready t n (contents s) -> entry_home t n (f_key f) dl (contents s) P -> length (fde_name (f_entry f)) = 11%nat ->
  exists s', sync_entry bpb (ft_type t) po f s = (Ok tt, s') /\
    contents s' = put (Z.to_nat P) (FatDirEntry_serialize (f_entry f)) (contents s).
Proof using HF HF'.
  intros Hready Hhome Hname. pose proof Hready as (Hv & Hb & Hs). pose proof (serialize_length _ Hname) as Hser.
  pose proof (home_bounds t n _ _ _ _ Hv Hhome) as (_ & H0 & Hend & _). destruct Hhome as [Hidx Hhome].
  unfold sync_entry. destruct (in_root (f_key f) && _).
  - destruct Hhome as (_ & Hi & ->).
    rewrite (st_lift_bind _ _ _ _ (root_entry_offset_eq _ _ Hv (conj (proj1 Hidx) Hi))).
    destruct (write_at (root_pos t + entry_index (f_key f) * 32) (FatDirEntry_serialize (f_entry f)) s)
      as (p & q & s1 & s2 & Hsk & Hwr & Hc); rewrite ?Hser; [lia..|].
    rewrite (st_bind_eq _ _ _ _ _ Hsk), (st_bind_eq _ _ _ _ _ Hwr). by exists s2.
  - destruct Hhome as (Hdl & Hh & Hcs & c & Hc & ->). pose proof (home_in_cluster t (f_key f) Hcs) as [? ?].
    set (epc := cluster_size t / 32) in *. set (idx := entry_index (f_key f)) in *.
    assert (1 <= epc) by (apply Z.div_le_lower_bound; lia).
    assert (valid n c) as Hvc by (destruct Hdl as (_ & Hval & _); rewrite Forall_forall in Hval; apply Hval; by eapply list_elem_of_lookup_2).
    pose proof (cluster_bounds t n _ c Hv Hvc) as (? & ? & ? & ?).
    destruct (nth_cluster_spec (Z.to_nat (idx / epc)) dl (dir_cluster (f_key f)) c s) as (s1 & Hnth & Hc1); [done..|].
    rewrite (st_bind_eq _ _ _ (c, idx mod epc * 32, cluster_size t) s1); cycle 1.
    { unfold entry_cluster. rewrite (st_lift_bind _ _ _ _ (bytes_per_cluster_eq t n _ Hv)). fold epc idx.
      rewrite (st_lift_bind _ _ _ (idx / epc)) by (unfold udiv; by rewrite (proj2 (Z.eqb_neq _ _)) by lia).
      rewrite (st_lift_bind _ _ _ (idx mod epc)) by (unfold urem; by rewrite (proj2 (Z.eqb_neq _ _)) by lia).
      by rewrite (st_bind_eq _ _ _ _ _ Hnth). }
    destruct (read_cluster_eq t n c (zeros (cluster_size t)) s1) as (s2 & Hr & Hc2); rewrite ?Hc1; [done|done|apply length_replicate|].
    rewrite (st_bind_eq _ _ _ _ _ Hr). rewrite Hc1 in Hc2.
    pose proof (cluster_data_length t n _ (contents s) c Hv eq_refl Hvc) as Hcl. rewrite Hc1.
    rewrite (st_lift_bind _ _ _ _ (put_slice_put (Z.to_nat (idx mod epc * 32)) (FatDirEntry_serialize (f_entry f))
      (cluster_data t (contents s) c) ltac:(rewrite Hser, Hcl; lia))).
    destruct (write_cluster_eq t n c (put (Z.to_nat (idx mod epc * 32)) (FatDirEntry_serialize (f_entry f)) (cluster_data t (contents s) c)) s2)
      as (s3 & -> & Hc3); rewrite ?Hc2; [done|done|rewrite length_put; lia|].
    exists s3. split; [done|]. rewrite Hc3, Hc2. unfold cluster_data. rewrite put_put_in by lia. f_equal. lia.
Qed.

(** The chain of a file: empty, or from the entry's first cluster. *)
Definition starts (e : FatDirEntry) (l : list Z) : Prop :=
  match l with [] => first_cluster e < 2 | c :: _ => first_cluster e = c end.
Definition same_but_cluster (e e' : FatDirEntry) : Prop :=
  fde_name e' = fde_name e /\ fde_attr e' = fde_attr e /\ fde_file_size e' = fde_file_size e.

Lemma file_bind {A B} (m : st (FatFile * D) FileError A) (g : A -> st (FatFile * D) FileError B) fs a fs' :
  m fs = (Ok a, fs') -> (m ≫= g) fs = g a fs'.
Proof using. intros Hm. unfold mbind, st_bind. by rewrite Hm. Qed.

Lemma first_or_allocate_spec f l s :
  ready t n (contents s) -> file_chain t n (contents s) l -> starts (f_entry f) l ->
  exists r s' f' ext, first_or_allocate bpb po (f, s) = (r, (f', s')) /\
    file_chain t n (contents s') (l ++ ext) /\ frame t n (l ++ ext) (contents s) (contents s') /\
    same_data t (contents s) (contents s') /\ Forall (is_free_cluster t (contents s)) ext /\
    f_key f' = f_key f /\ same_but_cluster (f_entry f) (f_entry f') /\
    match r with
    | Ok c => (exists post, l ++ ext = c :: post) /\ starts (f_entry f') (l ++ ext)
    | Err e => e = Other "No free clusters" /\ no_free t n (contents s')
    | Panic => False
    end.
Proof using HF Hone.
  intros Hready Hch Hst. pose proof Hready as (Hv & Hb & Hs). unfold first_or_allocate.
  rewrite (file_bind self _ (f, s) f (f, s)) by done.
  destruct l as [|c l]; cbn [starts] in Hst.
  - rewrite (proj2 (Z.ltb_lt _ _)) by done.
    rewrite (file_bind (st_lift _) _ (f, s) t (f, s)) by (unfold st_lift; by rewrite (FatTable_new_eq t n _ Hv)).
    destruct (allocate_eq t n Hone s Hready) as (r & s1 & Ha & [(-> & Hc1 & Hno)|(c & -> & Hvc & Hfree & Hw)]).
    + eexists _, s1, f, []. split; [unfold mbind at 1, st_bind; cbn [on_device]; rewrite Ha; done|].
      rewrite Hc1. done.
    + rewrite (file_bind (on_device _) _ (f, s) c (f, s1)) by (cbn [on_device]; by rewrite Ha).
      eexists _, s1, _, [c]. split; [done|]. cbn [app f_key f_entry].
      pose proof (entry_written_frame t n _ _ _ _ _ Hv Hw) as Hfr. pose proof (vol_n _ _ _ Hv).
      assert (table t (contents s1) c = eoc_mark t) as Ht.
      { destruct Hw as (_ & _ & _ & Ht & _). rewrite Ht by (by apply Hv). by rewrite decide_True. }
      assert (first_cluster (set_first_cluster (f_entry f) c) = c) as Hfc
        by (apply first_set_cluster; unfold is_u, valid in *; lia).
      rewrite Hfc. split_and!; try done.
      * split_and!; [split; [|done]|by apply Forall_singleton|apply NoDup_singleton]. rewrite Ht. apply eoc_mark_eoc.
      * eapply entry_written_same_data; [apply Hv|done].
      * by apply Forall_singleton.
      * by exists [].
  - assert (valid n c) as Hvc by (destruct Hch as (_ & Hval & _); by apply Forall_cons in Hval as [? _]).
    rewrite (proj2 (Z.ltb_ge _ _)) by (rewrite Hst; destruct Hvc; lia).
    exists (Ok c), s, f, []. rewrite app_nil_r, Hst. split_and!; try done. by exists l.
Qed.

Lemma reach_cluster_spec f l offset s :
  ready t n (contents s) -> file_chain t n (contents s) l -> starts (f_entry f) l -> 0 <= offset ->
  exists r s' f' ext, reach_cluster bpb po (cluster_size t) offset (f, s) = (r, (f', s')) /\
    file_chain t n (contents s') (l ++ ext) /\ frame t n (l ++ ext) (contents s) (contents s') /\
    same_data t (contents s) (contents s') /\ Forall (is_free_cluster t (contents s)) ext /\
    f_key f' = f_key f /\ same_but_cluster (f_entry f) (f_entry f') /\
    match r with
    | Ok c => starts (f_entry f') (l ++ ext) /\ exists pre post,
        l ++ ext = pre ++ c :: post /\ length pre = Z.to_nat (offset / cluster_size t)
    | Err e => e = Other "No free clusters" /\ no_free t n (contents s')
    | Panic => False
    end.
Proof using HF HF' Hone.
  intros Hready Hch Hst Hoff. pose proof Hready as (Hv & _). pose proof (size_pos t n _ Hv) as Hcs. unfold reach_cluster.
  destruct (first_or_allocate_spec f l s Hready Hch Hst) as (r0 & s0 & f0 & ext0 & H0 & Hch0 & Hfr0 & Hsd0 & Hfree0 & Hk & Hsame & Hr0).
  destruct r0 as [c|e|]; [|destruct Hr0|done]; cycle 1.
  { eexists _, s0, f0, ext0. split; [unfold mbind, st_bind; by rewrite H0|done]. }
  destruct Hr0 as [(post & Hl0) Hst0]. rewrite (file_bind _ _ _ _ _ H0). pose proof (frame_ready t n _ _ _ Hfr0 Hready) as Hready0.
  rewrite (file_bind (st_lift _) _ (f0, s0) (offset / cluster_size t) (f0, s0))
    by (unfold st_lift, udiv; by rewrite (proj2 (Z.eqb_neq _ _)) by lia).
  destruct (skip_write_spec t n Hone (Z.to_nat (offset / cluster_size t)) (l ++ ext0) [] c post s0 Hready0 Hch0 Hl0)
    as (r1 & s1 & ext1 & H1 & Hch1 & Hfree1 & Hfr1 & Hsd1 & Hr1).
  exists r1, s1, f0, (ext0 ++ ext1). cbn [on_device]. rewrite H1, app_assoc.
  split_and!; [done|done| |by eapply same_data_trans| |done|done|].
  - eapply frame_trans; [|done]. eapply frame_weaken; [|done]. set_solver.
  - apply Forall_app. split; [done|]. by eapply free_before.
  - destruct r1 as [c'|e|]; [|done|done]. destruct Hr1 as (pre & post' & Hl1 & Hlen). split; [|by exists pre, post'].
    rewrite Hl0 in *. done.
Qed.

Lemma write_clusters_spec f l offset buf s :
  ready t n (contents s) -> file_chain t n (contents s) l -> starts (f_entry f) l ->
  0 <= offset -> buf <> [] -> Forall is_byte buf ->
  exists r s' f' ext k, write_clusters bpb po (cluster_size t) offset buf (f, s) = (r, (f', s')) /\
    written t n l (Z.to_nat offset) buf (contents s) r (contents s') ext k /\
    f_key f' = f_key f /\ same_but_cluster (f_entry f) (f_entry f') /\
    (r = Ok tt -> starts (f_entry f') (l ++ ext)).
Proof using HF HF' Hone.
  intros Hready Hch Hst Hoff Hne Hbb. pose proof Hready as (Hv & _). pose proof (size_pos t n _ Hv) as Hcs.
  unfold write_clusters.
  destruct (reach_cluster_spec f l offset s Hready Hch Hst Hoff)
    as (r1 & s1 & f1 & ext1 & H1 & Hch1 & Hfr1 & Hsd1 & Hfree1 & Hk & Hsame & Hr1).
  destruct r1 as [c|e|]; [|destruct Hr1|done]; cycle 1.
  { eexists _, s1, f1, ext1, 0%nat. split; [unfold mbind, st_bind; by rewrite H1|]. split_and!; try done. by apply written_none. }
  rewrite (file_bind _ _ _ _ _ H1).
  rewrite (file_bind (st_lift _) _ (f1, s1) (offset mod cluster_size t) (f1, s1))
    by (unfold st_lift, urem; by rewrite (proj2 (Z.eqb_neq _ _)) by lia).
  destruct Hr1 as (Hst1 & pre & post & Hl1 & Hlen). pose proof (frame_ready t n _ _ _ Hfr1 Hready) as Hready1.
  pose proof (Z.mod_pos_bound offset (cluster_size t) ltac:(lia)). pose proof (Z.div_mod offset (cluster_size t) ltac:(lia)).
  assert (0 <= offset / cluster_size t) by (apply Z.div_pos; lia).
  destruct (file_write_loop_spec t n Hone (length buf + 1) (l ++ ext1) pre c post (offset mod cluster_size t)
    (zeros (cluster_size t)) buf s1) as (r & s2 & ext2 & k & Hloop & Hwr); try done; try lia.
  { apply length_replicate. }
  { by apply Forall_replicate. }
  exists r, s2, f1, (ext1 ++ ext2), k. cbn [on_device]. rewrite Hloop. split_and!; [done| |done|done|].
  - eapply written_after; try done.
    replace (Z.to_nat offset) with (length pre * Z.to_nat (cluster_size t) + Z.to_nat (offset mod cluster_size t))%nat; [done|].
    rewrite Hlen. nia.
  - intros _. rewrite app_assoc. unfold starts in *. rewrite Hl1 in *. destruct pre; done.
Qed.

(** What a call of [write] leaves behind: the chain [l] extended by free clusters [ext], the
    first [k] bytes of [buf] in place, and besides these clusters only the 32 bytes of the
    file's directory entry, at [P], changed. *)
Record write_effect (l : list Z) (P offset : Z) (buf : bytes) (cs cs' : bytes) (ext : list Z) (k : nat) : Prop := {
  we_ready : ready t n cs';
  we_chain : file_chain t n cs' (l ++ ext);
  we_free : Forall (is_free_cluster t cs) ext;
  we_data : chain_data t cs' (l ++ ext) = put (Z.to_nat offset) (take k buf) (chain_data t cs (l ++ ext));
  we_table c : valid n c -> c ∉ l ++ ext -> table t cs' c = table t cs c;
  we_rest i : ~ in_tables t i -> (forall c, c ∈ l ++ ext -> ~ in_cluster t c i) -> ~ P <= Z.of_nat i < P + 32 ->
    cs' !! i = cs !! i;
}.

Lemma written_effect {A} l P offset buf cs (r : outcome FileError A) cs' ext k :
  ready t n cs -> written t n l (Z.to_nat offset) buf cs r cs' ext k -> write_effect l P offset buf cs cs' ext k.
Proof using.
  intros Hready (Hch & Hfree & Hfr & Hdata & _). split; [by eapply frame_ready|done..| |].
  - intros. by apply (fr_table _ _ _ _ _ Hfr).
  - intros. by apply (fr_data _ _ _ _ _ Hfr).
Qed.

(** The directory entry written after the data. *)
Lemma effect_sync l P offset buf cs cs1 ext k key dl bs :
  write_effect l P offset buf cs cs1 ext k -> entry_home t n key dl cs1 P -> (forall c, c ∈ dl -> c ∉ l ++ ext) ->
  length bs = 32%nat -> Forall is_byte bs -> write_effect l P offset buf cs (put (Z.to_nat P) bs cs1) ext k.
Proof using.
  intros [] Hhome Hd Hl Hb.
  destruct (put_home t n key dl cs1 P bs we_ready0 Hhome Hl Hb) as (Hready & Hlen & _ & Ht & Hcd & Hi).
  destruct we_chain0 as (Hc & Hval & Hnd). split; [done| |done| | |].
  - split_and!; [|done..]. apply (is_chain_ext t (table t cs1)); [|done]. intros; apply Ht.
  - rewrite <-we_data0. apply chain_data_ext. intros c Hc'. rewrite Forall_forall in Hval. apply Hcd; [by apply Hval|].
    intros Hc2. by apply (Hd c).
  - intros. rewrite Ht. auto.
  - intros. rewrite Hi by done. auto.
Qed.

Lemma home_not_free key dl cs P c :
  ready t n cs -> entry_home t n key dl cs P -> c ∈ dl -> ~ is_free_cluster t cs c.
Proof using.
  intros (Hv & _) [_ Hhome] Hc. destruct (_ && _).
  - destruct Hhome as (-> & _). by apply not_elem_of_nil in Hc.
  - destruct Hhome as (Hch & _). by eapply chain_not_free.
Qed.

Lemma grow_to_spec f dl P c s :
  ready t n (contents s) -> entry_home t n (f_key f) dl (contents s) P ->
  length (fde_name (f_entry f)) = 11%nat -> 0 <= c < 2 ^ 32 ->
  exists f' s', grow_to bpb (ft_type t) po c (f, s) = (Ok tt, (f', s')) /\ f_key f' = f_key f /\
    first_cluster (f_entry f') = first_cluster (f_entry f) /\ fde_name (f_entry f') = fde_name (f_entry f) /\
    fde_file_size (f_entry f') = Z.max (fde_file_size (f_entry f)) c /\
    contents s' = if fde_file_size (f_entry f) <? c
                  then put (Z.to_nat P) (FatDirEntry_serialize (f_entry f')) (contents s) else contents s.
Proof using HF HF'.
  intros Hready Hhome Hname Hc. unfold grow_to. rewrite (file_bind self _ (f, s) f (f, s)) by done.
  destruct (Z.ltb_spec (fde_file_size (f_entry f)) c).
  - set (f1 := mkFile (set_file_size (f_entry f) (wrap 32 c)) (f_cursor f) (f_key f)).
    rewrite (file_bind (set_f_entry _) _ (f, s) tt (f1, s)) by done.
    destruct (sync_entry_spec f1 dl P s) as (s' & Hs & Hcs); [done..|].
    exists f1, s'. unfold sync_self. rewrite (file_bind self _ (f1, s) f1 (f1, s)) by done. cbn [on_device]. rewrite Hs.
    split_and!; try done. cbn. rewrite wrap_small by (unfold is_u; lia). lia.
  - exists f, s. split_and!; try done. lia.
Qed.

(** C32: Writing [buf] at [offset] of a file, on a volume no table entry of which lies in two
    sectors (FAT16 and FAT32 always; FAT12 only in such cases, as [set_fat_entry] cuts the other
    entries, [FatTable.spanning_entry_loses_its_end]).  The call returns; when it succeeds the
    file's chain has been extended by free clusters as far as needed, the bytes of the chain are
    those before with [buf] at [offset], the file's size has grown to the end of [buf] and the
    directory entry on the device records the new size and first cluster.  It fails only
    when no cluster is free any more.  In both cases the other entries of the table, the other
    clusters and everything else on the device are as they were. *)
Theorem fat_file_write f l dl P offset buf s :
  ready t n (contents s) -> file_chain t n (contents s) l -> starts (f_entry f) l ->
  entry_home t n (f_key f) dl (contents s) P -> (forall c, c ∈ dl -> c ∉ l) ->
  length (fde_name (f_entry f)) = 11%nat -> Forall is_byte (fde_name (f_entry f)) ->
  buf <> [] -> Forall is_byte buf -> 0 <= offset -> offset + Z.of_nat (length buf) < 2 ^ 32 ->
  exists r s' f' ext k, file_write bpb (ft_type t) po offset buf (f, s) = (r, (f', s')) /\
    write_effect l P offset buf (contents s) (contents s') ext k /\ f_key f' = f_key f /\
    match r with
    | Ok m => m = Z.of_nat (length buf) /\ k = length buf /\ starts (f_entry f') (l ++ ext) /\
        fde_file_size (f_entry f') = Z.max (fde_file_size (f_entry f)) (offset + Z.of_nat (length buf)) /\
        offset + Z.of_nat (length buf) <= Z.of_nat (length (chain_data t (contents s') (l ++ ext))) /\
        (fde_file_size (f_entry f) < offset + Z.of_nat (length buf) ->
         sub_bytes (Z.to_nat P) 32 (contents s') = FatDirEntry_serialize (f_entry f'))
    | Err e => e = Other "No free clusters" /\ no_free t n (contents s')
    | Panic => False
    end.
Proof using HF HF' Hone.
  intros Hready Hch Hst Hhome Hdl Hname Hnb Hne Hbb Hoff Hsz. pose proof Hready as (Hv & _).
  set (f0 := mkFile (f_entry f) offset (f_key f)). set (e := offset + Z.of_nat (length buf)) in *.
  destruct (write_clusters_spec f0 l offset buf s) as (r1 & s1 & f1 & ext & k & H1 & Hw & Hk1 & (Hn1 & Ha1 & Hs1) & Hst1); [done..|].
  unfold file_write. rewrite (file_bind (set_f_cursor offset) _ (f, s) tt (f0, s)) by done.
  rewrite (proj2 (Nat.eqb_neq _ _)) by (by destruct buf).
  rewrite (file_bind (st_lift _) _ (f0, s) (cluster_size t) (f0, s)) by (unfold st_lift; by rewrite (bytes_per_cluster_eq t n _ Hv)).
  pose proof (written_effect l P offset buf _ _ _ _ _ Hready Hw) as Heff. pose proof Hw as (Wch & Wfree & Wfr & Wdata & Wk & Wpos & Wr).
  destruct r1 as [[]|er|]; [|destruct Wr|done]; cycle 1.
  { eexists _, s1, f1, ext, k. split; [unfold mbind, st_bind; by rewrite H1|]. done. }
  rewrite (file_bind _ _ _ _ _ H1). subst k. specialize (Hst1 eq_refl).
  rewrite (file_bind (st_lift _) _ (f1, s1) e (f1, s1)) by (unfold st_lift; rewrite uadd_eq by (fold e; lia); done).
  rewrite (file_bind (set_f_cursor e) _ (f1, s1) tt (mkFile (f_entry f1) e (f_key f1), s1)) by done.
  assert (forall c, c ∈ dl -> c ∉ l ++ ext) as Hdl'.
  { intros c Hc [Hc'|Hc']%elem_of_app; [by eapply Hdl|]. rewrite Forall_forall in Wfree. by eapply home_not_free; [..|apply Wfree]. }
  assert (entry_home t n (f_key f1) dl (contents s1) P) as Hhome1 by (rewrite Hk1; by eapply home_frame).
  pose proof (frame_ready t n _ _ _ Wfr Hready) as Hready1.
  destruct (grow_to_spec (mkFile (f_entry f1) e (f_key f1)) dl P e s1) as (f2 & s2 & Hg & Hk2 & Hc2 & Hn2 & Hs2 & Hcs);
    [done|done|by cbn; rewrite Hn1|lia|]. rewrite (file_bind _ _ _ _ _ Hg). cbn [f_entry f_key] in *.
  cbn [f_entry f_key f0] in Hs1, Hn1, Hk1. rewrite Hs1 in Hs2, Hcs.
  assert (write_effect l P offset buf (contents s) (contents s2) ext (length buf)) as Heff2.
  { rewrite Hcs. destruct (_ <? e); [|done]. eapply (effect_sync _ _ _ _ _ _ _ _ (f_key f1) dl); [done..|apply serialize_length|apply serialize_bytes];
      by rewrite Hn2, Hn1. }
  eexists _, s2, f2, ext, (length buf). split; [done|]. split_and!; try done; [congruence| | |].
  - unfold starts in *. by destruct (l ++ ext); rewrite Hc2.
  - pose proof (we_ready _ _ _ _ _ _ _ _ Heff2) as (Hv2 & _). pose proof (we_chain _ _ _ _ _ _ _ _ Heff2) as (_ & Hval & _).
    rewrite (chain_data_length t n _ (contents s2)) by done. destruct buf; [done|]. cbn [length] in *. lia.
  - intros Hlt. rewrite Hcs, (proj2 (Z.ltb_lt _ _)) by done.
    apply (put_home t n (f_key f1) dl (contents s1)); [done..|apply serialize_length|apply serialize_bytes]; by rewrite Hn2, Hn1.
Qed.
End FileOps.

(** ** A file on a small volume *)
Lemma small_volume : volume_ok (small_table 10) 4 5120.
Proof.
  split; [exact small_layout|vm_compute; reflexivity|vm_compute; reflexivity|vm_compute; intuition congruence..| |].
  - exact small_entries.
  - intros c Hc. unfold valid in Hc. apply Z.leb_gt. cbn. lia.
Qed.
Lemma small_one_sector c : valid 4 c -> in_one_sector (small_table 10) c.
Proof.
  intros Hc _. unfold valid in Hc. change (bytes_per_sector _) with 512. cbn [entry_pos].
  pose proof (Z.div_lt c 2). pose proof (Z.div_pos c 2). rewrite Z.mod_small; lia.
Qed.
Lemma small_ready : ready (small_table 10) 4 (contents (small_disk 10 used_0_2)).
Proof. split_and!; [exact small_volume|exact small_bytes|exact small_sync]. Qed.

(** The file has cluster 2, its entry is the first of the root directory. *)
Definition small_file : FatFile := mkFile (new_entry (replicate 11 65) 0x20 2) 0 (mkKey 0 0 true).
Definition small_file_3 : FatFile := mkFile (set_file_size (f_entry small_file) 3) 0 (mkKey 0 0 true).
Lemma small_chain : file_chain (small_table 10) 4 (contents (small_disk 10 used_0_2)) [2].
Proof. split_and!; [by vm_compute|by apply Forall_singleton|apply NoDup_singleton]. Qed.

Lemma fat_file_read_witness :
  (file_read (small_bpb 10) 0 1 [7; 7; 7] (small_file_3, small_disk 10 used_0_2)).1 = Ok (2, [0; 0; 7]).
Proof.
  destruct (fat_file_read (small_table 10) 4 small_file_3 [2] 1 [7; 7; 7] (small_disk 10 used_0_2)) as (s' & f' & H & _).
  - exact small_volume.
  - exact small_bytes.
  - exact small_chain.
  - reflexivity.
  - vm_compute. split; congruence.
  - lia.
  - vm_compute. congruence.
  - change (small_bpb 10) with (ft_bpb (small_table 10)). change 0 with (partition_offset (small_table 10)) at 1.
    rewrite H. vm_compute. reflexivity.
Defined.

Lemma fat_file_write_witness :
  exists s' f' ext, file_write (small_bpb 10) Fat12 0 510 [1; 2; 3; 4] (small_file, small_disk 10 used_0_2) =
      (Ok 4, (f', s')) /\ fde_file_size (f_entry f') = 514 /\
    write_effect (small_table 10) 4 [2] 2560 510 [1; 2; 3; 4] (contents (small_disk 10 used_0_2)) (contents s') ext 4.
Proof.
  destruct (fat_file_write (small_table 10) 4 small_one_sector small_file [2] [] 2560 510 [1; 2; 3; 4] (small_disk 10 used_0_2))
    as (r & s' & f' & ext & k & H & He & _ & Hr).
  - exact small_ready.
  - exact small_chain.
  - reflexivity.
  - split; [cbn; lia|]. vm_compute. done.
  - intros c Hc. by apply not_elem_of_nil in Hc.
  - reflexivity.
  - by apply Forall_replicate.
  - done.
  - by repeat (constructor; [done|]).
  - lia.
  - cbn. lia.
  - assert (r = Ok 4) as ->.
    { assert ((file_write (small_bpb 10) Fat12 0 510 [1; 2; 3; 4] (small_file, small_disk 10 used_0_2)).1 = Ok 4)
        as Hok by (vm_compute; reflexivity).
      change (small_bpb 10) with (ft_bpb (small_table 10)) in Hok.
      change (file_write _ _ _ _ _ _) with (file_write (ft_bpb (small_table 10)) (ft_type (small_table 10)) (partition_offset (small_table 10)) 510 [1; 2; 3; 4] (small_file, small_disk 10 used_0_2)) in Hok.
      rewrite H in Hok. exact Hok. }
    destruct Hr as (_ & -> & _ & Hs & _). exists s', f', ext. split; [exact H|]. split; [exact Hs|exact He].
Defined.
