(* ===== verification/FatDir.v ===== *)
(** * Directories of a FAT volume

    Creating, finding and removing entries of the fixed root directory, against the
    directory as a sequence of 32-byte slots. *)
From S2P Require Import Prelude OpenFile Bytes BlockDev Fat FatTable FatFs FatData.

(** ** Slots *)
Section Slots.
Implicit Types (buf : bytes) (cs : list bytes).

Definition slots (buf : bytes) (k : nat) : Prop := length buf = (32 * k)%nat.

Lemma chunks_length buf k : slots buf k -> length (chunks FDE_SIZE buf) = k.
Proof.
  intros Hk. unfold chunks. rewrite length_fmap, length_seq, Hk. unfold FDE_SIZE.
  symmetry. apply (Nat.div_unique _ 32 k 31); lia.
Qed.
Lemma lookup_chunks buf k i : slots buf k -> (i < k)%nat -> chunks FDE_SIZE buf !! i = Some (sub_bytes (32 * i) 32 buf).
Proof.
  intros Hk Hi. pose proof (chunks_length buf k Hk) as Hl. unfold chunks in *.
  rewrite length_fmap, length_seq in Hl. rewrite list_lookup_fmap, lookup_seq_lt by lia. done.
Qed.

Lemma chunks_put buf k i bs :
  slots buf k -> (i < k)%nat -> length bs = 32%nat ->
  chunks FDE_SIZE (put (32 * i) bs buf) = <[i := bs]> (chunks FDE_SIZE buf).
Proof.
  intros Hk Hi Hb. assert (slots (put (32 * i) bs buf) k) as Hk' by (unfold slots in *; rewrite length_put; lia).
  pose proof (chunks_length _ _ Hk) as L. pose proof (chunks_length _ _ Hk') as L'.
  unfold slots in Hk. apply list_eq. intros j. destruct (decide (j < k)%nat) as [Hj|Hj].
  - rewrite (lookup_chunks _ k) by done. destruct (decide (j = i)) as [->|Hne].
    + rewrite list_lookup_insert_eq by lia. f_equal.
      pose proof (sub_bytes_put_same (32 * i) bs buf) as Hsame. rewrite Hb in Hsame. apply Hsame. lia.
    + rewrite list_lookup_insert_ne by done. rewrite (lookup_chunks _ k) by done. f_equal.
      apply sub_bytes_put_away; lia.
  - rewrite !lookup_ge_None_2; [done|rewrite length_insert; lia|lia].
Qed.

Lemma chunk_size buf k c : slots buf k -> c ∈ chunks FDE_SIZE buf -> length c = 32%nat.
Proof.
  intros Hk [i Hi]%list_elem_of_lookup. pose proof (chunks_length buf k Hk) as Hl.
  assert (i < k)%nat by (apply lookup_lt_Some in Hi; lia). rewrite (lookup_chunks _ k) in Hi by done.
  injection Hi as <-. apply sub_bytes_length. unfold slots in Hk. lia.
Qed.

(** The entry a chunk shows, if any. *)
Definition shown (c : bytes) (i : Z) : list (FatDirEntry * Z) :=
  match @FatDirEntry_parse FileError c with
  | Ok (Some e) => if negb (is_long_name e) && negb (is_volume_id e) then [(e, i)] else []
  | _ => []
  end.

Lemma parse_total c : length c = 32%nat -> exists e, @FatDirEntry_parse FileError c = Ok e.
Proof.
  intros Hc. unfold FatDirEntry_parse. rewrite Hc. change (Nat.ltb 32 FDE_SIZE) with false. cbv iota.
  rewrite slice_Ok, !get_le_Ok by lia. cbn [mbind outcome_bind]. destruct (_ =? 0); [eauto|]. destruct (_ =? _); eauto.
Qed.

Lemma scan_cons c cs i :
  length c = 32%nat -> Forall (fun c => length c = 32%nat) cs ->
  exists es nx, scan_chunks cs (i + 1) = Ok (es, nx) /\
    scan_chunks (c :: cs) i = if from_le (sub_bytes 0 1 c) =? 0 then Ok ([], None) else Ok (shown c i ++ es, nx).
Proof.
  intros Hc Hcs. assert (exists es nx, scan_chunks cs (i + 1) = Ok (es, nx)) as (es & nx & Hs).
  { clear c Hc. revert i. induction Hcs as [|c cs Hc Hcs IH]; intros i; [by eexists _, _|]. cbn [scan_chunks].
    rewrite get_le_Ok by lia. cbn [mbind outcome_bind]. destruct (_ =? 0); [by eexists _, _|].
    destruct (parse_total c Hc) as [e ->]. destruct (IH (i + 1)) as (es & nx & ->). cbn. by eexists _, _. }
  exists es, nx. split; [done|]. cbn [scan_chunks]. rewrite get_le_Ok by lia. cbn [mbind outcome_bind].
  destruct (_ =? 0); [done|]. unfold shown. destruct (parse_total c Hc) as [e ->]. cbn. rewrite Hs. cbn.
  destruct e as [e|]; [|done]. by destruct (negb _ && negb _).
Qed.

Lemma scan_total cs i : Forall (fun c => length c = 32%nat) cs -> exists es nx, scan_chunks cs i = Ok (es, nx).
Proof.
  intros Hcs. destruct (scan_cons (replicate 32 0) cs (i - 1) eq_refl Hcs) as (es & nx & Hs & _).
  replace (i - 1 + 1) with i in Hs by lia. by exists es, nx.
Qed.

(** Chunks in use before the others: their entries come first. *)
Fixpoint shown_all (cs : list bytes) (i : Z) : list (FatDirEntry * Z) :=
  match cs with [] => [] | c :: cs => shown c i ++ shown_all cs (i + 1) end.

Lemma scan_app pre cs i es nx :
  Forall (fun c => length c = 32%nat) (pre ++ cs) -> Forall (fun c => chunk_free c = false) pre ->
  scan_chunks cs (i + Z.of_nat (length pre)) = Ok (es, nx) ->
  scan_chunks (pre ++ cs) i = Ok (shown_all pre i ++ es, nx).
Proof.
  intros Hl Hp Hs. revert i Hl Hs. induction Hp as [|c pre Hc Hp IH]; intros i Hl Hs.
  - cbn in *. by rewrite Z.add_0_r in Hs.
  - cbn [app shown_all] in *. apply Forall_cons in Hl as [Hlc Hl].
    destruct (scan_cons c (pre ++ cs) i Hlc Hl) as (es' & nx' & Hs' & ->).
    rewrite IH in Hs' by (done || rewrite <-Hs; f_equal; cbn [length]; lia). injection Hs' as <- <-.
    destruct c as [|b c]; [done|]. cbn in Hc. apply orb_false_iff in Hc as [Hb%Z.eqb_neq _].
    rewrite (sub_bytes_1 0 _ b), from_le_1, (proj2 (Z.eqb_neq _ _)) by done. by rewrite app_assoc.
Qed.
Lemma find_app {A} (f : A -> bool) l l' :
  List.find f l = None -> List.find f (l ++ l') = List.find f l'.
Proof. induction l as [|x l IH]; cbn; [done|]. by destruct (f x). Qed.
Lemma find_app_None {A} (f : A -> bool) l l' : List.find f (l ++ l') = None -> List.find f l = None.
Proof. induction l as [|x l IH]; cbn; [done|]. by destruct (f x). Qed.

(** An entry put into the first free slot is found, when nothing was found before. *)
Lemma scan_new_entry cs i e (f : FatDirEntry * Z -> bool) es0 nx0 :
  Forall (fun c => length c = 32%nat) cs -> (i < length cs)%nat -> Forall (fun c => chunk_free c = false) (take i cs) ->
  fde_ok e -> is_long_name e = false -> is_volume_id e = false -> f (e, Z.of_nat i) = true ->
  scan_chunks cs 0 = Ok (es0, nx0) -> List.find f es0 = None ->
  exists es nx, scan_chunks (<[i := FatDirEntry_serialize e]> cs) 0 = Ok (es, nx) /\ List.find f es = Some (e, Z.of_nat i).
Proof.
  intros Hall Hi Hpre Hok Hln Hvi Hf Hscan0 Hnone. pose proof (fde_ok_name _ Hok) as Hname.
  pose proof (serialize_length _ Hname) as Hser. assert (length (take i cs) = i) as Hti by (rewrite length_take; lia).
  assert (Forall (fun c => length c = 32%nat) (take i cs) /\ Forall (fun c => length c = 32%nat) (drop (S i) cs)) as [Ht Hd]
    by (split; [by apply Forall_take|by apply Forall_drop]).
  (* before: the entries of the slots in use in front do not match *)
  destruct (scan_total (drop i cs) (Z.of_nat i)) as (es & nx & Hes); [by apply Forall_drop|].
  rewrite <-(take_drop i cs) in Hscan0. rewrite (scan_app _ _ 0 es nx) in Hscan0; [|by rewrite take_drop|done|by rewrite Hti].
  injection Hscan0 as <- <-. apply find_app_None in Hnone.
  (* after: the new entry comes right behind them *)
  destruct (scan_cons (FatDirEntry_serialize e) (drop (S i) cs) (Z.of_nat i) Hser Hd) as (es' & nx' & _ & Hes').
  destruct (fde_ok_live _ Hok) as (b & Hb0 & Hb1 & _).
  assert (FatDirEntry_serialize e !! 0%nat = Some b) as Hb0'.
  { unfold FatDirEntry_serialize. rewrite lookup_app_l by lia. done. }
  rewrite (sub_bytes_1 0 _ b Hb0'), from_le_1, (proj2 (Z.eqb_neq b 0)) in Hes' by done.
  rewrite insert_take_drop by done. eexists _, _. split.
  { apply scan_app; [by apply Forall_app; split; [|constructor]|done|]. rewrite Hti. exact Hes'. }
  rewrite find_app by done. unfold shown. rewrite parse_serialize by done. rewrite Hln, Hvi. cbn. by rewrite Hf.
Qed.
End Slots.

(** ** Giving back a chain *)
Section FreeChain.
Context {D : Type} `{HB : BlockDevice D} {HL : BlockDeviceLaws D}.
Context (t : FatTable) (n : Z) {HF : FullReads D (Z.to_nat (bytes_per_sector (ft_bpb t)))}.
Context (Hone : forall c, valid n c -> in_one_sector t c).
Implicit Type s : D.

Lemma free_chain_spec fl l c s :
  ready t n (contents s) -> file_chain t n (contents s) l -> head l = Some c -> (length l <= fl)%nat ->
  exists s', free_chain fl t c s = (Ok tt, s') /\ frame t n l (contents s) (contents s') /\
    same_data t (contents s) (contents s') /\ Forall (is_free_cluster t (contents s')) l.
Proof using HF Hone.
  revert l c s. induction fl as [|fl IH]; intros [|c0 l] c s Hready Hch Hh Hfl; try done; [cbn in Hfl; lia|].
  injection Hh as ->. pose proof Hready as (Hv & Hb & Hs). pose proof Hch as (Hc & Hval & Hnd). cbn [free_chain].
  apply Forall_cons in Hval as [Hvc Hval]. apply NoDup_cons in Hnd as [Hni Hnd].
  destruct (read_table t n c s Hv Hb Hvc) as (s1 & Hr & Hc1). rewrite (st_bind_eq _ _ _ _ _ Hr).
  destruct (write_entry_spec t c 0 s1) as (s2 & Hw & He); rewrite ?Hc1; [apply Hv|by apply Hv|by apply Hone|done..|].
  rewrite (st_bind_eq _ _ _ _ _ Hw). assert (forall ft, 2 ^ entry_bits ft <> 0) as Hpow by (by intros []).
  rewrite Hc1, Z.mod_0_l in He by done.
  pose proof (entry_written_frame t n _ _ _ _ _ Hv He) as Hfr.
  pose proof (entry_written_same_data t _ _ _ _ _ (vol_layout _ _ _ Hv) He) as Hsd.
  assert (table t (contents s2) c = 0) as Ht.
  { destruct He as (_ & _ & _ & Ht & _). rewrite Ht by (by apply Hv). by rewrite decide_True. }
  destruct l as [|c1 l].
  - destruct Hc as [-> _]. exists s2. split_and!; try done. by apply Forall_singleton.
  - destruct Hc as [-> Hc]. pose proof Hval as Hval'. apply Forall_cons in Hval' as [Hv1 _]. rewrite (vol_eoc _ _ _ Hv c1 Hv1).
    assert (file_chain t n (contents s2) (c1 :: l)) as Hch2.
    { split_and!; [|done..]. apply (is_chain_ext t (table t (contents s))); [|done]. intros x Hx.
      rewrite Forall_forall in Hval. apply (fr_table _ _ _ _ _ Hfr); [by apply Hval|set_solver]. }
    destruct (IH (c1 :: l) c1 s2) as (s3 & -> & Hfr3 & Hsd3 & Hfree); [by eapply frame_ready|done|done|cbn in *; lia|].
    exists s3. split_and!; [done| |by eapply same_data_trans|].
    + eapply frame_trans; (eapply frame_weaken; [|done]); set_solver.
    + constructor; [|done]. unfold is_free_cluster. by rewrite (fr_table _ _ _ _ _ Hfr3).
Qed.
End FreeChain.

(** ** The fixed root directory *)
Section Root.
Context {D : Type} `{HB : BlockDevice D} {HL : BlockDeviceLaws D}.
Context (t : FatTable) (n : Z).
Abbreviation bpb := (ft_bpb t).
Abbreviation po := (partition_offset t).
Context {HF : FullReads D (Z.to_nat (bytes_per_sector bpb))} {HF' : FullReads D (Z.to_nat (cluster_size t))}.
Context {HR : FullReads D (Z.to_nat (root_dir_size bpb))}.
Context (Hnot32 : ft_type t <> Fat32) (upper : Z -> list Z) (fuel : nat).
Implicit Type s : D.

Definition root : FatDirectory := mkDir 0 true.
Definition root_bytes (cs : bytes) : bytes := sub_bytes (Z.to_nat (root_pos t)) (Z.to_nat (root_dir_size bpb)) cs.
Definition root_slots : nat := Z.to_nat (root_entry_count bpb).

Lemma fixed_root_true : true && negb (bool_decide (ft_type t = Fat32)) = true.
Proof using Hnot32. by rewrite bool_decide_false. Qed.

Lemma root_bytes_slots cs : volume_ok t n (length cs) -> slots (root_bytes cs) root_slots.
Proof using.
  intros Hv. pose proof (root_bounds t n _ Hv) as (_ & ? & ? & ?). pose proof (vol_root _ _ _ Hv).
  unfold slots, root_bytes, root_slots, root_dir_size in *. rewrite sub_bytes_length; lia.
Qed.

Lemma root_dir_offset_eq len : volume_ok t n len -> root_dir_offset bpb po = Ok (root_pos t).
Proof using.
  intros Hv. pose proof (root_bounds t n _ Hv) as (_ & ? & ? & ?). pose proof (vol_layout _ _ _ Hv) as [].
  unfold root_dir_offset, root_dir_sector, root_pos in *.
  assert (0 <= num_fats bpb * fat_size bpb) by (apply Z.mul_nonneg_nonneg; lia).
  set (F := num_fats bpb * fat_size bpb) in *.
  assert (0 <= (reserved_sector_count bpb + F) * bytes_per_sector bpb) by (apply Z.mul_nonneg_nonneg; lia).
  rewrite (umul_eq _ (num_fats bpb)) by (fold F; lia). fold F. cbn. rewrite (uadd_eq _ (reserved_sector_count _)) by lia. cbn.
  rewrite (umul_eq _ (_ + F)) by lia. cbn. by rewrite uadd_eq by lia.
Qed.

(** Reading the whole directory. *)
Lemma read_root s :
  volume_ok t n (length (contents s)) ->
  exists p s1 s2, seek_to (root_pos t) s = (Ok p, s1) /\
    dev_read (zeros (root_dir_size bpb)) s1 = (Ok (root_bytes (contents s)), s2) /\ contents s2 = contents s.
Proof using HR.
  intros Hv. pose proof (root_bounds t n _ Hv) as (_ & ? & ? & ?). pose proof (vol_root _ _ _ Hv).
  destruct (seek_start (root_pos t) s ltac:(lia)) as (s1 & Hseek & Hc1 & Hp1 & _).
  destruct (full_read (zeros (root_dir_size bpb)) s1) as (s2 & Hread & Hc2);
    [apply length_replicate|lia|rewrite Hc1; unfold root_dir_size; lia|].
  eexists _, s1, s2. unfold seek_to, dev_read, st_map_err, mbind, st_bind, mret, st_ret. rewrite Hseek, Hread. cbn.
  rewrite Hc1, Hp1. split_and!; [done..|congruence].
Qed.

Definition matches (name : list Z) : FatDirEntry * Z -> bool := fun '(entry, _) =>
  bool_decide (to_uppercase upper (short_name entry) = to_uppercase upper name).

Lemma find_entry_root name s :
  volume_ok t n (length (contents s)) ->
  exists s' es nx, scan_chunks (chunks FDE_SIZE (root_bytes (contents s))) 0 = Ok (es, nx) /\
    find_entry fuel upper bpb (ft_type t) po root name s = (Ok (List.find (matches name) es), s') /\ contents s' = contents s.
Proof using HR Hnot32.
  intros Hv. destruct (read_root s Hv) as (p & s1 & s' & Hsk & Hr & Hc). pose proof (root_bytes_slots _ Hv) as Hsl.
  destruct (scan_total (chunks FDE_SIZE (root_bytes (contents s))) 0) as (es & nx & Hs).
  { apply Forall_forall. intros c. by apply chunk_size with root_slots. }
  exists s', es, nx. split; [done|]. split; [|done].
  unfold find_entry, read_entries. cbn [d_is_root root]. rewrite fixed_root_true.
  erewrite st_bind_eq; [reflexivity|]. rewrite (st_lift_bind _ _ _ _ (root_dir_offset_eq _ Hv)).
  rewrite (st_bind_eq _ _ _ _ _ Hsk), (st_bind_eq _ _ _ _ _ Hr). unfold st_lift, mbind, st_bind. by rewrite Hs.
Qed.

Lemma slot_position cs i :
  volume_ok t n (length cs) -> find_slot (root_bytes cs) = Some i ->
  (i < root_slots)%nat /\ Forall (fun c => chunk_free c = false) (take i (chunks FDE_SIZE (root_bytes cs))).
Proof using.
  intros Hv Hi. pose proof (chunks_length _ _ (root_bytes_slots _ Hv)) as Hl.
  apply position_Some in Hi as [(x & Hx & _) Hlt]. apply lookup_lt_Some in Hx. split; [lia|].
  apply Forall_lookup. intros j y Hy. assert (j < i)%nat by (apply lookup_lt_Some in Hy; rewrite length_take in Hy; lia).
  rewrite lookup_take_lt in Hy by done. by eapply Hlt.
Qed.

Lemma create_root name i s :
  volume_ok t n (length (contents s)) -> find_slot (root_bytes (contents s)) = Some i ->
  let e := new_entry (name_to_8_3 upper name) ATTR_ARCHIVE 0 in length (fde_name e) = 11%nat ->
  exists s1, create_entry fuel upper bpb (ft_type t) po root name false s = (Ok e, s1) /\
    contents s1 = put (Z.to_nat (root_pos t) + 32 * i) (FatDirEntry_serialize e) (contents s).
Proof using HR Hnot32.
  intros Hv Hslot e Hname. pose proof (serialize_length _ Hname) as Hser. pose proof (slot_position _ _ Hv Hslot) as [Hi _].
  pose proof (root_bytes_slots _ Hv) as Hsl. unfold slots in Hsl. pose proof (root_bounds t n _ Hv) as (_ & ? & ? & ?).
  unfold create_entry, new_dir_cluster. rewrite (st_bind_eq _ _ s 0 s) by done. cbn [d_is_root root].
  rewrite fixed_root_true. fold (new_entry (name_to_8_3 upper name) ATTR_ARCHIVE 0). fold e.
  rewrite (st_lift_bind _ _ _ _ (root_dir_offset_eq _ Hv)). destruct (read_root s Hv) as (p & s0 & s1 & Hsk & Hr & Hc1).
  rewrite (st_bind_eq _ _ _ _ _ Hsk), (st_bind_eq _ _ _ _ _ Hr), Hslot.
  rewrite (st_lift_bind _ _ _ (put (FDE_SIZE * i) (FatDirEntry_serialize e) (root_bytes (contents s))))
    by (apply put_slice_put; unfold FDE_SIZE; lia).
  set (buf := put _ _ _). assert (length buf = (32 * root_slots)%nat) as Hbl by (unfold buf; rewrite length_put by (unfold FDE_SIZE; lia); done).
  pose proof (vol_root _ _ _ Hv). unfold root_slots in Hbl. destruct (write_at (root_pos t) buf s1) as (p' & q & s2 & s3 & Hsk' & Hw & Hc2); [lia|rewrite Hc1; lia|].
  rewrite (st_bind_eq _ _ _ _ _ Hsk'), (st_bind_eq _ _ _ _ _ Hw). exists s3. split; [done|].
  rewrite Hc2, Hc1. unfold buf, root_bytes. apply put_put_in; unfold root_slots in Hi; unfold FDE_SIZE, root_dir_size; lia.
Qed.

Lemma root_after_put i bs cs :
  volume_ok t n (length cs) -> (i < root_slots)%nat -> length bs = 32%nat ->
  root_bytes (put (Z.to_nat (root_pos t) + 32 * i) bs cs) = put (32 * i) bs (root_bytes cs).
Proof using.
  intros Hv Hi Hb. pose proof (root_bounds t n _ Hv) as (_ & ? & ? & ?). unfold root_slots in Hi. unfold root_bytes, root_dir_size.
  rewrite sub_bytes_put_in by lia. f_equal. lia.
Qed.

(** Creating a file in the fixed root directory.  When no entry has the name and a slot
    is free, [create_entry] succeeds; the only bytes of the device that change are those of
    the first free slot, and looking the name up then finds the new entry there. *)
Theorem fat_create_then_find base ext i s s0 :
  ready t n (contents s) -> (1 <= length base <= 8)%nat -> (length ext <= 3)%nat ->
  Forall (fun c => plain c = true) base -> Forall (fun c => plain c = true) ext ->
  find_entry fuel upper bpb (ft_type t) po root (name_83 base ext) s = (Ok None, s0) ->
  find_slot (root_bytes (contents s)) = Some i ->
  exists e s1 s2, create_entry fuel upper bpb (ft_type t) po root (name_83 base ext) false s = (Ok e, s1) /\
    contents s1 = put (Z.to_nat (root_pos t) + 32 * i) (FatDirEntry_serialize e) (contents s) /\
    find_entry fuel upper bpb (ft_type t) po root (name_83 base ext) s1 = (Ok (Some (e, Z.of_nat i)), s2) /\
    short_name e = name_83 base ext /\ is_directory e = false /\ first_cluster e = 0 /\ fde_file_size e = 0.
Proof using HR Hnot32.
  intros Hready Hb He Pb Pe Hnone Hslot. pose proof Hready as (Hv & _).
  set (e := new_entry (name_to_8_3 upper (name_83 base ext)) ATTR_ARCHIVE 0).
  assert (fde_ok e) as Hok by (by apply new_entry_ok). pose proof (fde_ok_name _ Hok) as Hname.
  assert (short_name e = name_83 base ext) as Hshort by (by eapply short_name_83; try done; lia).
  pose proof (serialize_length _ Hname) as Hser. pose proof (slot_position _ _ Hv Hslot) as [Hi Hpre].
  destruct (create_root (name_83 base ext) i s Hv Hslot Hname) as (s1 & Hcr & Hc1). fold e in Hcr, Hc1.
  pose proof (root_bytes_slots _ Hv) as Hsl. pose proof (chunks_length _ _ Hsl) as Hcl.
  set (cs := chunks FDE_SIZE (root_bytes (contents s))) in *.
  assert (length (contents s1) = length (contents s)) as Hlen.
  { rewrite Hc1. apply length_put. pose proof (root_bounds t n _ Hv) as (_ & ? & ? & ?). pose proof (vol_root _ _ _ Hv).
    unfold root_slots in Hi. lia. }
  assert (chunks FDE_SIZE (root_bytes (contents s1)) = <[i := FatDirEntry_serialize e]> cs) as Hcs1.
  { rewrite Hc1, root_after_put by done. by rewrite (chunks_put _ root_slots) by done. }
  destruct (find_entry_root (name_83 base ext) s Hv) as (s' & es0 & nx0 & Hscan0 & Hfind0 & _).
  destruct (find_entry_root (name_83 base ext) s1) as (s2 & es1 & nx1 & Hscan1 & Hfind1 & _); [by rewrite Hlen|].
  rewrite Hnone in Hfind0. injection Hfind0 as Hno _.
  destruct (scan_new_entry cs i e (matches (name_83 base ext)) es0 nx0) as (es & nx & Hscan & Hfind); try done; [|lia| |].
  { apply Forall_forall. intros c. by apply chunk_size with root_slots. }
  { unfold matches. by rewrite bool_decide_true by (by rewrite Hshort). }
  rewrite Hcs1, Hscan in Hscan1. injection Hscan1 as <- <-.
  exists e, s1, s2. rewrite Hfind1, Hfind. split_and!; [done..|by apply first_set_cluster|done].
Qed.

(** *** Removing a file *)
Context (Hone : forall c, valid n c -> in_one_sector t c) {H32 : FullReads D 32}.

Lemma mark_deleted_root i s :
  volume_ok t n (length (contents s)) -> 0 <= i < root_entry_count bpb ->
  exists s', mark_deleted bpb (ft_type t) po root i s = (Ok tt, s') /\
    contents s' = put (Z.to_nat (root_pos t + i * 32)) [0xE5] (contents s).
Proof using H32 Hnot32.
  intros Hv Hi. pose proof (root_bounds t n _ Hv) as (_ & ? & ? & ?). set (P := root_pos t + i * 32).
  unfold mark_deleted. cbn [d_is_root root]. rewrite fixed_root_true.
  rewrite (st_lift_bind _ _ _ _ (root_entry_offset_eq t n _ _ Hv Hi)). fold P.
  destruct (seek_start P s ltac:(lia)) as (s1 & Hseek & Hc1 & Hp1 & _).
  destruct (full_read (zeros 32) s1) as (s2 & Hread & Hc2); [done|lia|rewrite Hc1; lia|].
  rewrite (st_bind_eq _ _ s P s1) by (unfold seek_to, st_map_err; by rewrite Hseek).
  rewrite (st_bind_eq _ _ s1 (sub_bytes (Z.to_nat P) 32 (contents s)) s2)
    by (unfold dev_read, st_map_err, mbind, st_bind; rewrite Hread, Hp1, Hc1; done).
  assert (length (sub_bytes (Z.to_nat P) 32 (contents s)) = 32%nat) as Hl by (apply sub_bytes_length; lia).
  rewrite (st_lift_bind _ _ _ (put 0 [0xE5] (sub_bytes (Z.to_nat P) 32 (contents s)))) by (apply put_slice_put; cbn; lia).
  destruct (write_at P (put 0 [0xE5] (sub_bytes (Z.to_nat P) 32 (contents s))) s2) as (p & q & s3 & s4 & Hsk & Hw & Hc4);
    rewrite ?Hc2, ?Hc1, ?length_put by (cbn; lia); [lia..|].
  rewrite (st_bind_eq _ _ _ _ _ Hsk), (st_bind_eq _ _ _ _ _ Hw). exists s4. split; [done|].
  rewrite Hc4, Hc2, Hc1, put_put_in by (cbn; lia). f_equal. lia.
Qed.

(** Removing a file from the fixed root directory gives back every cluster of its chain
    and marks its slot as deleted; no other entry of the table and no other byte of the
    device changes. *)
Theorem fat_unlink_releases name e i l s s0 :
  ready t n (contents s) -> find_entry fuel upper bpb (ft_type t) po root name s = (Ok (Some (e, i)), s0) ->
  is_directory e = false -> file_chain t n (contents s) l -> starts e l -> (length l <= fuel)%nat ->
  0 <= i < root_entry_count bpb ->
  exists s', unlink_entry fuel upper bpb (ft_type t) po root name s = (Ok i, s') /\
    Forall (is_free_cluster t (contents s')) l /\
    (forall c, valid n c -> c ∉ l -> table t (contents s') c = table t (contents s) c) /\
    contents s' !! Z.to_nat (root_pos t + i * 32) = Some 0xE5 /\
    (forall k : nat, ~ in_tables t k -> Z.of_nat k <> root_pos t + i * 32 -> contents s' !! k = contents s !! k).
Proof using HF HR H32 Hnot32 Hone.
  intros Hready Hfind Hdir Hch Hst Hfuel Hi. pose proof Hready as (Hv & _).
  destruct (find_entry_root name s Hv) as (s0' & es & nx & Hsc & Hf & Hc0). rewrite Hfind in Hf. injection Hf as _ Hs0. subst s0'.
  unfold unlink_entry. rewrite (st_bind_eq _ _ _ _ _ Hfind), (st_lift_bind _ _ _ (e, i)) by done. rewrite Hdir.
  pose proof (frame_refl t n l _ Hready) as Hrefl.
  assert (exists s1, (if 2 <=? first_cluster e then fat ← st_lift (FatTable_new bpb po); free_chain fuel fat (first_cluster e)
      else mret tt) s0 = (Ok tt, s1) /\ frame t n l (contents s) (contents s1) /\
      same_data t (contents s) (contents s1) /\ Forall (is_free_cluster t (contents s1)) l) as (s1 & Hrun & Hfr & Hsd & Hfree).
  { destruct l as [|c l]; cbn in Hst.
    - rewrite (proj2 (Z.leb_gt _ _)) by lia. exists s0. rewrite Hc0. done.
    - assert (valid n c) as Hvc by (destruct Hch as (_ & Hval & _); by apply Forall_cons in Hval as [? _]).
      rewrite Hst, (proj2 (Z.leb_le _ _)) by (destruct Hvc; lia). rewrite <-Hc0 in Hv.
      rewrite (st_lift_bind _ _ _ _ (FatTable_new_eq t n _ Hv)), <-Hc0. apply (free_chain_spec t n Hone); rewrite ?Hc0; done. }
  rewrite (st_bind_eq _ _ _ _ _ Hrun). pose proof (fr_length _ _ _ _ _ Hfr) as Hlen.
  destruct (mark_deleted_root i s1) as (s2 & Hm & Hc2); [by rewrite Hlen|done|].
  rewrite (st_bind_eq _ _ _ _ _ Hm). exists s2. split; [done|].
  pose proof (root_bounds t n _ Hv) as (Hfs & ? & ? & ?). set (P := root_pos t + i * 32) in *.
  assert (forall c, table t (contents s2) c = table t (contents s1) c) as Ht.
  { intros c. unfold table. rewrite Hc2, put_after_tables; [done|rewrite Hlen; apply Hv|lia|cbn; lia|].
    pose proof (lay_fats _ _ (vol_layout _ _ _ Hv)). lia. }
  assert (forall k : nat, contents s2 !! k = if decide (Z.of_nat k = P) then Some 0xE5 else contents s1 !! k) as Hk.
  { intros k. rewrite Hc2, lookup_put by (cbn; lia). cbn [length]. destruct (decide _), (decide _); try lia; [|done].
    by replace (k - Z.to_nat P)%nat with 0%nat by lia. }
  split_and!.
  - eapply Forall_impl; [exact Hfree|]. intros c Hc. unfold is_free_cluster in *. by rewrite Ht.
  - intros c Hc Hni. rewrite Ht. by apply (fr_table _ _ _ _ _ Hfr).
  - rewrite Hk. by rewrite decide_True by lia.
  - intros k Hk1 Hk2. rewrite Hk, decide_False by done. by apply Hsd.
Qed.
End Root.

(** "A.T" in the empty root directory of the small volume. *)
Lemma fat_create_then_find_witness :
  exists e s1 s2,
    create_entry 10 (fun c => [c]) (small_bpb 10) Fat12 0 root [65; DOT; 84] false (small_disk 10 used_0_2) = (Ok e, s1) /\
    find_entry 10 (fun c => [c]) (small_bpb 10) Fat12 0 root [65; DOT; 84] s1 = (Ok (Some (e, 0)), s2).
Proof.
  destruct (fat_create_then_find (small_table 10) 4 ltac:(done) (fun c => [c]) 10 [65] [84] 0 (small_disk 10 used_0_2)
    (find_entry 10 (fun c => [c]) (small_bpb 10) Fat12 0 root [65; DOT; 84] (small_disk 10 used_0_2)).2)
    as (e & s1 & s2 & H1 & _ & H2 & _).
  - exact small_ready.
  - cbn. lia.
  - cbn. lia.
  - by constructor.
  - by constructor.
  - vm_compute. reflexivity.
  - vm_compute. reflexivity.
  - exists e, s1, s2. split; [exact H1|exact H2].
Defined.

(** A name that does not fit the 8.3 form is created and then not found. *)
Example long_name_created_then_lost :
  let name := [76; 79; 78; 71; 70; 73; 76; 69; 78; 65; 77; 69] in
  let '(r, s) := create_entry 10 (fun c => [c]) (small_bpb 10) Fat12 0 root name false (small_disk 10 used_0_2) in
  is_Some (match r with Ok e => Some e | _ => None end) /\
  (find_entry 10 (fun c => [c]) (small_bpb 10) Fat12 0 root name s).1 = Ok None.
Proof. vm_compute. split; [by eexists|done]. Qed.

(** The small volume with the file "A.T" of one cluster. *)
Definition a_t : FatDirEntry := new_entry (name_to_8_3 (fun c => [c]) [65; DOT; 84]) ATTR_ARCHIVE 2.
Definition one_file_disk : MemDisk :=
  mkMemDisk (put 2560 (FatDirEntry_serialize a_t) (md_bytes (small_disk 10 used_0_2))) 0.
Lemma one_file_ready : ready (small_table 10) 4 (contents one_file_disk).
Proof.
  split_and!.
  - replace (length (contents one_file_disk)) with 5120%nat by (vm_compute; reflexivity). exact small_volume.
  - apply put_bytes; [|exact small_bytes]. apply serialize_bytes. vm_compute. repeat (constructor; [split; congruence|]). constructor.
  - intros j Hj. assert (j = 0 \/ j = 1) as [-> | ->] by (cbn in Hj; lia); reflexivity.
Qed.

Lemma fat_unlink_releases_witness :
  exists s', unlink_entry 10 (fun c => [c]) (small_bpb 10) Fat12 0 root [97; DOT; 116] one_file_disk = (Ok 0, s') /\
    table (small_table 10) (contents s') 2 = FAT_FREE.
Proof.
  destruct (fat_unlink_releases (small_table 10) 4 ltac:(done) (fun c => [c]) 10 small_one_sector [97; DOT; 116] a_t 0 [2]
    one_file_disk (find_entry 10 (fun c => [c]) (small_bpb 10) Fat12 0 root [97; DOT; 116] one_file_disk).2)
    as (s' & H1 & H2 & _).
  - exact one_file_ready.
  - vm_compute. reflexivity.
  - reflexivity.
  - split_and!; [by vm_compute|by apply Forall_singleton|apply NoDup_singleton].
  - reflexivity.
  - cbn. lia.
  - cbn. lia.
  - exists s'. split; [exact H1|]. rewrite Forall_singleton in H2. exact H2.
Defined.
