(* ===== verification/Ext2.v ===== *)
(** * On-disk structures of ext2 (zenos-kernel/src/disk/fs/ext2/plumbing.rs)

    The superblock, the block group descriptors, the inodes and the directory entries,
    with their parsers and printers. *)
From S2P Require Import Prelude OpenFile Bytes.

Definition SUPERBLOCK_OFFSET : Z := 1024.
Definition SUPERBLOCK_SIZE : nat := 1024.
Definition ROOT_INODE_NUM : Z := 2.
Definition MIN_BLOCK_SIZE : Z := 1024.
Definition BGDT_BLOCK_1K : Z := 2.
Definition BGDT_BLOCK_DEFAULT : Z := 1.
Definition BGDT_ENTRY_SIZE : nat := 32.
Definition EXT2_FEATURE_RO_COMPAT_SPARSE_SUPER : Z := 0x0001.
Definition EXT2_SUPPORTED_RO_COMPAT_FEATURES : Z := EXT2_FEATURE_RO_COMPAT_SPARSE_SUPER.
Definition EXT2_FEATURE_INCOMPAT_FILETYPE : Z := 0x2.

(** ** The superblock *)
Record Ext2Superblock := mkSb {
  sb_ino_count : Z;
  sb_blk_count : Z;
  sb_reserved_blk_count : Z;
  sb_free_blocks : Z;
  sb_free_inodes : Z;
  sb_first_data_blk : Z;
  sb_log_blk_size : Z;
  sb_log_frag_size : Z;
  sb_blocks_per_grp : Z;
  sb_frags_per_grp : Z;
  sb_inodes_per_grp : Z;
  sb_mnt_time : Z;
  sb_wrt_time : Z;
  sb_mnt_count : Z;
  sb_max_mnt_count : Z;
  sb_magic : Z;
  sb_state : Z;
  sb_errors : Z;
  sb_minor_rev_level : Z;
  sb_lastcheck : Z;
  sb_checkinterval : Z;
  sb_creator_os : Z;
  sb_rev_level : Z;
  sb_res_uid : Z;
  sb_res_gid : Z;
  sb_first_ino : Z;
  sb_inode_size : Z;
  sb_block_group_nr : Z;
  sb_feature_compat : Z;
  sb_feature_incompat : Z;
  sb_feature_ro_compat : Z;
  sb_uuid : bytes;
  sb_volume_name : bytes;
  sb_last_mounted : bytes;
  sb_algo_bitmap : Z;
}.

Definition Ext2Superblock_deserialize {E} (b : bytes) : outcome E (option Ext2Superblock) :=
  if Nat.ltb (length b) 204 then Ok None
  else
    ino_count ← get_le 0 4 b;
    blk_count ← get_le 4 4 b;
    reserved_blk_count ← get_le 8 4 b;
    free_blocks ← get_le 12 4 b;
    free_inodes ← get_le 16 4 b;
    first_data_blk ← get_le 20 4 b;
    log_blk_size ← get_le 24 4 b;
    log_frag_size ← get_le 28 4 b;
    blocks_per_grp ← get_le 32 4 b;
    frags_per_grp ← get_le 36 4 b;
    inodes_per_grp ← get_le 40 4 b;
    mnt_time ← get_le 44 4 b;
    wrt_time ← get_le 48 4 b;
    mnt_count ← get_le 52 2 b;
    max_mnt_count ← get_le 54 2 b;
    magic ← get_le 56 2 b;
    state ← get_le 58 2 b;
    errors ← get_le 60 2 b;
    minor_rev_level ← get_le 62 2 b;
    lastcheck ← get_le 64 4 b;
    checkinterval ← get_le 68 4 b;
    creator_os ← get_le 72 4 b;
    rev_level ← get_le 76 4 b;
    res_uid ← get_le 80 2 b;
    res_gid ← get_le 82 2 b;
    first_ino ← get_le 84 4 b;
    inode_size ← get_le 88 2 b;
    block_group_nr ← get_le 90 2 b;
    feature_compat ← get_le 92 4 b;
    feature_incompat ← get_le 96 4 b;
    feature_ro_compat ← get_le 100 4 b;
    uuid ← slice 104 16 b;
    volume_name ← slice 120 16 b;
    last_mounted ← slice 136 64 b;
    algo_bitmap ← get_le 200 4 b;
      Ok (Some (mkSb ino_count blk_count reserved_blk_count free_blocks free_inodes first_data_blk
      log_blk_size log_frag_size blocks_per_grp frags_per_grp inodes_per_grp mnt_time wrt_time mnt_count
      max_mnt_count magic state errors minor_rev_level lastcheck checkinterval creator_os rev_level
      res_uid res_gid first_ino inode_size block_group_nr feature_compat feature_incompat
      feature_ro_compat uuid volume_name last_mounted algo_bitmap)).

(** The buffer is filled from its start to byte 204; the rest is zero. *)
Definition Ext2Superblock_serialize (sb : Ext2Superblock) : bytes :=
  to_le 4 (sb_ino_count sb) ++ to_le 4 (sb_blk_count sb) ++ to_le 4 (sb_reserved_blk_count sb) ++
  to_le 4 (sb_free_blocks sb) ++ to_le 4 (sb_free_inodes sb) ++ to_le 4 (sb_first_data_blk sb) ++
  to_le 4 (sb_log_blk_size sb) ++ to_le 4 (sb_log_frag_size sb) ++ to_le 4 (sb_blocks_per_grp sb) ++
  to_le 4 (sb_frags_per_grp sb) ++ to_le 4 (sb_inodes_per_grp sb) ++ to_le 4 (sb_mnt_time sb) ++
  to_le 4 (sb_wrt_time sb) ++ to_le 2 (sb_mnt_count sb) ++ to_le 2 (sb_max_mnt_count sb) ++
  to_le 2 (sb_magic sb) ++ to_le 2 (sb_state sb) ++ to_le 2 (sb_errors sb) ++
  to_le 2 (sb_minor_rev_level sb) ++ to_le 4 (sb_lastcheck sb) ++ to_le 4 (sb_checkinterval sb) ++
  to_le 4 (sb_creator_os sb) ++ to_le 4 (sb_rev_level sb) ++ to_le 2 (sb_res_uid sb) ++
  to_le 2 (sb_res_gid sb) ++ to_le 4 (sb_first_ino sb) ++ to_le 2 (sb_inode_size sb) ++
  to_le 2 (sb_block_group_nr sb) ++ to_le 4 (sb_feature_compat sb) ++ to_le 4 (sb_feature_incompat sb) ++
  to_le 4 (sb_feature_ro_compat sb) ++ sb_uuid sb ++ sb_volume_name sb ++ sb_last_mounted sb ++
  to_le 4 (sb_algo_bitmap sb) ++ replicate 820 0.

Definition sb_set_free_blocks (sb : Ext2Superblock) (free_blocks : Z) : Ext2Superblock :=
  mkSb (sb_ino_count sb) (sb_blk_count sb) (sb_reserved_blk_count sb) free_blocks (sb_free_inodes sb)
  (sb_first_data_blk sb) (sb_log_blk_size sb) (sb_log_frag_size sb) (sb_blocks_per_grp sb)
  (sb_frags_per_grp sb) (sb_inodes_per_grp sb) (sb_mnt_time sb) (sb_wrt_time sb) (sb_mnt_count sb)
  (sb_max_mnt_count sb) (sb_magic sb) (sb_state sb) (sb_errors sb) (sb_minor_rev_level sb)
  (sb_lastcheck sb) (sb_checkinterval sb) (sb_creator_os sb) (sb_rev_level sb) (sb_res_uid sb)
  (sb_res_gid sb) (sb_first_ino sb) (sb_inode_size sb) (sb_block_group_nr sb) (sb_feature_compat sb)
  (sb_feature_incompat sb) (sb_feature_ro_compat sb) (sb_uuid sb) (sb_volume_name sb)
  (sb_last_mounted sb) (sb_algo_bitmap sb).
Definition sb_set_free_inodes (sb : Ext2Superblock) (free_inodes : Z) : Ext2Superblock :=
  mkSb (sb_ino_count sb) (sb_blk_count sb) (sb_reserved_blk_count sb) (sb_free_blocks sb) free_inodes
  (sb_first_data_blk sb) (sb_log_blk_size sb) (sb_log_frag_size sb) (sb_blocks_per_grp sb)
  (sb_frags_per_grp sb) (sb_inodes_per_grp sb) (sb_mnt_time sb) (sb_wrt_time sb) (sb_mnt_count sb)
  (sb_max_mnt_count sb) (sb_magic sb) (sb_state sb) (sb_errors sb) (sb_minor_rev_level sb)
  (sb_lastcheck sb) (sb_checkinterval sb) (sb_creator_os sb) (sb_rev_level sb) (sb_res_uid sb)
  (sb_res_gid sb) (sb_first_ino sb) (sb_inode_size sb) (sb_block_group_nr sb) (sb_feature_compat sb)
  (sb_feature_incompat sb) (sb_feature_ro_compat sb) (sb_uuid sb) (sb_volume_name sb)
  (sb_last_mounted sb) (sb_algo_bitmap sb).
Definition sb_set_wrt_time (sb : Ext2Superblock) (wrt_time : Z) : Ext2Superblock :=
  mkSb (sb_ino_count sb) (sb_blk_count sb) (sb_reserved_blk_count sb) (sb_free_blocks sb)
  (sb_free_inodes sb) (sb_first_data_blk sb) (sb_log_blk_size sb) (sb_log_frag_size sb)
  (sb_blocks_per_grp sb) (sb_frags_per_grp sb) (sb_inodes_per_grp sb) (sb_mnt_time sb) wrt_time
  (sb_mnt_count sb) (sb_max_mnt_count sb) (sb_magic sb) (sb_state sb) (sb_errors sb)
  (sb_minor_rev_level sb) (sb_lastcheck sb) (sb_checkinterval sb) (sb_creator_os sb) (sb_rev_level sb)
  (sb_res_uid sb) (sb_res_gid sb) (sb_first_ino sb) (sb_inode_size sb) (sb_block_group_nr sb)
  (sb_feature_compat sb) (sb_feature_incompat sb) (sb_feature_ro_compat sb) (sb_uuid sb)
  (sb_volume_name sb) (sb_last_mounted sb) (sb_algo_bitmap sb).
Definition sb_set_block_group_nr (sb : Ext2Superblock) (block_group_nr : Z) : Ext2Superblock :=
  mkSb (sb_ino_count sb) (sb_blk_count sb) (sb_reserved_blk_count sb) (sb_free_blocks sb)
  (sb_free_inodes sb) (sb_first_data_blk sb) (sb_log_blk_size sb) (sb_log_frag_size sb)
  (sb_blocks_per_grp sb) (sb_frags_per_grp sb) (sb_inodes_per_grp sb) (sb_mnt_time sb) (sb_wrt_time sb)
  (sb_mnt_count sb) (sb_max_mnt_count sb) (sb_magic sb) (sb_state sb) (sb_errors sb)
  (sb_minor_rev_level sb) (sb_lastcheck sb) (sb_checkinterval sb) (sb_creator_os sb) (sb_rev_level sb)
  (sb_res_uid sb) (sb_res_gid sb) (sb_first_ino sb) (sb_inode_size sb) block_group_nr
  (sb_feature_compat sb) (sb_feature_incompat sb) (sb_feature_ro_compat sb) (sb_uuid sb)
  (sb_volume_name sb) (sb_last_mounted sb) (sb_algo_bitmap sb).
Definition sb_set_mnt_time_mnt_count (sb : Ext2Superblock) (mnt_time : Z) (mnt_count : Z) : Ext2Superblock :=
  mkSb (sb_ino_count sb) (sb_blk_count sb) (sb_reserved_blk_count sb) (sb_free_blocks sb)
  (sb_free_inodes sb) (sb_first_data_blk sb) (sb_log_blk_size sb) (sb_log_frag_size sb)
  (sb_blocks_per_grp sb) (sb_frags_per_grp sb) (sb_inodes_per_grp sb) mnt_time (sb_wrt_time sb) mnt_count
  (sb_max_mnt_count sb) (sb_magic sb) (sb_state sb) (sb_errors sb) (sb_minor_rev_level sb)
  (sb_lastcheck sb) (sb_checkinterval sb) (sb_creator_os sb) (sb_rev_level sb) (sb_res_uid sb)
  (sb_res_gid sb) (sb_first_ino sb) (sb_inode_size sb) (sb_block_group_nr sb) (sb_feature_compat sb)
  (sb_feature_incompat sb) (sb_feature_ro_compat sb) (sb_uuid sb) (sb_volume_name sb)
  (sb_last_mounted sb) (sb_algo_bitmap sb).

(** [1024 << log_blk_size] of a u32. *)
Definition Ext2Superblock_block_size {E} (sb : Ext2Superblock) : outcome E Z := ushl 32 1024 (sb_log_blk_size sb).

Definition Ext2Superblock_validate (sb : Ext2Superblock) : outcome FsMountError unit :=
  if negb (sb_magic sb =? 0xEF53) then Err InvalidSuperblock
  else
    block_size ← (if sb_log_blk_size sb <? 32 then Ok (wrap 32 (Z.shiftl 1024 (sb_log_blk_size sb)))
                  else Err Corrupted);
    if (block_size <? 1024) || (65536 <? block_size) then Err Corrupted
    else if (1 <=? sb_rev_level sb) && ((sb_inode_size sb <? 128) || negb (sb_inode_size sb mod 4 =? 0))
    then Err Corrupted
    else if (sb_blocks_per_grp sb =? 0) || (sb_inodes_per_grp sb =? 0) then Err Corrupted
    else if sb_blk_count sb <? sb_free_blocks sb then Err Corrupted
    else if sb_ino_count sb <? sb_free_inodes sb then Err Corrupted
    else if sb_first_ino sb =? 0 then Err Corrupted
    else if negb (Z.land (sb_feature_incompat sb) (unot 32 EXT2_FEATURE_INCOMPAT_FILETYPE) =? 0)
    then Err Unsupported
    else Ok tt.

(** ** Block group descriptors *)
Record BlockGroupDescriptorTable := mkBgd {
  bg_block_bitmap : Z;
  bg_inode_bitmap : Z;
  bg_inode_table : Z;
  bg_free_blocks_count : Z;
  bg_free_inodes_count : Z;
  bg_used_dirs_count : Z;
  bg_padding : bytes;
}.

Definition Bgd_deserialize {E} (b : bytes) : outcome E (option BlockGroupDescriptorTable) :=
  if Nat.ltb (length b) 32 then Ok None
  else
    block_bitmap ← get_le 0 4 b;
    inode_bitmap ← get_le 4 4 b;
    inode_table ← get_le 8 4 b;
    free_blocks_count ← get_le 12 2 b;
    free_inodes_count ← get_le 14 2 b;
    used_dirs_count ← get_le 16 2 b;
    padding ← slice 18 14 b;
    Ok (Some (mkBgd block_bitmap inode_bitmap inode_table free_blocks_count free_inodes_count
                used_dirs_count padding)).

Definition Bgd_serialize (g : BlockGroupDescriptorTable) : bytes :=
  to_le 4 (bg_block_bitmap g) ++ to_le 4 (bg_inode_bitmap g) ++ to_le 4 (bg_inode_table g) ++
  to_le 2 (bg_free_blocks_count g) ++ to_le 2 (bg_free_inodes_count g) ++
  to_le 2 (bg_used_dirs_count g) ++ bg_padding g.

Definition set_bg_free_blocks (g : BlockGroupDescriptorTable) (n : Z) : BlockGroupDescriptorTable :=
  mkBgd (bg_block_bitmap g) (bg_inode_bitmap g) (bg_inode_table g) n (bg_free_inodes_count g)
    (bg_used_dirs_count g) (bg_padding g).
Definition set_bg_free_inodes (g : BlockGroupDescriptorTable) (n : Z) : BlockGroupDescriptorTable :=
  mkBgd (bg_block_bitmap g) (bg_inode_bitmap g) (bg_inode_table g) (bg_free_blocks_count g) n
    (bg_used_dirs_count g) (bg_padding g).

(** ** Inodes *)
Record Ext2Inode := mkIno {
  i_mode : Z;
  i_uid : Z;
  i_size : Z;
  i_atime : Z;
  i_ctime : Z;
  i_mtime : Z;
  i_dtime : Z;
  i_gid : Z;
  i_links_count : Z;
  i_blocks : Z;
  i_flags : Z;
  i_osd1 : Z;
  i_block : list Z;
  i_generation : Z;
  i_file_acl : Z;
  i_dir_acl : Z;
  i_faddr : Z;
  i_osd2 : bytes;
}.

(** The loop over the block pointers: [n] pointers from byte [off] on. *)
Fixpoint get_u32s {E} (off n : nat) (b : bytes) : outcome E (list Z) :=
  match n with
  | O => Ok []
  | S n => p ← get_le off 4 b; ps ← get_u32s (off + 4) n b; Ok (p :: ps)
  end.
Definition put_u32s (ps : list Z) : bytes := ps ≫= to_le 4.

Definition Ext2Inode_deserialize {E} (b : bytes) : outcome E (option Ext2Inode) :=
  if Nat.ltb (length b) 128 then Ok None
  else
    mode ← get_le 0 2 b;
    uid ← get_le 2 2 b;
    size ← get_le 4 4 b;
    atime ← get_le 8 4 b;
    ctime ← get_le 12 4 b;
    mtime ← get_le 16 4 b;
    dtime ← get_le 20 4 b;
    gid ← get_le 24 2 b;
    links_count ← get_le 26 2 b;
    blocks ← get_le 28 4 b;
    flags ← get_le 32 4 b;
    osd1 ← get_le 36 4 b;
    block ← get_u32s 40 15 b;
    generation ← get_le 100 4 b;
    file_acl ← get_le 104 4 b;
    dir_acl ← get_le 108 4 b;
    faddr ← get_le 112 4 b;
    osd2 ← slice 116 12 b;
    Ok (Some (mkIno mode uid size atime ctime mtime dtime gid links_count blocks flags osd1 block
                generation file_acl dir_acl faddr osd2)).

Definition Ext2Inode_serialize (i : Ext2Inode) : bytes :=
  to_le 2 (i_mode i) ++ to_le 2 (i_uid i) ++ to_le 4 (i_size i) ++ to_le 4 (i_atime i) ++
  to_le 4 (i_ctime i) ++ to_le 4 (i_mtime i) ++ to_le 4 (i_dtime i) ++ to_le 2 (i_gid i) ++
  to_le 2 (i_links_count i) ++ to_le 4 (i_blocks i) ++ to_le 4 (i_flags i) ++ to_le 4 (i_osd1 i) ++
  put_u32s (i_block i) ++ to_le 4 (i_generation i) ++ to_le 4 (i_file_acl i) ++
  to_le 4 (i_dir_acl i) ++ to_le 4 (i_faddr i) ++ i_osd2 i.

Definition set_i_size (i : Ext2Inode) (n : Z) : Ext2Inode :=
  mkIno (i_mode i) (i_uid i) n (i_atime i) (i_ctime i) (i_mtime i) (i_dtime i) (i_gid i)
    (i_links_count i) (i_blocks i) (i_flags i) (i_osd1 i) (i_block i) (i_generation i) (i_file_acl i)
    (i_dir_acl i) (i_faddr i) (i_osd2 i).
Definition set_i_atime (i : Ext2Inode) (t : Z) : Ext2Inode :=
  mkIno (i_mode i) (i_uid i) (i_size i) t (i_ctime i) (i_mtime i) (i_dtime i) (i_gid i)
    (i_links_count i) (i_blocks i) (i_flags i) (i_osd1 i) (i_block i) (i_generation i) (i_file_acl i)
    (i_dir_acl i) (i_faddr i) (i_osd2 i).
(** [i_mtime] and [i_ctime] are set together. *)
Definition set_i_mctime (i : Ext2Inode) (t : Z) : Ext2Inode :=
  mkIno (i_mode i) (i_uid i) (i_size i) (i_atime i) t t (i_dtime i) (i_gid i)
    (i_links_count i) (i_blocks i) (i_flags i) (i_osd1 i) (i_block i) (i_generation i) (i_file_acl i)
    (i_dir_acl i) (i_faddr i) (i_osd2 i).
Definition set_i_blocks (i : Ext2Inode) (n : Z) : Ext2Inode :=
  mkIno (i_mode i) (i_uid i) (i_size i) (i_atime i) (i_ctime i) (i_mtime i) (i_dtime i) (i_gid i)
    (i_links_count i) n (i_flags i) (i_osd1 i) (i_block i) (i_generation i) (i_file_acl i)
    (i_dir_acl i) (i_faddr i) (i_osd2 i).
Definition set_i_block (i : Ext2Inode) (ps : list Z) : Ext2Inode :=
  mkIno (i_mode i) (i_uid i) (i_size i) (i_atime i) (i_ctime i) (i_mtime i) (i_dtime i) (i_gid i)
    (i_links_count i) (i_blocks i) (i_flags i) (i_osd1 i) ps (i_generation i) (i_file_acl i)
    (i_dir_acl i) (i_faddr i) (i_osd2 i).

(** The file type of a mode; a mode with any other type panics. *)
Definition mode_type {E} (mode : Z) : outcome E FileType :=
  let t := Z.land mode 0xF000 in
  if t =? 0x4000 then Ok Directory
  else if t =? 0x8000 then Ok File
  else if t =? 0xA000 then Ok Symlink
  else if t =? 0xC000 then Ok Socket
  else if t =? 0x2000 then Ok CharDevice
  else if t =? 0x6000 then Ok BlockDevice
  else if t =? 0x1000 then Ok Fifo
  else Panic.

Definition convert_ext2_inode_to_vfs_inode {E} (ino : Ext2Inode) (ino_num : Z) : outcome E Inode :=
  filetype ← mode_type (i_mode ino);
  Ok (mkInode ino_num filetype (i_size ino) (Z.land (i_mode ino) 0x0FFF) (i_links_count ino)
        (i_uid ino) (i_gid ino) (i_atime ino) (i_mtime ino) (i_ctime ino)).

(** ** Directory entries *)
Record Ext2DirEntry := mkExtDirEntry {
  ede_inode : Z;
  ede_rec_len : Z;
  ede_name_len : Z;
  ede_file_type : Z;
  ede_name : string;
}.

(** [String::from_utf8_lossy]: a byte that starts no character, and the longest proper
    prefix of a character that is cut off, become U+FFFD. *)
Definition in_range (lo hi b : Z) : bool := (lo <=? b) && (b <=? hi).
Definition replacement : bytes := [0xEF; 0xBF; 0xBD].
Definition second_byte (a b : Z) : bool :=
  if a =? 0xE0 then in_range 0xA0 0xBF b
  else if a =? 0xED then in_range 0x80 0x9F b
  else if a =? 0xF0 then in_range 0x90 0xBF b
  else if a =? 0xF4 then in_range 0x80 0x8F b
  else in_range 0x80 0xBF b.
Fixpoint from_utf8_lossy (l : bytes) : bytes :=
  match l with
  | [] => []
  | a :: l1 =>
      if a <? 0x80 then a :: from_utf8_lossy l1
      else if negb (in_range 0xC2 0xF4 a) then replacement ++ from_utf8_lossy l1
      else match l1 with
      | b :: l2 =>
          if negb (second_byte a b) then replacement ++ from_utf8_lossy l1
          else if a <? 0xE0 then a :: b :: from_utf8_lossy l2
          else match l2 with
          | c :: l3 =>
              if negb (in_range 0x80 0xBF c) then replacement ++ from_utf8_lossy l2
              else if a <? 0xF0 then a :: b :: c :: from_utf8_lossy l3
              else match l3 with
              | d :: l4 =>
                  if negb (in_range 0x80 0xBF d) then replacement ++ from_utf8_lossy l3
                  else a :: b :: c :: d :: from_utf8_lossy l4
              | [] => replacement
              end
          | [] => replacement
          end
      | [] => replacement
      end
  end.

(** The name is shorter than the record when [rec_len - 8] does not underflow. *)
Definition Ext2DirEntry_deserialize {E} (b : bytes) : outcome E (option Ext2DirEntry) :=
  if Nat.ltb (length b) 8 then Ok None
  else
    inode ← get_le 0 4 b;
    rec_len ← get_le 4 2 b;
    name_len ← get_le 6 1 b;
    file_type ← get_le 7 1 b;
    if Z.of_nat (length b) <? rec_len then Ok None
    else
      room ← usub rec_len 8;
      if room <? name_len then Ok None
      else
        name_bytes ← slice 8 (Z.to_nat name_len) b;
        Ok (Some (mkExtDirEntry inode rec_len name_len file_type (str_of_bytes (from_utf8_lossy name_bytes)))).

(** ** Structures within their field widths *)
Record sb_ok (sb : Ext2Superblock) : Prop := {
  sbo_ino_count : is_u 32 (sb_ino_count sb);
  sbo_blk_count : is_u 32 (sb_blk_count sb);
  sbo_reserved_blk_count : is_u 32 (sb_reserved_blk_count sb);
  sbo_free_blocks : is_u 32 (sb_free_blocks sb);
  sbo_free_inodes : is_u 32 (sb_free_inodes sb);
  sbo_first_data_blk : is_u 32 (sb_first_data_blk sb);
  sbo_log_blk_size : is_u 32 (sb_log_blk_size sb);
  sbo_log_frag_size : is_u 32 (sb_log_frag_size sb);
  sbo_blocks_per_grp : is_u 32 (sb_blocks_per_grp sb);
  sbo_frags_per_grp : is_u 32 (sb_frags_per_grp sb);
  sbo_inodes_per_grp : is_u 32 (sb_inodes_per_grp sb);
  sbo_mnt_time : is_u 32 (sb_mnt_time sb);
  sbo_wrt_time : is_u 32 (sb_wrt_time sb);
  sbo_mnt_count : is_u 16 (sb_mnt_count sb);
  sbo_max_mnt_count : is_u 16 (sb_max_mnt_count sb);
  sbo_magic : is_u 16 (sb_magic sb);
  sbo_state : is_u 16 (sb_state sb);
  sbo_errors : is_u 16 (sb_errors sb);
  sbo_minor_rev_level : is_u 16 (sb_minor_rev_level sb);
  sbo_lastcheck : is_u 32 (sb_lastcheck sb);
  sbo_checkinterval : is_u 32 (sb_checkinterval sb);
  sbo_creator_os : is_u 32 (sb_creator_os sb);
  sbo_rev_level : is_u 32 (sb_rev_level sb);
  sbo_res_uid : is_u 16 (sb_res_uid sb);
  sbo_res_gid : is_u 16 (sb_res_gid sb);
  sbo_first_ino : is_u 32 (sb_first_ino sb);
  sbo_inode_size : is_u 16 (sb_inode_size sb);
  sbo_block_group_nr : is_u 16 (sb_block_group_nr sb);
  sbo_feature_compat : is_u 32 (sb_feature_compat sb);
  sbo_feature_incompat : is_u 32 (sb_feature_incompat sb);
  sbo_feature_ro_compat : is_u 32 (sb_feature_ro_compat sb);
  sbo_uuid : length (sb_uuid sb) = 16%nat;
  sbo_uuid_bytes : Forall is_byte (sb_uuid sb);
  sbo_volume_name : length (sb_volume_name sb) = 16%nat;
  sbo_volume_name_bytes : Forall is_byte (sb_volume_name sb);
  sbo_last_mounted : length (sb_last_mounted sb) = 64%nat;
  sbo_last_mounted_bytes : Forall is_byte (sb_last_mounted sb);
  sbo_algo_bitmap : is_u 32 (sb_algo_bitmap sb);
}.

Record bgd_ok (g : BlockGroupDescriptorTable) : Prop := {
  bgo_block_bitmap : is_u 32 (bg_block_bitmap g);
  bgo_inode_bitmap : is_u 32 (bg_inode_bitmap g);
  bgo_inode_table : is_u 32 (bg_inode_table g);
  bgo_free_blocks : is_u 16 (bg_free_blocks_count g);
  bgo_free_inodes : is_u 16 (bg_free_inodes_count g);
  bgo_used_dirs : is_u 16 (bg_used_dirs_count g);
  bgo_padding : length (bg_padding g) = 14%nat;
  bgo_padding_bytes : Forall is_byte (bg_padding g);
}.

Record ino_ok (i : Ext2Inode) : Prop := {
  ino_mode : is_u 16 (i_mode i);
  ino_uid : is_u 16 (i_uid i);
  ino_size : is_u 32 (i_size i);
  ino_atime : is_u 32 (i_atime i);
  ino_ctime : is_u 32 (i_ctime i);
  ino_mtime : is_u 32 (i_mtime i);
  ino_dtime : is_u 32 (i_dtime i);
  ino_gid : is_u 16 (i_gid i);
  ino_links : is_u 16 (i_links_count i);
  ino_blocks : is_u 32 (i_blocks i);
  ino_flags : is_u 32 (i_flags i);
  ino_osd1 : is_u 32 (i_osd1 i);
  ino_block : length (i_block i) = 15%nat;
  ino_block_ptrs : Forall (is_u 32) (i_block i);
  ino_generation : is_u 32 (i_generation i);
  ino_file_acl : is_u 32 (i_file_acl i);
  ino_dir_acl : is_u 32 (i_dir_acl i);
  ino_faddr : is_u 32 (i_faddr i);
  ino_osd2 : length (i_osd2 i) = 12%nat;
  ino_osd2_bytes : Forall is_byte (i_osd2 i);
}.

(** ** Round trips *)
Lemma put_u32s_length ps : length (put_u32s ps) = (4 * length ps)%nat.
Proof.
  induction ps as [|p ps IH]; [done|]. unfold put_u32s in *. cbn [mbind list_bind]. rewrite length_app, to_le_length.
  cbn [length]. rewrite IH. lia.
Qed.
Lemma get_u32s_at {E} b pre ps post off n :
  b = pre ++ put_u32s ps ++ post -> length pre = off -> length ps = n -> Forall (is_u 32) ps ->
  @get_u32s E off n b = Ok ps.
Proof.
  intros Hb Hoff Hn Hps. revert pre off n Hb Hoff Hn. induction Hps as [|p ps Hp Hps IH]; intros pre off n Hb Hoff <-; [done|].
  cbn [get_u32s length]. unfold put_u32s in Hb. cbn [mbind list_bind] in Hb. rewrite <-app_assoc in Hb.
  rewrite (get_le_at b pre 4 p _ off Hb Hoff Hp). cbn [mbind outcome_bind].
  rewrite (IH (pre ++ to_le 4 p)); [done| |by rewrite length_app, to_le_length, Hoff|done].
  by rewrite <-app_assoc.
Qed.

Lemma Ext2Superblock_serialize_length sb :
  length (sb_uuid sb) = 16%nat -> length (sb_volume_name sb) = 16%nat -> length (sb_last_mounted sb) = 64%nat ->
  length (Ext2Superblock_serialize sb) = SUPERBLOCK_SIZE.
Proof.
  intros Hu Hv Hl. unfold Ext2Superblock_serialize. rewrite !length_app, !to_le_length, Hu, Hv, Hl, length_replicate.
  reflexivity.
Qed.
Lemma Ext2Superblock_serialize_bytes sb : sb_ok sb -> Forall is_byte (Ext2Superblock_serialize sb).
Proof.
  intros []. unfold Ext2Superblock_serialize. rewrite !Forall_app.
  split_and!; try apply to_le_bytes; try done. by apply Forall_replicate.
Qed.
Lemma Bgd_serialize_bytes g : bgd_ok g -> Forall is_byte (Bgd_serialize g).
Proof. intros []. unfold Bgd_serialize. rewrite !Forall_app. split_and!; try apply to_le_bytes; done. Qed.
Lemma put_u32s_bytes ps : Forall is_byte (put_u32s ps).
Proof. unfold put_u32s. induction ps as [|p ps IH]; [done|]. cbn. apply Forall_app. split; [apply to_le_bytes|done]. Qed.
Lemma Ext2Inode_serialize_bytes i : ino_ok i -> Forall is_byte (Ext2Inode_serialize i).
Proof.
  intros []. unfold Ext2Inode_serialize. rewrite !Forall_app.
  split_and!; try apply to_le_bytes; try apply put_u32s_bytes; done.
Qed.
Lemma Bgd_serialize_length g : length (bg_padding g) = 14%nat -> length (Bgd_serialize g) = 32%nat.
Proof. intros Hp. unfold Bgd_serialize. by rewrite !length_app, !to_le_length, Hp. Qed.
Lemma Ext2Inode_serialize_length i :
  length (i_block i) = 15%nat -> length (i_osd2 i) = 12%nat -> length (Ext2Inode_serialize i) = 128%nat.
Proof. intros Hb Ho. unfold Ext2Inode_serialize. by rewrite !length_app, !to_le_length, put_u32s_length, Hb, Ho. Qed.

(** The fields of [b] follow the empty prefix. *)
Ltac start_fields b ser :=
  let Hb := fresh "Hb" in let Hl := fresh "Hl" in
  assert (b = [] ++ b) as Hb by done; assert (length (@nil Z) = 0%nat) as Hl by done;
  revert Hb Hl; generalize (@nil Z); unfold b at 2; unfold ser; clearbody b; intros ? Hb Hl.

Lemma superblock_round_trip {E} sb :
  sb_ok sb -> @Ext2Superblock_deserialize E (Ext2Superblock_serialize sb) = Ok (Some sb).
Proof.
  intros []. unfold Ext2Superblock_deserialize. rewrite Ext2Superblock_serialize_length by done.
  set (b := Ext2Superblock_serialize sb).
  change (Nat.ltb SUPERBLOCK_SIZE 204) with false. cbv iota.
  start_fields b Ext2Superblock_serialize. do 35 next_field. by destruct sb.
Qed.

Lemma bgd_round_trip {E} g : bgd_ok g -> @Bgd_deserialize E (Bgd_serialize g) = Ok (Some g).
Proof.
  intros []. unfold Bgd_deserialize. rewrite Bgd_serialize_length by done. set (b := Bgd_serialize g).
  change (Nat.ltb 32 32) with false. cbv iota.
  start_fields b Bgd_serialize. rewrite <-(app_nil_r (bg_padding g)) in Hb. do 7 next_field. by destruct g.
Qed.

(** The bytes after an inode do not matter: an inode may have more than 128 bytes on disk. *)
Lemma inode_round_trip {E} i rest :
  ino_ok i -> @Ext2Inode_deserialize E (Ext2Inode_serialize i ++ rest) = Ok (Some i).
Proof.
  intros []. unfold Ext2Inode_deserialize. rewrite length_app, Ext2Inode_serialize_length by done.
  rewrite (proj2 (Nat.ltb_ge _ _)) by lia.
  remember (Ext2Inode_serialize i ++ rest) as b eqn:Hb. change (b = [] ++ Ext2Inode_serialize i ++ rest) in Hb.
  assert (length (@nil Z) = 0%nat) as Hl by done. revert Hb Hl. generalize (@nil Z). intros pre Hb Hl.
  unfold Ext2Inode_serialize in Hb. rewrite <-!app_assoc in Hb. do 12 next_field.
  match goal with Hb : b = ?pre ++ put_u32s _ ++ ?post, Hl : length ?pre = _ |- _ =>
    rewrite (get_u32s_at b pre (i_block i) post 40 15 Hb Hl) by done;
    rewrite app_assoc in Hb;
    assert (length (pre ++ put_u32s (i_block i)) = 100%nat) as Hl'
      by (rewrite length_app, put_u32s_length, Hl, ino_block0; reflexivity);
    clear Hl; revert Hb Hl'; generalize (pre ++ put_u32s (i_block i)) end.
  cbn [mbind outcome_bind]. intros. do 5 next_field. by destruct i.
Qed.

(** The superblock of a volume of 40 blocks of 1 KiB in one group. *)
Definition sample_superblock : Ext2Superblock :=
  mkSb 8 40 0 32 5 1 0 0 8192 8192 8 0 0 3 20 0xEF53 1 1 0 0 0 0 1 0 0 11 128 0 0 2 1
    (replicate 16 7) (replicate 16 0) (replicate 64 0) 0.
Definition sample_bgd : BlockGroupDescriptorTable := mkBgd 3 4 5 32 5 1 (replicate 14 0).
Definition sample_inode : Ext2Inode :=
  mkIno 0x81A4 0 5 100 100 100 0 0 1 2 0 0 (7 :: replicate 14 0) 0 0 0 0 (replicate 12 0).
Lemma replicate_bytes n x : is_byte x -> Forall is_byte (replicate n x).
Proof. intros Hx. by apply Forall_replicate. Qed.
Ltac fields_fit := solve [split; vm_compute; congruence | reflexivity | by apply replicate_bytes].
Lemma sample_superblock_ok : sb_ok sample_superblock.
Proof. split; fields_fit. Qed.
Lemma sample_bgd_ok : bgd_ok sample_bgd.
Proof. split; fields_fit. Qed.
Lemma sample_inode_ok : ino_ok sample_inode.
Proof.
  split; try fields_fit.
  cbn. repeat (apply Forall_cons; split; [split; vm_compute; congruence|]). by apply Forall_nil.
Qed.

(** Parsing what was printed gives the structure back, for a superblock, a block group
    descriptor and an inode (with whatever follows it) whose fields fit their widths; the
    printed forms have the sizes of the on-disk structures. *)
Theorem ext2_structures_round_trip {E} sb g i :
  sb_ok sb -> bgd_ok g -> ino_ok i ->
  @Ext2Superblock_deserialize E (Ext2Superblock_serialize sb) = Ok (Some sb) /\
  @Bgd_deserialize E (Bgd_serialize g) = Ok (Some g) /\
  (forall rest, @Ext2Inode_deserialize E (Ext2Inode_serialize i ++ rest) = Ok (Some i)) /\
  length (Ext2Superblock_serialize sb) = SUPERBLOCK_SIZE /\
  length (Bgd_serialize g) = BGDT_ENTRY_SIZE /\ length (Ext2Inode_serialize i) = 128%nat.
Proof.
  intros Hs Hg Hi. split_and!; [by apply superblock_round_trip|by apply bgd_round_trip|intros rest; by apply inode_round_trip|..].
  - destruct Hs. by apply Ext2Superblock_serialize_length.
  - destruct Hg. by apply Bgd_serialize_length.
  - destruct Hi. by apply Ext2Inode_serialize_length.
Qed.

Lemma ext2_structures_round_trip_witness :
  @Ext2Superblock_deserialize FileError (Ext2Superblock_serialize sample_superblock) = Ok (Some sample_superblock).
Proof.
  apply (ext2_structures_round_trip sample_superblock sample_bgd sample_inode);
    [apply sample_superblock_ok|apply sample_bgd_ok|apply sample_inode_ok].
Defined.

(** What [validate] accepts: a block size of 1 KiB to 64 KiB, and no zero divisor. *)
Lemma validate_Ok sb :
  0 <= sb_log_blk_size sb -> Ext2Superblock_validate sb = Ok tt ->
  sb_log_blk_size sb <= 6 /\ (forall E, @Ext2Superblock_block_size E sb = Ok (2 ^ (10 + sb_log_blk_size sb))) /\
  sb_blocks_per_grp sb <> 0 /\ sb_inodes_per_grp sb <> 0 /\ sb_free_blocks sb <= sb_blk_count sb.
Proof.
  unfold Ext2Superblock_validate. intros H0 Hv. destruct (negb _); [done|].
  destruct (Z.ltb_spec (sb_log_blk_size sb) 32) as [H32|]; [|done]. cbn [mbind outcome_bind] in Hv.
  assert (sb_log_blk_size sb <= 6 /\ wrap 32 (Z.shiftl 1024 (sb_log_blk_size sb)) = 2 ^ (10 + sb_log_blk_size sb)) as [H6 Hw].
  { destruct ((_ <? 1024) || _) eqn:Hr; [done|]. apply orb_false_iff in Hr as [Hlo Hhi].
    apply Z.ltb_ge in Hlo, Hhi. revert Hlo Hhi. generalize (sb_log_blk_size sb) H0 H32. clear. intros k H0 H32.
    assert (k ∈ seqZ 0 32) as Hk by (apply elem_of_seqZ; lia). revert k Hk H0 H32.
    refine (proj1 (Forall_forall _ _) _). cbn. unfold wrap.
    repeat (apply Forall_cons; split; [vm_compute; intros; split; congruence || (exfalso; congruence)|]).
    by apply Forall_nil. }
  repeat match type of Hv with (if ?c then _ else _) = _ => destruct c eqn:?; [done|] end.
  rewrite orb_false_iff, !Z.eqb_neq in *. rewrite Z.ltb_ge in *.
  split_and!; [done| |lia..]. intros E. unfold Ext2Superblock_block_size, ushl. rewrite (proj2 (Z.ltb_lt _ _)) by done.
  by rewrite Hw.
Qed.
