(* ===== verification/Ext2Fs.v ===== *)
(** * The ext2 file system (zenos-kernel/src/disk/fs/ext2/mod.rs)

    The volume with its block and inode bitmaps, the files and directories on it, and the
    file system as an implementation of the inode operations. *)
From S2P Require Import Prelude OpenFile Bytes BlockDev Ext2.

(** ** State *)
Record Ext2FSInner (Dev : Type) := mkExt2 {
  e2_device : Dev;
  e2_partition_offset : Z;
  e2_superblock : Ext2Superblock;
  e2_bgdts : list BlockGroupDescriptorTable;
  e2_read_only : bool;
}.
Arguments mkExt2 {Dev} _ _ _ _ _.
Arguments e2_device {Dev} _.
Arguments e2_partition_offset {Dev} _.
Arguments e2_superblock {Dev} _.
Arguments e2_bgdts {Dev} _.
Arguments e2_read_only {Dev} _.

(** The [data] of an inode: its own copy of the on-disk inode, and the inode's number. *)
Record ExtInodeOps := mkExtOps { ext2inode : Ext2Inode; inode_num : Z }.
Inductive ExtNode := ExtDirNode (d : ExtInodeOps) | ExtFileNode (f : ExtInodeOps).

(** Drops an error, not a panic ([let _ = ...]). *)
Definition ignore_err {S E A} (m : st S E A) : st S E unit := fun s =>
  let '(r, s) := m s in
  (match r with Panic => Panic | _ => Ok tt end, s).

(** The pointers of a block of pointers ([chunks_exact(4)]). *)
Definition u32s_of (buf : bytes) : list Z :=
  (fun i => from_le (sub_bytes (4 * i) 4 buf)) <$> seq 0 (length buf / 4).

(** The first byte of a bitmap that is not full, and its first clear bit. *)
Definition first_zero_bit (byte : Z) : option Z :=
  List.find (fun bit => Z.land byte (Z.shiftl 1 bit) =? 0) (seqZ 0 8).
Fixpoint find_free_bit (bitmap : bytes) (byte_idx : nat) : option (nat * Z * Z) :=
  match bitmap with
  | [] => None
  | byte :: bitmap =>
      if byte =? 0xFF then find_free_bit bitmap (S byte_idx)
      else match first_zero_bit byte with
           | Some bit => Some (byte_idx, byte, bit)
           | None => find_free_bit bitmap (S byte_idx)
           end
  end.

(** *** Groups with a superblock copy *)

(** The powers of [base] from [power] on, until [group] is reached or the product overflows;
    [None] when the loop has not ended. *)
Fixpoint power_reach (fuel : nat) (base power group : Z) : option Z :=
  if power <? group then
    match fuel with
    | O => None
    | S fuel => if power * base <? 2 ^ 32 then power_reach fuel base (power * base) group else Some power
    end
  else Some power.
Definition has_superblock_backup (group : Z) : bool :=
  (group =? 0) || (group =? 1) ||
  existsb (fun base => bool_decide (power_reach 32 base base group = Some group)) [3; 5; 7].

Section Volume.
Context {Dev : Type} `{BlockDevice Dev}.
(** [current_time().as_unix_epoch()]. *)
Context (now : Z).

Abbreviation V := (Ext2FSInner Dev).
Abbreviation vol := (st V FileError).

Definition with_device (v : V) (d : Dev) : V :=
  mkExt2 d (e2_partition_offset v) (e2_superblock v) (e2_bgdts v) (e2_read_only v).
Definition with_superblock (v : V) (sb : Ext2Superblock) : V :=
  mkExt2 (e2_device v) (e2_partition_offset v) sb (e2_bgdts v) (e2_read_only v).
Definition with_bgdt (v : V) (group : nat) (g : BlockGroupDescriptorTable) : V :=
  mkExt2 (e2_device v) (e2_partition_offset v) (e2_superblock v) (<[group := g]> (e2_bgdts v)) (e2_read_only v).

Definition on_dev {A} (m : st Dev FileError A) : vol A := fun v =>
  let '(r, d) := m (e2_device v) in (r, with_device v d).
Definition modify (f : V -> V) : vol unit := fun v => (Ok tt, f v).
Definition block_size_v : vol Z := v ← st_get; st_lift (Ext2Superblock_block_size (e2_superblock v)).

(** [seek] and [read_exact], [seek] and [write]. *)
Definition read_from (offset : Z) (n : nat) : vol bytes :=
  _ ← on_dev (st_map_err (fun _ => SeekError) (bd_seek (Start offset)));
  on_dev (st_map_err (fun _ => ReadError) (read_exact (replicate n 0))).
Definition write_to (offset : Z) (buf : bytes) : vol unit :=
  _ ← on_dev (st_map_err (fun _ => SeekError) (bd_seek (Start offset)));
  _ ← on_dev (st_map_err (fun _ => WriteError) (bd_write buf));
  mret tt.

(** [partition_offset + block * block_size]. *)
Definition block_offset (block : Z) : vol Z :=
  v ← st_get;
  block_size ← block_size_v;
  o ← st_lift (umul 64 block block_size);
  st_lift (uadd 64 (e2_partition_offset v) o).

Definition get_block_offset_for_inode_num (inode_num : Z) : vol Z :=
  v ← st_get;
  let sb := e2_superblock v in
  n ← st_lift (usub inode_num 1);
  group ← st_lift (udiv n (sb_inodes_per_grp sb));
  index ← st_lift (urem n (sb_inodes_per_grp sb));
  if Z.of_nat (length (e2_bgdts v)) <=? group then st_lift (Err (Other "Inode number out of range"))
  else
    bgdt ← st_lift (unwrap (e2_bgdts v !! Z.to_nat group));
    byte_offset ← st_lift (umul 64 index (sb_inode_size sb));
    block_size ← block_size_v;
    blocks ← st_lift (udiv byte_offset block_size);
    block ← st_lift (uadd 64 (bg_inode_table bgdt) blocks);
    offset ← st_lift (urem byte_offset block_size);
    o ← st_lift (umul 64 block block_size);
    o ← st_lift (uadd 64 (e2_partition_offset v) o);
    st_lift (uadd 64 o offset).

(** *** Bitmaps *)
Definition take_free_block (group_idx : nat) (bgdt : BlockGroupDescriptorTable) (bitmap_offset : Z)
    (bitmap : bytes) (byte_idx : nat) (byte bit : Z) : vol Z :=
  _ ← write_to bitmap_offset (<[byte_idx := Z.lor byte (Z.shiftl 1 bit)]> bitmap);
  count ← st_lift (usub (bg_free_blocks_count bgdt) 1);
  _ ← modify (fun v => with_bgdt v group_idx (set_bg_free_blocks bgdt count));
  v ← st_get;
  free ← st_lift (usub (sb_free_blocks (e2_superblock v)) 1);
  _ ← modify (fun v => with_superblock v (sb_set_free_blocks (e2_superblock v) free));
  v ← st_get;
  let sb := e2_superblock v in
  g ← st_lift (umul 32 (wrap 32 (Z.of_nat group_idx)) (sb_blocks_per_grp sb));
  start ← st_lift (uadd 32 (sb_first_data_blk sb) g);
  st_lift (uadd 32 start (wrap 32 (Z.of_nat byte_idx * 8 + bit))).

Fixpoint allocate_in (bgdts : list BlockGroupDescriptorTable) (group_idx : nat) : vol Z :=
  match bgdts with
  | [] => st_lift (Err (Other "No free blocks available"))
  | bgdt :: bgdts =>
      if bg_free_blocks_count bgdt =? 0 then allocate_in bgdts (S group_idx)
      else
        block_size ← block_size_v;
        bitmap_offset ← block_offset (bg_block_bitmap bgdt);
        bitmap ← read_from bitmap_offset (Z.to_nat block_size);
        match find_free_bit bitmap 0 with
        | Some (byte_idx, byte, bit) => take_free_block group_idx bgdt bitmap_offset bitmap byte_idx byte bit
        | None => allocate_in bgdts (S group_idx)
        end
  end.

Definition allocate_block : vol Z :=
  v ← st_get;
  _ ← block_size_v;
  allocate_in (e2_bgdts v) 0.

(** Clears bit [index] of the bitmap in block [bitmap_block]. *)
Definition clear_bit (bitmap_block index : Z) : vol unit :=
  block_size ← block_size_v;
  bitmap_offset ← block_offset bitmap_block;
  bitmap ← read_from bitmap_offset (Z.to_nat block_size);
  let byte_idx := Z.to_nat (index / 8) in
  byte ← st_lift (unwrap (bitmap !! byte_idx));
  write_to bitmap_offset (<[byte_idx := Z.land byte (unot 8 (Z.shiftl 1 (index mod 8)))]> bitmap).

Definition free_inode (inode_num : Z) : vol unit :=
  v ← st_get;
  _ ← block_size_v;
  n ← st_lift (usub inode_num 1);
  group ← st_lift (udiv n (sb_inodes_per_grp (e2_superblock v)));
  index ← st_lift (urem n (sb_inodes_per_grp (e2_superblock v)));
  bgdt ← st_lift (unwrap (e2_bgdts v !! Z.to_nat group));
  _ ← clear_bit (bg_inode_bitmap bgdt) index;
  count ← st_lift (uadd 16 (bg_free_inodes_count bgdt) 1);
  _ ← modify (fun v => with_bgdt v (Z.to_nat group) (set_bg_free_inodes bgdt count));
  v ← st_get;
  free ← st_lift (uadd 32 (sb_free_inodes (e2_superblock v)) 1);
  modify (fun v => with_superblock v (sb_set_free_inodes (e2_superblock v) free)).

Definition free_block (block_num : Z) : vol unit :=
  v ← st_get;
  _ ← block_size_v;
  rel ← st_lift (usub block_num (sb_first_data_blk (e2_superblock v)));
  group ← st_lift (udiv rel (sb_blocks_per_grp (e2_superblock v)));
  index ← st_lift (urem rel (sb_blocks_per_grp (e2_superblock v)));
  if Z.of_nat (length (e2_bgdts v)) <=? group then st_lift (Err (Other "Block number out of range"))
  else
    bgdt ← st_lift (unwrap (e2_bgdts v !! Z.to_nat group));
    _ ← clear_bit (bg_block_bitmap bgdt) index;
    count ← st_lift (uadd 16 (bg_free_blocks_count bgdt) 1);
    _ ← modify (fun v => with_bgdt v (Z.to_nat group) (set_bg_free_blocks bgdt count));
    v ← st_get;
    free ← st_lift (uadd 32 (sb_free_blocks (e2_superblock v)) 1);
    modify (fun v => with_superblock v (sb_set_free_blocks (e2_superblock v) free)).

Definition read_block (block_num : Z) (buf : bytes) : vol bytes :=
  offset ← block_offset block_num;
  read_from offset (length buf).
Definition write_block (block_num : Z) (buf : bytes) : vol unit :=
  offset ← block_offset block_num;
  write_to offset buf.

(** *** Synchronising the superblock and the descriptors *)
Definition total_groups {E} (sb : Ext2Superblock) : outcome E Z :=
  n ← uadd 32 (sb_blk_count sb) (sb_blocks_per_grp sb);
  n ← usub n 1;
  udiv n (sb_blocks_per_grp sb).

Definition get_superblock_groups {E} (sb : Ext2Superblock) : outcome E (list Z) :=
  total ← total_groups sb;
  let is_sparse := negb (Z.land (sb_feature_ro_compat sb) EXT2_FEATURE_RO_COMPAT_SPARSE_SUPER =? 0) in
  Ok (List.filter (fun group => negb is_sparse || has_superblock_backup group) (seqZ 0 total)).

Definition bgdt_offset {E} (partition_offset block_size : Z) : outcome E Z :=
  o ← umul 64 (if block_size =? MIN_BLOCK_SIZE then BGDT_BLOCK_1K else BGDT_BLOCK_DEFAULT) block_size;
  uadd 64 partition_offset o.

Definition sync_bgdt : vol unit :=
  v ← st_get;
  block_size ← block_size_v;
  offset ← st_lift (bgdt_offset (e2_partition_offset v) block_size);
  write_to offset (e2_bgdts v ≫= Bgd_serialize).

Fixpoint write_superblocks (block_size : Z) (groups : list Z) : vol unit :=
  match groups with
  | [] => mret tt
  | group :: groups =>
      _ ← modify (fun v => with_superblock v (sb_set_block_group_nr (e2_superblock v) (wrap 16 group)));
      v ← st_get;
      let sb := e2_superblock v in
      group_start_block ← st_lift (umul 64 group (sb_blocks_per_grp sb));
      superblock_offset ← (if group =? 0 then st_lift (uadd 64 (e2_partition_offset v) SUPERBLOCK_OFFSET)
                           else o ← st_lift (umul 64 group_start_block block_size);
                                st_lift (uadd 64 (e2_partition_offset v) o));
      _ ← write_to superblock_offset (Ext2Superblock_serialize sb);
      write_superblocks block_size groups
  end.

Definition sync_superblock : vol unit :=
  _ ← modify (fun v => with_superblock v (sb_set_wrt_time (e2_superblock v) (wrap 32 now)));
  block_size ← block_size_v;
  v ← st_get;
  groups ← st_lift (get_superblock_groups (e2_superblock v));
  _ ← write_superblocks block_size groups;
  _ ← modify (fun v => with_superblock v (sb_set_block_group_nr (e2_superblock v) 0));
  sync_bgdt.

(** *** Mounting *)
Fixpoint parse_bgdts (chunks : list bytes) : outcome FsMountError (list BlockGroupDescriptorTable) :=
  match chunks with
  | [] => Ok []
  | chunk :: chunks =>
      d ← Bgd_deserialize chunk;
      desc ← ok_or ParseError d;
      descs ← parse_bgdts chunks;
      Ok (desc :: descs)
  end.

Definition mount_read (offset : Z) (n : nat) : st Dev FsMountError bytes :=
  _ ← st_map_err (fun _ => MountReadError) (bd_seek (Start offset));
  st_map_err (fun _ => MountReadError) (read_exact (replicate n 0)).

(** The volume as it is read, before its first synchronisation. *)
Definition mount_inner (partition_offset : Z) : st Dev FsMountError V :=
  o ← st_lift (uadd 64 partition_offset SUPERBLOCK_OFFSET);
  superblock_buf ← mount_read o SUPERBLOCK_SIZE;
  parsed ← st_lift (Ext2Superblock_deserialize superblock_buf);
  sb ← st_lift (ok_or ParseError parsed);
  _ ← st_lift (Ext2Superblock_validate sb);
  groups ← st_lift (total_groups sb);
  block_size ← st_lift (Ext2Superblock_block_size sb);
  offset ← st_lift (bgdt_offset partition_offset block_size);
  bgdt_buf ← mount_read offset (Z.to_nat groups * BGDT_ENTRY_SIZE);
  descriptors ← st_lift (parse_bgdts (chunks BGDT_ENTRY_SIZE bgdt_buf));
  let read_only := negb (Z.land (sb_feature_ro_compat sb) (unot 32 EXT2_SUPPORTED_RO_COMPAT_FEATURES) =? 0) in
  device ← st_get;
  mret (mkExt2 device partition_offset
          (sb_set_mnt_time_mnt_count sb (wrap 32 now) (saturating_add 16 (sb_mnt_count sb) 1))
          descriptors read_only).

Definition Ext2_mount (device : Dev) (partition_offset : Z) : outcome FsMountError V :=
  v ← (mount_inner partition_offset device).1;
  if e2_read_only v then Ok v
  else let '(r, v) := sync_superblock v in
       match r with Panic => Panic | _ => Ok v end.

(** *** Reading pointers *)
Definition read_block_u32_array (block : Z) : vol (list Z) :=
  offset ← block_offset block;
  block_size ← block_size_v;
  buf ← read_from offset (Z.to_nat block_size);
  mret (u32s_of buf).

Definition write_block_u32_array (block : Z) (ptrs : list Z) : vol unit :=
  block_size ← block_size_v;
  let data := put_u32s (take (Z.to_nat (block_size / 4)) ptrs) in
  write_block block (data ++ replicate (Z.to_nat block_size - length data) 0).

(** Reading the on-disk inode of number [inode_num]; [msg] is the caller's message. *)
Definition read_inode (msg : string) (inode_num : Z) : vol Ext2Inode :=
  inode_offset ← get_block_offset_for_inode_num inode_num;
  v ← st_get;
  buf ← read_from inode_offset (Z.to_nat (sb_inode_size (e2_superblock v)));
  parsed ← st_lift (Ext2Inode_deserialize buf);
  st_lift (ok_or (Other msg) parsed).

Definition sync_inode (ino : Ext2Inode) (inode_num : Z) : vol unit :=
  inode_offset ← get_block_offset_for_inode_num inode_num;
  _ ← write_to inode_offset (Ext2Inode_serialize ino);
  sync_superblock.

(** *** Directories *)

(** The arrays of the blocks [l], one after the other. *)
Fixpoint extend_from (l : list Z) : vol (list Z) :=
  match l with
  | [] => mret []
  | b :: l => ps ← read_block_u32_array b; rest ← extend_from l; mret (ps ++ rest)
  end.
Fixpoint extend_from2 (l : list Z) : vol (list Z) :=
  match l with
  | [] => mret []
  | b :: l =>
      l2 ← read_block_u32_array b;
      ps ← extend_from l2;
      rest ← extend_from2 l;
      mret (ps ++ rest)
  end.
(** A level of indirection that is absent has no blocks. *)
Definition if_present (b : Z) (m : list Z -> vol (list Z)) : vol (list Z) :=
  if b =? 0 then mret [] else ptrs ← read_block_u32_array b; m ptrs.
(** [i_block] always has its fifteen pointers. *)
Definition ptr_at (ino : Ext2Inode) (k : nat) : vol Z := st_lift (unwrap (i_block ino !! k)).

Definition dir_collect_data_blocks (ino : Ext2Inode) : vol (list Z) :=
  let direct := List.filter (fun b => negb (b =? 0)) (take 12 (i_block ino)) in
  b12 ← ptr_at ino 12;
  single ← if_present b12 mret;
  b13 ← ptr_at ino 13;
  double ← if_present b13 extend_from;
  b14 ← ptr_at ino 14;
  triple ← if_present b14 extend_from2;
  mret (direct ++ single ++ double ++ triple).

(** The entries of a block from [offset] on, and the number of bytes they take. *)
Fixpoint parse_dentries (fuel : nat) (block_buf : bytes) (offset : nat) : outcome FileError (list Ext2DirEntry * Z) :=
  match fuel with
  | O => Panic
  | S fuel =>
      if Nat.ltb offset (length block_buf) then
        dentry ← Ext2DirEntry_deserialize (drop offset block_buf);
        match dentry with
        | None => Ok ([], 0)
        | Some dentry =>
            let rec_len := ede_rec_len dentry in
            if (rec_len =? 0) || (Z.of_nat (length block_buf) <? Z.of_nat offset + rec_len)
               || (rec_len <? 8) || negb (rec_len mod 4 =? 0)
            then Ok ([], 0)
            else
              '(entries, n) ← parse_dentries fuel block_buf (offset + Z.to_nat rec_len);
              Ok (if ede_inode dentry =? 0 then entries else dentry :: entries, rec_len + n)
        end
      else Ok ([], 0)
  end.

Fixpoint dentries_of_blocks (dir_size : Z) (blocks : list Z) (bytes_read : Z) : vol (list Ext2DirEntry) :=
  match blocks with
  | [] => mret []
  | block_ptr :: blocks =>
      if block_ptr =? 0 then mret []
      else if dir_size <=? bytes_read then mret []
      else
        block_size ← block_size_v;
        offset ← block_offset block_ptr;
        _ ← on_dev (st_map_err (fun _ => SeekError) (bd_seek (Start offset)));
        '(_, block_buf) ← on_dev (st_map_err (fun _ => ReadError) (bd_read (replicate (Z.to_nat block_size) 0)));
        '(entries, n) ← st_lift (parse_dentries (length block_buf + 1) block_buf 0);
        rest ← dentries_of_blocks dir_size blocks (bytes_read + n);
        mret (entries ++ rest)
  end.

Definition get_dentries (ino : Ext2Inode) : vol (list Ext2DirEntry) :=
  _ ← block_size_v;
  data_blocks ← dir_collect_data_blocks ino;
  dentries_of_blocks (i_size ino) data_blocks 0.

(** *** Files *)

(** The arrays of the blocks of [l] that are present. *)
Fixpoint extend_present (l : list Z) : vol (list Z) :=
  match l with
  | [] => mret []
  | b :: l => ps ← if_present b mret; rest ← extend_present l; mret (ps ++ rest)
  end.
Fixpoint extend_present2 (l : list Z) : vol (list Z) :=
  match l with
  | [] => mret []
  | b :: l => ps ← if_present b extend_present; rest ← extend_present2 l; mret (ps ++ rest)
  end.

Definition file_collect_data_blocks (ino : Ext2Inode) : vol (list Z) :=
  b12 ← ptr_at ino 12;
  single ← if_present b12 mret;
  b13 ← ptr_at ino 13;
  double ← if_present b13 extend_present;
  b14 ← ptr_at ino 14;
  triple ← if_present b14 extend_present2;
  mret (take 12 (i_block ino) ++ single ++ double ++ triple).

Fixpoint ext_read_loop (fuel : nat) (blocks : list Z) (block_size to_read current_offset : Z) (acc : bytes) : vol bytes :=
  match fuel with
  | O => st_lift Panic
  | S fuel =>
      let bytes_read := Z.of_nat (length acc) in
      if bytes_read <? to_read then
        block_index ← st_lift (udiv current_offset block_size);
        offset_in_block ← st_lift (urem current_offset block_size);
        match blocks !! Z.to_nat block_index with
        | None => mret acc
        | Some block_num =>
            let bytes_from_block := Z.min (block_size - offset_in_block) (to_read - bytes_read) in
            if block_num =? 0 then
              next ← st_lift (uadd 64 current_offset bytes_from_block);
              ext_read_loop fuel blocks block_size to_read next (acc ++ replicate (Z.to_nat bytes_from_block) 0)
            else
              o ← block_offset block_num;
              o ← st_lift (uadd 64 o offset_in_block);
              data ← read_from o (Z.to_nat bytes_from_block);
              next ← st_lift (uadd 64 current_offset bytes_from_block);
              ext_read_loop fuel blocks block_size to_read next (acc ++ data)
        end
      else mret acc
  end.

(** The methods of a file work on its copy of the inode and on the volume. *)
Abbreviation fop := (st (Ext2Inode * V) FileError).
Definition on_vol {A} (m : vol A) : fop A := fun iv => let '(r, v) := m iv.2 in (r, (iv.1, v)).
Definition this_inode : fop Ext2Inode := fun iv => (Ok iv.1, iv).
Definition set_inode (f : Ext2Inode -> Ext2Inode) : fop unit := fun iv => (Ok tt, (f iv.1, iv.2)).

(** [i_blocks] counts sectors of 512 bytes. *)
Definition count_block : fop unit :=
  block_size ← on_vol block_size_v;
  ino ← this_inode;
  n ← st_lift (uadd 32 (i_blocks ino) (block_size / 512));
  set_inode (fun ino => set_i_blocks ino n).
Definition set_ptr (k : nat) (b : Z) : fop unit :=
  set_inode (fun ino => set_i_block ino (<[k := b]> (i_block ino))).
Definition zero_block (b : Z) : vol unit :=
  block_size ← block_size_v; write_block b (replicate (Z.to_nat block_size) 0).

(** A new block for the pointer [k] of the inode; [zeroed] clears it. *)
Definition alloc_slot (k : nat) (zeroed : bool) : fop Z :=
  new_block ← on_vol allocate_block;
  _ ← set_ptr k new_block;
  _ ← count_block;
  _ ← (if zeroed then on_vol (zero_block new_block) else mret tt);
  mret new_block.
Definition slot_or_alloc (k : nat) (zeroed : bool) : fop Z :=
  ino ← this_inode;
  b ← on_vol (ptr_at ino k);
  if b =? 0 then alloc_slot k zeroed else mret b.

(** A new block for the pointer [index] of the pointer block [table], which holds [ptrs]. *)
Definition alloc_entry (table : Z) (index : nat) (zeroed : bool) (ptrs : list Z) : fop Z :=
  new_block ← on_vol allocate_block;
  _ ← count_block;
  _ ← (if zeroed then on_vol (zero_block new_block) else mret tt);
  _ ← on_vol (write_block_u32_array table (<[index := new_block]> ptrs));
  mret new_block.
Definition entry_or_alloc (table : Z) (index : nat) (zeroed : bool) : fop Z :=
  ptrs ← on_vol (read_block_u32_array table);
  let ptrs := ptrs ++ replicate (S index - length ptrs) 0 in
  b ← st_lift (unwrap (ptrs !! index));
  if b =? 0 then alloc_entry table index zeroed ptrs else mret b.

Definition get_or_alloc_block (block_index : Z) : fop Z :=
  block_size ← on_vol block_size_v;
  let ptrs_per_block := block_size / 4 in
  if block_index <? 12 then slot_or_alloc (Z.to_nat block_index) false
  else
    let index := block_index - 12 in
    if index <? ptrs_per_block then
      table ← slot_or_alloc 12 true;
      entry_or_alloc table (Z.to_nat index) false
    else
      let index := index - ptrs_per_block in
      if index <? ptrs_per_block * ptrs_per_block then
        table ← slot_or_alloc 13 true;
        l1_index ← st_lift (udiv index ptrs_per_block);
        l2_index ← st_lift (urem index ptrs_per_block);
        l2 ← entry_or_alloc table (Z.to_nat l1_index) true;
        entry_or_alloc l2 (Z.to_nat l2_index) false
      else st_lift (Err (Other "File too large (triply indirect not supported)")).

Definition sync_this (inode_num : Z) : fop unit :=
  ino ← this_inode; on_vol (sync_inode ino inode_num).

Definition ext_file_read (inode_num offset : Z) (buf : bytes) : fop (Z * bytes) :=
  ino ← this_inode;
  let file_size := i_size ino in
  if file_size <=? offset then mret (0, buf)
  else
    block_size ← on_vol block_size_v;
    let bytes_to_read := Z.min (Z.of_nat (length buf)) (file_size - offset) in
    if bytes_to_read =? 0 then mret (0, buf)
    else
      data_blocks ← on_vol (file_collect_data_blocks ino);
      acc ← on_vol (ext_read_loop (length buf + 1) data_blocks block_size bytes_to_read offset []);
      v ← on_vol st_get;
      _ ← (if Nat.ltb 0 (length acc) && negb (e2_read_only v) then
             _ ← set_inode (fun ino => set_i_atime ino (wrap 32 now));
             ignore_err (sync_this inode_num)
           else mret tt);
      mret (Z.of_nat (length acc), acc ++ drop (length acc) buf).

Fixpoint ext_write_loop (fuel : nat) (block_size current_offset : Z) (buf : bytes) : fop unit :=
  match fuel with
  | O => st_lift Panic
  | S fuel =>
      if Nat.eqb (length buf) 0 then mret tt
      else
        block_index ← st_lift (udiv current_offset block_size);
        offset_in_block ← st_lift (urem current_offset block_size);
        block_num ← get_or_alloc_block block_index;
        block_buf ← (if negb (offset_in_block =? 0) || (Z.of_nat (length buf) <? block_size)
                     then on_vol (read_block block_num (replicate (Z.to_nat block_size) 0))
                     else mret (replicate (Z.to_nat block_size) 0));
        let bytes_to_block := Z.min (block_size - offset_in_block) (Z.of_nat (length buf)) in
        block_buf ← st_lift (put_slice (Z.to_nat offset_in_block) (take (Z.to_nat bytes_to_block) buf) block_buf);
        _ ← on_vol (write_block block_num block_buf);
        next ← st_lift (uadd 64 current_offset bytes_to_block);
        ext_write_loop fuel block_size next (drop (Z.to_nat bytes_to_block) buf)
  end.

Definition ext_file_write (inode_num offset : Z) (buf : bytes) : fop Z :=
  v ← on_vol st_get;
  if e2_read_only v then st_lift (Err ReadOnlyFilesystem)
  else if Nat.eqb (length buf) 0 then mret 0
  else
    block_size ← on_vol block_size_v;
    _ ← ext_write_loop (length buf + 1) block_size offset buf;
    new_end ← st_lift (uadd 64 offset (Z.of_nat (length buf)));
    _ ← set_inode (fun ino => if i_size ino <? new_end then set_i_size ino (wrap 32 new_end) else ino);
    _ ← set_inode (fun ino => set_i_mctime ino (wrap 32 now));
    _ ← sync_this inode_num;
    mret (Z.of_nat (length buf)).

(** Frees the blocks of the list, the first of which has index [i], from index [n] on. *)
Fixpoint free_from (block_size n : Z) (blocks : list Z) (i : Z) : fop unit :=
  match blocks with
  | [] => mret tt
  | block :: blocks =>
      _ ← (if (n <=? i) && negb (block =? 0) then
             _ ← on_vol (free_block block);
             ino ← this_inode;
             c ← st_lift (usub (i_blocks ino) (wrap 32 (block_size / 512)));
             set_inode (fun ino => set_i_blocks ino c)
           else mret tt);
      free_from block_size n blocks (i + 1)
  end.

Fixpoint free_all (l : list Z) : vol unit :=
  match l with
  | [] => mret tt
  | b :: l => _ ← (if b =? 0 then mret tt else free_block b); free_all l
  end.

Definition free_single : fop unit :=
  ino ← this_inode;
  b ← on_vol (ptr_at ino 12);
  if b =? 0 then mret tt else _ ← on_vol (free_block b); set_ptr 12 0.
Definition free_double : fop unit :=
  ino ← this_inode;
  b ← on_vol (ptr_at ino 13);
  if b =? 0 then mret tt
  else
    l1 ← on_vol (read_block_u32_array b);
    _ ← on_vol (free_all l1);
    _ ← on_vol (free_block b);
    set_ptr 13 0.

(** Clears the direct pointers from index [n] on. *)
Definition clear_direct (n : nat) (ps : list Z) : list Z :=
  if Nat.ltb n 12 then take n ps ++ replicate (12 - n) 0 ++ drop 12 ps else ps.

Definition set_size_and_sync (inode_num size : Z) : fop unit :=
  _ ← set_inode (fun ino => set_i_mctime (set_i_size ino (wrap 32 size)) (wrap 32 now));
  sync_this inode_num.

Definition ext_file_truncate (inode_num size : Z) : fop unit :=
  v ← on_vol st_get;
  if e2_read_only v then st_lift (Err ReadOnlyFilesystem)
  else
    block_size ← on_vol block_size_v;
    ino ← this_inode;
    if i_size ino <=? size then set_size_and_sync inode_num size
    else
      n ← st_lift (uadd 64 size block_size);
      n ← st_lift (usub n 1);
      new_block_count ← st_lift (udiv n block_size);
      data_blocks ← on_vol (file_collect_data_blocks ino);
      _ ← free_from block_size new_block_count data_blocks 0;
      _ ← set_inode (fun ino => set_i_block ino (clear_direct (Z.to_nat new_block_count) (i_block ino)));
      let ptrs_per_block := block_size / 4 in
      _ ← (if new_block_count <=? 12 then _ ← free_single; free_double
           else if new_block_count <=? 12 + ptrs_per_block then free_double
           else mret tt);
      set_size_and_sync inode_num size.

(** [get_dev_id] is the trait's default for every device. *)
Definition ext_stat (n : ExtInodeOps) : vol Stat :=
  v ← st_get;
  let ino := ext2inode n in
  let blk_size := block_size (e2_device v) in
  k ← st_lift (uadd 32 (i_size ino) (wrap 32 blk_size));
  k ← st_lift (usub k 1);
  blk_count ← st_lift (udiv k (wrap 32 blk_size));
  mret (mkStat 0 (inode_num n) (i_mode ino) (i_links_count ino) (i_uid ino) (i_gid ino) 0 (i_size ino)
          blk_size blk_count (i_atime ino) (i_mtime ino) (i_ctime ino)).
End Volume.

(** ** The inode operations *)

(** The volume and the data of the inodes made for it. *)
Record Ext2Fs (Dev : Type) := mkExt2Fs { fs_inner : Ext2FSInner Dev; fs_nodes : gmap nat ExtNode }.
Arguments mkExt2Fs {Dev} _ _.
Arguments fs_inner {Dev} _.
Arguments fs_nodes {Dev} _.

Section Ops.
Context {Dev : Type} `{BlockDevice Dev} (now : Z).
Abbreviation S := (FsState (Ext2Fs Dev)).
Abbreviation op := (st S FileError).

Definition on_volume {A} (m : st (Ext2FSInner Dev) FileError A) : op A := fun s =>
  let '(r, v) := m (fs_inner (dev s)) in
  (r, mkFs (inodes s) (files s) (mkExt2Fs v (fs_nodes (dev s)))).
Definition put_node (i : nat) (n : ExtNode) : op unit := fun s =>
  (Ok tt, mkFs (inodes s) (files s) (mkExt2Fs (fs_inner (dev s)) (<[i := n]> (fs_nodes (dev s))))).
Definition node_of (i : nat) : op ExtNode := fun s => (unwrap (fs_nodes (dev s) !! i), s).

(** Running a method of the file behind inode [i]. *)
Definition on_file {A} (i : nat) (f : ExtInodeOps)
    (m : Z -> st (Ext2Inode * Ext2FSInner Dev) FileError A) : op A := fun s =>
  let '(r, (ino, v)) := m (inode_num f) (ext2inode f, fs_inner (dev s)) in
  (r, mkFs (inodes s) (files s)
        (mkExt2Fs v (<[i := ExtFileNode (mkExtOps ino (inode_num f))]> (fs_nodes (dev s))))).

(** A new inode object for the on-disk inode: every lookup makes its own. *)
Definition new_inode (ino : Ext2Inode) (num : Z) (node : ExtInodeOps -> ExtNode) : op nat :=
  x ← st_lift (convert_ext2_inode_to_vfs_inode ino num);
  i ← alloc_inode x;
  _ ← put_node i (node (mkExtOps ino num));
  mret i.

Definition ext2_root_dir : op nat :=
  ino ← on_volume (read_inode "Error Parsing Inode" ROOT_INODE_NUM);
  new_inode ino ROOT_INODE_NUM ExtDirNode.

Definition ext_dir_unlink (name : string) : op unit :=
  s ← st_get;
  if e2_read_only (fs_inner (dev s)) then st_lift (Err ReadOnlyFilesystem)
  else _ ← on_volume (free_inode 0); st_lift Panic.

Definition ext_dir_lookup (d : ExtInodeOps) (name : string) : op nat :=
  entries ← on_volume (get_dentries (ext2inode d));
  entry ← st_lift (ok_or NotFound (List.find (fun e => bool_decide (ede_name e = name)) entries));
  ino ← on_volume (read_inode "Error parsing inode" (ede_inode entry));
  let t := Z.land (i_mode ino) 0xF000 in
  if t =? 0x4000 then new_inode ino (ede_inode entry) ExtDirNode
  else if t =? 0x8000 then new_inode ino (ede_inode entry) ExtFileNode
  else if t =? 0xA000 then st_lift Panic
  else st_lift (Err (Other "Unsupported file type")).

Definition ext_dir_create : op nat := st_lift (Err ReadOnlyFilesystem).

Fixpoint ext_dir_entries (entries : list Ext2DirEntry) (offset : Z) : op (list DirEntry) :=
  match entries with
  | [] => mret []
  | e :: entries =>
      ino ← on_volume (read_inode "Error Parsing Inode" (ede_inode e));
      let t := Z.land (i_mode ino) 0xF000 in
      i ← (if t =? 0x4000 then new_inode ino (ede_inode e) ExtDirNode
           else if t =? 0x8000 then new_inode ino (ede_inode e) ExtFileNode
           else st_lift (Err (Other "Unsupported file type")));
      ft ← st_lift (mode_type (i_mode ino));
      next ← st_lift (uadd 64 offset (ede_rec_len e));
      rest ← ext_dir_entries entries next;
      mret (mkDirEntry (ede_name e) i offset ft :: rest)
  end.
Definition ext_dir_read_dir (d : ExtInodeOps) : op (list DirEntry) :=
  dentries ← on_volume (get_dentries (ext2inode d));
  ext_dir_entries dentries 0.

Definition on_dir_node {A} (i : nat) (m : ExtInodeOps -> op A) : op A :=
  n ← node_of i;
  match n with ExtDirNode d => m d | ExtFileNode _ => st_lift (Err NotADirectory) end.
Definition on_ext_file_node {A} (i : nat) (m : Z -> st (Ext2Inode * Ext2FSInner Dev) FileError A) : op A :=
  n ← node_of i;
  match n with ExtDirNode _ => st_lift (Err IsADirectory) | ExtFileNode f => on_file i f m end.

#[export] Instance ext2_ops : InodeOps (Ext2Fs Dev) := {
  op_read i offset buf := on_ext_file_node i (fun k => ext_file_read now k offset buf);
  op_write i offset buf := on_ext_file_node i (fun k => ext_file_write now k offset buf);
  op_truncate i size := on_ext_file_node i (fun k => ext_file_truncate now k size);
  op_sync i := n ← node_of i;
    match n with ExtDirNode _ => mret tt | ExtFileNode f => on_file i f (sync_this now) end;
  op_unlink i name := on_dir_node i (fun d => ext_dir_unlink name);
  op_lookup i name := on_dir_node i (fun d => ext_dir_lookup d name);
  op_create i name kind perms := on_dir_node i (fun d => ext_dir_create);
  op_read_dir i := on_dir_node i ext_dir_read_dir;
  op_stat i := n ← node_of i;
    match n with ExtDirNode d => on_volume (ext_stat d) | ExtFileNode f => on_volume (ext_stat f) end;
}.
End Ops.

(** ** The laws of the inode operations *)
Section Laws.
Context {Dev : Type} `{HB : BlockDevice Dev} {HK : KeepsLength Dev} (now : Z).

Lemma on_vol_Ok {A} (m : st (Ext2FSInner Dev) FileError A) iv a iv' :
  on_vol m iv = (Ok a, iv') -> exists v', m iv.2 = (Ok a, v') /\ iv' = (iv.1, v').
Proof using. destruct iv as [i v]. unfold on_vol. cbn. destruct (m v) as [r v'] eqn:Hm. intros [= -> <-]. eauto. Qed.
Lemma on_dev_Ok {A} (m : st Dev FileError A) v a v' :
  on_dev m v = (Ok a, v') -> exists d', m (e2_device v) = (Ok a, d') /\ v' = with_device v d'.
Proof using. unfold on_dev. destruct (m _) as [r d'] eqn:Hm. intros [= -> <-]. eauto. Qed.
Lemma st_map_err_Ok {S E F A} (f : E -> F) (m : st S E A) s a s' :
  st_map_err f m s = (Ok a, s') -> m s = (Ok a, s').
Proof using. unfold st_map_err. destruct (m s) as [[]]; cbn; by intros [= -> <-]. Qed.

Lemma read_from_length o n (v : Ext2FSInner Dev) bs v' : read_from o n v = (Ok bs, v') -> length bs = n.
Proof using HK.
  unfold read_from. intros (? & ? & _ & Hr)%st_bind_Ok. apply on_dev_Ok in Hr as (? & Hr & _).
  apply st_map_err_Ok in Hr. unfold read_exact in Hr. apply read_loop_length in Hr. by rewrite Hr, length_replicate.
Qed.

Lemma ext_read_loop_count fuel blocks bs n o acc (v : Ext2FSInner Dev) acc' v' :
  Z.of_nat (length acc) <= n -> ext_read_loop fuel blocks bs n o acc v = (Ok acc', v') ->
  Z.of_nat (length acc') <= n.
Proof using HK.
  revert o acc v. induction fuel as [|fuel IH]; intros o acc v Hacc Hr; [done|]. cbn [ext_read_loop] in Hr.
  destruct (Z.ltb_spec (Z.of_nat (length acc)) n); [|inv_st; by simplify_eq].
  inv_st. destruct (blocks !! _) as [b|]; [|inv_st; by simplify_eq].
  destruct (b =? 0); inv_st; (eapply IH; [|eassumption]); rewrite length_app.
  - rewrite length_replicate. lia.
  - match goal with Hd : read_from _ _ _ = _ |- _ => apply read_from_length in Hd end. lia.
Qed.

Lemma ext_file_read_count k o buf iv n buf' iv' :
  ext_file_read (Dev := Dev) now k o buf iv = (Ok (n, buf'), iv') ->
  0 <= n <= Z.of_nat (length buf) /\ length buf' = length buf.
Proof using HK.
  unfold ext_file_read. intros Hr. inv_st. destruct (Z.leb_spec (i_size x) o); inv_st; [simplify_eq; lia|].
  destruct (_ =? 0); inv_st; [simplify_eq; lia|].
  match goal with Hl : on_vol (ext_read_loop _ _ _ _ _ _) _ = _ |- _ =>
    apply on_vol_Ok in Hl as (? & Hl & _); apply ext_read_loop_count in Hl; [|cbn; lia] end.
  simplify_eq. rewrite length_app, length_drop. lia.
Qed.
Lemma ext_file_write_count k o buf iv n iv' :
  ext_file_write (Dev := Dev) now k o buf iv = (Ok n, iv') -> 0 <= n <= Z.of_nat (length buf).
Proof using.
  unfold ext_file_write. intros Hr. inv_st. destruct (e2_read_only _); inv_st; [done|].
  destruct (Nat.eqb _ _); inv_st; simplify_eq; lia.
Qed.

Lemma on_file_files {A} i f m (s : FsState (Ext2Fs Dev)) (r : outcome FileError A) s' :
  on_file i f m s = (r, s') -> files s' = files s.
Proof using. unfold on_file. destruct (m _ _) as [? [? ?]]. by intros [= ? <-]. Qed.
Lemma on_ext_file_node_files {A} i m (s : FsState (Ext2Fs Dev)) (r : outcome FileError A) s' :
  on_ext_file_node i m s = (r, s') -> files s' = files s.
Proof using.
  unfold on_ext_file_node, mbind, st_bind, node_of.
  destruct (fs_nodes _ !! i) as [[d|f]|]; cbn; [by intros [= ? <-]|apply on_file_files|by intros [= ? <-]].
Qed.
Lemma on_ext_file_node_Ok {A} i m (s : FsState (Ext2Fs Dev)) (a : A) s' :
  on_ext_file_node i m s = (Ok a, s') -> exists k iv iv', m k iv = (Ok a, iv').
Proof using.
  unfold on_ext_file_node, mbind, st_bind, node_of. destruct (fs_nodes _ !! i) as [[d|f]|]; cbn; try done.
  unfold on_file. destruct (m _ _) as [? [? ?]] eqn:Hm. intros [= -> <-]. eauto.
Qed.

#[export] Instance ext2_ops_laws : @InodeOpsLaws _ (ext2_ops (Dev := Dev) now).
Proof using HK.
  split; cbn.
  - intros *. apply on_ext_file_node_files.
  - intros *. apply on_ext_file_node_files.
  - intros * Hs. unfold mbind, st_bind, node_of in Hs.
    destruct (fs_nodes _ !! i) as [[d|f]|]; cbn in Hs; [by injection Hs as ? <-|by apply on_file_files in Hs|by injection Hs as ? <-].
  - intros * Hr. apply on_ext_file_node_Ok in Hr as (? & ? & ? & Hr). by eapply ext_file_read_count.
  - intros * Hr. apply on_ext_file_node_Ok in Hr as (? & ? & ? & Hr). by eapply ext_file_write_count.
Qed.

Lemma ext_on_volume_keeps {A} m : keeps_files (on_volume (Dev := Dev) (A := A) m).
Proof using. intros s. unfold on_volume. by destruct (m _). Qed.
Lemma new_inode_keeps ino n node : keeps_files (new_inode (Dev := Dev) ino n node).
Proof using. unfold new_inode. solve_keeps. Qed.
#[local] Hint Resolve ext_on_volume_keeps new_inode_keeps : keeps.
#[export] Instance ext2_dir_laws : @DirOpsLaws _ (ext2_ops (Dev := Dev) now).
Proof using.
  split; cbn; [intros i name|intros i name kind perms|intros i size].
  - unfold on_dir_node, ext_dir_lookup. apply keeps_bind; [done|intros [d|f]; [solve_keeps|done]].
  - unfold on_dir_node. apply keeps_bind; [done|by intros [d|f]].
  - intros s. destruct (on_ext_file_node _ _ s) as [r s'] eqn:Hs. by apply on_ext_file_node_files in Hs.
Qed.
Lemma ext2_root_keeps : keeps_files (ext2_root_dir (Dev := Dev)).
Proof using. unfold ext2_root_dir. solve_keeps. Qed.
End Laws.
