(* ===== verification/Ext2Blocks.v ===== *)
(** * Blocks of an ext2 volume (zenos-kernel/src/disk/fs/ext2/mod.rs)

    The groups with a copy of the superblock, the bitmaps as sets of blocks, and what
    allocating and freeing a block do to a consistent volume. *)
From S2P Require Import Prelude OpenFile Bytes BlockDev Ext2 Ext2Fs.

(** ** Groups with a copy of the superblock *)
Section Backups.

(** The loop ends, at the first power that is not below [group], or at the last one that
    fits 32 bits. *)
Lemma power_reach_ends fuel base power group :
  2 <= base -> 1 <= power < 2 ^ 32 -> 2 ^ 32 <= power * 2 ^ Z.of_nat fuel ->
  exists i, power_reach fuel base power group = Some (power * base ^ Z.of_nat i) /\
    (forall j, (j < i)%nat -> power * base ^ Z.of_nat j < group) /\
    (group <= power * base ^ Z.of_nat i \/ 2 ^ 32 <= power * base ^ Z.of_nat (S i)).
Proof.
  intros Hb. revert power. induction fuel as [|fuel IH]; intros power Hp Hf.
  { cbn in Hf. lia. }
  cbn [power_reach]. destruct (Z.ltb_spec power group).
  2:{ exists 0%nat. rewrite Z.mul_1_r. split_and!; [done|lia|lia]. }
  destruct (Z.ltb_spec (power * base) (2 ^ 32)).
  2:{ exists 0%nat. rewrite Z.mul_1_r. split_and!; [done|lia|]. right. change (Z.of_nat 1) with 1. lia. }
  assert (power * 2 <= power * base) by (apply Z.mul_le_mono_nonneg_l; lia).
  rewrite Nat2Z.inj_succ, Z.pow_succ_r in Hf by lia.
  assert (power * 2 * 2 ^ Z.of_nat fuel <= power * base * 2 ^ Z.of_nat fuel) by (apply Z.mul_le_mono_nonneg_r; lia).
  destruct (IH (power * base)) as (i & Hr & Hlt & Hend); [lia|lia|].
  exists (S i). assert (forall j, power * base * base ^ Z.of_nat j = power * base ^ Z.of_nat (S j)) as Hs.
  { intros j. rewrite Nat2Z.inj_succ, Z.pow_succ_r by lia. lia. }
  rewrite Hr, Hs. split; [done|]. rewrite !Hs in Hend. split; [|done].
  intros [|j] Hj; [rewrite Z.mul_1_r; lia|]. rewrite <-Hs. apply Hlt. lia.
Qed.

Lemma power_reach_power base group :
  2 <= base < 2 ^ 32 -> group < 2 ^ 32 ->
  power_reach 32 base base group = Some group <-> exists k, 1 <= k /\ group = base ^ k.
Proof.
  intros Hb Hg.
  destruct (power_reach_ends 32 base base group) as (i & -> & Hlt & Hend); [lia|lia|change (Z.of_nat 32) with 32; lia|].
  assert (forall j, base * base ^ Z.of_nat j = base ^ Z.of_nat (S j)) as Hs.
  { intros j. rewrite Nat2Z.inj_succ, Z.pow_succ_r by lia. lia. }
  rewrite !Hs in Hend. split.
  - intros [= <-]. exists (Z.of_nat (S i)). rewrite Hs. lia.
  - intros (k & Hk & ->). f_equal. rewrite Hs.
    destruct (Z.lt_trichotomy k (Z.of_nat (S i))) as [Hki|[->|Hki]]; [|done|].
    + specialize (Hlt (Z.to_nat (k - 1)) ltac:(lia)). rewrite Hs in Hlt.
      replace (Z.of_nat (S (Z.to_nat (k - 1)))) with k in Hlt by lia. lia.
    + assert (base ^ Z.of_nat (S (S i)) <= base ^ k) by (apply Z.pow_le_mono_r; lia).
      assert (base ^ Z.of_nat (S i) < base ^ k) by (apply Z.pow_lt_mono_r; lia). lia.
Qed.

(** The search for a power ends and decides exactly what the comment says: the groups
    with a copy of the superblock are 0, 1 and the powers of 3, 5 and 7. *)
Theorem superblock_backup_groups group :
  is_u 32 group ->
  has_superblock_backup group = true <->
  group = 0 \/ group = 1 \/ exists base k, base ∈ [3; 5; 7] /\ 1 <= k /\ group = base ^ k.
Proof.
  intros [H0 Hg]. unfold has_superblock_backup. rewrite !orb_true_iff, !Z.eqb_eq, existsb_exists.
  split.
  - intros [[?|?]|(base & Hin & Hr)]; [tauto..|]. do 2 right. apply bool_decide_eq_true in Hr.
    assert (2 <= base < 2 ^ 32) by (cbn in Hin; lia). apply power_reach_power in Hr as (k & ? & ?); [|done..].
    exists base, k. split; [|done]. by apply list_elem_of_In.
  - intros [?|[?|(base & k & Hin & Hk & ->)]]; [tauto..|]. right. exists base. apply list_elem_of_In in Hin.
    split; [done|]. apply bool_decide_eq_true. apply power_reach_power; [cbn in Hin; lia|done|eauto].
Qed.
End Backups.

Lemma superblock_backup_groups_witness :
  has_superblock_backup 2401 = true /\ has_superblock_backup 2402 = false.
Proof.
  split; [|reflexivity]. apply (superblock_backup_groups 2401); [split; vm_compute; congruence|].
  do 2 right. exists 7, 4. split; [|split; [lia|reflexivity]]. repeat constructor.
Defined.

(** ** Bitmaps *)

(** Bit [i] of a bitmap; there is nothing to take outside it. *)
Definition bit (bm : bytes) (i : nat) : bool :=
  match bm !! (i / 8)%nat with Some x => Z.testbit x (Z.of_nat (i mod 8)) | None => true end.
Definition clear_bits (bm : bytes) : list nat := List.filter (fun i => negb (bit bm i)) (seq 0 (8 * length bm)).
Definition free_bits (bm : bytes) : nat := length (clear_bits bm).

Section Bitmaps.

Lemma bit_split (i j : nat) (b : Z) :
  0 <= b < 8 -> i = (8 * j + Z.to_nat b)%nat <-> (i / 8 = j /\ i mod 8 = Z.to_nat b)%nat.
Proof.
  intros Hb. split.
  - intros ->. split.
    + symmetry. apply (Nat.div_unique _ 8 j (Z.to_nat b)); lia.
    + symmetry. apply (Nat.mod_unique _ 8 j (Z.to_nat b)); lia.
  - intros [<- <-]. apply Nat.div_mod. lia.
Qed.

(** Replacing byte [j]: only its eight bits can change. *)
Lemma bit_insert bm (j : nat) x i :
  (j < length bm)%nat ->
  bit (<[j := x]> bm) i = if decide (i / 8 = j)%nat then Z.testbit x (Z.of_nat (i mod 8)) else bit bm i.
Proof.
  intros Hj. unfold bit. destruct (decide _) as [->|Hne].
  - by rewrite list_lookup_insert_eq.
  - by rewrite list_lookup_insert_ne.
Qed.

Lemma bit_set bm (j : nat) x b i :
  bm !! j = Some x -> 0 <= b < 8 ->
  bit (<[j := Z.lor x (Z.shiftl 1 b)]> bm) i = bit bm i || bool_decide (i = (8 * j + Z.to_nat b)%nat).
Proof.
  intros Hx Hb. rewrite bit_insert by (by eapply lookup_lt_Some).
  rewrite (bool_decide_ext _ _ (bit_split i j b Hb)). unfold bit. destruct (decide _) as [->|Hne].
  - rewrite Hx, Z.lor_spec, one_bit_testbit by lia. f_equal. apply bool_decide_ext. lia.
  - rewrite (bool_decide_eq_false_2 _) by tauto. by rewrite orb_false_r.
Qed.
Lemma bit_clear bm (j : nat) x b i :
  bm !! j = Some x -> is_byte x -> 0 <= b < 8 ->
  bit (<[j := Z.land x (unot 8 (Z.shiftl 1 b))]> bm) i = bit bm i && negb (bool_decide (i = (8 * j + Z.to_nat b)%nat)).
Proof.
  intros Hx Hbyte Hb. rewrite bit_insert by (by eapply lookup_lt_Some).
  rewrite (bool_decide_ext _ _ (bit_split i j b Hb)). unfold bit. destruct (decide _) as [->|Hne].
  - rewrite Hx, land_unot, Z.ldiff_spec, one_bit_testbit by (done || lia). do 2 f_equal. apply bool_decide_ext. lia.
  - rewrite (bool_decide_eq_false_2 _) by tauto. by rewrite andb_true_r.
Qed.

Lemma first_zero_bit_Some x b : first_zero_bit x = Some b -> 0 <= b < 8 /\ Z.testbit x b = false.
Proof.
  unfold first_zero_bit. intros Hf. apply find_some in Hf as [Hin Hz]. apply list_elem_of_In, elem_of_seqZ in Hin.
  split; [lia|]. rewrite land_one_bit_zero in Hz by lia. by apply negb_true_iff.
Qed.
Lemma first_zero_bit_None x b : first_zero_bit x = None -> 0 <= b < 8 -> Z.testbit x b = true.
Proof.
  unfold first_zero_bit. intros Hf Hb. assert (In b (seqZ 0 8)) as Hin by (apply list_elem_of_In, elem_of_seqZ; lia).
  pose proof (find_none _ _ Hf b Hin) as Hz. cbn beta in Hz. rewrite land_one_bit_zero in Hz by lia.
  by apply negb_false_iff.
Qed.

(** What the search finds is a clear bit; when it finds none the bitmap is full. *)
Lemma find_free_bit_Some bm k j x b :
  find_free_bit bm k = Some (j, x, b) ->
  (k <= j)%nat /\ bm !! (j - k)%nat = Some x /\ 0 <= b < 8 /\ Z.testbit x b = false.
Proof.
  revert k. induction bm as [|y bm IH]; intros k; cbn [find_free_bit]; [done|]. intros Hf.
  assert (find_free_bit bm (S k) = Some (j, x, b) -> (k <= j)%nat /\ (y :: bm) !! (j - k)%nat = Some x /\
            0 <= b < 8 /\ Z.testbit x b = false) as Hnext.
  { intros (? & Hl & ? & ?)%IH. replace (j - k)%nat with (S (j - S k)) by lia. cbn. split; [lia|done]. }
  destruct (y =? 255); [by apply Hnext|]. destruct (first_zero_bit y) as [b'|] eqn:Hz; [|by apply Hnext].
  injection Hf as <- <- <-. apply first_zero_bit_Some in Hz. rewrite Nat.sub_diag. done.
Qed.
Lemma find_free_bit_None bm k i :
  find_free_bit bm k = None -> bit bm i = true.
Proof.
  unfold bit. intros Hf. destruct (bm !! _) as [x|] eqn:Hx; [|done]. revert k Hf. 
  generalize dependent (i / 8)%nat. intros j Hx.
  assert (0 <= Z.of_nat (i mod 8) < 8) as Hm by (pose proof (Nat.mod_upper_bound i 8); lia).
  revert j Hx. induction bm as [|y bm IH]; intros j Hx k; [done|]. cbn [find_free_bit].
  destruct j as [|j]; cbn in Hx.
  - simplify_eq. destruct (Z.eqb_spec x 255) as [->|].
    { intros _. change 255 with (Z.ones 8). by apply Z.ones_spec_low. }
    destruct (first_zero_bit x) eqn:Hz; [done|]. intros _. by apply first_zero_bit_None.
  - destruct (y =? 255); [by eapply IH|]. destruct (first_zero_bit y); [done|]. by eapply IH.
Qed.

(** Taking a clear bit leaves one clear bit less. *)
Lemma filter_one (f g : nat -> bool) l k :
  NoDup l -> k ∈ l -> f k = true -> g k = false -> (forall i, i <> k -> f i = g i) ->
  length (List.filter f l) = S (length (List.filter g l)).
Proof.
  intros Hnd Hk Hf Hg Hfg. induction l as [|y l IH]; [by apply elem_of_nil in Hk|].
  apply NoDup_cons in Hnd as [Hy Hnd]. cbn. destruct (decide (y = k)) as [->|Hne].
  - rewrite Hf, Hg. cbn. f_equal. f_equal. apply filter_ext_in. intros i Hi. apply Hfg.
    intros ->. apply Hy. by apply list_elem_of_In.
  - rewrite Hfg by done. apply elem_of_cons in Hk as [?|Hk]; [done|]. specialize (IH Hnd Hk).
    destruct (g y); cbn; lia.
Qed.
Lemma free_bits_set bm bm' k :
  length bm' = length bm -> (k < 8 * length bm)%nat -> bit bm k = false ->
  (forall i, bit bm' i = bit bm i || bool_decide (i = k)) -> free_bits bm = S (free_bits bm').
Proof.
  intros Hl Hk Hb Hi. unfold free_bits, clear_bits. rewrite Hl.
  apply filter_one with k; [apply NoDup_seq|apply elem_of_seq; lia|by rewrite Hb| |].
  - by rewrite Hi, bool_decide_eq_true_2, orb_true_r.
  - intros i Hne. by rewrite Hi, bool_decide_eq_false_2, orb_false_r.
Qed.
Lemma free_bits_full bm : (forall i, bit bm i = true) -> free_bits bm = 0%nat.
Proof.
  intros Hi. unfold free_bits, clear_bits. induction (seq _ _) as [|k l IH]; [done|]. cbn. by rewrite Hi.
Qed.
Lemma free_bits_pos bm k : (k < 8 * length bm)%nat -> bit bm k = false -> (0 < free_bits bm)%nat.
Proof.
  intros Hk Hb. unfold free_bits, clear_bits. 
  assert (In k (List.filter (fun i => negb (bit bm i)) (seq 0 (8 * length bm)))) as Hin.
  { apply filter_In. rewrite Hb. split; [|done]. apply in_seq. lia. }
  destruct (List.filter _ _); [done|]. cbn. lia.
Qed.
End Bitmaps.

(** ** Running operations on the bytes of a volume

    [abs v] is the volume [v] with its device replaced by the bytes on it; [evals m a r a']
    says that [m] run on any volume with the bytes and fields of [a] returns [r] and leaves
    a volume with those of [a']. *)
Section Eval.
Context {Dev : Type} `{HB : BlockDevice Dev} {HL : BlockDeviceLaws Dev}.
Abbreviation vol := (st (Ext2FSInner Dev) FileError).

Definition abs (v : Ext2FSInner Dev) : Ext2FSInner bytes :=
  mkExt2 (contents (e2_device v)) (e2_partition_offset v) (e2_superblock v) (e2_bgdts v) (e2_read_only v).
Definition evals {A} (m : vol A) (a : Ext2FSInner bytes) (r : outcome FileError A) (a' : Ext2FSInner bytes) : Prop :=
  forall v, abs v = a -> exists v', m v = (r, v') /\ abs v' = a'.

Lemma evals_bind {A B} (m : vol A) (k : A -> vol B) a x a1 r a2 :
  evals m a (Ok x) a1 -> evals (k x) a1 r a2 -> evals (m ≫= k) a r a2.
Proof.
  intros Hm Hk v Hv. destruct (Hm v Hv) as (v1 & Hm1 & Hv1). destruct (Hk v1 Hv1) as (v2 & Hk2 & Hv2).
  exists v2. split; [|done]. unfold mbind, st_bind. by rewrite Hm1.
Qed.
Lemma evals_bind_err {A B} (m : vol A) (k : A -> vol B) a e a1 :
  evals m a (Err e) a1 -> evals (m ≫= k) a (Err e) a1.
Proof.
  intros Hm v Hv. destruct (Hm v Hv) as (v1 & Hm1 & Hv1). exists v1. split; [|done].
  unfold mbind, st_bind. by rewrite Hm1.
Qed.
Lemma evals_lift {A} (o : outcome FileError A) a : evals (st_lift o) a o a.
Proof. intros v Hv. by exists v. Qed.
Lemma evals_ret {A} (x : A) a : evals (mret x) a (Ok x) a.
Proof. intros v Hv. by exists v. Qed.
Lemma evals_get {B} (k : Ext2FSInner Dev -> vol B) a r a' :
  (forall v, abs v = a -> evals (k v) a r a') -> evals (st_get ≫= k) a r a'.
Proof. intros Hk v Hv. by apply (Hk v). Qed.
Lemma evals_modify f g a : (forall v, abs v = a -> abs (f v) = g) -> evals (modify f) a (Ok tt) g.
Proof. intros Hf v Hv. exists (f v). split; [done|by apply Hf]. Qed.

Lemma evals_read_from o n a :
  0 <= o -> o + Z.of_nat n <= Z.of_nat (length (e2_device a)) ->
  evals (read_from o n) a (Ok (sub_bytes (Z.to_nat o) n (e2_device a))) a.
Proof using HL.
  intros Ho Hn v <-. cbn in Hn. destruct (seek_start o (e2_device v) Ho) as (s1 & Hs1 & Hc1 & Hp1 & _).
  destruct (read_loop_inside (length (replicate n 0) + 1) (replicate n 0) s1)
    as (s2 & Hs2 & Hc2 & _ & _); [lia|rewrite length_replicate, Hc1; lia|lia|].
  exists (with_device v s2). split.
  - unfold read_from, mbind, st_bind, on_dev, st_map_err, read_exact. rewrite Hs1. cbn. rewrite Hs2.
    cbn. by rewrite length_replicate, Hc1, Hp1.
  - unfold abs. cbn. by rewrite Hc2, Hc1.
Qed.
Lemma evals_write_to o buf a :
  0 <= o -> o + Z.of_nat (length buf) <= Z.of_nat (length (e2_device a)) ->
  evals (write_to o buf) a (Ok tt) (with_device a (put (Z.to_nat o) buf (e2_device a))).
Proof using HL.
  intros Ho Hn v <-. cbn in Hn. destruct (seek_start o (e2_device v) Ho) as (s1 & Hs1 & Hc1 & Hp1 & _).
  destruct (write_inside buf s1) as (s2 & Hs2 & Hc2 & _ & _); [lia|rewrite Hc1, Hp1; lia|].
  exists (with_device v s2). split.
  - unfold write_to, mbind, st_bind, on_dev, st_map_err. rewrite Hs1. cbn. by rewrite Hs2.
  - unfold abs. cbn. unfold with_device. cbn. by rewrite Hc2, Hc1, Hp1.
Qed.
Lemma abs_superblock v a : abs v = a -> e2_superblock v = e2_superblock a.
Proof. by intros <-. Qed.
Lemma abs_bgdts v a : abs v = a -> e2_bgdts v = e2_bgdts a.
Proof. by intros <-. Qed.
Lemma abs_partition_offset v a : abs v = a -> e2_partition_offset v = e2_partition_offset a.
Proof. by intros <-. Qed.
Lemma abs_read_only v a : abs v = a -> e2_read_only v = e2_read_only a.
Proof. by intros <-. Qed.

Lemma evals_with_bgdt g d a : evals (modify (fun v => with_bgdt v g d)) a (Ok tt) (with_bgdt a g d).
Proof. apply evals_modify. by intros v <-. Qed.
Lemma evals_with_superblock h a :
  evals (modify (fun v => with_superblock v (h (e2_superblock v)))) a (Ok tt) (with_superblock a (h (e2_superblock a))).
Proof. apply evals_modify. by intros v <-. Qed.
End Eval.

(** ** Consistent volumes *)

(** The part of a volume no operation changes. *)
Record Geometry := mkGeo {
  g_po : Z;
  g_log : Z;
  g_fdb : Z;
  g_bpg : Z;
  g_nblk : Z;
  g_ipg : Z;
  g_isz : Z;
  g_ro_compat : Z;
  g_bms : list Z;
  g_ibms : list Z;
  g_its : list Z;
  g_ro : bool;
  g_len : nat;
}.
Definition static (a : Ext2FSInner bytes) : Geometry :=
  let sb := e2_superblock a in
  mkGeo (e2_partition_offset a) (sb_log_blk_size sb) (sb_first_data_blk sb) (sb_blocks_per_grp sb)
    (sb_blk_count sb) (sb_inodes_per_grp sb) (sb_inode_size sb) (sb_feature_ro_compat sb)
    (bg_block_bitmap <$> e2_bgdts a) (bg_inode_bitmap <$> e2_bgdts a) (bg_inode_table <$> e2_bgdts a)
    (e2_read_only a) (length (e2_device a)).
Definition bsz (G : Geometry) : Z := 2 ^ (10 + g_log G).

Record geom_ok (G : Geometry) : Prop := {
  go_log : 0 <= g_log G <= 6;
  go_po : 0 <= g_po G;
  go_end : g_po G + g_nblk G * bsz G <= Z.of_nat (g_len G);
  go_len : Z.of_nat (g_len G) < 2 ^ 63;
  go_bpg : 0 < g_bpg G <= 65535;
  go_bits : g_bpg G <= 8 * bsz G;
  go_fdb : 0 <= g_fdb G < g_nblk G;
  go_nblk : g_nblk G + g_bpg G < 2 ^ 32;
  go_groups : Z.of_nat (length (g_bms G)) = (g_nblk G + g_bpg G - 1) / g_bpg G;
  go_bms : Forall (fun m => 0 <= m < g_nblk G) (g_bms G);
  go_nodup : NoDup (g_bms G);
}.

(** Where block [b] starts, and its bytes; the bitmap of a group. *)
Definition blk_start (G : Geometry) (b : Z) : nat := Z.to_nat (g_po G + b * bsz G).
Definition blk (G : Geometry) (cs : bytes) (b : Z) : bytes := sub_bytes (blk_start G b) (Z.to_nat (bsz G)) cs.
Definition bitmap (G : Geometry) (cs : bytes) (g : nat) : bytes := blk G cs (g_bms G !!! g).
(** Whether block [b] is marked in the bitmap of its group. *)
Definition used (G : Geometry) (cs : bytes) (b : Z) : bool :=
  bit (bitmap G cs (Z.to_nat ((b - g_fdb G) / g_bpg G))) (Z.to_nat ((b - g_fdb G) mod g_bpg G)).
(** The bits of a group that stand for no block are marked. *)
Definition padded (G : Geometry) (g : nat) (bm : bytes) : Prop :=
  forall i, (i < 8 * length bm)%nat ->
    g_bpg G <= Z.of_nat i \/ g_nblk G <= g_fdb G + Z.of_nat g * g_bpg G + Z.of_nat i -> bit bm i = true.
Definition sum_free (l : list BlockGroupDescriptorTable) : Z := foldr Z.add 0 (bg_free_blocks_count <$> l).

Record vol_ok (G : Geometry) (a : Ext2FSInner bytes) : Prop := {
  vo_static : static a = G;
  vo_sb : sb_ok (e2_superblock a);
  vo_bgd : Forall bgd_ok (e2_bgdts a);
  vo_bytes : Forall is_byte (e2_device a);
  vo_pad g : (g < length (g_bms G))%nat -> padded G g (bitmap G (e2_device a) g);
  vo_counts g d : e2_bgdts a !! g = Some d ->
    bg_free_blocks_count d = Z.of_nat (free_bits (bitmap G (e2_device a) g));
  vo_total : sb_free_blocks (e2_superblock a) = sum_free (e2_bgdts a);
}.

Section Blocks.
Context (G : Geometry) (HG : geom_ok G).

Lemma bsz_range : 1024 <= bsz G <= 65536.
Proof using HG.
  destruct HG. unfold bsz. change 1024 with (2 ^ 10). change 65536 with (2 ^ 16).
  split; apply Z.pow_le_mono_r; lia.
Qed.
Lemma blk_bound b : 0 <= b < g_nblk G -> 0 <= g_po G + b * bsz G /\ g_po G + b * bsz G + bsz G <= Z.of_nat (g_len G).
Proof using HG.
  intros Hb. pose proof bsz_range. destruct HG.
  assert (0 <= b * bsz G) by (apply Z.mul_nonneg_nonneg; lia).
  assert ((b + 1) * bsz G <= g_nblk G * bsz G) by (apply Z.mul_le_mono_nonneg_r; lia). lia.
Qed.
Lemma blk_length cs b : length cs = g_len G -> 0 <= b < g_nblk G -> length (blk G cs b) = Z.to_nat (bsz G).
Proof using HG.
  intros Hl Hb. pose proof (blk_bound b Hb). pose proof bsz_range. unfold blk, blk_start. apply sub_bytes_length. rewrite Hl. lia.
Qed.

(** Writing inside block [c]: no other block changes. *)
Lemma blk_put_other cs b c o buf :
  length cs = g_len G -> 0 <= b < g_nblk G -> 0 <= c < g_nblk G -> b <> c ->
  (o + length buf <= Z.to_nat (bsz G))%nat ->
  blk G (put (blk_start G c + o) buf cs) b = blk G cs b.
Proof using HG.
  intros Hl Hb Hc Hne Ho. pose proof (blk_bound b Hb). pose proof (blk_bound c Hc). pose proof bsz_range.
  unfold blk, blk_start in *. apply sub_bytes_put_away; [lia|].
  destruct (Z.lt_total b c) as [Hlt|[?|Hlt]]; [left|done|right].
  - assert ((b + 1) * bsz G <= c * bsz G) by (apply Z.mul_le_mono_nonneg_r; lia). lia.
  - assert ((c + 1) * bsz G <= b * bsz G) by (apply Z.mul_le_mono_nonneg_r; lia). lia.
Qed.
Lemma blk_put_same cs b o buf :
  length cs = g_len G -> 0 <= b < g_nblk G -> (o + length buf <= Z.to_nat (bsz G))%nat ->
  blk G (put (blk_start G b + o) buf cs) b = put o buf (blk G cs b).
Proof using HG.
  intros Hl Hb Ho. pose proof (blk_bound b Hb). pose proof bsz_range. unfold blk, blk_start in *.
  rewrite sub_bytes_put_in by lia. f_equal. lia.
Qed.
Lemma blk_put_whole cs b buf :
  length cs = g_len G -> 0 <= b < g_nblk G -> length buf = Z.to_nat (bsz G) ->
  blk G (put (blk_start G b) buf cs) b = buf.
Proof using HG.
  intros Hl Hb Ho. pose proof (blk_put_same cs b 0 buf Hl Hb ltac:(lia)) as Hp. rewrite Nat.add_0_r in Hp.
  rewrite Hp. apply put_whole. by rewrite blk_length, Ho.
Qed.
Lemma length_put_blk cs b o buf :
  length cs = g_len G -> 0 <= b < g_nblk G -> (o + length buf <= Z.to_nat (bsz G))%nat ->
  length (put (blk_start G b + o) buf cs) = g_len G.
Proof using HG. intros Hl Hb Ho. pose proof (blk_bound b Hb). pose proof bsz_range. unfold blk_start in *. rewrite length_put; lia. Qed.

Lemma bms_lookup g : (g < length (g_bms G))%nat -> 0 <= g_bms G !!! g < g_nblk G /\ g_bms G !! g = Some (g_bms G !!! g).
Proof using HG.
  intros Hg. destruct (lookup_lt_is_Some_2 _ _ Hg) as [m Hm].
  rewrite (list_lookup_total_correct _ _ _ Hm). split; [|done].
  exact (proj1 (Forall_lookup _ _) (go_bms _ HG) _ _ Hm).
Qed.
Lemma bitmap_length cs g : length cs = g_len G -> (g < length (g_bms G))%nat -> length (bitmap G cs g) = Z.to_nat (bsz G).
Proof using HG. intros Hl Hg. apply blk_length; [done|]. by apply bms_lookup. Qed.
(** Replacing the bitmap of one group. *)
Lemma bitmap_put cs g h bm :
  length cs = g_len G -> (g < length (g_bms G))%nat -> (h < length (g_bms G))%nat ->
  length bm = Z.to_nat (bsz G) ->
  bitmap G (put (blk_start G (g_bms G !!! g)) bm cs) h = if decide (h = g) then bm else bitmap G cs h.
Proof using HG.
  intros Hl Hg Hh Hbm. destruct (bms_lookup g Hg) as [Hmg Hlg]. destruct (bms_lookup h Hh) as [Hmh Hlh].
  unfold bitmap. destruct (decide (h = g)) as [->|Hne].
  - by apply blk_put_whole.
  - pose proof (blk_put_other cs (g_bms G !!! h) (g_bms G !!! g) 0 bm) as Ho. rewrite Nat.add_0_r in Ho.
    apply Ho; try done; [|lia]. intros Heq. apply Hne. rewrite Heq in Hlh.
    exact (NoDup_lookup _ _ _ _ (go_nodup _ HG) Hlh Hlg).
Qed.

(** Blocks and their places in the bitmaps. *)
Lemma place_of b :
  g_fdb G <= b < g_nblk G ->
  let g := Z.to_nat ((b - g_fdb G) / g_bpg G) in let i := Z.to_nat ((b - g_fdb G) mod g_bpg G) in
  (g < length (g_bms G))%nat /\ Z.of_nat i < g_bpg G /\ b = g_fdb G + Z.of_nat g * g_bpg G + Z.of_nat i.
Proof using HG.
  intros Hb g i. destruct HG. pose proof (Z.div_mod (b - g_fdb G) (g_bpg G) ltac:(lia)) as Hdm.
  pose proof (Z.mod_pos_bound (b - g_fdb G) (g_bpg G) ltac:(lia)) as Hm.
  assert (0 <= (b - g_fdb G) / g_bpg G) by (apply Z.div_pos; lia).
  assert ((b - g_fdb G) / g_bpg G < (g_nblk G + g_bpg G - 1) / g_bpg G).
  { apply Z.lt_le_trans with ((b + g_bpg G) / g_bpg G).
    - replace (b + g_bpg G) with (b + 1 * g_bpg G) by lia. rewrite Z.div_add by lia.
      pose proof (Z.div_le_mono (b - g_fdb G) b (g_bpg G)). lia.
    - apply Z.div_le_mono; lia. }
  unfold g, i. split_and!; lia.
Qed.
Lemma block_at_place g i :
  0 <= i < g_bpg G -> (g_fdb G + Z.of_nat g * g_bpg G + i - g_fdb G) / g_bpg G = Z.of_nat g /\
  (g_fdb G + Z.of_nat g * g_bpg G + i - g_fdb G) mod g_bpg G = i.
Proof using.
  intros Hi. replace (_ - _) with (i + Z.of_nat g * g_bpg G) by lia.
  rewrite Z.div_add, Z.mod_add, Z.div_small, Z.mod_small by lia. lia.
Qed.

(** ** Changing one bitmap *)

(** Group [g] gets the bitmap [bm]; [c] and [f] are the new counts of free blocks. *)
Definition with_bitmap (a : Ext2FSInner bytes) (g : nat) (d : BlockGroupDescriptorTable) (bm : bytes) (c f : Z) :
    Ext2FSInner bytes :=
  let a := with_device a (put (blk_start G (g_bms G !!! g)) bm (e2_device a)) in
  let a := with_bgdt a g (set_bg_free_blocks d c) in
  with_superblock a (sb_set_free_blocks (e2_superblock a) f).

Lemma sum_free_insert l g d d' :
  l !! g = Some d -> sum_free (<[g := d']> l) = sum_free l - bg_free_blocks_count d + bg_free_blocks_count d'.
Proof using.
  revert g. unfold sum_free. induction l as [|x l IH]; intros [|g] Hg; try done.
  - injection Hg as ->. cbn. lia.
  - etrans; [exact (f_equal (Z.add (bg_free_blocks_count x)) (IH g Hg))|]. cbn. lia.
Qed.
Lemma free_bits_padded g bm : padded G g bm -> Z.of_nat (free_bits bm) <= g_bpg G.
Proof using HG.
  intros Hp. destruct HG. unfold free_bits, clear_bits. set (n := Z.to_nat (g_bpg G)).
  assert (length (List.filter (fun i => negb (bit bm i)) (seq 0 (8 * length bm))) <= n)%nat; [|lia].
  destruct (decide (8 * length bm <= n)%nat) as [Hle|Hgt].
  { etrans; [apply filter_length_le|]. by rewrite length_seq. }
  replace (8 * length bm)%nat with (n + (8 * length bm - n))%nat by lia.
  rewrite seq_app, List.filter_app, length_app.
  assert (List.filter (fun i => negb (bit bm i)) (seq (0 + n) (8 * length bm - n)) = []) as ->.
  { assert (forall i, In i (seq (0 + n) (8 * length bm - n)) -> negb (bit bm i) = false) as Hall.
    { intros i Hi%in_seq. rewrite Hp; [done|lia|lia]. }
    revert Hall. generalize (seq (0 + n) (8 * length bm - n)). intros l Hall.
    induction l as [|i l IH]; [done|]. cbn. rewrite Hall by (by left). apply IH. intros j Hj. apply Hall. by right. }
  cbn. rewrite Nat.add_0_r. etrans; [apply filter_length_le|]. by rewrite length_seq.
Qed.
Lemma sum_free_bound (l : list BlockGroupDescriptorTable) :
  Forall (fun d => 0 <= bg_free_blocks_count d <= g_bpg G) l -> 0 <= sum_free l <= Z.of_nat (length l) * g_bpg G.
Proof using. unfold sum_free. induction 1 as [|d l Hd _ IH]; cbn [fmap list_fmap foldr length]; [cbn; lia|]. lia. Qed.

Lemma static_fields a :
  static a = G ->
  e2_partition_offset a = g_po G /\ sb_log_blk_size (e2_superblock a) = g_log G /\
  sb_first_data_blk (e2_superblock a) = g_fdb G /\ sb_blocks_per_grp (e2_superblock a) = g_bpg G /\
  bg_block_bitmap <$> e2_bgdts a = g_bms G /\ length (e2_device a) = g_len G.
Proof using. clear HG. by intros <-. Qed.
Lemma bgdts_lookup a g :
  static a = G -> (g < length (g_bms G))%nat ->
  exists d, e2_bgdts a !! g = Some d /\ bg_block_bitmap d = g_bms G !!! g.
Proof using.
  clear HG. intros <- Hg. cbn in *. rewrite length_fmap in Hg. destruct (lookup_lt_is_Some_2 _ _ Hg) as [d Hd].
  exists d. split; [done|]. symmetry. apply list_lookup_total_correct. by rewrite list_lookup_fmap, Hd.
Qed.
Lemma bgdts_length a : static a = G -> length (e2_bgdts a) = length (g_bms G).
Proof using. clear HG. intros <-. cbn. by rewrite length_fmap. Qed.

Lemma sb_ok_set_free_blocks sb f : sb_ok sb -> is_u 32 f -> sb_ok (sb_set_free_blocks sb f).
Proof using. by intros [] Hf. Qed.
Lemma bgd_ok_set_free_blocks d c : bgd_ok d -> is_u 16 c -> bgd_ok (set_bg_free_blocks d c).
Proof using. by intros [] Hc. Qed.

Lemma static_with_bitmap a g d bm c f :
  static a = G -> (g < length (g_bms G))%nat -> e2_bgdts a !! g = Some d -> length bm = Z.to_nat (bsz G) ->
  static (with_bitmap a g d bm c f) = G.
Proof using HG.
  intros Hs Hg Hd Hbm. pose proof (static_fields a Hs) as (_ & _ & _ & _ & _ & Hl).
  pose proof (bms_lookup g Hg) as [Hm _]. transitivity (static a); [|done]. unfold static, with_bitmap. cbn.
  rewrite !list_fmap_insert. cbn. rewrite !list_insert_id by (by rewrite list_lookup_fmap, Hd).
  f_equal. rewrite Hl. pose proof (length_put_blk (e2_device a) (g_bms G !!! g) 0 bm Hl Hm ltac:(lia)) as Hp.
  by rewrite Nat.add_0_r in Hp.
Qed.

Lemma vol_ok_with_bitmap a g d bm :
  vol_ok G a -> (g < length (g_bms G))%nat -> e2_bgdts a !! g = Some d ->
  length bm = Z.to_nat (bsz G) -> Forall is_byte bm -> padded G g bm ->
  let c := Z.of_nat (free_bits bm) in
  let f := sb_free_blocks (e2_superblock a) - bg_free_blocks_count d + c in
  is_u 16 c /\ is_u 32 f /\ vol_ok G (with_bitmap a g d bm c f).
Proof using HG.
  intros Ha Hg Hd Hl Hby Hp c f. destruct Ha as [Hs Hsb Hbgd Hb Hpad Hc Ht].
  pose proof (static_fields a Hs) as (_ & _ & _ & _ & _ & Hlen).
  assert (is_u 16 c) as Hc16.
  { pose proof (free_bits_padded g bm Hp). destruct HG. unfold is_u, c. lia. }
  assert (sum_free (<[g := set_bg_free_blocks d c]> (e2_bgdts a)) = f) as Hsum.
  { rewrite (sum_free_insert _ _ _ _ Hd), <-Ht. done. }
  assert (bitmap_new : forall h, (h < length (g_bms G))%nat ->
    bitmap G (put (blk_start G (g_bms G !!! g)) bm (e2_device a)) h = if decide (h = g) then bm else bitmap G (e2_device a) h)
    by (intros; by apply bitmap_put).
  assert (forall h d', <[g := set_bg_free_blocks d c]> (e2_bgdts a) !! h = Some d' ->
    (h < length (g_bms G))%nat /\ bg_free_blocks_count d' = Z.of_nat (free_bits (if decide (h = g) then bm else bitmap G (e2_device a) h))) as Hcnt.
  { intros h d' Hd'. assert (h < length (g_bms G))%nat as Hh.
    { apply lookup_lt_Some in Hd'. rewrite length_insert in Hd'. by rewrite <-(bgdts_length a Hs). }
    split; [done|]. destruct (decide (h = g)) as [->|Hne].
    - rewrite list_lookup_insert_eq in Hd' by (by rewrite (bgdts_length a Hs)). by simplify_eq.
    - rewrite list_lookup_insert_ne in Hd' by done. by apply Hc. }
  assert (is_u 32 f) as Hf32.
  { rewrite <-Hsum. pose proof (sum_free_bound (<[g := set_bg_free_blocks d c]> (e2_bgdts a))) as Hsb'.
    rewrite length_insert, (bgdts_length a Hs) in Hsb'. destruct Hsb' as [? Hle].
    - apply Forall_lookup. intros h d' Hd'. destruct (Hcnt _ _ Hd') as [Hh ->]. split; [lia|].
      apply (free_bits_padded h). destruct (decide (h = g)) as [->|]; [done|by apply Hpad].
    - destruct HG. split; [lia|]. rewrite go_groups0 in Hle.
      pose proof (Z.mul_div_le (g_nblk G + g_bpg G - 1) (g_bpg G)). lia. }
  split_and!; [done..|]. split; cbn.
  - by apply static_with_bitmap.
  - by apply sb_ok_set_free_blocks.
  - apply Forall_insert; [done|]. apply bgd_ok_set_free_blocks; [|done]. exact (proj1 (Forall_lookup _ _) Hbgd _ _ Hd).
  - by apply put_bytes.
  - intros h Hh. rewrite bitmap_new by done. destruct (decide (h = g)) as [->|]; [done|by apply Hpad].
  - intros h d' Hd'. destruct (Hcnt _ _ Hd') as [Hh ->]. by rewrite bitmap_new.
  - done.
Qed.
End Blocks.

(** ** Allocating and freeing a block *)

(** Only the mark of block [b] differs, and only blocks of bitmaps. *)
Record marks (G : Geometry) (a a' : Ext2FSInner bytes) (b : Z) (u : bool) : Prop := {
  mk_range : g_fdb G <= b < g_nblk G;
  mk_before : used G (e2_device a) b = negb u;
  mk_used c : g_fdb G <= c < g_nblk G ->
    used G (e2_device a') c = if decide (c = b) then u else used G (e2_device a) c;
  mk_blk c : 0 <= c < g_nblk G -> c ∉ g_bms G -> blk G (e2_device a') c = blk G (e2_device a) c;
  mk_free : sb_free_blocks (e2_superblock a') = sb_free_blocks (e2_superblock a) + (if u then - 1 else 1);
}.

Section Alloc.
Context {Dev : Type} `{HB : BlockDevice Dev} {HL : BlockDeviceLaws Dev}.
Context (G : Geometry) (HG : geom_ok G).

Lemma block_size_eq {E} a : static a = G -> @Ext2Superblock_block_size E (e2_superblock a) = Ok (bsz G).
Proof using HG.
  intros Hs. pose proof (static_fields G a Hs) as (_ & Hlog & _). unfold Ext2Superblock_block_size, ushl, bsz.
  rewrite Hlog. destruct HG. rewrite (proj2 (Z.ltb_lt _ _)) by lia. f_equal. rewrite Z.shiftl_mul_pow2 by lia.
  change 1024 with (2 ^ 10). rewrite <-Z.pow_add_r by lia. apply wrap_small. split; [lia|]. apply Z.pow_lt_mono_r; lia.
Qed.
Lemma evals_block_size a : static a = G -> evals (Dev := Dev) block_size_v a (Ok (bsz G)) a.
Proof using HG.
  intros Hs. apply evals_get. intros v Hv. rewrite (abs_superblock _ _ Hv), (block_size_eq a Hs). apply evals_lift.
Qed.

Lemma blk_offset_small b : 0 <= b < g_nblk G -> b * bsz G < 2 ^ 64 /\ g_po G + b * bsz G < 2 ^ 64.
Proof using HG. intros Hb. pose proof (blk_bound G HG b Hb). pose proof (bsz_range G HG). destruct HG. lia. Qed.
Lemma evals_block_offset b a :
  static a = G -> 0 <= b < g_nblk G -> evals (Dev := Dev) (block_offset b) a (Ok (g_po G + b * bsz G)) a.
Proof using HG.
  intros Hs Hb. destruct (blk_offset_small b Hb). apply evals_get. intros v Hv.
  assert (e2_partition_offset v = g_po G) as -> by (rewrite <-Hs, <-Hv; done).
  eapply evals_bind; [by apply evals_block_size|]. rewrite umul_eq by done.
  eapply evals_bind; [apply evals_lift|]. rewrite uadd_eq by done. apply evals_lift.
Qed.
Lemma evals_read_blk b a :
  static a = G -> 0 <= b < g_nblk G ->
  evals (Dev := Dev) (read_from (g_po G + b * bsz G) (Z.to_nat (bsz G))) a (Ok (blk G (e2_device a) b)) a.
Proof using HG HL.
  intros Hs Hb. pose proof (blk_bound G HG b Hb). pose proof (bsz_range G HG). apply evals_read_from; [lia|].
  pose proof (static_fields G a Hs) as (_ & _ & _ & _ & _ & ->). lia.
Qed.
Lemma evals_write_blk b buf a :
  static a = G -> 0 <= b < g_nblk G -> length buf = Z.to_nat (bsz G) ->
  evals (Dev := Dev) (write_to (g_po G + b * bsz G) buf) a (Ok tt) (with_device a (put (blk_start G b) buf (e2_device a))).
Proof using HG HL.
  intros Hs Hb Hl. pose proof (blk_bound G HG b Hb). pose proof (bsz_range G HG). apply evals_write_to; [lia|].
  pose proof (static_fields G a Hs) as (_ & _ & _ & _ & _ & ->). lia.
Qed.

(** The marks after the bitmap of group [g] changed at bit [k]. *)
Lemma marks_with_bitmap a g d bm k c f u :
  static a = G -> (g < length (g_bms G))%nat -> e2_bgdts a !! g = Some d ->
  length bm = Z.to_nat (bsz G) -> Z.of_nat k < g_bpg G ->
  g_fdb G + Z.of_nat g * g_bpg G + Z.of_nat k < g_nblk G ->
  bit (bitmap G (e2_device a) g) k = negb u ->
  (forall i, bit bm i = if decide (i = k) then u else bit (bitmap G (e2_device a) g) i) ->
  f = sb_free_blocks (e2_superblock a) + (if u then - 1 else 1) ->
  marks G a (with_bitmap G a g d bm c f) (g_fdb G + Z.of_nat g * g_bpg G + Z.of_nat k) u.
Proof using HG.
  intros Hs Hg Hd Hl Hk Hend Hold Hnew ->. pose proof (static_fields G a Hs) as (_ & _ & _ & _ & _ & Hlen).
  destruct (block_at_place G g (Z.of_nat k) ltac:(lia)) as [Hdiv Hmod].
  pose proof (bms_lookup G HG g Hg) as [Hm _]. split.
  - destruct HG. lia.
  - unfold used. by rewrite Hdiv, Hmod, !Nat2Z.id.
  - intros b Hb. destruct (place_of G HG b Hb) as (Hg' & Hi' & Hb').
    unfold used at 1. cbn. rewrite (bitmap_put G HG) by done.
    destruct (decide (Z.to_nat ((b - g_fdb G) / g_bpg G) = g)) as [Hgg|Hgg].
    + rewrite Hnew. destruct (decide (Z.to_nat ((b - g_fdb G) mod g_bpg G) = k)) as [Hkk|Hkk].
      * rewrite decide_True by lia. done.
      * rewrite decide_False; [by unfold used; rewrite Hgg|]. intros ->. apply Hkk. by rewrite Hmod, Nat2Z.id.
    + rewrite decide_False; [done|]. intros ->. apply Hgg. by rewrite Hdiv, Nat2Z.id.
  - intros b Hb Hin. cbn.
    pose proof (blk_put_other G HG (e2_device a) b (g_bms G !!! g) 0 bm) as Ho. rewrite Nat.add_0_r in Ho.
    apply Ho; try done; [|lia]. intros ->. apply Hin.
    destruct (bms_lookup G HG g Hg) as [_ Hlk]. by eapply list_elem_of_lookup_2.
  - done.
Qed.

(** A clear bit stands for a block of the volume. *)
Lemma taken_in_range a g i :
  vol_ok G a -> (g < length (g_bms G))%nat -> (i < 8 * length (bitmap G (e2_device a) g))%nat ->
  bit (bitmap G (e2_device a) g) i = false ->
  Z.of_nat i < g_bpg G /\ g_fdb G + Z.of_nat g * g_bpg G + Z.of_nat i < g_nblk G.
Proof using.
  intros Ha Hg Hi Hb. pose proof (vo_pad _ _ Ha g Hg i Hi) as Hp. rewrite Hb in Hp.
  destruct (decide (g_bpg G <= Z.of_nat i)); [exfalso; discriminate Hp; tauto|].
  destruct (decide (g_nblk G <= g_fdb G + Z.of_nat g * g_bpg G + Z.of_nat i)); [exfalso; discriminate Hp; tauto|].
  lia.
Qed.

(** Taking the bit the search found. *)
Lemma take_bit_ok a g d j x b :
  vol_ok G a -> (g < length (g_bms G))%nat -> e2_bgdts a !! g = Some d ->
  find_free_bit (bitmap G (e2_device a) g) 0 = Some (j, x, b) ->
  let k := Z.of_nat j * 8 + b in
  let c := bg_free_blocks_count d - 1 in
  let f := sb_free_blocks (e2_superblock a) - 1 in
  let n := g_fdb G + Z.of_nat g * g_bpg G + k in
  let a' := with_bitmap G a g d (<[j := Z.lor x (Z.shiftl 1 b)]> (bitmap G (e2_device a) g)) c f in
  0 <= c /\ 0 <= f /\ 0 <= k /\ vol_ok G a' /\ marks G a a' n true.
Proof using HG.
  intros Ha Hg Hd Hf k c f n a'. apply find_free_bit_Some in Hf as (_ & Hx & Hb & Hbit). rewrite Nat.sub_0_r in Hx.
  pose proof (vo_static _ _ Ha) as Hs. pose proof (static_fields G a Hs) as (_ & _ & _ & _ & _ & Hlen).
  pose proof (bitmap_length G HG (e2_device a) g Hlen Hg) as Hbl.
  set (bm := bitmap G (e2_device a) g) in *. set (bm' := <[j := Z.lor x (Z.shiftl 1 b)]> bm) in *.
  set (i := (8 * j + Z.to_nat b)%nat). assert (j < length bm)%nat as Hj by (by eapply lookup_lt_Some).
  assert (k = Z.of_nat i) as Hki by (unfold k, i; lia).
  assert (bit bm i = false) as Hi.
  { unfold bit. destruct (proj1 (bit_split i j b Hb) eq_refl) as [-> ->]. rewrite Hx. by rewrite Z2Nat.id by lia. }
  assert (forall l, bit bm' l = bit bm l || bool_decide (l = i)) as Hset by (intros l; by apply bit_set).
  assert (length bm' = Z.to_nat (bsz G)) as Hl' by (unfold bm'; by rewrite length_insert).
  pose proof (free_bits_set bm bm' i ltac:(lia) ltac:(lia) Hi Hset) as Hfree.
  pose proof (vo_counts _ _ Ha g d Hd) as Hcd. fold bm in Hcd.
  assert (Forall is_byte bm) as Hby by (apply sub_bytes_bytes, (vo_bytes _ _ Ha)).
  destruct (vol_ok_with_bitmap G HG a g d bm' Ha Hg Hd Hl') as (_ & Hf32 & Hok).
  { apply Forall_insert; [done|]. apply (is_u_lor 8); [lia|exact (proj1 (Forall_lookup _ _) Hby _ _ Hx)|].
    rewrite <-(wrap_one_bit 8 b) by lia. apply is_u_wrap. lia. }
  { intros l Hl Hout. rewrite Hset. apply orb_true_iff. left. apply (vo_pad _ _ Ha g Hg); [|done]. fold bm.
    unfold bm' in Hl. by rewrite length_insert in Hl. }
  replace (Z.of_nat (free_bits bm')) with c in Hok, Hf32 by lia.
  replace (_ - _ + c) with f in Hok, Hf32 by lia.
  destruct (taken_in_range a g i Ha Hg) as [Hkb Hkn]; [fold bm; lia|done|].
  unfold is_u in Hf32. split_and!; [lia|lia|lia|done|]. unfold n. rewrite Hki.
  apply marks_with_bitmap; try done. intros l. rewrite Hset. destruct (decide (l = i)) as [->|Hne].
  - by rewrite bool_decide_eq_true_2, orb_true_r.
  - by rewrite bool_decide_eq_false_2, orb_false_r.
Qed.

Lemma take_free_block_ok a g d j x b :
  vol_ok G a -> (g < length (g_bms G))%nat -> e2_bgdts a !! g = Some d ->
  find_free_bit (bitmap G (e2_device a) g) 0 = Some (j, x, b) ->
  exists n a',
    evals (Dev := Dev) (take_free_block g d (g_po G + g_bms G !!! g * bsz G) (bitmap G (e2_device a) g) j x b) a (Ok n) a' /\
    vol_ok G a' /\ marks G a a' n true.
Proof using HG HL.
  intros Ha Hg Hd Hf. pose proof (vo_static _ _ Ha) as Hs.
  pose proof (static_fields G a Hs) as (_ & _ & Hfdb & Hbpg & _ & Hlen).
  destruct (take_bit_ok a g d j x b Ha Hg Hd Hf) as (Hc & Hf0 & Hk & Hok & Hm).
  do 2 eexists. split_and!; [|exact Hok|exact Hm]. pose proof (mk_range _ _ _ _ _ Hm) as Hn.
  assert (0 <= Z.of_nat g <= Z.of_nat g * g_bpg G) as Hgb.
  { destruct HG. split; [lia|]. rewrite <-(Z.mul_1_r (Z.of_nat g)) at 1. apply Z.mul_le_mono_nonneg_l; lia. }
  unfold take_free_block. eapply evals_bind.
  { apply evals_write_blk; [done|by apply bms_lookup|]. rewrite length_insert. by apply bitmap_length. }
  rewrite usub_eq by lia. eapply evals_bind; [apply evals_lift|]. eapply evals_bind; [apply evals_with_bgdt|].
  apply evals_get. intros v Hv. rewrite (abs_superblock _ _ Hv). cbn [e2_superblock with_bgdt with_device].
  rewrite usub_eq by lia. eapply evals_bind; [apply evals_lift|].
  eapply evals_bind; [apply (evals_with_superblock (fun sb => sb_set_free_blocks sb _))|].
  apply evals_get. intros w Hw. rewrite (abs_superblock _ _ Hw).
  cbn [e2_superblock with_superblock with_bgdt with_device sb_blocks_per_grp sb_first_data_blk sb_set_free_blocks].
  rewrite Hfdb, Hbpg. destruct HG. rewrite !wrap_small by (unfold is_u; lia).
  rewrite umul_eq by lia. eapply evals_bind; [apply evals_lift|].
  rewrite uadd_eq by lia. eapply evals_bind; [apply evals_lift|]. rewrite uadd_eq by lia. apply evals_lift.
Qed.

Lemma allocate_in_ok a g l :
  vol_ok G a -> drop g (e2_bgdts a) = l ->
  (sum_free l = 0 /\ evals (Dev := Dev) (allocate_in l g) a (Err (Other "No free blocks available")) a) \/
  (0 < sum_free l /\ exists n a', evals (Dev := Dev) (allocate_in l g) a (Ok n) a' /\ vol_ok G a' /\ marks G a a' n true).
Proof using HG HL.
  intros Ha. revert g. induction l as [|d l IH]; intros g Hl; [left; split; [done|apply evals_lift]|].
  pose proof (vo_static _ _ Ha) as Hs.
  assert (e2_bgdts a !! g = Some d) as Hd.
  { rewrite <-(Nat.add_0_r g), <-lookup_drop, Hl. done. }
  assert (g < length (g_bms G))%nat as Hg by (rewrite <-(bgdts_length G a Hs); by eapply lookup_lt_Some).
  destruct (IH (S g)) as [[H0 He]|[Hpos He]].
  { rewrite <-(Nat.add_1_r g), <-drop_drop, Hl. done. }
  all: pose proof (vo_counts _ _ Ha g d Hd) as Hcd; change (sum_free (d :: l)) with (bg_free_blocks_count d + sum_free l);
    cbn [allocate_in]; destruct (Z.eqb_spec (bg_free_blocks_count d) 0) as [Hz|Hz].
  1, 3: rewrite Hz, Z.add_0_l; auto.
  all: right; split; [lia|]; destruct (find_free_bit (bitmap G (e2_device a) g) 0) as [[[j x] b]|] eqn:Hf;
    [|exfalso; apply Hz; rewrite Hcd, free_bits_full; [done|intros i; by eapply find_free_bit_None]].
  all: destruct (take_free_block_ok a g d j x b Ha Hg Hd Hf) as (n & a' & Hev & Hok);
    exists n, a'; split; [|done]; eapply evals_bind; [by apply evals_block_size|];
    destruct (bgdts_lookup G a g Hs Hg) as (d' & Hd' & Hbb); assert (d' = d) as -> by congruence; rewrite Hbb;
    (eapply evals_bind; [apply evals_block_offset; [done|by apply bms_lookup]|]);
    (eapply evals_bind; [apply evals_read_blk; [done|by apply bms_lookup]|]);
    change (blk G (e2_device a) (g_bms G !!! g)) with (bitmap G (e2_device a) g); by rewrite Hf.
Qed.

Lemma allocate_block_ok a :
  vol_ok G a ->
  (sb_free_blocks (e2_superblock a) = 0 /\
   evals (Dev := Dev) allocate_block a (Err (Other "No free blocks available")) a) \/
  (0 < sb_free_blocks (e2_superblock a) /\
   exists n a', evals (Dev := Dev) allocate_block a (Ok n) a' /\ vol_ok G a' /\ marks G a a' n true).
Proof using HG HL.
  intros Ha. pose proof (vo_static _ _ Ha) as Hs. rewrite (vo_total _ _ Ha).
  destruct (allocate_in_ok a 0 (e2_bgdts a) Ha eq_refl) as [[H0 He]|[Hp (n & a' & He & Hok)]]; [left|right].
  - split; [done|]. apply evals_get. intros v Hv. rewrite (abs_bgdts _ _ Hv).
    eapply evals_bind; [by apply evals_block_size|done].
  - split; [done|]. exists n, a'. split; [|done]. apply evals_get. intros v Hv. rewrite (abs_bgdts _ _ Hv).
    eapply evals_bind; [by apply evals_block_size|done].
Qed.

(** Clearing the bit of a block in use. *)
Lemma clear_bit_ok a b :
  vol_ok G a -> g_fdb G <= b < g_nblk G -> used G (e2_device a) b = true ->
  let g := Z.to_nat ((b - g_fdb G) / g_bpg G) in
  let i := (b - g_fdb G) mod g_bpg G in
  exists d x, let bm := bitmap G (e2_device a) g in
    let c := bg_free_blocks_count d + 1 in
    let f := sb_free_blocks (e2_superblock a) + 1 in
    let bm' := <[Z.to_nat (i / 8) := Z.land x (unot 8 (Z.shiftl 1 (i mod 8)))]> bm in
    let a' := with_bitmap G a g d bm' c f in
    (g < length (g_bms G))%nat /\ e2_bgdts a !! g = Some d /\ bg_block_bitmap d = g_bms G !!! g /\
    bm !! Z.to_nat (i / 8) = Some x /\ length bm' = Z.to_nat (bsz G) /\ c < 2 ^ 16 /\ f < 2 ^ 32 /\
    vol_ok G a' /\ marks G a a' b false.
Proof using HG.
  intros Ha Hb Hu g i. destruct (place_of G HG b Hb) as (Hg & Hi & Hbe). fold g i in Hg, Hi, Hbe.
  pose proof (vo_static _ _ Ha) as Hs. pose proof (static_fields G a Hs) as (_ & _ & _ & _ & _ & Hlen).
  destruct (bgdts_lookup G a g Hs Hg) as (d & Hd & Hbb).
  pose proof (bitmap_length G HG (e2_device a) g Hlen Hg) as Hbl.
  unfold used in Hu. fold g i in Hu. set (bm := bitmap G (e2_device a) g) in *.
  assert (0 <= i < 8 * bsz G) as Hi8.
  { destruct HG. split; [apply Z.mod_pos_bound|]; lia. }
  pose proof (Z.mod_pos_bound i 8 ltac:(lia)) as Hm8. pose proof (Z.div_mod i 8 ltac:(lia)) as Hdm.
  assert (i / 8 < bsz G) by (apply Z.div_lt_upper_bound; lia). assert (0 <= i / 8) by (apply Z.div_pos; lia).
  destruct (lookup_lt_is_Some_2 bm (Z.to_nat (i / 8)) ltac:(lia)) as [x Hx].
  assert (Forall is_byte bm) as Hby by (apply sub_bytes_bytes, (vo_bytes _ _ Ha)).
  pose proof (proj1 (Forall_lookup _ _) Hby _ _ Hx) as Hxb.
  set (bm' := <[Z.to_nat (i / 8) := Z.land x (unot 8 (Z.shiftl 1 (i mod 8)))]> bm).
  assert (forall l, bit bm' l = bit bm l && negb (bool_decide (l = Z.to_nat i))) as Hclr.
  { intros l. unfold bm'. rewrite bit_clear by done. do 2 f_equal. apply bool_decide_ext. lia. }
  assert (length bm' = Z.to_nat (bsz G)) as Hl' by (unfold bm'; by rewrite length_insert).
  assert (free_bits bm' = S (free_bits bm)) as Hfree.
  { apply free_bits_set with (Z.to_nat i); [by rewrite Hbl|lia| |].
    - by rewrite Hclr, bool_decide_eq_true_2, andb_false_r.
    - intros l. rewrite Hclr. destruct (decide (l = Z.to_nat i)) as [->|Hne].
      + by rewrite bool_decide_eq_true_2, orb_true_r.
      + by rewrite bool_decide_eq_false_2, andb_true_r, orb_false_r. }
  pose proof (vo_counts _ _ Ha g d Hd) as Hcd. fold bm in Hcd.
  destruct (vol_ok_with_bitmap G HG a g d bm' Ha Hg Hd Hl') as ([_ Hc16] & [_ Hf32] & Hok).
  { apply Forall_insert; [done|]. rewrite land_unot by (done || lia). by apply (is_u_ldiff 8). }
  { intros l Hl Hout. rewrite Hclr.
    assert (bit bm l = true) as -> by (apply (vo_pad _ _ Ha g Hg); [fold bm; lia|done]).
    apply negb_true_iff, bool_decide_eq_false_2. lia. }
  replace (Z.of_nat (free_bits bm')) with (bg_free_blocks_count d + 1) in * by lia.
  replace (_ - _ + (bg_free_blocks_count d + 1)) with (sb_free_blocks (e2_superblock a) + 1) in * by lia.
  exists d, x. split_and!; try done. rewrite Hbe at 1.
  apply marks_with_bitmap; try done; [lia..|]. intros l. rewrite Hclr. destruct (decide (l = Z.to_nat i)) as [->|Hne].
  - by rewrite bool_decide_eq_true_2, andb_false_r.
  - by rewrite bool_decide_eq_false_2, andb_true_r.
Qed.

Lemma free_block_ok a b :
  vol_ok G a -> g_fdb G <= b < g_nblk G -> used G (e2_device a) b = true ->
  exists a', evals (Dev := Dev) (free_block b) a (Ok tt) a' /\ vol_ok G a' /\ marks G a a' b false.
Proof using HG HL.
  intros Ha Hb Hu. pose proof (vo_static _ _ Ha) as Hs.
  pose proof (static_fields G a Hs) as (_ & _ & Hfdb & Hbpg & _ & Hlen).
  destruct (clear_bit_ok a b Ha Hb Hu) as (d & x & Hg & Hd & Hbb & Hx & Hl & Hc & Hf & Hok & Hm).
  eexists. split_and!; [|exact Hok|exact Hm]. pose proof (bms_lookup G HG _ Hg) as [Hbm _].
  assert (0 <= (b - g_fdb G) / g_bpg G) by (destruct HG; apply Z.div_pos; lia).
  unfold free_block. apply evals_get. intros v Hv. rewrite (abs_superblock _ _ Hv), (abs_bgdts _ _ Hv), Hfdb, Hbpg.
  eapply evals_bind; [by apply evals_block_size|]. rewrite usub_eq by lia. eapply evals_bind; [apply evals_lift|].
  unfold udiv, urem. rewrite (proj2 (Z.eqb_neq _ _)) by (destruct HG; lia).
  do 2 (eapply evals_bind; [apply evals_lift|]). rewrite (bgdts_length G a Hs), (proj2 (Z.leb_gt _ _)) by lia.
  rewrite Hd. eapply evals_bind; [apply evals_lift|]. eapply evals_bind.
  { unfold clear_bit. eapply evals_bind; [by apply evals_block_size|]. rewrite Hbb.
    eapply evals_bind; [by apply evals_block_offset|]. eapply evals_bind; [by apply evals_read_blk|].
    fold (bitmap G (e2_device a) (Z.to_nat ((b - g_fdb G) / g_bpg G))). rewrite Hx.
    eapply evals_bind; [apply evals_lift|]. by apply evals_write_blk. }
  rewrite uadd_eq by done. eapply evals_bind; [apply evals_lift|]. eapply evals_bind; [apply evals_with_bgdt|].
  apply evals_get. intros w Hw. rewrite (abs_superblock _ _ Hw). cbn [e2_superblock with_bgdt with_device].
  rewrite uadd_eq by done. eapply evals_bind; [apply evals_lift|].
  apply (evals_with_superblock (fun sb => sb_set_free_blocks sb _)).
Qed.

(** C37: on a consistent volume [allocate_block] returns; it fails, changing nothing, exactly
    when the superblock counts no free block.  Otherwise the block it returns is a block of
    the volume that was not marked and now is; no other mark, and no block but those of
    bitmaps, changes; the volume stays consistent: the bitmaps, the counts of the groups and
    the count of the superblock agree. *)
Theorem ext2_allocate_block v :
  vol_ok G (abs v) ->
  exists r v', allocate_block v = (r, v') /\ vol_ok G (abs v') /\
    ((sb_free_blocks (e2_superblock v) = 0 /\ r = Err (Other "No free blocks available") /\ abs v' = abs v) \/
     (0 < sb_free_blocks (e2_superblock v) /\ exists b, r = Ok b /\ marks G (abs v) (abs v') b true)).
Proof using HG HL.
  intros Hv. destruct (allocate_block_ok (abs v) Hv) as [[H0 He]|[Hp (n & a' & He & Hok & Hm)]].
  - destruct (He v eq_refl) as (v' & Hr & Hv'). eexists _, v'. split; [exact Hr|]. rewrite Hv'. eauto.
  - destruct (He v eq_refl) as (v' & Hr & Hv'). eexists _, v'. split; [exact Hr|]. rewrite Hv'. eauto 10.
Qed.

(** Freeing a block in use returns, clears its mark and nothing else, and keeps the volume
    consistent; freeing a block just allocated restores the mark of every block, every block
    outside the bitmaps and the count of free blocks. *)
Theorem ext2_free_block v b :
  vol_ok G (abs v) -> g_fdb G <= b < g_nblk G -> used G (contents (e2_device v)) b = true ->
  exists v', free_block b v = (Ok tt, v') /\ vol_ok G (abs v') /\ marks G (abs v) (abs v') b false /\
    forall u, marks G (abs u) (abs v) b true ->
      sb_free_blocks (e2_superblock v') = sb_free_blocks (e2_superblock u) /\
      (forall c, g_fdb G <= c < g_nblk G -> used G (contents (e2_device v')) c = used G (contents (e2_device u)) c) /\
      (forall c, 0 <= c < g_nblk G -> c ∉ g_bms G ->
         blk G (contents (e2_device v')) c = blk G (contents (e2_device u)) c).
Proof using HG HL.
  intros Hv Hb Hu. destruct (free_block_ok (abs v) b Hv Hb Hu) as (a' & He & Hok & Hm).
  destruct (He v eq_refl) as (v' & Hr & <-). exists v'. split_and!; [done..|].
  intros u Hum. destruct Hm as [_ _ Hmu Hmb Hmf], Hum as [_ Hub Huu Hubl Huf]. cbn in *. split_and!; [lia| |].
  - intros c Hc. rewrite Hmu by done. destruct (decide (c = b)) as [->|Hne]; [by rewrite Hub|].
    rewrite Huu by done. by rewrite decide_False.
  - intros c Hc Hin. by rewrite Hmb, Hubl.
Qed.
End Alloc.
