(* ===== verification/Ext2Meta.v ===== *)
(** * Metadata of an ext2 volume on disk (zenos-kernel/src/disk/fs/ext2/mod.rs)

    Where the superblock, its copies, the descriptors and the inodes lie, what
    synchronising them changes, and that they are read back as they were written. *)
From S2P Require Import Prelude OpenFile Bytes BlockDev Ext2 Ext2Fs Ext2Blocks.

(** The groups whose copies of the superblock are written, besides group 0. *)
Definition backup_groups (G : Geometry) : list Z :=
  let sparse := negb (Z.land (g_ro_compat G) EXT2_FEATURE_RO_COMPAT_SPARSE_SUPER =? 0) in
  List.filter (fun g => negb sparse || has_superblock_backup g) (seqZ 0 (Z.of_nat (length (g_bms G)))).
Definition bgdt_block (G : Geometry) : Z := if bsz G =? MIN_BLOCK_SIZE then BGDT_BLOCK_1K else BGDT_BLOCK_DEFAULT.

(** The blocks of the superblock and the descriptors as the format places them: the
    superblock at byte 1024, its copy in another group in the first block of the group,
    counted from the first data block, and the descriptors after the superblock. *)
Definition first_block (G : Geometry) (g : Z) : Z := g_fdb G + g * g_bpg G.
Definition sync_block (G : Geometry) (b : Z) : Prop :=
  b = SUPERBLOCK_OFFSET / bsz G \/
  (exists g, g ∈ backup_groups G /\ g <> 0 /\ b = first_block G g) \/
  bgdt_block G <= b < bgdt_block G + (32 * Z.of_nat (length (g_bms G)) + bsz G - 1) / bsz G.
(** The blocks of the inode tables. *)
Definition in_table (G : Geometry) (t b : Z) : Prop := t <= b < t + (g_ipg G * g_isz G + bsz G - 1) / bsz G.
Definition table_block (G : Geometry) (b : Z) : Prop := exists g t, g_its G !! g = Some t /\ in_table G t b.

(** The areas lie on the volume and apart from each other.  The code writes the copy of
    group [g] to block [g * g_bpg G]; [lo_copies] restricts the volumes to those where
    this is the first block of the group: the first data block is block 0 (blocks above
    1 KiB), or group 0 is the only one with a superblock. *)
Record layout_ok (G : Geometry) : Prop := {
  lo_sync b : sync_block G b -> 0 <= b < g_nblk G /\ b ∉ g_bms G;
  lo_table b : table_block G b -> 0 <= b < g_nblk G /\ b ∉ g_bms G /\ ~ sync_block G b;
  lo_zero : 0 < g_fdb G \/ sync_block G 0;
  lo_bgdt_sb : SUPERBLOCK_OFFSET / bsz G < bgdt_block G;
  lo_copies g : g ∈ backup_groups G -> g <> 0 -> g_fdb G = 0;
  lo_backups g : g ∈ backup_groups G -> g <> 0 ->
    first_block G g <> SUPERBLOCK_OFFSET / bsz G /\
    ~ bgdt_block G <= first_block G g < bgdt_block G + (32 * Z.of_nat (length (g_bms G)) + bsz G - 1) / bsz G;
  lo_tables g h t u b : g_its G !! g = Some t -> g_its G !! h = Some u -> in_table G t b -> in_table G u b -> g = h;
  lo_isz : 128 <= g_isz G;
  lo_isz_div : bsz G mod g_isz G = 0;
  lo_ipg : 0 < g_ipg G < 2 ^ 32;
}.

Section Meta.
Context {Dev : Type} `{HB : BlockDevice Dev} {HL : BlockDeviceLaws Dev}.
Context (now : Z) (G : Geometry) (HG : geom_ok G) (HY : layout_ok G).

(** Writing to blocks [c] up to [c + k]: no other block changes. *)
Lemma blk_put_span cs b c k p buf :
  length cs = g_len G -> 0 <= b < g_nblk G -> 0 <= c ->
  g_po G + c * bsz G <= Z.of_nat p -> Z.of_nat p + Z.of_nat (length buf) <= g_po G + (c + k) * bsz G ->
  Z.of_nat p + Z.of_nat (length buf) <= Z.of_nat (g_len G) -> ~ c <= b < c + k ->
  blk G (put p buf cs) b = blk G cs b.
Proof using HG.
  intros Hl Hb Hc Hp Hend Hlen Hne. pose proof (blk_bound G HG b Hb). pose proof (bsz_range G HG).
  unfold blk, blk_start in *. apply sub_bytes_put_away; [lia|].
  destruct (decide (b < c)); [left|right].
  - assert ((b + 1) * bsz G <= c * bsz G) by (apply Z.mul_le_mono_nonneg_r; lia). lia.
  - assert ((c + k) * bsz G <= b * bsz G) by (apply Z.mul_le_mono_nonneg_r; lia). lia.
Qed.

(** Changing bytes of blocks that are no bitmaps keeps a volume consistent. *)
Lemma vol_ok_with_device a cs :
  vol_ok G a -> length cs = g_len G -> Forall is_byte cs ->
  (forall b, b ∈ g_bms G -> blk G cs b = blk G (e2_device a) b) -> vol_ok G (with_device a cs).
Proof using HG.
  intros [Hs Hsb Hbgd Hb Hpad Hc Ht] Hl Hby Hbm.
  assert (forall g, (g < length (g_bms G))%nat -> bitmap G cs g = bitmap G (e2_device a) g) as Hmap.
  { intros g Hg. apply Hbm. destruct (bms_lookup G HG g Hg) as [_ Hlk]. by eapply list_elem_of_lookup_2. }
  split; cbn; try done.
  - rewrite <-Hs. unfold static. cbn. f_equal. rewrite Hl. rewrite <-Hs. done.
  - intros g Hg. rewrite Hmap by done. by apply Hpad.
  - intros g d Hd. rewrite Hmap; [by apply Hc|]. apply lookup_lt_Some in Hd. by rewrite <-(bgdts_length G a Hs).
Qed.

(** A write of [buf] inside block [c], at offset [o]. *)
Lemma write_in_block a c o buf :
  vol_ok G a -> 0 <= c < g_nblk G -> c ∉ g_bms G -> 0 <= o -> o + Z.of_nat (length buf) <= bsz G ->
  Forall is_byte buf ->
  exists cs, evals (Dev := Dev) (write_to (g_po G + c * bsz G + o) buf) a (Ok tt) (with_device a cs) /\
    vol_ok G (with_device a cs) /\
    (forall b, 0 <= b < g_nblk G -> b <> c -> blk G cs b = blk G (e2_device a) b) /\
    blk G cs c = put (Z.to_nat o) buf (blk G (e2_device a) c).
Proof using HG HL.
  intros Ha Hc Hbm Ho Hend Hby. pose proof (vo_static _ _ Ha) as Hs.
  pose proof (static_fields G a Hs) as (_ & _ & _ & _ & _ & Hl).
  pose proof (blk_bound G HG c Hc). pose proof (bsz_range G HG).
  exists (put (blk_start G c + Z.to_nat o) buf (e2_device a)).
  assert (forall b, 0 <= b < g_nblk G -> b <> c ->
    blk G (put (blk_start G c + Z.to_nat o) buf (e2_device a)) b = blk G (e2_device a) b) as Hother.
  { intros b Hb Hne. apply blk_put_other; try done. lia. }
  split_and!; [| |done|apply blk_put_same; try done; lia].
  - replace (blk_start G c + Z.to_nat o)%nat with (Z.to_nat (g_po G + c * bsz G + o)) by (unfold blk_start; lia).
    apply evals_write_to; lia.
  - apply vol_ok_with_device; [done|apply length_put_blk; (done || lia)|by apply put_bytes, (vo_bytes _ _ Ha)|].
    intros b Hb. apply Hother; [|by intros ->]. exact (proj1 (Forall_forall _ _) (go_bms _ HG) b Hb).
Qed.

Lemma vol_ok_block_group_nr a x : vol_ok G a -> is_u 16 x -> vol_ok G (with_superblock a (sb_set_block_group_nr (e2_superblock a) x)).
Proof using. intros [Hs [] ? ? ? ? ?] Hx. by split. Qed.
Lemma vol_ok_wrt_time a t : vol_ok G a -> is_u 32 t -> vol_ok G (with_superblock a (sb_set_wrt_time (e2_superblock a) t)).
Proof using. intros [Hs [] ? ? ? ? ?] Hx. by split. Qed.
Lemma serialize_sb_ok sb : sb_ok sb -> length (Ext2Superblock_serialize sb) = SUPERBLOCK_SIZE.
Proof using. intros []. by apply Ext2Superblock_serialize_length. Qed.

(** Where the code puts the copy of group [g]: its block and the offset in it. *)
Definition home_block (g : Z) : Z := if g =? 0 then SUPERBLOCK_OFFSET / bsz G else g * g_bpg G.
Definition home_offset (g : Z) : Z := if g =? 0 then SUPERBLOCK_OFFSET mod bsz G else 0.

Lemma home_fits g : 0 <= home_offset g /\ home_offset g + 1024 <= bsz G.
Proof using HG.
  pose proof (bsz_range G HG). unfold home_offset, SUPERBLOCK_OFFSET. destruct (g =? 0); [|lia].
  split; [apply Z.mod_pos_bound; lia|]. unfold bsz in *. destruct HG.
  destruct (decide (g_log G = 0)) as [->|]; [by vm_compute|].
  assert (2 ^ 11 <= 2 ^ (10 + g_log G)) by (apply Z.pow_le_mono_r; lia). rewrite Z.mod_small by lia. lia.
Qed.
Lemma home_block_sync g : g ∈ backup_groups G -> sync_block G (home_block g).
Proof using HY.
  intros Hg. unfold home_block. destruct (Z.eqb_spec g 0) as [|Hne]; [by left|]. right. left.
  exists g. unfold first_block. by rewrite (lo_copies _ HY g Hg Hne).
Qed.
Lemma backup_group_range g : g ∈ backup_groups G -> 0 <= g < Z.of_nat (length (g_bms G)).
Proof using.
  unfold backup_groups. intros Hg%list_elem_of_In. apply filter_In in Hg as [Hg%list_elem_of_In%elem_of_seqZ _]. lia.
Qed.

(** The superblock with group number [x], and the blocks of the copies of the groups [l]. *)
Record copies_written (l : list Z) (a a' : Ext2FSInner bytes) : Prop := {
  cw_ok : vol_ok G a';
  cw_bgdts : e2_bgdts a' = e2_bgdts a;
  cw_sb : exists x, e2_superblock a' = sb_set_block_group_nr (e2_superblock a) x;
  cw_blk b : 0 <= b < g_nblk G -> b ∉ home_block <$> l -> blk G (e2_device a') b = blk G (e2_device a) b;
}.

(** The step of [write_superblocks] for one group. *)
Definition write_copy (g : Z) : st (Ext2FSInner Dev) FileError unit :=
  _ ← modify (fun v => with_superblock v (sb_set_block_group_nr (e2_superblock v) (wrap 16 g)));
  v ← st_get;
  let sb := e2_superblock v in
  group_start_block ← st_lift (umul 64 g (sb_blocks_per_grp sb));
  superblock_offset ← (if g =? 0 then st_lift (uadd 64 (e2_partition_offset v) SUPERBLOCK_OFFSET)
                       else o ← st_lift (umul 64 group_start_block (bsz G));
                            st_lift (uadd 64 (e2_partition_offset v) o));
  write_to superblock_offset (Ext2Superblock_serialize sb).
Lemma write_superblocks_cons g l v :
  write_superblocks (Dev := Dev) (bsz G) (g :: l) v = (_ ← write_copy g; write_superblocks (bsz G) l) v.
Proof using.
  cbn [write_superblocks]. unfold write_copy, mbind, st_bind, modify, st_get, st_lift. cbn.
  destruct (umul 64 g _); [|done..]. destruct (g =? 0); [by destruct (uadd _ _ _)|].
  destruct (umul 64 _ (bsz G)); [|done..]. by destruct (uadd _ _ _).
Qed.

Lemma write_copy_ok a g :
  vol_ok G a -> g ∈ backup_groups G ->
  exists a', evals (write_copy g) a (Ok tt) a' /\ copies_written [g] a a' /\
    e2_superblock a' = sb_set_block_group_nr (e2_superblock a) (wrap 16 g) /\
    blk G (e2_device a') (home_block g) =
      put (Z.to_nat (home_offset g)) (Ext2Superblock_serialize (e2_superblock a')) (blk G (e2_device a) (home_block g)).
Proof using HG HL HY.
  intros Ha Hg. set (a1 := with_superblock a (sb_set_block_group_nr (e2_superblock a) (wrap 16 g))).
  assert (vol_ok G a1) as Ha1 by (apply vol_ok_block_group_nr; [done|by apply is_u_wrap]).
  destruct (lo_sync _ HY _ (home_block_sync g Hg)) as [Hr Hbm]. destruct (home_fits g) as [Ho Hend].
  pose proof (serialize_sb_ok _ (vo_sb _ _ Ha1)) as Hlen.
  destruct (write_in_block a1 (home_block g) (home_offset g) (Ext2Superblock_serialize (e2_superblock a1)))
    as (cs & Hev & Hok & Hother & Hsame); [done..|by rewrite Hlen|by apply Ext2Superblock_serialize_bytes, (vo_sb _ _ Ha1)|].
  exists (with_device a1 cs). split_and!; [|split; cbn; [done|done|eauto|]|done|done].
  - unfold write_copy. eapply evals_bind; [apply (evals_with_superblock (fun sb => sb_set_block_group_nr sb _))|].
    fold a1. apply evals_get. intros v Hv. rewrite (abs_superblock _ _ Hv), (abs_partition_offset _ _ Hv).
    pose proof (static_fields G a1 (vo_static _ _ Ha1)) as (-> & _ & _ & Hbpg & _ & _). rewrite Hbpg.
    pose proof (backup_group_range g Hg). pose proof (blk_bound G HG _ Hr). pose proof (bsz_range G HG).
    assert (g * g_bpg G < 2 ^ 64).
    { pose proof (go_groups _ HG) as Hgr. destruct HG. apply Z.le_lt_trans with (Z.of_nat (length (g_bms G)) * g_bpg G); [apply Z.mul_le_mono_nonneg_r; lia|].
      rewrite Hgr, Z.mul_comm. pose proof (Z.mul_div_le (g_nblk G + g_bpg G - 1) (g_bpg G)). lia. }
    rewrite umul_eq by done. eapply evals_bind; [apply evals_lift|].
    unfold home_block, home_offset in *. destruct (Z.eqb_spec g 0) as [->|Hne].
    + unfold SUPERBLOCK_OFFSET in *. pose proof (Z.div_mod 1024 (bsz G) ltac:(lia)). destruct HG.
      rewrite uadd_eq by lia. eapply evals_bind; [apply evals_lift|].
      replace (g_po G + 1024) with (g_po G + 1024 / bsz G * bsz G + 1024 mod bsz G) by lia. done.
    + destruct HG. rewrite umul_eq by lia. eapply evals_bind; [|rewrite Z.add_0_r in Hev; exact Hev].
      eapply evals_bind; [apply evals_lift|]. rewrite uadd_eq by lia. apply evals_lift.
  - intros b Hb Hin. apply Hother; [done|]. intros ->. apply Hin. by left.
Qed.

Lemma write_superblocks_ok a l :
  vol_ok G a -> Forall (fun g => g ∈ backup_groups G) l ->
  exists a', evals (Dev := Dev) (write_superblocks (bsz G) l) a (Ok tt) a' /\ copies_written l a a'.
Proof using HG HL HY.
  intros Ha Hl. revert a Ha. induction Hl as [|g l Hg Hl IH]; intros a Ha.
  { exists a. split; [apply evals_ret|]. split; [done|done| |done]. exists (sb_block_group_nr (e2_superblock a)).
    by destruct (e2_superblock a). }
  destruct (write_copy_ok a g Ha Hg) as (a1 & He1 & [Hok1 Hbg1 (x1 & Hsb1) Hblk1] & _).
  destruct (IH a1 Hok1) as (a2 & He2 & [Hok2 Hbg2 (x2 & Hsb2) Hblk2]).
  exists a2. split.
  - intros v Hv. rewrite write_superblocks_cons. exact (evals_bind _ _ _ _ _ _ _ He1 He2 v Hv).
  - split; [done|congruence|exists x2; by rewrite Hsb2, Hsb1|]. intros b Hb Hin.
    rewrite fmap_cons, not_elem_of_cons in Hin. rewrite Hblk2, Hblk1; [done|done| |done|tauto].
    intros Hb1%list_elem_of_singleton. tauto.
Qed.

(** *** The descriptors *)
Definition bgdt_blocks : Z := (32 * Z.of_nat (length (g_bms G)) + bsz G - 1) / bsz G.
Definition bgdt_bytes (cs : bytes) : bytes := sub_bytes (blk_start G (bgdt_block G)) (32 * length (g_bms G)) cs.

Lemma serialize_bgdts l :
  Forall bgd_ok l -> length (l ≫= Bgd_serialize) = (32 * length l)%nat /\ Forall is_byte (l ≫= Bgd_serialize).
Proof using.
  induction 1 as [|d l Hd _ [IHl IHb]]; [done|]. rewrite bind_cons, length_app.
  rewrite Bgd_serialize_length by (by destruct Hd). split; [cbn; lia|]. apply Forall_app. split; [by apply Bgd_serialize_bytes|done].
Qed.
Lemma groups_pos : (0 < length (g_bms G))%nat.
Proof using HG.
  pose proof (go_groups _ HG) as Hgr. destruct HG.
  assert (1 <= (g_nblk G + g_bpg G - 1) / g_bpg G) by (apply Z.div_le_lower_bound; lia). lia.
Qed.
Lemma bgdt_area :
  0 < bgdt_blocks /\ 32 * Z.of_nat (length (g_bms G)) <= bgdt_blocks * bsz G /\ 0 < bgdt_block G /\
  bgdt_block G + bgdt_blocks <= g_nblk G.
Proof using HG HY.
  pose proof groups_pos as Hpos. pose proof (bsz_range G HG). unfold bgdt_blocks.
  set (n := 32 * Z.of_nat (length (g_bms G))) in *.
  assert (1 <= (n + bsz G - 1) / bsz G) by (apply Z.div_le_lower_bound; lia).
  pose proof (Z.div_mod (n + bsz G - 1) (bsz G) ltac:(lia)). pose proof (Z.mod_pos_bound (n + bsz G - 1) (bsz G) ltac:(lia)).
  assert (0 < bgdt_block G) by (unfold bgdt_block; destruct (_ =? _); by vm_compute).
  split_and!; [lia|lia|done|].
  destruct (lo_sync _ HY (bgdt_block G + (n + bsz G - 1) / bsz G - 1)) as [? _]; [|lia].
  right. right. fold n. lia.
Qed.

Lemma sync_bgdt_ok a :
  vol_ok G a ->
  exists cs, evals (Dev := Dev) sync_bgdt a (Ok tt) (with_device a cs) /\ vol_ok G (with_device a cs) /\
    (forall b, 0 <= b < g_nblk G -> ~ bgdt_block G <= b < bgdt_block G + bgdt_blocks -> blk G cs b = blk G (e2_device a) b) /\
    bgdt_bytes cs = e2_bgdts a ≫= Bgd_serialize.
Proof using HG HL HY.
  intros Ha. pose proof (vo_static _ _ Ha) as Hs. pose proof (static_fields G a Hs) as (Hpo & _ & _ & _ & _ & Hl).
  destruct bgdt_area as (Hn & Hfit & Hb0 & Hb1). pose proof (bsz_range G HG).
  destruct (serialize_bgdts _ (vo_bgd _ _ Ha)) as [Hlen Hby]. rewrite (bgdts_length G a Hs) in Hlen.
  set (buf := e2_bgdts a ≫= Bgd_serialize) in *. set (p := g_po G + bgdt_block G * bsz G).
  assert (0 <= bgdt_block G * bsz G) by (apply Z.mul_nonneg_nonneg; lia).
  assert ((bgdt_block G + bgdt_blocks) * bsz G <= g_nblk G * bsz G) by (apply Z.mul_le_mono_nonneg_r; lia).
  destruct HG as [? ? Hend ? ? ? ? ? ? Hbms ?].
  exists (put (Z.to_nat p) buf (e2_device a)).
  assert (forall b, 0 <= b < g_nblk G -> ~ bgdt_block G <= b < bgdt_block G + bgdt_blocks ->
            blk G (put (Z.to_nat p) buf (e2_device a)) b = blk G (e2_device a) b) as Hother.
  { intros b Hb Hout. apply (blk_put_span _ b (bgdt_block G) bgdt_blocks); unfold p; lia. }
  split_and!; [| |done|].
  - unfold sync_bgdt. apply evals_get. intros v Hv. eapply evals_bind; [by apply evals_block_size|].
    rewrite (abs_partition_offset _ _ Hv), (abs_bgdts _ _ Hv), Hpo. unfold bgdt_offset. fold (bgdt_block G).
    rewrite umul_eq by lia. cbn [mbind outcome_bind]. rewrite uadd_eq by lia.
    eapply evals_bind; [apply evals_lift|]. apply evals_write_to; fold buf; unfold p in *; lia.
  - apply vol_ok_with_device; [done|rewrite length_put; unfold p; lia|by apply put_bytes, (vo_bytes _ _ Ha)|].
    intros b Hb. apply Hother; [exact (proj1 (Forall_forall _ _) Hbms b Hb)|]. intros Hin.
    destruct (lo_sync _ HY b) as [_ Hnot]; [|done]. right. right. done.
  - unfold bgdt_bytes, blk_start. fold p. rewrite <-Hlen. apply sub_bytes_put_same. unfold p. lia.
Qed.

(** *** The superblock and its copies *)
Lemma backup_groups_eq : exists l, backup_groups G = 0 :: l /\ Forall (fun g => g <> 0) l.
Proof using HG.
  unfold backup_groups. pose proof groups_pos as Hpos.
  rewrite seqZ_cons by lia. cbn [List.filter has_superblock_backup]. rewrite orb_true_r.
  eexists. split; [done|]. apply Forall_forall. intros g Hg%list_elem_of_In. apply filter_In in Hg as [Hg _].
  apply list_elem_of_In, elem_of_seqZ in Hg. lia.
Qed.
Lemma total_groups_eq {E} a : static a = G -> @total_groups E (e2_superblock a) = Ok (Z.of_nat (length (g_bms G))).
Proof using HG.
  intros Hs. assert (sb_blk_count (e2_superblock a) = g_nblk G /\ sb_blocks_per_grp (e2_superblock a) = g_bpg G) as (Hn & Hb) by (by rewrite <-Hs).
  unfold total_groups. rewrite Hn, Hb, (go_groups _ HG). destruct HG.
  rewrite (uadd_eq 32) by lia. cbn [mbind outcome_bind]. rewrite usub_eq by lia. cbn [mbind outcome_bind].
  unfold udiv. by rewrite (proj2 (Z.eqb_neq (g_bpg G) 0)) by lia.
Qed.
Lemma superblock_groups_eq {E} a : static a = G -> @get_superblock_groups E (e2_superblock a) = Ok (backup_groups G).
Proof using HG.
  intros Hs. unfold get_superblock_groups, backup_groups. rewrite (total_groups_eq a Hs). cbn [mbind outcome_bind].
  by assert (sb_feature_ro_compat (e2_superblock a) = g_ro_compat G) as -> by (by rewrite <-Hs).
Qed.

(** The bytes of the first superblock. *)
Definition superblock_bytes (cs : bytes) : bytes :=
  sub_bytes (Z.to_nat (home_offset 0)) SUPERBLOCK_SIZE (blk G cs (home_block 0)).

(** The superblock as it is after a synchronisation at time [now]. *)
Definition synced_sb (sb : Ext2Superblock) : Ext2Superblock :=
  sb_set_block_group_nr (sb_set_wrt_time sb (wrap 32 now)) 0.

Record synced (a a' : Ext2FSInner bytes) : Prop := {
  sy_ok : vol_ok G a';
  sy_bgdts : e2_bgdts a' = e2_bgdts a;
  sy_sb : e2_superblock a' = synced_sb (e2_superblock a);
  sy_blk b : 0 <= b < g_nblk G -> ~ sync_block G b -> blk G (e2_device a') b = blk G (e2_device a) b;
  sy_primary : superblock_bytes (e2_device a') = Ext2Superblock_serialize (e2_superblock a');
  sy_table : bgdt_bytes (e2_device a') = e2_bgdts a ≫= Bgd_serialize;
}.

(** The first copy is not overwritten by the other copies, nor by the descriptors. *)
Lemma write_all_copies_ok a :
  vol_ok G a ->
  exists a', evals (Dev := Dev) (write_superblocks (bsz G) (backup_groups G)) a (Ok tt) a' /\
    copies_written (backup_groups G) a a' /\
    superblock_bytes (e2_device a') = Ext2Superblock_serialize (sb_set_block_group_nr (e2_superblock a) 0).
Proof using HG HL HY.
  intros Ha. destruct backup_groups_eq as (l & Hl & Hl0).
  assert (Forall (fun g => g ∈ backup_groups G) (backup_groups G)) as Hall by (by apply Forall_forall).
  rewrite Hl in Hall. apply Forall_cons in Hall as [Hz Hall].
  destruct (write_copy_ok a 0 Ha) as (a1 & He1 & [Hok1 Hbg1 _ Hblk1] & Hsb1 & Hp1); [rewrite Hl; by left|].
  destruct (write_superblocks_ok a1 l Hok1) as (a2 & He2 & [Hok2 Hbg2 (x2 & Hsb2) Hblk2]).
  { apply (Forall_impl _ _ _ Hall). intros g Hg. rewrite Hl. exact Hg. }
  exists a2. rewrite Hl. split_and!.
  - intros v Hv. rewrite write_superblocks_cons. exact (evals_bind _ _ _ _ _ _ _ He1 He2 v Hv).
  - split; [done|congruence|exists x2; by rewrite Hsb2, Hsb1|]. intros b Hb Hin.
    rewrite fmap_cons, not_elem_of_cons in Hin. rewrite Hblk2, Hblk1; [done|done| |done|tauto].
    intros Hb1%list_elem_of_singleton. tauto.
  - assert (0 ∈ backup_groups G) as H0 by (rewrite Hl; by left).
    destruct (lo_sync _ HY _ (home_block_sync 0 H0)) as [Hr _].
    unfold superblock_bytes. rewrite Hblk2; [|done|].
    + rewrite Hp1, Hsb1. change (wrap 16 0) with 0. destruct (home_fits 0) as [Ho Hend].
      assert (sb_ok (sb_set_block_group_nr (e2_superblock a) 0)) as Hsbok.
      { exact (vo_sb _ _ (vol_ok_block_group_nr a 0 Ha ltac:(by vm_compute))). }
      rewrite <-(serialize_sb_ok _ Hsbok). apply sub_bytes_put_same.
      rewrite (blk_length G HG), (serialize_sb_ok _ Hsbok); [|by destruct (static_fields G a (vo_static _ _ Ha)) as (_ & _ & _ & _ & _ & ->)|done].
      unfold SUPERBLOCK_SIZE. lia.
    + intros Hin. apply list_elem_of_fmap in Hin as (g & Hg & Hgl).
      rewrite Forall_forall in Hl0. specialize (Hl0 g Hgl). rewrite Forall_forall in Hall. specialize (Hall g Hgl). rewrite <-Hl in Hall.
      destruct (lo_backups _ HY g Hall Hl0) as [Hne _]. apply Hne. unfold home_block in Hg.
      rewrite (proj2 (Z.eqb_neq g 0)) in Hg by done. cbn in Hg. unfold first_block. by rewrite (lo_copies _ HY g Hall Hl0), Hg.
Qed.

Lemma sync_superblock_ok a :
  vol_ok G a -> exists a', evals (Dev := Dev) (sync_superblock now) a (Ok tt) a' /\ synced a a'.
Proof using HG HL HY.
  intros Ha. set (a0 := with_superblock a (sb_set_wrt_time (e2_superblock a) (wrap 32 now))).
  assert (vol_ok G a0) as Ha0 by (apply vol_ok_wrt_time; [done|by apply is_u_wrap]).
  destruct (write_all_copies_ok a0 Ha0) as (a1 & He1 & [Hok1 Hbg1 (x1 & Hsb1) Hblk1] & Hp1).
  set (a2 := with_superblock a1 (sb_set_block_group_nr (e2_superblock a1) 0)).
  assert (vol_ok G a2) as Ha2 by (by apply vol_ok_block_group_nr).
  destruct (sync_bgdt_ok a2 Ha2) as (cs & He3 & Hok3 & Hblk3 & Ht3).
  exists (with_device a2 cs). split.
  { unfold sync_superblock. eapply evals_bind; [apply (evals_with_superblock (fun sb => sb_set_wrt_time sb _))|].
    fold a0. eapply evals_bind; [by apply evals_block_size, (vo_static _ _ Ha0)|].
    apply evals_get. intros v Hv. rewrite (abs_superblock _ _ Hv), superblock_groups_eq by (by apply (vo_static _ _ Ha0)).
    eapply evals_bind; [apply evals_lift|]. eapply evals_bind; [exact He1|].
    eapply evals_bind; [apply (evals_with_superblock (fun sb => sb_set_block_group_nr sb _))|]. exact He3. }
  assert (e2_superblock a2 = synced_sb (e2_superblock a)) as Hsb2 by (unfold a2; cbn; by rewrite Hsb1).
  split; [done|exact Hbg1|done| | |exact (eq_trans Ht3 (f_equal (fun l => l ≫= Bgd_serialize) Hbg1))].
  - intros b Hb Hns. cbn. rewrite Hblk3; [|done|intros Hin; apply Hns; by right; right].
    rewrite Hblk1; [done|done|]. intros Hin. apply list_elem_of_fmap in Hin as (g & -> & Hg). by apply Hns, home_block_sync.
  - assert (0 ∈ backup_groups G) as H0 by (destruct backup_groups_eq as (l & -> & _); by left).
    destruct (lo_sync _ HY _ (home_block_sync 0 H0)) as [Hr _]. pose proof (lo_bgdt_sb _ HY) as Hlt.
    assert (superblock_bytes cs = superblock_bytes (e2_device a1)) as Heq.
    { unfold superblock_bytes. rewrite Hblk3; [done|done|unfold home_block; cbn; lia]. }
    etrans; [exact Heq|]. rewrite Hp1. change (e2_superblock (with_device a2 cs)) with (e2_superblock a2). by rewrite Hsb2.
Qed.

(** *** Inodes *)
Definition inode_group (n : Z) : nat := Z.to_nat ((n - 1) / g_ipg G).
Definition inode_pos (n : Z) : Z := (n - 1) mod g_ipg G * g_isz G.
Definition inode_block (n : Z) : Z := g_its G !!! inode_group n + inode_pos n / bsz G.
Definition inode_off (n : Z) : Z := inode_pos n mod bsz G.
Definition inode_valid (n : Z) : Prop := 1 <= n <= Z.of_nat (length (g_bms G)) * g_ipg G.
(** The bytes of inode [n]. *)
Definition inode_bytes (cs : bytes) (n : Z) : bytes :=
  sub_bytes (Z.to_nat (inode_off n)) (Z.to_nat (g_isz G)) (blk G cs (inode_block n)).

Lemma inode_group_ok a n :
  static a = G -> inode_valid n -> (inode_group n < length (g_bms G))%nat /\
  exists d, e2_bgdts a !! inode_group n = Some d /\ bg_inode_table d = g_its G !!! inode_group n /\
    g_its G !! inode_group n = Some (bg_inode_table d).
Proof using HY.
  intros Hs Hn. pose proof (lo_ipg _ HY).
  assert (0 <= (n - 1) / g_ipg G) by (apply Z.div_pos; unfold inode_valid in Hn; lia).
  assert ((n - 1) / g_ipg G < Z.of_nat (length (g_bms G))) by (apply Z.div_lt_upper_bound; unfold inode_valid in Hn; lia).
  assert (inode_group n < length (g_bms G))%nat as Hg by (unfold inode_group; lia). split; [done|].
  rewrite <-(bgdts_length G a Hs) in Hg. destruct (lookup_lt_is_Some_2 _ _ Hg) as [d Hd].
  assert (g_its G !! inode_group n = Some (bg_inode_table d)) as Hit.
  { transitivity ((bg_inode_table <$> e2_bgdts a) !! inode_group n); [by rewrite <-Hs|]. by rewrite list_lookup_fmap, Hd. }
  exists d. split_and!; [done| |done]. symmetry. by apply list_lookup_total_correct.
Qed.
Lemma inode_off_fits n : 0 <= inode_off n /\ inode_off n + g_isz G <= bsz G.
Proof using HG HY.
  pose proof (bsz_range G HG). pose proof (lo_isz _ HY). unfold inode_off, inode_pos.
  split; [apply Z.mod_pos_bound; lia|]. set (i := (n - 1) mod g_ipg G).
  pose proof (Z.div_exact (bsz G) (g_isz G) ltac:(lia)) as [_ He]. specialize (He (lo_isz_div _ HY)).
  set (q := bsz G / g_isz G) in *. assert (0 < q) by (apply Z.mul_pos_cancel_l with (g_isz G); lia).
  rewrite He, (Z.mul_comm i), Z.mul_mod_distr_l by lia. pose proof (Z.mod_pos_bound i q ltac:(lia)).
  assert (g_isz G * (i mod q + 1) <= g_isz G * q) by (apply Z.mul_le_mono_nonneg_l; lia). lia.
Qed.
Lemma inode_pos_range n : 0 <= inode_pos n < g_ipg G * g_isz G /\ inode_pos n + g_isz G <= g_ipg G * g_isz G.
Proof using HY.
  pose proof (lo_ipg _ HY). pose proof (lo_isz _ HY). unfold inode_pos.
  pose proof (Z.mod_pos_bound (n - 1) (g_ipg G) ltac:(lia)).
  assert (((n - 1) mod g_ipg G + 1) * g_isz G <= g_ipg G * g_isz G) by (apply Z.mul_le_mono_nonneg_r; lia).
  assert (0 <= (n - 1) mod g_ipg G * g_isz G) by (apply Z.mul_nonneg_nonneg; lia). lia.
Qed.
Lemma inode_block_table a n :
  static a = G -> inode_valid n ->
  exists t, g_its G !! inode_group n = Some t /\ inode_block n = t + inode_pos n / bsz G /\ in_table G t (inode_block n).
Proof using HG HY.
  intros Hs Hn. destruct (inode_group_ok a n Hs Hn) as (_ & d & _ & Hd & Hlk). exists (bg_inode_table d).
  pose proof (bsz_range G HG). destruct (inode_pos_range n) as [Hp _].
  assert (inode_block n = bg_inode_table d + inode_pos n / bsz G) as Hb by (unfold inode_block; by rewrite <-Hd).
  split_and!; [done|done|]. unfold in_table. rewrite Hb.
  assert (0 <= inode_pos n / bsz G) by (apply Z.div_pos; lia).
  assert (inode_pos n / bsz G < (g_ipg G * g_isz G + bsz G - 1) / bsz G); [|lia].
  pose proof (Z.div_le_mono (inode_pos n) (g_ipg G * g_isz G - 1) (bsz G)).
  replace (g_ipg G * g_isz G + bsz G - 1) with (g_ipg G * g_isz G - 1 + 1 * bsz G) by lia.
  rewrite Z.div_add by lia. lia.
Qed.

Lemma evals_inode_offset a n :
  vol_ok G a -> inode_valid n ->
  evals (Dev := Dev) (get_block_offset_for_inode_num n) a (Ok (g_po G + inode_block n * bsz G + inode_off n)) a.
Proof using HG HY.
  intros Ha Hn. pose proof (vo_static _ _ Ha) as Hs.
  destruct (inode_group_ok a n Hs Hn) as (Hg & d & Hd & Hit & Hlk).
  destruct (inode_block_table a n Hs Hn) as (t & Ht & Hblk & Hin). assert (t = bg_inode_table d) as -> by congruence.
  destruct (lo_table _ HY (inode_block n)) as ((Hb0 & Hb1) & _ & _); [by do 2 eexists|].
  pose proof (bsz_range G HG). pose proof (inode_off_fits n). pose proof (inode_pos_range n).
  pose proof (blk_bound G HG _ (conj Hb0 Hb1)). pose proof (lo_ipg _ HY). pose proof (lo_isz _ HY).
  assert (sb_inodes_per_grp (e2_superblock a) = g_ipg G /\ sb_inode_size (e2_superblock a) = g_isz G) as [Hipg Hisz] by (by rewrite <-Hs).
  assert (g_isz G < 2 ^ 16) by (rewrite <-Hisz; apply (sbo_inode_size _ (vo_sb _ _ Ha))).
  assert (g_ipg G * g_isz G < 2 ^ 64).
  { apply Z.lt_le_trans with (2 ^ 32 * 2 ^ 16); [|lia]. apply Z.mul_lt_mono_nonneg; lia. }
  unfold get_block_offset_for_inode_num. apply evals_get. intros v Hv.
  rewrite (abs_superblock _ _ Hv), (abs_bgdts _ _ Hv), (abs_partition_offset _ _ Hv), Hipg, Hisz.
  pose proof (static_fields G a Hs) as (-> & _). unfold inode_valid in Hn.
  rewrite usub_eq by lia. eapply evals_bind; [apply evals_lift|].
  unfold udiv, urem. rewrite (proj2 (Z.eqb_neq (g_ipg G) 0)) by lia. do 2 (eapply evals_bind; [apply evals_lift|]).
  rewrite (bgdts_length G a Hs). unfold inode_group in Hd, Hg.
  assert (0 <= (n - 1) / g_ipg G) by (apply Z.div_pos; lia).
  rewrite (proj2 (Z.leb_gt _ _)) by lia. rewrite Hd. eapply evals_bind; [apply evals_lift|].
  fold (inode_pos n). rewrite umul_eq by (unfold inode_pos in *; lia). fold (inode_pos n). eapply evals_bind; [apply evals_lift|].
  eapply evals_bind; [by apply evals_block_size|]. rewrite (proj2 (Z.eqb_neq (bsz G) 0)) by lia.
  eapply evals_bind; [apply evals_lift|]. rewrite Hblk in *. destruct HG.
  rewrite uadd_eq by lia. eapply evals_bind; [apply evals_lift|]. eapply evals_bind; [apply evals_lift|].
  fold (inode_off n). rewrite umul_eq by lia. eapply evals_bind; [apply evals_lift|].
  rewrite uadd_eq by lia. eapply evals_bind; [apply evals_lift|]. rewrite uadd_eq by lia. apply evals_lift.
Qed.

(** Two inodes in one block do not overlap. *)
Lemma inodes_apart a m n :
  static a = G -> inode_valid m -> inode_valid n -> m <> n -> inode_block m = inode_block n ->
  inode_off m + g_isz G <= inode_off n \/ inode_off n + g_isz G <= inode_off m.
Proof using HG HY.
  intros Hs Hm Hn Hne Heq. destruct (inode_block_table a m Hs Hm) as (t & Ht & Hbt & Hint).
  destruct (inode_block_table a n Hs Hn) as (u & Hu & Hbu & Hinu).
  assert (inode_group m = inode_group n) as Hgg by (rewrite Heq in Hint; by eapply (lo_tables _ HY)).
  assert (t = u) as -> by congruence. pose proof (lo_ipg _ HY). pose proof (lo_isz _ HY). pose proof (bsz_range G HG).
  unfold inode_group, inode_valid in *.
  pose proof (Z.div_mod (m - 1) (g_ipg G) ltac:(lia)). pose proof (Z.div_mod (n - 1) (g_ipg G) ltac:(lia)).
  assert (0 <= (m - 1) / g_ipg G) by (apply Z.div_pos; lia). assert (0 <= (n - 1) / g_ipg G) by (apply Z.div_pos; lia).
  assert ((m - 1) / g_ipg G = (n - 1) / g_ipg G) as Hdiv by lia. rewrite Hdiv in *.
  unfold inode_off. pose proof (Z.div_mod (inode_pos m) (bsz G) ltac:(lia)). pose proof (Z.div_mod (inode_pos n) (bsz G) ltac:(lia)).
  assert (inode_pos m / bsz G = inode_pos n / bsz G) as Hq by lia. rewrite Hq in *.
  unfold inode_pos in *. set (i := (m - 1) mod g_ipg G) in *. set (j := (n - 1) mod g_ipg G) in *.
  destruct (Z.lt_total i j) as [Hij|[Hij|Hij]]; [|lia|].
  - assert ((i + 1) * g_isz G <= j * g_isz G) by (apply Z.mul_le_mono_nonneg_r; lia). lia.
  - assert ((j + 1) * g_isz G <= i * g_isz G) by (apply Z.mul_le_mono_nonneg_r; lia). lia.
Qed.

(** What [sync_inode] leaves: the inode on disk, the superblock and the descriptors. *)
Record inode_synced (n : Z) (ino : Ext2Inode) (a a' : Ext2FSInner bytes) : Prop := {
  is_ok : vol_ok G a';
  is_bgdts : e2_bgdts a' = e2_bgdts a;
  is_sb : e2_superblock a' = synced_sb (e2_superblock a);
  is_blk b : 0 <= b < g_nblk G -> ~ sync_block G b -> b <> inode_block n ->
    blk G (e2_device a') b = blk G (e2_device a) b;
  is_ino : take 128 (inode_bytes (e2_device a') n) = Ext2Inode_serialize ino;
  is_other m : inode_valid m -> m <> n -> inode_bytes (e2_device a') m = inode_bytes (e2_device a) m;
}.

Lemma sync_inode_ok a n ino :
  vol_ok G a -> inode_valid n -> ino_ok ino ->
  exists a', evals (Dev := Dev) (sync_inode now ino n) a (Ok tt) a' /\ inode_synced n ino a a'.
Proof using HG HL HY.
  intros Ha Hn Hi. pose proof (vo_static _ _ Ha) as Hs. pose proof (static_fields G a Hs) as (_ & _ & _ & _ & _ & Hl).
  assert (forall m, inode_valid m -> 0 <= inode_block m < g_nblk G /\ inode_block m ∉ g_bms G /\ ~ sync_block G (inode_block m)) as Hin.
  { intros m Hm. destruct (inode_block_table a m Hs Hm) as (t & Ht & _ & Htb). apply (lo_table _ HY). by do 2 eexists. }
  destruct (Hin n Hn) as (Hr & Hbm & Hsy). destruct (inode_off_fits n) as [Ho Hend]. pose proof (lo_isz _ HY).
  pose proof (Ext2Inode_serialize_length ino (ino_block _ Hi) (ino_osd2 _ Hi)) as Hlen.
  destruct (write_in_block a (inode_block n) (inode_off n) (Ext2Inode_serialize ino)) as (cs & Hev & Hok & Hother & Hsame);
    [done..|rewrite Hlen; lia|by apply Ext2Inode_serialize_bytes|].
  destruct (sync_superblock_ok _ Hok) as (a' & Hev' & [Hok' Hbg' Hsb' Hblk' _ _]).
  exists a'. split.
  { unfold sync_inode. eapply evals_bind; [by apply evals_inode_offset|]. eapply evals_bind; [exact Hev|exact Hev']. }
  split; [done|done|done| | |].
  - intros b Hb Hnb Hne. rewrite Hblk' by done. cbn. by apply Hother.
  - unfold inode_bytes. rewrite Hblk' by done. cbn. rewrite Hsame. unfold sub_bytes. rewrite take_take, Nat.min_l by lia.
    fold (sub_bytes (Z.to_nat (inode_off n)) 128 (put (Z.to_nat (inode_off n)) (Ext2Inode_serialize ino) (blk G (e2_device a) (inode_block n)))).
    rewrite <-Hlen. apply sub_bytes_put_same. rewrite (blk_length G HG), Hlen by done. lia.
  - intros m Hm Hne. destruct (Hin m Hm) as (Hrm & _ & Hsm). unfold inode_bytes. rewrite Hblk' by done. cbn.
    destruct (decide (inode_block m = inode_block n)) as [Heq|Hneq]; [|by rewrite Hother].
    rewrite Heq, Hsame. destruct (inode_off_fits m). 
    apply sub_bytes_put_away; [rewrite (blk_length G HG), Hlen by done; lia|]. rewrite Hlen.
    destruct (inodes_apart a m n Hs Hm Hn Hne Heq); lia.
Qed.

Lemma read_inode_ok a msg n ino :
  vol_ok G a -> inode_valid n -> ino_ok ino -> take 128 (inode_bytes (e2_device a) n) = Ext2Inode_serialize ino ->
  evals (Dev := Dev) (read_inode msg n) a (Ok ino) a.
Proof using HG HL HY.
  intros Ha Hn Hi Hb. pose proof (vo_static _ _ Ha) as Hs. pose proof (static_fields G a Hs) as (_ & _ & _ & _ & _ & Hl).
  destruct (inode_block_table a n Hs Hn) as (t & Ht & _ & Htb).
  destruct (lo_table _ HY (inode_block n)) as (Hr & _ & _); [by do 2 eexists|].
  destruct (inode_off_fits n) as [Ho Hend]. pose proof (blk_bound G HG _ Hr). pose proof (lo_isz _ HY).
  unfold read_inode. eapply evals_bind; [by apply evals_inode_offset|]. apply evals_get. intros v Hv.
  rewrite (abs_superblock _ _ Hv). assert (sb_inode_size (e2_superblock a) = g_isz G) as -> by (by rewrite <-Hs).
  eapply evals_bind; [apply evals_read_from; lia|].
  replace (sub_bytes (Z.to_nat (g_po G + inode_block n * bsz G + inode_off n)) (Z.to_nat (g_isz G)) (e2_device a))
    with (inode_bytes (e2_device a) n).
  2:{ unfold inode_bytes, blk. rewrite sub_bytes_sub_bytes by lia. unfold blk_start. f_equal. lia. }
  rewrite <-(take_drop 128 (inode_bytes _ n)), Hb, inode_round_trip by done.
  eapply evals_bind; apply evals_lift.
Qed.

(** [sync_inode] returns and stores the inode: reading its number gives it back.  The bytes
    of every other inode, and every block outside the inode's own and the copies of the
    superblock and descriptors, stay as they were; the volume stays consistent. *)
Theorem ext2_inode_stored v n ino :
  vol_ok G (abs v) -> inode_valid n -> ino_ok ino ->
  exists v', sync_inode now ino n v = (Ok tt, v') /\ vol_ok G (abs v') /\
    (forall msg, exists v'', read_inode msg n v' = (Ok ino, v'')) /\
    (forall m, inode_valid m -> m <> n -> inode_bytes (contents (e2_device v')) m = inode_bytes (contents (e2_device v)) m) /\
    (forall b, 0 <= b < g_nblk G -> ~ sync_block G b -> b <> inode_block n ->
       blk G (contents (e2_device v')) b = blk G (contents (e2_device v)) b).
Proof using HG HL HY.
  intros Hv Hn Hi. destruct (sync_inode_ok (abs v) n ino Hv Hn Hi) as (a' & He & [Hok Hbg Hsb Hblk Hino Hoth]).
  destruct (He v eq_refl) as (v' & Hr & <-). exists v'. split_and!; [done..| |done|done].
  intros msg. destruct (read_inode_ok (abs v') msg n ino Hok Hn Hi Hino v' eq_refl) as (v'' & Hr'' & _). eauto.
Qed.
End Meta.

(** ** Mounting again *)
Section Remount.
Context {Dev : Type} `{HB : BlockDevice Dev} {HL : BlockDeviceLaws Dev}.
Context (G : Geometry) (HG : geom_ok G) (HY : layout_ok G).

Lemma mount_read_ok o n (d : Dev) :
  0 <= o -> o + Z.of_nat n <= Z.of_nat (length (contents d)) ->
  exists d', mount_read o n d = (Ok (sub_bytes (Z.to_nat o) n (contents d)), d') /\ contents d' = contents d.
Proof using HL.
  intros Ho Hn. destruct (seek_start o d Ho) as (s1 & Hs1 & Hc1 & Hp1 & _).
  destruct (read_loop_inside (length (replicate n 0) + 1) (replicate n 0) s1)
    as (s2 & Hs2 & Hc2 & _ & _); [lia|rewrite length_replicate, Hc1; lia|lia|].
  exists s2. split; [|congruence]. unfold mount_read, mbind, st_bind, st_map_err, read_exact. rewrite Hs1. cbn.
  rewrite Hs2. cbn. by rewrite length_replicate, Hc1, Hp1.
Qed.

Lemma parse_bgdts_serialized l : Forall bgd_ok l -> parse_bgdts (chunks BGDT_ENTRY_SIZE (l ≫= Bgd_serialize)) = Ok l.
Proof using.
  induction 1 as [|d l Hd _ IH]; [done|]. rewrite bind_cons, chunks_app by (first [apply Bgd_serialize_length, (bgo_padding _ Hd) | unfold BGDT_ENTRY_SIZE; lia]).
  cbn [parse_bgdts]. rewrite bgd_round_trip by done. cbn [mbind outcome_bind ok_or]. by rewrite IH.
Qed.

Definition mounted_sb (now : Z) (sb : Ext2Superblock) : Ext2Superblock :=
  sb_set_mnt_time_mnt_count sb (wrap 32 now) (saturating_add 16 (sb_mnt_count sb) 1).
Definition is_read_only (ro_compat : Z) : bool := negb (Z.land ro_compat (unot 32 EXT2_SUPPORTED_RO_COMPAT_FEATURES) =? 0).

Lemma superblock_at cs : length cs = g_len G -> sub_bytes (Z.to_nat (g_po G + SUPERBLOCK_OFFSET)) SUPERBLOCK_SIZE cs = superblock_bytes G cs.
Proof using HG HY.
  intros Hl. destruct (home_fits G HG 0) as [Ho Hend].
  assert (0 ∈ backup_groups G) as H0 by (destruct (backup_groups_eq G HG) as (l & -> & _); by left).
  destruct (lo_sync _ HY _ (home_block_sync G HY 0 H0)) as [Hr _]. pose proof (blk_bound G HG _ Hr). pose proof (bsz_range G HG).
  unfold superblock_bytes, blk. rewrite sub_bytes_sub_bytes by (unfold SUPERBLOCK_SIZE; lia). f_equal.
  unfold blk_start, home_block, home_offset in *. cbn [Z.eqb] in *.
  pose proof (Z.div_mod SUPERBLOCK_OFFSET (bsz G) ltac:(lia)). lia.
Qed.

(** The volume as mounting reads it back. *)
Lemma mount_inner_ok now a (d : Dev) :
  vol_ok G a -> contents d = e2_device a -> g_ro G = is_read_only (g_ro_compat G) ->
  Ext2Superblock_validate (e2_superblock a) = Ok tt ->
  superblock_bytes G (e2_device a) = Ext2Superblock_serialize (e2_superblock a) ->
  bgdt_bytes G (e2_device a) = e2_bgdts a ≫= Bgd_serialize ->
  exists d' d'', mount_inner now (g_po G) d =
      (Ok (mkExt2 d' (g_po G) (mounted_sb now (e2_superblock a)) (e2_bgdts a) (g_ro G)), d'') /\ contents d' = contents d.
Proof using HG HL HY.
  intros Ha Hd Hro Hval Hsb Hbg. pose proof (vo_static _ _ Ha) as Hs. pose proof (static_fields G a Hs) as (Hpo & _ & _ & _ & _ & Hl).
  assert (0 ∈ backup_groups G) as H0 by (destruct (backup_groups_eq G HG) as (l & -> & _); by left).
  destruct (lo_sync _ HY _ (home_block_sync G HY 0 H0)) as [Hr _]. pose proof (blk_bound G HG _ Hr) as Hbound.
  destruct (home_fits G HG 0) as [Ho Hend]. pose proof (bsz_range G HG) as Hbsz. destruct (bgdt_area G HG HY) as (Hn & Hfit & Hb0 & Hb1).
  unfold home_block, home_offset in *. cbn [Z.eqb] in *. pose proof (Z.div_mod SUPERBLOCK_OFFSET (bsz G) ltac:(lia)) as Hdm.
  assert ((bgdt_block G + bgdt_blocks G) * bsz G <= g_nblk G * bsz G) by (apply Z.mul_le_mono_nonneg_r; lia).
  assert (0 <= bgdt_block G * bsz G) by (apply Z.mul_nonneg_nonneg; lia).
  pose proof (superblock_at (e2_device a) Hl) as Hat. pose proof (go_groups _ HG) as Hgr.
  destruct (mount_read_ok (g_po G + SUPERBLOCK_OFFSET) SUPERBLOCK_SIZE d) as (d1 & Hr1 & Hc1).
  { destruct HG. unfold SUPERBLOCK_OFFSET. lia. } { rewrite Hd, Hl. unfold SUPERBLOCK_SIZE. lia. }
  destruct (mount_read_ok (g_po G + bgdt_block G * bsz G) (length (g_bms G) * BGDT_ENTRY_SIZE) d1) as (d2 & Hr2 & Hc2).
  { destruct HG. lia. } { rewrite Hc1, Hd, Hl. unfold BGDT_ENTRY_SIZE. destruct HG. lia. }
  assert (Hpars : @Ext2Superblock_deserialize FsMountError (sub_bytes (Z.to_nat (g_po G + SUPERBLOCK_OFFSET)) SUPERBLOCK_SIZE (contents d)) = Ok (Some (e2_superblock a))).
  { rewrite Hd, Hat, Hsb. apply superblock_round_trip, (vo_sb _ _ Ha). }
  assert (Hbgp : parse_bgdts (chunks BGDT_ENTRY_SIZE (sub_bytes (Z.to_nat (g_po G + bgdt_block G * bsz G)) (length (g_bms G) * BGDT_ENTRY_SIZE) (contents d1))) = Ok (e2_bgdts a)).
  { rewrite Hc1, Hd, Nat.mul_comm. unfold bgdt_bytes, blk_start in Hbg. unfold BGDT_ENTRY_SIZE at 2. rewrite Hbg.
    apply parse_bgdts_serialized, (vo_bgd _ _ Ha). }
  assert (@total_groups FsMountError (e2_superblock a) = Ok (Z.of_nat (length (g_bms G)))) as Htg by (by apply (total_groups_eq G HG)).
  assert (@Ext2Superblock_block_size FsMountError (e2_superblock a) = Ok (bsz G)) as Hbs by (by apply (block_size_eq G HG)).
  exists d2, d2. split; [|congruence]. unfold mount_inner.
  rewrite (st_lift_bind _ _ _ (g_po G + SUPERBLOCK_OFFSET)) by (apply uadd_eq; destruct HG; unfold SUPERBLOCK_OFFSET in *; lia).
  rewrite (st_bind_eq _ _ _ _ _ Hr1), (st_lift_bind _ _ _ _ Hpars). cbn [ok_or]. rewrite (st_lift_bind _ _ _ _ eq_refl).
  rewrite (st_lift_bind _ _ _ _ Hval), (st_lift_bind _ _ _ _ Htg), (st_lift_bind _ _ _ _ Hbs).
  rewrite (st_lift_bind _ _ _ (g_po G + bgdt_block G * bsz G)).
  2:{ unfold bgdt_offset. fold (bgdt_block G). destruct HG. rewrite umul_eq by lia. cbn [mbind outcome_bind]. apply uadd_eq. lia. }
  rewrite Nat2Z.id, (st_bind_eq _ _ _ _ _ Hr2), (st_lift_bind _ _ _ _ Hbgp).
  rewrite (st_bind_eq _ _ _ _ _ (eq_refl : st_get d2 = (Ok d2, d2))). unfold mret, st_ret. do 3 f_equal.
  rewrite Hro. unfold is_read_only. by rewrite <-Hs.
Qed.

Lemma vol_ok_mounted now a : vol_ok G a -> vol_ok G (with_superblock a (mounted_sb now (e2_superblock a))).
Proof using.
  intros [Hs Hsb ? ? ? ? ?]. destruct Hsb. split; try done. split; try done; [by apply is_u_wrap|].
  cbn. unfold saturating_add, umax, is_u in *. lia.
Qed.

(** C40: a volume that was synchronised is mounted again as it was: the mount succeeds and has the
    same descriptors, the same superblock (but for the times, the group number 0 and the mount
    count, which goes up by one until it saturates), and the same contents in every block but those where the ext2 format puts the
    superblock, its copies and the descriptors.  The volume has blocks above 1 KiB or
    superblocks in group 0 only ([lo_copies] of [layout_ok]), and its superblock is one that
    the mount accepts. *)
Theorem ext2_remount now now' v :
  vol_ok G (abs v) -> g_ro G = is_read_only (g_ro_compat G) -> Ext2Superblock_validate (e2_superblock v) = Ok tt ->
  exists v' w, sync_superblock now v = (Ok tt, v') /\ Ext2_mount now' (e2_device v') (g_po G) = Ok w /\
    vol_ok G (abs w) /\ e2_bgdts w = e2_bgdts v /\
    (let sb := mounted_sb now' (synced_sb now (e2_superblock v)) in
     e2_superblock w = if g_ro G then sb else synced_sb now' sb) /\
    (forall b, 0 <= b < g_nblk G -> ~ sync_block G b ->
       blk G (contents (e2_device w)) b = blk G (contents (e2_device v)) b).
Proof using HG HL HY.
  intros Hv Hro Hval. destruct (sync_superblock_ok now G HG HY (abs v) Hv) as (a1 & He1 & [Hok1 Hbg1 Hsb1 Hblk1 Hp1 Ht1]).
  destruct (He1 v eq_refl) as (v1 & Hr1 & Ha1). cbn in Hbg1, Hsb1.
  assert (contents (e2_device v1) = e2_device a1) as Hc1 by (by rewrite <-Ha1).
  destruct (mount_inner_ok now' a1 (e2_device v1) Hok1 Hc1 Hro) as (d1 & d2 & Hm & Hcd); [|done|by rewrite Ht1, Hbg1|].
  { rewrite Hsb1. exact Hval. }
  set (w1 := mkExt2 d1 _ _ _ _) in Hm.
  assert (abs w1 = with_superblock a1 (mounted_sb now' (e2_superblock a1))) as Hw1.
  { unfold abs, w1, with_superblock. cbn. rewrite Hcd, Hc1. pose proof (vo_static _ _ Hok1) as Hs. by rewrite <-Hs. }
  assert (vol_ok G (abs w1)) as Hokw by (rewrite Hw1; by apply vol_ok_mounted).
  exists v1. unfold Ext2_mount. rewrite Hm. cbn [fst mbind outcome_bind]. change (e2_read_only w1) with (g_ro G).
  destruct (g_ro G).
  - exists w1. split_and!; [done|done|done|exact Hbg1|by cbn; rewrite Hsb1|].
    intros b Hb Hns. cbn. rewrite Hcd, Hc1. by apply Hblk1.
  - destruct (sync_superblock_ok now' G HG HY (abs w1) Hokw) as (a2 & He2 & [Hok2 Hbg2 Hsb2 Hblk2 _ _]).
    destruct (He2 w1 eq_refl) as (w2 & Hr2 & Ha2). rewrite Hr2. exists w2. subst a2. cbn in *.
    split_and!; [done|done|done|by rewrite Hbg2|by rewrite Hsb2, Hsb1|].
    intros b Hb Hns. rewrite Hblk2 by done. rewrite Hcd, Hc1. by apply Hblk1.
Qed.
End Remount.
