(* ===== verification/Ext2Data.v ===== *)
(** * The blocks of an ext2 file (zenos-kernel/src/disk/fs/ext2/mod.rs)

    The block pointers of an inode, direct and behind one and two levels of indirection, as
    a map from slots to blocks, and what looking up or allocating a block, reading and
    writing do to it. *)
From S2P Require Import Prelude OpenFile Bytes BlockDev Ext2 Ext2Fs Ext2Blocks Ext2Meta.

(** ** Arrays of pointers *)
Section Pointers.

Lemma u32s_of_length buf : length (u32s_of buf) = (length buf / 4)%nat.
Proof. unfold u32s_of. by rewrite length_fmap, length_seq. Qed.
Lemma u32s_of_app a b : length a = 4%nat -> u32s_of (a ++ b) = from_le a :: u32s_of b.
Proof.
  intros Ha. unfold u32s_of. rewrite length_app, Ha. replace (4 + length b)%nat with (length b + 1 * 4)%nat by lia.
  rewrite Nat.div_add by lia. rewrite Nat.add_1_r. cbn [seq fmap list_fmap]. rewrite Nat.mul_0_r. f_equal.
  - by rewrite sub_bytes_all.
  - rewrite <-seq_shift. change (List.map S) with (fmap (M := list) S). rewrite <-list_fmap_compose.
    apply list_fmap_ext. intros i x _. unfold compose. rewrite (sub_bytes_skip _ _ _ _ 4) by lia. do 2 f_equal. lia.
Qed.
Lemma u32s_of_put ps : Forall (is_u 32) ps -> u32s_of (put_u32s ps) = ps.
Proof.
  induction 1 as [|p ps Hp _ IH]; [done|]. unfold put_u32s in *. rewrite bind_cons, u32s_of_app by apply to_le_length.
  by rewrite from_to_le, IH.
Qed.
Lemma u32s_of_zeros n : u32s_of (replicate (4 * n) 0) = replicate n 0.
Proof.
  rewrite <-(u32s_of_put (replicate n 0)) by (by apply Forall_replicate). f_equal.
  induction n as [|n IH]; [done|]. unfold put_u32s. cbn [replicate]. rewrite bind_cons.
  change (replicate n 0 ≫= to_le 4) with (put_u32s (replicate n 0)). rewrite <-IH. 
  replace (4 * S n)%nat with (4 + 4 * n)%nat by lia. by rewrite replicate_add.
Qed.
Lemma u32s_of_range buf : Forall is_byte buf -> Forall (is_u 32) (u32s_of buf).
Proof.
  intros Hb. unfold u32s_of. apply Forall_fmap, Forall_forall. intros i Hi. apply elem_of_seq in Hi. cbn.
  assert (4 * i + 4 <= length buf)%nat.
  { pose proof (Nat.div_mod (length buf) 4 ltac:(lia)). lia. }
  pose proof (from_le_range (sub_bytes (4 * i) 4 buf) (sub_bytes_bytes _ _ _ Hb)) as Hr.
  by rewrite sub_bytes_length in Hr by lia.
Qed.
End Pointers.

(** ** The slots of an inode *)

(** [Dir i] is a direct pointer, [Tab1] and [Tab2] the pointers to the tables of one and two
    levels, [In1 i] a data pointer in [Tab1], [Tab3 k] a table pointer in [Tab2], and
    [In2 k i] a data pointer in [Tab3 k]. *)
Inductive slot := Dir (i : nat) | Tab1 | Tab2 | In1 (i : nat) | Tab3 (k : nat) | In2 (k i : nat).
#[export] Instance slot_eq_dec : EqDecision slot.
Proof. solve_decision. Defined.

Definition is_table (s : slot) : bool := match s with Tab1 | Tab2 | Tab3 _ => true | _ => false end.
(** The slot of entry [i] of the table in slot [s]. *)
Definition child (s : slot) (i : nat) : slot :=
  match s with Tab1 => In1 i | Tab2 => Tab3 i | Tab3 k => In2 k i | _ => s end.
Definition root_slot (k : nat) : slot := if decide (k < 12)%nat then Dir k else if decide (k = 12)%nat then Tab1 else Tab2.

Section Slots.
Context (G : Geometry).

Definition ppb : nat := Z.to_nat (bsz G / 4).
Definition valid (s : slot) : Prop :=
  match s with
  | Dir i => (i < 12)%nat
  | Tab1 | Tab2 => True
  | In1 i | Tab3 i => (i < ppb)%nat
  | In2 k i => (k < ppb)%nat /\ (i < ppb)%nat
  end.
(** Entry [i] of the table in block [t]; an absent table has no entries. *)
Definition entry (cs : bytes) (t : Z) (i : nat) : Z := if t =? 0 then 0 else u32s_of (blk G cs t) !!! i.
Definition val (cs : bytes) (ino : Ext2Inode) (s : slot) : Z :=
  match s with
  | Dir i => i_block ino !!! i
  | Tab1 => i_block ino !!! 12%nat
  | Tab2 => i_block ino !!! 13%nat
  | In1 i => entry cs (i_block ino !!! 12%nat) i
  | Tab3 k => entry cs (i_block ino !!! 13%nat) k
  | In2 k i => entry cs (entry cs (i_block ino !!! 13%nat) k) i
  end.

Lemma val_child cs ino s i : is_table s = true -> val cs ino (child s i) = entry cs (val cs ino s) i.
Proof using. by destruct s. Qed.

(** Filling entry [i] of the table in slot [ts] with the block [n]. *)
Lemma fill_entry cs cs' ino ts i n :
  is_table ts = true -> valid (child ts i) ->
  val cs ino ts <> 0 -> val cs ino (child ts i) = 0 -> n <> 0 ->
  (forall s, is_table s = true -> valid s -> s <> ts -> val cs ino s <> 0 -> blk G cs' (val cs ino s) = blk G cs (val cs ino s)) ->
  (forall j, (j < ppb)%nat -> entry cs' (val cs ino ts) j = if decide (j = i) then n else entry cs (val cs ino ts) j) ->
  (is_table (child ts i) = true -> forall j, (j < ppb)%nat -> entry cs' n j = 0) ->
  forall s, valid s -> val cs' ino s = if decide (s = child ts i) then n else val cs ino s.
Proof using.
  intros Hts Hvi Ht0 Hz Hn Hsame Hent Hnew.
  assert (forall s j, is_table s = true -> valid s -> s <> ts -> entry cs' (val cs ino s) j = entry cs (val cs ino s) j) as Hkeep.
  { intros s j Hs Hv Hne. unfold entry. destruct (Z.eqb_spec (val cs ino s) 0); [done|]. by rewrite Hsame. }
  assert (forall s, valid s -> (exists i, s = Dir i) \/ s = Tab1 \/ s = Tab2 -> val cs' ino s = val cs ino s) as Hroot.
  { intros s _ [[? ->]|[->| ->]]; done. }
  assert (forall s j, is_table s = true -> valid s -> valid (child s j) -> val cs' ino s = val cs ino s -> s <> child ts i ->
            val cs' ino (child s j) = if decide (child s j = child ts i) then n else val cs ino (child s j)) as Hstep.
  { intros s j Hs Hv Hvc Heq Hnc. rewrite !val_child, Heq by done. destruct (decide (s = ts)) as [->|Hne].
    - assert (j < ppb)%nat by (destruct ts; cbn in *; tauto || discriminate). rewrite Hent by done.
      destruct (decide (j = i)) as [->|Hji]; [by rewrite decide_True|]. rewrite decide_False; [done|].
      intros Hc. apply Hji. destruct ts; cbn in Hc; try discriminate; congruence.
    - rewrite Hkeep by done. rewrite decide_False; [done|]. intros Hc.
      destruct s, ts; cbn in *; try discriminate; try congruence. }
  intros s Hv. destruct s as [k| | |j|k|k j].
  1-3: rewrite Hroot by eauto; rewrite decide_False; [done|]; by destruct ts.
  - apply (Hstep Tab1); try done. by destruct ts.
  - apply (Hstep Tab2); try done. by destruct ts.
  - destruct Hv as [Hk Hj].
    assert (val cs' ino (Tab3 k) = if decide (Tab3 k = child ts i) then n else val cs ino (Tab3 k)) as H3
      by (apply (Hstep Tab2 k); try done; by destruct ts).
    destruct (decide (Tab3 k = child ts i)) as [Hc|Hc].
    + assert (ts = Tab2 /\ i = k) as [-> ->] by (destruct ts; cbn in Hc; by simplify_eq).
      rewrite decide_False by done. change (In2 k j) with (child (Tab3 k) j). rewrite !val_child by done.
      cbn [child] in Hz, Hnew. rewrite H3, Hz. by rewrite Hnew.
    + by apply (Hstep (Tab3 k)).
Qed.

(** Filling the pointer [k] of the inode with the block [n]. *)
Lemma fill_root cs cs' ino k n :
  (k < 14)%nat -> length (i_block ino) = 15%nat -> val cs ino (root_slot k) = 0 -> n <> 0 ->
  (forall s, is_table s = true -> valid s -> val cs ino s <> 0 -> blk G cs' (val cs ino s) = blk G cs (val cs ino s)) ->
  (is_table (root_slot k) = true -> forall j, (j < ppb)%nat -> entry cs' n j = 0) ->
  forall s, valid s ->
    val cs' (set_i_block ino (<[k := n]> (i_block ino))) s = if decide (s = root_slot k) then n else val cs ino s.
Proof using.
  intros Hk Hlen Hz Hn Hsame Hnew. set (ino' := set_i_block ino _).
  assert (forall j, i_block ino' !!! j = if decide (j = k) then n else i_block ino !!! j) as Hib.
  { intros j. cbn. destruct (decide (j = k)) as [->|]; [by apply list_lookup_total_insert_eq; lia|].
    by apply list_lookup_total_insert_ne. }
  assert (forall s j, is_table s = true -> valid s -> entry cs' (val cs ino s) j = entry cs (val cs ino s) j) as Hkeep.
  { intros s j Hs Hv. unfold entry. destruct (Z.eqb_spec (val cs ino s) 0); [done|]. by rewrite Hsame. }
  assert (forall i, (i < ppb)%nat -> entry cs' (val cs ino (Tab2)) i = val cs ino (Tab3 i)) as H2 by (intros; by apply (Hkeep Tab2)).
  assert (forall t j, t = 0 -> entry cs t j = 0) as H0 by (intros t j ->; done).
  unfold root_slot in *. destruct (decide (k < 12)%nat) as [Hk12|Hk12];
    [|destruct (decide (k = 12)%nat) as [->|]; [|assert (k = 13)%nat as -> by lia]].
  - intros [i| | |i|i|i j] Hv; cbn [val valid] in *; rewrite Hib.
    + destruct (decide (i = k)) as [->|]; [by rewrite decide_True|]. by rewrite decide_False by congruence.
    + by rewrite !decide_False by (lia || done).
    + by rewrite !decide_False by (lia || done).
    + rewrite !decide_False by (lia || done). by apply (Hkeep Tab1).
    + rewrite !decide_False by (lia || done). by apply (Hkeep Tab2).
    + rewrite !decide_False by (lia || done). rewrite H2 by tauto. apply (Hkeep (Tab3 i)); [done|cbn; tauto].
  - intros [i| | |i|i|i j] Hv; cbn [val valid] in *; rewrite Hib.
    + by rewrite !decide_False by (lia || done).
    + done.
    + by rewrite !decide_False by (lia || done).
    + rewrite decide_True by done. rewrite Hnew, H0 by done. done.
    + rewrite !decide_False by (lia || done). by apply (Hkeep Tab2).
    + rewrite !decide_False by (lia || done). rewrite H2 by tauto. apply (Hkeep (Tab3 i)); [done|cbn; tauto].
  - intros [i| | |i|i|i j] Hv; cbn [val valid] in *; rewrite Hib.
    + by rewrite !decide_False by (lia || done).
    + by rewrite !decide_False by (lia || done).
    + done.
    + rewrite !decide_False by (lia || done). by apply (Hkeep Tab1).
    + rewrite decide_True by done. rewrite Hnew, H0 by done. done.
    + rewrite decide_True by done. rewrite Hnew by tauto. by rewrite (H0 _ i), H0 by done.
Qed.
End Slots.

(** ** Files on a consistent volume *)
Definition reserved (G : Geometry) (b : Z) : Prop := b ∈ g_bms G \/ sync_block G b \/ table_block G b.

(** The volume is consistent and marks its metadata; the blocks of the file are marked, lie
    outside the metadata, and no block is in two slots. *)
Record file_ok (G : Geometry) (a : Ext2FSInner bytes) (ino : Ext2Inode) : Prop := {
  fo_vol : vol_ok G a;
  fo_res b : reserved G b -> g_fdb G <= b -> used G (e2_device a) b = true;
  fo_ino : ino_ok ino;
  fo_good s : valid G s -> val G (e2_device a) ino s <> 0 ->
    g_fdb G <= val G (e2_device a) ino s < g_nblk G /\ used G (e2_device a) (val G (e2_device a) ino s) = true /\
    ~ reserved G (val G (e2_device a) ino s);
  fo_inj s s' : valid G s -> valid G s' -> val G (e2_device a) ino s <> 0 ->
    val G (e2_device a) ino s = val G (e2_device a) ino s' -> s = s';
  fo_room : i_blocks ino + sb_free_blocks (e2_superblock a) * (bsz G / 512) < 2 ^ 32;
}.

(** Only the block count and the pointers, but not the one to three levels, may differ. *)
Definition same_but_ptrs (ino ino' : Ext2Inode) : Prop :=
  exists ps c, ino' = set_i_blocks (set_i_block ino ps) c /\ ps !!! 14%nat = i_block ino !!! 14%nat.

(** What allocating blocks for a file may change. *)
Record grew (G : Geometry) (a : Ext2FSInner bytes) (ino : Ext2Inode) (a' : Ext2FSInner bytes) (ino' : Ext2Inode) : Prop := {
  gr_ino : same_but_ptrs ino ino';
  gr_used b : g_fdb G <= b < g_nblk G -> used G (e2_device a) b = true -> used G (e2_device a') b = true;
  gr_val s : valid G s -> val G (e2_device a') ino' s = val G (e2_device a) ino s \/
    (val G (e2_device a) ino s = 0 /\ g_fdb G <= val G (e2_device a') ino' s < g_nblk G /\
     used G (e2_device a) (val G (e2_device a') ino' s) = false);
  gr_blk b : 0 <= b < g_nblk G -> b ∉ g_bms G ->
    (forall s, is_table s = true -> valid G s -> val G (e2_device a') ino' s <> 0 -> val G (e2_device a') ino' s <> b) ->
    blk G (e2_device a') b = blk G (e2_device a) b;
}.

Section Files.
Context {Dev : Type} `{HB : BlockDevice Dev} {HL : BlockDeviceLaws Dev}.
Context (now : Z) (G : Geometry) (HG : geom_ok G) (HY : layout_ok G).
Abbreviation fop := (st (Ext2Inode * Ext2FSInner Dev) FileError).

Definition fevals {A} (m : fop A) (i : Ext2Inode) (a : Ext2FSInner bytes) (r : outcome FileError A)
    (i' : Ext2Inode) (a' : Ext2FSInner bytes) : Prop :=
  forall v, abs v = a -> exists v', m (i, v) = (r, (i', v')) /\ abs v' = a'.
Lemma fevals_bind {A B} (m : fop A) (k : A -> fop B) i a x i1 a1 r i2 a2 :
  fevals m i a (Ok x) i1 a1 -> fevals (k x) i1 a1 r i2 a2 -> fevals (m ≫= k) i a r i2 a2.
Proof using.
  intros Hm Hk v Hv. destruct (Hm v Hv) as (v1 & Hm1 & Hv1). destruct (Hk v1 Hv1) as (v2 & Hk2 & Hv2).
  exists v2. split; [|done]. unfold mbind, st_bind. by rewrite Hm1.
Qed.
Lemma fevals_bind_err {A B} (m : fop A) (k : A -> fop B) i a e i1 a1 :
  fevals m i a (Err e) i1 a1 -> fevals (m ≫= k) i a (Err e) i1 a1.
Proof using.
  intros Hm v Hv. destruct (Hm v Hv) as (v1 & Hm1 & Hv1). exists v1. split; [|done].
  unfold mbind, st_bind. by rewrite Hm1.
Qed.
Lemma fevals_vol {A} (m : st (Ext2FSInner Dev) FileError A) i a r a' : evals m a r a' -> fevals (on_vol m) i a r i a'.
Proof using. intros Hm v Hv. destruct (Hm v Hv) as (v' & Hr & Hv'). exists v'. split; [|done]. unfold on_vol. cbn. by rewrite Hr. Qed.
Lemma fevals_lift {A} (o : outcome FileError A) i a : fevals (st_lift o) i a o i a.
Proof using. intros v Hv. by exists v. Qed.
Lemma fevals_ret {A} (x : A) i a : fevals (mret x) i a (Ok x) i a.
Proof using. intros v Hv. by exists v. Qed.
Lemma fevals_this i a : fevals this_inode i a (Ok i) i a.
Proof using. intros v Hv. by exists v. Qed.
Lemma fevals_get {B} (k : Ext2FSInner Dev -> fop B) i a r i' a' :
  (forall v, abs v = a -> fevals (k v) i a r i' a') -> fevals (on_vol st_get ≫= k) i a r i' a'.
Proof using. intros Hk v Hv. by apply (Hk v). Qed.
Lemma fevals_set f i a : fevals (set_inode f) i a (Ok tt) (f i) a.
Proof using. intros v Hv. by exists v. Qed.

Lemma same_but_ptrs_refl ino : same_but_ptrs ino ino.
Proof using. exists (i_block ino), (i_blocks ino). split; [by destruct ino|done]. Qed.
Lemma same_but_ptrs_trans ino1 ino2 ino3 : same_but_ptrs ino1 ino2 -> same_but_ptrs ino2 ino3 -> same_but_ptrs ino1 ino3.
Proof using. intros (ps1 & c1 & -> & H1) (ps2 & c2 & -> & H2). exists ps2, c2. split; [done|by rewrite H2]. Qed.
Lemma grew_refl a ino : grew G a ino a ino.
Proof using. split; [apply same_but_ptrs_refl|done|by left|done]. Qed.
Lemma grew_trans a ino a1 ino1 a2 ino2 :
  grew G a ino a1 ino1 -> grew G a1 ino1 a2 ino2 -> grew G a ino a2 ino2.
Proof using.
  intros [Hi1 Hu1 Hv1 Hb1] [Hi2 Hu2 Hv2 Hb2]. split.
  - by eapply same_but_ptrs_trans.
  - intros b Hb Hu. by apply Hu2, Hu1.
  - intros s Hs. destruct (Hv1 s Hs) as [<-|(Hz & Hfb & Hun)], (Hv2 s Hs) as [Heq|(Hz2 & Hfb2 & Hun2)].
    + by left.
    + right. split; [done|]. split; [done|]. apply not_true_iff_false. intros Hu. by rewrite Hu1 in Hun2.
    + right. by rewrite Heq.
    + right. split; [done|]. split; [done|]. apply not_true_iff_false. intros Hu. by rewrite Hu1 in Hun2.
  - intros b Hb Hbm Hnt. rewrite Hb2, Hb1; try done. intros s Hs Hv Hne.
    destruct (Hv2 s Hv) as [Heq|(Hz & _)]; [|done]. rewrite <-Heq in *. by apply Hnt.
Qed.

Lemma reserved_range b : reserved G b -> 0 <= b < g_nblk G.
Proof using HG HY.
  intros [Hb|[Hb|Hb]].
  - exact (proj1 (Forall_forall _ _) (go_bms _ HG) b Hb).
  - by apply (lo_sync _ HY).
  - by apply (lo_table _ HY).
Qed.
(** A free block is no metadata, and not block 0, which stands for no block. *)
Lemma free_not_reserved a ino n :
  file_ok G a ino -> g_fdb G <= n -> used G (e2_device a) n = false -> ~ reserved G n /\ n <> 0.
Proof using HG HY.
  intros Hf Hn Hu. assert (~ reserved G n) as Hr by (intros Hr; by rewrite (fo_res _ _ _ Hf) in Hu).
  split; [done|]. intros ->. destruct (lo_zero _ HY); [lia|]. apply Hr. by right; left.
Qed.

(** Filling slot [s], which was empty, with the block [n], which was free. *)
Lemma filled a ino a' ino' s n :
  file_ok G a ino -> valid G s -> val G (e2_device a) ino s = 0 -> vol_ok G a' ->
  g_fdb G <= n < g_nblk G -> used G (e2_device a) n = false ->
  (forall b, g_fdb G <= b < g_nblk G -> used G (e2_device a') b = if decide (b = n) then true else used G (e2_device a) b) ->
  sb_free_blocks (e2_superblock a') = sb_free_blocks (e2_superblock a) - 1 ->
  (forall b, 0 <= b < g_nblk G -> b ∉ g_bms G -> (is_table s = true -> b <> n) ->
     (forall t, is_table t = true -> valid G t -> val G (e2_device a) ino t <> 0 -> val G (e2_device a) ino t <> b) ->
     blk G (e2_device a') b = blk G (e2_device a) b) ->
  (forall s', valid G s' -> val G (e2_device a') ino' s' = if decide (s' = s) then n else val G (e2_device a) ino s') ->
  same_but_ptrs ino ino' -> i_blocks ino' = i_blocks ino + bsz G / 512 -> ino_ok ino' ->
  file_ok G a' ino' /\ grew G a ino a' ino'.
Proof using HG HY.
  intros Hf Hvs Hz Hvol' Hn Hun Hused Hfree Hblk Hval Hsp Hic Hiok.
  destruct (free_not_reserved a ino n Hf ltac:(lia) Hun) as [Hnr Hn0]. destruct Hf as [Hvol Hres Hino Hgood Hinj Hroom].
  assert (forall b, g_fdb G <= b < g_nblk G -> used G (e2_device a) b = true -> used G (e2_device a') b = true) as Hmono.
  { intros b Hb Hu. rewrite Hused by done. by destruct (decide (b = n)). }
  split; [split; [done| |done| | |]|split].
  - intros b Hr Hb. pose proof (reserved_range b Hr). apply Hmono; [lia|by apply Hres].
  - intros s' Hv'. rewrite Hval by done. destruct (decide (s' = s)) as [->|]; intros Hne.
    + split; [done|]. split; [rewrite Hused by done; by rewrite decide_True|done].
    + destruct (Hgood s' Hv' Hne) as (? & ? & ?). split; [done|]. split; [by apply Hmono|done].
  - assert (forall s', valid G s' -> val G (e2_device a) ino s' <> n) as Hfresh.
    { intros s' Hv' Heq. destruct (Hgood s' Hv') as (_ & Hu & _); [by rewrite Heq|]. by rewrite Heq, Hun in Hu. }
    intros s1 s2 Hv1 Hv2. rewrite !Hval by done.
    destruct (decide (s1 = s)) as [->|], (decide (s2 = s)) as [->|]; intros Hne Heq; [done| | |by apply Hinj].
    + by destruct (Hfresh s2).
    + by destruct (Hfresh s1).
  - rewrite Hic, Hfree. lia.
  - done.
  - done.
  - intros s' Hv'. rewrite Hval by done. destruct (decide (s' = s)) as [->|]; [right|left]; [split_and!|]; done || lia.
  - intros b Hb Hbm Hnt. apply Hblk; [done..| |].
    + intros Hts ->. specialize (Hnt s Hts Hvs). rewrite Hval, decide_True in Hnt by done. by apply Hnt.
    + intros t Ht Hv Hne. specialize (Hnt t Ht Hv). rewrite Hval in Hnt by done.
      destruct (decide (t = s)) as [->|]; [done|by apply Hnt].
Qed.

(** *** Reading and writing blocks *)
Lemma used_ext cs cs' b :
  (forall m, m ∈ g_bms G -> blk G cs' m = blk G cs m) -> g_fdb G <= b < g_nblk G -> used G cs' b = used G cs b.
Proof using HG.
  intros Hbm Hb. destruct (place_of G HG b Hb) as (Hg & _ & _). unfold used, bitmap. rewrite Hbm; [done|].
  destruct (bms_lookup G HG _ Hg) as [_ Hlk]. by eapply list_elem_of_lookup_2.
Qed.
Lemma write_block_ok a b buf :
  vol_ok G a -> 0 <= b < g_nblk G -> b ∉ g_bms G -> length buf = Z.to_nat (bsz G) -> Forall is_byte buf ->
  exists cs, evals (Dev := Dev) (write_block b buf) a (Ok tt) (with_device a cs) /\ vol_ok G (with_device a cs) /\
    (forall c, 0 <= c < g_nblk G -> c <> b -> blk G cs c = blk G (e2_device a) c) /\ blk G cs b = buf /\
    (forall c, g_fdb G <= c < g_nblk G -> used G cs c = used G (e2_device a) c).
Proof using HG HL.
  intros Ha Hb Hbm Hl Hby. pose proof (bsz_range G HG). pose proof (vo_static _ _ Ha) as Hs.
  pose proof (static_fields G a Hs) as (_ & _ & _ & _ & _ & Hlen).
  destruct (write_in_block G HG a b 0 buf Ha Hb Hbm) as (cs & He & Hok & Hoth & Hsame); [lia|lia|done|].
  exists cs. split_and!; [|done|done| |].
  - unfold write_block. eapply evals_bind; [by apply evals_block_offset, Hb|]. by rewrite Z.add_0_r in He.
  - rewrite Hsame. apply put_whole. by rewrite (blk_length G HG), Hl.
  - intros c Hc. apply used_ext; [|done]. intros m Hm. apply Hoth; [|by intros ->].
    exact (proj1 (Forall_forall _ _) (go_bms _ HG) m Hm).
Qed.
Lemma evals_read_array a b :
  static a = G -> 0 <= b < g_nblk G ->
  evals (Dev := Dev) (read_block_u32_array b) a (Ok (u32s_of (blk G (e2_device a) b))) a.
Proof using HG HL.
  intros Hs Hb. unfold read_block_u32_array. eapply evals_bind; [by apply evals_block_offset|].
  eapply evals_bind; [by apply evals_block_size|]. eapply evals_bind; [by apply evals_read_blk|]. apply evals_ret.
Qed.

Lemma bsz_4 : bsz G = 4 * Z.of_nat (ppb G).
Proof using HG.
  pose proof (bsz_range G HG). unfold ppb. rewrite Z2Nat.id by (apply Z.div_pos; lia).
  apply Z.div_exact; [lia|]. unfold bsz. destruct HG. replace (10 + g_log G) with (2 + (8 + g_log G)) by lia.
  rewrite Z.pow_add_r by lia. rewrite Z.mul_comm. apply Z.mod_mul. done.
Qed.
Lemma table_length cs t : length cs = g_len G -> 0 <= t < g_nblk G -> length (u32s_of (blk G cs t)) = ppb G.
Proof using HG.
  intros Hl Ht. rewrite u32s_of_length, (blk_length G HG) by done. pose proof bsz_4.
  replace (Z.to_nat (bsz G)) with (ppb G * 4)%nat by lia. by rewrite Nat.div_mul.
Qed.
Lemma zero_block_ok a b :
  vol_ok G a -> 0 <= b < g_nblk G -> b ∉ g_bms G ->
  exists cs, evals (Dev := Dev) (zero_block b) a (Ok tt) (with_device a cs) /\ vol_ok G (with_device a cs) /\
    (forall c, 0 <= c < g_nblk G -> c <> b -> blk G cs c = blk G (e2_device a) c) /\
    (forall i, (i < ppb G)%nat -> entry G cs b i = 0) /\
    (forall c, g_fdb G <= c < g_nblk G -> used G cs c = used G (e2_device a) c).
Proof using HG HL.
  intros Ha Hb Hbm. destruct (write_block_ok a b (replicate (Z.to_nat (bsz G)) 0) Ha Hb Hbm) as (cs & He & Hok & Hoth & Hsame & Hu);
    [by rewrite length_replicate|by apply Forall_replicate|]. exists cs. split_and!; [|done|done| |done].
  - unfold zero_block. eapply evals_bind; [by apply evals_block_size, (vo_static _ _ Ha)|done].
  - intros i Hi. unfold entry. destruct (b =? 0); [done|]. rewrite Hsame. pose proof bsz_4.
    replace (Z.to_nat (bsz G)) with (4 * ppb G)%nat by lia. rewrite u32s_of_zeros. by apply lookup_total_replicate_2.
Qed.
Lemma write_array_ok a t ps :
  vol_ok G a -> 0 <= t < g_nblk G -> t ∉ g_bms G -> t <> 0 -> length ps = ppb G -> Forall (is_u 32) ps ->
  exists cs, evals (Dev := Dev) (write_block_u32_array t ps) a (Ok tt) (with_device a cs) /\ vol_ok G (with_device a cs) /\
    (forall c, 0 <= c < g_nblk G -> c <> t -> blk G cs c = blk G (e2_device a) c) /\
    (forall i, entry G cs t i = ps !!! i) /\
    (forall c, g_fdb G <= c < g_nblk G -> used G cs c = used G (e2_device a) c).
Proof using HG HL.
  intros Ha Ht Hbm Ht0 Hl Hps. pose proof bsz_4 as H4.
  assert (length (put_u32s ps) = Z.to_nat (bsz G)) as Hlen by (rewrite put_u32s_length; lia).
  destruct (write_block_ok a t (put_u32s ps) Ha Ht Hbm Hlen (put_u32s_bytes ps)) as (cs & He & Hok & Hoth & Hsame & Hu).
  exists cs. split_and!; [|done|done| |done].
  - unfold write_block_u32_array. eapply evals_bind; [by apply evals_block_size, (vo_static _ _ Ha)|].
    fold (ppb G). rewrite take_ge by lia. by rewrite Hlen, Nat.sub_diag, app_nil_r.
  - intros i. unfold entry. rewrite (proj2 (Z.eqb_neq t 0)) by done. by rewrite Hsame, u32s_of_put.
Qed.

(** *** Filling a slot *)

(** What looking up a slot, allocating its block when it is empty, returns and does. *)
Definition got (s : slot) (r : outcome FileError Z) (a : Ext2FSInner bytes) (ino : Ext2Inode)
    (a' : Ext2FSInner bytes) (ino' : Ext2Inode) : Prop :=
  file_ok G a' ino' /\ grew G a ino a' ino' /\
  match r with
  | Ok b => b <> 0 /\ val G (e2_device a') ino' s = b /\
      forall s', valid G s' -> s' <> s -> val G (e2_device a') ino' s' = val G (e2_device a) ino s'
  | Err e => e = Other "No free blocks available" /\ sb_free_blocks (e2_superblock a) = 0 /\ a' = a /\ ino' = ino
  | Panic => False
  end.

Lemma count_block_ok ino a :
  static a = G -> i_blocks ino + bsz G / 512 < 2 ^ 32 ->
  fevals count_block ino a (Ok tt) (set_i_blocks ino (i_blocks ino + bsz G / 512)) a.
Proof using HG.
  intros Hs Hlt. unfold count_block. eapply fevals_bind; [by apply fevals_vol, evals_block_size|].
  eapply fevals_bind; [apply fevals_this|]. rewrite uadd_eq by done. eapply fevals_bind; [apply fevals_lift|].
  apply (fevals_set (fun i => set_i_blocks i _)).
Qed.
Lemma val_root cs ino k : (k < 14)%nat -> val G cs ino (root_slot k) = i_block ino !!! k.
Proof using.
  intros Hk. unfold root_slot. destruct (decide (k < 12)%nat); [done|]. destruct (decide (k = 12)%nat) as [->|]; [done|].
  by assert (k = 13)%nat as -> by lia.
Qed.
Lemma valid_root k : (k < 14)%nat -> valid G (root_slot k).
Proof using. intros Hk. unfold root_slot. destruct (decide (k < 12)%nat); [done|]. by destruct (decide (k = 12)%nat). Qed.
(** A table of the file is none of the bitmaps, and not the block just allocated. *)
Lemma table_kept a ino n s :
  file_ok G a ino -> valid G s -> val G (e2_device a) ino s <> 0 -> used G (e2_device a) n = false ->
  0 <= val G (e2_device a) ino s < g_nblk G /\ val G (e2_device a) ino s ∉ g_bms G /\ val G (e2_device a) ino s <> n.
Proof using HG.
  intros Hf Hv Hne Hn. destruct (fo_good _ _ _ Hf s Hv Hne) as (Hr & Hu & Hnr). destruct HG. split; [lia|].
  split; [intros Hin; apply Hnr; by left|congruence].
Qed.
Lemma ino_ok_ptr ino k n c :
  ino_ok ino -> is_u 32 n -> is_u 32 c -> ino_ok (set_i_blocks (set_i_block ino (<[k := n]> (i_block ino))) c).
Proof using.
  intros [] Hn Hc. split; try done; cbn; [by rewrite length_insert|by apply Forall_insert].
Qed.
Lemma room_for_block a ino : file_ok G a ino -> 0 < sb_free_blocks (e2_superblock a) ->
  is_u 32 (i_blocks ino + bsz G / 512).
Proof using HG.
  intros Hf Hpos. pose proof (fo_room _ _ _ Hf). pose proof (bsz_range G HG).
  assert (0 <= bsz G / 512) by (apply Z.div_pos; lia).
  assert (1 * (bsz G / 512) <= sb_free_blocks (e2_superblock a) * (bsz G / 512)) by (apply Z.mul_le_mono_nonneg_r; lia).
  destruct (ino_blocks _ (fo_ino _ _ _ Hf)). split; lia.
Qed.
Lemma blk_is_u b : g_fdb G <= b < g_nblk G -> is_u 32 b.
Proof using HG. intros Hb. destruct HG. split; lia. Qed.

(** Clearing the new block, when it will hold pointers. *)
Lemma maybe_zero_ok (z : bool) a n ino :
  vol_ok G a -> 0 <= n < g_nblk G -> n ∉ g_bms G ->
  exists a', fevals (if z then on_vol (zero_block n) else mret tt) ino a (Ok tt) ino a' /\
    vol_ok G a' /\ e2_superblock a' = e2_superblock a /\
    (forall c, 0 <= c < g_nblk G -> (z = true -> c <> n) -> blk G (e2_device a') c = blk G (e2_device a) c) /\
    (z = true -> forall j, (j < ppb G)%nat -> entry G (e2_device a') n j = 0) /\
    (forall c, g_fdb G <= c < g_nblk G -> used G (e2_device a') c = used G (e2_device a) c).
Proof using HG HL.
  intros Ha Hn Hnb. destruct z; [|exists a; split; [apply fevals_ret|done]].
  destruct (zero_block_ok a n Ha Hn Hnb) as (cs & Hez & Hok & Hoth & Hent & Hu).
  exists (with_device a cs). split; [by apply fevals_vol|]. split_and!; try done. intros c Hc Hne. apply Hoth; auto.
Qed.

Lemma slot_or_alloc_ok k ino a :
  (k < 14)%nat -> file_ok G a ino ->
  exists r a' ino', fevals (slot_or_alloc k (is_table (root_slot k))) ino a r ino' a' /\
    got (root_slot k) r a ino a' ino'.
Proof using HG HL HY.
  intros Hk Hf. pose proof (fo_vol _ _ _ Hf) as Hvol. pose proof (fo_ino _ _ _ Hf) as Hino.
  pose proof (ino_block _ Hino) as Hlen. pose proof (val_root (e2_device a) ino k Hk) as Hvr.
  assert (i_block ino !! k = Some (i_block ino !!! k)) as Hlk.
  { apply list_lookup_lookup_total_lt. lia. }
  assert (forall r i' a', fevals (if i_block ino !!! k =? 0 then alloc_slot k (is_table (root_slot k)) else mret (i_block ino !!! k)) ino a r i' a' ->
    fevals (slot_or_alloc k (is_table (root_slot k))) ino a r i' a') as Hstart.
  { intros r i' a' Hfe. eapply fevals_bind; [apply fevals_this|]. eapply fevals_bind; [|exact Hfe].
    apply fevals_vol. unfold ptr_at. rewrite Hlk. apply evals_lift. }
  destruct (Z.eqb_spec (i_block ino !!! k) 0) as [Hz|Hnz].
  2:{ exists (Ok (i_block ino !!! k)), a, ino. split; [apply Hstart, fevals_ret|].
      split; [done|]. split; [apply grew_refl|]. by rewrite Hvr. }
  destruct (allocate_block_ok G HG a Hvol) as [[H0 He]|[Hpos (n & a1 & He & Hvol1 & Hm)]].
  { eexists _, a, ino. split; [by apply Hstart; eapply fevals_bind_err, fevals_vol|].
    split; [done|]. split; [apply grew_refl|done]. }
  destruct Hm as [Hn Hun Hused Hblk Hfree].
  destruct (free_not_reserved a ino n Hf ltac:(lia) Hun) as [Hnr Hn0].
  assert (n ∉ g_bms G) as Hnb by (intros Hin; apply Hnr; by left). assert (0 <= n < g_nblk G) as Hn1 by (destruct HG; lia).
  pose proof (room_for_block a ino Hf Hpos) as Hroom. pose proof (blk_is_u n Hn) as Hn32.
  set (ino1 := set_i_block ino (<[k := n]> (i_block ino))).
  set (ino' := set_i_blocks ino1 (i_blocks ino + bsz G / 512)).
  assert (ino_ok ino') as Hino' by (by apply ino_ok_ptr).
  destruct (maybe_zero_ok (is_table (root_slot k)) a1 n ino' Hvol1 Hn1 Hnb) as (a' & He2 & Hvol' & Hsb' & Hblk' & Hzero & Hused').
  exists (Ok n), a', ino'. split.
  { apply Hstart. eapply fevals_bind; [by apply fevals_vol|].
    eapply fevals_bind; [apply (fevals_set (fun i => set_i_block i (<[k := n]> (i_block i))))|]. fold ino1.
    eapply fevals_bind; [apply count_block_ok; [by apply (vo_static _ _ Hvol1)|apply Hroom]|].
    fold ino'. eapply fevals_bind; [exact He2|apply fevals_ret]. }
  assert (forall s, valid G s -> val G (e2_device a') ino' s = if decide (s = root_slot k) then n else val G (e2_device a) ino s) as Hval.
  { apply fill_root; try done; [by rewrite Hvr|]. intros s Hs Hv Hne.
    destruct (table_kept a ino n s Hf Hv Hne Hun) as (? & ? & ?). by rewrite Hblk', Hblk. }
  destruct (filled a ino a' ino' (root_slot k) n) as [Hf' Hg']; try done.
  - by apply valid_root.
  - by rewrite Hvr.
  - intros b Hb. rewrite Hused' by done. by apply Hused.
  - rewrite Hsb', Hfree. lia.
  - intros b Hb Hbm Hne _. by rewrite Hblk', Hblk.
  - eexists _, _. split; [done|]. apply list_lookup_total_insert_ne. lia.
  - split; [done|]. split; [done|]. split; [done|]. split; [by rewrite Hval, decide_True by (by try apply valid_root)|].
    intros s' Hs' Hne. by rewrite Hval, decide_False.
Qed.

Lemma entry_of_table a ino ts i :
  file_ok G a ino -> is_table ts = true -> valid G ts -> val G (e2_device a) ino ts <> 0 ->
  let ptrs := u32s_of (blk G (e2_device a) (val G (e2_device a) ino ts)) in
  0 <= val G (e2_device a) ino ts < g_nblk G /\ val G (e2_device a) ino ts ∉ g_bms G /\
  length ptrs = ppb G /\ Forall (is_u 32) ptrs /\ val G (e2_device a) ino (child ts i) = ptrs !!! i.
Proof using HG.
  intros Hf Hts Hv Hne ptrs. destruct (fo_good _ _ _ Hf ts Hv Hne) as (Hr & _ & Hnr).
  assert (0 <= val G (e2_device a) ino ts < g_nblk G) as Hr0 by (destruct HG; lia).
  pose proof (fo_vol _ _ _ Hf) as Hvol. pose proof (static_fields G a (vo_static _ _ Hvol)) as (_ & _ & _ & _ & _ & Hl).
  split; [done|]. split; [intros Hin; apply Hnr; by left|]. split; [by apply table_length|].
  split; [apply u32s_of_range, sub_bytes_bytes, (vo_bytes _ _ Hvol)|].
  rewrite val_child by done. unfold entry. by rewrite (proj2 (Z.eqb_neq _ _)) by done.
Qed.

Lemma entry_or_alloc_ok ts i ino a :
  file_ok G a ino -> is_table ts = true -> valid G ts -> valid G (child ts i) -> (i < ppb G)%nat ->
  val G (e2_device a) ino ts <> 0 ->
  exists r a' ino', fevals (entry_or_alloc (val G (e2_device a) ino ts) i (is_table (child ts i))) ino a r ino' a' /\
    got (child ts i) r a ino a' ino'.
Proof using HG HL HY.
  intros Hf Hts Hv Hvc Hi Hne. pose proof (fo_vol _ _ _ Hf) as Hvol. pose proof (vo_static _ _ Hvol) as Hs.
  destruct (entry_of_table a ino ts i Hf Hts Hv Hne) as (Hr & Hbm & Hlp & Hps & Hent).
  set (t := val G (e2_device a) ino ts) in *. set (ptrs := u32s_of (blk G (e2_device a) t)) in *.
  assert (forall r i' a', fevals (if ptrs !!! i =? 0 then alloc_entry t i (is_table (child ts i)) ptrs else mret (ptrs !!! i)) ino a r i' a' ->
    fevals (entry_or_alloc t i (is_table (child ts i))) ino a r i' a') as Hstart.
  { intros r i' a' Hfe. eapply fevals_bind; [by apply fevals_vol, evals_read_array|]. fold ptrs.
    rewrite Hlp. replace (S i - ppb G)%nat with 0%nat by lia. cbn [replicate]. rewrite app_nil_r.
    rewrite (list_lookup_lookup_total_lt ptrs i) by lia. eapply fevals_bind; [apply fevals_lift|exact Hfe]. }
  destruct (Z.eqb_spec (ptrs !!! i) 0) as [Hz|Hnz].
  2:{ exists (Ok (ptrs !!! i)), a, ino. split; [apply Hstart, fevals_ret|].
      split; [done|]. split; [apply grew_refl|]. by rewrite Hent. }
  destruct (allocate_block_ok G HG a Hvol) as [[H0 He]|[Hpos (n & a1 & He & Hvol1 & Hm)]].
  { eexists _, a, ino. split; [by apply Hstart; eapply fevals_bind_err, fevals_vol|].
    split; [done|]. split; [apply grew_refl|done]. }
  destruct Hm as [Hn Hun Hused Hblk Hfree].
  destruct (free_not_reserved a ino n Hf ltac:(lia) Hun) as [Hnr Hn0].
  assert (n ∉ g_bms G) as Hnb by (intros Hin; apply Hnr; by left). assert (0 <= n < g_nblk G) as Hn1 by (destruct HG; lia).
  pose proof (room_for_block a ino Hf Hpos) as Hroom. pose proof (blk_is_u n Hn) as Hn32.
  set (ino' := set_i_blocks ino (i_blocks ino + bsz G / 512)).
  destruct (maybe_zero_ok (is_table (child ts i)) a1 n ino' Hvol1 Hn1 Hnb) as (a2 & He2 & Hvol2 & Hsb2 & Hblk2 & Hzero2 & Hused2).
  destruct (table_kept a ino n ts Hf Hv Hne Hun) as (_ & _ & Htn). fold t in Htn.
  destruct (write_array_ok a2 t (<[i := n]> ptrs) Hvol2 Hr Hbm Hne) as (cs & He3 & Hvol' & Hblk' & Hent' & Hused');
    [by rewrite length_insert|by apply Forall_insert|].
  exists (Ok n), (with_device a2 cs), ino'. split.
  { apply Hstart. eapply fevals_bind; [by apply fevals_vol|].
    eapply fevals_bind; [apply count_block_ok; [by apply (vo_static _ _ Hvol1)|apply Hroom]|].
    fold ino'. eapply fevals_bind; [exact He2|]. eapply fevals_bind; [by apply fevals_vol|apply fevals_ret]. }
  assert (forall s, valid G s -> val G cs ino s = if decide (s = child ts i) then n else val G (e2_device a) ino s) as Hval.
  { apply fill_entry; try done.
    - by rewrite Hent.
    - intros s Hs' Hv' Hne' Hn'. destruct (table_kept a ino n s Hf Hv' Hn' Hun) as (? & ? & ?).
      rewrite Hblk', Hblk2, Hblk; try done. intros Heq. apply Hne'. by apply (fo_inj _ _ _ Hf).
    - intros j Hj. fold t. rewrite Hent'. unfold entry. rewrite (proj2 (Z.eqb_neq t 0)) by done. fold ptrs.
      destruct (decide (j = i)) as [->|]; [apply list_lookup_total_insert_eq; lia|by apply list_lookup_total_insert_ne].
    - intros Ht j Hj. unfold entry. destruct (n =? 0) eqn:E0; [done|]. rewrite Hblk' by done.
      pose proof (Hzero2 Ht j Hj) as Hz2. unfold entry in Hz2. by rewrite E0 in Hz2. }
  assert (forall s, val G cs ino' s = val G cs ino s) as Hvi by (by intros []).
  destruct (filled a ino (with_device a2 cs) ino' (child ts i) n) as [Hf' Hg']; try done.
  - by rewrite Hent.
  - intros b Hb. cbn. rewrite Hused', Hused2 by done. by apply Hused.
  - cbn. rewrite Hsb2, Hfree. lia.
  - intros b Hb Hbm' Hne' Hnt. cbn. rewrite Hblk', Hblk2, Hblk; try done. intros ->. by apply (Hnt ts Hts Hv).
  - exists (i_block ino), (i_blocks ino + bsz G / 512). split; [unfold ino'; by destruct ino|done].
  - destruct (fo_ino _ _ _ Hf). by split.
  - split; [done|]. split; [done|]. split; [done|]. cbn [e2_device with_device]. split; [by rewrite Hvi, (Hval _ Hvc), decide_True|].
    intros s' Hs' Hne'. by rewrite Hvi, Hval, decide_False.
Qed.

(** *** The blocks of the file by index *)
Definition max_blocks : nat := 12 + ppb G + ppb G * ppb G.
Definition slot_of (i : nat) : slot :=
  if decide (i < 12)%nat then Dir i
  else if decide (i - 12 < ppb G)%nat then In1 (i - 12)
  else In2 ((i - 12 - ppb G) / ppb G) ((i - 12 - ppb G) mod ppb G).
(** The block that holds block [i] of the file; 0 for none. *)
Definition bmap (cs : bytes) (ino : Ext2Inode) (i : nat) : Z := val G cs ino (slot_of i).

Lemma ppb_pos : (256 <= ppb G)%nat.
Proof using HG. pose proof bsz_4. pose proof (bsz_range G HG). lia. Qed.
Lemma slot_of_valid i : (i < max_blocks)%nat -> valid G (slot_of i) /\ is_table (slot_of i) = false.
Proof using HG.
  intros Hi. pose proof ppb_pos. unfold slot_of. destruct (decide (i < 12)%nat); [done|].
  destruct (decide (i - 12 < ppb G)%nat); [done|]. split; [|done]. unfold max_blocks in Hi. split.
  - apply Nat.Div0.div_lt_upper_bound. lia.
  - apply Nat.mod_upper_bound. lia.
Qed.
Lemma slot_of_inj i j : slot_of i = slot_of j -> i = j.
Proof using HG.
  pose proof ppb_pos. unfold slot_of.
  destruct (decide (i < 12)%nat), (decide (j < 12)%nat), (decide (i - 12 < ppb G)%nat), (decide (j - 12 < ppb G)%nat);
    intros [=]; try lia.
  pose proof (Nat.div_mod (i - 12 - ppb G) (ppb G)). pose proof (Nat.div_mod (j - 12 - ppb G) (ppb G)). lia.
Qed.

(** Looking up block [i] of the file, allocating it when it is absent. *)
Definition got_block (i : nat) (r : outcome FileError Z) (a : Ext2FSInner bytes) (ino : Ext2Inode)
    (a' : Ext2FSInner bytes) (ino' : Ext2Inode) : Prop :=
  file_ok G a' ino' /\ grew G a ino a' ino' /\
  match r with
  | Ok b => b <> 0 /\ bmap (e2_device a') ino' i = b /\
      forall j, (j < max_blocks)%nat -> j <> i -> bmap (e2_device a') ino' j = bmap (e2_device a) ino j
  | Err e => e = Other "No free blocks available" /\ sb_free_blocks (e2_superblock a') = 0 /\
      forall j, (j < max_blocks)%nat -> bmap (e2_device a') ino' j = bmap (e2_device a) ino j
  | Panic => False
  end.

(** Filling tables first changes no block of the file. *)
Lemma got_then_block t b i a ino a1 ino1 r a2 ino2 :
  is_table t = true -> got t (Ok b) a ino a1 ino1 -> got_block i r a1 ino1 a2 ino2 -> got_block i r a ino a2 ino2.
Proof using HG.
  intros Ht (_ & Hg1 & _ & _ & Hv1) (Hf2 & Hg2 & Hr).
  assert (forall j, (j < max_blocks)%nat -> bmap (e2_device a1) ino1 j = bmap (e2_device a) ino j) as Hsame.
  { intros j Hj. destruct (slot_of_valid j Hj) as [Hv Hnt]. apply Hv1; [done|]. intros Heq. by rewrite <-Heq, Hnt in Ht. }
  split; [done|]. split; [by eapply grew_trans|]. destruct r as [b'|e|]; [|..|done].
  - destruct Hr as (Hb & Hbm & Hoth). split_and!; [done..|]. intros j Hj Hne. by rewrite Hoth, Hsame.
  - destruct Hr as (He & H0 & Hoth). split_and!; [done..|]. intros j Hj. by rewrite Hoth, Hsame.
Qed.
Lemma got_is_block i r a ino a' ino' : (i < max_blocks)%nat -> got (slot_of i) r a ino a' ino' -> got_block i r a ino a' ino'.
Proof using HG.
  intros Hi (Hf & Hg & Hr). split; [done|]. split; [done|]. destruct r as [b|e|]; [|..|done].
  - destruct Hr as (Hb & Hv & Hoth). split_and!; [done..|]. intros j Hj Hne. apply Hoth; [by apply slot_of_valid|].
    intros Heq. by apply Hne, slot_of_inj.
  - by destruct Hr as (-> & ? & -> & ->).
Qed.
Lemma got_err_block t e i a ino a' ino' : got t (Err e) a ino a' ino' -> got_block i (Err e) a ino a' ino'.
Proof using. intros (Hf & Hg & -> & ? & -> & ->). by split. Qed.

(** Running [m], which fills the table slot [t], and then [k]. *)
Lemma fevals_table t (m : fop Z) (k : Z -> fop Z) i ino a r a1 ino1 :
  is_table t = true -> fevals m ino a r ino1 a1 -> got t r a ino a1 ino1 ->
  (forall b, r = Ok b -> exists r2 a2 ino2, fevals (k b) ino1 a1 r2 ino2 a2 /\ got_block i r2 a1 ino1 a2 ino2) ->
  exists r2 a2 ino2, fevals (m ≫= k) ino a r2 ino2 a2 /\ got_block i r2 a ino a2 ino2.
Proof using HG.
  intros Ht Hm Hg Hk. destruct r as [b|e|]; [| |by destruct Hg as (_ & _ & [])].
  - destruct (Hk b eq_refl) as (r2 & a2 & ino2 & Hk2 & Hg2). exists r2, a2, ino2.
    split; [by eapply fevals_bind|by eapply got_then_block].
  - exists (Err e), a1, ino1. split; [by apply fevals_bind_err|by eapply got_err_block].
Qed.

Lemma get_or_alloc_block_ok i ino a :
  file_ok G a ino -> (i < max_blocks)%nat ->
  exists r a' ino', fevals (get_or_alloc_block (Z.of_nat i)) ino a r ino' a' /\ got_block i r a ino a' ino'.
Proof using HG HL HY.
  intros Hf Hi. pose proof (vo_static _ _ (fo_vol _ _ _ Hf)) as Hs. pose proof ppb_pos as Hp. pose proof bsz_4 as H4.
  assert (bsz G / 4 = Z.of_nat (ppb G)) as Hq by (rewrite H4, Z.mul_comm; by apply Z.div_mul).
  destruct (slot_of_valid i Hi) as [Hvi Hti].
  enough (exists r a' ino', fevals (
    if Z.of_nat i <? 12 then slot_or_alloc (Z.to_nat (Z.of_nat i)) false
    else if Z.of_nat i - 12 <? Z.of_nat (ppb G) then
      table ← slot_or_alloc 12 true; entry_or_alloc table (Z.to_nat (Z.of_nat i - 12)) false
    else if Z.of_nat i - 12 - Z.of_nat (ppb G) <? Z.of_nat (ppb G) * Z.of_nat (ppb G) then
      table ← slot_or_alloc 13 true;
      l1_index ← st_lift (udiv (Z.of_nat i - 12 - Z.of_nat (ppb G)) (Z.of_nat (ppb G)));
      l2_index ← st_lift (urem (Z.of_nat i - 12 - Z.of_nat (ppb G)) (Z.of_nat (ppb G)));
      l2 ← entry_or_alloc table (Z.to_nat l1_index) true;
      entry_or_alloc l2 (Z.to_nat l2_index) false
    else st_lift (Err (Other "File too large (triply indirect not supported)"))) ino a r ino' a' /\ got_block i r a ino a' ino')
    as (r & a' & ino' & He & Hg).
  { exists r, a', ino'. split; [|done]. unfold get_or_alloc_block. eapply fevals_bind; [by apply fevals_vol, evals_block_size|].
    rewrite Hq. exact He. }
  unfold slot_of in Hvi, Hti. destruct (Z.ltb_spec (Z.of_nat i) 12) as [H12|H12].
  { rewrite Nat2Z.id. destruct (slot_or_alloc_ok i ino a ltac:(lia) Hf) as (r & a' & ino' & He & Hg).
    assert (root_slot i = slot_of i) as Hrs by (unfold root_slot, slot_of; by rewrite !decide_True by lia).
    rewrite Hrs in He, Hg. exists r, a', ino'. split; [|by apply got_is_block].
    unfold slot_of in He. by rewrite decide_True in He by lia. }
  rewrite decide_False in Hvi, Hti by lia. destruct (Z.ltb_spec (Z.of_nat i - 12) (Z.of_nat (ppb G))) as [H1|H1].
  - rewrite decide_True in Hvi, Hti by lia. destruct (slot_or_alloc_ok 12 ino a ltac:(lia) Hf) as (r1 & a1 & ino1 & He1 & Hg1).
    change (root_slot 12) with Tab1 in *. eapply (fevals_table Tab1); [done|exact He1|exact Hg1|]. intros b ->.
    destruct Hg1 as (Hf1 & _ & Hb & Hv1 & _). replace (Z.to_nat (Z.of_nat i - 12)) with (i - 12)%nat by lia.
    destruct (entry_or_alloc_ok Tab1 (i - 12) ino1 a1 Hf1) as (r2 & a2 & ino2 & He2 & Hg2); [done|done|done|lia|by rewrite Hv1|].
    rewrite Hv1 in He2. exists r2, a2, ino2. split; [done|]. apply got_is_block; [done|].
    unfold slot_of. by rewrite decide_False, decide_True by lia.
  - rewrite decide_False in Hvi, Hti by lia. unfold max_blocks in Hi.
    rewrite (proj2 (Z.ltb_lt (_ - _ - _) _)) by lia. set (j := (i - 12 - ppb G)%nat) in *. destruct Hvi as [Hk1 Hk2].
    destruct (slot_or_alloc_ok 13 ino a ltac:(lia) Hf) as (r1 & a1 & ino1 & He1 & Hg1).
    change (root_slot 13) with Tab2 in *. eapply (fevals_table Tab2); [done|exact He1|exact Hg1|]. intros b ->.
    destruct Hg1 as (Hf1 & _ & Hb & Hv1 & _). unfold udiv, urem. rewrite (proj2 (Z.eqb_neq (Z.of_nat (ppb G)) 0)) by lia.
    replace (Z.of_nat i - 12 - Z.of_nat (ppb G)) with (Z.of_nat j) by lia.
    rewrite <-Nat2Z.inj_div, <-Nat2Z.inj_mod.
    destruct (entry_or_alloc_ok Tab2 (j / ppb G) ino1 a1 Hf1) as (r2 & a2 & ino2 & He2 & Hg2); [done|done|done|done|by rewrite Hv1|].
    rewrite Hv1 in He2. change (child Tab2 (j / ppb G)) with (Tab3 (j / ppb G)) in *.
    assert (exists r3 a3 ino3, fevals (l2 ← entry_or_alloc b (j / ppb G) true; entry_or_alloc l2 (j mod ppb G) false) ino1 a1 r3 ino3 a3 /\
      got_block i r3 a1 ino1 a3 ino3) as (r3 & a3 & ino3 & He3 & Hg3).
    { eapply (fevals_table (Tab3 (j / ppb G))); [done|exact He2|exact Hg2|]. intros b2 ->.
      destruct Hg2 as (Hf2 & _ & Hb2 & Hv2 & _).
      destruct (entry_or_alloc_ok (Tab3 (j / ppb G)) (j mod ppb G) ino2 a2 Hf2) as (r3 & a3 & ino3 & He3 & Hg3); [done|done|by split|done|by rewrite Hv2|].
      rewrite Hv2 in He3. exists r3, a3, ino3. split; [done|]. apply got_is_block; [done|].
      unfold slot_of. rewrite !decide_False by lia. done. }
    exists r3, a3, ino3. split; [|done]. eapply fevals_bind; [apply fevals_lift|]. eapply fevals_bind; [apply fevals_lift|].
    by rewrite !Nat2Z.id.
Qed.

(** *** The bytes of the file *)
Definition bsn : nat := Z.to_nat (bsz G).
(** Byte [p] of the file; an absent block reads as zeros. *)
Definition held (cs : bytes) (b : Z) (off : nat) : Z := if b =? 0 then 0 else blk G cs b !!! off.
Definition fbyte (cs : bytes) (ino : Ext2Inode) (p : nat) : Z := held cs (bmap cs ino (p / bsn)) (p mod bsn).

(** The bytes [buf] were written at [o]: they are there; bytes elsewhere are what their blocks,
    old and new, held before; and every block that is not the file's is unchanged. *)
Record wrote (o : nat) (buf : bytes) (a : Ext2FSInner bytes) (ino : Ext2Inode)
    (a' : Ext2FSInner bytes) (ino' : Ext2Inode) : Prop := {
  wr_file : file_ok G a' ino';
  wr_ino : same_but_ptrs ino ino';
  wr_used b : g_fdb G <= b < g_nblk G -> used G (e2_device a) b = true -> used G (e2_device a') b = true;
  wr_val s : valid G s -> val G (e2_device a') ino' s = val G (e2_device a) ino s \/
    (val G (e2_device a) ino s = 0 /\ g_fdb G <= val G (e2_device a') ino' s < g_nblk G /\
     used G (e2_device a) (val G (e2_device a') ino' s) = false);
  wr_map j : (j < max_blocks)%nat -> (forall p, (o <= p < o + length buf)%nat -> (p / bsn <> j)%nat) ->
    bmap (e2_device a') ino' j = bmap (e2_device a) ino j;
  wr_there p : (o <= p < o + length buf)%nat -> bmap (e2_device a') ino' (p / bsn) <> 0;
  wr_in p : (o <= p < o + length buf)%nat -> fbyte (e2_device a') ino' p = buf !!! (p - o)%nat;
  wr_out p : (p < max_blocks * bsn)%nat -> ~ (o <= p < o + length buf)%nat ->
    fbyte (e2_device a') ino' p = held (e2_device a) (bmap (e2_device a') ino' (p / bsn)) (p mod bsn);
  wr_blk b : 0 <= b < g_nblk G -> b ∉ g_bms G ->
    (forall s, valid G s -> val G (e2_device a') ino' s <> 0 -> val G (e2_device a') ino' s <> b) ->
    blk G (e2_device a') b = blk G (e2_device a) b;
}.

Lemma bsn_pos : (1024 <= bsn)%nat.
Proof using HG. pose proof (bsz_range G HG). unfold bsn. lia. Qed.
Lemma index_bound p : (p < max_blocks * bsn)%nat -> (p / bsn < max_blocks)%nat.
Proof using HG. intros Hp. pose proof bsn_pos. apply Nat.Div0.div_lt_upper_bound. lia. Qed.

(** Slots do not see blocks that are not tables. *)
Lemma val_ext cs cs' ino s :
  (forall t, is_table t = true -> valid G t -> val G cs ino t <> 0 -> blk G cs' (val G cs ino t) = blk G cs (val G cs ino t)) ->
  valid G s -> val G cs' ino s = val G cs ino s.
Proof using.
  intros Hsame. assert (forall t i, is_table t = true -> valid G t -> entry G cs' (val G cs ino t) i = entry G cs (val G cs ino t) i) as He.
  { intros t i Ht Hv. unfold entry. destruct (Z.eqb_spec (val G cs ino t) 0); [done|]. by rewrite Hsame. }
  intros Hv. destruct s as [i| | |i|i|i j]; try done; [by apply (He Tab1)|by apply (He Tab2)|].
  cbn [val]. pose proof (He Tab2 i eq_refl I) as H2. cbn [val] in H2. rewrite H2. apply (He (Tab3 i)); [done|by destruct Hv].
Qed.

(** The bytes of a file that grew are what its blocks held before. *)
Lemma grew_fbyte a ino a' ino' p :
  file_ok G a' ino' -> grew G a ino a' ino' -> (p < max_blocks * bsn)%nat ->
  fbyte (e2_device a') ino' p = held (e2_device a) (bmap (e2_device a') ino' (p / bsn)) (p mod bsn).
Proof using HG.
  intros Hf Hg Hp. unfold fbyte, held. destruct (Z.eqb_spec (bmap (e2_device a') ino' (p / bsn)) 0) as [|Hne]; [done|].
  destruct (slot_of_valid _ (index_bound p Hp)) as [Hv Hnt]. destruct (fo_good _ _ _ Hf _ Hv Hne) as (Hr & Hu & Hnr).
  fold (bmap (e2_device a') ino' (p / bsn)) in *. rewrite (gr_blk _ _ _ _ _ Hg); [done|destruct HG; lia|intros Hin; apply Hnr; by left|].
  intros s Hs Hvs Hs0 Hvv. assert (s = slot_of (p / bsn)) as ->; [|by rewrite Hnt in Hs]. by apply (fo_inj _ _ _ Hf).
Qed.
(** Growing without a write. *)
Lemma grew_wrote o a ino a' ino' :
  file_ok G a ino -> file_ok G a' ino' -> grew G a ino a' ino' ->
  (forall j, (j < max_blocks)%nat -> bmap (e2_device a') ino' j = bmap (e2_device a) ino j) -> wrote o [] a ino a' ino'.
Proof using HG.
  intros Hf Hf' Hg Hsame. split; try (cbn; lia); try done; try apply Hg.
  - intros j Hj _. by apply Hsame.
  - intros p Hp _. by eapply grew_fbyte.
  - intros b Hb Hbm Hns. apply (gr_blk _ _ _ _ _ Hg); try done. intros s _ Hs. by apply Hns.
Qed.

Lemma wrote_app o b1 b2 a ino a1 ino1 a2 ino2 :
  (o + length b1 + length b2 <= max_blocks * bsn)%nat ->
  wrote o b1 a ino a1 ino1 -> wrote (o + length b1) b2 a1 ino1 a2 ino2 -> wrote o (b1 ++ b2) a ino a2 ino2.
Proof using HG.
  intros Hmax H1 H2.
  assert (forall j, (j < max_blocks)%nat -> bmap (e2_device a1) ino1 j <> 0 -> bmap (e2_device a2) ino2 j = bmap (e2_device a1) ino1 j) as Hst.
  { intros j Hj Hne. destruct (slot_of_valid j Hj) as [Hv _]. destruct (wr_val _ _ _ _ _ _ H2 _ Hv) as [Heq|(Hz & _)]; done. }
  split; rewrite ?length_app.
  - apply H2.
  - eapply same_but_ptrs_trans; [apply H1|apply H2].
  - intros b Hb Hu. by apply (wr_used _ _ _ _ _ _ H2), (wr_used _ _ _ _ _ _ H1).
  - intros s Hs. destruct (wr_val _ _ _ _ _ _ H1 s Hs) as [<-|(Hz & Hfb & Hun)], (wr_val _ _ _ _ _ _ H2 s Hs) as [Heq|(Hz2 & Hfb2 & Hun2)];
      [by left| |right; by rewrite Heq|].
    all: right; split; [done|]; split; [done|]; apply not_true_iff_false; intros Hu;
      by rewrite (wr_used _ _ _ _ _ _ H1) in Hun2.
  - intros j Hj Hnt. rewrite (wr_map _ _ _ _ _ _ H2), (wr_map _ _ _ _ _ _ H1); [done|done| |done|]; intros p Hp; apply Hnt; lia.
  - intros p Hp. destruct (decide (p < o + length b1)%nat).
    + pose proof (wr_there _ _ _ _ _ _ H1 p ltac:(lia)) as Hne. rewrite Hst; [done|apply index_bound; lia|done].
    + apply (wr_there _ _ _ _ _ _ H2). lia.
  - intros p Hp. destruct (decide (p < o + length b1)%nat).
    + pose proof (wr_there _ _ _ _ _ _ H1 p ltac:(lia)) as Hne.
      rewrite (wr_out _ _ _ _ _ _ H2), Hst; [|apply index_bound; lia|done|lia|lia].
      fold (fbyte (e2_device a1) ino1 p). rewrite (wr_in _ _ _ _ _ _ H1) by lia. symmetry. apply lookup_total_app_l. lia.
    + rewrite (wr_in _ _ _ _ _ _ H2) by lia. rewrite lookup_total_app_r by lia. f_equal. lia.
  - intros p Hp Hout. rewrite (wr_out _ _ _ _ _ _ H2) by lia. destruct (slot_of_valid _ (index_bound p Hp)) as [Hv _].
    destruct (wr_val _ _ _ _ _ _ H2 _ Hv) as [Heq|(_ & Hfb & Hun)]; fold (bmap (e2_device a2) ino2 (p / bsn)) in *.
    + fold (bmap (e2_device a1) ino1 (p / bsn)) in Heq. rewrite Heq. fold (fbyte (e2_device a1) ino1 p).
      by apply (wr_out _ _ _ _ _ _ H1); [|lia].
    + unfold held. destruct (Z.eqb_spec (bmap (e2_device a2) ino2 (p / bsn)) 0) as [|Hne]; [done|].
      destruct (fo_good _ _ _ (wr_file _ _ _ _ _ _ H2) _ Hv Hne) as (_ & _ & Hnr).
      rewrite (wr_blk _ _ _ _ _ _ H1); [done|destruct HG; lia|intros Hin; apply Hnr; by left|].
      intros s Hs Hs0 Heq. destruct (fo_good _ _ _ (wr_file _ _ _ _ _ _ H1) s Hs Hs0) as (_ & Hu & _). congruence.
  - intros b Hb Hbm Hns. rewrite (wr_blk _ _ _ _ _ _ H2), (wr_blk _ _ _ _ _ _ H1); try done.
    intros s Hs Hne. destruct (wr_val _ _ _ _ _ _ H2 s Hs) as [Heq|(Hz & _)]; [|done]. rewrite <-Heq in *. by apply Hns.
Qed.

(** Byte [i * bsn + off] lies in block [i], at [off]. *)
Lemma split_pos i off p :
  (off < bsn)%nat -> p = (i * bsn + off)%nat <-> (p / bsn = i /\ p mod bsn = off)%nat.
Proof using HG.
  intros Hoff. pose proof bsn_pos. split.
  - intros ->. split.
    + symmetry. apply (Nat.div_unique _ bsn i off); lia.
    + symmetry. apply (Nat.mod_unique _ bsn i off); lia.
  - intros [<- <-]. rewrite (Nat.mul_comm _ bsn). apply Nat.div_mod. lia.
Qed.
Lemma chunk_pos i off n p :
  (off + n <= bsn)%nat -> (i * bsn + off <= p < i * bsn + off + n)%nat <-> (p / bsn = i /\ off <= p mod bsn < off + n)%nat.
Proof using HG.
  intros Hn. pose proof bsn_pos. pose proof (Nat.div_mod p bsn ltac:(lia)) as Hdm. pose proof (Nat.mod_upper_bound p bsn ltac:(lia)).
  split.
  - intros Hp. assert (p / bsn = i)%nat as Hi; [|rewrite Hi in Hdm; lia].
    symmetry. apply (Nat.div_unique _ bsn i (p - i * bsn)); lia.
  - intros [Hi Hm]. rewrite Hi in Hdm. lia.
Qed.

(** Overwriting a data block of the file. *)
Lemma data_write_ok i buf a ino :
  file_ok G a ino -> (i < max_blocks)%nat -> bmap (e2_device a) ino i <> 0 -> length buf = bsn -> Forall is_byte buf ->
  let b := bmap (e2_device a) ino i in
  exists cs, evals (Dev := Dev) (write_block b buf) a (Ok tt) (with_device a cs) /\ file_ok G (with_device a cs) ino /\
    (forall s, valid G s -> val G cs ino s = val G (e2_device a) ino s) /\
    (forall c, 0 <= c < g_nblk G -> c <> b -> blk G cs c = blk G (e2_device a) c) /\ blk G cs b = buf /\
    (forall c, g_fdb G <= c < g_nblk G -> used G cs c = used G (e2_device a) c).
Proof using HG HL HY.
  intros Hf Hi Hb0 Hlen Hby b. destruct (slot_of_valid i Hi) as [Hv Hnt].
  destruct (fo_good _ _ _ Hf _ Hv Hb0) as (Hr & Hu & Hnr). fold (bmap (e2_device a) ino i) in Hr, Hu, Hnr. fold b in Hr, Hu, Hnr.
  assert (0 <= b < g_nblk G) as Hr0 by (destruct HG; lia). pose proof (fo_vol _ _ _ Hf) as Hvol.
  destruct (write_block_ok a b buf Hvol Hr0) as (cs & He & Hvol2 & Hblk2 & Hsame & Hu2); [|done|done|].
  { intros Hin. apply Hnr. by left. }
  assert (forall s, valid G s -> val G cs ino s = val G (e2_device a) ino s) as Hval.
  { intros s Hs. apply val_ext; [|done]. intros t Ht Hvt Hn0. apply Hblk2.
    - destruct (fo_good _ _ _ Hf t Hvt Hn0) as ([? ?] & _). destruct HG. lia.
    - intros Heq. assert (t = slot_of i) as ->; [by apply (fo_inj _ _ _ Hf)|by rewrite Hnt in Ht]. }
  exists cs. split; [done|]. split; [|done]. split; cbn; try done; try apply Hf.
  - intros c Hc Hfc. rewrite Hu2 by (pose proof (reserved_range c Hc); lia). by apply (fo_res _ _ _ Hf).
  - intros s Hs. rewrite Hval by done. intros Hne. destruct (fo_good _ _ _ Hf s Hs Hne) as (? & ? & ?). by rewrite Hu2.
  - intros s s' Hs Hs'. rewrite !Hval by done. by apply (fo_inj _ _ _ Hf).
Qed.

Lemma write_chunk_ok i off chunk b a ino a1 ino1 :
  file_ok G a ino -> (i < max_blocks)%nat -> (off + length chunk <= bsn)%nat -> Forall is_byte chunk ->
  got_block i (Ok b) a ino a1 ino1 -> (0 < length chunk)%nat ->
  exists a2, evals (Dev := Dev) (write_block b (put off chunk (blk G (e2_device a1) b))) a1 (Ok tt) a2 /\
    wrote (i * bsn + off) chunk a ino a2 ino1.
Proof using HG HL HY.
  intros Hf Hi Hoff Hby (Hf1 & Hg & Hb0 & Hbi & Hoth) Hpos. pose proof bsn_pos. pose proof (fo_vol _ _ _ Hf1) as Hvol1.
  pose proof (static_fields G a1 (vo_static _ _ Hvol1)) as (_ & _ & _ & _ & _ & Hl1).
  destruct (slot_of_valid i Hi) as [Hv Hnt].
  destruct (fo_good _ _ _ Hf1 _ Hv ltac:(fold (bmap (e2_device a1) ino1 i); by rewrite Hbi)) as (Hr & _ & _).
  fold (bmap (e2_device a1) ino1 i) in Hr. rewrite Hbi in Hr. assert (0 <= b < g_nblk G) as Hr0 by (destruct HG; lia).
  pose proof (blk_length G HG (e2_device a1) b Hl1 Hr0) as Hbl. fold bsn in Hbl.
  destruct (data_write_ok i (put off chunk (blk G (e2_device a1) b)) a1 ino1 Hf1 Hi) as (cs & He & Hf2 & Hval & Hblk2 & Hsame & Hu2).
  { by rewrite Hbi. } { rewrite length_put; lia. } { apply put_bytes; [done|]. apply sub_bytes_bytes, (vo_bytes _ _ Hvol1). }
  rewrite Hbi in *. exists (with_device a1 cs). split; [done|].
  assert (forall j, (j < max_blocks)%nat -> bmap cs ino1 j = bmap (e2_device a1) ino1 j) as Hbm.
  { intros j Hj. apply Hval. by apply slot_of_valid. }
  assert (forall p, (p < max_blocks * bsn)%nat -> fbyte cs ino1 p =
    if decide (p / bsn = i /\ off <= p mod bsn < off + length chunk)%nat then chunk !!! (p mod bsn - off)%nat
    else fbyte (e2_device a1) ino1 p) as Hfb.
  { intros p Hp. unfold fbyte, held. rewrite Hbm by (by apply index_bound).
    destruct (decide (p / bsn = i)%nat) as [Hpi|Hpi].
    - rewrite Hpi, Hbi, (proj2 (Z.eqb_neq b 0)), Hsame by done. pose proof (Nat.mod_upper_bound p bsn ltac:(lia)).
      rewrite list_lookup_total_alt, lookup_put by lia. destruct (decide (off <= p mod bsn < off + length chunk)%nat).
      + rewrite decide_True by done. by rewrite list_lookup_total_alt.
      + rewrite decide_False by tauto. by rewrite list_lookup_total_alt.
    - rewrite decide_False by tauto. destruct (Z.eqb_spec (bmap (e2_device a1) ino1 (p / bsn)) 0) as [|Hne]; [done|].
      destruct (slot_of_valid _ (index_bound p Hp)) as [Hvp _]. destruct (fo_good _ _ _ Hf1 _ Hvp Hne) as (Hrp & _).
      rewrite Hblk2; [done|unfold bmap; destruct HG; lia|]. intros Heq. apply Hpi, slot_of_inj, (fo_inj _ _ _ Hf1); try done.
      fold (bmap (e2_device a1) ino1 i). by rewrite Hbi. }
  split; cbn [e2_device with_device]; try apply Hg; try done.
  - intros c Hc Hu. rewrite Hu2 by done. by apply (gr_used _ _ _ _ _ Hg).
  - intros s Hs. rewrite Hval by done. by apply (gr_val _ _ _ _ _ Hg).
  - intros j Hj Hnj. rewrite Hbm by done. apply Hoth; [done|]. intros ->.
    apply (Hnj (i * bsn + off)%nat); [lia|]. apply (split_pos i off); [lia|done].
  - intros p Hp. apply chunk_pos in Hp as [Hpi _]; [|done]. rewrite Hpi, Hbm by done. by rewrite Hbi.
  - intros p Hp. pose proof Hp as Hp'. apply chunk_pos in Hp' as [Hpi Hm]; [|done].
    assert ((i + 1) * bsn <= max_blocks * bsn)%nat by (apply Nat.mul_le_mono_r; lia).
    pose proof (Nat.div_mod p bsn ltac:(lia)) as Hdm. rewrite Hpi in Hdm.
    rewrite Hfb, decide_True by (done || lia). f_equal. lia.
  - intros p Hp Hout. rewrite Hfb by done. rewrite decide_False by (by rewrite <-chunk_pos). rewrite Hbm by (by apply index_bound). by eapply grew_fbyte.
  - intros c Hc Hcb Hns. rewrite Hblk2; [|done|].
    + apply (gr_blk _ _ _ _ _ Hg); try done. intros s _ Hs. rewrite <-Hval by done. by apply Hns.
    + intros ->. apply (Hns _ Hv); rewrite Hval by done; fold (bmap (e2_device a1) ino1 i); by rewrite Hbi.
Qed.

Lemma wrote_nil_refl o a ino : file_ok G a ino -> wrote o [] a ino a ino.
Proof using HG. intros Hf. by apply grew_wrote; [..|apply grew_refl|]. Qed.

Lemma max_bytes : Z.of_nat (max_blocks * bsn) < 2 ^ 63.
Proof using HG.
  pose proof (bsz_range G HG). pose proof bsz_4. unfold max_blocks.
  assert (Z.of_nat (ppb G) <= 16384) by lia. assert (Z.of_nat bsn <= 65536) by (unfold bsn; lia).
  assert (Z.of_nat (ppb G) * Z.of_nat (ppb G) <= 16384 * 16384) by (apply Z.mul_le_mono_nonneg; lia).
  rewrite Nat2Z.inj_mul. apply Z.le_lt_trans with ((12 + 16384 + 16384 * 16384) * 65536); [|lia].
  apply Z.mul_le_mono_nonneg; lia.
Qed.
(** The block with the new bytes, whether it is read first or overwritten as a whole. *)
Lemma block_buf_ok a ino b off n buf :
  static a = G -> 0 <= b < g_nblk G -> (off < bsn)%nat -> n = Nat.min (bsn - off) (length buf) ->
  exists buf0,
    fevals (if negb (Z.of_nat off =? 0) || (Z.of_nat (length buf) <? Z.of_nat bsn)
            then on_vol (read_block b (replicate bsn 0)) else mret (replicate bsn 0)) ino a (Ok buf0) ino a /\
    @put_slice FileError off (take n buf) buf0 = Ok (put off (take n buf) (blk G (e2_device a) b)).
Proof using HG HL.
  intros Hs Hb Hoff Hn. pose proof (static_fields G a Hs) as (_ & _ & _ & _ & _ & Hl).
  pose proof (blk_length G HG (e2_device a) b Hl Hb) as Hbl. fold bsn in Hbl.
  assert (length (take n buf) = n) as Hcl by (rewrite length_take; lia).
  destruct (negb _ || _) eqn:Hc.
  - exists (blk G (e2_device a) b). split; [|apply put_slice_put; lia].
    apply fevals_vol. unfold read_block. eapply evals_bind; [by apply evals_block_offset|].
    rewrite length_replicate. by apply evals_read_blk.
  - apply orb_false_iff in Hc as [H0 H1]. apply negb_false_iff, Z.eqb_eq in H0. apply Z.ltb_ge in H1.
    exists (replicate bsn 0). split; [apply fevals_ret|]. assert (off = 0%nat) as -> by lia.
    rewrite put_slice_put by (rewrite length_replicate; lia). f_equal.
    rewrite !put_whole; [done|rewrite Hcl, Hbl; lia|rewrite Hcl, length_replicate; lia].
Qed.

(** The loop writes the buffer, or stops with a prefix of it written when no block is free. *)
Lemma ext_write_loop_ok fuel o buf ino a :
  file_ok G a ino -> (o + length buf <= max_blocks * bsn)%nat -> Forall is_byte buf -> (length buf < fuel)%nat ->
  exists r n a' ino', fevals (ext_write_loop fuel (bsz G) (Z.of_nat o) buf) ino a r ino' a' /\
    wrote o (take n buf) a ino a' ino' /\ (n <= length buf)%nat /\
    ((r = Ok tt /\ n = length buf) \/
     (r = Err (Other "No free blocks available") /\ (n < length buf)%nat /\ sb_free_blocks (e2_superblock a') = 0)).
Proof using HG HL HY.
  revert o buf ino a. induction fuel as [|fuel IH]; intros o buf ino a Hf Hmax Hby Hfuel; [lia|]. cbn [ext_write_loop].
  destruct (Nat.eqb_spec (length buf) 0) as [H0|H0].
  { exists (Ok tt), 0%nat, a, ino. split; [apply fevals_ret|]. split; [by apply wrote_nil_refl|]. split; [lia|]. left. by split. }
  pose proof bsn_pos. pose proof (bsz_range G HG). pose proof (Nat.div_mod o bsn ltac:(lia)) as Hdm.
  pose proof (Nat.mod_upper_bound o bsn ltac:(lia)) as Hmod. pose proof max_bytes as Hmb.
  assert (bsz G = Z.of_nat bsn) as Hbs by (unfold bsn; lia). rewrite Hbs.
  unfold udiv, urem. rewrite (proj2 (Z.eqb_neq (Z.of_nat bsn) 0)) by lia. rewrite <-Nat2Z.inj_div, <-Nat2Z.inj_mod.
  set (i := (o / bsn)%nat) in *. set (off := (o mod bsn)%nat) in *.
  assert (i < max_blocks)%nat as Hi by (apply index_bound; lia).
  destruct (get_or_alloc_block_ok i ino a Hf Hi) as (r & a1 & ino1 & He & Hg).
  destruct r as [b|e|]; [| |by destruct Hg as (_ & _ & [])].
  2:{ exists (Err e), 0%nat, a1, ino1. split.
      - do 2 (eapply fevals_bind; [apply fevals_lift|]). by apply fevals_bind_err.
      - destruct Hg as (Hf1 & Hgr & -> & Hz & Hsame). split; [by apply grew_wrote|]. split; [lia|]. right. split_and!; [done|lia|done]. }
  set (n := Nat.min (bsn - off) (length buf)).
  assert (length (take n buf) = n) as Hcl by (rewrite length_take; lia).
  destruct (write_chunk_ok i off (take n buf) b a ino a1 ino1) as (a2 & He2 & Hw); [done|done|lia|by apply Forall_take|done|lia|].
  replace (i * bsn + off)%nat with o in Hw by lia.
  destruct (IH (o + n)%nat (drop n buf) ino1 a2) as (r & m & a3 & ino3 & He3 & Hw3 & Hm & Hr);
    [apply Hw|rewrite length_drop; lia|by apply Forall_drop|rewrite length_drop; lia|].
  rewrite length_drop in Hm, Hr. exists r, (n + m)%nat, a3, ino3. split; [|split; [|split; [lia|]]].
  - do 2 (eapply fevals_bind; [apply fevals_lift|]). eapply fevals_bind; [exact He|].
    destruct Hg as (Hf1 & _ & Hb0 & Hbi & _).
    destruct (fo_good _ _ _ Hf1 _ (proj1 (slot_of_valid i Hi))) as (Hr1 & _); [fold (bmap (e2_device a1) ino1 i); by rewrite Hbi|].
    fold (bmap (e2_device a1) ino1 i) in Hr1. rewrite Hbi in Hr1.
    destruct (block_buf_ok a1 ino1 b off n buf) as (buf0 & He0 & Hput);
      [by apply (vo_static _ _ (fo_vol _ _ _ Hf1))|destruct HG; lia|done|done|].
    rewrite !Nat2Z.id. replace (Z.to_nat (Z.min (Z.of_nat bsn - Z.of_nat off) (Z.of_nat (length buf)))) with n by lia.
    eapply fevals_bind; [exact He0|]. rewrite Hput. eapply fevals_bind; [apply fevals_lift|].
    eapply fevals_bind; [by apply fevals_vol|]. rewrite uadd_eq by lia. eapply fevals_bind; [apply fevals_lift|].
    replace (Z.of_nat o + _) with (Z.of_nat (o + n)) by lia. by rewrite Hbs in He3.
  - rewrite <-(take_take_drop buf n m). rewrite <-Hcl in Hw3 at 1. eapply wrote_app; [|exact Hw|exact Hw3].
    rewrite !length_take, length_drop. lia.
  - destruct Hr as [[-> ->]|(-> & ? & ?)]; [left|right]; split_and?; done || lia.
Qed.

(** *** Synchronising the inode *)
Lemma bmap_ino cs ino ino' i : i_block ino' = i_block ino -> bmap cs ino' i = bmap cs ino i.
Proof using. intros Hb. unfold bmap. destruct (slot_of i); cbn; by rewrite Hb. Qed.
Lemma val_ino cs ino ino' s : i_block ino' = i_block ino -> val G cs ino' s = val G cs ino s.
Proof using. intros Hb. destruct s; cbn; by rewrite Hb. Qed.
(** Fields other than the pointers and the block count do not matter to the file's blocks. *)
Lemma file_ok_ino a ino ino' :
  file_ok G a ino -> ino_ok ino' -> i_block ino' = i_block ino -> i_blocks ino' = i_blocks ino -> file_ok G a ino'.
Proof using.
  intros [Hv Hr Hi Hg Hj Hm] Hok Hb Hc. split; try done.
  - intros s. rewrite (val_ino _ _ _ _ Hb). apply Hg.
  - intros s s'. rewrite !(val_ino _ _ _ _ Hb). apply Hj.
  - by rewrite Hc.
Qed.

Lemma sync_keeps_file k ino a a' :
  inode_valid G k -> file_ok G a ino -> inode_synced now G k ino a a' ->
  file_ok G a' ino /\ (forall s, valid G s -> val G (e2_device a') ino s = val G (e2_device a) ino s) /\
  (forall p, (p < max_blocks * bsn)%nat -> fbyte (e2_device a') ino p = fbyte (e2_device a) ino p) /\
  (forall b, 0 <= b < g_nblk G -> ~ reserved G b -> blk G (e2_device a') b = blk G (e2_device a) b) /\
  (forall b, g_fdb G <= b < g_nblk G -> used G (e2_device a') b = used G (e2_device a) b).
Proof using HG HY.
  intros Hk Hf [Hok Hbg Hsb Hblk _ _]. pose proof (fo_vol _ _ _ Hf) as Hvol.
  assert (table_block G (inode_block G k)) as Htb.
  { destruct (inode_block_table G HG HY a k (vo_static _ _ Hvol) Hk) as (t & Ht & _ & Hin). by exists (inode_group G k), t. }
  assert (forall b, 0 <= b < g_nblk G -> ~ sync_block G b /\ b <> inode_block G k -> blk G (e2_device a') b = blk G (e2_device a) b) as Hb'.
  { intros b Hb [? ?]. by apply Hblk. }
  assert (forall b, 0 <= b < g_nblk G -> ~ reserved G b -> blk G (e2_device a') b = blk G (e2_device a) b) as Hnr.
  { intros b Hb Hr. apply Hb'; [done|]. split; [intros Hs; apply Hr; by right; left|]. intros ->. apply Hr. by right; right. }
  assert (forall b, g_fdb G <= b < g_nblk G -> used G (e2_device a') b = used G (e2_device a) b) as Hu.
  { intros b Hb. apply used_ext; [|done]. intros m Hm. apply Hb'; [exact (proj1 (Forall_forall _ _) (go_bms _ HG) m Hm)|]. split.
    - intros Hs. by destruct (lo_sync _ HY m Hs).
    - intros ->. by destruct (lo_table _ HY _ Htb) as (_ & ? & _). }
  assert (forall s, valid G s -> val G (e2_device a') ino s = val G (e2_device a) ino s) as Hval.
  { intros s Hs. apply val_ext; [|done]. intros t Ht Hvt Hne. destruct (fo_good _ _ _ Hf t Hvt Hne) as (? & ? & ?).
    apply Hnr; [destruct HG; lia|done]. }
  split_and!; [|done| |done|done].
  - split; try done; try apply Hf.
    + intros b Hr Hb. pose proof (reserved_range b Hr). rewrite Hu by lia. by apply (fo_res _ _ _ Hf).
    + intros s Hs. rewrite Hval by done. intros Hne. destruct (fo_good _ _ _ Hf s Hs Hne) as (? & ? & ?). by rewrite Hu.
    + intros s s' Hs Hs'. rewrite !Hval by done. by apply (fo_inj _ _ _ Hf).
    + rewrite Hsb. exact (fo_room _ _ _ Hf).
  - intros p Hp. destruct (slot_of_valid _ (index_bound p Hp)) as [Hv _]. unfold fbyte, held, bmap. rewrite Hval by done.
    destruct (Z.eqb_spec (val G (e2_device a) ino (slot_of (p / bsn))) 0) as [|Hne]; [done|].
    destruct (fo_good _ _ _ Hf _ Hv Hne) as (? & ? & ?). rewrite Hnr; [done|destruct HG; lia|done].
Qed.

(** The size and the times after a write up to [e]. *)
Definition touched_ino (ino : Ext2Inode) (e : Z) : Ext2Inode :=
  set_i_mctime (if i_size ino <? e then set_i_size ino (wrap 32 e) else ino) (wrap 32 now).
Lemma touched_ino_ok ino e :
  ino_ok ino -> ino_ok (touched_ino ino e) /\ i_block (touched_ino ino e) = i_block ino /\
  i_blocks (touched_ino ino e) = i_blocks ino /\ (0 <= e < 2 ^ 32 -> i_size (touched_ino ino e) = Z.max (i_size ino) e).
Proof using.
  intros []. unfold touched_ino. destruct (Z.ltb_spec (i_size ino) e); cbn; split_and!; try done.
  1, 3: split; try done; by apply is_u_wrap.
  - intros He. rewrite wrap_small by done. lia.
  - intros He. lia.
Qed.
End Files.
