(* ===== verification/Ext2File.v ===== *)
(** * Reading and writing an ext2 file (zenos-kernel/src/disk/fs/ext2/mod.rs)

    What [read] and [write] of a file do to the bytes of the file and to the rest of the
    volume, and what goes wrong with files that have holes. *)
From S2P Require Import Prelude OpenFile Bytes BlockDev Ext2 Ext2Fs Ext2Blocks Ext2Meta Ext2Data.

(** ** Writing *)

(** The bytes [buf] are at [o] of the file; its other bytes are what their blocks held before
    the write, which for a block allocated on the way is what it held while it was free;
    the blocks of other files are as before, and those it allocated were free. *)
Record file_written (G : Geometry) (o : nat) (buf : bytes) (a : Ext2FSInner bytes) (ino : Ext2Inode)
    (a' : Ext2FSInner bytes) (ino' : Ext2Inode) : Prop := {
  fw_file : file_ok G a' ino';
  fw_in p : (o <= p < o + length buf)%nat ->
    bmap G (e2_device a') ino' (p / bsn G) <> 0 /\ fbyte G (e2_device a') ino' p = buf !!! (p - o)%nat;
  fw_map j : (j < max_blocks G)%nat -> bmap G (e2_device a) ino j <> 0 ->
    bmap G (e2_device a') ino' j = bmap G (e2_device a) ino j;
  fw_new s : valid G s -> val G (e2_device a') ino' s <> val G (e2_device a) ino s ->
    val G (e2_device a) ino s = 0 /\ used G (e2_device a) (val G (e2_device a') ino' s) = false;
  fw_out p : (p < max_blocks G * bsn G)%nat -> ~ (o <= p < o + length buf)%nat ->
    fbyte G (e2_device a') ino' p = held G (e2_device a) (bmap G (e2_device a') ino' (p / bsn G)) (p mod bsn G);
  fw_blk b : 0 <= b < g_nblk G -> b < g_fdb G \/ used G (e2_device a) b = true -> ~ reserved G b ->
    (forall s, valid G s -> val G (e2_device a) ino s <> b) -> blk G (e2_device a') b = blk G (e2_device a) b;
}.

Section Write.
Context {Dev : Type} `{HB : BlockDevice Dev} {HL : BlockDeviceLaws Dev}.
Context (now : Z) (G : Geometry) (HG : geom_ok G) (HY : layout_ok G).

Lemma wrote_written o buf a ino a' ino' : wrote G o buf a ino a' ino' -> file_written G o buf a ino a' ino'.
Proof using HG.
  intros Hw. split; [apply Hw| | | |apply Hw|].
  - intros p Hp. split; [by apply (wr_there _ _ _ _ _ _ _ Hw)|by apply (wr_in _ _ _ _ _ _ _ Hw)].
  - intros j Hj Hne. destruct (slot_of_valid G HG j Hj) as [Hv _].
    by destruct (wr_val _ _ _ _ _ _ _ Hw _ Hv) as [Heq|(Hz & _)].
  - intros s Hs Hne. by destruct (wr_val _ _ _ _ _ _ _ Hw s Hs) as [Heq|(Hz & _ & Hun)].
  - intros b Hb Hu Hr Hns. apply (wr_blk _ _ _ _ _ _ _ Hw); [done|intros Hin; apply Hr; by left|].
    intros s Hs _ Heq. destruct (wr_val _ _ _ _ _ _ _ Hw s Hs) as [Hsame|(_ & Hfb & Hun)]; [apply (Hns s Hs); congruence|].
    rewrite Heq in *. destruct Hu; [lia|congruence].
Qed.

Lemma written_synced o buf k ino2 a ino a1 ino1 a2 :
  (o + length buf <= max_blocks G * bsn G)%nat ->
  wrote G o buf a ino a1 ino1 -> inode_valid G k -> ino_ok ino2 -> i_block ino2 = i_block ino1 -> i_blocks ino2 = i_blocks ino1 ->
  inode_synced now G k ino2 a1 a2 -> file_written G o buf a ino a2 ino2.
Proof using HG HY.
  intros Hmax Hw%wrote_written Hk Hi2 Hib Hic Hsy. destruct Hw as [Hf1 Hin1 Hmap1 Hnew1 Hout1 Hblk1].
  pose proof (file_ok_ino G a1 ino1 ino2 Hf1 Hi2 Hib Hic) as Hf12.
  destruct (sync_keeps_file now G HG HY k ino2 a1 a2 Hk Hf12 Hsy) as (Hf2 & Hval & Hfb & Hblk & Hu).
  assert (forall j, (j < max_blocks G)%nat -> bmap G (e2_device a2) ino2 j = bmap G (e2_device a1) ino1 j) as Hbm.
  { intros j Hj. rewrite <-(bmap_ino G _ ino1 ino2 j Hib). apply Hval. by apply slot_of_valid. }
  assert (forall p, (p < max_blocks G * bsn G)%nat -> fbyte G (e2_device a2) ino2 p = fbyte G (e2_device a1) ino1 p) as Hfb'.
  { intros p Hp. rewrite Hfb by done. unfold fbyte. by rewrite (bmap_ino G _ ino1 ino2 _ Hib). }
  split; [done| | | | |].
  - intros p Hp. rewrite Hbm, Hfb' by (try apply index_bound; done || lia). by apply Hin1.
  - intros j Hj Hne. rewrite Hbm by done. by apply Hmap1.
  - intros s Hs. rewrite Hval, (val_ino G _ ino1 ino2 s Hib) by done. by apply Hnew1.
  - intros p Hp Hout. rewrite Hbm, Hfb' by (try apply index_bound; done). by apply Hout1.
  - intros b Hb Hub Hr Hns. rewrite Hblk by done. by apply Hblk1.
Qed.

Lemma ext_file_write_ok a ino k o buf :
  file_ok G a ino -> inode_valid G k -> e2_read_only a = false ->
  (o + length buf <= max_blocks G * bsn G)%nat -> Z.of_nat (o + length buf) < 2 ^ 32 -> Forall is_byte buf ->
  (0 < length buf)%nat ->
  exists r n ino' a', fevals (Dev := Dev) (ext_file_write now k (Z.of_nat o) buf) ino a r ino' a' /\ (n <= length buf)%nat /\
    file_written G o (take n buf) a ino a' ino' /\
    ((r = Ok (Z.of_nat (length buf)) /\ n = length buf /\
      i_size ino' = Z.max (i_size ino) (Z.of_nat (o + length buf)) /\ i_block ino' !!! 14%nat = i_block ino !!! 14%nat /\
      forall msg, evals (Dev := Dev) (read_inode msg k) a' (Ok ino') a') \/
     (r = Err (Other "No free blocks available") /\ (n < length buf)%nat /\ sb_free_blocks (e2_superblock a') = 0)).
Proof using HG HL HY.
  intros Hf Hk Hro Hmax H32 Hby Hpos. pose proof (vo_static _ _ (fo_vol _ _ _ Hf)) as Hs.
  destruct (ext_write_loop_ok G HG HY (length buf + 1) o buf ino a Hf Hmax Hby ltac:(lia))
    as (r & n & a1 & ino1 & He & Hw & Hn & Hr).
  destruct Hr as [[-> ->]|[-> Hlt]].
  2:{ exists (Err (Other "No free blocks available")), n, ino1, a1. split_and!; [|done|by apply wrote_written|by right].
      apply fevals_get. intros v Hv. rewrite (abs_read_only _ _ Hv), Hro, (proj2 (Nat.eqb_neq _ _)) by lia.
      eapply fevals_bind; [by apply fevals_vol, evals_block_size|]. by apply fevals_bind_err. }
  rewrite take_ge in Hw by lia. pose proof (wr_file _ _ _ _ _ _ _ Hw) as Hf1.
  destruct (wr_ino _ _ _ _ _ _ _ Hw) as (ps & c & Hi1 & H14).
  set (e := Z.of_nat o + Z.of_nat (length buf)) in *.
  destruct (touched_ino_ok now ino1 e (fo_ino _ _ _ Hf1)) as (Hi2 & Hib & Hic & Hsz).
  destruct (sync_inode_ok now G HG HY a1 k (touched_ino now ino1 e) (fo_vol _ _ _ Hf1) Hk Hi2) as (a2 & He2 & Hsy).
  exists (Ok (Z.of_nat (length buf))), (length buf), (touched_ino now ino1 e), a2. rewrite take_ge by lia.
  split_and!; [|done|by eapply written_synced|left; split_and!; [done|done| | |]].
  - apply fevals_get. intros v Hv. rewrite (abs_read_only _ _ Hv), Hro, (proj2 (Nat.eqb_neq _ _)) by lia.
    eapply fevals_bind; [by apply fevals_vol, evals_block_size|]. eapply fevals_bind; [exact He|].
    rewrite uadd_eq by lia. eapply fevals_bind; [apply fevals_lift|]. fold e.
    eapply fevals_bind; [apply fevals_set|]. eapply fevals_bind; [apply (fevals_set (fun i => set_i_mctime i _))|].
    eapply fevals_bind; [|apply fevals_ret]. unfold sync_this. eapply fevals_bind; [apply fevals_this|]. by apply fevals_vol.
  - rewrite Hsz by (unfold e; lia). rewrite Hi1. cbn. unfold e. lia.
  - by rewrite Hib, Hi1.
  - intros msg. apply (read_inode_ok G HG HY); [apply Hsy|done|done|apply Hsy].
Qed.

(** C38: [write] of [buf] at [o], within the reach of two levels of indirection and below
    4 GiB.  On a read-only volume it is refused and an empty write does nothing.  Otherwise
    it returns; when it succeeds all of [buf] is written, the size has grown to hold it and
    the inode is on disk; it fails only when no block is free any more, with a prefix of
    [buf] written.  Either way the written bytes are in the file; every other byte of the
    file is what its block held before, and a block that was allocated was free, so the
    rest of it keeps what it held then; the blocks of other files are as before, and the
    volume is consistent.  The volume has blocks above 1 KiB or superblocks in group 0 only
    ([lo_copies] of [layout_ok]): elsewhere the copies of the superblock overwrite data. *)
Theorem ext2_file_write v ino k o buf :
  file_ok G (abs v) ino -> inode_valid G k ->
  (o + length buf <= max_blocks G * bsn G)%nat -> Z.of_nat (o + length buf) < 2 ^ 32 -> Forall is_byte buf ->
  if e2_read_only v then ext_file_write now k (Z.of_nat o) buf (ino, v) = (Err ReadOnlyFilesystem, (ino, v))
  else if decide (length buf = 0%nat) then ext_file_write now k (Z.of_nat o) buf (ino, v) = (Ok 0, (ino, v))
  else exists r n ino' v', ext_file_write now k (Z.of_nat o) buf (ino, v) = (r, (ino', v')) /\ (n <= length buf)%nat /\
    file_written G o (take n buf) (abs v) ino (abs v') ino' /\
    ((r = Ok (Z.of_nat (length buf)) /\ n = length buf /\
      i_size ino' = Z.max (i_size ino) (Z.of_nat (o + length buf)) /\
      forall msg, exists v'', read_inode msg k v' = (Ok ino', v'')) \/
     (r = Err (Other "No free blocks available") /\ (n < length buf)%nat /\ sb_free_blocks (e2_superblock v') = 0)).
Proof using HG HL HY.
  intros Hf Hk Hmax H32 Hby. destruct (e2_read_only v) eqn:Hro.
  { unfold ext_file_write, mbind, st_bind, on_vol, st_get. cbn. by rewrite Hro. }
  destruct (decide (length buf = 0%nat)) as [H0|H0].
  { unfold ext_file_write, mbind, st_bind, on_vol, st_get. cbn. by rewrite Hro, H0. }
  destruct (ext_file_write_ok (abs v) ino k o buf Hf Hk Hro Hmax H32 Hby ltac:(lia)) as (r & n & ino' & a' & He & Hn & Hw & Hr).
  destruct (He v eq_refl) as (v' & Hrun & <-). exists r, n, ino', v'. split_and!; [done..|].
  destruct Hr as [(-> & -> & Hsz & _ & Hrd)|Herr]; [left|by right]. split_and!; [done..|]. intros msg.
  destruct (Hrd msg v' eq_refl) as (v'' & Hrd' & _). eauto.
Qed.
End Write.

(** ** Reading *)
Section Read.
Context {Dev : Type} `{HB : BlockDevice Dev} {HL : BlockDeviceLaws Dev}.
Context (now : Z) (G : Geometry) (HG : geom_ok G) (HY : layout_ok G).

(** The list of blocks the code collects: the tables that are absent leave no gap in it. *)
Definition array_of (cs : bytes) (b : Z) : list Z := if b =? 0 then [] else u32s_of (blk G cs b).
Definition blocks_of (cs : bytes) (ino : Ext2Inode) : list Z :=
  take 12 (i_block ino) ++ array_of cs (i_block ino !!! 12%nat) ++
  (array_of cs (i_block ino !!! 13%nat) ≫= array_of cs).

Lemma evals_if_present a b k r a' :
  static a = G -> (b <> 0 -> 0 <= b < g_nblk G) ->
  (b <> 0 -> evals (Dev := Dev) (k (u32s_of (blk G (e2_device a) b))) a r a') -> (b = 0 -> r = Ok [] /\ a' = a) ->
  evals (Dev := Dev) (if_present b k) a r a'.
Proof using HG HL.
  intros Hs Hb Hk H0. unfold if_present. destruct (Z.eqb_spec b 0) as [Hz|Hnz].
  - destruct (H0 Hz) as [-> ->]. apply evals_ret.
  - eapply evals_bind; [by apply evals_read_array; [..|apply Hb]|by apply Hk].
Qed.
Lemma evals_array a b :
  static a = G -> (b <> 0 -> 0 <= b < g_nblk G) -> evals (Dev := Dev) (if_present b mret) a (Ok (array_of (e2_device a) b)) a.
Proof using HG HL.
  intros Hs Hb. apply evals_if_present; [done|done|..].
  - intros Hne. unfold array_of. rewrite (proj2 (Z.eqb_neq _ _)) by done. apply evals_ret.
  - intros ->. done.
Qed.
Lemma evals_extend_present a l :
  static a = G -> Forall (fun b => b <> 0 -> 0 <= b < g_nblk G) l ->
  evals (Dev := Dev) (extend_present l) a (Ok (l ≫= array_of (e2_device a))) a.
Proof using HG HL.
  intros Hs. induction 1 as [|b l Hb _ IH]; [apply evals_ret|]. cbn [extend_present]. rewrite bind_cons.
  eapply evals_bind; [by apply evals_array|]. eapply evals_bind; [exact IH|]. apply evals_ret.
Qed.

Lemma table_range a ino s : file_ok G a ino -> valid G s -> val G (e2_device a) ino s <> 0 -> 0 <= val G (e2_device a) ino s < g_nblk G.
Proof using HG. intros Hf Hv Hne. destruct (fo_good _ _ _ Hf s Hv Hne) as ([? ?] & _). destruct HG. lia. Qed.

Lemma evals_collect a ino :
  file_ok G a ino -> i_block ino !!! 14%nat = 0 ->
  evals (Dev := Dev) (file_collect_data_blocks ino) a (Ok (blocks_of (e2_device a) ino)) a.
Proof using HG HL.
  intros Hf H14. pose proof (fo_vol _ _ _ Hf) as Hvol. pose proof (vo_static _ _ Hvol) as Hs.
  pose proof (static_fields G a Hs) as (_ & _ & _ & _ & _ & Hl).
  pose proof (ino_block _ (fo_ino _ _ _ Hf)) as Hlen. unfold file_collect_data_blocks, ptr_at.
  assert (forall k, (k < 15)%nat -> i_block ino !! k = Some (i_block ino !!! k)) as Hlk.
  { intros k Hk. apply list_lookup_lookup_total_lt. lia. }
  rewrite !Hlk by lia. eapply evals_bind; [apply evals_lift|].
  eapply evals_bind; [apply evals_array; [done|apply (table_range a ino Tab1 Hf I)]|].
  eapply evals_bind; [apply evals_lift|]. eapply evals_bind.
  { eapply evals_if_present with (r := Ok (array_of (e2_device a) (i_block ino !!! 13%nat) ≫= array_of (e2_device a)));
      [done|apply (table_range a ino Tab2 Hf I)| |].
    - intros Hne. unfold array_of at 2. rewrite (proj2 (Z.eqb_neq _ _)) by done. apply evals_extend_present; [done|].
      apply Forall_lookup. intros k b Hb Hb0. pose proof (table_range a ino Tab2 Hf I Hne) as Hr2.
      assert (k < ppb G)%nat as Hk by (apply lookup_lt_Some in Hb; by rewrite (table_length G HG) in Hb).
      assert (val G (e2_device a) ino (Tab3 k) = b) as Hv3.
      { cbn. unfold entry. rewrite (proj2 (Z.eqb_neq _ _)) by done. by apply list_lookup_total_correct. }
      pose proof (table_range a ino (Tab3 k) Hf Hk) as Hr3. rewrite Hv3 in Hr3. by apply Hr3.
    - intros ->. done. }
  eapply evals_bind; [apply evals_lift|]. rewrite H14. eapply evals_bind; [apply evals_ret|].
  rewrite app_nil_r. apply evals_ret.
Qed.

(** Block [i] is where its index says: nothing before it is absent. *)
Definition no_gap (cs : bytes) (ino : Ext2Inode) (i : nat) : Prop :=
  (i < 12)%nat \/
  (i_block ino !!! 12%nat <> 0 /\ (i < 12 + ppb G)%nat) \/
  (i_block ino !!! 12%nat <> 0 /\ i_block ino !!! 13%nat <> 0 /\ (i < max_blocks G)%nat /\
   forall k, (k <= (i - 12 - ppb G) / ppb G)%nat -> val G cs ino (Tab3 k) <> 0).

Lemma lookup_arrays cs l q r :
  (q < length l)%nat -> (r < ppb G)%nat -> (forall k, (k <= q)%nat -> length (array_of cs (l !!! k)) = ppb G) ->
  (l ≫= array_of cs) !! (q * ppb G + r)%nat = array_of cs (l !!! q) !! r.
Proof using.
  revert q. induction l as [|b l IH]; intros q Hq Hr Hlen; [cbn in Hq; lia|]. rewrite bind_cons.
  pose proof (Hlen 0%nat ltac:(lia)) as H0. cbn in H0. destruct q as [|q].
  - cbn. rewrite lookup_app_l by lia. done.
  - rewrite lookup_app_r by lia. rewrite H0. replace (S q * ppb G + r - ppb G)%nat with (q * ppb G + r)%nat by lia.
    apply IH; [cbn in Hq; lia|done|]. intros k Hk. apply (Hlen (S k)). lia.
Qed.

Lemma blocks_of_lookup a ino i :
  file_ok G a ino -> no_gap (e2_device a) ino i -> blocks_of (e2_device a) ino !! i = Some (bmap G (e2_device a) ino i).
Proof using HG.
  intros Hf Hg. pose proof (fo_vol _ _ _ Hf) as Hvol. pose proof (static_fields G a (vo_static _ _ Hvol)) as (_ & _ & _ & _ & _ & Hl).
  pose proof (ino_block _ (fo_ino _ _ _ Hf)) as Hlen. pose proof (ppb_pos G HG) as Hp.
  assert (forall s, valid G s -> val G (e2_device a) ino s <> 0 -> length (array_of (e2_device a) (val G (e2_device a) ino s)) = ppb G) as Hal.
  { intros s Hv Hne. unfold array_of. rewrite (proj2 (Z.eqb_neq _ _)) by done. apply (table_length G HG); [done|by apply table_range]. }
  assert (forall t i, valid G t -> val G (e2_device a) ino t <> 0 -> (i < ppb G)%nat ->
    array_of (e2_device a) (val G (e2_device a) ino t) !! i = Some (entry G (e2_device a) (val G (e2_device a) ino t) i)) as Hen.
  { intros t j Hv Hne Hj. pose proof (Hal t Hv Hne) as Hlt. unfold array_of, entry in *.
    rewrite (proj2 (Z.eqb_neq _ _)) in * by done. apply list_lookup_lookup_total_lt. lia. }
  unfold blocks_of, bmap, slot_of. destruct (decide (i < 12)%nat) as [H12|H12].
  { rewrite lookup_app_l by (rewrite length_take; lia). rewrite lookup_take_lt by done. apply list_lookup_lookup_total_lt. lia. }
  rewrite lookup_app_r by (rewrite length_take; lia). rewrite length_take, Hlen. change (12 `min` 15)%nat with 12%nat.
  assert (i_block ino !!! 12%nat <> 0) as Hb12 by (destruct Hg as [?|[[? _]|[? _]]]; [lia|done..]).
  destruct (decide (i - 12 < ppb G)%nat) as [H1|H1].
  { pose proof (Hal Tab1 I Hb12). rewrite lookup_app_l by (cbn [val] in *; lia). by apply (Hen Tab1). }
  destruct Hg as [?|[[_ ?]|(_ & Hb13 & Hmax & Htab)]]; [lia|lia|].
  pose proof (Hal Tab1 I Hb12) as Ha1. cbn [val] in Ha1. rewrite lookup_app_r by lia. rewrite Ha1.
  set (j := (i - 12 - ppb G)%nat) in *.
  assert (j / ppb G < ppb G)%nat as Hq by (unfold max_blocks in Hmax; apply Nat.Div0.div_lt_upper_bound; lia).
  pose proof (Nat.mod_upper_bound j (ppb G) ltac:(lia)) as Hr. pose proof (Nat.div_mod j (ppb G) ltac:(lia)) as Hdm.
  pose proof (Hal Tab2 I Hb13) as Ha2. cbn [val] in Ha2.
  assert (forall k, (k < ppb G)%nat -> array_of (e2_device a) (i_block ino !!! 13%nat) !!! k = val G (e2_device a) ino (Tab3 k)) as H3.
  { intros k Hk. apply list_lookup_total_correct. by apply (Hen Tab2). }
  rewrite Hdm at 1. rewrite Nat.mul_comm, lookup_arrays; [|by rewrite Ha2|done|].
  - rewrite H3 by done. apply (Hen (Tab3 (j / ppb G))); [done|by apply Htab|done].
  - intros k Hk. rewrite H3 by lia. apply (Hal (Tab3 k)); [cbn; lia|by apply Htab].
Qed.

(** Bytes [o] up to [o + n] of the file. *)
Definition fbytes (cs : bytes) (ino : Ext2Inode) (o n : nat) : bytes := fbyte G cs ino <$> seq o n.

Lemma chunk_bytes a ino i off n :
  file_ok G a ino -> (i < max_blocks G)%nat -> (off + n <= bsn G)%nat ->
  (let b := bmap G (e2_device a) ino i in if b =? 0 then replicate n 0 else sub_bytes off n (blk G (e2_device a) b)) =
  fbytes (e2_device a) ino (i * bsn G + off) n.
Proof using HG.
  intros Hf Hi Hn. pose proof (fo_vol _ _ _ Hf) as Hvol. pose proof (static_fields G a (vo_static _ _ Hvol)) as (_ & _ & _ & _ & _ & Hl).
  pose proof (bsn_pos G HG). apply list_eq. intros j. unfold fbytes. rewrite list_lookup_fmap.
  destruct (decide (j < n)%nat) as [Hj|Hj].
  - rewrite lookup_seq_lt by done. cbn [fmap option_fmap option_map].
    destruct (proj1 (split_pos G HG i (off + j) (i * bsn G + off + j) ltac:(lia)) ltac:(lia)) as [Hdiv Hmod].
    unfold fbyte, held. rewrite Hdiv, Hmod. destruct (Z.eqb_spec (bmap G (e2_device a) ino i) 0) as [|Hne].
    + by rewrite lookup_replicate_2.
    + rewrite lookup_sub_bytes, decide_True by done. apply list_lookup_lookup_total_lt.
      destruct (slot_of_valid G HG i Hi) as [Hv _].
      rewrite (blk_length G HG); [fold (bsn G); lia|done|by apply (table_range a ino (slot_of G i))].
  - rewrite lookup_seq_ge by lia. apply lookup_ge_None. cbn.
    destruct (_ =? 0); [rewrite length_replicate; lia|]. unfold sub_bytes. rewrite length_take. lia.
Qed.

Lemma ext_read_loop_ok fuel o n acc a ino :
  file_ok G a ino -> (forall p, (o <= p < o + n)%nat -> no_gap (e2_device a) ino (p / bsn G)) ->
  (o + n <= max_blocks G * bsn G)%nat -> (n < fuel)%nat ->
  evals (Dev := Dev) (ext_read_loop fuel (blocks_of (e2_device a) ino) (bsz G) (Z.of_nat (length acc + n)) (Z.of_nat o) acc)
    a (Ok (acc ++ fbytes (e2_device a) ino o n)) a.
Proof using HG HL.
  intros Hf. pose proof (vo_static _ _ (fo_vol _ _ _ Hf)) as Hs. pose proof (bsn_pos G HG) as Hbp.
  assert (bsz G = Z.of_nat (bsn G)) as Hbs by (pose proof (bsz_range G HG); unfold bsn; lia).
  pose proof (max_bytes G HG) as Hmb.
  revert o n acc. induction fuel as [|fuel IH]; intros o n acc Hgap Hmax Hfuel; [lia|]. cbn [ext_read_loop].
  destruct (Z.ltb_spec (Z.of_nat (length acc)) (Z.of_nat (length acc + n))) as [Hlt|Hge].
  2:{ assert (n = 0%nat) as -> by lia. rewrite app_nil_r. apply evals_ret. }
  rewrite Hbs. unfold udiv, urem. rewrite (proj2 (Z.eqb_neq (Z.of_nat (bsn G)) 0)) by lia.
  rewrite <-Nat2Z.inj_div, <-Nat2Z.inj_mod. do 2 (eapply evals_bind; [apply evals_lift|]). rewrite Nat2Z.id.
  pose proof (Nat.div_mod o (bsn G) ltac:(lia)) as Hdm. pose proof (Nat.mod_upper_bound o (bsn G) ltac:(lia)) as Hmod.
  rewrite (blocks_of_lookup a ino (o / bsn G) Hf) by (apply Hgap; lia).
  assert (o / bsn G < max_blocks G)%nat as Hi by (apply (index_bound G HG); lia).
  set (i := (o / bsn G)%nat) in *. set (off := (o mod bsn G)%nat) in *. set (m := Nat.min (bsn G - off) n).
  replace (Z.min _ _) with (Z.of_nat m) by lia.
  specialize (IH (o + m)%nat (n - m)%nat (acc ++ fbytes (e2_device a) ino o m)).
  assert (length (acc ++ fbytes (e2_device a) ino o m) = length acc + m)%nat as Hal.
  { rewrite length_app. unfold fbytes. by rewrite length_fmap, length_seq. }
  rewrite Hal, <-app_assoc in IH. replace (length acc + m + (n - m))%nat with (length acc + n)%nat in IH by lia.
  replace (fbytes (e2_device a) ino o m ++ fbytes (e2_device a) ino (o + m) (n - m)) with (fbytes (e2_device a) ino o n) in IH.
  2:{ unfold fbytes. rewrite <-fmap_app, <-seq_app. do 2 f_equal. lia. }
  pose proof (chunk_bytes a ino i off m Hf Hi ltac:(lia)) as Hcb. replace (i * bsn G + off)%nat with o in Hcb by lia. cbv zeta in Hcb.
  rewrite uadd_eq by lia. replace (Z.of_nat o + Z.of_nat m) with (Z.of_nat (o + m)) by lia. rewrite Nat2Z.id.
  assert (evals (Dev := Dev) (ext_read_loop fuel (blocks_of (e2_device a) ino) (Z.of_nat (bsn G)) (Z.of_nat (length acc + n)) (Z.of_nat (o + m))
    (acc ++ fbytes (e2_device a) ino o m)) a (Ok (acc ++ fbytes (e2_device a) ino o n)) a) as Hnext.
  { rewrite <-Hbs. apply IH; [|lia|lia]. intros p Hp. apply Hgap. lia. }
  destruct (Z.eqb_spec (bmap G (e2_device a) ino i) 0) as [Hz|Hnz].
  - eapply evals_bind; [apply evals_lift|]. rewrite Hcb. exact Hnext.
  - destruct (slot_of_valid G HG i Hi) as [Hv _].
    pose proof (table_range a ino (slot_of G i) Hf Hv Hnz) as Hr. fold (bmap G (e2_device a) ino i) in Hr.
    pose proof (blk_bound G HG _ Hr) as Hbb. eapply evals_bind; [by apply evals_block_offset|].
    rewrite uadd_eq by (destruct HG; lia). eapply evals_bind; [apply evals_lift|]. eapply evals_bind.
    { apply evals_read_from; [lia|]. pose proof (static_fields G a Hs) as (_ & _ & _ & _ & _ & ->). lia. }
    eapply evals_bind; [apply evals_lift|].
    replace (sub_bytes _ m (e2_device a)) with (fbytes (e2_device a) ino o m); [exact Hnext|].
    rewrite <-Hcb. unfold blk. rewrite sub_bytes_sub_bytes by (fold (bsn G); lia). unfold blk_start. f_equal. lia.
Qed.

(** What [read] leaves: only the inode's access time, on disk and in memory. *)
Record only_touched (a : Ext2FSInner bytes) (ino : Ext2Inode) (a' : Ext2FSInner bytes) (ino' : Ext2Inode) : Prop := {
  ot_file : file_ok G a' ino';
  ot_ino : ino' = ino \/ ino' = set_i_atime ino (wrap 32 now);
  ot_byte p : (p < max_blocks G * bsn G)%nat -> fbyte G (e2_device a') ino' p = fbyte G (e2_device a) ino p;
  ot_blk b : 0 <= b < g_nblk G -> ~ reserved G b -> blk G (e2_device a') b = blk G (e2_device a) b;
}.
Lemma only_touched_refl a ino : file_ok G a ino -> only_touched a ino a ino.
Proof using. intros Hf. split; [done|by left|done|done]. Qed.
Lemma touch_atime_ok k a ino :
  file_ok G a ino -> inode_valid G k ->
  exists a', fevals (Dev := Dev) (_ ← set_inode (fun ino => set_i_atime ino (wrap 32 now)); ignore_err (sync_this now k))
    ino a (Ok tt) (set_i_atime ino (wrap 32 now)) a' /\ only_touched a ino a' (set_i_atime ino (wrap 32 now)).
Proof using HG HL HY.
  intros Hf Hk. set (ino' := set_i_atime ino (wrap 32 now)).
  assert (ino_ok ino') as Hi by (destruct (fo_ino _ _ _ Hf); split; try done; by apply is_u_wrap).
  destruct (sync_inode_ok now G HG HY a k ino' (fo_vol _ _ _ Hf) Hk Hi) as (a' & He & Hsy).
  pose proof (file_ok_ino G a ino ino' Hf Hi eq_refl eq_refl) as Hf'.
  destruct (sync_keeps_file now G HG HY k ino' a a' Hk Hf' Hsy) as (Hf2 & _ & Hfb & Hblk & _).
  exists a'. split; [|split; [done|by right|done|done]].
  eapply fevals_bind; [apply (fevals_set (fun i => set_i_atime i _))|]. intros v Hv.
  destruct (He v Hv) as (v' & Hr & Hv'). exists v'. split; [|done].
  unfold ignore_err, sync_this, mbind, st_bind, this_inode, on_vol. cbn. fold ino'. by rewrite Hr.
Qed.

Lemma ext_file_read_ok a ino k o buf :
  file_ok G a ino -> inode_valid G k -> i_block ino !!! 14%nat = 0 ->
  let n := Z.to_nat (Z.min (Z.of_nat (length buf)) (i_size ino - Z.of_nat o)) in
  (o + n <= max_blocks G * bsn G)%nat -> (forall p, (o <= p < o + n)%nat -> no_gap (e2_device a) ino (p / bsn G)) ->
  exists ino' a', fevals (Dev := Dev) (ext_file_read now k (Z.of_nat o) buf) ino a
      (Ok (Z.of_nat n, fbytes (e2_device a) ino o n ++ drop n buf)) ino' a' /\ only_touched a ino a' ino'.
Proof using HG HL HY.
  intros Hf Hk H14 n Hmax Hgap. pose proof (vo_static _ _ (fo_vol _ _ _ Hf)) as Hs. unfold ext_file_read.
  destruct (Z.leb_spec (i_size ino) (Z.of_nat o)) as [Hle|Hlt].
  { assert (n = 0%nat) as -> by lia. exists ino, a. split; [|by apply only_touched_refl].
    eapply fevals_bind; [apply fevals_this|]. rewrite (proj2 (Z.leb_le _ _)) by done. apply fevals_ret. }
  destruct (decide (n = 0%nat)) as [Hn0|Hn0].
  { rewrite Hn0. exists ino, a. split; [|by apply only_touched_refl].
    eapply fevals_bind; [apply fevals_this|]. rewrite (proj2 (Z.leb_gt _ _)) by done.
    eapply fevals_bind; [by apply fevals_vol, evals_block_size|]. rewrite (proj2 (Z.eqb_eq _ _)) by lia. apply fevals_ret. }
  pose proof (ext_read_loop_ok (length buf + 1) o n [] a ino Hf Hgap Hmax ltac:(lia)) as Hloop. cbn [length Nat.add app] in Hloop.
  assert (length (fbytes (e2_device a) ino o n) = n) as Hfl by (unfold fbytes; by rewrite length_fmap, length_seq).
  assert (exists ino' a', (forall v, abs v = a -> fevals (Dev := Dev)
    (if Nat.ltb 0 (length (fbytes (e2_device a) ino o n)) && negb (e2_read_only v) then
      _ ← set_inode (fun ino => set_i_atime ino (wrap 32 now)); ignore_err (sync_this now k) else mret tt) ino a (Ok tt) ino' a') /\
    only_touched a ino a' ino') as (ino' & a' & He & Ht).
  { rewrite Hfl, (proj2 (Nat.ltb_lt 0 n)) by lia. destruct (e2_read_only a) eqn:Hro.
    - exists ino, a. split; [|by apply only_touched_refl]. intros v Hv. rewrite (abs_read_only _ _ Hv), Hro. apply fevals_ret.
    - destruct (touch_atime_ok k a ino Hf Hk) as (a' & He & Ht). eexists _, a'. split; [|exact Ht]. intros v Hv.
      rewrite (abs_read_only _ _ Hv), Hro. exact He. }
  exists ino', a'. split; [|done]. eapply fevals_bind; [apply fevals_this|]. rewrite (proj2 (Z.leb_gt _ _)) by done.
  eapply fevals_bind; [by apply fevals_vol, evals_block_size|]. rewrite (proj2 (Z.eqb_neq _ _)) by lia.
  eapply fevals_bind; [by apply fevals_vol, evals_collect|].
  replace (Z.min _ _) with (Z.of_nat n) by lia. eapply fevals_bind; [by apply fevals_vol|].
  apply fevals_get. intros v Hv. eapply fevals_bind; [by apply He|]. rewrite Hfl. apply fevals_ret.
Qed.

(** Reading at [o], when no absent table comes before the blocks that are read, returns the
    bytes of the file from [o] on, as many as fit the buffer and lie before the end of the
    file; the rest of the buffer keeps its bytes, no byte of the file changes, and no block
    outside the metadata. *)
Theorem ext2_file_read v ino k o buf :
  file_ok G (abs v) ino -> inode_valid G k -> i_block ino !!! 14%nat = 0 ->
  let n := Z.to_nat (Z.min (Z.of_nat (length buf)) (i_size ino - Z.of_nat o)) in
  (o + n <= max_blocks G * bsn G)%nat ->
  (forall p, (o <= p < o + n)%nat -> no_gap (contents (e2_device v)) ino (p / bsn G)) ->
  exists ino' v', ext_file_read now k (Z.of_nat o) buf (ino, v) =
      (Ok (Z.of_nat n, fbytes (contents (e2_device v)) ino o n ++ drop n buf), (ino', v')) /\
    only_touched (abs v) ino (abs v') ino'.
Proof using HG HL HY.
  intros Hf Hk H14 n Hmax Hgap. destruct (ext_file_read_ok (abs v) ino k o buf Hf Hk H14 Hmax Hgap) as (ino' & a' & He & Ht).
  destruct (He v eq_refl) as (v' & Hr & <-). eauto.
Qed.

(** Direct blocks, and blocks of a first table that is there, are never behind a gap. *)
Lemma single_no_gap cs ino i : (i < 12 + ppb G)%nat -> bmap G cs ino i <> 0 -> no_gap cs ino i.
Proof using.
  intros Hi Hne. destruct (decide (i < 12)%nat); [by left|]. right. left. split; [|done]. intros H0. apply Hne.
  unfold bmap, slot_of. rewrite decide_False, decide_True by lia. cbn. by rewrite H0.
Qed.

(** C39: what was written is read back: after a successful write of a non-empty [buf] at [o]
    to a writable volume, inside the direct blocks and the first level of indirection and
    below 4 GiB, in a file with no table of three levels, reading as many bytes at [o] returns
    [buf]; the write fails only by using up the free blocks.  The volume has blocks above
    1 KiB or superblocks in group 0 only ([lo_copies] of [layout_ok]). *)
Theorem ext2_write_then_read v ino k o buf :
  file_ok G (abs v) ino -> inode_valid G k -> e2_read_only v = false -> i_block ino !!! 14%nat = 0 ->
  (o + length buf <= (12 + ppb G) * bsn G)%nat -> Z.of_nat (o + length buf) < 2 ^ 32 -> Forall is_byte buf ->
  (0 < length buf)%nat ->
  exists r ino1 v1, ext_file_write now k (Z.of_nat o) buf (ino, v) = (r, (ino1, v1)) /\
    (r = Err (Other "No free blocks available") /\ sb_free_blocks (e2_superblock v1) = 0 \/
     exists ino2 v2, ext_file_read now k (Z.of_nat o) (replicate (length buf) 0) (ino1, v1) =
       (Ok (Z.of_nat (length buf), buf), (ino2, v2))).
Proof using HG HL HY.
  intros Hf Hk Hro H14 Hmax H32 Hby Hpos. pose proof (bsn_pos G HG).
  assert ((12 + ppb G) * bsn G <= max_blocks G * bsn G)%nat by (apply Nat.mul_le_mono_r; unfold max_blocks; lia).
  destruct (ext_file_write_ok now G HG HY (abs v) ino k o buf Hf Hk Hro ltac:(lia) H32 Hby Hpos) as (r & m & ino1 & a1 & He & Hm & Hw & Hr).
  destruct (He v eq_refl) as (v1 & Hrun & <-). exists r, ino1, v1. split; [done|].
  destruct Hr as [(-> & -> & Hsz & Hi14 & _)|(-> & _ & Hz)]; [right|by left]. rewrite take_ge in Hw by lia.
  pose proof (ext_file_read_ok (abs v1) ino1 k o (replicate (length buf) 0) (fw_file _ _ _ _ _ _ _ Hw) Hk) as Hread.
  cbv zeta in Hread. rewrite length_replicate in Hread.
  replace (Z.to_nat (Z.min (Z.of_nat (length buf)) (i_size ino1 - Z.of_nat o))) with (length buf) in Hread by lia.
  destruct Hread as (ino2 & a2 & He2 & _); [by rewrite Hi14|lia| |].
  { intros p Hp. apply single_no_gap; [apply Nat.Div0.div_lt_upper_bound; lia|]. by apply (fw_in _ _ _ _ _ _ _ Hw). }
  destruct (He2 v1 eq_refl) as (v2 & Hrun2 & _). exists ino2, v2. rewrite Hrun2. do 3 f_equal.
  rewrite drop_ge, app_nil_r by (by rewrite length_replicate). apply list_eq. intros j. unfold fbytes. rewrite list_lookup_fmap.
  destruct (decide (j < length buf)%nat) as [Hj|Hj].
  - rewrite lookup_seq_lt by done. cbn. destruct (fw_in _ _ _ _ _ _ _ Hw (o + j) ltac:(lia)) as [_ Hfb].
    change (contents (e2_device v1)) with (e2_device (abs v1)). rewrite Hfb. replace (o + j - o)%nat with j by lia.
    symmetry. by apply list_lookup_lookup_total_lt.
  - rewrite lookup_seq_ge by lia. symmetry. apply lookup_ge_None. lia.
Qed.
End Read.
