(* ===== verification/Ext2Sample.v ===== *)
(** * A small ext2 volume

    A volume of 40 blocks of 1 KiB in one group, with a root directory that holds one file
    of five bytes: the hypotheses of the theorems on ext2 hold for it, and runs on it show
    where the file system goes wrong. *)
From S2P Require Import Prelude OpenFile Bytes BlockDev Ext2 Ext2Fs Ext2Blocks Ext2Meta Ext2Data Ext2File.

Definition zero_bytes (n : nat) : bytes := replicate n 0.
Definition pad_to (n : nat) (bs : bytes) : bytes := bs ++ zero_bytes (n - length bs).

Definition root_inode : Ext2Inode :=
  mkIno 0x41ED 0 1024 0 0 0 0 0 2 2 0 0 (6 :: replicate 14 0) 0 0 0 0 (replicate 12 0).
(** The root directory has one entry, for the file "a" with inode 3. *)
Definition root_block : bytes := pad_to 1024 ([3; 0; 0; 0; 0; 4; 1; 1; 97]).
(** Blocks 1 to 7 are in use; there is no block 40. *)
Definition block_bitmap : bytes := [0x7F; 0; 0; 0; 0x80] ++ replicate 1019 0xFF.
Definition image : bytes :=
  zero_bytes 1024 ++ Ext2Superblock_serialize sample_superblock ++ pad_to 1024 (Bgd_serialize sample_bgd) ++ block_bitmap ++
  pad_to 1024 [0x07] ++
  pad_to 1024 (zero_bytes 128 ++ Ext2Inode_serialize root_inode ++ Ext2Inode_serialize sample_inode) ++
  root_block ++ pad_to 1024 [104; 101; 108; 108; 111] ++ zero_bytes (32 * 1024).
Definition small_volume : Ext2FSInner MemDisk := mkExt2 (mkMemDisk image 0) 0 sample_superblock [sample_bgd] false.
Definition small_geometry : Geometry := mkGeo 0 0 1 8192 40 8 128 1 [3] [4] [5] false (Z.to_nat 40960).

Lemma small_bsz : bsz small_geometry = 1024.
Proof. reflexivity. Qed.
Lemma small_geom_ok : geom_ok small_geometry.
Proof.
  split; rewrite ?small_bsz; cbn [g_log g_po g_fdb g_bpg g_nblk g_len g_bms small_geometry length]; rewrite ?Z2Nat.id by lia; try lia.
  - reflexivity.
  - by apply Forall_singleton.
  - apply NoDup_singleton.
Qed.
Lemma image_length : length image = Z.to_nat 40960.
Proof.
  assert (Z.of_nat (length image) = 40960) as Hl by (vm_compute; reflexivity). rewrite <-Hl. by rewrite Nat2Z.id.
Qed.
Lemma small_static : static (abs small_volume) = small_geometry.
Proof. unfold static. change (e2_device (abs small_volume)) with image. rewrite image_length. reflexivity. Qed.
Lemma small_bitmap : bitmap small_geometry image 0 = block_bitmap.
Proof. vm_compute. reflexivity. Qed.
Lemma image_bytes : Forall is_byte image.
Proof.
  apply Forall_forall. intros x Hx. assert (forallb (fun x => (0 <=? x) && (x <? 256)) image = true) as Hall by (vm_compute; reflexivity).
  rewrite forallb_forall in Hall. apply list_elem_of_In in Hx. specialize (Hall x Hx). apply andb_true_iff in Hall as [?%Z.leb_le ?%Z.ltb_lt]. by split.
Qed.
Lemma list_filter_nil {A} (f : A -> bool) l : (forall x, In x l -> f x = false) -> List.filter f l = [].
Proof. induction l as [|x l IH]; intros Hf; [done|]. cbn. rewrite (Hf x) by (by left). apply IH. intros y Hy. apply Hf. by right. Qed.
(** Full bytes at the end of a bitmap add no free bit. *)
Lemma bit_app_l bm bm' i : (i < 8 * length bm)%nat -> bit (bm ++ bm') i = bit bm i.
Proof. intros Hi. unfold bit. rewrite lookup_app_l; [done|]. apply Nat.Div0.div_lt_upper_bound. lia. Qed.
Lemma bit_app_full bm n i : (8 * length bm <= i)%nat -> bit (bm ++ replicate n 0xFF) i = true.
Proof.
  intros Hi. unfold bit. rewrite lookup_app_r by (by apply Nat.div_le_lower_bound; [|lia]).
  destruct (replicate n 255 !! _) as [x|] eqn:Hx; [|done]. apply lookup_replicate in Hx as [-> _].
  pose proof (Nat.mod_upper_bound i 8 ltac:(lia)). change 255 with (Z.ones 8). apply Z.ones_spec_low. lia.
Qed.
Lemma free_bits_app_full bm n : free_bits (bm ++ replicate n 0xFF) = free_bits bm.
Proof.
  unfold free_bits, clear_bits. rewrite length_app, Nat.mul_add_distr_l, seq_app, List.filter_app, length_app. cbn [plus].
  replace (List.filter _ (seq (8 * length bm) _)) with (@nil nat).
  - rewrite Nat.add_0_r. f_equal. apply filter_ext_in. intros i [_ Hi]%in_seq. by rewrite bit_app_l by lia.
  - symmetry. apply list_filter_nil. intros i [Hi _]%in_seq. by rewrite bit_app_full.
Qed.
Lemma small_padded : padded small_geometry 0 block_bitmap.
Proof.
  intros i Hi Hout. unfold block_bitmap. cbn [g_bpg g_nblk g_fdb small_geometry] in Hout.
  destruct (decide (8 * 5 <= i)%nat); [by apply bit_app_full|]. assert (i = 39)%nat as -> by lia. reflexivity.
Qed.
Lemma small_vol_ok : vol_ok small_geometry (abs small_volume).
Proof.
  split.
  - exact small_static.
  - exact sample_superblock_ok.
  - apply Forall_singleton, sample_bgd_ok.
  - exact image_bytes.
  - intros [|g] Hg; [|cbn in Hg; lia]. change (e2_device (abs small_volume)) with image. rewrite small_bitmap. exact small_padded.
  - intros [|g] d Hd; [|done]. injection Hd as <-. change (e2_device (abs small_volume)) with image. rewrite small_bitmap.
    unfold block_bitmap. by rewrite free_bits_app_full.
  - reflexivity.
Qed.

(** Blocks 1 and 2 hold the superblock and the descriptors, block 5 the inodes. *)
Lemma small_sync_block b : sync_block small_geometry b <-> b = 1 \/ b = 2.
Proof.
  unfold sync_block. change (backup_groups small_geometry) with [0]. rewrite small_bsz.
  change (SUPERBLOCK_OFFSET / 1024) with 1. change (bgdt_block small_geometry) with 2.
  change ((32 * Z.of_nat (length (g_bms small_geometry)) + 1024 - 1) / 1024) with 1.
  split; [intros [?|[(g & ->%list_elem_of_singleton & ? & _)|?]]; [by left|done|right; lia]|]. intros [->| ->]; [by left|right; right; lia].
Qed.
Lemma small_in_table t b : in_table small_geometry t b <-> b = t.
Proof. unfold in_table. change ((g_ipg _ * g_isz _ + bsz _ - 1) / bsz _) with 1. lia. Qed.
Lemma small_table_block b : table_block small_geometry b <-> b = 5.
Proof.
  unfold table_block. split.
  - intros ([|g] & t & Ht & ->%small_in_table); [by injection Ht as <-|done].
  - intros ->. exists 0%nat, 5. by rewrite small_in_table.
Qed.
Lemma small_layout_ok : layout_ok small_geometry.
Proof.
  split; try done.
  - intros b [->| ->]%small_sync_block; (split; [cbn; lia|]); by intros ?%list_elem_of_singleton.
  - intros b ->%small_table_block. split; [cbn; lia|]. split; [by intros ?%list_elem_of_singleton|]. rewrite small_sync_block. lia.
  - by left.
  - change (backup_groups small_geometry) with [0]. by intros g ->%list_elem_of_singleton.
  - change (backup_groups small_geometry) with [0]. by intros g ->%list_elem_of_singleton.
  - intros g h t u b Hg Hh. destruct g, h; done.
Qed.

Lemma small_used b : 1 <= b <= 7 -> used small_geometry image b = true.
Proof.
  intros Hb. unfold used. change (g_fdb small_geometry) with 1. change (g_bpg small_geometry) with 8192.
  rewrite Z.div_small, Z.mod_small by lia. change (Z.to_nat 0) with 0%nat. rewrite small_bitmap.
  assert (b = 1 \/ b = 2 \/ b = 3 \/ b = 4 \/ b = 5 \/ b = 6 \/ b = 7) as Hc by lia.
  by destruct Hc as [->|[->|[->|[->|[->|[->| ->]]]]]].
Qed.
Lemma small_val s : valid small_geometry s -> val small_geometry image sample_inode s <> 0 ->
  s = Dir 0 /\ val small_geometry image sample_inode s = 7.
Proof.
  destruct s as [i| | | | |]; try done. cbn [valid val]. intros Hi Hne. destruct i as [|i]; [done|]. exfalso. apply Hne.
  do 11 (destruct i as [|i]; [done|]). lia.
Qed.
Lemma small_file_ok : file_ok small_geometry (abs small_volume) sample_inode.
Proof.
  split; change (e2_device (abs small_volume)) with image.
  - exact small_vol_ok.
  - intros b [->%list_elem_of_singleton|[[->| ->]%small_sync_block| ->%small_table_block]] _; by apply small_used.
  - exact sample_inode_ok.
  - intros s Hs Hne. destruct (small_val s Hs Hne) as [_ ->]. split; [by cbn|]. split; [by apply small_used|].
    intros [?%list_elem_of_singleton|[[?|?]%small_sync_block|?%small_table_block]]; done.
  - intros s s' Hs Hs' Hne Heq. destruct (small_val s Hs Hne) as [-> _]. rewrite Heq in Hne. by destruct (small_val s' Hs' Hne) as [-> _].
  - by vm_compute.
Qed.

Lemma ext2_allocate_block_witness :
  vol_ok small_geometry (abs small_volume) /\
  exists r v', allocate_block small_volume = (r, v') /\ vol_ok small_geometry (abs v').
Proof.
  split; [exact small_vol_ok|].
  destruct (ext2_allocate_block small_geometry small_geom_ok small_volume small_vol_ok) as (r & v' & Hr & Hv & _). eauto.
Defined.
Lemma ext2_free_block_witness :
  used small_geometry image 7 = true /\
  exists v', free_block 7 small_volume = (Ok tt, v') /\ vol_ok small_geometry (abs v').
Proof.
  split; [by apply small_used|].
  destruct (ext2_free_block small_geometry small_geom_ok small_volume 7 small_vol_ok) as (v' & Hr & Hv & _);
    [by cbn|by apply small_used|]. eauto.
Defined.
Lemma ext2_inode_stored_witness :
  inode_valid small_geometry 3 /\
  exists v', sync_inode 0 sample_inode 3 small_volume = (Ok tt, v') /\ vol_ok small_geometry (abs v').
Proof.
  split; [by cbn|].
  destruct (ext2_inode_stored 0 small_geometry small_geom_ok small_layout_ok small_volume 3 sample_inode small_vol_ok) as (v' & Hr & Hv & _);
    [by cbn|exact sample_inode_ok|]. eauto.
Defined.
Lemma ext2_remount_witness :
  Ext2Superblock_validate sample_superblock = Ok tt /\
  exists v' w, sync_superblock 0 small_volume = (Ok tt, v') /\ Ext2_mount 1 (e2_device v') 0 = Ok w.
Proof.
  split; [reflexivity|].
  destruct (ext2_remount small_geometry small_geom_ok small_layout_ok 0 1 small_volume small_vol_ok) as (v' & w & Hr & Hm & _);
    [reflexivity|reflexivity|]. eauto.
Defined.
Lemma ext2_file_write_witness :
  file_ok small_geometry (abs small_volume) sample_inode /\
  exists r n ino' v', ext_file_write 0 3 2 [65; 66] (sample_inode, small_volume) = (r, (ino', v')) /\
    file_written small_geometry 2 (take n [65; 66]) (abs small_volume) sample_inode (abs v') ino'.
Proof.
  split; [exact small_file_ok|].
  destruct (ext2_file_write 0 small_geometry small_geom_ok small_layout_ok small_volume sample_inode 3 2 [65; 66] small_file_ok)
    as (r & n & ino' & v' & Hr & _ & Hw & _); [by cbn|change (bsn small_geometry) with (Z.to_nat 1024); unfold max_blocks; cbn [length]; lia
    |by cbn|by repeat constructor|]. eauto 10.
Defined.
Lemma ext2_file_read_witness :
  file_ok small_geometry (abs small_volume) sample_inode /\
  exists bs ino' v', ext_file_read 0 3 1 (replicate 8 0) (sample_inode, small_volume) =
    (Ok (4, bs ++ drop 4 (replicate 8 0)), (ino', v')).
Proof.
  split; [exact small_file_ok|].
  destruct (ext2_file_read 0 small_geometry small_geom_ok small_layout_ok small_volume sample_inode 3 1 (replicate 8 0) small_file_ok)
    as (ino' & v' & Hr & _); [by cbn|reflexivity|change (bsn small_geometry) with (Z.to_nat 1024); unfold max_blocks; cbn [length]; cbn; lia| |eauto].
  intros p Hp. left. apply Nat.Div0.div_lt_upper_bound. change (bsn small_geometry) with (Z.to_nat 1024). cbn in Hp. lia.
Defined.
Lemma ext2_write_then_read_witness :
  file_ok small_geometry (abs small_volume) sample_inode /\
  exists r ino1 v1, ext_file_write 0 3 2 [65; 66] (sample_inode, small_volume) = (r, (ino1, v1)).
Proof.
  split; [exact small_file_ok|].
  destruct (ext2_write_then_read 0 small_geometry small_geom_ok small_layout_ok small_volume sample_inode 3 2 [65; 66] small_file_ok)
    as (r & ino1 & v1 & Hr & _); [by cbn|reflexivity|reflexivity|change (bsn small_geometry) with (Z.to_nat 1024); cbn [length]; lia
    |by cbn|by repeat constructor|cbn; lia|]. eauto.
Defined.

(** A volume of three groups of 16 blocks of 2 KiB, all with a superblock: the copies lie in
    blocks 16 and 32, and the areas are where [layout_ok] wants them. *)
Definition groups_geometry : Geometry := mkGeo 0 1 0 16 48 8 128 0 [2; 18; 34] [3; 19; 35] [4; 20; 36] false (Z.to_nat 98304).
Example groups_layout_ok : layout_ok groups_geometry /\ backup_groups groups_geometry = [0; 1; 2] /\
  sync_block groups_geometry 16 /\ sync_block groups_geometry 32.
Proof.
  assert (backup_groups groups_geometry = [0; 1; 2]) as Hg by reflexivity.
  assert (forall b, sync_block groups_geometry b <-> b = 0 \/ b = 1 \/ b = 16 \/ b = 32) as Hsync.
  { intros b. unfold sync_block. rewrite Hg. change (bsz groups_geometry) with 2048. change (SUPERBLOCK_OFFSET / 2048) with 0.
    change (bgdt_block groups_geometry) with 1. change ((32 * Z.of_nat (length (g_bms groups_geometry)) + 2048 - 1) / 2048) with 1.
    split.
    - intros [?|[(g & Hin & Hne & ->)|?]]; [lia| |lia]. rewrite !elem_of_cons in Hin. unfold first_block. cbn.
      destruct Hin as [->|[->|[->|Hin]]]; [done|lia|lia|by apply elem_of_nil in Hin].
    - intros [->|[->|[->| ->]]]; [by left|right; right; lia|right; left; exists 1|right; left; exists 2];
        (split; [set_solver|done]). }
  assert (forall g t b, g_its groups_geometry !! g = Some t -> in_table groups_geometry t b -> t = 4 + 16 * Z.of_nat g /\ b = t /\ (g < 3)%nat) as Htab.
  { intros g t b Ht. unfold in_table. change ((g_ipg _ * g_isz _ + bsz _ - 1) / bsz _) with 1. cbn in Ht.
    destruct g as [|[|[|g]]]; cbn in Ht; [injection Ht as <-..|done]; lia. }
  split; [|split; [done|split; apply Hsync; tauto]]. split; try done.
  - intros b Hb%Hsync. split; [cbn; lia|]. cbn. rewrite !elem_of_cons, elem_of_nil. lia.
  - intros b (g & t & Ht & Hb). destruct (Htab g t b Ht Hb) as (-> & -> & Hlt). split; [cbn; lia|]. split.
    + cbn. rewrite !elem_of_cons, elem_of_nil. lia.
    + rewrite Hsync. lia.
  - right. apply Hsync. by left.
  - intros g Hin Hne. rewrite Hg, !elem_of_cons, elem_of_nil in Hin. unfold first_block. change (bsz groups_geometry) with 2048.
    change (SUPERBLOCK_OFFSET / 2048) with 0. change (bgdt_block groups_geometry) with 1.
    change ((32 * Z.of_nat (length (g_bms groups_geometry)) + 2048 - 1) / 2048) with 1. cbn. lia.
  - intros g h t u b Ht Hu Hb Hb'. destruct (Htab g t b Ht Hb) as (-> & -> & _), (Htab h u _ Hu Hb') as (-> & ? & _). lia.
Qed.

(** ** Where the file system goes wrong *)

(** A byte written past the reach of an absent table is not read back: reading its place
    returns nothing. *)
Example ext2_sparse_byte_lost :
  match ext_file_write 0 3 (268 * 1024) [65] (sample_inode, small_volume) with
  | (Ok 1, iv) => fst (ext_file_read 0 3 (268 * 1024) [0] iv) = Ok (0, [0])
  | _ => False
  end.
Proof. vm_compute. reflexivity. Qed.

(** Truncating to 13 blocks frees block 13, which the table of the file still refers to. *)
Example ext2_truncate_keeps_pointer :
  match (_ ← ext_file_write 0 3 (12 * 1024) [65]; _ ← ext_file_write 0 3 (13 * 1024) [66]; ext_file_truncate 0 3 (13 * 1024))
          (sample_inode, small_volume) with
  | (Ok tt, (ino, v)) => let cs := md_bytes (e2_device v) in
      bmap small_geometry cs ino 13 = 10 /\ used small_geometry cs 10 = false
  | _ => False
  end.
Proof. vm_compute. by split. Qed.

(** Extending a file to 4 GiB leaves it empty. *)
Example ext2_extend_empties :
  match ext_file_truncate 0 3 (2 ^ 32) (sample_inode, small_volume) with
  | (Ok tt, (ino, _)) => i_size ino = 0
  | _ => False
  end.
Proof. vm_compute. reflexivity. Qed.

(** An inode that was opened before an append writes its old size back when it is read. *)
Example ext2_stale_inode :
  match ext_file_write 0 3 5 [65] (sample_inode, small_volume) with
  | (Ok 1, (_, v)) => match ext_file_read 0 3 0 [0] (sample_inode, v) with
      | (Ok _, (_, v)) => match read_inode "" 3 v with (Ok ino, _) => i_size ino = 5 | _ => False end
      | _ => False
      end
  | _ => False
  end.
Proof. vm_compute. reflexivity. Qed.

(** Removing a file panics on every writable volume. *)
Lemma ext2_unlink_panics {Dev} `{BlockDevice Dev} name (s : FsState (Ext2Fs Dev)) :
  e2_read_only (fs_inner (dev s)) = false -> fst (ext_dir_unlink name s) = Panic.
Proof.
  intros Hro. unfold ext_dir_unlink, on_volume, free_inode, block_size_v, Ext2Superblock_block_size, mbind, st_bind, st_get, st_lift.
  rewrite Hro. unfold ushl. by destruct (_ <? 32).
Qed.
