(* ===== verification/Disk.v ===== *)
(** * Mounting at boot (zenos-kernel/src/disk/mod.rs)

    The partitions of the disk, in the order of the table, are tried with each file system; the
    first one that is not called "boot" becomes the root. *)
From S2P Require Import Prelude PageAlloc Bytes Paging OpenFile BlockDev Gpt Vfs Fat FatFs Ext2 Ext2Fs.
#[local] Open Scope list_scope.
#[local] Open Scope string_scope.
#[local] Open Scope Z_scope.

(** ** Names of partitions *)
Definition REPLACEMENT : Z := 0xFFFD.
(** [String::from_utf16_lossy], as characters. *)
Fixpoint from_utf16_lossy (l : list Z) : list Z :=
  match l with
  | [] => []
  | u :: l =>
      if (u <? 0xD800) || (0xDFFF <? u) then u :: from_utf16_lossy l
      else if 0xDC00 <=? u then REPLACEMENT :: from_utf16_lossy l
      else match l with
           | w :: l' =>
               if (0xDC00 <=? w) && (w <=? 0xDFFF) then 0x10000 + (u - 0xD800) * 1024 + (w - 0xDC00) :: from_utf16_lossy l'
               else REPLACEMENT :: from_utf16_lossy l
           | [] => [REPLACEMENT]
           end
  end.
Definition utf8_of (c : Z) : list Z :=
  if c <? 0x80 then [c]
  else if c <? 0x800 then [0xC0 + c / 64; 0x80 + c mod 64]
  else if c <? 0x10000 then [0xE0 + c / 4096; 0x80 + c / 64 mod 64; 0x80 + c mod 64]
  else [0xF0 + c / 262144; 0x80 + c / 4096 mod 64; 0x80 + c / 64 mod 64; 0x80 + c mod 64].
Fixpoint trim_zeros (l : list Z) : list Z := match l with 0 :: l => trim_zeros l | _ => l end.
Definition trim_matches_0 (l : list Z) : list Z := reverse (trim_zeros (reverse (trim_zeros l))).
Definition label (e : GPTPartitionEntry) : string :=
  str_of_bytes (concat (utf8_of <$> trim_matches_0 (from_utf16_lossy (partition_name e)))).

(** ** The loops *)
Section Init.
Context {Dev F : Type} `{BlockDevice Dev}.
Abbreviation VFS := (list (string * F)).
Abbreviation dev := (st Dev BlockError).
(** The entries of [FILESYSTEMS]. *)
Context (systems : list (GPTPartitionEntry -> st Dev FsMountError F)).

Definition mount_unwrap (v : VFS) (path : string) (f : F) : dev VFS :=
  st_lift (match mount v path f with Ok v => Ok v | _ => Panic end).
(** The inner loop for one partition; the first result tells whether there is a root. *)
Fixpoint try_systems (l : list (GPTPartitionEntry -> st Dev FsMountError F)) (e : GPTPartitionEntry) (root_mounted : bool) (v : VFS) : dev (bool * VFS) :=
  match l with
  | [] => mret (root_mounted, v)
  | fsinit :: l =>
      res ← attempt (fsinit e);
      match res with
      | inr fs =>
          if negb root_mounted then
            if bool_decide (label e = "boot") then
              v ← mount_unwrap v "/boot" fs; mret (root_mounted, v)
            else
              v ← mount_unwrap v "/" fs; mret (true, v)
          else
            v ← mount_unwrap v ("/mnt/" ++ label e) fs;
            try_systems l e root_mounted v
      | inl _ => try_systems l e root_mounted v
      end
  end.
Fixpoint try_partitions (es : list GPTPartitionEntry) (root_mounted : bool) (v : VFS) : dev (bool * VFS) :=
  match es with
  | [] => mret (root_mounted, v)
  | e :: es => '(root_mounted, v) ← try_systems systems e root_mounted v; try_partitions es root_mounted v
  end.
Definition dev_unwrap {A} (m : dev A) : dev A := fun s => match m s with (Ok a, s) => (Ok a, s) | (_, s) => (Panic, s) end.
(** The mounts of a block device. *)
Definition mount_device (v : VFS) : dev VFS :=
  gpt ← dev_unwrap get_header;
  entries ← get_partition_entries gpt;
  entries ← st_lift (unwrap entries);
  '(_, v) ← try_partitions (List.filter is_used entries) false v;
  mret v.
(** [init] for the device that was found, if one was. *)
Definition disk_init (proc : F) (device : option Dev) (v : VFS) : outcome BlockError VFS * option Dev :=
  match device with
  | None => (match mount v "/proc" proc with Ok v => Ok v | _ => Panic end, None)
  | Some d =>
      let '(r, d) := (v ← mount_device v; mount_unwrap v "/proc" proc) d in (r, Some d)
  end.
End Init.

(** ** The file systems *)
Section Systems.
Context {Dev : Type} `{BlockDevice Dev} (now : Z).
Inductive Mounted := FatVolume (fs : FatFileSystemInner Dev) | Ext2Volume (fs : Ext2FSInner Dev) | ProcVolume.

Definition mount_fat (e : GPTPartitionEntry) : st Dev FsMountError Mounted :=
  if is_used e then
    offset ← st_lift (umul 64 (starting_lba e) 512);
    fat ← (FatFileSystem_mount offset : st Dev FsMountError (FatFileSystemInner Dev));
    mret (FatVolume fat)
  else st_lift Panic.
(** The volume and the loops share the device, so the device after the call is the volume's. *)
Definition ext2_at (offset : Z) : st Dev FsMountError Mounted := fun s =>
  match Ext2_mount now s offset with
  | Ok v => (Ok (Ext2Volume v), e2_device v)
  | Err err => (Err err, (mount_inner now offset s).2)
  | Panic => (Panic, s)
  end.
Definition mount_ext2 (e : GPTPartitionEntry) : st Dev FsMountError Mounted :=
  if is_used e then offset ← st_lift (umul 64 (starting_lba e) 512); ext2_at offset else st_lift Panic.
Definition FILESYSTEMS : list (GPTPartitionEntry -> st Dev FsMountError Mounted) := [mount_fat; mount_ext2].
End Systems.
Arguments Mounted : clear implicits.

(** ** What is mounted where *)
Section Table.
Context {F : Type}.
Implicit Types v : list (string * F).
Lemma get_fs_None v p : get_fs v p = None <-> p ∉ v.*1.
Proof.
  unfold get_fs. induction v as [|[q g] v IH]; cbn; [split; [intros _ Hp; inversion Hp|done]|].
  destruct (String.eqb_spec q p) as [->|Hne]; cbn; [split; [done|intros Hn; destruct Hn; left]|]. rewrite IH, not_elem_of_cons. naive_solver.
Qed.
Lemma insert_keys v p f : (vfs_insert p f v).*1 ≡ₚ p :: v.*1.
Proof.
  induction v as [|[q g] v IH]; cbn; [done|]. destruct (String.ltb p q); cbn; [done|]. rewrite IH. by rewrite Permutation_swap.
Qed.
Lemma mount_Ok v p f v' : mount v p f = Ok v' <-> p ∉ v.*1 /\ v' = vfs_insert p f v.
Proof.
  unfold mount. destruct (get_fs v p) eqn:Hg.
  - split; [done|]. intros [Hn _]. apply get_fs_None in Hn. congruence.
  - apply get_fs_None in Hg. naive_solver.
Qed.
End Table.

Section InitSpec.
Context {Dev F : Type} `{HB : BlockDevice Dev} (systems : list (GPTPartitionEntry -> st Dev FsMountError F)).
Implicit Types (v : list (string * F)) (s : Dev).

Lemma mount_unwrap_Ok v p f s v' s' : mount_unwrap (Dev := Dev) v p f s = (Ok v', s') <-> p ∉ v.*1 /\ v' = vfs_insert p f v /\ s' = s.
Proof.
  unfold mount_unwrap, st_lift. destruct (mount v p f) as [w| |] eqn:Hm.
  - apply mount_Ok in Hm as [? ->]. naive_solver.
  - split; [done|]. intros (Hn & -> & ->). pose proof (proj2 (mount_Ok v p f _) (conj Hn eq_refl)). congruence.
  - split; [done|]. intros (Hn & -> & ->). pose proof (proj2 (mount_Ok v p f _) (conj Hn eq_refl)). congruence.
Qed.

(** A table grows by mounts at the planned places. *)
Definition planned (es : list GPTPartitionEntry) (p : string) : Prop := p = "/" \/ p = "/boot" \/ exists e, e ∈ es /\ p = ("/mnt/" ++ label e)%string.
Record grows (es : list GPTPartitionEntry) v v' : Prop := {
  g_nodup : NoDup v.*1 -> NoDup v'.*1;
  g_keys p : p ∈ v'.*1 -> p ∈ v.*1 \/ planned es p;
  g_keep p f : get_fs v p = Some f -> get_fs v' p = Some f;
}.
Lemma grows_refl es v : grows es v v.
Proof. split; auto. Qed.
Lemma grows_trans es v1 v2 v3 : grows es v1 v2 -> grows es v2 v3 -> grows es v1 v3.
Proof. intros [A1 A2 A3] [B1 B2 B3]. split; [auto| |auto]. intros p Hp. destruct (B2 p Hp) as [Hp'|]; [|by right]. apply A2 in Hp' as [?|?]; auto. Qed.
Lemma grows_mono es es' v v' : es ⊆ es' -> grows es v v' -> grows es' v v'.
Proof. intros Hs [A1 A2 A3]. split; [done| |done]. intros p Hp. destruct (A2 p Hp) as [?|[?|[?|(e & He & ?)]]]; [by left|right..]; unfold planned; eauto 10. Qed.
Lemma grows_mount es v p f : p ∉ v.*1 -> planned es p -> grows es v (vfs_insert p f v).
Proof.
  intros Hn Hp. split.
  - intros Hv. rewrite insert_keys. by apply NoDup_cons.
  - intros q. rewrite insert_keys. intros [->|Hq]%elem_of_cons; auto.
  - intros q g Hq. rewrite get_fs_insert by (by apply get_fs_None). case_decide as E0; [|done]. subst q. apply get_fs_None in Hn. congruence.
Qed.

Lemma try_systems_grows l e : forall r v s r' v' s', try_systems l e r v s = (Ok (r', v'), s') -> grows [e] v v'.
Proof.
  induction l as [|i l IH]; intros r v s r' v' s' Hr; cbn [try_systems] in Hr; [injection Hr as <- <- <-; apply grows_refl|].
  apply st_bind_Ok in Hr as ([err|f] & s1 & _ & Hr); [by eapply IH|]. destruct r; cbn [negb] in Hr.
  - apply st_bind_Ok in Hr as (w & s2 & (Hn & -> & _)%mount_unwrap_Ok & Hr). eapply grows_trans; [|by eapply IH].
    apply grows_mount; [done|]. right. right. exists e. split; [by left|done].
  - case_bool_decide; apply st_bind_Ok in Hr as (w & s2 & (Hn & -> & _)%mount_unwrap_Ok & Hr); injection Hr as <- <- <-; apply grows_mount; unfold planned; auto.
Qed.
Lemma try_partitions_grows es : forall r v s r' v' s', try_partitions systems es r v s = (Ok (r', v'), s') -> grows es v v'.
Proof.
  induction es as [|e es IH]; intros r v s r' v' s' Hr; cbn [try_partitions] in Hr; [injection Hr as <- <- <-; apply grows_refl|].
  apply st_bind_Ok in Hr as ([r1 v1] & s1 & Hs%try_systems_grows & Hr). apply IH in Hr.
  eapply grows_trans; (eapply grows_mono; [|eassumption]); set_solver.
Qed.

(** Every driver of the list refuses the partition; the device goes from [s] to [t]. *)
Fixpoint refused (l : list (GPTPartitionEntry -> st Dev FsMountError F)) (e : GPTPartitionEntry) (s t : Dev) : Prop :=
  match l with [] => t = s | i :: l => exists err s', i e s = (Err err, s') /\ refused l e s' t end.
(** The drivers up to one that makes a file system of the partition refuse it. *)
Definition accepted (l : list (GPTPartitionEntry -> st Dev FsMountError F)) (e : GPTPartitionEntry) (s : Dev) (f : F) (t : Dev) : Prop :=
  exists pre i post s', l = (pre ++ i :: post)%list /\ refused pre e s s' /\ i e s' = (Ok f, t).
(** Partitions that give no root, one after the other on the same device, and the file systems of
    those called "boot". *)
Fixpoint skipped (es : list GPTPartitionEntry) (s : Dev) (boots : list F) (t : Dev) : Prop :=
  match es with
  | [] => t = s /\ boots = []
  | e :: es => exists s', (refused systems e s s' /\ skipped es s' boots t) \/
      exists f boots', label e = "boot" /\ accepted systems e s f s' /\ boots = f :: boots' /\ skipped es s' boots' t
  end.

Lemma accepted_here i l e s f t : i e s = (Ok f, t) -> accepted (i :: l) e s f t.
Proof. intros Hi. by exists [], i, l, s. Qed.
Lemma accepted_later i l e s err s1 f t : i e s = (Err err, s1) -> accepted l e s1 f t -> accepted (i :: l) e s f t.
Proof. intros Hi (pre & j & post & s2 & -> & Hp & Hj). exists (i :: pre), j, post, s2. split_and!; [done|cbn; eauto|done]. Qed.

Lemma try_systems_root l e : forall v s r v' s', try_systems l e false v s = (Ok (r, v'), s') ->
  r = false /\ v' = v /\ refused l e s s' \/
  r = false /\ label e = "boot" /\ (exists f, accepted l e s f s' /\ "/boot" ∉ v.*1 /\ v' = vfs_insert "/boot" f v) \/
  r = true /\ label e <> "boot" /\ (exists f, accepted l e s f s' /\ "/" ∉ v.*1 /\ v' = vfs_insert "/" f v).
Proof.
  induction l as [|i l IH]; intros v s r v' s' Hr; cbn [try_systems] in Hr; [injection Hr as <- <- <-; by left|].
  apply st_bind_Ok in Hr as (res & s1 & Ha & Hr). unfold attempt in Ha. destruct (i e s) as [[f|err|] s2] eqn:Hi; [| |done]; injection Ha as <- <-.
  - right. cbn [negb] in Hr. case_bool_decide as Hb; apply st_bind_Ok in Hr as (w & s3 & (Hw & -> & ->)%mount_unwrap_Ok & Hr); injection Hr as <- <- <-;
      [left|right]; split_and!; try done; exists f; split_and!; try done; by apply accepted_here.
  - destruct (IH _ _ _ _ _ Hr) as [(-> & -> & Hc)|[(-> & Hb & f & Hac & Hv)|(-> & Hb & f & Hac & Hv)]]; [left|right; left|right; right];
      split_and!; try done; [cbn; eauto|exists f; split; [by eapply accepted_later|done]..].
Qed.
(** Once there is a root, partitions are mounted below "/mnt/" only. *)
Lemma try_systems_after l e p : (forall x, p <> "/mnt/" ++ x) -> forall v s r v' s', try_systems l e true v s = (Ok (r, v'), s') ->
  r = true /\ get_fs v' p = get_fs v p.
Proof.
  intros Hp. induction l as [|i l IH]; intros v s r v' s' Hr; cbn [try_systems] in Hr; [by injection Hr as <- <- <-|].
  apply st_bind_Ok in Hr as ([err|f] & s1 & _ & Hr); [by eapply IH|]. cbn [negb] in Hr.
  apply st_bind_Ok in Hr as (w & s2 & (Hn & -> & _)%mount_unwrap_Ok & Hr). destruct (IH _ _ _ _ _ Hr) as [-> ->]. split; [done|].
  rewrite get_fs_insert by (by apply get_fs_None). rewrite decide_False; [done|]. intros Heq. by apply (Hp (label e)).
Qed.
Lemma try_partitions_after p : (forall x, p <> "/mnt/" ++ x) -> forall es v s r v' s', try_partitions systems es true v s = (Ok (r, v'), s') ->
  get_fs v' p = get_fs v p.
Proof.
  intros Hp. induction es as [|e es IH]; intros v s r v' s' Hr; cbn [try_partitions] in Hr; [by injection Hr as <- <- <-|].
  apply st_bind_Ok in Hr as ([r1 v1] & s1 & Hs & Hr). destruct (try_systems_after _ _ p Hp _ _ _ _ _ Hs) as [-> <-]. by eapply IH.
Qed.

Definition boot_list v : list F := match get_fs v "/boot" with Some f => [f] | None => [] end.
Lemma boot_list_root v f : "/" ∉ v.*1 -> boot_list (vfs_insert "/" f v) = boot_list v.
Proof. intros Hn. unfold boot_list. rewrite get_fs_insert by (by apply get_fs_None). done. Qed.
Lemma boot_list_boot v f : "/boot" ∉ v.*1 -> boot_list (vfs_insert "/boot" f v) = [f] /\ boot_list v = [].
Proof. intros Hn%get_fs_None. unfold boot_list. by rewrite get_fs_insert, decide_True, Hn. Qed.

Lemma try_partitions_root es : forall v s r v' s', get_fs v "/" = None -> try_partitions systems es false v s = (Ok (r, v'), s') ->
  (exists bs, get_fs v' "/" = None /\ skipped es s bs s' /\ boot_list v' = (boot_list v ++ bs)%list) \/
  exists pre e post f bs t t', es = (pre ++ e :: post)%list /\ skipped pre s bs t /\ label e <> "boot" /\ accepted systems e t f t' /\
    get_fs v' "/" = Some f /\ boot_list v' = (boot_list v ++ bs)%list.
Proof.
  induction es as [|e es IH]; intros v s r v' s' Hn Hr; cbn [try_partitions] in Hr.
  { injection Hr as <- <- <-. left. exists []. by rewrite app_nil_r. }
  apply st_bind_Ok in Hr as ([r1 v1] & s1 & Hs & Hr).
  destruct (try_systems_root _ _ _ _ _ _ _ Hs) as [(-> & -> & Hc)|[(-> & Hb & f & Hac & Hnb & ->)|(-> & Hb & f & Hac & Hnr & ->)]].
  - destruct (IH _ _ _ _ _ Hn Hr) as [(bs & Hg & Hsk & Hbl)|(pre & e1 & post & f & bs & t & t' & -> & Hsk & Hl & Ha & Hg & Hbl)]; [left|right].
    + exists bs. split_and!; [done| |done]. exists s1. by left.
    + exists (e :: pre), e1, post, f, bs, t, t'. split_and!; try done. exists s1. by left.
  - destruct (boot_list_boot v f Hnb) as [Hb1 Hb0]. rewrite Hb0. cbn [app].
    destruct (IH _ _ _ _ _ ltac:(by rewrite get_fs_insert by (by apply get_fs_None)) Hr)
      as [(bs & Hg & Hsk & Hbl)|(pre & e1 & post & g & bs & t & t' & -> & Hsk & Hl & Ha & Hg & Hbl)]; rewrite Hb1 in Hbl; [left|right].
    + exists (f :: bs). split_and!; [done| |done]. exists s1. right. by exists f, bs.
    + exists (e :: pre), e1, post, g, (f :: bs), t, t'. split_and!; try done. exists s1. right. exists f, bs. done.
  - right. exists [], e, es, f, [], s, s1. split_and!; try done.
    + rewrite (try_partitions_after "/" ltac:(done) _ _ _ _ _ _ Hr). rewrite get_fs_insert by (by apply get_fs_None). by rewrite decide_True.
    + rewrite app_nil_r. unfold boot_list. rewrite (try_partitions_after "/boot" ltac:(done) _ _ _ _ _ _ Hr). by apply boot_list_root.
Qed.

(** C29: when the start of the file systems succeeds, the table of mounts has each place once and
    only "/", "/boot", "/proc" and "/mnt/" with the names of partitions.  The partitions are tried
    in the order of the table on the device as the reading of the table left it: the root is what
    the first driver to accept it makes of the first partition that is not called "boot" and that
    some driver accepts, each attempt starting from the device the attempts before left; without a
    root every partition was refused by all drivers or was called "boot".  What is mounted at
    "/boot" is the one partition of that name that was accepted before the root. *)
Theorem disk_mounts proc d v d' : disk_init systems proc (Some d) [] = (Ok v, d') ->
  exists h es s1 s2, get_header d = (Ok h, s1) /\ get_partition_entries h s1 = (Ok (Some es), s2) /\
    let parts := List.filter is_used es in
    NoDup v.*1 /\ get_fs v "/proc" = Some proc /\ (forall p, p ∈ v.*1 -> p = "/proc" \/ planned parts p) /\
    match get_fs v "/" with
    | None => exists t, skipped parts s2 (boot_list v) t
    | Some f => exists pre e post t t', parts = (pre ++ e :: post)%list /\ skipped pre s2 (boot_list v) t /\
        label e <> "boot" /\ accepted systems e t f t'
    end.
Proof.
  unfold disk_init. match goal with |- context [let '(_, _) := ?x in _] => destruct x as [r d1] eqn:Hr end. intros [= -> _]. apply st_bind_Ok in Hr as (v1 & s3 & Hm & (Hn & -> & ->)%mount_unwrap_Ok).
  apply st_bind_Ok in Hm as (h & s1 & Hh & Hm). apply st_bind_Ok in Hm as (oes & s2 & He & Hm). apply st_bind_Ok in Hm as (es & s2' & Hu & Hm).
  destruct oes as [es'|]; [|done]. injection Hu as -> <-. apply st_bind_Ok in Hm as ([b v2] & s4 & Ht & Hm). injection Hm as -> ->.
  unfold dev_unwrap in Hh. destruct (get_header d) as [[h'| |] s1'] eqn:Hg; [|done|done]. injection Hh as -> ->.
  exists h, es, s1, s2. split; [done|]. split; [done|]. cbv zeta. set (parts := List.filter is_used es) in *.
  pose proof (try_partitions_grows _ _ _ _ _ _ _ Ht) as [Gn Gk _].
  assert (forall p, p <> "/proc" -> get_fs (vfs_insert "/proc" proc v1) p = get_fs v1 p) as Hother
    by (intros p Hp; rewrite get_fs_insert by (by apply get_fs_None); by rewrite decide_False).
  unfold boot_list. rewrite (Hother "/"), (Hother "/boot") by done. fold (boot_list v1). split_and!.
  - rewrite insert_keys. apply NoDup_cons. split; [done|]. apply Gn, NoDup_nil_2.
  - rewrite get_fs_insert by (by apply get_fs_None). by rewrite decide_True.
  - intros p. rewrite insert_keys. intros [->|Hp]%elem_of_cons; [by left|right]. destruct (Gk p Hp) as [Hin|]; [inversion Hin|done].
  - destruct (try_partitions_root parts [] _ _ _ _ eq_refl Ht) as [(bs & -> & Hsk & ->)|(pre & e & post & f & bs & t & t' & Hp & Hsk & Hl & Ha & -> & ->)]; [by eexists|].
    by exists pre, e, post, t, t'.
Qed.

(** A partition after the root that two drivers accept is mounted twice at the same place, and the
    second time stops the kernel. *)
Theorem second_acceptance_panics i j e v s f g s1 s2 :
  i e s = (Ok f, s1) -> j e s1 = (Ok g, s2) -> ("/mnt/" ++ label e)%string ∉ v.*1 -> (try_systems [i; j] e true v s).1 = Panic.
Proof.
  intros Hi Hj Hn. cbn [try_systems]. rewrite (st_bind_eq _ _ _ (inr f) s1) by (unfold attempt; by rewrite Hi). cbn [negb].
  erewrite st_bind_eq by (by apply mount_unwrap_Ok). rewrite (st_bind_eq _ _ _ (inr g) s2) by (unfold attempt; by rewrite Hj). cbn [negb].
  erewrite st_bind_Panic; [done|]. unfold mount_unwrap. unfold mount at 1. rewrite get_fs_insert by (by apply get_fs_None). rewrite decide_True by done. done.
Qed.
End InitSpec.

(** ** A disk with three partitions: "boot", one for the root and "data" *)
Definition utf16_name (s : string) : list Z := str_bytes s ++ replicate (36 - String.length s) 0.
Definition sample_partition (lba : Z) (name : string) : GPTPartitionEntry := mkEntry (replicate 16 7) (replicate 16 1) lba (lba + 1) 0 (utf16_name name).
Definition sample_body (crc : Z) : bytes :=
  EFI_PART ++ to_le 4 0x10000 ++ to_le 4 92 ++ to_le 4 crc ++ to_le 4 0 ++ to_le 8 1 ++ to_le 8 9 ++ to_le 8 3 ++ to_le 8 8 ++ replicate 16 0 ++
  to_le 8 2 ++ to_le 4 4 ++ to_le 4 128 ++ to_le 4 0.
Definition sample_parts : list GPTPartitionEntry := [sample_partition 3 "boot"; sample_partition 4 "system"; sample_partition 5 "data"].
Definition sample_gpt : MemDisk :=
  mkMemDisk (replicate 512 0 ++ sample_body (crc32 (sample_body 0)) ++ replicate 420 0 ++ concat (encode_entry <$> sample_parts) ++ replicate 3000 0) 0.
(** The first driver takes the boot partition, the second the others. *)
Definition sample_systems : list (GPTPartitionEntry -> st MemDisk FsMountError Z) :=
  [fun e => if starting_lba e =? 3 then mret 1 else st_lift (Err MountReadError); fun e => if starting_lba e =? 3 then st_lift (Err MountReadError) else mret (starting_lba e)].
Example sample_mounts : (disk_init sample_systems 0 (Some sample_gpt) []).1 = Ok [("/", 4); ("/boot", 1); ("/mnt/data", 5); ("/proc", 0)].
Proof. vm_compute. reflexivity. Qed.
Lemma disk_mounts_witness : exists v pre e post t t' s2, (disk_init sample_systems 0 (Some sample_gpt) []).1 = Ok v /\
  sample_parts = (pre ++ e :: post)%list /\ label e <> "boot" /\ skipped sample_systems pre s2 [1] t /\ accepted sample_systems e t 4 t'.
Proof.
  destruct (disk_init sample_systems 0 (Some sample_gpt) []) as [r d'] eqn:Hr. pose proof (f_equal fst Hr) as Hr1. rewrite sample_mounts in Hr1. cbn in Hr1. subst r.
  destruct (disk_mounts sample_systems 0 sample_gpt _ d' Hr) as (h & es & s1 & s2 & Hh & He & _ & _ & _ & Hroot).
  assert (List.filter is_used es = sample_parts) as Hp.
  { transitivity (match (h ← get_header; get_partition_entries h) sample_gpt with (Ok (Some es), _) => List.filter is_used es | _ => [] end); [|vm_compute; reflexivity].
    by rewrite (st_bind_eq _ _ _ _ _ Hh), He. }
  rewrite Hp in Hroot. destruct Hroot as (pre & e & post & t & t' & Hsplit & Hsk & Hlab & Hac).
  exists [("/", 4); ("/boot", 1); ("/mnt/data", 5); ("/proc", 0)], pre, e, post, t, t', s2.
  split; [reflexivity|]. split; [exact Hsplit|]. split; [exact Hlab|]. split; [exact Hsk|exact Hac].
Defined.
