(* ===== verification/Tty.v ===== *)
(** * The terminal (zenos-kernel/src/tty/mod.rs)

    The escape sequence parser, cursor movement and drawing.  The display backend is
    seen through the calls made to it: [display] is the log of those calls, latest
    first; their results are dropped by the source ([.ok()]).  [cols] and [rows] are the
    size the backend reports. *)
From S2P Require Import Prelude.

(** ** Data *)
Definition Color : Type := Z * Z * Z.

Record Style := mkStyle {
  bold : bool;
  underline : bool;
  strikethrough : bool;
  ital : bool;
  fg_color : option Color;
  bg_color : option Color;
}.
Definition Style_default : Style := mkStyle false false false false None None.

Inductive AnsiState := Normal | Escape | Csi | CsiParam.

Inductive DisplayCall :=
| DrawChar (c : Z) (style : Style) (x y : Z)
| ClearScreen
| ScrollUp (lines : Z)
| DrawCursor (x y : Z) (visible : bool).

Record TTYDevice := mkTty {
  display : list DisplayCall;
  cursor_x : Z;
  cursor_y : Z;
  cursor_visible : bool;
  style : Style;
  ansi_state : AnsiState;
  ansi_params : list Z;
  ansi_current_param : Z;
}.

Definition TTYDevice_new : TTYDevice := mkTty [] 0 0 true Style_default Normal [] 0.

Definition call (d : DisplayCall) (t : TTYDevice) : TTYDevice :=
  mkTty (d :: display t) (cursor_x t) (cursor_y t) (cursor_visible t) (style t) (ansi_state t)
    (ansi_params t) (ansi_current_param t).
Definition set_cursor_xy (x y : Z) (t : TTYDevice) : TTYDevice :=
  mkTty (display t) x y (cursor_visible t) (style t) (ansi_state t) (ansi_params t) (ansi_current_param t).
Definition set_style (s : Style) (t : TTYDevice) : TTYDevice :=
  mkTty (display t) (cursor_x t) (cursor_y t) (cursor_visible t) s (ansi_state t) (ansi_params t)
    (ansi_current_param t).
Definition set_ansi (s : AnsiState) (ps : list Z) (cur : Z) (t : TTYDevice) : TTYDevice :=
  mkTty (display t) (cursor_x t) (cursor_y t) (cursor_visible t) (style t) s ps cur.

(** ** Colours *)
Definition to_val {E} (v : Z) : outcome E Z :=
  if v =? 0 then Ok 0 else m ← umul 8 v 40; uadd 8 55 m.

Definition color_256 {E} (n : Z) : outcome E Color :=
  match n with
  | 0 => Ok (0, 0, 0)
  | 1 => Ok (128, 0, 0)
  | 2 => Ok (0, 128, 0)
  | 3 => Ok (128, 128, 0)
  | 4 => Ok (0, 0, 128)
  | 5 => Ok (128, 0, 128)
  | 6 => Ok (0, 128, 128)
  | 7 => Ok (192, 192, 192)
  | 8 => Ok (128, 128, 128)
  | 9 => Ok (255, 0, 0)
  | 10 => Ok (0, 255, 0)
  | 11 => Ok (255, 255, 0)
  | 12 => Ok (0, 0, 255)
  | 13 => Ok (255, 0, 255)
  | 14 => Ok (0, 255, 255)
  | 15 => Ok (255, 255, 255)
  | _ =>
      if n <=? 231
      then n ← usub n 16;
           r ← to_val (n / 36 mod 6); g ← to_val (n / 6 mod 6); b ← to_val (n mod 6);
           Ok (r, g, b)
      else d ← usub n 232; m ← umul 8 d 10; gray ← uadd 8 8 m; Ok (gray, gray, gray)
  end.

(** ** Select graphic rendition *)
Definition set_fg (s : Style) (c : option Color) : Style :=
  mkStyle (bold s) (underline s) (strikethrough s) (ital s) c (bg_color s).
Definition set_bg (s : Style) (c : option Color) : Style :=
  mkStyle (bold s) (underline s) (strikethrough s) (ital s) (fg_color s) c.
Definition set_bold (s : Style) (b : bool) : Style :=
  mkStyle b (underline s) (strikethrough s) (ital s) (fg_color s) (bg_color s).
Definition set_underline (s : Style) (b : bool) : Style :=
  mkStyle (bold s) b (strikethrough s) (ital s) (fg_color s) (bg_color s).
Definition set_strike (s : Style) (b : bool) : Style :=
  mkStyle (bold s) (underline s) b (ital s) (fg_color s) (bg_color s).
Definition set_ital (s : Style) (b : bool) : Style :=
  mkStyle (bold s) (underline s) (strikethrough s) b (fg_color s) (bg_color s).

Definition between (lo x hi : Z) : bool := (lo <=? x) && (x <=? hi).

(** One parameter that stands alone. *)
Definition sgr_one {E} (p : Z) (s : Style) : outcome E Style :=
  if p =? 0 then Ok Style_default
  else if p =? 1 then Ok (set_bold s true)
  else if p =? 3 then Ok (set_ital s true)
  else if p =? 4 then Ok (set_underline s true)
  else if p =? 9 then Ok (set_strike s true)
  else if p =? 22 then Ok (set_bold s false)
  else if p =? 23 then Ok (set_ital s false)
  else if p =? 24 then Ok (set_underline s false)
  else if p =? 29 then Ok (set_strike s false)
  else if between 30 p 37 then c ← color_256 (p - 30); Ok (set_fg s (Some c))
  else if between 40 p 47 then c ← color_256 (p - 40); Ok (set_bg s (Some c))
  else if between 90 p 97 then c ← color_256 (p - 90 + 8); Ok (set_fg s (Some c))
  else if between 100 p 107 then c ← color_256 (p - 100 + 8); Ok (set_bg s (Some c))
  else if p =? 39 then Ok (set_fg s None)
  else if p =? 49 then Ok (set_bg s None)
  else Ok s.

(** The [while] loop from position [i] on, as a walk along the parameters left; 38 and
    48 consume two more when these are [5; n]. *)
Fixpoint sgr_loop {E} (ps : list Z) (s : Style) : outcome E Style :=
  match ps with
  | [] => Ok s
  | p :: rest =>
      if (p =? 38) || (p =? 48)
      then match rest with
           | q :: n :: rest' =>
               if q =? 5
               then c ← color_256 (wrap 8 n);
                    sgr_loop rest' (if p =? 38 then set_fg s (Some c) else set_bg s (Some c))
               else sgr_loop rest s
           | _ => sgr_loop rest s
           end
      else s ← sgr_one p s; sgr_loop rest s
  end.

(** ** Operations *)
Section Ops.
Context {E : Type} (cols rows : Z).

Definition show_cursor (t : TTYDevice) : TTYDevice :=
  if cursor_visible t then call (DrawCursor (cursor_x t) (cursor_y t) true) t else t.
Definition hide_cursor (t : TTYDevice) : TTYDevice :=
  call (DrawCursor (cursor_x t) (cursor_y t) false) t.

Definition update_cursor (t : TTYDevice) : TTYDevice :=
  let vis := cursor_visible t in
  let t := mkTty (display t) (cursor_x t) (cursor_y t) (negb (cursor_visible t)) (style t) (ansi_state t)
    (ansi_params t) (ansi_current_param t) in
  call (DrawCursor (cursor_x t) (cursor_y t) vis) t.

(** The cursor goes to the start of the next line; the last line scrolls. *)
Definition advance_line (t : TTYDevice) : outcome E TTYDevice :=
  y ← uadd 64 (cursor_y t) 1;
  let t := set_cursor_xy 0 y t in
  if rows <=? y
  then Ok (set_cursor_xy 0 (saturating_sub rows 1) (call (ScrollUp 1) t))
  else Ok t.

Definition newline (t : TTYDevice) : outcome E TTYDevice :=
  t ← advance_line (hide_cursor t); Ok (show_cursor t).

Definition reset_ansi_state (t : TTYDevice) : TTYDevice := set_ansi Normal [] 0 t.

Definition process_sgr (t : TTYDevice) : outcome E TTYDevice :=
  let ps := match ansi_params t with [] => [0] | ps => ps end in
  s ← sgr_loop ps (style t); Ok (set_style s t).

(** [params.first().copied().unwrap_or(d)] and [params.get(1)...]. *)
Definition param (t : TTYDevice) (i : nat) (d : Z) : Z := default d (ansi_params t !! i).

Definition process_cursor_position (t : TTYDevice) : TTYDevice :=
  let row := Z.max (param t 0 1) 1 - 1 in
  let col := Z.max (param t 1 1) 1 - 1 in
  set_cursor_xy (Z.min col (saturating_sub cols 1)) (Z.min row (saturating_sub rows 1)) t.

Definition process_erase_display (t : TTYDevice) : TTYDevice :=
  let mode := param t 0 0 in
  if (mode =? 2) || (mode =? 3) then set_cursor_xy 0 0 (call ClearScreen t) else t.

(** [for x in start..start+n]. *)
Fixpoint draw_blanks (n : nat) (start : Z) (t : TTYDevice) : TTYDevice :=
  match n with
  | O => t
  | S n => draw_blanks n (start + 1) (call (DrawChar 32 Style_default start (cursor_y t)) t)
  end.

Definition process_erase_line (t : TTYDevice) : outcome E TTYDevice :=
  let mode := param t 0 0 in
  if mode =? 0 then Ok (draw_blanks (Z.to_nat (cols - cursor_x t)) (cursor_x t) t)
  else if mode =? 1 then e ← uadd 64 (cursor_x t) 1; Ok (draw_blanks (Z.to_nat e) 0 t)
  else if mode =? 2 then Ok (draw_blanks (Z.to_nat cols) 0 t)
  else Ok t.

Definition count_param (t : TTYDevice) : Z := Z.max (param t 0 1) 1.

Definition cursor_up (t : TTYDevice) : TTYDevice :=
  set_cursor_xy (cursor_x t) (saturating_sub (cursor_y t) (count_param t)) t.
Definition cursor_down (t : TTYDevice) : outcome E TTYDevice :=
  y ← uadd 64 (cursor_y t) (count_param t);
  Ok (set_cursor_xy (cursor_x t) (Z.min y (saturating_sub rows 1)) t).
Definition cursor_forward (t : TTYDevice) : outcome E TTYDevice :=
  x ← uadd 64 (cursor_x t) (count_param t);
  Ok (set_cursor_xy (Z.min x (saturating_sub cols 1)) (cursor_y t) t).
Definition cursor_back (t : TTYDevice) : TTYDevice :=
  set_cursor_xy (saturating_sub (cursor_x t) (count_param t)) (cursor_y t) t.

(** The command of a control sequence: m, H, f, J, K, A, B, C, D. *)
Definition csi_dispatch (cmd : Z) (t : TTYDevice) : outcome E TTYDevice :=
  if cmd =? 109 then process_sgr t
  else if (cmd =? 72) || (cmd =? 102) then Ok (process_cursor_position t)
  else if cmd =? 74 then Ok (process_erase_display t)
  else if cmd =? 75 then process_erase_line t
  else if cmd =? 65 then Ok (cursor_up t)
  else if cmd =? 66 then cursor_down t
  else if cmd =? 67 then cursor_forward t
  else if cmd =? 68 then Ok (cursor_back t)
  else Ok t.

Definition process_csi_command (cmd : Z) (t : TTYDevice) : outcome E TTYDevice :=
  let t :=
    if (0 <? ansi_current_param t) || match ansi_params t with [] => false | _ => true end
    then set_ansi (ansi_state t) (ansi_params t ++ [ansi_current_param t]) (ansi_current_param t) t
    else t in
  t ← csi_dispatch cmd t;
  Ok (reset_ansi_state t).

Definition write_visible_char (c : Z) (t : TTYDevice) : outcome E TTYDevice :=
  let t := hide_cursor t in
  t ←
    (if c =? 10 then newline t
     else if c =? 13 then Ok (set_cursor_xy 0 (cursor_y t) t)
     else if c =? 8 then
       Ok (if 0 <? cursor_x t
           then set_cursor_xy (cursor_x t - 1) (cursor_y t)
                  (call (DrawChar 32 (style t) (cursor_x t - 1) (cursor_y t)) t)
           else t)
     else if c =? 0 then Ok t
     else if c =? 9 then
       n ← uadd 64 (cursor_x t / 8) 1; next_tab_stop ← umul 64 n 8;
       Ok (set_cursor_xy (Z.min next_tab_stop (saturating_sub cols 1)) (cursor_y t) t)
     else
       t ← (if cols <=? cursor_x t then advance_line t else Ok t);
       let t := call (DrawChar c (style t) (cursor_x t) (cursor_y t)) t in
       x ← uadd 64 (cursor_x t) 1;
       Ok (set_cursor_xy x (cursor_y t) t));
  Ok (show_cursor t).

Definition write_char_internal (c : Z) (t : TTYDevice) : outcome E TTYDevice :=
  match ansi_state t with
  | Normal =>
      if c =? 0x1B then Ok (set_ansi Escape (ansi_params t) (ansi_current_param t) t)
      else write_visible_char c t
  | Escape =>
      if c =? 91 then Ok (set_ansi Csi [] 0 t)
      else write_visible_char c (reset_ansi_state t)
  | Csi | CsiParam =>
      if between 48 c 57
      then d ← usub c 48;
           Ok (set_ansi CsiParam (ansi_params t)
                 (saturating_add 16 (saturating_mul 16 (ansi_current_param t) 10) d) t)
      else if c =? 59
      then Ok (set_ansi (ansi_state t) (ansi_params t ++ [ansi_current_param t]) 0 t)
      else if between 0x40 c 0x7E then process_csi_command c t
      else Ok (reset_ansi_state t)
  end.

(** [write_str], and [tty_write] on an initialised terminal. *)
Fixpoint write_bytes (buf : list Z) (t : TTYDevice) : outcome E TTYDevice :=
  match buf with
  | [] => Ok t
  | c :: buf => t ← write_char_internal c t; write_bytes buf t
  end.
End Ops.

Definition tty_write (cols rows : Z) (buf : list Z) (tty : option TTYDevice) :
    outcome unit (Z * option TTYDevice) :=
  match tty with
  | Some t => t ← write_bytes cols rows buf t; Ok (Z.of_nat (length buf), Some t)
  | None => Err tt
  end.

(** ** The terminal keeps to its screen *)
Section Screen.
Context {E : Type} (cols rows : Z).
Context (Hcols : 0 < cols < 2 ^ 32) (Hrows : 0 < rows < 2 ^ 32).

(** A character is drawn on the screen, except that erasing to a cursor past the last
    column blanks the cell at [cols] too. *)
Definition call_ok (d : DisplayCall) : Prop :=
  match d with
  | DrawChar c s x y => 0 <= x <= cols /\ 0 <= y < rows /\ (x = cols -> c = 32 /\ s = Style_default)
  | DrawCursor x y _ => 0 <= x <= cols /\ 0 <= y < rows
  | ScrollUp n => n = 1
  | ClearScreen => True
  end.

Record tty_ok (t : TTYDevice) : Prop := {
  ok_x : 0 <= cursor_x t <= cols;
  ok_y : 0 <= cursor_y t < rows;
  ok_params : Forall (is_u 16) (ansi_params t);
  ok_current : is_u 16 (ansi_current_param t);
  ok_display : Forall call_ok (display t);
}.

Lemma call_tty_ok d t : call_ok d -> tty_ok t -> tty_ok (call d t).
Proof using. intros Hd []. split; cbn; auto. Qed.
Lemma set_cursor_tty_ok x y t : 0 <= x <= cols -> 0 <= y < rows -> tty_ok t -> tty_ok (set_cursor_xy x y t).
Proof using. intros ? ? []. split; cbn; auto. Qed.
Lemma set_ansi_tty_ok s ps c t : Forall (is_u 16) ps -> is_u 16 c -> tty_ok t -> tty_ok (set_ansi s ps c t).
Proof using. intros ? ? []. split; cbn; auto. Qed.
Lemma hide_tty_ok t : tty_ok t -> tty_ok (hide_cursor t).
Proof using. intros Ht. apply call_tty_ok; [|done]. destruct Ht. done. Qed.
Lemma show_tty_ok t : tty_ok t -> tty_ok (show_cursor t).
Proof using.
  intros Ht. unfold show_cursor. destruct (cursor_visible t); [|done]. apply call_tty_ok; [|done].
  destruct Ht. done.
Qed.
Lemma reset_tty_ok t : tty_ok t -> tty_ok (reset_ansi_state t).
Proof using. intros. apply set_ansi_tty_ok; [constructor|by unfold is_u|done]. Qed.

Lemma advance_line_ok t : tty_ok t -> exists t', @advance_line E rows t = Ok t' /\ tty_ok t' /\ cursor_x t' = 0.
Proof using Hcols Hrows.
  intros Ht. pose proof (ok_y t Ht). unfold advance_line. rewrite uadd_eq by lia. cbn [mbind outcome_bind].
  unfold saturating_sub. destruct (Z.leb_spec rows (cursor_y t + 1)); eexists; (split; [done|]); (split; [|done]).
  - destruct Ht. split; cbn; try lia; try done. by constructor.
  - apply set_cursor_tty_ok; [lia..|done].
Qed.

Lemma newline_ok t : tty_ok t -> exists t', @newline E rows t = Ok t' /\ tty_ok t'.
Proof using Hcols Hrows.
  intros Ht. unfold newline. destruct (advance_line_ok (hide_cursor t)) as (t' & -> & ? & _); [by apply hide_tty_ok|].
  cbn. eexists. split; [done|]. by apply show_tty_ok.
Qed.
End Screen.

Lemma color_256_ok {E} n : 0 <= n < 256 -> exists c, @color_256 E n = Ok c.
Proof.
  intros Hn. assert (Forall (fun k => exists c, @color_256 E (Z.of_nat k) = Ok c) (seq 0 256)) as H.
  { cbn [seq]. repeat constructor; eexists; vm_compute; reflexivity. }
  rewrite Forall_forall in H. destruct (H (Z.to_nat n)) as [c Hc]; [apply elem_of_seq; lia|].
  exists c. by rewrite Z2Nat.id in Hc by lia.
Qed.

Lemma sgr_one_ok {E} p s : 0 <= p -> exists s', @sgr_one E p s = Ok s'.
Proof.
  intros Hp. unfold sgr_one, between.
  repeat match goal with
  | |- exists _, Ok _ = Ok _ => by eexists
  | |- exists _, (if ?b then _ else _) = _ => destruct b eqn:?
  end; zbool; (edestruct (@color_256_ok E) as [c ->]; [|by eexists]); lia.
Qed.

Lemma sgr_loop_ok {E} ps s : Forall (is_u 16) ps -> exists s', @sgr_loop E ps s = Ok s'.
Proof.
  remember (length ps) as n eqn:Hn. revert ps s Hn. induction (lt_wf n) as [n _ IH]. intros ps s Hn Hps.
  destruct ps as [|p rest]; cbn; [by eexists|]. apply Forall_cons in Hps as [Hp Hrest]. cbn in Hn.
  destruct ((p =? 38) || (p =? 48)).
  - destruct rest as [|q [|m rest']]; [by eexists|eapply (IH 1%nat); cbn in *; [lia|done|done]|].
    destruct (q =? 5).
    + destruct (@color_256_ok E (wrap 8 m)) as [c ->]; [apply is_u_wrap; lia|]. cbn [mbind outcome_bind].
      apply (IH (length rest')); [cbn in *; lia|done|]. by repeat apply Forall_cons in Hrest as [_ Hrest].
    + apply (IH (length (q :: m :: rest'))); [cbn in *; lia|done|done].
  - destruct (@sgr_one_ok E p s) as [s' ->]; [apply Hp|]. cbn [mbind outcome_bind].
    apply (IH (length rest)); [lia|done|done].
Qed.

Section ScreenOps.
Context {E : Type} (cols rows : Z).
Context (Hcols : 0 < cols < 2 ^ 32) (Hrows : 0 < rows < 2 ^ 32).
Abbreviation ok := (tty_ok cols rows).

Lemma param_ok t i d : ok t -> is_u 16 d -> is_u 16 (param t i d).
Proof using.
  intros [_ _ Hps _ _] Hd. unfold param. destruct (ansi_params t !! i) as [p|] eqn:Hp; cbn; [|done].
  rewrite Forall_lookup in Hps. eauto.
Qed.

Lemma count_param_ok t : ok t -> 1 <= count_param t < 2 ^ 16.
Proof using. intros Ht. pose proof (param_ok t 0 1 Ht ltac:(by unfold is_u)) as H. unfold is_u, count_param in *. lia. Qed.

Lemma draw_blanks_ok n start t :
  ok t -> 0 <= start -> start + Z.of_nat n <= cols + 1 -> ok (draw_blanks n start t).
Proof using.
  revert start t. induction n as [|n IH]; intros start t Ht H0 H1; cbn [draw_blanks]; [done|].
  apply IH; [|lia..]. apply call_tty_ok; [|done]. destruct Ht. cbn. split_and!; [lia..|done].
Qed.

Lemma csi_dispatch_ok cmd t : ok t -> exists t', @csi_dispatch E cols rows cmd t = Ok t' /\ ok t'.
Proof using Hcols Hrows.
  intros Ht. pose proof (count_param_ok t Ht) as Hn. pose proof (ok_x _ _ _ Ht). pose proof (ok_y _ _ _ Ht).
  unfold csi_dispatch.
  destruct (cmd =? 109).
  { unfold process_sgr. destruct (@sgr_loop_ok E (match ansi_params t with [] => [0] | ps => ps end) (style t)) as [s ->].
    { pose proof (ok_params _ _ _ Ht). destruct (ansi_params t); [|done].
      constructor; [by unfold is_u|constructor]. }
    eexists. split; [done|]. destruct Ht. by split. }
  destruct ((cmd =? 72) || (cmd =? 102)).
  { eexists. split; [done|]. apply set_cursor_tty_ok; [unfold saturating_sub; lia..|done]. }
  destruct (cmd =? 74).
  { eexists. split; [done|]. unfold process_erase_display. case_match; [|done].
    apply set_cursor_tty_ok; [lia..|]. by apply call_tty_ok. }
  destruct (cmd =? 75).
  { unfold process_erase_line. repeat case_match; try rewrite uadd_eq by lia; cbn [mbind outcome_bind];
      (eexists; split; [done|]); try (apply draw_blanks_ok; [done|lia|lia]). done. }
  destruct (cmd =? 65); [eexists; split; [done|]; apply set_cursor_tty_ok; [unfold saturating_sub; lia..|done]|].
  destruct (cmd =? 66).
  { unfold cursor_down. rewrite uadd_eq by lia. eexists. split; [done|].
    apply set_cursor_tty_ok; [unfold saturating_sub; lia..|done]. }
  destruct (cmd =? 67).
  { unfold cursor_forward. rewrite uadd_eq by lia. eexists. split; [done|].
    apply set_cursor_tty_ok; [unfold saturating_sub; lia..|done]. }
  destruct (cmd =? 68); [eexists; split; [done|]; apply set_cursor_tty_ok; [unfold saturating_sub; lia..|done]|].
  by eexists.
Qed.

Lemma process_csi_ok cmd t : ok t -> exists t', @process_csi_command E cols rows cmd t = Ok t' /\ ok t'.
Proof using Hcols Hrows.
  intros Ht. unfold process_csi_command. cbv zeta.
  destruct (csi_dispatch_ok cmd (if (0 <? ansi_current_param t) || match ansi_params t with [] => false | _ => true end
    then set_ansi (ansi_state t) (ansi_params t ++ [ansi_current_param t]) (ansi_current_param t) t
    else t)) as (t' & -> & Ht').
  { case_match; [|done]. pose proof (ok_current _ _ _ Ht). apply set_ansi_tty_ok; [|done..].
    apply Forall_app. split; [apply Ht|by apply Forall_singleton]. }
  eexists. split; [done|]. by apply reset_tty_ok.
Qed.

(** An ordinary character, after the wrap at the end of the line. *)
Lemma draw_char_ok c t :
  ok t -> cursor_x t < cols -> exists t',
    (x ← uadd 64 (cursor_x (call (DrawChar c (style t) (cursor_x t) (cursor_y t)) t)) 1;
     Ok (set_cursor_xy x (cursor_y t) (call (DrawChar c (style t) (cursor_x t) (cursor_y t)) t))) = @Ok E _ t' /\ ok t'.
Proof using Hcols.
  intros Ht Hx. pose proof (ok_x _ _ _ Ht). pose proof (ok_y _ _ _ Ht). cbn [call cursor_x].
  rewrite uadd_eq by lia. eexists. split; [done|]. apply set_cursor_tty_ok; [lia..|].
  apply call_tty_ok; [|done]. cbn. split_and!; lia.
Qed.

Lemma write_visible_ok c t : ok t -> exists t', @write_visible_char E cols rows c t = Ok t' /\ ok t'.
Proof using Hcols Hrows.
  intros Ht%hide_tty_ok. pose proof (ok_x _ _ _ Ht). pose proof (ok_y _ _ _ Ht).
  unfold write_visible_char. set (u := hide_cursor t) in *. clearbody u. clear t.
  assert (forall m : outcome E TTYDevice, (exists t', m = Ok t' /\ ok t') ->
    exists t', (t ← m; Ok (show_cursor t)) = Ok t' /\ ok t') as Hshow.
  { intros m (t' & -> & ?). eexists. split; [done|]. by apply show_tty_ok. }
  apply Hshow. destruct (c =? 10); [by apply newline_ok|].
  destruct (c =? 13); [eexists; split; [done|]; by apply set_cursor_tty_ok; [lia|..]|].
  destruct (c =? 8).
  { eexists. split; [done|]. destruct (Z.ltb_spec 0 (cursor_x u)); [|done].
    apply set_cursor_tty_ok; [lia..|]. apply call_tty_ok; [|done]. cbn. split_and!; lia. }
  destruct (c =? 0); [by eexists|]. destruct (c =? 9).
  { pose proof (Z.div_mod (cursor_x u) 8 ltac:(lia)). pose proof (Z.div_pos (cursor_x u) 8 ltac:(lia) ltac:(lia)).
    pose proof (Z.mod_pos_bound (cursor_x u) 8 ltac:(lia)).
    rewrite uadd_eq by lia. cbn [mbind outcome_bind]. rewrite umul_eq by lia. eexists. split; [done|].
    apply set_cursor_tty_ok; [unfold saturating_sub; lia|lia|done]. }
  destruct (Z.leb_spec cols (cursor_x u)).
  - destruct (@advance_line_ok E cols rows Hcols Hrows u Ht) as (t' & -> & Ht' & Hx).
    cbn [mbind outcome_bind]. apply (draw_char_ok c t'); [done|lia].
  - cbn [mbind outcome_bind]. by apply (draw_char_ok c u).
Qed.

Lemma write_char_ok c t : is_u 8 c -> ok t -> exists t', @write_char_internal E cols rows c t = Ok t' /\ ok t'.
Proof using Hcols Hrows.
  intros Hc Ht. unfold write_char_internal. pose proof (ok_params _ _ _ Ht). pose proof (ok_current _ _ _ Ht).
  assert (exists t', (if between 48 c 57
      then d ← usub c 48;
           Ok (set_ansi CsiParam (ansi_params t)
                 (saturating_add 16 (saturating_mul 16 (ansi_current_param t) 10) d) t)
      else if c =? 59
      then Ok (set_ansi (ansi_state t) (ansi_params t ++ [ansi_current_param t]) 0 t)
      else if between 0x40 c 0x7E then process_csi_command cols rows c t
      else @Ok E _ (reset_ansi_state t)) = Ok t' /\ ok t') as Hcsi.
  { destruct (between 48 c 57) eqn:Hd.
    - unfold between in Hd. zbool. rewrite usub_eq by lia. eexists. split; [done|].
      apply set_ansi_tty_ok; [done| |done]. unfold is_u, saturating_add, saturating_mul, umax in *. lia.
    - destruct (c =? 59).
      + eexists. split; [done|]. apply set_ansi_tty_ok; [|by unfold is_u|done].
        apply Forall_app. split; [done|by apply Forall_singleton].
      + destruct (between 0x40 c 0x7E); [by apply process_csi_ok|]. eexists. split; [done|]. by apply reset_tty_ok. }
  destruct (ansi_state t); [| |exact Hcsi..].
  - destruct (c =? 0x1B); [|by apply write_visible_ok]. eexists. split; [done|]. by apply set_ansi_tty_ok.
  - destruct (c =? 91); [|by apply write_visible_ok, reset_tty_ok]. eexists. split; [done|].
    apply set_ansi_tty_ok; [constructor|by unfold is_u|done].
Qed.

(** C33: Whatever bytes are written to the terminal, it never panics.  The cursor's row is on the
    screen and its column at most one past the last (the pending wrap).  Every character drawn is
    on the screen, blanks of an erase up to a pending wrap apart: these reach one column past
    the last ([erase_to_cursor_draws_outside]), as does the mark of the cursor. *)
Theorem tty_processes_bytes buf t :
  Forall (is_u 8) buf -> tty_ok cols rows t ->
  exists t', @write_bytes E cols rows buf t = Ok t' /\ tty_ok cols rows t'.
Proof using Hcols Hrows.
  intros Hbuf. revert t. induction Hbuf as [|c buf Hc _ IH]; intros t Ht; cbn; [by eexists|].
  destruct (write_char_ok c t Hc Ht) as (t1 & -> & Ht1). cbn [mbind outcome_bind]. by apply IH.
Qed.
End ScreenOps.

Lemma tty_processes_bytes_witness :
  exists t', @write_bytes unit 80 25 [27; 91; 51; 49; 109; 72; 105; 10; 27; 91; 50; 75; 9; 8; 200] TTYDevice_new = Ok t' /\
    tty_ok 80 25 t'.
Proof.
  apply tty_processes_bytes; [lia|lia|repeat constructor; vm_compute; congruence|].
  split; cbn; [lia|lia|constructor|by unfold is_u|constructor].
Defined.

(** Erasing to the cursor while a wrap is pending draws in the column past the last. *)
Example erase_to_cursor_draws_outside :
  exists t' s, @write_bytes unit 2 2 [65; 66; 27; 91; 49; 75] TTYDevice_new = Ok t' /\
    DrawChar 32 s 2 0 ∈ display t'.
Proof. eexists _, _. split; [vm_compute; reflexivity|]. cbn. left. Qed.

(** ** Control sequences *)
(** Decimal digits of a parameter; five are enough for 16 bits. *)
Fixpoint dec_digits (fuel : nat) (n : Z) : list Z :=
  match fuel with
  | O => []
  | S fuel => (if n <? 10 then [] else dec_digits fuel (n / 10)) ++ [48 + n mod 10]
  end.
Definition dec (n : Z) : list Z := dec_digits 5 n.

(** Parameters separated by semicolons. *)
Fixpoint csi_body (ps : list Z) : list Z :=
  match ps with
  | [] => []
  | [p] => dec p
  | p :: ps => dec p ++ [59] ++ csi_body ps
  end.
Definition csi_sequence (ps : list Z) (cmd : Z) : list Z := [0x1B; 91] ++ csi_body ps ++ [cmd].

(** A single parameter 0 reads as no parameter. *)
Definition params_read (ps : list Z) : list Z := if decide (ps = [0]) then [] else ps.

Section Sequences.
Context {E : Type} (cols rows : Z).

Lemma write_bytes_app l1 l2 t :
  @write_bytes E cols rows (l1 ++ l2) t = (t ← write_bytes cols rows l1 t; write_bytes cols rows l2 t).
Proof using.
  revert t. induction l1 as [|c l1 IH]; intros t; cbn; [done|].
  destruct (write_char_internal cols rows c t) as [t1| |]; cbn; [apply IH|done..].
Qed.

Definition in_csi (t : TTYDevice) : Prop := ansi_state t = Csi \/ ansi_state t = CsiParam.

Lemma write_digit d t :
  in_csi t -> 0 <= d < 10 -> 0 <= ansi_current_param t -> ansi_current_param t * 10 + d < 2 ^ 16 ->
  @write_char_internal E cols rows (48 + d) t =
    Ok (set_ansi CsiParam (ansi_params t) (ansi_current_param t * 10 + d) t).
Proof using.
  intros Hst Hd H0 Hsmall. unfold write_char_internal, between.
  rewrite (proj2 (Z.leb_le 48 (48 + d))), (proj2 (Z.leb_le (48 + d) 57)), usub_eq by lia. cbn.
  replace (saturating_add 16 _ _) with (ansi_current_param t * 10 + d)
    by (unfold saturating_add, saturating_mul, umax; lia).
  by destruct Hst as [-> | ->].
Qed.

Lemma write_dec_digits fuel n t :
  in_csi t -> 0 <= n < 2 ^ 16 -> n < 10 ^ Z.of_nat fuel -> ansi_current_param t = 0 ->
  @write_bytes E cols rows (dec_digits fuel n) t =
    Ok (if (fuel =? 0)%nat then t else set_ansi CsiParam (ansi_params t) n t).
Proof using.
  revert n t. induction fuel as [|fuel IH]; intros n t Hst Hn Hf Hcur; [done|].
  cbn [dec_digits Nat.eqb]. rewrite write_bytes_app.
  pose proof (Z.div_mod n 10 ltac:(lia)). pose proof (Z.mod_pos_bound n 10 ltac:(lia)).
  destruct (Z.ltb_spec n 10) as [Hs|Hs].
  - cbn [write_bytes mbind outcome_bind]. rewrite Z.mod_small by lia.
    rewrite write_digit by (rewrite ?Hcur; done || lia). rewrite Hcur. done.
  - assert (0 <= n / 10) by (apply Z.div_pos; lia).
    rewrite IH; [|done|lia| |done].
    2: { apply Z.div_lt_upper_bound; [lia|]. replace (Z.of_nat (S fuel)) with (Z.of_nat fuel + 1) in Hf by lia.
         rewrite Z.pow_add_r in Hf by lia. lia. }
    assert (fuel <> 0%nat) by (intros ->; cbn in Hf; lia).
    rewrite (proj2 (Nat.eqb_neq fuel 0)) by done. cbn [mbind outcome_bind write_bytes].
    rewrite write_digit; cbn; [|by right|lia..]. by replace (n / 10 * 10 + n mod 10) with n by lia.
Qed.

Lemma write_dec n t :
  in_csi t -> 0 <= n < 2 ^ 16 -> ansi_current_param t = 0 ->
  @write_bytes E cols rows (dec n) t = Ok (set_ansi CsiParam (ansi_params t) n t).
Proof using. intros. unfold dec. by rewrite write_dec_digits by (done || lia). Qed.

(** Reading the body collects all parameters but the last, which is the current one. *)
Lemma write_csi_body ps t :
  in_csi t -> Forall (is_u 16) ps -> ansi_current_param t = 0 -> ps <> [] ->
  exists init p, ps = init ++ [p] /\
    @write_bytes E cols rows (csi_body ps) t = Ok (set_ansi CsiParam (ansi_params t ++ init) p t).
Proof using.
  revert t. induction ps as [|p ps IH]; intros t Hst Hps Hcur Hne; [done|].
  apply Forall_cons in Hps as [Hp Hps]. destruct ps as [|q ps].
  - exists [], p. split; [done|]. cbn [csi_body]. rewrite write_dec by done. by rewrite app_nil_r.
  - change (csi_body (p :: q :: ps)) with (dec p ++ [59] ++ csi_body (q :: ps)).
    rewrite write_bytes_app, write_dec by done. cbn [mbind outcome_bind].
    rewrite write_bytes_app. cbn [write_bytes write_char_internal set_ansi ansi_state].
    cbn [between Z.leb Z.compare Pos.compare Pos.compare_cont andb Z.eqb Pos.eqb mbind outcome_bind ansi_params
      ansi_current_param].
    destruct (IH (set_ansi CsiParam (ansi_params t ++ [p]) 0 t)) as (init & r & Heq & Hrun); [by right|done|done|done|].
    exists (p :: init), r. split; [by rewrite Heq|].
    etransitivity; [exact Hrun|]. cbn [set_ansi ansi_params display cursor_x cursor_y cursor_visible style].
    by rewrite <-app_assoc.
Qed.

(** A control sequence is read back as it was written.  For any list of 16-bit
    parameters and any command byte, writing ESC [ p1 ; ... ; pn cmd to a terminal that
    is not inside a sequence runs that command with exactly those parameters and returns
    to the normal state. *)
Theorem csi_sequence_round_trip ps cmd t :
  ansi_state t = Normal -> Forall (is_u 16) ps -> 0x40 <= cmd <= 0x7E ->
  exists s cur, @write_bytes E cols rows (csi_sequence ps cmd) t =
    (t' ← csi_dispatch cols rows cmd (set_ansi s (params_read ps) cur t); Ok (reset_ansi_state t')).
Proof using.
  intros Hst Hps Hcmd. unfold csi_sequence.
  assert (@write_bytes E cols rows ([0x1B; 91] ++ csi_body ps ++ [cmd]) t =
    write_bytes cols rows (csi_body ps ++ [cmd]) (set_ansi Csi [] 0 t)) as ->.
  { assert (@write_char_internal E cols rows 0x1B t =
      Ok (set_ansi Escape (ansi_params t) (ansi_current_param t) t)) as H1.
    { unfold write_char_internal. by rewrite Hst. }
    cbn [app write_bytes]. rewrite H1. done. }
  rewrite write_bytes_app. set (t0 := set_ansi Csi [] 0 t).
  assert (forall u, in_csi u -> @write_bytes E cols rows [cmd] u = process_csi_command cols rows cmd u) as Hlast.
  { intros u Hu. cbn [write_bytes]. unfold write_char_internal, between.
    rewrite (proj2 (Z.leb_gt cmd 57)), andb_false_r, (proj2 (Z.eqb_neq cmd 59)) by lia.
    rewrite (proj2 (Z.leb_le 0x40 cmd)), (proj2 (Z.leb_le cmd 0x7E)) by lia. cbn [andb].
    destruct Hu as [-> | ->]; by destruct (process_csi_command cols rows cmd u). }
  destruct (decide (ps = [])) as [->|Hne].
  { cbn [csi_body write_bytes mbind outcome_bind]. exists Csi, 0.
    etransitivity; [apply (Hlast t0); by left|]. done. }
  destruct (write_csi_body ps t0) as (init & p & -> & ->); [by left|done|done|done|].
  cbn [mbind outcome_bind]. exists CsiParam, p.
  etransitivity; [apply Hlast; by right|]. unfold process_csi_command, params_read. cbn [set_ansi ansi_current_param ansi_params ansi_state].
  apply Forall_app in Hps as [_ Hp]. rewrite Forall_singleton in Hp.
  destruct init as [|i init]; cbn [app].
  - destruct (Z.ltb_spec 0 p) as [H|H]; cbn [orb].
    + rewrite decide_False by (intros [= ->]; lia). done.
    + assert (p = 0) as -> by (unfold is_u in Hp; lia). rewrite decide_True by done. done.
  - rewrite orb_true_r, decide_False; [done|]. by destruct init.
Qed.
End Sequences.

Lemma csi_sequence_round_trip_witness :
  (exists s cur, @write_bytes unit 80 25 (csi_sequence [1; 38; 5; 208] 109) TTYDevice_new =
    (t' ← csi_dispatch 80 25 109 (set_ansi s (params_read [1; 38; 5; 208]) cur TTYDevice_new);
     Ok (reset_ansi_state t'))) /\
  (style <$> match @write_bytes unit 80 25 (csi_sequence [1; 38; 5; 208] 109) TTYDevice_new with
             | Ok t => Some t | _ => None end) =
    Some (mkStyle true false false false (Some (255, 135, 0)) None).
Proof.
  split; [|vm_compute; reflexivity].
  apply csi_sequence_round_trip; [done|repeat constructor; vm_compute; congruence|lia].
Defined.
