(* ===== verification/Console.v ===== *)
(** * Standard input and output of a process
    (zenos-kernel/src/process/file_handles.rs, hardware/keyboard/mod.rs)

    The keyboard's buffer is filled by interrupts while [Stdin::read] consumes it, so a
    read is a step relation whose interleaving with the interrupts is free.  The scancode
    decoder (pc_keyboard) is a parameter. *)
From S2P Require Import Prelude PageAlloc OpenFile UserMem.

(** ** Keyboard *)
Inductive DecodedKey := Unicode (character : Z) | RawKey (code : Z).

Record KeyboardInput (K : Type) := mkKeyboard { keyboard : K; kb_buffer : list Z }.
Arguments mkKeyboard {K} _ _.
Arguments keyboard {K} _.
Arguments kb_buffer {K} _.

Section Keyboard.
(** [add_byte] followed by [process_keyevent]. *)
Context {K : Type} (decode : K -> Z -> option DecodedKey * K).

(** The new keyboard, and whether [STDIN_BLOCKED] is cleared. *)
Definition handle_scancode (kb : KeyboardInput K) (scancode : Z) : KeyboardInput K * bool :=
  let '(key, k) := decode (keyboard kb) scancode in
  match key with
  | Some (Unicode c) => (mkKeyboard k (kb_buffer kb ++ [wrap 8 c]), true)
  | Some (RawKey _) | None => (mkKeyboard k (kb_buffer kb), false)
  end.
End Keyboard.

Definition pop (buffer : list Z) : option (Z * list Z) :=
  match buffer with [] => None | b :: buffer => Some (b, buffer) end.

(** [tty_read_nonblocking]: as many bytes as there are slots, or as are buffered. *)
Fixpoint tty_read_nonblocking (slots : nat) (buffer : list Z) : list Z * list Z :=
  match slots with
  | O => ([], buffer)
  | S slots =>
      match pop buffer with
      | Some (b, buffer) => let '(bs, rest) := tty_read_nonblocking slots buffer in (b :: bs, rest)
      | None => ([], buffer)
      end
  end.

(** ** [Stdin::read] *)
Definition NEWLINE : Z := 10.
Definition BACKSPACE : Z := 8.

Record ReadState := mkRead { rd_kb : list Z; rd_buf : list Z; rd_count : nat }.

Inductive ReadStep := Continue (s : ReadState) | Return (n : nat) (s : ReadState) | Block.

(** One round of the loop. *)
Definition stdin_round (s : ReadState) : ReadStep :=
  if (length (rd_buf s) <=? rd_count s)%nat then Return (rd_count s) s
  else
    match tty_read_nonblocking 1 (rd_kb s) with
    | (byte :: _, kb) =>
        if byte =? NEWLINE
        then Return (rd_count s + 1) (mkRead kb (<[rd_count s := byte]> (rd_buf s)) (rd_count s))
        else if byte =? BACKSPACE
        then Continue (mkRead kb (rd_buf s) (if (0 <? rd_count s)%nat then rd_count s - 1 else rd_count s))
        else Continue (mkRead kb (<[rd_count s := byte]> (rd_buf s)) (rd_count s + 1))
    | ([], _) => Block
    end.

(** A read, interleaved with the bytes [arriving] from keyboard interrupts: the result,
    the buffer, and the bytes left in the keyboard's buffer and still to arrive. *)
Inductive stdin_read : list Z -> ReadState -> nat -> list Z -> list Z -> list Z -> Prop :=
| read_return arriving s n s' :
    stdin_round s = Return n s' -> stdin_read arriving s n (rd_buf s') (rd_kb s') arriving
| read_continue arriving s s' n buf kb rest :
    stdin_round s = Continue s' -> stdin_read arriving s' n buf kb rest -> stdin_read arriving s n buf kb rest
| read_interrupt b arriving s n buf kb rest :
    stdin_read arriving (mkRead (rd_kb s ++ [b]) (rd_buf s) (rd_count s)) n buf kb rest ->
    stdin_read (b :: arriving) s n buf kb rest.

(** ** [Stdout::write] and [Stderr::write] *)
Definition INVALID_UTF8 : list Z := (* "<invalid utf-8>" *)
  [60; 105; 110; 118; 97; 108; 105; 100; 32; 117; 116; 102; 45; 56; 62].

(** The bytes printed and the count returned. *)
Definition stdout_write (buf : list Z) : list Z * Z :=
  let buf := if utf8_ok buf then buf else INVALID_UTF8 in
  (buf, Z.of_nat (length buf)).
Definition stderr_write (buf : list Z) : list Z * Z :=
  let buf := if utf8_ok buf then buf else INVALID_UTF8 in
  (buf ++ [NEWLINE], Z.of_nat (length buf)).

(** ** Line editing *)
(** The line a reader is given of a stream of bytes: a newline ends it, a backspace
    removes the byte before, and it ends when [len] bytes are kept.  [None]: more bytes
    are needed. *)
Fixpoint edit_line (len : nat) (line stream : list Z) : option (list Z * list Z) :=
  if (len <=? length line)%nat then Some (line, stream)
  else
    match stream with
    | [] => None
    | b :: stream =>
        if b =? NEWLINE then Some (line ++ [b], stream)
        else if b =? BACKSPACE then edit_line len (take (length line - 1) line) stream
        else edit_line len (line ++ [b]) stream
    end.

Lemma edit_line_step len line b stream :
  (length line < len)%nat ->
  edit_line len line (b :: stream) =
    if b =? NEWLINE then Some (line ++ [b], stream)
    else if b =? BACKSPACE then edit_line len (take (length line - 1) line) stream
    else edit_line len (line ++ [b]) stream.
Proof. intros. cbn. by rewrite (proj2 (Nat.leb_gt _ _)) by lia. Qed.

Lemma edit_line_full len line stream : (len <= length line)%nat -> edit_line len line stream = Some (line, stream).
Proof. intros. destruct stream; cbn; by rewrite (proj2 (Nat.leb_le _ _)) by lia. Qed.

Definition kept (s : ReadState) : list Z := take (rd_count s) (rd_buf s).
Definition read_ok (s : ReadState) : Prop := (rd_count s <= length (rd_buf s))%nat.

Lemma kept_length s : read_ok s -> length (kept s) = rd_count s.
Proof. intros. unfold kept, read_ok in *. rewrite length_take. lia. Qed.

Lemma take_insert_next {A} (l : list A) n x : (n < length l)%nat -> take (n + 1) (<[n:=x]> l) = take n l ++ [x].
Proof.
  intros H. rewrite Nat.add_1_r, (take_S_r _ n x) by (by rewrite list_lookup_insert_eq).
  by rewrite take_insert_ge by lia.
Qed.

(** What a round does to the line kept so far and to the stream. *)
Lemma stdin_round_spec s arriving :
  read_ok s ->
  match stdin_round s with
  | Return n s' => edit_line (length (rd_buf s)) (kept s) (rd_kb s ++ arriving) =
      Some (take n (rd_buf s'), rd_kb s' ++ arriving) /\ length (rd_buf s') = length (rd_buf s) /\
      (n <= length (rd_buf s))%nat
  | Continue s' => edit_line (length (rd_buf s)) (kept s) (rd_kb s ++ arriving) =
      edit_line (length (rd_buf s')) (kept s') (rd_kb s' ++ arriving) /\
      read_ok s' /\ length (rd_buf s') = length (rd_buf s) /\ (length (rd_kb s') < length (rd_kb s))%nat
  | Block => rd_kb s = [] /\ (rd_count s < length (rd_buf s))%nat
  end.
Proof.
  intros Hok. pose proof (kept_length s Hok) as Hk. unfold stdin_round. unfold read_ok in Hok.
  destruct (Nat.leb_spec (length (rd_buf s)) (rd_count s)) as [Hfull|Hroom].
  { rewrite edit_line_full by lia. split; [done|]. split; [done|lia]. }
  destruct (rd_kb s) as [|b kb] eqn:Hkb; cbn [tty_read_nonblocking pop]; [done|].
  cbn [app]. rewrite edit_line_step by lia. destruct (Z.eqb_spec b NEWLINE) as [->|Hnl].
  { cbn. rewrite length_insert, take_insert_next by done. split; [done|]. split; [done|lia]. }
  destruct (Z.eqb_spec b BACKSPACE) as [->|Hbs]; cbn [rd_buf rd_kb].
  - split_and!; [|unfold read_ok; cbn [rd_buf rd_count]; case_match; lia|done|cbn; lia]. f_equal.
    rewrite Hk. unfold kept. cbn [rd_count rd_buf]. rewrite take_take. f_equal.
    destruct (Nat.ltb_spec 0 (rd_count s)); lia.
  - rewrite length_insert. split_and!; [|unfold read_ok; cbn; rewrite length_insert; lia|done|cbn; lia].
    f_equal. unfold kept. cbn. by rewrite take_insert_next.
Qed.

(** [Stdin::read] under every interleaving with keyboard interrupts.  A read that
    returns has filled the buffer with exactly the line that editing gives of the
    buffered and arriving bytes, and leaves the rest of them in order; and whenever these
    bytes hold a complete line, the read does return. *)
Theorem stdin_read_line kb arriving buf :
  let s := mkRead kb buf 0 in
  (forall n buf' kb' rest, stdin_read arriving s n buf' kb' rest ->
     edit_line (length buf) [] (kb ++ arriving) = Some (take n buf', kb' ++ rest) /\
     length buf' = length buf /\ (n <= length buf)%nat) /\
  (is_Some (edit_line (length buf) [] (kb ++ arriving)) ->
   exists n buf' kb' rest, stdin_read arriving s n buf' kb' rest).
Proof.
  intros s. split.
  - intros n buf' kb' rest Hrun. change [] with (kept s). change kb with (rd_kb s).
    change buf with (rd_buf s). assert (read_ok s) as Hok by (unfold read_ok; cbn; lia).
    clearbody s. induction Hrun as [arr s n s' Hr|arr s s' n b k rest Hr _ IH|b arr s n buf' k rest _ IH].
    + pose proof (stdin_round_spec s arr Hok) as H. by rewrite Hr in H.
    + pose proof (stdin_round_spec s arr Hok) as H. rewrite Hr in H. destruct H as (-> & Hok' & Hlen & _).
      rewrite <-Hlen. by apply IH.
    + specialize (IH Hok). cbn in IH. by rewrite <-app_assoc in IH.
  - assert (read_ok s) as Hok by (unfold read_ok; cbn; lia).
    change [] with (kept s) at 1. change kb with (rd_kb s). change buf with (rd_buf s). clearbody s.
    remember (2 * length (rd_kb s) + 3 * length arriving)%nat as m eqn:Hm. revert s arriving Hok Hm.
    induction (lt_wf m) as [m _ IH]; intros s arr Hok Hm Hline.
    pose proof (stdin_round_spec s arr Hok) as H. destruct (stdin_round s) as [s'|n s'|] eqn:Hr.
    + destruct H as (Heq & Hok' & _ & Hlt). rewrite Heq in Hline.
      edestruct IH with (s := s') (arriving := arr) as (n & b & k & rest & Hrun); [|done|reflexivity|done|].
      { lia. }
      exists n, b, k, rest. by eapply read_continue.
    + eexists _, _, _, _. by eapply read_return.
    + destruct H as [Hkb Hroom]. destruct arr as [|b arr].
      { rewrite Hkb in Hline. cbn in Hline. rewrite kept_length, (proj2 (Nat.leb_gt _ _)) in Hline by done.
        by destruct Hline. }
      edestruct IH with (s := mkRead (rd_kb s ++ [b]) (rd_buf s) (rd_count s)) (arriving := arr)
        as (n & b' & k & rest & Hrun); [|done|reflexivity| |].
      { cbn. rewrite length_app. cbn in *. lia. }
      { cbn. by rewrite <-app_assoc. }
      exists n, b', k, rest. by apply read_interrupt.
Qed.

Example stdin_read_example :
  edit_line 8 [] [104; 106; 8; 105; 10; 120] = Some ([104; 105; 10], [120]).
Proof. reflexivity. Qed.

(** A write of bytes that are not UTF-8 reports 15 bytes written, whatever its length. *)
Example stdout_write_overreports : stdout_write [0xFF] = (INVALID_UTF8, 15).
Proof. reflexivity. Qed.

Lemma stdout_write_utf8 buf : utf8_ok buf = true -> stdout_write buf = (buf, Z.of_nat (length buf)).
Proof. intros H. unfold stdout_write. by rewrite H. Qed.
